(* ===== verification/_CoqProject ===== *)
-Q . S2P
Prelude.v
Words.v
Queue.v
QueueInv.v
QueueTheorems.v
Mem.v
MemTheorems.v
Str.v
StrTheorems.v
Num.v
NumTheorems.v
Printf.v
PrintfTheorems.v
PrintfFormat.v
Snprintf.v
Rb.v
RbMem.v
RbRotate.v
RbInsert.v
RbRemove.v
RbOps.v
RbPrune.v
RbSwap.v
RbTheorems.v
Zone.v
Stree.v
Locks.v
Machine.v
Pfnalloc.v
Hal.v
X86Pmap.v
RvPmap.v
PageTable.v
Space.v
UmapInit.v
UmapScan.v
UmapFree.v
Kmap.v
Kva.v
KvaInv.v
KvaOps.v
KvaTheorems.v
Kmem.v
KmemInv.v
KmemOps.v
HeapMap.v
Slab.v
SlabInv.v
SlabOps.v
SlabTheorems.v
Pae64.v
Amd64.v
HeapAmd64.v
Umap64.v
UmapCur64.v
Sv48.v
Riscv.v
HeapRiscv.v
UmapSv48.v
UmapCurSv48.v
Umap.v
UmapHals.v
Cpu.v
CpuInv.v
Tlb.v
Apxh.v
ApxhPt.v
ApxhPages.v
ApxhLoad.v
ApxhCopy.v
ApxhElf.v
ApxhTree.v
ApxhStree.v
ApxhArch.v
ApxhExample.v
