(* ===== verification/Prelude.v ===== *)
(** * A verification of the NUX kernel library

    NUX (src/) is a C framework for writing kernels: a library of machine
    independent services (libnux/), hardware abstraction layers (libhal_x86/,
    libhal_riscv/), platform layers (libplt_acpi/, libplt_sbi/), a small C library
    (libec/) and a boot loader (apxh/). This development is a shallow embedding of
    the services that manage memory and CPUs and of what they are built on, with
    theorems about what they promise.

    ** The program and its models

    Physical frames are handed out by a page allocator. Page tables are built in
    such frames, by one HAL per architecture. kmap.c changes the kernel's mappings
    through the HAL, umap.c those of user address spaces, and both record which TLB
    entries have become stale; cpu.c brings the TLBs of all CPUs up to date with
    non-maskable interrupts. On the kernel's mappings stand the heap (kmem.c) and
    the allocator of kernel addresses (kva.c), which share the zone allocator of
    alloc.h and differ in where they keep its entries: in the free blocks
    themselves, and in a red-black tree (libec/rb.c) of entries from the heap. The
    slab allocator (slabinc.c) cuts objects out of pages whose addresses kva.c
    gives. Before all this the boot loader (apxh/) has put the kernel in memory, built
    its page tables and the S-tree of free frames.

    - Prelude, Words: outcomes, the state monad and its rules, tactics; machine
      integers and the bit builtins.
    - Rb, RbMem, RbRotate, RbInsert, RbRemove, RbOps, RbPrune, RbSwap,
      RbTheorems: libec/rb.c and rbtree.h. Nodes are words in memory, with the
      colour and the side in the low bits of the father link. An inductive type of
      trees with a reading of memory carries the invariants; the searches, the
      insertion and the removal in all their cases, and iteration, are proved
      against the list of nodes in order.
    - Queue, QueueInv, QueueTheorems: the list macros of libec/queue.h, on words of
      memory; the linked structures are related to lists of elements.
    - Mem, MemTheorems, Str, StrTheorems: the memory and string routines of libec/,
      on bytes of memory.
    - Num, NumTheorems: strtoul. Printf, PrintfTheorems, PrintfFormat, Snprintf:
      the printf family, against a reference rendering of formats.
    - Stree: include/stree.h, the bitmap with summary levels; its contract is a
      set of addresses.
    - Locks: include/nux/locks.h, in sequence, and as a transition system of any
      number of CPUs.
    - Machine, Pfnalloc: frames, libnux/pfncache.c's direct map, and
      libnux/pfnalloc.c as an instance of the class [PfnAllocator].
    - Hal, X86Pmap, RvPmap: include/nux/hal.h and the entries of
      libhal_x86/pmap.c and libhal_riscv/pmap.c.
    - PageTable, Space, UmapInit, UmapScan, UmapFree: trees of tables, address
      spaces, and the loops both HALs share.
    - Pae64, Amd64, Umap64, UmapCur64: libhal_x86/amd64/pae64.c and pmap.c. The kernel's
      tables are reached through the recursive linear map, and the model reads
      them as the CPU would.
    - Sv48, Riscv, UmapSv48, UmapCurSv48: libhal_riscv/sv48.c and pmap.c.
    - Kmap: libnux/kmap.c and ktlbgen.c, over the class [HalPmap], whose laws
      [HalPmapLaws] the two HALs discharge.
    - Umap, UmapHals: libnux/umap.c over the class [HalUmap], and its instances. A map
      is edited in its own tables, or, when it is the loaded one, in those of the CPU;
      UmapCur64 and UmapCurSv48 show that loading a map makes these the same tables.
    - Zone: libnux/alloc.h over the class [ZoneEnv].
    - Kva, KvaInv, KvaOps, KvaTheorems: libnux/kva.c.
    - Kmem, KmemInv, KmemOps: libnux/kmem.c over the class [HeapEnv]; HeapMap,
      HeapAmd64, HeapRiscv: the heap's words are words of the frames that kmap.c
      has mapped, on each architecture.
    - Slab, SlabInv, SlabOps, SlabTheorems: libnux/slabinc.c and slab.c over the
      class [SlabEnv]; a constructor is any function that writes only the object it
      is called on. Objects have at most 4032 bytes: a slab of one larger object is
      where the code breaks (a finding of the manifest).
    - Cpu, CpuInv: libnux/cpu.c, include/nux/cpumask.h, init.c's status and
      uaddr.c.
    - Tlb: the interleavings of kmap.c, ktlbgen.c and cpu.c on all CPUs, with x86's
      choice of the flush that a change asks for.
    - Apxh, ApxhPt, ApxhPages, ApxhArch: the pages and page tables of the boot loader
      (apxh/src/main.c, pae.c, rv64-sv.c), over the class [BootArch] of what the two
      architectures differ in. ApxhLoad: the rest of main.c and elf.c. ApxhCopy,
      ApxhElf, ApxhTree, ApxhStree, ApxhExample: what is proved of them.

    ** Conventions

    A C function that uses state becomes a function in the monad [M S A] from a
    state to an [outcome]: a result and a new state, or the reason why the machine
    stopped: a failed assertion, a fatal error, a fault (an access through a pointer
    that points nowhere), undefined behaviour, or a loop that does not end. A
    theorem that a call returns therefore also says that no assertion fails and no
    stray pointer is used. State is a record with the names of the source's
    variables; a component embeds the state of the one below with [zoom]. Integers
    are [Z] with their wrap-around written out ([u64], [u32], [s32], ...). What a
    component asks of another is a class of operations and a class of laws, and the
    client is verified against the laws. The page tables of both architectures
    discharge those of kmap.c, umap.c and the heap, and the S-tree allocator those of
    the page allocator; those of kva.c and of the slab allocator have small instances
    that show that they can hold.

    Loops and recursions that are not structural take fuel, computed from the
    state so that it is never used up: the number of nodes for walks of a tree, of
    words for the scans of tables, of entries of a list for loops over it, of mapped
    bytes for loops that only a terminator ends; the theorems state that the call
    returns. Running out of fuel would be the outcome [Hang].

    ** The theorems

    - Memory safety of mappings: after [kmap_map] the CPU translates the page to the
      frame and every other page as before, on both architectures; after [umap_map]
      the tables of the map, and those of the CPU if the map is loaded, have the frame
      at the page and every other entry as before; a user map can be created, used in any way, and freed, and then exactly the
      frames that were free before are free again; loading a map gives the CPU the
      user part of that map and no other.
    - TLB consistency: in every interleaving of any number of CPUs, a CPU that has
      no NMI pending holds no translation that was changed before the last commit
      that reached it.
    - Allocators: the page allocator, the zones, kva.c, the heap and the slabs give
      out what is free, to one caller at a time, and get back what they gave; blocks
      of the heap are backed by frames of their own; when each can fail. The theorems
      on the heap are about the upper one of its two halves.
    - Boot loader: every byte of a kernel is where its program headers say, with the
      access they ask for, and nothing else is mapped; the S-tree holds the frames of
      RAM that the loader has not used.
    - Data structures: the red-black trees, the S-tree and its history of updates,
      the linked lists.
    - C library: copying whatever the overlap and the alignment; every format prints
      its reference rendering within the buffer; numbers are read back as printed.
    - Locks: mutual exclusion and progress of the reader-writer lock.
    - Codecs and bounds: page table entries are encoded and decoded without loss;
      the comparison of TLB generations detects every lag but the multiples of 64
      after a wrap.

    ** What is assumed

    Frame contents and kernel data are separate memories, except that the tables
    that map them are read as the CPU reads them. The kernel starts with page tables
    of the shape that the HALs require ([cpu_inv] of Pae64, [sv_inv] of Sv48); the
    theorems on the boot loader are not composed with those on the kernel. In Tlb the
    change of an entry is one step, so that two CPUs that change the same page at once
    are not covered. The boot loader's firmware is the class [BootMd]: regions of
    memory, and what else it reports.
    interrupts are modelled where a component is about them (Cpu, Tlb), and other
    components run with the lock they take. The interface of the slab allocator to
    kva.c and kmap.c is the class [SlabEnvLaws]; that of kva.c to the heap is
    [KvaEnvLaws]; their instances are small machines, not the heap and kva.c.

    ** Not modelled

    - Devices and firmware: the console, ACPI and SBI platforms, APICs and timers,
      and the boot loader's firmware interfaces consist of register and table
      accesses whose meaning is outside the source.
    - Assembly, CPU set-up and trap frames (crt0, entry, x86.c, riscv.c, frame.c)
      need a semantics of the instruction sets.
    - The 32-bit x86 page tables (pae32.c, and pae_* of apxh/src/pae.c) and 32-bit
      payloads: only the 64-bit ones are modelled.
    - The boot loader's detection of CPU features and its jump to the kernel.
    - Log and statistics output, performance counters, the example kernel, and the
      host tools.
*)

From stdpp Require Export prelude list list_numbers gmap fin_maps sets relations.
From Stdlib Require Export ZArith Lia.
From stdpp Require Import options.

#[global] Open Scope Z_scope.
#[global] Coercion Z.of_nat : nat >-> Z.

(** * Outcomes

    A C function either returns, or stops the machine: [assert] fails, the
    code calls [fatal], [exit (-1)], [nux_panic] or [hal_cpu_halt], it touches
    memory the model does not hold, it does what C leaves undefined, or it
    waits for a lock that its own CPU holds. *)

Inductive abort : Set :=
  | AssertFail
  | Fatal
  | Fault
  | Undef
  | Hang.

Inductive outcome (A : Type) : Type :=
  | Ret (a : A)
  | Abort (e : abort).
Arguments Ret {A} a.
Arguments Abort {A} e.

#[global] Instance abort_eq_dec : EqDecision abort.
Proof. solve_decision. Defined.

(** [M S A]: code that reads and writes the state [S] and returns an [A]. *)
Definition M (S A : Type) : Type := S → outcome (A * S).

#[global] Instance M_ret S : MRet (M S) := λ A a s, Ret (a, s).
#[global] Instance M_bind S : MBind (M S) := λ A B f m s,
  match m s with
  | Ret (a, s') => f a s'
  | Abort e => Abort e
  end.

Section prims.
Context {S : Type}.

Definition gets {A} (f : S → A) : M S A := λ s, Ret (f s, s).

Definition modify (f : S → S) : M S unit := λ s, Ret (tt, f s).

Definition stop {A} (e : abort) : M S A := λ _, Abort e.

Definition assertb (b : bool) : M S unit := λ s,
  if b then Ret (tt, s) else Abort AssertFail.

Definition opt_or {A} (e : abort) (o : option A) : M S A := λ s,
  match o with Some a => Ret (a, s) | None => Abort e end.

(** [a && b]: [b] runs only if [a] holds. *)
Definition andM (a b : M S bool) : M S bool := λ s,
  match a s with
  | Ret (true, s') => b s'
  | r => r
  end.

Definition when (b : bool) (m : M S unit) : M S unit :=
  if b then m else mret tt.

(** [for (x : l) body x], in the order of [l]. *)
Fixpoint for_each {A} (l : list A) (body : A → M S unit) : M S unit :=
  match l with
  | [] => mret tt
  | x :: l' => body x;; for_each l' body
  end.

(** The same with an early return: the first [Some] ends the loop. *)
Fixpoint for_find {A B} (l : list A) (body : A → M S (option B)) : M S (option B) :=
  match l with
  | [] => mret None
  | x :: l' => r ← body x; match r with Some b => mret (Some b) | None => for_find l' body end
  end.

End prims.

Fixpoint first_some {A B} (g : A → option B) (l : list A) : option B :=
  match l with
  | [] => None
  | x :: l' => match g x with Some b => Some b | None => first_some g l' end
  end.

(** Running code of a component inside a larger state. *)
Definition zoom {S T A} (get : T → S) (set : S → T → T) (m : M S A) : M T A := λ t,
  match m (get t) with
  | Ret (a, s') => Ret (a, set s' t)
  | Abort e => Abort e
  end.

(** * Equations of the monad *)

Section monad_lemmas.
Context {S : Type}.

Lemma bind_Ret {A B} (m : M S A) (f : A → M S B) s a s' :
  m s = Ret (a, s') → (m ≫= f) s = f a s'.
Proof. intros H. unfold mbind, M_bind. by rewrite H. Qed.

Lemma bind_Abort {A B} (m : M S A) (f : A → M S B) s e :
  m s = Abort e → (m ≫= f) s = Abort e.
Proof. intros H. unfold mbind, M_bind. by rewrite H. Qed.

Lemma bind_Ret_inv {A B} (m : M S A) (f : A → M S B) s r :
  (m ≫= f) s = Ret r → ∃ a s', m s = Ret (a, s') ∧ f a s' = Ret r.
Proof.
  unfold mbind, M_bind. destruct (m s) as [[a s']|e]; [eauto|done].
Qed.

Lemma bind_mret {A B} (a : A) (f : A → M S B) s : (mret a ≫= f) s = f a s.
Proof. done. Qed.

Lemma bind_gets {A B} (g : S → A) (f : A → M S B) s : (gets g ≫= f) s = f (g s) s.
Proof. done. Qed.

Lemma bind_modify {B} (g : S → S) (f : unit → M S B) s :
  (modify g ≫= f) s = f tt (g s).
Proof. done. Qed.

Lemma bind_assert {B} (b : bool) (f : unit → M S B) s :
  b = true → (assertb b ≫= f) s = f tt s.
Proof. by intros ->. Qed.

Lemma bind_opt {A B} e (a : A) (f : A → M S B) s : (opt_or e (Some a) ≫= f) s = f a s.
Proof. done. Qed.

Lemma bind_when_false {B} (m : M S unit) (f : unit → M S B) s :
  (when false m ≫= f) s = f tt s.
Proof. done. Qed.

Lemma bind_assoc {A B C} (m : M S A) (f : A → M S B) (g : B → M S C) s :
  ((m ≫= f) ≫= g) s = (m ≫= λ a, f a ≫= g) s.
Proof. unfold mbind, M_bind. by destruct (m s) as [[a s']|e]. Qed.

Lemma for_each_app {A} (l k : list A) (body : A → M S unit) s :
  for_each (l ++ k) body s = (for_each l body;; for_each k body) s.
Proof.
  revert s. induction l as [|x l IH]; intros s; [done|]. simpl.
  rewrite bind_assoc. unfold mbind, M_bind in *.
  destruct (body x s) as [[? s']|e]; [apply IH|done].
Qed.

(** [wp m Q s]: from [s], [m] returns, and with a result and a state in [Q]. *)
Definition wp {A} (m : M S A) (Q : A → S → Prop) (s : S) : Prop :=
  match m s with Ret (a, s') => Q a s' | Abort _ => False end.

Lemma wp_Ret {A} (m : M S A) Q s a s' : m s = Ret (a, s') → Q a s' → wp m Q s.
Proof. unfold wp. by intros ->. Qed.

Lemma wp_elim {A} (m : M S A) Q s : wp m Q s → ∃ a s', m s = Ret (a, s') ∧ Q a s'.
Proof. unfold wp. destruct (m s) as [[a s']|]; [eauto|done]. Qed.

Lemma wp_mono {A} (m : M S A) (Q Q' : A → S → Prop) s : wp m Q s → (∀ a s', Q a s' → Q' a s') → wp m Q' s.
Proof. unfold wp. destruct (m s) as [[a s']|]; auto. Qed.

Lemma wp_bind {A B} (m : M S A) (f : A → M S B) Q s : wp m (λ a s', wp (f a) Q s') s → wp (m ≫= f) Q s.
Proof. unfold wp, mbind, M_bind. by destruct (m s) as [[a s']|]. Qed.

Lemma wp_mret {A} (a : A) (Q : A → S → Prop) s : Q a s → wp (mret a) Q s.
Proof. done. Qed.

Lemma wp_andM (a b : M S bool) Q s :
  wp a (λ x s', if x then wp b Q s' else Q false s') s → wp (andM a b) Q s.
Proof. unfold wp, andM. by destruct (a s) as [[[] s']|]. Qed.

(** Loop rule: an invariant indexed by the elements already visited. *)
Lemma for_each_inv {A} (l : list A) (body : A → M S unit) (I : list A → S → Prop) s :
  I [] s →
  (∀ done x rest s, l = done ++ x :: rest → I done s →
     ∃ s', body x s = Ret (tt, s') ∧ I (done ++ [x]) s') →
  ∃ s', for_each l body s = Ret (tt, s') ∧ I l s'.
Proof.
  intros H0 Hstep.
  cut (∀ rest done s, l = done ++ rest → I done s →
         ∃ s', for_each rest body s = Ret (tt, s') ∧ I l s').
  { intros Hgen. by apply (Hgen l [] s). }
  induction rest as [|x rest IH]; intros done s1 Heq HI.
  - exists s1. rewrite app_nil_r in Heq. by subst.
  - destruct (Hstep done x rest s1 Heq HI) as (s2 & Hb & HI2).
    destruct (IH (done ++ [x]) s2) as (s3 & Hr & HI3); [|done|].
    + by rewrite <- app_assoc.
    + exists s3. split; [|done]. simpl. by rewrite (bind_Ret _ _ _ _ _ Hb).
Qed.

(** A search that does not change the state. *)
Lemma for_find_pure {A B} (l : list A) (body : A → M S (option B)) (g : A → option B) s :
  (∀ x, x ∈ l → body x s = Ret (g x, s)) → for_find l body s = Ret (first_some g l, s).
Proof.
  induction l as [|x l IH]; intros Hb; [done|]. simpl.
  rewrite (bind_Ret _ _ _ _ _ (Hb x ltac:(left))). destruct (g x); [done|].
  apply IH. intros y Hy. apply Hb. by right.
Qed.

End monad_lemmas.

Create Rewrite HintDb monad.
#[export] Hint Rewrite @bind_mret @bind_gets @bind_modify @bind_opt
  @bind_when_false : monad.

(** [mrun] performs the steps of the code at hand that always succeed;
    [mrun H] performs the next call using [H : call s = Ret (_, _)]. *)
Tactic Notation "mrun" := repeat progress (autorewrite with monad; cbn beta iota).
Tactic Notation "mrun" constr(H) := rewrite (bind_Ret _ _ _ _ _ H); mrun.

(** Case analysis on the boolean test the code is stuck on. *)
Ltac case_bool :=
  match goal with
  | |- context [if ?b then _ else _] =>
      let E := fresh "E" in destruct b eqn:E
  | H : context [if ?b then _ else _] |- _ =>
      let E := fresh "E" in destruct b eqn:E
  end.

(** * Lists *)

Lemma list_insert_lookup_total {A} `{Inhabited A} (l : list A) (i j : nat) x :
  (i < length l)%nat →
  <[i := x]> l !!! j = if decide (i = j) then x else l !!! j.
Proof.
  intros Hi. rewrite !list_lookup_total_alt. case_decide as Hij.
  - subst. by rewrite list_lookup_insert_eq.
  - by rewrite list_lookup_insert_ne.
Qed.

Lemma lookup_lt_total {A} `{Inhabited A} (l : list A) (i : nat) :
  (i < length l)%nat → l !! i = Some (l !!! i).
Proof. intros Hi. by apply list_lookup_lookup_total_lt. Qed.

(** * Least indices *)

(** [least P lo hi r]: [r] is the least index of [P] from [lo] to [hi], if any. *)
Definition least (P : Z → Prop) (lo hi : Z) (r : option Z) : Prop :=
  match r with
  | Some n => lo ≤ n < hi ∧ P n ∧ ∀ m, lo ≤ m < n → ¬ P m
  | None => ∀ m, lo ≤ m < hi → ¬ P m
  end.

Lemma least_split P lo mid hi r1 r2 :
  lo ≤ mid → mid ≤ hi → least P lo mid r1 → least P mid hi r2 →
  least P lo hi (match r1 with Some n => Some n | None => r2 end).
Proof.
  intros Hl Hh H1 H2. destruct r1 as [n|]; [|destruct r2 as [n|]]; simpl in *.
  - destruct H1 as (? & ? & ?). split_and!; [lia..|done|done].
  - destruct H2 as (? & ? & Hb). split_and!; [lia..|done|]. intros m Hm.
    destruct (Z.lt_ge_cases m mid); [apply H1|apply Hb]; lia.
  - intros m Hm. destruct (Z.lt_ge_cases m mid); [apply H1|apply H2]; lia.
Qed.

(** Searching block after block of [w] indices. *)
Lemma least_blocks P w (g : Z → option Z) (n : nat) : ∀ lo,
  0 < w → (∀ i, lo ≤ i < lo + n → least P (i * w) ((i + 1) * w) (g i)) →
  least P (lo * w) ((lo + n) * w) (first_some g (seqZ lo n)).
Proof.
  induction n as [|n IH]; intros lo Hw Hg.
  - rewrite Z.add_0_r. simpl. intros m Hm. lia.
  - rewrite seqZ_cons by lia. cbn [first_some]. replace (Z.pred (S n)) with (Z.of_nat n) by lia.
    apply (least_split P _ ((lo + 1) * w)); [nia|nia|apply Hg; lia|].
    replace (lo + S n) with (lo + 1 + n) by lia. replace (Z.succ lo) with (lo + 1) by lia.
    apply IH; [done|]. intros i Hi. apply Hg. lia.
Qed.
