(* ===== verification/Words.v ===== *)
(** Machine integers: the widths C gives them, the shifts it leaves undefined,
    and the bit-counting builtins. A [w]-bit unsigned value is a [Z] in
    [0, 2^w); every definition below writes its wrap-around out. *)

From S2P Require Import Prelude.

(** * Wrapping *)

Definition u8 (x : Z) : Z := x `mod` 2 ^ 8.
Definition u16 (x : Z) : Z := x `mod` 2 ^ 16.
Definition u32 (x : Z) : Z := x `mod` 2 ^ 32.
Definition u64 (x : Z) : Z := x `mod` 2 ^ 64.

(** Two's complement reading of a 32-bit and a 64-bit pattern. *)
Definition s32 (x : Z) : Z :=
  if u32 x <? 2 ^ 31 then u32 x else u32 x - 2 ^ 32.
Definition s64 (x : Z) : Z :=
  if u64 x <? 2 ^ 63 then u64 x else u64 x - 2 ^ 64.

(** [~ x] at 32 and at 64 bits. *)
Definition not32 (x : Z) : Z := u32 (Z.lnot x).
Definition not64 (x : Z) : Z := u64 (Z.lnot x).

(** [x << n] on [int], on [unsigned] and on a 64-bit type. A count outside
    the width is undefined; the sign bit is set the way gcc documents it. *)
Definition shl_int (x n : Z) : option Z :=
  if (0 <=? n) && (n <? 32) then Some (s32 (Z.shiftl x n)) else None.
Definition shl_u32 (x n : Z) : option Z :=
  if (0 <=? n) && (n <? 32) then Some (u32 (Z.shiftl x n)) else None.
Definition shl_u64 (x n : Z) : option Z :=
  if (0 <=? n) && (n <? 64) then Some (u64 (Z.shiftl x n)) else None.

Definition word64 (x : Z) : Prop := 0 ≤ x < 2 ^ 64.
Definition word32 (x : Z) : Prop := 0 ≤ x < 2 ^ 32.

(** * Bit counting *)

Fixpoint pos_ctz (p : positive) : Z :=
  match p with
  | (q~0)%positive => 1 + pos_ctz q
  | _ => 0
  end.

Fixpoint pos_popcount (p : positive) : Z :=
  match p with
  | (q~0)%positive => pos_popcount q
  | (q~1)%positive => 1 + pos_popcount q
  | xH => 1
  end.

(** [__builtin_ctzll], [__builtin_clzll] on a non-zero word,
    [__builtin_popcountl], [__builtin_ffsl]. *)
Definition ctz (x : Z) : Z := match x with Zpos p => pos_ctz p | _ => 0 end.
Definition clz64 (x : Z) : Z := 63 - Z.log2 x.
Definition popcount (x : Z) : Z := match x with Zpos p => pos_popcount p | _ => 0 end.
Definition ffs (x : Z) : Z := if x =? 0 then 0 else ctz x + 1.

(** How many of [0 .. n - 1] satisfy [p]. *)
Fixpoint count_below (p : Z → bool) (n : nat) : Z :=
  match n with
  | O => 0
  | S n' => count_below p n' + Z.b2z (p n')
  end.

(** * Lemmas *)

Lemma count_below_ext p q (n : nat) :
  (∀ i, 0 ≤ i < n → p i = q i) → count_below p n = count_below q n.
Proof.
  intros H. induction n as [|n IH]; [done|]. simpl. rewrite H by lia.
  rewrite IH; [done|]. intros i Hi. apply H. lia.
Qed.

Lemma count_below_add p (m n : nat) :
  count_below p (m + n) = count_below p m + count_below (λ i, p (m + i)) n.
Proof.
  induction n as [|n IH].
  - rewrite Nat.add_0_r. simpl. lia.
  - rewrite Nat.add_succ_r. simpl. rewrite IH, Nat2Z.inj_add. lia.
Qed.

Lemma count_below_bounds p (n : nat) : 0 ≤ count_below p n ≤ n.
Proof. induction n as [|n IH]; simpl; [lia|]. destruct (p n); simpl; lia. Qed.

Lemma count_below_pos p (n : nat) i : 0 ≤ i < n → p i = true → 0 < count_below p n.
Proof.
  intros Hi Hp. induction n as [|n IH]; [lia|]. simpl.
  pose proof (count_below_bounds p n). destruct (decide (i = n)) as [->|].
  - rewrite Hp. simpl. lia.
  - destruct (p n); simpl; lia.
Qed.

(** Changing [p] at one point changes the count by that point. *)
Lemma count_below_update p q (n : nat) a :
  0 ≤ a < n → (∀ i, 0 ≤ i < n → i ≠ a → q i = p i) →
  count_below q n = count_below p n - Z.b2z (p a) + Z.b2z (q a).
Proof.
  intros Ha Hpq. induction n as [|n IH]; [lia|]. simpl.
  destruct (decide (a = n)) as [->|Hne].
  - rewrite (count_below_ext q p n); [lia|]. intros i Hi. apply Hpq; lia.
  - rewrite IH, (Hpq n) by (try lia; intros; apply Hpq; lia). lia.
Qed.

Lemma u64_small x : word64 x → u64 x = x.
Proof. unfold word64, u64. intros. by apply Z.mod_small. Qed.

Lemma u32_small x : word32 x → u32 x = x.
Proof. unfold word32, u32. intros. by apply Z.mod_small. Qed.

Lemma u64_range x : word64 (u64 x).
Proof. unfold word64, u64. apply Z.mod_pos_bound. lia. Qed.

Lemma u32_range x : word32 (u32 x).
Proof. unfold word32, u32. apply Z.mod_pos_bound. lia. Qed.

Lemma testbit_u64 x i : Z.testbit (u64 x) i = (i <? 64) && Z.testbit x i.
Proof.
  unfold u64. destruct (Z.ltb_spec i 64) as [Hi|Hi]; simpl.
  - destruct (decide (0 ≤ i)).
    + by apply Z.mod_pow2_bits_low.
    + rewrite !Z.testbit_neg_r by lia. done.
  - apply Z.mod_pow2_bits_high. lia.
Qed.

Lemma testbit_u32 x i : Z.testbit (u32 x) i = (i <? 32) && Z.testbit x i.
Proof.
  unfold u32. destruct (Z.ltb_spec i 32) as [Hi|Hi]; simpl.
  - destruct (decide (0 ≤ i)).
    + by apply Z.mod_pow2_bits_low.
    + rewrite !Z.testbit_neg_r by lia. done.
  - apply Z.mod_pow2_bits_high. lia.
Qed.

Lemma testbit_above x n i : 0 ≤ x < 2 ^ n → n ≤ i → Z.testbit x i = false.
Proof.
  intros Hx Hi. destruct (decide (0 ≤ n)) as [Hn|Hn].
  - rewrite <- (Z.mod_small x (2 ^ n)) by done. apply Z.mod_pow2_bits_high. lia.
  - rewrite Z.pow_neg_r in Hx by lia. lia.
Qed.

Lemma lt_pow2_bits x n :
  0 ≤ n → 0 ≤ x → (∀ i, n ≤ i → Z.testbit x i = false) → x < 2 ^ n.
Proof.
  intros Hn Hx Hb.
  assert (x = x `mod` 2 ^ n) as ->; [|apply Z.mod_pos_bound; lia].
  apply Z.bits_inj'. intros i Hi. destruct (decide (i < n)).
  - by rewrite Z.mod_pow2_bits_low.
  - rewrite Z.mod_pow2_bits_high by lia. apply Hb. lia.
Qed.

Lemma nonzero_bit x : x ≠ 0 → 0 ≤ x → ∃ i, 0 ≤ i ∧ Z.testbit x i = true.
Proof.
  intros Hx H0. exists (Z.log2 x). split; [apply Z.log2_nonneg|].
  apply Z.bit_log2. lia.
Qed.

Lemma bit_nonzero x i : Z.testbit x i = true → x ≠ 0.
Proof. intros H ->. by rewrite Z.testbit_0_l in H. Qed.

Lemma testbit_one_shl k i : 0 ≤ k → Z.testbit (Z.shiftl 1 k) i = (i =? k).
Proof.
  intros Hk. destruct (decide (0 ≤ i)) as [Hi|Hi].
  - rewrite Z.shiftl_spec by done. destruct (Z.eqb_spec i k) as [->|Hne].
    + by rewrite Z.sub_diag.
    + destruct (decide (i < k)).
      * by rewrite Z.testbit_neg_r by lia.
      * apply (testbit_above 1 1); lia.
  - rewrite Z.testbit_neg_r by lia. symmetry. apply Z.eqb_neq. lia.
Qed.

Lemma lor_word64 x y : word64 x → word64 y → word64 (Z.lor x y).
Proof.
  intros [Hx0 Hx] [Hy0 Hy]. assert (0 ≤ Z.lor x y) by by apply Z.lor_nonneg.
  split; [done|]. apply lt_pow2_bits; [lia|done|]. intros i Hi.
  rewrite Z.lor_spec, (testbit_above x 64), (testbit_above y 64); done.
Qed.

Lemma land_word64 x y : word64 x → 0 ≤ y → word64 (Z.land x y).
Proof.
  intros [Hx0 Hx] Hy. assert (0 ≤ Z.land x y) by (apply Z.land_nonneg; auto).
  split; [done|]. apply lt_pow2_bits; [lia|done|]. intros i Hi.
  rewrite Z.land_spec, (testbit_above x 64); done.
Qed.

(** ** Trailing and leading zeros *)

Lemma pos_ctz_nonneg p : 0 ≤ pos_ctz p.
Proof. induction p; simpl; lia. Qed.

Lemma ctz_nonneg x : 0 ≤ ctz x.
Proof. destruct x; simpl; [lia|apply pos_ctz_nonneg|lia]. Qed.

Lemma ctz_bit x : 0 < x → Z.testbit x (ctz x) = true.
Proof.
  destruct x as [|p|p]; try lia. intros _. simpl ctz.
  induction p as [p IH|p IH|]; [done| |done].
  cbn [pos_ctz]. rewrite Pos2Z.pos_xO.
  rewrite Z.add_1_l, Z.double_bits_succ. exact IH.
Qed.

Lemma ctz_below x i : 0 < x → i < ctz x → Z.testbit x i = false.
Proof.
  destruct (decide (0 ≤ i)) as [Hi|Hi]; [|by rewrite Z.testbit_neg_r by lia].
  destruct x as [|p|p]; try lia. intros _. simpl ctz.
  revert i Hi. induction p as [p IH|p IH|]; intros i Hi Hlt; cbn [pos_ctz] in Hlt; try lia.
  rewrite Pos2Z.pos_xO. destruct (decide (i = 0)) as [->|Hne]; [done|].
  replace i with (Z.succ (i - 1)) by lia. rewrite Z.double_bits_succ.
  apply IH; lia.
Qed.

Lemma ctz_lt x n : 0 < x < 2 ^ n → ctz x < n.
Proof.
  intros Hx. destruct (decide (ctz x < n)) as [|Hge]; [done|].
  pose proof (ctz_bit x ltac:(lia)) as Hb.
  rewrite (testbit_above x n) in Hb; [done|lia|lia].
Qed.

Lemma log2_bit_above x i : 0 < x → Z.log2 x < i → Z.testbit x i = false.
Proof. intros. apply Z.bits_above_log2; lia. Qed.

Lemma log2_lt x n : 0 < x < 2 ^ n → Z.log2 x < n.
Proof. intros [Hx Hn]. by apply Z.log2_lt_pow2. Qed.

(** ** Population count *)

Lemma popcount_nonneg x : 0 ≤ popcount x.
Proof. destruct x as [|p|p]; simpl; try lia. induction p; simpl; lia. Qed.

Lemma popcount_double x b : 0 ≤ x → popcount (2 * x + Z.b2z b) = popcount x + Z.b2z b.
Proof.
  intros Hx. destruct x as [|p|p]; [by destruct b| |lia].
  destruct b; cbn [Z.b2z].
  - rewrite <- Pos2Z.inj_xI. simpl. lia.
  - rewrite Z.add_0_r, <- Pos2Z.inj_xO. simpl. lia.
Qed.

(** [popcount] counts the set bits below any bound on the word. *)
Lemma popcount_count (n : nat) x :
  0 ≤ x < 2 ^ n → popcount x = count_below (Z.testbit x) n.
Proof.
  revert x. induction n as [|n IH]; intros x Hx.
  { assert (x = 0) as -> by (simpl in Hx; lia). done. }
  rewrite Nat2Z.inj_succ, Z.pow_succ_r in Hx by lia.
  assert (0 ≤ x `div` 2 < 2 ^ n) as Hd.
  { split; [apply Z.div_pos|apply Z.div_lt_upper_bound]; lia. }
  assert (x = 2 * (x `div` 2) + Z.b2z (Z.odd x)) as Hx2.
  { rewrite <- Z.bit0_odd, Z.bit0_mod. apply Z.div_mod. lia. }
  rewrite Hx2 at 1. rewrite popcount_double, (IH _ Hd) by lia.
  change (S n) with (1 + n)%nat. rewrite count_below_add. cbn [count_below].
  rewrite Z.add_0_l, Z.bit0_odd, Z.add_comm. f_equal.
  apply count_below_ext. intros i Hi.
  cbn beta. change (Z.of_nat 1) with 1. rewrite (Z.add_comm 1 i), <- (Z.div_pow2_bits x 1) by lia. done.
Qed.
