(* ===== verification/Queue.v ===== *)
(** Linked lists (libec/queue.h): the macros on words of memory, and the lists of
    elements that they keep. An entry is a pair of words at a fixed offset in the
    element; a head is a word, or two for the queues that can be extended at the
    end. *)

From S2P Require Import Prelude.

Notation mem := (gmap Z Z).

Definition ld (a : Z) : M mem Z := m ← gets (lookup a); opt_or Fault m.
Definition st (a v : Z) : M mem unit := ld a;; modify (<[a := v]>).

Lemma ld_run (m : mem) a v : m !! a = Some v → ld a m = Ret (v, m).
Proof. intros Ha. unfold ld. mrun. by rewrite Ha. Qed.

Lemma st_run (m : mem) a v w : m !! a = Some w → st a v m = Ret (tt, <[a := v]> m).
Proof. intros Ha. unfold st. by mrun (ld_run m a w Ha). Qed.

Section queue.
(** The offset of [field] in an element. *)
Context (field : Z).

(** * The macros *)

Definition le_next (elm : Z) : Z := elm + field.
Definition le_prev (elm : Z) : Z := elm + field + 8.

(** ** SLIST: a head and one link *)

Definition SLIST_INIT (head : Z) : M mem unit := st head 0.
Definition SLIST_FIRST (head : Z) : M mem Z := ld head.
Definition SLIST_NEXT (elm : Z) : M mem Z := ld (le_next elm).
Definition SLIST_EMPTY (head : Z) : M mem bool := f ← ld head; mret (f =? 0).

Definition SLIST_INSERT_AFTER (slistelm elm : Z) : M mem unit :=
  n ← ld (le_next slistelm);
  st (le_next elm) n;;
  st (le_next slistelm) elm.

Definition SLIST_INSERT_HEAD (head elm : Z) : M mem unit :=
  f ← ld head;
  st (le_next elm) f;;
  st head elm.

Definition SLIST_REMOVE_AFTER (slistelm : Z) : M mem unit :=
  n ← SLIST_NEXT slistelm;
  nn ← SLIST_NEXT n;
  st (le_next slistelm) nn.

Definition SLIST_REMOVE_HEAD (head : Z) : M mem unit :=
  f ← ld head;
  n ← ld (le_next f);
  st head n.

(** [while (curelm->field.sle_next != (elm))]. *)
Fixpoint slist_before (fuel : nat) (curelm elm : Z) : M mem Z :=
  match fuel with
  | O => stop Hang
  | S fuel' => n ← ld (le_next curelm); if n =? elm then mret curelm else slist_before fuel' n elm
  end.

Definition SLIST_REMOVE (fuel : nat) (head elm : Z) : M mem unit :=
  f ← ld head;
  if f =? elm then SLIST_REMOVE_HEAD head
  else
    curelm ← slist_before fuel f elm;
    n ← ld (le_next curelm);
    nn ← ld (le_next n);
    st (le_next curelm) nn.

(** ** LIST: a head and two links *)

Definition LIST_INIT (head : Z) : M mem unit := st head 0.
Definition LIST_FIRST (head : Z) : M mem Z := ld head.
Definition LIST_NEXT (elm : Z) : M mem Z := ld (le_next elm).
Definition LIST_EMPTY (head : Z) : M mem bool := f ← ld head; mret (f =? 0).

Definition LIST_MOVE (head1 head2 : Z) : M mem unit :=
  LIST_INIT head2;;
  e ← LIST_EMPTY head1;
  when (negb e) (f ← ld head1; st head2 f;; LIST_INIT head1).

Definition LIST_INSERT_AFTER (listelm elm : Z) : M mem unit :=
  n ← ld (le_next listelm);
  st (le_next elm) n;;
  when (negb (n =? 0)) (n ← ld (le_next listelm); st (le_prev n) (le_next elm));;
  st (le_next listelm) elm;;
  st (le_prev elm) (le_next listelm).

Definition LIST_INSERT_BEFORE (listelm elm : Z) : M mem unit :=
  p ← ld (le_prev listelm);
  st (le_prev elm) p;;
  st (le_next elm) listelm;;
  p ← ld (le_prev listelm);
  st p elm;;
  st (le_prev listelm) (le_next elm).

Definition LIST_INSERT_HEAD (head elm : Z) : M mem unit :=
  f ← ld head;
  st (le_next elm) f;;
  when (negb (f =? 0)) (f ← ld head; st (le_prev f) (le_next elm));;
  st head elm;;
  st (le_prev elm) head.

Definition LIST_REMOVE (elm : Z) : M mem unit :=
  n ← ld (le_next elm);
  when (negb (n =? 0)) (p ← ld (le_prev elm); st (le_prev n) p);;
  p ← ld (le_prev elm);
  n ← ld (le_next elm);
  st p n.

Definition LIST_REPLACE (elm elm2 : Z) : M mem unit :=
  n ← ld (le_next elm);
  st (le_next elm2) n;;
  when (negb (n =? 0)) (n ← ld (le_next elm2); st (le_prev n) (le_next elm2));;
  p ← ld (le_prev elm);
  st (le_prev elm2) p;;
  p ← ld (le_prev elm2);
  st p elm2.

(** The elements that [LIST_FOREACH] goes through, from the value of [var]. *)
Fixpoint foreach (fuel : nat) (var : Z) : M mem (list Z) :=
  if var =? 0 then mret []
  else
    match fuel with
    | O => stop Hang
    | S fuel' => n ← ld (le_next var); l ← foreach fuel' n; mret (var :: l)
    end.

Definition LIST_FOREACH (fuel : nat) (head : Z) : M mem (list Z) := f ← ld head; foreach fuel f.

(** ** TAILQ: two words of head and two links *)

Definition tqh_last (head : Z) : Z := head + 8.

Definition TAILQ_INIT (head : Z) : M mem unit := st head 0;; st (tqh_last head) head.

Definition TAILQ_EMPTY (head : Z) : M mem bool := f ← ld head; mret (f =? 0).

(** The links of an element look like a head. *)
Definition TAILQ_LAST (head : Z) : M mem Z := l ← ld (tqh_last head); p ← ld (tqh_last l); ld p.
Definition TAILQ_PREV (elm : Z) : M mem Z := l ← ld (le_prev elm); p ← ld (tqh_last l); ld p.

(** The elements of [TAILQ_FOREACH_REVERSE], from the value of [var]. *)
Fixpoint foreach_reverse (fuel : nat) (var : Z) : M mem (list Z) :=
  if var =? 0 then mret []
  else
    match fuel with
    | O => stop Hang
    | S fuel' => p ← TAILQ_PREV var; l ← foreach_reverse fuel' p; mret (var :: l)
    end.

Definition TAILQ_FOREACH_REVERSE (fuel : nat) (head : Z) : M mem (list Z) := l ← TAILQ_LAST head; foreach_reverse fuel l.

Definition TAILQ_INSERT_HEAD (head elm : Z) : M mem unit :=
  f ← ld head;
  st (le_next elm) f;;
  (if negb (f =? 0) then f ← ld head; st (le_prev f) (le_next elm) else st (tqh_last head) (le_next elm));;
  st head elm;;
  st (le_prev elm) head.

Definition TAILQ_INSERT_TAIL (head elm : Z) : M mem unit :=
  st (le_next elm) 0;;
  l ← ld (tqh_last head);
  st (le_prev elm) l;;
  l ← ld (tqh_last head);
  st l elm;;
  st (tqh_last head) (le_next elm).

Definition TAILQ_INSERT_AFTER (head listelm elm : Z) : M mem unit :=
  n ← ld (le_next listelm);
  st (le_next elm) n;;
  (if negb (n =? 0) then n ← ld (le_next elm); st (le_prev n) (le_next elm) else st (tqh_last head) (le_next elm));;
  st (le_next listelm) elm;;
  st (le_prev elm) (le_next listelm).

Definition TAILQ_INSERT_BEFORE (listelm elm : Z) : M mem unit :=
  p ← ld (le_prev listelm);
  st (le_prev elm) p;;
  st (le_next elm) listelm;;
  p ← ld (le_prev listelm);
  st p elm;;
  st (le_prev listelm) (le_next elm).

Definition TAILQ_REMOVE (head elm : Z) : M mem unit :=
  n ← ld (le_next elm);
  p ← ld (le_prev elm);
  (if negb (n =? 0) then st (le_prev n) p else st (tqh_last head) p);;
  p ← ld (le_prev elm);
  n ← ld (le_next elm);
  st p n.

End queue.
