(* ===== verification/QueueInv.v ===== *)
(** The macros of queue.h keep lists: what a list occupies in memory, and that each
    macro does to the list what its name says, and nothing to other memory. *)

From S2P Require Import Prelude Queue.

Section queue.
Context (field : Z).
Notation nxt := (le_next field).
Notation prv := (le_prev field).
Implicit Types (m : mem) (l : list Z).

(** * Representation *)

(** The word that points to what follows [l], when [c] points to [l]. *)
Definition endcell (c : Z) l : Z := match last l with Some e => nxt e | None => c end.

Fixpoint seg m (c : Z) l : Prop :=
  match l with
  | [] => True
  | e :: l' => m !! c = Some e ∧ m !! prv e = Some c ∧ e ≠ 0 ∧ seg m (nxt e) l'
  end.

Definition links l : list Z := l ≫= λ e, [nxt e; prv e].

(** The words that [seg] is about. *)
Fixpoint words (c : Z) l : list Z :=
  match l with
  | [] => []
  | e :: l' => c :: prv e :: words (nxt e) l'
  end.

(** [h] heads the list [l]. *)
Definition list_at m (h : Z) l : Prop := NoDup (h :: links l) ∧ seg m h l ∧ m !! endcell h l = Some 0.

(** The words of a list. *)
Definition foot (h : Z) l : list Z := h :: links l.

(** [tq_at]: a tail queue. *)
Definition tq_at m (h : Z) l : Prop := list_at m h l ∧ tqh_last h ∉ foot h l ∧ m !! tqh_last h = Some (endcell h l).

(** Nothing but the words [W] changes, and they stay words. *)
Record only (W : list Z) m m' : Prop := {
  on_same a : a ∉ W → m' !! a = m !! a;
  on_dom a : is_Some (m !! a) → is_Some (m' !! a);
}.

Lemma endcell_cons c e l : endcell c (e :: l) = endcell (nxt e) l.
Proof. unfold endcell. rewrite last_cons. by destruct (last l). Qed.

Lemma endcell_app c l1 l2 : endcell c (l1 ++ l2) = endcell (endcell c l1) l2.
Proof. revert c. induction l1 as [|e l1 IH]; intros c; [done|]. by rewrite <- app_comm_cons, !endcell_cons. Qed.

Lemma seg_app m c l1 l2 : seg m c (l1 ++ l2) ↔ seg m c l1 ∧ seg m (endcell c l1) l2.
Proof. revert c. induction l1 as [|e l1 IH]; intros c; [cbn; tauto|]. rewrite endcell_cons. cbn. rewrite IH. tauto. Qed.

Lemma words_perm c l : words c l ++ [endcell c l] ≡ₚ c :: links l.
Proof.
  revert c. induction l as [|e l IH]; intros c; [done|]. rewrite endcell_cons. cbn. rewrite IH. apply perm_skip. apply perm_swap.
Qed.

Lemma links_app l1 l2 : links (l1 ++ l2) = links l1 ++ links l2.
Proof. apply bind_app. Qed.

(** The words of a list around a place in it. *)
Lemma foot_split h l1 l2 : h :: links (l1 ++ l2) ≡ₚ words h l1 ++ endcell h l1 :: links l2.
Proof. by rewrite links_app, app_comm_cons, <- words_perm, <- app_assoc. Qed.

Lemma seg_frame m m' c l : (∀ a, a ∈ words c l → m' !! a = m !! a) → seg m c l → seg m' c l.
Proof.
  revert c. induction l as [|e l IH]; intros c Ha; [done|]. cbn in *. intros (H1 & H2 & H3 & H4).
  rewrite !Ha by (rewrite !elem_of_cons; tauto). split_and!; try done. apply IH; [|done]. intros a Hin. apply Ha. rewrite !elem_of_cons. tauto.
Qed.

(** The part of a list from [c] on, after the words before it. *)
Lemma tail_frame m m' l y : (∀ a, a ∈ nxt y :: links l → m' !! a = m !! a) → seg m (nxt y) l → m !! endcell (nxt y) l = Some 0 →
  seg m' (nxt y) l ∧ m' !! endcell (nxt y) l = Some 0.
Proof.
  intros Ha Hs He. assert (∀ a, a ∈ words (nxt y) l ++ [endcell (nxt y) l] → m' !! a = m !! a) as Hw by (intros a Hin; apply Ha; by rewrite <- words_perm).
  split; [eapply seg_frame; [|exact Hs]; intros a Hin; apply Hw; rewrite elem_of_app; by left|]. rewrite Hw; [done|]. rewrite elem_of_app. right. by left.
Qed.

(** A list whose middle is replaced. *)
Lemma list_splice m m' h l1 mid mid' l2 : list_at m h (l1 ++ mid ++ l2) → NoDup (h :: links (l1 ++ mid' ++ l2)) →
  (∀ a, a ∈ words h l1 → m' !! a = m !! a) → seg m' (endcell h l1) mid' →
  (match l2 with
   | [] => m' !! endcell (endcell h l1) mid' = Some 0
   | y :: l2' => m' !! endcell (endcell h l1) mid' = Some y ∧ m' !! prv y = Some (endcell (endcell h l1) mid') ∧ ∀ a, a ∈ nxt y :: links l2' → m' !! a = m !! a
   end) → list_at m' h (l1 ++ mid' ++ l2).
Proof.
  intros (_ & Hs & He) Hn Hw Hm H2. rewrite !seg_app in Hs. destruct Hs as (Hs1 & _ & Hs2).
  rewrite !endcell_app in He. split; [done|]. rewrite !seg_app, !endcell_app.
  destruct l2 as [|y l2]; cbn [seg].
  - split; [|done]. split; [by eapply seg_frame|done].
  - destruct H2 as (Hy & Hp & Hf). cbn in Hs2. destruct Hs2 as (_ & _ & Hy0 & Hs2). rewrite endcell_cons in He |- *.
    destruct (tail_frame m m' l2 y Hf Hs2 He) as [? ?].
    split; [|done]. split; [by eapply seg_frame|]. done.
Qed.

(** ** One element more or less *)

(** The links next to a place in a list. *)
Definition next_link l : list Z := match l with [] => [] | y :: _ => [prv y] end.

Lemma place_nodup h l1 mid l2 : NoDup (h :: links (l1 ++ mid ++ l2)) → NoDup (words h l1 ++ endcell h l1 :: links mid ++ links l2).
Proof. by rewrite foot_split, links_app. Qed.

Lemma links_cons x l : links (x :: l) = nxt x :: prv x :: links l.
Proof. done. Qed.

Lemma links_nil : links [] = [].
Proof. done. Qed.

Lemma next_link_in l a : a ∈ next_link l → a ∈ links l.
Proof. destruct l as [|y l]; cbn [next_link]; [by intros ?%not_elem_of_nil|]. intros ->%list_elem_of_singleton. rewrite links_cons, !elem_of_cons. tauto. Qed.

Lemma list_insert_ok m m' h l1 x l2 : list_at m h (l1 ++ l2) → x ≠ 0 → NoDup (h :: links (l1 ++ [x] ++ l2)) →
  m' !! nxt x = Some (default 0 (head l2)) → m' !! prv x = Some (endcell h l1) → m' !! endcell h l1 = Some x →
  (∀ y l2', l2 = y :: l2' → m' !! prv y = Some (nxt x)) → only (nxt x :: prv x :: endcell h l1 :: next_link l2) m m' → list_at m' h (l1 ++ [x] ++ l2).
Proof.
  intros Hl Hx Hn H1 H2 H3 H4 Ho. pose proof (place_nodup _ _ _ _ Hn) as Hd. apply (list_splice m m' h l1 [] [x] l2); try done.
  - intros a Ha. apply (on_same _ _ _ Ho). apply NoDup_app in Hd as (_ & Hd & _). specialize (Hd a Ha).
    rewrite links_cons, !elem_of_cons, elem_of_app, !elem_of_cons in Hd.
    rewrite !elem_of_cons. intros [?|[?|[?|Hy%next_link_in]]]; tauto.
  - destruct l2 as [|y l2]; [done|]. split; [done|]. split; [by eapply H4|]. intros a Ha. apply (on_same _ _ _ Ho).
    cbn [next_link]. apply NoDup_app in Hd as (_ & _ & Hd).
    rewrite !links_cons in Hd. change (links []) with (@nil Z) in Hd. cbn [app] in Hd.
    rewrite !NoDup_cons, !elem_of_cons in Hd. rewrite elem_of_cons in Ha. rewrite !elem_of_cons.
    destruct Ha as [->|Ha]; intros [E|[E|[E|[E|E%not_elem_of_nil]]]]; try done; first [rewrite E in Hd; tauto|rewrite <- E in Hd; tauto].
Qed.

Lemma list_remove_ok m m' h l1 x l2 : list_at m h (l1 ++ [x] ++ l2) →
  m' !! endcell h l1 = Some (default 0 (head l2)) → (∀ y l2', l2 = y :: l2' → m' !! prv y = Some (endcell h l1)) →
  only (endcell h l1 :: next_link l2) m m' → list_at m' h (l1 ++ l2).
Proof.
  intros Hl H1 H2 Ho. pose proof Hl as (Hn & _). pose proof (place_nodup _ _ _ _ Hn) as Hd. apply (list_splice m m' h l1 [x] [] l2); try done.
  - cbn [app]. apply (sublist_NoDup _ _ Hn). constructor. rewrite !links_app. apply sublist_app; [done|]. by apply sublist_inserts_l.
  - intros a Ha. apply (on_same _ _ _ Ho). apply NoDup_app in Hd as (_ & Hd & _). specialize (Hd a Ha).
    rewrite links_cons, !elem_of_cons, elem_of_app, !elem_of_cons in Hd.
    rewrite elem_of_cons. intros [?|Hy%next_link_in]; tauto.
  - destruct l2 as [|y l2]; [done|]. split; [done|]. split; [by eapply H2|]. intros a Ha. apply (on_same _ _ _ Ho).
    cbn [next_link]. apply NoDup_app in Hd as (_ & _ & Hd).
    rewrite !links_cons in Hd. change (links []) with (@nil Z) in Hd. cbn [app] in Hd.
    rewrite !NoDup_cons, !elem_of_cons in Hd. rewrite elem_of_cons in Ha. rewrite !elem_of_cons.
    destruct Ha as [->|Ha]; intros [E|[E|E%not_elem_of_nil]]; try done; first [rewrite E in Hd; tauto|rewrite <- E in Hd; tauto].
Qed.

(** What is around a place. *)
Lemma place_words m h l1 l2 : list_at m h (l1 ++ l2) → m !! endcell h l1 = Some (default 0 (head l2)) ∧
  (∀ y l2', l2 = y :: l2' → m !! prv y = Some (endcell h l1) ∧ y ≠ 0 ∧ m !! nxt y = Some (default 0 (head l2'))).
Proof.
  intros (_ & Hs & He). rewrite seg_app in Hs. destruct Hs as [_ Hs]. rewrite endcell_app in He. destruct l2 as [|y l2]; [done|].
  cbn in Hs. destruct Hs as (H1 & H2 & H3 & Hs). split; [done|]. intros ? ? [= <- <-]. split; [done|]. split; [done|]. rewrite endcell_cons in He.
  destruct l2 as [|z l2]; [done|]. by destruct Hs as (? & _).
Qed.

End queue.

(** Distinct words, from a list without duplicates. *)
Ltac nodup_facts :=
  repeat match goal with
  | H : NoDup (_ ++ _) |- _ => let H1 := fresh in let H2 := fresh in apply NoDup_app in H as (H1 & H2 & H)
  | H : NoDup (_ :: _) |- _ => let H1 := fresh "Hne" in apply NoDup_cons in H as [H1 H]
  | H : _ ∉ _ :: _ |- _ => let H1 := fresh "Hne" in apply not_elem_of_cons in H as [H1 H]
  end.

(** Words that have been stored, and words that have not. *)
Ltac look :=
  repeat match goal with
  | |- context [<[?a := _]> _ !! ?a] => rewrite lookup_insert_eq
  | |- context [<[?a := _]> _ !! ?b] => rewrite (lookup_insert_ne _ a b) by congruence
  end.

Section lists.
Context (field : Z).
Notation nxt := (le_next field).
Notation prv := (le_prev field).
Implicit Types (m : mem) (l : list Z).

(** ** LIST *)

Lemma only_insert W m m' a v : only W m m' → a ∈ W → only W m (<[a := v]> m').
Proof.
  intros Ho Ha. split.
  - intros b Hb. rewrite lookup_insert_ne; [by apply (on_same _ _ _ Ho)|]. by intros ->.
  - intros b Hb. apply lookup_insert_is_Some'. right. by apply (on_dom _ _ _ Ho).
Qed.

Lemma only_refl W m : only W m m.
Proof. done. Qed.

Lemma bind_ld m a v B (f : Z → M mem B) : m !! a = Some v → (ld a ≫= f) m = f v m.
Proof. intros Ha. by rewrite (bind_Ret _ _ _ _ _ (ld_run _ _ _ Ha)). Qed.

Lemma bind_st m a v w B (f : unit → M mem B) : m !! a = Some w → (st a v ≫= f) m = f tt (<[a := v]> m).
Proof. intros Ha. by rewrite (bind_Ret _ _ _ _ _ (st_run _ _ v w Ha)). Qed.

End lists.

(** Loads and stores, with the words known from the context. *)
Ltac known := look; first [eassumption | reflexivity].
Ltac qrun :=
  repeat first
    [ progress autorewrite with monad
    | rewrite bind_assoc
    | rewrite Z.eqb_refl
    | erewrite bind_ld by known
    | erewrite bind_st by known
    | erewrite st_run by known
    | progress cbn beta iota delta [when negb] ].

(** The words that may have changed. *)
Ltac only_done := repeat apply only_insert; [apply only_refl|..]; cbn [next_link]; rewrite ?elem_of_cons; tauto.

Section lists.
Context (field : Z).
Notation nxt := (le_next field).
Notation prv := (le_prev field).
Implicit Types (m : mem) (l : list Z).

Lemma list_remove_run m h l1 x l2 : list_at field m h (l1 ++ [x] ++ l2) →
  ∃ m', LIST_REMOVE field x m = Ret (tt, m') ∧ list_at field m' h (l1 ++ l2) ∧ only (endcell field h l1 :: next_link field l2) m m'.
Proof.
  intros Hl. destruct (place_words field m h l1 ([x] ++ l2) Hl) as [Hc Hx]. destruct (Hx x l2 eq_refl) as (Hp & Hx0 & Hn). set (c := endcell field h l1) in *.
  pose proof Hl as (Hnd & _). apply place_nodup in Hnd. unfold LIST_REMOVE.
  destruct l2 as [|y l2]; cbn in Hn; rewrite ?links_cons, ?links_nil in Hnd; cbn [app] in Hnd; fold c in Hnd.
  - nodup_facts. qrun. eexists. split; [done|]. split; [|only_done]. apply (list_remove_ok field m _ h l1 x []); [done|fold c; known|done|only_done].
  - destruct (place_words field m h (l1 ++ [x]) (y :: l2)) as [_ Hy]; [by rewrite <- app_assoc|].
    destruct (Hy y l2 eq_refl) as (Hpy & Hy0 & Hny). rewrite endcell_app in Hpy. cbn in Hpy.
    nodup_facts. qrun. rewrite (proj2 (Z.eqb_neq y 0) Hy0). qrun.  eexists. split; [done|]. split; [|only_done].
    apply (list_remove_ok field m _ h l1 x (y :: l2)); [done|fold c; known|intros ? ? [= <- <-]; fold c; known|only_done].
Qed.

(** An element that is in no list: two words of its own. *)
Definition fresh_elm m (h : Z) l (x : Z) : Prop := x ≠ 0 ∧ is_Some (m !! nxt x) ∧ is_Some (m !! prv x) ∧ NoDup (nxt x :: prv x :: h :: links field l).

Lemma fresh_nodup m h l1 l2 x : fresh_elm m h (l1 ++ l2) x → NoDup (h :: links field (l1 ++ [x] ++ l2)).
Proof.
  intros (_ & _ & _ & Hn). assert (nxt x :: prv x :: h :: links field (l1 ++ l2) ≡ₚ h :: links field (l1 ++ [x] ++ l2)) as <-; [|done].
  rewrite !links_app. change (links field [x]) with [nxt x; prv x].
  etrans; [symmetry; apply (Permutation_middle [nxt x; prv x])|]. apply perm_skip, Permutation_app_swap_app.
Qed.

(** The memory after [x] has been linked in at the word [c], before [l2]. *)
Definition linked m (c x : Z) l2 m' : Prop :=
  m' !! nxt x = Some (default 0 (head l2)) ∧ m' !! prv x = Some c ∧ m' !! c = Some x ∧ (∀ y l2', l2 = y :: l2' → m' !! prv y = Some (nxt x)) ∧
  only (nxt x :: prv x :: c :: next_link field l2) m m'.

Lemma linked_ok m m' h l1 x l2 : list_at field m h (l1 ++ l2) → fresh_elm m h (l1 ++ l2) x →
    linked m (endcell field h l1) x l2 m' → list_at field m' h (l1 ++ [x] ++ l2).
Proof. intros Hl Hf (H1 & H2 & H3 & H4 & H5). apply (list_insert_ok field m); try done; [apply Hf|by eapply fresh_nodup]. Qed.

(** The stores of [LIST_INSERT_HEAD] and [LIST_INSERT_AFTER], where [c] is the word
    that points to the place. *)
Definition insert_at (c elm : Z) : M mem unit :=
  f ← ld c;
  st (nxt elm) f;;
  when (negb (f =? 0)) (f ← ld c; st (prv f) (nxt elm));;
  st c elm;;
  st (prv elm) c.

Lemma insert_at_run m h l1 x l2 : list_at field m h (l1 ++ l2) → fresh_elm m h (l1 ++ l2) x →
  ∃ m', insert_at (endcell field h l1) x m = Ret (tt, m') ∧ linked m (endcell field h l1) x l2 m'.
Proof.
  intros Hl Hf. destruct (place_words field m h l1 l2 Hl) as [Hc Hy]. pose proof (fresh_nodup _ _ _ _ _ Hf) as Hnd. apply place_nodup in Hnd.
  destruct Hf as (Hx0 & [vn Hvn] & [vp Hvp] & _). unfold insert_at, linked. set (c := endcell field h l1) in *. destruct l2 as [|y l2]; cbn in Hc;
    rewrite ?links_cons, ?links_nil in Hnd; cbn [app] in Hnd; nodup_facts.
  - qrun. eexists. split; [done|]. split_and!; [known..|done|only_done].
  - destruct (Hy y l2 eq_refl) as (Hpy & Hy0 & _). qrun. rewrite (proj2 (Z.eqb_neq y 0) Hy0). qrun. eexists.
    split; [done|]. split_and!; [known..| |only_done]. intros ? ? [= <- <-]. known.
Qed.

Lemma list_insert_head_run m h l x : list_at field m h l → fresh_elm m h l x →
  ∃ m', LIST_INSERT_HEAD field h x m = Ret (tt, m') ∧ list_at field m' h (x :: l) ∧ only (nxt x :: prv x :: h :: next_link field l) m m'.
Proof. intros Hl Hf. destruct (insert_at_run m h [] x l Hl Hf) as (m' & Hr & Hk). exists m'. split; [done|].
  split; [by apply (linked_ok m m' h [] x l)|apply Hk]. Qed.

Lemma list_insert_after_run m h l1 e l2 x : list_at field m h (l1 ++ e :: l2) → fresh_elm m h (l1 ++ e :: l2) x →
  ∃ m', LIST_INSERT_AFTER field e x m = Ret (tt, m') ∧ list_at field m' h (l1 ++ e :: x :: l2) ∧ only (nxt x :: prv x :: nxt e :: next_link field l2) m m'.
Proof.
  replace (l1 ++ e :: l2) with ((l1 ++ [e]) ++ l2) by (by rewrite <- app_assoc). intros Hl Hf.
  destruct (insert_at_run m h (l1 ++ [e]) x l2 Hl Hf) as (m' & Hr & Hk).
  pose proof (linked_ok m m' h (l1 ++ [e]) x l2 Hl Hf Hk) as Hl'. rewrite endcell_app in Hr, Hk. exists m'.
  split; [exact Hr|]. split; [by rewrite <- app_assoc in Hl'|apply Hk].
Qed.

Lemma list_insert_before_run m h l1 y l2 x : list_at field m h (l1 ++ y :: l2) → fresh_elm m h (l1 ++ y :: l2) x →
  ∃ m', LIST_INSERT_BEFORE field y x m = Ret (tt, m') ∧ list_at field m' h (l1 ++ x :: y :: l2) ∧ only [nxt x; prv x; endcell field h l1; prv y] m m'.
Proof.
  intros Hl Hf. destruct (place_words field m h l1 (y :: l2) Hl) as [Hc Hy].
  destruct (Hy y l2 eq_refl) as (Hpy & Hy0 & _). pose proof (fresh_nodup _ _ _ _ _ Hf) as Hnd.
  apply place_nodup in Hnd.
  pose proof Hf as (Hx0 & [vn Hvn] & [vp Hvp] & _). set (c := endcell field h l1) in *. cbn in Hc.
  rewrite ?links_cons, ?links_nil in Hnd. cbn [app] in Hnd. nodup_facts.
  unfold LIST_INSERT_BEFORE. qrun. eexists. split; [done|]. match goal with |- list_at _ ?m' _ _ ∧ _ => assert (linked m c x (y :: l2) m') as Hk end.
  { split_and!; [known..| |only_done]. intros ? ? [= <- <-]. known. }
  split; [by apply (linked_ok m _ h l1 x (y :: l2))|apply Hk].
Qed.

(** Going through a list gives its elements in order. *)
Lemma foreach_run m l : ∀ c n, seg field m c l → m !! endcell field c l = Some 0 → (length l ≤ n)%nat → (ld c ≫= foreach field n) m = Ret (l, m).
Proof.
  induction l as [|e l IH]; intros c n Hs He Hn; [rewrite (bind_ld _ _ _ _ _ He); by destruct n|].
  rewrite endcell_cons in He. destruct Hs as (H1 & _ & H0 & Hs). cbn in Hn.
  rewrite (bind_ld _ _ _ _ _ H1). destruct n as [|n]; [lia|]. cbn [foreach]. rewrite (proj2 (Z.eqb_neq e 0) H0).
  pose proof (IH (nxt e) n Hs He ltac:(lia)) as Hr. rewrite <- bind_assoc. by rewrite (bind_Ret _ _ _ _ _ Hr).
Qed.

(** ** TAILQ *)

Lemma endcell_foot h l : endcell field h l ∈ foot field h l.
Proof. unfold foot. rewrite <- words_perm, elem_of_app. right. by left. Qed.

Lemma last_cell_foot h l1 x l2 : endcell field h l1 ∈ foot field h (l1 ++ x :: l2).
Proof. unfold foot. rewrite foot_split, elem_of_app. right. by left. Qed.

Definition fresh_tq m (h : Z) l (x : Z) : Prop := fresh_elm m h l x ∧ tqh_last h ≠ nxt x ∧ tqh_last h ≠ prv x.

Lemma foot_insert h l1 x l2 a : a ∈ foot field h (l1 ++ x :: l2) ↔ a ∈ foot field h (l1 ++ l2) ∨ a = nxt x ∨ a = prv x.
Proof. unfold foot. rewrite !links_app, links_cons, !elem_of_cons, !elem_of_app, !elem_of_cons. tauto. Qed.

Lemma next_link_foot h l1 l2 a : a ∈ next_link field l2 → a ∈ foot field h (l1 ++ l2).
Proof. intros Ha%next_link_in. unfold foot. rewrite links_app, elem_of_cons, elem_of_app. tauto. Qed.

Lemma cell_foot h l1 l2 : endcell field h l1 ∈ foot field h (l1 ++ l2).
Proof. unfold foot. rewrite foot_split, elem_of_app. right. by left. Qed.

Lemma list_at_frame m m' h l : (∀ a, a ∈ foot field h l → m' !! a = m !! a) → list_at field m h l → list_at field m' h l.
Proof.
  intros Ha (Hn & Hs & He). split; [done|].
  split; [eapply seg_frame; [|exact Hs]|by rewrite Ha by apply endcell_foot]. intros a Hin. apply Ha. unfold foot.
  rewrite <- words_perm, elem_of_app. by left.
Qed.

(** Changing the word [t], which is not the list's. *)
Lemma only_tail W t m m' v : only (t :: W) m m' → m' !! t = Some v → only W (<[t := v]> m) m'.
Proof.
  intros Ho Ht. split.
  - intros a Ha. destruct (decide (a = t)) as [->|Hne]; [by rewrite lookup_insert_eq|].
    rewrite lookup_insert_ne by done. apply (on_same _ _ _ Ho). by apply not_elem_of_cons.
  - intros a [->|Ha]%lookup_insert_is_Some'; [by exists v|]. by apply (on_dom _ _ _ Ho).
Qed.

Lemma only_weaken W W' m m' : only W m m' → W ⊆ W' → only W' m m'.
Proof. intros [H1 H2] Hw. split; [|done]. intros a Ha. apply H1. intros Hin. by apply Ha, Hw. Qed.

Lemma only_trans W m1 m2 m3 : only W m1 m2 → only W m2 m3 → only W m1 m3.
Proof. intros [A1 A2] [B1 B2]. split; [intros a Ha; by rewrite B1, A1|auto]. Qed.

Lemma tq_linked m m' h l1 x l2 : tq_at field m h (l1 ++ l2) → fresh_tq m h (l1 ++ l2) x → let c := endcell field h l1 in
  m' !! nxt x = Some (default 0 (head l2)) → m' !! prv x = Some c → m' !! c = Some x → (∀ y l2', l2 = y :: l2' → m' !! prv y = Some (nxt x)) →
  only (tqh_last h :: nxt x :: prv x :: c :: next_link field l2) m m' →
    m' !! tqh_last h = Some (endcell field h (l1 ++ x :: l2)) → tq_at field m' h (l1 ++ x :: l2).
Proof.
  intros (Hl & Hnf & Ht) ((Hx & Hv1 & Hv2 & Hn) & Hf2) c H1 H2 H3 H4 Ho Hv.
  assert (tqh_last h ∉ foot field h (l1 ++ x :: l2)) as Hnf' by (rewrite foot_insert; naive_solver).
  split; [|done]. apply (linked_ok (<[tqh_last h := endcell field h (l1 ++ x :: l2)]> m) m' h l1 x l2).
  - eapply list_at_frame; [|exact Hl]. intros a Ha. apply lookup_insert_ne. by intros <-.
  - destruct Hf2. split_and!; try done; by rewrite lookup_insert_ne.
  - split_and!; try done. by apply only_tail.
Qed.

Definition tq_insert_at (head c r elm : Z) : M mem unit :=
  f ← ld c;
  st (nxt elm) f;;
  (if negb (f =? 0) then f ← ld r; st (prv f) (nxt elm) else st (tqh_last head) (nxt elm));;
  st c elm;;
  st (prv elm) c.

Definition tq_words (h : Z) l1 x l2 : list Z := tqh_last h :: nxt x :: prv x :: endcell field h l1 :: next_link field l2.

Lemma tq_insert_at_run m h l1 x l2 r : tq_at field m h (l1 ++ l2) → fresh_tq m h (l1 ++ l2) x → r = endcell field h l1 ∨ r = nxt x →
  ∃ m', tq_insert_at h (endcell field h l1) r x m = Ret (tt, m') ∧ tq_at field m' h (l1 ++ x :: l2) ∧ only (tq_words h l1 x l2) m m'.
Proof.
  intros Hq Hf Hr. pose proof Hq as (Hl & Hnf & Ht). pose proof Hf as (Hf1 & Hf2 & Hf3).
  destruct (place_words field m h l1 l2 Hl) as [Hc Hy]. pose proof (fresh_nodup _ _ _ _ _ Hf1) as Hnd.
  apply place_nodup in Hnd.
  destruct Hf1 as (Hx0 & [vn Hvn] & [vp Hvp] & _). pose proof (cell_foot h l1 l2) as Hcf.
  set (c := endcell field h l1) in *. assert (tqh_last h ≠ c) as Hf4 by (by intros <-).
  unfold tq_insert_at, tq_words. fold c. destruct l2 as [|y l2]; cbn in Hc; rewrite ?links_cons, ?links_nil in Hnd; cbn [app] in Hnd; nodup_facts.
  - qrun. eexists. split; [done|]. match goal with |- _ ∧ ?o => assert o as Ho by only_done end. split; [|exact Ho].
    apply (tq_linked m); try done; fold c; [known..|]. rewrite endcell_app. known.
  - destruct (Hy y l2 eq_refl) as (Hpy & Hy0 & _). assert (tqh_last h ≠ prv y) as Hf5 by (intros E; apply Hnf; rewrite E; apply next_link_foot; by left).
    qrun. rewrite (proj2 (Z.eqb_neq y 0) Hy0). cbn [negb].
    erewrite bind_assoc, (bind_ld _ r y); [|destruct Hr as [->| ->]; known]. qrun. eexists. split; [done|].
    match goal with |- _ ∧ ?o => assert o as Ho by only_done end. split; [|exact Ho].
    apply (tq_linked m); try done; fold c; [known..|intros ? ? [= <- <-]; known|]. look. rewrite Ht, !endcell_app, !endcell_cons. done.
Qed.

Lemma tailq_insert_head_run m h l x : tq_at field m h l → fresh_tq m h l x →
  ∃ m', TAILQ_INSERT_HEAD field h x m = Ret (tt, m') ∧ tq_at field m' h (x :: l) ∧ only (tq_words h [] x l) m m'.
Proof. intros Hq Hf. exact (tq_insert_at_run m h [] x l h Hq Hf ltac:(by left)). Qed.

Lemma tailq_insert_after_run m h l1 e l2 x : tq_at field m h (l1 ++ e :: l2) → fresh_tq m h (l1 ++ e :: l2) x →
  ∃ m', TAILQ_INSERT_AFTER field h e x m = Ret (tt, m') ∧ tq_at field m' h (l1 ++ e :: x :: l2) ∧ only (tq_words h (l1 ++ [e]) x l2) m m'.
Proof.
  replace (l1 ++ e :: l2) with ((l1 ++ [e]) ++ l2) by (by rewrite <- app_assoc). intros Hq Hf.
  destruct (tq_insert_at_run m h (l1 ++ [e]) x l2 (nxt x) Hq Hf ltac:(by right)) as (m' & Hr & Hq' & Ho).
  rewrite endcell_app in Hr. rewrite <- app_assoc in Hq'. by exists m'.
Qed.

Lemma tailq_insert_tail_run m h l x : tq_at field m h l → fresh_tq m h l x →
  ∃ m', TAILQ_INSERT_TAIL field h x m = Ret (tt, m') ∧ tq_at field m' h (l ++ [x]) ∧ only (tq_words h l x []) m m'.
Proof.
  replace l with (l ++ []) at 1 2 by apply app_nil_r. intros Hq Hf. pose proof Hq as (Hl & Hnf & Ht).
  pose proof Hf as (Hf1 & Hf2 & Hf3). destruct (place_words field m h l [] Hl) as [Hc _].
  pose proof (fresh_nodup _ _ _ _ _ Hf1) as Hnd. apply place_nodup in Hnd.
  destruct Hf1 as (Hx0 & [vn Hvn] & [vp Hvp] & _). pose proof (cell_foot h l []) as Hcf.
  rewrite app_nil_r in Ht. unfold TAILQ_INSERT_TAIL, tq_words. set (c := endcell field h l) in *. assert (tqh_last h ≠ c) as Hf4 by (by intros <-).
  cbn in Hc. rewrite ?links_cons, ?links_nil in Hnd. cbn [app] in Hnd. nodup_facts. qrun. eexists. split; [done|].
  match goal with |- _ ∧ ?o => assert o as Ho by only_done end. split; [|exact Ho].
  apply (tq_linked m); try done; fold c; [known..|]. rewrite endcell_app. known.
Qed.

Lemma tailq_insert_before_run m h l1 y l2 x : tq_at field m h (l1 ++ y :: l2) → fresh_tq m h (l1 ++ y :: l2) x →
  ∃ m', TAILQ_INSERT_BEFORE field y x m = Ret (tt, m') ∧ tq_at field m' h (l1 ++ x :: y :: l2) ∧ only (tq_words h l1 x (y :: l2)) m m'.
Proof.
  intros (Hl & Hnf & Ht) (Hf1 & Hf2 & Hf3). destruct (list_insert_before_run m h l1 y l2 x Hl Hf1) as (m' & Hr & Hl' & Ho). exists m'. split; [exact Hr|].
  assert (tqh_last h ∉ [nxt x; prv x; endcell field h l1; prv y]) as Hnt.
  { rewrite !elem_of_cons. intros [E|[E|[E|[E|E%not_elem_of_nil]]]]; try done; apply Hnf; rewrite E; [apply cell_foot|apply next_link_foot; by left]. }
  split; [|eapply only_weaken; [exact Ho|]; unfold tq_words; intros a Ha; by right].
  split; [done|]. split; [rewrite (foot_insert h l1 x (y :: l2)); tauto|]. rewrite (on_same _ _ _ Ho _ Hnt), Ht. by rewrite !endcell_app, !endcell_cons.
Qed.

Lemma tailq_remove_run m h l1 x l2 : tq_at field m h (l1 ++ x :: l2) →
  ∃ m', TAILQ_REMOVE field h x m = Ret (tt, m') ∧ tq_at field m' h (l1 ++ l2) ∧ only (tqh_last h :: endcell field h l1 :: next_link field l2) m m'.
Proof.
  intros (Hl & Hnf & Ht). destruct (place_words field m h l1 (x :: l2) Hl) as [Hc Hx].
  destruct (Hx x l2 eq_refl) as (Hp & Hx0 & Hn). pose proof (cell_foot h l1 (x :: l2)) as Hcf.
  assert (tqh_last h ∉ foot field h (l1 ++ l2) ∧ tqh_last h ≠ nxt x ∧ tqh_last h ≠ prv x) as (Hnf' & Hf2 & Hf3) by (rewrite foot_insert in Hnf; tauto).
  set (c := endcell field h l1) in *. assert (tqh_last h ≠ c) as Hf4 by (by intros <-). pose proof Hl as (Hnd & _).
  apply (place_nodup field h l1 [x] l2) in Hnd.
  assert (∀ m' v, only (tqh_last h :: c :: next_link field l2) m m' → m' !! tqh_last h = Some v →
    m' !! c = Some (default 0 (head l2)) → (∀ y l2', l2 = y :: l2' → m' !! prv y = Some c) →
    list_at field m' h (l1 ++ l2)) as Hrem.
  { intros m' v Ho Hv H1 H2. apply (list_remove_ok field (<[tqh_last h := v]> m) m' h l1 x l2); [|done|done|by apply only_tail].
    eapply list_at_frame; [|exact Hl]. intros a Ha. apply lookup_insert_ne. by intros <-. }
  unfold TAILQ_REMOVE. destruct l2 as [|y l2]; cbn in Hn; rewrite ?links_cons, ?links_nil in Hnd; cbn [app] in Hnd; fold c in Hnd.
  - nodup_facts. qrun. eexists. split; [done|]. match goal with |- _ ∧ ?o => assert o as Ho by only_done end.
    split; [|exact Ho]. split; [eapply Hrem; [exact Ho|known|known|done]|].
    split; [done|]. rewrite app_nil_r. known.
  - destruct (place_words field m h (l1 ++ [x]) (y :: l2)) as [_ Hy]; [by rewrite <- app_assoc|].
    destruct (Hy y l2 eq_refl) as (Hpy & Hy0 & Hny). rewrite endcell_app in Hpy. cbn in Hpy.
    assert (tqh_last h ≠ prv y) as Hf5 by (intros E; apply Hnf'; rewrite E; apply next_link_foot; by left).
    nodup_facts. qrun. rewrite (proj2 (Z.eqb_neq y 0) Hy0). qrun. eexists. split; [done|].
    match goal with |- _ ∧ ?o => assert o as Ho by only_done end. split; [|exact Ho].
    split; [eapply Hrem; [exact Ho|known|known|intros ? ? [= <- <-]; known]|]. split; [done|]. look. by rewrite Ht, !endcell_app, !endcell_cons.
Qed.

Lemma tq_cell_back m h l1 l2 : tq_at field m h (l1 ++ l2) → ∃ p, m !! tqh_last (endcell field h l1) = Some p ∧ m !! p = Some (default 0 (last l1)).
Proof.
  intros (Hl & _ & Ht). destruct l1 as [|e l1] using rev_ind; [|clear IHl1].
  - exists (endcell field h l2). split; [done|]. by destruct Hl as (_ & _ & ?).
  - rewrite <- app_assoc in Hl. destruct (place_words field m h l1 ([e] ++ l2) Hl) as [Hc He].
    destruct (He e l2 eq_refl) as (Hp & _). exists (endcell field h l1). rewrite endcell_app. split; [exact Hp|].
    by rewrite Hc, last_snoc.
Qed.

Lemma tailq_last_run m h l : tq_at field m h l → TAILQ_LAST h m = Ret (default 0 (last l), m).
Proof.
  intros Hq. pose proof Hq as (_ & _ & Ht). rewrite <- (app_nil_r l) in Hq. destruct (tq_cell_back m h l [] Hq) as (p & Hp & Hv).
  unfold TAILQ_LAST. rewrite (bind_ld _ _ _ _ _ Ht), (bind_ld _ _ _ _ _ Hp). by apply ld_run.
Qed.

Lemma tailq_prev_run m h l1 x l2 : tq_at field m h (l1 ++ x :: l2) → TAILQ_PREV field x m = Ret (default 0 (last l1), m).
Proof.
  intros Hq. pose proof Hq as (Hl & _ & _). destruct (tq_cell_back m h l1 (x :: l2) Hq) as (p & Hp & Hv).
  destruct (place_words field m h l1 (x :: l2) Hl) as [_ Hx].
  destruct (Hx x l2 eq_refl) as (Hpx & _). unfold TAILQ_PREV. rewrite (bind_ld _ _ _ _ _ Hpx), (bind_ld _ _ _ _ _ Hp). by apply ld_run.
Qed.

Lemma foreach_reverse_run m h l1 : ∀ l2 n, tq_at field m h (l1 ++ l2) → (length l1 ≤ n)%nat →
    foreach_reverse field n (default 0 (last l1)) m = Ret (reverse l1, m).
Proof.
  induction l1 as [|e l1 IH] using rev_ind; intros l2 n Hq Hn; [by destruct n|]. rewrite last_snoc, reverse_snoc.
  cbn [default from_option id]. rewrite length_app in Hn. cbn in Hn.
  rewrite <- app_assoc in Hq. pose proof Hq as (Hl & _).
  destruct (place_words field m h l1 ([e] ++ l2) Hl) as [_ He]. destruct (He e l2 eq_refl) as (_ & He0 & _).
  destruct n as [|n]; [lia|]. cbn [foreach_reverse]. rewrite (proj2 (Z.eqb_neq e 0) He0), (bind_Ret _ _ _ _ _ (tailq_prev_run m h l1 e l2 Hq)).
  by rewrite (bind_Ret _ _ _ _ _ (IH (e :: l2) n Hq ltac:(lia))).
Qed.

Lemma tailq_init_run m h : is_Some (m !! h) → is_Some (m !! tqh_last h) →
  ∃ m', TAILQ_INIT h m = Ret (tt, m') ∧ tq_at field m' h [] ∧ only [h; tqh_last h] m m'.
Proof.
  intros [v Hv] [w Hw]. assert (tqh_last h ≠ h) by (unfold tqh_last; lia). unfold TAILQ_INIT. qrun. eexists. split; [done|].
  split; [|only_done]. split; [split; [apply NoDup_singleton|split; [done|change (endcell field h []) with h; known]]|].
  split; [unfold foot; rewrite links_nil, list_elem_of_singleton; done|known].
Qed.

End lists.
