(* ===== verification/QueueTheorems.v ===== *)
(** The lists of queue.h as lists: any history of operations leaves in memory the
    list that the operations describe. *)

From S2P Require Import Prelude Queue QueueInv.

Section theorems.
Context (field : Z).
Notation nxt := (le_next field).
Notation prv := (le_prev field).
Implicit Types (m : mem) (l : list Z).

(** * What the operations mean *)

Inductive qop : Set := InsHead (x : Z) | InsTail (x : Z) | InsAfter (e x : Z) | InsBefore (e x : Z) | Remove (x : Z).

Definition tq_op (h : Z) (o : qop) : M mem unit :=
  match o with
  | InsHead x => TAILQ_INSERT_HEAD field h x
  | InsTail x => TAILQ_INSERT_TAIL field h x
  | InsAfter e x => TAILQ_INSERT_AFTER field h e x
  | InsBefore e x => TAILQ_INSERT_BEFORE field e x
  | Remove x => TAILQ_REMOVE field h x
  end.

(** A [LIST] has no operation at its end. *)
Definition list_op (h : Z) (o : qop) : M mem unit :=
  match o with
  | InsHead x => LIST_INSERT_HEAD field h x
  | InsTail x => stop Undef
  | InsAfter e x => LIST_INSERT_AFTER field e x
  | InsBefore e x => LIST_INSERT_BEFORE field e x
  | Remove x => LIST_REMOVE field x
  end.

(** The elements come from a pool [P]; one that is inserted is not in the list, and
    one that is named is. *)
Inductive qstep (P : list Z) : qop → list Z → list Z → Prop :=
  | q_head x l : x ∈ P → x ∉ l → qstep P (InsHead x) l (x :: l)
  | q_tail x l : x ∈ P → x ∉ l → qstep P (InsTail x) l (l ++ [x])
  | q_after l1 e l2 x : x ∈ P → x ∉ l1 ++ e :: l2 → qstep P (InsAfter e x) (l1 ++ e :: l2) (l1 ++ e :: x :: l2)
  | q_before l1 e l2 x : x ∈ P → x ∉ l1 ++ e :: l2 → qstep P (InsBefore e x) (l1 ++ e :: l2) (l1 ++ x :: e :: l2)
  | q_remove l1 x l2 : qstep P (Remove x) (l1 ++ x :: l2) (l1 ++ l2).

(** The lists that a history leads to. *)
Inductive qhist (P : list Z) : list qop → list Z → list Z → Prop :=
  | h_nil l : qhist P [] l l
  | h_cons o os l l' l'' : qstep P o l l' → qhist P os l' l'' → qhist P (o :: os) l l''.

(** The memory of the pool, apart from the words [W] of the head. *)
Record pool m (W P : list Z) : Prop := {
  po_nodup : NoDup (W ++ links field P);
  po_words a : a ∈ links field P → is_Some (m !! a);
  po_null : 0 ∉ P;
}.

(** ** One step *)

Lemma links_in P x : x ∈ P → nxt x ∈ links field P ∧ prv x ∈ links field P.
Proof. intros Hx. unfold links. split; apply list_elem_of_bind; exists x; (split; [rewrite !elem_of_cons; tauto|done]). Qed.

Lemma links_elem P a : a ∈ links field P → ∃ x, x ∈ P ∧ (a = nxt x ∨ a = prv x).
Proof. intros (x & Ha & Hx)%list_elem_of_bind. exists x. split; [done|]. rewrite !elem_of_cons in Ha. destruct Ha as [?|[?|?%not_elem_of_nil]]; tauto. Qed.

Lemma links_sub P l a : l ⊆ P → a ∈ links field l → a ∈ links field P.
Proof. intros Hl (x & Hx & Ha)%links_elem. destruct (links_in P x (Hl x Hx)). by destruct Ha as [->| ->]. Qed.

Lemma links_nodup P l : NoDup (links field P) → l ⊆ P → NoDup l → NoDup (links field l).
Proof.
  intros Hn Hl Hd. assert (l ⊆+ P) as Hs by (by apply NoDup_submseteq). clear Hl Hd.
  assert (links field l ⊆+ links field P) as Hs2. { apply submseteq_Permutation in Hs as [k Hk]. unfold links.
  rewrite Hk, bind_app. apply submseteq_inserts_r. done. }
  apply submseteq_Permutation in Hs2 as [k Hk]. rewrite Hk in Hn. by apply NoDup_app in Hn as [? _].
Qed.

(** Elements of the pool that are not in the list are apart from it. *)
Lemma pool_fresh m h W P l x : pool m (h :: W) P → l ⊆ P → NoDup l → x ∈ P → x ∉ l → fresh_elm field m h l x ∧ nxt x ∉ W ∧ prv x ∉ W.
Proof.
  intros [Hn Hw H0] Hl Hd Hx Hxl. destruct (links_in P x Hx) as [I1 I2]. apply NoDup_app in Hn as (N1 & N2 & N3). split.
  - split; [by intros ->|]. split; [by apply Hw|]. split; [by apply Hw|].
    assert (NoDup (links field (x :: l))) as Hnl by (apply (links_nodup P); [done|by intros y [->|Hy]%elem_of_cons; [done|apply Hl]|by apply NoDup_cons]).
    rewrite links_cons in Hnl. rewrite !NoDup_cons in Hnl. rewrite !NoDup_cons. destruct Hnl as (A & B & C). rewrite elem_of_cons in A.
    assert (∀ a, a ∈ links field P → h ≠ a) as Hh by (intros a Ha ->; apply (N2 a); [by left|done]).
    split; [|split; [|split; [|done]]].
    + intros [E|[E|E]%elem_of_cons]%elem_of_cons; [tauto|by apply (Hh (nxt x))|tauto].
    + intros [E|E]%elem_of_cons; [by apply (Hh (prv x))|tauto].
    + intros E. by apply (Hh h (links_sub P l h Hl E)).
  - split; intros Hi; eapply N2; [right; exact Hi|done|right; exact Hi|done].
Qed.

Lemma pool_only m m' W W' P : pool m W P → only W' m m' → pool m' W P.
Proof. intros [H1 H2 H3] [_ Ho]. split; try done. intros a Ha. by apply Ho, H2. Qed.

Lemma cell_in h l1 l2 P : l1 ++ l2 ⊆ P → endcell field h l1 ∈ h :: links field P.
Proof.
  intros Hl. pose proof (cell_foot field h l1 l2) as Hc. unfold foot in Hc. rewrite elem_of_cons in Hc.
  rewrite elem_of_cons. destruct Hc as [?|Hc]; [by left|right]. by eapply links_sub.
Qed.

Lemma next_in l1 l2 P a : l1 ++ l2 ⊆ P → a ∈ next_link field l2 → a ∈ links field P.
Proof. intros Hl Ha%next_link_in. eapply links_sub; [|exact Ha]. intros x Hx. apply Hl. rewrite elem_of_app. by right. Qed.

(** The words that an insertion changes are the head's and the pool's. *)
Lemma insert_words W h l1 x l2 P : l1 ++ l2 ⊆ P → x ∈ P → h ∈ W → nxt x :: prv x :: endcell field h l1 :: next_link field l2 ⊆ W ++ links field P.
Proof.
  intros Hl Hx Hh a. rewrite !elem_of_cons, elem_of_app. destruct (links_in P x Hx) as [I1 I2].
  intros [->|[->|[->|Ha]]]; [by right|by right| |right; by eapply next_in].
  pose proof (cell_in h l1 l2 P Hl) as Hc. rewrite elem_of_cons in Hc. destruct Hc as [->|?]; tauto.
Qed.

Lemma tq_step m h P o l l' : pool m [h; tqh_last h] P → tq_at field m h l → l ⊆ P → NoDup l → qstep P o l l' →
  (∃ m', tq_op h o m = Ret (tt, m') ∧ tq_at field m' h l' ∧ only (h :: tqh_last h :: links field P) m m') ∧ l' ⊆ P ∧ NoDup l'.
Proof.
  intros Hp Hq Hl Hd Hs. pose proof (λ x, pool_fresh m h [tqh_last h] P l x Hp Hl Hd) as Hfr.
  assert (∀ x, x ∈ P → x ∉ l → fresh_tq field m h l x) as Hf.
  { intros x Hx Hxl. destruct (Hfr x Hx Hxl) as (? & N1 & N2). rewrite list_elem_of_singleton in N1, N2. by split_and!. }
  assert (∀ l1 x l2, l1 ++ l2 ⊆ P → x ∈ P → tq_words field h l1 x l2 ⊆ h :: tqh_last h :: links field P) as Hw.
  { intros l1 x l2 H1 H2 a. unfold tq_words. rewrite elem_of_cons. intros [->|Ha]; [right; by left|].
    apply (insert_words [h; tqh_last h] h l1 x l2 P); try done. by left. }
  destruct Hs as [x l Hx Hxl|x l Hx Hxl|l1 e l2 x Hx Hxl|l1 e l2 x Hx Hxl|l1 x l2]; cbn [tq_op].
  - split; [|split; [by intros y [->|Hy]%elem_of_cons; [|apply Hl]|by apply NoDup_cons]].
    destruct (tailq_insert_head_run field m h l x Hq (Hf x Hx Hxl)) as (m' & Hr & Hq' & Ho). exists m'.
    split_and!; try done. eapply only_weaken; [exact Ho|]. by apply (Hw [] x l).
  - split; [|split; [intros y [Hy| ->%list_elem_of_singleton]%elem_of_app; [by apply Hl|done]|apply NoDup_app; split;
      [done|]; split; [by intros y Hy ->%list_elem_of_singleton|apply NoDup_singleton]]].
    destruct (tailq_insert_tail_run field m h l x Hq (Hf x Hx Hxl)) as (m' & Hr & Hq' & Ho). exists m'.
    split_and!; try done. eapply only_weaken; [exact Ho|]. apply (Hw l x []); [by rewrite app_nil_r|done].
  - assert (l1 ++ e :: x :: l2 ≡ₚ x :: l1 ++ e :: l2) as Hperm by (rewrite <- !Permutation_middle; apply perm_swap).
    split; [|split; [intros y; rewrite Hperm; intros [->|Hy]%elem_of_cons; [done|by apply Hl]|rewrite Hperm; by apply NoDup_cons]].
    destruct (tailq_insert_after_run field m h l1 e l2 x Hq (Hf x Hx Hxl)) as (m' & Hr & Hq' & Ho). exists m'.
    split_and!; try done. eapply only_weaken; [exact Ho|].
    apply (Hw (l1 ++ [e]) x l2); [by rewrite <- app_assoc|done].
  - assert (l1 ++ x :: e :: l2 ≡ₚ x :: l1 ++ e :: l2) as Hperm by (by rewrite <- Permutation_middle).
    split; [|split; [intros y; rewrite Hperm; intros [->|Hy]%elem_of_cons; [done|by apply Hl]|rewrite Hperm; by apply NoDup_cons]].
    destruct (tailq_insert_before_run field m h l1 e l2 x Hq (Hf x Hx Hxl)) as (m' & Hr & Hq' & Ho). exists m'.
    split_and!; try done. eapply only_weaken; [exact Ho|]. by apply (Hw l1 x (e :: l2)).
  - assert (l1 ++ x :: l2 ≡ₚ x :: l1 ++ l2) as Hperm by (by rewrite <- Permutation_middle). rewrite Hperm in Hd. apply NoDup_cons in Hd as [Hxd Hd].
    assert (l1 ++ l2 ⊆ P) as Hl' by (intros y Hy; apply Hl; rewrite Hperm; by right). assert (x ∈ P) as Hx by (apply Hl; rewrite Hperm; by left).
    split; [|by split]. destruct (tailq_remove_run field m h l1 x l2 Hq) as (m' & Hr & Hq' & Ho). exists m'.
    split_and!; try done. eapply only_weaken; [exact Ho|].
    intros a Ha. apply (Hw l1 x l2 Hl' Hx). unfold tq_words. rewrite !elem_of_cons in Ha. rewrite !elem_of_cons. tauto.
Qed.

(** * The theorems *)

Definition run_ops (op : qop → M mem unit) (os : list qop) : M mem unit := for_each os op.

Lemma tq_hist m h P os l l' : pool m [h; tqh_last h] P → tq_at field m h l → l ⊆ P → NoDup l → qhist P os l l' →
  ∃ m', run_ops (tq_op h) os m = Ret (tt, m') ∧ tq_at field m' h l' ∧ only (h :: tqh_last h :: links field P) m m'.
Proof.
  intros Hp Hq Hl Hd Hh. revert m Hp Hq. induction Hh as [l|o os l l1 l2 Hs Hh IH]; intros m Hp Hq; [exists m; split_and!; try done|].
  destruct (tq_step m h P o l l1 Hp Hq Hl Hd Hs) as ((m1 & Hr & Hq1 & Ho) & Hl1 & Hd1).
  destruct (IH Hl1 Hd1 m1 (pool_only _ _ _ _ _ Hp Ho) Hq1) as (m2 & Hr2 & Hq2 & Ho2).
  exists m2. split; [unfold run_ops; cbn; by rewrite (bind_Ret _ _ _ _ _ Hr)|]. split; [done|]. by eapply only_trans.
Qed.

(** C13. A tail queue of queue.h is the list that its history describes: after
    [TAILQ_INIT] and any insertions at the ends and beside elements and any removals
    of elements of a pool, each call returns, the links in memory are those of the
    list, going through the queue forwards and backwards gives the elements in order
    and in reverse, the macros for the last element and for the one before an
    element give it or NULL, and no memory but the head's and the pool's links has
    changed. *)
Theorem tailq_refines_list m h P os l (Hp : pool m [h; tqh_last h] P) (Hh : is_Some (m !! h)) (Ht : is_Some (m !! tqh_last h)) (Hos : qhist P os [] l) :
  ∃ m', (TAILQ_INIT h;; run_ops (tq_op h) os) m = Ret (tt, m') ∧ tq_at field m' h l ∧
    LIST_FOREACH field (length l) h m' = Ret (l, m') ∧ TAILQ_FOREACH_REVERSE field (length l) h m' = Ret (reverse l, m') ∧
    TAILQ_LAST h m' = Ret (default 0 (last l), m') ∧ (∀ l1 x l2, l = l1 ++ x :: l2 → TAILQ_PREV field x m' = Ret (default 0 (last l1), m')) ∧
    only (h :: tqh_last h :: links field P) m m'.
Proof.
  destruct (tailq_init_run field m h Hh Ht) as (m1 & Hr1 & Hq1 & Ho1).
  destruct (tq_hist m1 h P os [] l (pool_only _ _ _ _ _ Hp Ho1) Hq1) as (m2 & Hr2 & Hq2 & Ho2);
    [by intros ? ?%not_elem_of_nil|apply NoDup_nil_2|done|].
  exists m2. split; [by rewrite (bind_Ret _ _ _ _ _ Hr1)|]. split; [done|].
  pose proof Hq2 as ((_ & Hs & He) & _ & _). split; [by apply (foreach_run field m2 l h)|].
  split; [unfold TAILQ_FOREACH_REVERSE; rewrite (bind_Ret _ _ _ _ _ (tailq_last_run field m2 h l Hq2));
    apply (foreach_reverse_run field m2 h l []); [by rewrite app_nil_r|done]|].
  split; [by apply tailq_last_run with field|]. split; [intros l1 x l2 ->; by eapply tailq_prev_run|].
  eapply only_trans; [|exact Ho2]. eapply only_weaken; [exact Ho1|].
  intros a. rewrite !elem_of_cons. intros [?|[?|?%not_elem_of_nil]]; tauto.
Qed.

(** ** LIST *)

Definition no_tail (o : qop) : Prop := ∀ x, o ≠ InsTail x.

Lemma list_step m h P o l l' : pool m [h] P → list_at field m h l → l ⊆ P → NoDup l → qstep P o l l' → no_tail o →
  (∃ m', list_op h o m = Ret (tt, m') ∧ list_at field m' h l' ∧ only (h :: links field P) m m') ∧ l' ⊆ P ∧ NoDup l'.
Proof.
  intros Hp Hq Hl Hd Hs Hno.
  assert (∀ x, x ∈ P → x ∉ l → fresh_elm field m h l x) as Hf by (intros x Hx Hxl;
    by destruct (pool_fresh m h [] P l x Hp Hl Hd Hx Hxl) as (? & _)).
  assert (∀ l1 x l2, l1 ++ l2 ⊆ P → x ∈ P →
    nxt x :: prv x :: endcell field h l1 :: next_link field l2 ⊆ h :: links field P) as Hw by (intros l1 x l2 H1 H2;
    apply (insert_words [h]); [done|done|by left]).
  destruct Hs as [x l Hx Hxl|x l Hx Hxl|l1 e l2 x Hx Hxl|l1 e l2 x Hx Hxl|l1 x l2]; cbn [list_op].
  - split; [|split; [by intros y [->|Hy]%elem_of_cons; [|apply Hl]|by apply NoDup_cons]].
    destruct (list_insert_head_run field m h l x Hq (Hf x Hx Hxl)) as (m' & Hr & Hq' & Ho). exists m'.
    split_and!; try done. eapply only_weaken; [exact Ho|]. by apply (Hw [] x l).
  - by destruct (Hno x).
  - assert (l1 ++ e :: x :: l2 ≡ₚ x :: l1 ++ e :: l2) as Hperm by (rewrite <- !Permutation_middle; apply perm_swap).
    split; [|split; [intros y; rewrite Hperm; intros [->|Hy]%elem_of_cons; [done|by apply Hl]|rewrite Hperm; by apply NoDup_cons]].
    destruct (list_insert_after_run field m h l1 e l2 x Hq (Hf x Hx Hxl)) as (m' & Hr & Hq' & Ho). exists m'.
    split_and!; try done. eapply only_weaken; [exact Ho|].
    pose proof (Hw (l1 ++ [e]) x l2) as Hw1. rewrite endcell_app in Hw1. apply Hw1; [by rewrite <- app_assoc|done].
  - assert (l1 ++ x :: e :: l2 ≡ₚ x :: l1 ++ e :: l2) as Hperm by (by rewrite <- Permutation_middle).
    split; [|split; [intros y; rewrite Hperm; intros [->|Hy]%elem_of_cons; [done|by apply Hl]|rewrite Hperm; by apply NoDup_cons]].
    destruct (list_insert_before_run field m h l1 e l2 x Hq (Hf x Hx Hxl)) as (m' & Hr & Hq' & Ho). exists m'.
    split_and!; try done. eapply only_weaken; [exact Ho|]. by apply (Hw l1 x (e :: l2)).
  - assert (l1 ++ x :: l2 ≡ₚ x :: l1 ++ l2) as Hperm by (by rewrite <- Permutation_middle). rewrite Hperm in Hd. apply NoDup_cons in Hd as [Hxd Hd].
    assert (l1 ++ l2 ⊆ P) as Hl' by (intros y Hy; apply Hl; rewrite Hperm; by right). assert (x ∈ P) as Hx by (apply Hl; rewrite Hperm; by left).
    split; [|by split]. destruct (list_remove_run field m h l1 x l2 Hq) as (m' & Hr & Hq' & Ho). exists m'.
    split_and!; try done. eapply only_weaken; [exact Ho|].
    intros a Ha. apply (Hw l1 x l2 Hl' Hx). rewrite elem_of_cons in Ha. rewrite !elem_of_cons. tauto.
Qed.

Lemma list_hist m h P os l l' : pool m [h] P → list_at field m h l → l ⊆ P → NoDup l → qhist P os l l' → Forall no_tail os →
  ∃ m', run_ops (list_op h) os m = Ret (tt, m') ∧ list_at field m' h l' ∧ only (h :: links field P) m m'.
Proof.
  intros Hp Hq Hl Hd Hh Hno. revert m Hp Hq.
  induction Hh as [l|o os l l1 l2 Hs Hh IH]; intros m Hp Hq; [exists m; split_and!; try done|].
  apply Forall_cons in Hno as [Hn1 Hn2].
  destruct (list_step m h P o l l1 Hp Hq Hl Hd Hs Hn1) as ((m1 & Hr & Hq1 & Ho) & Hl1 & Hd1).
  destruct (IH Hl1 Hd1 Hn2 m1 (pool_only _ _ _ _ _ Hp Ho) Hq1) as (m2 & Hr2 & Hq2 & Ho2).
  exists m2. split; [unfold run_ops; cbn; by rewrite (bind_Ret _ _ _ _ _ Hr)|]. split; [done|]. by eapply only_trans.
Qed.

(** The lists that the zones and the slabs are kept in are what their models take
    them for: after [LIST_INIT] and any insertions and removals, the list in memory
    is the one that the history describes. *)
Theorem list_refines_list m h P os l (Hp : pool m [h] P) (Hh : is_Some (m !! h)) (Hos : qhist P os [] l) (Hno : Forall no_tail os) :
  ∃ m', (LIST_INIT h;; run_ops (list_op h) os) m = Ret (tt, m') ∧ list_at field m' h l ∧ LIST_FOREACH field (length l) h m' = Ret (l, m') ∧
    only (h :: links field P) m m'.
Proof.
  destruct Hh as [v Hv]. assert (only [h] m (<[h := 0]> m)) as Ho1 by (apply only_insert; [done|by left]).
  assert (LIST_INIT h m = Ret (tt, <[h := 0]> m)) as Hr1 by (by eapply st_run).
  destruct (list_hist (<[h := 0]> m) h P os [] l (pool_only _ _ _ _ _ Hp Ho1)) as (m2 & Hr2 & Hq2 & Ho2); try done;
    [|by intros ? ?%not_elem_of_nil|apply NoDup_nil_2|].
  - split; [apply NoDup_singleton|]. split; [done|apply lookup_insert_eq].
  - exists m2. split; [by rewrite (bind_Ret _ _ _ _ _ Hr1)|]. split; [done|]. pose proof Hq2 as (_ & Hs & He). split; [by apply (foreach_run field m2 l h)|].
    eapply only_trans; [|exact Ho2]. eapply only_weaken; [exact Ho1|]. intros a ->%list_elem_of_singleton. by left.
Qed.

(** [LIST_REPLACE] puts an element in the place of another. *)
Lemma list_replace_run m h l1 x l2 x2 : list_at field m h (l1 ++ x :: l2) → fresh_elm field m h (l1 ++ x :: l2) x2 →
  ∃ m', LIST_REPLACE field x x2 m = Ret (tt, m') ∧ list_at field m' h (l1 ++ x2 :: l2).
Proof.
  intros Hl Hf. destruct (place_words field m h l1 (x :: l2) Hl) as [Hc Hx]. destruct (Hx x l2 eq_refl) as (Hp & Hx0 & Hn). set (c := endcell field h l1) in *.
  pose proof (fresh_nodup field m h (l1 ++ [x]) l2 x2) as Hnd. rewrite <- !app_assoc in Hnd. specialize (Hnd Hf).
  apply (place_nodup field h l1 [x] ([x2] ++ l2)) in Hnd.
  destruct Hf as (H20 & [vn Hvn] & [vp Hvp] & _). fold c in Hnd.
  assert (∀ _ : unit, NoDup (h :: links field (l1 ++ [x2] ++ l2))) as Hnd'.
  { intros _. rewrite foot_split. fold c. rewrite (links_app field [x2]). apply (sublist_NoDup _ _ Hnd).
    apply sublist_app; [done|]. constructor. rewrite (links_app field [x2]). by apply sublist_inserts_l. }
  unfold LIST_REPLACE. destruct l2 as [|y l2]; cbn in Hn; rewrite ?links_cons, ?links_nil in Hnd; cbn [app] in Hnd;
    rewrite ?links_cons, ?links_nil in Hnd; nodup_facts.
  - qrun. eexists. split; [done|]. eapply (list_splice field m _ h l1 [x] [x2] []); [done|exact (Hnd' tt)|..]; fold c.
    + intros a Ha. rewrite !lookup_insert_ne; [done|intros <-..]; match goal with H : ∀ a, a ∈ words _ _ _ →
        _ |- _ => apply (H _ Ha) end; rewrite !elem_of_cons; tauto.
    + split_and!; [known|known|done|done].
    + change (endcell field c [x2]) with (nxt x2). known.
  - destruct (place_words field m h (l1 ++ [x]) (y :: l2)) as [_ Hy]; [by rewrite <- app_assoc|].
    destruct (Hy y l2 eq_refl) as (Hpy & Hy0 & Hny). rewrite endcell_app in Hpy. cbn in Hpy.
    qrun. rewrite (proj2 (Z.eqb_neq y 0) Hy0). qrun. eexists. split; [done|].
    eapply (list_splice field m _ h l1 [x] [x2] (y :: l2)); [done|exact (Hnd' tt)|..]; fold c.
    + intros a Ha. rewrite !lookup_insert_ne; [done|intros <-..]; match goal with H : ∀ a, a ∈ words _ _ _ →
        _ |- _ => apply (H _ Ha) end; rewrite !elem_of_cons; tauto.
    + split_and!; [known|known|done|done].
    + change (endcell field c [x2]) with (nxt x2). split; [known|]. split; [known|]. intros a Ha.
      rewrite !lookup_insert_ne; [done|intros <-..]; rewrite elem_of_cons in Ha; destruct Ha as [Ha|Ha];
        congruence || done.
Qed.

(** ** SLIST *)

Fixpoint slist_at m (c : Z) l : Prop :=
  match l with
  | [] => m !! c = Some 0
  | e :: l' => m !! c = Some e ∧ e ≠ 0 ∧ slist_at m (nxt e) l'
  end.

Definition slist_ok m (h : Z) l : Prop := NoDup (h :: (nxt <$> l)) ∧ slist_at m h l.

Lemma slist_frame m m' c l : (∀ a, a ∈ c :: (nxt <$> l) → m' !! a = m !! a) → slist_at m c l → slist_at m' c l.
Proof.
  revert c. induction l as [|e l IH]; intros c Ha; cbn in *; [by rewrite Ha by left|]. intros (H1 & H2 & H3). rewrite Ha by left. split_and!; try done.
  apply IH; [|done]. intros a Hin. apply Ha. by right.
Qed.

Lemma slist_insert_head_run m h l x : slist_ok m h l → x ≠ 0 → is_Some (m !! nxt x) → nxt x ∉ h :: (nxt <$> l) →
  ∃ m', SLIST_INSERT_HEAD field h x m = Ret (tt, m') ∧ slist_ok m' h (x :: l).
Proof.
  intros [Hn Hs] Hx [v Hv] Hf.
  assert (m !! h = Some (default 0 (head l))) as Hh by (destruct l; [done|by destruct Hs]).
  apply NoDup_cons in Hn as [Hh1 Hn]. pose proof Hf as [Hfh Hfl]%not_elem_of_cons.
  unfold SLIST_INSERT_HEAD. qrun. eexists. split; [done|]. split.
  - cbn. rewrite !NoDup_cons, elem_of_cons. naive_solver.
  - cbn. split; [known|]. split; [done|].
    destruct l as [|e l]; cbn [default head from_option id slist_at] in *; [known|]. destruct Hs as (_ & He & Hs).
    cbn in Hh1, Hfl.
    split; [known|]. split; [done|]. eapply slist_frame; [|exact Hs]. intros a Ha. cbn in *. rewrite !lookup_insert_ne; [done|by intros <-|by intros <-].
Qed.

Lemma slist_remove_head_run m h x l : slist_ok m h (x :: l) → ∃ m', SLIST_REMOVE_HEAD field h m = Ret (tt, m') ∧ slist_ok m' h l.
Proof.
  intros [Hn (H1 & H2 & Hs)].
  assert (m !! nxt x = Some (default 0 (head l))) as Hh by (destruct l; [done|by destruct Hs]). cbn in Hn.
  rewrite !NoDup_cons, elem_of_cons in Hn.
  unfold SLIST_REMOVE_HEAD. qrun. eexists. split; [done|]. split; [rewrite NoDup_cons; tauto|].
  destruct l as [|e l]; cbn [default head from_option id slist_at] in *; [known|]. destruct Hs as (_ & He & Hs).
  split; [known|]. split; [done|]. eapply slist_frame; [|exact Hs]. intros a Ha. cbn in *. rewrite !lookup_insert_ne; [done|]. intros <-. tauto.
Qed.

(** [SLIST_REMOVE] walks to the element before. *)
Lemma slist_before_run m x l1 : ∀ c e l2 n, slist_at m c (e :: l1 ++ x :: l2) → x ∉ l1 → (length l1 < n)%nat →
  slist_before field n e x m = Ret (default e (last l1), m) ∧ m !! nxt (default e (last l1)) = Some x ∧ m !! nxt x = Some (default 0 (head l2)).
Proof.
  induction l1 as [|e1 l1 IH]; intros c e l2 n Hs Hx Hn; (destruct n as [|n]; [lia|]); cbn [slist_before].
  - destruct Hs as (_ & _ & Hx1 & _ & Hs). rewrite (bind_ld _ _ _ _ _ Hx1), Z.eqb_refl. split_and!; try done. destruct l2; [done|by destruct Hs].
  - destruct Hs as (_ & _ & Hs). pose proof Hs as (He1 & _). cbn in He1.
    rewrite (bind_ld _ _ _ _ _ He1), (proj2 (Z.eqb_neq e1 x)) by (intros ->; apply Hx; by left).
    destruct (IH (nxt e) e1 l2 n Hs) as (Hr & H1 & H2); [intros Hi; apply Hx; by right|cbn in Hn; lia|]. rewrite last_cons. by destruct (last l1).
Qed.

Lemma slist_drop m m' x l1 : ∀ c l2, slist_at m c (l1 ++ x :: l2) → NoDup (c :: (nxt <$> l1 ++ x :: l2)) →
  (∀ a, a ≠ default c (nxt <$> last l1) → m' !! a = m !! a) → m' !! default c (nxt <$> last l1) = Some (default 0 (head l2)) → slist_at m' c (l1 ++ l2).
Proof.
  induction l1 as [|e l1 IH]; intros c l2 Hs Hn Ho Hv; cbn in *.
  - destruct Hs as (_ & _ & Hs). rewrite !NoDup_cons, elem_of_cons in Hn.
    assert (∀ a, a ∈ nxt x :: (nxt <$> l2) → m' !! a = m !! a) as Hfr by (intros a Ha; apply Ho; intros ->;
      rewrite elem_of_cons in Ha; tauto).
    pose proof (slist_frame m m' (nxt x) l2 Hfr Hs) as Hs'. destruct l2 as [|y l2]; [done|]. destruct Hs' as (_ & ? & ?). done.
  - destruct Hs as (Hc & He & Hs). rewrite last_cons in Ho, Hv. rewrite NoDup_cons in Hn. destruct Hn as [Hc1 Hn].
    assert (default c (nxt <$> match last l1 with Some y => Some y | None => Some e end) = default (nxt e)
      (nxt <$> last l1)) as E by (by destruct (last l1)). rewrite E in Ho, Hv.
    assert (default (nxt e) (nxt <$> last l1) ∈ nxt e :: (nxt <$> l1)) as Hin.
    { destruct (last l1) as [y|] eqn:El; cbn; [|by left]. right. apply list_elem_of_fmap. exists y. split; [done|]. by apply last_Some_elem_of. }
    split; [rewrite Ho; [done|]|split; [done|by apply IH]]. intros ->. apply Hc1. rewrite elem_of_cons in Hin.
    rewrite elem_of_cons, fmap_app, elem_of_app. tauto.
Qed.

Lemma slist_remove_run m h l1 x l2 n : slist_ok m h (l1 ++ x :: l2) → x ∉ l1 → (length l1 ≤ n)%nat →
    ∃ m', SLIST_REMOVE field n h x m = Ret (tt, m') ∧ slist_ok m' h (l1 ++ l2).
Proof.
  intros [Hn Hs] Hx Hl. assert (NoDup (h :: (nxt <$> l1 ++ l2))) as Hn'.
  { rewrite fmap_app in *. cbn in Hn. rewrite <- Permutation_middle, NoDup_cons, elem_of_cons, NoDup_cons in Hn. rewrite NoDup_cons. tauto. }
  destruct l1 as [|e l1].
  { destruct (slist_remove_head_run m h x l2) as (m' & Hr & Hok); [by split|]. exists m'. split; [|done].
    destruct Hs as (Hh & _). unfold SLIST_REMOVE. by rewrite (bind_ld _ _ _ _ _ Hh), Z.eqb_refl. }
  pose proof Hs as (Hh & _). destruct (slist_before_run m x l1 h e l2 n Hs) as (Hr & H1 & H2); [intros Hi; apply Hx; by right|cbn in Hl; lia|].
  unfold SLIST_REMOVE. rewrite (bind_ld _ _ _ _ _ Hh), (proj2 (Z.eqb_neq e x)) by (intros ->; apply Hx; by left).
  rewrite (bind_Ret _ _ _ _ _ Hr), (bind_ld _ _ _ _ _ H1), (bind_ld _ _ _ _ _ H2).
  rewrite (st_run _ _ _ _ H1). eexists. split; [done|]. split; [done|].
  assert (default h (nxt <$> last (e :: l1)) = nxt (default e (last l1))) as E by (rewrite last_cons;
    by destruct (last l1)).
  apply (slist_drop m _ x (e :: l1) h l2 Hs Hn); rewrite E; [intros a Ha; by rewrite lookup_insert_ne|apply lookup_insert_eq].
Qed.

End theorems.

(** * A small memory *)

Module QueueExample.

(** Heads at 8 and 1000, elements at 100, 200 and 300 with their links at offset 16. *)
Definition m0 : mem := list_to_map ((λ a, (a, 7)) <$> [8; 16; 1000; 1008; 116; 124; 216; 224; 316; 324]).

Lemma m0_pool : pool 16 m0 [8; 16] [100; 200; 300].
Proof.
  split; [apply (bool_decide_unpack _); vm_compute; exact I| |apply (bool_decide_unpack _); vm_compute; exact I].
  intros a Ha. repeat (apply elem_of_cons in Ha as [->|Ha]; [vm_compute; eauto|]). by apply not_elem_of_nil in Ha.
Qed.

Definition ops : list qop := [InsTail 100; InsHead 200; InsAfter 200 300; Remove 200].

Lemma ops_hist : qhist [100; 200; 300] ops [] [300; 100].
Proof.
  apply (h_cons _ _ _ _ [100]); [apply (q_tail _ 100 []); set_solver|]. apply (h_cons _ _ _ _ [200; 100]); [apply q_head; set_solver|].
  apply (h_cons _ _ _ _ [200; 300; 100]); [apply (q_after _ [] 200 [100]); set_solver|].
  apply (h_cons _ _ _ _ [300; 100]); [apply (q_remove _ [] 200 [300; 100])|]. constructor.
Qed.

Lemma tailq_refines_list_witness :
  ∃ m', (TAILQ_INIT 8;; run_ops (tq_op 16 8) ops) m0 = Ret (tt, m') ∧ tq_at 16 m' 8 [300; 100] ∧
    LIST_FOREACH 16 2 8 m' = Ret ([300; 100], m') ∧ TAILQ_FOREACH_REVERSE 16 2 8 m' = Ret ([100; 300], m').
Proof.
  destruct (tailq_refines_list 16 m0 8 [100; 200; 300] ops [300; 100] m0_pool ltac:(vm_compute;
    eauto) ltac:(vm_compute; eauto) ops_hist) as (m' & H1 & H2 & H3 & H4 & _).
  exists m'. exact (conj H1 (conj H2 (conj H3 H4))).
Defined.

(** [LIST_MOVE] leaves the back link of the first element at the old head: when that
    element is removed, the new head still points to it. *)
Lemma list_move_stale :
  ∃ m, (LIST_INIT 8;; LIST_INSERT_HEAD 16 8 100;; LIST_MOVE 8 1000;; LIST_REMOVE 16 100) m0 = Ret (tt, m) ∧ m !! 1000 = Some 100.
Proof. eexists. split; vm_compute; reflexivity. Qed.

End QueueExample.
