(* ===== verification/Mem.v ===== *)
(** Copying, filling, comparing and searching memory (libec/bcopy.c as memmove.c and
    memcpy.c include it, memset.c, memcmp.c, memchr.c), word by word where the
    addresses allow it. Memory is bytes; a word is a run of them. *)

From S2P Require Import Prelude Words.

Notation bytes := (gmap Z Z).

Definition ldb (a : Z) : M bytes Z := m ← gets (lookup a); opt_or Fault m.
Definition stb (a v : Z) : M bytes unit := ldb a;; modify (<[a := v]>).

Fixpoint ldbs (a : Z) (n : nat) : M bytes (list Z) :=
  match n with
  | O => mret []
  | S n' => v ← ldb a; l ← ldbs (a + 1) n'; mret (v :: l)
  end.
Fixpoint stbs (a : Z) (l : list Z) : M bytes unit :=
  match l with
  | [] => mret tt
  | v :: l' => stb a v;; stbs (a + 1) l'
  end.

(** A word of [n] bytes, as its bytes; its address has to be aligned. *)
Definition ldw (a : Z) (n : nat) : M bytes (list Z) := if a `mod` n =? 0 then ldbs a n else stop Undef.
Definition stw (a : Z) (l : list Z) : M bytes unit := if a `mod` length l =? 0 then stbs a l else stop Undef.

(** * memmove *)

(** [sizeof (word)], [long]. *)
Definition wsize : Z := 8.
Definition wmask : Z := wsize - 1.

(** [*dst = *src] of [k] bytes, then on by [k]. *)
Fixpoint copy_up (k t : nat) (dst src : Z) : M bytes unit :=
  match t with
  | O => mret tt
  | S t' => w ← ldw src k; stw dst w;; copy_up k t' (dst + k) (src + k)
  end.

(** Back by [k], then [*dst = *src] of [k] bytes. *)
Fixpoint copy_down (k t : nat) (dst src : Z) : M bytes unit :=
  match t with
  | O => mret tt
  | S t' => w ← ldw (src - k) k; stw (dst - k) w;; copy_down k t' (dst - k) (src - k)
  end.

(** [TLOOP1], which does not end when [t] is 0. *)
Definition TLOOP1 (t : Z) (loop : nat → M bytes unit) : M bytes unit := if t =? 0 then stop Hang else loop (Z.to_nat t).
Definition TLOOP (t : Z) (loop : nat → M bytes unit) : M bytes unit := if negb (t =? 0) then TLOOP1 t loop else mret tt.

Definition memmove (dst0 src0 length : Z) : M bytes Z :=
  if (length =? 0) || (dst0 =? src0) then mret dst0
  else
    (if dst0 <? src0 then
       let u := src0 in
       t ← (if negb (Z.land (Z.lor u dst0) wmask =? 0) then
              let t := if negb (Z.land (Z.lxor u dst0) wmask =? 0) || (length <? wsize) then length else wsize - Z.land u wmask in
              TLOOP1 t (λ t, copy_up 1 t dst0 src0);;
              mret t
            else mret 0);
       let '(dst, src, length) := (dst0 + t, src0 + t, length - t) in
       let q := length `div` wsize in
       TLOOP q (λ t, copy_up (Z.to_nat wsize) t dst src);;
       let '(dst, src) := (dst + wsize * q, src + wsize * q) in
       TLOOP (Z.land length wmask) (λ t, copy_up 1 t dst src)
     else
       let '(dst, src) := (dst0 + length, src0 + length) in
       let u := src in
       t ← (if negb (Z.land (Z.lor u dst) wmask =? 0) then
              let t := if negb (Z.land (Z.lxor u dst) wmask =? 0) || (length <=? wsize) then length else Z.land u wmask in
              TLOOP1 t (λ t, copy_down 1 t dst src);;
              mret t
            else mret 0);
       let '(dst, src, length) := (dst - t, src - t, length - t) in
       let q := length `div` wsize in
       TLOOP q (λ t, copy_down (Z.to_nat wsize) t dst src);;
       let '(dst, src) := (dst - wsize * q, src - wsize * q) in
       TLOOP (Z.land length wmask) (λ t, copy_down 1 t dst src));;
    mret dst0.

(** * memset *)

(** [sizeof (u_int)]. *)
Definition uisize : Z := 4.
Definition uimask : Z := uisize - 1.

(** [*dst = v] for [k] bytes, then on by [k]. *)
Fixpoint fill (w : list Z) (t : nat) (dst : Z) : M bytes unit :=
  match t with
  | O => mret tt
  | S t' => stw dst w;; fill w t' (dst + length w)
  end.

(** The bytes of a [u_int], least significant first. *)
Definition uint_bytes (c : Z) : list Z := (λ i, u8 (Z.shiftr c (8 * i))) <$> [0; 1; 2; 3].

Definition wide (c0 : Z) : Z :=
  let c := u8 c0 in
  if negb (c =? 0) then
    let c := u32 (Z.lor (u32 (Z.shiftl c 8)) c) in
    u32 (Z.lor (u32 (Z.shiftl c 16)) c)
  else c.

Definition memset (dst0 c0 length : Z) : M bytes Z :=
  if length <? 3 * uisize then fill [u8 c0] (Z.to_nat length) dst0;; mret dst0
  else
    let c := wide c0 in
    let t := Z.land dst0 uimask in
    t ← (if negb (t =? 0) then fill [u8 c0] (Z.to_nat (uisize - t)) dst0;; mret (uisize - t) else mret 0);
    let '(dst, length) := (dst0 + t, length - t) in
    let q := length `div` uisize in
    TLOOP1 q (λ t, fill (uint_bytes c) t dst);;
    let dst := dst + uisize * q in
    let t := Z.land length uimask in
    TLOOP t (λ t, fill [u8 c0] t dst);;
    mret dst0.

(** * memcmp and memchr *)

(** [while (n >= sizeof (uintptr_t))]: how many bytes are passed over. *)
Fixpoint cmp_words (fuel : nat) (b1 b2 n : Z) : M bytes (Z * Z * Z) :=
  if n <? 8 then mret (b1, b2, n)
  else
    match fuel with
    | O => stop Hang
    | S fuel' =>
        w1 ← ldw b1 8; w2 ← ldw b2 8;
        if bool_decide (w1 ≠ w2) then mret (b1, b2, n) else cmp_words fuel' (b1 + 8) (b2 + 8) (n - 8)
    end.

Fixpoint cmp_bytes (n : nat) (c1 c2 : Z) : M bytes Z :=
  match n with
  | O => mret 0
  | S n' => v1 ← ldb c1; v2 ← ldb c2; if negb (v1 =? v2) then mret (v1 - v2) else cmp_bytes n' (c1 + 1) (c2 + 1)
  end.

Definition memcmp (s1 s2 n : Z) : M bytes Z :=
  r ← (if Z.land (Z.lor s1 s2) 7 =? 0 then cmp_words (Z.to_nat n) s1 s2 n else mret (s1, s2, n));
  let '(c1, c2, n) := r : Z * Z * Z in
  cmp_bytes (Z.to_nat n) c1 c2.

Fixpoint memchr_loop (n : nat) (p cmp : Z) : M bytes Z :=
  match n with
  | O => mret 0
  | S n' => v ← ldb p; if v =? cmp then mret p else memchr_loop n' (p + 1) cmp
  end.

Definition memchr (s c n : Z) : M bytes Z := memchr_loop (Z.to_nat n) s (u8 c).
