(* ===== verification/MemTheorems.v ===== *)
(** The routines of Mem do what byte by byte definitions say, whatever the
    alignment and the overlap of their arguments. *)

From S2P Require Import Prelude Words Mem.

Implicit Types m : bytes.

(** * Bytes and words *)

Lemma ldb_run m a v : m !! a = Some v → ldb a m = Ret (v, m).
Proof. intros Ha. unfold ldb. mrun. by rewrite Ha. Qed.

Lemma stb_run m a v : is_Some (m !! a) → stb a v m = Ret (tt, <[a := v]> m).
Proof. intros [w Ha]. unfold stb. by mrun (ldb_run m a w Ha). Qed.

Lemma ldbs_run (n : nat) : ∀ m a, (∀ i : Z, 0 ≤ i < n → is_Some (m !! (a + i))) →
  ∃ l, ldbs a n m = Ret (l, m) ∧ length l = n ∧ ∀ i : nat, (i < n)%nat → l !! i = m !! (a + i).
Proof.
  induction n as [|n IH]; intros m a Hs; [exists []; split_and!; try done; lia|]. destruct (Hs 0 ltac:(lia)) as [v Hv]. rewrite Z.add_0_r in Hv.
  destruct (IH m (a + 1)) as (l & Hr & Hl & Hi). { intros i Hi. replace (a + 1 + i) with (a + (i + 1)) by lia. apply Hs. lia. }
  exists (v :: l). cbn [ldbs]. rewrite (bind_Ret _ _ _ _ _ (ldb_run m a v Hv)), (bind_Ret _ _ _ _ _ Hr). split; [done|]. split; [cbn; by rewrite Hl|].
  intros [|i] Hi'; cbn; [by rewrite Z.add_0_r|]. rewrite Hi by lia. f_equal. lia.
Qed.

Lemma stbs_run l : ∀ m a, (∀ i : Z, 0 ≤ i < length l → is_Some (m !! (a + i))) →
  ∃ m', stbs a l m = Ret (tt, m') ∧ ∀ x, m' !! x = if decide (a ≤ x < a + length l) then l !! Z.to_nat (x - a) else m !! x.
Proof.
  induction l as [|v l IH]; intros m a Hs.
  { exists m. split; [done|]. intros x. cbn. rewrite decide_False by lia. done. }
  cbn [stbs length] in *. destruct (IH (<[a := v]> m) (a + 1)) as (m' & Hr & Hm).
  { intros i Hi. replace (a + 1 + i) with (a + (i + 1)) by lia. apply lookup_insert_is_Some'. right. apply Hs. lia. }
  exists m'. rewrite (bind_Ret _ _ _ _ _ (stb_run m a v (eq_ind_r (λ z, is_Some (m !! z)) (Hs 0 ltac:(lia)) (eq_sym (Z.add_0_r a))))). split; [done|].
  intros x. rewrite Hm. destruct (decide (a = x)) as [->|Hne].
  - rewrite decide_False by lia. rewrite decide_True by lia. by rewrite lookup_insert_eq, Z.sub_diag.
  - rewrite lookup_insert_ne by done. destruct (decide (a + 1 ≤ x < a + 1 + length l)) as [Hx|Hx].
    + rewrite decide_True by lia. replace (Z.to_nat (x - a)) with (S (Z.to_nat (x - (a + 1)))) by lia. done.
    + rewrite decide_False by lia. done.
Qed.

Lemma ldw_aligned a (n : nat) : 0 < n → (n | a) → ldw a n = ldbs a n.
Proof. intros Hn Ha. unfold ldw. by rewrite (proj2 (Z.mod_divide a n ltac:(lia)) Ha). Qed.

Lemma stw_aligned a l : 0 < length l → (length l | a) → stw a l = stbs a l.
Proof. intros Hn Ha. unfold stw. by rewrite (proj2 (Z.mod_divide a (length l) ltac:(lia)) Ha). Qed.

(** * Copying *)

(** The memory after the bytes [i] to [j] have been copied. *)
Definition cp m (dst src i j x : Z) : option Z := if decide (dst + i ≤ x < dst + j) then m !! (src + (x - dst)) else m !! x.

(** One move of [k] bytes from [src + y] to [dst + y], when those bytes are still as
    they were. *)
Lemma move_run m0 m dst src y (k : nat) : 0 < k → (k | dst + y) → (k | src + y) → (∀ i, 0 ≤ i < k → m !! (src + y + i) = m0 !! (src + y + i)) →
  (∀ i, 0 ≤ i < k → is_Some (m0 !! (src + y + i)) ∧ is_Some (m !! (dst + y + i))) →
  ∃ m', (w ← ldw (src + y) k; stw (dst + y) w) m = Ret (tt, m') ∧ ∀ x, m' !! x = if decide (dst + y ≤ x < dst + y + k) then m0 !! (src + (x - dst)) else m !! x.
Proof.
  intros Hk Hd Hs Hold Hok. rewrite ldw_aligned by done. destruct (ldbs_run k m (src + y)) as (w & Hr & Hl & Hw).
  { intros i Hi. rewrite Hold by done. by apply Hok. }
  destruct (stbs_run w m (dst + y)) as (m' & Hr' & Hm'). { intros i Hi. apply Hok. lia. }
  exists m'. rewrite (bind_Ret _ _ _ _ _ Hr), stw_aligned by (by rewrite Hl). split; [done|]. intros x.
  rewrite Hm', Hl. destruct (decide (dst + y ≤ x < dst + y + k)) as [Hx|Hx]; [|done].
  rewrite Hw by lia. replace (src + y + Z.to_nat (x - (dst + y))) with (src + y + (x - (dst + y))) by lia. rewrite Hold by lia. f_equal. lia.
Qed.

Lemma copy_up_run m0 dst src (k t : nat) : ∀ m i, dst < src → 0 ≤ i → 0 < k →
    (t ≠ 0%nat → (k | dst + i) ∧ (k | src + i)) → (∀ x, m !! x = cp m0 dst src 0 i x) →
  (∀ x, i ≤ x < i + k * t → is_Some (m0 !! (src + x)) ∧ is_Some (m0 !! (dst + x))) →
  ∃ m', copy_up k t (dst + i) (src + i) m = Ret (tt, m') ∧ ∀ x, m' !! x = cp m0 dst src 0 (i + k * t) x.
Proof.
  induction t as [|t IH]; intros m i Hlt Hi Hk Ha Hm Hok; [exists m; split; [done|]; intros x; rewrite Hm; do 2 f_equal; lia|]. cbn [copy_up].
  destruct (Ha ltac:(done)) as [Hd Hs]. destruct (move_run m0 m dst src i k Hk Hd Hs) as (m1 & Hr & Hm1).
  - intros j Hj. rewrite Hm. unfold cp. by rewrite decide_False by lia.
  - intros j Hj. rewrite Hm. unfold cp. rewrite decide_False by lia.
    replace (src + i + j) with (src + (i + j)) by lia. replace (dst + i + j) with (dst + (i + j)) by lia. apply Hok.
    lia.
  - destruct (IH m1 (i + k)) as (m2 & Hr2 & Hm2); [done|lia|done|intros _; rewrite !Z.add_assoc; split;
      by apply Z.divide_add_r|  |intros x Hx; apply Hok; lia|].
    + intros x. rewrite Hm1, Hm. unfold cp. destruct (decide (dst + i ≤ x < dst + i + k)); [by rewrite decide_True by lia|].
      destruct (decide (dst + 0 ≤ x < dst + i)); [by rewrite decide_True by lia|by rewrite decide_False by lia].
    + exists m2. split; [|intros x; rewrite Hm2; f_equal; lia]. rewrite <- bind_assoc.
      rewrite (bind_Ret _ _ _ _ _ Hr). replace (dst + i + k) with (dst + (i + k)) by lia.
      replace (src + i + k) with (src + (i + k)) by lia. done.
Qed.

Lemma copy_down_run m0 dst src n (k t : nat) : ∀ m j, src < dst → j ≤ n → 0 < k →
    (t ≠ 0%nat → (k | dst + j) ∧ (k | src + j)) → (∀ x, m !! x = cp m0 dst src j n x) →
  (∀ x, j - k * t ≤ x < j → is_Some (m0 !! (src + x)) ∧ is_Some (m0 !! (dst + x))) →
  ∃ m', copy_down k t (dst + j) (src + j) m = Ret (tt, m') ∧ ∀ x, m' !! x = cp m0 dst src (j - k * t) n x.
Proof.
  induction t as [|t IH]; intros m j Hlt Hj Hk Ha Hm Hok; [exists m; split; [done|]; intros x; rewrite Hm; f_equal; lia|]. cbn [copy_down].
  replace (src + j - k) with (src + (j - k)) by lia. replace (dst + j - k) with (dst + (j - k)) by lia. destruct (Ha ltac:(done)) as [Hd Hs].
  assert ((k | dst + (j - k)) ∧ (k | src + (j - k))) as [Hd' Hs'] by (rewrite !Z.add_sub_assoc; split; by apply Z.divide_sub_r).
  destruct (move_run m0 m dst src (j - k) k Hk Hd' Hs') as (m1 & Hr & Hm1).
  - intros i Hi. rewrite Hm. unfold cp. by rewrite decide_False by lia.
  - intros i Hi. rewrite Hm. unfold cp. rewrite decide_False by lia.
    replace (src + (j - k) + i) with (src + (j - k + i)) by lia.
    replace (dst + (j - k) + i) with (dst + (j - k + i)) by lia. apply Hok. lia.
  - destruct (IH m1 (j - k)) as (m2 & Hr2 & Hm2); [done|lia|done|by intros _| |intros x Hx; apply Hok; lia|].
    + intros x. rewrite Hm1, Hm. unfold cp. destruct (decide (dst + (j - k) ≤ x < dst + (j - k) + k)); [by rewrite decide_True by lia|].
      destruct (decide (dst + j ≤ x < dst + n)); [by rewrite decide_True by lia|by rewrite decide_False by lia].
    + exists m2. split; [|intros x; rewrite Hm2; f_equal; lia]. rewrite <- bind_assoc. by rewrite (bind_Ret _ _ _ _ _ Hr).
Qed.

(** Low bits of two addresses. *)
Lemma low_bits a b : Z.land (Z.lor a b) wmask = 0 ↔ (8 | a) ∧ (8 | b).
Proof.
  change wmask with (Z.ones 3). rewrite Z.land_lor_distr_l, Z.lor_eq_0_iff, !Z.land_ones by lia. change (2 ^ 3) with 8. by rewrite !Z.mod_divide by lia.
Qed.

Lemma same_low_bits a b : Z.land (Z.lxor a b) wmask = 0 ↔ a `mod` 8 = b `mod` 8.
Proof.
  change wmask with (Z.ones 3). assert (Z.land (Z.lxor a b) (Z.ones 3) = Z.lxor (Z.land a (Z.ones 3)) (Z.land b (Z.ones 3))) as ->.
  { apply Z.bits_inj'. intros n _. rewrite !Z.land_spec, !Z.lxor_spec, !Z.land_spec. by destruct (Z.testbit a n), (Z.testbit b n), (Z.testbit (Z.ones 3) n). }
  rewrite Z.lxor_eq_0_iff, !Z.land_ones by lia. done.
Qed.

Lemma tloop_run t loop m : 0 ≤ t → TLOOP t loop m = if t =? 0 then Ret (tt, m) else loop (Z.to_nat t) m.
Proof. intros _. unfold TLOOP, TLOOP1. by destruct (t =? 0). Qed.

(** The bytes copied before the words: all, or as many as make both ends aligned. *)
Lemma head_up dst src n : dst < src → 0 < n → ¬ ((8 | src) ∧ (8 | dst)) →
  let t := if negb (Z.land (Z.lxor src dst) wmask =? 0) || (n <? wsize) then n else wsize - Z.land src wmask in
  0 < t ≤ n ∧ (t = n ∨ (8 | dst + t) ∧ (8 | src + t)).
Proof.
  intros Hlt Hn Hna t. unfold t, wsize. destruct (Z.eqb_spec (Z.land (Z.lxor src dst) wmask) 0) as [He|He]; cbn [negb orb]; [|lia].
  apply same_low_bits in He. destruct (Z.ltb_spec n 8); [lia|]. change wmask with (Z.ones 3). rewrite Z.land_ones by lia. change (2 ^ 3) with 8.
  rewrite <- !Z.mod_divide by lia. split; [Z.div_mod_to_equations; lia|]. right. Z.div_mod_to_equations; lia.
Qed.

Lemma head_down dst src n : src < dst → 0 < n → ¬ ((8 | src) ∧ (8 | dst)) →
  let t := if negb (Z.land (Z.lxor src dst) wmask =? 0) || (n <=? wsize) then n else Z.land src wmask in
  0 < t ≤ n ∧ (t = n ∨ (8 | dst - t) ∧ (8 | src - t)).
Proof.
  intros Hlt Hn Hna t. unfold t, wsize. destruct (Z.eqb_spec (Z.land (Z.lxor src dst) wmask) 0) as [He|He]; cbn [negb orb]; [|lia].
  apply same_low_bits in He. destruct (Z.leb_spec n 8); [lia|]. change wmask with (Z.ones 3). rewrite Z.land_ones by lia. change (2 ^ 3) with 8.
  rewrite <- !Z.mod_divide in Hna by lia. rewrite <- !Z.mod_divide by lia. split; [Z.div_mod_to_equations; lia|]. right. Z.div_mod_to_equations; lia.
Qed.

Definition mapped m (a n : Z) : Prop := ∀ i, 0 ≤ i < n → is_Some (m !! (a + i)).

Lemma phase_up m dst src n (k : nat) q i m1 : dst < src → 0 < k → 0 ≤ i → 0 ≤ q → i + k * q ≤ n → mapped m dst n → mapped m src n →
  (q ≠ 0 → (k | dst + i) ∧ (k | src + i)) → (∀ x, m1 !! x = cp m dst src 0 i x) →
  ∃ m2, TLOOP q (λ t, copy_up k t (dst + i) (src + i)) m1 = Ret (tt, m2) ∧ ∀ x, m2 !! x = cp m dst src 0 (i + k * q) x.
Proof.
  intros Hlt Hk Hi Hq Hle Hd Hs Hal Hm1. rewrite tloop_run by done.
  destruct (Z.eqb_spec q 0) as [->|E]; [exists m1; split; [done|]; intros x; rewrite Hm1; f_equal; lia|].
  destruct (copy_up_run m dst src k (Z.to_nat q) m1 i) as (m2 & Hr & Hm2); try done; [by intros _; apply Hal|intros x Hx; split; [apply Hs|apply Hd]; lia|].
  exists m2. split; [done|]. intros x. rewrite Hm2. f_equal. lia.
Qed.

Lemma phase_down m dst src n (k : nat) q j m1 : src < dst → 0 < k → j ≤ n → 0 ≤ q → 0 ≤ j - k * q → mapped m dst n → mapped m src n →
  (q ≠ 0 → (k | dst + j) ∧ (k | src + j)) → (∀ x, m1 !! x = cp m dst src j n x) →
  ∃ m2, TLOOP q (λ t, copy_down k t (dst + j) (src + j)) m1 = Ret (tt, m2) ∧ ∀ x, m2 !! x = cp m dst src (j - k * q) n x.
Proof.
  intros Hlt Hk Hi Hq Hle Hd Hs Hal Hm1. rewrite tloop_run by done.
  destruct (Z.eqb_spec q 0) as [->|E]; [exists m1; split; [done|]; intros x; rewrite Hm1; f_equal; lia|].
  destruct (copy_down_run m dst src n k (Z.to_nat q) m1 j) as (m2 & Hr & Hm2); try done; [by intros _; apply Hal|intros x Hx; split; [apply Hs|apply Hd]; lia|].
  exists m2. split; [done|]. intros x. rewrite Hm2. f_equal. lia.
Qed.

Lemma tloop1_run t loop m : t ≠ 0 → TLOOP1 t loop m = TLOOP t loop m.
Proof. intros Ht. unfold TLOOP. by rewrite (proj2 (Z.eqb_neq t 0)). Qed.

Lemma words_left n t : 0 ≤ t ≤ n → let q := (n - t) `div` wsize in 0 ≤ q ∧ 0 ≤ Z.land (n - t) wmask ∧ t + 8 * q + Z.land (n - t) wmask = n ∧ (t = n → q = 0).
Proof.
  intros Ht q. change wmask with (Z.ones 3). rewrite Z.land_ones by lia. change (2 ^ 3) with 8. unfold q, wsize.
  split_and!; [Z.div_mod_to_equations; lia..|]. intros ->. by rewrite Z.sub_diag.
Qed.

Lemma move_up m dst src n : dst < src → 0 < n → mapped m dst n → mapped m src n →
  ∃ m', memmove dst src n m = Ret (dst, m') ∧ ∀ x, m' !! x = cp m dst src 0 n x.
Proof.
  intros Hlt Hn Hd Hs. unfold memmove. rewrite (proj2 (Z.eqb_neq n 0)), (proj2 (Z.eqb_neq dst src)), (proj2 (Z.ltb_lt dst src)) by lia. cbn [orb].
  assert (∀ x, m !! x = cp m dst src 0 0 x) as H0 by (intros x; unfold cp; by rewrite decide_False by lia).
  assert (∃ t m1, (if negb (Z.land (Z.lor src dst) wmask =? 0) then
              let t := if negb (Z.land (Z.lxor src dst) wmask =? 0) || (n <? wsize) then n else wsize - Z.land src wmask in
              TLOOP1 t (λ t, copy_up 1 t dst src);; mret t else mret 0) m = Ret (t, m1) ∧ 0 ≤ t ≤ n ∧ (t = n ∨ (8 | dst + t) ∧ (8 | src + t)) ∧
    ∀ x, m1 !! x = cp m dst src 0 t x) as (t & m1 & Hr1 & Ht & Hal & Hm1).
  { destruct (Z.eqb_spec (Z.land (Z.lor src dst) wmask) 0) as [He|He]; cbn [negb].
    - apply low_bits in He. exists 0, m. split_and!; try done; [lia|]. right. rewrite !Z.add_0_r. tauto.
    - rewrite low_bits in He. pose proof (head_up dst src n Hlt Hn He) as Hh. cbn zeta in *. set (t := if _ || _ then _ else _) in *. destruct Hh as [Ht Hal].
      destruct (phase_up m dst src n 1 t 0 m) as (m1 & Hr & Hm1); try done; try lia;
        [intros _; split; apply Z.divide_1_l|]. rewrite !Z.add_0_r in Hr. rewrite <- tloop1_run in Hr by lia.
      exists t, m1. rewrite (bind_Ret _ _ _ _ _ Hr). split_and!; try done; try lia. intros x. rewrite Hm1. f_equal. lia. }
  rewrite bind_assoc, (bind_Ret _ _ _ _ _ Hr1). cbn beta iota.
  destruct (words_left n t Ht) as (Hq & Hrr & Hsum & Hq0). cbn zeta in *. set (q := (n - t) `div` wsize) in *.
  set (r := Z.land (n - t) wmask) in *.
  destruct (phase_up m dst src n 8 q t m1) as (m2 & Hr2 & Hm2); try done; try lia; [intros Hq1; destruct Hal as [?|?]; [by destruct Hq1; apply Hq0|done]|].
  rewrite (bind_assoc (TLOOP q _)), (bind_Ret _ _ _ _ _ Hr2). cbn beta iota.
  destruct (phase_up m dst src n 1 r (t + 8 * q) m2) as (m3 & Hr3 & Hm3); try done; try lia;
    [intros _; split; apply Z.divide_1_l|]. rewrite !Z.add_assoc in Hr3.
  exists m3. change wsize with 8. rewrite (bind_Ret _ _ _ _ _ Hr3). split; [done|]. intros x. rewrite Hm3. f_equal. lia.
Qed.

Lemma move_down m dst src n : src < dst → 0 < n → mapped m dst n → mapped m src n →
  ∃ m', memmove dst src n m = Ret (dst, m') ∧ ∀ x, m' !! x = cp m dst src 0 n x.
Proof.
  intros Hlt Hn Hd Hs. unfold memmove. rewrite (proj2 (Z.eqb_neq n 0)), (proj2 (Z.eqb_neq dst src)), (proj2 (Z.ltb_ge dst src)) by lia. cbn [orb].
  assert (∀ x, m !! x = cp m dst src n n x) as H0 by (intros x; unfold cp; by rewrite decide_False by lia).
  assert (∃ t m1, (if negb (Z.land (Z.lor (src + n) (dst + n)) wmask =? 0) then
              let t := if negb (Z.land (Z.lxor (src + n) (dst + n)) wmask =? 0) || (n <=? wsize) then n else Z.land (src + n) wmask in
              TLOOP1 t (λ t, copy_down 1 t (dst + n) (src + n));; mret t else mret 0) m = Ret (t, m1) ∧ 0 ≤ t ≤ n ∧
                (t = n ∨ (8 | dst + (n - t)) ∧ (8 | src + (n - t))) ∧
    ∀ x, m1 !! x = cp m dst src (n - t) n x) as (t & m1 & Hr1 & Ht & Hal & Hm1).
  { destruct (Z.eqb_spec (Z.land (Z.lor (src + n) (dst + n)) wmask) 0) as [He|He]; cbn [negb].
    - apply low_bits in He. exists 0, m. rewrite Z.sub_0_r. split_and!; try done; [lia|]. right. tauto.
    - rewrite low_bits in He. pose proof (head_down (dst + n) (src + n) n ltac:(lia) Hn He) as Hh. cbn zeta in *.
      set (t := if _ || _ then _ else _) in *. destruct Hh as [Ht Hal].
      destruct (phase_down m dst src n 1 t n m) as (m1 & Hr & Hm1); try done; try lia;
        [intros _; split; apply Z.divide_1_l|]. rewrite <- tloop1_run in Hr by lia.
      exists t, m1. rewrite (bind_Ret _ _ _ _ _ Hr). rewrite !Z.add_sub_assoc. split_and!; try done; try lia. intros x. rewrite Hm1. f_equal. lia. }
  rewrite bind_assoc, (bind_Ret _ _ _ _ _ Hr1). cbn beta iota.
  destruct (words_left n t Ht) as (Hq & Hrr & Hsum & Hq0). cbn zeta in *. set (q := (n - t) `div` wsize) in *.
  set (r := Z.land (n - t) wmask) in *.
  destruct (phase_down m dst src n 8 q (n - t) m1) as (m2 & Hr2 & Hm2); try done; try lia;
    [intros Hq1; destruct Hal as [?|?]; [by destruct Hq1; apply Hq0|done]|]. rewrite !Z.add_sub_assoc in Hr2.
  rewrite (bind_assoc (TLOOP q _)), (bind_Ret _ _ _ _ _ Hr2). cbn beta iota.
  destruct (phase_down m dst src n 1 r (n - t - 8 * q) m2) as (m3 & Hr3 & Hm3); try done; try lia;
    [intros _; split; apply Z.divide_1_l|]. rewrite !Z.add_sub_assoc in Hr3.
  exists m3. change wsize with 8. rewrite (bind_Ret _ _ _ _ _ Hr3). split; [done|]. intros x. rewrite Hm3. f_equal. lia.
Qed.

(** C28. [memmove] of mapped ranges copies: wherever the ranges lie, aligned or not,
    overlapping or not, the destination ends up with the bytes that the source had
    before the call, no other byte changes, every word access is aligned, and the
    destination is returned. *)
Theorem memmove_correct m dst src n (Hn : 0 ≤ n) (Hd : mapped m dst n) (Hs : mapped m src n) :
  ∃ m', memmove dst src n m = Ret (dst, m') ∧
    ∀ x, m' !! x = if decide (dst ≤ x < dst + n) then m !! (src + (x - dst)) else m !! x.
Proof.
  assert ((∃ m', memmove dst src n m = Ret (dst, m') ∧ ∀ x, m' !! x = cp m dst src 0 n x) →
    ∃ m', memmove dst src n m = Ret (dst, m') ∧ ∀ x, m' !! x = if decide (dst ≤ x < dst + n) then m !! (src + (x - dst)) else m !! x) as Hcp.
  { intros (m' & Hr & Hm). exists m'. split; [done|]. intros x. rewrite Hm. unfold cp. by rewrite Z.add_0_r. }
  destruct (decide (n = 0 ∨ dst = src)) as [Hz|Hz].
  - exists m. unfold memmove. rewrite (proj2 (orb_true_iff (n =? 0) (dst =? src))) by (rewrite !Z.eqb_eq; tauto). split; [done|].
    intros x. destruct (decide (dst ≤ x < dst + n)) as [Hx|Hx]; [|done]. f_equal. lia.
  - apply Hcp. destruct (decide (dst < src)); [apply move_up; try done; lia|apply move_down; try done; lia].
Qed.

(** * Filling *)

Lemma wide_bytes c0 : uint_bytes (wide c0) = replicate 4 (u8 c0).
Proof.
  assert (∀ c, c ∈ seqZ 0 256 → uint_bytes (wide c) = replicate 4 c) as Hall.
  { apply Forall_forall. apply (bool_decide_unpack _). vm_compute. exact I. }
  assert (wide c0 = wide (u8 c0)) as -> by (unfold wide, u8; by rewrite Zmod_mod). apply Hall, elem_of_seqZ.
  unfold u8. pose proof (Z.mod_pos_bound c0 (2 ^ 8)). lia.
Qed.

(** The memory after the bytes from [dst] on have been filled up to [i]. *)
Definition filled m (dst v i x : Z) : option Z := if decide (dst ≤ x < dst + i) then Some v else m !! x.

Lemma fill_run m0 dst v (k t : nat) : ∀ m i, 0 ≤ i → 0 < k → (t ≠ 0%nat → (k | dst + i)) →
    (∀ x, m !! x = filled m0 dst v i x) → (∀ x, i ≤ x < i + k * t → is_Some (m0 !! (dst + x))) →
  ∃ m', fill (replicate k v) t (dst + i) m = Ret (tt, m') ∧ ∀ x, m' !! x = filled m0 dst v (i + k * t) x.
Proof.
  induction t as [|t IH]; intros m i Hi Hk Ha Hm Hok; [exists m; split; [done|]; intros x; rewrite Hm; f_equal; lia|]. cbn [fill].
  rewrite stw_aligned; [|rewrite length_replicate; lia|rewrite length_replicate; by apply Ha].
  destruct (stbs_run (replicate k v) m (dst + i)) as (m1 & Hr & Hm1).
  { intros j Hj. rewrite length_replicate in Hj. rewrite Hm. unfold filled. rewrite decide_False by lia.
    replace (dst + i + j) with (dst + (i + j)) by lia. apply Hok. lia. }
  rewrite length_replicate in *.
  destruct (IH m1 (i + k)) as (m2 & Hr2 & Hm2); [lia|done|intros _; rewrite Z.add_assoc; apply Z.divide_add_r;
    [by apply Ha|done]| |intros x Hx; apply Hok; lia|].
  - intros x. rewrite Hm1, Hm. unfold filled. destruct (decide (dst + i ≤ x < dst + i + k)).
    + rewrite lookup_replicate_2 by lia. by rewrite decide_True by lia.
    + destruct (decide (dst ≤ x < dst + i)); [by rewrite decide_True by lia|by rewrite decide_False by lia].
  - exists m2. rewrite (bind_Ret _ _ _ _ _ Hr). split; [|intros x; rewrite Hm2; f_equal; lia]. by rewrite <- Z.add_assoc.
Qed.

(** [memset] of a mapped range sets its bytes to the low byte of the value and
    changes no other, through aligned word accesses, and returns its argument. *)
Lemma memset_run m dst c n (Hn : 0 ≤ n) (Hd : mapped m dst n) :
  ∃ m', memset dst c n m = Ret (dst, m') ∧ ∀ x, m' !! x = if decide (dst ≤ x < dst + n) then Some (u8 c) else m !! x.
Proof.
  assert (∀ x, m !! x = filled m dst (u8 c) 0 x) as H0 by (intros x; unfold filled; by rewrite decide_False by lia).
  unfold memset, uisize. destruct (Z.ltb_spec n (3 * 4)) as [Hs|Hs].
  { destruct (fill_run m dst (u8 c) 1 (Z.to_nat n) m 0) as (m1 & Hr & Hm1); try done; try lia;
      [intros _; apply Z.divide_1_l|intros x Hx; apply Hd; lia|]. rewrite Z.add_0_r in Hr.
    exists m1. change [u8 c] with (replicate 1 (u8 c)). rewrite (bind_Ret _ _ _ _ _ Hr). split; [done|]. intros x.
    rewrite Hm1. unfold filled. by replace (0 + 1%nat * Z.to_nat n) with n by lia. }
  rewrite wide_bytes. change uimask with (Z.ones 2). rewrite !Z.land_ones by lia. change (2 ^ 2) with 4.
  set (t0 := dst `mod` 4). assert (0 ≤ t0 < 4) as Ht0 by (apply Z.mod_pos_bound; lia).
  assert (∃ t m1, (if negb (t0 =? 0) then fill [u8 c] (Z.to_nat (4 - t0)) dst;;
    mret (4 - t0) else mret 0) m = Ret (t, m1) ∧ 0 ≤ t < 4 ∧ (4 | dst + t) ∧ ∀ x, m1 !! x = filled m dst (u8 c) t x)
    as (t & m1 & Hr1 & Ht & Hal & Hm1).
  { destruct (Z.eqb_spec t0 0) as [E|E]; cbn [negb].
    - exists 0, m. split_and!; try done; try lia. rewrite Z.add_0_r. apply Z.mod_divide; [lia|done].
    - destruct (fill_run m dst (u8 c) 1 (Z.to_nat (4 - t0)) m 0) as (m1 & Hr & Hm1); try done; try lia;
        [intros _; apply Z.divide_1_l|intros x Hx; apply Hd; lia|]. rewrite Z.add_0_r in Hr.
      exists (4 - t0), m1. change [u8 c] with (replicate 1 (u8 c)). rewrite (bind_Ret _ _ _ _ _ Hr). split_and!; try done; try lia.
      + apply Z.mod_divide; [lia|]. unfold t0. Z.div_mod_to_equations. lia.
      + intros x. rewrite Hm1. f_equal. lia. }
  rewrite (bind_Ret _ _ _ _ _ Hr1). cbn beta iota. rewrite Z.land_ones by lia. change (2 ^ 2) with 4. set (q := (n - t) `div` 4). set (r := (n - t) `mod` 4).
  assert (0 < q ∧ 0 ≤ r ∧ t + 4 * q + r = n) as (Hq & Hrr & Hsum) by (unfold q, r; Z.div_mod_to_equations; lia).
  destruct (fill_run m dst (u8 c) 4 (Z.to_nat q) m1 t) as (m2 & Hr2 & Hm2); try done; try lia; [intros x Hx; apply Hd; lia|].
  unfold TLOOP1 at 1. rewrite (proj2 (Z.eqb_neq q 0)) by lia. rewrite (bind_Ret _ _ _ _ _ Hr2). cbn beta iota.
  destruct (fill_run m dst (u8 c) 1 (Z.to_nat r) m2 (t + 4 * q)) as (m3 & Hr3 & Hm3); try done; try lia;
    [intros _; apply Z.divide_1_l|intros x; rewrite Hm2; f_equal; lia|intros x Hx; apply Hd; lia|].
  rewrite Z.add_assoc in Hr3. assert (TLOOP r (λ t1, fill [u8 c] t1 (dst + t + 4 * q)) m2 = Ret (tt, m3)) as Hr4.
  { rewrite tloop_run by done. destruct (Z.eqb_spec r 0) as [E|E]; [by rewrite E in Hr3|exact Hr3]. }
  rewrite (bind_Ret _ _ _ _ _ Hr4). exists m3. split; [done|]. intros x. rewrite Hm3. unfold filled. by replace (t + 4 * q + 1%nat * Z.to_nat r) with n by lia.
Qed.

(** * Comparing and searching *)

(** The ranges agree on the bytes before [i]. *)
Definition agree m (s1 s2 i : Z) : Prop := ∀ j, 0 ≤ j < i → m !! (s1 + j) = m !! (s2 + j).

Lemma cmp_bytes_run m s1 s2 (n : nat) : ∀ i, 0 ≤ i → agree m s1 s2 i → mapped m s1 (i + n) → mapped m s2 (i + n) →
  ∃ r, cmp_bytes n (s1 + i) (s2 + i) m = Ret (r, m) ∧
    ((r = 0 ∧ agree m s1 s2 (i + n)) ∨ ∃ j v1 v2, 0 ≤ j < i + n ∧ agree m s1 s2 j ∧ m !! (s1 + j) = Some v1 ∧ m !! (s2 + j) = Some v2 ∧ v1 ≠ v2 ∧ r = v1 - v2).
Proof.
  induction n as [|n IH]; intros i Hi Ha H1 H2; cbn [cmp_bytes]; [exists 0; split; [done|]; left; split; [done|]; by rewrite Z.add_0_r|].
  destruct (H1 i ltac:(lia)) as [v1 Hv1], (H2 i ltac:(lia)) as [v2 Hv2].
  rewrite (bind_Ret _ _ _ _ _ (ldb_run _ _ _ Hv1)), (bind_Ret _ _ _ _ _ (ldb_run _ _ _ Hv2)).
  destruct (Z.eqb_spec v1 v2) as [->|Hne]; cbn [negb]; [|exists (v1 - v2); split; [done|]; right; exists i, v1, v2; split_and!; try done; lia].
  destruct (IH (i + 1)) as (r & Hr & Hc); [lia| |replace (i + 1 + n) with (i + S n) by lia; done..|].
  - intros j Hj. destruct (decide (j = i)) as [->|]; [by rewrite Hv1, Hv2|]. apply Ha. lia.
  - exists r. rewrite !Z.add_assoc in Hr. split; [done|]. replace (i + S n) with (i + 1 + n) by lia. done.
Qed.

Lemma cmp_words_run m s1 s2 n (fuel : nat) : ∀ i, 0 ≤ i ≤ n → agree m s1 s2 i → mapped m s1 n → mapped m s2 n → (8 | s1 + i) → (8 | s2 + i) → n - i ≤ fuel →
  ∃ j, cmp_words fuel (s1 + i) (s2 + i) (n - i) m = Ret ((s1 + j, s2 + j, n - j), m) ∧ 0 ≤ j ≤ n ∧ agree m s1 s2 j.
Proof.
  induction fuel as [|fuel IH]; intros i Hi Ha H1 H2 A1 A2 Hf; cbn [cmp_words].
  - rewrite (proj2 (Z.ltb_lt _ _)) by lia. exists i. split_and!; try done; lia.
  - destruct (Z.ltb_spec (n - i) 8); [exists i; split_and!; try done; lia|]. rewrite !ldw_aligned by done.
    destruct (ldbs_run 8 m (s1 + i)) as (w1 & Hr1 & L1 & W1); [intros j Hj; rewrite <- Z.add_assoc; apply H1; lia|].
    destruct (ldbs_run 8 m (s2 + i)) as (w2 & Hr2 & L2 & W2); [intros j Hj; rewrite <- Z.add_assoc; apply H2; lia|].
    rewrite (bind_Ret _ _ _ _ _ Hr1), (bind_Ret _ _ _ _ _ Hr2). destruct (bool_decide_reflect (w1 ≠ w2)) as [Hne|He]; [exists i; split_and!; try done; lia|].
    apply dec_stable in He. subst w2. destruct (IH (i + 8)) as (j & Hr & Hj & Haj); try done; try lia.
    + intros j Hj. destruct (decide (j < i)); [apply Ha; lia|]. pose proof (W1 (Z.to_nat (j - i)) ltac:(lia)) as E1.
      pose proof (W2 (Z.to_nat (j - i)) ltac:(lia)) as E2.
      rewrite Z2Nat.id, <- Z.add_assoc in E1, E2 by lia. replace (i + (j - i)) with j in * by lia. congruence.
    + rewrite Z.add_assoc. by apply Z.divide_add_r.
    + rewrite Z.add_assoc. by apply Z.divide_add_r.
    + exists j. split; [|done]. rewrite !Z.add_assoc, Z.sub_add_distr in Hr. exact Hr.
Qed.

(** [memcmp] of mapped ranges returns 0 exactly when they hold the same bytes, and
    otherwise the difference of the first bytes that differ; nothing changes. *)
Lemma memcmp_run m s1 s2 n (Hn : 0 ≤ n) (H1 : mapped m s1 n) (H2 : mapped m s2 n) :
  ∃ r, memcmp s1 s2 n m = Ret (r, m) ∧
    ((r = 0 ∧ agree m s1 s2 n) ∨ ∃ j v1 v2, 0 ≤ j < n ∧ agree m s1 s2 j ∧ m !! (s1 + j) = Some v1 ∧ m !! (s2 + j) = Some v2 ∧ v1 ≠ v2 ∧ r = v1 - v2).
Proof.
  assert (∃ j, (if Z.land (Z.lor s1 s2) 7 =? 0 then cmp_words (Z.to_nat n) s1 s2 n else mret (s1, s2, n)) m = Ret
    ((s1 + j, s2 + j, n - j), m) ∧ 0 ≤ j ≤ n ∧ agree m s1 s2 j) as (j & Hr & Hj & Ha).
  { destruct (Z.eqb_spec (Z.land (Z.lor s1 s2) 7) 0) as [He|He].
    - apply (low_bits s1 s2) in He as [A1 A2].
      destruct (cmp_words_run m s1 s2 n (Z.to_nat n) 0) as (j & Hr & ?); rewrite ?Z.add_0_r, ?Z.sub_0_r in *;
        try done; try lia; [intros i Hi; lia|]. eauto.
    - exists 0. rewrite !Z.add_0_r, Z.sub_0_r. split_and!; try done; try lia. intros i Hi. lia. }
  unfold memcmp. rewrite (bind_Ret _ _ _ _ _ Hr). cbn beta iota.
  destruct (cmp_bytes_run m s1 s2 (Z.to_nat (n - j)) j) as (r & Hr2 & Hc);
    [lia|done|replace (j + Z.to_nat (n - j)) with n by lia; done..|].
  replace (j + Z.to_nat (n - j)) with n in Hc by lia. eauto.
Qed.

Lemma memchr_run m s c n : 0 ≤ n → mapped m s n → 0 < s →
  ∃ p, memchr s c n m = Ret (p, m) ∧
    ((p = 0 ∧ ∀ i, 0 ≤ i < n → m !! (s + i) ≠ Some (u8 c)) ∨ s ≤ p < s + n ∧ m !! p = Some (u8 c) ∧ ∀ i, s ≤ i < p → m !! i ≠ Some (u8 c)).
Proof.
  intros Hn Hm Hs. unfold memchr. remember (Z.to_nat n) as k eqn:Hk. revert n s Hn Hk Hm Hs. induction k as [|k IH]; intros n s Hn Hk Hm Hs; cbn [memchr_loop].
  { exists 0. split; [done|]. left. split; [done|]. intros i Hi. lia. }
  destruct (Hm 0 ltac:(lia)) as [v Hv]. rewrite Z.add_0_r in Hv. rewrite (bind_Ret _ _ _ _ _ (ldb_run _ _ _ Hv)). destruct (Z.eqb_spec v (u8 c)) as [->|Hne].
  { exists s. split; [done|]. right. split_and!; try done; lia. }
  destruct (IH (n - 1) (s + 1)) as (p & Hr & Hc); [lia|lia|intros i Hi; rewrite <- Z.add_assoc; apply Hm; lia|lia|]. exists p. split; [done|].
  destruct Hc as [[-> Hno]|(Hp & Hpv & Hno)]; [left; split; [done|]|right; split_and!; try done; try lia].
  - intros i Hi. destruct (decide (i = 0)) as [->|]; [rewrite Z.add_0_r; congruence|]. replace (s + i) with (s + 1 + (i - 1)) by lia. apply Hno. lia.
  - intros i Hi. destruct (decide (i = s)) as [->|]; [congruence|]. apply Hno. lia.
Qed.

(** * An example *)

Module MemExample.

Lemma mapped_forall m a n : Forall (λ i, is_Some (m !! (a + i))) (seqZ 0 n) → mapped m a n.
Proof. intros Hf i Hi. rewrite Forall_forall in Hf. apply Hf, elem_of_seqZ. lia. Qed.

(** 64 bytes at 4093, each its own distance from there. *)
Definition mem : bytes := list_to_map (zip (seqZ 4093 64) (seqZ 0 64)).

(** 41 bytes down by 8, over themselves, between addresses that are not aligned. *)
Lemma memmove_correct_witness :
  mapped mem 4094 41 ∧ mapped mem 4102 41 ∧ ∃ m', memmove 4094 4102 41 mem = Ret (4094, m') ∧
    ∀ x, m' !! x = if decide (4094 ≤ x < 4094 + 41) then mem !! (4102 + (x - 4094)) else mem !! x.
Proof.
  assert (mapped mem 4094 41) as Hd by (apply mapped_forall, (bool_decide_unpack _); vm_compute; exact I).
  assert (mapped mem 4102 41) as Hs by (apply mapped_forall, (bool_decide_unpack _); vm_compute; exact I).
  split; [exact Hd|]. split; [exact Hs|]. apply (memmove_correct mem 4094 4102 41); [lia|exact Hd|exact Hs].
Defined.

End MemExample.
