(* ===== verification/Str.v ===== *)
(** The string routines of the C library (libec/strlen.c, strnlen.c, strchr.c,
    strrchr.c, strncmp.c, strncpy.c, strlcpy.c, strcspn.c), on the byte memory of Mem.
    A loop that only the terminator ends has the number of mapped bytes as its bound:
    a longer run leaves the memory. *)

From S2P Require Import Prelude Words Mem.

(** * Lengths *)

(** [for (s = str; *s; ++s)]: where it stops. *)
Fixpoint scan_nul (fuel : nat) (s : Z) : M bytes Z :=
  match fuel with
  | O => stop Hang
  | S fuel' => v ← ldb s; if v =? 0 then mret s else scan_nul fuel' (s + 1)
  end.

Definition until_fault {A} (loop : nat → M bytes A) : M bytes A := n ← gets size; loop (S n).

Definition strlen (str : Z) : M bytes Z := s ← until_fault (λ fuel, scan_nul fuel str); mret (s - str).

Fixpoint strnlen_loop (left : nat) (s len : Z) : M bytes Z :=
  match left with
  | O => mret len
  | S left' => v ← ldb s; if v =? 0 then mret len else strnlen_loop left' (s + 1) (len + 1)
  end.

Definition strnlen (s maxlen : Z) : M bytes Z := strnlen_loop (Z.to_nat maxlen) s 0.

(** * Searching *)

Fixpoint strchr_loop (fuel : nat) (p cmp : Z) : M bytes Z :=
  match fuel with
  | O => stop Hang
  | S fuel' =>
      v ← ldb p;
      if v =? cmp then mret p
      else if v =? 0 then mret 0
      else strchr_loop fuel' (p + 1) cmp
  end.

Definition strchr (p ch : Z) : M bytes Z := until_fault (λ fuel, strchr_loop fuel p (u8 ch)).

Fixpoint strrchr_loop (fuel : nat) (p c save : Z) : M bytes Z :=
  match fuel with
  | O => stop Hang
  | S fuel' =>
      v ← ldb p;
      let save := if v =? c then p else save in
      if v =? 0 then mret save else strrchr_loop fuel' (p + 1) c save
  end.

Definition strrchr (p ch : Z) : M bytes Z := until_fault (λ fuel, strrchr_loop fuel p (u8 ch) 0).

(** * Comparing *)

Fixpoint strncmp (s1 s2 : Z) (n : nat) : M bytes Z :=
  match n with
  | O => mret 0
  | S n' =>
      v1 ← ldb s1; v2 ← ldb s2;
      if negb (v1 =? v2) then mret (v1 - v2)
      else if v1 =? 0 then mret 0
      else strncmp (s1 + 1) (s2 + 1) n'
  end.

(** * Copying *)

(** [while (--n != 0) *d++ = 0]. *)
Fixpoint nul_pad (n : nat) (d : Z) : M bytes unit :=
  match n with
  | O => mret tt
  | S n' => stb d 0;; nul_pad n' (d + 1)
  end.

Fixpoint strncpy_loop (n : nat) (d s : Z) : M bytes unit :=
  match n with
  | O => mret tt
  | S n' => v ← ldb s; stb d v;; if v =? 0 then nul_pad n' (d + 1) else strncpy_loop n' (d + 1) (s + 1)
  end.

Definition strncpy (dst src n : Z) : M bytes Z := strncpy_loop (Z.to_nat n) dst src;; mret dst.

(** The loop of [strlcpy]: [d], [s] and [n] where it ends, [n] not 0 when the
    terminator has been copied. *)
Fixpoint strlcpy_loop (n : nat) (d s : Z) : M bytes (Z * Z * nat) :=
  match n with
  | O => mret (d, s, O)
  | S n' => v ← ldb s; stb d v;; if v =? 0 then mret (d + 1, s + 1, n) else strlcpy_loop n' (d + 1) (s + 1)
  end.

Definition strlcpy (dst src siz : Z) : M bytes Z :=
  r ← (if negb (siz =? 0) && negb (siz - 1 =? 0) then strlcpy_loop (Z.to_nat (siz - 1)) dst src else mret (dst, src, O));
  let '(d, s, n) := r : Z * Z * nat in
  s ← (if bool_decide (n = O) then
         when (negb (siz =? 0)) (stb d 0);;
         e ← until_fault (λ fuel, scan_nul fuel s);
         mret (e + 1)
       else mret s);
  mret (s - src - 1).

(** * strcspn *)

(** [idx], and the set of 32 bytes it indexes into. *)
Definition idx (i : Z) : Z := Z.shiftl 1 i.
Definition set_has (set : list Z) (c : Z) : bool := negb (Z.land (set !!! Z.to_nat (Z.shiftr c 3)) (idx (Z.land c 7)) =? 0).
Definition set_add (set : list Z) (c : Z) : list Z :=
  <[Z.to_nat (Z.shiftr c 3) := Z.lor (set !!! Z.to_nat (Z.shiftr c 3)) (idx (Z.land c 7))]> set.

Fixpoint fill_set (fuel : nat) (charset : Z) (set : list Z) : M bytes (list Z) :=
  match fuel with
  | O => stop Hang
  | S fuel' => v ← ldb charset; if v =? 0 then mret set else fill_set fuel' (charset + 1) (set_add set v)
  end.

(** [for (t = s; *t != '\0'; ++t) if (hit) break]. *)
Fixpoint scan_hit (hit : Z → bool) (fuel : nat) (t : Z) : M bytes Z :=
  match fuel with
  | O => stop Hang
  | S fuel' => v ← ldb t; if (v =? 0) || hit v then mret t else scan_hit hit fuel' (t + 1)
  end.

Definition strcspn (s charset : Z) : M bytes Z :=
  c0 ← ldb charset;
  if c0 =? 0 then strlen s
  else
    c1 ← ldb (charset + 1);
    if c1 =? 0 then t ← until_fault (λ fuel, scan_hit (λ v, v =? c0) fuel s); mret (t - s)
    else
      set ← until_fault (λ fuel, fill_set fuel charset (replicate 32 0));
      t ← until_fault (λ fuel, scan_hit (set_has set) fuel s);
      mret (t - s).
