(* ===== verification/StrTheorems.v ===== *)
(** What the string routines do, in terms of the list of bytes before the terminator. *)

From S2P Require Import Prelude Words Mem MemTheorems Str.

Implicit Types m : bytes.

(** The bytes [l] at [a], and the string of the bytes [l] at [p]. *)
Definition bytes_at m (a : Z) (l : list Z) : Prop := ∀ i : nat, (i < length l)%nat → m !! (a + i) = l !! i.
Definition str_at m (p : Z) (l : list Z) : Prop := bytes_at m p (l ++ [0]) ∧ 0 ∉ l.

Lemma bytes_at_cons m a v l : bytes_at m a (v :: l) ↔ m !! a = Some v ∧ bytes_at m (a + 1) l.
Proof.
  split.
  - intros Hb. split; [pose proof (Hb 0%nat ltac:(cbn; lia)) as E; by rewrite Z.add_0_r in E|]. intros i Hi.
    pose proof (Hb (S i) ltac:(cbn; lia)) as E. change (l !! i) with ((v :: l) !! S i). rewrite <- E. f_equal. lia.
  - intros [Hv Hb] [|i] Hi; cbn; [by rewrite Z.add_0_r|]. cbn in Hi. rewrite <- Hb by lia. f_equal. lia.
Qed.

Lemma bytes_at_app m a l k : bytes_at m a (l ++ k) ↔ bytes_at m a l ∧ bytes_at m (a + length l) k.
Proof.
  revert a. induction l as [|v l IH]; intros a; cbn [app length]; [rewrite Z.add_0_r; split; [split; [intros i; cbn; lia|done]|tauto]|].
  rewrite !bytes_at_cons, IH. replace (a + S (length l)) with (a + 1 + length l) by lia. tauto.
Qed.

Lemma str_at_nil m p : str_at m p [] ↔ m !! p = Some 0.
Proof. unfold str_at. cbn [app]. rewrite bytes_at_cons. split; [tauto|]. intros Hp. split; [split; [done|intros i; cbn; lia]|set_solver]. Qed.

Lemma str_at_cons m p v l : str_at m p (v :: l) ↔ m !! p = Some v ∧ v ≠ 0 ∧ str_at m (p + 1) l.
Proof. unfold str_at. cbn [app]. rewrite bytes_at_cons, not_elem_of_cons. naive_solver. Qed.

(** A run of mapped bytes is no longer than the memory. *)
Lemma bytes_at_size m a l : bytes_at m a l → (length l ≤ size m)%nat.
Proof.
  intros Hb.
  assert (list_to_set (seqZ a (length l)) ⊆@{gset Z} dom m) as Hs.
  { intros x. rewrite elem_of_list_to_set, elem_of_seqZ, elem_of_dom. intros Hx.
    replace x with (a + Z.to_nat (x - a)) by lia. rewrite Hb by lia. apply lookup_lt_is_Some. lia. }
  apply subseteq_size in Hs. rewrite size_list_to_set, size_dom in Hs by apply NoDup_seqZ. rewrite length_seqZ in *. lia.
Qed.

Lemma str_at_size m p l : str_at m p l → (length l < size m)%nat.
Proof. intros [Hb _]. apply bytes_at_size in Hb. rewrite length_app in Hb. cbn in Hb. lia. Qed.

Lemma until_fault_run {A} (loop : nat → M bytes A) m : until_fault loop m = loop (S (size m)) m.
Proof. done. Qed.

(** * Lengths *)

Lemma scan_nul_run l : ∀ fuel m p, (length l < fuel)%nat → str_at m p l → scan_nul fuel p m = Ret (p + length l, m).
Proof.
  induction l as [|v l IH]; intros [|fuel] m p Hf Hs; cbn in Hf; try lia; cbn [scan_nul].
  - apply str_at_nil in Hs. rewrite (bind_Ret _ _ _ _ _ (ldb_run _ _ _ Hs)). cbn. by rewrite Z.add_0_r.
  - apply str_at_cons in Hs as (Hv & Hv0 & Hs).
    rewrite (bind_Ret _ _ _ _ _ (ldb_run _ _ _ Hv)), (proj2 (Z.eqb_neq v 0)) by done.
    rewrite (IH fuel) by (done || lia). do 2 f_equal. cbn. lia.
Qed.

Lemma strlen_run m p l : str_at m p l → strlen p m = Ret (length l : Z, m).
Proof.
  intros Hs. unfold strlen. pose proof (str_at_size _ _ _ Hs).
  assert (until_fault (λ fuel, scan_nul fuel p) m = Ret (p + length l, m)) as Hr by (rewrite until_fault_run;
    apply scan_nul_run; [lia|done]).
  rewrite (bind_Ret _ _ _ _ _ Hr). unfold mret, M_ret. do 2 f_equal. lia.
Qed.

Lemma strnlen_loop_run (n : nat) : ∀ m s l len, (0 ∉ take n l) → bytes_at m s (take n (l ++ [0])) → strnlen_loop n s len m = Ret (len + Z.min (length l) n, m).
Proof.
  induction n as [|n IH]; intros m s l len H0 Hb; cbn [strnlen_loop]; [unfold mret, M_ret; do 2 f_equal; lia|].
  destruct l as [|v l]; cbn [take app] in *; apply bytes_at_cons in Hb as [Hv Hb]; rewrite (bind_Ret _ _ _ _ _ (ldb_run _ _ _ Hv)).
  - cbn. unfold mret, M_ret. do 2 f_equal. lia.
  - rewrite (proj2 (Z.eqb_neq v 0)) by set_solver. rewrite (IH m (s + 1) l) by set_solver. do 2 f_equal. cbn [length]. lia.
Qed.

(** * Searching *)

Lemma strchr_run m p ch l : str_at m p l → 0 < p → ∃ r, strchr p ch m = Ret (r, m) ∧
  ((r = 0 ∧ u8 ch ∉ l ++ [0]) ∨ ∃ i : nat, r = p + i ∧ (l ++ [0]) !! i = Some (u8 ch) ∧ u8 ch ∉ take i l).
Proof.
  intros Hs Hp. pose proof (str_at_size _ _ _ Hs) as Hz. unfold strchr. rewrite until_fault_run.
  assert (length l < S (size m))%nat as Hf by lia. clear Hz. revert Hf. generalize (S (size m)) as fuel.
  revert p Hs Hp. induction l as [|v l IH]; intros p Hs Hp [|fuel] Hf; cbn in Hf; try lia; cbn [strchr_loop].
  - apply str_at_nil in Hs. rewrite (bind_Ret _ _ _ _ _ (ldb_run _ _ _ Hs)). destruct (Z.eqb_spec 0 (u8 ch)) as [E|E].
    + exists p. split; [done|]. right. exists 0%nat. cbn. rewrite <- E. split_and!; [lia|done|set_solver].
    + exists 0. split; [done|]. left. split; [done|]. set_solver.
  - apply str_at_cons in Hs as (Hv & Hv0 & Hs). rewrite (bind_Ret _ _ _ _ _ (ldb_run _ _ _ Hv)). destruct (Z.eqb_spec v (u8 ch)) as [E|E].
    + exists p. split; [done|]. right. exists 0%nat. cbn. rewrite E. split_and!; [lia|done|set_solver].
    + rewrite (proj2 (Z.eqb_neq v 0)) by done. destruct (IH (p + 1) Hs ltac:(lia) fuel ltac:(lia)) as (r & Hr & Hc). exists r. split; [done|].
      destruct Hc as [[-> Hno]|(i & -> & Hi & Hno)]; [left; set_solver|]. right. exists (S i). split_and!; [lia|done|]. cbn. set_solver.
Qed.

Lemma strrchr_loop_run m c l : ∀ fuel p save, (length l < fuel)%nat → str_at m p l → ∃ r, strrchr_loop fuel p c save m = Ret (r, m) ∧
  ((r = save ∧ c ∉ l ++ [0]) ∨ ∃ i : nat, r = p + i ∧ (l ++ [0]) !! i = Some c ∧ c ∉ drop (S i) (l ++ [0])).
Proof.
  induction l as [|v l IH]; intros [|fuel] p save Hf Hs; cbn in Hf; try lia; cbn [strrchr_loop].
  - apply str_at_nil in Hs. rewrite (bind_Ret _ _ _ _ _ (ldb_run _ _ _ Hs)). destruct (Z.eqb_spec 0 c) as [E|E].
    + exists p. split; [done|]. right. exists 0%nat. cbn. rewrite <- E. split_and!; [lia|done|set_solver].
    + exists save. split; [done|]. left. split; [done|]. set_solver.
  - apply str_at_cons in Hs as (Hv & Hv0 & Hs). rewrite (bind_Ret _ _ _ _ _ (ldb_run _ _ _ Hv)), (proj2 (Z.eqb_neq v 0)) by done.
    destruct (IH fuel (p + 1) (if v =? c then p else save) ltac:(lia) Hs) as (r & Hr & Hc). exists r. split; [done|].
    destruct Hc as [[-> Hno]|(i & -> & Hi & Hno)].
    + destruct (Z.eqb_spec v c) as [->|E]; [right; exists 0%nat; cbn; rewrite drop_0; split_and!; [lia|done..]|left; set_solver].
    + right. exists (S i). split_and!; [lia|done..].
Qed.

Lemma strrchr_run m p ch l : str_at m p l → ∃ r, strrchr p ch m = Ret (r, m) ∧
  ((r = 0 ∧ u8 ch ∉ l ++ [0]) ∨ ∃ i : nat, r = p + i ∧ (l ++ [0]) !! i = Some (u8 ch) ∧ u8 ch ∉ drop (S i) (l ++ [0])).
Proof. intros Hs. unfold strrchr. rewrite until_fault_run. apply strrchr_loop_run; [|done]. apply str_at_size in Hs. lia. Qed.

(** * Comparing *)

(** The order of two strings on at most [n] bytes. *)
Fixpoint str_order (l1 l2 : list Z) (n : nat) {struct n} : Z :=
  match n with
  | O => 0
  | S n' =>
      match l1, l2 with
      | [], [] => 0
      | [], v :: _ => - v
      | v :: _, [] => v
      | v1 :: l1', v2 :: l2' => if v1 =? v2 then str_order l1' l2' n' else v1 - v2
      end
  end.

Lemma strncmp_run (n : nat) : ∀ m s1 s2 l1 l2, str_at m s1 l1 → str_at m s2 l2 → strncmp s1 s2 n m = Ret (str_order l1 l2 n, m).
Proof.
  induction n as [|n IH]; intros m s1 s2 l1 l2 H1 H2; cbn [strncmp str_order]; [done|].
  destruct l1 as [|v1 l1], l2 as [|v2 l2]; rewrite ?str_at_nil, ?str_at_cons in H1; rewrite ?str_at_nil, ?str_at_cons in H2.
  - rewrite (bind_Ret _ _ _ _ _ (ldb_run _ _ _ H1)), (bind_Ret _ _ _ _ _ (ldb_run _ _ _ H2)). done.
  - destruct H2 as (H2 & H20 & _).
    rewrite (bind_Ret _ _ _ _ _ (ldb_run _ _ _ H1)), (bind_Ret _ _ _ _ _ (ldb_run _ _ _ H2)),
      (proj2 (Z.eqb_neq 0 v2)) by done. done.
  - destruct H1 as (H1 & H10 & _).
    rewrite (bind_Ret _ _ _ _ _ (ldb_run _ _ _ H1)), (bind_Ret _ _ _ _ _ (ldb_run _ _ _ H2)),
      (proj2 (Z.eqb_neq v1 0)) by done. cbn. by rewrite Z.sub_0_r.
  - destruct H1 as (H1 & H10 & T1), H2 as (H2 & H20 & T2). rewrite (bind_Ret _ _ _ _ _ (ldb_run _ _ _ H1)), (bind_Ret _ _ _ _ _ (ldb_run _ _ _ H2)).
    destruct (Z.eqb_spec v1 v2) as [->|]; [|done]. cbn [negb]. rewrite (proj2 (Z.eqb_neq v2 0)) by done. by apply IH.
Qed.

(** Strings compare equal on all their bytes exactly when they are the same. *)
Lemma str_order_eq l1 : ∀ l2 (n : nat), 0 ∉ l1 → 0 ∉ l2 → (length l1 < n)%nat → str_order l1 l2 n = 0 ↔ l1 = l2.
Proof.
  induction l1 as [|v1 l1 IH]; intros [|v2 l2] [|n] H1 H2 Hn; cbn in *; try lia.
  - done.
  - assert (v2 ≠ 0) by set_solver. split; [lia|done].
  - assert (v1 ≠ 0) by set_solver. split; [lia|done].
  - destruct (Z.eqb_spec v1 v2) as [->|Hne]; [rewrite IH by (set_solver || lia); naive_solver|]. split; [lia|naive_solver].
Qed.

(** * Copying *)

(** The memory [m'] is [m] with the bytes [l] written at [a]. *)
Definition wrote m (a : Z) (l : list Z) m' : Prop := ∀ x, m' !! x = if decide (a ≤ x < a + length l) then l !! Z.to_nat (x - a) else m !! x.
Definition apart (a n b k : Z) : Prop := a + n ≤ b ∨ b + k ≤ a.

Lemma wrote_none m a : wrote m a [] m.
Proof. intros x. cbn. by rewrite decide_False by lia. Qed.

Lemma wrote_cons m a v l m' : wrote (<[a := v]> m) (a + 1) l m' → wrote m a (v :: l) m'.
Proof.
  intros Hw x. rewrite Hw. cbn [length]. destruct (decide (x = a)) as [->|Hne].
  - rewrite decide_False, decide_True by lia. by rewrite lookup_insert_eq, Z.sub_diag.
  - rewrite lookup_insert_ne by done. destruct (decide (a + 1 ≤ x < a + 1 + length l)).
    + rewrite decide_True by lia. by replace (Z.to_nat (x - a)) with (S (Z.to_nat (x - (a + 1)))) by lia.
    + by rewrite decide_False by lia.
Qed.

Lemma wrote_app m a l k m1 m2 : wrote m a l m1 → wrote m1 (a + length l) k m2 → wrote m a (l ++ k) m2.
Proof.
  intros H1 H2 x. rewrite H2, H1, length_app. destruct (decide (a + length l ≤ x < a + length l + length k)).
  - rewrite decide_True by lia. rewrite lookup_app_r by lia. f_equal. lia.
  - destruct (decide (a ≤ x < a + length l)); [rewrite decide_True by lia; by rewrite lookup_app_l by lia|by rewrite decide_False by lia].
Qed.

Lemma wrote_other m a l m' x : wrote m a l m' → ¬ a ≤ x < a + length l → m' !! x = m !! x.
Proof. intros Hw Hx. by rewrite Hw, decide_False. Qed.

Lemma wrote_bytes m a l m' : wrote m a l m' → bytes_at m' a l.
Proof. intros Hw i Hi. rewrite Hw, decide_True by lia. f_equal. lia. Qed.

Lemma bytes_at_other m m' b k : (∀ x, b ≤ x < b + length k → m' !! x = m !! x) → bytes_at m b k → bytes_at m' b k.
Proof. intros He Hb i Hi. rewrite He by lia. by apply Hb. Qed.

Lemma str_at_other m m' p l : (∀ x, p ≤ x ≤ p + length l → m' !! x = m !! x) → str_at m p l → str_at m' p l.
Proof. intros He [Hb H0]. split; [|done]. apply (bytes_at_other m); [|done]. intros x Hx. apply He. rewrite length_app in Hx. cbn in Hx. lia. Qed.

Lemma mapped_insert m a n x v : mapped m a n → mapped (<[x := v]> m) a n.
Proof. intros Hm i Hi. apply lookup_insert_is_Some'. right. by apply Hm. Qed.

Lemma mapped_tail m a n k : 0 ≤ k → mapped m a (k + n) → mapped m (a + k) n.
Proof. intros Hk Hm i Hi. rewrite <- Z.add_assoc. apply Hm. lia. Qed.

Lemma nul_pad_run (n : nat) : ∀ m d, mapped m d n → ∃ m', nul_pad n d m = Ret (tt, m') ∧ wrote m d (replicate n 0) m'.
Proof.
  induction n as [|n IH]; intros m d Hm; [exists m; split; [done|apply wrote_none]|]. pose proof (Hm 0 ltac:(lia)) as H0. rewrite Z.add_0_r in H0.
  destruct (IH (<[d := 0]> m) (d + 1)) as (m' & Hr & Hw); [apply mapped_insert, mapped_tail; [lia|by replace (1 + Z.of_nat n) with (Z.of_nat (S n)) by lia]|].
  exists m'. cbn [nul_pad]. rewrite (bind_Ret _ _ _ _ _ (stb_run _ _ _ H0)). split; [done|]. by apply wrote_cons.
Qed.

Lemma strncpy_loop_run (n : nat) : ∀ m d s l, mapped m d n → str_at m s l → apart d n s (length l + 1) →
  ∃ m', strncpy_loop n d s m = Ret (tt, m') ∧ wrote m d (resize n 0 l) m'.
Proof.
  induction n as [|n IH]; intros m d s l Hm Hs Ha; [exists m; split; [done|rewrite resize_0; apply wrote_none]|].
  pose proof (Hm 0 ltac:(lia)) as H0. rewrite Z.add_0_r in H0.
  assert (∀ v, mapped (<[d := v]> m) (d + 1) n) as Hm' by (intros v; apply mapped_insert, mapped_tail;
    [lia|by replace (1 + Z.of_nat n) with (Z.of_nat (S n)) by lia]).
  cbn [strncpy_loop]. destruct l as [|v l].
  - apply str_at_nil in Hs. rewrite (bind_Ret _ _ _ _ _ (ldb_run _ _ _ Hs)), (bind_Ret _ _ _ _ _ (stb_run _ _ _ H0)).
    cbn [Z.eqb]. destruct (nul_pad_run n (<[d := 0]> m) (d + 1)) as (m' & Hr & Hw); [done|].
    exists m'. split; [done|]. rewrite resize_nil. by apply wrote_cons.
  - apply str_at_cons in Hs as (Hv & Hv0 & Hs).
    rewrite (bind_Ret _ _ _ _ _ (ldb_run _ _ _ Hv)), (bind_Ret _ _ _ _ _ (stb_run _ _ _ H0)), (proj2 (Z.eqb_neq v 0))
      by done. unfold apart in *. cbn [length] in Ha.
    destruct (IH (<[d := v]> m) (d + 1) (s + 1) l) as (m' & Hr & Hw); [done| |unfold apart; lia|].
    + apply (str_at_other m); [|done]. intros x Hx. apply lookup_insert_ne. lia.
    + exists m'. split; [done|]. cbn [resize]. by apply wrote_cons.
Qed.

Lemma strncpy_run m dst src n l : 0 ≤ n → mapped m dst n → str_at m src l → apart dst n src (length l + 1) →
  ∃ m', strncpy dst src n m = Ret (dst, m') ∧ wrote m dst (resize (Z.to_nat n) 0 l) m'.
Proof.
  intros Hn Hm Hs Ha. unfold strncpy.
  destruct (strncpy_loop_run (Z.to_nat n) m dst src l) as (m' & Hr & Hw); rewrite ?Z2Nat.id by done; try done.
  rewrite (bind_Ret _ _ _ _ _ Hr). eauto.
Qed.

(** The loop copies the string with its terminator when both fit, and otherwise what fits. *)
Lemma strlcpy_loop_run (n : nat) : ∀ m d s l, mapped m d n → str_at m s l → apart d n s (length l + 1) →
  ∃ m', strlcpy_loop n d s m = Ret (if decide (length l < n)%nat then (d + length l + 1, s + length l + 1,
    (n - length l)%nat) else (d + n, s + n, O), m') ∧ wrote m d (take n (l ++ [0])) m'.
Proof.
  induction n as [|n IH]; intros m d s l Hm Hs Ha;
    [exists m; split; [rewrite decide_False by lia; cbn; by rewrite !Z.add_0_r|apply wrote_none]|].
  pose proof (Hm 0 ltac:(lia)) as H0. rewrite Z.add_0_r in H0.
  cbn [strlcpy_loop]. destruct l as [|v l].
  - apply str_at_nil in Hs. rewrite (bind_Ret _ _ _ _ _ (ldb_run _ _ _ Hs)), (bind_Ret _ _ _ _ _ (stb_run _ _ _ H0)).
    cbn [Z.eqb]. eexists. cbn [length app take]. rewrite take_nil, decide_True by lia.
    split; [|by apply wrote_cons, wrote_none].
    cbn. by rewrite !Z.add_0_r.
  - apply str_at_cons in Hs as (Hv & Hv0 & Hs).
    rewrite (bind_Ret _ _ _ _ _ (ldb_run _ _ _ Hv)), (bind_Ret _ _ _ _ _ (stb_run _ _ _ H0)), (proj2 (Z.eqb_neq v 0))
      by done. unfold apart in *. cbn [length] in Ha.
    destruct (IH (<[d := v]> m) (d + 1) (s + 1) l) as (m' & Hr & Hw); [| |unfold apart; lia|].
    + apply mapped_insert, mapped_tail; [lia|by replace (1 + Z.of_nat n) with (Z.of_nat (S n)) by lia].
    + apply (str_at_other m); [|done]. intros x Hx. apply lookup_insert_ne. lia.
    + exists m'. rewrite Hr. split; [|cbn [app take]; by apply wrote_cons]. do 2 f_equal. cbn [length].
      destruct (decide (length l < n)%nat); [rewrite decide_True by lia|rewrite decide_False by lia]; (apply f_equal2; [apply f_equal2; lia|lia]).
Qed.

Lemma str_at_drop m p l (i : nat) : (i ≤ length l)%nat → str_at m p l → str_at m (p + i) (drop i l).
Proof.
  intros Hi [Hb H0]. rewrite <- (take_drop i l) in Hb at 1. rewrite <- (take_drop i l) in H0 at 1.
  rewrite <- app_assoc, bytes_at_app, length_take_le in Hb by done. split; [tauto|set_solver].
Qed.

Lemma scan_rest_run m p l (i : nat) : (i ≤ length l)%nat → str_at m p l → until_fault (λ fuel, scan_nul fuel (p + i)) m = Ret (p + length l, m).
Proof.
  intros Hi Hs. rewrite until_fault_run, (scan_nul_run (drop i l));
    [rewrite length_drop; do 2 f_equal; lia|apply str_at_size in Hs; rewrite length_drop; lia|by apply str_at_drop].
Qed.

(** [strlcpy] copies at most [siz - 1] bytes, terminates what it copied when there is
    room for anything, and always returns the length of the source. *)
Lemma strlcpy_run m dst src siz l : 0 ≤ siz → mapped m dst siz → str_at m src l → apart dst siz src (length l + 1) →
  ∃ m', strlcpy dst src siz m = Ret (length l : Z, m') ∧ wrote m dst (if decide (siz = 0) then [] else take (Z.to_nat (siz - 1)) l ++ [0]) m'.
Proof.
  intros Hn Hm Hs Ha. unfold strlcpy. destruct (decide (siz = 0)) as [->|Hz].
  { exists m. split; [|apply wrote_none]. cbn [Z.eqb negb andb]. rewrite bind_mret. cbn beta iota.
    rewrite bool_decide_true by done. cbn [negb when]. rewrite bind_assoc, bind_mret, bind_assoc.
    pose proof (scan_rest_run m src l 0 ltac:(lia) Hs) as Hr. rewrite Z.add_0_r in Hr.
    rewrite (bind_Ret _ _ _ _ _ Hr). mrun. unfold mret, M_ret. do 2 f_equal. lia. }
  set (n := Z.to_nat (siz - 1)). assert (siz = Z.of_nat n + 1) as Hsz by lia. unfold apart in Ha.
  destruct (strlcpy_loop_run n m dst src l) as (m1 & Hr & Hw); [intros i Hi; apply Hm; lia|done|unfold apart; lia|].
  assert ((if negb (siz =? 0) && negb (siz - 1 =? 0) then strlcpy_loop n dst src else mret (dst, src, O)) m = strlcpy_loop n dst src m) as Hr0.
  { rewrite (proj2 (Z.eqb_neq siz 0)) by lia. destruct (Z.eqb_spec (siz - 1) 0); [|done]. by replace n with 0%nat by lia. }
  rewrite Hr in Hr0. rewrite (bind_Ret _ _ _ _ _ Hr0). clear Hr Hr0. destruct (decide (length l < n)%nat) as [Hl|Hl]; cbn beta iota.
  - exists m1. rewrite bool_decide_false by lia. mrun. split; [unfold mret, M_ret; do 2 f_equal; lia|].
    rewrite (take_ge l) by lia. by rewrite take_ge in Hw by (rewrite length_app; cbn; lia).
  - rewrite bool_decide_true by done. rewrite (proj2 (Z.eqb_neq siz 0)) by done. cbn [negb when].
    rewrite take_app_le in Hw by lia. assert (length (take n l) = n) as Hlen by (rewrite length_take; lia).
    assert (is_Some (m1 !! (dst + n))) as Hd by (rewrite (wrote_other _ _ _ _ _ Hw) by lia; apply Hm; lia).
    rewrite bind_assoc, (bind_Ret _ _ _ _ _ (stb_run _ _ 0 Hd)), bind_assoc. assert (str_at (<[dst + n := 0]> m1) src l) as Hs1.
    { apply (str_at_other m); [|done]. intros x Hx. rewrite lookup_insert_ne by lia. apply (wrote_other _ _ _ _ _ Hw). lia. }
    rewrite (bind_Ret _ _ _ _ _ (scan_rest_run _ src l n ltac:(lia) Hs1)). mrun. eexists. split; [unfold mret, M_ret; do 2 f_equal; lia|].
    apply (wrote_app _ _ _ _ _ _ Hw). rewrite Hlen. apply wrote_cons, wrote_none.
Qed.

(** * strcspn *)

(** How many bytes come before the first that [hit] holds of. *)
Fixpoint span (hit : Z → bool) (l : list Z) : nat :=
  match l with
  | [] => O
  | v :: l' => if hit v then O else S (span hit l')
  end.

Lemma span_ext hit hit' l : (∀ v, v ∈ l → hit v = hit' v) → span hit l = span hit' l.
Proof. induction l as [|v l IH]; intros He; cbn; [done|]. rewrite (He v) by set_solver. rewrite IH; [done|]. intros w Hw. apply He. set_solver. Qed.

Lemma scan_hit_run hit l : ∀ fuel m p, (length l < fuel)%nat → str_at m p l → scan_hit hit fuel p m = Ret (p + span hit l, m).
Proof.
  induction l as [|v l IH]; intros [|fuel] m p Hf Hs; cbn in Hf; try lia; cbn [scan_hit].
  - apply str_at_nil in Hs. rewrite (bind_Ret _ _ _ _ _ (ldb_run _ _ _ Hs)). cbn. by rewrite Z.add_0_r.
  - apply str_at_cons in Hs as (Hv & Hv0 & Hs). rewrite (bind_Ret _ _ _ _ _ (ldb_run _ _ _ Hv)), (proj2 (Z.eqb_neq v 0)) by done. cbn [orb span].
    destruct (hit v); [cbn; by rewrite Z.add_0_r|]. rewrite (IH fuel) by (done || lia). do 2 f_equal. lia.
Qed.

Lemma set_has_bit set c : set_has set c = Z.testbit (set !!! Z.to_nat (c `div` 8)) (c `mod` 8).
Proof.
  unfold set_has, idx. change (Z.land c 7) with (Z.land c (Z.ones 3)).
  rewrite Z.shiftr_div_pow2, (Z.land_ones c 3) by lia. change (2 ^ 3) with 8.
  generalize (set !!! Z.to_nat (c `div` 8)) as w. intros w. pose proof (Z.mod_pos_bound c 8 ltac:(lia)).
  destruct (Z.testbit w (c `mod` 8)) eqn:E;
    [apply negb_true_iff, Z.eqb_neq, (bit_nonzero _ (c `mod` 8))|apply negb_false_iff, Z.eqb_eq, Z.bits_inj';
    intros i Hi; rewrite Z.bits_0];
    rewrite Z.land_spec, testbit_one_shl by lia; [by rewrite E, Z.eqb_refl|]. destruct (Z.eqb_spec i (c `mod` 8)) as [->|]; [by rewrite E|apply andb_false_r].
Qed.

Lemma set_add_has set c d : length set = 32%nat → 0 ≤ c < 256 → 0 ≤ d < 256 → set_has (set_add set c) d = set_has set d || (d =? c).
Proof.
  intros Hl Hc Hd. rewrite !set_has_bit. unfold set_add, idx. change (Z.land c 7) with (Z.land c (Z.ones 3)).
  rewrite Z.shiftr_div_pow2, (Z.land_ones c 3) by lia. change (2 ^ 3) with 8.
  pose proof (Z.mod_pos_bound c 8 ltac:(lia)).
  rewrite list_insert_lookup_total by (rewrite Hl; Z.div_mod_to_equations; lia). destruct (decide (c `div` 8 = d `div` 8)) as [E|E].
  - rewrite E, decide_True by done. rewrite Z.lor_spec, testbit_one_shl by lia. f_equal. apply eq_true_iff_eq. rewrite !Z.eqb_eq. Z.div_mod_to_equations. lia.
  - rewrite decide_False by (Z.div_mod_to_equations; lia). destruct (Z.eqb_spec d c) as [->|]; [done|by rewrite orb_false_r].
Qed.

Lemma fill_set_run l : ∀ fuel m p set, (length l < fuel)%nat → str_at m p l → length set = 32%nat → Forall (λ v, 0 ≤ v < 256) l →
  ∃ set', fill_set fuel p set m = Ret (set', m) ∧ ∀ d, 0 ≤ d < 256 → set_has set' d = set_has set d || bool_decide (d ∈ l).
Proof.
  induction l as [|v l IH]; intros [|fuel] m p set Hf Hs Hl Hb; cbn in Hf; try lia; cbn [fill_set].
  - apply str_at_nil in Hs. rewrite (bind_Ret _ _ _ _ _ (ldb_run _ _ _ Hs)). eexists. split; [done|]. intros d Hd.
    by rewrite bool_decide_false, orb_false_r by set_solver.
  - apply str_at_cons in Hs as (Hv & Hv0 & Hs).
    rewrite (bind_Ret _ _ _ _ _ (ldb_run _ _ _ Hv)), (proj2 (Z.eqb_neq v 0)) by done.
    apply Forall_cons in Hb as [Hvb Hb].
    destruct (IH fuel m (p + 1) (set_add set v)) as (set' & Hr & Hh);
      [lia|done|unfold set_add; by rewrite length_insert|done|]. exists set'. split; [done|]. intros d Hd.
    rewrite Hh, set_add_has by done.
    rewrite <- orb_assoc. f_equal. apply eq_true_iff_eq. rewrite orb_true_iff, Z.eqb_eq, !bool_decide_eq_true. set_solver.
Qed.

(** [strcspn] counts the bytes before the first that is in the set, whichever of its
    three loops runs. *)
Lemma strcspn_run m s charset l k : str_at m s l → str_at m charset k → Forall (λ v, 0 ≤ v < 256) l → Forall (λ v, 0 ≤ v < 256) k →
  strcspn s charset m = Ret (span (λ v, bool_decide (v ∈ k)) l : Z, m).
Proof.
  intros Hs Hk Hl Hkb. pose proof (str_at_size _ _ _ Hs). pose proof (str_at_size _ _ _ Hk). unfold strcspn.
  assert (∀ hit, (t ← until_fault (λ fuel, scan_hit hit fuel s); mret (t - s)) m = Ret (span hit l : Z, m)) as Hscan.
  { intros hit. assert (until_fault (λ fuel, scan_hit hit fuel s) m = Ret (s + span hit l, m)) as Hr
      by (rewrite until_fault_run; apply scan_hit_run; [lia|done]).
    rewrite (bind_Ret _ _ _ _ _ Hr). unfold mret, M_ret. do 2 f_equal. lia. }
  destruct k as [|c0 [|c1 k]].
  - apply str_at_nil in Hk. rewrite (bind_Ret _ _ _ _ _ (ldb_run _ _ _ Hk)). cbn [Z.eqb].
    rewrite (strlen_run _ _ _ Hs). do 3 f_equal. clear. induction l; cbn; [done|by f_equal].
  - apply str_at_cons in Hk as (Hc0 & Hn0 & Hk). apply str_at_nil in Hk.
    rewrite (bind_Ret _ _ _ _ _ (ldb_run _ _ _ Hc0)), (proj2 (Z.eqb_neq c0 0)),
      (bind_Ret _ _ _ _ _ (ldb_run _ _ _ Hk)) by done. cbn [Z.eqb]. rewrite Hscan.
    do 3 f_equal. apply span_ext. intros v _. apply eq_true_iff_eq. rewrite Z.eqb_eq, bool_decide_eq_true. set_solver.
  - pose proof Hk as Hk'. apply str_at_cons in Hk as (Hc0 & Hn0 & Hk). apply str_at_cons in Hk as (Hc1 & Hn1 & Hk).
    rewrite (bind_Ret _ _ _ _ _ (ldb_run _ _ _ Hc0)), (proj2 (Z.eqb_neq c0 0)), (bind_Ret _ _ _ _ _ (ldb_run _ _ _ Hc1)), (proj2 (Z.eqb_neq c1 0)) by done.
    destruct (fill_set_run (c0 :: c1 :: k) (S (size m)) m charset (replicate 32 0)) as (set & Hr & Hh);
      [lia|done..|]. rewrite <- (until_fault_run (λ fuel, fill_set fuel charset (replicate 32 0))) in Hr.
    rewrite (bind_Ret _ _ _ _ _ Hr), Hscan. do 3 f_equal. apply span_ext. intros v Hv. rewrite Forall_forall in Hl.
    rewrite Hh by auto. rewrite set_has_bit, lookup_total_replicate_2, Z.bits_0; [done|].
    specialize (Hl v Hv). cbn beta in Hl. Z.div_mod_to_equations. lia.
Qed.
