(* ===== verification/Num.v ===== *)
(** Reading numbers: isspace (libec/ctype.c) and strtoul (libec/_strtoul.h, as strtoul.c
    includes it), with the [unsigned long] of 64 bits of the LP64 targets. *)

From S2P Require Import Prelude Words Mem Str.

Definition ULONG_MAX : Z := 2 ^ 64 - 1.

Definition isspace (ch : Z) : bool := (ch =? 32) || (9 <=? ch) && (ch <=? 13).

(** The first character that is not a space, and [s] after it. *)
Fixpoint skip_space (fuel : nat) (s : Z) : M bytes (Z * Z) :=
  match fuel with
  | O => stop Hang
  | S fuel' => c ← ldb s; if isspace c then skip_space fuel' (s + 1) else mret (c, s + 1)
  end.

(** Whether [c] is a zero with an x and a hexadecimal digit after it, when the base
    allows that prefix. *)
Definition hex_digit (c : Z) : bool := (48 <=? c) && (c <=? 57) || (97 <=? c) && (c <=? 102) || (65 <=? c) && (c <=? 70).
Definition hex_prefix (base c s : Z) : M bytes bool :=
  if ((base =? 0) || (base =? 16)) && (c =? 48) then
    v ← ldb s;
    if (v =? 120) || (v =? 88) then w ← ldb (s + 1); mret (hex_digit w) else mret false
  else mret false.

(** The digit a character stands for. *)
Definition digit_of (c : Z) : option Z :=
  if (48 <=? c) && (c <=? 57) then Some (c - 48)
  else if (97 <=? c) && (c <=? 122) then Some (c - 97 + 10)
  else if (65 <=? c) && (c <=? 90) then Some (c - 65 + 10)
  else None.

(** The loop over the digits, from the character [c] before [s]: [acc], [any] and [s]
    where it breaks. *)
Fixpoint digits_loop (base cutoff cutlim : Z) (fuel : nat) (c s acc : Z) (any : bool) : M bytes (Z * bool * Z) :=
  match fuel with
  | O => stop Hang
  | S fuel' =>
      match digit_of c with
      | None => mret (acc, any, s)
      | Some i =>
          if base <=? i then mret (acc, any, s)
          else if (cutoff <? acc) || (acc =? cutoff) && (cutlim <? i) then mret (ULONG_MAX, false, s)
          else c' ← ldb s; digits_loop base cutoff cutlim fuel' c' (s + 1) (u64 (acc * base + i)) true
      end
  end.

(** Past the spaces and the sign: whether it is a minus, the next character and [s]
    after it. *)
Definition read_sign (nptr : Z) : M bytes (bool * Z * Z) :=
  r ← until_fault (λ fuel, skip_space fuel nptr);
  let '(c, s) := r : Z * Z in
  if c =? 45 then c' ← ldb s; mret (true, c', s + 1)
  else if c =? 43 then c' ← ldb s; mret (false, c', s + 1)
  else mret (false, c, s).

(** Past the prefix: the character, [s] after it and the base. *)
Definition read_base (base c s : Z) : M bytes (Z * Z * Z) :=
  hex ← hex_prefix base c s;
  if hex : bool then c' ← ldb (s + 1); mret (c', s + 2, 16)
  else mret (c, s, if base =? 0 then (if c =? 48 then 8 else 10) else base).

(** The value, and what is stored through [endptr] when it is not null. *)
Definition strtoul (nptr base : Z) : M bytes (Z * Z) :=
  if negb (base =? 0) && ((base <? 2) || (36 <? base)) then mret (0, nptr)
  else
    r ← read_sign nptr;
    let '(neg, c, s) := r : bool * Z * Z in
    r ← read_base base c s;
    let '(c, s, base) := r : Z * Z * Z in
    r ← until_fault (λ fuel, digits_loop base (ULONG_MAX `div` base) (ULONG_MAX `mod` base) fuel c s 0 false);
    let '(acc, any, s) := r : Z * bool * Z in
    mret (if neg && any then u64 (- acc) else acc, if any then s - 1 else nptr).
