(* ===== verification/NumTheorems.v ===== *)
(** strtoul gives the number its argument spells, in every base, with the sign, the
    prefix and the overflow cases. *)

From S2P Require Import Prelude Words Mem MemTheorems Str StrTheorems Num.

Implicit Types m : bytes.

(** The number a list of digits spells, most significant first. *)
Definition num_from (b : Z) : Z → list Z → Z := foldl (λ a c, a * b + default 0 (digit_of c)).
Notation num_of b := (num_from b 0).

Definition digit_in (b c : Z) : Prop := ∃ i, digit_of c = Some i ∧ i < b.
#[export] Instance digit_in_dec b c : Decision (digit_in b c).
Proof. refine (match digit_of c as o return (digit_of c = o →
    _) with Some i => λ E, cast_if (decide (i < b)) | None => λ E, right _ end eq_refl); unfold digit_in; rewrite E;
    naive_solver. Defined.

Lemma digit_of_range c i : digit_of c = Some i → 0 ≤ i < 36 ∧ (48 ≤ c ≤ 57 ∨ 97 ≤ c ≤ 122 ∨ 65 ≤ c ≤ 90).
Proof. unfold digit_of. intros E. repeat case_bool; simplify_eq; lia. Qed.

Lemma num_from_cons b acc c cs i : digit_of c = Some i → num_from b acc (c :: cs) = num_from b (acc * b + i) cs.
Proof. intros E. unfold num_from. cbn [foldl]. by rewrite E. Qed.

Lemma num_from_ge b cs : ∀ acc, 0 ≤ acc → 0 < b → Forall (digit_in b) cs → acc ≤ num_from b acc cs.
Proof.
  induction cs as [|c cs IH]; intros acc Ha Hb Hd; [done|]. apply Forall_cons in Hd as [(i & Hi & _) Hd].
  rewrite (num_from_cons _ _ _ _ _ Hi). apply digit_of_range in Hi as [Hi _].
  transitivity (acc * b + i); [nia|]. apply IH; [nia|done..].
Qed.

(** The guard of the loop is exactly that the next value does not fit. *)
Lemma cutoff_spec b acc i : 0 < b → 0 ≤ i < b →
    (ULONG_MAX `div` b <? acc) || (acc =? ULONG_MAX `div` b) && (ULONG_MAX `mod` b <? i) = (ULONG_MAX <? acc * b + i).
Proof.
  intros Hb Hi. pose proof (Z.div_mod ULONG_MAX b ltac:(lia)) as E. pose proof (Z.mod_pos_bound ULONG_MAX b Hb).
  apply eq_true_iff_eq. rewrite orb_true_iff, andb_true_iff, !Z.ltb_lt, Z.eqb_eq. nia.
Qed.

Lemma digits_loop_run m b e cs : ∀ fuel p acc any, 0 < b → (length cs < fuel)%nat → Forall (digit_in b) cs →
    ¬ digit_in b e → bytes_at m p (cs ++ [e]) → 0 ≤ acc ≤ ULONG_MAX →
  ∃ s, digits_loop b (ULONG_MAX `div` b) (ULONG_MAX `mod` b) fuel (default e (head cs)) (p + 1) acc any m =
    Ret (if num_from b acc cs <=? ULONG_MAX then (num_from b acc cs, any || negb (bool_decide (cs = [])), s) else (ULONG_MAX, false, s), m) ∧
    (num_from b acc cs ≤ ULONG_MAX → s = p + length cs + 1).
Proof.
  induction cs as [|c cs IH]; intros [|fuel] p acc any Hb Hf Hd He Hm Ha; cbn in Hf; try lia; cbn [digits_loop].
  - exists (p + 1). change (default e (head [])) with e. change (num_from b acc []) with acc. cbn [length].
    rewrite (proj2 (Z.leb_le acc _)), orb_false_r by lia. split; [|lia]. destruct (digit_of e) as [i|] eqn:E; [|done].
    destruct (Z.leb_spec b i); [done|]. contradict He. unfold digit_in. eauto.
  - apply Forall_cons in Hd as [(i & Hi & Hib) Hd]. cbn [app] in Hm. apply bytes_at_cons in Hm as [_ Hm].
    change (default e (head (c :: cs))) with c. rewrite Hi. pose proof (digit_of_range _ _ Hi) as [Hr _].
    rewrite (proj2 (Z.leb_gt b i)), cutoff_spec by lia. rewrite (num_from_cons _ _ _ _ _ Hi).
    destruct (Z.ltb_spec ULONG_MAX (acc * b + i)) as [Ho|Ho].
    + exists (p + 1). pose proof (num_from_ge b cs (acc * b + i) ltac:(nia) Hb Hd). rewrite (proj2 (Z.leb_gt _ _)) by lia. split; [done|lia].
    + assert (m !! (p + 1) = Some (default e (head cs))) as Hc by (destruct cs;
        by apply bytes_at_cons in Hm as [? _]). rewrite (bind_Ret _ _ _ _ _ (ldb_run _ _ _ Hc)).
      assert (u64 (acc * b + i) = acc * b + i) as -> by (apply Z.mod_small; unfold ULONG_MAX in *; nia).
      destruct (IH fuel (p + 1) (acc * b + i) true) as (s & Hrun & Hs); [done|lia|done..|nia|]. exists s.
      rewrite Hrun. split; [|cbn [length]; intros Hle; rewrite Hs by done; lia].
      by rewrite (bool_decide_false (c :: cs = [])), orb_true_r by done.
Qed.

(** Where the spaces end. *)
Lemma skip_space_run m c ws : ∀ fuel p, (length ws < fuel)%nat → Forall isspace ws → isspace c = false →
    bytes_at m p (ws ++ [c]) → skip_space fuel p m = Ret ((c, p + length ws + 1), m).
Proof.
  induction ws as [|w ws IH]; intros [|fuel] p Hf Hw Hc Hm; cbn in Hf; try lia; cbn [skip_space]; cbn [app] in Hm;
    apply bytes_at_cons in Hm as [Hv Hm]; rewrite (bind_Ret _ _ _ _ _ (ldb_run _ _ _ Hv)).
  - rewrite Hc. cbn [length]. by rewrite Z.add_0_r.
  - apply Forall_cons in Hw as [Hw1 Hw]. rewrite (Is_true_true_1 _ Hw1), (IH fuel) by (done || lia). do 2 f_equal. cbn [length]. f_equal. lia.
Qed.

(** How the digits are read: the prefix, the base and the digits of a number given to
    strtoul with [base]. *)
Inductive radix (base : Z) : list Z → Z → list Z → Prop :=
| radix_hex x c cs : base = 0 ∨ base = 16 → x = 120 ∨ x = 88 → radix base [48; x] 16 (c :: cs)
| radix_given cs : 2 ≤ base → radix base [] base cs
| radix_octal cs : base = 0 → radix base [] 8 (48 :: cs)
| radix_decimal c cs : base = 0 → c ≠ 48 → radix base [] 10 (c :: cs).

Definition sign_of (neg : option bool) : list Z := match neg with None => [] | Some true => [45] | Some false => [43] end.

Lemma digit_plain b c : digit_in b c → isspace c = false ∧ c ≠ 45 ∧ c ≠ 43 ∧ c ≠ 0.
Proof. intros (i & Hi & _). apply digit_of_range in Hi as [_ Hc]. unfold isspace. split_and!; [|lia..]. repeat case_bool; lia. Qed.

Lemma digit_hex c : digit_in 16 c → hex_digit c = true.
Proof. intros (i & Hi & Hl). unfold hex_digit. unfold digit_of in Hi. repeat case_bool; simplify_eq; try done; lia. Qed.

Lemma digit_not_x b c : b ≤ 16 → digit_in b c → (c =? 120) || (c =? 88) = false.
Proof. intros Hb (i & Hi & Hl). unfold digit_of in Hi. repeat case_bool; simplify_eq; try done; lia. Qed.

Lemma no_prefix m base b c cs e s : (base = 0 ∨ base = 16 → b ≤ 16) → Forall (digit_in b) (c :: cs) → e ≠ 120 ∧
    e ≠ 88 → bytes_at m s (c :: cs ++ [e]) → hex_prefix base c (s + 1) m = Ret (false, m).
Proof.
  intros Hb Hd He Hm. unfold hex_prefix. destruct (((base =? 0) || (base =? 16)) && (c =? 48)) eqn:E; [|done].
  apply andb_true_iff in E as [E _]. rewrite orb_true_iff, !Z.eqb_eq in E. apply Hb in E.
  apply bytes_at_cons in Hm as [_ Hm]. apply Forall_cons in Hd as [_ Hd].
  destruct cs as [|c1 cs]; cbn [app] in Hm; apply bytes_at_cons in Hm as [Hc _];
    rewrite (bind_Ret _ _ _ _ _ (ldb_run _ _ _ Hc)).
  - by rewrite (proj2 (Z.eqb_neq e 120)), (proj2 (Z.eqb_neq e 88)) by tauto.
  - apply Forall_cons in Hd as [Hd _]. by rewrite (digit_not_x b).
Qed.

(** The prefix is recognized, and nothing else is taken for one. *)
Lemma radix_run m base pre b cs e s : radix base pre b cs → Forall (digit_in b) cs → cs ≠ [] → e ≠ 120 ∧ e ≠ 88 → bytes_at m s (pre ++ cs ++ [e]) →
  2 ≤ b ∧ read_base base (default 0 (head (pre ++ cs))) (s + 1) m = Ret ((default e (head cs), s + length pre + 1, b), m).
Proof.
  intros Hr Hd Hne He Hm. unfold read_base. destruct Hr as [x c cs Hb Hx|cs Hb|cs ->|c cs -> Hc].
  - split; [lia|]. cbn [app] in Hm. rewrite !bytes_at_cons in Hm. destruct Hm as (_ & Hmx & Hmc & _).
    change (default 0 (head ([48; x] ++ c :: cs))) with 48. apply Forall_cons in Hd as [Hd _].
    assert (hex_prefix base 48 (s + 1) m = Ret (true, m)) as Hh.
    { unfold hex_prefix. replace ((base =? 0) || (base =? 16)) with true by (symmetry; rewrite orb_true_iff, !Z.eqb_eq; tauto). rewrite Z.eqb_refl. cbn [andb].
      rewrite (bind_Ret _ _ _ _ _ (ldb_run _ _ _ Hmx)).
      replace ((x =? 120) || (x =? 88)) with true by (symmetry; rewrite orb_true_iff, !Z.eqb_eq; tauto).
      rewrite (bind_Ret _ _ _ _ _ (ldb_run _ _ _ Hmc)). by rewrite digit_hex. }
    rewrite (bind_Ret _ _ _ _ _ Hh), (bind_Ret _ _ _ _ _ (ldb_run _ _ _ Hmc)).
    change (default e (head (c :: cs))) with c. cbn [length]. unfold mret, M_ret. do 4 f_equal. lia.
  - split; [done|]. destruct cs as [|c cs]; [done|]. cbn [app] in *. change (default 0 (head (c :: cs))) with c.
    rewrite (bind_Ret _ _ _ _ _ (no_prefix m base base c cs e s ltac:(lia) Hd He Hm)).
    rewrite (proj2 (Z.eqb_neq base 0)) by lia. cbn [length]. by rewrite Z.add_0_r.
  - split; [lia|]. cbn [app] in *. change (default 0 (head (48 :: cs))) with 48.
    rewrite (bind_Ret _ _ _ _ _ (no_prefix m 0 8 48 cs e s ltac:(lia) Hd He Hm)). cbn [length]. by rewrite Z.add_0_r.
  - split; [lia|]. cbn [app] in *. change (default 0 (head (c :: cs))) with c.
    rewrite (bind_Ret _ _ _ _ _ (no_prefix m 0 10 c cs e s ltac:(lia) Hd He Hm)).
    rewrite (proj2 (Z.eqb_neq c 48)) by done. cbn [length]. by rewrite Z.add_0_r.
Qed.

Lemma radix_base base pre b cs : radix base pre b cs → base ≤ 36 → negb (base =? 0) && ((base <? 2) || (36 <? base)) = false.
Proof. intros Hr Hb. destruct Hr; repeat case_bool; try done; lia. Qed.

Lemma radix_head base pre b cs : radix base pre b cs → Forall (digit_in b) cs → cs ≠ [] → ∃ c cs', pre ++ cs = c :: cs' ∧ isspace c = false ∧ c ≠ 45 ∧ c ≠ 43.
Proof.
  intros Hr Hd Hne. destruct Hr as [x c cs|cs|cs|c cs]; cbn [app]; [by eexists _, _| |by eexists _, _|].
  - destruct cs as [|c cs]; [done|]. apply Forall_cons in Hd as [Hd _]. apply digit_plain in Hd. eexists _, _. split; [done|tauto].
  - apply Forall_cons in Hd as [Hd _]. apply digit_plain in Hd. eexists _, _. split; [done|tauto].
Qed.

(** The spaces and the sign: the first character after them, and [s] after that. *)
Lemma sign_run m nptr ws sg c rest : Forall isspace ws → isspace c = false ∧ c ≠ 45 ∧ c ≠ 43 → bytes_at m nptr (ws ++ sign_of sg ++ c :: rest) →
  read_sign nptr m = Ret ((bool_decide (sg = Some true), c, nptr + length (ws ++ sign_of sg) + 1), m).
Proof.
  intros Hw (Hc & H45 & H43) Hm. unfold read_sign.
  assert (∀ d k, isspace d = false → bytes_at m nptr (ws ++ d :: k) →
    until_fault (λ fuel, skip_space fuel nptr) m = Ret ((d, nptr + length ws + 1), m)) as Hskip.
  { intros d k Hd Hmd. pose proof (bytes_at_size _ _ _ Hmd) as Hz. rewrite length_app in Hz. cbn [length] in Hz.
    rewrite until_fault_run. apply skip_space_run; [lia|done..|].
    change (d :: k) with ([d] ++ k) in Hmd. rewrite app_assoc, bytes_at_app in Hmd. tauto. }
  destruct sg as [[]|]; cbn [sign_of app] in Hm |- *; rewrite length_app; cbn [length].
  1, 2: rewrite (bind_Ret _ _ _ _ _ (Hskip 45 (c :: rest) eq_refl Hm)) || rewrite
    (bind_Ret _ _ _ _ _ (Hskip 43 (c :: rest) eq_refl Hm)); cbn beta iota zeta; apply bytes_at_app in Hm as [_ Hm];
    rewrite !bytes_at_cons in Hm; destruct Hm as (_ & Hm & _); cbn [Z.eqb Pos.eqb];
    rewrite (bind_Ret _ _ _ _ _ (ldb_run _ _ _ Hm)); unfold mret, M_ret; do 3 f_equal; lia.
  rewrite (bind_Ret _ _ _ _ _ (Hskip _ _ Hc Hm)). cbn beta iota zeta.
  rewrite (proj2 (Z.eqb_neq c 45)), (proj2 (Z.eqb_neq c 43)) by done. unfold mret, M_ret. do 3 f_equal. lia.
Qed.

Lemma strtoul_run m nptr base ws sg pre b cs e (Hbase : base ≤ 36) (Hws : Forall isspace ws)
    (Hpre : radix base pre b cs) (Hcs : Forall (digit_in b) cs) (Hne : cs ≠ [])
    (He : ¬ digit_in b e) (Hx : e ≠ 120 ∧ e ≠ 88) (Hm : bytes_at m nptr (ws ++ sign_of sg ++ pre ++ cs ++ [e])) :
  strtoul nptr base m = Ret (if num_of b cs <=? ULONG_MAX then (if decide (sg = Some true) then u64 (- num_of b cs)
    else num_of b cs, nptr + length (ws ++ sign_of sg ++ pre ++ cs)) else (ULONG_MAX, nptr), m).
Proof.
  unfold strtoul. rewrite (radix_base _ _ _ _ Hpre Hbase). destruct (radix_head _ _ _ _ Hpre Hcs Hne) as (c & k & Hk & Hc).
  pose proof Hm as Hm0. rewrite (app_assoc pre), Hk in Hm0. cbn [app] in Hm0. pose proof (sign_run m nptr ws sg c (k ++ [e]) Hws Hc Hm0) as Hsign.
  rewrite (bind_Ret _ _ _ _ _ Hsign). cbn beta iota zeta. set (p := nptr + length (ws ++ sign_of sg)).
  assert (bytes_at m p (pre ++ cs ++ [e])) as Hp by (rewrite (app_assoc ws), bytes_at_app in Hm; tauto).
  destruct (radix_run m base pre b cs e p Hpre Hcs Hne Hx Hp) as [Hb Hrad]. rewrite Hk in Hrad.
  change (default 0 (head (c :: k))) with c in Hrad. rewrite (bind_Ret _ _ _ _ _ Hrad). cbn beta iota zeta.
  apply bytes_at_app in Hp as [_ Hp].
  destruct (digits_loop_run m b e cs (S (size m)) (p + length pre) 0 false) as (s & Hdig & Hs);
    [lia|apply bytes_at_size in Hp; rewrite length_app in Hp; lia|done..|unfold ULONG_MAX; lia|].
  rewrite <- (until_fault_run (λ fuel, digits_loop b _ _ fuel _ (p + length pre + 1) 0 false)) in Hdig.
  rewrite (bind_Ret _ _ _ _ _ Hdig). rewrite bool_decide_false by done. cbn [orb negb].
  destruct (Z.leb_spec (num_of b cs) ULONG_MAX) as [Hle|Hgt]; cbn beta iota zeta; [|by rewrite andb_false_r].
  rewrite (Hs Hle), andb_true_r. unfold p. rewrite !length_app. unfold mret, M_ret. do 2 f_equal. f_equal; [|lia].
  destruct (decide (sg = Some true)); [by rewrite bool_decide_true|by rewrite bool_decide_false].
Qed.

(** C34. [strtoul] of spaces, a sign, a prefix that the base allows and digits gives their
    value, negated modulo 2^64 after a minus sign, and the address of the character that
    ends the digits. A value above ULONG_MAX gives ULONG_MAX and the start of the text. *)
Theorem strtoul_correct m nptr base ws sg pre b cs e (Hbase : base ≤ 36) (Hws : Forall isspace ws)
    (Hpre : radix base pre b cs) (Hcs : Forall (digit_in b) cs) (Hne : cs ≠ [])
    (He : ¬ digit_in b e) (Hx : e ≠ 120 ∧ e ≠ 88) (Hm : bytes_at m nptr (ws ++ sign_of sg ++ pre ++ cs ++ [e])) :
  strtoul nptr base m = Ret (if num_of b cs <=? ULONG_MAX then (if decide (sg = Some true) then u64 (- num_of b cs)
    else num_of b cs, nptr + length (ws ++ sign_of sg ++ pre ++ cs)) else (ULONG_MAX, nptr), m).
Proof. by apply strtoul_run with e. Qed.
