(* ===== verification/Printf.v ===== *)
(** Formatted output (libec/subr_prf.c, with snprintf.c and printf.c): kdoprnt, kprintn,
    sputchar, vsnprintf and vprintf, as _EC_SOURCE configures them.

    Characters are bytes. The arguments of a call are the eight byte slots that [va_arg]
    reads them from on the LP64 targets. *)

From S2P Require Import Prelude Words Mem Str.

(** Memory, and the static [sbuf] and [ebuf]. *)
Record prs := { pr_mem : bytes; sbuf : Z; ebuf : Z }.

Definition pr_zoom {A} : M bytes A → M prs A := zoom pr_mem (λ m s, {| pr_mem := m; sbuf := sbuf s; ebuf := ebuf s |}).

Definition LONG : Z := 0x01.
Definition LLONG : Z := 0x02.
Definition ALT : Z := 0x04.
Definition SPACE : Z := 0x08.
Definition LADJUST : Z := 0x10.
Definition SIGN : Z := 0x20.
Definition ZEROPAD : Z := 0x40.
Definition NEGATIVE : Z := 0x80.

Definition flag (lflag f : Z) : bool := negb (Z.land lflag f =? 0).

Definition hexdigits : list Z := [48; 49; 50; 51; 52; 53; 54; 55; 56; 57; 97; 98; 99; 100; 101; 102].

(** Signed arithmetic that has to stay in an [int]. *)
Definition int {S} (x : Z) : M S Z := if (- 2 ^ 31 <=? x) && (x <? 2 ^ 31) then mret x else stop Undef.

(** The next argument. *)
Definition va_arg {S} (ap : list Z) : M S (Z * list Z) :=
  match ap with
  | [] => stop Undef
  | v :: ap' => mret (v, ap')
  end.

Section output.

Context {S : Type} (put : Z → M S unit).

(** [while (width-- > 0) put (c)], and [width] after it. *)
Fixpoint put_n (c : Z) (n : nat) : M S unit :=
  match n with
  | O => mret tt
  | Datatypes.S n' => put c;; put_n c n'
  end.
Definition pad (c width : Z) : M S Z := put_n c (Z.to_nat width);; mret (Z.min (width - 1) (-1)).

Definition LZERO (lflag width : Z) : M S Z := if Z.land lflag (Z.lor ZEROPAD LADJUST) =? ZEROPAD then pad 48 width else mret width.
Definition RPAD (lflag width : Z) : M S Z := if flag lflag LADJUST then pad 32 width else mret width.
Definition LPAD (lflag width : Z) : M S Z := if Z.land lflag (Z.lor ZEROPAD LADJUST) =? 0 then pad 32 width else mret width.

(** [buf] of kprintn up to [p], the last character first, and its size. *)
Definition buf_size : nat := 24.
Definition push (c : Z) (buf : list Z) : M S (list Z) := if (length buf <? buf_size)%nat then mret (c :: buf) else stop Undef.

Fixpoint push_digits (base : Z) (fuel : nat) (ul : Z) (buf : list Z) : M S (list Z) :=
  match fuel with
  | O => stop Hang
  | Datatypes.S fuel' =>
      buf ← push (hexdigits !!! Z.to_nat (ul `mod` base)) buf;
      let ul := ul `div` base in
      if ul =? 0 then mret buf else push_digits base fuel' ul buf
  end.

(** [do put ( *--p); while (p > q)], down to [q] characters. *)
Fixpoint pop (n : nat) (buf : list Z) : M S (list Z) :=
  match n, buf with
  | Datatypes.S n', c :: buf' => put c;; pop n' buf'
  | _, _ => mret buf
  end.

Definition kprintn (ul base lflag width : Z) : M S unit :=
  buf ← push_digits base 65 ul [];
  let q := length buf in
  buf ← (if flag lflag ALT && negb (hd 0 buf =? 48) then
           if base =? 8 then push 48 buf
           else if base =? 16 then buf ← push 120 buf; push 48 buf
           else mret buf
         else mret buf);
  buf ← (if flag lflag NEGATIVE then push 45 buf
         else if flag lflag SIGN then push 43 buf
         else if flag lflag SPACE then push 32 buf
         else mret buf);
  let width := width - length buf in
  buf ← (if flag lflag ZEROPAD then pop (length buf - q) buf else mret buf);
  width ← LPAD lflag width;
  width ← LZERO lflag width;
  pop (length buf) buf;;
  RPAD lflag width;;
  mret tt.

End output.

Section kdoprnt.

Context (put : Z → M prs unit).

(** The digits of a width or a precision: its value and [fmt] after them. *)
Fixpoint scan_int (fuel : nat) (fmt acc : Z) : M prs (Z * Z) :=
  match fuel with
  | O => stop Hang
  | S fuel' =>
      ch ← pr_zoom (ldb fmt);
      if (48 <=? ch) && (ch <=? 57) then acc ← int (acc * 10 + (ch - 48)); scan_int fuel' (fmt + 1) acc
      else mret (acc, fmt)
  end.

(** The characters of a string up to its end, or at most [prec] of them. *)
Fixpoint put_str (fuel : nat) (p : Z) : M prs unit :=
  match fuel with
  | O => stop Hang
  | S fuel' => ch ← pr_zoom (ldb p); if negb (ch =? 0) then put ch;; put_str fuel' (p + 1) else mret tt
  end.
Fixpoint put_prec (fuel : nat) (p prec : Z) : M prs unit :=
  match fuel with
  | O => stop Hang
  | S fuel' => ch ← pr_zoom (ldb p); if negb (ch =? 0) && (0 <=? prec - 1) then put ch;; put_prec fuel' (p + 1) (prec - 1) else mret tt
  end.

Definition prs_fuel : M prs nat := gets (λ s, S (size (pr_mem s))).

(** [case 'c'], [case 's'] and [case 'd'], and the KPRINT macro. *)
Definition put_char (lflag width : Z) (ap : list Z) : M prs (list Z) :=
  r ← va_arg ap; let '(ch, ap) := r : Z * list Z in
  width ← LPAD put lflag (width - 1);
  put (Z.land (s32 ch) 0xFF);;
  RPAD put lflag width;;
  mret ap.

Definition put_string (lflag width prec : Z) (ap : list Z) : M prs (list Z) :=
  r ← va_arg ap; let '(p, ap) := r : Z * list Z in
  if p =? 0 then put 123;; put 78;; put 85;; put 76;; put 76;; put 125;; mret ap
  else
    len ← pr_zoom (strlen p);
    width ← LPAD put lflag (s32 (width - len));
    (fuel ← prs_fuel; if negb (prec =? 0) then put_prec fuel p prec else put_str fuel p);;
    RPAD put lflag width;;
    mret ap.

Definition put_signed (lflag width : Z) (ap : list Z) : M prs (list Z) :=
  r ← va_arg ap; let '(v, ap) := r : Z * list Z in
  let ul := if flag lflag LLONG || flag lflag LONG then s64 v else s32 v in
  (if ul <? 0 then if ul =? - 2 ^ 63 then stop Undef else kprintn put (- ul) 10 (Z.lor lflag NEGATIVE) width
   else kprintn put ul 10 lflag width);;
  mret ap.

Definition KPRINT (base lflag width : Z) (ap : list Z) : M prs (list Z) :=
  r ← va_arg ap; let '(v, ap) := r : Z * list Z in
  let ul := if flag lflag LLONG || flag lflag LONG then u64 v else u32 v in
  kprintn put ul base lflag width;;
  mret ap.

(** The loop, between conversions, and inside of one with what it has read so far. *)
Fixpoint kdoprnt_loop (fuel : nat) (conv : option (Z * Z * Z)) (fmt : Z) (ap : list Z) : M prs unit :=
  match fuel with
  | O => stop Hang
  | S fuel' =>
      ch ← pr_zoom (ldb fmt);
      let fmt := fmt + 1 in
      match conv with
      | None =>
          if ch =? 37 then kdoprnt_loop fuel' (Some (0, 0, 0)) fmt ap
          else if ch =? 0 then mret tt
          else put ch;; kdoprnt_loop fuel' None fmt ap
      | Some (lflag, width, prec) =>
          let reswitch lflag := kdoprnt_loop fuel' (Some (lflag, width, prec)) fmt ap in
          let next (m : M prs (list Z)) := ap ← m; kdoprnt_loop fuel' None fmt ap in
          if ch =? 35 then reswitch (Z.lor lflag ALT)
          else if ch =? 32 then reswitch (Z.lor lflag SPACE)
          else if ch =? 45 then reswitch (Z.lor lflag LADJUST)
          else if ch =? 43 then reswitch (Z.lor lflag SIGN)
          else if ch =? 48 then reswitch (Z.lor lflag ZEROPAD)
          else if (49 <=? ch) && (ch <=? 57) then
            width ← int (width * 10 + (ch - 48));
            r ← scan_int fuel' fmt width; let '(width, fmt) := r : Z * Z in
            kdoprnt_loop fuel' (Some (lflag, width, prec)) fmt ap
          else if ch =? 46 then
            r ← scan_int fuel' fmt prec; let '(prec, fmt) := r : Z * Z in
            kdoprnt_loop fuel' (Some (lflag, width, prec)) fmt ap
          else if ch =? 108 then
            c' ← pr_zoom (ldb fmt);
            if c' =? 108 then kdoprnt_loop fuel' (Some (Z.lor lflag LLONG, width, prec)) (fmt + 1) ap
            else reswitch (Z.lor lflag LONG)
          else if ch =? 106 then reswitch (Z.lor lflag LLONG)
          else if (ch =? 116) || (ch =? 122) then reswitch (Z.lor lflag LONG)
          else if ch =? 99 then next (put_char lflag width ap)
          else if ch =? 115 then next (put_string lflag width prec ap)
          else if ch =? 100 then next (put_signed lflag width ap)
          else if ch =? 111 then next (KPRINT 8 lflag width ap)
          else if ch =? 117 then next (KPRINT 10 lflag width ap)
          else if ch =? 112 then next (KPRINT 16 (Z.lor lflag (Z.lor LONG ALT)) width ap)
          else if (ch =? 88) || (ch =? 120) then next (KPRINT 16 lflag width ap)
          else if ch =? 0 then mret tt
          else put ch;; kdoprnt_loop fuel' None fmt ap
      end
  end.

(** Every step reads a byte of the format further on. *)
Definition kdoprnt (fmt : Z) (ap : list Z) : M prs unit := fuel ← prs_fuel; kdoprnt_loop fuel None fmt ap.

End kdoprnt.

Definition sputchar (c : Z) : M prs unit :=
  s ← gets id;
  if sbuf s <? ebuf s then pr_zoom (stb (sbuf s) (u8 c));; modify (λ s, {| pr_mem := pr_mem s; sbuf := sbuf s + 1; ebuf := ebuf s |})
  else mret tt.

(** snprintf passes its arguments on; [size] is a [size_t], which [buf + size - 1] wraps
    around with for 0. *)
Definition vsnprintf (buf size fmt : Z) (ap : list Z) : M prs Z :=
  modify (λ s, {| pr_mem := pr_mem s; sbuf := buf; ebuf := buf + size - 1 |});;
  kdoprnt sputchar fmt ap;;
  s ← gets sbuf;
  pr_zoom (stb s 0);;
  mret (s - buf).

(** [putchar] is the platform's. *)
Definition vprintf (putchar : Z → M prs unit) (fmt : Z) (ap : list Z) : M prs Z := kdoprnt putchar fmt ap;; mret 0.
