(* ===== verification/PrintfTheorems.v ===== *)
(** The formatted output of Printf is what a reference rendering says: the digits, the
    prefixes, the signs, the padding and the truncation. *)

From S2P Require Import Prelude Words Mem MemTheorems Str StrTheorems Num NumTheorems Printf.

Implicit Types m : bytes.

(** * Numerals *)

Definition digit_char (i : Z) : Z := hexdigits !!! Z.to_nat i.

(** The text of a number, most significant digit first. *)
Fixpoint numeral_loop (fuel : nat) (b n : Z) : list Z :=
  match fuel with
  | O => []
  | S fuel' => if n <? b then [digit_char n] else numeral_loop fuel' b (n `div` b) ++ [digit_char (n `mod` b)]
  end.
Definition numeral (b n : Z) : list Z := numeral_loop 65 b n.

Lemma digit_char_of i : 0 ≤ i < 16 → digit_of (digit_char i) = Some i.
Proof. intros Hi. assert (i ∈ seqZ 0 16) as Hin by (apply elem_of_seqZ; lia). clear Hi. revert i Hin.
  apply Forall_forall, (bool_decide_unpack _). vm_compute. exact I. Qed.

Lemma numeral_loop_length b (k : nat) : ∀ fuel n, 2 ≤ b → 0 ≤ n < b ^ k → (0 < k)%nat → (length (numeral_loop fuel b n) ≤ k)%nat.
Proof.
  induction k as [|k IH]; intros [|fuel] n Hb Hn Hk; cbn [numeral_loop length]; try lia.
  destruct (Z.ltb_spec n b); [cbn; lia|]. rewrite length_app. cbn [length].
  destruct k as [|k]; [cbn in Hn; lia|]. enough (length (numeral_loop fuel b (n `div` b)) ≤ S k)%nat by lia. apply IH; [done| |lia].
  replace (Z.of_nat (S (S k))) with (Z.succ (Z.of_nat (S k))) in Hn by lia. rewrite Z.pow_succ_r in Hn by lia.
  split; [apply Z.div_pos; lia|apply Z.div_lt_upper_bound; lia].
Qed.

Lemma numeral_loop_enough b (k : nat) : ∀ fuel fuel' n, 2 ≤ b → 0 ≤ n < b ^ k → (k ≤ fuel)%nat → (k ≤ fuel')%nat →
    (0 < k)%nat → numeral_loop fuel b n = numeral_loop fuel' b n.
Proof.
  induction k as [|k IH]; intros [|fuel] [|fuel'] n Hb Hn Hf Hf' Hk; try lia. cbn [numeral_loop].
  destruct (Z.ltb_spec n b); [done|]. f_equal. destruct k as [|k]; [cbn in Hn; lia|]. apply IH; [done| |lia..].
  replace (Z.of_nat (S (S k))) with (Z.succ (Z.of_nat (S k))) in Hn by lia. rewrite Z.pow_succ_r in Hn by lia.
  split; [apply Z.div_pos; lia|apply Z.div_lt_upper_bound; lia].
Qed.

Lemma numeral_loop_S fuel b n : numeral_loop (S fuel) b n = if n <? b then [digit_char n] else numeral_loop fuel b (n `div` b) ++ [digit_char (n `mod` b)].
Proof. done. Qed.

Lemma word_pow b n : 2 ≤ b → 0 ≤ n < 2 ^ 64 → 0 ≤ n < b ^ 64.
Proof. intros Hb Hn. pose proof (Z.pow_le_mono_l 2 b 64 ltac:(lia)). lia. Qed.

(** The equation of [numeral]. *)
Lemma numeral_eq b n : 2 ≤ b → 0 ≤ n < 2 ^ 64 → numeral b n = if n <? b then [digit_char n] else numeral b (n `div` b) ++ [digit_char (n `mod` b)].
Proof.
  intros Hb Hn. unfold numeral at 1. rewrite (numeral_loop_S 64). destruct (Z.ltb_spec n b) as [|Hge]; [done|].
  rewrite (numeral_loop_enough b 64 64 65); [reflexivity|done| |lia..]. apply word_pow; [done|].
  split; [apply Z.div_pos; lia|]. apply Z.div_lt_upper_bound; nia.
Qed.

(** Every number of 64 bits fits in the buffer of kprintn with two characters to spare. *)
Lemma numeral_length b n : 8 ≤ b → 0 ≤ n < 2 ^ 64 → (length (numeral b n) ≤ 22)%nat.
Proof. intros Hb Hn. apply numeral_loop_length; [lia| |lia]. pose proof (Z.pow_le_mono_l 8 b 22 ltac:(lia)). change (Z.of_nat 22) with 22. lia. Qed.

Lemma numeral_ind (b : Z) (P : Z → Prop) : 2 ≤ b → (∀ n, 0 ≤ n < 2 ^ 64 → (b ≤ n → P (n `div` b)) → P n) → ∀ n, 0 ≤ n < 2 ^ 64 → P n.
Proof.
  intros Hb Hstep n Hn. revert Hn. induction (Z.lt_wf 0 n) as [n _ IH]. intros Hn. apply Hstep; [done|]. intros Hge.
  apply IH; [|split; [apply Z.div_pos; lia|apply Z.div_lt_upper_bound; nia]].
  split; [apply Z.div_pos; lia|apply Z.div_lt; lia].
Qed.

Lemma num_from_app b acc l k : num_from b acc (l ++ k) = num_from b (num_from b acc l) k.
Proof. apply foldl_app. Qed.

(** The text reads back as the number, in digits of the base, with no leading zero. *)
Lemma numeral_value b n : 2 ≤ b ≤ 16 → 0 ≤ n < 2 ^ 64 →
  num_of b (numeral b n) = n ∧ Forall (digit_in b) (numeral b n) ∧ ∃ c cs, numeral b n = c :: cs ∧ (c = 48 ↔ n = 0).
Proof.
  intros Hb. revert n. apply (numeral_ind b); [lia|]. intros n Hn IH. rewrite numeral_eq by lia. destruct (Z.ltb_spec n b) as [Hlt|Hge].
  - assert (digit_of (digit_char n) = Some n) as Hd by (apply digit_char_of; lia).
    rewrite (num_from_cons _ _ _ _ _ Hd). split_and!; [unfold num_from; cbn; lia|constructor; [|done]; by exists n|].
    eexists _, _. split; [done|]. assert (digit_of 48 = Some 0) as H48 by done. split; [intros E; rewrite E in Hd; naive_solver|]. intros ->. done.
  - destruct IH as (Hv & Hf & c & cs & Hcs & Hc); [done|]. pose proof (Z.mod_pos_bound n b ltac:(lia)).
    assert (digit_of (digit_char (n `mod` b)) = Some (n `mod` b)) as Hd by (apply digit_char_of; lia).
    rewrite num_from_app, Hv, (num_from_cons _ _ _ _ _ Hd). split_and!.
    + change (num_from b (n `div` b * b + n `mod` b) []) with (n `div` b * b + n `mod` b). rewrite (Z.div_mod n b) at 3 by lia. lia.
    + apply Forall_app. split; [done|]. constructor; [|done]. eexists. split; [done|lia].
    + rewrite Hcs. eexists _, _. split; [done|]. rewrite Hc. split; [|lia]. intros E. pose proof (Z.div_str_pos n b). lia.
Qed.

(** * What a piece of code prints *)

(** The contract of [put]: it appends its argument to what has been [emitted], and the
    bytes that satisfy [src] stay those of [m0]. *)
Class Putter (put : Z → M prs unit) (emitted : list Z → prs → Prop) (src : Z → Prop) (m0 : bytes) := {
  put_run o s c : 0 ≤ c < 256 → emitted o s → ∃ s', put c s = Ret (tt, s') ∧ emitted (o ++ [c]) s';
  put_src o s x : emitted o s → src x → pr_mem s !! x = m0 !! x
}.

Section emits.

Context (put : Z → M prs unit) (emitted : list Z → prs → Prop) (src : Z → Prop) (m0 : bytes) `{P : !Putter put emitted src m0}.

(** The code returns [a] having printed [out]. *)
Definition emits {A} (c : M prs A) (out : list Z) (a : A) : Prop := ∀ o s, emitted o s → ∃ s', c s = Ret (a, s') ∧ emitted (o ++ out) s'.

Lemma emits_ret {A} (a : A) : emits (mret a) [] a.
Proof. intros o s Ho. exists s. by rewrite app_nil_r. Qed.

Lemma emits_put c : 0 ≤ c < 256 → emits (put c) [c] tt.
Proof. intros Hc o s Ho. by apply (put_run o s c). Qed.

Lemma emits_bind {A B} (c : M prs A) (f : A → M prs B) o1 o2 a b : emits c o1 a → emits (f a) o2 b → emits (c ≫= f) (o1 ++ o2) b.
Proof.
  intros H1 H2 o s Ho. destruct (H1 o s Ho) as (s1 & Hr1 & Ho1). destruct (H2 _ s1 Ho1) as (s2 & Hr2 & Ho2).
  exists s2. rewrite (bind_Ret _ _ _ _ _ Hr1). split; [done|]. by rewrite app_assoc.
Qed.

(** Code that prints nothing before the rest. *)
Lemma emits_pure {A B} (c : M prs A) (f : A → M prs B) out a b : emits c [] a → emits (f a) out b → emits (c ≫= f) out b.
Proof. intros H1 H2. exact (emits_bind c f [] out a b H1 H2). Qed.

Lemma emits_last {A B} (c : M prs A) (f : A → M prs B) out a b : emits c out a → emits (f a) [] b → emits (c ≫= f) out b.
Proof. intros H1 H2. rewrite <- (app_nil_r out). by apply (emits_bind c f out [] a b). Qed.

Lemma emits_read {A} (c : M bytes A) a : (∀ m, (∀ x, src x → m !! x = m0 !! x) → c m = Ret (a, m)) → emits (pr_zoom c) [] a.
Proof.
  intros Hc o s Ho. exists s. rewrite app_nil_r. split; [|done]. unfold pr_zoom, zoom. rewrite Hc; [by destruct s|]. intros x. by apply put_src with o.
Qed.

Lemma emits_ldb x v : src x → m0 !! x = Some v → emits (pr_zoom (ldb x)) [] v.
Proof. intros Hx Hv. apply emits_read. intros m Hm. apply ldb_run. by rewrite Hm. Qed.

(** The bytes at [a] that [put] leaves alone. *)
Definition kept (a : Z) (l : list Z) : Prop := bytes_at m0 a l ∧ ∀ x, a ≤ x < a + length l → src x.

Lemma kept_cons a v l : kept a (v :: l) → src a ∧ m0 !! a = Some v ∧ kept (a + 1) l.
Proof. intros [Hb Hs]. apply bytes_at_cons in Hb as [Hv Hb]. split; [apply Hs; cbn; lia|]. split; [done|].
  split; [done|]. intros x Hx. apply Hs. cbn [length]. lia. Qed.

Lemma kept_app a l k : kept a (l ++ k) → kept a l ∧ kept (a + length l) k.
Proof. intros [Hb Hs]. apply bytes_at_app in Hb as [Hl Hk]. rewrite length_app in Hs. split; (split; [done|]; intros x Hx; apply Hs; lia). Qed.

Lemma emits_fuel {B} (f : nat → M prs B) a l out b : kept a l → (∀ fuel, (length l < fuel)%nat → emits (f fuel) out b) → emits (prs_fuel ≫= f) out b.
Proof.
  intros [Hb Hs] Hf o s Ho. unfold prs_fuel. rewrite bind_gets. apply Hf; [|done].
  enough (length l ≤ size (pr_mem s))%nat by lia. apply (bytes_at_size _ a). apply (bytes_at_other m0); [|done].
  intros x Hx. by apply (put_src o), Hs.
Qed.

Lemma emits_put_n c n : 0 ≤ c < 256 → emits (put_n put c n) (replicate n c) tt.
Proof. intros Hc. induction n as [|n IH]; [apply emits_ret|]. exact (emits_bind _ _ [c] _ _ _ (emits_put c Hc) IH). Qed.

Lemma emits_pad c width : 0 ≤ c < 256 → emits (pad put c width) (replicate (Z.to_nat width) c) (Z.min (width - 1) (-1)).
Proof. intros Hc. eapply emits_last; [by apply emits_put_n|apply emits_ret]. Qed.

Definition char (c : Z) : Prop := 0 ≤ c < 256.

Lemma emits_pop buf : Forall char buf → ∀ n, emits (pop put n buf) (take n buf) (drop n buf).
Proof.
  induction 1 as [|c buf Hc _ IH]; intros [|n]; try apply emits_ret. cbn [pop take drop]. exact (emits_bind _ _ [c] _ _ _ (emits_put c Hc) (IH n)).
Qed.

Lemma emits_push c buf : (length buf < 24)%nat → emits (push c buf) [] (c :: buf).
Proof. intros Hl. unfold push. rewrite (proj2 (Nat.ltb_lt _ _)) by (unfold buf_size; lia). apply emits_ret. Qed.

Lemma push_digits_run b (fuel : nat) : 8 ≤ b ≤ 16 → ∀ n buf, 0 ≤ n < 2 ^ 64 → 0 ≤ n < b ^ fuel → (0 < fuel)%nat →
    (length (numeral b n ++ buf) ≤ 24)%nat → emits (push_digits b fuel n buf) [] (numeral b n ++ buf).
Proof.
  intros Hb. induction fuel as [|fuel IH]; intros n buf Hn Hf Hf0 Hl; [lia|]. rewrite numeral_eq in Hl |- * by lia.
  cbn [push_digits]. pose proof (Z.mod_pos_bound n b ltac:(lia)).
  destruct (Z.ltb_spec n b) as [Hlt|Hge].
  - cbn [app length] in Hl. eapply emits_pure; [apply emits_push; lia|]. cbn zeta. rewrite Z.div_small, Z.mod_small by lia. apply emits_ret.
  - rewrite !length_app in Hl. cbn [length] in Hl. eapply emits_pure; [apply emits_push; lia|]. cbn zeta.
    pose proof (Z.div_str_pos n b). rewrite (proj2 (Z.eqb_neq _ 0)) by lia. rewrite <- app_assoc. 
    assert (0 < fuel)%nat as Hf1 by (destruct fuel; [cbn in Hf; lia|lia]).
    replace (Z.of_nat (S fuel)) with (Z.succ fuel) in Hf by lia. rewrite Z.pow_succ_r in Hf by lia.
    apply IH; [split; [apply Z.div_pos; lia|apply Z.div_lt_upper_bound; nia]|split; [apply Z.div_pos; lia|apply Z.div_lt_upper_bound; lia]|done|].
    rewrite !length_app. cbn [length]. lia.
Qed.

(** ** Numbers *)

Definition alt_prefix (alt : bool) (b n : Z) : list Z := if alt && negb (n =? 0) then if b =? 8 then [48] else if b =? 16 then [48; 120] else [] else [].
Definition sign_text (lflag : Z) : list Z := if flag lflag NEGATIVE then [45] else if flag lflag SIGN then [43] else if flag lflag SPACE then [32] else [].

(** A number with its sign and prefix, in at least [width] columns. *)
Definition padded (left zero : bool) (width : Z) (pre body : list Z) : list Z :=
  let gap := Z.to_nat (width - length (pre ++ body)) in
  if left then pre ++ body ++ replicate gap 32
  else if zero then pre ++ replicate gap 48 ++ body
  else replicate gap 32 ++ pre ++ body.
Definition number_text (b lflag width n : Z) : list Z :=
  padded (flag lflag LADJUST) (flag lflag ZEROPAD) width (sign_text lflag ++ alt_prefix (flag lflag ALT) b n) (numeral b n).

(** The prefix and the digits leave a character of the buffer for the sign. *)
Lemma alt_prefix_room alt b n : 8 ≤ b → 0 ≤ n < 2 ^ 64 → (length (alt_prefix alt b n ++ numeral b n) ≤ 23)%nat ∧ Forall char (alt_prefix alt b n).
Proof.
  intros Hb Hn. pose proof (numeral_length b n Hb Hn) as Hl. unfold alt_prefix. rewrite length_app.
  destruct (alt && negb (n =? 0)); [|split; [cbn [length]; lia|done]].
  destruct (Z.eqb_spec b 8); [split; [cbn [length]; lia|repeat constructor; unfold char; lia]|].
  destruct (Z.eqb_spec b 16) as [->|]; [|split; [cbn [length]; lia|done]].
  split; [|repeat constructor; unfold char; lia]. assert (length (numeral 16 n) ≤ 16)%nat; [|cbn [length]; lia].
  apply numeral_loop_length; [lia|change (Z.of_nat 16) with 16; lia|lia].
Qed.

Lemma digit_char_range b n : 2 ≤ b ≤ 16 → 0 ≤ n < 2 ^ 64 → Forall char (numeral b n).
Proof. intros Hb Hn. destruct (numeral_value b n Hb Hn) as (_ & Hd & _). eapply Forall_impl; [exact Hd|].
  intros c (i & Hi & _). apply digit_of_range in Hi as [_ Hc]. unfold char. lia. Qed.

(** The flags as kprintn tests them. *)
Lemma land_bit l k : 0 ≤ k → Z.land l (Z.shiftl 1 k) = if Z.testbit l k then Z.shiftl 1 k else 0.
Proof.
  intros Hk. apply Z.bits_inj'. intros i Hi. rewrite Z.land_spec, testbit_one_shl by done. destruct (Z.eqb_spec i k) as [->|Hne].
  - rewrite andb_true_r. destruct (Z.testbit l k); [by rewrite testbit_one_shl, Z.eqb_refl by done|by rewrite Z.bits_0].
  - rewrite andb_false_r. destruct (Z.testbit l k); [rewrite testbit_one_shl by done; by destruct (Z.eqb_spec i k)|by rewrite Z.bits_0].
Qed.

Lemma flag_pads l : Z.land l (Z.lor ZEROPAD LADJUST) =? 0 = negb (flag l ZEROPAD) && negb (flag l LADJUST) ∧
  Z.land l (Z.lor ZEROPAD LADJUST) =? ZEROPAD = flag l ZEROPAD && negb (flag l LADJUST).
Proof.
  unfold flag. rewrite Z.land_lor_distr_r. change ZEROPAD with (Z.shiftl 1 6). change LADJUST with (Z.shiftl 1 4).
  rewrite !land_bit by lia. by destruct (Z.testbit l 6), (Z.testbit l 4).
Qed.

(** kprintn writes within its buffer and prints the number, for every width, base and
    combination of flags. *)
Lemma kprintn_run ul b lflag width : 8 ≤ b ≤ 16 → 0 ≤ ul < 2 ^ 64 → emits (kprintn put ul b lflag width) (number_text b lflag width ul) tt.
Proof.
  intros Hb Hul. pose proof (numeral_length b ul ltac:(lia) Hul) as Hlen. destruct (numeral_value b ul ltac:(lia) Hul) as (_ & _ & c & cs & Hcs & Hc).
  destruct (alt_prefix_room (flag lflag ALT) b ul ltac:(lia) Hul) as [Hroom Hac]. rewrite length_app in Hroom.
  unfold kprintn. eapply emits_pure; [apply push_digits_run; [done..| |lia|rewrite app_nil_r; lia]|].
  { pose proof (Z.pow_le_mono_l 2 b 65 ltac:(lia)). change (Z.of_nat 65) with 65. lia. }
  rewrite app_nil_r. cbn zeta. unfold number_text. pose proof (digit_char_range b ul ltac:(lia) Hul) as Hch. set (ds := numeral b ul) in *. clearbody ds.
  eapply (emits_pure _ _ _ (alt_prefix (flag lflag ALT) b ul ++ ds)).
  { unfold alt_prefix. replace (hd 0 ds =? 48) with (ul =? 0) by (rewrite Hcs; cbn [hd]; apply eq_true_iff_eq;
      rewrite !Z.eqb_eq; tauto). destruct (flag lflag ALT && negb (ul =? 0)); [|apply emits_ret].
    destruct (b =? 8); [apply emits_push; lia|]. destruct (b =? 16); [|apply emits_ret].
    eapply emits_pure; [apply emits_push; lia|apply emits_push; cbn; lia]. }
  clear Hlen Hcs Hc. set (alt := alt_prefix (flag lflag ALT) b ul) in *. clearbody alt. apply (emits_pure _ _ _ ((sign_text lflag ++ alt) ++ ds)).
  { unfold sign_text. assert (length (alt ++ ds) < 24)%nat by (rewrite length_app; lia).
    destruct (flag lflag NEGATIVE); [by apply emits_push|]. destruct (flag lflag SIGN); [by apply emits_push|].
    destruct (flag lflag SPACE); [by apply emits_push|apply emits_ret]. }
  assert (Forall char (sign_text lflag ++ alt)) as Hpc.
  { apply Forall_app. split; [|done]. unfold sign_text.
    destruct (flag lflag NEGATIVE), (flag lflag SIGN), (flag lflag SPACE); repeat constructor; unfold char; lia. }
  set (pre := sign_text lflag ++ alt) in *. clearbody pre. cbn zeta. unfold padded, LPAD, LZERO, RPAD.
  destruct (flag_pads lflag) as [-> ->]. set (gap := Z.to_nat (width - length (pre ++ ds))).
  replace (length (pre ++ ds) - length ds)%nat with (length pre) by (rewrite length_app; lia).
  assert (∀ l, Forall char l → emits (pop put (length l) l) l []) as Hpop by (intros l Hl';
    pose proof (emits_pop l Hl' (length l)) as E; by rewrite take_ge, drop_ge in E).
  assert (emits (pop put (length pre) (pre ++ ds)) pre ds) as Hpre
    by (pose proof (emits_pop (pre ++ ds) ltac:(by apply Forall_app) (length pre)) as E;
    by rewrite take_app_length, drop_app_length in E).
  destruct (flag lflag LADJUST), (flag lflag ZEROPAD); cbn [negb andb].
  - eapply emits_bind; [exact Hpre|]. do 2 (eapply emits_pure; [apply emits_ret|]).
    eapply emits_bind; [by apply Hpop|]. eapply emits_last; [apply emits_pad; lia|apply emits_ret].
  - do 3 (eapply emits_pure; [apply emits_ret|]). rewrite app_assoc.
    eapply emits_bind; [apply Hpop; by apply Forall_app|]. eapply emits_last; [apply emits_pad; lia|apply emits_ret].
  - eapply emits_bind; [exact Hpre|]. eapply emits_pure; [apply emits_ret|].
    eapply emits_bind; [apply emits_pad; lia|]. eapply emits_last; [by apply Hpop|].
    eapply emits_pure; apply emits_ret.
  - eapply emits_pure; [apply emits_ret|]. eapply emits_bind; [apply emits_pad; lia|].
    eapply emits_pure; [apply emits_ret|]. eapply emits_last; [apply Hpop; by apply Forall_app|].
    eapply emits_pure; apply emits_ret.
Qed.

(** ** Strings and characters *)

Lemma kept_str_at p l : kept p (l ++ [0]) → 0 ∉ l → ∀ m, (∀ x, src x → m !! x = m0 !! x) → str_at m p l.
Proof. intros [Hb Hs] H0 m Hm. split; [|done]. apply (bytes_at_other m0); [|done]. intros x Hx. by apply Hm, Hs. Qed.

Lemma put_str_run l : ∀ fuel p, kept p (l ++ [0]) → 0 ∉ l → Forall char l → (length l < fuel)%nat → emits (put_str put fuel p) l tt.
Proof.
  induction l as [|c l IH]; intros [|fuel] p Hk H0 Hc Hf; cbn in Hf; try lia; cbn [app] in Hk;
    apply kept_cons in Hk as (Hs & Hv & Hk); cbn [put_str]; (eapply emits_pure; [by apply emits_ldb|]).
  - apply emits_ret.
  - apply not_elem_of_cons in H0 as [Hc0 H0]. apply Forall_cons in Hc as [Hcc Hc].
    rewrite (proj2 (Z.eqb_neq c 0)) by done. cbn [negb].
    exact (emits_bind _ _ [c] l _ _ (emits_put c Hcc) (IH fuel (p + 1) Hk H0 Hc ltac:(lia))).
Qed.

Lemma put_prec_run l : ∀ fuel p prec, 0 ≤ prec → kept p (l ++ [0]) → 0 ∉ l → Forall char l → (length l < fuel)%nat →
    emits (put_prec put fuel p prec) (take (Z.to_nat prec) l) tt.
Proof.
  induction l as [|c l IH]; intros [|fuel] p prec Hp Hk H0 Hc Hf; cbn in Hf; try lia; cbn [app] in Hk;
    apply kept_cons in Hk as (Hs & Hv & Hk); cbn [put_prec]; (eapply emits_pure; [by apply emits_ldb|]).
  - rewrite take_nil. apply emits_ret.
  - apply not_elem_of_cons in H0 as [Hc0 H0]. apply Forall_cons in Hc as [Hcc Hc].
    rewrite (proj2 (Z.eqb_neq c 0)) by done. cbn [negb andb]. destruct (Z.leb_spec 0 (prec - 1)).
    + replace (Z.to_nat prec) with (S (Z.to_nat (prec - 1))) by lia.
      exact (emits_bind _ _ [c] _ _ _ (emits_put c Hcc) (IH fuel (p + 1) (prec - 1) ltac:(lia) Hk H0 Hc ltac:(lia))).
    + replace (Z.to_nat prec) with O by lia. apply emits_ret.
Qed.

(** Text in at least [width] columns; a zero flag turns the padding off. *)
Definition spaced (left zero : bool) (gap : Z) (body : list Z) : list Z :=
  if left then body ++ replicate (Z.to_nat gap) 32 else if zero then body else replicate (Z.to_nat gap) 32 ++ body.

Lemma spaced_run {B} lflag gap body c (b : B) : emits c body tt →
    emits (width ← LPAD put lflag gap; c;; RPAD put lflag width;;
    mret b) (spaced (flag lflag LADJUST) (flag lflag ZEROPAD) gap body) b.
Proof.
  intros Hc. unfold spaced, LPAD, RPAD. destruct (flag_pads lflag) as [-> _]. destruct (flag lflag LADJUST), (flag lflag ZEROPAD); cbn [negb andb].
  1, 2: eapply emits_pure; [apply emits_ret|]; eapply emits_bind; [exact Hc|]; eapply emits_last; [apply emits_pad; lia|apply emits_ret].
  - eapply emits_pure; [apply emits_ret|]. eapply emits_last; [exact Hc|]. eapply emits_pure; apply emits_ret.
  - eapply emits_bind; [apply emits_pad; lia|]. eapply emits_last; [exact Hc|]. eapply emits_pure; apply emits_ret.
Qed.

Lemma low_byte v : Z.land (s32 v) 0xFF = u8 v ∧ char (u8 v).
Proof.
  change 0xFF with (Z.ones 8). rewrite Z.land_ones by lia. unfold s32, u32, u8, char.
  split; [|apply Z.mod_pos_bound; lia]. destruct (_ <? _); Z.div_mod_to_equations; lia.
Qed.

Lemma put_char_run lflag width v ap : emits (put_char put lflag width (v :: ap)) (spaced (flag lflag LADJUST) (flag lflag ZEROPAD) (width - 1) [u8 v]) ap.
Proof. eapply emits_pure; [apply emits_ret|]. destruct (low_byte v) as [-> Hc]. cbn beta iota zeta. by apply spaced_run, emits_put. Qed.

Definition prec_text (prec : Z) (l : list Z) : list Z := if prec =? 0 then l else take (Z.to_nat prec) l.

Lemma put_string_run lflag width prec p l ap : p ≠ 0 → kept p (l ++ [0]) → 0 ∉ l → Forall char l → 0 ≤ prec → 0 ≤ width < 2 ^ 31 → length l < 2 ^ 31 →
  emits (put_string put lflag width prec (p :: ap)) (spaced (flag lflag LADJUST) (flag lflag ZEROPAD) (width - length l) (prec_text prec l)) ap.
Proof.
  intros Hp Hk H0 Hc Hpr Hw Hl. eapply emits_pure; [apply emits_ret|]. cbn beta iota zeta. rewrite (proj2 (Z.eqb_neq p 0)) by done. eapply emits_pure.
  { apply emits_read. intros m Hm. apply strlen_run, kept_str_at; [exact Hk|done..]. }
  assert (s32 (width - length l) = width - length l) as -> by (unfold s32, u32; case_bool; Z.div_mod_to_equations;
    lia). apply spaced_run. apply (emits_fuel _ p (l ++ [0])); [done|]. intros fuel Hf. rewrite length_app in Hf.
  cbn [length] in Hf.
  unfold prec_text. destruct (Z.eqb_spec prec 0); cbn [negb]; [apply put_str_run; try done; lia|apply put_prec_run; try done; lia].
Qed.

Definition null_text : list Z := [123; 78; 85; 76; 76; 125].
Lemma put_null_run lflag width prec ap : emits (put_string put lflag width prec (0 :: ap)) null_text ap.
Proof. eapply emits_pure; [apply emits_ret|]. cbn beta iota zeta. repeat (eapply (emits_bind _ _ [_]); [apply emits_put; lia|]). apply emits_ret. Qed.

(** ** Integers *)

Definition wide_arg (lflag : Z) : bool := flag lflag LLONG || flag lflag LONG.

Lemma KPRINT_run b lflag width v ap : 8 ≤ b ≤ 16 →
    emits (KPRINT put b lflag width (v :: ap)) (number_text b lflag width (if wide_arg lflag then u64 v else u32 v))
    ap.
Proof.
  intros Hb. eapply emits_pure; [apply emits_ret|]. cbn beta iota zeta. fold (wide_arg lflag). eapply emits_last; [apply kprintn_run; [done|]|apply emits_ret].
  destruct (wide_arg lflag); unfold u64, u32; [apply Z.mod_pos_bound; lia|]. pose proof (Z.mod_pos_bound v (2 ^ 32)). lia.
Qed.

Lemma put_signed_run lflag width v ap : let n := if wide_arg lflag then s64 v else s32 v in n ≠ - 2 ^ 63 →
  emits (put_signed put lflag width (v :: ap)) (number_text 10 (if n <? 0 then Z.lor lflag NEGATIVE else lflag) width (Z.abs n)) ap.
Proof.
  intros n Hn. assert (- 2 ^ 63 ≤ n < 2 ^ 63) as Hr.
  { unfold n. destruct (wide_arg lflag); unfold s64, s32, u64, u32; case_bool; Z.div_mod_to_equations; lia. }
  eapply emits_pure; [apply emits_ret|]. cbn beta iota zeta. fold (wide_arg lflag). fold n. eapply emits_last; [|apply emits_ret]. destruct (Z.ltb_spec n 0).
  - rewrite (proj2 (Z.eqb_neq n _)) by done. rewrite Z.abs_neq by lia. apply kprintn_run; lia.
  - rewrite Z.abs_eq by lia. apply kprintn_run; lia.
Qed.
End emits.
