(* ===== verification/PrintfFormat.v ===== *)
(** A format with its arguments prints what its conversions say, in the order they come
    in (kdoprnt of libec/subr_prf.c). *)

From S2P Require Import Prelude Words Mem MemTheorems Str StrTheorems Num NumTheorems Printf PrintfTheorems.

(** * Formats *)

(** A conversion: the characters of its flags, the digits of its width and of its
    precision, its length modifier and the character that ends it. *)
Record conv := { cv_flags : list Z; cv_width : list Z; cv_prec : option (list Z); cv_len : list Z; cv_char : Z }.

Inductive directive :=
| Literal (c : Z)
| Percent
| Conv (c : conv).

Definition conv_text (c : conv) : list Z :=
  cv_flags c ++ cv_width c ++ match cv_prec c with Some ds => 46 :: ds | None => [] end ++ cv_len c ++ [cv_char c].
Definition dir_text (d : directive) : list Z :=
  match d with
  | Literal c => [c]
  | Percent => [37; 37]
  | Conv c => 37 :: conv_text c
  end.

(** The bit of a flag character, and of a length modifier. *)
Definition flag_bit (c : Z) : Z := if c =? 35 then ALT else if c =? 32 then SPACE else if c =? 45 then LADJUST else if c =? 43 then SIGN else ZEROPAD.
Definition len_bit (l : list Z) : Z := if decide (l = []) then 0 else if decide (l = [108; 108] ∨ l = [106]) then LLONG else LONG.
Definition flags_from : Z → list Z → Z := foldl (λ l c, Z.lor l (flag_bit c)).
Definition conv_flags (c : conv) : Z := Z.lor (flags_from 0 (cv_flags c)) (len_bit (cv_len c)).
Definition conv_width (c : conv) : Z := num_of 10 (cv_width c).
Definition conv_prec (c : conv) : Z := match cv_prec c with Some ds => num_of 10 ds | None => 0 end.

Definition int_digits (ds : list Z) : Prop := Forall (digit_in 10) ds ∧ num_of 10 ds < 2 ^ 31.

Definition wf_conv (c : conv) : Prop :=
  Forall (λ x, x ∈ [35; 32; 45; 43; 48]) (cv_flags c) ∧
  int_digits (cv_width c) ∧ head (cv_width c) ≠ Some 48 ∧
  (∀ ds, cv_prec c = Some ds → int_digits ds) ∧
  cv_len c ∈ [[]; [108]; [108; 108]; [106]; [116]; [122]] ∧
  cv_char c ∈ [99; 115; 100; 111; 117; 112; 88; 120].

(** * What a conversion prints *)

Notation has c x := (bool_decide (x ∈ cv_flags c)).

(** The sign, the prefix and the digits of a number, padded on the side and with the
    character the flags say. *)
Definition number (c : conv) (b : Z) (neg alt : bool) (n : Z) : list Z :=
  padded (has c 45) (has c 48) (conv_width c) ((if neg then [45] else if has c 43 then [43] else if has
    c 32 then [32] else []) ++ alt_prefix alt b n) (numeral b n).

(** The integer of an argument: a [long] with a length modifier, else an [int]. *)
Definition arg_unsigned (wide : bool) (v : Z) : Z := if wide then u64 v else u32 v.
Definition arg_signed (wide : bool) (v : Z) : Z := if wide then s64 v else s32 v.
Notation long c := (negb (bool_decide (cv_len c = []))).

(** [renders d ap out ap']: the directive prints [out] for the first of the arguments
    [ap] and leaves [ap']. A string that [str] gives for an address is that of a [%s]. *)
Inductive renders (str : Z → list Z → Prop) : directive → list Z → list Z → list Z → Prop :=
| renders_literal c ap : c ≠ 37 → c ≠ 0 → char c → renders str (Literal c) ap [c] ap
| renders_percent ap : renders str Percent ap [37] ap
| renders_unsigned c b v ap : wf_conv c → (cv_char c, b) ∈ [(111, 8); (117, 10); (120, 16); (88, 16)] →
    renders str (Conv c) (v :: ap) (number c b false (has c 35) (arg_unsigned (long c) v)) ap
| renders_pointer c v ap : wf_conv c → cv_char c = 112 → renders str (Conv c) (v :: ap) (number c 16 false true (u64 v)) ap
| renders_signed c v ap : wf_conv c → cv_char c = 100 → arg_signed (long c) v ≠ - 2 ^ 63 →
    renders str (Conv c) (v :: ap) (number c 10 (arg_signed (long c) v <? 0) false (Z.abs (arg_signed (long c) v))) ap
| renders_char c v ap : wf_conv c → cv_char c = 99 → renders str (Conv c) (v :: ap) (spaced (has c 45) (has c 48) (conv_width c - 1) [u8 v]) ap
| renders_string c p l ap : wf_conv c → cv_char c = 115 → p ≠ 0 → str p l → 0 ∉ l → Forall char l → length l < 2 ^ 31 →
    renders str (Conv c) (p :: ap) (spaced (has c 45) (has c 48) (conv_width c - length l) (prec_text (conv_prec c) l)) ap
| renders_null c ap : wf_conv c → cv_char c = 115 → renders str (Conv c) (0 :: ap) null_text ap.

Inductive prints (str : Z → list Z → Prop) : list directive → list Z → list Z → Prop :=
| prints_nil ap : prints str [] ap []
| prints_cons d ds ap out ap' out' : renders str d ap out ap' → prints str ds ap' out' → prints str (d :: ds) ap (out ++ out').

(** * The flags *)

Lemma flag_testbit l k : 0 ≤ k → flag l (Z.shiftl 1 k) = Z.testbit l k.
Proof. intros Hk. unfold flag. rewrite land_bit by done. destruct (Z.testbit l k); [|done].
  apply negb_true_iff, Z.eqb_neq. rewrite Z.shiftl_1_l. pose proof (Z.pow_pos_nonneg 2 k). lia. Qed.

Lemma flags_from_bit ch k fl : 0 ≤ k → (∀ c, c ∈ [35; 32; 45; 43; 48] → Z.testbit (flag_bit c) k = (c =? ch)) → Forall (λ x, x ∈ [35; 32; 45; 43; 48]) fl →
  ∀ l, Z.testbit (flags_from l fl) k = Z.testbit l k || bool_decide (ch ∈ fl).
Proof.
  intros Hk Hb. induction 1 as [|c fl Hc _ IH]; intros l; [by rewrite bool_decide_false, orb_false_r by set_solver|].
  unfold flags_from in *. cbn [foldl]. rewrite IH, Z.lor_spec, Hb by done. rewrite <- orb_assoc. f_equal.
  apply eq_true_iff_eq. rewrite orb_true_iff, Z.eqb_eq, !bool_decide_eq_true. set_solver.
Qed.

Lemma flag_bit_table : ∀ ch k, (ch, k) ∈ [(35, 2); (32, 3); (45, 4); (43, 5); (48, 6)] → ∀ c, c ∈ [35; 32; 45; 43; 48] → Z.testbit (flag_bit c) k = (c =? ch).
Proof.
  assert (Forall (λ p, Forall (λ c, Z.testbit (flag_bit c) p.2 = (c =? p.1)) [35; 32; 45; 43; 48]) [(35, 2); (32, 3);
    (45, 4); (43, 5); (48, 6)]) as Hall by (apply (bool_decide_unpack _); vm_compute; exact I).
  intros ch k Hp c Hc. rewrite Forall_forall in Hall. specialize (Hall _ Hp). rewrite Forall_forall in Hall. exact (Hall c Hc).
Qed.

Lemma len_bit_table ln k : ln ∈ [[]; [108]; [108; 108]; [106]; [116]; [122]] → 2 ≤ k → Z.testbit (len_bit ln) k = false.
Proof. intros Hl Hk. apply (testbit_above _ 2); [|done].
  repeat (apply elem_of_cons in Hl as [->|Hl]); [vm_compute; split; congruence..|by apply not_elem_of_nil in Hl]. Qed.

(** Each flag is set exactly when its character is among those of the conversion. *)
Lemma conv_flag c ch k : wf_conv c → (ch, k) ∈ [(35, 2); (32, 3); (45, 4); (43, 5); (48, 6)] → flag (conv_flags c) (Z.shiftl 1 k) = has c ch.
Proof.
  intros (Hfl & _ & _ & _ & Hln & _) Hp. assert (2 ≤ k) as Hk by (repeat (apply elem_of_cons in Hp as [[= -> ->]|Hp]); [lia..|by apply not_elem_of_nil in Hp]).
  unfold conv_flags. rewrite flag_testbit, Z.lor_spec, (len_bit_table _ k Hln), orb_false_r by lia.
  rewrite (flags_from_bit ch k); [by rewrite Z.bits_0|lia|by apply flag_bit_table|done].
Qed.

Lemma flags_from_low k fl : 0 ≤ k < 2 → ∀ l, Z.testbit (flags_from l fl) k = Z.testbit l k.
Proof.
  intros Hk. induction fl as [|c fl IH]; intros l; [done|]. unfold flags_from in *. cbn [foldl].
  rewrite IH, Z.lor_spec. assert (k = 0 ∨ k = 1) as [-> | ->] by lia; unfold flag_bit; repeat case_bool;
    apply orb_false_r.
Qed.

Lemma conv_pads c : wf_conv c → flag (conv_flags c) LADJUST = has c 45 ∧ flag (conv_flags c) ZEROPAD = has c 48.
Proof. intros Hc. split; [apply (conv_flag c 45 4)|apply (conv_flag c 48 6)]; (done || apply (bool_decide_unpack _); vm_compute; exact I). Qed.

Lemma num_of_pos b ds : 0 < b → Forall (digit_in b) ds → 0 ≤ num_of b ds.
Proof. intros Hb Hd. by apply num_from_ge. Qed.

Lemma conv_ints c : wf_conv c → 0 ≤ conv_width c < 2 ^ 31 ∧ 0 ≤ conv_prec c.
Proof.
  intros (_ & [Hd Hw] & _ & Hp & _). unfold conv_width, conv_prec. split; [split; [by apply num_of_pos|done]|].
  destruct (cv_prec c) as [ds|]; [|done]. destruct (Hp ds eq_refl) as [Hpd _]. by apply num_of_pos.
Qed.

Lemma conv_wide c : wf_conv c → wide_arg (conv_flags c) = long c.
Proof.
  intros (_ & _ & _ & _ & Hln & _). unfold wide_arg, conv_flags. change LLONG with (Z.shiftl 1 1).
  change LONG with (Z.shiftl 1 0). rewrite !flag_testbit, !Z.lor_spec, !flags_from_low, !Z.bits_0 by lia.
  repeat (apply elem_of_cons in Hln as [->|Hln]); [done..|by apply not_elem_of_nil in Hln].
Qed.

Lemma conv_positive c : wf_conv c → flag (conv_flags c) NEGATIVE = false.
Proof.
  intros (Hfl & _ & _ & _ & Hln & _). unfold conv_flags. change NEGATIVE with (Z.shiftl 1 7).
  rewrite flag_testbit, Z.lor_spec, (len_bit_table _ 7 Hln), orb_false_r by lia.
  rewrite (flags_from_bit (-1) 7);
    [by rewrite Z.bits_0, bool_decide_false by (intros Hin; rewrite Forall_forall in Hfl; apply Hfl in Hin;
    set_solver by lia)|lia| |done].
  intros x Hx. repeat (apply elem_of_cons in Hx as [->|Hx]); [done..|by apply not_elem_of_nil in Hx].
Qed.

(** The text of a number with the flags of a conversion, and those kdoprnt adds. *)
Lemma number_text_conv c b n : wf_conv c → number_text b (conv_flags c) (conv_width c) n = number c b false (has c 35) n.
Proof.
  intros Hc. unfold number_text, number, sign_text. rewrite conv_positive by done.
  by rewrite <- (conv_flag c 45 4), <- (conv_flag c 48 6), <- (conv_flag c 43 5), <- (conv_flag c 32 3),
    <- (conv_flag c 35 2) by (done || apply (bool_decide_unpack _); vm_compute; exact I).
Qed.

Lemma flag_lor l k f : 0 ≤ k → flag (Z.lor l f) (Z.shiftl 1 k) = flag l (Z.shiftl 1 k) || Z.testbit f k.
Proof. intros Hk. by rewrite !flag_testbit, Z.lor_spec by done. Qed.

(** The bits that [f] adds leave the other flags alone. *)
Lemma flag_other l f k : 0 ≤ k → Z.testbit f k = false → flag (Z.lor l f) (Z.shiftl 1 k) = flag l (Z.shiftl 1 k).
Proof. intros Hk Hf. by rewrite flag_lor, Hf, orb_false_r by done. Qed.

Lemma alt_prefix_10 alt n : alt_prefix alt 10 n = [].
Proof. unfold alt_prefix. by destruct (_ && _). Qed.

Lemma number_text_signed c n : wf_conv c →
    number_text 10 (if n <? 0 then Z.lor (conv_flags c) NEGATIVE else conv_flags c) (conv_width c) (Z.abs n) = number
    c 10 (n <? 0) false (Z.abs n).
Proof.
  intros Hc. destruct (n <? 0); [|rewrite number_text_conv by done; unfold number; by rewrite !alt_prefix_10].
  unfold number_text, number, sign_text. rewrite !alt_prefix_10.
  rewrite (flag_other _ NEGATIVE 4), (flag_other _ NEGATIVE 6), (flag_lor _ 7), (conv_flag c 45 4),
    (conv_flag c 48 6) by (done || apply (bool_decide_unpack _); vm_compute; exact I). by rewrite orb_true_r.
Qed.

Lemma number_text_pointer c n : wf_conv c →
    number_text 16 (Z.lor (conv_flags c) (Z.lor LONG ALT)) (conv_width c) n = number c 16 false true n ∧
    wide_arg (Z.lor (conv_flags c) (Z.lor LONG ALT)) = true.
Proof.
  intros Hc. set (f := Z.lor LONG ALT). split.
  - unfold number_text, number, sign_text.
    rewrite (flag_other _ f 4), (flag_other _ f 6), (flag_other _ f 7), (flag_other _ f 5), (flag_other _ f 3),
      (flag_lor _ 2) by done. change (flag (conv_flags c) (Z.shiftl 1 7)) with (flag (conv_flags c) NEGATIVE).
    rewrite (conv_positive c Hc).
    rewrite (conv_flag c 45 4), (conv_flag c 48 6), (conv_flag c 43 5), (conv_flag c 32 3)
      by (done || apply (bool_decide_unpack _); vm_compute; exact I). by rewrite orb_true_r.
  - unfold wide_arg. change LONG with (Z.shiftl 1 0). rewrite (flag_lor _ 0) by done. by rewrite !orb_true_r.
Qed.

Section format.

Context (put : Z → M prs unit) (emitted : list Z → prs → Prop) (src : Z → Prop) (m0 : bytes) `{P : !Putter put emitted src m0}.
Notation emits := (emits emitted).
Notation kept := (kept src m0).

(** The rest of the format prints [out], between conversions and inside of one. *)
Definition outside (text ap out : list Z) : Prop := ∀ fuel fmt, (length text < fuel)%nat → kept fmt text → emits (kdoprnt_loop put fuel None fmt ap) out tt.
Definition inside (lflag width prec : Z) (text ap out : list Z) : Prop :=
  ∀ fuel fmt, (length text < fuel)%nat → kept fmt text → emits (kdoprnt_loop put fuel (Some (lflag, width, prec)) fmt ap) out tt.

Ltac step := intros [|fuel] fmt Hf Hk; cbn in Hf; [lia|]; cbn [app] in Hk;
    apply kept_cons in Hk as (Hsrc & Hval & Hk); cbn [kdoprnt_loop];
    (eapply emits_pure; [by apply (emits_ldb put emitted src m0)|]);
  lazy beta iota zeta delta [Z.eqb Pos.eqb Z.leb Z.compare Pos.compare Pos.compare_cont andb orb].

Lemma outside_end rest ap : outside (0 :: rest) ap [].
Proof. step. apply emits_ret. Qed.

Lemma outside_literal c text ap out : c ≠ 37 → c ≠ 0 → char c → outside text ap out → outside (c :: text) ap (c :: out).
Proof.
  intros H37 H0 Hc Ht [|fuel] fmt Hf Hk; cbn in Hf; [lia|]. apply kept_cons in Hk as (Hs & Hv & Hk).
  cbn [kdoprnt_loop]. eapply emits_pure; [by apply (emits_ldb put emitted src m0)|]. cbn zeta.
  rewrite (proj2 (Z.eqb_neq c 37)), (proj2 (Z.eqb_neq c 0)) by done.
  eapply (emits_bind _ _ _ [c]); [by apply (emits_put put emitted src m0)|]. apply Ht; [lia|done].
Qed.

Lemma outside_percent text ap out : inside 0 0 0 text ap out → outside (37 :: text) ap out.
Proof. intros Ht. step. apply Ht; [lia|done]. Qed.

Lemma inside_flag c l w p text ap out : c ∈ [35; 32; 45; 43; 48] → inside (Z.lor l (flag_bit c)) w p text ap out → inside l w p (c :: text) ap out.
Proof.
  intros Hc Ht. repeat (apply elem_of_cons in Hc as [->|Hc]); [..|by apply not_elem_of_nil in Hc]; step; (apply Ht; [lia|done]).
Qed.

Lemma inside_flags fl : ∀ l w p text ap out, Forall (λ x, x ∈ [35; 32; 45; 43; 48]) fl →
    inside (flags_from l fl) w p text ap out → inside l w p (fl ++ text) ap out.
Proof.
  induction fl as [|c fl IH]; intros l w p text ap out Hfl Ht; [done|]. apply Forall_cons in Hfl as [Hc Hfl]. apply (inside_flag c); [done|]. by apply IH.
Qed.

Lemma inside_percent l w p text ap out : outside text ap out → inside l w p (37 :: text) ap (37 :: out).
Proof. intros Ht. step. eapply (emits_bind _ _ _ [37]); [apply (emits_put put emitted src m0); lia|]. apply Ht; [lia|done]. Qed.
Lemma digit_in_10 c : digit_in 10 c ↔ 48 ≤ c ≤ 57.
Proof.
  split; [intros (i & Hi & Hl); unfold digit_of in Hi; repeat case_bool; simplify_eq; lia|]. intros Hc.
  exists (c - 48). unfold digit_of. rewrite (proj2 (Z.leb_le 48 c)), (proj2 (Z.leb_le c 57)) by lia.
  split; [done|lia].
Qed.

Lemma scan_int_run e rest ds : ∀ fuel fmt acc, kept fmt (ds ++ e :: rest) → Forall (digit_in 10) ds →
    ¬ digit_in 10 e → 0 ≤ acc → num_from 10 acc ds < 2 ^ 31 → (length ds < fuel)%nat →
  emits (scan_int fuel fmt acc) [] (num_from 10 acc ds, fmt + length ds).
Proof.
  induction ds as [|c ds IH]; intros [|fuel] fmt acc Hk Hd He Ha Hv Hf; cbn in Hf; try lia; cbn [app] in Hk;
    apply kept_cons in Hk as (Hs & Hm & Hk); cbn [scan_int];
    (eapply emits_pure; [by apply (emits_ldb put emitted src m0)|]).
  - rewrite digit_in_10 in He.
    replace ((48 <=? e) && (e <=? 57)) with false by (symmetry; apply andb_false_iff; rewrite !Z.leb_gt; lia).
    cbn [length]. rewrite Z.add_0_r. apply emits_ret.
  - apply Forall_cons in Hd as [Hc Hd].
    assert (digit_of c = Some (c - 48)) as Hdc by (apply digit_in_10 in Hc; unfold digit_of;
      by rewrite (proj2 (Z.leb_le 48 c)), (proj2 (Z.leb_le c 57)) by lia). apply digit_in_10 in Hc.
    rewrite (num_from_cons _ _ _ _ _ Hdc) in Hv |- *.
    pose proof (num_from_ge 10 ds (acc * 10 + (c - 48)) ltac:(lia) ltac:(lia) Hd).
    rewrite (proj2 (Z.leb_le 48 c)), (proj2 (Z.leb_le c 57)) by lia. cbn [andb].
    eapply emits_pure; [unfold int; rewrite (proj2 (Z.leb_le _ _)), (proj2 (Z.ltb_lt _ _)) by lia; apply emits_ret|].
    replace (fmt + length (c :: ds)) with (fmt + 1 + length ds) by (cbn [length]; lia). apply IH; try done; lia.
Qed.

Lemma inside_width l p ds e rest ap out : int_digits ds → head ds ≠ Some 48 → ¬ digit_in 10 e →
    inside l (num_of 10 ds) p (e :: rest) ap out → inside l 0 p (ds ++ e :: rest) ap out.
Proof.
  intros [Hd Hv] Hh He Ht. destruct ds as [|c ds]; [done|]. pose proof (Forall_inv Hd) as Hc. apply Forall_cons in Hd as [_ Hd]. apply digit_in_10 in Hc.
  assert (c ≠ 48) by (intros ->; done).
  assert (digit_of c = Some (c - 48)) as Hdc by (unfold digit_of;
    by rewrite (proj2 (Z.leb_le 48 c)), (proj2 (Z.leb_le c 57)) by lia).
  rewrite (num_from_cons _ _ _ _ _ Hdc) in Hv, Ht. intros [|fuel] fmt Hf Hk; cbn in Hf; [lia|]. cbn [app] in Hk.
  apply kept_cons in Hk as (Hs & Hm & Hk). rewrite length_app in Hf. cbn [length] in Hf.
  cbn [kdoprnt_loop]. eapply emits_pure; [by apply (emits_ldb put emitted src m0)|]. cbn beta iota zeta.
  do 5 rewrite (proj2 (Z.eqb_neq c _)) by lia. rewrite (proj2 (Z.leb_le 49 c)), (proj2 (Z.leb_le c 57)) by lia. cbn [andb].
  pose proof (num_from_ge 10 ds (0 * 10 + (c - 48)) ltac:(lia) ltac:(lia) Hd).
  eapply emits_pure; [unfold int; rewrite (proj2 (Z.leb_le _ _)), (proj2 (Z.ltb_lt _ _)) by lia; apply emits_ret|].
  eapply emits_pure; [apply (scan_int_run e rest ds); try done; lia|]. cbn beta iota zeta. apply Ht; [cbn; lia|]. by apply kept_app in Hk as [_ Hk].
Qed.

Lemma inside_prec l w ds e rest ap out : int_digits ds → ¬ digit_in 10 e →
    inside l w (num_of 10 ds) (e :: rest) ap out → inside l w 0 (46 :: ds ++ e :: rest) ap out.
Proof.
  intros [Hd Hv] He Ht. step. rewrite length_app in Hf. cbn [length] in Hf.
  eapply emits_pure; [apply (scan_int_run e rest ds); try done; lia|]. cbn beta iota zeta. apply Ht; [cbn; lia|].
  by apply kept_app in Hk as [_ Hk].
Qed.

Lemma inside_len ln l w p e rest ap out : ln ∈ [[]; [108]; [108; 108]; [106]; [116]; [122]] → e ≠ 108 →
    inside (Z.lor l (len_bit ln)) w p (e :: rest) ap out → inside l w p (ln ++ e :: rest) ap out.
Proof.
  intros Hl He Ht. repeat (apply elem_of_cons in Hl as [->|Hl]); [..|by apply not_elem_of_nil in Hl].
  - change (len_bit []) with 0 in Ht. by rewrite Z.lor_0_r in Ht.
  - step. pose proof Hk as Hk'. apply kept_cons in Hk' as (Hs1 & Hv1 & _).
    eapply emits_pure; [by apply (emits_ldb put emitted src m0)|].
    match goal with |- emits (if _ then ?a else ?b) ?o ?r => change (emits (if e =? 108 then a else b) o r) end.
    rewrite (proj2 (Z.eqb_neq e 108)) by done. apply Ht; [cbn; lia|done].
  - step. apply kept_cons in Hk as (Hs1 & Hv1 & Hk). eapply emits_pure; [by apply (emits_ldb put emitted src m0)|].
    lazy beta iota delta [Pos.eqb]. apply Ht; [cbn; lia|done].
  - step. apply Ht; [cbn; lia|done].
  - step. apply Ht; [cbn; lia|done].
  - step. apply Ht; [cbn; lia|done].
Qed.
Lemma inside_conv ch l w p text ap ap' o1 o2 (next : M prs (list Z)) : emits next o1 ap' → outside text ap' o2 →
  (∀ fuel fmt, src fmt → m0 !! fmt = Some ch →
    emits (ap ← next; kdoprnt_loop put fuel None (fmt + 1) ap) (o1 ++ o2) tt →
    emits (kdoprnt_loop put (S fuel) (Some (l, w, p)) fmt ap) (o1 ++ o2) tt) →
  inside l w p (ch :: text) ap (o1 ++ o2).
Proof.
  intros Hn Ht Hstep [|fuel] fmt Hf Hk; cbn in Hf; [lia|]. apply kept_cons in Hk as (Hsrc & Hval & Hk).
  apply Hstep; [done..|]. eapply emits_bind; [exact Hn|]. apply Ht; [lia|done].
Qed.

Ltac dispatch := intros fuel fmt Hsrc Hval; cbn [kdoprnt_loop]; intros Hnext; (eapply emits_pure; [by apply (emits_ldb put emitted src m0)|]);
  lazy beta iota zeta delta [Z.eqb Pos.eqb Z.leb Z.compare Pos.compare Pos.compare_cont andb orb]; exact Hnext.

(** What the character that ends a conversion does. *)
Lemma conv_char_run c text ap ap' o1 o2 : renders (λ p l, kept p (l ++ [0])) (Conv c) ap o1 ap' →
    outside text ap' o2 → inside (conv_flags c) (conv_width c) (conv_prec c) (cv_char c :: text) ap (o1 ++ o2).
Proof.
  intros Hr Ht. inversion Hr
    as [| |c' b v ap1 Hwf Hcb|c' v ap1 Hwf Hcv|c' v ap1 Hwf Hcv Hn|c' v ap1 Hwf Hcv|c' q l ap1 Hwf Hcv Hq Hl H0 Hch
    Hll|c' ap1 Hwf Hcv]; subst; clear Hr.
  - pose proof (KPRINT_run put emitted src m0 b (conv_flags c) (conv_width c) v ap') as Hk.
    rewrite (conv_wide c Hwf), number_text_conv in Hk by done. fold (arg_unsigned (long c) v) in Hk.
    repeat (apply elem_of_cons in Hcb as [[= Hcv ->]|Hcb]); [..|by apply not_elem_of_nil in Hcb]; rewrite Hcv;
      (eapply inside_conv; [apply Hk; lia|exact Ht|dispatch]).
  - destruct (number_text_pointer c (u64 v) Hwf) as [Hnt Hw].
    pose proof (KPRINT_run put emitted src m0 16 (Z.lor (conv_flags c) (Z.lor LONG ALT)) (conv_width c) v ap'
      ltac:(lia)) as Hk. rewrite Hw, Hnt in Hk.
    rewrite Hcv. eapply inside_conv; [exact Hk|exact Ht|dispatch].
  - pose proof (put_signed_run put emitted src m0 (conv_flags c) (conv_width c) v ap') as Hk. cbn zeta in Hk.
    rewrite (conv_wide c Hwf) in Hk. fold (arg_signed (long c) v) in Hk. rewrite number_text_signed in Hk by done.
    rewrite Hcv. eapply inside_conv; [by apply Hk|exact Ht|dispatch].
  - pose proof (put_char_run put emitted src m0 (conv_flags c) (conv_width c) v ap') as Hk. destruct (conv_pads c Hwf) as [Hpl Hpz]. rewrite Hpl, Hpz in Hk.
    rewrite Hcv. eapply inside_conv; [exact Hk|exact Ht|dispatch].
  - destruct (conv_pads c Hwf) as [Hpl Hpz], (conv_ints c Hwf) as [Hw Hp].
    pose proof (put_string_run put emitted src m0 (conv_flags c) (conv_width c) (conv_prec c) q l ap' Hq Hl H0 Hch Hp
      Hw Hll) as Hk.
    rewrite Hpl, Hpz in Hk. rewrite Hcv. eapply inside_conv; [exact Hk|exact Ht|dispatch].
  - rewrite Hcv. eapply inside_conv; [apply (put_null_run put emitted src m0)|exact Ht|dispatch].
Qed.

(** A conversion, from the percent sign on. *)
Lemma conv_text_head c text : wf_conv c →
  (∃ e r, match cv_prec c with Some ds => 46 :: ds | None => [] end ++ cv_len c ++ cv_char c :: text = e :: r ∧
    ¬ digit_in 10 e) ∧ (∃ e r, cv_len c ++ cv_char c :: text = e :: r ∧ ¬ digit_in 10 e) ∧ cv_char c ≠ 108.
Proof.
  intros (_ & _ & _ & _ & Hln & Hch). assert (¬ digit_in 10 (cv_char c) ∧ cv_char c ≠ 108) as [Hd Hc].
  { rewrite digit_in_10. repeat (apply elem_of_cons in Hch as [->|Hch]); [lia..|by apply not_elem_of_nil in Hch]. }
  assert (∃ e r, cv_len c ++ cv_char c :: text = e :: r ∧ ¬ digit_in 10 e) as Hlen.
  { repeat (apply elem_of_cons in Hln as [->|Hln]); [by eexists _, _|eexists _, _; split; [done|rewrite digit_in_10; lia]..|by apply not_elem_of_nil in Hln]. }
  split; [|done]. destruct (cv_prec c) as [ds|]; [|done]. eexists _, _. split; [done|rewrite digit_in_10; lia].
Qed.

Lemma conv_run c text ap ap' o1 o2 : renders (λ p l, kept p (l ++ [0])) (Conv c) ap o1 ap' → outside text ap' o2 →
    outside (37 :: conv_text c ++ text) ap (o1 ++ o2).
Proof.
  intros Hr Ht. assert (wf_conv c) as Hwf by (by inversion Hr).
  pose proof (conv_char_run c text ap ap' o1 o2 Hr Ht) as Hend.
  destruct (conv_text_head c text Hwf) as ((e1 & r1 & E1 & He1) & (e2 & r2 & E2 & He2) & H108).
  destruct Hwf as (Hfl & Hw & Hw0 & Hp & Hln & _). apply outside_percent. unfold conv_text. rewrite <- !app_assoc.
  cbn [app]. apply inside_flags; [done|]. rewrite E1. apply inside_width; [done..|]. rewrite <- E1. clear E1 He1.
  unfold conv_flags, conv_prec in Hend. destruct (cv_prec c) as [ds|]; cbn [app].
  - rewrite E2. apply inside_prec; [by apply Hp|done|]. rewrite <- E2. by apply inside_len.
  - by apply inside_len.
Qed.

(** A format of directives that print [out] for the arguments prints [out]. *)
Lemma format_run ds ap out rest : prints (λ p l, kept p (l ++ [0])) ds ap out → outside (concat (dir_text <$> ds) ++ 0 :: rest) ap out.
Proof.
  induction 1 as [ap|d ds ap o1 ap' o2 Hr _ IH]; [apply outside_end|]. cbn [fmap list_fmap concat]. rewrite <- app_assoc. destruct d as [c| |c].
  - inversion Hr; subst. by apply outside_literal.
  - inversion Hr; subst. by apply outside_percent, inside_percent.
  - by apply conv_run with ap'.
Qed.

Lemma kdoprnt_run fmt ds ap out : kept fmt (concat (dir_text <$> ds) ++ [0]) → prints (λ p l, kept p (l ++ [0])) ds ap out → emits (kdoprnt put fmt ap) out tt.
Proof. intros Hk Hp. apply (emits_fuel put emitted src m0 _ fmt (concat (dir_text <$> ds) ++ [0])); [done|].
  intros fuel Hf. by apply (format_run ds ap out []). Qed.
End format.
