(* ===== verification/Snprintf.v ===== *)
(** vsnprintf keeps to its buffer and terminates it (libec/subr_prf.c), and strtoul reads
    back the numbers it prints. *)

From S2P Require Import Prelude Words Mem MemTheorems Str StrTheorems Num NumTheorems Printf PrintfTheorems PrintfFormat.

Implicit Types m : bytes.

(** * The buffer *)

Section buffer.

Context (m0 : bytes) (buf sz : Z) (Hsz : 0 < sz) (Hbuf : mapped m0 buf sz).

(** The characters so far, as many as fit before the terminator. *)
Definition buffered (o : list Z) (s : prs) : Prop :=
  sbuf s = buf + Z.min (length o) (sz - 1) ∧ ebuf s = buf + sz - 1 ∧ wrote m0 buf (take (Z.to_nat (sz - 1)) o) (pr_mem s).

Lemma u8_char c : 0 ≤ c < 256 → u8 c = c.
Proof. intros Hc. apply Z.mod_small. lia. Qed.

#[export] Instance sputchar_putter : Putter sputchar buffered (λ x, ¬ buf ≤ x < buf + sz) m0.
Proof.
  split.
  - intros o s c Hc (Hsb & Heb & Hw). unfold sputchar. rewrite bind_gets. cbn [id]. rewrite u8_char by done.
    destruct (Z.ltb_spec (sbuf s) (ebuf s)) as [Hlt|Hge].
    + rewrite take_ge in Hw by lia. assert (is_Some (pr_mem s !! sbuf s)) as Hs.
      { rewrite (wrote_other _ _ _ _ _ Hw) by lia. replace (sbuf s) with (buf + (sbuf s - buf)) by lia. apply Hbuf. lia. }
      unfold pr_zoom. erewrite bind_Ret by (unfold zoom; rewrite (stb_run _ _ _ Hs); reflexivity). eexists.
      split; [done|]. unfold buffered. cbn. rewrite length_app. cbn [length]. split_and!; [lia|done|].
      rewrite take_ge by (rewrite length_app; cbn; lia). apply (wrote_app _ _ _ _ _ _ Hw).
      replace (buf + length o) with (sbuf s) by lia. apply wrote_cons, wrote_none.
    + exists s. split; [done|]. unfold buffered. rewrite length_app. cbn [length]. split_and!; [lia|done|]. by rewrite take_app_le by lia.
  - intros o s x (_ & _ & Hw) Hx. apply (wrote_other _ _ _ _ _ Hw). rewrite length_take. lia.
Qed.

End buffer.

(** The bytes [l] at [a] apart from the buffer. *)
Definition outside_of (buf sz : Z) m (a : Z) (l : list Z) : Prop := bytes_at m a l ∧ apart buf sz a (length l).

Lemma outside_of_kept buf sz m a l : outside_of buf sz m a l → kept (λ x, ¬ buf ≤ x < buf + sz) m a l.
Proof. intros [Hb Ha]. unfold apart in Ha. split; [done|]. intros x Hx. lia. Qed.

Lemma prints_mono (str str' : Z → list Z → Prop) ds ap out : (∀ p l, str p l → str' p l) → prints str ds ap out → prints str' ds ap out.
Proof. intros Hs. induction 1 as [|d ds ap o1 ap' o2 Hr _ IH]; [constructor|]. econstructor; [|exact IH]. inversion Hr; subst; econstructor; eauto. Qed.

(** vsnprintf with a buffer of at least one byte. *)
Lemma vsnprintf_run s buf sz fmt ds ap out : 0 < sz → mapped (pr_mem s) buf sz → outside_of buf sz (pr_mem s) fmt (concat (dir_text <$> ds) ++ [0]) →
  prints (λ p l, outside_of buf sz (pr_mem s) p (l ++ [0])) ds ap out →
  ∃ s', vsnprintf buf sz fmt ap s = Ret (Z.min (length out) (sz - 1), s') ∧ wrote (pr_mem s) buf (take (Z.to_nat (sz - 1)) out ++ [0]) (pr_mem s').
Proof.
  intros Hsz Hm Hfmt Hp. unfold vsnprintf. rewrite bind_modify. set (s0 := {| pr_mem := pr_mem s; sbuf := buf; ebuf := buf + sz - 1 |}).
  assert (buffered (pr_mem s) buf sz [] s0) as H0 by (unfold buffered; rewrite take_nil; cbn; split_and!; [lia|done|apply wrote_none]).
  destruct (kdoprnt_run sputchar _ _ (pr_mem s) (P := sputchar_putter _ _ _ Hsz Hm) fmt ds ap out) with (o := @nil Z)
    (s := s0) as (s1 & Hr & Hsb & Heb & Hw); [by apply outside_of_kept|eapply prints_mono; [|exact Hp]; intros p l;
    apply outside_of_kept|done|].
  rewrite (bind_Ret _ _ _ _ _ Hr), bind_gets. cbn [app] in *. assert (is_Some (pr_mem s1 !! sbuf s1)) as Hs.
  { rewrite (wrote_other _ _ _ _ _ Hw) by (rewrite length_take; lia). rewrite Hsb. apply Hm. lia. }
  erewrite bind_Ret by (unfold pr_zoom, zoom; rewrite (stb_run _ _ _ Hs); reflexivity). eexists.
  split; [unfold mret, M_ret; do 2 f_equal; lia|]. cbn. apply (wrote_app _ _ _ _ _ _ Hw).
  replace (buf + length (take (Z.to_nat (sz - 1)) out)) with (sbuf s1) by (rewrite length_take; lia). apply wrote_cons, wrote_none.
Qed.

(** C27. vsnprintf with room for at least the terminator, for any format and arguments:
    the buffer gets the rendering of the format, cut to the room there is, and a
    terminator; no byte outside of it changes; the number of characters stored is
    returned. *)
Theorem vsnprintf_correct s buf sz fmt ds ap out (Hsz : 0 < sz) (Hbuf : mapped (pr_mem s) buf sz)
    (Hfmt : outside_of buf sz (pr_mem s) fmt (concat (dir_text <$> ds) ++ [0]))
    (Hout : prints (λ p l, outside_of buf sz (pr_mem s) p (l ++ [0])) ds ap out) :
  ∃ s', vsnprintf buf sz fmt ap s = Ret (Z.min (length out) (sz - 1), s') ∧
    wrote (pr_mem s) buf (take (Z.to_nat (sz - 1)) out ++ [0]) (pr_mem s').
Proof. by apply (vsnprintf_run s buf sz fmt ds ap out). Qed.

(** With a size of 0 the terminator is stored all the same, outside of the buffer. *)
Lemma vsnprintf_size_0 s buf fmt ap : pr_mem s !! fmt = Some 0 → is_Some (pr_mem s !! buf) →
  ∃ s', vsnprintf buf 0 fmt ap s = Ret (0, s') ∧ pr_mem s' = <[buf := 0]> (pr_mem s).
Proof.
  intros Hf Hb. unfold vsnprintf. rewrite bind_modify. set (s0 := {| pr_mem := pr_mem s; sbuf := buf; ebuf := buf + 0 - 1 |}).
  assert (kdoprnt sputchar fmt ap s0 = Ret (tt, s0)) as Hr.
  { unfold kdoprnt, prs_fuel. rewrite bind_gets. cbn [kdoprnt_loop].
    assert (pr_zoom (ldb fmt) s0 = Ret (0, s0)) as Hl by (unfold pr_zoom, zoom;
      by rewrite (ldb_run (pr_mem s0) _ _ Hf)). by rewrite (bind_Ret _ _ _ _ _ Hl). }
  rewrite (bind_Ret _ _ _ _ _ Hr), bind_gets.
  erewrite bind_Ret by (unfold pr_zoom, zoom; rewrite (stb_run (pr_mem s0) _ _ Hb); reflexivity). eexists.
  split; [unfold mret, M_ret; do 2 f_equal; cbn; lia|done].
Qed.

(** * Printing and reading numbers *)

(** [%#lo], [%#lu] and [%#lx]. *)
Definition alt_long (ch : Z) : conv := {| cv_flags := [35]; cv_width := []; cv_prec := None; cv_len := [108]; cv_char := ch |}.

Lemma alt_long_wf ch : ch ∈ [111; 117; 120] → wf_conv (alt_long ch).
Proof.
  intros Hch. unfold wf_conv. cbn [alt_long cv_flags cv_width cv_prec cv_len cv_char].
  split_and!; [repeat constructor; set_solver|constructor; [constructor|done]|done|done|set_solver|set_solver].
Qed.

Lemma alt_long_text ch b n : number (alt_long ch) b false true n = alt_prefix true b n ++ numeral b n.
Proof.
  unfold number, padded. change (bool_decide (45 ∈ cv_flags (alt_long ch))) with false.
  change (bool_decide (48 ∈ cv_flags (alt_long ch))) with false.
  change (bool_decide (43 ∈ cv_flags (alt_long ch))) with false.
  change (bool_decide (32 ∈ cv_flags (alt_long ch))) with false. change (conv_width (alt_long ch)) with 0. cbn iota.
  cbn [app]. by replace (Z.to_nat (0 - _)) with O by lia.
Qed.

(** How strtoul reads such a number when it is left to find the base. *)
Lemma alt_long_radix b n : b ∈ [8; 10; 16] → 0 ≤ n < 2 ^ 64 →
    ∃ pre b' cs, alt_prefix true b n ++ numeral b n = pre ++ cs ∧ radix 0 pre b' cs ∧ Forall (digit_in b') cs ∧
    cs ≠ [] ∧ 2 ≤ b' ∧ num_of b' cs = n.
Proof.
  intros Hb Hn. assert (2 ≤ b ≤ 16) as Hb2 by (repeat (apply elem_of_cons in Hb as [->|Hb]); [lia..|by apply not_elem_of_nil in Hb]).
  destruct (numeral_value b n Hb2 Hn) as (Hv & Hd & c & cs & Hcs & Hc). unfold alt_prefix. cbn [andb].
  assert (digit_in 8 48) as H48 by (exists 0; split; [done|lia]). destruct (Z.eqb_spec n 0) as [->|Hnz]; cbn [negb].
  - exists [], 8, [48]. split; [rewrite numeral_eq, (proj2 (Z.ltb_lt 0 b)) by lia; done|]. split; [by apply radix_octal|]. split; [by constructor|done].
  - repeat (apply elem_of_cons in Hb as [->|Hb]); [..|by apply not_elem_of_nil in Hb].
    + exists [], 8, (48 :: numeral 8 n). split; [done|]. split; [by apply radix_octal|]. split; [by constructor|].
      split; [done|]. split; [lia|]. by rewrite (num_from_cons 8 0 48 _ 0).
    + exists [], 10, (numeral 10 n). split; [done|]. rewrite Hcs in Hd, Hv |- *.
      split; [apply radix_decimal; tauto|]. split; [done|]. split; [done|]. split; [lia|done].
    + exists [48; 120], 16, (numeral 16 n). split; [done|]. rewrite Hcs in Hd, Hv |- *.
      split; [apply radix_hex; tauto|]. split; [done|]. split; [done|]. split; [lia|done].
Qed.

(** C33. A number of 64 bits that snprintf prints with %#lo, %#lu or %#lx is the number
    that strtoul reads from the buffer with base 0, to the end of the text. *)
Theorem snprintf_strtoul_roundtrip s buf sz fmt ch b n (Hch : (ch, b) ∈ [(111, 8); (117, 10);
    (120, 16)]) (Hn : 0 ≤ n < 2 ^ 64) (Hsz : 24 ≤ sz) (Hbuf : mapped (pr_mem s) buf sz)
    (Hfmt : outside_of buf sz (pr_mem s) fmt ([37; 35; 108; ch] ++ [0])) :
  ∃ len s', vsnprintf buf sz fmt [n] s = Ret (len, s') ∧ strtoul buf 0 (pr_mem s') = Ret ((n, buf + len), pr_mem s').
Proof.
  set (out := alt_prefix true b n ++ numeral b n). assert (wf_conv (alt_long ch) ∧ b ∈ [8; 10; 16]) as [Hwf Hb].
  { repeat (apply elem_of_cons in Hch as [[= -> ->]|Hch]); [split; [apply alt_long_wf|]; set_solver..|by apply not_elem_of_nil in Hch]. }
  assert (length out ≤ 23)%nat as Hlen by (apply alt_prefix_room; [set_solver by lia|done]).
  destruct (vsnprintf_run s buf sz fmt [Conv (alt_long ch)] [n] (out ++ [])) as (s' & Hr & Hw); [lia|done|done| |].
  { econstructor; [|constructor].
    pose proof (renders_unsigned (λ p l, outside_of buf sz (pr_mem s) p (l ++ [0])) (alt_long ch) b n [] Hwf) as Hru.
    change (has (alt_long ch) 35) with true in Hru. rewrite alt_long_text in Hru.
    change (arg_unsigned _ n) with (u64 n) in Hru. assert (u64 n = n) as E by (by apply Z.mod_small).
    rewrite E in Hru. apply Hru. cbn [alt_long cv_char]. set_solver. }
  rewrite app_nil_r in *. rewrite take_ge in Hw by lia. exists (length out), s'. split; [rewrite Hr; do 2 f_equal; lia|].
  destruct (alt_long_radix b n Hb Hn) as (pre & b' & cs & E & Hrad & Hd & Hne & Hb2 & Hv). fold out in E.
  apply wrote_bytes in Hw. rewrite E, <- app_assoc in Hw.
  assert (¬ digit_in b' 0) as H0 by (intros (i & Hi & _); done).
  rewrite (strtoul_run (pr_mem s') buf 0 [] None pre b' cs 0 ltac:(lia) (Forall_nil_2 _) Hrad Hd Hne H0 ltac:(lia)
    Hw), Hv, (proj2 (Z.leb_le n ULONG_MAX)), E by (unfold ULONG_MAX; lia). done.
Qed.

(** * Examples *)

Module SnprintfExample.

Lemma bytes_at_forall m a l : Forall (λ i : nat, m !! (a + i) = l !! i) (seq 0 (length l)) → bytes_at m a l.
Proof. intros Hf i Hi. rewrite Forall_forall in Hf. apply Hf, elem_of_seq. lia. Qed.

Definition place (a : Z) (l : list Z) m : bytes := list_to_map (zip (seqZ a (length l)) l) ∪ m.

(** A buffer of 32 bytes, the formats "[%+05d]%s" and "%#lx", the string "ok" and the
    number " -0x1F,". *)
Definition mem : bytes :=
  place 4096 (replicate 32 255) $ place 4200 [91; 37; 43; 48; 53; 100; 93; 37; 115; 0] $ place 4300 [37; 35; 108;
    120; 0] $ place 4400 [111; 107; 0] $ place 4500 [32; 45; 48; 120; 49; 70; 44] ∅.
Definition st : prs := {| pr_mem := mem; sbuf := 0; ebuf := 0 |}.

Definition signed5 : conv := {| cv_flags := [43; 48]; cv_width := [53]; cv_prec := None; cv_len := []; cv_char := 100 |}.
Definition string : conv := {| cv_flags := []; cv_width := []; cv_prec := None; cv_len := []; cv_char := 115 |}.
Definition ds : list directive := [Literal 91; Conv signed5; Literal 93; Conv string].

(** "[-0042]ok". *)
Definition out : list Z := [91] ++ [45; 48; 48; 52; 50] ++ [93] ++ [111; 107] ++ [].

Lemma buffer_mapped sz : sz ≤ 32 → mapped mem 4096 sz.
Proof. intros Hs i Hi. assert (mapped mem 4096 32) as Hm by (apply MemExample.mapped_forall, (bool_decide_unpack _); vm_compute; exact I). apply Hm. lia. Qed.

Lemma signed5_wf : wf_conv signed5.
Proof.
  split; [repeat constructor; set_solver|]. split; [split; [repeat constructor; by exists 5|done]|]. split; [done|].
  split; [done|]. split; [set_solver|]. cbn. set_solver.
Qed.

Lemma string_wf : wf_conv string.
Proof. split; [done|]. split; [done|]. split; [done|]. split; [done|]. split; [set_solver|]. cbn. set_solver. Qed.

Lemma out_prints : prints (λ p l, outside_of 4096 9 mem p (l ++ [0])) ds [2 ^ 64 - 42; 4400] out.
Proof.
  apply prints_cons with [2 ^ 64 - 42; 4400]; [by constructor|].
  apply prints_cons with [4400];
    [exact (renders_signed _ signed5 (2 ^ 64 - 42) [4400] signed5_wf eq_refl ltac:(vm_compute; congruence))|].
  apply prints_cons with [4400]; [by constructor|]. apply prints_cons with []; [|constructor].
  apply (renders_string _ string 4400 [111; 107] []); [apply string_wf|done..| |set_solver by lia|repeat constructor;
    unfold char; lia|cbn; lia].
  split; [apply bytes_at_forall, (bool_decide_unpack _); vm_compute; exact I|unfold apart; cbn; lia].
Qed.

Lemma vsnprintf_correct_witness : ∃ s', vsnprintf 4096 9 4200 [2 ^ 64 - 42; 4400] st = Ret (8, s') ∧ wrote mem 4096 (take 8 out ++ [0]) (pr_mem s').
Proof.
  apply (vsnprintf_correct st 4096 9 4200 ds [2 ^ 64 - 42; 4400] out); [lia|by apply buffer_mapped| |exact out_prints].
  split; [apply bytes_at_forall, (bool_decide_unpack _); vm_compute; exact I|unfold apart; cbn; lia].
Defined.

Lemma snprintf_strtoul_roundtrip_witness : ∃ len s', vsnprintf 4096 32 4300 [48879] st = Ret (len, s') ∧
    strtoul 4096 0 (pr_mem s') = Ret ((48879, 4096 + len), pr_mem s').
Proof.
  apply (snprintf_strtoul_roundtrip st 4096 32 4300 120 16 48879); [set_solver|lia|lia|by apply buffer_mapped|].
  split; [apply bytes_at_forall, (bool_decide_unpack _); vm_compute; exact I|unfold apart; cbn; lia].
Defined.

Lemma strtoul_correct_witness : strtoul 4500 0 mem = Ret ((2 ^ 64 - 31, 4506), mem).
Proof.
  apply (strtoul_correct mem 4500 0 [32] (Some true) [48; 120] 16 [49; 70] 44); [lia|by repeat constructor|apply radix_hex; lia| |done| |lia|].
  - repeat constructor; [by exists 1|by exists 15].
  - intros (i & Hi & _). done.
  - apply bytes_at_forall, (bool_decide_unpack _). vm_compute. exact I.
Defined.

End SnprintfExample.
