(* ===== verification/Rb.v ===== *)
(** Red-black trees (libec/rb.c, libec/rbtree.h), as the library is built without
    RBDEBUG, RBSMALL and RBSTATS: links between nodes in memory, with the colour
    and the side of a node in the two low bits of the link to its father. *)

From S2P Require Import Prelude Words.

Definition RB_FLAG_POSITION : Z := 2.
Definition RB_FLAG_RED : Z := 1.
Definition RB_FLAG_MASK : Z := Z.lor RB_FLAG_POSITION RB_FLAG_RED.

Definition RB_SENTINEL_NODE : Z := 0.
Definition RB_SENTINEL_P (rb : Z) : bool := rb =? RB_SENTINEL_NODE.

(** A direction, [RB_DIR_LEFT] or [RB_DIR_RIGHT], is [false] or [true], and
    [which ^ RB_DIR_OTHER] its negation. *)
Record rb_node : Set := RbNode { rb_left : Z; rb_right : Z; rb_info : Z }.

#[global] Instance rb_node_eq_dec : EqDecision rb_node.
Proof. solve_decision. Defined.

Definition child (d : bool) (n : rb_node) : Z := if d then rb_right n else rb_left n.
Definition set_child (d : bool) (v : Z) (n : rb_node) : rb_node :=
  if d then RbNode (rb_left n) v (rb_info n) else RbNode v (rb_right n) (rb_info n).

(** The memory of nodes, and the last field of the [struct rb_tree]. The fields
    before it are in memory too, because the code uses [&rbt->rbt_root] as a
    node: [rbt_root] is its left link, [rbt_ops] its right one, and
    [rbt_minmax[RB_DIR_LEFT]] its [rb_info]. [rb_env] is what the comparisons
    read. *)
Record rbst (E : Type) : Type := Rbst { rb_mem : gmap Z rb_node; rbt_max : Z; rb_env : E }.
Arguments Rbst {E} _ _ _.
Arguments rb_mem {E} _.
Arguments rbt_max {E} _.
Arguments rb_env {E} _.

Section rb.
Context {E K : Type}.
(** The addresses of the tree and of its operations, the offset of the node in its object, and the
    comparisons: of two objects, and of an object with a key. *)
Context (rbt ops : Z) (rbto_node_offset : Z).
Context (compare_nodes : Z → Z → M E Z) (compare_key : Z → K → M E Z).

Definition RB_NODETOITEM (rbn : Z) : Z := u64 (rbn - rbto_node_offset).
Definition RB_ITEMTONODE (rbn : Z) : Z := u64 (rbn + rbto_node_offset).

Definition set_mem (h : gmap Z rb_node) (s : rbst E) : rbst E := Rbst h (rbt_max s) (rb_env s).
Definition set_rbt_max (m : Z) (s : rbst E) : rbst E := Rbst (rb_mem s) m (rb_env s).
Definition set_rb_env (e : E) (s : rbst E) : rbst E := Rbst (rb_mem s) (rbt_max s) e.
Definition on_rb_env {B} (m : M E B) : M (rbst E) B := zoom rb_env set_rb_env m.

Definition load (p : Z) : M (rbst E) rb_node := h ← gets rb_mem; opt_or Fault (h !! p).
Definition store (p : Z) (n : rb_node) : M (rbst E) unit :=
  load p;; modify (λ s, set_mem (<[p := n]> (rb_mem s)) s).

Definition rb_nodes (p : Z) (d : bool) : M (rbst E) Z := n ← load p; mret (child d n).
Definition set_rb_nodes (p : Z) (d : bool) (v : Z) : M (rbst E) unit := n ← load p; store p (set_child d v n).
Definition get_info (p : Z) : M (rbst E) Z := n ← load p; mret (rb_info n).
Definition set_info (p v : Z) : M (rbst E) unit := n ← load p; store p (RbNode (rb_left n) (rb_right n) v).

Definition rbt_root : M (rbst E) Z := rb_nodes rbt false.
Definition rbt_minmax (d : bool) : M (rbst E) Z := if d then gets rbt_max else get_info rbt.
Definition set_rbt_minmax (d : bool) (v : Z) : M (rbst E) unit := if d then modify (set_rbt_max v) else set_info rbt v.

(** ** rbtree.h *)

Definition RB_FATHER (rb : Z) : M (rbst E) Z := i ← get_info rb; mret (Z.land i (not64 RB_FLAG_MASK)).
Definition RB_SET_FATHER (rb father : Z) : M (rbst E) unit :=
  i ← get_info rb; set_info rb (Z.lor father (Z.land i RB_FLAG_MASK)).

Definition RB_CHILDLESS_P (rb : Z) : M (rbst E) bool :=
  if RB_SENTINEL_P rb then mret true
  else l ← rb_nodes rb false; if negb (RB_SENTINEL_P l) then mret false
       else r ← rb_nodes rb true; mret (RB_SENTINEL_P r).
Definition RB_TWOCHILDREN_P (rb : Z) : M (rbst E) bool :=
  if RB_SENTINEL_P rb then mret false
  else l ← rb_nodes rb false; if RB_SENTINEL_P l then mret false
       else r ← rb_nodes rb true; mret (negb (RB_SENTINEL_P r)).

Definition RB_POSITION (rb : Z) : M (rbst E) bool := i ← get_info rb; mret (negb (Z.land i RB_FLAG_POSITION =? 0)).
Definition RB_RED_P (rb : Z) : M (rbst E) bool :=
  if RB_SENTINEL_P rb then mret false else i ← get_info rb; mret (negb (Z.land i RB_FLAG_RED =? 0)).
Definition RB_BLACK_P (rb : Z) : M (rbst E) bool :=
  if RB_SENTINEL_P rb then mret true else i ← get_info rb; mret (Z.land i RB_FLAG_RED =? 0).
Definition RB_MARK_RED (rb : Z) : M (rbst E) unit := i ← get_info rb; set_info rb (Z.lor i RB_FLAG_RED).
Definition RB_MARK_BLACK (rb : Z) : M (rbst E) unit := i ← get_info rb; set_info rb (Z.land i (not64 RB_FLAG_RED)).
Definition RB_ROOT_P (rb : Z) : M (rbst E) bool := r ← rbt_root; mret (r =? rb).
Definition RB_SET_POSITION (rb : Z) (position : bool) : M (rbst E) unit :=
  i ← get_info rb;
  set_info rb (if position then Z.lor i RB_FLAG_POSITION else Z.land i (not64 RB_FLAG_POSITION)).
Definition RB_COPY_PROPERTIES (dst src : Z) : M (rbst E) unit :=
  d ← get_info dst; s ← get_info src; set_info dst (Z.lxor d (Z.land (Z.lxor d s) RB_FLAG_MASK)).
Definition RB_SWAP_PROPERTIES (a b : Z) : M (rbst E) unit :=
  ai ← get_info a; bi ← get_info b;
  let xorinfo := Z.land (Z.lxor ai bi) RB_FLAG_MASK in
  set_info a (Z.lxor ai xorinfo);;
  bi ← get_info b;
  set_info b (Z.lxor bi xorinfo).

(** ** rb.c *)

Definition rb_tree_init : M (rbst E) unit :=
  set_rb_nodes rbt true ops;;
  set_rb_nodes rbt false RB_SENTINEL_NODE;;
  r ← rbt_root;
  set_rbt_minmax false r;;
  r ← rbt_root;
  set_rbt_minmax true r.

Definition NULL : Z := 0.

Fixpoint find_loop (fuel : nat) (parent : Z) (key : K) : M (rbst E) Z :=
  match fuel with
  | O => stop Hang
  | S fuel' =>
      if RB_SENTINEL_P parent then mret NULL
      else
        let pobj := RB_NODETOITEM parent in
        diff ← on_rb_env (compare_key pobj key);
        if diff =? 0 then mret pobj
        else parent ← rb_nodes parent (diff <? 0); find_loop fuel' parent key
  end.

Definition rb_tree_find_node (fuel : nat) (key : K) : M (rbst E) Z :=
  parent ← rbt_root; find_loop fuel parent key.

Fixpoint find_geq_loop (fuel : nat) (parent last : Z) (key : K) : M (rbst E) Z :=
  match fuel with
  | O => stop Hang
  | S fuel' =>
      if RB_SENTINEL_P parent then mret (if last =? NULL then NULL else RB_NODETOITEM last)
      else
        let pobj := RB_NODETOITEM parent in
        diff ← on_rb_env (compare_key pobj key);
        if diff =? 0 then mret pobj
        else
          let last := if 0 <? diff then parent else last in
          parent ← rb_nodes parent (diff <? 0); find_geq_loop fuel' parent last key
  end.

Definition rb_tree_find_node_geq (fuel : nat) (key : K) : M (rbst E) Z :=
  parent ← rbt_root; find_geq_loop fuel parent NULL key.

Fixpoint find_leq_loop (fuel : nat) (parent last : Z) (key : K) : M (rbst E) Z :=
  match fuel with
  | O => stop Hang
  | S fuel' =>
      if RB_SENTINEL_P parent then mret (if last =? NULL then NULL else RB_NODETOITEM last)
      else
        let pobj := RB_NODETOITEM parent in
        diff ← on_rb_env (compare_key pobj key);
        if diff =? 0 then mret pobj
        else
          let last := if diff <? 0 then parent else last in
          parent ← rb_nodes parent (diff <? 0); find_leq_loop fuel' parent last key
  end.

Definition rb_tree_find_node_leq (fuel : nat) (key : K) : M (rbst E) Z :=
  parent ← rbt_root; find_leq_loop fuel parent NULL key.

(** Swap the location and colors of [old_father] and its child at [which]. *)
Definition rb_tree_reparent_nodes (old_father : Z) (which : bool) : M (rbst E) unit :=
  let other := negb which in
  grandpa ← RB_FATHER old_father;
  old_child ← rb_nodes old_father which;
  let new_father := old_child in
  let new_child := old_father in
  pos ← RB_POSITION old_father;
  set_rb_nodes grandpa pos new_father;;
  c ← rb_nodes old_child other;
  set_rb_nodes new_child which c;;
  set_rb_nodes new_father other new_child;;
  RB_SET_FATHER new_father grandpa;;
  RB_SET_FATHER new_child new_father;;
  RB_SWAP_PROPERTIES new_father new_child;;
  RB_SET_POSITION new_child other;;
  c ← rb_nodes new_child which;
  if negb (RB_SENTINEL_P c) then
    RB_SET_FATHER c new_child;;
    c ← rb_nodes new_child which;
    RB_SET_POSITION c which
  else mret tt.

(** The loop of [rb_tree_insert_rebalance]; [None] when it returns, and otherwise
    [self], [father], [grandpa] and [which] when it breaks. *)
Fixpoint insert_rebalance_loop (fuel : nat) (self father : Z) : M (rbst E) (option (Z * Z * Z * bool)) :=
  match fuel with
  | O => stop Hang
  | S fuel' =>
      grandpa ← RB_FATHER father;
      gr ← rb_nodes grandpa true;
      let which := father =? gr in
      let other := negb which in
      uncle ← rb_nodes grandpa other;
      b ← RB_BLACK_P uncle;
      if (b : bool) then mret (Some (self, father, grandpa, which))
      else
        RB_MARK_BLACK uncle;;
        RB_MARK_BLACK father;;
        isroot ← RB_ROOT_P grandpa;
        if (isroot : bool) then mret None
        else
          RB_MARK_RED grandpa;;
          let self := grandpa in
          father ← RB_FATHER self;
          b ← RB_BLACK_P father;
          if (b : bool) then mret None else insert_rebalance_loop fuel' self father
  end.

Definition rb_tree_insert_rebalance (fuel : nat) (self : Z) : M (rbst E) unit :=
  father ← RB_FATHER self;
  RB_FATHER father;;
  r ← insert_rebalance_loop fuel self father;
  match r : option (Z * Z * Z * bool) with
  | None => mret tt
  | Some (self, father, grandpa, which) =>
      let other := negb which in
      c ← rb_nodes father other;
      when (self =? c) (rb_tree_reparent_nodes father other);;
      rb_tree_reparent_nodes grandpa which;;
      root ← rbt_root;
      RB_MARK_BLACK root
  end.

(** Where a new leaf goes: [inl] the object that equals it, or [inr] its father
    and its side. *)
Fixpoint insert_loop (fuel : nat) (tmp parent : Z) (position : bool) (object : Z) : M (rbst E) (Z + Z * bool) :=
  match fuel with
  | O => stop Hang
  | S fuel' =>
      if RB_SENTINEL_P tmp then mret (inr (parent, position))
      else
        let tobj := RB_NODETOITEM tmp in
        diff ← on_rb_env (compare_nodes tobj object);
        if diff =? 0 then mret (inl tobj)
        else
          let parent := tmp in
          let position := diff <? 0 in
          tmp ← rb_nodes parent position;
          insert_loop fuel' tmp parent position object
  end.

Definition rb_tree_insert_node (fuel : nat) (object : Z) : M (rbst E) Z :=
  let self := RB_ITEMTONODE object in
  tmp ← rbt_root;
  r ← insert_loop fuel tmp rbt false object;
  match r : Z + Z * bool with
  | inl tobj => mret tobj
  | inr (parent, position) =>
      RB_SET_FATHER self parent;;
      RB_SET_POSITION self position;;
      rebalance ← (if parent =? rbt then
                     RB_MARK_BLACK self;; set_rbt_minmax false self;; set_rbt_minmax true self;; mret false
                   else
                     m ← rbt_minmax position;
                     when (parent =? m) (set_rbt_minmax position self);;
                     RB_MARK_RED self;;
                     RB_RED_P parent);
      c ← rb_nodes parent position;
      set_rb_nodes self false c;;
      c ← rb_nodes parent position;
      set_rb_nodes self true c;;
      set_rb_nodes parent position self;;
      when rebalance (rb_tree_insert_rebalance fuel self);;
      mret object
  end.

Fixpoint iterate_up (fuel : nat) (self : Z) (other : bool) : M (rbst E) Z :=
  match fuel with
  | O => stop Hang
  | S fuel' =>
      isroot ← RB_ROOT_P self;
      if (isroot : bool) then mret NULL
      else
        pos ← RB_POSITION self;
        if eqb other pos then f ← RB_FATHER self; mret (RB_NODETOITEM f)
        else self ← RB_FATHER self; iterate_up fuel' self other
  end.

Fixpoint iterate_down (fuel : nat) (self : Z) (other : bool) : M (rbst E) Z :=
  match fuel with
  | O => stop Hang
  | S fuel' =>
      c ← rb_nodes self other;
      if negb (RB_SENTINEL_P c) then iterate_down fuel' c other else mret (RB_NODETOITEM self)
  end.

Definition rb_tree_iterate (fuel : nat) (object : Z) (direction : bool) : M (rbst E) Z :=
  let other := negb direction in
  if object =? NULL then
    r ← rbt_root;
    if RB_SENTINEL_P r then mret NULL else m ← rbt_minmax direction; mret (RB_NODETOITEM m)
  else
    let self := RB_ITEMTONODE object in
    c ← rb_nodes self direction;
    if RB_SENTINEL_P c then iterate_up fuel self other
    else iterate_down fuel c other.

(** [RB_BLACK_P (rb->rb_left) && RB_BLACK_P (rb->rb_right)]. *)
Definition black_children (rb : Z) : M (rbst E) bool :=
  andM (l ← rb_nodes rb false; RB_BLACK_P l) (r ← rb_nodes rb true; RB_BLACK_P r).

(** One pass of the loop of [rb_tree_removal_rebalance] up to its second test:
    [inl] the brother to go on with, or [inr] where the next pass starts, if
    there is one. *)
Definition removal_case_1_2 (parent : Z) (which : bool) (brother : Z) : M (rbst E) (Z + option (Z * bool)) :=
  let other := negb which in
  c ← andM (RB_BLACK_P parent) (black_children brother);
  if (c : bool) then
    red ← RB_RED_P brother;
    if (red : bool) then
      rb_tree_reparent_nodes parent other;;
      brother ← rb_nodes parent other;
      mret (inl brother)
    else
      RB_MARK_RED brother;;
      isroot ← RB_ROOT_P parent;
      if (isroot : bool) then mret (inr None)
      else
        which ← RB_POSITION parent;
        parent ← RB_FATHER parent;
        mret (inr (Some (parent, which)))
  else mret (inl brother).

(** The rest of a pass, which ends the loop. *)
Definition removal_case_2b_3_4 (parent : Z) (which : bool) (brother : Z) : M (rbst E) unit :=
  let other := negb which in
  c ← andM (RB_RED_P parent) (andM (RB_BLACK_P brother) (black_children brother));
  if (c : bool) then
    RB_MARK_BLACK parent;;
    RB_MARK_RED brother
  else
    far ← rb_nodes brother other;
    b ← RB_BLACK_P far;
    brother ← (if (b : bool) then rb_tree_reparent_nodes brother which;; rb_nodes parent other
               else mret brother);
    far ← rb_nodes brother other;
    RB_MARK_BLACK far;;
    rb_tree_reparent_nodes parent other.

Fixpoint removal_rebalance_loop (fuel : nat) (parent : Z) (which : bool) : M (rbst E) unit :=
  match fuel with
  | O => stop Hang
  | S fuel' =>
      c ← rb_nodes parent which;
      b ← RB_BLACK_P c;
      if negb b then mret tt
      else
        let other := negb which in
        brother ← rb_nodes parent other;
        r ← removal_case_1_2 parent which brother;
        match r : Z + option (Z * bool) with
        | inl brother => removal_case_2b_3_4 parent which brother
        | inr None => mret tt
        | inr (Some (parent, which)) => removal_rebalance_loop fuel' parent which
        end
  end.

Definition rb_tree_removal_rebalance := removal_rebalance_loop.

Definition rb_tree_prune_node (fuel : nat) (self : Z) (rebalance : bool) : M (rbst E) unit :=
  which ← RB_POSITION self;
  father ← RB_FATHER self;
  was_root ← RB_ROOT_P self;
  l ← rb_nodes self false;
  set_rb_nodes father which l;;
  pos ← RB_POSITION self;
  m ← rbt_minmax pos;
  when (m =? self) (set_rbt_minmax pos father;; when was_root (set_rbt_minmax true father));;
  RB_SET_FATHER self NULL;;
  when rebalance (rb_tree_removal_rebalance fuel father which).

Definition rb_tree_swap_prune_and_rebalance (fuel : nat) (self standin : Z) : M (rbst E) unit :=
  standin_which ← RB_POSITION standin;
  let standin_other := negb standin_which in
  standin_father ← RB_FATHER standin;
  rebalance ← RB_BLACK_P standin;
  standin_son ← rb_nodes standin (if standin_father =? self then standin_which else standin_other);
  sr ← RB_RED_P standin_son;
  rebalance ← (if (sr : bool) then
                 RB_MARK_BLACK standin_son;;
                 (if standin_father =? self then mret tt
                  else RB_SET_FATHER standin_son standin_father;; RB_SET_POSITION standin_son standin_which);;
                 mret false
               else mret rebalance);
  sf_so ← (if standin_father =? self then mret (standin, standin_other)
           else
             set_rb_nodes standin_father standin_which standin_son;;
             c ← rb_nodes self standin_other;
             set_rb_nodes standin standin_other c;;
             c ← rb_nodes standin standin_other;
             RB_SET_FATHER c standin;;
             mret (standin_father, standin_which));
  let '(standin_father, standin_other) := sf_so : Z * bool in
  c ← rb_nodes self standin_other;
  set_rb_nodes standin standin_other c;;
  c ← rb_nodes standin standin_other;
  RB_SET_FATHER c standin;;
  RB_COPY_PROPERTIES standin self;;
  f ← RB_FATHER self;
  RB_SET_FATHER standin f;;
  f ← RB_FATHER standin;
  pos ← RB_POSITION standin;
  set_rb_nodes f pos standin;;
  pos ← RB_POSITION self;
  m ← rbt_minmax pos;
  when (m =? self) (f ← RB_FATHER self; set_rbt_minmax pos f);;
  RB_SET_FATHER self NULL;;
  when rebalance (rb_tree_removal_rebalance fuel standin_father standin_which).

Definition rb_tree_prune_blackred_branch (self : Z) (which : bool) : M (rbst E) unit :=
  father ← RB_FATHER self;
  son ← rb_nodes self which;
  was_root ← RB_ROOT_P self;
  RB_COPY_PROPERTIES son self;;
  pos ← RB_POSITION son;
  set_rb_nodes father pos son;;
  RB_SET_FATHER son father;;
  (if (was_root : bool) then set_rbt_minmax (negb which) son
   else
     pos ← RB_POSITION self;
     m ← rbt_minmax pos;
     when (m =? self) (set_rbt_minmax pos son));;
  RB_SET_FATHER self NULL.

Definition rb_tree_remove_node (fuel : nat) (object : Z) : M (rbst E) unit :=
  let self := RB_ITEMTONODE object in
  childless ← RB_CHILDLESS_P self;
  if (childless : bool) then
    b ← RB_BLACK_P self;
    isroot ← RB_ROOT_P self;
    rb_tree_prune_node fuel self (b && negb isroot)
  else
    two ← RB_TWOCHILDREN_P self;
    if negb two then
      l ← rb_nodes self false;
      rb_tree_prune_blackred_branch self (RB_SENTINEL_P l)
    else
      pos ← RB_POSITION self;
      o ← rb_tree_iterate fuel object (negb pos);
      let standin := RB_ITEMTONODE o in
      rb_tree_swap_prune_and_rebalance fuel self standin.

End rb.
