(* ===== verification/RbMem.v ===== *)
(** Red-black trees in memory: which nodes a tree occupies, and what each
    operation of rbtree.h does to them. *)

From S2P Require Import Prelude Words Rb.

(** * Cells up to order *)

Section cells.
Abbreviation cell := (Z * rb_node)%type.

Definition cnt (x : cell) (l : list cell) : nat := length (filter (x =.) l).

Lemma cnt_nil x : cnt x [] = 0%nat.
Proof. done. Qed.

Lemma cnt_cons x y l : cnt x (y :: l) = (cnt x [y] + cnt x l)%nat.
Proof. unfold cnt. rewrite !filter_cons, filter_nil. by case_decide. Qed.

Lemma cnt_app x l k : cnt x (l ++ k) = (cnt x l + cnt x k)%nat.
Proof. unfold cnt. by rewrite filter_app, length_app. Qed.

Lemma cnt_perm l k : (∀ x, cnt x l = cnt x k) → l ≡ₚ k.
Proof.
  intros H. apply (Permutation_count_occ (λ x y : cell, decide (x = y))). intros x. specialize (H x).
  assert (∀ l, count_occ (λ x y : cell, decide (x = y)) l x = cnt x l) as E; [|by rewrite !E].
  clear. induction l as [|y l IH]; [done|]. cbn [count_occ]. rewrite cnt_cons, IH.
  assert (cnt x [y] = if decide (x = y) then 1%nat else 0%nat) as -> by (unfold cnt; rewrite filter_cons; by case_decide).
  destruct (decide (y = x)), (decide (x = y)); done || congruence.
Qed.

End cells.

(** Reordering explicit cells among the cells of subtrees. *)
Ltac perm :=
  apply cnt_perm; intros ?;
  repeat match goal with
  | |- context [cnt ?x (?l ++ ?k)] => rewrite (cnt_app x l k)
  | |- context [cnt ?x (?y :: ?l)] => lazymatch l with [] => fail | _ => rewrite (cnt_cons x y l) end
  end;
  rewrite ?cnt_nil; lia.

(** * The link to the father, with the colour and the side *)

Definition mk (f : Z) (d c : bool) : Z := Z.lor f (Z.lor (if d then 2 else 0) (if c then 1 else 0)).

Definition aligned (p : Z) : Prop := word64 p ∧ Z.testbit p 0 = false ∧ Z.testbit p 1 = false.

Lemma aligned_0 : aligned 0.
Proof. done. Qed.

Lemma testbit_mk f d c n : aligned f → 0 ≤ n →
  Z.testbit (mk f d c) n = if n =? 0 then c else if n =? 1 then d else Z.testbit f n.
Proof.
  intros (Hw & H0 & H1) Hn. unfold mk. rewrite !Z.lor_spec.
  destruct (Z.eqb_spec n 0) as [->|Hn0]; [rewrite H0; by destruct d, c|].
  destruct (Z.eqb_spec n 1) as [->|Hn1]; [rewrite H1; by destruct d, c|].
  replace (Z.testbit (if d then 2 else 0) n) with false; [replace (Z.testbit (if c then 1 else 0) n) with false; [by destruct (Z.testbit f n)|]|];
    symmetry; [destruct c|destruct d]; try apply Z.bits_0; apply (testbit_above _ 2); lia.
Qed.

#[local] Opaque mk.

(** The bits of small constants and of their complements. *)
Lemma testbit_small m n : 0 ≤ m < 4 → 2 ≤ n → Z.testbit m n = false.
Proof. intros. by apply (testbit_above m 2). Qed.

Lemma testbit_not64 m n : 0 ≤ n → Z.testbit (not64 m) n = (n <? 64) && negb (Z.testbit m n).
Proof. intros Hn. unfold not64. by rewrite testbit_u64, Z.lnot_spec. Qed.

Lemma aligned_above f n : aligned f → 64 ≤ n → Z.testbit f n = false.
Proof. intros (Hw & _). by apply testbit_above. Qed.

Ltac mk_bits := apply Z.bits_inj'; intros n Hn;
  repeat (rewrite Z.land_spec || rewrite Z.lor_spec || rewrite Z.lxor_spec || (rewrite testbit_not64; [|exact Hn]) || (rewrite testbit_mk; [|assumption|exact Hn]));
  unfold RB_FLAG_MASK, RB_FLAG_POSITION, RB_FLAG_RED;
  destruct (Z.eqb_spec n 0) as [->|Hn0]; [by repeat match goal with H : aligned _ |- _ => destruct H as (_ & H & _); rewrite ?H; clear H end;
    repeat match goal with b : bool |- _ => destruct b end|];
  destruct (Z.eqb_spec n 1) as [->|Hn1]; [by repeat match goal with H : aligned _ |- _ => destruct H as (_ & _ & H); rewrite ?H; clear H end;
    repeat match goal with b : bool |- _ => destruct b end|];
  change (Z.lor 2 1) with 3; rewrite ?(testbit_small 1 n), ?(testbit_small 2 n), ?(testbit_small 3 n) by lia;
  rewrite ?andb_false_r, ?orb_false_r, ?andb_true_r, ?xorb_false_r; try done.

Lemma mk_father f d c : aligned f → Z.land (mk f d c) (not64 RB_FLAG_MASK) = f.
Proof.
  intros Hf. mk_bits. destruct (Z.ltb_spec n 64); [by destruct (Z.testbit f n)|]. by rewrite (aligned_above f n).
Qed.

Lemma mk_set_father f f' d c : aligned f → aligned f' → Z.lor f' (Z.land (mk f d c) RB_FLAG_MASK) = mk f' d c.
Proof. intros Hf Hf'. mk_bits. Qed.

Lemma mk_any f i : aligned f → Z.lor f (Z.land i RB_FLAG_MASK) = mk f (Z.testbit i 1) (Z.testbit i 0).
Proof.
  intros Hf. apply Z.bits_inj'; intros n Hn. rewrite testbit_mk by done. destruct Hf as (_ & H0 & H1).
  change RB_FLAG_MASK with 3. rewrite Z.lor_spec, Z.land_spec.
  destruct (Z.eqb_spec n 0) as [->|Hn0]; [rewrite H0; by destruct (Z.testbit i 0)|].
  destruct (Z.eqb_spec n 1) as [->|Hn1]; [rewrite H1; by destruct (Z.testbit i 1)|].
  rewrite (testbit_small 3 n) by lia. by rewrite andb_false_r, orb_false_r.
Qed.

Lemma mk_pos f d c : aligned f → negb (Z.land (mk f d c) RB_FLAG_POSITION =? 0) = d.
Proof.
  intros Hf. replace (Z.land (mk f d c) RB_FLAG_POSITION) with (mk 0 d false); [by destruct d|]. pose proof aligned_0. mk_bits. by rewrite Z.bits_0.
Qed.

Lemma mk_red f d c : aligned f → (Z.land (mk f d c) RB_FLAG_RED =? 0) = negb c.
Proof.
  intros Hf. replace (Z.land (mk f d c) RB_FLAG_RED) with (mk 0 false c); [by destruct c|]. pose proof aligned_0. mk_bits. by rewrite Z.bits_0.
Qed.

Lemma mk_mark_red f d c : aligned f → Z.lor (mk f d c) RB_FLAG_RED = mk f d true.
Proof. intros Hf. mk_bits. Qed.

Lemma mk_mark_black f d c : aligned f → Z.land (mk f d c) (not64 RB_FLAG_RED) = mk f d false.
Proof. intros Hf. mk_bits. destruct (Z.ltb_spec n 64); [by destruct (Z.testbit f n)|]. by rewrite (aligned_above f n). Qed.

Lemma mk_set_pos f d c (d' : bool) : aligned f →
  (if d' then Z.lor (mk f d c) RB_FLAG_POSITION else Z.land (mk f d c) (not64 RB_FLAG_POSITION)) = mk f d' c.
Proof.
  intros Hf. destruct d'; mk_bits. destruct (Z.ltb_spec n 64); [by destruct (Z.testbit f n)|]. by rewrite (aligned_above f n).
Qed.

Lemma mk_copy f f' d c d' c' : aligned f → aligned f' →
  Z.lxor (mk f d c) (Z.land (Z.lxor (mk f d c) (mk f' d' c')) RB_FLAG_MASK) = mk f d' c'.
Proof. intros Hf Hf'. mk_bits. Qed.

Lemma mk_swap f f' d c d' c' : aligned f → aligned f' →
  Z.lxor (mk f d c) (Z.land (Z.lxor (mk f' d' c') (mk f d c)) RB_FLAG_MASK) = mk f d' c'.
Proof. intros Hf Hf'. mk_bits. Qed.

(** * Owning cells *)

Section own.
Abbreviation cell := (Z * rb_node)%type.

Record own (h : gmap Z rb_node) (L : list cell) : Prop := {
  own_nd : NoDup L.*1;
  own_at c : c ∈ L → h !! c.1 = Some c.2;
  own_ok c : c ∈ L → aligned c.1 ∧ c.1 ≠ 0;
}.

Lemma own_perm h L L' : L ≡ₚ L' → own h L → own h L'.
Proof. intros HL [H1 H2 H3]. split; [by rewrite <- HL|..]; intros c; rewrite <- HL; [apply H2|apply H3]. Qed.

#[global] Instance own_proper h : Proper ((≡ₚ) ==> iff) (own h).
Proof. intros L L' HL. split; by apply own_perm. Qed.

Lemma own_load h L (i : nat) p n : own h L → L !! i = Some (p, n) → h !! p = Some n.
Proof. intros [_ H2 _] Hi. exact (H2 (p, n) (list_elem_of_lookup_2 _ _ _ Hi)). Qed.

Lemma own_store h L (i : nat) p n n' : own h L → L !! i = Some (p, n) → own (<[p := n']> h) (<[i := (p, n')]> L).
Proof.
  intros [H1 H2 H3] Hi. split.
  - rewrite list_fmap_insert. cbn. rewrite list_insert_id; [done|]. by rewrite list_lookup_fmap, Hi.
  - intros c (j & Hj)%list_elem_of_lookup. apply list_lookup_insert_Some in Hj as [(-> & <- & _)|[Hij Hj]].
    + apply lookup_insert_eq.
    + rewrite lookup_insert_ne; [by apply H2, list_elem_of_lookup_2 with j|]. intros E. apply Hij.
      eapply (NoDup_lookup _ _ _ p H1); rewrite list_lookup_fmap; [by rewrite Hi|rewrite Hj; cbn; by rewrite E].
  - intros c (j & Hj)%list_elem_of_lookup. apply list_lookup_insert_Some in Hj as [(-> & <- & _)|[Hij Hj]].
    + exact (H3 _ (list_elem_of_lookup_2 _ _ _ Hi)).
    + exact (H3 _ (list_elem_of_lookup_2 _ _ _ Hj)).
Qed.

Lemma own_app_l h L L' : own h (L ++ L') → own h L.
Proof.
  intros [H1 H2 H3]. split; [rewrite fmap_app in H1; by apply NoDup_app in H1 as (? & _ & _)|..]; intros c Hc; [apply H2|apply H3];
    apply elem_of_app; by left.
Qed.

Lemma own_ne h p n q m L : own h ((p, n) :: (q, m) :: L) → p ≠ q.
Proof. intros [H _ _]. cbn in H. apply NoDup_cons in H as [H _]. set_solver. Qed.

Lemma own_ptr h pre p n post : own h (pre ++ (p, n) :: post) → aligned p ∧ p ≠ 0.
Proof. intros [_ _ H]. apply (H (p, n)). apply elem_of_app. right. by left. Qed.

End own.

(** * The operations of rbtree.h *)

(** A node with [x] on the side [e] and [y] on the other. *)
Definition mkn (e : bool) (x y i : Z) : rb_node := if e then RbNode y x i else RbNode x y i.

Lemma child_mkn e x y i : child e (mkn e x y i) = x.
Proof. by destruct e. Qed.

Lemma child_mkn_other e x y i : child (negb e) (mkn e x y i) = y.
Proof. by destruct e. Qed.

Lemma set_child_mkn e x y i v : set_child e v (mkn e x y i) = mkn e v y i.
Proof. by destruct e. Qed.

Lemma set_child_mkn_other e x y i v : set_child (negb e) v (mkn e x y i) = mkn e x v i.
Proof. by destruct e. Qed.

Lemma mkn_negb e x y i : mkn (negb e) x y i = mkn e y x i.
Proof. by destruct e. Qed.

Lemma info_mkn e x y i : rb_info (mkn e x y i) = i.
Proof. by destruct e. Qed.

Section ops.
Context {E : Type}.
Implicit Types s : rbst E.
Abbreviation cell := (Z * rb_node)%type.

Lemma own_mid h (pre post : list cell) p n : own h (pre ++ (p, n) :: post) → h !! p = Some n.
Proof. intros Ho. apply (own_load h _ (length pre) p n Ho). rewrite lookup_app_r, Nat.sub_diag by done. done. Qed.

Lemma own_mid_store h (pre post : list cell) p n n' :
  own h (pre ++ (p, n) :: post) → own (<[p := n']> h) (pre ++ (p, n') :: post).
Proof.
  intros Ho. assert ((pre ++ (p, n) :: post) !! length pre = Some (p, n)) as Hl by (by rewrite lookup_app_r, Nat.sub_diag by done).
  pose proof (own_store h _ (length pre) p n n' Ho Hl) as H. by rewrite insert_app_r_alt, Nat.sub_diag in H by done.
Qed.

(** [s] and what it owns: the cell of [p] is between [pre] and [post]. *)
Section at_cell.
Context (s : rbst E) (pre post : list cell) (p : Z).

Lemma rb_load_run n : own (rb_mem s) (pre ++ (p, n) :: post) → load p s = Ret (n, s).
Proof. intros Ho. unfold load. mrun. by rewrite (own_mid _ _ _ _ _ Ho). Qed.

Lemma rb_store_run n n' : own (rb_mem s) (pre ++ (p, n) :: post) →
  store p n' s = Ret (tt, set_mem (<[p := n']> (rb_mem s)) s).
Proof. intros Ho. unfold store. by mrun (rb_load_run n Ho). Qed.

Lemma wp_nodes n d Q : own (rb_mem s) (pre ++ (p, n) :: post) → Q (child d n) s → wp (rb_nodes p d) Q s.
Proof. intros Ho HQ. apply (wp_Ret _ _ _ (child d n) s); [|done]. unfold rb_nodes. by mrun (rb_load_run n Ho). Qed.

Lemma wp_set_nodes n d v Q : own (rb_mem s) (pre ++ (p, n) :: post) →
  (∀ h, own h (pre ++ (p, set_child d v n) :: post) → Q tt (set_mem h s)) → wp (set_rb_nodes p d v) Q s.
Proof.
  intros Ho HQ. eapply wp_Ret; [|by apply HQ, own_mid_store with n].
  unfold set_rb_nodes. mrun (rb_load_run n Ho). by apply rb_store_run with n.
Qed.

Lemma wp_get_info n Q : own (rb_mem s) (pre ++ (p, n) :: post) → Q (rb_info n) s → wp (get_info p) Q s.
Proof. intros Ho HQ. apply (wp_Ret _ _ _ (rb_info n) s); [|done]. unfold get_info. by mrun (rb_load_run n Ho). Qed.

Lemma wp_set_info e x y i v Q : own (rb_mem s) (pre ++ (p, mkn e x y i) :: post) →
  (∀ h, own h (pre ++ (p, mkn e x y v) :: post) → Q tt (set_mem h s)) → wp (set_info p v) Q s.
Proof.
  intros Ho HQ. eapply wp_Ret; [|by apply HQ, own_mid_store with (mkn e x y i)].
  unfold set_info. mrun (rb_load_run _ Ho). replace (RbNode _ _ v) with (mkn e x y v) by (by destruct e). by eapply rb_store_run.
Qed.

Lemma wp_SET_FATHER_any e x y i f (Q : unit → rbst E → Prop) :
  own (rb_mem s) (pre ++ (p, mkn e x y i) :: post) → aligned f →
  (∀ h d c, own h (pre ++ (p, mkn e x y (mk f d c)) :: post) → Q tt (set_mem h s)) → wp (RB_SET_FATHER p f) Q s.
Proof.
  intros Ho Hf HQ. apply wp_bind. eapply wp_get_info; [exact Ho|]. rewrite info_mkn, mk_any by done.
  eapply wp_set_info; [exact Ho|]. intros h. apply HQ.
Qed.

Context (e : bool) (x y f : Z) (d c : bool).
Hypothesis Hf : aligned f.
Hypothesis Ho : own (rb_mem s) (pre ++ (p, mkn e x y (mk f d c)) :: post).

Lemma wp_FATHER Q : Q f s → wp (RB_FATHER p) Q s.
Proof. intros HQ. apply wp_bind. eapply wp_get_info; [exact Ho|]. rewrite info_mkn. apply wp_mret. by rewrite mk_father. Qed.

Lemma wp_POSITION Q : Q d s → wp (RB_POSITION p) Q s.
Proof. intros HQ. apply wp_bind. eapply wp_get_info; [exact Ho|]. rewrite info_mkn. apply wp_mret. by rewrite mk_pos. Qed.

Lemma wp_RED Q : p ≠ 0 → Q c s → wp (RB_RED_P p) Q s.
Proof.
  intros Hp HQ. unfold RB_RED_P, RB_SENTINEL_P, RB_SENTINEL_NODE. rewrite (proj2 (Z.eqb_neq _ _) Hp). apply wp_bind. eapply wp_get_info; [exact Ho|].
  rewrite info_mkn. apply wp_mret. rewrite mk_red by done. by rewrite negb_involutive.
Qed.

Lemma wp_BLACK Q : p ≠ 0 → Q (negb c) s → wp (RB_BLACK_P p) Q s.
Proof.
  intros Hp HQ. unfold RB_BLACK_P, RB_SENTINEL_P, RB_SENTINEL_NODE. rewrite (proj2 (Z.eqb_neq _ _) Hp). apply wp_bind. eapply wp_get_info; [exact Ho|].
  rewrite info_mkn. apply wp_mret. by rewrite mk_red by done.
Qed.

Lemma wp_update v i (Q : unit → rbst E → Prop) : i = mk f d c →
  (∀ h, own h (pre ++ (p, mkn e x y v) :: post) → Q tt (set_mem h s)) → wp (set_info p v) Q s.
Proof. intros -> HQ. by eapply wp_set_info. Qed.

Lemma wp_SET_FATHER f' (Q : unit → rbst E → Prop) : aligned f' →
  (∀ h, own h (pre ++ (p, mkn e x y (mk f' d c)) :: post) → Q tt (set_mem h s)) → wp (RB_SET_FATHER p f') Q s.
Proof.
  intros Hf' HQ. apply wp_bind. eapply wp_get_info; [exact Ho|]. rewrite info_mkn, mk_set_father by done. by eapply wp_update.
Qed.

Lemma wp_MARK_RED (Q : unit → rbst E → Prop) :
  (∀ h, own h (pre ++ (p, mkn e x y (mk f d true)) :: post) → Q tt (set_mem h s)) → wp (RB_MARK_RED p) Q s.
Proof. intros HQ. apply wp_bind. eapply wp_get_info; [exact Ho|]. rewrite info_mkn, mk_mark_red by done. by eapply wp_update. Qed.

Lemma wp_MARK_BLACK (Q : unit → rbst E → Prop) :
  (∀ h, own h (pre ++ (p, mkn e x y (mk f d false)) :: post) → Q tt (set_mem h s)) → wp (RB_MARK_BLACK p) Q s.
Proof. intros HQ. apply wp_bind. eapply wp_get_info; [exact Ho|]. rewrite info_mkn, mk_mark_black by done. by eapply wp_update. Qed.

Lemma wp_SET_POSITION d' (Q : unit → rbst E → Prop) :
  (∀ h, own h (pre ++ (p, mkn e x y (mk f d' c)) :: post) → Q tt (set_mem h s)) → wp (RB_SET_POSITION p d') Q s.
Proof. intros HQ. apply wp_bind. eapply wp_get_info; [exact Ho|]. rewrite info_mkn, mk_set_pos by done. by eapply wp_update. Qed.

End at_cell.

(** Two nodes, [a] first. *)
Lemma wp_COPY s pre mid post a e x y f d c b e' x' y' f' d' c' (Q : unit → rbst E → Prop) :
  aligned f → aligned f' →
  own (rb_mem s) (pre ++ (a, mkn e x y (mk f d c)) :: mid ++ (b, mkn e' x' y' (mk f' d' c')) :: post) →
  (∀ h, own h (pre ++ (a, mkn e x y (mk f d' c')) :: mid ++ (b, mkn e' x' y' (mk f' d' c')) :: post) → Q tt (set_mem h s)) →
  wp (RB_COPY_PROPERTIES a b) Q s.
Proof.
  intros Hf Hf' Ho HQ. apply wp_bind. eapply wp_get_info; [exact Ho|]. rewrite info_mkn. apply wp_bind.
  eapply (wp_get_info s (pre ++ (a, mkn e x y (mk f d c)) :: mid)); [by rewrite <- app_assoc; exact Ho|].
  rewrite info_mkn, mk_copy by done. by eapply wp_set_info.
Qed.

Lemma wp_SWAP s pre mid post a e x y f d c b e' x' y' f' d' c' (Q : unit → rbst E → Prop) :
  aligned f → aligned f' →
  own (rb_mem s) (pre ++ (a, mkn e x y (mk f d c)) :: mid ++ (b, mkn e' x' y' (mk f' d' c')) :: post) →
  (∀ h, own h (pre ++ (a, mkn e x y (mk f d' c')) :: mid ++ (b, mkn e' x' y' (mk f' d c)) :: post) → Q tt (set_mem h s)) →
  wp (RB_SWAP_PROPERTIES a b) Q s.
Proof.
  intros Hf Hf' Ho HQ. apply wp_bind. eapply wp_get_info; [exact Ho|]. rewrite info_mkn. apply wp_bind.
  eapply (wp_get_info s (pre ++ (a, mkn e x y (mk f d c)) :: mid)); [by rewrite <- app_assoc; exact Ho|].
  rewrite info_mkn. apply wp_bind. rewrite mk_copy by done. eapply wp_set_info; [exact Ho|]. intros h Ho'. apply wp_bind.
  eapply (wp_get_info (set_mem h s) (pre ++ (a, mkn e x y (mk f d' c')) :: mid)); [by rewrite <- app_assoc; exact Ho'|].
  rewrite info_mkn, mk_swap by done.
  eapply (wp_set_info (set_mem h s) (pre ++ (a, mkn e x y (mk f d' c')) :: mid)); [by rewrite <- app_assoc; exact Ho'|].
  intros h' Ho2. rewrite <- app_assoc in Ho2. by apply HQ.
Qed.

End ops.
