(* ===== verification/RbRotate.v ===== *)
(** Red-black trees as a data type, the nodes they occupy in memory, positions in
    a tree, and rotations. *)

From S2P Require Import Prelude Words Rb RbMem.

Abbreviation cell := (Z * rb_node)%type.

(** * Trees *)

(** [c] tells whether the node is red. *)
Inductive tree : Set :=
  | Leaf
  | Node (c : bool) (l : tree) (p : Z) (r : tree).

#[global] Instance tree_eq_dec : EqDecision tree.
Proof. solve_decision. Defined.

Definition ptr (t : tree) : Z := match t with Leaf => 0 | Node _ _ p _ => p end.
Definition red (t : tree) : bool := match t with Leaf => false | Node c _ _ _ => c end.

(** A node with [a] on the side [e] and [b] on the other. *)
Definition nd (e c : bool) (a : tree) (p : Z) (b : tree) : tree := if e then Node c b p a else Node c a p b.

(** The nodes in order. *)
Fixpoint elems (t : tree) : list Z :=
  match t with Leaf => [] | Node _ l p r => elems l ++ p :: elems r end.

(** The memory of a tree whose root is the child on the side [d] of [f]. *)
Fixpoint cells (f : Z) (d : bool) (t : tree) : list cell :=
  match t with
  | Leaf => []
  | Node c l p r => (p, mkn false (ptr l) (ptr r) (mk f d c)) :: cells p false l ++ cells p true r
  end.

(** A position in a tree: the way up to the root. [Fr d c p t]: the child on the
    side [d] of [p], whose colour is [c] and whose other child is [t]. *)
Inductive frame : Set := Fr (d c : bool) (p : Z) (t : tree).
Abbreviation ctx := (list frame).

Fixpoint plug (t : tree) (k : ctx) : tree :=
  match k with
  | [] => t
  | Fr d c p s :: k => plug (nd d c t p s) k
  end.

Lemma ptr_nd e c a p b : ptr (nd e c a p b) = p.
Proof. by destruct e. Qed.

Lemma red_nd e c a p b : red (nd e c a p b) = c.
Proof. by destruct e. Qed.

Lemma nd_negb e c a p b : nd (negb e) c a p b = nd e c b p a.
Proof. by destruct e. Qed.

Lemma cells_nd f d e c a p b :
  cells f d (nd e c a p b) ≡ₚ (p, mkn e (ptr a) (ptr b) (mk f d c)) :: cells p e a ++ cells p (negb e) b.
Proof. destruct e; cbn; [|done]. by rewrite Permutation_app_comm. Qed.

Lemma tree_nd e t : t = Leaf ∨ ∃ c a p b, t = nd e c a p b.
Proof. destruct t as [|c l p r]; [by left|right]. destruct e; [by exists c, r, p, l|by exists c, l, p, r]. Qed.

Section position.
(** The address of the tree, and the fields of its header that are not links. *)
Context (rbt ops mn : Z).

(** The father of the position, and its side. *)
Definition kf (k : ctx) : Z := match k with [] => rbt | Fr _ _ p _ :: _ => p end.
Definition kp (k : ctx) : bool := match k with [] => false | Fr d _ _ _ :: _ => d end.

(** The memory of the way up, where the position holds [q]. *)
Fixpoint kcells (q : Z) (k : ctx) : list cell :=
  match k with
  | [] => [(rbt, mkn false q ops mn)]
  | Fr d c p s :: k => (p, mkn d q (ptr s) (mk (kf k) (kp k) c)) :: cells p (negb d) s ++ kcells p k
  end.

Definition tree_cells (t : tree) : list cell := cells rbt false t ++ [(rbt, mkn false (ptr t) ops mn)].

Lemma plug_cells t k : tree_cells (plug t k) ≡ₚ cells (kf k) (kp k) t ++ kcells (ptr t) k.
Proof.
  revert t. induction k as [|[d c p s] k IH]; intros t; [done|]. cbn [plug kcells kf kp]. rewrite IH, cells_nd, ptr_nd. perm.
Qed.

(** The link to the position. *)
Lemma kcells_link q k : ∃ n rest, kcells q k = (kf k, n) :: rest ∧ child (kp k) n = q ∧
  ∀ q', kcells q' k = (kf k, set_child (kp k) q' n) :: rest.
Proof.
  destruct k as [|[d c p s] k]; cbn.
  - by eexists _, _.
  - eexists _, _. split; [done|]. split; [apply child_mkn|]. intros q'. by rewrite set_child_mkn.
Qed.

End position.

(** The header is on every way up. *)
Lemma kcells_header rbt ops q k : ∃ r body, ∀ mn, kcells rbt ops mn q k ≡ₚ (rbt, mkn false r ops mn) :: body.
Proof.
  revert q. induction k as [|[d c p s] k IH]; intros q; [by exists q, []|].
  destruct (IH p) as (r & body & Hb). exists r, ((p, mkn d q (ptr s) (mk (kf rbt k) (kp k) c)) :: cells p (negb d) s ++ body).
  intros mn. cbn [kcells]. rewrite Hb. perm.
Qed.

(** * Running the code *)

(** [at_cell lem Ho]: [lem] at the cell that the code reads next. *)
Ltac at_cell lem Ho :=
  first [ eapply (lem _ _ []); [exact Ho|..]
        | eapply (lem _ _ [_]); [exact Ho|..]
        | eapply (lem _ _ [_; _]); [exact Ho|..]
        | eapply (lem _ _ [_; _; _]); [exact Ho|..]
        | eapply (lem _ _ [_; _; _; _]); [exact Ho|..]
        | eapply (lem _ _ [_; _; _; _; _]); [exact Ho|..] ].

Ltac at_info lem Ho :=
  first [ eapply (lem _ _ []); [|exact Ho|..]
        | eapply (lem _ _ [_]); [|exact Ho|..]
        | eapply (lem _ _ [_; _]); [|exact Ho|..]
        | eapply (lem _ _ [_; _; _]); [|exact Ho|..]
        | eapply (lem _ _ [_; _; _; _]); [|exact Ho|..]
        | eapply (lem _ _ [_; _; _; _; _]); [|exact Ho|..] ]; [by eauto|..].

(** One step of the code; [Ho] is what the state owns. *)
Ltac rb_step Ho :=
  lazymatch goal with
  | |- wp (mbind _ _) _ _ => apply wp_bind; rb_step Ho
  | |- wp (mret _) _ _ => apply wp_mret
  | |- wp (rb_nodes _ _) _ _ => at_cell (@wp_nodes) Ho; rewrite ?child_mkn, ?child_mkn_other
  | |- wp (set_rb_nodes _ _ _) _ _ =>
      at_cell (@wp_set_nodes) Ho; clear Ho; intros ? Ho; cbn [app] in Ho; rewrite ?set_child_mkn, ?set_child_mkn_other in Ho
  | |- wp (RB_FATHER _) _ _ => at_info (@wp_FATHER) Ho
  | |- wp (RB_POSITION _) _ _ => at_info (@wp_POSITION) Ho
  | |- wp (RB_RED_P _) _ _ => at_info (@wp_RED) Ho; [by eauto|]
  | |- wp (RB_BLACK_P _) _ _ => at_info (@wp_BLACK) Ho; [by eauto|]
  | |- wp (RB_SET_FATHER _ _) _ _ => at_info (@wp_SET_FATHER) Ho; [by eauto|]; clear Ho; intros ? Ho; cbn [app] in Ho
  | |- wp (RB_MARK_RED _) _ _ => at_info (@wp_MARK_RED) Ho; clear Ho; intros ? Ho; cbn [app] in Ho
  | |- wp (RB_MARK_BLACK _) _ _ => at_info (@wp_MARK_BLACK) Ho; clear Ho; intros ? Ho; cbn [app] in Ho
  | |- wp (RB_SET_POSITION _ _) _ _ => at_info (@wp_SET_POSITION) Ho; clear Ho; intros ? Ho; cbn [app] in Ho
  end; cbn beta.

Lemma sentinel_ne p : p ≠ 0 → RB_SENTINEL_P p = false.
Proof. apply Z.eqb_neq. Qed.

Section rotate.
Context {E : Type}.
Implicit Types s : rbst E.
Context (rbt ops mn : Z).
Abbreviation kcells := (kcells rbt ops mn).
Abbreviation kf := (kf rbt).

Lemma kf_aligned h L q k R : own h (L ++ kcells q k ++ R) → aligned (kf k) ∧ kf k ≠ 0.
Proof.
  destruct (kcells_link rbt ops mn q k) as (n & rest & -> & _). cbn. apply own_ptr.
Qed.

Lemma wp_reparent s e cf cc a q b p c k R (Q : unit → rbst E → Prop) :
  own (rb_mem s) (cells (kf k) (kp k) (nd e cf (nd e cc a q b) p c) ++ kcells p k ++ R) →
  (∀ h, own h (cells (kf k) (kp k) (nd e cf a q (nd e cc b p c)) ++ kcells q k ++ R) → Q tt (set_mem h s)) →
  wp (rb_tree_reparent_nodes p e) Q s.
Proof.
  intros Ho HQ. pose proof (kf_aligned _ _ _ _ _ Ho) as [Hg Hg0].
  destruct (kcells_link rbt ops mn p k) as (n & rest & Hk & Hn & Hk'). rewrite Hk in Ho.
  eapply own_perm in Ho; [|rewrite cells_nd, ptr_nd, cells_nd; reflexivity].
  eapply (own_perm _ _ ((q, mkn e (ptr a) (ptr b) (mk p e cc)) :: (p, mkn e q (ptr c) (mk (kf k) (kp k) cf)) :: (kf k, n) ::
    cells q (negb e) b ++ cells q e a ++ cells p (negb e) c ++ rest ++ R)) in Ho; [|perm].
  destruct (own_ptr _ [] _ _ _ Ho) as [Hq Hq0]. destruct (own_ptr _ [_] _ _ _ Ho) as [Hp Hp0].
  unfold rb_tree_reparent_nodes. cbv zeta. do 9 rb_step Ho.
  apply wp_bind. eapply (wp_SWAP _ [] []); [| |exact Ho|]; [by eauto..|]. clear Ho. intros h' Ho. cbn [app] in Ho.
  do 2 rb_step Ho.
  destruct (tree_nd e b) as [->|(cb & b1 & pb & b2 & ->)]; [|rewrite ptr_nd in *].
  - apply wp_mret. apply (HQ _). rewrite Hk'. eapply own_perm; [|exact Ho]. rewrite cells_nd, ptr_nd, cells_nd. cbn [cells ptr]. perm.
  - eapply (own_perm _ _ ((pb, mkn e (ptr b1) (ptr b2) (mk q (negb e) cb)) :: (p, mkn e pb (ptr c) (mk q (negb e) cc)) ::
      (q, mkn e (ptr a) p (mk (kf k) (kp k) cf)) :: (kf k, set_child (kp k) q n) ::
      cells pb e b1 ++ cells pb (negb e) b2 ++ cells q e a ++ cells p (negb e) c ++ rest ++ R)) in Ho; [|rewrite cells_nd; perm].
    destruct (own_ptr _ [] _ _ _ Ho) as [Hb Hb0]. rewrite (sentinel_ne pb Hb0). cbn [negb].
    do 3 rb_step Ho. apply (HQ _). rewrite Hk'. eapply own_perm; [|exact Ho]. rewrite cells_nd, ptr_nd, cells_nd, ptr_nd, cells_nd. perm.
Qed.

End rotate.

(** * Order *)

(** The nodes before and after a position. *)
Fixpoint kl (k : ctx) : list Z :=
  match k with
  | [] => []
  | Fr d _ p s :: k => kl k ++ if d then elems s ++ [p] else []
  end.
Fixpoint kr (k : ctx) : list Z :=
  match k with
  | [] => []
  | Fr d _ p s :: k => (if d then [] else p :: elems s) ++ kr k
  end.

Lemma elems_nd e c a p b : elems (nd e c a p b) = if e then elems b ++ p :: elems a else elems a ++ p :: elems b.
Proof. by destruct e. Qed.

Lemma elems_plug t k : elems (plug t k) = kl k ++ elems t ++ kr k.
Proof.
  revert t. induction k as [|[d c p s] k IH]; intros t; cbn [plug kl kr]; [by rewrite app_nil_r|].
  rewrite IH, elems_nd. destruct d; rewrite <- ?app_assoc; cbn; by rewrite ?app_nil_r, <- ?app_assoc.
Qed.

Lemma elems_rotate e cf cc a q b p c : elems (nd e cf (nd e cc a q b) p c) = elems (nd e cf a q (nd e cc b p c)).
Proof. destruct e; cbn; by rewrite <- ?app_assoc. Qed.

(** * Colours *)

(** No red node has a red child, and each way down has [n] black nodes. *)
Fixpoint valid (t : tree) (n : nat) : Prop :=
  match t with
  | Leaf => n = 0%nat
  | Node true l _ r => red l = false ∧ red r = false ∧ valid l n ∧ valid r n
  | Node false l _ r => ∃ m, n = S m ∧ valid l m ∧ valid r m
  end.

Definition rb (t : tree) : Prop := red t = false ∧ ∃ n, valid t n.

(** The colour of the father of a position. *)
Definition kred (k : ctx) : bool := match k with [] => false | Fr _ c _ _ :: _ => c end.

(** A position for a tree of black height [n]. *)
Fixpoint kvalid (k : ctx) (n : nat) : Prop :=
  match k with
  | [] => True
  | Fr _ c _ s :: k => valid s n ∧ (c = true → red s = false ∧ k ≠ [] ∧ kred k = false) ∧ kvalid k (if c then n else S n)
  end.

Lemma valid_red e a p b n : valid (nd e true a p b) n ↔ red a = false ∧ red b = false ∧ valid a n ∧ valid b n.
Proof. destruct e; cbn; tauto. Qed.

Lemma valid_black e a p b n : valid (nd e false a p b) n ↔ ∃ m, n = S m ∧ valid a m ∧ valid b m.
Proof. destruct e; cbn; naive_solver. Qed.

Lemma plug_rb t k n : valid t n → kvalid k n → (red t = true → k ≠ [] ∧ kred k = false) → rb (plug t k).
Proof.
  revert t n. induction k as [|[d c p s] k IH]; intros t n Ht Hk Hr; cbn [plug].
  - split; [|by exists n]. destruct (red t); [|done]. by destruct Hr.
  - destruct Hk as (Hs & Hc & Hk). eapply IH; [|exact Hk|rewrite red_nd; intros ->; by apply Hc]. destruct c.
    + apply valid_red. destruct Hc as (? & ? & ?); [done|]. split_and!; try done.
      destruct (red t); [|done]. by destruct Hr.
    + apply valid_black. by exists n.
Qed.

Lemma unplug_rb t k : rb (plug t k) → ∃ n, valid t n ∧ kvalid k n ∧ (red t = true → k ≠ [] ∧ kred k = false).
Proof.
  revert t. induction k as [|[d c p s] k IH]; intros t; cbn [plug].
  - intros [Hr [n Hn]]. exists n. split_and!; [done..|]. congruence.
  - intros (n & Hn & Hk & Hc)%IH. rewrite red_nd in Hc. destruct c.
    + apply valid_red in Hn as (? & ? & ? & ?). exists n. split; [done|]. split; [|congruence]. cbn. split_and!; try done. intros _. split; [done|]. by apply Hc.
    + apply valid_black in Hn as (m & -> & ? & ?). exists m. split_and!; try done.
Qed.

(** * Trees in memory *)

Section at_pos.
Context (rbt ops mn : Z).
Abbreviation kcells := (kcells rbt ops mn).
Abbreviation kf := (kf rbt).

(** [h] holds the tree [plug t k], and the cells [R]. *)
Definition at_pos (h : gmap Z rb_node) (t : tree) (k : ctx) (R : list cell) : Prop :=
  own h (cells (kf k) (kp k) t ++ kcells (ptr t) k ++ R).

Lemma at_plug h t k R : at_pos h t k R ↔ own h (tree_cells rbt ops mn (plug t k) ++ R).
Proof.
  unfold at_pos. split; apply own_perm; rewrite plug_cells, <- app_assoc; done.
Qed.

Lemma at_up h d c p t s k R : at_pos h t (Fr d c p s :: k) R ↔ at_pos h (nd d c t p s) k R.
Proof. by rewrite !at_plug. Qed.

End at_pos.
