(* ===== verification/RbInsert.v ===== *)
(** Insertion into a red-black tree: [rb_tree_insert_rebalance] restores the
    colours and keeps the order. *)

From S2P Require Import Prelude Words Rb RbMem RbRotate.

Section insert.
Context {E : Type}.
Implicit Types s : rbst E.
Context (rbt ops mn : Z).
Abbreviation kcells := (kcells rbt ops mn).
Abbreviation kf := (kf rbt).
Abbreviation at_pos := (at_pos rbt ops mn).

Lemma wp_reparent_at s e cf cc a q b p c k R (Q : unit → rbst E → Prop) :
  at_pos (rb_mem s) (nd e cf (nd e cc a q b) p c) k R →
  (∀ h, at_pos h (nd e cf a q (nd e cc b p c)) k R → Q tt (set_mem h s)) →
  wp (rb_tree_reparent_nodes p e) Q s.
Proof.
  unfold RbRotate.at_pos. rewrite ptr_nd. intros Ho HQ. eapply wp_reparent; [exact Ho|]. intros h Ho'. apply HQ. by rewrite ptr_nd.
Qed.

(** ** The root of a subtree *)

Lemma wp_BLACK_tree s f d t L Q : own (rb_mem s) (cells f d t ++ L) → aligned f →
  Q (negb (red t)) s → wp (RB_BLACK_P (ptr t)) Q s.
Proof.
  intros Ho Hf HQ. destruct t as [|c l p r]; [by apply wp_mret|]. cbn [cells app] in Ho. destruct (own_ptr _ [] _ _ _ Ho) as [_ Hp].
  cbn [ptr]. rb_step Ho. done.
Qed.

Lemma wp_RED_tree s f d t L Q : own (rb_mem s) (cells f d t ++ L) → aligned f → Q (red t) s → wp (RB_RED_P (ptr t)) Q s.
Proof.
  intros Ho Hf HQ. destruct t as [|c l p r]; [by apply wp_mret|]. cbn [cells app] in Ho. destruct (own_ptr _ [] _ _ _ Ho) as [_ Hp].
  cbn [ptr]. rb_step Ho. done.
Qed.

Definition paint (c : bool) (t : tree) : tree := match t with Leaf => Leaf | Node _ l p r => Node c l p r end.

Lemma wp_MARK_BLACK_tree s f d t L (Q : unit → rbst E → Prop) : own (rb_mem s) (cells f d t ++ L) → aligned f → t ≠ Leaf →
  (∀ h, own h (cells f d (paint false t) ++ L) → Q tt (set_mem h s)) → wp (RB_MARK_BLACK (ptr t)) Q s.
Proof. intros Ho Hf Ht HQ. destruct t as [|c l p r]; [done|]. cbn [ptr]. cbn [cells app] in Ho. rb_step Ho. by apply HQ. Qed.

Lemma wp_MARK_RED_tree s f d t L (Q : unit → rbst E → Prop) : own (rb_mem s) (cells f d t ++ L) → aligned f → t ≠ Leaf →
  (∀ h, own h (cells f d (paint true t) ++ L) → Q tt (set_mem h s)) → wp (RB_MARK_RED (ptr t)) Q s.
Proof. intros Ho Hf Ht HQ. destruct t as [|c l p r]; [done|]. cbn [ptr]. cbn [cells app] in Ho. rb_step Ho. by apply HQ. Qed.

Lemma root_on_way t k q : k ≠ [] → ∃ n, (ptr (plug t k), n) ∈ kcells q k.
Proof.
  revert t q. induction k as [|[d c p u] k IH]; intros t q Hk; [done|]. cbn [plug RbRotate.kcells].
  destruct k as [|fr k]; [cbn [plug]; rewrite ptr_nd; eexists; apply list_elem_of_here|].
  destruct (IH (nd d c t p u) p) as [n Hn]; [done|]. exists n. right. apply elem_of_app. by right.
Qed.

Lemma wp_root s t k R Q : at_pos (rb_mem s) t k R → Q (ptr (plug t k)) s → wp (rbt_root rbt) Q s.
Proof.
  intros Ho%at_plug HQ. unfold tree_cells in Ho. eapply (wp_nodes s (cells rbt false (plug t k))); [by rewrite <- app_assoc in Ho|done].
Qed.

Lemma wp_ROOT_P s t k R Q : at_pos (rb_mem s) t k R → t ≠ Leaf →
  Q (match k with [] => true | _ => false end) s → wp (RB_ROOT_P rbt (ptr t)) Q s.
Proof.
  intros Ho Ht HQ. apply wp_bind. eapply wp_root; [exact Ho|]. apply wp_mret.
  destruct (decide (k = [])) as [->|Hk]; [by rewrite Z.eqb_refl|].
  rewrite (proj2 (Z.eqb_neq _ _)); [by destruct k|]. destruct (root_on_way t k (ptr t) Hk) as [n Hn].
  destruct t as [|c l p r]; [done|]. pose proof (own_nd _ _ Ho) as Hnd. cbn in Hnd. apply NoDup_cons in Hnd as [Hnd _]. intros Eq. apply Hnd.
  cbn [ptr] in Eq, Hn. rewrite Eq in Hn. rewrite fmap_app. apply elem_of_app. right. rewrite fmap_app. apply elem_of_app. left.
  exact (list_elem_of_fmap_2 fst _ _ Hn).
Qed.

Lemma at_kf h t k R : at_pos h t k R → aligned (kf k) ∧ kf k ≠ 0.
Proof. apply kf_aligned. Qed.

(** The father of a position other than the root. *)
Lemma wp_BLACK_kf s t k R Q : at_pos (rb_mem s) t k R → k ≠ [] → Q (negb (kred k)) s → wp (RB_BLACK_P (kf k)) Q s.
Proof.
  intros Ho Hk HQ. destruct k as [|[d c p u] k]; [done|]. pose proof (at_kf _ _ _ _ Ho) as [_ Hp].
  pose proof (proj1 (at_kf _ _ _ _ (proj1 (at_up _ _ _ _ _ _ _ _ _ _ _) Ho))) as Hf. unfold RbRotate.at_pos in Ho. cbn [RbRotate.kf kp RbRotate.kcells] in *.
  eapply (own_perm _ _ ((p, mkn d (ptr t) (ptr u) (mk (kf k) (kp k) c)) :: cells p d t ++ cells p (negb d) u ++ kcells p k ++ R)) in Ho; [|perm].
  rb_step Ho. done.
Qed.

Lemma wp_RED_kf s t k R Q : at_pos (rb_mem s) t k R → k ≠ [] → Q (kred k) s → wp (RB_RED_P (kf k)) Q s.
Proof.
  intros Ho Hk HQ. destruct k as [|[d c p u] k]; [done|]. pose proof (at_kf _ _ _ _ Ho) as [_ Hp].
  pose proof (proj1 (at_kf _ _ _ _ (proj1 (at_up _ _ _ _ _ _ _ _ _ _ _) Ho))) as Hf. unfold RbRotate.at_pos in Ho. cbn [RbRotate.kf kp RbRotate.kcells] in *.
  eapply (own_perm _ _ ((p, mkn d (ptr t) (ptr u) (mk (kf k) (kp k) c)) :: cells p d t ++ cells p (negb d) u ++ kcells p k ++ R)) in Ho; [|perm].
  rb_step Ho. done.
Qed.

Lemma wp_FATHER_at s t k R Q : at_pos (rb_mem s) t k R → t ≠ Leaf → Q (kf k) s → wp (RB_FATHER (ptr t)) Q s.
Proof.
  intros Ho Ht HQ. destruct (at_kf _ _ _ _ Ho) as [Hf _]. destruct t as [|c l p r]; [done|]. unfold RbRotate.at_pos in Ho. cbn [cells app ptr] in *.
  rb_step Ho. done.
Qed.

Lemma set_mem_id s : set_mem (rb_mem s) s = s.
Proof. by destruct s. Qed.

(** A pass of the loop: the uncle is black, or the colours of the uncle, the
    father and the grandfather change. *)
Lemma wp_insert_loop fuel : ∀ s t k n R (Q : option (Z * Z * Z * bool) → rbst E → Prop),
  at_pos (rb_mem s) t k R → valid t n → red t = true → kvalid k n → kred k = true → (length k ≤ fuel)%nat →
  (∀ h T, own h (tree_cells rbt ops mn T ++ R) → rb T → elems T = elems (plug t k) → Q None (set_mem h s)) →
  (∀ h t' n' d1 f w d2 g u k2, let k' := Fr d1 true f w :: Fr d2 false g u :: k2 in
     at_pos h t' k' R → valid t' n' → red t' = true → kvalid k' n' → red u = false → elems (plug t' k') = elems (plug t k) →
     Q (Some (ptr t', f, g, d2)) (set_mem h s)) →
  wp (insert_rebalance_loop rbt fuel (ptr t) (kf k)) Q s.
Proof.
  induction fuel as [|fuel IH]; intros s t k n R Q Ho Ht Hrt Hk Hrk Hlen HN HS; [destruct k; cbn in *; [done|lia]|].
  destruct k as [|[d1 c1 f w] k1]; [done|]. cbn in Hrk. subst c1. destruct Hk as (Hw & Hc1 & Hk1).
  destruct Hc1 as (Hrw & Hk1n & Hrk1); [done|]. destruct k1 as [|[d2 c2 g u] k2]; [done|]. cbn in Hrk1. subst c2.
  pose proof Hk1 as (Hu & _ & Hk2). cbn [insert_rebalance_loop].
  pose proof (proj1 (at_up _ _ _ _ _ _ _ _ _ _ _) Ho) as Ho1. pose proof (proj1 (at_up _ _ _ _ _ _ _ _ _ _ _) Ho1) as Ho2.
  destruct (at_kf _ _ _ _ Ho) as [Hfa Hf0]. destruct (at_kf _ _ _ _ Ho1) as [Hga Hg0]. destruct (at_kf _ _ _ _ Ho2) as [Hka _].
  cbn [RbRotate.kf kp] in Hfa, Hf0, Hga, Hg0. set (X := cells f d1 t ++ cells f (negb d1) w ++ kcells g k2 ++ R).
  assert (own (rb_mem s) ((f, mkn d1 (ptr t) (ptr w) (mk g d2 true)) :: (g, mkn d2 f (ptr u) (mk (kf k2) (kp k2) false)) ::
    cells g (negb d2) u ++ X)) as HL.
  { eapply own_perm; [|exact Ho]. cbn [RbRotate.kf kp RbRotate.kcells]. unfold X. perm. }
  cbn [RbRotate.kf kp]. rb_step HL. apply wp_bind. at_cell (@wp_nodes) HL. cbn zeta.
  assert ((f =? child true (mkn d2 f (ptr u) (mk (kf k2) (kp k2) false))) = d2) as ->.
  { destruct d2; [apply Z.eqb_refl|apply Z.eqb_neq]. cbn. destruct u as [|cu ul pu ur]; [done|]. cbn. intros <-.
    pose proof (own_nd _ _ HL) as Hnd. cbn in Hnd. apply NoDup_cons in Hnd as [Hnd _]. apply Hnd. right. left. }
  rb_step HL. apply wp_bind.
  assert (own (rb_mem s) (cells g (negb d2) u ++ (f, mkn d1 (ptr t) (ptr w) (mk g d2 true)) ::
    (g, mkn d2 f (ptr u) (mk (kf k2) (kp k2) false)) :: X)) as HL' by (eapply own_perm; [|exact HL]; perm).
  eapply wp_BLACK_tree; [exact HL'|done|]. destruct (red u) eqn:Eu; cbn [negb].
  2: { apply wp_mret. rewrite <- (set_mem_id s). eapply HS; [exact Ho|..]; try done. }
  assert (u ≠ Leaf) as Hul by (by intros ->). apply wp_bind. eapply wp_MARK_BLACK_tree; [exact HL'|done..|]. clear HL HL'. intros h1 HL.
  eapply (own_perm _ _ ((f, mkn d1 (ptr t) (ptr w) (mk g d2 true)) :: (g, mkn d2 f (ptr u) (mk (kf k2) (kp k2) false)) ::
    cells g (negb d2) (paint false u) ++ X)) in HL; [|perm].
  rb_step HL. set (T b := nd d2 b (nd d1 false t f w) g (paint false u)). assert (∀ b, ptr (T b) = g) as HpT by (intros; apply ptr_nd).
  assert (ptr (paint false u) = ptr u) as Hpu by (by destruct u).
  assert (at_pos h (T false) k2 R) as Ho3.
  { eapply own_perm; [|exact HL]. unfold T, X. rewrite ptr_nd, cells_nd, ptr_nd, cells_nd, Hpu. perm. }
  apply wp_bind. rewrite <- (HpT false) at 1. eapply wp_ROOT_P; [exact Ho3|unfold T; by destruct d2|].
  assert (elems (T false) = elems (nd d2 false (nd d1 true t f w) g u)) as Hel.
  { unfold T. rewrite !elems_nd. by destruct u. }
  assert (valid (paint false u) (S n)) as Hvu.
  { destruct u as [|[] ul pu ur]; try done. cbn in Hu |- *. exists n. tauto. }
  assert (valid (nd d1 false t f w) (S n)) as Hvf by (apply valid_black; by exists n).
  destruct k2 as [|fr2 k2'] eqn:Ek2.
  { apply wp_mret. apply (HN _ (T false)); [by apply at_plug in Ho3|split; [by unfold T; rewrite red_nd|exists (S (S n)); apply valid_black; by eauto]|].
    cbn [plug]. exact Hel. }
  rewrite <- Ek2 in *. assert (k2 ≠ []) as Hk2n by congruence. clear Ek2. clear HL.
  assert (own h (cells (kf k2) (kp k2) (T false) ++ kcells g k2 ++ R)) as HL by (unfold RbRotate.at_pos in Ho3; by rewrite HpT in Ho3).
  apply wp_bind. rewrite <- (HpT false) at 1. eapply wp_MARK_RED_tree; [exact HL|done|unfold T; by destruct d2|].
  intros h' HL'. replace (paint true (T false)) with (T true) in HL' by (unfold T; by destruct d2).
  assert (at_pos h' (T true) k2 R) as Ho4 by (unfold RbRotate.at_pos; by rewrite HpT).
  apply wp_bind. rewrite <- (HpT true) at 1. eapply wp_FATHER_at; [exact Ho4|unfold T; by destruct d2|].
  assert (elems (plug (T true) k2) = elems (plug t (Fr d1 true f w :: Fr d2 false g u :: k2))) as Hel'.
  { cbn [plug]. rewrite !elems_plug. f_equal. f_equal. transitivity (elems (T false)); [unfold T; by rewrite !elems_nd|exact Hel]. }
  assert (valid (T true) (S n)) as HvT.
  { apply valid_red. split_and!; try done; [by rewrite red_nd|by destruct u]. }
  apply wp_bind. eapply wp_BLACK_kf; [exact Ho4|done|]. destruct (kred k2) eqn:Er; cbn [negb].
  - cbn in Hlen. replace (insert_rebalance_loop rbt fuel g) with (insert_rebalance_loop (E := E) rbt fuel (ptr (T true))) by (by rewrite HpT).
    eapply IH; [exact Ho4|exact HvT|unfold T; by rewrite red_nd|exact Hk2|done|lia|..].
    + intros h2 T2 H1 H2 H3. apply (HN _ T2); congruence.
    + intros h2 t2 n2 e1 f2 w2 e2 g2 u2 k3 k' H1 H2 H3 H4 H5 H6. eapply HS; [exact H1|exact H2|exact H3|exact H4|exact H5|etrans; [exact H6|exact Hel']].
  - apply wp_mret. apply (HN _ (plug (T true) k2)); [by apply at_plug in Ho4|by eapply plug_rb|done].
Qed.

Lemma plug_nonleaf t k : t ≠ Leaf → plug t k ≠ Leaf.
Proof. revert t. induction k as [|[d c p w] k IH]; intros t Ht; [done|]. cbn. apply IH. by destruct d. Qed.

(** Cases 2 and 3 of the source: one or two rotations. *)
Lemma wp_insert_tail s t k n d1 f w d2 g u k2 R (Q : unit → rbst E → Prop) :
  k = Fr d1 true f w :: Fr d2 false g u :: k2 →
  at_pos (rb_mem s) t k R → valid t n → red t = true → kvalid k n → red u = false →
  (∀ h T, own h (tree_cells rbt ops mn T ++ R) → rb T → elems T = elems (plug t k) → Q tt (set_mem h s)) →
  wp (let other := negb d2 in
      c ← rb_nodes f other;
      when (ptr t =? c) (rb_tree_reparent_nodes f other);;
      rb_tree_reparent_nodes g d2;;
      root ← rbt_root rbt;
      RB_MARK_BLACK root) Q s.
Proof.
  intros -> Ho Ht Hrt (Hw & Hc & Hu & _ & Hk2) Hru HQ. destruct Hc as (Hrw & _ & _); [done|]. cbv zeta.
  assert (t ≠ Leaf) as Htl by (by intros ->).
  (* the last rotation, for a father on the outer side *)
  assert (∀ h a q b, at_pos h (nd d2 false (nd d2 true a q b) g u) k2 R → valid a n → valid b n → red b = false →
    elems (nd d2 false (nd d2 true a q b) g u) = elems (nd d2 false (nd d1 true t f w) g u) →
    wp (rb_tree_reparent_nodes g d2;; root ← rbt_root rbt; RB_MARK_BLACK root) Q (set_mem h s)) as Hlast.
  { intros h a q b Ha Hva Hvb Hrb Hel. apply wp_bind. eapply wp_reparent_at; [exact Ha|]. intros h1 Ho1. apply wp_bind.
    eapply wp_root; [exact Ho1|]. set (T := plug _ k2) in *.
    assert (rb T) as HrT.
    { eapply (plug_rb _ _ (S n)); [|exact Hk2|by rewrite red_nd]. apply valid_black. exists n. split; [done|]. split; [done|].
      apply valid_red. done. }
    apply at_plug in Ho1. fold T in Ho1. unfold tree_cells in Ho1. rewrite <- app_assoc in Ho1.
    eapply wp_MARK_BLACK_tree; [exact Ho1|exact (proj1 (own_ptr _ _ _ _ _ Ho1))|apply plug_nonleaf; by destruct d2|].
    intros h2 Ho2. apply (HQ _ T); [|done|].
    - unfold tree_cells. rewrite <- app_assoc. destruct T as [|[] ? ? ?]; try done. by destruct HrT.
    - unfold T. cbn [plug]. rewrite !elems_plug. do 2 f_equal. by rewrite <- elems_rotate. }
  pose proof (proj1 (at_up _ _ _ _ _ _ _ _ _ _ _) Ho) as Ho1. pose proof Ho as HL. unfold RbRotate.at_pos in HL. cbn [RbRotate.kcells RbRotate.kf kp] in HL.
  eapply (own_perm _ _ ((f, mkn d1 (ptr t) (ptr w) (mk g d2 true)) :: cells f d1 t ++ cells f (negb d1) w ++
    (g, mkn d2 f (ptr u) (mk (kf k2) (kp k2) false)) :: cells g (negb d2) u ++ kcells g k2 ++ R)) in HL; [|perm].
  apply wp_bind. at_cell (@wp_nodes) HL. destruct (decide (d1 = d2)) as [->|Hd].
  - rewrite child_mkn_other, (proj2 (Z.eqb_neq _ _)).
    + cbn [when]. apply wp_bind, wp_mret. rewrite <- (set_mem_id s). apply (Hlast _ t f w); try done. exact (proj1 (at_up _ _ _ _ _ _ _ _ _ _ _) Ho1).
    + destruct t as [|c l p r]; [done|]. destruct (own_ptr _ [_] _ _ _ HL) as [_ Hp]. destruct w as [|cw lw pw rw]; [done|]. cbn. intros ->.
      pose proof (own_nd _ _ HL) as Hnd. cbn in Hnd. apply NoDup_cons in Hnd as [_ Hnd]. apply NoDup_cons in Hnd as [Hnd _]. apply Hnd.
      rewrite !fmap_app. apply elem_of_app. right. left.
  - assert (d1 = negb d2) as -> by (by destruct d1, d2). rewrite child_mkn, Z.eqb_refl. cbn [when].
    destruct (tree_nd (negb d2) t) as [->|(ct & x & pt & y & ->)]; [done|]. rewrite red_nd in Hrt. subst ct.
    apply valid_red in Ht as (Hrx & Hry & Hvx & Hvy).
    apply wp_bind. eapply wp_reparent_at; [exact Ho1|]. intros h Ho2. rewrite (nd_negb d2 true x pt) in Ho2. apply (proj1 (at_up _ _ _ _ _ _ _ _ _ _ _)) in Ho2.
    apply (Hlast h (nd (negb d2) true y f w) pt x); try done; [by apply valid_red|].
    rewrite !elems_nd. destruct d2; cbn; rewrite ?elems_nd; cbn; rewrite <- ?app_assoc; cbn; rewrite <- ?app_assoc; done.
Qed.

Lemma wp_insert_rebalance fuel s t k n R (Q : unit → rbst E → Prop) :
  at_pos (rb_mem s) t k R → valid t n → red t = true → kvalid k n → kred k = true → (length k ≤ fuel)%nat →
  (∀ h T, own h (tree_cells rbt ops mn T ++ R) → rb T → elems T = elems (plug t k) → Q tt (set_mem h s)) →
  wp (rb_tree_insert_rebalance rbt fuel (ptr t)) Q s.
Proof.
  intros Ho Ht Hrt Hk Hrk Hlen HQ. assert (t ≠ Leaf) as Htl by (by intros ->). unfold rb_tree_insert_rebalance.
  apply wp_bind. eapply wp_FATHER_at; [exact Ho|done|]. destruct k as [|[d c f w] k]; [done|].
  apply wp_bind. cbn [RbRotate.kf]. rewrite <- (ptr_nd d c t f w) at 1.
  eapply wp_FATHER_at; [exact (proj1 (at_up _ _ _ _ _ _ _ _ _ _ _) Ho)|by destruct d|].
  apply wp_bind. eapply (wp_insert_loop _ _ _ (Fr d c f w :: k)); [exact Ho|exact Ht|done|done|done|done|..].
  - intros h T H1 H2 H3. apply wp_mret. by apply (HQ _ T).
  - intros h t' n' d1 f' w' d2 g u k2 k' H1 H2 H3 H4 H5 H6. eapply (wp_insert_tail (set_mem h s)); [reflexivity|exact H1|exact H2|done|exact H4|done|].
    intros h' T H7 H8 H9. apply (HQ _ T); [done|done|]. etrans; [exact H9|exact H6].
Qed.

End insert.
