(* ===== verification/RbRemove.v ===== *)
(** Removal from a red-black tree: [rb_tree_removal_rebalance] restores the
    colours and keeps the order. *)

From S2P Require Import Prelude Words Rb RbMem RbRotate RbInsert.

Section remove.
Context {E : Type}.
Implicit Types s : rbst E.
Context (rbt ops mn : Z).
Abbreviation kcells := (kcells rbt ops mn).
Abbreviation kf := (kf rbt).
Abbreviation at_pos := (at_pos rbt ops mn).

Lemma wp_black_children s f d c l p r L Q :
  own (rb_mem s) (cells f d (Node c l p r) ++ L) → Q (negb (red l) && negb (red r)) s → wp (black_children p) Q s.
Proof.
  intros Ho HQ. cbn [cells app] in Ho. destruct (own_ptr _ [] _ _ _ Ho) as [Hp _].
  set (x := (p, mkn false (ptr l) (ptr r) (mk f d c))) in *.
  assert (own (rb_mem s) (cells p false l ++ x :: cells p true r ++ L)) as Hl by (eapply own_perm; [|exact Ho]; perm).
  assert (own (rb_mem s) (cells p true r ++ x :: cells p false l ++ L)) as Hr by (eapply own_perm; [|exact Ho]; perm).
  apply wp_andM. rb_step Ho. eapply (wp_BLACK_tree s p false l); [exact Hl|done|]. destruct (red l); cbn [negb andb] in *; [done|].
  rb_step Ho. by eapply (wp_BLACK_tree s p true r).
Qed.

(** What the code knows of the position whose black height is one short: the
    father [p] on the side [d] of which it is, and the brother, a node [q] with the
    near and the far nephew. *)
Section short.
Context (d c : bool) (p : Z) (cq : bool) (near : tree) (q : Z) (far : tree) (t : tree) (k : ctx) (R : list cell).
Abbreviation brother := (nd d cq near q far).

(** The tree with the father on top. *)
Lemma at_father h : at_pos h t (Fr d c p brother :: k) R ↔
  at_pos h (nd (negb d) c (nd (negb d) cq far q near) p t) k R.
Proof. rewrite at_up. by rewrite !nd_negb. Qed.

Lemma at_cells h : at_pos h t (Fr d c p brother :: k) R ↔
  own h (cells p (negb d) brother ++ (p, mkn d (ptr t) q (mk (kf k) (kp k) c)) :: cells p d t ++ kcells p k ++ R).
Proof.
  unfold RbRotate.at_pos. cbn [RbRotate.kf kp RbRotate.kcells]. rewrite ptr_nd. split; apply own_perm; perm.
Qed.

Lemma wp_brother_children s Q : at_pos (rb_mem s) t (Fr d c p brother :: k) R →
  Q (negb (red near) && negb (red far)) s → wp (black_children q) Q s.
Proof.
  intros Ho%at_cells HQ. destruct d; (eapply wp_black_children; [exact Ho|]); [|done]. by rewrite andb_comm.
Qed.

Lemma wp_brother_far s Q : at_pos (rb_mem s) t (Fr d c p brother :: k) R → Q (ptr far) s → wp (rb_nodes q (negb d)) Q s.
Proof.
  intros Ho%at_cells HQ. eapply own_perm in Ho; [|rewrite cells_nd; reflexivity]. at_cell (@wp_nodes) Ho. by rewrite child_mkn_other.
Qed.

Lemma wp_father_brother s Q : at_pos (rb_mem s) t (Fr d c p brother :: k) R → Q q s → wp (rb_nodes p (negb d)) Q s.
Proof.
  intros Ho%at_cells HQ. eapply wp_nodes; [exact Ho|]. by rewrite child_mkn_other.
Qed.

Lemma wp_father_self s Q : at_pos (rb_mem s) t (Fr d c p brother :: k) R → Q (ptr t) s → wp (rb_nodes p d) Q s.
Proof. intros Ho%at_cells HQ. eapply wp_nodes; [exact Ho|]. by rewrite child_mkn. Qed.

Lemma wp_father_red s Q : at_pos (rb_mem s) t (Fr d c p brother :: k) R → Q c s → wp (RB_RED_P p) Q s.
Proof. intros Ho HQ. by eapply (wp_RED_kf rbt ops mn s t (Fr d c p brother :: k)). Qed.

Lemma wp_father_black s Q : at_pos (rb_mem s) t (Fr d c p brother :: k) R → Q (negb c) s → wp (RB_BLACK_P p) Q s.
Proof. intros Ho HQ. by eapply (wp_BLACK_kf rbt ops mn s t (Fr d c p brother :: k)). Qed.

Lemma brother_father h : at_pos h t (Fr d c p brother :: k) R → aligned p.
Proof. intros Ho. exact (proj1 (at_kf _ _ _ _ _ _ _ Ho)). Qed.

Lemma wp_brother_red s Q : at_pos (rb_mem s) t (Fr d c p brother :: k) R → Q cq s → wp (RB_RED_P q) Q s.
Proof.
  intros Ho HQ. pose proof (brother_father _ Ho). apply at_cells in Ho. rewrite <- (ptr_nd d cq near q far) at 1.
  eapply wp_RED_tree; [exact Ho|done|by rewrite red_nd].
Qed.

Lemma wp_brother_black s Q : at_pos (rb_mem s) t (Fr d c p brother :: k) R → Q (negb cq) s → wp (RB_BLACK_P q) Q s.
Proof.
  intros Ho HQ. pose proof (brother_father _ Ho). apply at_cells in Ho. rewrite <- (ptr_nd d cq near q far) at 1.
  eapply wp_BLACK_tree; [exact Ho|done|by rewrite red_nd].
Qed.

End short.

(** Case 4: the brother is black and the far nephew red. *)
Lemma wp_case_4 s d c p near q far t k n R (Q : unit → rbst E → Prop) :
  at_pos (rb_mem s) t (Fr d c p (nd d false near q far) :: k) R → valid t n → red t = false →
  kvalid (Fr d c p (nd d false near q far) :: k) (S n) → red far = true →
  (∀ h T, own h (tree_cells rbt ops mn T ++ R) → rb T → elems T = elems (plug t (Fr d c p (nd d false near q far) :: k)) →
     Q tt (set_mem h s)) →
  wp (far ← rb_nodes q (negb d); RB_MARK_BLACK far;; rb_tree_reparent_nodes p (negb d)) Q s.
Proof.
  intros Ho Ht Hrt (Hb & Hc & Hk) Hfar HQ. apply wp_bind. eapply wp_brother_far; [exact Ho|].
  apply valid_black in Hb as (m & [= <-] & Hnear & Hvf).
  assert (far ≠ Leaf) as Hfl by (by intros ->). pose proof Ho as Hf%brother_father.
  apply at_cells in Ho. eapply own_perm in Ho; [|rewrite cells_nd; reflexivity].
  destruct (own_ptr _ [] _ _ _ Ho) as [Hq _]. apply wp_bind.
  eapply (wp_MARK_BLACK_tree s q (negb d) far (cells q d near ++ (q, mkn d (ptr near) (ptr far) (mk p (negb d) false)) ::
    (p, mkn d (ptr t) q (mk (kf k) (kp k) c)) :: cells p d t ++ kcells p k ++ R)); [eapply own_perm; [|exact Ho]; perm|done..|].
  clear Ho. intros h Ho. assert (ptr (paint false far) = ptr far) as Hpf by (by destruct far).
  assert (at_pos h t (Fr d c p (nd d false near q (paint false far)) :: k) R) as Ho1.
  { apply at_cells. eapply own_perm; [|exact Ho]. rewrite cells_nd, Hpf. perm. }
  apply at_father in Ho1. eapply wp_reparent_at; [exact Ho1|]. intros h' Ho2.
  apply (HQ _ (plug (nd (negb d) c (paint false far) q (nd (negb d) false near p t)) k)); [by apply at_plug in Ho2| |].
  - assert (valid (paint false far) (S n)) as Hvf' by (destruct far as [|[] fl fp fr]; try done; cbn in Hvf |- *; exists n; tauto).
    assert (valid (nd (negb d) false near p t) (S n)) as Hvn by (apply valid_black; eauto).
    destruct c.
    + destruct Hc as (_ & ? & ?); [done|]. eapply plug_rb; [|exact Hk|by rewrite red_nd]. apply valid_red. split_and!; try done; [by destruct far|by rewrite red_nd].
    + eapply plug_rb; [|exact Hk|by rewrite red_nd]. apply valid_black. eauto.
  - cbn [plug]. rewrite !elems_plug. do 2 f_equal. rewrite <- elems_rotate, !nd_negb, !elems_nd. by destruct far.
Qed.

Lemma at_brother h t d c p w k R : at_pos h t (Fr d c p w :: k) R → at_pos h w (Fr (negb d) c p t :: k) R.
Proof. by rewrite !at_up, nd_negb. Qed.

Lemma at_self h t d c p w k R : at_pos h w (Fr (negb d) c p t :: k) R → at_pos h t (Fr d c p w :: k) R.
Proof. by rewrite !at_up, nd_negb. Qed.

Lemma at_other h d c a p b k R : at_pos h (nd d c a p b) k R ↔ at_pos h b (Fr (negb d) c p a :: k) R.
Proof. by rewrite at_up, nd_negb. Qed.

Lemma paint_nd c e c' a p b : paint c (nd e c' a p b) = nd e c a p b.
Proof. by destruct e. Qed.

Lemma ptr_paint c t : ptr (paint c t) = ptr t.
Proof. by destruct t. Qed.

Lemma wp_MARK_BLACK_at s c e a p b k R (Q : unit → rbst E → Prop) : at_pos (rb_mem s) (nd e c a p b) k R →
  (∀ h, at_pos h (nd e false a p b) k R → Q tt (set_mem h s)) → wp (RB_MARK_BLACK p) Q s.
Proof.
  intros Ho HQ. rewrite <- (ptr_nd e c a p b) at 1. eapply wp_MARK_BLACK_tree; [exact Ho|by eapply at_kf|by destruct e|].
  intros h Ho'. apply HQ. rewrite paint_nd, ptr_nd in Ho'. unfold RbRotate.at_pos. by rewrite ptr_nd.
Qed.

Lemma wp_MARK_RED_at s c e a p b k R (Q : unit → rbst E → Prop) : at_pos (rb_mem s) (nd e c a p b) k R →
  (∀ h, at_pos h (nd e true a p b) k R → Q tt (set_mem h s)) → wp (RB_MARK_RED p) Q s.
Proof.
  intros Ho HQ. rewrite <- (ptr_nd e c a p b) at 1. eapply wp_MARK_RED_tree; [exact Ho|by eapply at_kf|by destruct e|].
  intros h Ho'. apply HQ. rewrite paint_nd, ptr_nd in Ho'. unfold RbRotate.at_pos. by rewrite ptr_nd.
Qed.

(** Cases 3 and 4: a nephew is red. *)
Lemma wp_case_3_4 s d c p near q far t k n R (Q : unit → rbst E → Prop) :
  at_pos (rb_mem s) t (Fr d c p (nd d false near q far) :: k) R → valid t n → red t = false →
  kvalid (Fr d c p (nd d false near q far) :: k) (S n) → red near || red far = true →
  (∀ h T, own h (tree_cells rbt ops mn T ++ R) → rb T → elems T = elems (plug t (Fr d c p (nd d false near q far) :: k)) →
     Q tt (set_mem h s)) →
  wp (far ← rb_nodes q (negb d);
      b ← RB_BLACK_P far;
      brother ← (if (b : bool) then rb_tree_reparent_nodes q d;; rb_nodes p (negb d) else mret q);
      far ← rb_nodes brother (negb d); RB_MARK_BLACK far;; rb_tree_reparent_nodes p (negb d)) Q s.
Proof.
  intros Ho Ht Hrt Hk Hred HQ. apply wp_bind. eapply wp_brother_far; [exact Ho|]. apply wp_bind.
  assert (at_pos (rb_mem s) far (Fr (negb d) false q near :: Fr (negb d) c p t :: k) R) as Ho1 by exact (proj1 (at_other _ _ _ _ _ _ _ _) (at_brother _ _ _ _ _ _ _ _ Ho)).
  eapply wp_BLACK_tree; [exact Ho1|by eapply at_kf|]. clear Ho1.
  destruct (red far) eqn:Ef; cbn [negb].
  { apply wp_bind, wp_mret. by eapply wp_case_4. }
  rewrite orb_false_r in Hred. destruct (tree_nd d near) as [->|(cn & x & pn & y & ->)]; [done|]. rewrite red_nd in Hred. subst cn.
  apply at_brother in Ho. apply wp_bind, wp_bind. eapply wp_reparent_at; [exact Ho|]. clear Ho. intros h Ho%at_self.
  eapply wp_father_brother; [exact Ho|].
  destruct Hk as (Hb & Hc & Hk). apply valid_black in Hb as (m & [= <-] & (? & ? & ? & ?)%valid_red & Hvf).
  eapply wp_case_4; [exact Ho|done..| | |].
  - split; [|split; [|done]]; [|rewrite red_nd in *; intros; by apply Hc]. apply valid_black. exists n. split_and!; try done. by apply valid_red.
  - by rewrite red_nd.
  - intros h' T ? ? HT. apply (HQ _ T); try done. rewrite HT. cbn [plug]. rewrite !elems_plug. do 2 f_equal. rewrite !elems_nd.
    destruct d; cbn; rewrite <- ?app_assoc; cbn; rewrite <- ?app_assoc; done.
Qed.

(** The rest of a pass: the brother is black, and it is not the case that the
    father and both nephews are black too. *)
Lemma wp_case_2b_3_4 s d c p near q far t k n R (Q : unit → rbst E → Prop) :
  at_pos (rb_mem s) t (Fr d c p (nd d false near q far) :: k) R → valid t n → red t = false →
  kvalid (Fr d c p (nd d false near q far) :: k) (S n) → c || red near || red far = true →
  (∀ h T, own h (tree_cells rbt ops mn T ++ R) → rb T → elems T = elems (plug t (Fr d c p (nd d false near q far) :: k)) →
     Q tt (set_mem h s)) →
  wp (removal_case_2b_3_4 p d q) Q s.
Proof.
  intros Ho Ht Hrt Hk Hsome HQ. pose proof Hk as (Hb & Hc & Hk'). apply valid_black in Hb as (m & [= <-] & Hnear & Hfar).
  unfold removal_case_2b_3_4. apply wp_bind, wp_andM. eapply wp_father_red; [exact Ho|]. destruct c.
  1: { apply wp_andM. eapply wp_brother_black; [exact Ho|]. cbn [negb]. eapply wp_brother_children; [exact Ho|].
    destruct (negb (red near) && negb (red far)) eqn:En; cbn match.
    - apply wp_bind. eapply (wp_MARK_BLACK_at s true d t p); [exact (proj1 (at_up _ _ _ _ _ _ _ _ _ _ _) Ho)|]. clear Ho. intros h Ho.
      eapply (wp_MARK_RED_at (set_mem h s) false d near q far (Fr (negb d) false p t :: k)); [by apply at_brother, at_up|]. clear Ho. intros h' Ho.
      apply (HQ _ (plug (nd d false t p (nd d true near q far)) k)); [by apply at_plug, at_up, at_self| |].
      + apply andb_prop in En as [?%negb_true_iff ?%negb_true_iff]. eapply plug_rb; [|exact Hk'|by rewrite red_nd]. apply valid_black. eexists. split; [done|].
        split; [done|]. by apply valid_red.
      + cbn [plug]. by rewrite !elems_plug, !elems_nd.
    - eapply wp_case_3_4; try done. destruct (red near), (red far); done. }
  cbn match. by eapply wp_case_3_4.
Qed.

Lemma wp_POSITION_at s t k R Q : at_pos (rb_mem s) t k R → t ≠ Leaf → Q (kp k) s → wp (RB_POSITION (ptr t)) Q s.
Proof.
  intros Ho Ht HQ. destruct (at_kf _ _ _ _ _ _ _ Ho). destruct t as [|c l p r]; [done|]. unfold RbRotate.at_pos in Ho. cbn [cells app ptr] in *.
  by rb_step Ho.
Qed.

(** A brother of positive black height is a node. *)
Lemma brother_node d w n : valid w (S n) → ∃ c near q far, w = nd d c near q far.
Proof. intros Hw. destruct (tree_nd d w) as [->|?]; [done|naive_solver]. Qed.

Lemma wp_removal_loop fuel : ∀ s t k n R (Q : unit → rbst E → Prop),
  at_pos (rb_mem s) t k R → valid t n → red t = false → kvalid k (S n) → k ≠ [] → (length k ≤ fuel)%nat →
  (∀ h T, own h (tree_cells rbt ops mn T ++ R) → rb T → elems T = elems (plug t k) → Q tt (set_mem h s)) →
  wp (removal_rebalance_loop rbt fuel (kf k) (kp k)) Q s.
Proof.
  induction fuel as [|fuel IH]; intros s t k n R Q Ho Ht Hrt Hk Hk0 Hlen HQ; destruct k as [|[d c p w] k]; try done; [cbn in Hlen; lia|].
  destruct (brother_node d w n (proj1 Hk)) as (cq & near & q & far & ->). cbn [RbRotate.kf kp removal_rebalance_loop].
  apply wp_bind. eapply wp_father_self; [exact Ho|]. apply wp_bind. eapply wp_BLACK_tree; [exact Ho|by eapply at_kf|]. rewrite Hrt. cbn [negb].
  apply wp_bind. eapply wp_father_brother; [exact Ho|]. apply wp_bind. unfold removal_case_1_2.
  apply wp_bind, wp_andM. eapply wp_father_black; [exact Ho|]. pose proof Hk as (Hb & Hc & Hk'). destruct c; cbn [negb].
  { destruct Hc as (Hcq & _); [done|]. rewrite red_nd in Hcq. subst cq. apply wp_mret. by eapply wp_case_2b_3_4. }
  eapply wp_brother_children; [exact Ho|]. destruct (negb (red near) && negb (red far)) eqn:En.
  2: { assert (cq = false) as ->. { destruct cq; [|done]. apply valid_red in Hb as (En1 & En2 & _). by rewrite En1, En2 in En. }
    apply wp_mret. eapply wp_case_2b_3_4; try done. cbn. by destruct (red near), (red far). }
  apply andb_prop in En as [Hn1%negb_true_iff Hn2%negb_true_iff].
  apply wp_bind. eapply wp_brother_red; [exact Ho|]. destruct cq.
  - apply at_father in Ho. apply wp_bind. eapply wp_reparent_at; [exact Ho|]. clear Ho. intros h Ho.
    rewrite !nd_negb in Ho. apply at_up, at_up in Ho. apply valid_red in Hb as (_ & _ & Hvn & Hvf).
    destruct (brother_node d near n Hvn) as (cn & nn & pn & nf & ->). rewrite red_nd in Hn1. subst cn.
    apply wp_bind. eapply wp_father_brother; [exact Ho|]. apply wp_mret.
    eapply wp_case_2b_3_4; [exact Ho|done|done| |done|].
    + split; [done|]. split; [|done]. intros _. by rewrite red_nd.
    + intros h' T ? ? HT. apply (HQ _ T); [done..|]. rewrite HT. cbn [plug]. rewrite !elems_plug, !elems_nd. destruct d; do 3 (cbn [app]; rewrite <- ?app_assoc); done.
  - apply valid_black in Hb as (m & [= <-] & Hvn & Hvf). apply wp_bind.
    eapply (wp_MARK_RED_at s false d near q far (Fr (negb d) false p t :: k)); [by apply at_brother|]. clear Ho. intros h Ho%at_self%at_up.
    set (t' := nd d false t p (nd d true near q far)) in *.
    assert (valid t' (S n)) as Ht' by (apply valid_black; eexists; split; [done|]; split; [done|]; by apply valid_red).
    assert (elems (plug t' k) = elems (plug t (Fr d false p (nd d false near q far) :: k))) as He by (cbn [plug]; unfold t'; by rewrite !elems_plug, !elems_nd).
    apply wp_bind. replace p with (ptr t') by apply ptr_nd. assert (t' ≠ Leaf) as Hl by (unfold t'; by destruct d).
    eapply wp_ROOT_P; [exact Ho|done|]. destruct k as [|fr k].
    + apply wp_mret, wp_mret. apply (HQ _ t'); [by apply (at_plug _ _ _ _ _ [])| |done]. split; [apply red_nd|by exists (S n)].
    + apply wp_bind. eapply wp_POSITION_at; [exact Ho|done|]. apply wp_bind. eapply wp_FATHER_at; [exact Ho|done|]. apply wp_mret.
      eapply IH; [exact Ho|exact Ht'|apply red_nd|done|done|cbn in *; lia|]. intros h' T ? ? HT. apply (HQ _ T); [done..|]. by rewrite HT.
Qed.

End remove.
