(* ===== verification/RbOps.v ===== *)
(** The operations of rb.c on a tree in memory: searches, insertion, iteration. *)

From stdpp Require Import sorting.
From S2P Require Import Prelude Words Rb RbMem RbRotate RbInsert.

Section ops.
Context {E : Type}.
Implicit Types s : rbst E.
Context (rbt ops off : Z).
Abbreviation kf := (kf rbt).
Abbreviation item := (RB_NODETOITEM off).

(** [s] holds the red-black tree [T] at [rbt], with the least and the greatest
    node, and the nodes [R] besides. *)
Record rep s (T : tree) (R : list cell) : Prop := {
  rp_own : ∃ mn, own (rb_mem s) (tree_cells rbt ops mn T ++ R) ∧
    (T ≠ Leaf → head (elems T) = Some mn ∧ last (elems T) = Some (rbt_max s));
  rp_rb : rb T;
}.

(** The signs of the comparisons along a tree: nodes that compare less come
    first, then at most one that compares equal. *)
Definition searchable (diff : Z → Z) (l : list Z) : Prop := StronglySorted (λ a b, diff a < 0 ∨ 0 < diff b) l.

Lemma searchable_node diff l p r :
  searchable diff (l ++ p :: r) → searchable diff l ∧ searchable diff r ∧
  (diff p < 0 → Forall (λ x, diff x < 0) l) ∧ (0 < diff p → Forall (λ x, 0 < diff x) r) ∧
  (diff p = 0 → Forall (λ x, diff x < 0) l ∧ Forall (λ x, 0 < diff x) r).
Proof.
  intros Hs. apply StronglySorted_app in Hs as (Hlp & Hl & Hpr). apply StronglySorted_inv in Hpr as [Hr Hp].
  assert (∀ x, x ∈ l → diff x < 0 ∨ 0 < diff p) as Hlp'.
  { intros x Hx. apply (Hlp x p Hx). apply list_elem_of_here. }
  rewrite Forall_forall in Hp. split_and!; try done.
  - intros Hd. apply Forall_forall. intros x Hx. destruct (Hlp' x Hx); lia.
  - intros Hd. apply Forall_forall. intros x Hx. destruct (Hp x Hx); lia.
  - intros Hd. split; apply Forall_forall; intros x Hx; [destruct (Hlp' x Hx)|destruct (Hp x Hx)]; lia.
Qed.

(** ** Going down *)

Definition side (d : bool) (l r : tree) : tree := if d then r else l.

Lemma wp_down s mn c l p r k R d Q : at_pos rbt ops mn (rb_mem s) (Node c l p r) k R →
  Q (ptr (side d l r)) s → wp (rb_nodes p d) Q s.
Proof.
  intros Ho HQ. unfold at_pos in Ho. cbn [cells app] in Ho. at_cell (@wp_nodes) Ho. by destruct d.
Qed.

Lemma at_down h mn c l p r k R d : at_pos rbt ops mn h (Node c l p r) k R →
  at_pos rbt ops mn h (side d l r) (Fr d c p (side (negb d) l r) :: k) R.
Proof. intros Ho. apply at_up. by destruct d. Qed.

Lemma at_nonzero h mn t k R p : at_pos rbt ops mn h t k R → p ∈ elems (plug t k) → p ≠ 0 ∧ aligned p ∧ p ≠ rbt.
Proof.
  rewrite at_plug. generalize (plug t k). clear t k. intros T Ho Hp.
  assert (∀ T f d, p ∈ elems T → ∃ n, (p, n) ∈ cells f d T) as Hin.
  { clear. induction T as [|c l IHl q r IHr]; intros f d; cbn; [by intros ?%not_elem_of_nil|].
    rewrite elem_of_app, elem_of_cons. intros [Hp|[->|Hp]].
    - destruct (IHl q false Hp) as [n Hn]. exists n. right. apply elem_of_app. by left.
    - eexists. left.
    - destruct (IHr q true Hp) as [n Hn]. exists n. right. apply elem_of_app. by right. }
  destruct (Hin T rbt false Hp) as [n Hn]. unfold tree_cells in Ho.
  destruct (own_ok _ _ Ho (p, n)) as [Ha H0]; [apply elem_of_app; left; apply elem_of_app; by left|].
  split_and!; [done|done|]. intros ->. pose proof (own_nd _ _ Ho) as Hnd. rewrite !fmap_app in Hnd.
  apply NoDup_app in Hnd as (Hnd & _ & _). apply NoDup_app in Hnd as (_ & Hnd & _).
  apply (Hnd rbt); [exact (list_elem_of_fmap_2 fst _ _ Hn)|cbn; left].
Qed.

Lemma on_rb_env_run {B} (m : M E B) s b : m (rb_env s) = Ret (b, rb_env s) → on_rb_env m s = Ret (b, s).
Proof. intros Hm. unfold on_rb_env, zoom. rewrite Hm. by destruct s. Qed.

Section search.
Context {K : Type} (compare_key : Z → K → M E Z).

(** The comparisons with [key] that a search may make. *)
Definition compares (e : E) (key : K) (diff : Z → Z) (l : list Z) : Prop :=
  ∀ p, p ∈ l → compare_key (item p) key e = Ret (diff p, e).

(** The node to return. *)
Definition found (o : option Z) : Z := from_option item NULL o.

Lemma head_app {B} (l k : list B) : head (l ++ k) = match head l with Some x => Some x | None => head k end.
Proof. by destruct l. Qed.

Lemma filter_none {B} (P : B → Prop) `{!∀ x, Decision (P x)} l : Forall (λ x, ¬ P x) l → filter P l = [].
Proof. induction 1; [done|]. by rewrite filter_cons_False. Qed.

Lemma filter_all {B} (P : B → Prop) `{!∀ x, Decision (P x)} l : Forall P l → filter P l = l.
Proof. induction 1; [done|]. rewrite filter_cons_True by done. by f_equal. Qed.

Lemma find_loop_run fuel : ∀ s mn t k R key diff,
  at_pos rbt ops mn (rb_mem s) t k R → compares (rb_env s) key diff (elems t) → searchable diff (elems t) →
  (length (elems t) < fuel)%nat →
  wp (find_loop off compare_key fuel (ptr t) key) (λ r s', s' = s ∧ r = found (head (filter (λ p, diff p = 0) (elems t)))) s.
Proof.
  induction fuel as [|fuel IH]; intros s mn t k R key diff Ho Hc Hs Hlen; [lia|]. cbn [find_loop].
  destruct t as [|c l p r]; [by apply wp_mret|]. cbn [ptr]. rewrite sentinel_ne.
  2: { apply (at_nonzero _ _ _ _ _ p Ho). rewrite elems_plug. cbn. set_solver. }
  apply wp_bind. eapply wp_Ret; [apply on_rb_env_run, Hc; cbn; apply elem_of_app; right; left|].
  cbn [elems] in *. destruct (searchable_node _ _ _ _ Hs) as (Hsl & Hsr & Hlt & Hgt & Heq).
  rewrite filter_app, head_app. rewrite length_app in Hlen. cbn in Hlen.
  assert (∀ l, Forall (λ x, diff x < 0) l → filter (λ p, diff p = 0) l = []) as Hneg.
  { intros l' H. apply filter_none. eapply Forall_impl; [exact H|]. cbn. lia. }
  destruct (Z.eqb_spec (diff p) 0) as [E0|E0].
  - apply wp_mret. split; [done|]. rewrite Hneg by (by apply Heq). by rewrite filter_cons_True.
  - apply wp_bind. eapply wp_down; [exact Ho|]. destruct (Z.ltb_spec (diff p) 0); cbn [side].
    + rewrite (Hneg (elems l)) by (apply Hlt; lia). cbn [head]. rewrite filter_cons_False by done.
      eapply IH; [exact (at_down _ _ _ _ _ _ _ _ true Ho)|intros q Hq; apply Hc; set_solver|done|lia].
    + rewrite filter_cons_False by done. rewrite (filter_none _ (elems r)) by (eapply Forall_impl; [apply Hgt; lia|]; cbn; lia).
      cbn [head]. replace (match head _ with Some x => Some x | None => None end) with (head (filter (λ p, diff p = 0) (elems l))) by (by case_match).
      eapply IH; [exact (at_down _ _ _ _ _ _ _ _ false Ho)|intros q Hq; apply Hc; set_solver|done|lia].
Qed.

Lemma found_last (o : option Z) (l : list Z) : (∀ p, p ∈ l → p ≠ 0) → (∀ p, o = Some p → p ∈ l) →
  (if default 0 o =? NULL then NULL else item (default 0 o)) = found o.
Proof.
  intros Hl Ho. destruct o as [p|]; [|done]. cbn. rewrite (proj2 (Z.eqb_neq p NULL)); [done|]. by apply Hl, Ho.
Qed.

Lemma head_elem {B} (l : list B) x : head l = Some x → x ∈ l.
Proof. destruct l; [done|]. intros [= ->]. left. Qed.

Lemma last_elem {B} (l : list B) x : last l = Some x → x ∈ l.
Proof. intros (l' & ->)%last_Some. apply elem_of_app. right. left. Qed.

Lemma find_geq_loop_run fuel : ∀ s mn t k R key diff,
  at_pos rbt ops mn (rb_mem s) t k R → compares (rb_env s) key diff (elems t) → searchable diff (elems t) →
  Forall (λ p, 0 < diff p) (kr k) → (length (elems t) < fuel)%nat →
  wp (find_geq_loop off compare_key fuel (ptr t) (default 0 (head (kr k))) key)
    (λ r s', s' = s ∧ r = found (head (filter (λ p, 0 ≤ diff p) (elems t ++ kr k)))) s.
Proof.
  induction fuel as [|fuel IH]; intros s mn t k R key diff Ho Hc Hs Hk Hlen; [lia|]. cbn [find_geq_loop].
  destruct t as [|c l p r].
  { cbn [ptr elems app]. change (RB_SENTINEL_P 0) with true. cbn match. apply wp_mret. split; [done|].
    rewrite filter_all by (eapply Forall_impl; [exact Hk|]; cbn; lia).
    apply (found_last _ (kr k)); [|intros q; apply head_elem]. intros q Hq. apply (at_nonzero _ _ _ _ _ q Ho). rewrite elems_plug. set_solver. }
  cbn [ptr]. rewrite sentinel_ne by (apply (at_nonzero _ _ _ _ _ p Ho); rewrite elems_plug; cbn; set_solver).
  apply wp_bind. eapply wp_Ret; [apply on_rb_env_run, Hc; cbn; apply elem_of_app; right; left|].
  cbn [elems] in *. destruct (searchable_node _ _ _ _ Hs) as (Hsl & Hsr & Hlt & Hgt & Heq). rewrite length_app in Hlen. cbn in Hlen.
  assert (∀ l, Forall (λ x, diff x < 0) l → filter (λ p, 0 ≤ diff p) l = []) as Hneg.
  { intros l' H. apply filter_none. eapply Forall_impl; [exact H|]. cbn. lia. }
  destruct (Z.eqb_spec (diff p) 0) as [E0|E0].
  - apply wp_mret. split; [done|]. rewrite <- app_assoc, filter_app, Hneg by (by apply Heq). cbn [app]. by rewrite filter_cons_True by lia.
  - apply wp_bind. eapply wp_down; [exact Ho|]. destruct (Z.ltb_spec (diff p) 0); cbn [side].
    + rewrite (proj2 (Z.ltb_ge 0 (diff p))) by lia. rewrite <- app_assoc, filter_app, (Hneg (elems l)) by (apply Hlt; lia).
      cbn [app]. rewrite filter_cons_False by lia.
      eapply (IH s mn r (Fr true c p l :: k)); [exact (at_down _ _ _ _ _ _ _ _ true Ho)|intros q Hq; apply Hc; set_solver|done|done|lia].
    + rewrite (proj2 (Z.ltb_lt 0 (diff p))) by lia. rewrite <- app_assoc.
      eapply (IH s mn l (Fr false c p r :: k)); [exact (at_down _ _ _ _ _ _ _ _ false Ho)|intros q Hq; apply Hc; set_solver|done| |lia].
      cbn. constructor; [lia|]. apply Forall_app. split; [apply Hgt; lia|done].
Qed.

Lemma find_leq_loop_run fuel : ∀ s mn t k R key diff,
  at_pos rbt ops mn (rb_mem s) t k R → compares (rb_env s) key diff (elems t) → searchable diff (elems t) →
  Forall (λ p, diff p < 0) (kl k) → (length (elems t) < fuel)%nat →
  wp (find_leq_loop off compare_key fuel (ptr t) (default 0 (last (kl k))) key)
    (λ r s', s' = s ∧ r = found (last (filter (λ p, diff p ≤ 0) (kl k ++ elems t)))) s.
Proof.
  induction fuel as [|fuel IH]; intros s mn t k R key diff Ho Hc Hs Hk Hlen; [lia|]. cbn [find_leq_loop].
  destruct t as [|c l p r].
  { cbn [ptr elems]. rewrite app_nil_r. change (RB_SENTINEL_P 0) with true. cbn match. apply wp_mret. split; [done|].
    rewrite filter_all by (eapply Forall_impl; [exact Hk|]; cbn; lia).
    apply (found_last _ (kl k)); [|intros q; apply last_elem]. intros q Hq. apply (at_nonzero _ _ _ _ _ q Ho). rewrite elems_plug. set_solver. }
  cbn [ptr]. rewrite sentinel_ne by (apply (at_nonzero _ _ _ _ _ p Ho); rewrite elems_plug; cbn; set_solver).
  apply wp_bind. eapply wp_Ret; [apply on_rb_env_run, Hc; cbn; apply elem_of_app; right; left|].
  cbn [elems] in *. destruct (searchable_node _ _ _ _ Hs) as (Hsl & Hsr & Hlt & Hgt & Heq). rewrite length_app in Hlen. cbn in Hlen.
  assert (∀ l, Forall (λ x, 0 < diff x) l → filter (λ p, diff p ≤ 0) l = []) as Hpos.
  { intros l' H. apply filter_none. eapply Forall_impl; [exact H|]. cbn. lia. }
  destruct (Z.eqb_spec (diff p) 0) as [E0|E0].
  - apply wp_mret. split; [done|]. rewrite !filter_app, filter_cons_True, (Hpos (elems r)) by (lia || by apply Heq). by rewrite app_assoc, last_snoc.
  - apply wp_bind. eapply wp_down; [exact Ho|]. destruct (Z.ltb_spec (diff p) 0); cbn [side].
    + assert (kl k ++ elems l ++ p :: elems r = kl (Fr true c p l :: k) ++ elems r) as -> by (cbn; by rewrite <- !app_assoc).
      replace p with (default 0 (last (kl (Fr true c p l :: k)))) at 1 by (cbn; by rewrite app_assoc, last_snoc).
      eapply (IH s mn r (Fr true c p l :: k)); [exact (at_down _ _ _ _ _ _ _ _ true Ho)|intros q Hq; apply Hc; set_solver|done| |lia].
      cbn. apply Forall_app. split; [done|]. apply Forall_app. split; [apply Hlt; lia|]. by constructor.
    + rewrite !filter_app, filter_cons_False, (Hpos (elems r)), app_nil_r by (lia || (apply Hgt; lia)). rewrite <- filter_app.
      replace (kl k) with (kl (Fr false c p r :: k)) by (cbn; by rewrite app_nil_r).
      eapply (IH s mn l (Fr false c p r :: k)); [exact (at_down _ _ _ _ _ _ _ _ false Ho)|intros q Hq; apply Hc; set_solver|done| |lia].
      cbn. by rewrite app_nil_r.
Qed.

End search.

(** ** Insertion *)

Section insert.
Context (compare_nodes : Z → Z → M E Z).

(** The comparisons with [object] that an insertion may make. *)
Definition compares_nodes (e : E) (object : Z) (diff : Z → Z) (l : list Z) : Prop :=
  ∀ p, p ∈ l → compare_nodes (item p) object e = Ret (diff p, e).

Lemma insert_loop_run fuel : ∀ s mn t k R object diff,
  at_pos rbt ops mn (rb_mem s) t k R → compares_nodes (rb_env s) object diff (elems t) → searchable diff (elems t) →
  Forall (λ p, diff p < 0) (kl k) → Forall (λ p, 0 < diff p) (kr k) → (length (elems t) < fuel)%nat →
  wp (insert_loop off compare_nodes fuel (ptr t) (kf k) (kp k) object)
    (λ r s', s' = s ∧
       match r with
       | inl o => ∃ p, p ∈ elems t ∧ diff p = 0 ∧ o = item p
       | inr (q, d) => ∃ k', q = kf k' ∧ d = kp k' ∧ plug Leaf k' = plug t k ∧
           Forall (λ p, diff p < 0) (kl k') ∧ Forall (λ p, 0 < diff p) (kr k')
       end) s.
Proof.
  induction fuel as [|fuel IH]; intros s mn t k R object diff Ho Hc Hs Hkl Hkr Hlen; [lia|]. cbn [insert_loop].
  destruct t as [|c l p r].
  { change (RB_SENTINEL_P (ptr Leaf)) with true. cbn match. apply wp_mret. split; [done|]. by exists k. }
  cbn [ptr]. rewrite sentinel_ne by (apply (at_nonzero _ _ _ _ _ p Ho); rewrite elems_plug; cbn; set_solver).
  apply wp_bind. eapply wp_Ret; [apply on_rb_env_run, Hc; cbn; apply elem_of_app; right; left|].
  cbn [elems] in *. destruct (searchable_node _ _ _ _ Hs) as (Hsl & Hsr & Hlt & Hgt & Heq). rewrite length_app in Hlen. cbn in Hlen.
  destruct (Z.eqb_spec (diff p) 0) as [E0|E0].
  - apply wp_mret. split; [done|]. exists p. split; [set_solver|done].
  - apply wp_bind. eapply wp_down; [exact Ho|]. set (d := diff p <? 0).
    eapply wp_mono; [eapply (IH s mn (side d l r) (Fr d c p (side (negb d) l r) :: k)); [exact (at_down _ _ _ _ _ _ _ _ d Ho)|..]|]; unfold d.
    + intros q Hq. apply Hc. destruct (diff p <? 0); set_solver.
    + by destruct (diff p <? 0).
    + destruct (Z.ltb_spec (diff p) 0); cbn; [|by rewrite app_nil_r].
      apply Forall_app. split; [done|]. apply Forall_app. split; [apply Hlt; lia|by constructor].
    + destruct (Z.ltb_spec (diff p) 0); cbn; [done|]. constructor; [lia|]. apply Forall_app. split; [apply Hgt; lia|done].
    + destruct (diff p <? 0); cbn; lia.
    + intros [o|[q e]] s' [-> Hr]; (split; [done|]).
      * destruct Hr as (q & Hq & Hd & ->). exists q. split; [|done]. destruct (diff p <? 0); set_solver.
      * destruct Hr as (k' & -> & -> & Hp & Hl & Hr). exists k'. split_and!; try done. rewrite Hp. cbn. by destruct (diff p <? 0).
Qed.

Lemma kf_root h mn t k R : at_pos rbt ops mn h t k R → kf k = rbt ↔ k = [].
Proof.
  intros Ho. split; [|by intros ->]. destruct k as [|[d c p w] k]; [done|]. cbn. intros Hp.
  destruct (at_nonzero _ _ _ _ _ p Ho) as (_ & _ & Hne); [|done]. rewrite elems_plug. cbn. destruct d; set_solver.
Qed.

(** The new leaf is the least or the greatest node exactly when its father was,
    on that side. *)
Lemma leaf_head k x : k ≠ [] → NoDup (kl k ++ kr k) →
  head (kl k ++ x :: kr k) =
    (if negb (kp k) && bool_decide (head (kl k ++ kr k) = Some (kf k)) then Some x else head (kl k ++ kr k)).
Proof.
  intros Hk Hnd. destruct k as [|[d c p w] k]; [done|]. cbn. destruct d; cbn.
  - destruct (kl k) as [|a l]; cbn; [|done]. by destruct (elems w).
  - rewrite app_nil_r in *. cbn in Hnd. destruct (kl k) as [|a l]; cbn in *; [by rewrite bool_decide_true|].
    rewrite bool_decide_false; [done|]. intros [= ->]. apply NoDup_cons in Hnd as [Hnd _]. apply Hnd. set_solver.
Qed.

Lemma leaf_last k x : k ≠ [] → NoDup (kl k ++ kr k) →
  last (kl k ++ x :: kr k) =
    (if kp k && bool_decide (last (kl k ++ kr k) = Some (kf k)) then Some x else last (kl k ++ kr k)).
Proof.
  intros Hk Hnd. destruct k as [|[d c p w] k]; [done|]. cbn. destruct d; cbn.
  - cbn in Hnd. assert (p ∉ kr k) as Hp.
    { apply NoDup_app in Hnd as (_ & Hnd & _). apply (Hnd p). set_solver. }
    rewrite !app_assoc. destruct (kr k) as [|a l].
    + rewrite !app_nil_r, !last_snoc. by rewrite bool_decide_true.
    + rewrite !last_app_cons, last_cons_cons. rewrite bool_decide_false; [done|]. by intros Hl%last_elem.
  - rewrite !app_nil_r. by rewrite !last_app_cons, last_cons_cons.
Qed.

Lemma wp_minmax s mn (d : bool) t k R Q : at_pos rbt ops mn (rb_mem s) t k R →
  Q (if d then rbt_max s else mn) s → wp (rbt_minmax rbt d) Q s.
Proof.
  intros Ho HQ. destruct d; [done|]. cbn. destruct (kcells_header rbt ops (ptr t) k) as (r & body & Hb). unfold at_pos in Ho. rewrite Hb in Ho.
  eapply (wp_get_info s (cells (kf k) (kp k) t) (body ++ R)); [exact Ho|done].
Qed.

Lemma wp_set_minmax s mn (d : bool) v t k R (Q : unit → rbst E → Prop) : at_pos rbt ops mn (rb_mem s) t k R →
  (∀ s', at_pos rbt ops (if d then mn else v) (rb_mem s') t k R → rbt_max s' = (if d then v else rbt_max s) →
     rb_env s' = rb_env s → Q tt s') → wp (set_rbt_minmax rbt d v) Q s.
Proof.
  intros Ho HQ. destruct d; [by apply (wp_Ret _ _ _ tt (set_rbt_max v s)); [|apply HQ]|]. cbn.
  destruct (kcells_header rbt ops (ptr t) k) as (r & body & Hb). unfold at_pos in Ho. rewrite Hb in Ho.
  eapply (wp_set_info s (cells (kf k) (kp k) t) (body ++ R) rbt false); [exact Ho|]. intros h Ho'. apply HQ; [|done..].
  unfold at_pos. cbn. by rewrite Hb.
Qed.

Lemma plug_nonleaf' t k : k ≠ [] → plug t k ≠ Leaf.
Proof. destruct k as [|[d c p w] k]; [done|]. intros _. cbn. apply plug_nonleaf. by destruct d. Qed.

Lemma length_way t k : (length k ≤ length (elems (plug t k)))%nat.
Proof.
  revert t. induction k as [|[d c p w] k IH]; intros t; [cbn; lia|]. cbn [plug]. rewrite elems_plug, !length_app, elems_nd. cbn.
  specialize (IH Leaf). rewrite elems_plug, !length_app in IH. cbn in IH. destruct d; rewrite length_app; cbn; lia.
Qed.

(** The last steps of an insertion: the leaf is linked, and the tree rebalanced. *)
Lemma wp_link fuel s mn self object x y k R (rebalance : bool) (Q : Z → rbst E → Prop) :
  at_pos rbt ops mn (rb_mem s) Leaf k ((self, mkn false x y (mk (kf k) (kp k) (bool_decide (k ≠ [])))) :: R) →
  kvalid k 0 → rebalance = kred k → (length k ≤ fuel)%nat →
  (∀ h T, own h (tree_cells rbt ops mn T ++ R) → rb T → elems T = kl k ++ self :: kr k → Q object (set_mem h s)) →
  wp (c ← rb_nodes (kf k) (kp k);
      set_rb_nodes self false c;;
      c ← rb_nodes (kf k) (kp k);
      set_rb_nodes self true c;;
      set_rb_nodes (kf k) (kp k) self;;
      when rebalance (rb_tree_insert_rebalance rbt fuel self);;
      mret object) Q s.
Proof.
  intros Ho Hk -> Hlen HQ. set (c := bool_decide (k ≠ [])) in *. destruct (kcells_link rbt ops mn 0 k) as (n & rest & Hkc & Hn & Hkc').
  unfold at_pos in Ho. cbn [cells app ptr] in Ho. rewrite Hkc in Ho.
  eapply (own_perm _ _ ((kf k, n) :: (self, mkn false x y (mk (kf k) (kp k) c)) :: rest ++ R)) in Ho; [|perm].
  rb_step Ho. rewrite Hn. rb_step Ho. rb_step Ho. rewrite Hn. rb_step Ho. rb_step Ho.
  set (leaf := Node c Leaf self Leaf).
  assert (at_pos rbt ops mn h1 leaf k R) as Ho1.
  { unfold at_pos. cbn [ptr leaf]. rewrite Hkc'. eapply own_perm; [|exact Ho].
    change (set_child true 0 (mkn false 0 y (mk (kf k) (kp k) c))) with (mkn false 0 0 (mk (kf k) (kp k) c)).
    unfold leaf. cbn [cells ptr]. perm. }
  assert (elems (plug leaf k) = kl k ++ self :: kr k) as Hel by (rewrite elems_plug; done).
  apply wp_bind. destruct (kred k) eqn:Er; cbn [when].
  - assert (k ≠ []) as Hk0 by (by intros ->). assert (c = true) as Hc by (by apply bool_decide_eq_true).
    change self with (ptr leaf). eapply (wp_insert_rebalance rbt ops mn fuel _ leaf k 0); try done; [by unfold leaf; rewrite Hc|].
    intros h2 T H1 H2 H3. apply wp_mret. apply (HQ _ T); [done..|]. by rewrite H3.
  - apply wp_mret, wp_mret. apply (HQ _ (plug leaf k)); [by apply at_plug in Ho1| |done].
    destruct (decide (k = [])) as [Hk0|Hk0].
    + assert (c = false) as Hc by (apply bool_decide_eq_false; tauto). unfold leaf. rewrite Hc, Hk0. split; [done|]. exists 1%nat. cbn. eauto.
    + assert (c = true) as Hc by (by apply bool_decide_eq_true). unfold leaf. rewrite Hc. by apply (plug_rb _ _ 0).
Qed.

Lemma elems_cells f d t : (cells f d t).*1 ≡ₚ elems t.
Proof.
  revert f d. induction t as [|c l IHl p r IHr]; intros f d; [done|]. cbn. rewrite fmap_app, IHl, IHr. by rewrite Permutation_middle.
Qed.

Lemma own_elems h mn T R : own h (tree_cells rbt ops mn T ++ R) → NoDup (elems T).
Proof.
  intros Ho%own_nd. unfold tree_cells in Ho. rewrite !fmap_app, elems_cells in Ho. apply NoDup_app in Ho as (Ho & _ & _).
  by apply NoDup_app in Ho as (Ho & _ & _).
Qed.

(** [rb_tree_insert_node] returns the object that compares equal to the new
    one and changes nothing, or links the new one between those that compare less
    and those that compare greater; the tree stays a red-black tree, and the
    least and the greatest node are known. *)
Lemma wp_insert_node fuel s T R object n0 diff :
  let self := RB_ITEMTONODE off object in
  rep s T ((self, n0) :: R) → compares_nodes (rb_env s) object diff (elems T) → searchable diff (elems T) →
  (length (elems T) < fuel)%nat →
  wp (rb_tree_insert_node rbt off compare_nodes fuel object)
    (λ r s', (∃ p, p ∈ elems T ∧ diff p = 0 ∧ r = item p ∧ s' = s) ∨
       (r = object ∧ rb_env s' = rb_env s ∧ ∃ T' l1 l2, rep s' T' R ∧ elems T = l1 ++ l2 ∧ elems T' = l1 ++ self :: l2 ∧
          Forall (λ p, diff p < 0) l1 ∧ Forall (λ p, 0 < diff p) l2)) s.
Proof.
  intros self [(mn & Ho & Hmm) Hrb] Hc Hs Hlen. assert (at_pos rbt ops mn (rb_mem s) T [] ((self, n0) :: R)) as Ho0 by (by apply at_plug).
  unfold rb_tree_insert_node. fold self. apply wp_bind. eapply wp_root; [exact Ho0|]. apply wp_bind.
  eapply wp_mono; [eapply (insert_loop_run fuel s mn T []); try done; apply Forall_nil_2|].
  intros [o|[q d]] s' [-> Hr].
  { apply wp_mret. left. destruct Hr as (p & ? & ? & ->). eauto. }
  destruct Hr as (k & -> & -> & Hp & Hl & Hr). cbn [plug] in Hp. subst T. rewrite elems_plug in *. cbn [elems app] in *.
  apply at_plug in Ho. destruct (unplug_rb _ _ Hrb) as (m & Hm & Hk & _). cbn in Hm. subst m.
  destruct n0 as [x y i]. change (RbNode x y i) with (mkn false x y i) in Ho. destruct (at_kf _ _ _ _ _ _ _ Ho) as [Hf _].
  apply wp_bind. eapply (wp_SET_FATHER_any s (kcells rbt ops mn 0 k) R); [exact Ho|done|]. clear Ho. intros h1 d0 c0 Ho.
  apply wp_bind. eapply (wp_SET_POSITION (set_mem h1 s) (kcells rbt ops mn 0 k) R); [done|exact Ho|]. clear Ho. intros h2 Ho.
  assert (NoDup (kl k ++ kr k)) as Hnd.
  { assert (at_pos rbt ops mn h2 Leaf k ((self, mkn false x y (mk (kf k) (kp k) c0)) :: R)) as Ha by exact Ho.
    apply at_plug, own_elems in Ha. by rewrite elems_plug in Ha. }
  apply wp_bind. destruct (decide (k = [])) as [->|Hk0].
  - change (kf []) with rbt. rewrite Z.eqb_refl.
    apply wp_bind. eapply (wp_MARK_BLACK (set_mem h2 s) (kcells rbt ops mn 0 []) R); [done|exact Ho|]. clear Ho. intros h3 Ho.
    apply wp_bind. eapply (wp_set_minmax (set_mem h3 s) mn false self Leaf [] _); [exact Ho|]. clear Ho. intros s1 Ho Hmx1 Henv1.
    apply wp_bind. eapply (wp_set_minmax s1 self true self Leaf [] _); [exact Ho|]. clear Ho. intros s2 Ho Hmx2 Henv2.
    apply wp_mret. eapply (wp_link fuel s2 self self object x y []); [exact Ho|done|done|cbn; lia|].
    intros h T H1 H2 H3. right. split; [done|]. split; [cbn; by rewrite Henv2, Henv1|]. exists T, [], []. split_and!; try done.
    split; [|done]. exists self. split; [done|]. intros _. rewrite H3. cbn. by rewrite Hmx2.
  - assert (at_pos rbt ops mn h2 Leaf k ((self, mkn false x y (mk (kf k) (kp k) c0)) :: R)) as Ha by exact Ho. clear Ho.
    rewrite (proj2 (Z.eqb_neq (kf k) rbt)) by (by rewrite (kf_root _ _ _ _ _ Ha)).
    destruct Hmm as [Hmn Hmx]; [by apply plug_nonleaf'|].
    apply wp_bind. eapply (wp_minmax (set_mem h2 s) mn); [exact Ha|]. cbn [rbt_max set_mem].
    apply wp_bind.
    assert (wp (when (kf k =? (if kp k then rbt_max s else mn)) (set_rbt_minmax rbt (kp k) self))
      (λ _ s', ∃ mn', at_pos rbt ops mn' (rb_mem s') Leaf k ((self, mkn false x y (mk (kf k) (kp k) c0)) :: R) ∧ rb_env s' = rb_env s ∧
         head (kl k ++ self :: kr k) = Some mn' ∧ last (kl k ++ self :: kr k) = Some (rbt_max s')) (set_mem h2 s)) as Hw.
    { rewrite leaf_head, leaf_last by done. destruct (Z.eqb_spec (kf k) (if kp k then rbt_max s else mn)) as [Eq|Eq]; cbn [when].
      - eapply wp_set_minmax; [exact Ha|]. intros s1 H1 H2 H3. eexists. split; [exact H1|]. split; [by rewrite H3|].
        rewrite Hmn, Hmx, H2. destruct (kp k); cbn; rewrite bool_decide_true by congruence; done.
      - apply wp_mret. exists mn. split; [done|]. split; [done|]. rewrite Hmn, Hmx. destruct (kp k); cbn; rewrite bool_decide_false by congruence; done. }
    eapply wp_mono; [exact Hw|]. clear Hw Ha. intros [] s1 (mn' & Ha & Henv & Hhd & Hlst).
    apply wp_bind. eapply (wp_MARK_RED s1 (kcells rbt ops mn' 0 k) R); [done|exact Ha|]. clear Ha. intros h3 Ho.
    assert (at_pos rbt ops mn' h3 Leaf k ((self, mkn false x y (mk (kf k) (kp k) true)) :: R)) as Ha by exact Ho. clear Ho.
    eapply (wp_RED_kf rbt ops mn' (set_mem h3 s1)); [exact Ha|done|].
    eapply (wp_link fuel (set_mem h3 s1) mn' self object x y k); [by rewrite bool_decide_true|done|done| |].
    { pose proof (length_way Leaf k) as Hw. rewrite elems_plug in Hw. cbn [elems app] in Hw. lia. }
    intros h T H1 H2 H3. right. split; [done|]. split; [done|]. exists T, (kl k), (kr k). split_and!; try done.
    split; [|done]. exists mn'. split; [done|]. intros _. by rewrite H3.
Qed.

End insert.

End ops.
