(* ===== verification/RbPrune.v ===== *)
(** The removal of a node without two children, and iteration. *)

From S2P Require Import Prelude Words Rb RbMem RbRotate RbInsert RbRemove RbOps.

Section prune.
Context {E : Type}.
Implicit Types s : rbst E.
Context (rbt ops off : Z).
Abbreviation kf := (kf rbt).
Abbreviation item := (RB_NODETOITEM off).
Abbreviation found := (found off).

(** ** Iteration *)

Lemma wp_iterate_up fuel : ∀ s mn t k R (dir : bool),
  at_pos rbt ops mn (rb_mem s) t k R → t ≠ Leaf → (length k < fuel)%nat →
  wp (iterate_up rbt off fuel (ptr t) (negb dir)) (λ r s', s' = s ∧ r = found (if dir then head (kr k) else last (kl k))) s.
Proof.
  induction fuel as [|fuel IH]; intros s mn t k R dir Ho Ht Hlen; [lia|]. cbn [iterate_up].
  apply wp_bind. eapply wp_ROOT_P; [exact Ho|done|]. destruct k as [|[d c p w] k]; cbn match; [by apply wp_mret; destruct dir|].
  apply wp_bind. eapply wp_POSITION_at; [exact Ho|done|]. cbn [kp]. destruct (eqb (negb dir) d) eqn:Ed.
  - apply eqb_prop in Ed as <-. apply wp_bind. eapply wp_FATHER_at; [exact Ho|done|]. apply wp_mret. split; [done|].
    destruct dir; cbn; [done|]. by rewrite app_assoc, last_snoc.
  - apply eqb_false_iff in Ed. assert (d = dir) as -> by (by destruct d, dir). apply wp_bind. eapply wp_FATHER_at; [exact Ho|done|].
    cbn [RbRotate.kf]. apply at_up in Ho. rewrite <- (ptr_nd dir c t p w). cbn [length] in Hlen.
    eapply wp_mono; [eapply IH; [exact Ho|by destruct dir|lia]|]. intros r s' [-> ->]. split; [done|].
    destruct dir; cbn; [done|]. by rewrite app_nil_r.
Qed.

(** The node at the end of the side [o] of a tree. *)
Definition end_node (o : bool) (t : tree) : option Z := if o then last (elems t) else head (elems t).

Lemma end_node_step o c l p r : end_node o (Node c l p r) = match side o l r with Leaf => Some p | Node _ _ _ _ => end_node o (side o l r) end.
Proof.
  destruct o; cbn.
  - rewrite last_app_cons. destruct r as [|c' l' p' r']; cbn; [done|]. rewrite <- (app_nil_l (p :: _)), last_app_cons.
    change (p :: elems l' ++ p' :: elems r') with ((p :: elems l') ++ p' :: elems r'). by rewrite !last_app_cons.
  - destruct l as [|c' l' p' r']; cbn; [done|]. by destruct (elems l').
Qed.

Lemma wp_iterate_down fuel : ∀ s mn t k R (o : bool),
  at_pos rbt ops mn (rb_mem s) t k R → t ≠ Leaf → (length (elems t) ≤ fuel)%nat →
  wp (iterate_down off fuel (ptr t) o) (λ r s', s' = s ∧ r = found (end_node o t)) s.
Proof.
  induction fuel as [|fuel IH]; intros s mn t k R o Ho Ht Hlen; (destruct t as [|c l p r]; [done|]); cbn [elems] in Hlen;
    rewrite length_app in Hlen; cbn in Hlen; [lia|]. cbn [iterate_down ptr].
  apply wp_bind. eapply wp_down; [exact Ho|]. rewrite end_node_step. apply (at_down _ _ _ _ _ _ _ _ _ _ o) in Ho.
  destruct (side o l r) as [|c' l' p' r'] eqn:Es; [by apply wp_mret|].
  rewrite (sentinel_ne (ptr _)). 2: { cbn. apply (at_nonzero _ _ _ _ _ _ _ p' Ho). rewrite elems_plug. cbn. set_solver. }
  cbn [negb]. eapply IH; [exact Ho|done|]. rewrite <- Es. destruct o; cbn; lia.
Qed.

(** Every node is at a position. *)
Lemma locate p t k : p ∈ elems t → ∃ c l r k', plug t k = plug (Node c l p r) k'.
Proof.
  revert k. induction t as [|c l IHl q r IHr]; intros k; cbn [elems]; [by intros ?%not_elem_of_nil|].
  rewrite elem_of_app, elem_of_cons. intros [Hp|[<-|Hp]]; [apply (IHl (Fr false c q r :: k) Hp)|by eauto|apply (IHr (Fr true c q l :: k) Hp)].
Qed.

Lemma split_unique {B} (a b c d : list B) x : NoDup (a ++ x :: b) → a ++ x :: b = c ++ x :: d → a = c ∧ b = d.
Proof.
  revert c. induction a as [|y a IH]; intros [|z c] Hnd; cbn in *.
  - by intros [= ->].
  - intros [= -> Heq]. apply NoDup_cons in Hnd as [Hnd _]. rewrite Heq in Hnd. set_solver.
  - intros [= -> Heq]. apply NoDup_cons in Hnd as [Hnd _]. set_solver.
  - intros [= -> Heq]. apply NoDup_cons in Hnd as [_ Hnd]. by destruct (IH c Hnd Heq) as [-> ->].
Qed.

Lemma locate_at h mn T R p l1 l2 : own h (tree_cells rbt ops mn T ++ R) → elems T = l1 ++ p :: l2 →
  ∃ c l r k, T = plug (Node c l p r) k ∧ at_pos rbt ops mn h (Node c l p r) k R ∧ l1 = kl k ++ elems l ∧ l2 = elems r ++ kr k.
Proof.
  intros Ho He. pose proof (own_elems _ _ _ _ _ _ Ho) as Hnd. destruct (locate p T []) as (c & l & r & k & HT); [rewrite He; set_solver|].
  cbn [plug] in HT. exists c, l, r, k. split; [done|]. subst T. split; [by apply at_plug|]. rewrite elems_plug in He, Hnd. cbn [elems] in He, Hnd.
  rewrite He in Hnd. apply (split_unique l1 l2 (kl k ++ elems l) (elems r ++ kr k) p Hnd). rewrite <- He. by rewrite <- !app_assoc.
Qed.

Lemma node_item p : aligned p → RB_ITEMTONODE off (item p) = p.
Proof. intros [[Hp Hp'] _]. unfold RB_ITEMTONODE, RB_NODETOITEM, u64. rewrite Zplus_mod_idemp_l. rewrite Z.mod_small; lia. Qed.

Lemma wp_iterate fuel s mn T R p l1 l2 dir : own (rb_mem s) (tree_cells rbt ops mn T ++ R) → elems T = l1 ++ p :: l2 →
  item p ≠ NULL → (length (elems T) < fuel)%nat →
  wp (rb_tree_iterate rbt off fuel (item p) dir) (λ r s', s' = s ∧ r = found (if dir then head l2 else last l1)) s.
Proof.
  intros Ho He H0 Hlen. destruct (locate_at _ _ _ _ _ _ _ Ho He) as (c & l & r & k & HT & Hat & -> & ->). clear Ho.
  unfold rb_tree_iterate. rewrite (proj2 (Z.eqb_neq _ _) H0), node_item.
  2: { apply (at_nonzero _ _ _ _ _ _ _ p Hat). rewrite elems_plug. cbn. set_solver. }
  apply wp_bind. eapply wp_down; [exact Hat|]. destruct (side dir l r) as [|c' l' p' r'] eqn:Es.
  - change (RB_SENTINEL_P (ptr Leaf)) with true. cbn match. change p with (ptr (Node c l p r)) at 1.
    pose proof (length_way (Node c l p r) k). rewrite <- HT in *.
    eapply wp_mono; [eapply wp_iterate_up; [exact Hat|done|lia]|]. intros r' s' [-> ->]. split; [done|].
    destruct dir; cbn in Es; rewrite Es; cbn [elems]; [done|]. by rewrite app_nil_r.
  - rewrite <- Es. apply (at_down _ _ _ _ _ _ _ _ _ _ dir) in Hat.
    rewrite sentinel_ne. 2: { rewrite Es. cbn. apply (at_nonzero _ _ _ _ _ _ _ p' Hat). rewrite elems_plug, Es. cbn. set_solver. }
    eapply wp_mono; [eapply wp_iterate_down; [exact Hat|by rewrite Es|]|].
    + subst T. rewrite elems_plug, !length_app in Hlen. cbn [elems] in Hlen. rewrite length_app in Hlen. cbn in Hlen. destruct dir; cbn; lia.
    + intros x s' [-> ->]. split; [done|]. f_equal. destruct dir; cbn in Es |- *; rewrite Es; cbn.
      * rewrite head_app. by destruct (elems l').
      * by rewrite app_assoc, !last_app_cons.
Qed.

(** ** A leaf *)

(** What is left of a removal: the nodes [l1] and [l2] in the tree, [p] outside. *)
Definition pruned (s : rbst E) (p : Z) (l1 l2 : list Z) (R : list cell) (s' : rbst E) : Prop :=
  rb_env s' = rb_env s ∧ ∃ T' n', rep rbt ops s' T' ((p, n') :: R) ∧ elems T' = l1 ++ l2.

(** The link to the position. *)
Lemma wp_set_link s mn t k v R (Q : unit → rbst E → Prop) : at_pos rbt ops mn (rb_mem s) t k R →
  (∀ h, own h (cells (kf k) (kp k) t ++ kcells rbt ops mn v k ++ R) → Q tt (set_mem h s)) → wp (set_rb_nodes (kf k) (kp k) v) Q s.
Proof.
  intros Ho HQ. destruct (kcells_link rbt ops mn (ptr t) k) as (n & rest & Hkc & _ & Hkc'). unfold at_pos in Ho. rewrite Hkc in Ho.
  eapply (wp_set_nodes s (cells (kf k) (kp k) t) (rest ++ R)); [exact Ho|]. intros h Ho'. apply HQ. by rewrite Hkc'.
Qed.

Lemma prune_head k p : k ≠ [] → NoDup (kl k ++ p :: kr k) →
  head (kl k ++ kr k) =
    (if negb (kp k) && bool_decide (head (kl k ++ p :: kr k) = Some p) then Some (kf k) else head (kl k ++ p :: kr k)).
Proof.
  intros Hk Hnd. destruct k as [|[d c q w] k]; [done|]. cbn in *. destruct d; cbn in *.
  - destruct (kl k) as [|a l]; cbn; [|done]. by destruct (elems w).
  - rewrite app_nil_r in *. destruct (kl k) as [|a l]; cbn in *; [by rewrite bool_decide_true|].
    rewrite bool_decide_false; [done|]. intros [= ->]. apply NoDup_cons in Hnd as [Hnd _]. apply Hnd. set_solver.
Qed.

Lemma prune_last k p : k ≠ [] → NoDup (kl k ++ p :: kr k) →
  last (kl k ++ kr k) =
    (if kp k && bool_decide (last (kl k ++ p :: kr k) = Some p) then Some (kf k) else last (kl k ++ p :: kr k)).
Proof.
  intros Hk Hnd. destruct k as [|[d c q w] k]; [done|]. cbn in *. destruct d; cbn in *.
  - rewrite !app_assoc. rewrite last_app_cons. destruct (kr k) as [|a l].
    + rewrite !app_nil_r, !last_snoc. by rewrite bool_decide_true.
    + rewrite !last_app_cons, last_cons_cons. rewrite bool_decide_false; [done|]. intros Hl%last_elem.
      apply NoDup_app in Hnd as (_ & _ & Hnd). apply NoDup_cons in Hnd as [Hnd _]. done.
  - rewrite !app_nil_r. by rewrite !last_app_cons, last_cons_cons.
Qed.

(** The least and the greatest node, once the leaf [p] is gone. *)
Lemma wp_prune_minmax s mn p k R : at_pos rbt ops mn (rb_mem s) Leaf k R → NoDup (kl k ++ p :: kr k) →
  head (kl k ++ p :: kr k) = Some mn → last (kl k ++ p :: kr k) = Some (rbt_max s) →
  wp (when ((if kp k then rbt_max s else mn) =? p)
        (set_rbt_minmax rbt (kp k) (kf k);; when (match k with [] => true | _ => false end) (set_rbt_minmax rbt true (kf k))))
    (λ _ s', ∃ mn', at_pos rbt ops mn' (rb_mem s') Leaf k R ∧ rb_env s' = rb_env s ∧
       (k ≠ [] → head (kl k ++ kr k) = Some mn' ∧ last (kl k ++ kr k) = Some (rbt_max s'))) s.
Proof.
  intros Ho Hnd Hmn Hmx. destruct (decide (k = [])) as [->|Hk].
  - cbn in Hmn. injection Hmn as ->. cbn [kp]. rewrite Z.eqb_refl. cbn [when]. apply wp_bind.
    eapply wp_set_minmax; [exact Ho|]. clear Ho. intros s1 Ho _ H1. eapply wp_set_minmax; [exact Ho|]. clear Ho. intros s2 Ho _ H2.
    eexists. split; [exact Ho|]. split; [by rewrite H2|done].
  - replace (match k with [] => true | _ => false end) with false by (by destruct k).
    rewrite (prune_head k p), (prune_last k p) by done. rewrite Hmn, Hmx. destruct (Z.eqb_spec (if kp k then rbt_max s else mn) p) as [Eq|Eq]; cbn [when].
    + apply wp_bind. eapply wp_set_minmax; [exact Ho|]. clear Ho. intros s1 Ho H1 H2. apply wp_mret. eexists. split; [exact Ho|]. split; [done|].
      intros _. rewrite H1. destruct (kp k); cbn; rewrite bool_decide_true by congruence; done.
    + apply wp_mret. eexists. split; [exact Ho|]. split; [done|]. intros _. destruct (kp k); cbn; rewrite bool_decide_false by congruence; done.
Qed.

Lemma wp_prune_node fuel s mn c p k R (Q : unit → rbst E → Prop) :
  at_pos rbt ops mn (rb_mem s) (Node c Leaf p Leaf) k R → rb (plug (Node c Leaf p Leaf) k) →
  head (kl k ++ p :: kr k) = Some mn → last (kl k ++ p :: kr k) = Some (rbt_max s) → (length k ≤ fuel)%nat →
  (∀ s', pruned s p (kl k) (kr k) R s' → Q tt s') →
  wp (rb_tree_prune_node rbt fuel p (negb c && negb match k with [] => true | _ => false end)) Q s.
Proof.
  intros Ho Hrb Hmn Hmx Hlen HQ. unfold rb_tree_prune_node. set (t := Node c Leaf p Leaf) in *. assert (t ≠ Leaf) as Ht by done.
  assert (NoDup (kl k ++ p :: kr k)) as Hnd.
  { apply at_plug, own_elems in Ho. by rewrite elems_plug in Ho. }
  destruct (at_kf _ _ _ _ _ _ _ Ho) as [Hf _]. destruct (own_ptr _ [] _ _ _ Ho) as [Hp _].
  apply wp_bind. eapply (wp_POSITION_at rbt ops mn s t); [exact Ho|done|]. apply wp_bind. eapply (wp_FATHER_at rbt ops mn s t); [exact Ho|done|].
  apply wp_bind. eapply (wp_ROOT_P rbt ops mn s t); [exact Ho|done|]. apply wp_bind. eapply wp_down; [exact Ho|]. cbn [side ptr].
  apply wp_bind. eapply wp_set_link; [exact Ho|]. clear Ho. intros h1 Ho.
  assert (at_pos rbt ops mn h1 Leaf k ((p, mkn false 0 0 (mk (kf k) (kp k) c)) :: R)) as Hat.
  { unfold at_pos. eapply own_perm; [|exact Ho]. cbn [t cells ptr]. perm. }
  apply wp_bind. cbn [t cells app ptr] in Ho. rb_step Ho. clear Ho.
  apply wp_bind. eapply wp_minmax; [exact Hat|]. apply wp_bind.
  eapply wp_mono; [eapply wp_prune_minmax; [exact Hat|done..]|]. clear Hat. intros [] s2 (mn' & Ho & Henv & Hmm).
  apply wp_bind. eapply (wp_SET_FATHER _ (kcells rbt ops mn' 0 k) R); [exact Hf|exact Ho|exact aligned_0|]. clear Ho. intros h2 Ho.
  set (R' := (p, mkn false 0 0 (mk 0 (kp k) c)) :: R) in *.
  assert (∀ h T, own h (tree_cells rbt ops mn' T ++ R') → rb T → elems T = kl k ++ kr k → Q tt (set_mem h s2)) as HQ'.
  { intros h T H1 H2 H3. apply HQ. split; [done|]. exists T. eexists. split; [|done]. split; [|done]. exists mn'. split; [exact H1|].
    intros HT. rewrite H3. apply Hmm. intros ->. destruct T; [done|]. cbn in H3. symmetry in H3. by apply app_cons_not_nil in H3. }
  destruct (unplug_rb _ _ Hrb) as (n & Hn & Hk & Hr). destruct c; cbn [negb andb when].
  - apply wp_mret. apply (HQ' h2 (plug Leaf k)); [by apply at_plug|..|by rewrite elems_plug].
    cbn in Hn. destruct Hn as (_ & _ & -> & _). by apply (plug_rb _ _ 0).
  - cbn in Hn. destruct Hn as (? & -> & -> & _). destruct k as [|fr k]; cbn [negb when].
    + apply wp_mret. apply (HQ' h2 Leaf); [by apply (at_plug _ _ _ _ _ [])| |done]. split; [done|by exists 0%nat].
    + eapply (wp_removal_loop _ _ _ _ _ Leaf (fr :: k) 0); [exact Ho|done..|]. intros h T H1 H2 H3. apply (HQ' h T); [done..|]. by rewrite H3, elems_plug.
Qed.

(** ** A node with one son *)

(** [p] and its only son [q], on the side [w], in order. *)
Definition pair (w : bool) (p q : Z) : list Z := if w then [p; q] else [q; p].

Lemma pair_head (a b : list Z) w p q : NoDup (a ++ pair w p q ++ b) →
  head (a ++ q :: b) = (if bool_decide (head (a ++ pair w p q ++ b) = Some p) then Some q else head (a ++ pair w p q ++ b)).
Proof.
  intros Hnd. destruct a as [|x a]; cbn in *.
  - destruct w; cbn in *; [by rewrite bool_decide_true|]. rewrite bool_decide_false; [done|]. intros [= ->]. apply NoDup_cons in Hnd as [Hnd _]. set_solver.
  - rewrite bool_decide_false; [done|]. intros [= ->]. apply NoDup_cons in Hnd as [Hnd _]. destruct w; set_solver.
Qed.

Lemma pair_last (a b : list Z) w p q : NoDup (a ++ pair w p q ++ b) →
  last (a ++ q :: b) = (if bool_decide (last (a ++ pair w p q ++ b) = Some p) then Some q else last (a ++ pair w p q ++ b)).
Proof.
  rewrite <- !head_reverse, <- (NoDup_Permutation_proper _ _ (reverse_Permutation (a ++ pair w p q ++ b))).
  rewrite !reverse_app, reverse_cons, <- !app_assoc. replace (reverse (pair w p q)) with (pair (negb w) p q) by (by destruct w).
  apply pair_head.
Qed.

(** Away from the root, [p] can only be the end on its own side. *)
Lemma pair_end_head k w p q : k ≠ [] → NoDup (kl k ++ pair w p q ++ kr k) → head (kl k ++ pair w p q ++ kr k) = Some p → kp k = false.
Proof.
  intros Hk Hnd Hh. destruct k as [|[[] c f u] k]; [done| |done]. cbn in Hnd, Hh. exfalso.
  assert (∃ a l, kl k ++ elems u ++ [f] = a :: l) as (a & l & Hl) by (destruct (kl k); cbn; [destruct (elems u); cbn|]; eauto).
  rewrite Hl in Hnd, Hh. cbn in *. injection Hh as ->. apply NoDup_cons in Hnd as [Hnd _]. destruct w; set_solver.
Qed.

Lemma pair_end_last k w p q : k ≠ [] → NoDup (kl k ++ pair w p q ++ kr k) → last (kl k ++ pair w p q ++ kr k) = Some p → kp k = true.
Proof.
  intros Hk Hnd Hh. destruct k as [|[[] c f u] k]; [done|done|]. cbn in Hnd, Hh. exfalso.
  rewrite !app_assoc, last_app_cons in Hh. apply last_elem in Hh. rewrite app_assoc in Hnd.
  apply NoDup_app in Hnd as (_ & Hnd & _). apply (Hnd p); [destruct w; set_solver|done].
Qed.

Lemma wp_branch_minmax s mn w p q t k R n : at_pos rbt ops mn (rb_mem s) t k ((p, n) :: R) →
  NoDup (kl k ++ pair w p q ++ kr k) → (∃ y i, n = mkn w q y (mk (kf k) (kp k) i)) →
  head (kl k ++ pair w p q ++ kr k) = Some mn → last (kl k ++ pair w p q ++ kr k) = Some (rbt_max s) →
  wp (if (match k with [] => true | _ => false end : bool) then set_rbt_minmax rbt (negb w) q
      else pos ← RB_POSITION p; m ← rbt_minmax rbt pos; when (m =? p) (set_rbt_minmax rbt pos q))
    (λ _ s', ∃ mn', at_pos rbt ops mn' (rb_mem s') t k ((p, n) :: R) ∧ rb_env s' = rb_env s ∧
       head (kl k ++ q :: kr k) = Some mn' ∧ last (kl k ++ q :: kr k) = Some (rbt_max s')) s.
Proof.
  intros Ho Hnd (y & i & ->) Hmn Hmx. destruct k as [|fr k].
  - eapply wp_set_minmax; [exact Ho|]. clear Ho. intros s1 Ho H1 H2. eexists. split; [exact Ho|]. split; [done|]. rewrite H1.
    destruct w; cbn in *; by simplify_eq.
  - set (k' := fr :: k) in *. assert (k' ≠ []) as Hk by done. destruct (at_kf _ _ _ _ _ _ _ Ho) as [Hf _].
    pose proof (pair_end_head k' w p q Hk Hnd) as Hl. pose proof (pair_end_last k' w p q Hk Hnd) as Hr.
    rewrite (pair_head _ _ _ _ _ Hnd), (pair_last _ _ _ _ _ Hnd). rewrite Hmn, Hmx in *.
    apply wp_bind. unfold at_pos in Ho. rewrite app_assoc in Ho. eapply wp_POSITION; [exact Hf|exact Ho|]. rewrite <- app_assoc in Ho.
    apply wp_bind. eapply wp_minmax; [exact Ho|]. destruct (Z.eqb_spec (if kp k' then rbt_max s else mn) p) as [Eq|Eq]; cbn [when].
    + eapply wp_set_minmax; [exact Ho|]. clear Ho. intros s1 Ho H1 H2. eexists. split; [exact Ho|]. split; [done|]. rewrite H1.
      destruct (kp k'); subst p.
      * rewrite (bool_decide_false (Some mn = _)), (bool_decide_true (Some (rbt_max s) = _)) by (done || (intros [=]; naive_solver congruence)). done.
      * rewrite (bool_decide_true (Some mn = _)), (bool_decide_false (Some (rbt_max s) = _)) by (done || (intros [=]; naive_solver congruence)). done.
    + apply wp_mret. eexists. split; [exact Ho|]. split; [done|].
      destruct (kp k'); rewrite !bool_decide_false; try done; intros [=]; naive_solver congruence.
Qed.

Lemma wp_prune_branch s mn w c p q k R (Q : unit → rbst E → Prop) :
  at_pos rbt ops mn (rb_mem s) (nd w c (Node true Leaf q Leaf) p Leaf) k R → rb (plug (nd w c (Node true Leaf q Leaf) p Leaf) k) →
  head (kl k ++ pair w p q ++ kr k) = Some mn → last (kl k ++ pair w p q ++ kr k) = Some (rbt_max s) →
  (∀ s', rb_env s' = rb_env s → (∃ T' n', rep rbt ops s' T' ((p, n') :: R) ∧ elems T' = kl k ++ q :: kr k) → Q tt s') →
  wp (rb_tree_prune_blackred_branch rbt p w) Q s.
Proof.
  intros Ho Hrb Hmn Hmx HQ. unfold rb_tree_prune_blackred_branch. set (t := nd w c (Node true Leaf q Leaf) p Leaf) in *.
  assert (t ≠ Leaf) as Ht by (by destruct w). assert (ptr t = p) as Hpt by apply ptr_nd.
  assert (NoDup (kl k ++ pair w p q ++ kr k)) as Hnd.
  { apply at_plug, own_elems in Ho. rewrite elems_plug in Ho. unfold t in Ho. rewrite elems_nd in Ho. by destruct w. }
  destruct (at_kf _ _ _ _ _ _ _ Ho) as [Hf _].
  apply wp_bind. rewrite <- Hpt at 1. eapply wp_FATHER_at; [exact Ho|done|]. apply wp_bind.
  destruct (kcells_link rbt ops mn p k) as (n & rest & Hkc & _ & Hkc').
  assert (own (rb_mem s) ((q, mkn false 0 0 (mk p w true)) :: (p, mkn w q 0 (mk (kf k) (kp k) c)) :: (kf k, n) :: rest ++ R)) as Ho'.
  { eapply own_perm; [|exact Ho]. rewrite Hpt, Hkc. unfold t. rewrite cells_nd. cbn [cells ptr]. perm. }
  destruct (own_ptr _ [_] _ _ _ Ho') as [Hp _]. rb_step Ho'. apply wp_bind. rewrite <- Hpt at 1. eapply wp_ROOT_P; [exact Ho|done|]. clear Ho.
  apply wp_bind. eapply (wp_COPY _ [] []); [exact Hp|exact Hf|exact Ho'|]. clear Ho'. intros h1 Ho. cbn [app] in Ho.
  rb_step Ho. rb_step Ho. rb_step Ho. set (n1 := (p, mkn w q 0 (mk (kf k) (kp k) c))) in *.
  assert (at_pos rbt ops mn h0 (Node c Leaf q Leaf) k (n1 :: R)) as Hat.
  { unfold at_pos. cbn [ptr cells app]. rewrite Hkc'. eapply own_perm; [|exact Ho]. perm. }
  clear Ho. apply wp_bind. eapply wp_mono; [eapply (wp_branch_minmax (set_mem h0 _)); [exact Hat|done|by eexists _, _|done..]|].
  clear Hat. intros [] s2 (mn' & Ho & Henv & Hmm).
  destruct (unplug_rb _ _ Hrb) as (m & Hm & Hk & _).
  assert (c = false) as -> by (destruct c; [apply valid_red in Hm; naive_solver|done]).
  unfold at_pos in Ho. cbn [cells ptr app] in Ho.
  eapply (wp_SET_FATHER _ ((q, _) :: kcells rbt ops mn' q k) R); [exact Hf|exact Ho|exact aligned_0|]. clear Ho. intros h2 Ho.
  apply HQ; [done|]. exists (plug (Node false Leaf q Leaf) k). eexists. split; [|by rewrite elems_plug]. split.
  - exists mn'. split; [apply at_plug; exact Ho|]. intros _. by rewrite elems_plug.
  - apply (plug_rb _ _ m); [|done|done]. apply valid_black in Hm as (m' & -> & Hm & _). destruct Hm as (_ & _ & -> & _). by exists 0%nat.
Qed.

End prune.
