(* ===== verification/RbSwap.v ===== *)
(** The removal of a node with two children, and the theorems on the operations
    of rb.c. *)

From S2P Require Import Prelude Words Rb RbMem RbRotate RbInsert RbRemove RbOps RbPrune.

(** ** Part of a way up *)

(** The memory of a way that ends below the father [f], on the side [d]. *)
Fixpoint mcells (f : Z) (d : bool) (q : Z) (m : ctx) : list cell :=
  match m with
  | [] => []
  | Fr e c p w :: m => (p, mkn e q (ptr w) (mk (RbRotate.kf f m) (match m with [] => d | _ => kp m end) c)) :: cells p (negb e) w ++ mcells f d p m
  end.

(** The top of the way. *)
Fixpoint mtop (q : Z) (m : ctx) : Z := match m with [] => q | Fr _ _ p _ :: m => mtop p m end.

Section way.
Context (rbt ops mn : Z).

Lemma kf_app m k : kf rbt (m ++ k) = kf (kf rbt k) m.
Proof. by destruct m as [|[]]. Qed.

Lemma kp_app m k : kp (m ++ k) = match m with [] => kp k | _ => kp m end.
Proof. by destruct m as [|[]]. Qed.

Lemma kcells_app q m k : kcells rbt ops mn q (m ++ k) = mcells (kf rbt k) (kp k) q m ++ kcells rbt ops mn (mtop q m) k.
Proof.
  revert q. induction m as [|[e c p w] m IH]; intros q; [done|]. cbn [app kcells mcells mtop]. rewrite IH, kf_app, kp_app, <- app_assoc. done.
Qed.

Lemma mcells_link f d q m : m ≠ [] → ∃ n rest, mcells f d q m = (kf f m, n) :: rest ∧
  ∀ q', mcells f d q' m = (kf f m, set_child (kp m) q' n) :: rest.
Proof.
  destruct m as [|[e c p w] m]; [done|]. intros _. eexists _, _. split; [done|]. intros q'. cbn. by rewrite set_child_mkn.
Qed.

Lemma mcells_top q m : m ≠ [] → ∃ e x y c rest, ∀ f' d', mcells f' d' q m ≡ₚ (mtop q m, mkn e x y (mk f' d' c)) :: rest.
Proof.
  revert q. induction m as [|[e c p w] m IH]; intros q Hm; [done|]. destruct m as [|fr m].
  - eexists _, _, _, _, _. intros f' d'. cbn [mcells mtop RbRotate.kf]. rewrite app_nil_r. reflexivity.
  - destruct (IH p) as (e' & x & y & c' & rest & Hr); [done|].
    exists e', x, y, c', ((p, mkn e q (ptr w) (mk (RbRotate.kf 0 (fr :: m)) (kp (fr :: m)) c)) :: cells p (negb e) w ++ rest).
    intros f' d'. change (mtop q (Fr e c p w :: fr :: m)) with (mtop p (fr :: m)).
    replace (mcells f' d' q (Fr e c p w :: fr :: m)) with
      ((p, mkn e q (ptr w) (mk (RbRotate.kf 0 (fr :: m)) (kp (fr :: m)) c)) :: cells p (negb e) w ++ mcells f' d' p (fr :: m)) by (by destruct fr).
    rewrite Hr. perm.
Qed.

Lemma mtop_any q q' m : m ≠ [] → mtop q m = mtop q' m.
Proof. by destruct m as [|[]]. Qed.

End way.

(** The names of the nodes do not matter for the colours. *)
Lemma kvalid_name m w c p p' Y k n : kvalid (m ++ Fr w c p Y :: k) n → kvalid (m ++ Fr w c p' Y :: k) n.
Proof.
  revert n. induction m as [|[e c' q v] m IH]; intros n; [done|]. cbn. intros (H1 & H2 & H3). split; [done|]. split; [|by apply IH].
  intros Hc. destruct (H2 Hc) as (? & ? & Hr). split_and!; [done|by destruct m|]. by destruct m as [|[]].
Qed.

Section swap.
Context {E : Type}.
Implicit Types s : rbst E.
Context (rbt ops mn : Z).
Abbreviation kcells := (kcells rbt ops mn).
Abbreviation kf := (kf rbt).

Lemma wp_minmax_own s q k L (d : bool) Q : own (rb_mem s) (kcells q k ++ L) → Q (if d then rbt_max s else mn) s → wp (rbt_minmax rbt d) Q s.
Proof.
  intros Ho HQ. destruct d; [done|]. cbn. destruct (kcells_header rbt ops q k) as (r & body & Hb). rewrite Hb in Ho.
  eapply (wp_get_info s [] (body ++ L)); [exact Ho|done].
Qed.

Lemma wp_then {A B C} (m : M (rbst E) A) (f : A → M (rbst E) B) (g : B → M (rbst E) C) Q s :
  wp m (λ a, wp (f a) (λ b, wp (g b) Q)) s → wp (a ← m; b ← f a; g b) Q s.
Proof. intros Hw. apply wp_bind. eapply wp_mono; [exact Hw|]. intros a s'. apply wp_bind. Qed.

(** The son of the node that is moved: painted black, and linked to its new father. *)
Lemma wp_son s (direct reb : bool) S w f e son L (Q : bool → rbst E → Prop) :
  own (rb_mem s) (cells S w son ++ L) → aligned S → aligned f → (red son = false → son = Leaf) →
  (∀ h, own h (cells (if direct then S else f) (if direct then w else e) (paint false son) ++ L) → Q (reb && negb (red son)) (set_mem h s)) →
  wp (RB_RED_P (ptr son)) (λ sr, wp
     (if (sr : bool) then
        RB_MARK_BLACK (ptr son);;
        (if direct then mret tt else RB_SET_FATHER (ptr son) f;; RB_SET_POSITION (ptr son) e);;
        mret false
      else mret reb) Q) s.
Proof.
  intros Ho HS Hf Hl HQ. eapply wp_RED_tree; [exact Ho|done|]. destruct (red son) eqn:Er.
  - destruct son as [|[] l q r]; try done. cbn [cells app ptr] in Ho |- *. rb_step Ho. rewrite andb_false_r in HQ. destruct direct.
    + apply wp_bind, wp_mret, wp_mret. apply HQ. exact Ho.
    + apply wp_bind. rb_step Ho. rb_step Ho. apply wp_mret. apply HQ. exact Ho.
  - rewrite Hl in * by done. rewrite andb_true_r in HQ. apply wp_mret. rewrite <- (set_mem_id s). apply HQ. by destruct direct.
Qed.

(** The node that is moved takes the place of the one that is removed. *)
Lemma wp_take_place s S p w top y0 f0 d0 cS tp Y k c L (rest : M (rbst E) unit) (Q : unit → rbst E → Prop) :
  own (rb_mem s) ((S, mkn w top y0 (mk f0 d0 cS)) :: (p, mkn w tp (ptr Y) (mk (kf k) (kp k) c)) :: cells p (negb w) Y ++ kcells p k ++ L) →
  aligned f0 → Y ≠ Leaf → mn ≠ p → rbt_max s ≠ p →
  (∀ h, own h ((S, mkn w top (ptr Y) (mk (kf k) (kp k) c)) :: cells S (negb w) Y ++ kcells S k ++ (p, mkn w tp (ptr Y) (mk 0 (kp k) c)) :: L) →
     wp rest Q (set_mem h s)) →
  wp (c ← rb_nodes p (negb w);
      set_rb_nodes S (negb w) c;;
      c ← rb_nodes S (negb w);
      RB_SET_FATHER c S;;
      RB_COPY_PROPERTIES S p;;
      f ← RB_FATHER p;
      RB_SET_FATHER S f;;
      f ← RB_FATHER S;
      pos ← RB_POSITION S;
      set_rb_nodes f pos S;;
      pos ← RB_POSITION p;
      m ← rbt_minmax rbt pos;
      when (m =? p) (f ← RB_FATHER p; set_rbt_minmax rbt pos f);;
      RB_SET_FATHER p NULL;;
      rest) Q s.
Proof.
  intros Ho Hf0 HY Hmn Hmx HQ. destruct Y as [|cy yl py yr]; [done|]. cbn [cells ptr app] in *.
  set (X := cells py false yl ++ cells py true yr) in *.
  destruct (kf_aligned rbt ops mn (rb_mem s) ((S, mkn w top y0 (mk f0 d0 cS)) :: (p, mkn w tp py (mk (kf k) (kp k) c)) ::
    (py, mkn false (ptr yl) (ptr yr) (mk p (negb w) cy)) :: X) p k L) as [Hf _].
  { eapply own_perm; [|exact Ho]. perm. }
  destruct (kcells_link rbt ops mn p k) as (n & ks & Hkc & _ & Hkc'). rewrite Hkc in Ho.
  eapply (own_perm _ _ ((S, mkn w top y0 (mk f0 d0 cS)) :: (p, mkn w tp py (mk (kf k) (kp k) c)) :: (kf k, n) ::
    (py, mkn false (ptr yl) (ptr yr) (mk p (negb w) cy)) :: X ++ ks ++ L)) in Ho; [|perm].
  destruct (own_ptr _ [] _ _ _ Ho) as [HS _]. destruct (own_ptr _ [_] _ _ _ Ho) as [Hp _].
  rb_step Ho. rb_step Ho. rb_step Ho. rb_step Ho.
  apply wp_bind. eapply (wp_COPY _ [] []); [exact Hf0|exact Hf|exact Ho|]. clear Ho. intros h1 Ho. cbn [app] in Ho.
  rb_step Ho. rb_step Ho. rb_step Ho. rb_step Ho. rb_step Ho. rb_step Ho.
  set (SC := (S, mkn w top py (mk (kf k) (kp k) c))) in *. set (YC := (py, mkn false (ptr yl) (ptr yr) (mk S (negb w) cy))) in *.
  apply wp_bind. eapply (wp_minmax_own (set_mem _ _) S k (SC :: YC :: (p, mkn w tp py (mk (kf k) (kp k) c)) :: X ++ L)).
  { rewrite Hkc'. eapply own_perm; [|exact Ho]. perm. }
  cbn [rbt_max set_mem]. rewrite (proj2 (Z.eqb_neq _ p)) by (by destruct (kp k)). apply wp_bind, wp_mret. pose proof aligned_0. rb_step Ho.
  apply (HQ h4). rewrite Hkc'. change NULL with 0 in Ho. eapply own_perm; [|exact Ho]. perm.
Qed.

(** What the colours say of the node that is moved: it has no child on the side
    [o], so its son, if any, is red. *)
Lemma standin_son o cS S son n : valid (nd o cS Leaf S son) n →
  (red son = false → son = Leaf) ∧ valid (paint false son) (if red son then 1 else 0) ∧ n = (if cS then 0 else 1)%nat ∧ (cS = true → son = Leaf).
Proof.
  intros Hn. assert (valid son 0 ∧ n = (if cS then 0 else 1)%nat ∧ (cS = true → red son = false)) as (Hs & -> & Hc).
  { destruct cS; [apply valid_red in Hn as (_ & ? & Hl & ?)|apply valid_black in Hn as (m & -> & Hl & ?)]; cbn in Hl; by subst. }
  destruct son as [|[] l q r]; [done| |by destruct Hs as (? & ? & _)].
  destruct Hs as (? & ? & ? & ?). split; [done|]. split; [by exists 0%nat|]. split; [done|]. intros HcS. by discriminate (Hc HcS).
Qed.

(** The new tree, once the node is moved. *)
Lemma wp_rebalance fuel s (reb : bool) cS S S' p Y son m w c k R (Q : unit → rbst E → Prop) :
  let k1 := m ++ Fr w c S' Y :: k in
  at_pos rbt ops mn (rb_mem s) (paint false son) k1 R → rb (plug (nd (negb w) cS Leaf S son) (m ++ Fr w c p Y :: k)) →
  reb = negb cS && negb (red son) → (length k1 ≤ fuel)%nat →
  (∀ h T, own h (tree_cells rbt ops mn T ++ R) → rb T → elems T = elems (plug son k1) → Q tt (set_mem h s)) →
  wp (when reb (rb_tree_removal_rebalance rbt fuel (kf k1) (kp k1))) Q s.
Proof.
  intros k1 Ho Hrb -> Hlen HQ. destruct (unplug_rb _ _ Hrb) as (n & Hn & Hk%(kvalid_name m w c p S') & Hr). fold k1 in Hk.
  destruct (standin_son _ _ _ _ _ Hn) as (Hleaf & Hv & -> & Hc). assert (red (paint false son) = false) as Hb by (by destruct son).
  assert (elems (plug (paint false son) k1) = elems (plug son k1)) as He by (rewrite !elems_plug; by destruct son).
  assert (k1 ≠ []) as Hk1 by (by destruct m).
  destruct (negb cS && negb (red son)) eqn:Ereb; cbn [when].
  - apply andb_prop in Ereb as [->%negb_true_iff Hs%negb_true_iff]. rewrite Hs in Hv.
    eapply wp_removal_loop; [exact Ho|exact Hv|done..|]. intros h T ? ? HT. apply (HQ h T); [done..|]. by rewrite HT.
  - apply wp_mret. rewrite <- (set_mem_id s). apply (HQ _ (plug (paint false son) k1)); [by apply at_plug| |done].
    eapply plug_rb; [exact Hv| |by rewrite Hb]. destruct cS; [rewrite Hc in * by done; done|]. by destruct (red son).
Qed.

Lemma way_name m w c S p Y k : m ≠ [] → (m ≠ [] → kp m = negb w) →
  kf (m ++ Fr w c S Y :: k) = RbRotate.kf p m ∧ kp (m ++ Fr w c S Y :: k) = negb w.
Proof. intros Hm0 Hm. rewrite <- (Hm Hm0). by destruct m as [|[]]. Qed.

Lemma wp_swap fuel s cS S son m w c p Y k R (Q : unit → rbst E → Prop) :
  let k0 := m ++ Fr w c p Y :: k in
  at_pos rbt ops mn (rb_mem s) (nd (negb w) cS Leaf S son) k0 R → rb (plug (nd (negb w) cS Leaf S son) k0) →
  (m ≠ [] → kp m = negb w) → Y ≠ Leaf → mn ≠ p → rbt_max s ≠ p → (length k0 ≤ fuel)%nat →
  (∀ h T n, own h (tree_cells rbt ops mn T ++ (p, n) :: R) → rb T → elems T = elems (plug son (m ++ Fr w c S Y :: k)) → Q tt (set_mem h s)) →
  wp (rb_tree_swap_prune_and_rebalance rbt fuel p S) Q s.
Proof.
  intros k0 Ho Hrb Hm HY Hmn Hmx Hlen HQ. unfold rb_tree_swap_prune_and_rebalance. set (t := nd (negb w) cS Leaf S son) in *.
  assert (t ≠ Leaf) as Ht by (unfold t; by destruct w). assert (ptr t = S) as HtS by apply ptr_nd.
  destruct (at_kf _ _ _ _ _ _ _ Ho) as [Hkf _]. destruct (unplug_rb _ _ Hrb) as (n & Hn & _ & _).
  destruct (standin_son _ _ _ _ _ Hn) as (Hleaf & _).
  apply wp_bind. rewrite <- HtS at 1. eapply wp_POSITION_at; [exact Ho|done|]. apply wp_bind. rewrite <- HtS at 1. eapply wp_FATHER_at; [exact Ho|done|].
  apply wp_bind. rewrite <- HtS at 1. eapply wp_BLACK_tree; [exact Ho|done|]. unfold t at 1. rewrite red_nd.
  assert (own (rb_mem s) ((S, mkn w (ptr son) 0 (mk (kf k0) (kp k0) cS)) :: cells S w son ++ mcells p w S m ++
    (p, mkn w (mtop S m) (ptr Y) (mk (kf k) (kp k) c)) :: cells p (negb w) Y ++ kcells p k ++ R)) as Ho'.
  { eapply own_perm; [|exact Ho]. rewrite HtS. unfold k0, t. rewrite cells_nd, kcells_app, mkn_negb, negb_involutive.
    cbn [cells ptr RbRotate.kcells RbRotate.kf kp]. perm. }
  clear Ho. destruct (own_ptr _ [] _ _ _ Ho') as [HS _]. apply wp_bind.
  destruct (decide (m = [])) as [->|Hm0].
  - change (kf k0) with p in *. change (kp k0) with w in *. rewrite Z.eqb_refl. at_cell (@wp_nodes) Ho'. rewrite child_mkn.
    set (SC := (S, mkn w (ptr son) 0 (mk p w cS))) in *. cbn [mcells mtop app] in Ho'.
    set (L := SC :: (p, mkn w S (ptr Y) (mk (kf k) (kp k) c)) :: cells p (negb w) Y ++ kcells p k ++ R).
    eapply wp_then, (wp_son s true (negb cS) S w p w son L); [eapply own_perm; [|exact Ho']; unfold L; perm|done..|].
    clear Ho'. intros h Ho. cbv beta iota in Ho. apply wp_bind, wp_mret.
    eapply (wp_take_place (set_mem h s) S p w (ptr son) 0 p w cS S Y k c (cells S w (paint false son) ++ R)); try done.
    { eapply own_perm; [|exact Ho]. unfold L, SC. perm. }
    clear Ho. intros h' Ho. eapply (wp_rebalance fuel (set_mem h' _) _ cS S S p Y son [] w c k
      ((p, mkn w S (ptr Y) (mk 0 (kp k) c)) :: R)); [|exact Hrb|done..|].
    + unfold at_pos. cbn [app RbRotate.kf kp RbRotate.kcells]. rewrite ptr_paint. eapply own_perm; [|exact Ho]. perm.
    + intros h'' T ? ? ?. by eapply HQ.
  - set (pf := RbRotate.kf p m). assert (kf k0 = pf) as Hkf0 by apply kf_app.
    assert (kp k0 = negb w) as Hkp0 by (unfold k0; rewrite kp_app; destruct m; [done|by apply Hm]).
    rewrite Hkf0, Hkp0, negb_involutive in *. destruct (mcells_link p w S m Hm0) as (nf & rf & Hlk & Hlk'). fold pf in Hlk, Hlk'.
    rewrite (proj2 (Z.eqb_neq pf p)).
    2: { rewrite Hlk in Ho'. eapply (own_ne _ pf nf p (mkn w (mtop S m) (ptr Y) (mk (kf k) (kp k) c))
           ((S, mkn w (ptr son) 0 (mk pf (negb w) cS)) :: cells S w son ++ rf ++ cells p (negb w) Y ++ kcells p k ++
           R)), own_perm;
      [|exact Ho']. perm. }
    at_cell (@wp_nodes) Ho'. rewrite child_mkn. set (pC := (p, mkn w (mtop S m) (ptr Y) (mk (kf k) (kp k) c))) in *.
    set (L := (S, mkn w (ptr son) 0 (mk pf (negb w) cS)) :: mcells p w S m ++ pC :: cells p (negb w) Y ++ kcells p k ++ R).
    eapply wp_then, (wp_son s false (negb cS) S w pf (negb w) son L); [eapply own_perm; [|exact Ho']; unfold L; perm|done..|].
    clear Ho'. intros h Ho. cbv beta iota in Ho. unfold L in Ho. rewrite Hlk in Ho.
    set (LY := cells p (negb w) Y ++ kcells p k ++ R) in *. set (LS := cells pf (negb w) (paint false son)) in *.
    eapply (own_perm _ _ ((pf, nf) :: (S, mkn w (ptr son) 0 (mk pf (negb w) cS)) :: pC :: rf ++ LS ++ LY)) in Ho; [|perm].
    apply wp_bind. apply wp_bind. rewrite <- (Hm Hm0) at 1. at_cell (@wp_set_nodes) Ho. clear Ho. intros h1 Ho. cbn [app] in Ho. unfold pC in Ho.
    rb_step Ho. rb_step Ho. rb_step Ho.
    destruct (mcells_top (ptr son) m Hm0) as (e & x & y & c' & rt & Htop). rewrite (mtop_any (ptr son) S m Hm0) in Htop.
    eapply (own_perm _ _ ((mtop S m, mkn e x y (mk p w c')) :: (S, mkn w (mtop S m) 0 (mk pf (negb w) cS)) :: pC :: rt ++ LS ++ LY)) in Ho.
    2: { transitivity (mcells p w (ptr son) m ++ (S, mkn w (mtop S m) 0 (mk pf (negb w) cS)) :: pC :: LS ++ LY);
           [rewrite Hlk'; unfold pC; perm|]. rewrite (Htop p w). perm. }
    assert (aligned p) as Hp by exact (proj1 (own_ptr _ [_; _] _ _ _ Ho)). rb_step Ho. apply wp_mret.
    eapply (wp_take_place (set_mem _ _) S p w (mtop S m) 0 pf (negb w) cS (mtop S m) Y k c (LS ++ mcells S w (ptr son) m ++ R)); try done.
    { eapply own_perm; [|exact Ho]. rewrite (Htop S w). unfold LY, pC. perm. }
    clear Ho. intros h' Ho. destruct (way_name m w c S p Y k Hm0 Hm) as [Hkf1 Hkp1]. cbv beta iota. fold pf in Hkf1. rewrite <- Hkf1, <- Hkp1 in *.
    eapply (wp_rebalance fuel (set_mem h' _) _ cS S S p Y son m w c k ((p, mkn w (mtop S m) (ptr Y) (mk 0 (kp k) c))
      :: R)); [|exact Hrb|done|by revert Hlen; unfold k0; rewrite !length_app|].
    + unfold at_pos. rewrite ptr_paint, kcells_app. cbn [RbRotate.kf kp RbRotate.kcells]. rewrite (mtop_any (ptr son) S m Hm0).
      eapply own_perm; [|exact Ho]. unfold LS. rewrite <- Hkf1, <- Hkp1. perm.
    + intros h'' T ? ? ?. by eapply HQ.
Qed.

End swap.

(** ** The end of a subtree *)

Lemma plug_app t m k : plug t (m ++ k) = plug (plug t m) k.
Proof. revert t. induction m as [|[e c p w] m IH]; intros t; [done|]. cbn. apply IH. Qed.

(** A way that only goes to the side [o]. *)
Definition way_to (o : bool) (m : ctx) : Prop := Forall (λ '(Fr e _ _ _), e = o) m.

Lemma end_split o t : t ≠ Leaf → ∃ c S son m, t = plug (nd o c Leaf S son) m ∧ way_to o m ∧ end_node o t = Some S.
Proof.
  induction t as [|c l IHl p r IHr]; intros Ht; [done|]. rewrite end_node_step.
  assert (Node c l p r = nd o c (side o l r) p (side (negb o) l r)) as -> by (by destruct o).
  assert (side o l r ≠ Leaf → ∃ c S son m, side o l r = plug (nd o c Leaf S son) m ∧ way_to o m ∧ end_node o (side o l r) = Some S) as IH by (by destruct o).
  destruct (side o l r) as [|c' l' p' r'].
  - exists c, p, (side (negb o) l r), []. split; [done|]. split; [constructor|done].
  - destruct IH as (cS & S & son & m & -> & Hm & HS); [done|]. exists cS, S, son, (m ++ [Fr o c p (side (negb o) l r)]).
    split; [by rewrite plug_app|]. split; [|done]. apply Forall_app. split; [done|]. by constructor.
Qed.

Lemma way_to_kp o m : way_to o m → m ≠ [] → kp m = o.
Proof. by intros [|[] m' Hm]. Qed.

Lemma elems_end o c S son m : way_to o m →
  elems (plug (nd o c Leaf S son) m) = if o then elems (plug son m) ++ [S] else S :: elems (plug son m).
Proof.
  intros Hm. rewrite !elems_plug, elems_nd. assert ((if o then kr m else kl m) = []) as H0.
  { induction Hm as [|[e c' p w] m He Hm IH]; [by destruct o|]. subst e. destruct o; cbn; [done|]. by rewrite IH. }
  destruct o; cbn; rewrite H0; [by rewrite !app_nil_r, ?app_assoc|done].
Qed.

Section remove.
Context {E : Type}.
Implicit Types s : rbst E.
Context (rbt ops off : Z).
Abbreviation kf := (kf rbt).
Abbreviation item := (RB_NODETOITEM off).

Lemma at_sentinel h mn t k R : at_pos rbt ops mn h t k R → RB_SENTINEL_P (ptr t) = match t with Leaf => true | _ => false end.
Proof.
  intros Ho. destruct t as [|c l p r]; [done|]. apply sentinel_ne. cbn. apply (at_nonzero _ _ _ _ _ _ _ p Ho). rewrite elems_plug. cbn. set_solver.
Qed.

Lemma wp_CHILDLESS s mn c l p r k R Q : at_pos rbt ops mn (rb_mem s) (Node c l p r) k R →
  Q (match l, r with Leaf, Leaf => true | _, _ => false end) s → wp (RB_CHILDLESS_P p) Q s.
Proof.
  intros Ho HQ. unfold RB_CHILDLESS_P. pose proof (at_sentinel _ _ _ _ _ Ho) as Hp. cbn [ptr] in Hp. rewrite Hp.
  pose proof (at_sentinel _ _ _ _ _ (at_down _ _ _ _ _ _ _ _ _ _ false Ho)) as Hl.
  pose proof (at_sentinel _ _ _ _ _ (at_down _ _ _ _ _ _ _ _ _ _ true Ho)) as Hr.
  apply wp_bind. eapply wp_down; [exact Ho|]. cbn [side] in *. rewrite Hl. destruct l; cbn [negb]; [|by apply wp_mret].
  apply wp_bind. eapply wp_down; [exact Ho|]. cbn [side]. rewrite Hr. apply wp_mret. by destruct r.
Qed.

Lemma wp_TWOCHILDREN s mn c l p r k R Q : at_pos rbt ops mn (rb_mem s) (Node c l p r) k R →
  Q (match l, r with Node _ _ _ _, Node _ _ _ _ => true | _, _ => false end) s → wp (RB_TWOCHILDREN_P p) Q s.
Proof.
  intros Ho HQ. unfold RB_TWOCHILDREN_P. pose proof (at_sentinel _ _ _ _ _ Ho) as Hp. cbn [ptr] in Hp. rewrite Hp.
  pose proof (at_sentinel _ _ _ _ _ (at_down _ _ _ _ _ _ _ _ _ _ false Ho)) as Hl.
  pose proof (at_sentinel _ _ _ _ _ (at_down _ _ _ _ _ _ _ _ _ _ true Ho)) as Hr.
  apply wp_bind. eapply wp_down; [exact Ho|]. cbn [side] in *. rewrite Hl. destruct l; [by apply wp_mret|].
  apply wp_bind. eapply wp_down; [exact Ho|]. cbn [side]. rewrite Hr. apply wp_mret. by destruct r.
Qed.

(** The red son of a node with one. *)
Lemma one_son (w : bool) c son p k : son ≠ Leaf → rb (plug (nd w c son p Leaf) k) → ∃ q, son = Node true Leaf q Leaf.
Proof.
  intros Hs (n & Hn & _ & _)%unplug_rb. assert (valid son 0) as H0.
  { destruct c; [apply valid_red in Hn as (_ & _ & ? & Hl)|apply valid_black in Hn as (m & -> & ? & Hl)]; cbn in Hl; by subst. }
  destruct son as [|[] l q r]; [done| |by destruct H0 as (? & ? & _)]. destruct H0 as (Hl & Hr & Hvl & Hvr).
  exists q. f_equal; [destruct l as [|[] ? ? ?]|destruct r as [|[] ? ? ?]]; try done; [by destruct Hvl as (? & ? & _)|by destruct Hvr as (? & ? & _)].
Qed.

(** The ends of a tree are not nodes with two children. *)
Lemma inner_not_end (a b : list Z) (l r : tree) p x : l ≠ Leaf → r ≠ Leaf → NoDup (a ++ (elems l ++ p :: elems r) ++ b) →
  head (a ++ (elems l ++ p :: elems r) ++ b) = Some x ∨ last (a ++ (elems l ++ p :: elems r) ++ b) = Some x → x ≠ p.
Proof.
  intros Hl Hr Hnd Hx ->. assert (∃ y ys, elems l = y :: ys) as (y & ys & Hel).
  { destruct l as [|? l1 ? ?]; [done|]. cbn. destruct (elems l1); cbn; eauto. }
  assert (∃ zs z, elems r = zs ++ [z]) as (zs & z & Her).
  { destruct r as [|? ? q r1]; [done|]. cbn. destruct (elems r1) as [|? ?] eqn:Hr1 using rev_ind; [by eexists _, _|].
    eexists (_ ++ q :: _), _. by rewrite <- app_assoc. }
  rewrite <- app_assoc in *. cbn [app] in *. apply NoDup_app in Hnd as (_ & Ha & Hnd).
  apply NoDup_app in Hnd as (_ & Hb & Hnd). apply NoDup_cons in Hnd as [Hnd _].
  destruct Hx as [Hx|Hx].
  - rewrite head_app, Hel in Hx. destruct a as [|v a]; cbn in Hx; injection Hx as ->.
    + apply (Hb p); [rewrite Hel; left|left].
    + apply (Ha p); [left|]. set_solver.
  - rewrite app_assoc, last_app_cons, Her in Hx. apply Hnd. rewrite Her.
    change (p :: (zs ++ [z]) ++ b) with ((p :: zs ++ [z]) ++ b) in Hx. destruct b as [|v b].
    + rewrite app_nil_r in *. change (p :: zs ++ [z]) with ((p :: zs) ++ [z]) in Hx. rewrite last_snoc in Hx. injection Hx as ->. set_solver.
    + rewrite last_app_cons in Hx. apply last_elem in Hx. set_solver.
Qed.

Lemma elems_nil t : t ≠ Leaf → elems t ≠ [].
Proof. destruct t; [done|]. intros _ He. cbn in He. symmetry in He. by apply app_cons_not_nil in He. Qed.

Lemma drop_inner_head (a b : list Z) p : a ≠ [] → head (a ++ b) = head (a ++ p :: b).
Proof. by destruct a. Qed.

Lemma drop_inner_last (a b : list Z) p : b ≠ [] → last (a ++ b) = last (a ++ p :: b).
Proof. destruct b as [|x b]; [done|]. intros _. rewrite !last_app_cons. by rewrite last_cons_cons. Qed.

Lemma wp_remove_two fuel s mn c l p r k R :
  at_pos rbt ops mn (rb_mem s) (Node c l p r) k R → rb (plug (Node c l p r) k) → l ≠ Leaf → r ≠ Leaf → item p ≠ NULL →
  head (elems (plug (Node c l p r) k)) = Some mn → last (elems (plug (Node c l p r) k)) = Some (rbt_max s) →
  (length (elems (plug (Node c l p r) k)) < fuel)%nat →
  wp (pos ← RB_POSITION p;
      o ← rb_tree_iterate rbt off fuel (item p) (negb pos);
      rb_tree_swap_prune_and_rebalance rbt fuel p (RB_ITEMTONODE off o))
    (λ _, pruned rbt ops s p (kl k ++ elems l) (elems r ++ kr k) R) s.
Proof.
  intros Ho Hrb Hl Hr H0 Hmn Hmx Hlen. apply wp_bind. change p with (ptr (Node c l p r)) at 1. eapply wp_POSITION_at; [exact Ho|done|].
  set (w := negb (kp k)). apply wp_bind. pose proof (length_way (Node c l p r) k) as Hway.
  eapply wp_mono; [eapply (wp_iterate _ _ _ _ _ _ (plug (Node c l p r) k) R p (kl k ++ elems l) (elems r ++ kr k)); [by apply at_plug| |done..]|].
  { rewrite elems_plug. cbn [elems]. by rewrite <- !app_assoc. }
  intros o s' [-> ->].
  destruct (end_split (negb w) (side w l r)) as (cS & S & son & m & HX & Hm & HS); [by destruct w|].
  assert ((if w then head (elems r ++ kr k) else last (kl k ++ elems l)) = Some S) as ->.
  { destruct w; cbn in HS; [by rewrite head_app, HS|]. destruct l as [|? l1 q r1]; [done|].
    cbn [side elems] in HS |- *. rewrite app_assoc, last_app_cons. by rewrite last_app_cons in HS. }
  assert (Node c l p r = nd w c (side w l r) p (side (negb w) l r)) as Hnd by (by destruct w). cbn [found from_option].
  pose proof (own_elems _ _ _ _ _ _ (proj1 (at_plug _ _ _ _ _ _ _) Ho)) as Hndup.
  set (Y := side (negb w) l r) in *. set (k0 := m ++ Fr w c p Y :: k).
  assert (plug (Node c l p r) k = plug (nd (negb w) cS Leaf S son) k0) as Hk0.
  { rewrite Hnd. unfold k0. rewrite plug_app, <- HX. done. }
  assert (at_pos rbt ops mn (rb_mem s) (nd (negb w) cS Leaf S son) k0 R) as Hat by (apply at_plug; rewrite <- Hk0; by apply at_plug).
  rewrite node_item by (apply (at_nonzero _ _ _ _ _ _ _ S Hat); rewrite elems_plug, elems_nd; destruct w; cbn; set_solver).
  assert (∀ x, head (elems (plug (Node c l p r) k)) = Some x ∨ last (elems (plug (Node c l p r) k)) = Some x → x ≠ p) as Hend.
  { rewrite elems_plug in *. cbn [elems] in *. intros x. by apply inner_not_end. }
  rewrite Hk0 in Hrb. eapply wp_swap; [exact Hat|exact Hrb|by apply way_to_kp|unfold Y; by destruct w|by apply Hend; left|by apply Hend; right| |].
  { pose proof (length_way (nd (negb w) cS Leaf S son) k0) as Hw0. rewrite <- Hk0 in Hw0. unfold k0 in Hw0. lia. }
  intros h T n Ho1 Hrb1 HT.
  assert (elems T = (kl k ++ elems l) ++ elems r ++ kr k) as HT'.
  { rewrite HT, plug_app. cbn [plug]. rewrite elems_plug, elems_nd. pose proof (elems_end (negb w) cS S son m Hm) as He. rewrite <- HX in He.
    unfold Y. destruct w; cbn in He |- *; rewrite He; rewrite <- ?app_assoc; cbn; by rewrite <- ?app_assoc. }
  split; [done|]. exists T, n. split; [|done]. split; [|done]. exists mn. split; [done|]. intros _. rewrite HT'.
  rewrite (elems_plug (Node c l p r) k) in Hmn, Hmx. cbn [elems] in Hmn, Hmx. rewrite <- app_assoc, app_assoc in Hmn, Hmx. cbn [app] in Hmn, Hmx.
  rewrite (drop_inner_head _ _ p), (drop_inner_last _ _ p); [done|..]; intros [E1 E2]%app_eq_nil; [exact (elems_nil r Hr E1)|exact (elems_nil l Hl E2)].
Qed.

(** [rb_tree_remove_node] takes the node of [object] out of the tree and
    keeps the others in their order; what is left is a red-black tree, with its
    least and greatest node known. *)
Lemma wp_remove_node fuel s T R p l1 l2 :
  rep rbt ops s T R → elems T = l1 ++ p :: l2 → item p ≠ NULL → (length (elems T) < fuel)%nat →
  wp (rb_tree_remove_node rbt off fuel (item p)) (λ _, pruned rbt ops s p l1 l2 R) s.
Proof.
  intros [(mn & Ho & Hmm) Hrb] He H0 Hlen. destruct Hmm as [Hmn Hmx]; [intros ->; cbn in He; by apply app_cons_not_nil in He|].
  destruct (locate_at _ _ _ _ _ _ _ _ _ Ho He) as (c & l & r & k & -> & Hat & -> & ->). clear Ho He.
  pose proof (length_way (Node c l p r) k) as Hway. unfold rb_tree_remove_node.
  rewrite node_item by (apply (at_nonzero _ _ _ _ _ _ _ p Hat); rewrite elems_plug; cbn; set_solver).
  apply wp_bind. eapply wp_CHILDLESS; [exact Hat|]. destruct (decide (l = Leaf)) as [->|Hl], (decide (r = Leaf)) as [->|Hr].
  - apply wp_bind. change p with (ptr (Node c Leaf p Leaf)) at 1. eapply wp_BLACK_tree; [exact Hat|by eapply at_kf|].
    apply wp_bind. change p with (ptr (Node c Leaf p Leaf)) at 1. eapply wp_ROOT_P; [exact Hat|done|]. rewrite elems_plug in *. cbn [elems app red] in *.
    rewrite app_nil_r. eapply wp_prune_node; [exact Hat|done..|lia|]. auto.
  - replace (match r with Leaf => true | _ => false end) with false by (by destruct r). apply wp_bind. eapply wp_TWOCHILDREN; [exact Hat|]. cbn [negb].
    apply wp_bind. eapply wp_down; [exact Hat|]. change (RB_SENTINEL_P (ptr (side false Leaf r))) with true.
    destruct (one_son true c r p k) as [q ->]; [done|done|]. rewrite elems_plug in Hmn, Hmx. cbn [elems app] in *. rewrite app_nil_r.
    eapply (wp_prune_branch _ _ _ _ true); [exact Hat|done..|]. intros s' H1 H2. by split.
  - destruct l as [|cl ll pl rl] eqn:El; [done|]. apply wp_bind. eapply wp_TWOCHILDREN; [exact Hat|]. cbn [negb]. rewrite <- El in *. clear ll rl El.
    apply wp_bind. eapply wp_down; [exact Hat|]. cbn [side]. destruct (one_son false c l p k) as [q ->]; [done|done|].
    pose proof (at_sentinel _ _ _ _ _ (at_down _ _ _ _ _ _ _ _ _ _ false Hat)) as Hs. cbn [side] in Hs. rewrite Hs.
    rewrite elems_plug in Hmn, Hmx. cbn [elems app side] in *.
    eapply (wp_prune_branch _ _ _ _ false); [exact Hat|done..|]. intros s' H1 H2. split; [done|]. by rewrite <- app_assoc.
  - destruct l as [|cl ll pl rl] eqn:El; [done|]. apply wp_bind. eapply wp_TWOCHILDREN; [exact Hat|]. destruct r as [|cr lr pr rr] eqn:Er; [done|]. cbn [negb].
    rewrite <- El, <- Er in *. by eapply wp_remove_two.
Qed.

End remove.
