(* ===== verification/RbTheorems.v ===== *)
(** Searches and iteration of rb.c against the list of the nodes in order, the
    empty tree, and a tree on which the theorems are applied. *)

From stdpp Require Import sorting.
From S2P Require Import Prelude Words Rb RbMem RbRotate RbInsert RbRemove RbOps RbPrune RbSwap.

Section theorems.
Context {E K : Type}.
Implicit Types s : rbst E.
Context (rbt ops off : Z).
Context (compare_key : Z → K → M E Z).
Abbreviation item := (RB_NODETOITEM off).

Lemma wp_Ret_eq {A} (m : M (rbst E) A) r s : wp m (λ r' s', s' = s ∧ r' = r) s → m s = Ret (r, s).
Proof. intros (r' & s' & Hm & -> & ->)%wp_elim. done. Qed.

Lemma find_run fuel s T R key diff :
  rep rbt ops s T R → compares off compare_key (rb_env s) key diff (elems T) → searchable diff (elems T) →
  (length (elems T) < fuel)%nat →
  rb_tree_find_node rbt off compare_key fuel key s = Ret (found off (head (filter (λ p, diff p = 0) (elems T))), s).
Proof.
  intros [(mn & Ho & _) _] Hc Hs Hlen. assert (at_pos rbt ops mn (rb_mem s) T [] R) as Ha by (by apply at_plug).
  apply wp_Ret_eq, wp_bind. eapply wp_root; [exact Ha|]. by eapply find_loop_run.
Qed.

(** C35. The searches of rb.c agree with searches of the list of the nodes in
    order: [rb_tree_find_node] returns the object that compares equal to the key,
    [rb_tree_find_node_geq] the first that does not compare less,
    [rb_tree_find_node_leq] the last that does not compare greater; each returns
    NULL when there is none, and changes nothing. *)
Theorem rb_find_correct fuel s T R key diff :
  rep rbt ops s T R → compares off compare_key (rb_env s) key diff (elems T) → searchable diff (elems T) →
  (length (elems T) < fuel)%nat →
  rb_tree_find_node rbt off compare_key fuel key s =
    Ret (found off (head (filter (λ p, diff p = 0) (elems T))), s) ∧
  rb_tree_find_node_geq rbt off compare_key fuel key s =
    Ret (found off (head (filter (λ p, 0 ≤ diff p) (elems T))), s) ∧
  rb_tree_find_node_leq rbt off compare_key fuel key s =
    Ret (found off (last (filter (λ p, diff p ≤ 0) (elems T))), s).
Proof.
  intros Hrep Hc Hs Hlen. pose proof Hrep as [(mn & Ho & _) _]. assert (at_pos rbt ops mn (rb_mem s) T [] R) as Ha by (by apply at_plug).
  split_and!; [by eapply find_run|..]; apply wp_Ret_eq, wp_bind; (eapply wp_root; [exact Ha|]); cbn [plug].
  - pose proof (find_geq_loop_run _ _ _ _ fuel s mn T [] R key diff Ha Hc Hs (Forall_nil_2 _) Hlen) as Hg. cbn [kr] in Hg. by rewrite app_nil_r in Hg.
  - exact (find_leq_loop_run _ _ _ _ fuel s mn T [] R key diff Ha Hc Hs (Forall_nil_2 _) Hlen).
Qed.

(** [rb_tree_iterate] goes through the nodes in order, in both directions: from
    an object to the next one, NULL at the end; from NULL it gives the end of the
    tree in that direction. *)
Theorem rb_iterate_correct fuel s T R dir :
  rep rbt ops s T R → (length (elems T) < fuel)%nat →
  rb_tree_iterate rbt off fuel NULL dir s = Ret (found off (if dir then last (elems T) else head (elems T)), s) ∧
  (∀ l1 p l2, elems T = l1 ++ p :: l2 → item p ≠ NULL →
     rb_tree_iterate rbt off fuel (item p) dir s = Ret (found off (if dir then head l2 else last l1), s)).
Proof.
  intros [(mn & Ho & Hmm) _] Hlen. assert (at_pos rbt ops mn (rb_mem s) T [] R) as Ha by (by apply at_plug).
  split; [|intros l1 p l2 He H0]; apply wp_Ret_eq; [|by eapply wp_iterate].
  apply wp_bind. eapply wp_root; [exact Ha|]. cbn [plug]. rewrite (at_sentinel _ _ _ _ _ _ _ Ha).
  destruct T as [|c l p r]; [apply wp_mret; by destruct dir|]. destruct Hmm as [Hmn Hmx]; [done|].
  apply wp_bind. eapply wp_minmax; [exact Ha|]. apply wp_mret. split; [done|]. destruct dir; by rewrite ?Hmn, ?Hmx.
Qed.

(** C17. [rb_tree_insert_node] returns the object that compares equal to the new
    one and changes nothing, or links the new one between those that compare less
    and those that compare greater; the tree stays a red-black tree, and the
    least and the greatest node are known. *)
Theorem rb_insert_correct (compare_nodes : Z → Z → M E Z) fuel s T R object n0 diff :
  let self := RB_ITEMTONODE off object in
  rep rbt ops s T ((self, n0) :: R) → compares_nodes off compare_nodes (rb_env s) object diff (elems T) →
  searchable diff (elems T) → (length (elems T) < fuel)%nat →
  (∃ p, p ∈ elems T ∧ diff p = 0 ∧ rb_tree_insert_node rbt off compare_nodes fuel object s = Ret (item p, s)) ∨
  (∃ s', rb_tree_insert_node rbt off compare_nodes fuel object s = Ret (object, s') ∧ rb_env s' = rb_env s ∧
     ∃ T' l1 l2, rep rbt ops s' T' R ∧ elems T = l1 ++ l2 ∧ elems T' = l1 ++ self :: l2 ∧
       Forall (λ p, diff p < 0) l1 ∧ Forall (λ p, 0 < diff p) l2).
Proof.
  intros self Hrep Hc Hs Hlen.
  destruct (wp_elim _ _ _ (wp_insert_node rbt ops off compare_nodes fuel s T R object n0 diff Hrep Hc Hs Hlen))
    as (r & s' & Hr & [(p & Hp & Hd & -> & ->)|(-> & He & Hrest)]); [left|right]; eauto.
Qed.

(** C12. [rb_tree_remove_node] takes the node of the object out of the tree and
    keeps the others in their order; what is left is a red-black tree, with its
    least and greatest node known, and the node is no longer part of it. *)
Theorem rb_remove_correct fuel s T R p l1 l2 :
  rep rbt ops s T R → elems T = l1 ++ p :: l2 → item p ≠ NULL → (length (elems T) < fuel)%nat →
  ∃ s' T' n, rb_tree_remove_node rbt off fuel (item p) s = Ret (tt, s') ∧ rb_env s' = rb_env s ∧
    rep rbt ops s' T' ((p, n) :: R) ∧ elems T' = l1 ++ l2.
Proof.
  intros Hrep He H0 Hlen. destruct (wp_elim _ _ _ (wp_remove_node rbt ops off fuel s T R p l1 l2 Hrep He H0 Hlen))
    as ([] & s' & Hr & Henv & T' & n & Hrep' & He'). by exists s', T', n.
Qed.

(** [rb_tree_init] makes an empty tree, whatever was in the [struct rb_tree]. *)
Theorem rb_init_correct s n R : own (rb_mem s) ((rbt, n) :: R) →
  wp (rb_tree_init rbt ops) (λ _ s', rep rbt ops s' Leaf R ∧ rb_env s' = rb_env s) s.
Proof.
  intros Ho. destruct n as [x y i]. change (RbNode x y i) with (mkn false x y i) in Ho.
  unfold rb_tree_init. rb_step Ho. rb_step Ho.
  assert (at_pos rbt ops i h0 Leaf [] R) as Ha by exact Ho. clear Ho.
  apply wp_bind. eapply (wp_root rbt ops i (set_mem h0 _)); [exact Ha|]. apply wp_bind. eapply wp_set_minmax; [exact Ha|]. clear Ha. intros s1 Ha _ H1.
  apply wp_bind. eapply wp_root; [exact Ha|]. eapply wp_set_minmax; [exact Ha|]. clear Ha. intros s2 Ha _ H2.
  split; [|by rewrite H2, H1]. split; [|split; [done|by exists 0%nat]]. eexists. split; [exact Ha|done].
Qed.

End theorems.

(** ** A tree of three nodes, ordered by address *)

Lemma own_list (L : list (Z * rb_node)) : NoDup L.*1 → Forall (λ c, aligned c.1 ∧ c.1 ≠ 0) L → own (list_to_map L) L.
Proof.
  intros Hnd Hok. split; [done| |].
  - intros [p n] Hc. by apply elem_of_list_to_map_1.
  - intros c Hc. rewrite Forall_forall in Hok. by apply Hok.
Qed.

Module Demo.

Definition tree3 : tree := Node false (Node true Leaf 128 Leaf) 192 (Node true Leaf 256 Leaf).
Definition spare : list (Z * rb_node) := [(224, RbNode 1 2 3)].
Definition state3 : rbst unit := Rbst (list_to_map (tree_cells 64 72 128 tree3 ++ spare)) 256 tt.
Definition compare (a b : Z) : M unit Z := mret (a - b).

Lemma rep3 : rep 64 72 state3 tree3 spare.
Proof.
  split.
  - exists 128. split; [|done]. apply own_list; [apply (bool_decide_unpack _); vm_compute; exact I|].
    repeat constructor; cbn [fst]; try lia; vm_compute; split; reflexivity.
  - split; [done|]. exists 1%nat. cbn. exists 0%nat. tauto.
Qed.

Lemma compares3 (x : Z) : compares 0 compare tt x (λ p, p - x) (elems tree3).
Proof. intros p Hp. cbn in Hp. repeat (apply elem_of_cons in Hp as [->|Hp]; [reflexivity|]). by apply not_elem_of_nil in Hp. Qed.

Lemma searchable3 (x : Z) : searchable (λ p, p - x) (elems tree3).
Proof. unfold searchable. cbn. repeat first [apply SSorted_nil|apply SSorted_cons|apply Forall_nil_2|apply Forall_cons_2]; lia. Qed.

Lemma rb_find_correct_witness :
  rb_tree_find_node 64 0 compare 8 200 state3 = Ret (0, state3) ∧
  rb_tree_find_node_geq 64 0 compare 8 200 state3 = Ret (256, state3) ∧
  rb_tree_find_node_leq 64 0 compare 8 200 state3 = Ret (192, state3).
Proof.
  exact (rb_find_correct 64 72 0 compare 8 state3 tree3 spare 200 (λ p, p - 200) rep3 (compares3 200) (searchable3 200) ltac:(cbn; lia)).
Defined.

Lemma rb_iterate_correct_witness :
  rb_tree_iterate 64 0 8 0 false state3 = Ret (128, state3) ∧ rb_tree_iterate 64 0 8 192 true state3 = Ret (256, state3).
Proof.
  split.
  - exact (proj1 (rb_iterate_correct 64 72 0 8 state3 tree3 spare false rep3 ltac:(cbn; lia))).
  - exact (proj2 (rb_iterate_correct 64 72 0 8 state3 tree3 spare true rep3 ltac:(cbn; lia)) [128] 192 [256] eq_refl ltac:(done)).
Defined.

Lemma rb_init_correct_witness :
  wp (rb_tree_init 64 72) (λ _ s', rep 64 72 s' Leaf [] ∧ rb_env s' = tt) (Rbst (list_to_map [(64, RbNode 9 9 9)]) 9 tt).
Proof.
  apply (rb_init_correct 64 72 (Rbst (list_to_map [(64, RbNode 9 9 9)]) 9 tt) (RbNode 9 9 9) []).
  apply own_list; [apply (bool_decide_unpack _); vm_compute; exact I|]. repeat constructor; cbn [fst]; try lia; vm_compute; split; reflexivity.
Defined.

(** The spare node goes between the second and the third. *)
Lemma rb_insert_correct_witness :
  (∃ p, p ∈ elems tree3 ∧ p - 224 = 0 ∧ rb_tree_insert_node 64 0 compare 8 224 state3 = Ret (RB_NODETOITEM 0 p, state3)) ∨
  (∃ s', rb_tree_insert_node 64 0 compare 8 224 state3 = Ret (224, s') ∧ rb_env s' = tt ∧
     ∃ T' l1 l2, rep 64 72 s' T' [] ∧ elems tree3 = l1 ++ l2 ∧ elems T' = l1 ++ 224 :: l2 ∧
       Forall (λ p, p - 224 < 0) l1 ∧ Forall (λ p, 0 < p - 224) l2).
Proof.
  exact (rb_insert_correct 64 72 0 compare 8 state3 tree3 [] 224 (RbNode 1 2 3) (λ p, p - 224) rep3 (compares3 224) (searchable3 224) ltac:(cbn; lia)).
Defined.

Lemma rb_remove_correct_witness :
  ∃ s' T' n, rb_tree_remove_node 64 0 8 192 state3 = Ret (tt, s') ∧ rb_env s' = rb_env state3 ∧
    rep 64 72 s' T' ((192, n) :: spare) ∧ elems T' = [128] ++ [256].
Proof.
  exact (rb_remove_correct 64 72 0 8 state3 tree3 spare 192 [128] [256] rep3 eq_refl ltac:(done) ltac:(cbn; lia)).
Defined.

End Demo.
