(* ===== verification/Zone.v ===== *)
(** The zone allocator (libnux/alloc.h), which kmem.c and kva.c include: free
    ranges of addresses in 64 lists by the position of the highest bit of their
    size, with a bitmap of the lists that are not empty. Where the entries live
    and how neighbours are found is left to the including file. *)

From S2P Require Import Prelude Words.

Definition LONG_BIT : Z := 64.
Definition ORDMAX : Z := LONG_BIT.

(** The functions the including file defines, and the fields [addr] and [size]
    of its entries. The last argument of each is [z->opq]. *)
Class ZoneEnv (E : Type) := {
  ze_fields : Z → M E (Z * Z);
  mkptr : Z → Z → Z → M E Z;
  freeptr : Z → Z → M E unit;
  get_neighbors : Z → Z → Z → M E (option Z * option Z);
}.

(** [z_list] holds the pointers of each list, in order. *)
Record zone : Set := Zone { z_opq : Z; z_bmap : Z; z_list : list (list Z); z_nfree : Z }.

Record zst (E : Type) : Type := Zst { zs_zone : zone; zs_env : E }.
Arguments Zst {E} _ _.
Arguments zs_zone {E} _.
Arguments zs_env {E} _.

Section zone.
Context {E : Type} `{!ZoneEnv E}.

Definition set_env (x : E) (s : zst E) : zst E := Zst (zs_zone s) x.
Definition on_env {B} (m : M E B) : M (zst E) B := zoom zs_env set_env m.

Definition set_bmap (b : Z) (s : zst E) : zst E :=
  let z := zs_zone s in Zst (Zone (z_opq z) b (z_list z) (z_nfree z)) (zs_env s).
Definition set_list (l : list (list Z)) (s : zst E) : zst E :=
  let z := zs_zone s in Zst (Zone (z_opq z) (z_bmap z) l (z_nfree z)) (zs_env s).
Definition set_nfree (n : Z) (s : zst E) : zst E :=
  let z := zs_zone s in Zst (Zone (z_opq z) (z_bmap z) (z_list z) n) (zs_env s).

Definition lsbit (x : Z) : M (zst E) Z := assertb (negb (x =? 0));; mret (ffs x - 1).

Definition msbit (x : Z) : M (zst E) Z := assertb (negb (x =? 0));; mret (LONG_BIT - clz64 x - 1).

(** Whether a pointer is linked in one of the lists. *)
Definition linked (ze : Z) (l : list (list Z)) : bool := existsb (λ q, bool_decide (ze ∈ q)) l.

(** [LIST_REMOVE] of an element that no list holds writes through dangling
    links. *)
Definition LIST_REMOVE (ze : Z) : M (zst E) unit :=
  l ← gets (λ s, z_list (zs_zone s));
  if linked ze l then modify (set_list (filter (λ p, p ≠ ze) <$> l)) else stop Undef.

Definition LIST_INSERT_HEAD (i ze : Z) : M (zst E) unit :=
  l ← gets (λ s, z_list (zs_zone s));
  if linked ze l then stop Undef else modify (set_list (alter (cons ze) (Z.to_nat i) l)).

Definition LIST_FIRST (i : Z) : M (zst E) (option Z) :=
  gets (λ s, head (z_list (zs_zone s) !!! Z.to_nat i)).

Definition _zone_detachentry (ze : Z) : M (zst E) unit :=
  f ← on_env (ze_fields ze); let '(addr, size) := f : Z * Z in
  assertb (negb (size =? 0));;
  msb ← msbit size;
  assertb (msb <? ORDMAX);;
  LIST_REMOVE ze;;
  h ← LIST_FIRST msb;
  b ← gets (λ s, z_bmap (zs_zone s));
  when (bool_decide (h = None)) (modify (set_bmap (Z.land b (not64 (Z.shiftl 1 msb)))));;
  n ← gets (λ s, z_nfree (zs_zone s));
  modify (set_nfree (u32 (n - size))).

Definition _zone_attachentry (ze : Z) : M (zst E) unit :=
  f ← on_env (ze_fields ze); let '(addr, size) := f : Z * Z in
  assertb (negb (size =? 0));;
  msb ← msbit size;
  assertb (msb <? ORDMAX);;
  b ← gets (λ s, z_bmap (zs_zone s));
  modify (set_bmap (Z.lor b (Z.shiftl 1 msb)));;
  LIST_INSERT_HEAD msb ze;;
  n ← gets (λ s, z_nfree (zs_zone s));
  modify (set_nfree (u32 (n + size))).

(** [1 << minbit] is a shift of an [int]. *)
Definition _zone_findfree (size : Z) : M (zst E) (option Z) :=
  minbit ← msbit size;
  p ← opt_or Undef (shl_int 1 minbit);
  let minbit := if negb (size =? u64 p) then minbit + 1 else minbit in
  if ORDMAX <=? minbit then mret None
  else
    b ← gets (λ s, z_bmap (zs_zone s));
    let tmp := Z.shiftr b minbit in
    if negb (tmp =? 0) then
      tmp ← lsbit tmp;
      LIST_FIRST (minbit + tmp)
    else mret None.

Definition zone_remove (ze : Z) : M (zst E) unit :=
  _zone_detachentry ze;;
  opq ← gets (λ s, z_opq (zs_zone s));
  on_env (freeptr ze opq).

Definition zone_create (zaddr size : Z) : M (zst E) unit :=
  opq ← gets (λ s, z_opq (zs_zone s));
  nb ← on_env (get_neighbors zaddr size opq); let '(pze, nze) := nb : option Z * option Z in
  fprev ← (match pze with
           | Some pze => f ← on_env (ze_fields pze); zone_remove pze;; mret f.1
           | None => mret zaddr
           end);
  lnext ← (match nze with
           | Some nze => f ← on_env (ze_fields nze); zone_remove nze;; mret (u64 (f.1 + f.2))
           | None => mret (u64 (zaddr + size))
           end);
  ze ← on_env (mkptr fprev (u64 (lnext - fprev)) opq);
  _zone_attachentry ze.

Definition zone_free (zaddr size : Z) : M (zst E) unit :=
  assertb (negb (size =? 0));;
  zone_create zaddr size.

Definition ZADDR_NONE : Z := 2 ^ 64 - 1.

Definition zone_alloc (size : Z) : M (zst E) Z :=
  assertb (negb (size =? 0));;
  ze ← _zone_findfree size;
  match ze with
  | None => mret ZADDR_NONE
  | Some ze =>
      f ← on_env (ze_fields ze); let '(addr, zsize) := f : Z * Z in
      let diff := s64 (zsize - size) in
      assertb (0 <=? diff);;
      zone_remove ze;;
      when (0 <? diff) (zone_create (u64 (addr + size)) diff);;
      mret addr
  end.

Definition zone_init (opq : Z) : M (zst E) unit :=
  modify (λ s, Zst (Zone opq 0 (replicate (Z.to_nat ORDMAX) []) 0) (zs_env s)).

End zone.

(** * The contract of the including file *)

(** Free entries by pointer: address and size. *)
Abbreviation entries := (gmap Z (Z * Z)).

(** Ranges with at least [gap] addresses between them. *)
Definition apart (gap : Z) (r q : Z * Z) : Prop := r.1 + r.2 + gap ≤ q.1 ∨ q.1 + q.2 + gap ≤ r.1.

(** [zv_inv opq e F]: the entries that exist are those of [F]. [zv_area]: the
    ranges that entries may describe. [zv_can]: there is memory for an entry. [zv_keep]:
    what no operation undoes.
    [zv_gap] is 1 when neighbours are always found; sizes are multiples of
    [zv_unit]. *)
Class ZoneEnvLaws (E : Type) `{!ZoneEnv E} := {
  zv_inv : Z → E → entries → Prop;
  zv_area : Z → E → Z → Z → Prop;
  zv_can : E → Prop;
  zv_keep : E → E → Prop;
  zv_gap : Z;
  zv_unit : Z;
  zv_gap_range : 0 ≤ zv_gap ≤ 1;
  zv_keep_order : PreOrder zv_keep;
  zv_area_keep o e e' a s : zv_keep e e' → zv_area o e a s → zv_area o e' a s;
  zv_area_range o e a s : zv_area o e a s → 0 ≤ a ∧ 0 < s < 2 ^ 63 ∧ a + s < 2 ^ 64;
  zv_area_entry o e F p a s : zv_inv o e F → F !! p = Some (a, s) → zv_area o e a s;
  zv_area_join o e a s s' : zv_area o e a s → zv_area o e (a + s) s' → zv_area o e a (s + s');
  zv_area_split o e a s s' : zv_area o e a s → 0 < s' < s → (zv_unit | s') → zv_area o e a s' ∧ zv_area o e (a + s') (s - s');
  ze_fields_ok o e F p a s : zv_inv o e F → F !! p = Some (a, s) → ze_fields p e = Ret ((a, s), e);
  freeptr_ok o e F p a s : zv_inv o e F → F !! p = Some (a, s) →
    ∃ e', freeptr p o e = Ret (tt, e') ∧ zv_inv o e' (delete p F) ∧ zv_can e' ∧ zv_keep e e';
  get_neighbors_ok o e F a s : zv_inv o e F → zv_area o e a s →
    (∀ p r, F !! p = Some r → apart 0 (a, s) r) →
    ∃ pn nn, get_neighbors a s o e = Ret ((pn, nn), e) ∧
      (∀ p, pn = Some p → ∃ a' s', F !! p = Some (a', s') ∧ a' + s' = a) ∧
      (∀ p, nn = Some p → ∃ s', F !! p = Some (a + s, s')) ∧
      (zv_gap = 1 → ∀ p a' s', F !! p = Some (a', s') →
         (a' + s' = a → pn = Some p) ∧ (a' = a + s → nn = Some p));
  mkptr_ok o e F a s : zv_inv o e F → zv_can e → zv_area o e a s →
    (∀ p r, F !! p = Some r → apart zv_gap (a, s) r) →
    ∃ p e', mkptr a s o e = Ret (p, e') ∧ F !! p = None ∧ zv_inv o e' (<[p := (a, s)]> F) ∧ zv_keep e e';
}.

(** * The lists *)

Definition total (F : entries) : Z := map_fold (λ _ r n, r.2 + n) 0 F.

Lemma ztotal_insert F p r : F !! p = None → total (<[p := r]> F) = r.2 + total F.
Proof. intros Hp. unfold total. rewrite map_fold_insert_L; [done| |done]. intros. lia. Qed.

Lemma ztotal_delete F p r : F !! p = Some r → total (delete p F) = total F - r.2.
Proof.
  intros Hp. rewrite <- (insert_delete_id F p r Hp) at 2. rewrite ztotal_insert by apply lookup_delete_eq. lia.
Qed.

(** Each entry is in the list of its size, and the bitmap tells which lists are
    not empty. *)
Record zone_inv (z : zone) (F : entries) : Prop := {
  zi_len : length (z_list z) = 64%nat;
  zi_list (i p : Z) : 0 ≤ i < 64 →
    p ∈ z_list z !!! Z.to_nat i ↔ ∃ a s, F !! p = Some (a, s) ∧ Z.log2 s = i;
  zi_bmap i : 0 ≤ i < 64 → Z.testbit (z_bmap z) i = bool_decide (z_list z !!! Z.to_nat i ≠ []);
  zi_word : word64 (z_bmap z);
  zi_nfree : z_nfree z = u32 (total F);
  zi_size p a s : F !! p = Some (a, s) → 0 < s < 2 ^ 64;
}.

(** [zone_init] leaves no entries. *)
Lemma zone_init_inv o : zone_inv (Zone o 0 (replicate (Z.to_nat ORDMAX) []) 0) ∅.
Proof.
  assert (∀ i : nat, replicate (Z.to_nat ORDMAX) ([] : list Z) !!! i = []) as Hl.
  { intros i. rewrite list_lookup_total_alt. destruct (replicate _ _ !! i) as [l|] eqn:E; [|done]. by apply lookup_replicate in E as [-> _]. }
  split; try done.
  - intros i p Hi. cbn [z_list]. rewrite Hl. split; [by intros ?%not_elem_of_nil|]. by intros (a & n & Ha & _).
  - intros i Hi. cbn [z_list z_bmap]. rewrite Hl, Z.bits_0. by rewrite bool_decide_false by naive_solver.
Qed.

Definition sep (gap : Z) (F : entries) : Prop :=
  ∀ p q r r', p ≠ q → F !! p = Some r → F !! q = Some r' → apart gap r r'.

(** The addresses that are free. *)
Definition covered (F : entries) (x : Z) : Prop := ∃ p a s, F !! p = Some (a, s) ∧ a ≤ x < a + s.

Lemma apart_sym gap r q : apart gap r q → apart gap q r.
Proof. unfold apart. tauto. Qed.

Lemma apart_le gap gap' r q : gap' ≤ gap → apart gap r q → apart gap' r q.
Proof. unfold apart. lia. Qed.

Lemma sep_delete gap F p : sep gap F → sep gap (delete p F).
Proof. intros Hs q q' r r' Hne [_ Hq]%lookup_delete_Some [_ Hq']%lookup_delete_Some. exact (Hs _ _ _ _ Hne Hq Hq'). Qed.

Lemma sep_insert gap F p r :
  sep gap F → F !! p = None → (∀ q r', F !! q = Some r' → apart gap r r') → sep gap (<[p := r]> F).
Proof.
  intros Hs Hp Ha q q' r1 r2 Hne. rewrite !lookup_insert_Some.
  intros [[<- <-]|[Hq H1]] [[<- <-]|[Hq' H2]]; [done|by eapply Ha|by eapply apart_sym, Ha|exact (Hs _ _ _ _ Hne H1 H2)].
Qed.

Lemma linked_true ze l : linked ze l = true ↔ ∃ i, ze ∈ l !!! i.
Proof.
  unfold linked. rewrite existsb_exists. split.
  - intros (q & Hq & Hin%bool_decide_eq_true). apply list_elem_of_In, list_elem_of_lookup in Hq as [i Hi]. exists i.
    by rewrite list_lookup_total_alt, Hi.
  - intros [i Hi]. rewrite list_lookup_total_alt in Hi. destruct (l !! i) as [q|] eqn:Hl; simpl in Hi.
    + exists q. split; [by eapply list_elem_of_In, list_elem_of_lookup_2|by apply bool_decide_eq_true].
    + exfalso. exact (proj1 (elem_of_nil ze) Hi).
Qed.

Lemma msb_range s : 0 < s < 2 ^ 64 → 0 ≤ Z.log2 s < 64.
Proof. intros Hs. split; [apply Z.log2_nonneg|]. by apply log2_lt. Qed.

Section lists.
Context {E : Type} `{!ZoneEnv E}.
Implicit Types (z : zone) (e : E).

Lemma on_env_run {B} (m : M E B) z e b e' : m e = Ret (b, e') → on_env m (Zst z e) = Ret (b, Zst z e').
Proof. intros Hm. unfold on_env, zoom. cbn. by rewrite Hm. Qed.

Lemma msbit_run x (s : zst E) : x ≠ 0 → msbit x s = Ret (Z.log2 x, s).
Proof.
  intros Hx. unfold msbit, clz64, LONG_BIT. rewrite bind_assert by (by rewrite (proj2 (Z.eqb_neq x 0) Hx)).
  unfold mret, M_ret. do 2 f_equal. lia.
Qed.

(** The entry is in exactly one list. *)
Lemma entry_linked z F p a s :
  zone_inv z F → F !! p = Some (a, s) → p ∈ z_list z !!! Z.to_nat (Z.log2 s).
Proof. intros Hz Hp. apply (zi_list _ _ Hz); [by apply msb_range, (zi_size _ _ Hz p a)|by eauto]. Qed.

Lemma linked_entry z F p : zone_inv z F → linked p (z_list z) = true ↔ is_Some (F !! p).
Proof.
  intros Hz. rewrite linked_true. split.
  - intros [i Hi]. rewrite list_lookup_total_alt in Hi. destruct (z_list z !! i) as [q|] eqn:Hl; [|exfalso; exact (proj1 (elem_of_nil p) Hi)].
    pose proof (lookup_lt_Some _ _ _ Hl) as Hlt. rewrite (zi_len _ _ Hz) in Hlt.
    destruct (proj1 (zi_list _ _ Hz i p ltac:(lia))) as (a & s & Ha & _); [|by eexists].
    rewrite Nat2Z.id, list_lookup_total_alt, Hl. done.
  - intros [[a s] Hp]. exists (Z.to_nat (Z.log2 s)). by eapply entry_linked.
Qed.

Lemma filter_lists (l : list (list Z)) (p : Z) (i : nat) :
  (filter (λ q, q ≠ p) <$> l) !!! i = filter (λ q, q ≠ p) (l !!! i).
Proof. rewrite !list_lookup_total_alt, list_lookup_fmap. by destruct (l !! i). Qed.

Lemma filter_absent (p : Z) (l : list Z) : p ∉ l → filter (λ q, q ≠ p) l = l.
Proof.
  induction l as [|x l IH]; intros Hp; [done|]. apply not_elem_of_cons in Hp as [Hx Hl].
  rewrite filter_cons_True by done. by rewrite IH.
Qed.

Lemma head_none {B} (l : list B) : head l = None ↔ l = [].
Proof. by destruct l. Qed.

Lemma detach_run z e F p a s :
  zone_inv z F → F !! p = Some (a, s) → ze_fields p e = Ret ((a, s), e) →
  ∃ z', _zone_detachentry p (Zst z e) = Ret (tt, Zst z' e) ∧ zone_inv z' (delete p F) ∧ z_opq z' = z_opq z.
Proof.
  intros Hz Hp Hf. pose proof (zi_size _ _ Hz p a s Hp) as Hs. pose proof (msb_range s Hs) as Hm.
  assert (linked p (z_list z) = true) as Hl by (apply (linked_entry z F p Hz); by eexists).
  set (l' := filter (λ q, q ≠ p) <$> z_list z). set (m := Z.log2 s).
  set (b' := if decide (l' !!! Z.to_nat m = []) then Z.land (z_bmap z) (not64 (Z.shiftl 1 m)) else z_bmap z).
  exists (Zone (z_opq z) b' l' (u32 (z_nfree z - s))). split_and!; [|split|done].
  - unfold _zone_detachentry. mrun (on_env_run _ z e _ _ Hf). rewrite bind_assert by (by rewrite (proj2 (Z.eqb_neq s 0)) by lia).
    mrun (msbit_run s (Zst z e) ltac:(lia)). rewrite bind_assert by (apply Z.ltb_lt; unfold ORDMAX, LONG_BIT; lia).
    unfold LIST_REMOVE. rewrite bind_assoc. mrun. cbn [zs_zone]. rewrite Hl. mrun. unfold LIST_FIRST. mrun.
    cbn [zs_zone set_list z_list z_bmap z_nfree z_opq]. fold l' m. unfold b'.
    destruct (decide (l' !!! Z.to_nat m = [])) as [Hn|Hn].
    + rewrite bool_decide_true by (by apply head_none). reflexivity.
    + rewrite bool_decide_false by (by rewrite head_none). reflexivity.
  - cbn. unfold l'. by rewrite length_fmap, (zi_len _ _ Hz).
  - intros i q Hi. cbn. unfold l'. rewrite filter_lists, list_elem_of_filter, (zi_list _ _ Hz i q Hi).
    split; [intros (Hne & a' & s' & Hq & Hs')|intros (a' & s' & [Hne Hq]%lookup_delete_Some & Hs')];
      [exists a', s'; by rewrite lookup_delete_ne|split; [done|eauto]].
  - intros i Hi. cbn. unfold b'. pose proof (zi_bmap _ _ Hz i Hi) as Hb.
    assert (i ≠ m → l' !!! Z.to_nat i = z_list z !!! Z.to_nat i) as Hoth.
    { intros Hne. unfold l'. rewrite filter_lists. apply filter_absent. intros Hq.
      apply (zi_list _ _ Hz i p Hi) in Hq as (a' & s' & Hq & Hs'). unfold m in Hne. congruence. }
    assert (Z.testbit (z_bmap z) m = true) as Hbm.
    { rewrite (zi_bmap _ _ Hz m ltac:(lia)). apply bool_decide_true. intros Hnil.
      pose proof (entry_linked z F p a s Hz Hp) as Hin. fold m in Hin. rewrite Hnil in Hin. by apply elem_of_nil in Hin. }
    assert (Z.testbit (not64 (Z.shiftl 1 m)) i = negb (bool_decide (i = m))) as Hnb.
    { unfold not64. rewrite testbit_u64, Z.lnot_spec, testbit_one_shl by lia.
      rewrite (proj2 (Z.ltb_lt i 64)) by lia. by destruct (Z.eqb_spec i m) as [->|Hne]; [rewrite bool_decide_true|rewrite bool_decide_false]. }
    destruct (decide (i = m)) as [->|Hne].
    + destruct (decide (l' !!! Z.to_nat m = [])) as [Hn|Hn]; [rewrite Z.land_spec, Hnb, bool_decide_true by done; simpl|rewrite Hbm].
      * rewrite andb_false_r. symmetry. apply bool_decide_eq_false. naive_solver.
      * symmetry. by apply bool_decide_eq_true.
    + rewrite (Hoth Hne), <- Hb. destruct (decide (l' !!! Z.to_nat m = [])); [|done]. rewrite Z.land_spec, Hnb, bool_decide_false by done.
      apply andb_true_r.
  - cbn. unfold b'. case_decide; [|apply Hz]. apply land_word64; [apply Hz|apply u64_range].
  - cbn. rewrite (zi_nfree _ _ Hz), (ztotal_delete F p (a, s) Hp). unfold u32. cbn. apply Zminus_mod_idemp_l.
  - intros q a' s' [_ Hq]%lookup_delete_Some. by eapply Hz.
Qed.

Lemma attach_run z e F p a s :
  zone_inv z F → F !! p = None → 0 < s < 2 ^ 64 → ze_fields p e = Ret ((a, s), e) →
  ∃ z', _zone_attachentry p (Zst z e) = Ret (tt, Zst z' e) ∧ zone_inv z' (<[p := (a, s)]> F) ∧ z_opq z' = z_opq z.
Proof.
  intros Hz Hp Hs Hf. pose proof (msb_range s Hs) as Hm. set (m := Z.log2 s) in *.
  assert (linked p (z_list z) = false) as Hl.
  { apply not_true_is_false. intros Hl%(linked_entry z F p Hz). rewrite Hp in Hl. by destruct Hl. }
  set (l' := alter (cons p) (Z.to_nat m) (z_list z)).
  assert (∀ i, 0 ≤ i < 64 → l' !!! Z.to_nat i = if decide (i = m) then p :: z_list z !!! Z.to_nat i else z_list z !!! Z.to_nat i) as Hl'.
  { intros i Hi. unfold l'. rewrite !list_lookup_total_alt. case_decide as Hd.
    - subst i. rewrite list_lookup_alter_eq. rewrite lookup_lt_total by (rewrite (zi_len _ _ Hz); lia). done.
    - rewrite list_lookup_alter_ne by lia. done. }
  exists (Zone (z_opq z) (Z.lor (z_bmap z) (Z.shiftl 1 m)) l' (u32 (z_nfree z + s))). split_and!; [|split|done].
  - unfold _zone_attachentry. mrun (on_env_run _ z e _ _ Hf). rewrite bind_assert by (by rewrite (proj2 (Z.eqb_neq s 0)) by lia).
    mrun (msbit_run s (Zst z e) ltac:(lia)). rewrite bind_assert by (apply Z.ltb_lt; unfold ORDMAX, LONG_BIT; lia).
    mrun. unfold LIST_INSERT_HEAD. rewrite bind_assoc. mrun. cbn [zs_zone set_bmap z_list]. rewrite Hl. reflexivity.
  - cbn. unfold l'. by rewrite length_alter, (zi_len _ _ Hz).
  - intros i q Hi. cbn. rewrite (Hl' i Hi). case_decide as Hd.
    + rewrite elem_of_cons, (zi_list _ _ Hz i q Hi). split.
      * intros [->|(a' & s' & Hq & Hs')]; [exists a, s; by rewrite lookup_insert_eq|].
        exists a', s'. rewrite lookup_insert_ne; [done|]. intros ->. congruence.
      * intros (a' & s' & [[<- [= <- <-]]|[Hne Hq]]%lookup_insert_Some & Hs'); [by left|right; eauto].
    + rewrite (zi_list _ _ Hz i q Hi). split.
      * intros (a' & s' & Hq & Hs'). exists a', s'. rewrite lookup_insert_ne; [done|]. intros ->. congruence.
      * intros (a' & s' & [[<- [= <- <-]]|[Hne Hq]]%lookup_insert_Some & Hs'); [done|eauto].
  - intros i Hi. cbn. rewrite Z.lor_spec, testbit_one_shl, (zi_bmap _ _ Hz i Hi), (Hl' i Hi) by lia.
    case_decide as Hd; destruct (Z.eqb_spec i m) as [|Hne]; try done; [|by rewrite orb_false_r].
    rewrite orb_true_r. symmetry. by apply bool_decide_eq_true.
  - cbn. apply lor_word64; [apply Hz|]. split; [apply Z.shiftl_nonneg; lia|].
    rewrite Z.shiftl_1_l. apply Z.pow_lt_mono_r; lia.
  - cbn. rewrite (zi_nfree _ _ Hz), ztotal_insert by done. unfold u32. cbn. rewrite Zplus_mod_idemp_l. f_equal. lia.
  - intros q a' s' [[<- [= <- <-]]|[_ Hq]]%lookup_insert_Some; [done|by eapply Hz].
Qed.

(** The size a request is rounded up to. *)
Lemma minbit_up size : 0 < size < 2 ^ 31 →
  ∃ p, shl_int 1 (Z.log2 size) = Some p ∧
    (if negb (size =? u64 p) then Z.log2 size + 1 else Z.log2 size) = Z.log2_up size.
Proof.
  intros Hs. pose proof (Z.log2_nonneg size) as H0. pose proof (log2_lt size 31 Hs) as H1.
  exists (s32 (Z.shiftl 1 (Z.log2 size))). unfold shl_int.
  rewrite (proj2 (Z.leb_le 0 _)), (proj2 (Z.ltb_lt _ 32)) by lia. split; [done|].
  rewrite Z.shiftl_1_l. destruct (Z.log2_spec size) as [Hlo Hhi]; [lia|]. rewrite Z.pow_succ_r in Hhi by lia.
  assert (u64 (s32 (2 ^ Z.log2 size)) = 2 ^ Z.log2 size) as ->.
  { assert (2 ^ Z.log2 size < 2 ^ 31) by (apply Z.pow_lt_mono_r; lia).
    assert (0 < 2 ^ Z.log2 size) by lia. unfold s32. rewrite u32_small by (unfold word32; lia).
    rewrite (proj2 (Z.ltb_lt _ _)) by lia. apply u64_small. unfold word64. lia. }
  destruct (Z.eqb_spec size (2 ^ Z.log2 size)) as [E'|E']; cbn [negb].
  - rewrite E' at 2. by rewrite Z.log2_up_pow2.
  - symmetry. apply Z.log2_up_unique; [lia|]. replace (Z.pred (Z.log2 size + 1)) with (Z.log2 size) by lia.
    rewrite Z.add_1_r, Z.pow_succ_r by lia. lia.
Qed.

(** Any block that is large enough for the rounded size is found. *)
Lemma findfree_run z e F size :
  zone_inv z F → 0 < size < 2 ^ 31 →
  (∃ p a s, _zone_findfree size (Zst z e) = Ret (Some p, Zst z e) ∧ F !! p = Some (a, s) ∧ size ≤ s) ∨
  (_zone_findfree size (Zst z e) = Ret (None, Zst z e) ∧
   ∀ p a s, F !! p = Some (a, s) → s < 2 ^ Z.log2_up size).
Proof.
  intros Hz Hs. destruct (minbit_up size Hs) as (q & Hq & Hk). set (k := Z.log2_up size) in *.
  pose proof (Z.log2_up_nonneg size : 0 ≤ k) as Hk0.
  assert (k ≤ 31) as Hk1 by (unfold k; change 31 with (Z.log2_up (2 ^ 31)); apply Z.log2_up_le_mono; lia).
  assert (size ≤ 2 ^ k) as Hle.
  { unfold k. destruct (Z.eq_dec size 1) as [->|]; [done|]. apply Z.log2_up_spec. lia. }
  unfold _zone_findfree. mrun (msbit_run size (Zst z e) ltac:(lia)). rewrite Hq. mrun. rewrite Hk.
  rewrite (proj2 (Z.leb_gt ORDMAX k)) by (unfold ORDMAX, LONG_BIT; lia). mrun. cbn [zs_zone].
  destruct (Z.eqb_spec (Z.shiftr (z_bmap z) k) 0) as [E0|E0]; cbn [negb]; [right|left].
  - split; [done|]. intros p a s Hp. apply Z.lt_nge. intros Hge. pose proof (zi_size _ _ Hz p a s Hp) as Hsz.
    pose proof (msb_range s Hsz) as Hm. assert (k ≤ Z.log2 s) as Hkm by (by apply Z.log2_le_pow2; [lia|]).
    assert (Z.testbit (z_bmap z) (Z.log2 s) = true) as Hb.
    { rewrite (zi_bmap _ _ Hz) by done. apply bool_decide_true. intros Hnil.
      pose proof (entry_linked z F p a s Hz Hp) as Hin. rewrite Hnil in Hin. by apply elem_of_nil in Hin. }
    replace (Z.log2 s) with ((Z.log2 s - k) + k) in Hb by lia. rewrite <- Z.shiftr_spec, E0, Z.bits_0 in Hb by lia. done.
  - assert (0 < Z.shiftr (z_bmap z) k) as Hpos.
    { destruct (zi_word _ _ Hz) as [Hw _]. pose proof (proj2 (Z.shiftr_nonneg (z_bmap z) k) Hw). lia. }
    pose proof (ctz_bit _ Hpos) as Hb. set (j := ctz (Z.shiftr (z_bmap z) k)) in *.
    pose proof (ctz_nonneg (Z.shiftr (z_bmap z) k) : 0 ≤ j) as Hj. rewrite Z.shiftr_spec in Hb by lia.
    assert (j + k < 64) as Hjk.
    { apply Z.nle_gt. intros Hge. rewrite (testbit_above _ 64) in Hb; [done|apply Hz|lia]. }
    rewrite (zi_bmap _ _ Hz (j + k)) in Hb by lia. apply bool_decide_eq_true in Hb.
    destruct (z_list z !!! Z.to_nat (j + k)) as [|p q'] eqn:Hl; [done|].
    destruct (proj1 (zi_list _ _ Hz (j + k) p ltac:(lia))) as (a & s & Hp & Hlog); [rewrite Hl; by left|].
    exists p, a, s. split_and!; [|done|].
    + unfold lsbit. rewrite bind_assoc, bind_assert by (by rewrite (proj2 (Z.eqb_neq _ _) E0)). mrun.
      unfold LIST_FIRST, gets, ffs. rewrite (proj2 (Z.eqb_neq _ _) E0). cbn [zs_zone].
      replace (k + (ctz (Z.shiftr (z_bmap z) k) + 1 - 1)) with (j + k) by (unfold j; lia). by rewrite Hl.
    + etrans; [exact Hle|]. destruct (zi_size _ _ Hz p a s Hp) as [Hs0 _].
      destruct (Z.log2_spec s Hs0) as [Hlo _]. etrans; [|exact Hlo]. apply Z.pow_le_mono_r; lia.
Qed.

End lists.

(** * The operations *)

Lemma covered_delete F p a s x :
  F !! p = Some (a, s) → covered F x ↔ covered (delete p F) x ∨ a ≤ x < a + s.
Proof.
  intros Hp. split.
  - intros (q & a' & s' & Hq & Hx). destruct (decide (q = p)) as [->|Hne]; [right; congruence|left].
    exists q, a', s'. by rewrite lookup_delete_ne.
  - intros [(q & a' & s' & [_ Hq]%lookup_delete_Some & Hx)|Hx]; [by exists q, a', s'|by exists p, a, s].
Qed.

Lemma covered_insert F p a s x :
  F !! p = None → covered (<[p := (a, s)]> F) x ↔ covered F x ∨ a ≤ x < a + s.
Proof.
  intros Hp. rewrite (covered_delete (<[p := (a, s)]> F) p a s) by apply lookup_insert_eq.
  by rewrite delete_insert_id.
Qed.

Section ops.
Context {E : Type} `{!ZoneEnv E, !ZoneEnvLaws E}.
Implicit Types (z : zone) (e : E) (F : entries).

(** The zone, its environment and its entries agree. *)
Record ready z e F : Prop := {
  rd_zone : zone_inv z F;
  rd_env : zv_inv (z_opq z) e F;
  rd_sep : sep zv_gap F;
}.

#[local] Existing Instance zv_keep_order.

Lemma zone_remove_run z e F p a s :
  ready z e F → F !! p = Some (a, s) →
  ∃ z' e', zone_remove p (Zst z e) = Ret (tt, Zst z' e') ∧ ready z' e' (delete p F) ∧ z_opq z' = z_opq z ∧
    zv_can e' ∧ zv_keep e e'.
Proof.
  intros [Hz He Hs] Hp.
  destruct (detach_run z e F p a s Hz Hp (ze_fields_ok _ _ _ _ _ _ He Hp)) as (z' & Hd & Hz' & Ho).
  destruct (freeptr_ok _ _ _ _ _ _ He Hp) as (e' & Hf & He' & Hc & Ha).
  exists z', e'. split_and!; [| |done|done|done].
  - unfold zone_remove. mrun Hd. cbn [zs_zone]. rewrite Ho. by apply on_env_run.
  - split; [done|by rewrite Ho|by apply sep_delete].
Qed.

(** On the way from [F0] to [F0] with the range [(a, s)] added: the range
    [(b, t)] remains to be added to [F]. *)
Record pending F0 (a s : Z) z e F (b t : Z) : Prop := {
  pd_ready : ready z e F;
  pd_area : zv_area (z_opq z) e b t;
  pd_apart p r : F !! p = Some r → apart 0 (b, t) r;
  pd_cover x : covered F x ∨ b ≤ x < b + t ↔ covered F0 x ∨ a ≤ x < a + s;
}.

Lemma absorb F0 a s z e F b t p a' s' b' t' :
  pending F0 a s z e F b t → F !! p = Some (a', s') →
  a' + s' = b ∧ b' = a' ∧ t' = s' + t ∨ b + t = a' ∧ b' = b ∧ t' = t + s' →
  ∃ z' e', on_env (ze_fields p) (Zst z e) = Ret ((a', s'), Zst z e) ∧
    zone_remove p (Zst z e) = Ret (tt, Zst z' e') ∧
    pending F0 a s z' e' (delete p F) b' t' ∧ z_opq z' = z_opq z ∧ zv_can e' ∧ zv_keep e e'.
Proof.
  intros [Hr Ha Hap Hc] Hp Hadj. destruct (zone_remove_run z e F p a' s' Hr Hp) as (z' & e' & Hrm & Hr' & Ho & Hcan & Hk).
  pose proof (ze_fields_ok _ _ _ _ _ _ (rd_env _ _ _ Hr) Hp) as Hf.
  pose proof (zv_area_entry _ _ _ _ _ _ (rd_env _ _ _ Hr) Hp) as Hpa.
  pose proof (zv_area_range _ _ _ _ Hpa) as Hpr. pose proof (zv_area_range _ _ _ _ Ha) as Hbr.
  exists z', e'. split_and!; [by apply on_env_run|done|split|done|done|done].
  - done.
  - rewrite Ho. eapply zv_area_keep; [exact Hk|]. destruct Hadj as [(<- & -> & ->)|(<- & -> & ->)]; by apply zv_area_join.
  - intros q r [Hne Hq]%lookup_delete_Some. pose proof (Hap q r Hq) as H1.
    pose proof (rd_sep _ _ _ Hr p q _ r Hne Hp Hq) as H2.
    destruct r as [ra rs]. pose proof (zi_size _ _ (rd_zone _ _ _ Hr) q ra rs Hq) as Hsz.
    pose proof (zv_gap_range) as Hg. unfold apart in *. cbn in *. lia.
  - intros x. rewrite <- Hc, (covered_delete F p a' s' x Hp). destruct Hadj as [(<- & -> & ->)|(<- & -> & ->)].
    + assert (a' ≤ x < a' + (s' + t) ↔ a' ≤ x < a' + s' ∨ a' + s' ≤ x < a' + s' + t) by lia. tauto.
    + assert (b ≤ x < b + (t + s') ↔ b ≤ x < b + t ∨ b + t ≤ x < b + t + s') by lia. tauto.
Qed.

(** The end of [zone_create]. *)
Lemma finish F0 a s z e F b t :
  pending F0 a s z e F b t → zv_can e → (∀ p r, F !! p = Some r → apart zv_gap (b, t) r) →
  ∃ z' e' F', (ze ← on_env (mkptr b t (z_opq z)); _zone_attachentry ze) (Zst z e) = Ret (tt, Zst z' e') ∧
    ready z' e' F' ∧ z_opq z' = z_opq z ∧ zv_keep e e' ∧
    ∀ x, covered F' x ↔ covered F0 x ∨ a ≤ x < a + s.
Proof.
  intros [[Hz He Hs] Ha _ Hc] Hcan Hap.
  destruct (mkptr_ok _ _ _ _ _ He Hcan Ha Hap) as (p & e' & Hmk & Hn & He' & Hk).
  destruct (attach_run z e' F p b t Hz Hn) as (z' & Hat & Hz' & Ho).
  { pose proof (zv_area_range _ _ _ _ Ha). lia. }
  { eapply ze_fields_ok; [exact He'|]. apply lookup_insert_eq. }
  exists z', e', (<[p := (b, t)]> F). split_and!; [|split| |done|].
  - mrun (on_env_run _ z e _ _ Hmk). done.
  - done.
  - by rewrite Ho.
  - by apply sep_insert.
  - done.
  - intros x. rewrite <- Hc. by apply covered_insert.
Qed.

(** The neighbour below, if there is one, joins the range. *)
Lemma take_prev F z e a s pn :
  pending F a s z e F a s → (∀ p, pn = Some p → ∃ a' s', F !! p = Some (a', s') ∧ a' + s' = a) →
  (zv_gap = 1 → ∀ p a' s', F !! p = Some (a', s') → a' + s' = a → pn = Some p) →
  ∃ z' e' F' b, (match pn with
      | Some pze => f ← on_env (ze_fields pze); zone_remove pze;; mret f.1
      | None => mret a
      end) (Zst z e) = Ret (b, Zst z' e') ∧ pending F a s z' e' F' b (a + s - b) ∧ z_opq z' = z_opq z ∧
    (zv_can e → zv_can e') ∧ zv_keep e e' ∧ F' ⊆ F ∧
    (∀ p a' s', F !! p = Some (a', s') → a' = a + s → F' !! p = Some (a', s')) ∧
    (zv_gap = 1 → ∀ p a' s', F' !! p = Some (a', s') → a' + s' ≠ b).
Proof.
  intros P0 Hpn Hcomp. pose proof (zv_area_range _ _ _ _ (pd_area _ _ _ _ _ _ _ _ P0)) as Hrg. destruct pn as [p|].
  - destruct (Hpn p eq_refl) as (a' & s' & Hp & Hadj).
    destruct (absorb F a s z e F a s p a' s' a' (s' + s) P0 Hp ltac:(by left)) as (z' & e' & Hf & Hrm & P1 & Ho & Hc & Hk).
    pose proof (zi_size _ _ (rd_zone _ _ _ (pd_ready _ _ _ _ _ _ _ _ P0)) p a' s' Hp) as Hsp.
    exists z', e', (delete p F), a'. split_and!; [|by replace (a + s - a') with (s' + s) by lia|done|done|done|by apply delete_subseteq| |].
    + mrun Hf. by mrun Hrm.
    + intros q b t Hq ->. rewrite lookup_delete_ne; [done|]. intros ->. rewrite Hp in Hq. injection Hq as ? ?. lia.
    + intros Hg q b t [Hne Hq]%lookup_delete_Some.
      pose proof (rd_sep _ _ _ (pd_ready _ _ _ _ _ _ _ _ P0) p q _ _ Hne Hp Hq) as Hap.
      pose proof (zi_size _ _ (rd_zone _ _ _ (pd_ready _ _ _ _ _ _ _ _ P0)) q b t Hq) as Hsq.
      unfold apart in Hap. cbn in Hap. lia.
  - exists z, e, F, a. replace (a + s - a) with s by lia. split_and!; try done.
    intros Hg q b t Hq Hx. by specialize (Hcomp Hg q b t Hq Hx).
Qed.

(** The neighbour above joins it. *)
Lemma take_next F0 F z e a s b nn :
  pending F0 a s z e F b (a + s - b) → (∀ p, nn = Some p → ∃ s', F !! p = Some (a + s, s')) →
  (zv_gap = 1 → ∀ p a' s', F !! p = Some (a', s') → a' = a + s → nn = Some p) →
  ∃ z' e' F' l, (match nn with
      | Some nze => f ← on_env (ze_fields nze); zone_remove nze;; mret (u64 (f.1 + f.2))
      | None => mret (u64 (a + s))
      end) (Zst z e) = Ret (l, Zst z' e') ∧ pending F0 a s z' e' F' b (l - b) ∧ z_opq z' = z_opq z ∧
    (zv_can e → zv_can e') ∧ zv_keep e e' ∧ F' ⊆ F ∧
    (zv_gap = 1 → ∀ p a' s', F' !! p = Some (a', s') → a' ≠ l).
Proof.
  intros P0 Hnn Hcomp. pose proof (zv_area_range _ _ _ _ (pd_area _ _ _ _ _ _ _ _ P0)) as Hrg. destruct nn as [p|].
  - destruct (Hnn p eq_refl) as (s' & Hp).
    destruct (absorb F0 a s z e F b (a + s - b) p (a + s) s' b (a + s - b + s') P0 Hp ltac:(right; lia))
      as (z' & e' & Hf & Hrm & P1 & Ho & Hc & Hk).
    pose proof (zv_area_range _ _ _ _ (zv_area_entry _ _ _ _ _ _ (rd_env _ _ _ (pd_ready _ _ _ _ _ _ _ _ P0)) Hp)) as Hrp.
    exists z', e', (delete p F), (a + s + s').
    split_and!; [|by replace (a + s + s' - b) with (a + s - b + s') by lia|done|done|done|by apply delete_subseteq|].
    + mrun Hf. mrun Hrm. cbn. by rewrite u64_small by (unfold word64; lia).
    + intros Hg q c t [Hne Hq]%lookup_delete_Some.
      pose proof (rd_sep _ _ _ (pd_ready _ _ _ _ _ _ _ _ P0) p q _ _ Hne Hp Hq) as Hap.
      pose proof (zi_size _ _ (rd_zone _ _ _ (pd_ready _ _ _ _ _ _ _ _ P0)) q c t Hq) as Hsq.
      unfold apart in Hap. cbn in Hap. lia.
  - exists z, e, F, (a + s). split_and!; try done.
    + by rewrite u64_small by (unfold word64; lia).
    + intros Hg q c t Hq Hx. by specialize (Hcomp Hg q c t Hq Hx).
Qed.

Lemma zone_create_run z e F a s :
  ready z e F → zv_area (z_opq z) e a s → (∀ p r, F !! p = Some r → apart 0 (a, s) r) → zv_can e →
  ∃ z' e' F', zone_create a s (Zst z e) = Ret (tt, Zst z' e') ∧ ready z' e' F' ∧ z_opq z' = z_opq z ∧
    zv_keep e e' ∧ ∀ x, covered F' x ↔ covered F x ∨ a ≤ x < a + s.
Proof.
  intros Hr Ha Hap Hcan. assert (pending F a s z e F a s) as P0 by done.
  destruct (get_neighbors_ok _ _ _ _ _ (rd_env _ _ _ Hr) Ha Hap) as (pn & nn & Hgn & Hpn & Hnn & Hcomp).
  destruct (take_prev F z e a s pn P0 Hpn) as (z1 & e1 & F1 & b & H1 & P1 & Ho1 & Hc1 & Hk1 & Hsub1 & Hkeep & Hb).
  { intros Hg p a' s' Hp. by apply (Hcomp Hg). }
  destruct (take_next F F1 z1 e1 a s b nn P1) as (z2 & e2 & F2 & l & H2 & P2 & Ho2 & Hc2 & Hk2 & Hsub2 & Hl).
  { intros p Hp. destruct (Hnn p Hp) as [s' Hs']. exists s'. by apply Hkeep. }
  { intros Hg p a' s' Hp. apply (Hcomp Hg p a' s'). by eapply lookup_weaken. }
  destruct (finish F a s z2 e2 F2 b (l - b) P2) as (z3 & e3 & F3 & H3 & Hr3 & Ho3 & Hk3 & Hcov); [by auto| |].
  { intros p [a' s'] Hp. pose proof (pd_apart _ _ _ _ _ _ _ _ P2 p _ Hp) as Hap2. pose proof zv_gap_range as Hg.
    destruct (Z.eq_dec zv_gap 1) as [Hg1|Hg0]; [|by replace zv_gap with 0 by lia].
    specialize (Hl Hg1 p a' s' Hp). specialize (Hb Hg1 p a' s' (lookup_weaken _ _ _ _ Hp Hsub2)).
    unfold apart in *. cbn in *. lia. }
  exists z3, e3, F3. split_and!; [|done|congruence| |done].
  - unfold zone_create. mrun. cbn [zs_zone]. mrun (on_env_run _ z e _ _ Hgn). mrun H1. mrun H2.
    pose proof (zv_area_range _ _ _ _ (pd_area _ _ _ _ _ _ _ _ P2)). rewrite u64_small by (unfold word64; lia).
    by rewrite <- H3, Ho2, Ho1.
  - etrans; [exact Hk1|]. by etrans.
Qed.

(** [zone_alloc] takes the addresses it returns out of the free ones. *)
Lemma zone_alloc_run z e F size :
  ready z e F → 0 < size < 2 ^ 31 → (zv_unit | size) →
  (∃ a z' e' F', zone_alloc size (Zst z e) = Ret (a, Zst z' e') ∧ ready z' e' F' ∧ z_opq z' = z_opq z ∧
     zv_keep e e' ∧ zv_area (z_opq z) e a size ∧
     (∀ x, a ≤ x < a + size → covered F x) ∧
     ∀ x, covered F' x ↔ covered F x ∧ ¬ (a ≤ x < a + size)) ∨
  (zone_alloc size (Zst z e) = Ret (ZADDR_NONE, Zst z e) ∧
   ∀ p a s, F !! p = Some (a, s) → s < 2 ^ Z.log2_up size).
Proof.
  intros Hr Hs Hu. unfold zone_alloc. rewrite bind_assert by (by rewrite (proj2 (Z.eqb_neq size 0)) by lia).
  destruct (findfree_run z e F size (rd_zone _ _ _ Hr) Hs) as [(p & a & s & Hff & Hp & Hle)|[Hff Hno]];
    mrun Hff; [left|by right].
  pose proof (zv_area_entry _ _ _ _ _ _ (rd_env _ _ _ Hr) Hp) as Ha. pose proof (zv_area_range _ _ _ _ Ha) as Hrg.
  mrun (on_env_run _ z e _ _ (ze_fields_ok _ _ _ _ _ _ (rd_env _ _ _ Hr) Hp)).
  assert (s64 (s - size) = s - size) as ->.
  { unfold s64. rewrite u64_small by (unfold word64; lia). by rewrite (proj2 (Z.ltb_lt _ _)) by lia. }
  rewrite bind_assert by (apply Z.leb_le; lia).
  destruct (zone_remove_run z e F p a s Hr Hp) as (z1 & e1 & Hrm & Hr1 & Ho1 & Hcan & Hk1). mrun Hrm.
  assert (∀ x, covered (delete p F) x → ¬ (a ≤ x < a + s)) as Hdis.
  { intros x (q & b & t & [Hne Hq]%lookup_delete_Some & Hx).
    pose proof (rd_sep _ _ _ Hr p q _ _ Hne Hp Hq) as Hap. pose proof zv_gap_range. unfold apart in Hap. cbn in Hap. lia. }
  assert (∀ x, a ≤ x < a + size → covered F x) as Hin by (intros x Hx; exists p, a, s; split; [done|lia]).
  destruct (Z.eq_dec s size) as [->|Hne].
  - exists a, z1, e1, (delete p F). rewrite Z.sub_diag. split_and!; try done.
    intros x. rewrite (covered_delete F p a size x Hp). specialize (Hdis x). tauto.
  - destruct (zv_area_split _ _ _ _ size Ha ltac:(lia) Hu) as [Ha1 Ha2].
    destruct (zone_create_run z1 e1 (delete p F) (a + size) (s - size) Hr1) as (z2 & e2 & F2 & Hcr & Hr2 & Ho2 & Hk2 & Hcov).
    + rewrite Ho1. by eapply zv_area_keep.
    + intros q [b t] [Hne' Hq]%lookup_delete_Some.
      pose proof (rd_sep _ _ _ Hr p q _ _ Hne' Hp Hq) as Hap. pose proof zv_gap_range. unfold apart in *. cbn in *. lia.
    + done.
    + exists a, z2, e2, F2. rewrite (proj2 (Z.ltb_lt 0 _)) by lia. rewrite u64_small by (unfold word64; lia).
      cbn [when]. mrun Hcr. split_and!; try done; [congruence| |].
      * by etrans.
      * intros x. rewrite Hcov, (covered_delete F p a s x Hp). specialize (Hdis x).
        assert (a ≤ x < a + s ↔ a ≤ x < a + size ∨ a + size ≤ x < a + size + (s - size)) by lia.
        assert (a ≤ x < a + size → ¬ a + size ≤ x < a + size + (s - size)) by lia. tauto.
Qed.

End ops.
