(* ===== verification/Stree.v ===== *)
(** The S-tree of include/stree.h: a bitmap with summary levels, searched from
    the top. Words are reached through the [GET_WORD]/[SET_WORD] macros, which
    the kernel leaves as plain memory accesses and the boot loader redefines to
    go through the page tables it is building; the class [WordMem] is that
    interface. The contract of the component is a set of bit addresses. *)

From S2P Require Import Prelude Words.

(** * The word interface *)

Class WordMem (S : Type) := {
  wm_words : S → list Z;
  wm_frame : S → S → Prop;
  get_word : Z → M S Z;
  set_word : Z → Z → M S unit;
}.

Class WordMemLaws (S : Type) `{!WordMem S} := {
  wm_frame_po :: PreOrder wm_frame;
  get_word_ok s i :
    0 ≤ i < length (wm_words s) →
    get_word i s = Ret (wm_words s !!! Z.to_nat i, s);
  set_word_ok s i v :
    0 ≤ i < length (wm_words s) →
    ∃ s', set_word i v s = Ret (tt, s') ∧
          wm_words s' = <[Z.to_nat i := v]> (wm_words s) ∧ wm_frame s s';
}.

(** The kernel's instance: the tree is an array of words, and reading or
    writing past its end is a fault. *)
#[global] Instance array_mem : WordMem (list Z) := {|
  wm_words ws := ws;
  wm_frame ws ws' := length ws' = length ws;
  get_word i ws :=
    if (0 <=? i) && (i <? length ws) then Ret (ws !!! Z.to_nat i, ws) else Abort Fault;
  set_word i v ws :=
    if (0 <=? i) && (i <? length ws) then Ret (tt, <[Z.to_nat i := v]> ws) else Abort Fault;
|}.

(** * Sizes and offsets *)

Definition WORDSIZE : Z := 64.
Definition WORDLOG2 : Z := 6.
Definition WORDMASK : Z := 0x3f.

Definition CEIL_DIV (n d : Z) : Z := (n + d - 1) `div` d.
Definition LOGWORD (x : Z) : Z := (x + (WORDLOG2 - 1)) `div` WORDLOG2.
Definition STREE_SIZE (o : Z) : Z := CEIL_DIV (Z.shiftl 1 o - 1) (WORDSIZE - 1).

(** [__builtin_clzl (0)] is undefined; [__builtin_popcount] takes an
    [unsigned int]. *)
Definition stree_order (n : Z) : option Z :=
  if n =? 0 then None else
  let r := 64 - 1 - clz64 n in
  Some (r + (if 1 <? popcount (u32 n) then 1 else 0)).

(** [o], [l] and [y] are [unsigned int], the two [1 <<] are [int], [c] and [r]
    are [size_t]. *)
Definition stree_lmap_off (o l : Z) : option Z :=
  let y := u32 (l - 1) in
  c ← shl_int 1 (u32 (o - u32 (WORDLOG2 * y)));
  k ← shl_int 1 (u32 (WORDLOG2 * l));
  let r := u64 (u64 c * u64 (k - 1)) `div` (WORDSIZE - 1) in
  Some (Z.shiftr r WORDLOG2).

(** The address is narrowed to [unsigned]. The callers compute
    [stree_lmap_off o l] first, so the shift count is at most 30. *)
Definition lmap_bitoff (l a : Z) : Z := Z.shiftr (u32 a) (WORDLOG2 * l).

(** * Operations *)

Section ops.
Context {S : Type} `{!WordMem S}.

Definition OR_WORD (p x : Z) : M S unit := w ← get_word p; set_word p (Z.lor w x).
Definition MASK_WORD (p x : Z) : M S unit := w ← get_word p; set_word p (Z.land w x).

Definition stree_lmap (o l : Z) : M S Z := opt_or Undef (stree_lmap_off o l).

Definition set_bit (map bitaddr : Z) : M S bool :=
  let off := Z.shiftr bitaddr WORDLOG2 in
  let bit := Z.land bitaddr WORDMASK in
  old ← get_word (map + off);
  OR_WORD (map + off) (Z.shiftl 1 bit);;
  mret (negb (old =? 0)).

Definition clr_bit (map bitaddr : Z) : M S bool :=
  let off := Z.shiftr bitaddr WORDLOG2 in
  let bit := Z.land bitaddr WORDMASK in
  MASK_WORD (map + off) (not64 (Z.shiftl 1 bit));;
  w ← get_word (map + off);
  mret (negb (w =? 0)).

Definition get_bit (map bitaddr : Z) : M S bool :=
  let off := Z.shiftr bitaddr WORDLOG2 in
  let bit := Z.land bitaddr WORDMASK in
  w ← get_word (map + off);
  mret (negb (Z.land w (Z.shiftl 1 bit) =? 0)).

Definition stree_getbit (o bitaddr : Z) : M S bool :=
  lmap ← stree_lmap o 0;
  get_bit lmap (lmap_bitoff 0 bitaddr).

(** [for (l = 0; l <= LOGWORD (o) - 1; l++)]: the bound is unsigned. *)
Definition loop_count (o : Z) : nat := Z.to_nat (u32 (LOGWORD o - 1) + 1).

Fixpoint stree_setbit_from (n : nat) (o l bitaddr : Z) : M S unit :=
  match n with
  | O => mret tt
  | Datatypes.S n' =>
      lmap ← stree_lmap o l;
      b ← set_bit lmap (lmap_bitoff l bitaddr);
      if (b : bool) then mret tt else stree_setbit_from n' o (l + 1) bitaddr
  end.

Definition stree_setbit (o bitaddr : Z) : M S unit :=
  stree_setbit_from (loop_count o) o 0 bitaddr.

Fixpoint stree_clrbit_from (n : nat) (o l bitaddr : Z) : M S unit :=
  match n with
  | O => mret tt
  | Datatypes.S n' =>
      lmap ← stree_lmap o l;
      b ← clr_bit lmap (lmap_bitoff l bitaddr);
      if (b : bool) then mret tt else stree_clrbit_from n' o (l + 1) bitaddr
  end.

Definition stree_clrbit (o bitaddr : Z) : M S unit :=
  stree_clrbit_from (loop_count o) o 0 bitaddr.

(** The loop counts [l] down to zero: [n] levels are left, [l = n - 1]. *)
Fixpoint stree_bitsearch_from (n : nat) (o : Z) (low : bool) (laddr : Z) : M S Z :=
  match n with
  | O => mret laddr
  | Datatypes.S n' =>
      let l : Z := n' in
      lmap ← stree_lmap o l;
      let loff := Z.shiftr (lmap_bitoff l laddr) WORDLOG2 in
      word ← get_word (lmap + loff);
      if word =? 0 then
        assertb (l =? u32 (LOGWORD o - 1));; mret (-1)
      else
        let bit := if low then ctz word else WORDSIZE - 1 - clz64 word in
        sh ← opt_or Undef (shl_u32 bit (l * WORDLOG2));
        stree_bitsearch_from n' o low (Z.lor laddr sh)
  end.

Definition stree_bitsearch (o : Z) (low : bool) : M S Z :=
  stree_bitsearch_from (Z.to_nat (s32 (LOGWORD o - 1) + 1)) o low 0.

End ops.

(** [stree_setall] and [stree_count] index the array directly. *)
Definition stree_setall_level (o max l : Z) : M (list Z) unit :=
  lmap ← stree_lmap o l;
  let size := Z.shiftr (lmap_bitoff l max) WORDLOG2 in
  let bits := Z.land (lmap_bitoff l max) WORDMASK in
  for_each (seqZ 0 size) (λ i, set_word (lmap + i) (2 ^ 64 - 1));;
  set_word (lmap + size)
    (if bits =? WORDSIZE - 1 then 2 ^ 64 - 1 else u64 (Z.shiftl 1 (bits + 1) - 1)).

Definition stree_setall (o max : Z) : M (list Z) unit :=
  for_each (reverse (seqZ 0 (s32 (LOGWORD o - 1) + 1))) (stree_setall_level o max).

Fixpoint stree_count_from (n : nat) (lmap i size : Z) : M (list Z) Z :=
  match n with
  | O => mret size
  | S n' =>
      w ← get_word (lmap + Z.shiftr i WORDLOG2);
      stree_count_from n' lmap (i + 64) (u64 (size + popcount w))
  end.

(** [for (i = 0; i < (1LL << o); i += 64)]. *)
Definition stree_count (o : Z) : M (list Z) Z :=
  lmap ← stree_lmap o 0;
  stree_count_from (Z.to_nat (CEIL_DIV (Z.shiftl 1 o) 64)) lmap 0 0.

(** * The contract: a set of bit addresses *)

(** Orders for which no shift of [stree_lmap_off] leaves its width. *)
Definition order_ok (o : Z) : Prop := 1 ≤ o ≤ 25.

(** Words in level [l], where it starts, and its [k]-th word. *)
Definition lsize (o l : Z) : Z := 2 ^ Z.max 0 (o - 6 * (l + 1)).
Definition loff (o l : Z) : Z := (2 ^ o - 2 ^ (o - 6 * l)) `div` 63.
Definition W (o : Z) (ws : list Z) (l k : Z) : Z := ws !!! Z.to_nat (loff o l + k).

Definition member (ws : list Z) (a : Z) : bool :=
  Z.testbit (ws !!! Z.to_nat (a `div` 64)) (a `mod` 64).

(** A bit of level [l + 1] is set exactly when the word of level [l] it
    stands for is not zero. *)
Definition summary (o : Z) (ws : list Z) (l k : Z) : Prop :=
  Z.testbit (W o ws (l + 1) (k `div` 64)) (k `mod` 64) = negb (W o ws l k =? 0).

Definition valid_word (o l k : Z) : Prop := 0 ≤ l < LOGWORD o ∧ 0 ≤ k < lsize o l.

Record stree_inv (o : Z) (ws : list Z) : Prop := {
  si_len : STREE_SIZE o ≤ length ws;
  si_word l k : valid_word o l k → word64 (W o ws l k);
  si_top i : 2 ^ (o - 6 * (LOGWORD o - 1)) ≤ i →
    Z.testbit (W o ws (LOGWORD o - 1) 0) i = false;
  si_sum l k : valid_word o l k → l < LOGWORD o - 1 → summary o ws l k;
}.

(** * Geometry

    The orders in range are finitely many, so the facts about level offsets
    are checked by evaluation. *)

Definition geometry_check (o l : Z) : bool :=
  bool_decide (stree_lmap_off o l = Some (loff o l)) &&
  (0 <=? loff o l) && (loff o l + lsize o l <=? STREE_SIZE o) &&
  bool_decide (Forall (λ l', loff o l' + lsize o l' ≤ loff o l) (seqZ 0 l)).

Lemma geometry_checked :
  Forall (λ o, Forall (λ l, geometry_check o l = true) (seqZ 0 (LOGWORD o))) (seqZ 1 25).
Proof. apply (bool_decide_unpack _). vm_compute. done. Qed.

Lemma geometry o l :
  order_ok o → 0 ≤ l < LOGWORD o →
  stree_lmap_off o l = Some (loff o l) ∧ 0 ≤ loff o l ∧
  loff o l + lsize o l ≤ STREE_SIZE o ∧
  (∀ l', 0 ≤ l' < l → loff o l' + lsize o l' ≤ loff o l).
Proof.
  intros Ho Hl. pose proof geometry_checked as Hc.
  rewrite Forall_seqZ in Hc. specialize (Hc o ltac:(unfold order_ok in Ho; lia)).
  rewrite Forall_seqZ in Hc. specialize (Hc l ltac:(lia)).
  unfold geometry_check in Hc. rewrite !andb_true_iff in Hc.
  destruct Hc as [[[H1 H2] H3] H4].
  apply bool_decide_eq_true in H1, H4. rewrite Forall_seqZ in H4.
  repeat split; [done|lia|lia|]. intros l' Hl'. apply H4. lia.
Qed.

Lemma loff_next o l :
  order_ok o → 0 ≤ l → l + 1 < LOGWORD o → loff o l + lsize o l = loff o (l + 1).
Proof.
  intros Ho Hl Hl'. unfold order_ok in Ho.
  assert (Forall (λ o, Forall (λ l, loff o l + lsize o l = loff o (l + 1))
    (seqZ 0 (LOGWORD o - 1))) (seqZ 1 25)) as Hc.
  { apply (bool_decide_unpack _). vm_compute. done. }
  rewrite Forall_seqZ in Hc. specialize (Hc o ltac:(lia)).
  rewrite Forall_seqZ in Hc. apply Hc. lia.
Qed.

Lemma levels_bounds o : order_ok o → 1 ≤ LOGWORD o ≤ 5 ∧ 6 * (LOGWORD o - 1) < o ≤ 6 * LOGWORD o.
Proof. unfold order_ok, LOGWORD, WORDLOG2. intros. Z.div_mod_to_equations. lia. Qed.

Lemma loop_count_levels o : order_ok o → loop_count o = Z.to_nat (LOGWORD o).
Proof.
  intros Ho%levels_bounds. unfold loop_count. rewrite u32_small by (unfold word32; lia).
  f_equal. lia.
Qed.

Lemma search_count_levels o :
  order_ok o → Z.to_nat (s32 (LOGWORD o - 1) + 1) = Z.to_nat (LOGWORD o).
Proof.
  intros Ho%levels_bounds. unfold s32. rewrite u32_small by (unfold word32; lia).
  case_bool; f_equal; lia.
Qed.

Lemma lsize_pos o l : 0 < lsize o l.
Proof. unfold lsize. lia. Qed.

(** The word of level [l] that holds bit address [a]. *)
Lemma valid_word_of o a l :
  order_ok o → 0 ≤ a < 2 ^ o → 0 ≤ l < LOGWORD o → valid_word o l (a `div` 2 ^ (6 * (l + 1))).
Proof.
  intros Ho Ha Hl. split; [done|]. unfold lsize, order_ok in *. split.
  { apply Z.div_pos; lia. }
  apply Z.div_lt_upper_bound; [lia|]. rewrite <- Z.pow_add_r by lia.
  eapply Z.lt_le_trans; [apply Ha|]. apply Z.pow_le_mono_r; lia.
Qed.

Lemma valid_word_up o l k :
  order_ok o → valid_word o l k → l < LOGWORD o - 1 → valid_word o (l + 1) (k `div` 64).
Proof.
  intros Ho [Hl Hk] Hlt. pose proof (levels_bounds o Ho).
  split; [lia|]. unfold lsize in *. split; [apply Z.div_pos; lia|].
  apply Z.div_lt_upper_bound; [lia|]. eapply Z.lt_le_trans; [apply Hk|].
  change 64 with (2 ^ 6). rewrite <- Z.pow_add_r by lia. apply Z.pow_le_mono_r; lia.
Qed.

Lemma valid_index o l k (ws : list Z) :
  order_ok o → STREE_SIZE o ≤ length ws → valid_word o l k →
  0 ≤ loff o l + k < length ws.
Proof. intros Ho Hlen [Hl Hk]. destruct (geometry o l Ho Hl) as (_&?&?&_). lia. Qed.

Lemma valid_index_inj o l k l' k' :
  order_ok o → valid_word o l k → valid_word o l' k' →
  loff o l + k = loff o l' + k' → l = l' ∧ k = k'.
Proof.
  intros Ho [Hl Hk] [Hl' Hk'] Heq.
  destruct (geometry o l Ho Hl) as (_&_&_&H1), (geometry o l' Ho Hl') as (_&_&_&H2).
  destruct (Z.lt_trichotomy l l') as [Hlt|[->|Hlt]].
  - specialize (H2 l ltac:(lia)). lia.
  - lia.
  - specialize (H1 l' ltac:(lia)). lia.
Qed.

Lemma W_insert o ws l k v l' k' :
  order_ok o → STREE_SIZE o ≤ length ws → valid_word o l k → valid_word o l' k' →
  W o (<[Z.to_nat (loff o l + k) := v]> ws) l' k' =
    if decide (l = l' ∧ k = k') then v else W o ws l' k'.
Proof.
  intros Ho Hlen Hv Hv'. unfold W.
  pose proof (valid_index o l k ws Ho Hlen Hv). pose proof (valid_index o l' k' ws Ho Hlen Hv').
  rewrite list_insert_lookup_total by lia.
  destruct (decide (l = l' ∧ k = k')) as [[-> ->]|Hne].
  - by rewrite decide_True.
  - rewrite decide_False; [done|]. intros Heq. apply Hne.
    apply (valid_index_inj o); auto. lia.
Qed.

Lemma W_level0 o ws k : 0 ≤ o → W o ws 0 k = ws !!! Z.to_nat k.
Proof. intros. unfold W, loff. rewrite Z.mul_0_r, Z.sub_0_r, Z.sub_diag. done. Qed.

Lemma member_W o ws a : 0 ≤ o → member ws a = Z.testbit (W o ws 0 (a `div` 64)) (a `mod` 64).
Proof. intros. unfold member. by rewrite W_level0. Qed.

(** * Single-bit steps *)

Lemma shiftr_6 a : Z.shiftr a WORDLOG2 = a `div` 64.
Proof. unfold WORDLOG2. by rewrite Z.shiftr_div_pow2. Qed.

Lemma land_63 a : Z.land a WORDMASK = a `mod` 64.
Proof. unfold WORDMASK. change 0x3f with (Z.ones 6). by rewrite Z.land_ones. Qed.

Lemma bitoff_div l a : 0 ≤ l → word32 a → lmap_bitoff l a = a `div` 2 ^ (6 * l).
Proof.
  intros. unfold lmap_bitoff, WORDLOG2. rewrite u32_small by done.
  by rewrite Z.shiftr_div_pow2 by lia.
Qed.

Lemma div_div_64 a l : 0 ≤ l → (a `div` 2 ^ (6 * l)) `div` 64 = a `div` 2 ^ (6 * (l + 1)).
Proof.
  intros. rewrite Z.div_div by lia. f_equal.
  change 64 with (2 ^ 6). rewrite <- Z.pow_add_r by lia. f_equal. lia.
Qed.

Lemma order_addr o a : order_ok o → 0 ≤ a < 2 ^ o → word32 a.
Proof.
  intros [? ?] [? Ha]. split; [done|]. eapply Z.lt_trans; [apply Ha|].
  apply Z.pow_lt_mono_r; lia.
Qed.

Lemma level_addr o a l :
  order_ok o → 0 ≤ a < 2 ^ o → 0 ≤ l < LOGWORD o → a `div` 2 ^ (6 * l) < 2 ^ (o - 6 * l).
Proof.
  intros Ho Ha Hl. pose proof (levels_bounds o Ho).
  apply Z.div_lt_upper_bound; [lia|]. rewrite <- Z.pow_add_r by lia.
  replace (6 * l + (o - 6 * l)) with o by lia. lia.
Qed.

Lemma testbit_setbit w k i :
  0 ≤ k → Z.testbit (Z.lor w (Z.shiftl 1 k)) i = (i =? k) || Z.testbit w i.
Proof. intros. rewrite Z.lor_spec, testbit_one_shl by done. apply orb_comm. Qed.

Lemma testbit_clrbit w k i :
  word64 w → 0 ≤ k < 64 →
  Z.testbit (Z.land w (not64 (Z.shiftl 1 k))) i = negb (i =? k) && Z.testbit w i.
Proof.
  intros Hw Hk. rewrite Z.land_spec. unfold not64. rewrite testbit_u64.
  destruct (Z.ltb_spec i 64).
  - destruct (decide (0 ≤ i)).
    + rewrite Z.lnot_spec, testbit_one_shl by lia. simpl. apply andb_comm.
    + rewrite (Z.testbit_neg_r w) by lia. simpl. by rewrite andb_false_r.
  - rewrite (testbit_above w 64) by (done || lia). simpl. by rewrite andb_false_r.
Qed.

Lemma setbit_word64 w k : word64 w → 0 ≤ k < 64 → word64 (Z.lor w (Z.shiftl 1 k)).
Proof.
  intros Hw Hk. apply lor_word64; [done|]. rewrite Z.shiftl_1_l. split; [lia|].
  apply Z.pow_lt_mono_r; lia.
Qed.

Lemma clrbit_word64 w k : word64 w → word64 (Z.land w (not64 k)).
Proof. intros. apply land_word64; [done|]. apply u64_range. Qed.

Lemma setbit_nonzero w k : 0 ≤ k → Z.lor w (Z.shiftl 1 k) ≠ 0.
Proof.
  intros Hk. apply (bit_nonzero _ k). rewrite testbit_setbit by done. by rewrite Z.eqb_refl.
Qed.

(** ** One level of an update

    While an update climbs the tree, a single summary bit may be out of date:
    the one of word [(l - 1, q)], about to be rewritten at level [l]. *)

Record stree_inv_but (o : Z) (ws : list Z) (lx kx : Z) : Prop := {
  sb_len : STREE_SIZE o ≤ length ws;
  sb_word l k : valid_word o l k → word64 (W o ws l k);
  sb_top i : 2 ^ (o - 6 * (LOGWORD o - 1)) ≤ i →
    Z.testbit (W o ws (LOGWORD o - 1) 0) i = false;
  sb_sum l k : valid_word o l k → l < LOGWORD o - 1 →
    ¬ (l = lx ∧ k = kx) → summary o ws l k;
}.

Lemma stree_inv_weaken o ws lx kx : stree_inv o ws → stree_inv_but o ws lx kx.
Proof. intros []. split; auto. Qed.

Lemma stree_inv_restore o ws lx kx :
  stree_inv_but o ws lx kx → (0 ≤ lx < LOGWORD o - 1 → summary o ws lx kx) →
  stree_inv o ws.
Proof.
  intros [] H. split; auto. intros l k Hv Hl.
  destruct (decide (l = lx ∧ k = kx)) as [[-> ->]|]; [|auto].
  apply H. destruct Hv. lia.
Qed.

Lemma top_level_word o k : order_ok o → valid_word o (LOGWORD o - 1) k → k = 0.
Proof.
  intros Ho [_ Hk]. pose proof (levels_bounds o Ho). unfold lsize in Hk.
  rewrite Z.max_l in Hk by lia. simpl in Hk. lia.
Qed.

Lemma level_step o ws l q w' :
  order_ok o → stree_inv_but o ws (l - 1) q →
  0 ≤ q < 2 ^ (o - 6 * l) → valid_word o l (q `div` 64) → word64 w' →
  (∀ i, i ≠ q `mod` 64 → Z.testbit w' i = Z.testbit (W o ws l (q `div` 64)) i) →
  (0 < l → Z.testbit w' (q `mod` 64) = negb (W o ws (l - 1) q =? 0)) →
  stree_inv_but o (<[Z.to_nat (loff o l + q `div` 64) := w']> ws) l (q `div` 64).
Proof.
  intros Ho [Hlen Hword Htop Hsum] Hq Hv Hw' Hbits Hq'.
  pose proof (levels_bounds o Ho) as HL.
  split.
  - by rewrite length_insert.
  - intros l' k' Hv'. rewrite W_insert by done. case_decide; auto.
  - intros i Hi. rewrite W_insert; [|done..|].
    2:{ split; [lia|]. pose proof (lsize_pos o (LOGWORD o - 1)). lia. }
    case_decide as Hd; [|auto]. destruct Hd as [-> Hk]. rewrite Hk in *.
    assert (q < 64) as Hq64. { pose proof (Z.div_mod q 64). pose proof (Z.mod_pos_bound q 64). lia. }
    rewrite Hbits; [by apply Htop|]. rewrite Z.mod_small by lia. lia.
  - intros l' k' Hv' Hl' Hne. unfold summary.
    pose proof (valid_word_up o l' k' Ho Hv' Hl') as Hup.
    rewrite !W_insert by done.
    destruct (decide (l = l' ∧ q `div` 64 = k')) as [[-> <-]|_]; [by destruct Hne|].
    case_decide as Hd; [|apply Hsum; try done].
    + destruct Hd as [Hd1 Hd2]. assert (l' = l - 1) as -> by lia.
      destruct (decide (k' = q)) as [->|Hkq]; [apply Hq'; destruct Hv'; lia|].
      rewrite Hbits.
      * pose proof (Hsum (l - 1) k' Hv' Hl' ltac:(lia)) as Hs. unfold summary in Hs.
        by rewrite Z.sub_add, <- Hd2 in Hs.
      * intros Hm. apply Hkq. rewrite (Z.div_mod k' 64), (Z.div_mod q 64) by lia. lia.
    + intros [-> ->]. destruct Hd. split; lia.
Qed.

(** ** Going up and down the summary bits *)

Lemma member_up o ws a l :
  order_ok o → stree_inv o ws → 0 ≤ a < 2 ^ o → member ws a = true → 0 ≤ l < LOGWORD o →
  Z.testbit (W o ws l (a `div` 2 ^ (6 * (l + 1)))) ((a `div` 2 ^ (6 * l)) `mod` 64) = true.
Proof.
  intros Ho Hinv Ha Hm [Hl0 Hl]. revert Hl. pattern l. apply natlike_ind; [|clear l Hl0|done].
  - intros _. rewrite (member_W o) in Hm by (unfold order_ok in Ho; lia).
    change (2 ^ (6 * 0)) with 1. by rewrite Z.div_1_r.
  - intros l Hl0 IH Hl. specialize (IH ltac:(lia)). unfold Z.succ in *.
    rewrite <- (div_div_64 a (l + 1)) by lia.
    rewrite (si_sum _ _ Hinv l (a `div` 2 ^ (6 * (l + 1)))).
    + apply negb_true_iff, Z.eqb_neq. by eapply bit_nonzero.
    + apply valid_word_of; auto with lia.
    + lia.
Qed.

(** The bit number [i] of word [k] of level [l] stands for an address block. *)
Lemma bit_in_range o ws l k i :
  order_ok o → stree_inv o ws → valid_word o l k → 0 ≤ i →
  Z.testbit (W o ws l k) i = true → i < 64 ∧ 64 * k + i < 2 ^ (o - 6 * l).
Proof.
  intros Ho Hinv Hv Hi Hb. pose proof (levels_bounds o Ho).
  assert (i < 64) as Hi64.
  { destruct (decide (i < 64)) as [|Hge]; [done|]. exfalso.
    rewrite (testbit_above _ 64) in Hb; [done|by eapply si_word|lia]. }
  split; [done|]. destruct (decide (l = LOGWORD o - 1)) as [->|Hne].
  - pose proof (top_level_word o k Ho Hv) as ->.
    destruct (decide (i < 2 ^ (o - 6 * (LOGWORD o - 1)))) as [|Hge]; [lia|].
    rewrite (si_top _ _ Hinv) in Hb by lia. done.
  - destruct Hv as [Hl [Hk0 Hk]]. unfold lsize in Hk. rewrite Z.max_r in Hk by lia.
    replace (o - 6 * l) with (6 + (o - 6 * (l + 1))) by lia.
    rewrite Z.pow_add_r by lia. lia.
Qed.

(** ** Choosing a bit in a word *)

Definition pick (low : bool) (w : Z) : Z := if low then ctz w else WORDSIZE - 1 - clz64 w.

Definition before (low : bool) (x y : Z) : Prop := if low then x ≤ y else y ≤ x.

Lemma pick_spec low w :
  word64 w → w ≠ 0 →
  0 ≤ pick low w < 64 ∧ Z.testbit w (pick low w) = true ∧
  ∀ i, 0 ≤ i → Z.testbit w i = true → before low (pick low w) i.
Proof.
  intros [Hw0 Hw] Hnz. assert (0 < w < 2 ^ 64) as Hp by lia.
  unfold pick, before, WORDSIZE, clz64. destruct low.
  - split_and!; [apply ctz_nonneg|by apply ctz_lt|apply ctz_bit; lia|].
    intros i Hi Hb. destruct (decide (ctz w ≤ i)); [done|].
    rewrite ctz_below in Hb by lia. done.
  - replace (64 - 1 - (63 - Z.log2 w)) with (Z.log2 w) by lia.
    split_and!; [apply Z.log2_nonneg|by apply log2_lt|apply Z.bit_log2; lia|].
    intros i Hi Hb. destruct (decide (i ≤ Z.log2 w)); [done|].
    rewrite log2_bit_above in Hb by lia. done.
Qed.

(** Adding the bits chosen at level [l] to the address found so far. *)
Lemma extend_addr laddr bit l :
  0 ≤ l → 0 ≤ bit < 64 → laddr `mod` 2 ^ (6 * (l + 1)) = 0 → 0 ≤ laddr →
  let laddr' := Z.lor laddr (Z.shiftl bit (6 * l)) in
  laddr' `div` 2 ^ (6 * l) = 64 * (laddr `div` 2 ^ (6 * (l + 1))) + bit ∧
  laddr' `mod` 2 ^ (6 * l) = 0 ∧ laddr' = laddr + bit * 2 ^ (6 * l).
Proof.
  intros Hl Hb Hm Hla. cbn zeta. set (p := 2 ^ (6 * l)).
  assert (0 < p) by (unfold p; lia).
  assert (2 ^ (6 * (l + 1)) = 64 * p) as Hp.
  { unfold p. change 64 with (2 ^ 6). rewrite <- Z.pow_add_r by lia. f_equal. lia. }
  rewrite Hp in *. set (q := laddr `div` (64 * p)).
  assert (laddr = 64 * q * p) as Hlq.
  { rewrite (Z.div_mod laddr (64 * p)) by lia. rewrite Hm. fold q. lia. }
  assert (Z.lor laddr (Z.shiftl bit (6 * l)) = laddr + bit * p) as ->.
  { rewrite Z.shiftl_mul_pow2 by lia. fold p. symmetry. apply Z.add_nocarry_lor.
    apply Z.bits_inj'. intros i Hi. rewrite Z.land_spec, Z.testbit_0_l.
    destruct (decide (i < 6 * (l + 1))) as [Hlt|Hge].
    - rewrite <- (Z.mod_pow2_bits_low laddr (6 * (l + 1))) by lia.
      by rewrite Hp, Hm, Z.testbit_0_l.
    - rewrite (testbit_above (bit * p) (6 * (l + 1))); [by rewrite andb_false_r| |lia].
      rewrite Hp. nia. }
  split_and!; [| |done].
  - rewrite Hlq at 1. replace (64 * q * p + bit * p) with ((64 * q + bit) * p) by lia.
    by rewrite Z.div_mul by lia.
  - rewrite Hlq. replace (64 * q * p + bit * p) with ((64 * q + bit) * p) by lia.
    by rewrite Z.mod_mul by lia.
Qed.

(** ** Searching *)

(** [n] levels are left and [laddr] is the block chosen so far: it holds a
    member, and no member lies before it. *)
Record search_inv (o : Z) (ws : list Z) (low : bool) (n laddr : Z) : Prop := {
  se_range : 0 ≤ laddr < 2 ^ o;
  se_align : laddr `mod` 2 ^ (6 * n) = 0;
  se_top : n = LOGWORD o → laddr = 0;
  se_bit : n < LOGWORD o →
    Z.testbit (W o ws n (laddr `div` 2 ^ (6 * (n + 1)))) ((laddr `div` 2 ^ (6 * n)) `mod` 64) = true;
  se_first b : 0 ≤ b < 2 ^ o → member ws b = true →
    before low (laddr `div` 2 ^ (6 * n)) (b `div` 2 ^ (6 * n));
}.

Definition search_result (o : Z) (ws : list Z) (low : bool) (r : Z) : Prop :=
  (r = -1 ∧ ∀ b, 0 ≤ b < 2 ^ o → member ws b = false) ∨
  (0 ≤ r < 2 ^ o ∧ member ws r = true ∧
   ∀ b, 0 ≤ b < 2 ^ o → member ws b = true → before low r b).

Lemma search_step o ws low l laddr :
  order_ok o → stree_inv o ws → 0 ≤ l < LOGWORD o → search_inv o ws low (l + 1) laddr →
  let w := W o ws l (laddr `div` 2 ^ (6 * (l + 1))) in
  w ≠ 0 → search_inv o ws low l (Z.lor laddr (Z.shiftl (pick low w) (6 * l))).
Proof.
  intros Ho Hinv Hl [Hr Ha Ht Hb Hf] w Hw. pose proof (levels_bounds o Ho) as HL.
  set (q := laddr `div` 2 ^ (6 * (l + 1))) in *.
  assert (valid_word o l q) as Hv by (apply valid_word_of; auto with lia).
  destruct (pick_spec low w) as (Hp & Hpb & Hpf); [by eapply si_word|done|].
  destruct (extend_addr laddr (pick low w) l) as (Hdiv & Hmod & Hadd); [lia..|].
  fold q in Hdiv. set (laddr' := Z.lor _ _) in *.
  destruct (bit_in_range o ws l q (pick low w)) as [_ Hlt]; [done..|lia|done|].
  assert (laddr' `div` 2 ^ (6 * (l + 1)) = q) as Hdiv'.
  { rewrite <- div_div_64, Hdiv by lia. rewrite Z.mul_comm, Z.div_add_l by lia.
    rewrite Z.div_small by lia. lia. }
  split.
  - split; [rewrite Hadd; nia|].
    rewrite (Z.div_mod laddr' (2 ^ (6 * l))), Hmod, Hdiv by lia.
    replace o with (6 * l + (o - 6 * l)) by lia. rewrite (Z.pow_add_r _ (6 * l)) by lia. nia.
  - done.
  - lia.
  - intros _. rewrite Hdiv', Hdiv, Z.add_comm, Z.mul_comm, Z.mod_add by lia.
    by rewrite Z.mod_small.
  - intros b Hbr Hbm. specialize (Hf b Hbr Hbm). rewrite Hdiv.
    pose proof (member_up o ws b l Ho Hinv Hbr Hbm Hl) as Hup.
    rewrite <- (div_div_64 b l) in Hf, Hup by lia. fold q in Hf.
    set (qb := b `div` 2 ^ (6 * l)) in *.
    pose proof (Z.div_mod qb 64 ltac:(lia)). pose proof (Z.mod_pos_bound qb 64 ltac:(lia)).
    destruct (decide (qb `div` 64 = q)) as [Heq|Hne].
    + rewrite Heq in Hup. specialize (Hpf (qb `mod` 64) ltac:(lia) Hup).
      unfold before in *. destruct low; lia.
    + unfold before in *. destruct low; lia.
Qed.

Section runs.
Context {S : Type} `{!WordMem S, !WordMemLaws S}.

Lemma stree_lmap_run o l s :
  order_ok o → 0 ≤ l < LOGWORD o → stree_lmap (S:=S) o l s = Ret (loff o l, s).
Proof. intros Ho Hl. unfold stree_lmap. by destruct (geometry o l Ho Hl) as (-> & _). Qed.

Lemma get_word_run o l k s :
  order_ok o → STREE_SIZE o ≤ length (wm_words s) → valid_word o l k →
  get_word (loff o l + k) s = Ret (W o (wm_words s) l k, s).
Proof. intros. apply get_word_ok. by apply valid_index. Qed.

Lemma set_word_run o l k v s :
  order_ok o → STREE_SIZE o ≤ length (wm_words s) → valid_word o l k →
  ∃ s', set_word (loff o l + k) v s = Ret (tt, s') ∧
        wm_words s' = <[Z.to_nat (loff o l + k) := v]> (wm_words s) ∧ wm_frame s s'.
Proof. intros. apply set_word_ok. by apply valid_index. Qed.

Lemma set_bit_run o l q s :
  order_ok o → STREE_SIZE o ≤ length (wm_words s) → 0 ≤ q →
  valid_word o l (q `div` 64) →
  ∃ s', set_bit (loff o l) q s
          = Ret (negb (W o (wm_words s) l (q `div` 64) =? 0), s') ∧
    wm_words s' = <[Z.to_nat (loff o l + q `div` 64) :=
        Z.lor (W o (wm_words s) l (q `div` 64)) (Z.shiftl 1 (q `mod` 64))]> (wm_words s) ∧
    wm_frame s s'.
Proof.
  intros Ho Hlen Hq Hv. unfold set_bit, OR_WORD. rewrite shiftr_6, land_63.
  mrun (get_word_run o l _ s Ho Hlen Hv). rewrite bind_assoc.
  mrun (get_word_run o l _ s Ho Hlen Hv).
  edestruct (set_word_run o l (q `div` 64)) as (s' & Hs & Hw & Hf); [done..|].
  mrun Hs. eauto.
Qed.

Lemma clr_bit_run o l q s :
  order_ok o → STREE_SIZE o ≤ length (wm_words s) → 0 ≤ q →
  valid_word o l (q `div` 64) →
  let w' := Z.land (W o (wm_words s) l (q `div` 64)) (not64 (Z.shiftl 1 (q `mod` 64))) in
  ∃ s', clr_bit (loff o l) q s = Ret (negb (w' =? 0), s') ∧
    wm_words s' = <[Z.to_nat (loff o l + q `div` 64) := w']> (wm_words s) ∧
    wm_frame s s'.
Proof.
  intros Ho Hlen Hq Hv w'. unfold clr_bit, MASK_WORD. rewrite shiftr_6, land_63.
  rewrite bind_assoc. mrun (get_word_run o l _ s Ho Hlen Hv).
  edestruct (set_word_run o l (q `div` 64) w') as (s' & Hs & Hw & Hf); [done..|].
  mrun Hs. assert (STREE_SIZE o ≤ length (wm_words s')) as Hlen'.
  { by rewrite Hw, length_insert. }
  mrun (get_word_run o l _ s' Ho Hlen' Hv).
  rewrite Hw, W_insert, decide_True by done. eauto.
Qed.

(** ** The climbing loops *)

(** What an update of the bit of address [a] at level [l] leaves behind. *)
Definition updated_from (o a l : Z) (w' : Z) (ws ws' : list Z) : Prop :=
  (∀ l' k, valid_word o l' k → l' < l → W o ws' l' k = W o ws l' k) ∧
  (∀ k, valid_word o l k → W o ws' l k =
     if decide (k = a `div` 2 ^ (6 * (l + 1))) then w' else W o ws l k).

Lemma updated_from_next o a l w' w'' ws ws1 ws' :
  updated_from o a (l + 1) w'' ws1 ws' →
  order_ok o → STREE_SIZE o ≤ length ws → valid_word o l (a `div` 2 ^ (6 * (l + 1))) →
  ws1 = <[Z.to_nat (loff o l + a `div` 2 ^ (6 * (l + 1))) := w']> ws →
  updated_from o a l w' ws ws'.
Proof.
  intros [H1 _] Ho Hlen Hv ->. split.
  - intros l' k' Hv' Hlt. rewrite H1 by (done || lia).
    rewrite W_insert, decide_False by (done || lia). done.
  - intros k' Hv'. rewrite H1 by (done || lia). rewrite W_insert by done.
    repeat case_decide; naive_solver.
Qed.

Lemma updated_from_stop o a l w' ws :
  order_ok o → STREE_SIZE o ≤ length ws → valid_word o l (a `div` 2 ^ (6 * (l + 1))) →
  updated_from o a l w' ws (<[Z.to_nat (loff o l + a `div` 2 ^ (6 * (l + 1))) := w']> ws).
Proof.
  intros Ho Hlen Hv. split.
  - intros l' k' Hv' Hlt. by rewrite W_insert, decide_False by (done || lia).
  - intros k' Hv'. rewrite W_insert by done. repeat case_decide; naive_solver.
Qed.

(** When the rewritten word keeps its emptiness, the level above is right. *)
Lemma level_stop o ws l k w' :
  order_ok o → stree_inv_but o (<[Z.to_nat (loff o l + k) := w']> ws) l k →
  STREE_SIZE o ≤ length ws → valid_word o l k →
  (l < LOGWORD o - 1 → summary o ws l k) →
  (w' =? 0) = (W o ws l k =? 0) →
  stree_inv o (<[Z.to_nat (loff o l + k) := w']> ws).
Proof.
  intros Ho Hb Hlen Hv Hsum Heq. eapply stree_inv_restore; [done|]. intros Hl.
  specialize (Hsum ltac:(lia)). unfold summary in *.
  pose proof (valid_word_up o l k Ho Hv ltac:(lia)).
  rewrite !W_insert by done. rewrite decide_False by lia. rewrite decide_True by done.
  by rewrite Heq.
Qed.

Lemma stree_setbit_from_run o a s n l :
  order_ok o → 0 ≤ a < 2 ^ o → 0 ≤ l → n = Z.to_nat (LOGWORD o - l) → l < LOGWORD o →
  stree_inv_but o (wm_words s) (l - 1) (a `div` 2 ^ (6 * l)) →
  (0 < l → W o (wm_words s) (l - 1) (a `div` 2 ^ (6 * l)) ≠ 0) →
  ∃ s', stree_setbit_from n o l a s = Ret (tt, s') ∧ stree_inv o (wm_words s') ∧
    wm_frame s s' ∧
    updated_from o a l
      (Z.lor (W o (wm_words s) l (a `div` 2 ^ (6 * (l + 1))))
             (Z.shiftl 1 ((a `div` 2 ^ (6 * l)) `mod` 64)))
      (wm_words s) (wm_words s').
Proof.
  intros Ho Ha. revert s l. induction n as [|n IH]; intros s l Hl0 Hn Hl Hinv Hnz; [lia|].
  set (q := a `div` 2 ^ (6 * l)) in *. set (k := a `div` 2 ^ (6 * (l + 1))) in *.
  assert (q `div` 64 = k) as Hqk by (by apply div_div_64).
  assert (0 ≤ q) as Hq by (apply Z.div_pos; lia).
  pose proof (Z.mod_pos_bound q 64 ltac:(lia)) as Hm.
  pose proof (valid_word_of o a l Ho Ha ltac:(lia)) as Hv. fold k in Hv. rewrite <- Hqk in Hv.
  pose proof (sb_len _ _ _ _ Hinv) as Hlen.
  destruct (set_bit_run o l q s Ho Hlen Hq Hv) as (s1 & Hrun & Hw1 & Hf1).
  cbn [stree_setbit_from]. mrun (stree_lmap_run o l s Ho ltac:(lia)).
  rewrite bitoff_div by (try lia; by eapply order_addr). fold q. mrun Hrun.
  rewrite Hqk in *. clear Hrun.
  set (w := W o (wm_words s) l k) in *. set (w' := Z.lor w _) in *.
  assert (word64 w) as Hw by (by eapply sb_word).
  assert (stree_inv_but o (wm_words s1) l k) as Hinv1.
  { rewrite Hw1, <- Hqk. apply level_step; rewrite ?Hqk; try done.
    - split; [done|]. by apply level_addr.
    - by apply setbit_word64.
    - intros i Hi. unfold w'. rewrite testbit_setbit by lia. by rewrite (proj2 (Z.eqb_neq i _)).
    - intros Hl1. unfold w'. rewrite testbit_setbit, Z.eqb_refl by lia.
      symmetry. apply negb_true_iff, Z.eqb_neq. auto. }
  assert (w' ≠ 0) as Hw' by (apply setbit_nonzero; lia).
  destruct (Z.eqb_spec w 0) as [Hz|Hz]; cbn [negb].
  - destruct (decide (l + 1 < LOGWORD o)) as [Hlt|Hge].
    + destruct (IH s1 (l + 1)) as (s2 & Hr2 & Hi2 & Hf2 & Hu2); try lia.
      * by rewrite Z.add_simpl_r.
      * intros _. rewrite Z.add_simpl_r. fold k. rewrite Hw1, W_insert by done.
        by rewrite decide_True.
      * exists s2. split_and!; [done|done|by etrans|].
        by eapply updated_from_next.
    + assert (n = O) as -> by lia. exists s1. split_and!; [done| |done|].
      * eapply stree_inv_restore; [done|]. lia.
      * rewrite Hw1. by apply updated_from_stop.
  - exists s1. split_and!; [done| |done|rewrite Hw1; by apply updated_from_stop].
    rewrite Hw1 in *. apply level_stop; try done.
    + intros Hl1. eapply sb_sum; [done..|]. lia.
    + fold w. by rewrite (proj2 (Z.eqb_neq _ _) Hz), (proj2 (Z.eqb_neq _ _) Hw').
Qed.

Lemma stree_clrbit_from_run o a s n l :
  order_ok o → 0 ≤ a < 2 ^ o → 0 ≤ l → n = Z.to_nat (LOGWORD o - l) → l < LOGWORD o →
  stree_inv_but o (wm_words s) (l - 1) (a `div` 2 ^ (6 * l)) →
  (0 < l → W o (wm_words s) (l - 1) (a `div` 2 ^ (6 * l)) = 0) →
  ∃ s', stree_clrbit_from n o l a s = Ret (tt, s') ∧ stree_inv o (wm_words s') ∧
    wm_frame s s' ∧
    updated_from o a l
      (Z.land (W o (wm_words s) l (a `div` 2 ^ (6 * (l + 1))))
              (not64 (Z.shiftl 1 ((a `div` 2 ^ (6 * l)) `mod` 64))))
      (wm_words s) (wm_words s').
Proof.
  intros Ho Ha. revert s l. induction n as [|n IH]; intros s l Hl0 Hn Hl Hinv Hnz; [lia|].
  set (q := a `div` 2 ^ (6 * l)) in *. set (k := a `div` 2 ^ (6 * (l + 1))) in *.
  assert (q `div` 64 = k) as Hqk by (by apply div_div_64).
  assert (0 ≤ q) as Hq by (apply Z.div_pos; lia).
  pose proof (Z.mod_pos_bound q 64 ltac:(lia)) as Hm.
  pose proof (valid_word_of o a l Ho Ha ltac:(lia)) as Hv. fold k in Hv. rewrite <- Hqk in Hv.
  pose proof (sb_len _ _ _ _ Hinv) as Hlen.
  destruct (clr_bit_run o l q s Ho Hlen Hq Hv) as (s1 & Hrun & Hw1 & Hf1).
  cbn [stree_clrbit_from]. mrun (stree_lmap_run o l s Ho ltac:(lia)).
  rewrite bitoff_div by (try lia; by eapply order_addr). fold q. mrun Hrun.
  rewrite Hqk in *. clear Hrun.
  set (w := W o (wm_words s) l k) in *. set (w' := Z.land w _) in *.
  assert (word64 w) as Hw by (by eapply sb_word).
  assert (stree_inv_but o (wm_words s1) l k) as Hinv1.
  { rewrite Hw1, <- Hqk. apply level_step; rewrite ?Hqk; try done.
    - split; [done|]. by apply level_addr.
    - by apply clrbit_word64.
    - intros i Hi. unfold w'. rewrite testbit_clrbit by done. by rewrite (proj2 (Z.eqb_neq i _)).
    - intros Hl1. unfold w'. rewrite testbit_clrbit, Z.eqb_refl by done.
      by rewrite Hnz. }
  destruct (Z.eqb_spec w' 0) as [Hz|Hz]; cbn [negb].
  - destruct (decide (l + 1 < LOGWORD o)) as [Hlt|Hge].
    + destruct (IH s1 (l + 1)) as (s2 & Hr2 & Hi2 & Hf2 & Hu2); try lia.
      * by rewrite Z.add_simpl_r.
      * intros _. rewrite Z.add_simpl_r. fold k. rewrite Hw1, W_insert by done.
        by rewrite decide_True.
      * exists s2. split_and!; [done|done|by etrans|].
        by eapply updated_from_next.
    + assert (n = O) as -> by lia. exists s1. split_and!; [done| |done|].
      * eapply stree_inv_restore; [done|]. lia.
      * rewrite Hw1. by apply updated_from_stop.
  - exists s1. split_and!; [done| |done|rewrite Hw1; by apply updated_from_stop].
    rewrite Hw1 in *. apply level_stop; try done.
    + intros Hl1. eapply sb_sum; [done..|]. lia.
    + fold w. rewrite (proj2 (Z.eqb_neq _ _) Hz). symmetry. apply Z.eqb_neq.
      intros Hw0. apply Hz. unfold w'. rewrite Hw0. done.
Qed.

(** ** The operations against the set of addresses *)

Lemma level0_member o a w' ws ws' b :
  order_ok o → 0 ≤ b < 2 ^ o → updated_from o a 0 w' ws ws' →
  member ws' b = if decide (b `div` 64 = a `div` 64) then Z.testbit w' (b `mod` 64)
                 else member ws b.
Proof.
  intros Ho Hb [_ Hu]. pose proof (levels_bounds o Ho). unfold order_ok in Ho.
  rewrite !(member_W o) by lia. rewrite Hu.
  - change (2 ^ (6 * (0 + 1))) with 64. by case_decide.
  - apply (valid_word_of o b 0); [done..|lia].
Qed.

Lemma div_mod_eq b a : b `div` 64 = a `div` 64 → (b `mod` 64 =? a `mod` 64) = (b =? a).
Proof.
  intros Hd. destruct (Z.eqb_spec b a) as [->|Hne]; [apply Z.eqb_refl|].
  apply Z.eqb_neq. intros Hm. apply Hne.
  rewrite (Z.div_mod b 64), (Z.div_mod a 64) by lia. lia.
Qed.

Lemma stree_setbit_run o a s :
  order_ok o → stree_inv o (wm_words s) → 0 ≤ a < 2 ^ o →
  ∃ s', stree_setbit o a s = Ret (tt, s') ∧ stree_inv o (wm_words s') ∧ wm_frame s s' ∧
    ∀ b, 0 ≤ b < 2 ^ o → member (wm_words s') b = (b =? a) || member (wm_words s) b.
Proof.
  intros Ho Hinv Ha. pose proof (levels_bounds o Ho).
  destruct (stree_setbit_from_run o a s (loop_count o) 0) as (s' & Hr & Hi & Hf & Hu);
    try done; try lia.
  { rewrite loop_count_levels by done. f_equal. lia. }
  { by apply stree_inv_weaken. }
  exists s'. split_and!; [done..|]. intros b Hb.
  rewrite (level0_member o a _ _ _ b Ho Hb Hu).
  change (2 ^ (6 * (0 + 1))) with 64. change (2 ^ (6 * 0)) with 1. rewrite Z.div_1_r.
  case_decide as Hd.
  - rewrite testbit_setbit by (apply Z.mod_pos_bound; lia).
    rewrite div_mod_eq, (member_W o) by (done || unfold order_ok in Ho; lia). by rewrite Hd.
  - destruct (Z.eqb_spec b a) as [->|]; done.
Qed.

Lemma stree_clrbit_run o a s :
  order_ok o → stree_inv o (wm_words s) → 0 ≤ a < 2 ^ o →
  ∃ s', stree_clrbit o a s = Ret (tt, s') ∧ stree_inv o (wm_words s') ∧ wm_frame s s' ∧
    ∀ b, 0 ≤ b < 2 ^ o → member (wm_words s') b = negb (b =? a) && member (wm_words s) b.
Proof.
  intros Ho Hinv Ha. pose proof (levels_bounds o Ho).
  destruct (stree_clrbit_from_run o a s (loop_count o) 0) as (s' & Hr & Hi & Hf & Hu);
    try done; try lia.
  { rewrite loop_count_levels by done. f_equal. lia. }
  { by apply stree_inv_weaken. }
  exists s'. split_and!; [done..|]. intros b Hb.
  rewrite (level0_member o a _ _ _ b Ho Hb Hu).
  change (2 ^ (6 * (0 + 1))) with 64. change (2 ^ (6 * 0)) with 1. rewrite Z.div_1_r.
  case_decide as Hd.
  - rewrite testbit_clrbit.
    + rewrite div_mod_eq, (member_W o) by (done || unfold order_ok in Ho; lia). by rewrite Hd.
    + eapply si_word; [done|]. apply (valid_word_of o a 0); [done..|lia].
    + apply Z.mod_pos_bound; lia.
  - destruct (Z.eqb_spec b a) as [->|]; done.
Qed.

Lemma stree_getbit_run o a s :
  order_ok o → stree_inv o (wm_words s) → 0 ≤ a < 2 ^ o →
  stree_getbit o a s = Ret (member (wm_words s) a, s).
Proof.
  intros Ho Hinv Ha. pose proof (levels_bounds o Ho). unfold stree_getbit.
  mrun (stree_lmap_run o 0 s Ho ltac:(lia)).
  rewrite bitoff_div by (try lia; by eapply order_addr).
  change (2 ^ (6 * 0)) with 1. rewrite Z.div_1_r.
  unfold get_bit. rewrite shiftr_6, land_63.
  pose proof (valid_word_of o a 0 Ho Ha ltac:(lia)) as Hv.
  change (2 ^ (6 * (0 + 1))) with 64 in Hv.
  mrun (get_word_run o 0 _ s Ho (si_len _ _ Hinv) Hv).
  rewrite (member_W o) by (unfold order_ok in Ho; lia).
  unfold mret, M_ret. do 2 f_equal.
  pose proof (Z.mod_pos_bound a 64 ltac:(lia)).
  destruct (Z.testbit _ _) eqn:E.
  - apply negb_true_iff, Z.eqb_neq, (bit_nonzero _ (a `mod` 64)).
    by rewrite Z.land_spec, E, testbit_one_shl, Z.eqb_refl by lia.
  - apply negb_false_iff, Z.eqb_eq. apply Z.bits_inj'. intros i Hi.
    rewrite Z.land_spec, testbit_one_shl, Z.testbit_0_l by lia.
    destruct (Z.eqb_spec i (a `mod` 64)) as [->|]; [by rewrite E|by rewrite andb_false_r].
Qed.


(** ** Searching the tree *)

Lemma search_inv_start o ws low : order_ok o → search_inv o ws low (LOGWORD o) 0.
Proof.
  intros Ho. pose proof (levels_bounds o Ho). split; try lia.
  - by rewrite Z.mod_0_l by lia.
  - intros b Hb _. rewrite Z.div_0_l by lia.
    rewrite Z.div_small; [unfold before; destruct low; lia|].
    split; [lia|]. eapply Z.lt_le_trans; [apply Hb|]. apply Z.pow_le_mono_r; lia.
Qed.

Lemma stree_bitsearch_from_run o low s (n : nat) laddr :
  order_ok o → stree_inv o (wm_words s) → n ≤ LOGWORD o →
  search_inv o (wm_words s) low n laddr →
  ∃ r, stree_bitsearch_from n o low laddr s = Ret (r, s) ∧
       search_result o (wm_words s) low r.
Proof.
  intros Ho Hinv. revert laddr. pose proof (levels_bounds o Ho) as HL.
  induction n as [|n IH]; intros laddr Hn Hse.
  { exists laddr. split; [done|]. right. destruct Hse as [Hr Ha Ht Hb Hf].
    split_and!; try lia.
    - specialize (Hb ltac:(lia)). rewrite (member_W o) by (unfold order_ok in Ho; lia).
      change (2 ^ (6 * 0%nat)) with 1 in Hb. by rewrite Z.div_1_r in Hb.
    - intros b Hbr Hbm. specialize (Hf b Hbr Hbm).
      change (2 ^ (6 * 0%nat)) with 1 in Hf. by rewrite !Z.div_1_r in Hf. }
  rewrite Nat2Z.inj_succ in *. unfold Z.succ in *.
  pose proof (se_range _ _ _ _ _ Hse) as Hr.
  assert (valid_word o n (laddr `div` 2 ^ (6 * (n + 1)))) as Hv by (apply valid_word_of; auto with lia).
  cbn [stree_bitsearch_from]. mrun (stree_lmap_run o n s Ho ltac:(lia)).
  rewrite bitoff_div by (try lia; by eapply order_addr).
  rewrite shiftr_6, div_div_64 by lia.
  mrun (get_word_run o n _ s Ho (si_len _ _ Hinv) Hv).
  destruct (Z.eqb_spec (W o (wm_words s) n (laddr `div` 2 ^ (6 * (n + 1)))) 0) as [Hz|Hz].
  - assert (n + 1 = LOGWORD o) as Htop.
    { destruct (decide (n + 1 < LOGWORD o)) as [Hlt|]; [|lia]. exfalso.
      pose proof (se_bit _ _ _ _ _ Hse Hlt) as Hb.
      rewrite <- (div_div_64 laddr (n + 1)) in Hb by lia.
      rewrite (si_sum _ _ Hinv n) in Hb by (done || lia). by rewrite Hz in Hb. }
    exists (-1). rewrite bind_assert.
    2:{ apply Z.eqb_eq. rewrite u32_small; unfold word32; lia. }
    split; [done|]. left. split; [done|]. intros b Hb.
    destruct (member (wm_words s) b) eqn:Hm; [|done]. exfalso.
    pose proof (member_up o _ b n Ho Hinv Hb Hm ltac:(lia)) as Hup.
    rewrite (se_top _ _ _ _ _ Hse Htop), Z.div_0_l in Hz by lia.
    rewrite Z.div_small in Hup.
    + rewrite Hz in Hup. by rewrite Z.testbit_0_l in Hup.
    + split; [lia|]. eapply Z.lt_le_trans; [apply Hb|]. apply Z.pow_le_mono_r; lia.
  - fold (pick low (W o (wm_words s) n (laddr `div` 2 ^ (6 * (n + 1))))).
    destruct (pick_spec low (W o (wm_words s) n (laddr `div` 2 ^ (6 * (n + 1)))))
      as (Hp & Hpb & _); [by eapply si_word|done|].
    pose proof (search_step o _ low n laddr Ho Hinv ltac:(lia) Hse Hz) as Hse'.
    cbn zeta in Hse'. unfold WORDLOG2. rewrite (Z.mul_comm n 6).
    unfold shl_u32. replace ((0 <=? 6 * n) && (6 * n <? 32)) with true by lia.
    rewrite u32_small; [mrun; apply IH; [lia|done]|].
    destruct (bit_in_range o _ n _ _ Ho Hinv Hv (proj1 Hp) Hpb) as [_ Hlt].
    rewrite Z.shiftl_mul_pow2 by lia. unfold order_ok in Ho. split; [nia|].
    assert (pick low (W o (wm_words s) n (laddr `div` 2 ^ (6 * (n + 1)))) * 2 ^ (6 * n)
            < 2 ^ (o - 6 * n) * 2 ^ (6 * n)) as Hlt2.
    { apply Z.mul_lt_mono_pos_r; [lia|]. destruct Hv. lia. }
    rewrite <- Z.pow_add_r in Hlt2 by lia. eapply Z.lt_trans; [apply Hlt2|].
    apply Z.pow_lt_mono_r; lia.
Qed.

Lemma stree_bitsearch_run o low s :
  order_ok o → stree_inv o (wm_words s) →
  ∃ r, stree_bitsearch o low s = Ret (r, s) ∧ search_result o (wm_words s) low r.
Proof.
  intros Ho Hinv. pose proof (levels_bounds o Ho). unfold stree_bitsearch.
  rewrite search_count_levels by done. apply stree_bitsearch_from_run; try done; [lia|].
  rewrite Z2Nat.id by lia. by apply search_inv_start.
Qed.
End runs.

(** * Refinement of a finite set *)

(** The tree [ws] of order [o] holds the set [X]. *)
Definition represents (o : Z) (ws : list Z) (X : gset Z) : Prop :=
  stree_inv o ws ∧ ∀ a, a ∈ X ↔ (0 ≤ a < 2 ^ o ∧ member ws a = true).

#[global] Instance array_mem_laws : WordMemLaws (list Z).
Proof.
  split.
  - split; [by intros ?|intros ??? H1 H2; cbn in *; congruence].
  - intros s i Hi. cbn in *. replace ((0 <=? i) && (i <? length s)) with true by lia. done.
  - intros s i v Hi. cbn in *. replace ((0 <=? i) && (i <? length s)) with true by lia.
    eexists. split_and!; [done..|]. apply length_insert.
Qed.

Lemma size_count (X : gset Z) (p : Z → bool) (n : nat) :
  (∀ a, a ∈ X ↔ (0 ≤ a < n ∧ p a = true)) → Z.of_nat (size X) = count_below p n.
Proof.
  revert X. induction n as [|n IH]; intros X HX.
  - assert (X = ∅) as ->; [|by rewrite size_empty].
    apply set_eq. intros a. rewrite HX, elem_of_empty. lia.
  - simpl. destruct (p n) eqn:E; cbn [Z.b2z].
    + assert (X = {[Z.of_nat n]} ∪ (X ∖ {[Z.of_nat n]})) as ->.
      { apply union_difference_L. apply singleton_subseteq_l, HX. split; [lia|done]. }
      rewrite size_union by set_solver. rewrite size_singleton, Nat2Z.inj_add.
      rewrite (IH (X ∖ {[Z.of_nat n]})); [lia|]. intros a.
      rewrite elem_of_difference, elem_of_singleton, HX.
      split; [intros [[? ?] ?]|intros [? ?]]; repeat split; done || lia.
    + rewrite (IH X); [lia|]. intros a. rewrite HX. split; intros [? Hp]; split; try done; [|lia].
      destruct (decide (a = n)) as [->|]; [congruence|lia].
Qed.

Lemma represents_empty o ws X :
  represents o ws X → (∀ b, 0 ≤ b < 2 ^ o → member ws b = false) ↔ X = ∅.
Proof.
  intros [_ HX]. split.
  - intros Hn. apply set_eq. intros a. split; [|set_solver]. intros [Ha Hm]%HX.
    by rewrite Hn in Hm.
  - intros -> b Hb. destruct (member ws b) eqn:E; [|done].
    by destruct (not_elem_of_empty (C:=gset Z) b (proj2 (HX b) (conj Hb E))).
Qed.

Section refine.
Context {S : Type} `{!WordMem S, !WordMemLaws S}.

Lemma stree_setbit_refines o a s X :
  order_ok o → represents o (wm_words s) X → 0 ≤ a < 2 ^ o →
  ∃ s', stree_setbit o a s = Ret (tt, s') ∧
        represents o (wm_words s') ({[a]} ∪ X) ∧ wm_frame s s'.
Proof.
  intros Ho [Hinv HX] Ha. destruct (stree_setbit_run o a s Ho Hinv Ha) as (s' & Hr & Hi & Hf & Hm).
  exists s'. split_and!; [done| |done]. split; [done|]. intros b.
  rewrite elem_of_union, elem_of_singleton, HX. split.
  - intros [->|[Hb Hbm]].
    + split; [done|]. by rewrite Hm, Z.eqb_refl.
    + split; [done|]. by rewrite Hm, Hbm, orb_true_r.
  - intros [Hb Hbm]. rewrite Hm in Hbm by done.
    apply orb_true_iff in Hbm as [->%Z.eqb_eq|]; auto.
Qed.

Lemma stree_clrbit_refines o a s X :
  order_ok o → represents o (wm_words s) X → 0 ≤ a < 2 ^ o →
  ∃ s', stree_clrbit o a s = Ret (tt, s') ∧
        represents o (wm_words s') (X ∖ {[a]}) ∧ wm_frame s s'.
Proof.
  intros Ho [Hinv HX] Ha. destruct (stree_clrbit_run o a s Ho Hinv Ha) as (s' & Hr & Hi & Hf & Hm).
  exists s'. split_and!; [done| |done]. split; [done|]. intros b.
  rewrite elem_of_difference, elem_of_singleton, HX. split.
  - intros [[Hb Hbm] Hne]. split; [done|]. rewrite Hm, Hbm by done.
    by rewrite (proj2 (Z.eqb_neq b a)).
  - intros [Hb Hbm]. rewrite Hm in Hbm by done.
    apply andb_true_iff in Hbm as [Hne ?]. apply negb_true_iff, Z.eqb_neq in Hne. auto.
Qed.

Lemma stree_getbit_refines o a s X :
  order_ok o → represents o (wm_words s) X → 0 ≤ a < 2 ^ o →
  stree_getbit o a s = Ret (bool_decide (a ∈ X), s).
Proof.
  intros Ho [Hinv HX] Ha. rewrite (stree_getbit_run o a s Ho Hinv Ha). do 2 f_equal.
  symmetry. destruct (member _ a) eqn:E.
  - apply bool_decide_eq_true. by apply HX.
  - apply bool_decide_eq_false. intros [_ Hm]%HX. congruence.
Qed.

Lemma stree_bitsearch_refines o low s X :
  order_ok o → represents o (wm_words s) X →
  ∃ r, stree_bitsearch o low s = Ret (r, s) ∧
    ((r = -1 ∧ X = ∅) ∨ (r ∈ X ∧ ∀ b, b ∈ X → before low r b)).
Proof.
  intros Ho HR. destruct (stree_bitsearch_run o low s Ho (proj1 HR)) as (r & Hr & Hres).
  exists r. split; [done|]. destruct Hres as [[-> Hno]|(Hrr & Hm & Hf)].
  - left. split; [done|]. by apply (represents_empty o (wm_words s)).
  - right. destruct HR as [_ HX]. split; [by apply HX|].
    intros b [Hb Hbm]%HX. by apply Hf.
Qed.

End refine.

(** ** Counting *)

Lemma stree_count_from_run ws (n : nat) j size :
  (∀ k, j ≤ k < j + n → 0 ≤ k < length ws ∧ word64 (ws !!! Z.to_nat k)) →
  0 ≤ j → size = count_below (member ws) (Z.to_nat (64 * j)) → 64 * (j + n) < 2 ^ 64 →
  stree_count_from n 0 (64 * j) size ws
    = Ret (count_below (member ws) (Z.to_nat (64 * (j + n))), ws).
Proof.
  revert j size. induction n as [|n IH]; intros j size Hw Hj -> Hlt.
  - rewrite Z.add_0_r. done.
  - destruct (Hw j ltac:(lia)) as [Hjl Hjw]. cbn [stree_count_from].
    rewrite Z.add_0_l, shiftr_6, Z.mul_comm, Z.div_mul, (Z.mul_comm j 64) by lia.
    mrun (get_word_ok ws j Hjl).
    replace (64 * j + 64) with (64 * (j + 1)) by lia.
    pose proof (popcount_count 64 (ws !!! Z.to_nat j) Hjw) as Hpc.
    assert (count_below (member ws) (Z.to_nat (64 * j)) + popcount (ws !!! Z.to_nat j)
            = count_below (member ws) (Z.to_nat (64 * (j + 1)))) as Hadd.
    { replace (Z.to_nat (64 * (j + 1))) with (Z.to_nat (64 * j) + 64)%nat by lia.
      rewrite count_below_add, Hpc. f_equal. apply count_below_ext. intros i Hi.
      unfold member. rewrite Z2Nat.id by lia.
      replace ((64 * j + i) `div` 64) with j by (Z.div_mod_to_equations; lia).
      f_equal. Z.div_mod_to_equations; lia. }
    rewrite u64_small.
    + rewrite (IH (j + 1)); [do 4 f_equal; lia| |lia|done|lia].
      intros k Hk. apply Hw. lia.
    + cbn [wm_words array_mem]. rewrite Hadd. pose proof (count_below_bounds (member ws) (Z.to_nat (64 * (j + 1)))).
      split; lia.
Qed.

Lemma member_past_end o ws a :
  order_ok o → stree_inv o ws → 2 ^ o ≤ a < 64 * lsize o 0 → member ws a = false.
Proof.
  intros Ho Hinv Ha. pose proof (levels_bounds o Ho). unfold lsize in Ha.
  destruct (decide (6 ≤ o)) as [H6|H6].
  - rewrite Z.max_r in Ha by lia. change 64 with (2 ^ 6) in Ha.
    rewrite <- Z.pow_add_r in Ha by lia. replace (6 + (o - 6 * (0 + 1))) with o in Ha by lia. lia.
  - rewrite Z.max_l in Ha by lia. assert (LOGWORD o = 1) as HL by lia.
    pose proof (si_top _ _ Hinv a) as Ht. rewrite HL in Ht.
    rewrite (member_W o) by lia. rewrite Z.div_small, Z.mod_small by lia.
    apply Ht. replace (o - 6 * (1 - 1)) with o by lia. lia.
Qed.

Lemma ceil_div_words o : order_ok o → CEIL_DIV (Z.shiftl 1 o) 64 = lsize o 0.
Proof.
  intros Ho. unfold CEIL_DIV, lsize, order_ok in *. rewrite Z.shiftl_1_l.
  destruct (decide (6 ≤ o)) as [H6|H6].
  - rewrite Z.max_r by lia. replace o with (6 + (o - 6)) at 1 by lia.
    rewrite Z.pow_add_r by lia. replace (o - 6 * (0 + 1)) with (o - 6) by lia.
    change (2 ^ 6) with 64. Z.div_mod_to_equations; lia.
  - rewrite Z.max_l by lia. assert (1 ≤ 2 ^ o ≤ 2 ^ 5).
    { split; [lia|]. apply Z.pow_le_mono_r; lia. }
    change (2 ^ 0) with 1. Z.div_mod_to_equations; lia.
Qed.

Lemma stree_count_refines o ws X :
  order_ok o → represents o ws X → stree_count o ws = Ret (Z.of_nat (size X), ws).
Proof.
  intros Ho [Hinv HX]. pose proof (levels_bounds o Ho). unfold stree_count.
  mrun (stree_lmap_run o 0 ws Ho ltac:(lia)).
  assert (loff o 0 = 0) as ->. { unfold loff. by rewrite Z.mul_0_r, Z.sub_0_r, Z.sub_diag. }
  rewrite ceil_div_words by done. pose proof (lsize_pos o 0).
  rewrite (stree_count_from_run ws _ 0); [| |lia|done|].
  - rewrite Z2Nat.id, Z.add_0_l by lia. do 2 f_equal.
    rewrite (size_count X (member ws) (Z.to_nat (64 * lsize o 0))); [done|].
    intros a. rewrite HX. rewrite Z2Nat.id by lia.
    assert (2 ^ o ≤ 64 * lsize o 0).
    { unfold lsize. change 64 with (2 ^ 6). rewrite <- Z.pow_add_r by lia.
      apply Z.pow_le_mono_r; lia. }
    split; intros [Ha Hm]; (split; [|done]); [lia|].
    destruct (decide (a < 2 ^ o)); [lia|].
    rewrite (member_past_end o) in Hm by (done || lia). done.
  - intros k Hk. rewrite Z2Nat.id in Hk by lia.
    assert (valid_word o 0 k) as Hv by (split; lia).
    pose proof (valid_index o 0 k ws Ho (si_len _ _ Hinv) Hv).
    pose proof (si_word _ _ Hinv 0 k Hv) as Hw. rewrite W_level0 in Hw by (unfold order_ok in Ho; lia).
    split; [|done]. assert (loff o 0 = 0). { unfold loff. by rewrite Z.mul_0_r, Z.sub_0_r, Z.sub_diag. } lia.
  - rewrite Z2Nat.id by lia. unfold lsize, order_ok in *.
    assert (2 ^ Z.max 0 (o - 6 * (0 + 1)) ≤ 2 ^ 25) by (apply Z.pow_le_mono_r; lia). lia.
Qed.

(** ** The empty tree and [stree_order] *)

Lemma top_word_valid o : order_ok o → valid_word o (LOGWORD o - 1) 0.
Proof.
  intros Ho. pose proof (levels_bounds o Ho). pose proof (lsize_pos o (LOGWORD o - 1)).
  split; lia.
Qed.

Lemma zero_tree_W o ws l k :
  order_ok o → STREE_SIZE o ≤ length ws → Forall (λ w, w = 0) ws → valid_word o l k →
  W o ws l k = 0.
Proof.
  intros Ho Hlen Hz Hv. pose proof (valid_index o l k ws Ho Hlen Hv).
  unfold W. rewrite Forall_lookup in Hz.
  apply (Hz (Z.to_nat (loff o l + k))), lookup_lt_total. lia.
Qed.

Lemma zero_tree_represents o ws :
  order_ok o → STREE_SIZE o ≤ length ws → Forall (λ w, w = 0) ws → represents o ws ∅.
Proof.
  intros Ho Hlen Hz. pose proof (levels_bounds o Ho). split.
  - split; [done|..].
    + intros. rewrite zero_tree_W by done. unfold word64; lia.
    + intros. rewrite zero_tree_W by eauto using top_word_valid. apply Z.testbit_0_l.
    + intros. unfold summary. rewrite !zero_tree_W by eauto using valid_word_up.
      by rewrite Z.testbit_0_l.
  - intros a. rewrite elem_of_empty. split; [done|]. intros [Ha Hm].
    rewrite (member_W o), zero_tree_W, Z.testbit_0_l in Hm; try done.
    + apply (valid_word_of o a 0); [done..|lia].
    + unfold order_ok in Ho; lia.
Qed.

(** [2 ^ stree_order n] addresses are enough for [n] objects, and half of
    them are not. *)
Lemma popcount_one x : 0 < x → popcount x = 1 → x = 2 ^ Z.log2 x.
Proof.
  destruct x as [|p|p]; try lia. intros _. cbn [popcount].
  induction p as [p IH|p IH|]; cbn [pos_popcount]; intros Hp; [| |done].
  - assert (0 < pos_popcount p); [|lia]. clear. induction p; simpl; lia.
  - specialize (IH Hp). rewrite Pos2Z.inj_xO. rewrite Z.log2_double by lia.
    rewrite Z.pow_succ_r by apply Z.log2_nonneg. lia.
Qed.

Lemma popcount_pos x : 0 < x → 0 < popcount x.
Proof. destruct x as [|p|p]; try lia. intros _. cbn. induction p; simpl; lia. Qed.

Lemma popcount_pow2 n : 0 ≤ n → popcount (2 ^ n) = 1.
Proof.
  intros Hn. pattern n. apply natlike_ind; [done| |done]. intros m Hm IH.
  rewrite Z.pow_succ_r by done. rewrite <- (Z.add_0_r (2 * 2 ^ m)).
  change 0 with (Z.b2z false). rewrite popcount_double by lia. simpl. lia.
Qed.

Lemma stree_order_up n : 0 < n < 2 ^ 32 → stree_order n = Some (Z.log2_up n).
Proof.
  intros Hn. unfold stree_order. rewrite (proj2 (Z.eqb_neq n 0)) by lia.
  rewrite u32_small by (unfold word32; lia). unfold clz64. f_equal.
  replace (64 - 1 - (63 - Z.log2 n)) with (Z.log2 n) by lia.
  pose proof (popcount_pos n ltac:(lia)). pose proof (Z.log2_nonneg n).
  destruct (Z.ltb_spec 1 (popcount n)) as [Hp|Hp].
  - destruct (Z.le_gt_cases (Z.log2_up n) (Z.log2 n)) as [Hle|Hgt].
    + exfalso. pose proof (Z.log2_spec n ltac:(lia)) as [Hlo _].
      assert (n ≤ 2 ^ Z.log2 n).
      { destruct (decide (n = 1)) as [->|]; [done|].
        pose proof (Z.log2_up_spec n ltac:(lia)) as [_ Hup].
        etrans; [apply Hup|]. apply Z.pow_le_mono_r; lia. }
      assert (n = 2 ^ Z.log2 n) as Heq by lia. rewrite Heq, popcount_pow2 in Hp by done. lia.
    + pose proof (Z.le_log2_up_succ_log2 n). lia.
  - rewrite (popcount_one n) at 2 by lia. rewrite Z.log2_up_pow2 by done. lia.
Qed.

(** ** Filling the tree *)

Lemma memset_words_run p v (n : nat) : ∀ j (ws : list Z),
  0 ≤ p + j → p + j + n ≤ length ws →
  ∃ ws', for_each (seqZ j n) (λ i, set_word (p + i) v) ws = Ret (tt, ws') ∧
    length ws' = length ws ∧
    ∀ i : Z, 0 ≤ i → ws' !!! Z.to_nat i =
      if bool_decide (p + j ≤ i < p + j + n) then v else ws !!! Z.to_nat i.
Proof.
  induction n as [|n IH]; intros j ws Hj Hlen.
  - exists ws. split_and!; [done..|]. intros i Hi. by rewrite bool_decide_eq_false_2 by lia.
  - rewrite seqZ_cons by lia. cbn [for_each].
    destruct (set_word_ok ws (p + j) v) as (ws1 & Hrun & Hw & _); [cbn; lia|]. cbn in Hw.
    mrun Hrun. replace (Z.pred (S n)) with (Z.of_nat n) by lia.
    destruct (IH (Z.succ j) ws1) as (ws2 & Hr2 & Hl2 & Hi2);
      [lia|rewrite Hw, length_insert; lia|].
    exists ws2. split_and!; [done|by rewrite Hl2, Hw, length_insert|].
    intros i Hi. rewrite Hi2 by done. rewrite Hw, list_insert_lookup_total by lia.
    repeat case_bool_decide; try lia; repeat case_decide; try done; lia.
Qed.

(** Word [k] of a level whose bits [0 .. m] are set. *)
Definition fill_word (m k : Z) : Z :=
  if k <? m `div` 64 then 2 ^ 64 - 1
  else if k =? m `div` 64 then 2 ^ (m `mod` 64 + 1) - 1 else 0.

Lemma fill_word_bit m k i :
  0 ≤ m → 0 ≤ k → 0 ≤ i →
  Z.testbit (fill_word m k) i = bool_decide (i < 64 ∧ 64 * k + i ≤ m).
Proof.
  intros Hm Hk Hi. unfold fill_word. pose proof (Z.div_mod m 64). pose proof (Z.mod_pos_bound m 64).
  assert (∀ n, 2 ^ n - 1 = Z.ones n) as Hones by (intros; rewrite Z.ones_equiv; lia).
  rewrite !Hones. destruct (Z.ltb_spec k (m `div` 64)); [|destruct (Z.eqb_spec k (m `div` 64))];
    rewrite ?Z.testbit_ones_nonneg, ?Z.testbit_0_l by lia; symmetry.
  - case_bool_decide; destruct (Z.ltb_spec i 64); try done; lia.
  - case_bool_decide; destruct (Z.ltb_spec i (m `mod` 64 + 1)); try done; lia.
  - apply bool_decide_eq_false. lia.
Qed.

Lemma fill_word_word64 m k : 0 ≤ m → word64 (fill_word m k).
Proof.
  intros Hm. unfold fill_word, word64. pose proof (Z.mod_pos_bound m 64).
  repeat case_bool; [lia| |lia]. split; [lia|].
  assert (2 ^ (m `mod` 64 + 1) ≤ 2 ^ 64) by (apply Z.pow_le_mono_r; lia). lia.
Qed.

Definition filled (o : Z) (ws : list Z) (max l : Z) : Prop :=
  ∀ k, valid_word o l k → W o ws l k = fill_word (max `div` 2 ^ (6 * l)) k.

Lemma stree_setall_level_run o max l ws :
  order_ok o → 0 ≤ max < 2 ^ o → 0 ≤ l < LOGWORD o → STREE_SIZE o ≤ length ws →
  (∀ k, valid_word o l k → W o ws l k = 0) →
  ∃ ws', stree_setall_level o max l ws = Ret (tt, ws') ∧ length ws' = length ws ∧
    filled o ws' max l ∧
    ∀ l' k, valid_word o l' k → l' ≠ l → W o ws' l' k = W o ws l' k.
Proof.
  intros Ho Hmax Hl Hlen Hzero. pose proof (levels_bounds o Ho) as HL.
  pose proof (valid_word_of o max l Ho Hmax Hl) as Hv.
  pose proof (valid_index o l _ ws Ho Hlen Hv) as Hidx.
  unfold stree_setall_level. mrun (stree_lmap_run o l ws Ho Hl).
  rewrite bitoff_div by (try lia; by eapply order_addr).
  rewrite shiftr_6, land_63. set (m := max `div` 2 ^ (6 * l)).
  assert (m `div` 64 = max `div` 2 ^ (6 * (l + 1))) as Hm by (apply div_div_64; lia).
  assert (0 ≤ m) by (apply Z.div_pos; lia).
  rewrite <- Hm in Hv, Hidx. set (size := m `div` 64) in *. pose proof (Z.mod_pos_bound m 64 ltac:(lia)).
  assert (0 ≤ loff o l) by (by destruct (geometry o l Ho Hl) as (_ & ? & _)).
  assert (0 ≤ size) by (destruct Hv; lia).
  destruct (memset_words_run (loff o l) (2 ^ 64 - 1) (Z.to_nat size) 0 ws) as (ws1 & Hr1 & Hl1 & Hi1);
    [lia..|]. rewrite Z2Nat.id in Hr1, Hi1 by lia. mrun Hr1.
  set (v := if m `mod` 64 =? WORDSIZE - 1 then _ else _).
  assert (v = 2 ^ (m `mod` 64 + 1) - 1) as Hveq.
  { unfold v, WORDSIZE. destruct (Z.eqb_spec (m `mod` 64) (64 - 1)) as [->|Hne]; [done|].
    rewrite Z.shiftl_1_l. apply u64_small. split; [lia|].
    assert (2 ^ (m `mod` 64 + 1) ≤ 2 ^ 64) by (apply Z.pow_le_mono_r; lia). lia. }
  destruct (set_word_ok ws1 (loff o l + size) v) as (ws2 & Hr2 & Hw2 & _); [cbn; lia|].
  cbn in Hw2. exists ws2. split_and!; [by rewrite Hr2|by rewrite Hw2, length_insert| |].
  - intros k Hk. pose proof (valid_index o l k ws Ho Hlen Hk). rewrite Hw2.
    rewrite W_insert by (done || lia). fold m. unfold fill_word. fold size.
    case_decide as Hd.
    + destruct Hd as [_ <-]. rewrite Z.ltb_irrefl, Z.eqb_refl. done.
    + unfold W. rewrite Hi1 by lia. destruct Hk as [_ Hk].
      case_bool_decide; destruct (Z.ltb_spec k size); try lia.
      destruct (Z.eqb_spec k size); [lia|]. by apply Hzero.
  - intros l' k Hk Hne. pose proof (valid_index o l' k ws Ho Hlen Hk). rewrite Hw2.
    rewrite W_insert, decide_False by (done || lia). unfold W. rewrite Hi1 by lia.
    rewrite bool_decide_eq_false_2; [done|]. intros Hr. destruct Hv as [_ Hv].
    destruct (valid_index_inj o l' k l (loff o l' + k - loff o l)) as [? _]; [done..| |lia|done].
    split; lia.
Qed.

Lemma stree_setall_loop o max ws :
  order_ok o → 0 ≤ max < 2 ^ o → STREE_SIZE o ≤ length ws → Forall (λ w, w = 0) ws →
  ∃ ws', stree_setall o max ws = Ret (tt, ws') ∧ length ws' = length ws ∧
    ∀ l, 0 ≤ l < LOGWORD o → filled o ws' max l.
Proof.
  intros Ho Hmax Hlen Hz. pose proof (levels_bounds o Ho) as HL. unfold stree_setall.
  set (I := λ (done : list Z) (s : list Z), length s = length ws ∧
    (∀ l, l ∈ done → filled o s max l) ∧
    (∀ l k, l ∉ done → valid_word o l k → W o s l k = 0)).
  replace (s32 (LOGWORD o - 1) + 1) with (LOGWORD o)
    by (unfold s32; rewrite u32_small by (unfold word32; lia); case_bool; lia).
  destruct (for_each_inv (reverse (seqZ 0 (LOGWORD o))) (stree_setall_level o max) I ws)
    as (ws' & Hr & Hl & Hf & _).
  - split_and!; [done|set_solver|]. intros l k _ Hv. by apply zero_tree_W.
  - intros dn l rest s Heq (Hls & Hdone & Hrest).
    assert (NoDup (reverse (seqZ 0 (LOGWORD o)))) as Hnd by (rewrite reverse_Permutation; apply NoDup_seqZ).
    assert (l ∉ dn) as Hnl. { rewrite Heq in Hnd. apply NoDup_app in Hnd. set_solver. }
    assert (l ∈ reverse (seqZ 0 (LOGWORD o))) as Hin by (rewrite Heq; set_solver).
    apply elem_of_reverse, elem_of_seqZ in Hin.
    destruct (stree_setall_level_run o max l s) as (s' & Hr & Hl' & Hfl & Hoth); [done..|lia|lia| |].
    { intros k Hv. by apply Hrest. }
    exists s'. split; [done|]. unfold I. split_and!; [congruence| |].
    + intros l' Hl1 k Hv. apply elem_of_app in Hl1 as [Hl1|Hl1%list_elem_of_singleton];
        [|subst; by apply Hfl].
      rewrite Hoth; [by apply Hdone|done|]. intros ->. done.
    + intros l' k Hl1 Hv. rewrite Hoth; [|done|set_solver]. apply Hrest; [set_solver|done].
  - exists ws'. split_and!; [done..|]. intros l Hlr. apply Hf, elem_of_reverse, elem_of_seqZ. lia.
Qed.

Lemma fill_word_nonzero m k : 0 ≤ m → 0 ≤ k → fill_word m k ≠ 0 ↔ k ≤ m `div` 64.
Proof.
  intros Hm Hk. unfold fill_word. pose proof (Z.mod_pos_bound m 64 ltac:(lia)).
  destruct (Z.ltb_spec k (m `div` 64)); [lia|]. destruct (Z.eqb_spec k (m `div` 64)); [|lia].
  assert (2 ^ 1 ≤ 2 ^ (m `mod` 64 + 1)) by (apply Z.pow_le_mono_r; lia). lia.
Qed.

Lemma stree_setall_refines o max ws :
  order_ok o → 0 ≤ max < 2 ^ o → STREE_SIZE o ≤ length ws → Forall (λ w, w = 0) ws →
  ∃ ws', stree_setall o max ws = Ret (tt, ws') ∧
    represents o ws' (list_to_set (seqZ 0 (max + 1))).
Proof.
  intros Ho Hmax Hlen Hz. destruct (stree_setall_loop o max ws) as (ws' & Hr & Hl & Hf); [done..|].
  pose proof (levels_bounds o Ho) as HL.
  assert (∀ l, 0 ≤ l → 0 ≤ max `div` 2 ^ (6 * l)) by (intros; apply Z.div_pos; lia).
  exists ws'. split; [done|]. split; [split|].
  - lia.
  - intros l k [? ?]. rewrite Hf by (done || lia). apply fill_word_word64. auto with lia.
  - intros i Hi. assert (0 ≤ i) by lia.
    rewrite Hf by (try apply top_word_valid; done || lia).
    rewrite fill_word_bit by auto with lia. apply bool_decide_eq_false. intros [_ Hle].
    assert (max `div` 2 ^ (6 * (LOGWORD o - 1)) < 2 ^ (o - 6 * (LOGWORD o - 1))); [|lia].
    apply Z.div_lt_upper_bound; [lia|]. rewrite <- Z.pow_add_r by (unfold order_ok in Ho; lia).
    replace (_ + _) with o by lia. lia.
  - intros l k Hv Hlt. unfold summary. pose proof (valid_word_up o l k Ho Hv Hlt) as Hup.
    destruct Hv as [Hvl Hvk]. pose proof (Z.div_mod k 64). pose proof (Z.mod_pos_bound k 64).
    assert (0 ≤ k `div` 64) by (apply Z.div_pos; lia).
    rewrite !Hf by (done || lia). rewrite fill_word_bit, <- div_div_64 by auto with lia.
    replace (64 * (k `div` 64) + k `mod` 64) with k by lia.
    pose proof (fill_word_nonzero (max `div` 2 ^ (6 * l)) k ltac:(auto with lia) ltac:(lia)) as Hn.
    destruct (Z.eqb_spec (fill_word (max `div` 2 ^ (6 * l)) k) 0) as [He|He]; simpl.
    + apply bool_decide_eq_false. intros [_ ?]. by apply Hn.
    + apply bool_decide_eq_true. split; [lia|]. by apply Hn.
  - intros a. rewrite elem_of_list_to_set, elem_of_seqZ. rewrite (member_W o) by (unfold order_ok in Ho; lia).
    destruct (decide (0 ≤ a < 2 ^ o)) as [Ha|]; [|lia].
    assert (valid_word o 0 (a `div` 64)) by (apply (valid_word_of o a 0); done || lia).
    pose proof (Z.div_mod a 64). pose proof (Z.mod_pos_bound a 64).
    rewrite Hf by (done || lia). rewrite fill_word_bit by (auto with lia || lia || (apply Z.div_pos; lia)).
    rewrite Z.mul_0_r, Z.div_1_r. rewrite bool_decide_eq_true. lia.
Qed.

(** ** Histories of updates *)

Inductive stree_op : Set :=
  | OpSet (a : Z)
  | OpClr (a : Z).

Definition stree_op_addr (op : stree_op) : Z :=
  match op with OpSet a | OpClr a => a end.

Definition stree_exec (o : Z) (op : stree_op) : M (list Z) unit :=
  match op with OpSet a => stree_setbit o a | OpClr a => stree_clrbit o a end.

Definition stree_op_spec (X : gset Z) (op : stree_op) : gset Z :=
  match op with OpSet a => {[a]} ∪ X | OpClr a => X ∖ {[a]} end.

Lemma stree_history_run o ops : ∀ ws X,
  order_ok o → represents o ws X → Forall (λ op, 0 ≤ stree_op_addr op < 2 ^ o) ops →
  ∃ ws', for_each ops (stree_exec o) ws = Ret (tt, ws') ∧
    represents o ws' (foldl stree_op_spec X ops).
Proof.
  induction ops as [|op ops IH]; intros ws X Ho HR Hops; [by exists ws|].
  apply Forall_cons in Hops as [Hop Hops].
  assert (∃ ws1, stree_exec o op ws = Ret (tt, ws1) ∧ represents o ws1 (stree_op_spec X op))
    as (ws1 & Hr1 & HR1).
  { destruct op; [destruct (stree_setbit_refines o a ws X) as (? & ? & ? & _)
                 |destruct (stree_clrbit_refines o a ws X) as (? & ? & ? & _)]; eauto. }
  cbn [for_each foldl]. mrun Hr1. by apply IH.
Qed.

(** * Properties *)

(** [stree_setbit] on a tree that holds the set [X] returns, adds the
    address to the set, keeps the summary levels consistent, and changes
    nothing outside the tree's words. *)
Theorem stree_setbit_correct {S} `{!WordMem S} (HL : WordMemLaws S) (o a : Z) (s : S) (X : gset Z)
    (Ho : order_ok o) (HR : represents o (wm_words s) X) (Ha : 0 ≤ a < 2 ^ o) :
  ∃ s', stree_setbit o a s = Ret (tt, s') ∧ represents o (wm_words s') ({[a]} ∪ X) ∧
    wm_frame s s' ∧ stree_getbit o a s' = Ret (true, s').
Proof.
  destruct (stree_setbit_refines o a s X Ho HR Ha) as (s' & Hr & HR' & Hf).
  exists s'. split_and!; [done..|]. rewrite (stree_getbit_refines o a s' _ Ho HR' Ha).
  do 2 f_equal. apply bool_decide_eq_true. set_solver.
Qed.

Lemma zero_tree_3 : represents 3 [0] ∅.
Proof. apply zero_tree_represents; [done| |by repeat constructor]. vm_compute. done. Qed.

Lemma stree_setbit_correct_witness :
  ∃ ws', stree_setbit 3 5 [0] = Ret (tt, ws') ∧ represents 3 ws' ({[5]} ∪ ∅) ∧
    length ws' = 1%nat ∧ stree_getbit 3 5 ws' = Ret (true, ws').
Proof. exact (stree_setbit_correct _ 3 5 [0] ∅ ltac:(done) zero_tree_3 ltac:(lia)). Defined.

(** [stree_clrbit] removes the address from the set the tree holds, and
    leaves every other address and the summary levels as the set requires. *)
Theorem stree_clrbit_correct {S} `{!WordMem S} (HL : WordMemLaws S) (o a : Z) (s : S) (X : gset Z)
    (Ho : order_ok o) (HR : represents o (wm_words s) X) (Ha : 0 ≤ a < 2 ^ o) :
  ∃ s', stree_clrbit o a s = Ret (tt, s') ∧ represents o (wm_words s') (X ∖ {[a]}) ∧
    wm_frame s s' ∧ stree_getbit o a s' = Ret (false, s').
Proof.
  destruct (stree_clrbit_refines o a s X Ho HR Ha) as (s' & Hr & HR' & Hf).
  exists s'. split_and!; [done..|]. rewrite (stree_getbit_refines o a s' _ Ho HR' Ha).
  do 2 f_equal. apply bool_decide_eq_false. set_solver.
Qed.

Lemma tree_3_12 : represents 3 [6] {[1; 2]}.
Proof.
  destruct (stree_history_run 3 [OpSet 1; OpSet 2] [0] ∅) as (ws & Hr & HR);
    [done|apply zero_tree_3|repeat constructor; simpl; lia|].
  vm_compute in Hr. injection Hr as <-. cbn in HR.
  by replace ({[2]} ∪ ({[1]} ∪ ∅)) with ({[1; 2]} : gset Z) in HR by set_solver.
Qed.

Lemma stree_clrbit_correct_witness :
  ∃ ws', stree_clrbit 3 1 [6] = Ret (tt, ws') ∧ represents 3 ws' ({[1; 2]} ∖ {[1]}) ∧
    length ws' = 1%nat ∧ stree_getbit 3 1 ws' = Ret (false, ws').
Proof. exact (stree_clrbit_correct _ 3 1 [6] {[1; 2]} ltac:(done) tree_3_12 ltac:(lia)). Defined.

(** C14. [stree_bitsearch] returns without touching the tree and without its
    assertion failing: it answers -1 exactly when the set is empty, and
    otherwise the least ([low]) or the greatest member. *)
Theorem stree_bitsearch_correct {S} `{!WordMem S} (HL : WordMemLaws S) (o : Z) (low : bool)
    (s : S) (X : gset Z) (Ho : order_ok o) (HR : represents o (wm_words s) X) :
  ∃ r, stree_bitsearch o low s = Ret (r, s) ∧ (r = -1 ↔ X = ∅) ∧
    (X ≠ ∅ → r ∈ X ∧ ∀ b, b ∈ X → if low then r ≤ b else b ≤ r).
Proof.
  destruct (stree_bitsearch_refines o low s X Ho HR) as (r & Hr & [[-> ->]|[Hin Hf]]);
    exists r || exists (-1); (split; [done|]).
  - split; [done|]. done.
  - split; [|done]. apply HR in Hin as [Hge Hm]. split; [lia|]. intros ->.
    destruct HR as [_ HX]. destruct (not_elem_of_empty (C:=gset Z) r). by apply HX.
Qed.

Lemma stree_bitsearch_correct_witness :
  ∃ r, stree_bitsearch 3 true [6] = Ret (r, [6]) ∧ (r = -1 ↔ ({[1; 2]} : gset Z) = ∅) ∧
    (({[1; 2]} : gset Z) ≠ ∅ → r ∈ ({[1; 2]} : gset Z) ∧ ∀ b, b ∈ ({[1; 2]} : gset Z) → r ≤ b).
Proof. exact (stree_bitsearch_correct _ 3 true [6] {[1; 2]} ltac:(done) tree_3_12). Defined.

(** Any history of updates on a zeroed tree leaves the tree that holds the
    set the history describes, and [stree_count] answers its size. *)
Theorem stree_history_correct (o : Z) (ops : list stree_op) (ws : list Z)
    (Ho : order_ok o) (Hlen : STREE_SIZE o ≤ length ws) (Hz : Forall (λ w, w = 0) ws)
    (Hops : Forall (λ op, 0 ≤ stree_op_addr op < 2 ^ o) ops) :
  ∃ ws', for_each ops (stree_exec o) ws = Ret (tt, ws') ∧
    represents o ws' (foldl stree_op_spec ∅ ops) ∧
    stree_count o ws' = Ret (Z.of_nat (size (foldl stree_op_spec (∅ : gset Z) ops)), ws').
Proof.
  destruct (stree_history_run o ops ws ∅) as (ws' & Hr & HR);
    [done|by apply zero_tree_represents|done|].
  exists ws'. split_and!; [done..|]. by apply stree_count_refines.
Qed.

Lemma stree_history_correct_witness :
  ∃ ws', for_each [OpSet 1; OpSet 2; OpClr 1] (stree_exec 3) [0] = Ret (tt, ws') ∧
    represents 3 ws' (foldl stree_op_spec ∅ [OpSet 1; OpSet 2; OpClr 1]) ∧
    stree_count 3 ws' =
      Ret (Z.of_nat (size (foldl stree_op_spec (∅ : gset Z) [OpSet 1; OpSet 2; OpClr 1])), ws').
Proof.
  apply (stree_history_correct 3 [OpSet 1; OpSet 2; OpClr 1] [0]);
    [done|vm_compute; done|by repeat constructor|repeat constructor; simpl; lia].
Defined.

(** [stree_setall] on a zeroed tree sets exactly the addresses from 0 up to
    and including its argument, at every level. *)
Theorem stree_setall_correct (o max : Z) (ws : list Z)
    (Ho : order_ok o) (Hmax : 0 ≤ max < 2 ^ o) (Hlen : STREE_SIZE o ≤ length ws)
    (Hz : Forall (λ w, w = 0) ws) :
  ∃ ws', stree_setall o max ws = Ret (tt, ws') ∧
    represents o ws' (list_to_set (seqZ 0 (max + 1))).
Proof. by apply stree_setall_refines. Qed.

Lemma stree_setall_correct_witness :
  ∃ ws', stree_setall 3 6 [0] = Ret (tt, ws') ∧ represents 3 ws' (list_to_set (seqZ 0 (6 + 1))).
Proof.
  apply (stree_setall_correct 3 6 [0]); [done|done|vm_compute; done|by repeat constructor].
Defined.

(** [stree_order n] is the least order whose tree has [n] addresses, and
    [STREE_SIZE] words hold every level of that tree, one after the other. *)
Theorem stree_order_correct (n : Z) (Hn : 0 < n < 2 ^ 25) :
  ∃ o, stree_order n = Some o ∧ n ≤ 2 ^ o ∧ (∀ o', 0 ≤ o' → n ≤ 2 ^ o' → o ≤ o') ∧
    (1 < n → ∀ l, 0 ≤ l < LOGWORD o → stree_lmap_off o l = Some (loff o l) ∧
       loff o l + lsize o l ≤ STREE_SIZE o ∧
       (l + 1 < LOGWORD o → loff o l + lsize o l = loff o (l + 1))).
Proof.
  exists (Z.log2_up n). split; [apply stree_order_up; lia|].
  destruct (decide (n = 1)) as [->|Hne]; [split_and!; [done|by intros|lia]|].
  pose proof (Z.log2_up_spec n ltac:(lia)) as Hlog. split_and!; [lia| |].
  - intros o' Ho' Hle. apply Z.log2_up_le_pow2; lia.
  - intros _ l Hl. assert (order_ok (Z.log2_up n)) as Ho.
    { split; [|by apply Z.log2_up_le_pow2; lia]. pose proof (Z.log2_up_pos n). lia. }
    destruct (geometry _ l Ho Hl) as (? & _ & ? & _). split_and!; [done..|]. intros Hl'.
    apply loff_next; [done|lia|done].
Qed.

Lemma stree_order_correct_witness :
  ∃ o, stree_order 1000 = Some o ∧ 1000 ≤ 2 ^ o ∧ (∀ o', 0 ≤ o' → 1000 ≤ 2 ^ o' → o ≤ o') ∧
    (1 < 1000 → ∀ l, 0 ≤ l < LOGWORD o → stree_lmap_off o l = Some (loff o l) ∧
       loff o l + lsize o l ≤ STREE_SIZE o ∧
       (l + 1 < LOGWORD o → loff o l + lsize o l = loff o (l + 1))).
Proof. apply (stree_order_correct 1000). lia. Defined.
