(* ===== verification/Locks.v ===== *)
(** Spin locks and reader-writer locks of include/nux/locks.h: the operations
    one CPU performs in sequence, as the other components use them, and the
    interleavings of any number of CPUs that contend for one [rwlock_t]. *)

From S2P Require Import Prelude Words.

(** * One CPU *)

(** A [lock_t] is its [lock] word; [lockcy] only measures time. Where a single
    CPU runs, waiting for a lock that is taken never ends. *)
Section sequential.
Context {S : Type} (get : S → bool) (set : bool → S → S).

Definition spinlock_init : M S unit := modify (set false).

Definition spinlock : M S unit := λ s,
  if get s then Abort Hang else Ret (tt, set true s).

Definition spinunlock : M S unit := modify (set false).

End sequential.

(** A [rwlock_t]: the reader count and its two locks. *)
Record rwlock_t : Set := RW { rw_r : Z; rw_lr : bool; rw_lg : bool }.

Definition set_lr (b : bool) (rw : rwlock_t) : rwlock_t := RW (rw_r rw) b (rw_lg rw).
Definition set_lg (b : bool) (rw : rwlock_t) : rwlock_t := RW (rw_r rw) (rw_lr rw) b.
Definition set_r (r : Z) (rw : rwlock_t) : rwlock_t := RW r (rw_lr rw) (rw_lg rw).

Definition rwlock_init : rwlock_t := RW 0 false false.

Definition readlock : M rwlock_t unit :=
  spinlock rw_lr set_lr;;
  r ← gets rw_r;
  modify (set_r (u32 (r + 1)));;
  when (r =? 0) (spinlock rw_lg set_lg);;
  spinunlock set_lr.

Definition readunlock : M rwlock_t unit :=
  spinlock rw_lr set_lr;;
  r ← gets rw_r;
  modify (set_r (u32 (r - 1)));;
  when (u32 (r - 1) =? 0) (spinunlock set_lg);;
  spinunlock set_lr.

Definition writelock : M rwlock_t unit := spinlock rw_lg set_lg.
Definition writeunlock : M rwlock_t unit := spinunlock set_lg.

(** * Many CPUs

    A CPU is at a point of one of the four operations, between them, or inside
    the section the lock protects. [Spin] points are the loads of the inner
    loop of [spinlock], [Cas] points its compare-and-exchange, which is weak and
    may fail even when the lock is free. *)

Inductive pc : Set :=
  | Idle
  | RLSpin | RLCas | RLLoad | RLStore (old : Z) | RLGSpin | RLGCas | RLUnlock
  | Reading
  | RUSpin | RUCas | RULoad | RUStore (old : Z) | RUGUnlock | RUUnlock
  | WLSpin | WLCas
  | Writing
  | WUUnlock.

(** The steps of one CPU; [true] marks those other than a spurious failure of
    the compare-and-exchange. *)
Inductive pc_step : bool → rwlock_t → pc → rwlock_t → pc → Prop :=
  | readlock_call rw : pc_step true rw Idle rw RLSpin
  | readlock_spin rw : rw_lr rw = false → pc_step true rw RLSpin rw RLCas
  | readlock_cas rw : rw_lr rw = false → pc_step true rw RLCas (set_lr true rw) RLLoad
  | readlock_lost rw : rw_lr rw = true → pc_step true rw RLCas rw RLSpin
  | readlock_spurious rw : pc_step false rw RLCas rw RLSpin
  | readlock_load rw : pc_step true rw RLLoad rw (RLStore (rw_r rw))
  | readlock_first rw old : old = 0 →
      pc_step true rw (RLStore old) (set_r (u32 (old + 1)) rw) RLGSpin
  | readlock_next rw old : old ≠ 0 →
      pc_step true rw (RLStore old) (set_r (u32 (old + 1)) rw) RLUnlock
  | readlock_gspin rw : rw_lg rw = false → pc_step true rw RLGSpin rw RLGCas
  | readlock_gcas rw : rw_lg rw = false → pc_step true rw RLGCas (set_lg true rw) RLUnlock
  | readlock_glost rw : rw_lg rw = true → pc_step true rw RLGCas rw RLGSpin
  | readlock_gspurious rw : pc_step false rw RLGCas rw RLGSpin
  | readlock_return rw : pc_step true rw RLUnlock (set_lr false rw) Reading
  | readunlock_call rw : pc_step true rw Reading rw RUSpin
  | readunlock_spin rw : rw_lr rw = false → pc_step true rw RUSpin rw RUCas
  | readunlock_cas rw : rw_lr rw = false → pc_step true rw RUCas (set_lr true rw) RULoad
  | readunlock_lost rw : rw_lr rw = true → pc_step true rw RUCas rw RUSpin
  | readunlock_spurious rw : pc_step false rw RUCas rw RUSpin
  | readunlock_load rw : pc_step true rw RULoad rw (RUStore (rw_r rw))
  | readunlock_last rw old : u32 (old - 1) = 0 →
      pc_step true rw (RUStore old) (set_r (u32 (old - 1)) rw) RUGUnlock
  | readunlock_other rw old : u32 (old - 1) ≠ 0 →
      pc_step true rw (RUStore old) (set_r (u32 (old - 1)) rw) RUUnlock
  | readunlock_gunlock rw : pc_step true rw RUGUnlock (set_lg false rw) RUUnlock
  | readunlock_return rw : pc_step true rw RUUnlock (set_lr false rw) Idle
  | writelock_call rw : pc_step true rw Idle rw WLSpin
  | writelock_spin rw : rw_lg rw = false → pc_step true rw WLSpin rw WLCas
  | writelock_cas rw : rw_lg rw = false → pc_step true rw WLCas (set_lg true rw) Writing
  | writelock_lost rw : rw_lg rw = true → pc_step true rw WLCas rw WLSpin
  | writelock_spurious rw : pc_step false rw WLCas rw WLSpin
  | writeunlock_call rw : pc_step true rw Writing rw WUUnlock
  | writeunlock_return rw : pc_step true rw WUUnlock (set_lg false rw) Idle.

Inductive rw_step : rwlock_t * list pc → rwlock_t * list pc → Prop :=
  | rw_step_cpu b rw rw' ps t p p' :
      ps !! t = Some p → pc_step b rw p rw' p' → rw_step (rw, ps) (rw', <[t := p']> ps).

Definition rw_reachable (n : nat) : rwlock_t * list pc → Prop :=
  rtc rw_step (rwlock_init, replicate n Idle).

(** * The invariant *)

(** Whether a CPU holds [lr], is counted in [r], holds [lg] as a writer, is the
    first reader still waiting for [lg], or is the last one about to drop it. *)
Definition holds_lr (p : pc) : nat :=
  match p with
  | RLLoad | RLStore _ | RLGSpin | RLGCas | RLUnlock
  | RULoad | RUStore _ | RUGUnlock | RUUnlock => 1
  | _ => 0
  end%nat.

Definition counted (p : pc) : nat :=
  match p with
  | RLGSpin | RLGCas | RLUnlock | Reading | RUSpin | RUCas | RULoad | RUStore _ => 1
  | _ => 0
  end%nat.

Definition writes (p : pc) : nat :=
  match p with Writing | WUUnlock => 1 | _ => 0 end%nat.

Definition pending (p : pc) : nat :=
  match p with RLGSpin | RLGCas => 1 | _ => 0 end%nat.

Definition dropping (p : pc) : nat :=
  match p with RUGUnlock => 1 | _ => 0 end%nat.

(** What a CPU inside the region [lr] protects knows of [r]. *)
Definition knows (r : Z) (p : pc) : Prop :=
  match p with
  | RLStore old | RUStore old => old = r
  | RLGSpin | RLGCas => r = 1
  | RUGUnlock => r = 0
  | RLUnlock => r ≠ 0
  | _ => True
  end.

Definition total (f : pc → nat) (ps : list pc) : nat := sum_list_with f ps.

Record rw_inv (rw : rwlock_t) (ps : list pc) : Prop := {
  ri_lr : total holds_lr ps = Nat.b2n (rw_lr rw);
  ri_r : rw_r rw = Z.of_nat (total counted ps);
  ri_lg : (Nat.b2n (rw_lg rw) + total pending ps =
    total writes ps + Nat.b2n (0 <? rw_r rw)%Z + total dropping ps)%nat;
  ri_knows : Forall (knows (rw_r rw)) ps;
}.

Lemma total_insert f (ps : list pc) t p p' :
  ps !! t = Some p → (total f (<[t := p']> ps) + f p = total f ps + f p')%nat.
Proof.
  unfold total. revert t. induction ps as [|q ps IH]; intros [|t] Ht; simplify_eq/=; [lia|].
  specialize (IH t Ht). lia.
Qed.

Lemma total_lookup f (ps : list pc) t p : ps !! t = Some p → (f p ≤ total f ps)%nat.
Proof.
  unfold total. revert t. induction ps as [|q ps IH]; intros [|t] Ht; simplify_eq/=; [lia|].
  specialize (IH t Ht). lia.
Qed.

Lemma total_two f (ps : list pc) t p u q :
  t ≠ u → ps !! t = Some p → ps !! u = Some q → (f p + f q ≤ total f ps)%nat.
Proof.
  unfold total. revert t u. induction ps as [|x ps IH]; intros [|t] [|u] Hne Ht Hu; simplify_eq/=; try done.
  - pose proof (total_lookup f ps u q Hu). unfold total in *. lia.
  - pose proof (total_lookup f ps t p Ht). unfold total in *. lia.
  - specialize (IH t u ltac:(lia) Ht Hu). lia.
Qed.

Lemma total_pos f (ps : list pc) : (0 < total f ps)%nat → ∃ t p, ps !! t = Some p ∧ (0 < f p)%nat.
Proof.
  unfold total. induction ps as [|q ps IH]; simpl; [lia|]. intros H.
  destruct (decide (0 < f q)%nat); [by exists 0%nat, q|].
  destruct IH as (t & p & Ht & Hp); [lia|]. by exists (S t), p.
Qed.

Lemma total_bound f (ps : list pc) : (∀ p, f p ≤ 1)%nat → (total f ps ≤ length ps)%nat.
Proof. unfold total. intros Hf. induction ps as [|q ps IH]; simpl; [done|]. specialize (Hf q). lia. Qed.

(** Only the holder of [lr] knows anything of [r]. *)
Lemma knows_other (ps : list pc) t p p' r r' :
  ps !! t = Some p → total holds_lr ps = 1%nat → holds_lr p = 1%nat →
  Forall (knows r) ps → knows r' p' → Forall (knows r') (<[t := p']> ps).
Proof.
  intros Ht Hone Hp Hk Hp'. apply Forall_lookup. intros u q Hu.
  apply list_lookup_insert_Some in Hu as [(-> & -> & _)|[Hne Hu]]; [done|].
  pose proof (total_two holds_lr ps t p u q Hne Ht Hu). by destruct q; simpl in *; lia || done.
Qed.

Lemma knows_same (ps : list pc) t p' r :
  Forall (knows r) ps → knows r p' → Forall (knows r) (<[t := p']> ps).
Proof. intros. by apply Forall_insert. Qed.

Lemma total_le f g (ps : list pc) : (∀ p, f p ≤ g p)%nat → (total f ps ≤ total g ps)%nat.
Proof.
  unfold total. intros Hf. induction ps as [|q ps IH]; simpl; [done|]. specialize (Hf q). lia.
Qed.

Lemma total_add f g (ps : list pc) :
  (total (λ p, f p + g p) ps = total f ps + total g ps)%nat.
Proof. unfold total. induction ps as [|q ps IH]; simpl; lia. Qed.

Lemma total_replicate f n : total f (replicate n Idle) = (n * f Idle)%nat.
Proof. unfold total. induction n as [|n IH]; simpl; [done|]. lia. Qed.

Lemma rw_inv_init n : rw_inv rwlock_init (replicate n Idle).
Proof.
  split; simpl; rewrite ?total_replicate; simpl; [lia..|].
  apply Forall_replicate. done.
Qed.

Lemma rw_inv_step b rw rw' ps t p p' :
  length ps < 2 ^ 32 → rw_inv rw ps → ps !! t = Some p → pc_step b rw p rw' p' →
  rw_inv rw' (<[t := p']> ps).
Proof.
  intros Hlen [Hlr Hr Hlg Hk] Ht Hs.
  pose proof (λ f, total_insert f ps t p p' Ht) as Hins.
  pose proof (λ f, total_lookup f ps t p Ht) as Hlk.
  pose proof (total_bound counted (<[t := p']> ps) ltac:(intros []; simpl; lia)) as Hb.
  rewrite length_insert in Hb.
  pose proof (total_le (λ p, pending p + dropping p)%nat holds_lr ps ltac:(intros []; simpl; lia)) as Hpd.
  rewrite total_add in Hpd.
  pose proof (total_le pending counted ps ltac:(intros []; simpl; lia)) as Hpc.
  pose proof (total_bound counted ps ltac:(intros []; simpl; lia)) as Hb'.
  pose proof (proj1 (Forall_lookup _ _) Hk t p Ht) as Hkp.
  pose proof (Hins holds_lr). pose proof (Hins counted). pose proof (Hins writes).
  pose proof (Hins pending). pose proof (Hins dropping). clear Hins.
  pose proof (Hlk holds_lr). pose proof (Hlk counted). pose proof (Hlk writes).
  pose proof (Hlk pending). pose proof (Hlk dropping). clear Hlk.
  destruct rw as [r lr lg].
  assert (∀ x, 0 ≤ x < 2 ^ 32 → u32 x = x) as Hu by (intros; by apply u32_small).
  assert (Nat.b2n lr ≤ 1 ∧ Nat.b2n lg ≤ 1)%nat by (destruct lr, lg; simpl; lia).
  inversion Hs; subst; simpl in *; subst; rewrite ?Hu in * by lia.
  all: split; simpl; try lia.
  all: try (repeat match goal with
    | |- context [0 <? ?x] => destruct (Z.ltb_spec 0 x)
    | H : context [0 <? ?x] |- _ => destruct (Z.ltb_spec 0 x) end; simpl in *; lia).
  all: try (eapply knows_same; simpl; by eauto with lia).
  all: try (eapply knows_other; simpl; eauto; lia).
Qed.

Lemma rw_reachable_inv n rw ps :
  Z.of_nat n < 2 ^ 32 → rw_reachable n (rw, ps) → length ps = n ∧ rw_inv rw ps.
Proof.
  intros Hn Hr. change (length (rw, ps).2 = n ∧ rw_inv (rw, ps).1 (rw, ps).2).
  revert Hr. generalize (rw, ps). unfold rw_reachable. apply rtc_ind_r; simpl.
  - split; [by rewrite length_replicate|apply rw_inv_init].
  - intros c1 c2 _ Hs [Hl Hi]. destruct Hs as [b rw1 rw1' ps1 t p p' Ht Hs]. simpl in *.
    rewrite length_insert. split; [done|]. eapply rw_inv_step; eauto. by rewrite Hl.
Qed.

(** The holder of [lr] can move, unless it is the first reader and a writer
    has [lg]. *)
Lemma holder_moves rw p :
  holds_lr p = 1%nat → (pending p = 1%nat → rw_lg rw = false) →
  ∃ rw' p', pc_step true rw p rw' p'.
Proof.
  intros Hp Hg.
  destruct p; simpl in *; try done; try (by eexists _, _; constructor; auto).
  - destruct (decide (old = 0)); eexists _, _; [by apply readlock_first|by apply readlock_next].
  - destruct (decide (u32 (old - 1) = 0)); eexists _, _;
      [by apply readunlock_last|by apply readunlock_other].
Qed.

Lemma writer_moves rw p : writes p = 1%nat → p ≠ Writing → ∃ rw' p', pc_step true rw p rw' p'.
Proof. destruct p; simpl; intros; try done. eexists _, _. constructor. Qed.

Definition waiting (p : pc) : Prop := p ≠ Idle ∧ p ≠ Reading ∧ p ≠ Writing.

Definition moves (rw : rwlock_t) (ps : list pc) : Prop :=
  ∃ t p rw' p', ps !! t = Some p ∧ waiting p ∧ pc_step true rw p rw' p'.

Lemma pos_one f (p : pc) : (f p ≤ 1)%nat → (0 < f p)%nat → f p = 1%nat.
Proof. lia. Qed.

Lemma writer_frees rw ps :
  rw_inv rw ps → Forall (λ p, p ≠ Reading ∧ p ≠ Writing) ps →
  (0 < total writes ps)%nat → moves rw ps.
Proof.
  intros _ Hcs (t & p & Ht & Hp)%total_pos. rewrite Forall_lookup in Hcs.
  destruct (Hcs t p Ht) as [Hnr Hnw]. exists t, p.
  destruct (writer_moves rw p) as (rw' & p' & Hs); [by destruct p; simpl in *; lia|done|].
  exists rw', p'. split_and!; [done| |done]. split_and!; [|done..]. intros ->. simpl in Hp. lia.
Qed.

Ltac move_with t :=
  eexists t, _, _, _; split; [eassumption|split; [by split_and!|econstructor; eassumption]].

Lemma rw_inv_progress rw ps t p :
  rw_inv rw ps → Forall (λ p, p ≠ Reading ∧ p ≠ Writing) ps →
  ps !! t = Some p → waiting p → moves rw ps.
Proof.
  intros Hi Hcs Ht Hp. pose proof Hi as [Hlr Hr Hlg Hk].
  destruct (decide (0 < total writes ps)%nat) as [|Hw]; [by apply writer_frees|].
  destruct (rw_lr rw) eqn:Elr.
  - destruct (total_pos holds_lr ps) as (u & q & Hu & Hq); [simpl in Hlr; lia|].
    destruct (holder_moves rw q) as (rw' & q' & Hs).
    { destruct q; simpl in *; lia. }
    { intros Hpq. destruct (rw_lg rw) eqn:Elg; [|done]. exfalso.
      pose proof (total_lookup pending ps u q Hu).
      pose proof (total_le (λ p, pending p + dropping p)%nat holds_lr ps
        ltac:(intros []; simpl; lia)) as Hpd. rewrite total_add in Hpd.
      simpl in *. destruct (0 <? rw_r rw); simpl in *; lia. }
    exists u, q, rw', q'. split_and!; [done| |done]. destruct q; simpl in *; solve [lia | repeat split; discriminate].
  - assert (∀ u q, ps !! u = Some q → holds_lr q = 0%nat) as Hnone.
    { intros u q Hu. pose proof (total_lookup holds_lr ps u q Hu). simpl in *. lia. }
    rewrite Forall_lookup in Hcs. pose proof (Hnone t p Ht) as Hp0.
    assert (∀ u q, ps !! u = Some q → counted q = 1%nat → moves rw ps) as Hcm.
    { intros u q Hu Hq. pose proof (Hnone u q Hu) as Hq0. pose proof (Hcs u q Hu) as [? ?].
      destruct q; simpl in *; try done; move_with u. }
    destruct p; simpl in *; try (by destruct Hp as (? & ? & ?)); try done;
      try (move_with t).
    all: destruct (rw_lg rw) eqn:Elg;
      [|move_with t].
    all: assert (total pending ps ≤ total holds_lr ps)%nat
      by (apply total_le; intros []; simpl; lia).
    all: assert (total dropping ps ≤ total holds_lr ps)%nat
      by (apply total_le; intros []; simpl; lia).
    all: destruct (Z.ltb_spec 0 (rw_r rw)); simpl in *; [|lia].
    all: destruct (total_pos counted ps) as (u & q & Hu & Hq); [lia|].
    all: eapply Hcm; [done|]; apply pos_one; [|done]; destruct q; simpl; lia.
Qed.

(** ** The sequential operations are runs of one CPU *)

Lemma rw_cpu_steps b rw rw1 rw2 (ps : list pc) t p p1 p2 :
  (t < length ps)%nat → pc_step b rw p rw1 p1 →
  rtc rw_step (rw1, <[t := p1]> ps) (rw2, <[t := p2]> ps) →
  rtc rw_step (rw, <[t := p]> ps) (rw2, <[t := p2]> ps).
Proof.
  intros Ht Hs Hr. eapply rtc_l; [|done].
  rewrite <- (list_insert_insert_eq ps t p1 p).
  eapply rw_step_cpu; [by apply list_lookup_insert_eq|done].
Qed.

Ltac cpu_step R := eapply (rw_cpu_steps true); [done|solve [eapply R; done]|].

Lemma readlock_steps rw rw' (ps : list pc) t :
  (t < length ps)%nat → readlock rw = Ret (tt, rw') →
  rtc rw_step (rw, <[t := Idle]> ps) (rw', <[t := Reading]> ps).
Proof.
  intros Ht. destruct rw as [r [] lg]; [done|].
  unfold readlock, spinlock, spinunlock, mbind, M_bind, gets, modify. cbn. intros Hrun.
  cpu_step readlock_call. cpu_step readlock_spin. cpu_step readlock_cas. cpu_step readlock_load.
  simpl. destruct (Z.eqb_spec r 0) as [->|Hr]; simpl in Hrun.
  - destruct lg; [done|]. injection Hrun as <-. cpu_step readlock_first. cpu_step readlock_gspin.
    cpu_step readlock_gcas. cpu_step readlock_return. constructor.
  - injection Hrun as <-. cpu_step readlock_next. cpu_step readlock_return. constructor.
Qed.

Lemma readunlock_steps rw rw' (ps : list pc) t :
  (t < length ps)%nat → readunlock rw = Ret (tt, rw') →
  rtc rw_step (rw, <[t := Reading]> ps) (rw', <[t := Idle]> ps).
Proof.
  intros Ht. destruct rw as [r [] lg]; [done|].
  unfold readunlock, spinlock, spinunlock, mbind, M_bind, gets, modify. cbn. intros Hrun.
  cpu_step readunlock_call. cpu_step readunlock_spin. cpu_step readunlock_cas.
  cpu_step readunlock_load.
  simpl. destruct (Z.eqb_spec (u32 (r - 1)) 0) as [He|Hr]; simpl in Hrun; injection Hrun as <-.
  - cpu_step readunlock_last. cpu_step readunlock_gunlock. cpu_step readunlock_return. constructor.
  - cpu_step readunlock_other. cpu_step readunlock_return. constructor.
Qed.

(** * Properties *)

(** C29. In every interleaving of any number of CPUs that take and release a
    [rwlock_t], a CPU inside its write section excludes every other CPU from a
    read or a write section. *)
Theorem rwlock_exclusion (n : nat) (rw : rwlock_t) (ps : list pc) (t u : nat)
    (Hn : Z.of_nat n < 2 ^ 32) (Hr : rw_reachable n (rw, ps)) (Htu : t ≠ u)
    (Ht : ps !! t = Some Writing) :
  ps !! u ≠ Some Reading ∧ ps !! u ≠ Some Writing.
Proof.
  destruct (rw_reachable_inv n rw ps Hn Hr) as [_ [Hlr Hc Hlg Hk]].
  pose proof (total_lookup writes ps t _ Ht) as Hw.
  assert (total pending ps ≤ total holds_lr ps)%nat as Hp by (apply total_le; intros []; simpl; lia).
  assert (Nat.b2n (rw_lg rw) ≤ 1 ∧ Nat.b2n (rw_lr rw) ≤ 1)%nat
    by (destruct (rw_lg rw), (rw_lr rw); simpl; lia).
  split; intros Hu; simpl in *.
  - pose proof (total_lookup counted ps u _ Hu) as Hcu. simpl in Hcu.
    destruct (Z.ltb_spec 0 (rw_r rw)); simpl in *; [|lia].
    destruct (total_pos pending ps) as (v & q & Hv & Hq); [lia|].
    rewrite Forall_lookup in Hk.
    pose proof (total_two counted ps u Reading v q) as Htwo.
    specialize (Htwo ltac:(intros ->; rewrite Hu in Hv; injection Hv as <-; simpl in Hq; lia) Hu Hv).
    specialize (Hk v q Hv). destruct q; simpl in *; lia.
  - pose proof (total_two writes ps t _ u _ Htu Ht Hu) as Htwo. simpl in Htwo.
    destruct (decide (0 < total pending ps)%nat); [|lia].
    destruct (total_pos pending ps) as (v & q & Hv & Hq); [lia|].
    pose proof (total_lookup counted ps v q Hv). destruct (Z.ltb_spec 0 (rw_r rw)); simpl in *; [lia|].
    destruct q; simpl in *; lia.
Qed.

Lemma one_writer_reachable : rw_reachable 2 (RW 0 false true, [Writing; Idle]).
Proof.
  change (rtc rw_step (rwlock_init, <[0%nat := Idle]> [Idle; Idle])
    (RW 0 false true, <[0%nat := Writing]> [Idle; Idle])).
  eapply (rw_cpu_steps true); [simpl; lia|apply writelock_call|].
  eapply (rw_cpu_steps true); [simpl; lia|by apply writelock_spin|].
  eapply (rw_cpu_steps true); [simpl; lia|by apply writelock_cas|]. constructor.
Qed.

Lemma rwlock_exclusion_witness :
  [Writing; Idle] !! 1%nat ≠ Some Reading ∧ [Writing; Idle] !! 1%nat ≠ Some Writing.
Proof.
  exact (rwlock_exclusion 2 (RW 0 false true) [Writing; Idle] 0 1
    ltac:(done) one_writer_reachable ltac:(lia) eq_refl).
Defined.

(** C40. The lock does not deadlock: whenever some CPU is inside one of the four
    operations and no CPU is inside a read or a write section, some CPU inside
    an operation can take a step that is not a spurious failure. *)
Theorem rwlock_progress (n : nat) (rw : rwlock_t) (ps : list pc) (t : nat) (p : pc)
    (Hn : Z.of_nat n < 2 ^ 32) (Hr : rw_reachable n (rw, ps))
    (Hcs : Forall (λ q, q ≠ Reading ∧ q ≠ Writing) ps)
    (Ht : ps !! t = Some p) (Hp : waiting p) :
  ∃ u q rw' q', ps !! u = Some q ∧ waiting q ∧ pc_step true rw q rw' q'.
Proof.
  destruct (rw_reachable_inv n rw ps Hn Hr) as [_ Hi]. by apply (rw_inv_progress rw ps t p).
Qed.

Lemma one_waiting_reachable : rw_reachable 2 (RW 0 false false, [WLSpin; Idle]).
Proof.
  change (rtc rw_step (rwlock_init, <[0%nat := Idle]> [Idle; Idle])
    (RW 0 false false, <[0%nat := WLSpin]> [Idle; Idle])).
  eapply (rw_cpu_steps true); [simpl; lia|apply writelock_call|]. constructor.
Qed.

Lemma rwlock_progress_witness :
  ∃ u q rw' q', [WLSpin; Idle] !! u = Some q ∧ waiting q ∧ pc_step true (RW 0 false false) q rw' q'.
Proof.
  apply (rwlock_progress 2 (RW 0 false false) [WLSpin; Idle] 0 WLSpin);
    [done|exact one_waiting_reachable|by repeat constructor|done|done].
Defined.

(** What one CPU computes with the sequential [readlock] and [readunlock],
    as the other components call them, is a run of that CPU in the interleaved
    system, in which no other CPU moves. *)
Theorem rwlock_sequential (rw rw1 rw2 : rwlock_t) (ps : list pc) (t : nat)
    (Ht : (t < length ps)%nat) (Hlock : readlock rw = Ret (tt, rw1))
    (Hunlock : readunlock rw1 = Ret (tt, rw2)) :
  rtc rw_step (rw, <[t := Idle]> ps) (rw1, <[t := Reading]> ps) ∧
  rtc rw_step (rw1, <[t := Reading]> ps) (rw2, <[t := Idle]> ps).
Proof. split; [by apply readlock_steps|by apply readunlock_steps]. Qed.

Lemma rwlock_sequential_witness :
  rtc rw_step (rwlock_init, [Idle; Idle]) (RW 1 false true, [Reading; Idle]) ∧
  rtc rw_step (RW 1 false true, [Reading; Idle]) (rwlock_init, [Idle; Idle]).
Proof.
  exact (rwlock_sequential rwlock_init (RW 1 false true) rwlock_init [Idle; Idle] 0
    ltac:(simpl; lia) eq_refl eq_refl).
Defined.
