(* ===== verification/Machine.v ===== *)
(** The machine under the kernel: physical frames, kernel data, the direct map
    of libnux/pfncache.c through which the kernel reaches a frame, and the
    contract a page allocator has with the code that builds page tables. *)

From S2P Require Import Prelude Words Locks.

Definition PAGE_SHIFT : Z := 12.
Definition PAGE_SIZE : Z := Z.shiftl 1 PAGE_SHIFT.
Definition PAGE_MASK : Z := PAGE_SIZE - 1.
Definition trunc_page (x : Z) : Z := Z.land x (Z.lnot (PAGE_SIZE - 1)).
Definition round_page (x : Z) : Z := trunc_page (u64 (x + PAGE_SIZE - 1)).
Definition ptob (x : Z) : Z := u64 (Z.shiftl x PAGE_SHIFT).
Definition btop (x : Z) : Z := Z.shiftr x PAGE_SHIFT.
Definition PFN_INVALID : Z := 2 ^ 64 - 1.

(** A frame is 512 words of 64 bits. *)
Definition WORDS_PER_PAGE : nat := 512.
Definition zero_page : list Z := replicate WORDS_PER_PAGE 0.

(** What the linker script and the boot loader fix: where the direct map
    starts, how many frames it reaches, and how many frames the machine has. *)
Class Config := {
  hal_virtmem_dmapbase : Z;
  max_dmap_pfn : Z;
  hal_physmem_maxpfn : Z;
}.

Class ConfigOk `{!Config} : Prop := {
  dmapbase_aligned : hal_virtmem_dmapbase `mod` PAGE_SIZE = 0;
  dmapbase_pos : 0 < hal_virtmem_dmapbase;
  dmap_fits : hal_virtmem_dmapbase + max_dmap_pfn * PAGE_SIZE < 2 ^ 64;
  dmap_pos : 0 ≤ max_dmap_pfn;
}.

(** [m_root] is the frame of the top page table the CPU uses, [m_kdata] the
    words of the kernel's own structures by address, [m_alloc] the state of the
    page allocator installed, [m_free_pages] and [m_alock] the variables of
    libnux/pfnalloc.c that any allocator shares. *)
Record mach (A : Type) : Type := Mach {
  m_frames : gmap Z (list Z);
  m_kdata : gmap Z Z;
  m_root : Z;
  m_free_pages : Z;
  m_alock : rwlock_t;
  m_alloc : A;
}.
Arguments Mach {A} _ _ _ _ _ _.
Arguments m_frames {A} _.
Arguments m_kdata {A} _.
Arguments m_root {A} _.
Arguments m_free_pages {A} _.
Arguments m_alock {A} _.
Arguments m_alloc {A} _.

Section setters.
Context {A : Type}.
Implicit Types s : mach A.

Definition set_frames (x : gmap Z (list Z)) s : mach A :=
  Mach x (m_kdata s) (m_root s) (m_free_pages s) (m_alock s) (m_alloc s).
Definition set_kdata (x : gmap Z Z) s : mach A :=
  Mach (m_frames s) x (m_root s) (m_free_pages s) (m_alock s) (m_alloc s).
Definition set_root (x : Z) s : mach A :=
  Mach (m_frames s) (m_kdata s) x (m_free_pages s) (m_alock s) (m_alloc s).
Definition set_free_pages (x : Z) s : mach A :=
  Mach (m_frames s) (m_kdata s) (m_root s) x (m_alock s) (m_alloc s).
Definition set_alock (x : rwlock_t) s : mach A :=
  Mach (m_frames s) (m_kdata s) (m_root s) (m_free_pages s) x (m_alloc s).
Definition set_alloc (x : A) s : mach A :=
  Mach (m_frames s) (m_kdata s) (m_root s) (m_free_pages s) (m_alock s) x.

End setters.

(** The cache of mappings for the frames past the direct map. *)
Class PfnCache (A : Type) := {
  pfncache_get : Z → M (mach A) Z;
  pfncache_put : Z → Z → M (mach A) unit;
}.

Section access.
Context `{!Config} {A : Type} `{!PfnCache A}.

(** Frame and word a direct map address stands for. *)
Definition dmap_frame (p : Z) : Z := (p - hal_virtmem_dmapbase) `div` PAGE_SIZE.
Definition dmap_word (p : Z) : Z := ((p - hal_virtmem_dmapbase) `div` 8) `mod` 512.
Definition in_dmap (p : Z) : bool :=
  (hal_virtmem_dmapbase <=? p) && (dmap_frame p <? max_dmap_pfn).

Definition frame_word (fs : gmap Z (list Z)) (f i : Z) : option Z :=
  l ← fs !! f; l !! Z.to_nat i.

Definition frame_update (fs : gmap Z (list Z)) (f i v : Z) : gmap Z (list Z) :=
  alter (λ l, <[Z.to_nat i := v]> l) f fs.

(** A 64-bit load and store at an address of the direct map or of the kernel's
    own data. *)
Definition kload (p : Z) : M (mach A) Z := λ s,
  if negb (p `mod` 8 =? 0) then Abort Undef
  else if in_dmap p then
    match frame_word (m_frames s) (dmap_frame p) (dmap_word p) with
    | Some w => Ret (w, s)
    | None => Abort Fault
    end
  else match m_kdata s !! p with Some w => Ret (w, s) | None => Abort Fault end.

Definition kstore (p v : Z) : M (mach A) unit := λ s,
  if negb (p `mod` 8 =? 0) then Abort Undef
  else if in_dmap p then
    match frame_word (m_frames s) (dmap_frame p) (dmap_word p) with
    | Some _ => Ret (tt, set_frames (frame_update (m_frames s) (dmap_frame p) (dmap_word p) v) s)
    | None => Abort Fault
    end
  else match m_kdata s !! p with
       | Some _ => Ret (tt, set_kdata (<[p := v]> (m_kdata s)) s)
       | None => Abort Fault
       end.

Definition pfn_get (pfn : Z) : M (mach A) Z :=
  assertb (negb (pfn =? PFN_INVALID));;
  if pfn <? max_dmap_pfn
  then mret (u64 (hal_virtmem_dmapbase + u64 (Z.shiftl pfn PAGE_SHIFT)))
  else pfncache_get pfn.

Definition pfn_put (pfn va : Z) : M (mach A) unit :=
  assertb (negb (pfn =? PFN_INVALID));;
  if pfn <? max_dmap_pfn then mret tt else pfncache_put pfn va.

(** [memset (va, 0, PAGE_SIZE)]. *)
Definition memset_page (va : Z) : M (mach A) unit :=
  for_each (seqZ 0 WORDS_PER_PAGE) (λ i, kstore (va + 8 * i) 0).

End access.

(** * The allocator contract *)

(** [_nux_pfnalloc] and [_nux_pfnfree], the functions [nux_set_allocator]
    installs. [al_free] is the set of frames the allocator can hand out,
    [al_range] the frames it accepts back. *)
Class PfnAllocator (A : Type) := {
  nux_pfnalloc : bool → M (mach A) Z;
  nux_pfnfree : Z → M (mach A) unit;
  al_free : A → gset Z;
  al_range : A → Z → Prop;
  al_inv : A → Prop;
}.

Section alloc.
Context `{!Config} {A : Type} `{!PfnCache A, !PfnAllocator A}.

Definition frame_ok (fs : gmap Z (list Z)) (f : Z) : Prop :=
  0 ≤ f < max_dmap_pfn ∧ ∃ l, fs !! f = Some l ∧ length l = WORDS_PER_PAGE.

Definition free_frames (s : mach A) : gset Z := al_free (m_alloc s).

(** Nobody is changing the allocator. *)
Definition alock_ok (rw : rwlock_t) : Prop :=
  rw_lr rw = false ∧ 0 ≤ rw_r rw < 2 ^ 32 - 1 ∧ (rw_r rw = 0 → rw_lg rw = false).

Record alloc_ok (s : mach A) : Prop := {
  ao_inv : al_inv (m_alloc s);
  ao_frames f : f ∈ free_frames s → frame_ok (m_frames s) f;
  ao_pages : m_free_pages s = Z.of_nat (size (free_frames s));
  ao_lock : alock_ok (m_alock s);
}.

Definition pfn_alloc (low : bool) : M (mach A) Z :=
  zoom m_alock set_alock readlock;;
  pfn ← nux_pfnalloc low;
  zoom m_alock set_alock readunlock;;
  mret pfn.

Definition pfn_free (pfn : Z) : M (mach A) unit :=
  zoom m_alock set_alock readlock;;
  nux_pfnfree pfn;;
  n ← gets m_free_pages;
  modify (set_free_pages (u64 (n + 1)));;
  zoom m_alock set_alock readunlock.

Definition pfn_avail : M (mach A) Z := gets m_free_pages.

(** The state after frame [r] has been handed out by an allocator that goes to
    state [a']. *)
Definition taken (s : mach A) (r : Z) (a' : A) : mach A :=
  set_alloc a' (set_free_pages (m_free_pages s - 1)
    (set_frames (<[r := zero_page]> (m_frames s)) s)).

End alloc.

Class PfnAllocatorLaws (A : Type) `{!Config, !PfnCache A, !PfnAllocator A} : Prop := {
  nux_pfnalloc_ok low s :
    al_inv (m_alloc s) → (∀ f, f ∈ free_frames s → frame_ok (m_frames s) f) →
    m_free_pages s = Z.of_nat (size (free_frames s)) →
    (free_frames s = ∅ ∧ nux_pfnalloc low s = Ret (PFN_INVALID, s)) ∨
    ∃ r a', r ∈ free_frames s ∧ nux_pfnalloc low s = Ret (r, taken s r a') ∧ al_inv a' ∧
      al_free a' = free_frames s ∖ {[r]} ∧ (∀ f, al_range a' f ↔ al_range (m_alloc s) f);
  nux_pfnfree_ok f s :
    al_inv (m_alloc s) → al_range (m_alloc s) f →
    ∃ a', nux_pfnfree f s = Ret (tt, set_alloc a' s) ∧ al_inv a' ∧
      al_free a' = {[f]} ∪ free_frames s ∧ (∀ g, al_range a' g ↔ al_range (m_alloc s) g);
  al_free_range a f : al_inv a → f ∈ al_free a → al_range a f;
  al_free_bound a : al_inv a → Z.of_nat (size (al_free a)) < 2 ^ 63;
}.

(** * Lemmas *)

Section access_lemmas.
Context `{!Config, !ConfigOk} {A : Type} `{!PfnCache A}.
Implicit Types s : mach A.

Lemma page_size_eq : PAGE_SIZE = 4096.
Proof. done. Qed.

Definition window (f : Z) : Z := hal_virtmem_dmapbase + 4096 * f.

Lemma window_word f i :
  0 ≤ f < max_dmap_pfn → 0 ≤ i < 512 →
  dmap_frame (window f + 8 * i) = f ∧ dmap_word (window f + 8 * i) = i ∧
  in_dmap (window f + 8 * i) = true ∧ (window f + 8 * i) `mod` 8 = 0.
Proof.
  intros Hf Hi. unfold in_dmap, dmap_frame, dmap_word, window. rewrite page_size_eq.
  pose proof dmapbase_aligned as Hal. rewrite page_size_eq in Hal.
  replace (hal_virtmem_dmapbase + 4096 * f + 8 * i - hal_virtmem_dmapbase) with (4096 * f + 8 * i) by lia.
  assert ((4096 * f + 8 * i) `div` 4096 = f) as -> by (Z.div_mod_to_equations; lia).
  assert ((4096 * f + 8 * i) `div` 8 = 512 * f + i) as -> by (Z.div_mod_to_equations; lia).
  split_and!; [done|Z.div_mod_to_equations; lia|lia|Z.div_mod_to_equations; lia].
Qed.

Lemma pfn_valid f : 0 ≤ f < max_dmap_pfn → f < 2 ^ 52 ∧ f ≠ PFN_INVALID.
Proof.
  intros Hr. pose proof dmap_fits as Hd. pose proof dmapbase_pos. rewrite page_size_eq in Hd.
  unfold PFN_INVALID. lia.
Qed.

Lemma pfn_get_run f s : 0 ≤ f < max_dmap_pfn → pfn_get f s = Ret (window f, s).
Proof.
  intros Hf. destruct (pfn_valid f Hf) as [Hlt Hne]. unfold pfn_get.
  rewrite bind_assert by (apply negb_true_iff; by apply Z.eqb_neq).
  rewrite (proj2 (Z.ltb_lt _ _)) by lia. unfold mret, M_ret, window, PAGE_SHIFT. do 2 f_equal.
  rewrite Z.shiftl_mul_pow2 by lia. change (2 ^ 12) with 4096.
  pose proof dmap_fits as Hd. pose proof dmapbase_pos. rewrite page_size_eq in Hd.
  rewrite (u64_small (f * 4096)) by (unfold word64; lia). rewrite u64_small by (unfold word64; lia). lia.
Qed.

Lemma pfn_put_run f va s : 0 ≤ f < max_dmap_pfn → pfn_put f va s = Ret (tt, s).
Proof.
  intros Hf. destruct (pfn_valid f Hf) as [Hlt Hne]. unfold pfn_put.
  rewrite bind_assert by (apply negb_true_iff; by apply Z.eqb_neq).
  by rewrite (proj2 (Z.ltb_lt _ _)) by lia.
Qed.

Lemma frame_word_ok fs f i :
  frame_ok fs f → 0 ≤ i < 512 → is_Some (frame_word fs f i).
Proof.
  intros (_ & l & Hl & Hlen) Hi. unfold frame_word. rewrite Hl. simpl.
  apply lookup_lt_is_Some. rewrite Hlen. unfold WORDS_PER_PAGE. lia.
Qed.

Lemma kload_run f i w s :
  0 ≤ f < max_dmap_pfn → 0 ≤ i < 512 → frame_word (m_frames s) f i = Some w →
  kload (window f + 8 * i) s = Ret (w, s).
Proof.
  intros Hf Hi Hw. destruct (window_word f i Hf Hi) as (H1 & H2 & H3 & H4).
  unfold kload. by rewrite H1, H2, H3, H4, Hw.
Qed.

Lemma kstore_run f i v s :
  frame_ok (m_frames s) f → 0 ≤ i < 512 →
  kstore (window f + 8 * i) v s = Ret (tt, set_frames (frame_update (m_frames s) f i v) s).
Proof.
  intros Hf Hi. pose proof (frame_word_ok _ _ _ Hf Hi) as [w Hw]. destruct Hf as [Hf _].
  destruct (window_word f i Hf Hi) as (H1 & H2 & H3 & H4).
  unfold kstore. by rewrite H1, H2, H3, H4, Hw.
Qed.

Lemma frame_update_word fs f i v f' i' :
  frame_ok fs f → 0 ≤ i < 512 → 0 ≤ i' →
  frame_word (frame_update fs f i v) f' i' =
    if decide (f = f' ∧ i = i') then Some v else frame_word fs f' i'.
Proof.
  intros (_ & l & Hl & Hlen) Hi Hi'. unfold frame_word, frame_update.
  destruct (decide (f = f')) as [<-|Hne].
  - rewrite lookup_alter_eq, Hl. simpl. destruct (decide (i = i')) as [<-|Hni].
    + rewrite decide_True by done. apply list_lookup_insert_eq. unfold WORDS_PER_PAGE in *. lia.
    + rewrite decide_False by tauto. apply list_lookup_insert_ne. lia.
  - rewrite lookup_alter_ne by done. by rewrite decide_False by tauto.
Qed.

Lemma frame_update_ok fs f i v g : frame_ok fs g → frame_ok (frame_update fs f i v) g.
Proof.
  intros (Hg & l & Hl & Hlen). split; [done|]. unfold frame_update.
  destruct (decide (f = g)) as [<-|Hne].
  - exists (<[Z.to_nat i := v]> l). by rewrite lookup_alter_eq, Hl, length_insert.
  - exists l. by rewrite lookup_alter_ne.
Qed.

Lemma frame_zero_ok fs f g : 0 ≤ f < max_dmap_pfn → frame_ok fs g → frame_ok (<[f := zero_page]> fs) g.
Proof.
  intros Hf (Hg & l & Hl & Hlen). split; [done|]. destruct (decide (f = g)) as [<-|Hne].
  - exists zero_page. by rewrite lookup_insert_eq.
  - exists l. by rewrite lookup_insert_ne.
Qed.

Lemma frame_zero_word fs f f' i :
  0 ≤ i < 512 → frame_word (<[f := zero_page]> fs) f' i =
    if decide (f = f') then Some 0 else frame_word fs f' i.
Proof.
  intros Hi. unfold frame_word. case_decide as He.
  - subst. rewrite lookup_insert_eq. simpl. unfold zero_page. apply lookup_replicate_2.
    unfold WORDS_PER_PAGE. lia.
  - by rewrite lookup_insert_ne.
Qed.

Lemma memset_loop f (n : nat) : ∀ (j : nat) l s,
  0 ≤ f < max_dmap_pfn → m_frames s !! f = Some l → length l = WORDS_PER_PAGE →
  (j + n ≤ 512)%nat →
  for_each (seqZ j n) (λ i, kstore (window f + 8 * i) 0) s =
    Ret (tt, set_frames (<[f := take j l ++ replicate n 0 ++ drop (j + n) l]> (m_frames s)) s).
Proof.
  induction n as [|n IH]; intros j l s Hf Hl Hlen Hj.
  - simpl. rewrite Nat.add_0_r, take_drop, insert_id by done. by destruct s.
  - rewrite seqZ_cons by lia. cbn [for_each].
    assert (frame_ok (m_frames s) f) as Hok by (split; eauto).
    mrun (kstore_run f j 0 s Hok ltac:(lia)).
    replace (Z.pred (S n)) with (Z.of_nat n) by lia.
    replace (Z.succ (Z.of_nat j)) with (Z.of_nat (S j)) by lia.
    rewrite (IH (S j) (<[j := 0]> l)); [|done| |by rewrite length_insert|lia].
    + unfold set_frames. simpl. do 3 f_equal. unfold frame_update.
      rewrite insert_alter_eq. f_equal. unfold WORDS_PER_PAGE in *.
      rewrite (take_S_r _ j 0) by (apply list_lookup_insert_eq; lia).
      rewrite take_insert_ge by lia. rewrite drop_insert_lt by lia.
      replace (j + S n)%nat with (S (j + n)) by lia. by rewrite <- app_assoc.
    + simpl. unfold frame_update. rewrite lookup_alter_eq, Hl. simpl. by rewrite Nat2Z.id.
Qed.

Lemma memset_page_run f s :
  frame_ok (m_frames s) f →
  memset_page (window f) s = Ret (tt, set_frames (<[f := zero_page]> (m_frames s)) s).
Proof.
  intros (Hf & l & Hl & Hlen). unfold memset_page.
  pose proof (memset_loop f WORDS_PER_PAGE 0 l s Hf Hl Hlen ltac:(done)) as Hm.
  change (Z.of_nat 0) with 0 in Hm. rewrite Hm. rewrite Nat.add_0_l, drop_ge by (rewrite Hlen; done).
  by rewrite app_nil_r.
Qed.

End access_lemmas.

Section alloc_lemmas.
Context `{!Config, !ConfigOk} {A : Type} `{!PfnCache A, !PfnAllocator A, !PfnAllocatorLaws A}.
Implicit Types s : mach A.

Lemma read_section rw :
  alock_ok rw → ∃ rw1, readlock rw = Ret (tt, rw1) ∧ readunlock rw1 = Ret (tt, rw).
Proof.
  intros (Hlr & Hr & Hlg). destruct rw as [r lr lg]. simpl in *. subst lr.
  exists (RW (r + 1) false (if r =? 0 then true else lg)).
  unfold readlock, readunlock, spinlock, spinunlock, mbind, M_bind, gets, modify. cbn.
  rewrite u32_small by (unfold word32; lia). replace (r + 1 - 1) with r by lia.
  rewrite u32_small by (unfold word32; lia).
  destruct (Z.eqb_spec r 0) as [->|Hne]; [|done]. by rewrite Hlg.
Qed.

(** Code that runs between [readlock] and [readunlock] leaves the lock as it
    was. *)
Lemma read_section_run {B} (m : M (mach A) B) s b (s' : mach A) rw1 :
  readlock (m_alock s) = Ret (tt, rw1) → readunlock rw1 = Ret (tt, m_alock s) →
  m (set_alock rw1 s) = Ret (b, set_alock rw1 s') → m_alock s' = m_alock s →
  (zoom m_alock set_alock readlock;; x ← m; zoom m_alock set_alock readunlock;; mret x) s
    = Ret (b, s').
Proof.
  intros H1 H2 Hm Hs. unfold zoom, mbind, M_bind. rewrite H1, Hm. simpl. rewrite H2.
  unfold mret, M_ret, set_alock. simpl. rewrite <- Hs. by destruct s'.
Qed.

Lemma taken_ok s r a' :
  alloc_ok s → r ∈ free_frames s → al_inv a' → al_free a' = free_frames s ∖ {[r]} →
  alloc_ok (taken s r a').
Proof.
  intros [Hi Hf Hp Hl] Hr Ha' Hfree. split; simpl; [done| | |done].
  - unfold free_frames. simpl. rewrite Hfree. intros f [Hin _]%elem_of_difference.
    apply frame_zero_ok; [by apply Hf|by apply Hf].
  - unfold free_frames. simpl. rewrite Hfree, Hp.
    rewrite size_difference by set_solver. rewrite size_singleton.
    assert (0 < size (free_frames s))%nat; [|lia].
    destruct (size (free_frames s)) eqn:E; [|lia]. apply size_empty_inv in E. set_solver.
Qed.

Lemma pfn_alloc_run low s :
  alloc_ok s →
  (free_frames s = ∅ ∧ pfn_alloc low s = Ret (PFN_INVALID, s)) ∨
  ∃ r a', r ∈ free_frames s ∧ pfn_alloc low s = Ret (r, taken s r a') ∧
    alloc_ok (taken s r a') ∧ al_free a' = free_frames s ∖ {[r]} ∧
    (∀ f, al_range a' f ↔ al_range (m_alloc s) f).
Proof.
  intros Hok. pose proof Hok as [Hi Hf Hp Hl].
  destruct (read_section _ Hl) as (rw1 & H1 & H2).
  destruct (nux_pfnalloc_ok low (set_alock rw1 s)) as [[He Hr]|(r & a' & Hr & Hrun & Ha' & Hfree & Hrg)];
    [done..| |].
  - left. split; [done|]. unfold pfn_alloc. by eapply read_section_run.
  - right. exists r, a'. split_and!; [done| |by apply taken_ok|done..].
    unfold pfn_alloc. by eapply read_section_run.
Qed.

Lemma pfn_free_run f s :
  alloc_ok s → f ∉ free_frames s → frame_ok (m_frames s) f → al_range (m_alloc s) f →
  ∃ a', pfn_free f s = Ret (tt, set_free_pages (m_free_pages s + 1) (set_alloc a' s)) ∧
    alloc_ok (set_free_pages (m_free_pages s + 1) (set_alloc a' s)) ∧
    al_free a' = {[f]} ∪ free_frames s ∧ (∀ g, al_range a' g ↔ al_range (m_alloc s) g).
Proof.
  intros [Hi Hf Hp Hl] Hnf Hfr Hrg. destruct (read_section _ Hl) as (rw1 & H1 & H2).
  destruct (nux_pfnfree_ok f (set_alock rw1 s)) as (a' & Hrun & Ha' & Hfree & Hrg'); [done..|].
  assert (size ({[f]} ∪ free_frames s) = S (size (free_frames s))) as Hsz.
  { rewrite size_union by set_solver. by rewrite size_singleton. }
  pose proof (al_free_bound a' Ha') as Hb. change (free_frames (set_alock rw1 s)) with (free_frames s) in *.
  exists a'. split_and!; [| |done..].
  - unfold pfn_free, zoom, mbind, M_bind. rewrite H1, Hrun. simpl.
    rewrite H2. unfold set_alock, set_free_pages, set_alloc. simpl.
    rewrite u64_small by (unfold word64; rewrite Hfree, Hsz in Hb; lia). by destruct s.
  - split; simpl; [done| | |done].
    + unfold free_frames. simpl. rewrite Hfree.
      intros g [->%elem_of_singleton|Hg]%elem_of_union; [done|by apply Hf].
    + unfold free_frames at 1. simpl. rewrite Hfree, Hsz. lia.
Qed.

End alloc_lemmas.
