(* ===== verification/Pfnalloc.v ===== *)
(** The page allocator of libnux/pfnalloc.c: an S-tree of free frames behind a
    spin lock, as an instance of the allocator contract. *)

From S2P Require Import Prelude Words Stree Locks Machine.

(** [stree], [order] and [pglock]. *)
Record pfa : Set := Pfa { pa_stree : list Z; pa_order : Z; pa_lock : bool }.

Section stree_alloc.
Context `{!Config} `{!PfnCache pfa}.

Definition set_stree (ws : list Z) (s : mach pfa) : mach pfa :=
  set_alloc (Pfa ws (pa_order (m_alloc s)) (pa_lock (m_alloc s))) s.

Definition set_pglock (b : bool) (s : mach pfa) : mach pfa :=
  set_alloc (Pfa (pa_stree (m_alloc s)) (pa_order (m_alloc s)) b) s.

Definition get_stree (s : mach pfa) : list Z := pa_stree (m_alloc s).
Definition get_order (s : mach pfa) : Z := pa_order (m_alloc s).
Definition get_pglock (s : mach pfa) : bool := pa_lock (m_alloc s).

Definition on_stree {B} (m : M (list Z) B) : M (mach pfa) B := zoom get_stree set_stree m.

(** The tree is the one the boot loader has left, as [hal_physmem_stree]
    returns it. *)
Definition stree_pfninit (hal_physmem_stree : list Z * Z) : M (mach pfa) unit :=
  modify (set_alloc (Pfa hal_physmem_stree.1 hal_physmem_stree.2 false));;
  order ← gets get_order;
  first ← on_stree (stree_bitsearch order true);
  last ← on_stree (stree_bitsearch order false);
  n ← on_stree (stree_count order);
  modify (set_free_pages n);;
  assertb (0 <=? first);;
  assertb (0 <=? last);;
  spinlock_init set_pglock.

Definition stree_pfnalloc (low : bool) : M (mach pfa) Z :=
  spinlock get_pglock set_pglock;;
  order ← gets get_order;
  pg ← on_stree (stree_bitsearch order low);
  when (0 <=? pg) (
    n ← gets m_free_pages;
    assertb (negb (n =? 0));;
    modify (set_free_pages (n - 1));;
    on_stree (stree_clrbit order pg));;
  spinunlock set_pglock;;
  if pg <? 0 then mret PFN_INVALID
  else
    va ← pfn_get pg;
    memset_page va;;
    pfn_put pg va;;
    mret pg.

Definition stree_pfnfree (pfn : Z) : M (mach pfa) unit :=
  assertb (negb (pfn =? PFN_INVALID));;
  assertb (pfn <? hal_physmem_maxpfn);;
  spinlock get_pglock set_pglock;;
  order ← gets get_order;
  on_stree (stree_setbit order pfn);;
  spinunlock set_pglock.

(** The members of a tree, as a set. *)
Definition tree_set (o : Z) (ws : list Z) : gset Z :=
  list_to_set (filter (λ a, member ws a = true) (seqZ 0 (2 ^ o))).

#[export] Instance stree_allocator : PfnAllocator pfa := {|
  nux_pfnalloc := stree_pfnalloc;
  nux_pfnfree := stree_pfnfree;
  al_free a := tree_set (pa_order a) (pa_stree a);
  al_range a f := 0 ≤ f < 2 ^ pa_order a ∧ f < hal_physmem_maxpfn;
  al_inv a := order_ok (pa_order a) ∧ stree_inv (pa_order a) (pa_stree a) ∧
    pa_lock a = false ∧
    ∀ f, f ∈ tree_set (pa_order a) (pa_stree a) → f < hal_physmem_maxpfn;
|}.

End stree_alloc.

(** * Lemmas *)

Lemma tree_set_represents o ws X : represents o ws X ↔ stree_inv o ws ∧ X = tree_set o ws.
Proof.
  assert (∀ a, a ∈ tree_set o ws ↔ 0 ≤ a < 2 ^ o ∧ member ws a = true) as Ht.
  { intros a. unfold tree_set. rewrite elem_of_list_to_set, list_elem_of_filter, elem_of_seqZ.
    rewrite Z.add_0_l. tauto. }
  unfold represents. split; intros [Hi HX]; (split; [done|]).
  - apply set_eq. intros a. by rewrite HX, Ht.
  - intros a. by rewrite HX, Ht.
Qed.

Section lemmas.
Context `{!Config, !ConfigOk} `{!PfnCache pfa}.
Implicit Types s : mach pfa.

Lemma on_stree_run {B} (m : M (list Z) B) b ws s :
  m (get_stree s) = Ret (b, ws) → on_stree m s = Ret (b, set_stree ws s).
Proof. intros Hm. unfold on_stree, zoom. by rewrite Hm. Qed.

Lemma set_stree_id s : set_stree (get_stree s) s = s.
Proof. by destruct s as [????? []]. Qed.

Lemma al_inv_represents (a : pfa) :
  al_inv a → represents (pa_order a) (pa_stree a) (al_free a).
Proof. intros (_ & Hi & _). by apply tree_set_represents. Qed.

(** The state between [spinlock] and [spinunlock]. *)
Lemma pglock_run s : get_pglock s = false → spinlock get_pglock set_pglock s = Ret (tt, set_pglock true s).
Proof. intros E. unfold spinlock. by rewrite E. Qed.

Lemma stree_pfnalloc_run low s :
  al_inv (m_alloc s) → (∀ f, f ∈ free_frames s → frame_ok (m_frames s) f) →
  m_free_pages s = Z.of_nat (size (free_frames s)) →
  (free_frames s = ∅ ∧ stree_pfnalloc low s = Ret (PFN_INVALID, s)) ∨
  ∃ r ws, r ∈ free_frames s ∧ (∀ f, f ∈ free_frames s → before low r f) ∧
    stree_pfnalloc low s = Ret (r, taken s r (Pfa ws (pa_order (m_alloc s)) false)) ∧
    represents (pa_order (m_alloc s)) ws (free_frames s ∖ {[r]}).
Proof.
  intros Hinv Hfr Hn. pose proof (al_inv_represents _ Hinv) as HR.
  destruct Hinv as (Ho & _ & Hlk & _). unfold stree_pfnalloc.
  mrun (pglock_run s Hlk). set (s1 := set_pglock true s).
  change (get_order s1) with (pa_order (m_alloc s)). set (o := pa_order (m_alloc s)) in *.
  assert (set_pglock false s1 = s) as Hback by (destruct s as [????? [?? []]]; done).
  destruct (stree_bitsearch_refines o low (get_stree s1) (al_free (m_alloc s)))
    as (r & Hr & Hres); [done|exact HR|].
  pose proof (on_stree_run _ _ _ s1 Hr) as Hon. rewrite set_stree_id in Hon. mrun Hon.
  destruct Hres as [[-> He]|[Hin Hext]].
  - left. split; [done|].
    transitivity (Ret (PFN_INVALID, set_pglock false s1)); [done|by rewrite Hback].
  - right. assert (0 ≤ r < 2 ^ o) as Hr0 by (by apply HR).
    destruct (stree_clrbit_refines o r (get_stree s1) (al_free (m_alloc s)))
      as (ws & Hc & HR' & _); [done|exact HR|done|].
    exists r, ws. split_and!; [done|done| |done].
    rewrite (proj2 (Z.leb_le 0 r)), (proj2 (Z.ltb_ge r 0)) by lia. cbn [when].
    assert (m_free_pages s ≠ 0) as Hne.
    { rewrite Hn. intros Hz. assert (size (free_frames s) = 0%nat) as Hz' by lia.
      apply size_empty_inv in Hz'. set_solver. }
    rewrite bind_assoc. mrun. rewrite bind_assoc, bind_assert
      by (apply negb_true_iff, Z.eqb_neq; done). rewrite bind_assoc. mrun.
    set (s2 := set_free_pages _ s1).
    mrun (on_stree_run _ _ _ s2 Hc). unfold spinunlock. mrun.
    destruct (Hfr r Hin) as [Hrd _]. rewrite (bind_Ret _ _ _ _ _ (pfn_get_run r _ Hrd)).
    match goal with |- (_ ≫= _) ?s3 = _ =>
      rewrite (bind_Ret _ _ _ _ _ (memset_page_run r s3 (Hfr r Hin))) end.
    rewrite (bind_Ret _ _ _ _ _ (pfn_put_run r _ _ Hrd)). done.
Qed.

Lemma stree_pfnfree_run f s :
  al_inv (m_alloc s) → al_range (m_alloc s) f →
  ∃ ws, stree_pfnfree f s = Ret (tt, set_alloc (Pfa ws (pa_order (m_alloc s)) false) s) ∧
    represents (pa_order (m_alloc s)) ws ({[f]} ∪ free_frames s).
Proof.
  intros Hinv [Hf Hmax]. pose proof (al_inv_represents _ Hinv) as HR.
  destruct Hinv as (Ho & _ & Hlk & _).
  assert (2 ^ pa_order (m_alloc s) ≤ 2 ^ 25) by (apply Z.pow_le_mono_r; unfold order_ok in Ho; lia).
  unfold stree_pfnfree.
  rewrite bind_assert by (apply negb_true_iff, Z.eqb_neq; unfold PFN_INVALID; lia).
  rewrite bind_assert by lia. mrun (pglock_run s Hlk).
  destruct (stree_setbit_refines (pa_order (m_alloc s)) f (get_stree (set_pglock true s))
    (al_free (m_alloc s))) as (ws & Hc & HR' & _); [done|exact HR|done|].
  exists ws. split; [|done]. by mrun (on_stree_run _ _ _ (set_pglock true s) Hc).
Qed.

#[export] Instance stree_allocator_laws : PfnAllocatorLaws pfa.
Proof.
  split.
  - intros low s Hinv Hfr Hn.
    destruct (stree_pfnalloc_run low s Hinv Hfr Hn) as [?|(r & ws & Hr & _ & Hrun & HR)]; [by left|].
    right. eexists r, _. split_and!; [done|exact Hrun| |by apply tree_set_represents in HR as [_ ->]|done].
    apply tree_set_represents in HR as [Hi HR]. destruct Hinv as (Ho & _ & _ & Hm).
    split_and!; [done..|]. simpl. rewrite <- HR. intros f [Hf _]%elem_of_difference. by apply Hm.
  - intros f s Hinv Hrg.
    destruct (stree_pfnfree_run f s Hinv Hrg) as (ws & Hrun & HR).
    eexists. split_and!; [exact Hrun| |by apply tree_set_represents in HR as [_ ->]|done].
    apply tree_set_represents in HR as [Hi HR]. destruct Hinv as (Ho & _ & _ & Hm).
    split_and!; [done..|]. simpl. rewrite <- HR.
    intros g [->%elem_of_singleton|Hg]%elem_of_union; [apply Hrg|by apply Hm].
  - intros a f Hinv Hf. pose proof (al_inv_represents a Hinv) as [_ HX].
    split; [by apply HX|]. destruct Hinv as (_ & _ & _ & Hm). by apply Hm.
  - intros a Hinv. pose proof (al_inv_represents a Hinv) as [_ HX].
    destruct Hinv as (Ho & _). unfold order_ok in Ho.
    rewrite (size_count _ (member (pa_stree a)) (Z.to_nat (2 ^ pa_order a))).
    + pose proof (count_below_bounds (member (pa_stree a)) (Z.to_nat (2 ^ pa_order a))).
      assert (2 ^ pa_order a ≤ 2 ^ 25) by (apply Z.pow_le_mono_r; lia). lia.
    + intros b. rewrite HX. rewrite Z2Nat.id by lia. done.
Qed.

(** ** Allocating several frames *)

(** [n] calls of [pfn_alloc]: the frames handed out, in order. *)
Fixpoint pfn_alloc_many (n : nat) (low : bool) : M (mach pfa) (list Z) :=
  match n with
  | O => mret []
  | S n' => r ← pfn_alloc low; rs ← pfn_alloc_many n' low; mret (r :: rs)
  end.

Lemma pfn_alloc_many_run (n : nat) low : ∀ s,
  alloc_ok s → (n ≤ size (free_frames s))%nat →
  ∃ rs s', pfn_alloc_many n low s = Ret (rs, s') ∧ alloc_ok s' ∧ length rs = n ∧ NoDup rs ∧
    free_frames s' = free_frames s ∖ list_to_set rs ∧
    (∀ r, r ∈ rs → r ∈ free_frames s ∧ m_frames s' !! r = Some zero_page) ∧
    (∀ f, f ∉ rs → m_frames s' !! f = m_frames s !! f).
Proof.
  induction n as [|n IH]; intros s Hok Hn.
  - exists [], s. split_and!; [done|done|done|constructor|set_solver|set_solver|done].
  - destruct (pfn_alloc_run low s Hok) as [[He _]|(r & a' & Hr & Hrun & Hok' & Hfree & _)].
    { rewrite He, size_empty in Hn. lia. }
    assert (free_frames (taken s r a') = free_frames s ∖ {[r]}) as Ht by exact Hfree.
    destruct (IH (taken s r a')) as (rs & s' & Hrs & Hok2 & Hlen & Hnd & Hf2 & Hin & Hout); [done| |].
    { rewrite Ht, size_difference, size_singleton by set_solver. lia. }
    assert (r ∉ rs) as Hnr. { intros Hr'. apply Hin in Hr' as [Hr' _]. set_solver. }
    exists (r :: rs), s'. cbn [pfn_alloc_many]. mrun Hrun. mrun Hrs. split_and!.
    + done.
    + done.
    + simpl. lia.
    + by constructor.
    + rewrite Hf2, Ht. set_solver.
    + intros r' [->|Hr']%elem_of_cons.
      * split; [done|]. rewrite Hout by done. simpl. by rewrite lookup_insert_eq.
      * destruct (Hin r' Hr') as [Hr1 ?]. split; [set_solver|done].
    + intros f [Hne Hf]%not_elem_of_cons. rewrite Hout by done. simpl.
      by rewrite lookup_insert_ne.
Qed.

End lemmas.

(** * A small machine, for evaluation *)

Definition ex_config : Config := {|
  hal_virtmem_dmapbase := 0xffffff0000000000;
  max_dmap_pfn := 2 ^ 27;
  hal_physmem_maxpfn := 8;
|}.

Definition ex_nocache : PfnCache pfa := {|
  pfncache_get _ := stop Fault;
  pfncache_put _ _ := stop Fault;
|}.

#[local] Existing Instance ex_config.
#[local] Existing Instance ex_nocache.

Definition ex_page : list Z := replicate WORDS_PER_PAGE 7.

Definition ex_mach : mach pfa :=
  Mach {[1 := ex_page; 2 := ex_page]} ∅ 0 2 rwlock_init (Pfa [6] 3 false).

Lemma ex_config_ok : ConfigOk.
Proof. split; vm_compute; done. Qed.

#[local] Existing Instance ex_config_ok.

Lemma ex_free : free_frames ex_mach = {[1; 2]}.
Proof. symmetry. by apply (tree_set_represents 3 [6]), tree_3_12. Qed.

Lemma ex_frames f : f ∈ free_frames ex_mach → frame_ok (m_frames ex_mach) f.
Proof.
  rewrite ex_free. intros [->%elem_of_singleton| ->%elem_of_singleton]%elem_of_union;
    (split; [vm_compute; done|by exists ex_page]).
Qed.

Lemma ex_inv : al_inv (m_alloc ex_mach).
Proof.
  split_and!; [done|apply tree_3_12|done|]. change (tree_set _ _) with (free_frames ex_mach).
  rewrite ex_free. intros f [->%elem_of_singleton| ->%elem_of_singleton]%elem_of_union; done.
Qed.

Lemma ex_pages : m_free_pages ex_mach = Z.of_nat (size (free_frames ex_mach)).
Proof. rewrite ex_free. done. Qed.

Lemma ex_alloc_ok : alloc_ok ex_mach.
Proof. split; [apply ex_inv|apply ex_frames|apply ex_pages|done]. Qed.

(** The same allocator with frames 1 to 4 free, in any memory that has them. *)
Lemma tree_3_1234 : represents 3 [30] {[1; 2; 3; 4]}.
Proof.
  destruct (stree_history_run 3 [OpSet 1; OpSet 2; OpSet 3; OpSet 4] [0] ∅) as (ws & Hr & HR);
    [done|apply zero_tree_3|repeat constructor; simpl; lia|].
  vm_compute in Hr. injection Hr as <-. cbn in HR.
  by replace ({[4]} ∪ ({[3]} ∪ ({[2]} ∪ ({[1]} ∪ ∅)))) with ({[1; 2; 3; 4]} : gset Z) in HR by set_solver.
Qed.

Definition ex_mach4 (fs : gmap Z (list Z)) (kd : gmap Z Z) (root : Z) : mach pfa :=
  Mach fs kd root 4 rwlock_init (Pfa [30] 3 false).

Lemma ex_free4 fs kd root : free_frames (ex_mach4 fs kd root) = {[1; 2; 3; 4]}.
Proof. symmetry. by apply (tree_set_represents 3 [30]), tree_3_1234. Qed.

Lemma ex_alloc4_ok fs kd root :
  (∀ f, f = 1 ∨ f = 2 ∨ f = 3 ∨ f = 4 → fs !! f = Some ex_page) → alloc_ok (ex_mach4 fs kd root).
Proof.
  intros Hfs. assert (∀ f, f ∈ free_frames (ex_mach4 fs kd root) → f = 1 ∨ f = 2 ∨ f = 3 ∨ f = 4) as Hf
    by (intros f; rewrite ex_free4; set_solver).
  split; [| |by rewrite ex_free4|done].
  - split_and!; [done|apply tree_3_1234|done|].
    change (tree_set _ _) with (free_frames (ex_mach4 fs kd root)). intros f [->|[->|[->| ->]]]%Hf; done.
  - intros f Hin. specialize (Hfs f (Hf f Hin)). split; [|by exists ex_page].
    apply Hf in Hin as [->|[->|[->| ->]]]; done.
Qed.

(** And with frame 4 free. *)
Lemma tree_3_4 : represents 3 [16] {[4]}.
Proof.
  destruct (stree_history_run 3 [OpSet 4] [0] ∅) as (ws & Hr & HR);
    [done|apply zero_tree_3|repeat constructor; simpl; lia|].
  vm_compute in Hr. injection Hr as <-. cbn in HR. by rewrite (right_id_L ∅ (∪)) in HR.
Qed.

Definition ex_mach1 (fs : gmap Z (list Z)) (kd : gmap Z Z) (root : Z) : mach pfa :=
  Mach fs kd root 1 rwlock_init (Pfa [16] 3 false).

Lemma ex_free1 fs kd root : free_frames (ex_mach1 fs kd root) = {[4]}.
Proof. symmetry. by apply (tree_set_represents 3 [16]), tree_3_4. Qed.

Lemma ex_alloc1_ok fs kd root : fs !! 4 = Some ex_page → alloc_ok (ex_mach1 fs kd root).
Proof.
  intros Hfs. assert (∀ f, f ∈ free_frames (ex_mach1 fs kd root) → f = 4) as Hf
    by (intros f; rewrite ex_free1; set_solver).
  split; [| |by rewrite ex_free1|done].
  - split_and!; [done|apply tree_3_4|done|]. change (tree_set _ _) with (free_frames (ex_mach1 fs kd root)).
    by intros f ->%Hf.
  - intros f ->%Hf. split; [done|by exists ex_page].
Qed.

(** * Properties *)

(** C19. [stree_pfnalloc] takes the lowest or the highest free frame out of the
    tree, decrements the count of free pages, zeroes the frame, releases the
    lock and touches nothing else; it answers [PFN_INVALID], with the machine
    unchanged, exactly when no frame is free. *)
Theorem stree_pfnalloc_correct `{!Config} (Hc : ConfigOk) `{!PfnCache pfa} (low : bool)
    (s : mach pfa) (Hinv : al_inv (m_alloc s))
    (Hfr : ∀ f, f ∈ free_frames s → frame_ok (m_frames s) f)
    (Hn : m_free_pages s = Z.of_nat (size (free_frames s))) :
  (free_frames s = ∅ ∧ stree_pfnalloc low s = Ret (PFN_INVALID, s)) ∨
  ∃ r ws, r ∈ free_frames s ∧ r ≠ PFN_INVALID ∧
    (∀ f, f ∈ free_frames s → if low then r ≤ f else f ≤ r) ∧
    stree_pfnalloc low s = Ret (r,
      Mach (<[r := zero_page]> (m_frames s)) (m_kdata s) (m_root s) (m_free_pages s - 1)
        (m_alock s) (Pfa ws (pa_order (m_alloc s)) false)) ∧
    represents (pa_order (m_alloc s)) ws (free_frames s ∖ {[r]}).
Proof.
  destruct (stree_pfnalloc_run low s Hinv Hfr Hn) as [?|(r & ws & Hr & Hb & Hrun & HR)]; [by left|].
  right. exists r, ws. split_and!; [done| |done..]. by apply pfn_valid, Hfr.
Qed.

Lemma stree_pfnalloc_correct_witness :
  (free_frames ex_mach = ∅ ∧ stree_pfnalloc false ex_mach = Ret (PFN_INVALID, ex_mach)) ∨
  ∃ r ws, r ∈ free_frames ex_mach ∧ r ≠ PFN_INVALID ∧
    (∀ f, f ∈ free_frames ex_mach → f ≤ r) ∧
    stree_pfnalloc false ex_mach = Ret (r,
      Mach (<[r := zero_page]> (m_frames ex_mach)) ∅ 0 (2 - 1) rwlock_init (Pfa ws 3 false)) ∧
    represents 3 ws (free_frames ex_mach ∖ {[r]}).
Proof. exact (stree_pfnalloc_correct ex_config_ok false ex_mach ex_inv ex_frames ex_pages). Defined.

(** C22. Frames are never handed out twice: [n] calls of [pfn_alloc], while at
    least [n] frames are free, return [n] different frames that were free, all
    zeroed, leave the other frames alone and keep the allocator consistent. *)
Theorem pfn_alloc_many_correct `{!Config} (Hc : ConfigOk) `{!PfnCache pfa} (n : nat) (low : bool)
    (s : mach pfa) (Hok : alloc_ok s) (Hn : (n ≤ size (free_frames s))%nat) :
  ∃ rs s', pfn_alloc_many n low s = Ret (rs, s') ∧ alloc_ok s' ∧ length rs = n ∧ NoDup rs ∧
    free_frames s' = free_frames s ∖ list_to_set rs ∧
    (∀ r, r ∈ rs → r ∈ free_frames s ∧ m_frames s' !! r = Some zero_page) ∧
    (∀ f, f ∉ rs → m_frames s' !! f = m_frames s !! f).
Proof. by apply pfn_alloc_many_run. Qed.

Lemma pfn_alloc_many_correct_witness :
  ∃ rs s', pfn_alloc_many 2 true ex_mach = Ret (rs, s') ∧ alloc_ok s' ∧ length rs = 2%nat ∧ NoDup rs ∧
    free_frames s' = free_frames ex_mach ∖ list_to_set rs ∧
    (∀ r, r ∈ rs → r ∈ free_frames ex_mach ∧ m_frames s' !! r = Some zero_page) ∧
    (∀ f, f ∉ rs → m_frames s' !! f = m_frames ex_mach !! f).
Proof.
  apply (pfn_alloc_many_correct ex_config_ok 2 true ex_mach ex_alloc_ok).
  rewrite ex_free. vm_compute. lia.
Defined.

(** [pfn_free] after [pfn_alloc] is the identity on the allocator: the set of
    free frames and the count of free pages are what they were. *)
Theorem pfn_alloc_free_roundtrip `{!Config} (Hc : ConfigOk) `{!PfnCache pfa} (low : bool)
    (s : mach pfa) (Hok : alloc_ok s) (Hne : free_frames s ≠ ∅) :
  ∃ r s1 s2, pfn_alloc low s = Ret (r, s1) ∧ r ∈ free_frames s ∧ r ∉ free_frames s1 ∧
    pfn_free r s1 = Ret (tt, s2) ∧ alloc_ok s2 ∧ free_frames s2 = free_frames s ∧
    pfn_avail s2 = Ret (m_free_pages s, s2).
Proof.
  destruct (pfn_alloc_run low s Hok) as [[He _]|(r & a' & Hr & Hrun & Hok' & Hfree & Hrg)]; [done|].
  assert (free_frames (taken s r a') = free_frames s ∖ {[r]}) as Ht by exact Hfree.
  destruct (pfn_free_run r (taken s r a')) as (a'' & Hrun2 & Hok2 & Hfree2 & _); [done|set_solver| | |].
  { apply frame_zero_ok; by apply Hok. }
  { apply Hrg. apply al_free_range; [by apply Hok|done]. }
  exists r. do 2 eexists. split_and!; [exact Hrun|done|set_solver|exact Hrun2|done| |].
  - change (al_free a'' = free_frames s). rewrite Hfree2, Ht. symmetry.
    rewrite (union_comm_L {[r]}). rewrite difference_union_L. set_solver.
  - unfold pfn_avail, gets. simpl. do 2 f_equal. lia.
Qed.

Lemma pfn_alloc_free_roundtrip_witness :
  ∃ r s1 s2, pfn_alloc true ex_mach = Ret (r, s1) ∧ r ∈ free_frames ex_mach ∧
    r ∉ free_frames s1 ∧ pfn_free r s1 = Ret (tt, s2) ∧ alloc_ok s2 ∧
    free_frames s2 = free_frames ex_mach ∧ pfn_avail s2 = Ret (m_free_pages ex_mach, s2).
Proof.
  apply (pfn_alloc_free_roundtrip ex_config_ok true ex_mach ex_alloc_ok).
  rewrite ex_free. done.
Defined.

(** [stree_pfninit] adopts the boot loader's tree: on a tree that holds the
    set [X] it stops at its assertion exactly when [X] is empty, and otherwise
    sets the count of free pages to the size of [X]. *)
Theorem stree_pfninit_correct `{!Config} (o : Z) (ws : list Z) (X : gset Z) (s : mach pfa)
    (Ho : order_ok o) (HR : represents o ws X) :
  (X = ∅ ∧ stree_pfninit (ws, o) s = Abort AssertFail) ∨
  (X ≠ ∅ ∧ ∃ s', stree_pfninit (ws, o) s = Ret (tt, s') ∧ m_alloc s' = Pfa ws o false ∧
    free_frames s' = X ∧ m_free_pages s' = Z.of_nat (size X) ∧ m_frames s' = m_frames s).
Proof.
  unfold stree_pfninit. mrun. set (s1 := set_alloc _ s). change (get_order s1) with o.
  destruct (stree_bitsearch_refines o true (get_stree s1) X) as (r1 & Hr1 & H1); [done|exact HR|].
  destruct (stree_bitsearch_refines o false (get_stree s1) X) as (r2 & Hr2 & H2); [done|exact HR|].
  pose proof (on_stree_run _ _ _ s1 Hr1) as E1. pose proof (on_stree_run _ _ _ s1 Hr2) as E2.
  pose proof (on_stree_run _ _ _ s1 (stree_count_refines o ws X Ho HR)) as E3.
  change (set_stree ws s1) with s1 in E3. rewrite set_stree_id in E1, E2.
  mrun E1. mrun E2. mrun E3.
  destruct H1 as [[-> He]|[Hin1 _]]; [by left|]. right.
  destruct H2 as [[-> He]|[Hin2 _]]; [set_solver|].
  assert (0 ≤ r1) by (apply HR in Hin1; lia). assert (0 ≤ r2) by (apply HR in Hin2; lia).
  split; [set_solver|]. eexists. rewrite bind_assert by lia. rewrite bind_assert by lia.
  split; [done|]. split_and!; [done| |done..].
  symmetry. by apply (tree_set_represents o ws X).
Qed.

Lemma stree_pfninit_correct_witness :
  (({[1; 2]} : gset Z) = ∅ ∧ stree_pfninit ([6], 3) ex_mach = Abort AssertFail) ∨
  (({[1; 2]} : gset Z) ≠ ∅ ∧ ∃ s', stree_pfninit ([6], 3) ex_mach = Ret (tt, s') ∧
    m_alloc s' = Pfa [6] 3 false ∧ free_frames s' = {[1; 2]} ∧
    m_free_pages s' = Z.of_nat (size ({[1; 2]} : gset Z)) ∧ m_frames s' = m_frames ex_mach).
Proof. exact (stree_pfninit_correct 3 [6] {[1; 2]} ex_mach ltac:(done) tree_3_12). Defined.
