(* ===== verification/Hal.v ===== *)
(** Constants of include/nux/hal.h and include/nux/types.h that the machine
    independent code and the two HALs share. *)

From S2P Require Import Prelude Words.

Definition HAL_PTE_P : Z := 1.
Definition HAL_PTE_W : Z := 2.
Definition HAL_PTE_X : Z := 4.
Definition HAL_PTE_U : Z := 8.
Definition HAL_PTE_GLOBAL : Z := 16.
Definition HAL_PTE_A : Z := 32.
Definition HAL_PTE_D : Z := 64.
Definition HAL_PTE_AVL0 : Z := 128.
Definition HAL_PTE_AVL1 : Z := 256.
Definition HAL_PTE_AVL2 : Z := 512.

Definition HAL_TLBOP_NONE : Z := 0.
Definition HAL_TLBOP_FLUSH : Z := 1.
Definition HAL_TLBOP_FLUSHALL : Z := 2.

Definition L1P_INVALID : Z := 0.
Definition UADDR_INVALID : Z := 2 ^ 64 - 1.

(** [x & m], as a condition. *)
Definition has (x m : Z) : bool := negb (Z.land x m =? 0).

(** [if (c) x |= m]. *)
Definition or_if (c : bool) (m x : Z) : Z := if c then Z.lor x m else x.

Lemma or_if_lor c m x y : or_if c m (Z.lor x y) = Z.lor x (or_if c m y).
Proof. destruct c; simpl; [|done]. by rewrite Z.lor_assoc. Qed.

Lemma lor_bound x y n : 0 ≤ x < 2 ^ n → 0 ≤ y < 2 ^ n → 0 ≤ n → 0 ≤ Z.lor x y < 2 ^ n.
Proof.
  intros Hx Hy Hn. assert (0 ≤ Z.lor x y) by (apply Z.lor_nonneg; lia). split; [done|].
  apply lt_pow2_bits; [done..|]. intros i Hi.
  rewrite Z.lor_spec, (testbit_above x n), (testbit_above y n); done.
Qed.

Lemma or_if_bound c m x n : 0 ≤ x < 2 ^ n → 0 ≤ m < 2 ^ n → 0 ≤ n → 0 ≤ or_if c m x < 2 ^ n.
Proof. intros. destruct c; simpl; [by apply lor_bound|done]. Qed.

(** Bits of [x << k] below [k]. *)
Lemma land_shiftl_low x k m : 0 ≤ k → 0 ≤ m < 2 ^ k → Z.land (Z.shiftl x k) m = 0.
Proof.
  intros Hk Hm. apply Z.bits_inj'. intros n Hn. rewrite Z.land_spec, Z.bits_0.
  destruct (Z.lt_ge_cases n k) as [Hlt|Hge].
  - by rewrite Z.shiftl_spec_low.
  - rewrite (testbit_above m k n); [by rewrite andb_false_r|done..].
Qed.

Lemma has_lor_shiftl x k y m :
  0 ≤ k → 0 ≤ m < 2 ^ k → has (Z.lor (Z.shiftl x k) y) m = has y m.
Proof.
  intros Hk Hm. unfold has. rewrite Z.land_lor_distr_l, land_shiftl_low by done.
  by rewrite Z.lor_0_l.
Qed.

Lemma lor_shiftl_add x y k : 0 ≤ k → 0 ≤ y < 2 ^ k → Z.lor (Z.shiftl x k) y = x * 2 ^ k + y.
Proof.
  intros Hk Hy. rewrite <- Z.shiftl_mul_pow2 by done.
  rewrite <- Z.lxor_lor by (by apply land_shiftl_low).
  symmetry. apply Z.add_nocarry_lxor. by apply land_shiftl_low.
Qed.

Lemma land_ones_9 x : Z.land x 0x1ff = x `mod` 512.
Proof. change 0x1ff with (Z.ones 9). by rewrite Z.land_ones. Qed.

Lemma has_or_if c m x n : Z.land m n = 0 → has (or_if c m x) n = has x n.
Proof. intros Hm. destruct c; simpl; [|done]. unfold has. by rewrite Z.land_lor_distr_l, Hm, Z.lor_0_r. Qed.

Lemma has_u64_shiftl x k m : 0 ≤ k ≤ 64 → 0 ≤ m < 2 ^ k → has (u64 (Z.shiftl x k)) m = false.
Proof.
  intros Hk Hm. unfold has. apply negb_false_iff, Z.eqb_eq. apply Z.bits_inj'. intros i Hi.
  rewrite Z.land_spec, Z.bits_0. destruct (Z.lt_ge_cases i k) as [Hlt|Hge].
  - unfold u64. rewrite Z.mod_pow2_bits_low by lia. by rewrite Z.shiftl_spec_low.
  - rewrite (testbit_above m k i); [by rewrite andb_false_r|done..].
Qed.
