(* ===== verification/X86Pmap.v ===== *)
(** Last-level page table entries of the x86 HAL (libhal_x86/pmap.c and
    libhal_x86/internal.h): how the machine independent protection bits are
    encoded, decoded, and which TLB operation a change of entry asks for. *)

From S2P Require Import Prelude Words Hal.

Definition PTE_P : Z := 1.
Definition PTE_W : Z := 2.
Definition PTE_U : Z := 4.
Definition PTE_A : Z := 0x20.
Definition PTE_D : Z := 0x40.
Definition PTE_PS : Z := 0x80.
Definition PTE_G : Z := 0x100.
Definition PTE_NX : Z := 0x8000000000000000.
Definition PTE_AVAIL0 : Z := Z.shiftl 1 9.
Definition PTE_AVAIL1 : Z := Z.shiftl 2 9.
Definition PTE_AVAIL2 : Z := Z.shiftl 4 9.

Definition l1epfn (l1e : Z) : Z := Z.shiftr (Z.land l1e 0x7ffffffffffff000) 12.
Definition l1eflags (l1e : Z) : Z := Z.land l1e 0x8000000000000fff.

(** [pte_nx] is [PTE_NX] when the CPU supports it and 0 otherwise. *)
Definition hal_l1e_box (pte_nx pfn prot : Z) : Z :=
  let l1e := u64 (Z.shiftl pfn 12) in
  let l1e := or_if (has prot HAL_PTE_P) PTE_P l1e in
  let l1e := or_if (has prot HAL_PTE_W) PTE_W l1e in
  let l1e := or_if (negb (has prot HAL_PTE_X) && has prot HAL_PTE_P) pte_nx l1e in
  let l1e := or_if (has prot HAL_PTE_U) PTE_U l1e in
  let l1e := or_if (has prot HAL_PTE_GLOBAL) PTE_G l1e in
  let l1e := or_if (has prot HAL_PTE_A) PTE_A l1e in
  let l1e := or_if (has prot HAL_PTE_D) PTE_D l1e in
  let l1e := or_if (has prot HAL_PTE_AVL0) PTE_AVAIL0 l1e in
  let l1e := or_if (has prot HAL_PTE_AVL1) PTE_AVAIL1 l1e in
  or_if (has prot HAL_PTE_AVL2) PTE_AVAIL2 l1e.

Definition unbox_prot (l1e : Z) : Z :=
  let prot := 0 in
  let prot := or_if (has l1e PTE_P) HAL_PTE_P prot in
  let prot := or_if (has l1e PTE_W) HAL_PTE_W prot in
  let prot := or_if (negb (has l1e PTE_NX) && has l1e PTE_P) HAL_PTE_X prot in
  let prot := or_if (has l1e PTE_U) HAL_PTE_U prot in
  let prot := or_if (has l1e PTE_G) HAL_PTE_GLOBAL prot in
  let prot := or_if (has l1e PTE_A) HAL_PTE_A prot in
  let prot := or_if (has l1e PTE_D) HAL_PTE_D prot in
  let prot := or_if (has l1e PTE_AVAIL0) HAL_PTE_AVL0 prot in
  let prot := or_if (has l1e PTE_AVAIL1) HAL_PTE_AVL1 prot in
  or_if (has l1e PTE_AVAIL2) HAL_PTE_AVL2 prot.

(** The frame and the protection, as [pfnp] and [protp] receive them. *)
Definition hal_l1e_unbox (l1e : Z) : Z * Z := (l1epfn l1e, unbox_prot l1e).

(** [restricts_permissions] is the constant 1 in the code. *)
Definition hal_l1e_tlbop (old new : Z) : Z :=
  if negb (has (l1eflags old) PTE_P) then 0
  else if negb (l1epfn old =? l1epfn new) || true then
    if has (l1eflags old) PTE_G || has (l1eflags new) PTE_G
    then HAL_TLBOP_FLUSHALL else HAL_TLBOP_FLUSH
  else HAL_TLBOP_NONE.

(** * Lemmas *)

(** The flags of a boxed entry do not depend on the frame. *)
Definition box_flags (pte_nx prot : Z) : Z := hal_l1e_box pte_nx 0 prot.

Lemma box_split pte_nx pfn prot :
  0 ≤ pfn < 2 ^ 51 → hal_l1e_box pte_nx pfn prot = Z.lor (Z.shiftl pfn 12) (box_flags pte_nx prot).
Proof.
  intros Hpfn. unfold box_flags, hal_l1e_box. rewrite Z.shiftl_0_l. change (u64 0) with 0.
  rewrite u64_small by (unfold word64; rewrite Z.shiftl_mul_pow2 by lia; lia).
  rewrite <- (Z.lor_0_r (Z.shiftl pfn 12)) at 1. by rewrite !or_if_lor.
Qed.

(** What comes back of [prot] when it has been boxed. *)
Definition boxed_prot (nx : bool) (prot : Z) : Z :=
  if has prot HAL_PTE_P
  then (if nx then prot else Z.lor prot HAL_PTE_X)
  else Z.ldiff prot HAL_PTE_X.

Definition nx_value (nx : bool) : Z := if nx then PTE_NX else 0.

Lemma box_flags_checked :
  Forall (λ prot, Forall (λ nx,
    unbox_prot (box_flags (nx_value nx) prot) = boxed_prot nx prot ∧
    Z.land (box_flags (nx_value nx) prot) 0x7ffffffffffff000 = 0 ∧
    has (box_flags (nx_value nx) prot) PTE_P = has prot HAL_PTE_P ∧
    has (box_flags (nx_value nx) prot) PTE_G = has prot HAL_PTE_GLOBAL ∧
    0 ≤ box_flags (nx_value nx) prot < 2 ^ 64) [true; false]) (seqZ 0 1024).
Proof. apply (bool_decide_unpack _). vm_compute. done. Qed.

Lemma box_flags_facts nx prot :
  0 ≤ prot < 1024 →
  unbox_prot (box_flags (nx_value nx) prot) = boxed_prot nx prot ∧
  Z.land (box_flags (nx_value nx) prot) 0x7ffffffffffff000 = 0 ∧
  has (box_flags (nx_value nx) prot) PTE_P = has prot HAL_PTE_P ∧
  has (box_flags (nx_value nx) prot) PTE_G = has prot HAL_PTE_GLOBAL ∧
  0 ≤ box_flags (nx_value nx) prot < 2 ^ 64.
Proof.
  intros Hp. pose proof box_flags_checked as Hc. rewrite Forall_seqZ in Hc.
  specialize (Hc prot ltac:(lia)). rewrite !Forall_cons in Hc. by destruct nx, Hc as (? & ? & _).
Qed.

(** Any entry is a frame number and flags. *)
Lemma l1e_split l1e : word64 l1e → l1e = Z.lor (Z.shiftl (l1epfn l1e) 12) (l1eflags l1e).
Proof.
  intros Hw. unfold l1epfn, l1eflags. apply Z.bits_inj'. intros i Hi.
  rewrite Z.lor_spec, Z.land_spec, Z.shiftl_spec by done.
  destruct (Z.lt_ge_cases i 12) as [Hlt|Hge].
  - rewrite (Z.testbit_neg_r _ (i - 12)) by lia. simpl.
    replace (Z.testbit 0x8000000000000fff i) with true; [by rewrite andb_true_r|].
    assert (Forall (λ i, true = Z.testbit 0x8000000000000fff i) (seqZ 0 12)) as Hc
      by (apply (bool_decide_unpack _); vm_compute; done).
    rewrite Forall_seqZ in Hc. apply Hc. lia.
  - rewrite Z.shiftr_spec, Z.land_spec by lia. replace (i - 12 + 12) with i by lia.
    destruct (Z.lt_ge_cases i 64) as [Hlt|Hge'].
    + assert (Forall (λ i, Z.testbit 0x7ffffffffffff000 i = negb (Z.testbit 0x8000000000000fff i))
        (seqZ 12 52)) as Hc by (apply (bool_decide_unpack _); vm_compute; done).
      rewrite Forall_seqZ in Hc. rewrite Hc by lia.
      destruct (Z.testbit l1e i), (Z.testbit 0x8000000000000fff i); done.
    + by rewrite (testbit_above l1e 64 i).
Qed.

Lemma shiftl_51 pfn : 0 ≤ pfn < 2 ^ 51 → 0 ≤ Z.shiftl pfn 12 < 2 ^ 63.
Proof. intros. rewrite Z.shiftl_mul_pow2 by lia. lia. Qed.

Lemma has_box_low pfn fl m :
  0 ≤ m < 2 ^ 12 → has (Z.lor (Z.shiftl pfn 12) fl) m = has fl m.
Proof. intros. by apply has_lor_shiftl. Qed.

Lemma has_box_nx pfn fl : 0 ≤ pfn < 2 ^ 51 → has (Z.lor (Z.shiftl pfn 12) fl) PTE_NX = has fl PTE_NX.
Proof.
  intros Hp%shiftl_51. unfold has. rewrite Z.land_lor_distr_l.
  assert (Z.land (Z.shiftl pfn 12) PTE_NX = 0) as ->; [|by rewrite Z.lor_0_l].
  apply Z.bits_inj'. intros i Hi. rewrite Z.land_spec, Z.bits_0. change PTE_NX with (2 ^ 63).
  rewrite Z.pow2_bits_eqb by lia. destruct (Z.eqb_spec 63 i) as [<-|]; [|by rewrite andb_false_r].
  by rewrite (testbit_above _ 63).
Qed.

Lemma unbox_prot_split pfn fl :
  0 ≤ pfn < 2 ^ 51 → unbox_prot (Z.lor (Z.shiftl pfn 12) fl) = unbox_prot fl.
Proof.
  intros Hp. unfold unbox_prot. rewrite has_box_nx by done. by rewrite !has_box_low by done.
Qed.

Lemma l1epfn_split pfn fl :
  0 ≤ pfn < 2 ^ 51 → Z.land fl 0x7ffffffffffff000 = 0 →
  l1epfn (Z.lor (Z.shiftl pfn 12) fl) = pfn.
Proof.
  intros Hp Hfl. unfold l1epfn. rewrite Z.land_lor_distr_l, Hfl, Z.lor_0_r.
  change 0x7ffffffffffff000 with (Z.shiftl (Z.ones 51) 12). rewrite <- Z.shiftl_land.
  rewrite Z.land_ones, Z.mod_small, Z.shiftr_shiftl_l by (done || lia). by rewrite Z.shiftl_0_r.
Qed.

(** The present bit, for any frame number. *)
Lemma unbox_present l1e : has (unbox_prot l1e) HAL_PTE_P = has l1e PTE_P.
Proof.
  unfold unbox_prot. rewrite !has_or_if by done. by destruct (has l1e PTE_P).
Qed.

Lemma box_present nx pfn prot : has (hal_l1e_box (nx_value nx) pfn prot) PTE_P = has prot HAL_PTE_P.
Proof.
  unfold hal_l1e_box. rewrite !has_or_if by (done || by destruct nx).
  destruct (has prot HAL_PTE_P); simpl.
  - unfold has. rewrite Z.land_lor_distr_l. change (Z.land PTE_P PTE_P) with 1.
    destruct (Z.eqb_spec (Z.lor (Z.land (u64 (Z.shiftl pfn 12)) PTE_P) 1) 0) as [Hc|]; [|done].
    by apply Z.lor_eq_0_iff in Hc as [_ ?].
  - by apply has_u64_shiftl.
Qed.

(** ** Decoded entries *)

Definition known_flags (fl : Z) : bool :=
  (Z.land fl 0x98 =? 0) && (has fl PTE_P || negb (has fl PTE_NX)).

Lemma unbox_flags_checked :
  Forall (λ low, Forall (λ nx : bool,
    implb (known_flags (Z.lor low (nx_value nx)))
      (box_flags PTE_NX (unbox_prot (Z.lor low (nx_value nx))) =? Z.lor low (nx_value nx)) = true)
    [true; false]) (seqZ 0 4096).
Proof. apply (bool_decide_unpack _). vm_compute. done. Qed.

Lemma l1eflags_cases l1e :
  word64 l1e → ∃ low (nx : bool), 0 ≤ low < 4096 ∧ l1eflags l1e = Z.lor low (nx_value nx).
Proof.
  intros Hw. exists (Z.land l1e 0xfff), (Z.testbit l1e 63). split.
  { change 0xfff with (Z.ones 12). rewrite Z.land_ones by lia. apply Z.mod_pos_bound. lia. }
  unfold l1eflags. change 0x8000000000000fff with (Z.lor 0xfff PTE_NX).
  rewrite Z.land_lor_distr_r. f_equal. apply Z.bits_inj'. intros i Hi. rewrite Z.land_spec.
  change PTE_NX with (2 ^ 63). rewrite Z.pow2_bits_eqb by lia. unfold nx_value.
  destruct (Z.eqb_spec 63 i) as [<-|Hne]; [|rewrite andb_false_r].
  - destruct (Z.testbit l1e 63); done.
  - destruct (Z.testbit l1e 63); [|by rewrite Z.bits_0]. change PTE_NX with (2 ^ 63).
    rewrite Z.pow2_bits_eqb by lia. symmetry. by apply Z.eqb_neq.
Qed.

Lemma l1epfn_bound l1e : word64 l1e → 0 ≤ l1epfn l1e < 2 ^ 51.
Proof.
  intros [H0 H1]. unfold l1epfn. change 0x7ffffffffffff000 with (Z.shiftl (Z.ones 51) 12).
  rewrite Z.shiftr_land. rewrite Z.shiftr_shiftl_l by lia. rewrite Z.shiftl_0_r, Z.land_ones by lia.
  apply Z.mod_pos_bound. lia.
Qed.

(** * Properties *)

(** Boxing and unboxing: decoding the entry built for a frame and a
    protection gives back the frame, and the protection except that an absent
    page has no execute bit and that without NX support every present page is
    executable. *)
Theorem x86_box_unbox (nx : bool) (pfn prot : Z)
    (Hpfn : 0 ≤ pfn < 2 ^ 51) (Hprot : 0 ≤ prot < 1024) :
  hal_l1e_unbox (hal_l1e_box (if nx then PTE_NX else 0) pfn prot) =
    (pfn, if has prot HAL_PTE_P then (if nx then prot else Z.lor prot HAL_PTE_X)
          else Z.ldiff prot HAL_PTE_X).
Proof.
  destruct (box_flags_facts nx prot Hprot) as (Hu & Hz & _).
  change (if nx then PTE_NX else 0) with (nx_value nx).
  unfold hal_l1e_unbox. rewrite box_split by done. rewrite unbox_prot_split by done.
  rewrite l1epfn_split by done. by rewrite Hu.
Qed.

Lemma x86_box_unbox_witness :
  hal_l1e_unbox (hal_l1e_box PTE_NX 0x1234 (Z.lor HAL_PTE_P HAL_PTE_W)) = (0x1234, 3).
Proof. exact (x86_box_unbox true 0x1234 3 ltac:(lia) ltac:(lia)). Defined.

(** Unboxing and boxing: an entry that uses no bit the interface cannot
    express (cache control, page size, NX on an absent page) is rebuilt from
    its decoded frame and protection. *)
Theorem x86_unbox_box (l1e : Z) (Hw : word64 l1e) (Hk : known_flags (l1eflags l1e) = true) :
  let '(pfn, prot) := hal_l1e_unbox l1e in hal_l1e_box PTE_NX pfn prot = l1e.
Proof.
  unfold hal_l1e_unbox. pose proof (l1epfn_bound l1e Hw).
  destruct (l1eflags_cases l1e Hw) as (low & nx & Hlow & Hfl).
  assert (unbox_prot l1e = unbox_prot (l1eflags l1e)) as ->.
  { rewrite (l1e_split l1e Hw) at 1. by apply unbox_prot_split. }
  rewrite box_split by done. transitivity (Z.lor (Z.shiftl (l1epfn l1e) 12) (l1eflags l1e));
    [f_equal|by rewrite <- l1e_split].
  rewrite Hfl in *. pose proof unbox_flags_checked as Hc. rewrite Forall_seqZ in Hc.
  specialize (Hc low ltac:(lia)). rewrite !Forall_cons in Hc. destruct Hc as (Ht & Hf & _).
  apply Z.eqb_eq. destruct nx; by rewrite Hk in *.
Qed.

Lemma x86_unbox_box_witness :
  let '(pfn, prot) := hal_l1e_unbox 0x8000000000123067 in
  hal_l1e_box PTE_NX pfn prot = 0x8000000000123067.
Proof. apply (x86_unbox_box 0x8000000000123067); [vm_compute; done|vm_compute; done]. Defined.

(** The TLB operation for a change of entry: none exactly when the old entry
    was not present, a global flush exactly when it was present and the old or
    the new entry is global, and a plain flush otherwise. *)
Theorem x86_tlbop_sound (old new : Z) :
  (hal_l1e_tlbop old new = HAL_TLBOP_NONE ↔ has old PTE_P = false) ∧
  (hal_l1e_tlbop old new = HAL_TLBOP_FLUSHALL ↔
     has old PTE_P = true ∧ (has old PTE_G = true ∨ has new PTE_G = true)) ∧
  (hal_l1e_tlbop old new = HAL_TLBOP_FLUSH ↔
     has old PTE_P = true ∧ has old PTE_G = false ∧ has new PTE_G = false).
Proof.
  assert (∀ e m, Z.land 0x8000000000000fff m = m → has (l1eflags e) m = has e m) as Hfl.
  { intros e m Hm. unfold has, l1eflags. by rewrite <- Z.land_assoc, Hm. }
  unfold hal_l1e_tlbop. rewrite !Hfl by done. rewrite orb_true_r.
  destruct (has old PTE_P), (has old PTE_G), (has new PTE_G); simpl;
    unfold HAL_TLBOP_NONE, HAL_TLBOP_FLUSH, HAL_TLBOP_FLUSHALL; intuition congruence.
Qed.
