(* ===== verification/RvPmap.v ===== *)
(** Last-level page table entries of the RISC-V HAL (libhal_riscv/pmap.c and
    libhal_riscv/internal.h). *)

From S2P Require Import Prelude Words Hal.

Definition PTE_V : Z := 1.
Definition PTE_R : Z := 2.
Definition PTE_W : Z := 4.
Definition PTE_X : Z := 8.
Definition PTE_FLAGS : Z := Z.lor (Z.lor PTE_V PTE_R) (Z.lor PTE_W PTE_X).
Definition PTE_U : Z := 16.
Definition PTE_GLOBAL : Z := 32.
Definition PTE_A : Z := 64.
Definition PTE_D : Z := 128.
Definition PTE_AVL0 : Z := 256.
Definition PTE_AVL1 : Z := 512.
Definition PTE_PFN_SHIFT : Z := 10.

Definition mkptep (pfn offset : Z) : Z := Z.lor (u64 (Z.shiftl pfn 12)) (Z.shiftl offset 3).
Definition mkpte (pfn flags : Z) : Z := Z.lor (u64 (Z.shiftl pfn PTE_PFN_SHIFT)) flags.
Definition pte_pfn (pte : Z) : Z := Z.shiftr pte PTE_PFN_SHIFT.
Definition pte_valid_table (pte : Z) : bool := Z.land pte PTE_FLAGS =? PTE_V.
Definition pte_valid_leaf (pte : Z) : bool := Z.land pte (Z.lor PTE_V PTE_R) =? Z.lor PTE_V PTE_R.
Definition pte_valid (pte : Z) : bool := has pte PTE_V.

Definition hal_l1e_box (pfn prot : Z) : Z :=
  let l1e := u64 (Z.shiftl pfn PTE_PFN_SHIFT) in
  let l1e := or_if (has prot HAL_PTE_P) (Z.lor PTE_V PTE_R) l1e in
  let l1e := or_if (has prot HAL_PTE_W) PTE_W l1e in
  let l1e := or_if (has prot HAL_PTE_X) PTE_X l1e in
  let l1e := or_if (has prot HAL_PTE_U) PTE_U l1e in
  let l1e := or_if (has prot HAL_PTE_GLOBAL) PTE_GLOBAL l1e in
  let l1e := or_if (has prot HAL_PTE_A) PTE_A l1e in
  let l1e := or_if (has prot HAL_PTE_D) PTE_D l1e in
  let l1e := or_if (has prot HAL_PTE_AVL0) PTE_AVL0 l1e in
  or_if (has prot HAL_PTE_AVL1) PTE_AVL1 l1e.

Definition unbox_prot (l1e : Z) : Z :=
  let prot := 0 in
  if has l1e PTE_V then
    let prot := or_if (has l1e PTE_R) HAL_PTE_P prot in
    let prot := or_if (has l1e PTE_W) HAL_PTE_W prot in
    let prot := or_if (has l1e PTE_X) HAL_PTE_X prot in
    let prot := or_if (has l1e PTE_U) HAL_PTE_U prot in
    let prot := or_if (has l1e PTE_GLOBAL) HAL_PTE_GLOBAL prot in
    let prot := or_if (has l1e PTE_A) HAL_PTE_A prot in
    let prot := or_if (has l1e PTE_D) HAL_PTE_D prot in
    let prot := or_if (has l1e PTE_AVL0) HAL_PTE_AVL0 prot in
    or_if (has l1e PTE_AVL1) HAL_PTE_AVL1 prot
  else prot.

Definition hal_l1e_unbox (l1e : Z) : Z * Z := (pte_pfn l1e, unbox_prot l1e).

Definition hal_l1e_tlbop (old new : Z) : Z := HAL_TLBOP_FLUSH.

(** * Lemmas *)

Definition box_flags (prot : Z) : Z := hal_l1e_box 0 prot.

Lemma rv_box_split pfn prot :
  0 ≤ pfn < 2 ^ 54 → hal_l1e_box pfn prot = Z.lor (Z.shiftl pfn 10) (box_flags prot).
Proof.
  intros Hpfn. unfold box_flags, hal_l1e_box, PTE_PFN_SHIFT. rewrite Z.shiftl_0_l. change (u64 0) with 0.
  rewrite u64_small by (unfold word64; rewrite Z.shiftl_mul_pow2 by lia; lia).
  rewrite <- (Z.lor_0_r (Z.shiftl pfn 10)) at 1. by rewrite !or_if_lor.
Qed.

Lemma rv_box_flags_checked :
  Forall (λ prot,
    unbox_prot (box_flags prot) =
      (if has prot HAL_PTE_P then Z.ldiff prot HAL_PTE_AVL2 else 0) ∧
    0 ≤ box_flags prot < 2 ^ 10) (seqZ 0 1024).
Proof. apply (bool_decide_unpack _). vm_compute. done. Qed.

Lemma rv_unbox_prot_split pfn fl : unbox_prot (Z.lor (Z.shiftl pfn 10) fl) = unbox_prot fl.
Proof. unfold unbox_prot. by rewrite !has_lor_shiftl by done. Qed.

Lemma rv_pte_pfn_split pfn fl : 0 ≤ fl < 2 ^ 10 → pte_pfn (Z.lor (Z.shiftl pfn 10) fl) = pfn.
Proof.
  intros Hfl. unfold pte_pfn, PTE_PFN_SHIFT. rewrite Z.shiftr_lor, Z.shiftr_shiftl_l by lia.
  rewrite Z.shiftl_0_r. rewrite (Z.shiftr_div_pow2 fl) by lia. rewrite Z.div_small by done.
  apply Z.lor_0_r.
Qed.

(** * Properties *)

(** Boxing and unboxing on RISC-V: for a present page the frame and the
    protection come back, without the third software bit, which this HAL does
    not have; for an absent page only the frame does. *)
Theorem rv_box_unbox (pfn prot : Z) (Hpfn : 0 ≤ pfn < 2 ^ 54) (Hprot : 0 ≤ prot < 1024) :
  hal_l1e_unbox (hal_l1e_box pfn prot) =
    (pfn, if has prot HAL_PTE_P then Z.ldiff prot HAL_PTE_AVL2 else 0).
Proof.
  pose proof rv_box_flags_checked as Hc. rewrite Forall_seqZ in Hc.
  destruct (Hc prot ltac:(lia)) as [Hu Hb]. unfold hal_l1e_unbox.
  rewrite rv_box_split, rv_unbox_prot_split, rv_pte_pfn_split by done. by rewrite Hu.
Qed.

Lemma rv_box_unbox_witness :
  hal_l1e_unbox (hal_l1e_box 0x80200 (Z.lor HAL_PTE_P HAL_PTE_W)) = (0x80200, 3).
Proof. exact (rv_box_unbox 0x80200 3 ltac:(lia) ltac:(lia)). Defined.
