(* ===== verification/PageTable.v ===== *)
(** Page table trees in physical memory, as the amd64 and the RISC-V code share
    them: four levels of 512 entries, reached from a top level that is either a
    frame or the array of a [struct hal_umap]. The lemmas say what adding a
    table and writing a last-level entry do to every path. *)

From S2P Require Import Prelude Words Locks Machine.

(** How an entry encodes the table below it. *)
Class PteFormat := {
  pte_present : Z → bool;
  pte_frame : Z → Z;
  pte_table_ok : Z → bool;
}.

Class PteFormatOk `{!PteFormat} : Prop := {
  pte_zero : pte_present 0 = false;
}.

Definition L4OFF (va : Z) : Z := Z.land (Z.shiftr va 39) 0x1ff.
Definition L3OFF (va : Z) : Z := Z.land (Z.shiftr va 30) 0x1ff.
Definition L2OFF (va : Z) : Z := Z.land (Z.shiftr va 21) 0x1ff.
Definition L1OFF (va : Z) : Z := Z.land (Z.shiftr va 12) 0x1ff.

Section tree.
Context `{!PteFormat}.

Definition entry (fs : gmap Z (list Z)) (f i : Z) : Z := default 0 (frame_word fs f i).

(** The table an entry points to. *)
Definition sub_table (e : Z) : option Z := if pte_present e then Some (pte_frame e) else None.

Fixpoint walk (fs : gmap Z (list Z)) (f : Z) (p : list Z) : option Z :=
  match p with
  | [] => Some f
  | i :: p' => g ← sub_table (entry fs f i); walk fs g p'
  end.

(** The table at the end of path [p] below a top level [top]. *)
Definition table (top : Z → Z) (fs : gmap Z (list Z)) (p : list Z) : option Z :=
  match p with
  | [] => None
  | i :: p' => f ← sub_table (top i); walk fs f p'
  end.

(** The last-level entry of an address; 0, which is not present, when some
    table on the way is missing. *)
Definition leaf (top : Z → Z) (fs : gmap Z (list Z)) (va : Z) : Z :=
  match table top fs [L4OFF va; L3OFF va; L2OFF va] with
  | Some f => entry fs f (L1OFF va)
  | None => 0
  end.

Definition same_page (va va' : Z) : Prop :=
  L4OFF va = L4OFF va' ∧ L3OFF va = L3OFF va' ∧ L2OFF va = L2OFF va' ∧ L1OFF va = L1OFF va'.

#[export] Instance same_page_dec va va' : Decision (same_page va va').
Proof. apply _. Defined.

Definition index_ok (i : Z) : Prop := 0 ≤ i < 512.

(** Paths of interest: below the slots [D] of the top level, down to the last
    level of tables. *)
Definition path_ok (D : Z → Prop) (p : list Z) : Prop :=
  (∃ i p', p = i :: p' ∧ D i) ∧ Forall index_ok p ∧ (length p ≤ 3)%nat.

(** The tables below [D] form a tree: no table is reached by two paths, none is
    in the set [F] of frames that belong to others, and entries above the last
    level are table entries. *)
Record space_ok `{!Config} (D : Z → Prop) (F : Z → Prop) (top : Z → Z) (fs : gmap Z (list Z)) : Prop := {
  so_frame p f : path_ok D p → table top fs p = Some f → frame_ok fs f ∧ ¬ F f;
  so_inj p q f : path_ok D p → path_ok D q →
    table top fs p = Some f → table top fs q = Some f → p = q;
  so_top i : D i → pte_present (top i) = true → pte_table_ok (top i) = true;
  so_entry p f i : path_ok D p → (length p ≤ 2)%nat → index_ok i →
    table top fs p = Some f → pte_present (entry fs f i) = true →
    pte_table_ok (entry fs f i) = true;
}.

End tree.

(** * Paths *)

Lemma off_range va : index_ok (L4OFF va) ∧ index_ok (L3OFF va) ∧ index_ok (L2OFF va) ∧ index_ok (L1OFF va).
Proof.
  unfold index_ok, L4OFF, L3OFF, L2OFF, L1OFF. change 0x1ff with (Z.ones 9).
  rewrite !Z.land_ones by lia. split_and!; apply Z.mod_pos_bound; lia.
Qed.

Section lemmas.
Context `{!Config, !ConfigOk, !PteFormat, !PteFormatOk}.
Implicit Types (fs : gmap Z (list Z)) (p q : list Z) (D F : Z → Prop).

Lemma walk_app fs f p q : walk fs f (p ++ q) = walk fs f p ≫= λ g, walk fs g q.
Proof.
  revert f. induction p as [|i p IH]; intros f; simpl; [done|].
  destruct (sub_table (entry fs f i)) as [g|]; simpl; [apply IH|done].
Qed.

Lemma table_app top fs p q :
  p ≠ [] → table top fs (p ++ q) = table top fs p ≫= λ g, walk fs g q.
Proof.
  destruct p as [|i p]; [done|]. intros _. simpl.
  destruct (sub_table (top i)) as [f|]; simpl; [apply walk_app|done].
Qed.

Lemma table_snoc top fs p i :
  p ≠ [] → table top fs (p ++ [i]) = table top fs p ≫= λ g, sub_table (entry fs g i).
Proof.
  intros Hp. rewrite table_app by done. destruct (table top fs p) as [g|]; simpl; [|done].
  by destruct (sub_table (entry fs g i)).
Qed.

Lemma path_ok_snoc D p i : path_ok D p → index_ok i → (length p ≤ 2)%nat → path_ok D (p ++ [i]).
Proof.
  intros ((j & p' & -> & Hj) & Hp & _) Hi Hlen. split_and!.
  - by exists j, (p' ++ [i]).
  - by apply Forall_app_2; [|constructor].
  - rewrite length_app. simpl in *. lia.
Qed.

Lemma path_ok_prefix D p i : path_ok D (p ++ [i]) → p ≠ [] → path_ok D p ∧ index_ok i ∧ (length p ≤ 2)%nat.
Proof.
  intros ((j & p' & Hp & Hj) & Hf & Hlen) Hne. rewrite length_app in Hlen. simpl in Hlen.
  apply Forall_app in Hf as [Hf [Hi _]%Forall_cons].
  split; [|split; [done|lia]]. split; [|split; [done|lia]].
  destruct p as [|k p]; [done|]. injection Hp as Hk _. subst k. by exists j, p.
Qed.

Lemma path_ok_ne D p : path_ok D p → p ≠ [].
Proof. intros ((i & p' & -> & _) & _). done. Qed.

Lemma path_ok_one D i : D i → index_ok i → path_ok D [i].
Proof. intros. split_and!; [by exists i, []|by constructor|simpl; lia]. Qed.

(** Every path is one slot, or extends a shorter path by one index. *)
Lemma path_ok_cases D p :
  path_ok D p → (∃ i, p = [i] ∧ D i ∧ index_ok i) ∨
  ∃ q i, p = q ++ [i] ∧ path_ok D q ∧ index_ok i ∧ (length q ≤ 2)%nat.
Proof.
  intros Hp. destruct p as [|i p _] using rev_ind; [by destruct (path_ok_ne _ _ Hp)|].
  destruct p as [|j p].
  - left. exists i. destruct Hp as ((k & p' & Heq & Hk) & Hf & _). injection Heq as <- <-.
    apply Forall_cons in Hf as [Hi _]. done.
  - right. exists (j :: p), i. split; [done|]. by apply path_ok_prefix.
Qed.

Lemma path_ind D (P : list Z → Prop) :
  (∀ i, D i → index_ok i → P [i]) →
  (∀ p i, path_ok D p → index_ok i → (length p ≤ 2)%nat → P p → P (p ++ [i])) →
  ∀ p, path_ok D p → P p.
Proof.
  intros Hone Hsnoc p. induction p as [|i p IH] using rev_ind; intros Hp; [by destruct (path_ok_ne _ _ Hp)|].
  destruct p as [|j p]; [|].
  - destruct (path_ok_cases D _ Hp) as [(k & [= <-] & ? & ?)|(q & k & Heq & Hq & ? & ?)]; [by apply Hone|].
    apply app_inj_tail in Heq as [<- <-]. by destruct (path_ok_ne _ _ Hq).
  - destruct (path_ok_prefix D _ _ Hp) as (? & ? & ?); [done|]. by apply Hsnoc; auto.
Qed.

(** * Writing a last-level entry *)

Lemma entry_update fs f i v g j :
  frame_ok fs f → index_ok i → index_ok j →
  entry (frame_update fs f i v) g j = if decide (f = g ∧ i = j) then v else entry fs g j.
Proof.
  intros Hf Hi Hj. unfold entry, index_ok in *. rewrite frame_update_word by (done || lia).
  by case_decide.
Qed.

Lemma entry_zero fs f g j :
  index_ok j → entry (<[f := zero_page]> fs) g j = if decide (f = g) then 0 else entry fs g j.
Proof. intros Hj. unfold entry, index_ok in *. rewrite frame_zero_word by done. by case_decide. Qed.

Lemma table_agree D top fs top' fs' :
  (∀ i, D i → index_ok i → sub_table (top' i) = sub_table (top i)) →
  (∀ p f i, path_ok D p → (length p ≤ 2)%nat → index_ok i → table top fs p = Some f →
     sub_table (entry fs' f i) = sub_table (entry fs f i)) →
  ∀ p, path_ok D p → table top' fs' p = table top fs p.
Proof.
  intros Htop Hent. apply path_ind.
  - intros i Hi Hr. simpl. rewrite Htop by done. by destruct (sub_table (top i)).
  - intros p i Hp Hi Hlen IH. pose proof (path_ok_ne _ _ Hp).
    rewrite !table_snoc, IH by done. destruct (table top fs p) as [f|] eqn:E; [|done].
    simpl. by rewrite (Hent p).
Qed.

Section leaf_write.
Context (D F : Z → Prop) (top : Z → Z) (fs : gmap Z (list Z)).
Context (Hok : space_ok D F top fs).
Context (p : list Z) (f i e : Z).
Context (Hp : path_ok D p) (Hlen : length p = 3%nat) (Hf : table top fs p = Some f) (Hi : index_ok i).

Lemma leaf_write_entry q g j :
  path_ok D q → table top fs q = Some g → index_ok j →
  entry (frame_update fs f i e) g j = if decide (q = p ∧ j = i) then e else entry fs g j.
Proof.
  intros Hq Hg Hj. destruct (so_frame _ _ _ _ Hok p f Hp Hf) as [Hfr _].
  rewrite entry_update by done. destruct (decide (f = g ∧ i = j)) as [[<- <-]|Hne].
  - rewrite decide_True; [done|]. split; [|done]. by eapply so_inj.
  - rewrite decide_False; [done|]. intros [-> ->]. apply Hne. split; [|done]. congruence.
Qed.

Lemma leaf_write_table q : path_ok D q → table top (frame_update fs f i e) q = table top fs q.
Proof.
  apply table_agree; [done|]. intros r g j Hr Hlr Hj Hg.
  rewrite (leaf_write_entry r) by done. rewrite decide_False; [done|]. intros [-> _]. lia.
Qed.

Lemma leaf_write_ok : space_ok D F top (frame_update fs f i e).
Proof.
  split.
  - intros q g Hq. rewrite leaf_write_table by done. intros Hg.
    destruct (so_frame _ _ _ _ Hok q g Hq Hg). split; [by apply frame_update_ok|done].
  - intros q r g Hq Hr. rewrite !leaf_write_table by done. by eapply so_inj.
  - by eapply so_top.
  - intros q g j Hq Hlq Hj. rewrite leaf_write_table by done. intros Hg.
    rewrite (leaf_write_entry q) by done. rewrite decide_False by (intros [-> _]; lia).
    by eapply so_entry.
Qed.

End leaf_write.

Lemma va_path D va : D (L4OFF va) → path_ok D [L4OFF va; L3OFF va; L2OFF va].
Proof.
  intros Hd. destruct (off_range va) as (? & ? & ? & _).
  split_and!; [by exists (L4OFF va), [L3OFF va; L2OFF va]|by rewrite !Forall_cons, Forall_nil|simpl; lia].
Qed.

Lemma same_page_path va va' :
  same_page va va' ↔ [L4OFF va'; L3OFF va'; L2OFF va'] = [L4OFF va; L3OFF va; L2OFF va] ∧
    L1OFF va' = L1OFF va.
Proof.
  unfold same_page. split.
  - intros (-> & -> & -> & ->). done.
  - intros [Heq ->]. by injection Heq as -> -> ->.
Qed.

Lemma leaf_write_leaf D F top fs va f e va' :
  space_ok D F top fs → D (L4OFF va) → D (L4OFF va') →
  table top fs [L4OFF va; L3OFF va; L2OFF va] = Some f →
  leaf top (frame_update fs f (L1OFF va) e) va' =
    if decide (same_page va va') then e else leaf top fs va'.
Proof.
  intros Hok Hd Hd' Hf. unfold leaf. pose proof (va_path D va Hd) as Hp.
  destruct (off_range va) as (_ & _ & _ & Hi), (off_range va') as (_ & _ & _ & Hi').
  rewrite (leaf_write_table D F _ _ Hok _ _ _ _ Hp eq_refl Hf Hi _ (va_path D va' Hd')).
  destruct (table top fs [L4OFF va'; L3OFF va'; L2OFF va']) as [g|] eqn:Hg.
  - rewrite (leaf_write_entry D F _ _ Hok _ _ _ _ Hp Hf Hi _ _ _ (va_path D va' Hd') Hg Hi').
    pose proof (same_page_path va va'). repeat case_decide; try done; tauto.
  - rewrite decide_False; [done|]. intros (E4 & E3 & E2 & _). congruence.
Qed.

(** * Adding a table *)

(** [grown D top fs top' fs' n f]: frame [f], zeroed, has become the table at
    the end of the new path [n]; nothing else below [D] has changed. *)
Record grown (D : Z → Prop) top fs top' fs' (n : list Z) (f : Z) : Prop := {
  gr_path : path_ok D n;
  gr_new : table top fs n = None;
  gr_table r : path_ok D r →
    table top' fs' r = if decide (r = n) then Some f else table top fs r;
  gr_zero j : index_ok j → entry fs' f j = 0;
  gr_entry r h j : path_ok D r → table top fs r = Some h → index_ok j → r ++ [j] ≠ n →
    entry fs' h j = entry fs h j;
  gr_link q g j : n = q ++ [j] → table top fs q = Some g → pte_table_ok (entry fs' g j) = true;
  gr_top i : D i → [i] ≠ n → top' i = top i;
  gr_toplink i : n = [i] → pte_table_ok (top' i) = true;
  gr_frames g : frame_ok fs g → frame_ok fs' g;
}.

Lemma grown_ok D F F' top fs top' fs' n f :
  space_ok D F top fs → grown D top fs top' fs' n f → F f → frame_ok fs f →
  (∀ x, F' x → F x ∧ x ≠ f) → space_ok D F' top' fs'.
Proof.
  intros Hok Hg HF Hfr HF'. pose proof (gr_table _ _ _ _ _ _ _ Hg) as Ht. split.
  - intros p g Hp. rewrite Ht by done. case_decide as He.
    + intros [= <-]. split; [by eapply gr_frames|]. intros [_ ?]%HF'. done.
    + intros Hpg. destruct (so_frame _ _ _ _ Hok p g Hp Hpg).
      split; [by eapply gr_frames|]. intros [? _]%HF'. done.
  - intros p q g Hp Hq. rewrite !Ht by done.
    assert (∀ r, path_ok D r → table top fs r ≠ Some f) as Hnf.
    { intros r Hr Hrf. by destruct (so_frame _ _ _ _ Hok r f Hr Hrf). }
    repeat case_decide; subst; intros E1 E2; [done| | |by eapply so_inj].
    + injection E1 as <-. by destruct (Hnf q).
    + injection E2 as <-. by destruct (Hnf p).
  - intros i Hi Hpr. destruct (decide ([i] = n)) as [He|He].
    + by eapply gr_toplink.
    + rewrite (gr_top _ _ _ _ _ _ _ Hg) in * by done. by eapply so_top.
  - intros p g i Hp Hlen Hi. rewrite Ht by done. case_decide as He.
    + intros [= <-]. rewrite (gr_zero _ _ _ _ _ _ _ Hg) by done. by rewrite pte_zero.
    + intros Hpg. destruct (decide (p ++ [i] = n)) as [Hn|Hn].
      * intros _. by eapply gr_link.
      * rewrite (gr_entry _ _ _ _ _ _ _ Hg p) by done. by eapply so_entry.
Qed.

Lemma grown_leaf D F top fs top' fs' n f va :
  space_ok D F top fs → grown D top fs top' fs' n f → D (L4OFF va) →
  leaf top' fs' va = leaf top fs va.
Proof.
  intros Hok Hg Hd. unfold leaf. pose proof (va_path D va Hd) as Hp.
  destruct (off_range va) as (_ & _ & _ & Hi). rewrite (gr_table _ _ _ _ _ _ _ Hg) by done.
  case_decide as He.
  - subst n. rewrite (gr_new _ _ _ _ _ _ _ Hg). by apply (gr_zero _ _ _ _ _ _ _ Hg).
  - destruct (table top fs _) as [g|] eqn:E; [|done].
    apply (gr_entry _ _ _ _ _ _ _ Hg [L4OFF va; L3OFF va; L2OFF va]); [done..|].
    intros Hn. pose proof (gr_path _ _ _ _ _ _ _ Hg) as (_ & _ & Hlen).
    rewrite <- Hn in Hlen. simpl in Hlen. lia.
Qed.

Section add_table.
Context (D F : Z → Prop) (top : Z → Z) (fs : gmap Z (list Z)).
Context (Hok : space_ok D F top fs).
Context (f e : Z).
Context (Hfree : F f) (Hfr : frame_ok fs f).
Context (He : pte_present e = true) (Hef : pte_frame e = f) (Het : pte_table_ok e = true).

Lemma table_not_free r h : path_ok D r → table top fs r = Some h → h ≠ f.
Proof. intros Hr Hh ->. by destruct (so_frame _ _ _ _ Hok r f Hr Hh). Qed.

(** Below an existing table [g]: the new frame is zeroed and then linked. *)
Lemma grown_below q g i :
  path_ok D q → (length q ≤ 2)%nat → index_ok i → table top fs q = Some g →
  pte_present (entry fs g i) = false →
  grown D top fs top (frame_update (<[f := zero_page]> fs) g i e) (q ++ [i]) f.
Proof.
  intros Hq Hlq Hi Hg Hnp. set (fs' := frame_update _ _ _ _).
  pose proof (table_not_free q g Hq Hg) as Hgf.
  assert (frame_ok (<[f := zero_page]> fs) g) as Hg'.
  { apply frame_zero_ok; [by destruct Hfr|by destruct (so_frame _ _ _ _ Hok q g)]. }
  assert (∀ h j, index_ok j → entry fs' h j =
    if decide (g = h ∧ i = j) then e else if decide (f = h) then 0 else entry fs h j) as Hent.
  { intros h j Hj. unfold fs'. rewrite entry_update, entry_zero by done. done. }
  assert (∀ r h j, path_ok D r → table top fs r = Some h → index_ok j → r ++ [j] ≠ q ++ [i] →
    entry fs' h j = entry fs h j) as Hold.
  { intros r h j Hr Hh Hj Hne. rewrite Hent by done. rewrite decide_False.
    - rewrite decide_False; [done|]. intros <-. by destruct (table_not_free r f Hr Hh).
    - intros [<- <-]. apply Hne. f_equal. by eapply so_inj. }
  assert (table top fs (q ++ [i]) = None) as Hnew.
  { rewrite table_snoc, Hg by (by eapply path_ok_ne). simpl. unfold sub_table. by rewrite Hnp. }
  split.
  - by apply path_ok_snoc.
  - done.
  - apply path_ind.
    + intros j Hj Hrj. rewrite decide_False; [done|]. intros Hc.
      destruct q as [|k q]; [by destruct (path_ok_ne _ _ Hq)|]. by destruct q.
    + intros r j Hr Hj Hlr IH. pose proof (path_ok_ne _ _ Hr).
      rewrite !table_snoc, IH by done. destruct (decide (r = q ++ [i])) as [->|Hrn].
      * rewrite Hnew. simpl. rewrite Hent by done.
        rewrite decide_False by (intros [? _]; done). rewrite decide_True by done.
        unfold sub_table. rewrite pte_zero. rewrite decide_False; [done|].
        intros Hc%(f_equal length). rewrite !length_app in Hc. simpl in Hc. lia.
      * destruct (table top fs r) as [h|] eqn:Hh; simpl.
        -- destruct (decide (r ++ [j] = q ++ [i])) as [Heq|Hne].
           ++ apply app_inj_tail in Heq as [-> ->]. rewrite Hg in Hh. injection Hh as <-.
              rewrite Hent, decide_True by done. unfold sub_table. by rewrite He, Hef.
           ++ by rewrite (Hold r).
        -- rewrite decide_False; [done|]. intros [-> ->]%app_inj_tail. congruence.
  - intros j Hj. rewrite Hent by done. rewrite decide_False by (intros [? _]; done).
    by rewrite decide_True.
  - done.
  - intros q' g' j [-> ->]%app_inj_tail Hg2. rewrite Hg in Hg2. injection Hg2 as <-.
    rewrite Hent by done. by rewrite decide_True.
  - done.
  - intros j Hc. destruct q as [|k q]; [by destruct (path_ok_ne _ _ Hq)|]. by destruct q.
  - intros h Hh. apply frame_update_ok. apply frame_zero_ok; [by destruct Hfr|done].
Qed.

(** At slot [i] of the top level, which may itself be a frame of [fs']. *)
Lemma grown_top top' fs' i :
  D i → index_ok i → pte_present (top i) = false → top' i = e →
  (∀ j, D j → index_ok j → j ≠ i → top' j = top j) → (∀ j, D j → index_ok j) →
  (∀ h j, h = f ∨ (∃ r, path_ok D r ∧ table top fs r = Some h) → index_ok j →
     entry fs' h j = entry (<[f := zero_page]> fs) h j) →
  (∀ h, frame_ok fs h → frame_ok fs' h) →
  grown D top fs top' fs' [i] f.
Proof.
  intros Hd Hi Hnp Hti Htj HD Hfs Hfrs.
  assert (∀ r h j, path_ok D r → table top fs r = Some h → index_ok j →
    entry fs' h j = entry fs h j) as Hold.
  { intros r h j Hr Hh Hj. rewrite Hfs by eauto. rewrite entry_zero by done.
    rewrite decide_False; [done|]. intros <-. by destruct (table_not_free r f Hr Hh). }
  assert (∀ j, index_ok j → entry fs' f j = 0) as Hz.
  { intros j Hj. rewrite Hfs by auto. by rewrite entry_zero, decide_True. }
  assert (table top fs [i] = None) as Hnew by (simpl; unfold sub_table; by rewrite Hnp).
  split.
  - by apply path_ok_one.
  - done.
  - apply path_ind.
    + intros j Hj Hrj. simpl. destruct (decide ([j] = [i])) as [[= ->]|Hne].
      * unfold sub_table. by rewrite Hti, He, Hef.
      * rewrite Htj; [|done..|congruence]. by destruct (sub_table (top j)).
    + intros r j Hr Hj Hlr IH. pose proof (path_ok_ne _ _ Hr).
      rewrite (decide_False (P := r ++ [j] = [i])) by (by destruct r as [|? []]).
      rewrite !table_snoc, IH by done. destruct (decide (r = [i])) as [->|Hrn].
      * rewrite Hnew. simpl. rewrite Hz by done. unfold sub_table. by rewrite pte_zero.
      * destruct (table top fs r) as [h|] eqn:Hh; simpl; [|done]. by rewrite (Hold r).
  - done.
  - intros r h j Hr Hh Hj _. by apply (Hold r).
  - intros q g j Hc Hg. by destruct q as [|? []].
  - intros j Hj Hne. apply Htj; [done|by apply HD|congruence].
  - intros j [= <-]. by rewrite Hti.
  - done.
Qed.

End add_table.

(** * The top level, up to the slots of interest *)

Lemma table_top_ext D top top' fs p :
  (∀ i, D i → index_ok i → top' i = top i) → path_ok D p → table top' fs p = table top fs p.
Proof. intros Ht. apply table_agree; [|done]. intros i Hd Hi. by rewrite Ht. Qed.

Lemma leaf_top_ext D top top' fs va :
  (∀ i, D i → index_ok i → top' i = top i) → D (L4OFF va) → leaf top' fs va = leaf top fs va.
Proof. intros Ht Hd. unfold leaf. by rewrite (table_top_ext D top) by (done || by apply va_path). Qed.

Lemma space_ok_top_ext D F top top' fs :
  (∀ i, D i → index_ok i) → (∀ i, D i → index_ok i → top' i = top i) →
  space_ok D F top fs → space_ok D F top' fs.
Proof.
  intros HD Ht Hok. pose proof (λ p, table_top_ext D top top' fs p Ht) as Hext. split.
  - intros p f Hp. rewrite Hext by done. by apply Hok.
  - intros p q f Hp Hq. rewrite !Hext by done. by apply Hok.
  - intros i Hi. rewrite Ht by auto. by apply Hok.
  - intros p f i Hp Hl Hi. rewrite Hext by done. by apply Hok.
Qed.

(** Zeroing a frame that is not a table of the space. *)
Lemma zero_free_table D F top fs f p :
  space_ok D F top fs → F f → path_ok D p →
  table top (<[f := zero_page]> fs) p = table top fs p.
Proof.
  intros Hok HF. apply table_agree; [done|]. intros q g i Hq _ Hi Hg. rewrite entry_zero by done.
  rewrite decide_False; [done|]. intros <-. by destruct (so_frame _ _ _ _ Hok q f Hq Hg).
Qed.

Lemma zero_free_ok D F F' top fs f :
  space_ok D F top fs → F f → 0 ≤ f < max_dmap_pfn → (∀ x, F' x → F x) →
  space_ok D F' top (<[f := zero_page]> fs).
Proof.
  intros Hok HF Hf HF'. pose proof (λ p, zero_free_table D F top fs f p Hok HF) as Ht. split.
  - intros p g Hp. rewrite Ht by done. intros Hg. destruct (so_frame _ _ _ _ Hok p g Hp Hg).
    split; [by apply frame_zero_ok|auto].
  - intros p q g Hp Hq. rewrite !Ht by done. by apply Hok.
  - by apply Hok.
  - intros p g i Hp Hl Hi. rewrite Ht by done. intros Hg. rewrite entry_zero by done.
    rewrite decide_False; [by apply (so_entry _ _ _ _ Hok p)|].
    intros <-. by destruct (so_frame _ _ _ _ Hok p f Hp Hg).
Qed.

Lemma grown_top_ext D top fs top' top'' fs' n f :
  (∀ i, D i → index_ok i) → (∀ i, D i → index_ok i → top'' i = top' i) →
  grown D top fs top' fs' n f → grown D top fs top'' fs' n f.
Proof.
  intros HD Ht Hg. split; try by apply Hg.
  - intros r Hr. rewrite (table_top_ext D top') by done. by apply Hg.
  - intros i Hi Hne. rewrite Ht by auto. by apply Hg.
  - intros i ->. destruct (gr_path _ _ _ _ _ _ _ Hg) as ((j & ? & [= <- <-] & Hi) & _).
    rewrite Ht by auto. by apply Hg.
Qed.

End lemmas.
