(* ===== verification/Space.v ===== *)
(** Address spaces: a top level, in the kernel's data or in a frame, and the
    tables below it. What linking a table, writing a last-level entry and
    freeing tables do to one space, and why it does not touch another. *)

From S2P Require Import Prelude Words Locks Machine PageTable.

(** Where the top level of a space is: an array of the kernel's data (the [l4]
    of a [struct hal_umap]) or a frame (the table the CPU uses). *)
Inductive tloc : Set :=
  | InData (u : Z)
  | InFrame (f : Z).

#[export] Instance tloc_eq_dec : EqDecision tloc.
Proof. solve_decision. Defined.

(** The word of slot [i]: an address or a word of a frame. *)
Definition tl_word (l : tloc) (i : Z) : Z + Z * Z :=
  match l with InData u => inl (u + 8 * i) | InFrame f => inr (f, i) end.

Section defs.
Context {CFG : Config} {FMT : PteFormat} {A : Type} `{!PfnCache A, !PfnAllocator A}.
Implicit Types s : mach A.

Definition tl_read (l : tloc) s (i : Z) : Z :=
  match l with
  | InData u => default 0 (m_kdata s !! (u + 8 * i))
  | InFrame f => entry (m_frames s) f i
  end.

Definition tl_write (l : tloc) (i v : Z) s : mach A :=
  match l with
  | InData u => set_kdata (<[u + 8 * i := v]> (m_kdata s)) s
  | InFrame f => set_frames (frame_update (m_frames s) f i v) s
  end.

Definition tl_ok (D : Z → Prop) (l : tloc) s : Prop :=
  match l with
  | InData u => ∀ i, D i → is_Some (m_kdata s !! (u + 8 * i)) ∧
      in_dmap (u + 8 * i) = false ∧ (u + 8 * i) `mod` 8 = 0
  | InFrame f => frame_ok (m_frames s) f ∧ f ∉ free_frames s
  end.

Definition sp_table (l : tloc) s (p : list Z) : option Z := table (tl_read l s) (m_frames s) p.
Definition sp_leaf (l : tloc) s (va : Z) : Z := leaf (tl_read l s) (m_frames s) va.

(** Frames that are not tables of the space. *)
Definition reserved (l : tloc) s (f : Z) : Prop := f ∈ free_frames s ∨ l = InFrame f.

Record space_inv (D : Z → Prop) (l : tloc) s : Prop := {
  sp_alloc : alloc_ok s;
  sp_space : space_ok D (reserved l s) (tl_read l s) (m_frames s);
  sp_top : tl_ok D l s;
  sp_slots i : D i → index_ok i;
  sp_range p f : path_ok D p → sp_table l s p = Some f → al_range (m_alloc s) f;
}.

(** From [s] to [s'] only the space [l] has changed: its top level, its tables,
    and frames that were free. *)
Record sp_frame (D : Z → Prop) (l : tloc) s s' : Prop := {
  sf_new p f : path_ok D p → sp_table l s' p = Some f → sp_table l s p = Some f ∨ f ∈ free_frames s;
  sf_free : free_frames s' ⊆ free_frames s;
  sf_root : m_root s' = m_root s;
  sf_range f : al_range (m_alloc s') f ↔ al_range (m_alloc s) f;
  sf_kdata a : (∀ i, D i → tl_word l i ≠ inl a) → m_kdata s' !! a = m_kdata s !! a;
  sf_top f j : l = InFrame f → index_ok j → ¬ D j → entry (m_frames s') f j = entry (m_frames s) f j;
  sf_frames f : f ∉ free_frames s → l ≠ InFrame f → (∀ p, path_ok D p → sp_table l s p ≠ Some f) →
    m_frames s' !! f = m_frames s !! f;
  sf_frame_ok f : frame_ok (m_frames s) f → frame_ok (m_frames s') f;
}.

(** [s'] has the mappings of [s] and possibly more, empty, tables. *)
Record sp_ext (D : Z → Prop) (l : tloc) s s' : Prop := {
  se_frame : sp_frame D l s s';
  se_leaf va : D (L4OFF va) → sp_leaf l s' va = sp_leaf l s va;
  se_table p f : path_ok D p → sp_table l s p = Some f → sp_table l s' p = Some f;
}.

(** And every frame that is no longer free is one of those tables. *)
Record sp_grow (D : Z → Prop) (l : tloc) s s' : Prop := {
  sg_ext : sp_ext D l s s';
  sg_used f : f ∈ free_frames s → f ∈ free_frames s' ∨ ∃ p, path_ok D p ∧ sp_table l s' p = Some f;
}.

(** Two spaces share no table and no word of their top levels. *)
Record disjoint_spaces (D : Z → Prop) (l : tloc) (D' : Z → Prop) (l' : tloc) s : Prop := {
  ds_tables p p' f : path_ok D p → path_ok D' p' →
    sp_table l s p = Some f → sp_table l' s p' ≠ Some f;
  ds_words i j : D i → D' j → tl_word l i ≠ tl_word l' j;
  ds_top p f : path_ok D p → sp_table l s p = Some f → l' ≠ InFrame f;
  ds_top' p f : path_ok D' p → sp_table l' s p = Some f → l ≠ InFrame f;
}.

End defs.

Section lemmas.
Context {CFG : Config} {CFGOK : ConfigOk} {FMT : PteFormat} {FMTOK : PteFormatOk}.
Context {A : Type} `{!PfnCache A, !PfnAllocator A, !PfnAllocatorLaws A}.
Implicit Types s : mach A.

#[export] Instance sp_frame_po D l : PreOrder (sp_frame D l).
Proof.
  split.
  - intros s. split; auto.
  - intros s1 s2 s3 H12 H23. pose proof (sf_free _ _ _ _ H12) as F12. split.
    + intros p f Hp Hf. destruct (sf_new _ _ _ _ H23 p f Hp Hf) as [Hf2|Hf2].
      * by apply (sf_new _ _ _ _ H12).
      * right. set_solver.
    + pose proof (sf_free _ _ _ _ H23). set_solver.
    + by rewrite (sf_root _ _ _ _ H23), (sf_root _ _ _ _ H12).
    + intros f. by rewrite (sf_range _ _ _ _ H23), (sf_range _ _ _ _ H12).
    + intros a Ha. by rewrite (sf_kdata _ _ _ _ H23), (sf_kdata _ _ _ _ H12).
    + intros f j Hl Hj Hd. by rewrite (sf_top _ _ _ _ H23), (sf_top _ _ _ _ H12).
    + intros f Hf Hl Ht. rewrite (sf_frames _ _ _ _ H23); [by apply H12|set_solver|done|].
      intros p Hp Hpf. destruct (sf_new _ _ _ _ H12 p f Hp Hpf) as [?|?]; [by eapply Ht|done].
    + intros f Hf. by apply H23, H12.
Qed.

#[export] Instance sp_ext_po D l : PreOrder (sp_ext D l).
Proof.
  split.
  - intros s. by split.
  - intros s1 s2 s3 H12 H23. split.
    + etrans; [apply H12|apply H23].
    + intros va Hd. by rewrite (se_leaf _ _ _ _ H23), (se_leaf _ _ _ _ H12).
    + intros p f Hp Hf. by apply (se_table _ _ _ _ H23), (se_table _ _ _ _ H12).
Qed.

#[export] Instance sp_grow_po D l : PreOrder (sp_grow D l).
Proof.
  split.
  - intros s. split; [done|]. by left.
  - intros s1 s2 s3 [E12 U12] [E23 U23]. split; [by transitivity s2|].
    intros f Hf. destruct (U12 f Hf) as [?|(p & Hp & Ht)]; [by apply U23|right].
    exists p. split; [done|]. by apply (se_table _ _ _ _ E23).
Qed.

(** ** Isolation *)

(** A space that shares nothing with [l] is as it was after a change of [l]. *)
Section isolation.
Context (D D' : Z → Prop) (l l' : tloc) (s s' : mach A).
Context (Hf : sp_frame D l s s') (Hok' : alloc_ok s').
Context (Hi' : space_inv D' l' s) (Hd : disjoint_spaces D l D' l' s).

Lemma isolated_frame f p :
  path_ok D' p → sp_table l' s p = Some f → m_frames s' !! f = m_frames s !! f.
Proof.
  intros Hp Ht. destruct (so_frame _ _ _ _ (sp_space _ _ _ Hi') p f Hp Ht) as [_ Hn].
  apply (sf_frames _ _ _ _ Hf).
  - intros Hc. apply Hn. by left.
  - by eapply ds_top'.
  - intros q Hq Hc. by eapply (ds_tables _ _ _ _ _ Hd q p f).
Qed.

Lemma isolated_top i : D' i → tl_read l' s' i = tl_read l' s i.
Proof.
  intros Hdi. pose proof (sp_slots _ _ _ Hi' i Hdi) as Hix. destruct l' as [u|f] eqn:El; cbn [tl_read].
  - rewrite (sf_kdata _ _ _ _ Hf); [done|]. intros j Hj. by apply (ds_words _ _ _ _ _ Hd).
  - destruct (decide (l = InFrame f)) as [->|Hne].
    + apply (sf_top _ _ _ _ Hf); [done..|]. intros Hdi'. by apply (ds_words _ _ _ _ _ Hd i i).
    + unfold entry, frame_word. destruct (sp_top _ _ _ Hi') as [_ Hnf].
      rewrite (sf_frames _ _ _ _ Hf); [done..|]. intros p Hp Hc. by eapply (ds_top _ _ _ _ _ Hd p f).
Qed.

Lemma isolated_table p : path_ok D' p → sp_table l' s' p = sp_table l' s p.
Proof.
  intros Hp. unfold sp_table. apply (table_agree D'); [| |done].
  - intros i Hdi _. by rewrite isolated_top.
  - intros q f i Hq _ Hix Ht. unfold entry, frame_word. by rewrite (isolated_frame f q).
Qed.

Lemma isolated_leaf va : D' (L4OFF va) → sp_leaf l' s' va = sp_leaf l' s va.
Proof.
  intros Hdv. pose proof (isolated_table _ (va_path D' va Hdv)) as Ht. unfold sp_leaf, leaf.
  fold (sp_table l' s' [L4OFF va; L3OFF va; L2OFF va]). rewrite Ht. unfold sp_table.
  destruct (table _ _ _) as [f|] eqn:E; [|done]. unfold entry, frame_word.
  by rewrite (isolated_frame f [L4OFF va; L3OFF va; L2OFF va]) by (done || by apply va_path).
Qed.

Lemma isolated_inv : space_inv D' l' s'.
Proof.
  destruct Hi' as [Ha Hsp Htop Hsl Hrg]. split.
  - done.
  - split.
    + intros p f Hp. fold (sp_table l' s' p). rewrite isolated_table by done. intros Ht.
      destruct (so_frame _ _ _ _ Hsp p f Hp Ht) as [Hfr Hn]. split; [by apply Hf|].
      intros [Hc|Hc]; apply Hn; [left; by apply (sf_free _ _ _ _ Hf)|by right].
    + intros p q f Hp Hq. fold (sp_table l' s' p) (sp_table l' s' q). rewrite !isolated_table by done.
      by apply Hsp.
    + intros i Hdi. rewrite isolated_top by done. by apply Hsp.
    + intros p f i Hp Hl Hix. fold (sp_table l' s' p). rewrite isolated_table by done. intros Ht.
      unfold entry, frame_word. rewrite (isolated_frame f p) by done. by apply (so_entry _ _ _ _ Hsp p).
  - destruct l' as [u|f]; cbn [tl_ok] in *.
    + intros i Hdi. destruct (Htop i Hdi) as (? & ? & ?). split_and!; [|done..].
      rewrite (sf_kdata _ _ _ _ Hf); [done|]. intros j Hj. by apply (ds_words _ _ _ _ _ Hd).
    + destruct Htop as [Hfr Hn]. split; [by apply Hf|]. intros Hc. apply Hn. by apply (sf_free _ _ _ _ Hf).
  - done.
  - intros p f Hp. rewrite isolated_table by done. intros Ht. apply (sf_range _ _ _ _ Hf). by eapply Hrg.
Qed.

Lemma isolated_disjoint : disjoint_spaces D l D' l' s'.
Proof.
  destruct Hd as [Hdt Hdw Hdp Hdp']. split.
  - intros p p' f Hp Hp' Ht. rewrite isolated_table by done. intros Ht'.
    destruct (sf_new _ _ _ _ Hf p f Hp Ht) as [Hold|Hfree]; [by eapply Hdt|].
    destruct (so_frame _ _ _ _ (sp_space _ _ _ Hi') p' f Hp' Ht') as [_ Hn]. apply Hn. by left.
  - done.
  - intros p f Hp Ht Hc. destruct (sf_new _ _ _ _ Hf p f Hp Ht) as [Hold|Hfree]; [by eapply Hdp|].
    pose proof (sp_top _ _ _ Hi') as Htop. rewrite Hc in Htop. by destruct Htop.
  - intros p f Hp. rewrite isolated_table by done. by apply Hdp'.
Qed.

End isolation.

(** ** Taking a frame *)

Section take.
Context (D : Z → Prop) (l : tloc) (s : mach A) (r : Z) (a' : A).
Context (Hi : space_inv D l s) (Hr : r ∈ free_frames s) (Hok : alloc_ok (taken s r a')).
Context (Hf : free_frames (taken s r a') = free_frames s ∖ {[r]}).
Context (Hrg : ∀ f, al_range a' f ↔ al_range (m_alloc s) f).

Lemma take_frame : frame_ok (m_frames s) r.
Proof. by apply (ao_frames _ (sp_alloc _ _ _ Hi)). Qed.

Lemma take_not_top f : l = InFrame f → f ≠ r.
Proof. intros Hl ->. pose proof (sp_top _ _ _ Hi) as Ht. rewrite Hl in Ht. by destruct Ht. Qed.

Lemma take_top i : index_ok i → tl_read l (taken s r a') i = tl_read l s i.
Proof.
  intros Hix. pose proof take_not_top as Hn. destruct l as [u|f]; [done|]. cbn [tl_read]. simpl m_frames.
  rewrite entry_zero by done. rewrite decide_False; [done|]. intros <-. by apply (Hn r).
Qed.

Lemma take_table p : path_ok D p → sp_table l (taken s r a') p = sp_table l s p.
Proof.
  intros Hp. unfold sp_table. rewrite (table_top_ext D (tl_read l s)); [|by intros; apply take_top|done].
  apply (zero_free_table D (reserved l s)); [by apply Hi|by left|done].
Qed.

Lemma take_inv : space_inv D l (taken s r a').
Proof.
  pose proof take_frame as Hfr. destruct (Hi) as [_ Hsp Htop Hsl Hrange]. split.
  - done.
  - apply (space_ok_top_ext D _ (tl_read l s)); [done|by intros; apply take_top|].
    apply (zero_free_ok D (reserved l s)); [done|by left|by destruct Hfr|].
    intros x [Hx|Hx]; [left|by right]. rewrite Hf in Hx. set_solver.
  - destruct l as [u|f]; [done|]. destruct Htop as [Hfr' Hn]. split.
    + apply frame_zero_ok; [by destruct Hfr|done].
    + rewrite Hf. set_solver.
  - done.
  - intros p f Hp. rewrite take_table by done. intros Ht. apply Hrg. by eapply Hrange.
Qed.

Lemma take_other f : f ≠ r → m_frames (taken s r a') !! f = m_frames s !! f.
Proof. intros Hne. simpl. by rewrite lookup_insert_ne. Qed.

Lemma take_sp_frame : sp_frame D l s (taken s r a').
Proof.
  pose proof take_frame as Hfr. split; try done.
  - intros p f Hp. rewrite take_table by done. by left.
  - rewrite Hf. set_solver.
  - intros f j Hl Hj _. simpl. rewrite entry_zero by done. rewrite decide_False; [done|].
    intros <-. by apply (take_not_top r).
  - intros f Hnf _ _. apply take_other. intros ->. done.
  - intros f. apply frame_zero_ok. by destruct Hfr.
Qed.

Lemma take_ext : sp_ext D l s (taken s r a').
Proof.
  split; [apply take_sp_frame| |].
  - intros va Hd. pose proof (take_table _ (va_path D va Hd)) as Ht. unfold sp_leaf, leaf.
    fold (sp_table l (taken s r a') [L4OFF va; L3OFF va; L2OFF va]). rewrite Ht. unfold sp_table.
    destruct (table _ _ _) as [f|] eqn:E; [|done]. destruct (off_range va) as (_ & _ & _ & Hix).
    simpl. rewrite entry_zero by done. rewrite decide_False; [done|]. intros <-.
    destruct (so_frame _ _ _ _ (sp_space _ _ _ Hi) _ r (va_path D va Hd) E) as [_ Hn]. apply Hn. by left.
  - intros p f Hp Ht. by rewrite take_table.
Qed.

End take.

(** ** Writing a word of the top level or of a table *)

(** The word after path [q]: what it holds, and the state after a store. *)
Definition slot_read (l : tloc) s (q : list Z) (i : Z) : option Z :=
  match q with
  | [] => Some (tl_read l s i)
  | _ => g ← sp_table l s q; Some (entry (m_frames s) g i)
  end.

Definition slot_write (l : tloc) (q : list Z) (i v : Z) s : mach A :=
  match q with
  | [] => tl_write l i v s
  | _ => match sp_table l s q with
         | Some g => set_frames (frame_update (m_frames s) g i v) s
         | None => s
         end
  end.

(** The state after the new table [r] has been linked after path [q]. *)
Definition grow (l : tloc) (q : list Z) (i e : Z) s r a' : mach A :=
  slot_write l q i e (taken s r a').

Lemma slot_write_misc l q i v s :
  let s' := slot_write l q i v s in
  m_root s' = m_root s ∧ m_alloc s' = m_alloc s ∧ m_free_pages s' = m_free_pages s ∧
  m_alock s' = m_alock s ∧ ∀ f, frame_ok (m_frames s) f → frame_ok (m_frames s') f.
Proof.
  intros s'. unfold s', slot_write. destruct q; [destruct l|destruct (sp_table _ _ _)]; simpl;
    do 4 (split; [done|]); intros h Hh; try done; by apply frame_update_ok.
Qed.

Lemma slot_write_alloc l q i v s : alloc_ok s → alloc_ok (slot_write l q i v s).
Proof.
  destruct (slot_write_misc l q i v s) as (_ & Ha & Hp & Hl & Hf). intros [H1 H2 H3 H4].
  split; unfold free_frames; rewrite ?Ha, ?Hp, ?Hl; [done| |done|done]. intros f Hin. by apply Hf, H2.
Qed.

(** What a store changes. *)
Lemma slot_write_data l q i v s a :
  tl_word l i ≠ inl a ∨ q ≠ [] → m_kdata (slot_write l q i v s) !! a = m_kdata s !! a.
Proof.
  intros Hor. unfold slot_write. destruct q as [|j q].
  - destruct l as [u|f]; [|done]. cbn. destruct Hor as [Hne|]; [|done].
    rewrite lookup_insert_ne; [done|]. intros He. by rewrite <- He in Hne.
  - by destruct (sp_table _ _ _).
Qed.

Lemma slot_write_frame l q i v s f :
  (q = [] → l ≠ InFrame f) → (q ≠ [] → sp_table l s q ≠ Some f) →
  m_frames (slot_write l q i v s) !! f = m_frames s !! f.
Proof.
  intros H1 H2. unfold slot_write. destruct q as [|j q].
  - destruct l as [u|g]; [done|]. cbn. unfold frame_update. rewrite lookup_alter_ne; [done|].
    intros ->. by destruct (H1 eq_refl).
  - destruct (sp_table l s (j :: q)) as [g|] eqn:E; [|done]. cbn. unfold frame_update.
    rewrite lookup_alter_ne; [done|]. intros ->. by destruct (H2 ltac:(done)).
Qed.

(** ** Linking a new table *)

Section grow.
Context (D : Z → Prop) (l : tloc) (s : mach A) (q : list Z) (i v r e : Z) (a' : A).
Context (Hi : space_inv D l s) (Hp : path_ok D (q ++ [i])).
Context (Hv : slot_read l s q i = Some v) (Hnp : pte_present v = false).
Context (Hr : r ∈ free_frames s) (Hok : alloc_ok (taken s r a')).
Context (Hf : free_frames (taken s r a') = free_frames s ∖ {[r]}).
Context (Hrg : ∀ f, al_range a' f ↔ al_range (m_alloc s) f).
Context (He : pte_present e = true) (Her : pte_frame e = r) (Het : pte_table_ok e = true).

Lemma grow_index : index_ok i.
Proof. destruct Hp as (_ & Hfa & _). apply Forall_app in Hfa as [_ [? _]%Forall_cons]. done. Qed.

Lemma grow_prefix : q ≠ [] → path_ok D q ∧ (length q ≤ 2)%nat.
Proof. intros Hq. destruct (path_ok_prefix D q i Hp Hq) as (? & _ & ?). done. Qed.

Lemma grow_parent :
  q ≠ [] → ∃ g, sp_table l s q = Some g ∧ v = entry (m_frames s) g i ∧ frame_ok (m_frames s) g ∧
    g ≠ r ∧ l ≠ InFrame g ∧
    grow l q i e s r a' = set_frames (frame_update (m_frames (taken s r a')) g i e) (taken s r a').
Proof.
  intros Hq. destruct (grow_prefix Hq) as [Hpq _]. unfold slot_read in Hv. destruct q as [|j q'] eqn:Eq; [done|].
  destruct (sp_table l s (j :: q')) as [g|] eqn:Eg; [|done]. injection Hv as <-. exists g.
  destruct (so_frame _ _ _ _ (sp_space _ _ _ Hi) _ g Hpq Eg) as [Hfr Hn].
  split_and!; [done..| | |].
  - intros ->. apply Hn. by left.
  - intros Hl. apply Hn. by right.
  - unfold grow, slot_write. rewrite (take_table D) by done. by rewrite Eg.
Qed.

Lemma grow_grown :
  grown D (tl_read l s) (m_frames s) (tl_read l (grow l q i e s r a')) (m_frames (grow l q i e s r a'))
    (q ++ [i]) r.
Proof.
  pose proof grow_index as Hix. pose proof grow_parent as Hpar. pose proof grow_prefix as Hpre.
  pose proof (sp_space _ _ _ Hi) as Hsp. pose proof (take_frame D l s r Hi Hr) as Hfr.
  pose proof (take_not_top D l s r Hi Hr) as Hnt. pose proof (sp_slots _ _ _ Hi) as HD.
  assert (frame_ok (<[r:=zero_page]> (m_frames s)) r) as Hzr by (apply frame_zero_ok; [by destruct Hfr|done]).
  destruct (decide (q = [])) as [Hq|Hq].
  - clear Hpar Hpre. assert (v = tl_read l s i) as Hv' by (rewrite Hq in Hv; by injection Hv).
    assert (D i) as Hd by (rewrite Hq in Hp; destruct Hp as ((j & ? & [= <- <-] & ?) & _); done).
    rewrite Hq. destruct l as [u|f] eqn:El.
    + apply (grown_top D (reserved (InData u) s) _ _ Hsp r e); try done.
      * by left.
      * by rewrite <- Hv'.
      * cbn. by rewrite lookup_insert_eq.
      * intros j Hj Hij Hne. cbn. rewrite lookup_insert_ne by lia. done.
      * intros h Hh. by apply frame_zero_ok; [destruct Hfr|].
    + specialize (Hnt f eq_refl). pose proof (sp_top _ _ _ Hi) as [Hff Hfn].
      assert (frame_ok (<[r:=zero_page]> (m_frames s)) f) as Hzf by (apply frame_zero_ok; [by destruct Hfr|done]).
      apply (grown_top D (reserved (InFrame f) s) _ _ Hsp r e); try done.
      * by left.
      * by rewrite <- Hv'.
      * cbn. rewrite entry_update by done. by rewrite decide_True.
      * intros j Hj Hij Hne. cbn. rewrite entry_update, entry_zero by done.
        rewrite decide_False by (intros [_ ?]; done). by rewrite decide_False.
      * intros h j Hh Hj. cbn. rewrite entry_update by done. rewrite decide_False; [done|].
        intros [<- _]. destruct Hh as [?|(p' & Hp' & Hh)]; [done|].
        destruct (so_frame _ _ _ _ Hsp p' _ Hp' Hh) as [_ Hn]. apply Hn. by right.
      * intros h Hh. by apply frame_update_ok, frame_zero_ok; [destruct Hfr|].
  - destruct (Hpar Hq) as (g & Hg & Hve & Hgf & Hgr & Hgl & ->). destruct (Hpre Hq) as [Hpq Hlq].
    assert (frame_ok (<[r:=zero_page]> (m_frames s)) g) as Hzg by (apply frame_zero_ok; [by destruct Hfr|done]).
    apply (grown_top_ext D _ _ (tl_read l s)); [done| |].
    + intros k _ Hk. destruct l as [u|f] eqn:El; [done|]. cbn. rewrite entry_update, entry_zero by done.
      rewrite decide_False by (intros [-> _]; done).
      rewrite decide_False; [done|]. intros <-. by apply (Hnt r).
    + apply (grown_below D (reserved l s)); try done; [by left|]. by rewrite <- Hve.
Qed.

Lemma grow_table (p : list Z) :
  path_ok D p → sp_table l (grow l q i e s r a') p = if decide (p = q ++ [i]) then Some r else sp_table l s p.
Proof. intros Hpp. by apply (gr_table _ _ _ _ _ _ _ grow_grown). Qed.

Lemma grow_free : free_frames (grow l q i e s r a') = free_frames s ∖ {[r]}.
Proof.
  unfold grow, free_frames. destruct (slot_write_misc l q i e (taken s r a')) as (_ & -> & _). exact Hf.
Qed.

Lemma grow_inv : space_inv D l (grow l q i e s r a').
Proof.
  pose proof grow_free as Hgf. pose proof grow_table as Hgt. pose proof grow_grown as Hgr.
  pose proof grow_index as Hix. pose proof (take_frame D l s r Hi Hr) as Hfr.
  destruct (slot_write_misc l q i e (taken s r a')) as (_ & Hma & _ & _ & Hfo).
  destruct (take_inv D l s r a' Hi Hr Hok Hf Hrg) as [_ _ Htop _ _]. split.
  - by apply slot_write_alloc.
  - apply (grown_ok D (reserved l s) _ _ _ _ _ _ _ (sp_space _ _ _ Hi) Hgr); [by left|done|].
    intros x [Hx|Hx].
    + rewrite Hgf in Hx. split; [left|]; set_solver.
    + split; [by right|]. by apply (take_not_top D l s r Hi Hr).
  - destruct l as [u|f] eqn:El.
    + intros j Hj. destruct (Htop j Hj) as (Hs & ? & ?). split; [|done]. unfold grow, slot_write.
      destruct q as [|k q']; [|by destruct (sp_table _ _ _)]. cbn.
      destruct (decide (i = j)) as [->|Hne]; [by rewrite lookup_insert_eq|].
      rewrite lookup_insert_ne by lia. done.
    + destruct Htop as [Hff Hfn]. split; [by apply Hfo|]. rewrite Hgf. rewrite Hf in Hfn. done.
  - by apply Hi.
  - intros p f Hpp. rewrite Hgt by done. unfold grow. rewrite Hma. case_decide.
    + intros [= <-]. apply Hrg. apply al_free_range; [by apply (sp_alloc _ _ _ Hi)|done].
    + intros Ht. apply Hrg. by eapply (sp_range _ _ _ Hi).
Qed.

Lemma grow_ext : sp_ext D l s (grow l q i e s r a').
Proof.
  pose proof grow_free as Hgf. pose proof grow_table as Hgt. pose proof grow_grown as Hgr.
  pose proof grow_parent as Hpar. pose proof grow_prefix as Hpre. pose proof grow_index as Hix.
  pose proof (take_frame D l s r Hi Hr) as Hfr. pose proof (take_not_top D l s r Hi Hr) as Hnt.
  destruct (slot_write_misc l q i e (taken s r a')) as (Hmr & Hma & _ & _ & Hfo).
  assert (q = [] → D i) as Hdi.
  { intros ->. destruct Hp as ((j & ? & [= <- <-] & ?) & _). done. }
  split; [split|..].
  - intros p f Hpp. rewrite Hgt by done. case_decide; [|by left]. intros [= <-]. by right.
  - rewrite Hgf. set_solver.
  - done.
  - intros f. unfold grow. rewrite Hma. by apply Hrg.
  - intros a Ha. unfold grow. rewrite slot_write_data; [done|].
    destruct (decide (q = [])) as [Hq|Hq]; [left; by apply Ha, Hdi|by right].
  - intros f j Hl Hj Hdj. pose proof (Hnt f Hl) as Hfr'.
    assert (entry (m_frames (taken s r a')) f j = entry (m_frames s) f j) as Ht.
    { simpl. rewrite entry_zero by done. by rewrite decide_False. }
    rewrite <- Ht. destruct (decide (q = [])) as [Hq|Hq].
    + unfold grow, slot_write. rewrite Hq, Hl. cbn. rewrite entry_update; [|..|done|done].
      * rewrite decide_False; [done|]. intros [_ <-]. by apply Hdj, Hdi.
      * pose proof (sp_top _ _ _ Hi) as Htop. rewrite Hl in Htop. destruct Htop as [? _].
        apply frame_zero_ok; [by destruct Hfr|done].
    + destruct (Hpar Hq) as (g & _ & _ & Hgo & _ & Hgl & ->). cbn. rewrite entry_update; [|..|done|done].
      * rewrite decide_False; [done|]. intros [-> _]. done.
      * apply frame_zero_ok; [by destruct Hfr|done].
  - intros f Hnf Hl Ht. unfold grow. rewrite slot_write_frame.
    + apply take_other. intros ->. done.
    + done.
    + intros Hq. destruct (Hpre Hq) as [Hpq _]. rewrite (take_table D) by done. by apply Ht.
  - intros f Hff. apply Hfo. simpl. apply frame_zero_ok; [by destruct Hfr|done].
  - intros va Hd. by apply (grown_leaf D (reserved l s) _ _ _ _ _ _ va (sp_space _ _ _ Hi) Hgr).
  - intros p f Hpp Ht. rewrite Hgt by done. case_decide as Hc; [|done]. subst p.
    pose proof (gr_new _ _ _ _ _ _ _ Hgr) as Hnew. unfold sp_table in Ht. congruence.
Qed.

Lemma grow_sp_grow : sp_grow D l s (grow l q i e s r a').
Proof.
  split; [apply grow_ext|]. pose proof grow_free as Hgf. intros f Hfr.
  destruct (decide (f = r)) as [->|Hne]; [right|left; rewrite Hgf; set_solver].
  exists (q ++ [i]). split; [done|]. rewrite grow_table by done. by rewrite decide_True.
Qed.

End grow.

(** ** Writing a last-level entry *)

Section leaf_set.
Context (D : Z → Prop) (l : tloc) (s : mach A) (va f e : Z).
Context (Hi : space_inv D l s) (Hd : D (L4OFF va)).
Context (Ht : sp_table l s [L4OFF va; L3OFF va; L2OFF va] = Some f).

Definition leaf_set : mach A := set_frames (frame_update (m_frames s) f (L1OFF va) e) s.

Lemma leaf_set_frame : frame_ok (m_frames s) f ∧ f ∉ free_frames s ∧ l ≠ InFrame f.
Proof.
  destruct (so_frame _ _ _ _ (sp_space _ _ _ Hi) _ f (va_path D va Hd) Ht) as [Hf Hn].
  split; [done|]. split; intros Hc; apply Hn; [by left|by right].
Qed.

Lemma leaf_set_top i : index_ok i → tl_read l leaf_set i = tl_read l s i.
Proof.
  intros Hix. destruct leaf_set_frame as (Hf & _ & Hl). destruct l as [u|g]; [done|].
  destruct (off_range va) as (_ & _ & _ & H1). cbn. rewrite entry_update by done.
  rewrite decide_False; [done|]. intros [-> _]. done.
Qed.

Lemma leaf_set_table p : path_ok D p → sp_table l leaf_set p = sp_table l s p.
Proof.
  intros Hp. destruct (off_range va) as (_ & _ & _ & H1). unfold sp_table.
  rewrite (table_top_ext D (tl_read l s)); [|by intros; apply leaf_set_top|done].
  by apply (leaf_write_table D _ _ _ (sp_space _ _ _ Hi) _ _ _ _ (va_path D va Hd) eq_refl Ht).
Qed.

Lemma leaf_set_inv : space_inv D l leaf_set.
Proof.
  pose proof leaf_set_top as Htop. pose proof leaf_set_table as Htab.
  destruct (off_range va) as (_ & _ & _ & H1). destruct (Hi) as [[A1 A2 A3 A4] Hsp Hok Hsl Hrg]. split.
  - split; [done| |done|done]. intros g Hg. by apply frame_update_ok, A2.
  - apply (space_ok_top_ext D _ (tl_read l s)); [done|by intros; apply Htop|].
    by apply (leaf_write_ok D _ _ _ Hsp _ _ _ _ (va_path D va Hd) eq_refl Ht).
  - destruct l as [u|g]; [done|]. destruct Hok as [? ?]. split; [by apply frame_update_ok|done].
  - done.
  - intros p g Hp. rewrite Htab by done. by apply Hrg.
Qed.

Lemma leaf_set_sp_frame : sp_frame D l s leaf_set.
Proof.
  pose proof leaf_set_top as Htop. pose proof leaf_set_table as Htab. split; try done.
  - intros p g Hp. rewrite Htab by done. by left.
  - intros g j Hl Hj _. pose proof (Htop j Hj) as He. by rewrite Hl in He.
  - intros g _ _ Hn. unfold leaf_set, frame_update. simpl. rewrite lookup_alter_ne; [done|]. intros <-.
    by apply (Hn _ (va_path D va Hd)).
  - intros g Hg. by apply frame_update_ok.
Qed.

Lemma leaf_set_leaf va' :
  D (L4OFF va') → sp_leaf l leaf_set va' = if decide (same_page va va') then e else sp_leaf l s va'.
Proof.
  intros Hd'. unfold sp_leaf.
  rewrite (leaf_top_ext D (tl_read l s)); [|by intros; apply leaf_set_top|done].
  by apply (leaf_write_leaf D (reserved l s)); [apply Hi|..].
Qed.

End leaf_set.

(** ** The same entries in another place *)

(** A space [l'] of [s'] whose top level has the entries of the space [l] of [s],
    whose tables have not changed. *)
Section copied.
Context (D : Z → Prop) (l l' : tloc) (s s' : mach A).
Context (Hi : space_inv D l s).
Context (Htop : ∀ i, D i → tl_read l' s' i = tl_read l s i).
Context (Hfr : ∀ p f, path_ok D p → sp_table l s p = Some f → m_frames s' !! f = m_frames s !! f).

Lemma copied_table p : path_ok D p → sp_table l' s' p = sp_table l s p.
Proof.
  apply table_agree.
  - intros i Hd _. by rewrite Htop.
  - intros q f i Hq _ _ Ht. unfold entry, frame_word. by rewrite (Hfr q).
Qed.

Lemma copied_leaf va : D (L4OFF va) → sp_leaf l' s' va = sp_leaf l s va.
Proof.
  intros Hd. pose proof (copied_table _ (va_path D va Hd)) as Ht. unfold sp_leaf, leaf.
  fold (sp_table l' s' [L4OFF va; L3OFF va; L2OFF va]). rewrite Ht. unfold sp_table.
  destruct (table _ _ _) as [f|] eqn:E; [|done]. unfold entry, frame_word.
  by rewrite (Hfr _ f (va_path D va Hd) E).
Qed.

Context (Hok : alloc_ok s') (Hl : tl_ok D l' s') (Hfree : free_frames s' ⊆ free_frames s).
Context (Hrg : ∀ f, al_range (m_alloc s') f ↔ al_range (m_alloc s) f).
Context (Hroot : ∀ p f, path_ok D p → sp_table l s p = Some f → l' ≠ InFrame f).

Lemma copied_inv : space_inv D l' s'.
Proof.
  pose proof (sp_space _ _ _ Hi) as [S1 S2 S3 S4]. pose proof copied_table as Ht.
  split; [done| |done|by apply Hi|].
  - split.
    + intros p f Hp. fold (sp_table l' s' p). rewrite Ht by done. intros Hf.
      destruct (S1 p f Hp Hf) as [[Hr Hx] Hn]. split; [split; [done|by rewrite (Hfr p)]|].
      intros [Hc|Hc]; [apply Hn; left; by apply Hfree|by apply (Hroot p f)].
    + intros p q f Hp Hq. fold (sp_table l' s' p) (sp_table l' s' q). rewrite !Ht by done. by apply S2.
    + intros i Hd. rewrite Htop by done. by apply S3.
    + intros p f i Hp Hl2 Hx. fold (sp_table l' s' p). rewrite Ht by done. intros Hf. unfold entry, frame_word.
      rewrite (Hfr p) by done. by apply (S4 p).
  - intros p f Hp. rewrite Ht by done. intros Hf. apply Hrg. by apply (sp_range _ _ _ Hi p).
Qed.

End copied.

(** ** Access to words of frames and of the kernel's data *)

Lemma frame_load_run f j s :
  frame_ok (m_frames s) f → index_ok j →
  (t ← pfn_get f; v ← kload (t + 8 * j); pfn_put f t;; mret v) s = Ret (entry (m_frames s) f j, s).
Proof.
  intros Hf Hj. pose proof Hf as [Hr _]. mrun (pfn_get_run f s Hr).
  destruct (frame_word_ok _ f j Hf Hj) as [w Hw].
  mrun (kload_run f j w s Hr Hj Hw). mrun (pfn_put_run f (window f) s Hr).
  unfold entry. by rewrite Hw.
Qed.

Lemma frame_swap_run f j e s :
  frame_ok (m_frames s) f → index_ok j →
  (t ← pfn_get f; old ← kload (t + 8 * j); kstore (t + 8 * j) e;; pfn_put f t;; mret old) s =
    Ret (entry (m_frames s) f j, set_frames (frame_update (m_frames s) f j e) s).
Proof.
  intros Hf Hj. pose proof Hf as [Hr _]. mrun (pfn_get_run f s Hr).
  destruct (frame_word_ok _ f j Hf Hj) as [w Hw].
  mrun (kload_run f j w s Hr Hj Hw). mrun (kstore_run f j e s Hf Hj).
  mrun (pfn_put_run f (window f) (set_frames (frame_update (m_frames s) f j e) s) Hr).
  unfold entry. by rewrite Hw.
Qed.

Lemma data_load_run a v s :
  m_kdata s !! a = Some v → in_dmap a = false → a `mod` 8 = 0 → kload a s = Ret (v, s).
Proof. intros Hk Hd Hm. unfold kload. by rewrite Hm, Hd, Hk. Qed.

Lemma data_store_run a v e s :
  m_kdata s !! a = Some v → in_dmap a = false → a `mod` 8 = 0 →
  kstore a e s = Ret (tt, set_kdata (<[a := e]> (m_kdata s)) s).
Proof. intros Hk Hd Hm. unfold kstore. by rewrite Hm, Hd, Hk. Qed.

End lemmas.
