(* ===== verification/UmapInit.v ===== *)
(** Making the top level of a new user map: the loop of hal_umap_init, which the
    amd64 and the RISC-V HAL have in common. *)

From S2P Require Import Prelude Words Locks Machine PageTable Space.

(** A table entry that passes the HAL's own checks. *)
Definition table_entry {FMT : PteFormat} (e : Z) : Prop := pte_present e = true ∧ pte_table_ok e = true.

(** What a HAL's [alloc_table] promises: an entry for a new empty table, or 0
    when there is no free frame. *)
Definition alloc_table_spec {CFG : Config} {FMT : PteFormat} {A : Type} `{!PfnCache A, !PfnAllocator A}
    (alloc : M (mach A) Z) : Prop :=
  ∀ s, alloc_ok s →
    (free_frames s = ∅ ∧ alloc s = Ret (0, s)) ∨
    ∃ r a' e, r ∈ free_frames s ∧ frame_ok (m_frames s) r ∧ alloc s = Ret (e, taken s r a') ∧
      alloc_ok (taken s r a') ∧ free_frames (taken s r a') = free_frames s ∖ {[r]} ∧
      (∀ f, al_range a' f ↔ al_range (m_alloc s) f) ∧ table_entry e ∧ pte_frame e = r ∧ e ≠ 0.

Section code.
Context {CFG : Config} {A : Type} `{!PfnCache A, !PfnAllocator A}.

(** [for (i = 0; i < slots; i++) umap->l4[i] = alloc_table ()]. *)
Definition init_slots (alloc : M (mach A) Z) (slots u : Z) : M (mach A) unit :=
  for_each (seqZ 0 slots) (λ i,
    e ← alloc;
    kstore (u + 8 * i) e).

End code.

Section init.
Context {CFG : Config} {CFGOK : ConfigOk} {FMT : PteFormat} {FMTOK : PteFormatOk}.
Context {A : Type} `{!PfnCache A, !PfnAllocator A, !PfnAllocatorLaws A}.
Context (slots u : Z) (Hslots : 0 ≤ slots ≤ 512).
Let uslot (i : Z) : Prop := 0 ≤ i < slots.
Implicit Types s : mach A.

(** An entry the loop stores: nothing, or an empty table of its own. *)
Definition fresh_l4e s (e : Z) : Prop :=
  e = 0 ∨ table_entry e ∧ frame_ok (m_frames s) (pte_frame e) ∧ m_frames s !! (pte_frame e) = Some zero_page ∧
    pte_frame e ∉ free_frames s ∧ al_range (m_alloc s) (pte_frame e).

Record fresh_slots (n : Z) s : Prop := {
  fs_alloc : alloc_ok s;
  fs_word i : 0 ≤ i < n → is_Some (m_kdata s !! (u + 8 * i)) ∧ fresh_l4e s (tl_read (InData u) s i);
  fs_inj i j : 0 ≤ i < n → 0 ≤ j < n → tl_read (InData u) s i ≠ 0 → tl_read (InData u) s j ≠ 0 →
    pte_frame (tl_read (InData u) s i) = pte_frame (tl_read (InData u) s j) → (i = j);
}.

Lemma fresh_zero_entry s f i : m_frames s !! f = Some zero_page → index_ok i → entry (m_frames s) f i = 0.
Proof.
  intros Hf Hi. unfold entry, frame_word. rewrite Hf.
  change (Some zero_page ≫= λ l, l !! Z.to_nat i) with (zero_page !! Z.to_nat i). unfold zero_page.
  rewrite lookup_replicate_2; [done|]. unfold index_ok, WORDS_PER_PAGE in *. lia.
Qed.

(** The tables of a map made of fresh slots. *)
Lemma fresh_present s i :
  fresh_slots slots s → uslot i → let e := tl_read (InData u) s i in pte_present e = true →
  e ≠ 0 ∧ table_entry e ∧ frame_ok (m_frames s) (pte_frame e) ∧ m_frames s !! (pte_frame e) = Some zero_page ∧
  pte_frame e ∉ free_frames s ∧ al_range (m_alloc s) (pte_frame e).
Proof.
  intros [_ Hw _] Hi e Hp. destruct (Hw i Hi) as [_ [H0|Hf]].
  - exfalso. unfold e in Hp. by rewrite H0, pte_zero in Hp.
  - split; [|done]. intros H0. unfold e in *. by rewrite H0, pte_zero in Hp.
Qed.

Lemma fresh_table s p f :
  fresh_slots slots s → path_ok uslot p → sp_table (InData u) s p = Some f →
  ∃ i, p = [i] ∧ uslot i ∧ pte_present (tl_read (InData u) s i) = true ∧ f = pte_frame (tl_read (InData u) s i).
Proof.
  intros Hfs Hp. unfold sp_table. destruct (Hp) as ((i & q & -> & Hi) & Hfa & _).
  cbn [table]. unfold sub_table at 1. destruct (pte_present _) eqn:E; [|done]. cbn [mbind option_bind].
  destruct q as [|j q]; [intros [= <-]; by exists i|]. cbn [walk].
  destruct (fresh_present s i Hfs Hi E) as (_ & _ & _ & Hz & _). rewrite !Forall_cons in Hfa.
  destruct Hfa as (_ & Hj & _). rewrite (fresh_zero_entry s _ j Hz Hj). unfold sub_table. by rewrite pte_zero.
Qed.

Lemma fresh_slot_table s i :
  fresh_slots slots s → uslot i → tl_read (InData u) s i ≠ 0 →
  path_ok uslot [i] ∧ sp_table (InData u) s [i] = Some (pte_frame (tl_read (InData u) s i)).
Proof.
  intros [_ Hw _] Hi Hne. destruct (Hw i Hi) as [_ [H0|((Hp & _) & _)]]; [done|]. split.
  - apply path_ok_one; [done|]. unfold uslot, index_ok in *. lia.
  - unfold sp_table. cbn [table]. unfold sub_table. by rewrite Hp.
Qed.

(** A map made of fresh slots is an address space without mappings. *)
Lemma fresh_space s :
  fresh_slots slots s → (∀ i, uslot i → in_dmap (u + 8 * i) = false ∧ (u + 8 * i) `mod` 8 = 0) →
  space_inv uslot (InData u) s ∧ ∀ va, uslot (L4OFF va) → sp_leaf (InData u) s va = 0.
Proof.
  intros Hfs Hdm. pose proof (λ p f, fresh_table s p f Hfs) as Htab. pose proof (λ i, fresh_present s i Hfs) as Hpr.
  assert (∀ i, uslot i → index_ok i) as HD by (unfold uslot, index_ok; lia).
  destruct (Hfs) as [Ha Hw Hinj]. split.
  - split; [done| | |done|].
    + split.
      * intros p f Hp Ht. destruct (Htab p f Hp Ht) as (i & -> & Hi & Hpi & ->).
        destruct (Hpr i Hi Hpi) as (_ & _ & Hf & _ & Hn & _). split; [done|]. by intros [?|?].
      * intros p q f Hp Hq Ht Ht'. destruct (Htab p f Hp Ht) as (i & -> & Hi & Hpi & ->).
        destruct (Htab q _ Hq Ht') as (j & -> & Hj & Hpj & Heq). f_equal.
        by apply Hinj; [done|done|apply Hpr|apply Hpr|].
      * intros i Hi Hpi. by destruct (Hpr i Hi Hpi) as (_ & (_ & ?) & _).
      * intros p f i Hp Hl Hix Ht. destruct (Htab p f Hp Ht) as (j & -> & Hj & Hpj & ->).
        destruct (Hpr j Hj Hpj) as (_ & _ & _ & Hz & _). by rewrite (fresh_zero_entry s _ i Hz Hix), pte_zero.
    + intros i Hi. destruct (Hw i Hi) as [? _]. split; [done|by apply Hdm].
    + intros p f Hp Ht. destruct (Htab p f Hp Ht) as (i & -> & Hi & Hpi & ->). by apply Hpr.
  - intros va Hd. unfold sp_leaf, leaf. fold (sp_table (InData u) s [L4OFF va; L3OFF va; L2OFF va]).
    destruct (sp_table _ _ _) as [f|] eqn:E; [|done].
    by destruct (Htab _ f (va_path uslot va Hd) E) as (i & ? & _).
Qed.

Lemma fresh_l4e_taken s r a' e :
  fresh_l4e s e → e ≠ 0 → r ∈ free_frames s → free_frames (taken s r a') = free_frames s ∖ {[r]} →
  0 ≤ r < max_dmap_pfn → (∀ f, al_range a' f ↔ al_range (m_alloc s) f) →
  fresh_l4e (taken s r a') e ∧ pte_frame e ≠ r.
Proof.
  intros [?|(Hg & Hf & Hz & Hn & Hrg)] Hne Hr Hfr Hrd Ha; [done|].
  assert (pte_frame e ≠ r) as Hner by (intros He; by rewrite He in Hn). split; [|done]. right.
  split; [done|]. split_and!.
  - by apply frame_zero_ok.
  - simpl. by rewrite lookup_insert_ne.
  - rewrite Hfr. set_solver.
  - by apply Ha.
Qed.

(** What the loop leaves alone. *)
Definition init_frame s s' : Prop :=
  m_root s' = m_root s ∧ free_frames s' ⊆ free_frames s ∧
  (∀ a, (∀ i, uslot i → a ≠ u + 8 * i) → m_kdata s' !! a = m_kdata s !! a) ∧
  (∀ f, f ∉ free_frames s → m_frames s' !! f = m_frames s !! f).

(** Frames that are no longer free are tables of the first [n] slots, and the
    other way around. *)
Definition init_used (n : Z) s s' : Prop :=
  (∀ f, f ∈ free_frames s → f ∈ free_frames s' ∨
    ∃ i, 0 ≤ i < n ∧ tl_read (InData u) s' i ≠ 0 ∧ pte_frame (tl_read (InData u) s' i) = f) ∧
  ∀ i, 0 ≤ i < n → tl_read (InData u) s' i ≠ 0 → pte_frame (tl_read (InData u) s' i) ∈ free_frames s.

Lemma init_slots_run (alloc : M (mach A) Z) s :
  alloc_table_spec alloc → alloc_ok s → (∀ i, uslot i → is_Some (m_kdata s !! (u + 8 * i))) →
  (∀ i, uslot i → in_dmap (u + 8 * i) = false ∧ (u + 8 * i) `mod` 8 = 0) →
  ∃ s', init_slots alloc slots u s = Ret (tt, s') ∧ fresh_slots slots s' ∧ init_frame s s' ∧ init_used slots s s'.
Proof.
  intros Halloc Hok Hw Hdm.
  cut (∀ n : nat, n ≤ slots → ∃ s', for_each (seqZ 0 n) (λ i, e ← alloc; kstore (u + 8 * i) e) s =
    Ret (tt, s') ∧ fresh_slots n s' ∧ init_frame s s' ∧ init_used n s s' ∧
    (∀ i, uslot i → is_Some (m_kdata s' !! (u + 8 * i)))).
  { intros H. destruct (H (Z.to_nat slots)) as (s' & Hr & Hf & ? & Hus & _); [lia|].
    rewrite Z2Nat.id in Hr, Hf, Hus by lia. by exists s'. }
  induction n as [|n IH]; intros Hn.
  - exists s. split; [done|]. split; [split; [done|lia|lia]|]. split; [by split_and!|].
    split; [|done]. split; [by left|lia].
  - destruct IH as (s1 & Hr1 & [A1 W1 J1] & (F1 & F2 & F3 & F4) & (U1 & V1) & K1); [lia|].
    assert (seqZ 0 (S n) = seqZ 0 n ++ [Z.of_nat n]) as ->.
    { replace (Z.of_nat (S n)) with (n + 1) by lia. rewrite seqZ_app by lia. done. }
    assert (uslot n) as Hs by (unfold uslot; lia). destruct (Hdm n Hs) as [D1 D2].
    rewrite for_each_app. mrun Hr1. cbn [for_each].
    assert (∀ s2 e, alloc_ok s2 → m_kdata s2 = m_kdata s1 → fresh_l4e s2 e →
      (∀ i, 0 ≤ i < n → let x := tl_read (InData u) s1 i in x ≠ 0 → fresh_l4e s2 x ∧ (e ≠ 0 → pte_frame x ≠ pte_frame e)) →
      alloc s1 = Ret (e, s2) → init_frame s s2 →
      (∀ f, f ∈ free_frames s1 → f ∈ free_frames s2 ∨ e ≠ 0 ∧ pte_frame e = f) →
      (e ≠ 0 → pte_frame e ∈ free_frames s1) →
      ∃ s', ((e ← alloc; kstore (u + 8 * n) e);; mret tt) s1 = Ret (tt, s') ∧ fresh_slots (S n) s' ∧
        init_frame s s' ∧ init_used (S n) s s' ∧ (∀ i, uslot i → is_Some (m_kdata s' !! (u + 8 * i)))) as Hstore.
    { intros s2 e A2 Kd He Hold Hal (G1 & G2 & G3 & G4) Hus Hvs. destruct (K1 n Hs) as [v Hv]. rewrite <- Kd in Hv.
      set (s3 := set_kdata (<[u + 8 * n := e]> (m_kdata s2)) s2).
      assert (∀ i, tl_read (InData u) s3 i = if decide (i = n) then e else tl_read (InData u) s1 i) as Hrd.
      { intros i. cbn. rewrite Kd. case_decide as Hin.
        - rewrite Hin. by rewrite lookup_insert_eq.
        - by rewrite lookup_insert_ne by lia. }
      exists s3. split; [|split; [split|split; [|split]]].
      - rewrite bind_assoc. mrun Hal. mrun (data_store_run _ v e s2 Hv D1 D2). done.
      - destruct A2. by split.
      - intros i Hi. rewrite Hrd. split.
        + cbn. rewrite Kd. destruct (decide (i = n)) as [->|Hin]; [by rewrite lookup_insert_eq|].
          rewrite lookup_insert_ne by lia. by apply (W1 i); lia.
        + case_decide; [done|]. destruct (W1 i) as [_ Hf]; [lia|]. destruct Hf as [H0|Hf]; [by left|].
          destruct (decide (tl_read (InData u) s1 i = 0)); [by left|]. by apply Hold; [lia|].
      - intros i j Hi Hj. rewrite !Hrd. repeat case_decide; subst; intros E1 E2 Ep; [done|..].
        + exfalso. eapply (Hold j); [lia|done|done|done].
        + exfalso. eapply (Hold i); [lia|done|done|done].
        + apply J1; [lia|lia|done..].
      - split_and!; [done|done| |done]. intros a Haa. cbn. rewrite lookup_insert_ne by (intros <-; by apply (Haa n)).
        by apply G3.
      - split; [|intros i Hi; rewrite Hrd; case_decide; [intros ?; by apply F2, Hvs|apply V1; lia]].
        intros f Hf. destruct (U1 f Hf) as [Hf1|(i & Hi & Hne & Hfi)].
        + destruct (Hus f Hf1) as [?|[Hne ?]]; [by left|right]. exists n. split; [lia|]. rewrite Hrd.
          by rewrite decide_True.
        + right. exists i. split; [lia|]. rewrite Hrd. by rewrite decide_False by lia.
      - intros i Hi. cbn. rewrite Kd. destruct (decide (i = n)) as [->|Hin]; [by rewrite lookup_insert_eq|].
        rewrite lookup_insert_ne by lia. by apply K1. }
    destruct (Halloc s1 A1) as [[Hem Hal]|(r & a' & e & Hr & Hfr & Hal & A2 & Hf & Hrg & Hg & Hpf & Hne)].
    + apply (Hstore s1 0); [done|done|by left| |done|by split_and!|by left|done].
      intros i Hi x Hx. split; [|done]. by apply (W1 i).
    + apply (Hstore (taken s1 r a') e); [done|done| | |done| | |].
      * right. rewrite Hpf. split; [done|]. split_and!.
        -- apply frame_zero_ok; [by destruct Hfr|done].
        -- simpl. by rewrite lookup_insert_eq.
        -- rewrite Hf. set_solver.
        -- apply Hrg. apply al_free_range; [by apply A1|done].
      * intros i Hi x Hx. rewrite Hpf. destruct (fresh_l4e_taken s1 r a' x) as [? ?];
          [by apply (W1 i)|done|done|done|by destruct Hfr|done|]. done.
      * split_and!; [done|rewrite Hf; set_solver|done|]. intros f Hnf. simpl.
        rewrite lookup_insert_ne by (intros <-; set_solver). by apply F4.
      * intros f Hf1. destruct (decide (f = r)) as [->|Hfn]; [by right|left]. rewrite Hf. set_solver.
      * intros _. by rewrite Hpf.
Qed.

(** The frames that the new map holds are those it took. *)
Lemma init_used_tables s s' :
  fresh_slots slots s' → init_used slots s s' →
  (∀ f, f ∈ free_frames s → f ∈ free_frames s' ∨ ∃ p, path_ok uslot p ∧ sp_table (InData u) s' p = Some f) ∧
  (∀ p f, path_ok uslot p → sp_table (InData u) s' p = Some f → f ∈ free_frames s).
Proof.
  intros Hfs [Hu Hv]. split.
  - intros f Hf. destruct (Hu f Hf) as [?|(i & Hi & Hne & <-)]; [by left|right].
    exists [i]. by apply fresh_slot_table.
  - intros p f Hp Ht. destruct (fresh_table s' p f Hfs Hp Ht) as (i & -> & Hi & Hpi & ->).
    apply Hv; [done|]. by apply (fresh_present s' i Hfs Hi).
Qed.

End init.

