(* ===== verification/UmapScan.v ===== *)
(** Searching the tables of an address space for the next entry in use, and
    freeing them: the parts of pt_umap_next and pt_umap_free that the amd64 and
    the RISC-V HAL have in common. *)

From S2P Require Import Prelude Words Locks Machine Hal PageTable Space.

(** What a scan reports: the offsets of the entry, level by level, the pointer
    to the entry, and the entry ([l1off_out] and the like, [l1p_out],
    [l1e_out]). *)
Definition scan_out : Set := list Z * (Z * Z).

Section defs.
Context {CFG : Config} {FMT : PteFormat} {A : Type} `{!PfnCache A, !PfnAllocator A}.

(** How the HAL tests for a table entry, builds a pointer to an entry, and what
    it asserts of an entry before it frees the table below. *)
Context (is_table : Z → bool) (mkp : Z → Z → Z) (chk : Z → bool).

Definition scan_l1 (l1pfn off : Z) : M (mach A) (option scan_out) :=
  l1ptr ← pfn_get l1pfn;
  r ← for_find (seqZ off (512 - off)) (λ i,
    l1e ← kload (l1ptr + 8 * i);
    mret (if negb (l1e =? 0) then Some ([i], (mkp l1pfn i, l1e)) else None));
  pfn_put l1pfn l1ptr;;
  mret r.

(** The body of the loops of the other levels. *)
Definition scan_entry (below : Z → M (mach A) (option scan_out)) (i e : Z) : M (mach A) (option scan_out) :=
  if is_table e then
    r ← below (pte_frame e);
    mret ((λ o : scan_out, (i :: o.1, o.2)) <$> r)
  else mret None.

Definition scan_l2 (l2pfn off : Z) : M (mach A) (option scan_out) :=
  l2ptr ← pfn_get l2pfn;
  r ← for_find (seqZ off (512 - off)) (λ i,
    l2e ← kload (l2ptr + 8 * i);
    scan_entry (λ l1pfn, scan_l1 l1pfn 0) i l2e);
  pfn_put l2pfn l2ptr;;
  mret r.

Definition scan_l3 (l3pfn off : Z) : M (mach A) (option scan_out) :=
  l3ptr ← pfn_get l3pfn;
  r ← for_find (seqZ off (512 - off)) (λ i,
    l3e ← kload (l3ptr + 8 * i);
    scan_entry (λ l2pfn, scan_l2 l2pfn 0) i l3e);
  pfn_put l3pfn l3ptr;;
  mret r.

(** [rd i] reads slot [i] of the top level, which has [n] slots. *)
Definition scan_l4 (n : Z) (rd : Z → M (mach A) Z) (off : Z) : M (mach A) (option scan_out) :=
  for_find (seqZ off (n - off)) (λ i,
    l4e ← rd i;
    scan_entry (λ l3pfn, scan_l3 l3pfn 0) i l4e).

(** [pfn != PFN_INVALID && scan (pfn, ...)]. *)
Definition scan_if (pfn : M (mach A) Z) (scan : Z → M (mach A) (option scan_out)) : M (mach A) (option scan_out) :=
  p ← pfn;
  if p =? PFN_INVALID then mret None else scan p.

(** The body of [pt_umap_next]: the four searches in turn, the first to find an
    entry giving the address and what is stored through [l1p_out] and
    [l1e_out]. *)
Definition next_search (mkaddr : Z → Z → Z → Z → Z) (uaddr : Z)
    (in_l1 in_l2 in_l3 in_l4 : M (mach A) (option scan_out)) : M (mach A) (Z * option (Z * Z)) :=
  let l4off := L4OFF uaddr in
  let l3off := L3OFF uaddr in
  let l2off := L2OFF uaddr in
  r ← in_l1;
  match r with
  | Some ([l1next], o) => mret (mkaddr l4off l3off l2off l1next, Some o)
  | _ =>
  r ← in_l2;
  match r with
  | Some ([l2next; l1next], o) => mret (mkaddr l4off l3off l2next l1next, Some o)
  | _ =>
  r ← in_l3;
  match r with
  | Some ([l3next; l2next; l1next], o) => mret (mkaddr l4off l3next l2next l1next, Some o)
  | _ =>
  r ← in_l4;
  match r with
  | Some ([l4next; l3next; l2next; l1next], o) => mret (mkaddr l4next l3next l2next l1next, Some o)
  | _ => mret (UADDR_INVALID, None)
  end end end end.

(** The loops of [pt_umap_free], from the inside out. *)
Definition free_l1s (l2pfn : Z) : M (mach A) unit :=
  l2ptr ← pfn_get l2pfn;
  for_each (seqZ 0 512) (λ i,
    l2e ← kload (l2ptr + 8 * i);
    assertb (chk l2e);;
    when (is_table l2e) (pfn_free (pte_frame l2e)));;
  pfn_put l2pfn l2ptr;;
  pfn_free l2pfn.

Definition free_l2s (l3pfn : Z) : M (mach A) unit :=
  l3ptr ← pfn_get l3pfn;
  for_each (seqZ 0 512) (λ i,
    l3e ← kload (l3ptr + 8 * i);
    assertb (chk l3e);;
    when (is_table l3e) (free_l1s (pte_frame l3e)));;
  pfn_put l3pfn l3ptr;;
  pfn_free l3pfn.

Definition free_slots (n u : Z) : M (mach A) unit :=
  for_each (seqZ 0 n) (λ i,
    l4e ← kload (u + 8 * i);
    assertb (chk l4e);;
    when (is_table l4e) (free_l2s (pte_frame l4e));;
    kstore (u + 8 * i) 0).

End defs.

(** * The entries below a table, by index *)

Fixpoint sub_leaf {FMT : PteFormat} (k : nat) (fs : gmap Z (list Z)) (f n : Z) : Z :=
  match k with
  | O => entry fs f n
  | S k' =>
      match sub_table (entry fs f (n `div` 512 ^ k)) with
      | Some g => sub_leaf k' fs g (n `mod` 512 ^ k)
      | None => 0
      end
  end.

(** The last-level entry of page [n] of a space. *)
Definition page_leaf {CFG : Config} {FMT : PteFormat} {A} (l : tloc) (s : mach A) (n : Z) : Z :=
  match sub_table (tl_read l s (n `div` 512 ^ 3)) with
  | Some f => sub_leaf 2 (m_frames s) f (n `mod` 512 ^ 3)
  | None => 0
  end.

Lemma least_shift P Q w i r :
  (∀ n, 0 ≤ n < w → (P n ↔ Q (i * w + n))) → least P 0 w r →
  least Q (i * w) ((i + 1) * w) ((λ n, i * w + n) <$> r).
Proof.
  intros HPQ Hl. destruct r as [n|]; simpl in *.
  - destruct Hl as (Hn & HP & Hb). split_and!; [lia..|by apply HPQ|]. intros m Hm HQ.
    apply (Hb (m - i * w)); [lia|]. apply HPQ; [lia|]. by replace (i * w + (m - i * w)) with m by lia.
  - intros m Hm HQ. apply (Hl (m - i * w)); [lia|]. apply HPQ; [lia|].
    by replace (i * w + (m - i * w)) with m by lia.
Qed.

(** Code that finds the least [n] of [P] and reports it as [out n], without
    changing the state. *)
Definition finds {A B} (m : M A (option B)) (s : A) (P : Z → Prop) (lo hi : Z) (out : Z → B) : Prop :=
  ∃ r, m s = Ret (out <$> r, s) ∧ least P lo hi r.

Lemma finds_blocks {S B} (body : Z → M S (option B)) s P w (O : Z → B) (n : nat) : ∀ lo,
  0 < w → (∀ i, lo ≤ i < lo + n → finds (body i) s P (i * w) ((i + 1) * w) O) →
  finds (for_find (seqZ lo n) body) s P (lo * w) ((lo + n) * w) O.
Proof.
  induction n as [|n IH]; intros lo Hw Hb.
  - exists None. split; [done|]. intros m Hm. lia.
  - rewrite seqZ_cons by lia. cbn [for_find]. replace (Z.pred (Datatypes.S n)) with (Z.of_nat n) by lia.
    destruct (Hb lo ltac:(lia)) as (r1 & Hr1 & Hl1).
    destruct (IH (Z.succ lo) Hw) as (r2 & Hr2 & Hl2); [intros i Hi; apply Hb; lia|].
    exists (match r1 with Some n => Some n | None => r2 end). split.
    + mrun Hr1. by destruct r1.
    + apply (least_split P _ ((lo + 1) * w)); [nia|nia|done|].
      by replace ((lo + Datatypes.S n) * w) with ((Z.succ lo + n) * w) by lia.
Qed.

Lemma finds_range {S B} (body : Z → M S (option B)) s P w (O : Z → B) lo hi :
  0 < w → lo ≤ hi → (∀ i, lo ≤ i < hi → finds (body i) s P (i * w) ((i + 1) * w) O) →
  finds (for_find (seqZ lo (hi - lo)) body) s P (lo * w) (hi * w) O.
Proof.
  intros Hw Hle Hb. pose proof (finds_blocks body s P w O (Z.to_nat (hi - lo)) lo Hw) as Hf.
  rewrite Z2Nat.id in Hf by lia. replace (lo + (hi - lo)) with hi in Hf by lia. by apply Hf.
Qed.

Section scan.
Context {CFG : Config} {CFGOK : ConfigOk} {FMT : PteFormat} {FMTOK : PteFormatOk}.
Context {A : Type} `{!PfnCache A, !PfnAllocator A, !PfnAllocatorLaws A}.
Context (is_table : Z → bool) (mkp : Z → Z → Z).
Implicit Types s : mach A.

(** The loop over a table's words. *)
Lemma table_finds {B} f off w (body : Z → Z → M (mach A) (option B)) P O s :
  frame_ok (m_frames s) f → 0 ≤ off ≤ 512 → 0 < w →
  (∀ i, off ≤ i < 512 → finds (body i (entry (m_frames s) f i)) s P (i * w) ((i + 1) * w) O) →
  finds (t ← pfn_get f; r ← for_find (seqZ off (512 - off)) (λ i, e ← kload (t + 8 * i); body i e);
   (pfn_put f t;; mret r)) s P (off * w) (512 * w) O.
Proof.
  intros Hf Hoff Hw Hb. pose proof Hf as [Hr _].
  destruct (finds_range (λ i, e ← kload (window f + 8 * i); body i e) s P w O off 512 Hw) as (r & Hrun & Hl);
    [lia| |].
  { intros i Hi. destruct (frame_word_ok _ f i Hf) as [x Hx]; [lia|].
    destruct (Hb i Hi) as (r & Hr' & Hl). exists r. split; [|done].
    mrun (kload_run f i x s Hr ltac:(lia) Hx). unfold entry in Hr'. by rewrite Hx in Hr'. }
  exists r. split; [|done]. mrun (pfn_get_run f s Hr). mrun Hrun. by mrun (pfn_put_run f (window f) s Hr).
Qed.

Lemma scan_l1_run f off s :
  frame_ok (m_frames s) f → 0 ≤ off ≤ 512 →
  finds (scan_l1 mkp f off) s (λ n, sub_leaf 0 (m_frames s) f n ≠ 0) off 512
    (λ n, ([n], (mkp f n, entry (m_frames s) f n))).
Proof.
  intros Hf Hoff. pose proof (table_finds f off 1
    (λ i l1e, mret (if negb (l1e =? 0) then Some ([i], (mkp f i, l1e)) else None))
    (λ n, sub_leaf 0 (m_frames s) f n ≠ 0) (λ n, ([n], (mkp f n, entry (m_frames s) f n))) s Hf Hoff) as Ht.
  rewrite !Z.mul_1_r in Ht. apply Ht; [done|]. intros i Hi. rewrite !Z.mul_1_r. destruct (Z.eqb_spec (entry (m_frames s) f i) 0) as [He|He].
  - exists None. split; [done|]. intros m Hm. replace m with i by lia. simpl. auto.
  - exists (Some i). split; [done|]. split_and!; [lia..|done|lia].
Qed.

(** The index of an entry below a table, by the table's word. *)
Lemma block_index w i n : 0 ≤ n < w → (i * w + n) `div` w = i ∧ (i * w + n) `mod` w = n.
Proof.
  intros Hn. rewrite Z.add_comm, Z.div_add, Z.mod_add by lia. rewrite Z.div_small, Z.mod_small by lia. lia.
Qed.

(** One entry of a level with [S k] levels of tables below. *)
Definition below_leaf (k : nat) (fs : gmap Z (list Z)) (top : Z → Z) (n : Z) : Z :=
  match sub_table (top (n `div` 512 ^ S k)) with
  | Some g => sub_leaf k fs g (n `mod` 512 ^ S k)
  | None => 0
  end.

Definition below_out (k : nat) (out : Z → Z → scan_out) (top : Z → Z) (n : Z) : scan_out :=
  let o := out (pte_frame (top (n `div` 512 ^ S k))) (n `mod` 512 ^ S k) in
  (n `div` 512 ^ S k :: o.1, o.2).

Lemma scan_entry_run (k : nat) (below : Z → M (mach A) (option scan_out)) (out : Z → Z → scan_out)
    (top : Z → Z) i s :
  is_table (top i) = pte_present (top i) →
  (pte_present (top i) = true →
     finds (below (pte_frame (top i))) s (λ n, sub_leaf k (m_frames s) (pte_frame (top i)) n ≠ 0) 0 (512 ^ S k)
       (out (pte_frame (top i)))) →
  finds (scan_entry is_table below i (top i)) s (λ n, below_leaf k (m_frames s) top n ≠ 0)
    (i * 512 ^ S k) ((i + 1) * 512 ^ S k) (below_out k out top).
Proof.
  intros Hit Hbelow. unfold scan_entry, below_leaf, below_out. set (w := 512 ^ S k) in *.
  assert (0 < w) as Hw by (unfold w; lia). rewrite Hit. destruct (pte_present (top i)) eqn:Hp.
  - destruct (Hbelow eq_refl) as (r & Hr & Hl). exists ((λ n, i * w + n) <$> r). split.
    + mrun Hr. unfold mret, M_ret. do 2 f_equal. destruct r as [n|]; [|done]. simpl.
      destruct (block_index w i n) as [-> ->]; [|done]. destruct Hl as (? & _). lia.
    + eapply least_shift; [|exact Hl]. intros n Hn. simpl. destruct (block_index w i n Hn) as [-> ->].
      unfold sub_table. by rewrite Hp.
  - exists None. split; [done|]. intros m Hm.
    destruct (block_index w i (m - i * w)) as [Hd _]; [lia|]. replace (i * w + (m - i * w)) with m in Hd by lia.
    rewrite Hd. unfold sub_table. rewrite Hp. auto.
Qed.

(** A table with [S k] levels of tables below. *)
Lemma scan_table_run (k : nat) (below : Z → M (mach A) (option scan_out)) (out : Z → Z → scan_out) f off s :
  frame_ok (m_frames s) f → 0 ≤ off ≤ 512 → let e := entry (m_frames s) f in
  (∀ i, off ≤ i < 512 → is_table (e i) = pte_present (e i)) →
  (∀ i, off ≤ i < 512 → pte_present (e i) = true →
     finds (below (pte_frame (e i))) s (λ n, sub_leaf k (m_frames s) (pte_frame (e i)) n ≠ 0) 0 (512 ^ S k)
       (out (pte_frame (e i)))) →
  finds (t ← pfn_get f;
    r ← for_find (seqZ off (512 - off)) (λ i, e ← kload (t + 8 * i); scan_entry is_table below i e);
    (pfn_put f t;; mret r)) s (λ n, sub_leaf (S k) (m_frames s) f n ≠ 0)
    (off * 512 ^ S k) (512 * 512 ^ S k) (below_out k out e).
Proof.
  intros Hf Hoff e Hit Hb. apply table_finds; [done..|lia|]. intros i Hi.
  apply (scan_entry_run k below out e); [by apply Hit|by apply Hb].
Qed.

(** ** The tables of a space *)

Context (D : Z → Prop) (l : tloc) (s : mach A) (Hi : space_inv D l s).
Context (Htab : ∀ e, is_table e = true → pte_present e = true).
Context (Htab' : ∀ e, pte_present e = true → pte_table_ok e = true → is_table e = true).

Lemma is_table_present e : (pte_present e = true → pte_table_ok e = true) → is_table e = pte_present e.
Proof.
  intros Ht. destruct (pte_present e) eqn:E; [by apply Htab', Ht|].
  destruct (is_table e) eqn:E'; [|done]. apply Htab in E'. congruence.
Qed.

(** A table of the space, its words, and the tables below. *)
Lemma table_words p f :
  path_ok D p → sp_table l s p = Some f → frame_ok (m_frames s) f ∧
  ((length p ≤ 2)%nat → ∀ i, index_ok i →
     is_table (entry (m_frames s) f i) = pte_present (entry (m_frames s) f i) ∧
     (pte_present (entry (m_frames s) f i) = true → path_ok D (p ++ [i]) ∧
        sp_table l s (p ++ [i]) = Some (pte_frame (entry (m_frames s) f i)))).
Proof.
  intros Hp Hf. pose proof (sp_space _ _ _ Hi) as Hsp. split; [by apply (so_frame _ _ _ _ Hsp p)|].
  intros Hlen i Hix. split.
  - apply is_table_present. by apply (so_entry _ _ _ _ Hsp p).
  - intros Hpr. split; [by apply path_ok_snoc|]. unfold sp_table in *.
    rewrite table_snoc, Hf by (by eapply path_ok_ne). simpl. unfold sub_table. by rewrite Hpr.
Qed.

Lemma slot_words i :
  D i → is_table (tl_read l s i) = pte_present (tl_read l s i) ∧
  (pte_present (tl_read l s i) = true → path_ok D [i] ∧ sp_table l s [i] = Some (pte_frame (tl_read l s i))).
Proof.
  intros Hd. pose proof (sp_space _ _ _ Hi) as Hsp. split.
  - apply is_table_present. by apply (so_top _ _ _ _ Hsp).
  - intros Hpr. split; [by apply path_ok_one; [|apply Hi]|]. unfold sp_table. simpl. unfold sub_table.
    by rewrite Hpr.
Qed.

Definition out1 (f n : Z) : scan_out := ([n], (mkp f n, entry (m_frames s) f n)).
Definition out2 (f : Z) : Z → scan_out := below_out 0 out1 (entry (m_frames s) f).
Definition out3 (f : Z) : Z → scan_out := below_out 1 out2 (entry (m_frames s) f).
Definition out4 : Z → scan_out := below_out 2 out3 (tl_read l s).

Lemma scan_l2_run p f off :
  path_ok D p → length p = 2%nat → sp_table l s p = Some f → 0 ≤ off ≤ 512 →
  finds (scan_l2 is_table mkp f off) s (λ n, sub_leaf 1 (m_frames s) f n ≠ 0)
    (off * 512) (512 * 512) (out2 f).
Proof.
  intros Hp Hlen Hf Hoff. destruct (table_words p f Hp Hf) as [Hfr Hw]. specialize (Hw ltac:(lia)).
  apply (scan_table_run 0 (λ l1pfn, scan_l1 mkp l1pfn 0) out1); [done|done|..].
  - intros i Hx. apply Hw. unfold index_ok. lia.
  - intros i Hx Hpr. destruct (Hw i) as [_ Hs]; [unfold index_ok; lia|]. destruct (Hs Hpr) as [Hp' Hf'].
    apply scan_l1_run; [|lia]. by apply (table_words (p ++ [i])).
Qed.

Lemma scan_l3_run p f off :
  path_ok D p → length p = 1%nat → sp_table l s p = Some f → 0 ≤ off ≤ 512 →
  finds (scan_l3 is_table mkp f off) s (λ n, sub_leaf 2 (m_frames s) f n ≠ 0)
    (off * 512 ^ 2) (512 ^ 3) (out3 f).
Proof.
  intros Hp Hlen Hf Hoff. destruct (table_words p f Hp Hf) as [Hfr Hw]. specialize (Hw ltac:(lia)).
  change (512 ^ 3) with (512 * 512 ^ 2).
  apply (scan_table_run 1 (λ l2pfn, scan_l2 is_table mkp l2pfn 0) out2); [done|done|..].
  - intros i Hx. apply Hw. unfold index_ok. lia.
  - intros i Hx Hpr. destruct (Hw i) as [_ Hs]; [unfold index_ok; lia|]. destruct (Hs Hpr) as [Hp' Hf'].
    apply (scan_l2_run (p ++ [i])); [done| |done|lia]. rewrite length_app, Hlen. done.
Qed.

Lemma scan_l4_run n (rd : Z → M (mach A) Z) off :
  0 ≤ off ≤ n → (∀ i, 0 ≤ i < n → D i) → (∀ i, off ≤ i < n → rd i s = Ret (tl_read l s i, s)) →
  finds (scan_l4 is_table mkp n rd off) s (λ m, page_leaf l s m ≠ 0) (off * 512 ^ 3) (n * 512 ^ 3) out4.
Proof.
  intros Hoff HD Hrd. apply finds_range; [lia|lia|]. intros i Hx.
  destruct (slot_words i) as [Hit Hs]; [apply HD; lia|].
  destruct (scan_entry_run 2 (λ l3pfn, scan_l3 is_table mkp l3pfn 0) out3 (tl_read l s) i s Hit) as (r & Hr & Hl).
  - intros Hpr. destruct (Hs Hpr) as [Hp Hf]. by apply (scan_l3_run [i]).
  - exists r. split; [|exact Hl]. by mrun (Hrd i Hx).
Qed.

End scan.

(** * Pages and their entries *)

Definition page_path (m : Z) : list Z :=
  [m `div` 512 ^ 3; (m `div` 512 ^ 2) `mod` 512; (m `div` 512) `mod` 512].

Lemma page_digits m :
  (m `mod` 512 ^ 3) `div` 512 ^ 2 = (m `div` 512 ^ 2) `mod` 512 ∧
  ((m `mod` 512 ^ 3) `mod` 512 ^ 2) `div` 512 = (m `div` 512) `mod` 512 ∧
  ((m `mod` 512 ^ 3) `mod` 512 ^ 2) `mod` 512 = m `mod` 512.
Proof.
  change (512 ^ 3) with 134217728. change (512 ^ 2) with 262144. Z.div_mod_to_equations. lia.
Qed.

Lemma digits_page a b c d :
  0 ≤ b < 512 → 0 ≤ c < 512 → 0 ≤ d < 512 → let m := ((a * 512 + b) * 512 + c) * 512 + d in
  page_path m = [a; b; c] ∧ m `mod` 512 = d.
Proof.
  intros Hb Hc Hd m. unfold page_path. change (512 ^ 3) with 134217728. change (512 ^ 2) with 262144.
  assert (m `div` 134217728 = a ∧ (m `div` 262144) `mod` 512 = b ∧ (m `div` 512) `mod` 512 = c ∧
    m `mod` 512 = d) as (-> & -> & -> & ->) by (unfold m; Z.div_mod_to_equations; lia).
  done.
Qed.

Lemma page_split m :
  m = ((m `div` 512 ^ 3 * 512 + (m `div` 512 ^ 2) `mod` 512) * 512 + (m `div` 512) `mod` 512) * 512 + m `mod` 512 ∧
  m `div` 512 ^ 2 = m `div` 512 ^ 3 * 512 + (m `div` 512 ^ 2) `mod` 512 ∧
  m `div` 512 = (m `div` 512 ^ 3 * 512 + (m `div` 512 ^ 2) `mod` 512) * 512 + (m `div` 512) `mod` 512.
Proof.
  change (512 ^ 3) with 134217728. change (512 ^ 2) with 262144. Z.div_mod_to_equations. lia.
Qed.

(** Pages of one block have the same path down to the block. *)
Lemma block_digits n m :
  0 ≤ n ≤ m →
  (m < (n `div` 512 ^ 3 + 1) * 512 ^ 3 → m `div` 512 ^ 3 = n `div` 512 ^ 3) ∧
  (m < (n `div` 512 ^ 2 + 1) * 512 ^ 2 → m `div` 512 ^ 2 = n `div` 512 ^ 2 ∧ m `div` 512 ^ 3 = n `div` 512 ^ 3) ∧
  (m < (n `div` 512 + 1) * 512 → m `div` 512 = n `div` 512 ∧ m `div` 512 ^ 2 = n `div` 512 ^ 2 ∧
     m `div` 512 ^ 3 = n `div` 512 ^ 3).
Proof.
  intros Hnm. change (512 ^ 3) with 134217728. change (512 ^ 2) with 262144.
  split_and!; intros; try split_and!; Z.div_mod_to_equations; lia.
Qed.

Section pages.
Context {CFG : Config} {FMT : PteFormat} {A : Type} `{!PfnCache A, !PfnAllocator A}.
Implicit Types s : mach A.

Lemma page_leaf_path l s m :
  page_leaf l s m = match sp_table l s (page_path m) with
    | Some f => entry (m_frames s) f (m `mod` 512) | None => 0 end.
Proof.
  destruct (page_digits m) as (E2 & E1 & E0). unfold page_leaf, sp_table, page_path. cbn [table walk].
  destruct (sub_table (tl_read l s (m `div` 512 ^ 3))) as [f|]; [|done]. cbn [mbind option_bind sub_leaf].
  change (512 ^ 2%nat) with (512 ^ 2). change (512 ^ 1%nat) with 512. rewrite E2.
  destruct (sub_table _) as [g|]; [|done]. cbn [mbind option_bind]. rewrite E1.
  destruct (sub_table _) as [h|]; [|done]. cbn [mbind option_bind]. by rewrite E0.
Qed.

(** The page of an address. *)
Lemma va_page_path va :
  0 ≤ va < 2 ^ 48 → [L4OFF va; L3OFF va; L2OFF va] = page_path (va `div` 4096) ∧
    L1OFF va = (va `div` 4096) `mod` 512.
Proof.
  intros Hva. unfold page_path, L4OFF, L3OFF, L2OFF, L1OFF. change 0x1ff with (Z.ones 9).
  rewrite !Z.land_ones, !Z.shiftr_div_pow2 by lia. rewrite !Z.div_div by lia.
  change (2 ^ 9) with 512. change (4096 * 512 ^ 3) with (2 ^ 39). change (4096 * 512 ^ 2) with (2 ^ 30).
  change (4096 * 512) with (2 ^ 21). change 4096 with (2 ^ 12).
  rewrite (Z.mod_small (va `div` 2 ^ 39)); [done|]. change (2 ^ 39) with 549755813888.
  Z.div_mod_to_equations. lia.
Qed.

Lemma sp_leaf_page l s va : 0 ≤ va < 2 ^ 48 → sp_leaf l s va = page_leaf l s (va `div` 4096).
Proof.
  intros Hva. destruct (va_page_path va Hva) as [Hp H1]. rewrite page_leaf_path. unfold sp_leaf, leaf.
  rewrite Hp. unfold sp_table. by rewrite H1.
Qed.

End pages.

(** * The next page in use *)

Lemma finds_shift {S B} (m : M S (option B)) s (P Q : Z → Prop) lo hi base (out out' : Z → B) :
  finds m s P lo hi out → (∀ n, lo ≤ n < hi → (P n ↔ Q (base + n))) →
  (∀ n, lo ≤ n < hi → P n → out n = out' (base + n)) → finds m s Q (base + lo) (base + hi) out'.
Proof.
  intros (r & Hr & Hl) HPQ Hout. exists (Z.add base <$> r). destruct r as [n|]; simpl in *.
  - destruct Hl as (Hn & HP & Hb). split; [by rewrite Hr, (Hout n)|].
    split_and!; [lia..|by apply HPQ|]. intros k Hk HQ.
    apply (Hb (k - base)); [lia|]. apply HPQ; [lia|]. by replace (base + (k - base)) with k by lia.
  - split; [done|]. intros k Hk HQ. apply (Hl (k - base)); [lia|]. apply HPQ; [lia|].
    by replace (base + (k - base)) with k by lia.
Qed.

Section next.
Context {CFG : Config} {CFGOK : ConfigOk} {FMT : PteFormat} {FMTOK : PteFormatOk}.
Context {A : Type} `{!PfnCache A, !PfnAllocator A, !PfnAllocatorLaws A}.
Context (is_table : Z → bool) (mkp : Z → Z → Z).
Context (D : Z → Prop) (l : tloc) (s : mach A) (Hi : space_inv D l s).
Context (Htab : ∀ e, is_table e = true → pte_present e = true).
Context (Htab' : ∀ e, pte_present e = true → pte_table_ok e = true → is_table e = true).

(** The pointer to the entry of page [m]. *)
Definition page_ptr (m : Z) : Z := mkp (default 0 (sp_table l s (page_path m))) (m `mod` 512).

Definition page_out (p : list Z) (m : Z) : scan_out := (p, (page_ptr m, page_leaf l s m)).

(** Entries below a table, in terms of pages. *)
Lemma sub_page1 a b c f n :
  0 ≤ b < 512 → 0 ≤ c < 512 → 0 ≤ n < 512 → sp_table l s [a; b; c] = Some f →
  let m := ((a * 512 + b) * 512 + c) * 512 + n in
  sub_leaf 0 (m_frames s) f n = page_leaf l s m ∧ out1 mkp s f n = page_out [m `mod` 512] m.
Proof.
  intros Hb Hc Hn Hf m. destruct (digits_page a b c n Hb Hc Hn) as [Hp Hm]. fold m in Hp, Hm.
  unfold page_out, out1, page_ptr. rewrite page_leaf_path, Hp, Hf, Hm. done.
Qed.

Lemma sub_page2 a b f n :
  0 ≤ b < 512 → 0 ≤ n < 512 ^ 2 → sp_table l s [a; b] = Some f →
  let m := (a * 512 + b) * 512 ^ 2 + n in
  sub_leaf 1 (m_frames s) f n = page_leaf l s m ∧
  (page_leaf l s m ≠ 0 → out2 mkp s f n = page_out [(m `div` 512) `mod` 512; m `mod` 512] m).
Proof.
  intros Hb Hn Hf m. unfold out2, below_out. cbn [sub_leaf]. change (512 ^ 1%nat) with 512.
  set (c := n `div` 512). set (d := n `mod` 512).
  assert (0 ≤ c < 512) as Hc by (unfold c; Z.div_mod_to_equations; lia).
  assert (0 ≤ d < 512) as Hd by (unfold d; Z.div_mod_to_equations; lia).
  assert (m = ((a * 512 + b) * 512 + c) * 512 + d) as Hm.
  { unfold m, c, d. pose proof (Z.div_mod n 512). lia. }
  assert (sp_table l s [a; b; c] = sub_table (entry (m_frames s) f c)) as Ht.
  { change [a; b; c] with ([a; b] ++ [c]). unfold sp_table in *. rewrite table_snoc, Hf by done. done. }
  destruct (digits_page a b c d Hb Hc Hd) as [Hp Hmd]. rewrite <- Hm in Hp, Hmd.
  destruct (sub_table (entry (m_frames s) f c)) as [g|] eqn:Eg.
  - destruct (sub_page1 a b c g d Hb Hc Hd Ht) as [Hl Ho]. rewrite <- Hm in Hl, Ho. split; [done|]. intros _.
    assert (pte_frame (entry (m_frames s) f c) = g) as ->.
    { unfold sub_table in Eg. destruct (pte_present _); [by injection Eg|done]. }
    rewrite Ho. unfold page_out. cbn. f_equal. f_equal.
    unfold page_path in Hp. injection Hp as _ _ ->. done.
  - rewrite page_leaf_path, Hp, Ht. done.
Qed.

Lemma sub_page3 a f n :
  0 ≤ n < 512 ^ 3 → sp_table l s [a] = Some f →
  let m := a * 512 ^ 3 + n in
  sub_leaf 2 (m_frames s) f n = page_leaf l s m ∧
  (page_leaf l s m ≠ 0 → out3 mkp s f n =
     page_out [(m `div` 512 ^ 2) `mod` 512; (m `div` 512) `mod` 512; m `mod` 512] m).
Proof.
  intros Hn Hf m. unfold out3, below_out. cbn [sub_leaf]. change (512 ^ 2%nat) with (512 ^ 2).
  set (b := n `div` 512 ^ 2). set (n' := n `mod` 512 ^ 2).
  assert (0 ≤ b < 512) as Hb by (unfold b; Z.div_mod_to_equations; lia).
  assert (0 ≤ n' < 512 ^ 2) as Hn' by (unfold n'; apply Z.mod_pos_bound; lia).
  assert (m = (a * 512 + b) * 512 ^ 2 + n') as Hm.
  { unfold m, b, n'. pose proof (Z.div_mod n (512 ^ 2)). lia. }
  assert (sp_table l s [a; b] = sub_table (entry (m_frames s) f b)) as Ht.
  { change [a; b] with ([a] ++ [b]). unfold sp_table in *. rewrite table_snoc, Hf by done. done. }
  assert ((m `div` 512 ^ 2) `mod` 512 = b ∧ m `div` 512 ^ 3 = a) as [Hmb Hma].
  { rewrite Hm. change (512 ^ 3) with 134217728. change (512 ^ 2) with 262144 in *.
    split; Z.div_mod_to_equations; lia. }
  destruct (sub_table (entry (m_frames s) f b)) as [g|] eqn:Eg.
  - destruct (sub_page2 a b g n' Hb Hn' Ht) as [Hl Ho]. rewrite <- Hm in Hl, Ho.
    change (512 ^ 1%nat) with 512 in Hl. cbn [sub_leaf] in Hl. split; [exact Hl|]. intros Hne.
    assert (pte_frame (entry (m_frames s) f b) = g) as ->.
    { unfold sub_table in Eg. destruct (pte_present _); [by injection Eg|done]. }
    rewrite (Ho Hne). unfold page_out. cbn. by rewrite Hmb.
  - rewrite page_leaf_path. unfold page_path. rewrite Hma, Hmb.
    change [a; b; (m `div` 512) `mod` 512] with ([a; b] ++ [(m `div` 512) `mod` 512]).
    unfold sp_table in *. rewrite table_snoc, Ht by done. done.
Qed.

(** The four searches of [pt_umap_next], from page [n] on. *)
Context (n : Z) (Hn : 0 ≤ n) (Hd : D (n `div` 512 ^ 3)).
Let in_use (m : Z) : Prop := page_leaf l s m ≠ 0.

Lemma next_path : path_ok D (page_path n).
Proof.
  pose proof (sp_slots _ _ _ Hi _ Hd). split_and!; [by eexists _, _|..|simpl; lia].
  unfold index_ok in *. repeat constructor; try lia; apply Z.mod_pos_bound; lia.
Qed.

Lemma next_prefixes :
  path_ok D [n `div` 512 ^ 3] ∧ path_ok D [n `div` 512 ^ 3; (n `div` 512 ^ 2) `mod` 512].
Proof.
  pose proof next_path as H3. unfold page_path in H3.
  destruct (path_ok_prefix D [n `div` 512 ^ 3; (n `div` 512 ^ 2) `mod` 512] _ H3) as (H2 & _); [done|].
  destruct (path_ok_prefix D [n `div` 512 ^ 3] _ H2) as (H1 & _); [done|]. done.
Qed.

(** When a table is missing there is nothing below it. *)
Lemma missing_finds (pfn : M (mach A) Z) scan p lo hi out :
  pfn s = Ret (PFN_INVALID, s) → p ≠ [] → sp_table l s p = None →
  (∀ m, lo ≤ m < hi → ∃ q, page_path m = p ++ q) →
  finds (scan_if pfn scan) s in_use lo hi out.
Proof.
  intros Hr Hlen Hp Hm. exists None. split; [unfold scan_if; by mrun Hr|]. intros m Hmr Hc. apply Hc.
  destruct (Hm m Hmr) as [q Hq]. rewrite page_leaf_path, Hq. unfold sp_table in *.
  by rewrite table_app, Hp by done.
Qed.

Lemma present_finds (pfn : M (mach A) Z) scan p f lo hi out :
  pfn s = Ret (f, s) → path_ok D p → sp_table l s p = Some f →
  finds (scan f) s in_use lo hi out → finds (scan_if pfn scan) s in_use lo hi out.
Proof.
  intros Hr Hp Hf (r & Hrun & Hl). exists r. split; [|done]. unfold scan_if. mrun Hr.
  destruct (so_frame _ _ _ _ (sp_space _ _ _ Hi) p f Hp Hf) as [[Hrange _] _].
  destruct (pfn_valid f Hrange) as [_ Hv]. by rewrite (proj2 (Z.eqb_neq _ _) Hv).
Qed.

Lemma next_l1_run pfn :
  pfn s = Ret (default PFN_INVALID (sp_table l s (page_path n)), s) →
  finds (scan_if pfn (λ p, scan_l1 mkp p (n `mod` 512 + 1))) s in_use (n + 1) ((n `div` 512 + 1) * 512)
    (λ m, page_out [m `mod` 512] m).
Proof.
  intros Hr. destruct (page_split n) as (E0 & _ & E1). set (b := (n `div` 512 ^ 2) `mod` 512) in *.
  set (c := (n `div` 512) `mod` 512) in *. set (a := n `div` 512 ^ 3) in *.
  assert (0 ≤ b < 512) as Hb by (apply Z.mod_pos_bound; lia).
  assert (0 ≤ c < 512) as Hc by (apply Z.mod_pos_bound; lia).
  assert (0 ≤ n `mod` 512 < 512) as Hd' by (apply Z.mod_pos_bound; lia).
  destruct (sp_table l s (page_path n)) as [f|] eqn:Hf; simpl in Hr.
  - eapply (present_finds pfn _ _ f); [done|apply next_path|done|].
    replace (n + 1) with (((a * 512 + b) * 512 + c) * 512 + (n `mod` 512 + 1)) by lia.
    replace ((n `div` 512 + 1) * 512) with (((a * 512 + b) * 512 + c) * 512 + 512) by lia.
    eapply finds_shift; [apply (scan_l1_run mkp f); [|lia]|..].
    + by destruct (so_frame _ _ _ _ (sp_space _ _ _ Hi) _ f next_path Hf).
    + intros k Hk. destruct (sub_page1 a b c f k) as [-> _]; [done|done|lia|done|]. done.
    + intros k Hk _. destruct (sub_page1 a b c f k) as [_ Ho]; [done|done|lia|done|]. exact Ho.
  - eapply (missing_finds pfn _ (page_path n)); [done|done|done|]. intros m Hm. exists [].
    rewrite app_nil_r. replace m with (((a * 512 + b) * 512 + c) * 512 + (m - n `div` 512 * 512)) by lia.
    destruct (digits_page a b c (m - n `div` 512 * 512)) as [Hp _]; [done|done|lia|]. exact Hp.
Qed.

Lemma next_l2_run pfn :
  pfn s = Ret (default PFN_INVALID (sp_table l s [n `div` 512 ^ 3; (n `div` 512 ^ 2) `mod` 512]), s) →
  finds (scan_if pfn (λ p, scan_l2 is_table mkp p ((n `div` 512) `mod` 512 + 1))) s in_use
    ((n `div` 512 + 1) * 512) ((n `div` 512 ^ 2 + 1) * 512 ^ 2)
    (λ m, page_out [(m `div` 512) `mod` 512; m `mod` 512] m).
Proof.
  intros Hr. destruct (page_split n) as (E0 & E2 & E1). set (b := (n `div` 512 ^ 2) `mod` 512) in *.
  set (c := (n `div` 512) `mod` 512) in *. set (a := n `div` 512 ^ 3) in *.
  assert (0 ≤ b < 512) as Hb by (apply Z.mod_pos_bound; lia).
  assert (0 ≤ c < 512) as Hc by (apply Z.mod_pos_bound; lia).
  destruct next_prefixes as [_ P2]. fold a b in P2.
  destruct (sp_table l s [a; b]) as [f|] eqn:Hf; simpl in Hr.
  - eapply (present_finds pfn _ _ f); [done|exact P2|done|].
    replace ((n `div` 512 + 1) * 512) with ((a * 512 + b) * 512 ^ 2 + (c + 1) * 512) by lia.
    replace ((n `div` 512 ^ 2 + 1) * 512 ^ 2) with ((a * 512 + b) * 512 ^ 2 + 512 * 512) by lia.
    eapply finds_shift; [eapply (scan_l2_run is_table mkp D l s Hi Htab Htab' [a; b] f); [done..|lia]|..].
    + intros k Hk. destruct (sub_page2 a b f k) as [-> _]; [done|lia|done|]. done.
    + intros k Hk HP. destruct (sub_page2 a b f k) as [Hl Ho]; [done|lia|done|]. apply Ho. by rewrite <- Hl.
  - eapply (missing_finds pfn _ [a; b]); [done|done|done|]. intros m Hm.
    exists [(m `div` 512) `mod` 512]. unfold page_path. simpl.
    assert (m `div` 512 ^ 3 = a ∧ (m `div` 512 ^ 2) `mod` 512 = b) as [-> ->]; [|done].
    change (512 ^ 3) with 134217728 in *. change (512 ^ 2) with 262144 in *. Z.div_mod_to_equations; lia.
Qed.

Lemma next_l3_run pfn :
  pfn s = Ret (default PFN_INVALID (sp_table l s [n `div` 512 ^ 3]), s) →
  finds (scan_if pfn (λ p, scan_l3 is_table mkp p ((n `div` 512 ^ 2) `mod` 512 + 1))) s in_use
    ((n `div` 512 ^ 2 + 1) * 512 ^ 2) ((n `div` 512 ^ 3 + 1) * 512 ^ 3)
    (λ m, page_out [(m `div` 512 ^ 2) `mod` 512; (m `div` 512) `mod` 512; m `mod` 512] m).
Proof.
  intros Hr. destruct (page_split n) as (_ & E2 & _). set (b := (n `div` 512 ^ 2) `mod` 512) in *.
  set (a := n `div` 512 ^ 3) in *. assert (0 ≤ b < 512) as Hb by (apply Z.mod_pos_bound; lia).
  destruct next_prefixes as [P1 _]. fold a in P1.
  destruct (sp_table l s [a]) as [f|] eqn:Hf; simpl in Hr.
  - eapply (present_finds pfn _ _ f); [done|exact P1|done|].
    replace ((n `div` 512 ^ 2 + 1) * 512 ^ 2) with (a * 512 ^ 3 + (b + 1) * 512 ^ 2) by lia.
    replace ((a + 1) * 512 ^ 3) with (a * 512 ^ 3 + 512 ^ 3) by lia.
    eapply finds_shift; [eapply (scan_l3_run is_table mkp D l s Hi Htab Htab' [a] f); [done..|lia]|..].
    + intros k Hk. destruct (sub_page3 a f k) as [-> _]; [lia|done|]. done.
    + intros k Hk HP. destruct (sub_page3 a f k) as [Hl Ho]; [lia|done|]. apply Ho. by rewrite <- Hl.
  - eapply (missing_finds pfn _ [a]); [done|done|done|]. intros m Hm.
    exists [(m `div` 512 ^ 2) `mod` 512; (m `div` 512) `mod` 512]. unfold page_path. simpl.
    assert (m `div` 512 ^ 3 = a) as ->; [|done].
    change (512 ^ 3) with 134217728 in *. change (512 ^ 2) with 262144 in *. Z.div_mod_to_equations; lia.
Qed.

Lemma out4_page m :
  in_use m → out4 mkp l s m = page_out (page_path m ++ [m `mod` 512]) m.
Proof.
  intros HP. unfold out4, below_out. change (512 ^ 3%nat) with (512 ^ 3).
  set (a := m `div` 512 ^ 3). destruct (sub_table (tl_read l s a)) as [f|] eqn:Ef.
  - assert (pte_frame (tl_read l s a) = f) as ->.
    { unfold sub_table in Ef. destruct (pte_present _); [by injection Ef|done]. }
    assert (sp_table l s [a] = Some f) as Hf by (unfold sp_table; simpl; by rewrite Ef).
    destruct (sub_page3 a f (m `mod` 512 ^ 3)) as [_ Ho]; [apply Z.mod_pos_bound; lia|done|].
    assert (a * 512 ^ 3 + m `mod` 512 ^ 3 = m) as Hm' by (unfold a; pose proof (Z.div_mod m (512 ^ 3)); lia).
    rewrite Hm' in Ho. by rewrite (Ho HP).
  - unfold in_use in HP. rewrite page_leaf_path in HP. unfold page_path, sp_table in HP. cbn [table] in HP.
    fold a in HP. by rewrite Ef in HP.
Qed.

Lemma finds_out4 c lo hi :
  finds c s in_use lo hi (out4 mkp l s) →
  finds c s in_use lo hi (λ m, page_out (page_path m ++ [m `mod` 512]) m).
Proof.
  intros Hf. rewrite <- (Z.add_0_l lo), <- (Z.add_0_l hi). eapply finds_shift; [exact Hf|done|].
  intros m _ HP. rewrite Z.add_0_l. by apply out4_page.
Qed.

Lemma next_l4_run slots rd :
  n `div` 512 ^ 3 < slots → (∀ i, 0 ≤ i < slots → D i) →
  (∀ i, 0 ≤ i < slots → rd i s = Ret (tl_read l s i, s)) →
  finds (scan_l4 is_table mkp slots rd (n `div` 512 ^ 3 + 1)) s in_use
    ((n `div` 512 ^ 3 + 1) * 512 ^ 3) (slots * 512 ^ 3) (λ m, page_out (page_path m ++ [m `mod` 512]) m).
Proof.
  intros Hsl HD Hrd. assert (0 ≤ n `div` 512 ^ 3) by (apply Z.div_pos; lia). apply finds_out4.
  eapply (scan_l4_run is_table mkp D l s Hi Htab Htab'); [lia|done|]. intros i Hx. apply Hrd. lia.
Qed.

(** What [pt_umap_next] returns for the page [r]. *)
Definition next_result (r : option Z) : Z * option (Z * Z) :=
  match r with
  | Some m => (4096 * m, Some (page_ptr m, page_leaf l s m))
  | None => (UADDR_INVALID, None)
  end.

(** The four searches together, up to page [hi]. *)
Lemma next_search_run mkaddr uaddr in_l1 in_l2 in_l3 in_l4 hi :
  (∀ m a b c d, 0 ≤ m < hi → page_path m = [a; b; c] → m `mod` 512 = d → mkaddr a b c d = 4096 * m) →
  [L4OFF uaddr; L3OFF uaddr; L2OFF uaddr] = page_path n → (n `div` 512 ^ 3 + 1) * 512 ^ 3 ≤ hi →
  finds in_l1 s in_use (n + 1) ((n `div` 512 + 1) * 512) (λ m, page_out [m `mod` 512] m) →
  finds in_l2 s in_use ((n `div` 512 + 1) * 512) ((n `div` 512 ^ 2 + 1) * 512 ^ 2)
    (λ m, page_out [(m `div` 512) `mod` 512; m `mod` 512] m) →
  finds in_l3 s in_use ((n `div` 512 ^ 2 + 1) * 512 ^ 2) ((n `div` 512 ^ 3 + 1) * 512 ^ 3)
    (λ m, page_out [(m `div` 512 ^ 2) `mod` 512; (m `div` 512) `mod` 512; m `mod` 512] m) →
  finds in_l4 s in_use ((n `div` 512 ^ 3 + 1) * 512 ^ 3) hi (λ m, page_out (page_path m ++ [m `mod` 512]) m) →
  ∃ r, next_search mkaddr uaddr in_l1 in_l2 in_l3 in_l4 s = Ret (next_result r, s) ∧ least in_use (n + 1) hi r.
Proof.
  intros Hmk Hpath Hhi (r1 & F1 & L1) (r2 & F2 & L2) (r3 & F3 & L3) (r4 & F4 & L4).
  exists (match r1 with Some m => Some m | None => match r2 with Some m => Some m | None =>
    match r3 with Some m => Some m | None => r4 end end end).
  assert (n + 1 ≤ (n `div` 512 + 1) * 512 ∧ (n `div` 512 + 1) * 512 ≤ (n `div` 512 ^ 2 + 1) * 512 ^ 2 ∧
    (n `div` 512 ^ 2 + 1) * 512 ^ 2 ≤ (n `div` 512 ^ 3 + 1) * 512 ^ 3) as (B1 & B2 & B3).
  { change (512 ^ 3) with 134217728 in *. change (512 ^ 2) with 262144. split_and!; Z.div_mod_to_equations; lia. }
  split; [|by repeat (eapply least_split; [done|lia|done|])].
  unfold page_path in Hpath. injection Hpath as E4 E3 E2.
  unfold next_search. rewrite E4, E3, E2. mrun F1. destruct r1 as [m|].
  { destruct L1 as (Hm & _). destruct (block_digits n m) as (_ & _ & D1); [lia|].
    destruct D1 as (D1 & D2 & D3); [lia|]. cbn. unfold mret, M_ret. do 3 f_equal.
    apply Hmk; [lia| |done]. unfold page_path. by rewrite D1, D2, D3. }
  cbn. mrun F2. destruct r2 as [m|].
  { destruct L2 as (Hm & _). destruct (block_digits n m) as (_ & D2 & _); [lia|].
    destruct D2 as (D2 & D3); [lia|]. cbn. unfold mret, M_ret. do 3 f_equal.
    apply Hmk; [lia| |done]. unfold page_path. by rewrite D2, D3. }
  cbn. mrun F3. destruct r3 as [m|].
  { destruct L3 as (Hm & _). destruct (block_digits n m) as (D3 & _); [lia|]. cbn. unfold mret, M_ret. do 3 f_equal.
    apply Hmk; [lia| |done]. unfold page_path. by rewrite D3 by lia. }
  cbn. mrun F4. destruct r4 as [m|]; [|done].
  destruct L4 as (Hm & _). cbn. unfold mret, M_ret. do 3 f_equal. apply Hmk; [lia|done|done].
Qed.

End next.
