(* ===== verification/UmapFree.v ===== *)
(** Freeing the tables of an address space: the loops of pt_umap_free give back
    every table exactly once. *)

From S2P Require Import Prelude Words Locks Machine PageTable Space UmapScan.

Section free.
Context {CFG : Config} {CFGOK : ConfigOk} {FMT : PteFormat} {FMTOK : PteFormatOk}.
Context {A : Type} `{!PfnCache A, !PfnAllocator A, !PfnAllocatorLaws A}.
Context (is_table chk : Z → bool).
Context (D : Z → Prop) (l : tloc) (s : mach A) (Hi : space_inv D l s).
Context (Htab : ∀ e, is_table e = true → pte_present e = true).
Context (Htab' : ∀ e, pte_present e = true → pte_table_ok e = true → is_table e = true).
Implicit Types (V : list Z → Prop) (p q : list Z).

(** From [s] to [s'] the tables at the paths of [V] have been freed. *)
Record freed V (s' : mach A) : Prop := {
  fd_frames : m_frames s' = m_frames s;
  fd_root : m_root s' = m_root s;
  fd_alock : m_alock s' = m_alock s;
  fd_alloc : alloc_ok s';
  fd_free f : f ∈ free_frames s' ↔
    f ∈ free_frames s ∨ ∃ p, V p ∧ path_ok D p ∧ sp_table l s p = Some f;
  fd_range f : al_range (m_alloc s') f ↔ al_range (m_alloc s) f;
}.

Lemma freed_none : freed (λ _, False) s.
Proof. split; try done; [apply Hi|]. intros f. split; [by left|]. by intros [?|(? & [] & _)]. Qed.

Lemma freed_ext V V' s' :
  (∀ p f, path_ok D p → sp_table l s p = Some f → (V p ↔ V' p)) → freed V s' → freed V' s'.
Proof.
  intros HV [H1 H2 H3 H4 H5 H6]. split; try done. intros f. rewrite H5. split.
  - intros [?|(p & HVp & Hp & Hf)]; [by left|right]. exists p. split; [by eapply HV|done].
  - intros [?|(p & HVp & Hp & Hf)]; [by left|right]. exists p. split; [by eapply HV|done].
Qed.

Lemma freed_step V s1 p f :
  freed V s1 → path_ok D p → sp_table l s p = Some f → ¬ V p →
  ∃ s2, pfn_free f s1 = Ret (tt, s2) ∧ freed (λ q, V q ∨ q = p) s2 ∧ m_kdata s2 = m_kdata s1.
Proof.
  intros [H1 H2 H3 H4 H5 H6] Hp Hf HV.
  destruct (so_frame _ _ _ _ (sp_space _ _ _ Hi) p f Hp Hf) as [Hfr Hn].
  destruct (pfn_free_run f s1 H4) as (a' & Hrun & Hok & Hfree & Hrg).
  - rewrite H5. intros [?|(q & HVq & Hq & Hqf)]; [apply Hn; by left|].
    apply HV. by rewrite (so_inj _ _ _ _ (sp_space _ _ _ Hi) p q f Hp Hq Hf Hqf).
  - by rewrite H1.
  - apply H6. by apply (sp_range _ _ _ Hi p).
  - eexists. split; [exact Hrun|]. split; [|done]. split; try done.
    + intros g. change (g ∈ al_free a' ↔ g ∈ free_frames s ∨
        ∃ q, (V q ∨ q = p) ∧ path_ok D q ∧ sp_table l s q = Some g).
      rewrite Hfree, elem_of_union, elem_of_singleton, H5. split.
      * intros [->|[?|(q & ? & ?)]]; [right; exists p; auto|by left|right; exists q; tauto].
      * intros [?|(q & [?| ->] & Hq & Hqg)]; [auto|right; right; eauto|left]. congruence.
    + intros g. simpl. by rewrite Hrg.
Qed.

(** The loop over the words of the table at path [p], where [body] frees what is
    below the path it is given. *)
Lemma free_table_run (body : Z → M (mach A) unit) V p f s1 :
  path_ok D p → (length p ≤ 2)%nat → sp_table l s p = Some f → freed V s1 →
  (∀ q, path_ok D q → p `prefix_of` q → ¬ V q) →
  (∀ i, index_ok i → chk (entry (m_frames s) f i) = true) →
  (∀ V' i s2, index_ok i → sp_table l s (p ++ [i]) = Some (pte_frame (entry (m_frames s) f i)) →
     freed V' s2 → (∀ q, path_ok D q → (p ++ [i]) `prefix_of` q → ¬ V' q) →
     ∃ s3, body (pte_frame (entry (m_frames s) f i)) s2 = Ret (tt, s3) ∧
       freed (λ q, V' q ∨ (p ++ [i]) `prefix_of` q) s3 ∧ m_kdata s3 = m_kdata s2) →
  ∃ s2, (t ← pfn_get f;
    (for_each (seqZ 0 512) (λ i, e ← kload (t + 8 * i); assertb (chk e);;
       when (is_table e) (body (pte_frame e)));; (pfn_put f t;; pfn_free f))) s1 = Ret (tt, s2) ∧
    freed (λ q, V q ∨ p `prefix_of` q) s2 ∧ m_kdata s2 = m_kdata s1.
Proof.
  intros Hp Hlen Hf HV Hnew Hchk Hbody.
  destruct (table_words is_table D l s Hi Htab Htab' p f Hp Hf) as [Hfr Hw]. specialize (Hw Hlen).
  pose proof Hfr as [Hr _].
  set (visited (js : list Z) (q : list Z) := V q ∨ ∃ j, j ∈ js ∧ (p ++ [j]) `prefix_of` q).
  destruct (for_each_inv (seqZ 0 512)
    (λ i, e ← kload (window f + 8 * i); assertb (chk e);; when (is_table e) (body (pte_frame e)))
    (λ js s2, freed (visited js) s2 ∧ m_kdata s2 = m_kdata s1) s1) as (s2 & Hrun & HV2 & Hk2).
  - split; [|done]. eapply freed_ext; [|exact HV]. intros q g _ _. unfold visited. split; [by left|].
    intros [?|(j & Hj & _)]; [done|]. by apply elem_of_nil in Hj.
  - intros js i rest s2 Hsplit [HV2 Hk2].
    assert (i ∈ seqZ 0 512) as Hin by (rewrite Hsplit; apply elem_of_app; right; left). apply elem_of_seqZ in Hin.
    assert (index_ok i) as Hix by (unfold index_ok; lia).
    assert (i ∉ js) as Hnin.
    { pose proof (NoDup_seqZ 0 512) as Hnd. rewrite Hsplit in Hnd. apply NoDup_app in Hnd as (_ & Hnd & _).
      intros Hc. apply (Hnd i Hc). left. }
    destruct (Hw i Hix) as [Hit Hsub]. set (e := entry (m_frames s) f i) in *.
    assert (kload (window f + 8 * i) s2 = Ret (e, s2)) as Hld.
    { destruct (frame_word_ok _ f i Hfr) as [w Hww]; [lia|]. unfold e, entry. rewrite Hww. cbn.
      apply (kload_run f i w s2 Hr); [lia|]. by rewrite (fd_frames _ _ HV2). }
    mrun Hld. rewrite bind_assert by (by apply Hchk). rewrite Hit.
    destruct (pte_present e) eqn:Epr.
    + destruct (Hsub eq_refl) as [Hpi Hti].
      destruct (Hbody (visited js) i s2 Hix Hti HV2) as (s3 & Hr3 & HV3 & Hk3).
      { intros q Hq Hpre [HVq|(j & Hj & Hpj)].
        - apply (Hnew q Hq); [|done]. etrans; [|exact Hpre]. by eexists.
        - destruct Hpre as [k1 ->], Hpj as [k2 Heq]. rewrite <- !app_assoc in Heq.
          apply app_inv_head in Heq. injection Heq as Heq _. by subst j. }
      exists s3. split; [exact Hr3|]. split; [|congruence]. eapply freed_ext; [|exact HV3].
      intros q g _ _. unfold visited. setoid_rewrite elem_of_app. setoid_rewrite list_elem_of_singleton.
      split; [intros [[?|(j & ? & ?)]|?]|intros [?|(j & [?| ->] & ?)]]; eauto 6.
    + exists s2. split; [done|]. split; [|done]. eapply freed_ext; [|exact HV2]. intros q g Hq Hg.
      unfold visited. setoid_rewrite elem_of_app. setoid_rewrite list_elem_of_singleton.
      split; [intros [?|(j & ? & ?)]; eauto 6|]. intros [?|(j & [?| ->] & Hpre)]; [by left|by eauto|].
      exfalso. destruct Hpre as [k ->]. unfold sp_table in *. rewrite table_app in Hg by (by destruct p).
      rewrite table_snoc, Hf in Hg by (by eapply path_ok_ne). cbn [mbind option_bind] in Hg.
      assert (sub_table (entry (m_frames s) f i) = None) as Hnone by (unfold sub_table; fold e; by rewrite Epr).
      by rewrite Hnone in Hg.
  - mrun (pfn_get_run f s1 Hr). mrun Hrun. mrun (pfn_put_run f (window f) s2 Hr).
    destruct (freed_step _ s2 p f HV2 Hp Hf) as (s3 & Hr3 & HV3 & Hk3).
    { intros [HVp|(j & _ & [k Heq])]; [by apply (Hnew p Hp)|].
      apply (f_equal length) in Heq. rewrite !length_app in Heq. simpl in Heq. lia. }
    exists s3. split; [done|]. split; [|congruence]. eapply freed_ext; [|exact HV3].
    intros q g Hq Hg. unfold visited. split.
    + intros [[?|(j & _ & Hpj)]| ->]; [by left| |by right]. right. etrans; [|exact Hpj]. by eexists.
    + intros [?|[k ->]]; [by left; left|]. destruct k as [|j k]; [right; by rewrite app_nil_r|].
      left. right. exists j. split.
      * apply elem_of_seqZ. destruct Hq as (_ & Hfa & _). apply Forall_app in Hfa as [_ [Hj _]%Forall_cons].
        unfold index_ok in Hj. lia.
      * exists k. by rewrite <- app_assoc.
Qed.

Context (Hchk : ∀ e, (pte_present e = true → pte_table_ok e = true) → chk e = true).

Lemma words_checked p f i :
  path_ok D p → (length p ≤ 2)%nat → sp_table l s p = Some f → index_ok i →
  chk (entry (m_frames s) f i) = true.
Proof. intros. apply Hchk. by apply (so_entry _ _ _ _ (sp_space _ _ _ Hi) p). Qed.

Lemma free_l1s_run V p f s1 :
  path_ok D p → length p = 2%nat → sp_table l s p = Some f → freed V s1 →
  (∀ q, path_ok D q → p `prefix_of` q → ¬ V q) →
  ∃ s2, free_l1s is_table chk f s1 = Ret (tt, s2) ∧ freed (λ q, V q ∨ p `prefix_of` q) s2 ∧
    m_kdata s2 = m_kdata s1.
Proof.
  intros Hp Hlen Hf HV Hnew. apply free_table_run; [done|lia|done..| |].
  - intros i Hx. by apply (words_checked p); [|lia|..].
  - intros V' i s2 Hx Ht HV' Hn. assert (path_ok D (p ++ [i])) as Hpi by (by apply path_ok_snoc; [..|lia]).
    destruct (freed_step V' s2 (p ++ [i]) _ HV' Hpi Ht) as (s3 & Hr & HV3 & Hk); [by apply Hn|].
    exists s3. split; [done|]. split; [|done]. eapply freed_ext; [|exact HV3]. intros q g Hq _.
    split; (intros [?|Hq']; [by left|right]); [by rewrite Hq'|].
    destruct Hq' as [[|k ks] ->]; [by rewrite app_nil_r|]. destruct Hq as (_ & _ & Hl).
    rewrite !length_app in Hl. simpl in Hl. lia.
Qed.

Lemma free_l2s_run V p f s1 :
  path_ok D p → length p = 1%nat → sp_table l s p = Some f → freed V s1 →
  (∀ q, path_ok D q → p `prefix_of` q → ¬ V q) →
  ∃ s2, free_l2s is_table chk f s1 = Ret (tt, s2) ∧ freed (λ q, V q ∨ p `prefix_of` q) s2 ∧
    m_kdata s2 = m_kdata s1.
Proof.
  intros Hp Hlen Hf HV Hnew. apply free_table_run; [done|lia|done..| |].
  - intros i Hx. by apply (words_checked p); [|lia|..].
  - intros V' i s2 Hx Ht HV' Hn. apply free_l1s_run; [by apply path_ok_snoc; [..|lia]| |done..].
    rewrite length_app, Hlen. done.
Qed.

End free.

(** ** The whole map *)

Section free_map.
Context {CFG : Config} {CFGOK : ConfigOk} {FMT : PteFormat} {FMTOK : PteFormatOk}.
Context {A : Type} `{!PfnCache A, !PfnAllocator A, !PfnAllocatorLaws A}.
Context (is_table chk : Z → bool) (n u : Z) (s : mach A).
Let slots (i : Z) : Prop := 0 ≤ i < n.
Context (Hi : space_inv slots (InData u) s).
Context (Htab : ∀ e, is_table e = true → pte_present e = true).
Context (Htab' : ∀ e, pte_present e = true → pte_table_ok e = true → is_table e = true).
Context (Hchk : ∀ e, (pte_present e = true → pte_table_ok e = true) → chk e = true).

Lemma free_slots_run :
  ∃ s', free_slots is_table chk n u s = Ret (tt, s') ∧ freed slots (InData u) s (λ _, True) s' ∧
    (∀ i, 0 ≤ i < n → m_kdata s' !! (u + 8 * i) = Some 0) ∧
    (∀ a, (∀ i, 0 ≤ i < n → a ≠ u + 8 * i) → m_kdata s' !! a = m_kdata s !! a).
Proof.
  set (visited (js q : list Z) := ∃ j, j ∈ js ∧ [j] `prefix_of` q).
  destruct (for_each_inv (seqZ 0 n) (λ i, l4e ← kload (u + 8 * i); assertb (chk l4e);;
      when (is_table l4e) (free_l2s is_table chk (pte_frame l4e));; kstore (u + 8 * i) 0)
    (λ js s1, freed slots (InData u) s (visited js) s1 ∧
       (∀ j, j ∈ js → m_kdata s1 !! (u + 8 * j) = Some 0) ∧
       (∀ a, (∀ j, j ∈ js → a ≠ u + 8 * j) → m_kdata s1 !! a = m_kdata s !! a)) s)
    as (s' & Hrun & HV & Hz & Hk).
  - split; [|split; [intros j Hj; by apply elem_of_nil in Hj|done]].
    eapply freed_ext; [|by eapply freed_none]. intros q g _ _. split; [done|]. intros (j & Hj & _).
    by apply elem_of_nil in Hj.
  - intros js i rest s1 Hsplit (HV1 & Hz1 & Hk1).
    assert (i ∈ seqZ 0 n) as Hin by (rewrite Hsplit; apply elem_of_app; right; left).
    apply elem_of_seqZ in Hin. assert (slots i) as Hs by (unfold slots; lia).
    assert (i ∉ js) as Hnin.
    { pose proof (NoDup_seqZ 0 n) as Hnd. rewrite Hsplit in Hnd. apply NoDup_app in Hnd as (_ & Hnd & _).
      intros Hc. apply (Hnd i Hc). left. }
    destruct (sp_top _ _ _ Hi i Hs) as ([v Hv] & Hdm & Hal).
    assert (m_kdata s1 !! (u + 8 * i) = Some v) as Hv1.
    { rewrite Hk1; [done|]. intros j Hj Heq. assert (j = i) as -> by lia. done. }
    assert (tl_read (InData u) s i = v) as Htl by (cbn; by rewrite Hv).
    destruct (slot_words is_table slots (InData u) s Hi Htab Htab' i Hs) as [Hit Hsub]. rewrite Htl in Hit, Hsub.
    mrun (data_load_run _ _ s1 Hv1 Hdm Hal).
    rewrite bind_assert by (apply Hchk; rewrite <- Htl; by apply (so_top _ _ _ _ (sp_space _ _ _ Hi))).
    assert (∃ s2, when (is_table v) (free_l2s is_table chk (pte_frame v)) s1 = Ret (tt, s2) ∧
      freed slots (InData u) s (visited (js ++ [i])) s2 ∧ m_kdata s2 = m_kdata s1) as (s2 & Hr2 & HV2 & Hk2).
    { rewrite Hit. destruct (pte_present v) eqn:Ev.
      - destruct (Hsub eq_refl) as [Hp Ht].
        destruct (free_l2s_run is_table chk slots (InData u) s Hi Htab Htab' Hchk (visited js) [i] _ s1 Hp
          eq_refl Ht HV1) as (s2 & Hr2 & HV2 & Hk2).
        { intros q _ [k ->] (j & Hj & [k' Heq]). injection Heq as <- _. done. }
        exists s2. split; [done|]. split; [|done]. eapply freed_ext; [|exact HV2]. intros q g _ _.
        unfold visited. setoid_rewrite elem_of_app. setoid_rewrite list_elem_of_singleton.
        split; [intros [(j & ? & ?)|?]|intros (j & [?| ->] & ?)]; eauto 6.
      - exists s1. split; [done|]. split; [|done]. eapply freed_ext; [|exact HV1]. intros q g Hq Hg.
        unfold visited. setoid_rewrite elem_of_app. setoid_rewrite list_elem_of_singleton.
        split; [intros (j & ? & ?); eauto 6|]. intros (j & [?| ->] & Hpre); [by eauto|].
        exfalso. destruct Hpre as [k ->]. unfold sp_table in Hg. rewrite table_app in Hg by done.
        cbn [table] in Hg. rewrite Htl in Hg. unfold sub_table in Hg. by rewrite Ev in Hg. }
    mrun Hr2. rewrite <- Hk2 in Hv1. eexists. split; [by apply (data_store_run _ v)|].
    destruct HV2 as [F1 F2 F3 F4 F5 F6]. split; [split; try done; destruct F4; by split|]. split.
    + intros j [Hj| ->%list_elem_of_singleton]%elem_of_app; cbn; [|by rewrite lookup_insert_eq].
      destruct (decide (j = i)) as [->|Hne]; [by rewrite lookup_insert_eq|].
      rewrite lookup_insert_ne, Hk2 by lia. by apply Hz1.
    + intros a Ha. cbn. rewrite lookup_insert_ne.
      * rewrite Hk2. apply Hk1. intros j Hj. apply Ha. by apply elem_of_app; left.
      * intros <-. apply (Ha i); [|done]. apply elem_of_app. right. by apply list_elem_of_singleton.
  - exists s'. split; [exact Hrun|]. split_and!.
    + eapply freed_ext; [|exact HV]. intros q g Hq _. split; [done|]. intros _.
      destruct Hq as ((j & q' & -> & Hj) & _). exists j. split; [apply elem_of_seqZ; unfold slots in Hj; lia|].
      by exists q'.
    + intros i Hx. apply Hz, elem_of_seqZ. lia.
    + intros a Ha. apply Hk. intros j Hj%elem_of_seqZ. apply Ha. lia.
Qed.

End free_map.
