(* ===== verification/Kmap.v ===== *)
(** Kernel mappings: libnux/kmap.c, over the page table interface every HAL
    offers (include/nux/hal.h), with the TLB generations of libnux/ktlbgen.c.
    The contract is a map from pages to last-level entries. *)

From S2P Require Import Prelude Words Locks Machine Hal PageTable.

(** * TLB generations of the kernel map *)

Record ktlb : Set := Ktlb { kt_global : Z; kt_normal : Z }.

Definition ktlbgen_markdirty_on (op : Z) (k : ktlb) : ktlb :=
  if op =? HAL_TLBOP_FLUSHALL then Ktlb (u64 (kt_global k + 1)) (kt_normal k)
  else if op =? HAL_TLBOP_FLUSH then Ktlb (kt_global k) (u64 (kt_normal k + 1))
  else k.

(** * What a HAL and the page allocator offer *)

Class HalPmap (S : Type) := {
  hal_kmap_getl1p : Z → bool → M S (bool * Z);
  hal_l1e_get : Z → M S Z;
  hal_l1e_set : Z → Z → M S Z;
  hal_l1e_box : Z → Z → Z;
  hal_l1e_unbox : Z → Z * Z;
  hal_l1e_tlbop : Z → Z → Z;
  pm_alloc : bool → M S Z;
  pm_free_page : Z → M S unit;
  (** The contract's view of a state: the addresses of the kernel map, the
      entry of an address, the free frames and the contents of frames; [pm_ptr
      s p va] says that [p] designates the entry of [va], [pm_owned s f] that
      [f] is an allocated frame that is no page table. *)
  pm_kva : Z → Prop;
  pm_inv : S → Prop;
  pm_view : S → Z → Z;
  pm_ptr : S → Z → Z → Prop;
  pm_free : S → gset Z;
  pm_page : S → Z → option (list Z);
  pm_owned : S → Z → Prop;
}.

(** [v'] is [v] with the entry of the page of [va] replaced. *)
Definition view_set {S : Type} `{!HalPmap S} (v v' : Z → Z) (va e : Z) : Prop :=
  ∀ va', pm_kva va' → v' va' = if decide (same_page va va') then e else v va'.

Definition view_eq {S : Type} `{!HalPmap S} (v v' : Z → Z) : Prop := ∀ va', pm_kva va' → v' va' = v va'.

Class HalPmapLaws (S : Type) `{!HalPmap S} : Prop := {
  pm_getl1p_ok va alloc s : pm_inv s → pm_kva va →
    ∃ b p s', hal_kmap_getl1p va alloc s = Ret ((b, p), s') ∧ pm_inv s' ∧
      view_eq (pm_view s) (pm_view s') ∧ (alloc = false → s' = s) ∧ pm_free s' ⊆ pm_free s ∧
      (size (pm_free s) ≤ size (pm_free s') + 3)%nat ∧
      (∀ f, pm_owned s f → pm_owned s' f ∧ pm_page s' f = pm_page s f) ∧
      (if b then pm_ptr s' p va
       else p = L1P_INVALID ∧ pm_view s' va = 0 ∧
         (alloc = false ∨ pm_free s' = ∅ ∧ (size (pm_free s) < 3)%nat));
  pm_getl1p_ptr s p va : pm_inv s → pm_kva va → pm_ptr s p va →
    hal_kmap_getl1p va false s = Ret ((true, p), s);
  pm_ptr_valid s p va : pm_ptr s p va → p ≠ L1P_INVALID;
  pm_get_ok s p va : pm_inv s → pm_ptr s p va → hal_l1e_get p s = Ret (pm_view s va, s);
  pm_set_ok s p va e : pm_inv s → pm_kva va → pm_ptr s p va →
    ∃ s', hal_l1e_set p e s = Ret (pm_view s va, s') ∧ pm_inv s' ∧
      view_set (pm_view s) (pm_view s') va e ∧ pm_free s' = pm_free s ∧
      (∀ f, pm_owned s f → pm_owned s' f ∧ pm_page s' f = pm_page s f) ∧
      (∀ q va', pm_ptr s q va' → pm_ptr s' q va');
  pm_alloc_ok s low : pm_inv s →
    (pm_free s = ∅ ∧ pm_alloc low s = Ret (PFN_INVALID, s)) ∨
    ∃ r s', r ∈ pm_free s ∧ r ≠ PFN_INVALID ∧ pm_alloc low s = Ret (r, s') ∧ pm_inv s' ∧
      view_eq (pm_view s) (pm_view s') ∧ pm_free s' = pm_free s ∖ {[r]} ∧
      pm_owned s' r ∧ pm_page s' r = Some zero_page ∧
      (∀ p va, pm_ptr s p va → pm_ptr s' p va) ∧
      (∀ f, pm_owned s f → pm_owned s' f ∧ pm_page s' f = pm_page s f);
  pm_free_ok s f : pm_inv s → pm_owned s f →
    ∃ s', pm_free_page f s = Ret (tt, s') ∧ pm_inv s' ∧ view_eq (pm_view s) (pm_view s') ∧
      pm_free s' = {[f]} ∪ pm_free s ∧ (∀ p va, pm_ptr s p va → pm_ptr s' p va) ∧
      (∀ g, g ≠ f → pm_owned s g → pm_owned s' g ∧ pm_page s' g = pm_page s g);
  pm_unbox_0 : hal_l1e_unbox 0 = (0, 0);
  pm_unbox_pfn pfn prot : 0 ≤ pfn < 2 ^ 51 → 0 ≤ prot < 1024 →
    (hal_l1e_unbox (hal_l1e_box pfn prot)).1 = pfn;
  pm_unbox_present pfn prot : 0 ≤ prot < 1024 →
    has (hal_l1e_unbox (hal_l1e_box pfn prot)).2 HAL_PTE_P = has prot HAL_PTE_P;
  pm_tlbop_present old new : has (hal_l1e_unbox old).2 HAL_PTE_P = true →
    hal_l1e_tlbop old new = HAL_TLBOP_FLUSH ∨ hal_l1e_tlbop old new = HAL_TLBOP_FLUSHALL;
  pm_free_bound s f : pm_inv s → f ∈ pm_free s → 0 ≤ f < 2 ^ 51;
}.

(** * The code *)

(** The machine and the generations. *)
Record kst (S : Type) : Type := Kst { k_mach : S; k_ktlb : ktlb }.
Arguments Kst {S} _ _.
Arguments k_mach {S} _.
Arguments k_ktlb {S} _.

Section kmap.
Context {St : Type} `{!HalPmap St}.

Definition set_mach (x : St) (k : kst St) : kst St := Kst x (k_ktlb k).
Definition on_mach {B} (m : M St B) : M (kst St) B := zoom k_mach set_mach m.

Definition ktlbgen_markdirty (op : Z) : M (kst St) unit :=
  modify (λ k, Kst (k_mach k) (ktlbgen_markdirty_on op (k_ktlb k))).

Definition _kmap_map (va pfn prot : Z) (alloc : bool) : M (kst St) Z :=
  let l1e := hal_l1e_box pfn prot in
  lk ← on_mach (hal_kmap_getl1p va alloc); let '(ok, l1p) := lk : bool * Z in
  assertb ok;;
  oldl1e ← on_mach (hal_l1e_set l1p l1e);
  ktlbgen_markdirty (hal_l1e_tlbop oldl1e l1e);;
  let '(oldpfn, oldprot) := hal_l1e_unbox oldl1e in
  mret (if has oldprot HAL_PTE_P then oldpfn else PFN_INVALID).

Definition kmap_getpfn (va : Z) : M (kst St) Z :=
  lk ← on_mach (hal_kmap_getl1p va false); let '(ok, l1p) := lk : bool * Z in
  if negb ok then mret PFN_INVALID
  else
    l1e ← on_mach (hal_l1e_get l1p);
    let '(pfn, flags) := hal_l1e_unbox l1e in
    mret (if has flags HAL_PTE_P then pfn else PFN_INVALID).

Definition kmap_map (va pfn prot : Z) : M (kst St) Z := _kmap_map va pfn prot true.
Definition kmap_map_noalloc (va pfn prot : Z) : M (kst St) Z := _kmap_map va pfn prot false.

Definition kmap_unmap (va : Z) : M (kst St) Z :=
  let l1e := hal_l1e_box 0 0 in
  lk ← on_mach (hal_kmap_getl1p va false); let '(ok, l1p) := lk : bool * Z in
  if ok then
    oldl1e ← on_mach (hal_l1e_set l1p l1e);
    ktlbgen_markdirty (hal_l1e_tlbop oldl1e l1e);;
    let '(oldpfn, oldprot) := hal_l1e_unbox oldl1e in
    mret (if has oldprot HAL_PTE_P then oldpfn else PFN_INVALID)
  else mret PFN_INVALID.

Definition kmap_mapped (va : Z) : M (kst St) bool :=
  lk ← on_mach (hal_kmap_getl1p va false); mret lk.1.

(** [for (i = s; i < e; i += PAGE_SIZE)]; [fuel] bounds the iterations. *)
Fixpoint kmap_mapped_loop (fuel : nat) (i e : Z) : M (kst St) bool :=
  match fuel with
  | O => stop Hang
  | S fuel' =>
      if i <? e then
        ok ← kmap_mapped i;
        if negb ok then mret false else kmap_mapped_loop fuel' (u64 (i + PAGE_SIZE)) e
      else mret true
  end.

Definition kmap_mapped_range (fuel : nat) (va size : Z) : M (kst St) bool :=
  kmap_mapped_loop fuel (trunc_page va) (u64 (va + size)).

(** The parts of [kmap_ensure]: populating the page table, and what follows the
    choice of the frame. *)
Definition ensure_table (l1p va : Z) : M (kst St) Z :=
  if l1p =? L1P_INVALID then
    lk ← on_mach (hal_kmap_getl1p va true); let '(ok, l1p) := lk : bool * Z in
    assertb ok;; mret l1p
  else mret l1p.

Definition ensure_set (l1p pfn reqprot : Z) : M (kst St) Z :=
  let l1e := hal_l1e_box pfn reqprot in
  oldl1e ← on_mach (hal_l1e_set l1p l1e);
  ktlbgen_markdirty (hal_l1e_tlbop oldl1e l1e);;
  mret 0.

(** The result is 0 or -1. *)
Definition kmap_ensure (va reqprot : Z) : M (kst St) Z :=
  lk ← on_mach (hal_kmap_getl1p va false); let '(ok, l1p) := lk : bool * Z in
  l1e ← (if ok then on_mach (hal_l1e_get l1p) else mret 0);
  let '(pfn, prot) := if ok then hal_l1e_unbox l1e else (PFN_INVALID, 0) in
  if Z.lxor reqprot prot =? 0 then mret 0
  else if negb (Z.land reqprot HAL_PTE_P =? Z.land prot HAL_PTE_P) then
    if has reqprot HAL_PTE_P then
      l1p ← ensure_table l1p va;
      pfn ← on_mach (pm_alloc false);
      if pfn =? PFN_INVALID then mret (-1) else ensure_set l1p pfn reqprot
    else
      on_mach (pm_free_page pfn);;
      ensure_set l1p PFN_INVALID reqprot
  else ensure_set l1p pfn reqprot.

Fixpoint kmap_ensure_loop (fuel : nat) (i e reqprot : Z) : M (kst St) Z :=
  match fuel with
  | O => stop Hang
  | S fuel' =>
      if i <? e then
        r ← kmap_ensure i reqprot;
        if negb (r =? 0) then mret (-1)
        else kmap_ensure_loop fuel' (u64 (i + PAGE_SIZE)) e reqprot
      else mret 0
  end.

Definition kmap_ensure_range (fuel : nat) (va size reqprot : Z) : M (kst St) Z :=
  kmap_ensure_loop fuel (trunc_page va) (u64 (va + size)) reqprot.

End kmap.

(** * Lemmas *)

(** The frame an entry maps, as the code reports it. *)
Definition mapped_pfn {S : Type} `{!HalPmap S} (l1e : Z) : Z :=
  if has (hal_l1e_unbox l1e).2 HAL_PTE_P then (hal_l1e_unbox l1e).1 else PFN_INVALID.

Section lemmas.
Context {St : Type} `{!HalPmap St, !HalPmapLaws St}.
Implicit Types k : kst St.

Lemma on_mach_run {B} (m : M St B) k b s' :
  m (k_mach k) = Ret (b, s') → on_mach m k = Ret (b, set_mach s' k).
Proof. intros Hm. unfold on_mach, zoom. by rewrite Hm. Qed.

Lemma set_mach_id k : set_mach (k_mach k) k = k.
Proof. by destruct k. Qed.

Lemma view_set_eq v v1 v2 va e : view_eq v v1 → view_set v1 v2 va e → view_set v v2 va e.
Proof. intros H1 H2 va' Hk. rewrite H2, H1 by done. done. Qed.

(** Looking up the entry of a kernel address. *)
Lemma getl1p_run va alloc k :
  pm_inv (k_mach k) → pm_kva va →
  ∃ b p s', on_mach (hal_kmap_getl1p va alloc) k = Ret ((b, p), set_mach s' k) ∧ pm_inv s' ∧
    view_eq (pm_view (k_mach k)) (pm_view s') ∧ (alloc = false → s' = k_mach k) ∧
    pm_free s' ⊆ pm_free (k_mach k) ∧ (size (pm_free (k_mach k)) ≤ size (pm_free s') + 3)%nat ∧
    (∀ f, pm_owned (k_mach k) f → pm_owned s' f ∧ pm_page s' f = pm_page (k_mach k) f) ∧
    (if b then pm_ptr s' p va
     else p = L1P_INVALID ∧ pm_view s' va = 0 ∧
       (alloc = false ∨ pm_free s' = ∅ ∧ (size (pm_free (k_mach k)) < 3)%nat)).
Proof.
  intros Hi Hv. destruct (pm_getl1p_ok va alloc _ Hi Hv) as (b & p & s' & Hr & Hrest).
  exists b, p, s'. split; [by apply on_mach_run|done].
Qed.

(** Replacing it and recording the TLB operation. *)
Lemma set_mark_run p va e (k : kst St) :
  pm_inv (k_mach k) → pm_kva va → pm_ptr (k_mach k) p va →
  ∃ s', on_mach (hal_l1e_set p e) k = Ret (pm_view (k_mach k) va, set_mach s' k) ∧ pm_inv s' ∧
    view_set (pm_view (k_mach k)) (pm_view s') va e ∧ pm_free s' = pm_free (k_mach k) ∧
    (∀ f, pm_owned (k_mach k) f → pm_owned s' f ∧ pm_page s' f = pm_page (k_mach k) f) ∧
    (∀ q va', pm_ptr (k_mach k) q va' → pm_ptr s' q va').
Proof.
  intros Hi Hv Hp. destruct (pm_set_ok _ p va e Hi Hv Hp) as (s' & Hr & Hrest).
  exists s'. split; [by apply on_mach_run|done].
Qed.

Lemma kmap_map_run va pfn prot alloc k :
  pm_inv (k_mach k) → pm_kva va → let old := pm_view (k_mach k) va in
  (∃ s', _kmap_map va pfn prot alloc k =
     Ret (mapped_pfn old,
       Kst s' (ktlbgen_markdirty_on (hal_l1e_tlbop old (hal_l1e_box pfn prot)) (k_ktlb k))) ∧
     pm_inv s' ∧ view_set (pm_view (k_mach k)) (pm_view s') va (hal_l1e_box pfn prot) ∧
     pm_free s' ⊆ pm_free (k_mach k) ∧ ∃ p, pm_ptr s' p va) ∨
  (_kmap_map va pfn prot alloc k = Abort AssertFail ∧ old = 0 ∧
     (alloc = true → (size (pm_free (k_mach k)) < 3)%nat)).
Proof.
  intros Hi Hv old. destruct (getl1p_run va alloc k Hi Hv) as (b & p & s1 & Hr & Hi1 & He1 & _ & Hf1 & _ & _ & Hb).
  assert (pm_view s1 va = old) as Hold by (by apply He1).
  unfold _kmap_map. mrun Hr. destruct b.
  - left. destruct (set_mark_run p va (hal_l1e_box pfn prot) (set_mach s1 k) Hi1 Hv Hb)
      as (s2 & Hr2 & Hi2 & He2 & Hf2 & _ & Hp2). simpl in Hr2, He2, Hf2. rewrite Hold in Hr2.
    exists s2. split.
    + rewrite bind_assert by done. mrun Hr2. unfold ktlbgen_markdirty. mrun.
      unfold mapped_pfn. by destruct (hal_l1e_unbox old).
    + split_and!; [done|by eapply view_set_eq|by rewrite Hf2|]. exists p. by apply Hp2.
  - right. destruct Hb as (_ & Hz & Ha). split; [done|]. split; [congruence|]. intros ->. by destruct Ha as [|[]].
Qed.

Lemma kmap_getpfn_run va k :
  pm_inv (k_mach k) → pm_kva va → kmap_getpfn va k = Ret (mapped_pfn (pm_view (k_mach k) va), k).
Proof.
  intros Hi Hv. destruct (getl1p_run va false k Hi Hv) as (b & p & s1 & Hr & _ & _ & Hs & _ & _ & _ & Hb).
  rewrite Hs, set_mach_id in Hr by done. rewrite Hs in Hb by done.
  unfold kmap_getpfn, mapped_pfn. mrun Hr. destruct b; simpl.
  - mrun (on_mach_run _ k _ _ (pm_get_ok _ _ _ Hi Hb)). rewrite set_mach_id.
    by destruct (hal_l1e_unbox _).
  - destruct Hb as (_ & -> & _). by rewrite pm_unbox_0.
Qed.

Lemma kmap_unmap_run va k :
  pm_inv (k_mach k) → pm_kva va → let old := pm_view (k_mach k) va in
  (∃ p s', pm_ptr (k_mach k) p va ∧ kmap_unmap va k =
     Ret (mapped_pfn old,
       Kst s' (ktlbgen_markdirty_on (hal_l1e_tlbop old (hal_l1e_box 0 0)) (k_ktlb k))) ∧
     pm_inv s' ∧ view_set (pm_view (k_mach k)) (pm_view s') va (hal_l1e_box 0 0) ∧ pm_ptr s' p va) ∨
  (old = 0 ∧ kmap_unmap va k = Ret (PFN_INVALID, k)).
Proof.
  intros Hi Hv old. destruct (getl1p_run va false k Hi Hv) as (b & p & s1 & Hr & _ & _ & Hs & _ & _ & _ & Hb).
  rewrite Hs, set_mach_id in Hr by done. rewrite Hs in Hb by done.
  unfold kmap_unmap. mrun Hr. destruct b.
  - left. destruct (set_mark_run p va (hal_l1e_box 0 0) k Hi Hv Hb) as (s2 & Hr2 & Hi2 & He2 & _ & _ & Hp2).
    exists p, s2. split; [done|]. split; [|by auto]. mrun Hr2. unfold ktlbgen_markdirty. mrun.
    unfold mapped_pfn, old. by destruct (hal_l1e_unbox _).
  - right. destruct Hb as (_ & Hz & _). done.
Qed.

(** ** [kmap_ensure] *)

(** What both the code and its contract start from. *)
Lemma kmap_ensure_lookup va k :
  pm_inv (k_mach k) → pm_kva va → let old := pm_view (k_mach k) va in
  ∃ b p, on_mach (hal_kmap_getl1p va false) k = Ret ((b, p), k) ∧
    (if b then pm_ptr (k_mach k) p va ∧ p ≠ L1P_INVALID ∧ on_mach (hal_l1e_get p) k = Ret (old, k)
     else p = L1P_INVALID ∧ old = 0).
Proof.
  intros Hi Hv old. destruct (getl1p_run va false k Hi Hv) as (b & p & s1 & Hr & _ & _ & Hs & _ & _ & _ & Hb).
  rewrite Hs, set_mach_id in Hr by done. rewrite Hs in Hb by done.
  exists b, p. split; [done|]. destruct b; [|by destruct Hb as (? & ? & _)].
  split_and!; [done|by eapply pm_ptr_valid|].
  pose proof (on_mach_run _ k _ _ (pm_get_ok _ _ _ Hi Hb)) as Hg. by rewrite set_mach_id in Hg.
Qed.

Lemma ensure_set_run p va pfn reqprot (k : kst St) :
  pm_inv (k_mach k) → pm_kva va → pm_ptr (k_mach k) p va →
  ∃ s', ensure_set p pfn reqprot k =
      Ret (0, Kst s' (ktlbgen_markdirty_on
        (hal_l1e_tlbop (pm_view (k_mach k) va) (hal_l1e_box pfn reqprot)) (k_ktlb k))) ∧
    pm_inv s' ∧ view_set (pm_view (k_mach k)) (pm_view s') va (hal_l1e_box pfn reqprot) ∧
    pm_free s' = pm_free (k_mach k) ∧
    (∀ f, pm_owned (k_mach k) f → pm_owned s' f ∧ pm_page s' f = pm_page (k_mach k) f).
Proof.
  intros Hi Hv Hp. destruct (set_mark_run p va (hal_l1e_box pfn reqprot) k Hi Hv Hp) as (s' & Hr & Hrest).
  exists s'. destruct Hrest as (? & ? & ? & ? & _). split; [|done]. unfold ensure_set. by mrun Hr.
Qed.

Lemma lxor_same a b : (Z.lxor a b =? 0) = (a =? b).
Proof.
  destruct (Z.eqb_spec a b) as [->|Hne]; [by rewrite Z.lxor_nilpotent|].
  apply Z.eqb_neq. by rewrite Z.lxor_eq_0_iff.
Qed.

Lemma land_p_differ a b :
  negb (Z.land a HAL_PTE_P =? Z.land b HAL_PTE_P) = xorb (has a HAL_PTE_P) (has b HAL_PTE_P).
Proof.
  unfold has, HAL_PTE_P. change 1 with (Z.ones 1). rewrite !Z.land_ones by lia. change (2 ^ 1) with 2.
  pose proof (Z.mod_pos_bound a 2). pose proof (Z.mod_pos_bound b 2).
  assert (a `mod` 2 = 0 ∨ a `mod` 2 = 1) as [->| ->] by lia;
    assert (b `mod` 2 = 0 ∨ b `mod` 2 = 1) as [->| ->] by lia; done.
Qed.

(** A call that returns 0 has made [l1e] the entry of [va]. *)
Record ensured (k k' : kst St) (va l1e : Z) : Prop := {
  en_inv : pm_inv (k_mach k');
  en_view : view_set (pm_view (k_mach k)) (pm_view (k_mach k')) va l1e;
  en_ktlb : k_ktlb k' =
    ktlbgen_markdirty_on (hal_l1e_tlbop (pm_view (k_mach k) va) l1e) (k_ktlb k);
}.

Definition keeps (k k' : kst St) (f : Z) : Prop :=
  pm_owned (k_mach k) f → pm_owned (k_mach k') f ∧ pm_page (k_mach k') f = pm_page (k_mach k) f.

Lemma keeps_trans k1 k2 k3 f : keeps k1 k2 f → keeps k2 k3 f → keeps k1 k3 f.
Proof.
  intros H1 H2 Ho. destruct (H1 Ho) as [Ho2 E2]. destruct (H2 Ho2) as [Ho3 E3].
  split; [done|congruence].
Qed.

(** [kmap_ensure] up to the choice of what to do. *)
Lemma kmap_ensure_start va reqprot k pfn prot :
  pm_inv (k_mach k) → pm_kva va → hal_l1e_unbox (pm_view (k_mach k) va) = (pfn, prot) →
  ∃ (b : bool) (p : Z), (if b then pm_ptr (k_mach k) p va ∧ p ≠ L1P_INVALID
          else p = L1P_INVALID ∧ pm_view (k_mach k) va = 0 ∧ prot = 0) ∧
  kmap_ensure va reqprot k =
    (if reqprot =? prot then mret 0
     else if xorb (has reqprot HAL_PTE_P) (has prot HAL_PTE_P) then
       if has reqprot HAL_PTE_P then
         l1p ← ensure_table p va;
         pfn ← on_mach (pm_alloc false);
         if pfn =? PFN_INVALID then mret (-1) else ensure_set l1p pfn reqprot
       else
         on_mach (pm_free_page pfn);; ensure_set p PFN_INVALID reqprot
     else ensure_set p (if b then pfn else PFN_INVALID) reqprot) k.
Proof.
  intros Hi Hv Hold. destruct (kmap_ensure_lookup va k Hi Hv) as (b & p & Hr & Hb).
  exists b, p. unfold kmap_ensure. mrun Hr. destruct b.
  - destruct Hb as (Hptr & Hpv & Hget). split; [done|]. mrun Hget.
    by rewrite Hold, lxor_same, land_p_differ.
  - destruct Hb as (-> & Hz). rewrite Hz, pm_unbox_0 in Hold. injection Hold as <- <-.
    split; [done|]. mrun. rewrite lxor_same, land_p_differ.
    change (has 0 HAL_PTE_P) with false. rewrite xorb_false_r. by destruct (has reqprot HAL_PTE_P).
Qed.

(** A present page whose protection changes. *)
Lemma kmap_ensure_protect va reqprot k pfn prot :
  pm_inv (k_mach k) → pm_kva va → hal_l1e_unbox (pm_view (k_mach k) va) = (pfn, prot) →
  has prot HAL_PTE_P = true → has reqprot HAL_PTE_P = true → reqprot ≠ prot →
  ∃ k', kmap_ensure va reqprot k = Ret (0, k') ∧ ensured k k' va (hal_l1e_box pfn reqprot) ∧
    pm_free (k_mach k') = pm_free (k_mach k) ∧ ∀ f, keeps k k' f.
Proof.
  intros Hi Hv Hold Hp Hreq Hne.
  destruct (kmap_ensure_start va reqprot k pfn prot Hi Hv Hold) as (b & p & Hb & ->).
  rewrite (proj2 (Z.eqb_neq _ _) Hne), Hp, Hreq. cbn [xorb]. destruct b.
  - destruct Hb as (Hptr & _).
    destruct (ensure_set_run p va pfn reqprot k Hi Hv Hptr) as (s' & Hw & Hi' & Hs' & Hf & Hk).
    eexists. split; [exact Hw|]. split; [by split|]. done.
  - destruct Hb as (_ & _ & ->). done.
Qed.

Lemma ensure_table_run va k b p :
  pm_inv (k_mach k) → pm_kva va →
  (if b : bool then pm_ptr (k_mach k) p va ∧ p ≠ L1P_INVALID else p = L1P_INVALID) →
  (∃ l1p s1, ensure_table p va k = Ret (l1p, set_mach s1 k) ∧ pm_ptr s1 l1p va ∧ pm_inv s1 ∧
      view_eq (pm_view (k_mach k)) (pm_view s1) ∧ pm_free s1 ⊆ pm_free (k_mach k) ∧
      (size (pm_free (k_mach k)) ≤ size (pm_free s1) + 3)%nat ∧
      ∀ f, keeps k (set_mach s1 k) f) ∨
  (ensure_table p va k = Abort AssertFail ∧ b = false ∧ (size (pm_free (k_mach k)) < 3)%nat).
Proof.
  intros Hi Hv Hb. unfold ensure_table. destruct b.
  - destruct Hb as (Hptr & Hpv). rewrite (proj2 (Z.eqb_neq _ _) Hpv).
    left. exists p, (k_mach k). rewrite set_mach_id. split_and!; [done..|lia|done].
  - rewrite Hb, Z.eqb_refl.
    destruct (getl1p_run va true k Hi Hv) as (b1 & p1 & s1 & Hr1 & Hi1 & He1 & _ & Hf1 & Hsz1 & Hk1 & Hb1).
    mrun Hr1. destruct b1; [left; by exists p1, s1|right].
    destruct Hb1 as (_ & _ & [|[_ ?]]); done.
Qed.

(** A page that is mapped anew. *)
Lemma kmap_ensure_map va reqprot k pfn prot :
  pm_inv (k_mach k) → pm_kva va → hal_l1e_unbox (pm_view (k_mach k) va) = (pfn, prot) →
  has prot HAL_PTE_P = false → has reqprot HAL_PTE_P = true →
  (∃ r k', r ∈ pm_free (k_mach k) ∧ kmap_ensure va reqprot k = Ret (0, k') ∧
     ensured k k' va (hal_l1e_box r reqprot) ∧ pm_owned (k_mach k') r ∧
     pm_page (k_mach k') r = Some zero_page ∧ pm_free (k_mach k') ⊆ pm_free (k_mach k) ∖ {[r]} ∧
     (size (pm_free (k_mach k)) ≤ size (pm_free (k_mach k')) + 4)%nat ∧ ∀ f, keeps k k' f) ∨
  (∃ k', kmap_ensure va reqprot k = Ret (-1, k') ∧ pm_inv (k_mach k') ∧ k_ktlb k' = k_ktlb k ∧
     view_eq (pm_view (k_mach k)) (pm_view (k_mach k')) ∧ pm_free (k_mach k') = ∅ ∧
     (size (pm_free (k_mach k)) < 4)%nat ∧ ∀ f, keeps k k' f) ∨
  (kmap_ensure va reqprot k = Abort AssertFail ∧ pm_view (k_mach k) va = 0 ∧
     (size (pm_free (k_mach k)) < 4)%nat).
Proof.
  intros Hi Hv Hold Hp Hreq.
  destruct (kmap_ensure_start va reqprot k pfn prot Hi Hv Hold) as (b & p & Hb & ->).
  rewrite (proj2 (Z.eqb_neq reqprot prot)) by (intros ->; congruence). rewrite Hp, Hreq. cbn [xorb].
  destruct (ensure_table_run va k b p Hi Hv) as [(l1p & s1 & Ht & Hptr & Hi1 & He1 & Hf1 & Hsz1 & Hk1)|(Ht & -> & Hsz)].
  { destruct b; by destruct Hb. }
  - mrun Ht. destruct (pm_alloc_ok s1 false Hi1)
      as [[He Hr]|(r & s2 & Hr & Hrv & Hrun & Hi2 & He2 & Hf2 & Ho2 & Hz2 & Hp2 & Hk2)].
    + right. left. mrun (on_mach_run _ (set_mach s1 k) _ _ Hr). rewrite Z.eqb_refl.
      eexists. split; [done|]. rewrite He, size_empty in Hsz1. split_and!; [done..|lia|done].
    + left. mrun (on_mach_run _ (set_mach s1 k) _ _ Hrun). rewrite (proj2 (Z.eqb_neq _ _) Hrv).
      set (k2 := set_mach s2 (set_mach s1 k)).
      assert (pm_view s2 va = pm_view (k_mach k) va) as Hv2 by (by rewrite He2, He1).
      destruct (ensure_set_run l1p va r reqprot k2 Hi2 Hv (Hp2 _ _ Hptr)) as (s3 & Hw & Hi3 & Hs3 & Hf3 & Hk3).
      exists r. eexists. split; [set_solver|]. split; [exact Hw|]. simpl.
      destruct (Hk3 r Ho2) as [Ho3 Hz3]. split_and!; [split; simpl; [done| |by rewrite Hv2]|done|..].
      * eapply view_set_eq; [|done]. intros va' Hk'. by rewrite He2, He1.
      * by rewrite Hz3.
      * rewrite Hf3. simpl. rewrite Hf2. set_solver.
      * rewrite Hf3. simpl. rewrite Hf2, size_difference by set_solver. rewrite size_singleton. lia.
      * intros f. eapply keeps_trans; [exact (Hk1 f)|]. eapply (keeps_trans _ k2); [exact (Hk2 f)|exact (Hk3 f)].
  - right. right. destruct Hb as (_ & Hz & _). split; [|split; [done|lia]]. by rewrite (bind_Abort _ _ _ _ Ht).
Qed.

(** A page that is unmapped: its frame goes back to the allocator. *)
Lemma kmap_ensure_unmap va reqprot k pfn prot :
  pm_inv (k_mach k) → pm_kva va → hal_l1e_unbox (pm_view (k_mach k) va) = (pfn, prot) →
  has prot HAL_PTE_P = true → has reqprot HAL_PTE_P = false → pm_owned (k_mach k) pfn →
  ∃ k', kmap_ensure va reqprot k = Ret (0, k') ∧
    ensured k k' va (hal_l1e_box PFN_INVALID reqprot) ∧
    pm_free (k_mach k') = {[pfn]} ∪ pm_free (k_mach k) ∧ ∀ f, f ≠ pfn → keeps k k' f.
Proof.
  intros Hi Hv Hold Hp Hreq Ho.
  destruct (kmap_ensure_start va reqprot k pfn prot Hi Hv Hold) as (b & p & Hb & ->).
  rewrite (proj2 (Z.eqb_neq reqprot prot)) by (intros ->; congruence). rewrite Hp, Hreq. cbn [xorb].
  destruct b; [|by destruct Hb as (_ & _ & ->)]. destruct Hb as (Hptr & _).
  destruct (pm_free_ok _ pfn Hi Ho) as (s1 & Hr & Hi1 & He1 & Hf1 & Hp1 & Hk1).
  mrun (on_mach_run _ k _ _ Hr).
  destruct (ensure_set_run p va PFN_INVALID reqprot (set_mach s1 k) Hi1 Hv (Hp1 _ _ Hptr))
    as (s2 & Hw & Hi2 & Hs2 & Hf2 & Hk2).
  eexists. split; [exact Hw|]. simpl.
  split_and!; [split; simpl; [done|by eapply view_set_eq|by rewrite He1]|by rewrite Hf2|].
  intros f Hne. eapply (keeps_trans _ (set_mach s1 k)); [exact (Hk1 f Hne)|exact (Hk2 f)].
Qed.

Lemma kmap_ensure_same va reqprot k :
  pm_inv (k_mach k) → pm_kva va → (hal_l1e_unbox (pm_view (k_mach k) va)).2 = reqprot →
  kmap_ensure va reqprot k = Ret (0, k).
Proof.
  intros Hi Hv Heq. destruct (hal_l1e_unbox (pm_view (k_mach k) va)) as [pfn prot] eqn:E. simpl in Heq.
  destruct (kmap_ensure_start va reqprot k pfn prot Hi Hv E) as (b & p & _ & ->).
  by rewrite Heq, Z.eqb_refl.
Qed.

(** ** Ranges *)

Definition is_present (l1e : Z) : Prop := has (hal_l1e_unbox l1e).2 HAL_PTE_P = true.

(** From [k] to [k'] pages of [P] may have been mapped; pages that were mapped
    keep their frame. *)
Record populated (P : Z → Prop) (k k' : kst St) : Prop := {
  po_inv : pm_inv (k_mach k');
  po_other va : pm_kva va → (∀ i, P i → ¬ same_page i va) →
    pm_view (k_mach k') va = pm_view (k_mach k) va;
  po_present va : pm_kva va → is_present (pm_view (k_mach k) va) →
    is_present (pm_view (k_mach k') va);
  po_free : pm_free (k_mach k') ⊆ pm_free (k_mach k);
  po_keeps f : keeps k k' f;
}.

Lemma populated_refl P k : pm_inv (k_mach k) → populated P k k.
Proof. intros. by split. Qed.

Lemma populated_trans P k1 k2 k3 : populated P k1 k2 → populated P k2 k3 → populated P k1 k3.
Proof.
  intros H12 H23. split.
  - by apply H23.
  - intros va Hv Hn. rewrite (po_other _ _ _ H23), (po_other _ _ _ H12) by done. done.
  - intros va Hv Hp. by apply (po_present _ _ _ H23), (po_present _ _ _ H12).
  - etrans; [apply H23|apply H12].
  - intros f. by eapply keeps_trans; [apply H12|apply H23].
Qed.

(** One page of the range: present, unless memory has run out. *)
Lemma kmap_ensure_one (P : Z → Prop) va reqprot k :
  pm_inv (k_mach k) → pm_kva va → P va → 0 ≤ reqprot < 1024 → has reqprot HAL_PTE_P = true →
  (∃ k', kmap_ensure va reqprot k = Ret (0, k') ∧ populated P k k' ∧
     is_present (pm_view (k_mach k') va) ∧ (size (pm_free (k_mach k)) ≤ size (pm_free (k_mach k')) + 4)%nat) ∨
  (∃ k', kmap_ensure va reqprot k = Ret (-1, k') ∧ populated P k k' ∧ pm_free (k_mach k') = ∅ ∧
     (size (pm_free (k_mach k)) < 4)%nat) ∨
  (kmap_ensure va reqprot k = Abort AssertFail ∧ (size (pm_free (k_mach k)) < 4)%nat).
Proof.
  intros Hi Hv HP Hprot Hreq.
  destruct (hal_l1e_unbox (pm_view (k_mach k) va)) as [pfn prot] eqn:Hold.
  assert (∀ k' r, ensured k k' va (hal_l1e_box r reqprot) → pm_free (k_mach k') ⊆ pm_free (k_mach k) →
    (size (pm_free (k_mach k)) ≤ size (pm_free (k_mach k')) + 4)%nat →
    (∀ f, keeps k k' f) → populated P k k' ∧ is_present (pm_view (k_mach k') va) ∧
      (size (pm_free (k_mach k)) ≤ size (pm_free (k_mach k')) + 4)%nat) as Hdone.
  { intros k' r [Hi' Hs _] Hf Hsz Hk.
    assert (is_present (hal_l1e_box r reqprot)) as Hp by (unfold is_present; by rewrite pm_unbox_present).
    split; [|split; [rewrite Hs by done; by rewrite decide_True|done]]. split; [done| | |done|done].
    - intros va' Hv' Hn. rewrite Hs by done. rewrite decide_False; [done|]. by apply Hn.
    - intros va' Hv' Hpv. rewrite Hs by done. by case_decide. }
  destruct (has prot HAL_PTE_P) eqn:Hp.
  - destruct (decide (reqprot = prot)) as [->|Hne].
    + left. exists k. rewrite kmap_ensure_same by (done || by rewrite Hold). split; [done|].
      split; [by apply populated_refl|]. split; [|lia]. unfold is_present. by rewrite Hold.
    + left. destruct (kmap_ensure_protect va reqprot k pfn prot) as (k' & Hr & He & Hf & Hk); [done..|].
      exists k'. split; [done|]. apply (Hdone k' pfn); [done|by rewrite Hf|rewrite Hf; lia|done].
  - destruct (kmap_ensure_map va reqprot k pfn prot Hi Hv Hold Hp Hreq)
      as [(r & k' & Hin & Hr & He & _ & _ & Hf & Hsz & Hk)|[(k' & Hr & Hi' & _ & Hv' & Hf & Hsz & Hk)|(Hr & _ & Hsz)]].
    + left. exists k'. split; [done|]. apply (Hdone k' r); [done|set_solver|done|done].
    + right. left. exists k'. split_and!; [done| |done|done]. split; [done| | |set_solver|done].
      * intros va' Hva' _. by apply Hv'.
      * intros va' Hva'. by rewrite Hv'.
    + by right; right.
Qed.

Lemma kmap_ensure_loop_run (P : Z → Prop) reqprot e (n : nat) : ∀ fuel i k,
  (n < fuel)%nat → 0 ≤ i → e ≤ i + 4096 * n → (0 < n → i + 4096 * (n - 1) < e) → i + 4096 * n < 2 ^ 64 →
  pm_inv (k_mach k) → (∀ j : Z, 0 ≤ j < n → pm_kva (i + 4096 * j) ∧ P (i + 4096 * j)) →
  0 ≤ reqprot < 1024 → has reqprot HAL_PTE_P = true →
  (∃ k', kmap_ensure_loop fuel i e reqprot k = Ret (0, k') ∧ populated P k k' ∧
     ∀ j : Z, 0 ≤ j < n → is_present (pm_view (k_mach k') (i + 4096 * j))) ∨
  (∃ k', kmap_ensure_loop fuel i e reqprot k = Ret (-1, k') ∧ populated P k k' ∧
     pm_free (k_mach k') = ∅ ∧ (size (pm_free (k_mach k)) < 4 * n)%nat) ∨
  (kmap_ensure_loop fuel i e reqprot k = Abort AssertFail ∧ (size (pm_free (k_mach k)) < 4 * n)%nat).
Proof.
  induction n as [|n IH]; intros [|fuel] i k Hfuel Hi0 He Hlast Hmax Hi HP Hprot Hreq; try lia.
  - left. exists k. cbn [kmap_ensure_loop]. rewrite (proj2 (Z.ltb_ge i e)) by lia.
    split; [done|]. split; [by apply populated_refl|lia].
  - cbn [kmap_ensure_loop]. rewrite (proj2 (Z.ltb_lt i e)) by lia.
    destruct (HP 0 ltac:(lia)) as [Hv HPi]. rewrite Z.mul_0_r, Z.add_0_r in Hv, HPi.
    destruct (kmap_ensure_one P i reqprot k Hi Hv HPi Hprot Hreq)
      as [(k1 & Hr & Hpo & Hpr & Hsz)|[(k1 & Hr & Hpo & Hf & Hsz)|[Hr Hsz]]].
    + mrun Hr. rewrite page_size_eq, u64_small by (unfold word64; lia).
      destruct (IH fuel (i + 4096) k1) as [(k2 & Hr2 & Hpo2 & Hpr2)|[(k2 & Hr2 & Hpo2 & Hf2 & Hsz2)|[Hr2 Hsz2]]];
        try (done || lia).
      * by apply Hpo.
      * intros j Hj. replace (i + 4096 + 4096 * j) with (i + 4096 * (j + 1)) by lia. apply HP. lia.
      * left. exists k2. split; [done|]. split; [by eapply populated_trans|]. intros j Hj.
        destruct (decide (j = 0)) as [->|Hne].
        -- rewrite Z.mul_0_r, Z.add_0_r. by apply (po_present _ _ _ Hpo2).
        -- replace (i + 4096 * j) with (i + 4096 + 4096 * (j - 1)) by lia. apply Hpr2. lia.
      * right. left. exists k2. split; [done|]. split; [by eapply populated_trans|]. split; [done|lia].
      * right. right. split; [done|lia].
    + right. left. exists k1. mrun Hr. split_and!; [done..|lia].
    + right. right. rewrite (bind_Abort _ _ _ _ Hr). split; [done|lia].
Qed.

Lemma markdirty_moves op (k : ktlb) :
  0 ≤ kt_global k < 2 ^ 64 → 0 ≤ kt_normal k < 2 ^ 64 →
  op = HAL_TLBOP_FLUSH ∨ op = HAL_TLBOP_FLUSHALL → ktlbgen_markdirty_on op k ≠ k.
Proof.
  destruct k as [g n]. simpl. intros Hg Hn Hop.
  assert (∀ x, 0 ≤ x < 2 ^ 64 → u64 (x + 1) ≠ x) as Hu.
  { intros x Hx. unfold u64. destruct (decide (x = 2 ^ 64 - 1)) as [->|]; [done|].
    rewrite Z.mod_small by lia. lia. }
  destruct Hop as [->| ->]; unfold ktlbgen_markdirty_on; simpl; intros E;
    [apply (Hu n Hn)|apply (Hu g Hg)]; by injection E.
Qed.

Lemma mapped_pfn_box pfn prot :
  0 ≤ pfn < 2 ^ 51 → 0 ≤ prot < 1024 → has prot HAL_PTE_P = true → mapped_pfn (hal_l1e_box pfn prot) = pfn.
Proof.
  intros Hpfn Hprot Hp. unfold mapped_pfn. rewrite pm_unbox_present, Hp by done. by apply pm_unbox_pfn.
Qed.

Lemma mapped_pfn_unmap : mapped_pfn (hal_l1e_box 0 0) = PFN_INVALID.
Proof. unfold mapped_pfn. by rewrite pm_unbox_present. Qed.

Lemma trunc_page_eq va : 0 ≤ va → trunc_page va = 4096 * (va `div` 4096).
Proof.
  intros Hv. unfold trunc_page. rewrite page_size_eq. change (4096 - 1) with (Z.ones 12).
  rewrite <- Z.ldiff_land, Z.ldiff_ones_r by lia. rewrite Z.shiftl_mul_pow2, Z.shiftr_div_pow2 by lia.
  change (2 ^ 12) with 4096. lia.
Qed.

End lemmas.

(** * Properties *)

(** C15. [kmap_map] makes the page of its address map to the frame, returns the
    frame that was mapped there before, leaves every other page of the kernel
    map as it was, and advances a TLB generation when it has replaced a
    mapping. Its assertion stops the machine only when the page had no mapping
    and fewer than three frames, one for each level of tables, are free. *)
Theorem kmap_map_correct {St} `{!HalPmap St} (HL : HalPmapLaws St) (va pfn prot : Z) (k : kst St)
    (Hi : pm_inv (k_mach k)) (Hv : pm_kva va) (Hpfn : 0 ≤ pfn < 2 ^ 51)
    (Hprot : 0 ≤ prot < 1024) (Hp : has prot HAL_PTE_P = true)
    (Hg : 0 ≤ kt_global (k_ktlb k) < 2 ^ 64) (Hn : 0 ≤ kt_normal (k_ktlb k) < 2 ^ 64) :
  (∃ old k', kmap_map va pfn prot k = Ret (old, k') ∧ kmap_getpfn va k = Ret (old, k) ∧
     pm_inv (k_mach k') ∧ kmap_getpfn va k' = Ret (pfn, k') ∧
     (∀ va', pm_kva va' → ¬ same_page va va' →
        ∃ f, kmap_getpfn va' k = Ret (f, k) ∧ kmap_getpfn va' k' = Ret (f, k')) ∧
     (old ≠ PFN_INVALID → k_ktlb k' ≠ k_ktlb k)) ∨
  (kmap_map va pfn prot k = Abort AssertFail ∧ kmap_getpfn va k = Ret (PFN_INVALID, k) ∧
     (size (pm_free (k_mach k)) < 3)%nat).
Proof.
  unfold kmap_map. rewrite (kmap_getpfn_run va k Hi Hv).
  destruct (kmap_map_run va pfn prot true k Hi Hv) as [(s' & Hr & Hi' & Hs & _)|(Hr & Hz & Hsz)]; [left|right].
  - eexists _, _. split; [exact Hr|]. split; [done|]. split; [done|]. split_and!.
    + rewrite kmap_getpfn_run by done. rewrite Hs by done. rewrite decide_True by done.
      by rewrite mapped_pfn_box.
    + intros va' Hv' Hne. rewrite !kmap_getpfn_run by done. eexists. split; [done|].
      rewrite Hs by done. by rewrite decide_False.
    + intros Hold. apply markdirty_moves; [done..|]. apply pm_tlbop_present.
      unfold mapped_pfn in Hold. destruct (has (hal_l1e_unbox (pm_view (k_mach k) va)).2 HAL_PTE_P); [done|]. by destruct Hold.
  - split; [done|]. rewrite Hz. unfold mapped_pfn. rewrite pm_unbox_0. split; [done|by apply Hsz].
Qed.

(** [kmap_unmap] returns the frame mapped at its address, if any; afterwards
    the page maps nothing and every other page is as it was. *)
Theorem kmap_unmap_correct {St} `{!HalPmap St} (HL : HalPmapLaws St) (va : Z) (k : kst St)
    (Hi : pm_inv (k_mach k)) (Hv : pm_kva va) :
  ∃ old k', kmap_unmap va k = Ret (old, k') ∧ kmap_getpfn va k = Ret (old, k) ∧
    pm_inv (k_mach k') ∧ kmap_getpfn va k' = Ret (PFN_INVALID, k') ∧
    ∀ va', pm_kva va' → ¬ same_page va va' →
      ∃ f, kmap_getpfn va' k = Ret (f, k) ∧ kmap_getpfn va' k' = Ret (f, k').
Proof.
  rewrite (kmap_getpfn_run va k Hi Hv).
  destruct (kmap_unmap_run va k Hi Hv) as [(p & s' & _ & Hr & Hi' & Hs & _)|[Hz Hr]].
  - eexists _, _. split; [exact Hr|]. split; [done|]. split; [done|]. split.
    + rewrite kmap_getpfn_run by done. rewrite Hs by done. rewrite decide_True by done.
      by rewrite mapped_pfn_unmap.
    + intros va' Hv' Hne. rewrite !kmap_getpfn_run by done. eexists. split; [done|].
      rewrite Hs by done. by rewrite decide_False.
  - assert (mapped_pfn 0 = PFN_INVALID) as H0 by (unfold mapped_pfn; by rewrite pm_unbox_0).
    exists PFN_INVALID, k. rewrite Hr, kmap_getpfn_run, Hz, H0 by done. split_and!; [done..|].
    intros va' Hv' _. rewrite kmap_getpfn_run by done. eauto.
Qed.

(** C30. [kmap_ensure_range] with a present protection: every page of the range is
    mapped when it returns 0, in a number of iterations the range fixes; with
    four free frames for each page it does return 0, and it returns -1, or stops
    at the assertion on the page table, only with fewer. Pages outside the range
    are untouched, pages that were mapped stay mapped, and the contents of
    frames in use do not change. *)
Theorem kmap_ensure_range_correct {St} `{!HalPmap St} (HL : HalPmapLaws St)
    (va size reqprot : Z) (n fuel : nat) (k : kst St)
    (Hi : pm_inv (k_mach k)) (Hva : 0 ≤ va) (Hsize : 0 < size) (Hend : va + size ≤ 2 ^ 64 - 4096)
    (Hn : Z.of_nat n = (va + size + 4095) `div` 4096 - va `div` 4096) (Hfuel : (n < fuel)%nat)
    (Hkva : ∀ j, 0 ≤ j < n → pm_kva (4096 * (va `div` 4096 + j)))
    (Hprot : 0 ≤ reqprot < 1024) (Hp : has reqprot HAL_PTE_P = true) :
  let in_range i := ∃ j, 0 ≤ j < n ∧ i = 4096 * (va `div` 4096 + j) in
  (∃ k', kmap_ensure_range fuel va size reqprot k = Ret (0, k') ∧ populated in_range k k' ∧
     ∀ j, 0 ≤ j < n → is_present (pm_view (k_mach k') (4096 * (va `div` 4096 + j)))) ∨
  (∃ k', kmap_ensure_range fuel va size reqprot k = Ret (-1, k') ∧ populated in_range k k' ∧
     pm_free (k_mach k') = ∅ ∧ (base.size (pm_free (k_mach k)) < 4 * n)%nat) ∨
  (kmap_ensure_range fuel va size reqprot k = Abort AssertFail ∧
     (base.size (pm_free (k_mach k)) < 4 * n)%nat).
Proof.
  intros in_range. unfold kmap_ensure_range. rewrite trunc_page_eq by done.
  rewrite (u64_small (va + size)) by (unfold word64; lia).
  assert (∀ j, 4096 * (va `div` 4096) + 4096 * j = 4096 * (va `div` 4096 + j)) as Hadd by lia.
  destruct (kmap_ensure_loop_run in_range reqprot (va + size) n fuel (4096 * (va `div` 4096)) k)
    as [(k' & Hr & Hpo & Hpr)|[(k' & Hr & Hpo & Hf)|[Hr Hsz]]];
    try (done || (Z.div_mod_to_equations; lia)).
  - intros j Hj. rewrite Hadd. split; [by apply Hkva|]. by exists j.
  - left. exists k'. split_and!; [done..|]. intros j Hj. rewrite <- Hadd. by apply Hpr.
  - right. left. by exists k'.
  - by right; right.
Qed.

(** [kmap_mapped] answers for the page table, not for the page: after
    [kmap_map] and [kmap_unmap] of an address it says that the address is
    mapped, although no frame is. *)
Theorem kmap_mapped_after_unmap {St} `{!HalPmap St} (HL : HalPmapLaws St) (va pfn prot old : Z)
    (k k1 : kst St) (Hi : pm_inv (k_mach k)) (Hv : pm_kva va)
    (Hmap : kmap_map va pfn prot k = Ret (old, k1)) :
  ∃ old' k2, kmap_unmap va k1 = Ret (old', k2) ∧ kmap_getpfn va k2 = Ret (PFN_INVALID, k2) ∧
    kmap_mapped va k2 = Ret (true, k2).
Proof.
  unfold kmap_map in Hmap.
  destruct (kmap_map_run va pfn prot true k Hi Hv) as [(s1 & Hr & Hi1 & _ & _ & p & Hp)|(Hr & _)];
    rewrite Hmap in Hr; [|done]. injection Hr as _ ->.
  set (k1 := Kst s1 _).
  destruct (pm_set_ok s1 p va (hal_l1e_box 0 0) Hi1 Hv Hp) as (s2 & Hset & Hi2 & Hs2 & _ & _ & Hp2).
  set (k2 := Kst s2 (ktlbgen_markdirty_on (hal_l1e_tlbop (pm_view s1 va) (hal_l1e_box 0 0)) (k_ktlb k1))).
  exists (mapped_pfn (pm_view s1 va)), k2. split_and!.
  - unfold kmap_unmap.
    mrun (on_mach_run _ k1 _ _ (pm_getl1p_ptr s1 p va Hi1 Hv Hp)).
    mrun (on_mach_run _ (set_mach s1 k1) _ _ Hset). unfold ktlbgen_markdirty. mrun.
    unfold mapped_pfn. by destruct (hal_l1e_unbox _).
  - rewrite kmap_getpfn_run by done. simpl. rewrite Hs2 by done. rewrite decide_True by done.
    by rewrite mapped_pfn_unmap.
  - unfold kmap_mapped.
    mrun (on_mach_run _ k2 _ _ (pm_getl1p_ptr s2 p va Hi2 Hv (Hp2 _ _ Hp))). done.
Qed.
