(* ===== verification/Kva.v ===== *)
(** Kernel virtual addresses (libnux/kva.c): the free ranges of the kernel's
    address space are entries of a zone, kept in a red-black tree by address,
    each allocated from the kernel heap; ranges that are taken are mapped page
    by page. *)

From S2P Require Import Prelude Words Locks Machine Rb Zone.

Definition VADDR_INVALID : Z := 2 ^ 64 - 1.

(** [sizeof (struct vme)]: the node, the links of the list, [addr] and [size].
    The node comes first. *)
Definition SIZEOF_VME : Z := 56.
Definition vme_offset : Z := 0.

(** The rest of the kernel: the heap of kmem.c, the mappings of kmap.c, and where
    the linker and the HAL put things. [heap_vme k p] is what the memory at [p]
    holds, read as a [struct vme]. *)
Class KvaEnv (K : Type) := {
  kmem_alloc : Z → Z → M K Z;
  kmem_free : Z → Z → Z → M K unit;
  heap_vme : K → Z → rb_node * (Z * Z);
  kmap_map : Z → Z → Z → M K Z;
  kmap_unmap : Z → M K Z;
  kmap_commit : M K unit;
  vmap_rbtree : Z;
  vmap_tree_ops : Z;
  hal_virtmem_kvabase : Z;
  hal_virtmem_kvasize : Z;
}.

(** The tree, with the fields [addr] and [size] of the entries that exist, the
    variable [vmap_size], and the rest. *)
Record vmst (K : Type) : Type := Vmst { vm_tree : rbst (gmap Z (Z * Z)); vmap_size : Z; vm_rest : K }.
Arguments Vmst {K} _ _ _.
Arguments vm_tree {K} _.
Arguments vmap_size {K} _.
Arguments vm_rest {K} _.

Definition vme_get (p : Z) : M (gmap Z (Z * Z)) (Z * Z) := f ← gets (lookup p); opt_or Fault f.

Definition vmap_compare_key (n key : Z) : M (gmap Z (Z * Z)) Z :=
  vme ← vme_get n; let '(addr, size) := vme : Z * Z in
  if key <? addr then mret 1
  else if u64 (addr + u64 (size - 1)) <? key then mret (-1)
  else mret 0.

Definition vmap_compare_nodes (n1 n2 : Z) : M (gmap Z (Z * Z)) Z :=
  vmap1 ← vme_get n1; let '(addr1, size1) := vmap1 : Z * Z in
  vmap2 ← vme_get n2; let '(addr2, size2) := vmap2 : Z * Z in
  assertb ((addr1 <? addr2) || (u64 (addr2 + size2) <? addr1));;
  assertb ((addr2 <? addr1) || (u64 (addr1 + size1) <? addr2));;
  if addr1 <? addr2 then mret (-1)
  else if addr2 <? addr1 then mret 1
  else mret 0.

Section kva.
Context {K : Type} `{!KvaEnv K}.

Definition set_tree (t : rbst (gmap Z (Z * Z))) (s : vmst K) : vmst K := Vmst t (vmap_size s) (vm_rest s).
Definition set_vmap_size (n : Z) (s : vmst K) : vmst K := Vmst (vm_tree s) n (vm_rest s).
Definition set_rest (k : K) (s : vmst K) : vmst K := Vmst (vm_tree s) (vmap_size s) k.
Definition on_tree {B} (m : M (rbst (gmap Z (Z * Z))) B) : M (vmst K) B := zoom vm_tree set_tree m.
Definition on_rest {B} (m : M K B) : M (vmst K) B := zoom vm_rest set_rest m.

(** The searches of the tree end after as many steps as it has nodes. *)
Definition vm_fuel : M (vmst K) nat := gets (λ s, S (size (rb_env (vm_tree s)))).

Definition vme_fields (p : Z) : M (vmst K) (Z * Z) := on_tree (on_rb_env (vme_get p)).

(** Memory that the heap has given out becomes an entry, and one that is given
    back ceases to be one. *)
Definition new_vme (p : Z) : M (vmst K) unit :=
  k ← gets vm_rest; let '(n, f) := heap_vme k p in
  modify (λ s, let t := vm_tree s in set_tree (Rbst (<[p := n]> (rb_mem t)) (rbt_max t) (<[p := f]> (rb_env t))) s).
Definition drop_vme (p : Z) : M (vmst K) unit :=
  modify (λ s, let t := vm_tree s in set_tree (Rbst (delete p (rb_mem t)) (rbt_max t) (delete p (rb_env t))) s).

(** [vme->addr = start; vme->size = len] through the pointer [p]. *)
Definition vme_set (p start len : Z) : M (vmst K) unit :=
  on_tree (on_rb_env (vme_get p;; modify (<[p := (start, len)]>))).

Definition vmap_remove (vme : Z) : M (vmst K) unit :=
  fuel ← vm_fuel;
  on_tree (rb_tree_remove_node vmap_rbtree vme_offset fuel vme);;
  f ← vme_fields vme; let '(addr, size) := f : Z * Z in
  n ← gets vmap_size;
  modify (set_vmap_size (u64 (n - size)));;
  drop_vme vme;;
  on_rest (kmem_free 0 vme SIZEOF_VME).

Definition vmap_find (va : Z) : M (vmst K) Z :=
  fuel ← vm_fuel; on_tree (rb_tree_find_node vmap_rbtree vme_offset vmap_compare_key fuel va).

(** The pointer is used without a check: where the heap has no memory, it does
    not point to any. *)
Definition vmap_insert (start len : Z) : M (vmst K) Z :=
  vme ← on_rest (kmem_alloc 0 SIZEOF_VME);
  when (negb (vme =? VADDR_INVALID)) (new_vme vme);;
  vme_set vme start len;;
  fuel ← vm_fuel;
  on_tree (rb_tree_insert_node vmap_rbtree vme_offset vmap_compare_nodes fuel vme);;
  f ← vme_fields vme; let '(addr, size) := f : Z * Z in
  n ← gets vmap_size;
  modify (set_vmap_size (u64 (n + size)));;
  mret vme.

Definition found_vme (p : Z) : option Z := if p =? 0 then None else Some p.

Definition ___get_neighbors (addr size opq : Z) : M (vmst K) (option Z * option Z) :=
  let end_ := u64 (addr + size) in
  pv ← (if addr =? 0 then mret None else pvme ← vmap_find (u64 (addr - 1)); mret (found_vme pvme));
  nvme ← vmap_find end_;
  mret (pv, found_vme nvme).

Definition ___mkptr (addr size opq : Z) : M (vmst K) Z := vmap_insert addr size.

Definition ___freeptr (vme opq : Z) : M (vmst K) unit := vmap_remove vme.

#[global] Instance vmap_zone_env : ZoneEnv (vmst K) := {|
  ze_fields := vme_fields;
  mkptr := ___mkptr;
  freeptr := ___freeptr;
  get_neighbors := ___get_neighbors;
|}.

(** [vmap_zone] with its entries, and [vmap_lock], [kvabase], [kvasize]. *)
Record kvst : Type := Kvst { kv_zone : zst (vmst K); vmap_lock : bool; kvabase : Z; kvasize : Z }.

Definition set_kv_zone (z : zst (vmst K)) (s : kvst) : kvst := Kvst z (vmap_lock s) (kvabase s) (kvasize s).
Definition set_vmap_lock (b : bool) (s : kvst) : kvst := Kvst (kv_zone s) b (kvabase s) (kvasize s).
Definition on_zone {B} (m : M (zst (vmst K)) B) : M kvst B := zoom kv_zone set_kv_zone m.
Definition on_kernel {B} (m : M K B) : M kvst B := on_zone (on_env (on_rest m)).

Definition kva_alloc (size : Z) : M kvst Z :=
  let pgsz := round_page size in
  spinlock vmap_lock set_vmap_lock;;
  va ← on_zone (zone_alloc pgsz);
  spinunlock set_vmap_lock;;
  mret (if va =? 0 then VADDR_INVALID else va).

Definition kva_free (va size : Z) : M kvst unit :=
  let va := trunc_page va in
  let size := round_page size in
  spinlock vmap_lock set_vmap_lock;;
  on_zone (zone_free va size);;
  spinunlock set_vmap_lock.

Definition kva_map (pfn prot : Z) : M kvst Z :=
  va ← kva_alloc PAGE_SIZE;
  if va =? VADDR_INVALID then mret 0
  else
    on_kernel (kmap_map va pfn prot);;
    on_kernel kmap_commit;;
    mret va.

(** [no] and [i] are [unsigned], and [no * PAGE_SIZE] is too. *)
Definition kva_physmap (paddr size prot : Z) : M kvst Z :=
  let pfn := Z.shiftr paddr PAGE_SHIFT in
  let no := u32 (Z.shiftr (round_page (u64 (Z.land paddr PAGE_MASK + size))) PAGE_SHIFT) in
  va ← kva_alloc (u32 (no * PAGE_SIZE));
  if va =? VADDR_INVALID then mret 0
  else
    for_each (seqZ 0 no) (λ i, on_kernel (kmap_map (u64 (va + u32 (i * PAGE_SIZE))) (u64 (pfn + i)) prot);; mret tt);;
    on_kernel kmap_commit;;
    mret (u64 (va + Z.land paddr PAGE_MASK)).

Definition kva_unmap (ptr size : Z) : M kvst unit :=
  let vaddr := ptr in
  let no := u32 (Z.shiftr (round_page (u64 (Z.land vaddr PAGE_MASK + size))) PAGE_SHIFT) in
  let vaddr := trunc_page vaddr in
  for_each (seqZ 0 no) (λ i, on_kernel (kmap_unmap (u64 (vaddr + u32 (i * PAGE_SIZE))));; mret tt);;
  on_kernel kmap_commit;;
  kva_free vaddr (u32 (no * PAGE_SIZE)).

Definition kvainit : M kvst unit :=
  on_zone (on_env (on_tree (rb_tree_init vmap_rbtree vmap_tree_ops)));;
  on_zone (zone_init 0);;
  spinlock_init set_vmap_lock;;
  on_zone (on_env (modify (set_vmap_size 0)));;
  modify (λ s, Kvst (kv_zone s) (vmap_lock s) hal_virtmem_kvabase hal_virtmem_kvasize);;
  kva_free hal_virtmem_kvabase hal_virtmem_kvasize.

End kva.
Arguments kvst : clear implicits.
