(* ===== verification/KvaInv.v ===== *)
(** The entries of kva.c are what the zone allocator asks for: a tree of ranges
    by address, with neighbours found by searching it. *)

From stdpp Require Import sorting.
From S2P Require Import Prelude Words Locks Machine Rb RbMem RbRotate RbOps RbPrune RbSwap RbTheorems Zone Kva.

(** * What the rest of the kernel promises *)

(** Pages of the area that kva.c manages. *)
Definition kva_range {K} `{!KvaEnv K} (a s : Z) : Prop :=
  hal_virtmem_kvabase ≤ a ∧ 0 < s ∧ a + s ≤ hal_virtmem_kvabase + hal_virtmem_kvasize ∧ (4096 | a) ∧ (4096 | s).

Definition kva_page {K} `{!KvaEnv K} (va : Z) : Prop := kva_range va 4096.

(** [kv_inv k B]: [B] are the entries that the heap has given out. [kv_can]: the
    heap has memory for one more. [kv_addr]: where they can be. [kv_view]: the page
    table entries of the pages of the area, and [kv_frames] how many free frames
    there are. *)
Class KvaEnvLaws (K : Type) `{!KvaEnv K} := {
  kv_inv : K → gset Z → Prop;
  kv_can : K → Prop;
  kv_addr : Z → Prop;
  kv_view : K → Z → Z;
  kv_frames : K → nat;
  kv_box : Z → Z → Z;
  kv_none : Z → Prop;
  kv_area_ok : 0 < hal_virtmem_kvabase ∧ 0 < hal_virtmem_kvasize < 2 ^ 63 ∧
    hal_virtmem_kvabase + hal_virtmem_kvasize < 2 ^ 64 ∧ (4096 | hal_virtmem_kvabase) ∧ (4096 | hal_virtmem_kvasize);
  kv_tree_ok : aligned vmap_rbtree ∧ vmap_rbtree ≠ 0;
  kv_addr_ok p : kv_addr p → aligned p ∧ p ≠ 0 ∧ p ≠ VADDR_INVALID ∧ p ≠ vmap_rbtree;
  kv_alloc_ok k B : kv_inv k B → kv_can k →
    ∃ p k', kmem_alloc 0 SIZEOF_VME k = Ret (p, k') ∧ p ∉ B ∧ kv_addr p ∧ kv_inv k' ({[p]} ∪ B) ∧
      ∀ va, kva_page va → kv_view k' va = kv_view k va;
  kv_free_ok k B p : kv_inv k B → p ∈ B →
    ∃ k', kmem_free 0 p SIZEOF_VME k = Ret (tt, k') ∧ kv_inv k' (B ∖ {[p]}) ∧ kv_can k' ∧
      ∀ va, kva_page va → kv_view k' va = kv_view k va;
  kv_map_ok k B va pfn prot : kv_inv k B → kva_page va →
    (∃ r k', kmap_map va pfn prot k = Ret (r, k') ∧ kv_inv k' B ∧ (kv_can k → kv_can k') ∧
       kv_view k' va = kv_box pfn prot ∧ (kv_frames k ≤ kv_frames k' + 3)%nat ∧
       ∀ va', kva_page va' → va' ≠ va → kv_view k' va' = kv_view k va') ∨
    (kmap_map va pfn prot k = Abort AssertFail ∧ (kv_frames k < 3)%nat);
  kv_unmap_ok k B va : kv_inv k B → kva_page va →
    ∃ r k', kmap_unmap va k = Ret (r, k') ∧ kv_inv k' B ∧ (kv_can k → kv_can k') ∧ kv_none (kv_view k' va) ∧
      ∀ va', kva_page va' → va' ≠ va → kv_view k' va' = kv_view k va';
  kv_commit_ok k B : kv_inv k B →
    ∃ k', kmap_commit k = Ret (tt, k') ∧ kv_inv k' B ∧ (kv_can k → kv_can k') ∧
      ∀ va, kva_page va → kv_view k' va = kv_view k va;
}.

(** * Memory of nodes *)

Lemma own_add h L p n : own h L → p ∉ L.*1 → aligned p → p ≠ 0 → own (<[p := n]> h) (L ++ [(p, n)]).
Proof.
  intros [H1 H2 H3] Hp Ha H0. split.
  - rewrite fmap_app. apply NoDup_app. split; [done|]. split; [|apply NoDup_singleton]. intros q Hq ->%list_elem_of_singleton. done.
  - intros c [Hc|Hc%list_elem_of_singleton]%elem_of_app; [|subst; apply lookup_insert_eq].
    rewrite lookup_insert_ne; [by apply H2|]. intros ->. apply Hp. by apply (list_elem_of_fmap_2 fst).
  - intros c [Hc|Hc%list_elem_of_singleton]%elem_of_app; [by apply H3|by subst].
Qed.

Lemma own_del h L p n : own h (L ++ [(p, n)]) → own (delete p h) L.
Proof.
  intros Ho. pose proof Ho as [H1 H2 H3]. split.
  - by eapply own_app_l in Ho as [? _ _].
  - intros c Hc. rewrite lookup_delete_ne; [apply H2, elem_of_app; by left|]. intros ->.
    rewrite fmap_app in H1. apply NoDup_app in H1 as (_ & H1 & _). apply (H1 (c.1)); [by apply (list_elem_of_fmap_2 fst)|]. cbn. by left.
  - intros c Hc. apply H3, elem_of_app. by left.
Qed.

Section rep.
Context {E : Type} (rbt ops : Z).
Implicit Types s : rbst E.

Lemma rep_ext s s' T R : rb_mem s' = rb_mem s → rbt_max s' = rbt_max s → rep rbt ops s T R → rep rbt ops s' T R.
Proof. intros Hm Hx [Hw Hrb]. split; [|done]. by rewrite Hm, Hx. Qed.

Lemma rep_add s (e : E) T p n : rep rbt ops s T [] → p ∉ elems T → p ≠ rbt → aligned p → p ≠ 0 →
  rep rbt ops (Rbst (<[p := n]> (rb_mem s)) (rbt_max s) e) T [(p, n)].
Proof.
  intros [(mn & Ho & Hmm) Hrb] Hp Hr Ha H0. split; [|done]. exists mn. split; [|done]. rewrite app_nil_r in Ho. apply own_add; try done.
  unfold tree_cells. rewrite fmap_app, elems_cells, elem_of_app. cbn. rewrite list_elem_of_singleton. tauto.
Qed.

Lemma rep_drop s (e : E) T p n : rep rbt ops s T [(p, n)] → rep rbt ops (Rbst (delete p (rb_mem s)) (rbt_max s) e) T [].
Proof. intros [(mn & Ho & Hmm) Hrb]. split; [|done]. exists mn. split; [|done]. rewrite app_nil_r. by eapply own_del. Qed.

End rep.

(** * The entries *)

(** The nodes in order: each range ends before the next begins, with a gap. *)
Definition before (F : entries) (p q : Z) : Prop :=
  ∀ a s a' s', F !! p = Some (a, s) → F !! q = Some (a', s') → a + s < a'.

Section entries.
Context {K : Type} `{!KvaEnv K, !KvaEnvLaws K}.
Implicit Types (e : vmst K) (F : entries).

Record vm_ok e F : Prop := {
  vo_fields : rb_env (vm_tree e) = F;
  vo_tree : ∃ T, rep vmap_rbtree vmap_tree_ops (vm_tree e) T [] ∧
    (∀ p, p ∈ elems T ↔ is_Some (F !! p)) ∧ StronglySorted (before F) (elems T);
  vo_heap : kv_inv (vm_rest e) (dom F);
  vo_addr p : is_Some (F !! p) → kv_addr p;
  vo_area p a s : F !! p = Some (a, s) → kva_range a s;
  vo_size : vmap_size e = u64 (total F);
}.

Lemma kva_range_ok a s : kva_range a s → 0 < a ∧ 0 < s < 2 ^ 63 ∧ a + s < 2 ^ 64.
Proof. destruct kv_area_ok as (? & ? & ? & _). intros (? & ? & ? & _). lia. Qed.

Lemma on_tree_run {B} (m : M (rbst (gmap Z (Z * Z))) B) e b t : m (vm_tree e) = Ret (b, t) → on_tree m e = Ret (b, set_tree t e).
Proof. intros Hm. unfold on_tree, zoom. by rewrite Hm. Qed.

Lemma on_rest_run {B} (m : M K B) e b k : m (vm_rest e) = Ret (b, k) → on_rest m e = Ret (b, set_rest k e).
Proof. intros Hm. unfold on_rest, zoom. by rewrite Hm. Qed.

Lemma set_tree_id e : set_tree (vm_tree e) e = e.
Proof. by destruct e. Qed.

Lemma vme_get_run F p f : F !! p = Some f → vme_get p F = Ret (f, F).
Proof. intros Hp. unfold vme_get. mrun. by rewrite Hp. Qed.

Lemma vme_fields_run e F p f : rb_env (vm_tree e) = F → F !! p = Some f → vme_fields p e = Ret (f, e).
Proof.
  intros <- Hp. unfold vme_fields. rewrite (on_tree_run _ e f (vm_tree e)); [by rewrite set_tree_id|]. apply on_rb_env_run, vme_get_run, Hp.
Qed.

Lemma vme_set_run e p a s f : rb_env (vm_tree e) !! p = Some f →
  vme_set p a s e = Ret (tt, set_tree (set_rb_env (<[p := (a, s)]> (rb_env (vm_tree e))) (vm_tree e)) e).
Proof.
  intros Hp. unfold vme_set. apply on_tree_run. unfold on_rb_env, zoom. by mrun (vme_get_run _ p f Hp).
Qed.

(** A tree with [n] entries has [n] nodes. *)
Lemma nodes_count (h : gmap Z rb_node) mn T R F :
  own h (tree_cells vmap_rbtree vmap_tree_ops mn T ++ R) → (∀ p, p ∈ elems T ↔ is_Some (F !! p)) → length (elems T) = size F.
Proof.
  intros Ho Hin. pose proof (own_elems _ _ _ _ _ _ Ho) as Hnd. rewrite <- size_dom. rewrite <- (size_list_to_set (C := gset Z) (elems T)) by done.
  f_equal. apply set_eq. intros p. by rewrite elem_of_list_to_set, elem_of_dom.
Qed.

(** ** Searching *)

Definition key_diff F (key p : Z) : Z :=
  match F !! p with
  | Some (a, s) => if key <? a then 1 else if a + s - 1 <? key then -1 else 0
  | None => 0
  end.

Lemma item_id p : aligned p → RB_NODETOITEM vme_offset p = p.
Proof. intros [Hp _]. unfold RB_NODETOITEM, vme_offset. rewrite Z.sub_0_r. by apply u64_small. Qed.

Lemma key_diff_run F key p a s : F !! p = Some (a, s) → kva_range a s → vmap_compare_key p key F = Ret (key_diff F key p, F).
Proof.
  intros Hp Hr%kva_range_ok. unfold vmap_compare_key, key_diff. mrun (vme_get_run F p _ Hp). rewrite Hp.
  rewrite (u64_small (s - 1)), (u64_small (a + (s - 1))) by (unfold word64; lia).
  replace (a + (s - 1)) with (a + s - 1) by lia. by destruct (key <? a), (a + s - 1 <? key).
Qed.

Lemma key_searchable F key (l : list Z) : (∀ p, p ∈ l → ∃ a s, F !! p = Some (a, s) ∧ kva_range a s) →
    StronglySorted (before F) l → searchable (key_diff F key) l.
Proof.
  intros Hin Hs. unfold searchable. induction Hs as [|p l Hs IH Hp]; [constructor|]. constructor; [apply IH; set_solver|].
  rewrite Forall_forall in Hp |- *. intros q Hq. specialize (Hp q Hq). unfold key_diff.
  destruct (Hin p) as (a & s & Ha & (_ & ? & _)); [set_solver|]. destruct (Hin q) as (a' & s' & Ha' & (_ & ? & _)); [set_solver|].
  specialize (Hp _ _ _ _ Ha Ha').
  rewrite Ha, Ha'. destruct (Z.ltb_spec key a), (Z.ltb_spec (a + s - 1) key), (Z.ltb_spec key a'), (Z.ltb_spec (a' + s' - 1) key); lia.
Qed.

Lemma vmap_find_run e F va : vm_ok e F →
  ∃ r, vmap_find va e = Ret (r, e) ∧
    match found_vme r with
    | Some p => ∃ a s, F !! p = Some (a, s) ∧ a ≤ va < a + s
    | None => ∀ p a s, F !! p = Some (a, s) → ¬ (a ≤ va < a + s)
    end.
Proof.
  intros [Hf (T & Hrep & Hin & Hs) _ Haddr Harea _].
  assert (∀ p, p ∈ elems T → ∃ a s, F !! p = Some (a, s) ∧ kva_range a s ∧ RB_NODETOITEM vme_offset p = p ∧ p ≠ 0) as Hel.
  { intros p Hp. apply Hin in Hp as Hp'. destruct Hp' as [[a s] Ha]. exists a, s. split_and!; [done|by eapply Harea|..];
      destruct (kv_addr_ok p) as (? & ? & _); [apply Haddr; eauto|by apply item_id|apply Haddr; eauto|done]. }
  assert (length (elems T) = size F) as Hlen by (destruct Hrep as [(mn & Ho & _) _]; by eapply nodes_count).
  assert (compares vme_offset vmap_compare_key (rb_env (vm_tree e)) va (key_diff F va) (elems T)) as Hc.
  { intros p Hp. destruct (Hel p Hp) as (a & s & Ha & Hr & Hi & _). rewrite Hf, Hi. by eapply key_diff_run. }
  assert (searchable (key_diff F va) (elems T)) as Hsr.
  { apply key_searchable; [|done]. intros p Hp. destruct (Hel p Hp) as (a & s & ? & ? & _). eauto. }
  pose proof (find_run vmap_rbtree vmap_tree_ops vme_offset vmap_compare_key (S (size F)) (vm_tree e) T [] va _ Hrep Hc Hsr ltac:(lia)) as Hfind.
  eexists. split.
  - unfold vmap_find, vm_fuel. mrun. rewrite Hf. rewrite (on_tree_run _ e _ _ Hfind). by rewrite set_tree_id.
  - unfold found. destruct (filter (λ p, key_diff F va p = 0) (elems T)) as [|p l] eqn:Hfl; cbn [head from_option].
    + change (found_vme NULL) with (None (A := Z)). cbn match. intros p a s Hp Hx.
      assert (p ∈ filter (λ p, key_diff F va p = 0) (elems T)) as Hp'; [|rewrite Hfl in Hp'; by apply not_elem_of_nil in Hp'].
      apply list_elem_of_filter. split; [|apply Hin; eauto]. unfold key_diff. rewrite Hp.
      by rewrite (proj2 (Z.ltb_ge _ _)), (proj2 (Z.ltb_ge _ _)) by lia.
    + assert (p ∈ filter (λ p, key_diff F va p = 0) (elems T)) as [Hd Hp]%list_elem_of_filter by (rewrite Hfl; left).
      destruct (Hel p Hp) as (a & s & Ha & _ & -> & H0). unfold found_vme. rewrite (proj2 (Z.eqb_neq p 0) H0). exists a, s. split; [done|].
      unfold key_diff in Hd. rewrite Ha in Hd. destruct (Z.ltb_spec va a), (Z.ltb_spec (a + s - 1) va); lia.
Qed.

(** An address is in one entry only. *)
Lemma same_entry e F p q x a s a' s' : vm_ok e F → F !! p = Some (a, s) → F !! q = Some (a', s') →
  a ≤ x < a + s → a' ≤ x < a' + s' → p = q.
Proof.
  intros [_ (T & _ & Hin & Hs) _ _ _ _] Hp Hq Hx Hx'. destruct (decide (p = q)) as [|Hne]; [done|exfalso].
  assert (p ∈ elems T) as (l1 & l2 & He)%list_elem_of_split by (apply Hin; eauto).
  assert (q ∈ elems T) as Hqe by (apply Hin; eauto). rewrite He in Hs, Hqe. apply StronglySorted_app in Hs as (Hlp & _ & Hpr).
  apply StronglySorted_inv in Hpr as [_ Hpr]. rewrite Forall_forall in Hpr. apply elem_of_app in Hqe as [Hqe|[->|Hqe]%elem_of_cons]; [|done|].
  - specialize (Hlp q p Hqe (list_elem_of_here _ _) _ _ _ _ Hq Hp). lia.
  - specialize (Hpr q Hqe _ _ _ _ Hp Hq). lia.
Qed.

Lemma neighbors_run e F a s : vm_ok e F → kva_range a s → (∀ p r, F !! p = Some r → apart 0 (a, s) r) →
  ∃ pn nn, ___get_neighbors a s 0 e = Ret ((pn, nn), e) ∧
    (∀ p, pn = Some p → ∃ a' s', F !! p = Some (a', s') ∧ a' + s' = a) ∧
    (∀ p, nn = Some p → ∃ s', F !! p = Some (a + s, s')) ∧
    ∀ p a' s', F !! p = Some (a', s') → (a' + s' = a → pn = Some p) ∧ (a' = a + s → nn = Some p).
Proof.
  intros Hok Hr Hap. pose proof (kva_range_ok _ _ Hr) as Hrg. unfold ___get_neighbors. rewrite (proj2 (Z.eqb_neq a 0)) by lia.
  rewrite (u64_small (a + s)), (u64_small (a - 1)) by (unfold word64; lia).
  destruct (vmap_find_run e F (a - 1) Hok) as (r1 & Hr1 & H1). destruct (vmap_find_run e F (a + s) Hok) as (r2 & Hr2 & H2).
  assert (∀ p a' s', F !! p = Some (a', s') → 0 < s' ∧ (a + s ≤ a' ∨ a' + s' ≤ a)) as Hp.
  { intros p a' s' Hp. pose proof (Hap p _ Hp) as Ha. pose proof (vo_area _ _ Hok p a' s' Hp) as (_ & ? & _). unfold apart in Ha. cbn in Ha. lia. }
  exists (found_vme r1), (found_vme r2). split_and!.
  - rewrite bind_assoc. mrun Hr1. by mrun Hr2.
  - intros p Hp1. rewrite Hp1 in H1. destruct H1 as (a' & s' & Ha & Hx). exists a', s'. split; [done|]. specialize (Hp _ _ _ Ha). lia.
  - intros p Hp2. rewrite Hp2 in H2. destruct H2 as (a' & s' & Ha & Hx). specialize (Hp _ _ _ Ha). exists s'. by replace (a + s) with a' by lia.
  - intros p a' s' Ha. pose proof (Hp _ _ _ Ha) as Hpa. split; intros Heq.
    + destruct (found_vme r1) as [q|]; [|by destruct (H1 p a' s' Ha); lia]. destruct H1 as (b & t & Hb & Hx). f_equal.
      apply (same_entry e F q p (a - 1) b t a' s'); [done..|lia].
    + destruct (found_vme r2) as [q|]; [|by destruct (H2 p a' s' Ha); lia]. destruct H2 as (b & t & Hb & Hx). f_equal.
      apply (same_entry e F q p (a + s) b t a' s'); [done..|lia].
Qed.

(** ** Insertion *)

Definition vm_keep e e' : Prop := ∀ va, kva_page va → kv_view (vm_rest e') va = kv_view (vm_rest e) va.

Definition node_diff F (a p : Z) : Z := match F !! p with Some (b, _) => if b <? a then -1 else 1 | None => 1 end.

Lemma node_diff_other F p r a q : q ≠ p → node_diff (<[p := r]> F) a q = node_diff F a q.
Proof. intros Hne. unfold node_diff. by rewrite lookup_insert_ne. Qed.

Lemma node_diff_run F p q a s b t : F !! q = Some (b, t) → F !! p = Some (a, s) → kva_range a s → kva_range b t → apart 1 (a, s) (b, t) →
  vmap_compare_nodes q p F = Ret (node_diff F a q, F).
Proof.
  intros Hq Hp Ha%kva_range_ok Hb%kva_range_ok Hap. unfold vmap_compare_nodes, node_diff. mrun (vme_get_run F q _ Hq).
  mrun (vme_get_run F p _ Hp). rewrite Hq. rewrite (u64_small (a + s)), (u64_small (b + t)) by (unfold word64; lia).
  unfold apart in Hap. cbn in Hap. destruct (Z.ltb_spec b a), (Z.ltb_spec a b), (Z.ltb_spec (a + s) b), (Z.ltb_spec (b + t) a); try lia; done.
Qed.

Lemma node_searchable F a (l : list Z) : (∀ p, p ∈ l → ∃ b t, F !! p = Some (b, t) ∧ 0 < t) → StronglySorted (before F) l →
  searchable (node_diff F a) l.
Proof.
  intros Hin Hs. unfold searchable. induction Hs as [|p l Hs IH Hp]; [constructor|]. constructor; [apply IH; set_solver|].
  rewrite Forall_forall in Hp |- *. intros q Hq. specialize (Hp q Hq). unfold node_diff.
  destruct (Hin p) as (b & t & Hb & ?); [set_solver|]. destruct (Hin q) as (b' & t' & Hb' & ?); [set_solver|].
  specialize (Hp _ _ _ _ Hb Hb'). rewrite Hb, Hb'. destruct (Z.ltb_spec b a), (Z.ltb_spec b' a); lia.
Qed.

(** The entries in order, with one more. *)
Lemma before_other F p r (l : list Z) : p ∉ l → StronglySorted (before F) l → StronglySorted (before (<[p := r]> F)) l.
Proof.
  intros Hl Hsl. induction Hsl as [|q l Hsl IH Hq]; [constructor|]. constructor; [apply IH; set_solver|]. rewrite Forall_forall in Hq |- *.
  intros q' Hq' b t b' t'. rewrite !lookup_insert_ne by set_solver. by apply Hq.
Qed.

Lemma before_insert F p a s (l1 l2 : list Z) : p ∉ l1 ++ l2 → (∀ q b t, q ∈ l1 ++ l2 → F !! q = Some (b, t) → apart 1 (a, s) (b, t) ∧ 0 < t) → 0 < s →
  (∀ q, q ∈ l1 ++ l2 → is_Some (F !! q)) → StronglySorted (before F) (l1 ++ l2) →
  Forall (λ q, node_diff F a q < 0) l1 → Forall (λ q, 0 < node_diff F a q) l2 →
  StronglySorted (before (<[p := (a, s)]> F)) (l1 ++ p :: l2).
Proof.
  intros Hp Hap Hs0 Hin Hs H1 H2. set (F' := <[p := (a, s)]> F). rewrite Forall_forall in H1, H2.
  apply StronglySorted_app in Hs as (H12 & Hs1 & Hs2). apply StronglySorted_app. split_and!.
  - intros q q' Hq Hq' b t b' t'. unfold F'. rewrite lookup_insert_ne by set_solver. intros Hb. apply elem_of_cons in Hq' as [->|Hq'].
    + rewrite lookup_insert_eq. intros [= <- <-]. specialize (H1 q Hq).
      destruct (Hap q b t) as [Ha ?]; [set_solver|done|]. unfold node_diff in H1. rewrite Hb in H1.
      unfold apart in Ha. cbn in Ha. destruct (Z.ltb_spec b a); lia.
    + rewrite lookup_insert_ne by set_solver. intros Hb'. exact (H12 q q' Hq Hq' _ _ _ _ Hb Hb').
  - apply before_other; [set_solver|done].
  - constructor; [apply before_other; [set_solver|done]|]. apply Forall_forall. intros q Hq b t b' t'. unfold F'.
    rewrite lookup_insert_eq, lookup_insert_ne by set_solver.
    intros [= <- <-] Hb. specialize (H2 q Hq). destruct (Hap q b' t') as [Ha ?]; [set_solver|done|]. unfold node_diff in H2. rewrite Hb in H2.
    unfold apart in Ha. cbn in Ha. destruct (Z.ltb_spec b' a); lia.
Qed.

Lemma vmap_insert_run e F a s : vm_ok e F → kv_can (vm_rest e) → kva_range a s → (∀ p r, F !! p = Some r → apart 1 (a, s) r) →
  ∃ p e', vmap_insert a s e = Ret (p, e') ∧ F !! p = None ∧ vm_ok e' (<[p := (a, s)]> F) ∧ vm_keep e e'.
Proof.
  intros Hok Hcan Hr Hap. pose proof Hok as [Hf (T & Hrep & Hin & Hs) Hh Haddr Harea Hsz].
  destruct (kv_alloc_ok _ _ Hh Hcan) as (p & k' & Hal & Hfresh & Hpa & Hh' & Hk). destruct (kv_addr_ok p Hpa) as (Hpal & Hp0 & Hpi & Hpt).
  apply not_elem_of_dom in Hfresh as HFp. destruct (heap_vme k' p) as [n f] eqn:Hn. set (F' := <[p := (a, s)]> F).
  assert (p ∉ elems T) as HpT by (rewrite Hin, HFp; by intros []).
  set (t1 := Rbst (<[p := n]> (rb_mem (vm_tree e))) (rbt_max (vm_tree e)) F').
  assert (rep vmap_rbtree vmap_tree_ops t1 T [(p, n)]) as Hrep1 by (by apply rep_add).
  assert (∀ q, q ∈ elems T → ∃ b t, F !! q = Some (b, t) ∧ F' !! q = Some (b, t) ∧ apart 1 (a, s) (b, t) ∧
    kva_range b t ∧ RB_NODETOITEM vme_offset q = q) as Hq.
  { intros q Hq. destruct (proj1 (Hin q) Hq) as [[b t] Hb]. exists b, t. unfold F'. rewrite lookup_insert_ne by congruence.
    split_and!; [done|done|by eapply Hap|by eapply Harea|]. apply item_id, kv_addr_ok, Haddr. eauto. }
  assert (compares_nodes vme_offset vmap_compare_nodes F' p (node_diff F' a) (elems T)) as Hc.
  { intros q Hqe. destruct (Hq q Hqe) as (b & t & _ & Hb & Hapq & Hrq & ->). eapply node_diff_run; [exact Hb|apply lookup_insert_eq|done..]. }
  assert (StronglySorted (before F') (elems T)) as HsF' by (by apply before_other).
  assert (searchable (node_diff F' a) (elems T)) as Hsr.
  { apply node_searchable; [|done]. intros q Hqe. destruct (Hq q Hqe) as (b & t & _ & Hb & _ & (_ & ? & _) & _). eauto. }
  assert (length (elems T) = size F) as Hlen by (destruct Hrep as [(mn & Ho & _) _]; by eapply nodes_count).
  assert (size F' = S (size F)) as HszF by (by apply map_size_insert_None).
  assert (RB_ITEMTONODE vme_offset p = p) as Hpn by (unfold RB_ITEMTONODE, vme_offset; rewrite Z.add_0_r; apply u64_small, Hpal).
  pose proof (wp_insert_node vmap_rbtree vmap_tree_ops vme_offset vmap_compare_nodes (S (size F')) t1 T [] p n (node_diff F' a)) as Hins.
  cbn zeta in Hins. rewrite Hpn in Hins. specialize (Hins Hrep1 Hc Hsr ltac:(lia)). apply wp_elim in Hins as (r & t2 & Hrun & Hres).
  destruct Hres as [(q & Hqe & Hd & _)|(_ & Henv & T' & l1 & l2 & Hrep2 & He & He' & Hl1 & Hl2)].
  { exfalso. destruct (Hq q Hqe) as (b & t & _ & Hb & _). unfold node_diff in Hd. rewrite Hb in Hd. by destruct (b <? a). }
  exists p, (Vmst t2 (u64 (vmap_size e + s)) k'). split_and!; [|done|split|done].
  - unfold vmap_insert. mrun (on_rest_run _ e _ _ Hal). rewrite (proj2 (Z.eqb_neq _ _) Hpi). cbn [negb when].
    unfold new_vme at 1. rewrite bind_assoc. mrun. cbn [vm_rest set_rest]. rewrite Hn. mrun.
    mrun (vme_set_run (set_tree (Rbst (<[p := n]> (rb_mem (vm_tree e))) (rbt_max (vm_tree e))
      (<[p := f]> (rb_env (vm_tree e)))) (set_rest k' e)) p a s f (lookup_insert_eq _ _ _)).
    unfold vm_fuel. mrun. cbn [set_tree vm_tree vm_rest vmap_size set_rest rb_env rb_mem rbt_max]. rewrite insert_insert_eq, Hf. fold F'. fold t1.
    mrun (on_tree_run _ (Vmst t1 (vmap_size e) k') _ _ Hrun). mrun (vme_fields_run (Vmst t2 (vmap_size e) k') F' p (a, s) Henv (lookup_insert_eq _ _ _)). done.
  - cbn. by rewrite Henv.
  - cbn. exists T'. split; [done|]. split.
    + intros q. rewrite He'. unfold F'. rewrite elem_of_app, elem_of_cons. destruct (decide (p = q)) as [->|Hne].
      * rewrite lookup_insert_eq. split; [by eauto|by right; left].
      * rewrite lookup_insert_ne, <- Hin, He, elem_of_app by done. split; [intros [?|[?|?]]|intros [?|?]]; by eauto.
    + rewrite He'. unfold F'. rewrite He in *.
      eapply before_insert; [done| |by destruct Hr as (_ & ? & _)|by intros q ?%Hin|done|..].
      * intros q b t Hqe Hb. destruct (Hq q Hqe) as (b' & t' & Hb' & _ & ? & (_ & ? & _) & _). by simplify_eq.
      * apply Forall_forall. intros q Hq1. rewrite <- (node_diff_other F p (a, s)) by (intros ->; apply HpT, elem_of_app; by left).
        rewrite Forall_forall in Hl1. by apply Hl1.
      * apply Forall_forall. intros q Hq2. rewrite <- (node_diff_other F p (a, s)) by (intros ->; apply HpT, elem_of_app; by right).
        rewrite Forall_forall in Hl2. by apply Hl2.
  - cbn. unfold F'. by rewrite dom_insert_L.
  - intros q. unfold F'. rewrite lookup_insert_is_Some. intros [<-|[_ Hq']]; [done|by apply Haddr].
  - intros q b t. unfold F'. rewrite lookup_insert_Some. intros [[<- [= <- <-]]|[_ Hb]]; [done|by eapply Harea].
  - cbn. unfold F'. rewrite ztotal_insert, Hsz by done. unfold u64. cbn. rewrite Zplus_mod_idemp_l. f_equal. lia.
Qed.

(** ** Removal *)

Lemma before_delete F p (l : list Z) : StronglySorted (before F) l → StronglySorted (before (delete p F)) l.
Proof.
  intros Hs. induction Hs as [|q l Hs IH Hq]; constructor; [done|]. eapply Forall_impl; [exact Hq|].
  intros q' Hb a s a' s' [_ H1]%lookup_delete_Some [_ H2]%lookup_delete_Some. by apply (Hb a s a' s').
Qed.

Lemma vmap_remove_run e F p a s : vm_ok e F → F !! p = Some (a, s) →
  ∃ e', vmap_remove p e = Ret (tt, e') ∧ vm_ok e' (delete p F) ∧ kv_can (vm_rest e') ∧ vm_keep e e'.
Proof.
  intros Hok Hp. pose proof Hok as [Hf (T & Hrep & Hin & Hs) Hh Haddr Harea Hsz].
  destruct (kv_addr_ok p) as (Hpal & Hp0 & _ & _); [apply Haddr; eauto|].
  destruct (kv_free_ok _ _ p Hh) as (k' & Hfr & Hh' & Hcan & Hk); [apply elem_of_dom; eauto|].
  assert (p ∈ elems T) as (l1 & l2 & He)%list_elem_of_split by (apply Hin; eauto).
  assert (length (elems T) = size F) as Hlen by (destruct Hrep as [(mn & Ho & _) _]; by eapply nodes_count).
  assert (NoDup (elems T)) as Hnd by (destruct Hrep as [(mn & Ho & _) _]; by eapply own_elems).
  pose proof (wp_remove_node vmap_rbtree vmap_tree_ops vme_offset (S (size F)) (vm_tree e) T [] p l1 l2 Hrep He) as Hrm.
  rewrite item_id in Hrm by done. specialize (Hrm Hp0 ltac:(lia)). apply wp_elim in Hrm as ([] & t1 & Hrun & Henv & T' & n & Hrep' & He').
  rewrite Hf in Henv. exists (Vmst (Rbst (delete p (rb_mem t1)) (rbt_max t1) (delete p F)) (u64 (vmap_size e - s)) k').
  split_and!; [|split|done|done].
  - unfold vmap_remove, vm_fuel. mrun. rewrite Hf. mrun (on_tree_run _ e _ _ Hrun).
    mrun (vme_fields_run (set_tree t1 e) F p (a, s) Henv Hp). unfold drop_vme. mrun. cbn [set_tree vm_tree vm_rest vmap_size set_vmap_size]. rewrite Henv.
    erewrite on_rest_run; [|exact Hfr]. done.
  - done.
  - cbn. exists T'. split; [by eapply rep_drop|]. rewrite He'. split.
    + intros q. rewrite lookup_delete_is_Some, <- Hin, He. rewrite He in Hnd. apply NoDup_app in Hnd as (_ & Hd1 & Hnd%NoDup_cons). destruct Hnd as [Hd2 _].
      rewrite !elem_of_app, elem_of_cons. split; [|naive_solver]. intros Hq. split; [|tauto]. intros ->.
      destruct Hq as [Hq|Hq]; [|done]. apply (Hd1 q Hq). left.
    + apply before_delete. rewrite He in Hs. apply StronglySorted_app in Hs as (H12 & H1 & H2). apply StronglySorted_inv in H2 as [H2 _].
      apply StronglySorted_app. split_and!; [|done..]. intros q q' Hq Hq'. apply H12; [done|by right].
  - cbn. by rewrite dom_delete_L.
  - intros q [_ Hq]%lookup_delete_is_Some. by apply Haddr.
  - intros q b t [_ Hq]%lookup_delete_Some. by eapply Harea.
  - cbn. rewrite (ztotal_delete _ _ _ Hp), Hsz. unfold u64. cbn. by rewrite Zminus_mod_idemp_l.
Qed.

(** * The contract with the zone allocator *)

#[global] Instance vmap_zone_laws : ZoneEnvLaws (vmst K).
Proof.
  refine {|
    zv_inv o e F := vm_ok e F;
    zv_area o e a s := kva_range a s;
    zv_can e := kv_can (vm_rest e);
    zv_keep := vm_keep;
    zv_gap := 1;
    zv_unit := 4096;
  |}.
  - lia.
  - split; [by intros ? ?|]. intros e1 e2 e3 H1 H2 va Hva. by rewrite H2, H1.
  - done.
  - intros _ _ a s Hr%kva_range_ok. lia.
  - intros _ e F p a s Hok. apply Hok.
  - intros _ _ a s s' (? & ? & ? & ? & ?) (? & ? & ? & ? & ?). unfold kva_range. split_and!; try lia; [done|by apply Z.divide_add_r].
  - intros _ _ a s s' (? & ? & ? & ? & ?) Hs Hu. unfold kva_range. split_and!; try lia; try done; [by apply Z.divide_add_r|by apply Z.divide_sub_r].
  - intros _ e F p a s Hok Hp. eapply vme_fields_run; [apply Hok|done].
  - intros o e F p a s Hok Hp. by apply (vmap_remove_run e F p a s).
  - intros o e F a s Hok Hr Hap. destruct (neighbors_run e F a s Hok Hr Hap) as (pn & nn & H1 & H2 & H3 & H4). exists pn, nn. split; [exact H1|]. auto.
  - intros o e F a s Hok Hcan Hr Hap. by apply vmap_insert_run.
Defined.

End entries.
