(* ===== verification/KvaOps.v ===== *)
(** The operations of kva.c: taking, returning, mapping and unmapping ranges of
    kernel addresses. *)

From S2P Require Import Prelude Words Locks Machine Hal Kmap Rb RbMem RbRotate RbOps RbTheorems Zone Kva KvaInv.

Section ops.
Context {K : Type} `{!KvaEnv K, !KvaEnvLaws K}.
Implicit Types (s : kvst K) (F : entries).

Definition kv_k s : K := vm_rest (zs_env (kv_zone s)).

(** The zone and its entries are right, and the lock is free. *)
Record kva_inv s F : Prop := {
  ki_lock : vmap_lock s = false;
  ki_zone : ready (zs_zone (kv_zone s)) (zs_env (kv_zone s)) F;
}.

(** The page table entries of the area are the same. *)
Definition same_views s s' : Prop := ∀ va, kva_page va → kv_view (kv_k s') va = kv_view (kv_k s) va.

Lemma on_zone_run {B} (m : M (zst (vmst K)) B) s b z : m (kv_zone s) = Ret (b, z) → on_zone m s = Ret (b, set_kv_zone z s).
Proof. intros Hm. unfold on_zone, zoom. by rewrite Hm. Qed.

Lemma vmap_lock_run s : vmap_lock s = false → spinlock vmap_lock set_vmap_lock s = Ret (tt, set_vmap_lock true s).
Proof. intros Hl. unfold spinlock. by rewrite Hl. Qed.

(** The size in bytes of the pages that [size] bytes take. *)
Definition pages (size : Z) : Z := 4096 * ((size + 4095) `div` 4096).

Lemma round_page_eq size : 0 ≤ size ≤ 2 ^ 64 - 4096 → round_page size = pages size.
Proof.
  intros Hs. unfold round_page, pages. rewrite page_size_eq, u64_small by (unfold word64; lia). rewrite trunc_page_eq by lia.
  by replace (size + 4096 - 1) with (size + 4095) by lia.
Qed.

Lemma pages_range size : 0 < size → size ≤ pages size < size + 4096 ∧ (4096 | pages size).
Proof. intros Hs. unfold pages. split; [Z.div_mod_to_equations; lia|]. by exists ((size + 4095) `div` 4096); lia. Qed.

Lemma kva_alloc_run s F size : kva_inv s F → 0 < size ≤ 2 ^ 31 - 4096 →
  (∃ va s' F', kva_alloc size s = Ret (va, s') ∧ kva_inv s' F' ∧ same_views s s' ∧ kva_range va (pages size) ∧
     (∀ x, va ≤ x < va + pages size → covered F x) ∧
     (∀ x, covered F' x ↔ covered F x ∧ ¬ (va ≤ x < va + pages size))) ∨
  (kva_alloc size s = Ret (VADDR_INVALID, s) ∧ ∀ p a n, F !! p = Some (a, n) → n < 2 ^ Z.log2_up (pages size)).
Proof.
  intros [Hl Hz] Hs. destruct (pages_range size ltac:(lia)) as [Hpg Hdiv]. unfold kva_alloc. rewrite round_page_eq by lia.
  mrun (vmap_lock_run s Hl). destruct (kv_zone s) as [z e] eqn:Ez. cbn [zs_zone zs_env] in Hz.
  destruct (zone_alloc_run z e F (pages size) Hz ltac:(lia) Hdiv) as [(a & z' & e' & F' & Hr & Hz' & _ & Hk & Ha & Hin & Hcov)|[Hr Hno]].
  - left. exists a, (Kvst (Zst z' e') false (kvabase s) (kvasize s)), F'. split_and!; [|split; done| |exact Ha|done|done].
    + erewrite bind_Ret by (eapply on_zone_run; cbn [set_vmap_lock kv_zone]; rewrite Ez; exact Hr). unfold spinunlock. mrun.
      pose proof (kva_range_ok _ _ Ha). by rewrite (proj2 (Z.eqb_neq a 0)) by lia.
    + intros va Hva. unfold kv_k. rewrite Ez. by apply Hk.
  - right. split; [|done]. erewrite bind_Ret by (eapply on_zone_run; cbn [set_vmap_lock kv_zone]; rewrite Ez; exact Hr).
    unfold spinunlock. mrun. f_equal. f_equal. destruct s as [zn lk kb ks]. cbn in *. by subst.
Qed.

Lemma apart_uncovered F a n p r : 0 < n → 0 < r.2 → F !! p = Some r → (∀ x, a ≤ x < a + n → ¬ covered F x) → apart 0 (a, n) r.
Proof.
  intros Hn Hr Hp Hx. destruct r as [b t]. unfold apart. cbn in *.
  destruct (decide (a + n + 0 ≤ b)); [by left|]. destruct (decide (b + t + 0 ≤ a)); [by right|]. exfalso.
  apply (Hx (Z.max a b)); [lia|]. exists p, b, t. split; [done|lia].
Qed.

Lemma kva_free_run s F va size : kva_inv s F → kv_can (kv_k s) → 0 ≤ va → 0 < size ≤ 2 ^ 64 - 4096 →
  kva_range (4096 * (va `div` 4096)) (pages size) →
  (∀ x, 4096 * (va `div` 4096) ≤ x < 4096 * (va `div` 4096) + pages size → ¬ covered F x) →
  ∃ s' F', kva_free va size s = Ret (tt, s') ∧ kva_inv s' F' ∧ same_views s s' ∧
    ∀ x, covered F' x ↔ covered F x ∨ 4096 * (va `div` 4096) ≤ x < 4096 * (va `div` 4096) + pages size.
Proof.
  intros [Hl Hz] Hcan Hva Hs Hr Hx. unfold kva_free. rewrite trunc_page_eq, round_page_eq by lia. set (a := 4096 * (va `div` 4096)) in *.
  destruct (pages_range size ltac:(lia)) as [Hpg _]. mrun (vmap_lock_run s Hl). unfold kv_k in Hcan.
  destruct (kv_zone s) as [z e] eqn:Ez. cbn [zs_zone zs_env] in *.
  destruct (zone_create_run z e F a (pages size) Hz Hr) as (z' & e' & F' & Hrun & Hz' & _ & Hk & Hcov); [|done|].
  { intros p [b t] Hp. destruct (zi_size _ _ (rd_zone _ _ _ Hz) p b t Hp). apply (apart_uncovered F a (pages size) p); try done. cbn; lia. }
  exists (Kvst (Zst z' e') false (kvabase s) (kvasize s)), F'. split_and!; [|split; done| |done].
  - erewrite bind_Ret. 2: { eapply on_zone_run. cbn [set_vmap_lock kv_zone]. rewrite Ez. unfold zone_free.
    rewrite bind_assert by (by rewrite (proj2 (Z.eqb_neq (pages size) 0)) by lia). exact Hrun. }
    done.
  - intros v Hv. unfold kv_k. rewrite Ez. by apply Hk.
Qed.

(** ** Mapping *)

Definition set_k (k : K) s : kvst K :=
  set_kv_zone (Zst (zs_zone (kv_zone s)) (set_rest k (zs_env (kv_zone s)))) s.

Lemma on_kernel_run {B} (m : M K B) s b k : m (kv_k s) = Ret (b, k) → on_kernel m s = Ret (b, set_k k s).
Proof.
  intros Hm. unfold on_kernel. apply on_zone_run. destruct (kv_zone s) as [z e] eqn:Ez. apply on_env_run, on_rest_run. unfold kv_k in Hm. by rewrite Ez in Hm.
Qed.

Lemma on_kernel_abort {B} (m : M K B) s err : m (kv_k s) = Abort err → on_kernel m s = Abort err.
Proof. intros Hm. unfold on_kernel, on_zone, on_env, on_rest, zoom. unfold kv_k in Hm. by rewrite Hm. Qed.

Lemma kva_inv_heap s F : kva_inv s F → kv_inv (kv_k s) (dom F).
Proof. intros [_ [_ He _]]. exact (vo_heap _ _ He). Qed.

Lemma set_k_inv s F k : kva_inv s F → kv_inv k (dom F) → kva_inv (set_k k s) F.
Proof.
  intros [Hl [Hz He Hs]] Hk. split; [done|]. split; [done| |done]. destruct He as [H1 H2 _ H4 H5 H6]. by split.
Qed.

Lemma kva_page_in va n i : kva_range va (4096 * n) → 0 ≤ i < n → kva_page (va + 4096 * i).
Proof.
  intros (H1 & H2 & H3 & H4 & H5) Hi. unfold kva_page, kva_range. split_and!; try lia; [|by exists 1].
  apply Z.divide_add_r; [done|]. exists i. lia.
Qed.

(** From [s] to [s'] the pages [va + 4096 * j] with [i ≤ j < n] got entries that
    [ent] describes, and the others kept theirs. *)
Record remapped s s' (va i n : Z) (ent : Z → Z → Prop) : Prop := {
  rm_entry j : i ≤ j < n → ent j (kv_view (kv_k s') (va + 4096 * j));
  rm_other v : kva_page v → (∀ j, i ≤ j < n → v ≠ va + 4096 * j) → kv_view (kv_k s') v = kv_view (kv_k s) v;
}.

(** A loop over the pages, whose body changes one entry. *)
Lemma loop_run (body : Z → M (kvst K) unit) (ent : Z → Z → Prop) F va N (cost : nat) : kva_range va (4096 * N) →
  (∀ j s, 0 ≤ j < N → kva_inv s F → kva_page (va + 4096 * j) →
     (∃ k, body j s = Ret (tt, set_k k s) ∧ kv_inv k (dom F) ∧ (kv_can (kv_k s) → kv_can k) ∧
        ent j (kv_view k (va + 4096 * j)) ∧ (0 < cost → kv_frames (kv_k s) ≤ kv_frames k + cost)%nat ∧
        ∀ v, kva_page v → v ≠ va + 4096 * j → kv_view k v = kv_view (kv_k s) v) ∨
     (body j s = Abort AssertFail ∧ (kv_frames (kv_k s) < cost)%nat)) →
  ∀ (n : nat) i s, i + n = N → 0 ≤ i → kva_inv s F →
    (∃ s', for_each (seqZ i n) body s = Ret (tt, s') ∧ kva_inv s' F ∧ (kv_can (kv_k s) → kv_can (kv_k s')) ∧ remapped s s' va i N ent) ∨
    (for_each (seqZ i n) body s = Abort AssertFail ∧ (kv_frames (kv_k s) < cost * n)%nat).
Proof.
  intros Hva Hbody n. induction n as [|n IH]; intros i s Hn Hi Hinv.
  { left. exists s. split_and!; try done. split; [lia|done]. }
  rewrite seqZ_cons by lia. replace (Z.pred (S n)) with (Z.of_nat n) by lia. cbn [for_each].
  pose proof (kva_page_in va N i Hva ltac:(lia)) as Hpg.
  destruct (Hbody i s ltac:(lia) Hinv Hpg) as [(k & Hr & Hk & Hcan & Hent & Hfr & Hoth)|[Hr Hfr]].
  - mrun Hr. destruct (IH (Z.succ i) (set_k k s) ltac:(lia) ltac:(lia) (set_k_inv s F k Hinv Hk)) as [(s' & Hr' & Hinv' & Hcan' & [Hrm Hro])|[Hr' Hfr']].
    + left. exists s'. split_and!; [done|done|by intros ?%Hcan%Hcan'|]. split.
      * intros j Hj. destruct (decide (j = i)) as [->|Hne]; [|apply Hrm; lia]. rewrite Hro; [done|done|]. intros j' Hj'. lia.
      * intros v Hv Hne. rewrite Hro by (done || (intros; apply Hne; lia)). apply Hoth; [done|]. apply Hne. lia.
    + right. split; [done|]. change (kv_k (set_k k s)) with k in Hfr'. destruct (decide (0 < cost)%nat) as [Hc|Hc]; [specialize (Hfr Hc)|]; lia.
  - right. rewrite (bind_Abort _ _ _ _ Hr). split; [done|]. lia.
Qed.

(** The number of pages that [size] bytes at [addr] touch. *)
Definition npages (addr size : Z) : Z := (addr `mod` 4096 + size + 4095) `div` 4096.

Lemma pages_npages addr size : pages (addr `mod` 4096 + size) = 4096 * npages addr size.
Proof. done. Qed.

Lemma pages_of_pages n : pages (4096 * n) = 4096 * n.
Proof. unfold pages. Z.div_mod_to_equations; lia. Qed.

Lemma page_mask x : 0 ≤ x → Z.land x PAGE_MASK = x `mod` 4096.
Proof. intros Hx. unfold PAGE_MASK. rewrite page_size_eq. change (4096 - 1) with (Z.ones 12). by rewrite Z.land_ones. Qed.

Lemma npages_range addr size : 0 ≤ addr → 0 < size → addr `mod` 4096 + size ≤ 2 ^ 31 - 4096 → 0 < npages addr size < 2 ^ 19.
Proof. intros Ha Hs Hm. unfold npages. Z.div_mod_to_equations; lia. Qed.

(** [no] of [kva_physmap] and [kva_unmap]. *)
Lemma no_eq addr size : 0 ≤ addr → 0 < size → addr `mod` 4096 + size ≤ 2 ^ 31 - 4096 →
  u32 (Z.shiftr (round_page (u64 (Z.land addr PAGE_MASK + size))) PAGE_SHIFT) = npages addr size.
Proof.
  intros Ha Hs Hm. pose proof (npages_range addr size Ha Hs Hm). rewrite page_mask by done.
  assert (0 ≤ addr `mod` 4096 < 4096) by (Z.div_mod_to_equations; lia).
  rewrite (u64_small (_ + _)) by (unfold word64; lia). rewrite round_page_eq, pages_npages by lia. unfold PAGE_SHIFT.
  rewrite Z.shiftr_div_pow2 by lia. change (2 ^ 12) with 4096. rewrite (Z.mul_comm 4096), Z.div_mul by lia. apply u32_small. unfold word32. lia.
Qed.

Lemma kva_physmap_run s F paddr size prot : kva_inv s F → word64 paddr → 0 < size → paddr `mod` 4096 + size ≤ 2 ^ 31 - 4096 →
  let n := npages paddr size in
  (∃ va s' F', kva_physmap paddr size prot s = Ret (va + paddr `mod` 4096, s') ∧ kva_inv s' F' ∧ kva_range va (4096 * n) ∧
     (∀ x, va ≤ x < va + 4096 * n → covered F x) ∧ (∀ x, covered F' x ↔ covered F x ∧ ¬ (va ≤ x < va + 4096 * n)) ∧
     remapped s s' va 0 n (λ i e, e = kv_box (paddr `div` 4096 + i) prot)) ∨
  (kva_physmap paddr size prot s = Ret (0, s) ∧ ∀ p a m, F !! p = Some (a, m) → m < 2 ^ Z.log2_up (4096 * n)) ∨
  (kva_physmap paddr size prot s = Abort AssertFail ∧
     ∃ va s1, kva_alloc (4096 * n) s = Ret (va, s1) ∧ (kv_frames (kv_k s1) < 3 * Z.to_nat n)%nat).
Proof.
  intros Hinv Hpa Hs Hm n. unfold word64 in Hpa. pose proof (npages_range paddr size ltac:(lia) Hs Hm) as Hn. fold n in Hn.
  unfold kva_physmap. rewrite no_eq by lia. fold n. rewrite page_size_eq, (u32_small (n * 4096)) by (unfold word32; lia). rewrite (Z.mul_comm n).
  rewrite page_mask by lia. unfold PAGE_SHIFT. rewrite Z.shiftr_div_pow2 by lia. change (2 ^ 12) with 4096.
  destruct (kva_alloc_run s F (4096 * n) Hinv ltac:(lia)) as [(va & s1 & F1 & Hr & Hinv1 & Hv1 & Hrg & Hin & Hcov)|[Hr Hno]];
    rewrite pages_of_pages in *; mrun Hr; [|by right; left].
  pose proof (kva_range_ok _ _ Hrg) as Hok. rewrite (proj2 (Z.eqb_neq va VADDR_INVALID)) by (unfold VADDR_INVALID; lia).
  match goal with |- context [for_each (seqZ 0 n) ?b] => set (body := b) end.
  destruct (loop_run body (λ i e, e = kv_box (paddr `div` 4096 + i) prot) F1 va n 3 Hrg) with (n := Z.to_nat n) (i := 0) (s := s1)
    as [(s2 & Hr2 & Hinv2 & _ & Hrm)|[Hr2 Hfr]]; [|lia|lia|done|left|right; right].
  - intros j t Hj Ht Hpg. unfold body. rewrite u32_small, (u64_small (va + _)) by (unfold word32, word64; lia).
    rewrite (Z.mul_comm j). rewrite (u64_small (_ + j)) by (unfold word64; Z.div_mod_to_equations; lia).
    destruct (kv_map_ok _ _ (va + 4096 * j) (paddr `div` 4096 + j) prot (kva_inv_heap t F1 Ht) Hpg) as [(r & k & Hk & Hk1 & Hk2 & Hk3 & Hk4 & Hk5)|[Hk Hfr]].
    + left. exists k. mrun (on_kernel_run _ t _ _ Hk). split_and!; try done.
    + right. rewrite (bind_Abort _ _ _ _ (on_kernel_abort _ t _ Hk)). done.
  - rewrite Z2Nat.id in Hr2 by lia. mrun Hr2. destruct (kv_commit_ok _ _ (kva_inv_heap s2 F1 Hinv2)) as (k & Hk & Hk1 & _ & Hk2).
    exists va, (set_k k s2), F1. mrun (on_kernel_run _ s2 _ _ Hk). split_and!; [|by apply set_k_inv|done|done|done|].
    + assert (0 ≤ paddr `mod` 4096 < 4096) by (Z.div_mod_to_equations; lia). by rewrite u64_small by (unfold word64; lia).
    + destruct Hrm as [Hrm Hro]. split.
      * intros j Hj. change (kv_k (set_k k s2)) with k. rewrite Hk2; [by apply Hrm|]. by eapply kva_page_in.
      * intros v Hv Hne. change (kv_k (set_k k s2)) with k. rewrite Hk2, Hro by done. by apply Hv1.
  - rewrite Z2Nat.id in Hr2 by lia. split; [by apply bind_Abort|]. by exists va, s1.
Qed.

Lemma kva_unmap_run s F ptr size : kva_inv s F → kv_can (kv_k s) → 0 ≤ ptr → 0 < size → ptr `mod` 4096 + size ≤ 2 ^ 31 - 4096 →
  let n := npages ptr size in let va := 4096 * (ptr `div` 4096) in
  kva_range va (4096 * n) → (∀ x, va ≤ x < va + 4096 * n → ¬ covered F x) →
  ∃ s' F', kva_unmap ptr size s = Ret (tt, s') ∧ kva_inv s' F' ∧ remapped s s' va 0 n (λ _, kv_none) ∧
    ∀ x, covered F' x ↔ covered F x ∨ va ≤ x < va + 4096 * n.
Proof.
  intros Hinv Hcan Hp Hs Hm n va Hrg Hx. pose proof (npages_range ptr size Hp Hs Hm) as Hn. fold n in Hn. pose proof (kva_range_ok _ _ Hrg) as Hok.
  unfold kva_unmap. rewrite no_eq by lia. fold n.
  rewrite page_size_eq, trunc_page_eq, (u32_small (n * 4096)) by (unfold word32; lia). rewrite (Z.mul_comm n).
  fold va.
  match goal with |- context [for_each (seqZ 0 n) ?b] => set (body := b) end.
  destruct (loop_run body (λ _, kv_none) F va n 0 Hrg) with (n := Z.to_nat n) (i := 0) (s := s)
    as [(s2 & Hr2 & Hinv2 & Hcan2 & Hrm)|[_ Hfr]]; [|lia|lia|done| |lia].
  { intros j t Hj Ht Hpg. left. unfold body. rewrite u32_small, (u64_small (va + _)) by (unfold word32, word64; lia). rewrite (Z.mul_comm j).
    destruct (kv_unmap_ok _ _ (va + 4096 * j) (kva_inv_heap t F Ht) Hpg) as (r & k & Hk & Hk1 & Hk2 & Hk3 & Hk4). exists k. mrun (on_kernel_run _ t _ _ Hk).
    split_and!; try done. lia. }
  rewrite Z2Nat.id in Hr2 by lia. destruct (kv_commit_ok _ _ (kva_inv_heap s2 F Hinv2)) as (k & Hk & Hk1 & Hk2 & Hk3).
  destruct (kva_free_run (set_k k s2) F va (4096 * n)) as (s3 & F3 & Hr3 & Hinv3 & Hv3 & Hcov); [by apply set_k_inv|by apply Hk2, Hcan2|lia|lia|..].
  - replace (4096 * (va `div` 4096)) with va by (unfold va; Z.div_mod_to_equations; lia). by rewrite pages_of_pages.
  - replace (4096 * (va `div` 4096)) with va by (unfold va; Z.div_mod_to_equations; lia). by rewrite pages_of_pages.
  - replace (4096 * (va `div` 4096)) with va in Hcov by (unfold va; Z.div_mod_to_equations; lia). rewrite pages_of_pages in Hcov.
    exists s3, F3. split_and!; [|done| |done].
    + mrun Hr2. mrun (on_kernel_run _ s2 _ _ Hk). done.
    + destruct Hrm as [Hrm Hro]. split.
      * intros j Hj. rewrite Hv3 by (by eapply kva_page_in). change (kv_k (set_k k s2)) with k. rewrite Hk3 by (by eapply kva_page_in). by apply Hrm.
      * intros v Hv Hne. rewrite Hv3 by done. change (kv_k (set_k k s2)) with k. by rewrite Hk3, Hro.
Qed.

(** ** Initialization *)

(** Before [kvainit]: no entry exists, and the heap works. *)
Record kva_boot s : Prop := {
  kb_tree : ∃ n, own (rb_mem (vm_tree (zs_env (kv_zone s)))) [(vmap_rbtree, n)];
  kb_fields : rb_env (vm_tree (zs_env (kv_zone s))) = ∅;
  kb_heap : kv_inv (kv_k s) ∅;
  kb_can : kv_can (kv_k s);
}.

Lemma kvainit_run s : kva_boot s →
  ∃ s' F, kvainit s = Ret (tt, s') ∧ kva_inv s' F ∧ same_views s s' ∧
    ∀ x, covered F x ↔ hal_virtmem_kvabase ≤ x < hal_virtmem_kvabase + hal_virtmem_kvasize.
Proof.
  intros [(n & Ho) Hf Hh Hcan]. destruct kv_area_ok as (Hb & Hsz & Hend & Hbd & Hsd).
  destruct (kv_zone s) as [z e] eqn:Ez. unfold kv_k in *. rewrite Ez in *. cbn [zs_env] in *.
  destruct (wp_elim _ _ _ (rb_init_correct vmap_rbtree vmap_tree_ops (vm_tree e) n [] Ho)) as ([] & t & Hr & Hrep & Henv).
  set (e1 := Vmst t 0 (vm_rest e)). set (z1 := Zone 0 0 (replicate (Z.to_nat ORDMAX) []) 0).
  set (s1 := Kvst (Zst z1 e1) false hal_virtmem_kvabase hal_virtmem_kvasize).
  assert (kva_inv s1 ∅) as Hinv.
  { split; [done|]. split; [apply zone_init_inv| |by intros ? ? ? ? ? ?]. cbn. split; try done.
    - cbn. by rewrite Henv.
    - cbn. exists Leaf. split; [done|]. split; [|constructor]. intros p. split; [by intros ?%not_elem_of_nil|by intros []].
    - intros p. by intros []. }
  assert (4096 * (hal_virtmem_kvabase `div` 4096) = hal_virtmem_kvabase) as Ha by (destruct Hbd as [m ->]; Z.div_mod_to_equations; lia).
  assert (pages hal_virtmem_kvasize = hal_virtmem_kvasize) as Hp by (destruct Hsd as [m ->]; rewrite Z.mul_comm; apply pages_of_pages).
  destruct (kva_free_run s1 ∅ hal_virtmem_kvabase hal_virtmem_kvasize Hinv Hcan) as (s' & F & Hr' & Hinv' & Hv & Hcov); [lia|lia|..];
    rewrite Ha, Hp in *.
  - unfold kva_range. split_and!; try lia; done.
  - intros x _ (p & a & m & Hp' & _). done.
  - exists s', F. split_and!; [|done|intros va Hva; unfold kv_k at 2; rewrite Ez; by apply Hv|..].
    + unfold kvainit. erewrite bind_Ret by (eapply on_zone_run; rewrite Ez; eapply on_env_run, on_tree_run, Hr).
      unfold zone_init, spinlock_init, on_zone, zoom. mrun. exact Hr'.
    + intros x. rewrite Hcov. split; [|by right]. intros [(p & a & m & Hp' & _)|?]; [done|lia].
Qed.

End ops.
