(* ===== verification/KvaTheorems.v ===== *)
(** What kva.c guarantees to its callers. *)

From stdpp Require Import sorting.
From S2P Require Import Prelude Words Locks Machine Hal Kmap Rb RbMem RbRotate RbOps RbTheorems Zone Kva KvaInv KvaOps.

Section theorems.
Context {K : Type} `{!KvaEnv K, !KvaEnvLaws K}.
Implicit Types (s : kvst K) (F : entries).

(** The states after [kvainit] and any calls of [kva_alloc] and [kva_free], with
    the ranges that are taken. A range is freed when the heap has memory for an
    entry. *)
Inductive kva_reach : kvst K → list (Z * Z) → Prop :=
  | reach_init s s' : kva_boot s → kvainit s = Ret (tt, s') → kva_reach s' []
  | reach_alloc s L size va s' : kva_reach s L → 0 < size ≤ 2 ^ 31 - 4096 → kva_alloc size s = Ret (va, s') →
      kva_reach s' (if va =? VADDR_INVALID then L else (va, pages size) :: L)
  | reach_free s L1 va n L2 s' : kva_reach s (L1 ++ (va, n) :: L2) → kv_can (kv_k s) → kva_free va n s = Ret (tt, s') →
      kva_reach s' (L1 ++ L2).

Definition in_range (x : Z) (r : Z * Z) : Prop := r.1 ≤ x < r.1 + r.2.

Record taken s F (L : list (Z * Z)) : Prop := {
  tk_inv : kva_inv s F;
  tk_area : Forall (λ r, kva_range r.1 r.2) L;
  tk_apart : ForallOrdPairs (apart 0) L;
  tk_free x : covered F x ↔ in_range x (hal_virtmem_kvabase, hal_virtmem_kvasize) ∧ Forall (λ r, ¬ in_range x r) L;
}.

Lemma kva_pages a n : kva_range a n → 4096 * (a `div` 4096) = a ∧ pages n = n ∧ 0 < a ∧ 0 < n ≤ 2 ^ 64 - 4096.
Proof.
  intros Hr. pose proof (kva_range_ok _ _ Hr) as Hok. destruct Hr as (_ & _ & _ & [i ->] & [j ->]). split_and!; try lia.
  - Z.div_mod_to_equations; lia.
  - rewrite Z.mul_comm. apply pages_of_pages.
Qed.

Lemma apart_pairs (L : list (Z * Z)) r : Forall (λ q, apart 0 r q) L → ForallOrdPairs (apart 0) L → ForallOrdPairs (apart 0) (r :: L).
Proof. by constructor. Qed.

Lemma apart_remove (L1 L2 : list (Z * Z)) r : ForallOrdPairs (apart 0) (L1 ++ r :: L2) →
  ForallOrdPairs (apart 0) (L1 ++ L2) ∧ Forall (apart 0 r) (L1 ++ L2).
Proof.
  induction L1 as [|q L1 IH]; cbn; intros H; inversion H as [|? ? Hq Hrest]; subst; [by split|].
  apply Forall_app in Hq as [Hq1 [Hqr Hq2]%Forall_cons]. destruct (IH Hrest) as [H1 H2]. split.
  - constructor; [by apply Forall_app|done].
  - constructor; [by apply apart_sym|done].
Qed.

Lemma in_range_apart r q x : in_range x r → in_range x q → ¬ apart 0 r q.
Proof. unfold in_range, apart. destruct r, q. cbn. lia. Qed.

Lemma taken_alloc s F L size va s' : taken s F L → 0 < size ≤ 2 ^ 31 - 4096 → kva_alloc size s = Ret (va, s') →
  ∃ F', taken s' F' (if va =? VADDR_INVALID then L else (va, pages size) :: L).
Proof.
  intros [Hinv Harea Hap Hfree] Hs Hr.
  destruct (kva_alloc_run s F size Hinv Hs) as [(va' & s1 & F1 & Hr' & Hinv1 & _ & Hrg & Hin & Hcov)|[Hr' _]]; rewrite Hr in Hr'; injection Hr' as <- <-.
  - pose proof (kva_range_ok _ _ Hrg). rewrite (proj2 (Z.eqb_neq va VADDR_INVALID)) by (unfold VADDR_INVALID; lia). exists F1. split; [done|by constructor|..].
    + apply apart_pairs; [|done]. apply Forall_forall. intros [b t] Hb. rewrite Forall_forall in Harea. destruct (Harea _ Hb) as (_ & Ht & _). cbn in Ht.
      unfold apart. cbn. destruct (decide (va + pages size + 0 ≤ b)); [by left|]. destruct (decide (b + t + 0 ≤ va)); [by right|]. exfalso.
      assert (covered F (Z.max va b)) as [_ Hn]%Hfree by (apply Hin; lia). rewrite Forall_forall in Hn. apply (Hn _ Hb). unfold in_range. cbn. lia.
    + intros x. rewrite Hcov, Hfree. rewrite Forall_cons. unfold in_range at 4. cbn. tauto.
  - exists F. rewrite Z.eqb_refl. by split.
Qed.

Lemma taken_free s F L1 va n L2 : taken s F (L1 ++ (va, n) :: L2) → kv_can (kv_k s) →
  ∃ s' F', kva_free va n s = Ret (tt, s') ∧ taken s' F' (L1 ++ L2).
Proof.
  intros [Hinv Harea Hap Hfree] Hcan. apply Forall_app in Harea as [Ha1 [Hrg Ha2]%Forall_cons]. cbn in Hrg. destruct (kva_pages _ _ Hrg) as (Hva & Hn & ? & ?).
  destruct (kva_free_run s F va n Hinv Hcan) as (s' & F' & Hr & Hinv' & _ & Hcov); [lia|lia|by rewrite Hva, Hn|..].
  { intros x Hx [_ Hx']%Hfree. apply Forall_app in Hx' as [_ [Hx' _]%Forall_cons]. rewrite Hva, Hn in Hx. done. }
  rewrite Hva, Hn in Hcov. destruct (apart_remove L1 L2 (va, n) Hap) as [Hap' Hapr]. exists s', F'. split; [done|]. split; [done|by apply Forall_app|done|].
  intros x. rewrite Hcov, Hfree, !Forall_app, Forall_cons. fold (in_range x (va, n)). split.
  - intros [(? & ? & ? & ?)|Hx]; [done|]. split; [destruct Hrg as (? & ? & ? & _); unfold in_range in *; cbn in *; lia|]. apply Forall_app.
    eapply Forall_impl; [exact Hapr|]. intros q Hq Hxq. exact (in_range_apart (va, n) q x Hx Hxq Hq).
  - intros (? & ? & ?). destruct (decide (va ≤ x < va + n)) as [Hx|Hx]; [by right|left]. done.
Qed.

(** C21. The ranges of kernel addresses that are taken at any time are pages of the
    area, disjoint, and together with the free ones they make up the area: no
    address is given out twice or lost, whatever the sequence of [kva_alloc] and
    [kva_free] after [kvainit]; and a range that is taken can be freed. *)
Theorem kva_ranges_disjoint s L : kva_reach s L →
  ∃ F, taken s F L ∧ ∀ L1 va n L2, L = L1 ++ (va, n) :: L2 → kv_can (kv_k s) → ∃ s', kva_free va n s = Ret (tt, s').
Proof.
  intros Hreach. assert (∃ F, taken s F L) as [F Ht].
  { induction Hreach as [s s' Hb Hr|s L size va s' _ (F & IH) Hs Hr|s L1 va n L2 s' _ (F & IH) Hcan Hr].
    - destruct (kvainit_run s Hb) as (s1 & F & Hr1 & Hinv & _ & Hcov). rewrite Hr in Hr1. injection Hr1 as <-. exists F. split; [done|constructor|constructor|].
      intros x. rewrite Hcov. unfold in_range. cbn. split; [|tauto]. intros ?. split; [done|constructor].
    - by eapply taken_alloc.
    - destruct (taken_free s F L1 va n L2 IH Hcan) as (s1 & F1 & Hr1 & Ht). rewrite Hr in Hr1. injection Hr1 as <-. eauto. }
  exists F. split; [done|]. intros L1 va n L2 -> Hcan. destruct (taken_free s F L1 va n L2 Ht Hcan) as (s' & _ & Hr & _). eauto.
Qed.

(** C24. [kva_physmap] maps the frames that hold the physical range, in order, in
    pages that were free and no longer are, leaves every other page of the area
    as it was, and returns the address of the first byte; NULL, with the state
    unchanged, means that no free range is as large as the request rounded up to
    a power of two. It stops at the assertion of [kmap_map] only when fewer than
    three frames for each page are free. *)
Theorem kva_physmap_correct s F paddr size prot (Hinv : kva_inv s F) (Hp : word64 paddr) (Hs : 0 < size)
    (Hm : paddr `mod` 4096 + size ≤ 2 ^ 31 - 4096) :
  let n := npages paddr size in
  (∃ va s' F', kva_physmap paddr size prot s = Ret (va + paddr `mod` 4096, s') ∧ kva_inv s' F' ∧ kva_range va (4096 * n) ∧
     (∀ x, va ≤ x < va + 4096 * n → covered F x) ∧ (∀ x, covered F' x ↔ covered F x ∧ ¬ (va ≤ x < va + 4096 * n)) ∧
     (∀ i, 0 ≤ i < n → kv_view (kv_k s') (va + 4096 * i) = kv_box (paddr `div` 4096 + i) prot) ∧
     (∀ v, kva_page v → ¬ (va ≤ v < va + 4096 * n) → kv_view (kv_k s') v = kv_view (kv_k s) v)) ∨
  (kva_physmap paddr size prot s = Ret (0, s) ∧ ∀ p a m, F !! p = Some (a, m) → m < 2 ^ Z.log2_up (4096 * n)) ∨
  (kva_physmap paddr size prot s = Abort AssertFail ∧
     ∃ va s1, kva_alloc (4096 * n) s = Ret (va, s1) ∧ (kv_frames (kv_k s1) < 3 * Z.to_nat n)%nat).
Proof.
  intros n. destruct (kva_physmap_run s F paddr size prot Hinv Hp Hs Hm) as [(va & s' & F' & Hr & Hi & Hrg & Hin & Hcov & [Hrm Hro])|H]; [left|by right].
  exists va, s', F'. split_and!; try done. intros v Hv Hne. apply Hro; [done|]. intros j Hj ->. apply Hne. fold n in Hj. lia.
Qed.

(** C38. What [kva_physmap] has mapped, [kva_unmap] of the pointer it returned takes
    back: every page of the range maps nothing, every page of the area outside the
    range maps what it did before, and the free addresses are the ones that were
    free before. *)
Theorem kva_physmap_unmap s F paddr size prot p s1 (Hinv : kva_inv s F) (Hp : word64 paddr) (Hs : 0 < size)
    (Hm : paddr `mod` 4096 + size ≤ 2 ^ 31 - 4096) (Hr : kva_physmap paddr size prot s = Ret (p, s1)) (H0 : p ≠ 0) (Hcan : kv_can (kv_k s1)) :
  let va := 4096 * (p `div` 4096) in
  let n := npages paddr size in
  ∃ s2 F2, kva_unmap p size s1 = Ret (tt, s2) ∧ kva_inv s2 F2 ∧ (∀ x, covered F2 x ↔ covered F x) ∧ kva_range va (4096 * n) ∧
    (∀ i, 0 ≤ i < n → kv_none (kv_view (kv_k s2) (va + 4096 * i))) ∧
    (∀ v, kva_page v → ¬ (va ≤ v < va + 4096 * n) → kv_view (kv_k s2) v = kv_view (kv_k s) v).
Proof.
  intros va0 n0. unfold va0, n0. clear va0 n0.
  destruct (kva_physmap_run s F paddr size prot Hinv Hp Hs Hm) as [(va & s' & F' & Hr' & Hi & Hrg & Hin & Hcov & [Hrm Hro])|[[Hr' _]|[Hr' _]]];
    rewrite Hr in Hr'; [|by injection Hr'|done]. injection Hr' as -> <-. destruct (kva_pages _ _ Hrg) as (Hva & _ & Hva0 & _).
  assert ((va + paddr `mod` 4096) `div` 4096 = va `div` 4096 ∧ (va + paddr `mod` 4096) `mod` 4096 = paddr `mod` 4096) as [Hd Hmod] by (Z.div_mod_to_equations; lia).
  assert (npages (va + paddr `mod` 4096) size = npages paddr size) as Hnp by (unfold npages; by rewrite Hmod).
  destruct (kva_unmap_run s1 F' (va + paddr `mod` 4096) size Hi Hcan) as (s2 & F2 & Hr2 & Hinv2 & [Hrm2 Hro2] & Hcov2);
    rewrite ?Hd, ?Hnp, ?Hva, ?Hmod in *; try done; [Z.div_mod_to_equations; lia|by intros x Hx [_ ?]%Hcov|].
  exists s2, F2. split_and!; [done|done| |done|done|].
  - intros x. rewrite Hcov2, Hcov. destruct (decide (va ≤ x < va + 4096 * npages paddr size)) as [Hx|Hx]; [|tauto]. specialize (Hin x Hx). tauto.
  - intros v Hv Hx. rewrite Hro2, Hro; [done|done| |done|]; intros j Hj ->; lia.
Qed.

End theorems.

(** * A small kernel *)

(** Five blocks of heap, sixteen pages of addresses, and entries in a map. *)
Module Small.

Record kern : Set := Kern { k_live : gset Z; k_pages : gmap Z Z }.

Definition blocks : list Z := [64; 128; 192; 256; 320].

Definition free_block (k : kern) : option Z := head (filter (λ p, p ∉ k_live k) blocks).

#[global] Instance small_env : KvaEnv kern := {|
  kmem_alloc _ _ := λ k,
    match free_block k with
    | Some p => Ret (p, Kern ({[p]} ∪ k_live k) (k_pages k))
    | None => Ret (VADDR_INVALID, k)
    end;
  kmem_free _ p _ := λ k, Ret (tt, Kern (k_live k ∖ {[p]}) (k_pages k));
  heap_vme _ p := (RbNode p p p, (p, p));
  kmap_map va pfn prot := λ k, Ret (0, Kern (k_live k) (<[va := 1024 * pfn + prot]> (k_pages k)));
  kmap_unmap va := λ k, Ret (0, Kern (k_live k) (delete va (k_pages k)));
  kmap_commit := λ k, Ret (tt, k);
  vmap_rbtree := 32;
  vmap_tree_ops := 8;
  hal_virtmem_kvabase := 0x100000;
  hal_virtmem_kvasize := 0x10000;
|}.

Lemma block_ok p : p ∈ blocks → aligned p ∧ p ≠ 0 ∧ p ≠ VADDR_INVALID ∧ p ≠ 32.
Proof. intros Hp. repeat (apply elem_of_cons in Hp as [->|Hp]; [vm_compute; repeat split; congruence|]). by apply not_elem_of_nil in Hp. Qed.

#[global] Instance small_laws : KvaEnvLaws kern.
Proof.
  refine {|
    kv_inv k B := k_live k = B ∧ ∀ p, p ∈ B → p ∈ blocks;
    kv_can k := ∃ p, p ∈ blocks ∧ p ∉ k_live k;
    kv_addr p := p ∈ blocks;
    kv_view k va := default 0 (k_pages k !! va);
    kv_frames _ := 3%nat;
    kv_box pfn prot := 1024 * pfn + prot;
    kv_none e := e = 0;
  |}.
  - cbn. split_and!; try lia; [by exists 0x100|by exists 0x10].
  - vm_compute. repeat split; congruence.
  - apply block_ok.
  - intros k B [<- HB] (p & Hp & Hn). assert (p ∈ filter (λ p, p ∉ k_live k) blocks) as Hin by (by apply list_elem_of_filter).
    cbn [kmem_alloc small_env]. unfold free_block. destruct (filter _ blocks) as [|q l] eqn:Hf; [by apply not_elem_of_nil in Hin|].
    assert (q ∈ filter (λ p, p ∉ k_live k) blocks) as [Hq1 Hq2]%list_elem_of_filter by (rewrite Hf; left).
    exists q, (Kern ({[q]} ∪ k_live k) (k_pages k)). split_and!; try done. intros r [->%elem_of_singleton|Hr]%elem_of_union; [done|by apply HB].
  - intros k B p [<- HB] Hp. eexists. split; [done|]. split; [split; [done|]; intros r [Hr _]%elem_of_difference; by apply HB|]. split; [|done].
    exists p. split; [by apply HB|]. cbn. intros [_ Hn]%elem_of_difference. by apply Hn, elem_of_singleton.
  - intros k B va pfn prot [<- HB] _. left. eexists _, _. split; [done|]. split; [done|]. split; [done|]. cbn. rewrite lookup_insert_eq.
    split; [done|]. split; [lia|]. intros va' _ Hne. by rewrite lookup_insert_ne.
  - intros k B va [<- HB] _. eexists _, _. split; [done|]. split; [done|]. split; [done|]. cbn. rewrite lookup_delete_eq.
    split; [done|]. intros va' _ Hne. by rewrite lookup_delete_ne.
  - intros k B [<- HB]. by exists k.
Defined.

(** Before [kvainit], with anything in the variables it sets. *)
Definition boot : kvst kern :=
  Kvst (Zst (Zone 7 7 [] 7) (Vmst (Rbst {[32 := RbNode 1 2 3]} 9 ∅) 5 (Kern ∅ ∅))) true 3 4.

Lemma boot_ok : kva_boot boot.
Proof.
  split; [|done| |].
  - exists (RbNode 1 2 3). apply (own_list [(32, RbNode 1 2 3)]); [apply (bool_decide_unpack _); vm_compute; exact I|].
    apply Forall_singleton. split; [vm_compute; repeat split; congruence|done].
  - split; [done|]. by intros p ?%not_elem_of_empty.
  - exists 64. split; [left|]. apply not_elem_of_empty.
Qed.

(** The state after a call. *)
Definition after {A} (m : M (kvst kern) A) (s : kvst kern) : kvst kern := match m s with Ret (_, s') => s' | Abort _ => s end.

Definition s0 : kvst kern := after kvainit boot.
Definition s1 : kvst kern := after (kva_alloc 5000) s0.

Lemma kva_ranges_disjoint_witness :
  ∃ F, taken s1 F [(0x100000, 8192)] ∧
    ∀ L1 va n L2, [(0x100000, 8192)] = L1 ++ (va, n) :: L2 → kv_can (kv_k s1) → ∃ s', kva_free va n s1 = Ret (tt, s').
Proof.
  apply kva_ranges_disjoint. apply (reach_alloc s0 [] 5000 0x100000); [|lia|vm_compute; reflexivity].
  apply (reach_init boot); [exact boot_ok|vm_compute; reflexivity].
Defined.

Lemma s0_inv : ∃ F, kva_inv s0 F.
Proof.
  destruct (kvainit_run boot boot_ok) as (s' & F & Hr & Hinv & _). exists F. unfold s0, after. by rewrite Hr.
Qed.

Lemma kva_physmap_correct_witness :
  ∃ F, let n := npages 0xfee00010 8000 in
  (∃ va s' F', kva_physmap 0xfee00010 8000 3 s0 = Ret (va + 0x10, s') ∧ kva_inv s' F' ∧ kva_range va (4096 * n) ∧
     (∀ x, va ≤ x < va + 4096 * n → covered F x) ∧ (∀ x, covered F' x ↔ covered F x ∧ ¬ (va ≤ x < va + 4096 * n)) ∧
     (∀ i, 0 ≤ i < n → kv_view (kv_k s') (va + 4096 * i) = kv_box (0xfee00 + i) 3) ∧
     (∀ v, kva_page v → ¬ (va ≤ v < va + 4096 * n) → kv_view (kv_k s') v = kv_view (kv_k s0) v)) ∨
  (kva_physmap 0xfee00010 8000 3 s0 = Ret (0, s0) ∧ ∀ p a m, F !! p = Some (a, m) → m < 2 ^ Z.log2_up (4096 * n)) ∨
  (kva_physmap 0xfee00010 8000 3 s0 = Abort AssertFail ∧
     ∃ va s1, kva_alloc (4096 * n) s0 = Ret (va, s1) ∧ (kv_frames (kv_k s1) < 3 * Z.to_nat n)%nat).
Proof.
  destruct s0_inv as [F HF]. exists F.
  exact (kva_physmap_correct s0 F 0xfee00010 8000 3 HF ltac:(split; [done|reflexivity]) ltac:(done) ltac:(done)).
Defined.

Lemma kva_physmap_unmap_witness :
  ∃ F s2 F2, kva_unmap 0x100010 8000 (after (kva_physmap 0xfee00010 8000 3) s0) = Ret (tt, s2) ∧ kva_inv s2 F2 ∧ (∀ x, covered F2 x ↔ covered F x) ∧
    kva_range 0x100000 8192 ∧ (∀ i, 0 ≤ i < 2 → kv_none (kv_view (kv_k s2) (0x100000 + 4096 * i))) ∧
    (∀ v, kva_page v → ¬ (0x100000 ≤ v < 0x100000 + 8192) → kv_view (kv_k s2) v = kv_view (kv_k s0) v).
Proof.
  destruct s0_inv as [F HF]. exists F.
  apply (kva_physmap_unmap s0 F 0xfee00010 8000 3 0x100010 (after (kva_physmap 0xfee00010 8000 3) s0) HF);
    [split; [done|reflexivity]|done|done|vm_compute; reflexivity|done|].
  exists 128. split; [vm_compute; right; left|]. vm_compute. by intros ?.
Defined.

End Small.
