(* ===== verification/Kmem.v ===== *)
(** The kernel heap (libnux/kmem.c): two breaks that grow towards each other from
    the ends of the heap's address range, each with a zone of freed blocks whose
    entries are kept in the blocks themselves, between a head and a tail. *)

From S2P Require Import Prelude Words Locks Machine Hal Zone.

Definition VADDR_NONE : Z := 2 ^ 64 - 1.
Definition TRIM_NONE : Z := 0.
Definition TRIM_BRK : Z := 1.

(** The mappings of kmap.c, loads and stores of words through them, and where the
    HAL puts the heap. *)
Class HeapEnv (X : Type) := {
  kmap_ensure_range : Z → Z → Z → M X Z;
  kmap_mapped_range : Z → Z → M X bool;
  kmap_commit : M X unit;
  hload : Z → M X Z;
  hstore : Z → Z → M X unit;
  hal_virtmem_kmembase : Z;
  hal_virtmem_kmemsize : Z;
}.

(** The elements [LO] and [HI] of [base], [brk] and [maxbrk]. *)
Record kmst (X : Type) : Type := Kmst {
  brklock : bool; base : Z * Z; brk : Z * Z; maxbrk : Z * Z; kmem_trim : Z; km_x : X;
}.
Arguments Kmst {X} _ _ _ _ _ _.
Arguments brklock {X} _.
Arguments base {X} _.
Arguments brk {X} _.
Arguments maxbrk {X} _.
Arguments kmem_trim {X} _.
Arguments km_x {X} _.

(** [LO] is [true]; an [int low] that is not 0 selects it. *)
Definition at_ (lo : bool) (p : Z * Z) : Z := if lo then p.1 else p.2.
Definition put_at (lo : bool) (v : Z) (p : Z * Z) : Z * Z := if lo then (v, p.2) else (p.1, v).

Definition cmp (a b : Z) : Z := if b <? a then 1 else if a <? b then -1 else 0.

Definition v_to_z (v : Z) : Z := Z.shiftr v 6.
Definition z_to_v (z : Z) : Z := u64 (Z.shiftl z 6).
Definition zsize (size : Z) : Z := v_to_z (u64 (size + 63)).
Definition size_zalign (size : Z) : Z := z_to_v (zsize size).

Definition ZONE_HEAD_MAGIC : Z := 0x616001DA.
Definition ZONE_TAIL_MAGIC : Z := 0x616001DA.

(** [struct kmem_head]: [magic], the links of the list, [addr], [size];
    [struct kmem_tail]: [offset], [magic]. *)
Definition SIZEOF_HEAD : Z := 40.
Definition SIZEOF_TAIL : Z := 16.
Definition head_addr : Z := 24.
Definition head_size : Z := 32.
Definition tail_magic : Z := 8.

Section kmem.
Context {X : Type} `{!HeapEnv X}.

Definition set_brklock (b : bool) (s : kmst X) : kmst X := Kmst b (base s) (brk s) (maxbrk s) (kmem_trim s) (km_x s).
Definition set_base (p : Z * Z) (s : kmst X) : kmst X := Kmst (brklock s) p (brk s) (maxbrk s) (kmem_trim s) (km_x s).
Definition set_brk (p : Z * Z) (s : kmst X) : kmst X := Kmst (brklock s) (base s) p (maxbrk s) (kmem_trim s) (km_x s).
Definition set_maxbrk (p : Z * Z) (s : kmst X) : kmst X := Kmst (brklock s) (base s) (brk s) p (kmem_trim s) (km_x s).
Definition set_trim (t : Z) (s : kmst X) : kmst X := Kmst (brklock s) (base s) (brk s) (maxbrk s) t (km_x s).
Definition set_x (x : X) (s : kmst X) : kmst X := Kmst (brklock s) (base s) (brk s) (maxbrk s) (kmem_trim s) x.
Definition on_x {B} (m : M X B) : M (kmst X) B := zoom km_x set_x m.

Definition _ensure_range (v1 v2 : Z) (mapped : bool) : M (kmst X) Z :=
  let s := Z.min v1 v2 in
  let e := Z.max v1 v2 in
  let prot := if mapped then Z.lor HAL_PTE_P HAL_PTE_W else 0 in
  r ← on_x (kmap_ensure_range s (e - s) prot);
  if negb (r =? 0) then mret (-1)
  else on_x kmap_commit;; mret 0.

Definition _ensure_range_mapped (v1 v2 : Z) : M (kmst X) Z := _ensure_range v1 v2 true.
Definition _ensure_range_unmapped (v1 v2 : Z) : M (kmst X) Z := _ensure_range v1 v2 false.

(** Between [spinlock (&brklock)] and [spinunlock (&brklock)], which every path
    reaches. *)
Definition with_brklock {B} (m : M (kmst X) B) : M (kmst X) B :=
  spinlock brklock set_brklock;; r ← m; spinunlock set_brklock;; mret r.

Definition past_base (low : bool) (vaddr : Z) : M (kmst X) bool :=
  b ← gets base; mret (if low then vaddr <? b.1 else b.2 <? vaddr).

Definition kmem_brk (low : bool) (vaddr : Z) : M (kmst X) Z :=
  with_brklock (
    out ← past_base low vaddr;
    if (out : bool) then mret (-1)
    else
      b ← gets brk;
      if negb (cmp vaddr (at_ (negb low) b) =? cmp (at_ low b) (at_ (negb low) b)) then mret (-1)
      else
        r ← _ensure_range_mapped (at_ low b) vaddr;
        if negb (r =? 0) then mret (-1)
        else
          modify (λ s, set_brk (put_at low vaddr (brk s)) s);;
          mret 0).

Definition kmem_sbrk (low : bool) (inc : Z) : M (kmst X) Z :=
  with_brklock (
    b ← gets brk;
    if inc =? 0 then mret (at_ low b)
    else
      let vaddr := u64 (at_ low b + inc) in
      out ← past_base low vaddr;
      if (out : bool) then mret VADDR_NONE
      else if negb (cmp vaddr (at_ (negb low) b) =? cmp (at_ low b) (at_ (negb low) b)) then mret VADDR_NONE
      else
        r ← _ensure_range_mapped (at_ low b) vaddr;
        if negb (r =? 0) then mret VADDR_NONE
        else
          modify (λ s, set_maxbrk (put_at low (if low then Z.max (maxbrk s).1 vaddr else Z.min (maxbrk s).2 vaddr) (maxbrk s)) s);;
          modify (λ s, set_brk (put_at low vaddr (brk s)) s);;
          mret (at_ low b)).

(** [size] is [unsigned]. *)
Definition kmem_brkgrow (low : bool) (size : Z) : M (kmst X) Z :=
  if low then kmem_sbrk low size
  else
    ret ← kmem_sbrk low (- size);
    mret (if negb (ret =? VADDR_NONE) then u64 (ret - size) else ret).

(** [-size] is [unsigned] too, before it is converted to [long]. *)
Definition kmem_brkshrink (low : bool) (size : Z) : M (kmst X) Z :=
  let inc := if low then u32 (- size) else size in
  va ← kmem_sbrk low inc;
  mret (if va =? VADDR_NONE then -1 else 0).

(** ** The entries of the zones *)

Definition ___mkptr (zaddr size opq : Z) : M (kmst X) Z :=
  let addr := z_to_v zaddr in
  let ptr := addr in
  on_x (hstore ptr ZONE_HEAD_MAGIC);;
  on_x (hstore (ptr + head_addr) zaddr);;
  on_x (hstore (ptr + head_size) size);;
  let size := z_to_v size in
  let tail := ptr + size - SIZEOF_TAIL in
  on_x (hstore (tail + tail_magic) ZONE_TAIL_MAGIC);;
  on_x (hstore tail (u64 (size - SIZEOF_TAIL)));;
  mret ptr.

(** [memset (p, 0, 8 * n)]. *)
Definition clear_words (p : Z) (n : nat) : M (kmst X) unit :=
  for_each (seqZ 0 n) (λ i, on_x (hstore (p + 8 * i) 0)).

Definition ___freeptr (ptr opq : Z) : M (kmst X) unit :=
  size ← on_x (hload (ptr + head_size));
  let tail := ptr + z_to_v size - SIZEOF_TAIL in
  clear_words ptr 5;;
  clear_words tail 2.

Definition prev_of (ptail : Z) : M (kmst X) (option Z) :=
  if ptail =? VADDR_NONE then mret None
  else
    ok ← on_x (kmap_mapped_range ptail SIZEOF_TAIL);
    if negb ok then mret None
    else
      magic ← on_x (hload (ptail + tail_magic));
      if negb (magic =? ZONE_TAIL_MAGIC) then mret None
      else
        offset ← on_x (hload ptail);
        let h := u64 (ptail - offset) in
        ok ← on_x (kmap_mapped_range h SIZEOF_HEAD);
        if negb ok then mret None
        else
          magic ← on_x (hload h);
          mret (if magic =? ZONE_HEAD_MAGIC then Some h else None).

Definition next_of (nhead : Z) : M (kmst X) (option Z) :=
  if nhead =? VADDR_NONE then mret None
  else
    ok ← on_x (kmap_mapped_range nhead SIZEOF_HEAD);
    if negb ok then mret None
    else
      magic ← on_x (hload nhead);
      mret (if magic =? ZONE_HEAD_MAGIC then Some nhead else None).

Definition ___get_neighbors (zaddr size opq : Z) : M (kmst X) (option Z * option Z) :=
  let low := negb (opq =? 0) in
  let vaddr := z_to_v zaddr in
  let ptail := u64 (vaddr - SIZEOF_TAIL) in
  let nhead := u64 (vaddr + z_to_v size) in
  pn ← with_brklock (
    b ← gets base; k ← gets brk;
    mret (if low then
            (if ptail <? b.1 then VADDR_NONE else ptail, if k.1 <? u64 (nhead + SIZEOF_HEAD) then VADDR_NONE else nhead)
          else
            (if ptail <? k.2 then VADDR_NONE else ptail, if b.2 <? u64 (nhead + SIZEOF_HEAD) then VADDR_NONE else nhead)));
  let '(ptail, nhead) := pn : Z * Z in
  ph ← prev_of ptail;
  nh ← next_of nhead;
  mret (ph, nh).

Definition ze_head (ptr : Z) : M (kmst X) (Z * Z) :=
  a ← on_x (hload (ptr + head_addr)); s ← on_x (hload (ptr + head_size)); mret (a, s).

#[global] Instance kmem_zone_env : ZoneEnv (kmst X) := {|
  ze_fields := ze_head;
  mkptr := ___mkptr;
  freeptr := ___freeptr;
  get_neighbors := ___get_neighbors;
|}.

(** ** Allocation *)

(** The zones [kmemz] and the locks [lockz]. *)
Record kmz : Type := Kmz { kmemz_lo : zone; kmemz_hi : zone; lockz_lo : bool; lockz_hi : bool; kz_st : kmst X }.

Definition kmemz (lo : bool) (s : kmz) : zone := if lo then kmemz_lo s else kmemz_hi s.
Definition lockz (lo : bool) (s : kmz) : bool := if lo then lockz_lo s else lockz_hi s.
Definition set_lockz (lo : bool) (b : bool) (s : kmz) : kmz :=
  if lo then Kmz (kmemz_lo s) (kmemz_hi s) b (lockz_hi s) (kz_st s) else Kmz (kmemz_lo s) (kmemz_hi s) (lockz_lo s) b (kz_st s).
Definition set_kst (x : kmst X) (s : kmz) : kmz := Kmz (kmemz_lo s) (kmemz_hi s) (lockz_lo s) (lockz_hi s) x.
Definition set_kmemz (lo : bool) (x : zst (kmst X)) (s : kmz) : kmz :=
  if lo then Kmz (zs_zone x) (kmemz_hi s) (lockz_lo s) (lockz_hi s) (zs_env x)
  else Kmz (kmemz_lo s) (zs_zone x) (lockz_lo s) (lockz_hi s) (zs_env x).
Definition on_kst {B} (m : M (kmst X) B) : M kmz B := zoom kz_st set_kst m.
Definition on_kmemz {B} (lo : bool) (m : M (zst (kmst X)) B) : M kmz B := zoom (λ s, Zst (kmemz lo s) (kz_st s)) (set_kmemz lo) m.

Definition kmem_alloc (low : Z) (size : Z) : M kmz Z :=
  let lo := negb (low =? 0) in
  let size_64b := size_zalign size in
  spinlock (lockz lo) (set_lockz lo);;
  zr ← on_kmemz lo (zone_alloc (zsize size_64b));
  spinunlock (set_lockz lo);;
  if negb (zr =? ZADDR_NONE) then mret (z_to_v zr)
  else on_kst (kmem_brkgrow lo (u32 size_64b)).

(** The end of the block at the break is the break: it moves back. *)
Definition free_brk (lo : bool) (base_ limit : Z) : M (kmst X) bool :=
  with_brklock (
    b ← gets brk;
    if negb (at_ lo b =? limit) then mret false
    else
      modify (λ s, set_brk (put_at lo base_ (brk s)) s);;
      t ← gets kmem_trim;
      when (TRIM_BRK <=? t)
        (let v1 := if lo then round_page base_ else trunc_page base_ in
         let v2 := if lo then round_page limit else trunc_page limit in
         _ensure_range_unmapped v1 v2;; mret tt);;
      mret true).

Definition kmem_free (low : Z) (vaddr size : Z) : M kmz unit :=
  let lo := negb (low =? 0) in
  let size_64b := size_zalign size in
  let base_ := if lo then vaddr else u64 (vaddr + size_64b) in
  let limit := if lo then u64 (vaddr + size_64b) else vaddr in
  done ← on_kst (free_brk lo base_ limit);
  if (done : bool) then mret tt
  else
    spinlock (lockz lo) (set_lockz lo);;
    on_kmemz lo (zone_free (v_to_z vaddr) (zsize size_64b));;
    spinunlock (set_lockz lo).

Definition kmem_trim_one (trim_mode : Z) : M kmz unit :=
  on_kst (with_brklock (
    when (TRIM_BRK <=? trim_mode)
      (b ← gets brk; m ← gets maxbrk;
       _ensure_range_unmapped (round_page b.1) (round_page m.1);;
       modify (λ s, set_maxbrk (put_at true (brk s).1 (maxbrk s)) s);;
       _ensure_range_unmapped (trunc_page b.2) (trunc_page m.2);;
       modify (λ s, set_maxbrk (put_at false (brk s).2 (maxbrk s)) s)))).

Definition kmem_trim_setmode (trim_mode : Z) : M kmz unit := on_kst (with_brklock (modify (set_trim trim_mode))).

Definition kmeminit : M kmz unit :=
  let b := (hal_virtmem_kmembase, u64 (hal_virtmem_kmembase + hal_virtmem_kmemsize)) in
  on_kst (modify (set_base b));;
  on_kst (modify (set_brk b));;
  on_kst (modify (set_maxbrk b));;
  on_kmemz true (zone_init 0);;
  spinlock_init (set_lockz true);;
  on_kmemz false (zone_init 0);;
  spinlock_init (set_lockz false).

End kmem.
Arguments kmz : clear implicits.
