(* ===== verification/KmemInv.v ===== *)
(** The heads and tails in free blocks of the upper heap are what the zone
    allocator asks for: entries are found by their magic numbers. *)

From S2P Require Import Prelude Words Locks Machine Hal Zone Kmem.

(** * What the mappings promise *)

(** [hm_word x a] is the word at the address [a], if a load there does not fault;
    [hm_keep x x'] that what is not part of the heap is the same. *)
(** The pages that [n] bytes at [a] lie on. *)
Definition pages_in (a n : Z) : Z := (a + n + 4095) `div` 4096 - a `div` 4096.

(** [hm_frames]: the number of free frames. A page takes one of them, and its page
    tables at most three. *)
Class HeapEnvLaws (X : Type) `{!HeapEnv X} := {
  hm_inv : X → Prop;
  hm_word : X → Z → option Z;
  hm_keep : X → X → Prop;
  hm_frames : X → Z;
  hm_keep_order : PreOrder hm_keep;
  hm_area_ok : 0 < hal_virtmem_kmembase ∧ 0 < hal_virtmem_kmemsize ∧ (4096 | hal_virtmem_kmembase) ∧
    (64 | hal_virtmem_kmemsize) ∧
    hal_virtmem_kmembase + hal_virtmem_kmemsize ≤ 2 ^ 64 - 2 ^ 32;
  hload_ok x a w : hm_inv x → hm_word x a = Some w → hload a x = Ret (w, x);
  hstore_ok x a w v : hm_inv x → hm_word x a = Some w →
    ∃ x', hstore a v x = Ret (tt, x') ∧ (hm_inv x' ∧ hm_keep x x') ∧
      ∀ b, hm_word x' b = if decide (b = a) then Some v else hm_word x b;
  hm_mapped_ok x a n : hm_inv x → (8 | a) → 0 < n → (∀ b, (8 | b) → a ≤ b < a + n → is_Some (hm_word x b)) →
    kmap_mapped_range a n x = Ret (true, x);
  hm_ensure_ok x a n : hm_inv x → (8 | a) → hal_virtmem_kmembase ≤ a → 0 < n →
    a + n ≤ hal_virtmem_kmembase + hal_virtmem_kmemsize →
    (∃ r x', kmap_ensure_range a n (Z.lor HAL_PTE_P HAL_PTE_W) x = Ret (r, x') ∧ (hm_inv x' ∧ hm_keep x x') ∧
       (∀ b w, hm_word x b = Some w → hm_word x' b = Some w) ∧
       (∀ b, hm_word x b = None → hm_word x' b = None ∨ hm_word x' b = Some 0) ∧
       if decide (r = 0) then ∀ b, (8 | b) → a ≤ b < a + n → is_Some (hm_word x' b)
       else (∃ b, (8 | b) ∧ a ≤ b < a + n ∧ hm_word x b = None) ∧ hm_frames x < 4 * pages_in a n) ∨
    (kmap_ensure_range a n (Z.lor HAL_PTE_P HAL_PTE_W) x = Abort AssertFail ∧
       (∃ b, (8 | b) ∧ a ≤ b < a + n ∧ hm_word x b = None) ∧ hm_frames x < 4 * pages_in a n);
  hm_unmap_ok x a n : hm_inv x → (4096 | a) → (4096 | n) → hal_virtmem_kmembase ≤ a → 0 ≤ n →
    a + n ≤ hal_virtmem_kmembase + hal_virtmem_kmemsize →
    ∃ r x', kmap_ensure_range a n 0 x = Ret (r, x') ∧ (hm_inv x' ∧ hm_keep x x') ∧
      (∀ b, ¬ (a ≤ b < a + n) → hm_word x' b = hm_word x b) ∧
      (∀ b, hm_word x' b = None ∨ hm_word x' b = hm_word x b);
  hm_commit_ok x : hm_inv x → ∃ x', kmap_commit x = Ret (tt, x') ∧ (hm_inv x' ∧ hm_keep x x') ∧
    ∀ b, hm_word x' b = hm_word x b;
}.

#[export] Existing Instance hm_keep_order.

Section entries.
Context {X : Type} `{!HeapEnv X, !HeapEnvLaws X}.
Implicit Types (e : kmst X) (F : entries).

(** The words of blocks in use. *)
Context (D : gmap Z Z).

(** The head and the tail of a free block. *)
Definition framed (x : X) (p a s : Z) : Prop :=
  hm_word x p = Some ZONE_HEAD_MAGIC ∧ hm_word x (p + head_addr) = Some a ∧ hm_word x (p + head_size) = Some s ∧
  hm_word x (p + 64 * s - SIZEOF_TAIL + tail_magic) = Some ZONE_TAIL_MAGIC ∧
  hm_word x (p + 64 * s - SIZEOF_TAIL) = Some (64 * s - SIZEOF_TAIL).

(** Addresses of the upper heap. *)
Definition in_heap e (p n : Z) : Prop := (brk e).2 ≤ p ∧ 0 < n ∧ p + n ≤ (base e).2.

Definition no_data (p n : Z) : Prop := ∀ b, is_Some (D !! b) → ¬ (p ≤ b < p + n).

(** The breaks, and the memory above the upper one, which is mapped. *)
Record brk_ok e : Prop := {
  bo_lock : brklock e = false;
  bo_x : hm_inv (km_x e);
  bo_area : base e = (hal_virtmem_kmembase, hal_virtmem_kmembase + hal_virtmem_kmemsize);
  bo_order : (base e).1 ≤ (brk e).1 ∧ (brk e).1 < (brk e).2 ∧ (brk e).2 ≤ (base e).2;
  bo_align : (64 | (brk e).2);
  bo_mem b : (8 | b) → (brk e).2 ≤ b < (base e).2 → is_Some (hm_word (km_x e) b);
}.

(** The entries [F]: each is a framed block, no two overlap, the magic numbers are
    nowhere else above the lower break, and the words of [D] are outside. *)
Record km_ok e F : Prop := {
  ko_brk : brk_ok e;
  ko_entry p a s : F !! p = Some (a, s) → p = 64 * a ∧ in_heap e p (64 * s) ∧ framed (km_x e) p a s ∧ no_data p (64 * s);
  ko_apart p q a s a' s' : p ≠ q → F !! p = Some (a, s) → F !! q = Some (a', s') → p + 64 * s ≤ q ∨ q + 64 * s' ≤ p;
  ko_heads c : (64 | c) → (brk e).1 ≤ c < (base e).2 → hm_word (km_x e) c = Some ZONE_HEAD_MAGIC → is_Some (F !! c);
  ko_tails c : (64 | c) → (brk e).1 ≤ c < (base e).2 → hm_word (km_x e) (c + 56) = Some ZONE_TAIL_MAGIC →
    ∃ p a s, F !! p = Some (a, s) ∧ p + 64 * s = c + 64;
  ko_data b w : D !! b = Some w → hm_word (km_x e) b = Some w ∧ (brk e).2 ≤ b < (base e).2;
}.

Definition same_brk e e' : Prop := base e' = base e ∧ brk e' = brk e ∧ maxbrk e' = maxbrk e ∧
    kmem_trim e' = kmem_trim e ∧ hm_keep (km_x e) (km_x e').

Lemma on_x_run {B} (m : M X B) e b x : m (km_x e) = Ret (b, x) → on_x m e = Ret (b, set_x x e).
Proof. intros Hm. unfold on_x, zoom. by rewrite Hm. Qed.

Lemma set_x_id e : set_x (km_x e) e = e.
Proof. by destruct e. Qed.

Lemma hload_run e a w : hm_inv (km_x e) → hm_word (km_x e) a = Some w → on_x (hload a) e = Ret (w, e).
Proof. intros Hi Hw. rewrite (on_x_run _ e _ _ (hload_ok _ _ _ Hi Hw)). by rewrite set_x_id. Qed.

(** ** Stores *)

(** The words after the stores [W], the last one first. *)
Fixpoint over (W : list (Z * Z)) (f : Z → option Z) (b : Z) : option Z :=
  match W with
  | [] => f b
  | (a, v) :: W' => if decide (b = a) then Some v else over W' f b
  end.

Definition wrote e (W : list (Z * Z)) e' : Prop :=
  e' = set_x (km_x e') e ∧ (hm_inv (km_x e') ∧ hm_keep (km_x e) (km_x e')) ∧
    ∀ b, hm_word (km_x e') b = over W (hm_word (km_x e)) b.

Lemma wrote_nil e : hm_inv (km_x e) → wrote e [] e.
Proof. intros Hi. split; [by destruct e|done]. Qed.

Lemma over_some W f b : is_Some (f b) → is_Some (over W f b).
Proof. intros Hf. induction W as [|[a v] W IH]; [done|]. cbn. case_decide; [by eexists|done]. Qed.

Lemma over_out W f b : Forall (λ w, b ≠ w.1) W → over W f b = f b.
Proof. induction 1 as [|[a v] W Hb HW IH]; [done|]. cbn in *. by rewrite decide_False. Qed.

Lemma wp_store e e1 W a v (Q : unit → kmst X → Prop) : wrote e W e1 → is_Some (hm_word (km_x e) a) →
  (∀ e2, wrote e ((a, v) :: W) e2 → Q tt e2) → wp (on_x (hstore a v)) Q e1.
Proof.
  intros (He & [Hi Hk] & Hw) Ha HQ. destruct (over_some W _ _ Ha) as [w Hw']. rewrite <- Hw in Hw'.
  destruct (hstore_ok _ _ _ v Hi Hw') as (x' & Hr & [Hi' Hk'] & Hx'). eapply wp_Ret; [by apply on_x_run|]. apply HQ.
  split; [by rewrite He|]. split; [split; [done|by etrans]|].
  intros b. cbn. rewrite Hx'. case_decide; [done|]. apply Hw.
Qed.

Lemma framed_ext x x' p a s : 0 < s → (∀ b, p ≤ b < p + 64 * s → hm_word x' b = hm_word x b) → framed x p a s →
    framed x' p a s.
Proof.
  unfold framed, head_addr, head_size, tail_magic, SIZEOF_TAIL. intros Hs Hw (H1 & H2 & H3 & H4 & H5).
  rewrite !Hw by lia. done.
Qed.

(** An operation that only writes in [p, p + n) keeps the entries and the data
    outside. *)
Lemma wrote_outside e W e' p n b : wrote e W e' → Forall (λ w, p ≤ w.1 < p + n) W → ¬ (p ≤ b < p + n) →
  hm_word (km_x e') b = hm_word (km_x e) b.
Proof.
  intros (_ & _ & Hw) HW Hb. rewrite Hw. apply over_out. eapply Forall_impl; [exact HW|]. intros w Hr Heq. cbn in Hr. lia.
Qed.

Lemma wrote_brk e W e' : brk_ok e → wrote e W e' → brk_ok e' ∧ same_brk e e'.
Proof.
  intros [H1 H2 H3 H4 H5 H6] (He & [Hi Hk] & Hw). rewrite He in *. cbn in *. split; [|done]. split; try done. cbn.
  intros b Hb Hr. rewrite Hw. by apply over_some, H6.
Qed.

Definition mk_words (p a s : Z) : list (Z * Z) :=
  [(p + 64 * s - SIZEOF_TAIL, 64 * s - SIZEOF_TAIL); (p + 64 * s - SIZEOF_TAIL + tail_magic, ZONE_TAIL_MAGIC);
   (p + head_size, s); (p + head_addr, a); (p, ZONE_HEAD_MAGIC)].

Lemma z_to_v_eq z : 0 ≤ z → 64 * z < 2 ^ 64 → z_to_v z = 64 * z.
Proof.
  intros H0 Hz. unfold z_to_v. rewrite Z.shiftl_mul_pow2 by lia. change (2 ^ 6) with 64.
  rewrite u64_small by (unfold word64; lia). lia.
Qed.

Lemma heap_range e : brk_ok e → 0 < (brk e).2 ∧ (base e).2 ≤ 2 ^ 64 - 2 ^ 32 ∧ (64 | (base e).2).
Proof.
  intros [_ _ H3 H4 _ _]. destruct hm_area_ok as (? & ? & ? & ? & ?). rewrite H3 in *. cbn in *. split_and!; try lia.
  apply Z.divide_add_r; [|done]. etrans; [|done]. by exists 64.
Qed.

(** The words of a block of the heap can be accessed. *)
Lemma heap_word e p n b : brk_ok e → in_heap e p n → (8 | b) → p ≤ b < p + n → is_Some (hm_word (km_x e) b).
Proof. intros Hb (? & ? & ?) Hd Hr. apply (bo_mem _ Hb); [done|]. lia. Qed.

Lemma mkptr_run e a s o : brk_ok e → in_heap e (64 * a) (64 * s) → 0 ≤ a →
  wp (___mkptr a s o) (λ p e', p = 64 * a ∧ wrote e (mk_words (64 * a) a s) e') e.
Proof.
  intros Hb Hh Ha. pose proof (heap_range e Hb) as (Hb0 & Hb1 & _). pose proof Hh as (Hh1 & Hh2 & Hh3).
  assert (∀ b, (8 | b) → 64 * a ≤ b < 64 * a + 64 * s → is_Some (hm_word (km_x e) b)) as Hw by (intros; by eapply heap_word).
  unfold ___mkptr. rewrite !z_to_v_eq by lia.
  rewrite (u64_small (64 * s - SIZEOF_TAIL)) by (unfold word64, SIZEOF_TAIL; lia).
  unfold head_addr, head_size, tail_magic, SIZEOF_TAIL in *.
  apply wp_bind. eapply wp_store; [by apply wrote_nil, Hb|apply Hw; [by exists (8 * a); lia|lia]|intros e1 H1].
  apply wp_bind. eapply wp_store; [exact H1|apply Hw; [by exists (8 * a + 3); lia|lia]|intros e2 H2].
  apply wp_bind. eapply wp_store; [exact H2|apply Hw; [by exists (8 * a + 4); lia|lia]|intros e3 H3].
  apply wp_bind. eapply wp_store; [exact H3|apply Hw; [by exists (8 * a + 8 * s - 1); lia|lia]|intros e4 H4].
  apply wp_bind. eapply wp_store; [exact H4|apply Hw; [by exists (8 * a + 8 * s - 2); lia|lia]|intros e5 H5].
  apply wp_mret. done.
Qed.

Lemma mk_words_in p a s : 0 < s → Forall (λ w, p ≤ w.1 < p + 64 * s) (mk_words p a s).
Proof.
  intros Hs. unfold mk_words, head_addr, head_size, tail_magic, SIZEOF_TAIL. repeat constructor; cbn; lia.
Qed.

Lemma mk_words_framed f p a s x' : 0 < s → (∀ b, hm_word x' b = over (mk_words p a s) f b) → framed x' p a s.
Proof.
  intros Hs Hw. unfold framed. rewrite !Hw. unfold mk_words, head_addr, head_size, tail_magic, SIZEOF_TAIL. cbn [over].
  split_and!; repeat (case_decide; try lia); done.
Qed.

Lemma mkptr_ok' e e' F a s : km_ok e F → 0 ≤ a → in_heap e (64 * a) (64 * s) → no_data (64 * a) (64 * s) →
  (∀ q a' s', F !! q = Some (a', s') → 64 * a + 64 * s ≤ q ∨ q + 64 * s' ≤ 64 * a) →
  wrote e (mk_words (64 * a) a s) e' → F !! (64 * a) = None ∧ km_ok e' (<[64 * a := (a, s)]> F) ∧ same_brk e e'.
Proof.
  intros [Hb He Hap Hh Ht Hd] Ha Hin Hnd Hdis Hw. destruct (wrote_brk _ _ _ Hb Hw) as [Hb' Hsame].
  pose proof Hsame as (Hsb & Hsk & _).
  assert (0 < s) as Hs by (destruct Hin as (_ & ? & _); lia). set (p := 64 * a) in *.
  assert (F !! p = None) as Hp.
  { apply eq_None_not_Some. intros [[a' s'] Hp]. destruct (Hdis _ _ _ Hp) as [?|?]; [lia|].
    destruct (He _ _ _ Hp) as (_ & (_ & ? & _) & _). lia. }
  assert (∀ b, ¬ (p ≤ b < p + 64 * s) → hm_word (km_x e') b = hm_word (km_x e) b) as Hout by (intros;
    eapply wrote_outside; [exact Hw|by apply mk_words_in|done]).
  pose proof Hw as (_ & _ & Hww). split; [done|]. split; [|done]. split.
  - done.
  - intros q a' s' [[<- [= <- <-]]|[Hne Hq]]%lookup_insert_Some.
    + split_and!; [done|..|done]; [unfold in_heap in *; by rewrite Hsb, Hsk|]. by eapply mk_words_framed.
    + destruct (He _ _ _ Hq) as (Hqa & Hqh & Hqf & Hqd). split_and!; [done|unfold in_heap in *; by rewrite Hsb, Hsk| |done].
      eapply framed_ext; [|intros b Hbr; apply Hout|exact Hqf]; [by destruct Hqh as (_ & ? & _); lia|].
      specialize (Hdis _ _ _ Hq). lia.
  - intros q q' a1 s1 a2 s2 Hne. rewrite !lookup_insert_Some.
    intros [[<- [= <- <-]]|[Hq H1]] [[<- [= <- <-]]|[Hq' H2]]; [done|by eapply Hdis| |by eapply Hap].
    specialize (Hdis _ _ _ H1). lia.
  - intros c Hc Hr Hm. rewrite Hsb, Hsk in Hr. destruct (decide (c = p)) as [->|Hne]; [by rewrite lookup_insert_eq|].
    rewrite lookup_insert_ne by done.
    apply Hh; [done|done|]. rewrite <- Hm, Hww. symmetry. apply over_out. destruct Hc as [i ->].
    unfold mk_words, head_addr, head_size, tail_magic, SIZEOF_TAIL, p in *. repeat constructor; cbn; lia.
  - intros c Hc Hr Hm. rewrite Hsb, Hsk in Hr.
    destruct (decide (c + 64 = p + 64 * s)) as [Heq|Hne]; [exists p, a, s; by rewrite lookup_insert_eq|].
    destruct (Ht c Hc Hr) as (q & a' & s' & Hq & Hend).
    + rewrite <- Hm, Hww. symmetry. apply over_out. destruct Hc as [i ->].
      unfold mk_words, head_addr, head_size, tail_magic, SIZEOF_TAIL, p in *. repeat constructor; cbn; lia.
    + exists q, a', s'. rewrite lookup_insert_ne by congruence. done.
  - intros b w Hbw. destruct (Hd b w Hbw) as [H1 H2]. rewrite Hsb, Hsk. split; [|done]. rewrite Hout; [done|].
    apply Hnd. by eexists.
Qed.

(** ** Clearing *)

Definition clr_words (p s : Z) : list (Z * Z) :=
  [(p + 64 * s - SIZEOF_TAIL + 8, 0); (p + 64 * s - SIZEOF_TAIL, 0); (p + 32, 0); (p + 24, 0); (p + 16, 0);
    (p + 8, 0); (p, 0)].

Lemma freeptr_run e p a s o : brk_ok e → in_heap e p (64 * s) → p = 64 * a → framed (km_x e) p a s →
  wp (___freeptr p o) (λ _ e', wrote e (clr_words p s) e') e.
Proof.
  intros Hb Hh -> (_ & _ & Hsz & _). pose proof (heap_range e Hb) as (Hb0 & Hb1 & _). pose proof Hh as (Hh1 & Hh2 & Hh3).
  assert (∀ b, (8 | b) → 64 * a ≤ b < 64 * a + 64 * s → is_Some (hm_word (km_x e) b)) as Hw by (intros; by eapply heap_word).
  unfold ___freeptr. apply wp_bind. eapply wp_Ret; [apply hload_run; [apply Hb|exact Hsz]|]. rewrite z_to_v_eq by lia.
  unfold clear_words, SIZEOF_TAIL. change (seqZ 0 5%nat) with [0; 1; 2; 3; 4]. change (seqZ 0 2%nat) with [0; 1].
  cbn [for_each].
  rewrite !Z.mul_0_r, !Z.add_0_r. change (8 * 1) with 8. change (8 * 2) with 16. change (8 * 3) with 24.
  change (8 * 4) with 32.
  apply wp_bind. apply wp_bind.
  eapply wp_store; [by apply wrote_nil, Hb|apply Hw; [by exists (8 * a); lia|lia]|intros e1 H1].
  apply wp_bind. eapply wp_store; [exact H1|apply Hw; [by exists (8 * a + 1); lia|lia]|intros e2 H2].
  apply wp_bind. eapply wp_store; [exact H2|apply Hw; [by exists (8 * a + 2); lia|lia]|intros e3 H3].
  apply wp_bind. eapply wp_store; [exact H3|apply Hw; [by exists (8 * a + 3); lia|lia]|intros e4 H4].
  apply wp_bind. eapply wp_store; [exact H4|apply Hw; [by exists (8 * a + 4); lia|lia]|intros e5 H5]. apply wp_mret.
  apply wp_bind. eapply wp_store; [exact H5|apply Hw; [by exists (8 * a + 8 * s - 2); lia|lia]|intros e6 H6].
  apply wp_bind. eapply wp_store; [exact H6|apply Hw; [by exists (8 * a + 8 * s - 1); lia|lia]|intros e7 H7]. apply wp_mret.
  done.
Qed.

Lemma freeptr_ok' e e' F p a s : km_ok e F → F !! p = Some (a, s) → wrote e (clr_words p s) e' →
    km_ok e' (delete p F) ∧ same_brk e e'.
Proof.
  intros [Hb He Hap Hh Ht Hd] Hp Hw. destruct (wrote_brk _ _ _ Hb Hw) as [Hb' Hsame]. pose proof Hsame as (Hsb & Hsk & _).
  destruct (He _ _ _ Hp) as (Hpa & Hin & _ & Hnd). assert (0 < s) as Hs by (destruct Hin as (_ & ? & _); lia).
  assert (∀ b, ¬ (p ≤ b < p + 64 * s) → hm_word (km_x e') b = hm_word (km_x e) b) as Hout.
  { intros b Hbr. eapply wrote_outside; [exact Hw| |done]. unfold clr_words, SIZEOF_TAIL. repeat constructor; cbn; lia. }
  pose proof Hw as (_ & _ & Hww). split; [|done]. split.
  - done.
  - intros q a' s' [Hne Hq]%lookup_delete_Some. destruct (He _ _ _ Hq) as (Hqa & Hqh & Hqf & Hqd).
    split_and!; [done|unfold in_heap in *; by rewrite Hsb, Hsk| |done].
    eapply framed_ext; [|intros b Hbr; apply Hout|exact Hqf]; [by destruct Hqh as (_ & ? & _); lia|].
    destruct (Hap _ _ _ _ _ _ Hne Hp Hq); lia.
  - intros q q' a1 s1 a2 s2 Hne [_ H1]%lookup_delete_Some [_ H2]%lookup_delete_Some. by eapply Hap.
  - intros c Hc Hr Hm. rewrite Hsb, Hsk in Hr. destruct (decide (c = p)) as [->|Hne].
    { rewrite Hww in Hm. unfold clr_words, SIZEOF_TAIL in Hm. cbn [over] in Hm. repeat (case_decide; try lia; try done). }
    rewrite lookup_delete_ne by done. apply Hh; [done|done|].
    destruct (decide (p ≤ c < p + 64 * s)) as [Hcr|Hcr]; [|by rewrite <- Hout].
    rewrite <- Hm, Hww. symmetry. apply over_out. destruct Hc as [i ->]. unfold clr_words, SIZEOF_TAIL.
    repeat constructor; cbn; lia.
  - intros c Hc Hr Hm. rewrite Hsb, Hsk in Hr. assert (c + 64 ≠ p + 64 * s) as Hne.
    { intros Heq. rewrite Hww in Hm. unfold clr_words, SIZEOF_TAIL in Hm. cbn [over] in Hm.
      rewrite decide_True in Hm by lia. done. }
    destruct (Ht c Hc Hr) as (q & a' & s' & Hq & Hend).
    + rewrite <- Hm, Hww. symmetry. apply over_out. destruct Hc as [i ->]. unfold clr_words, SIZEOF_TAIL.
      repeat constructor; cbn; lia.
    + exists q, a', s'. rewrite lookup_delete_ne; [done|]. intros ->. by simplify_eq.
  - intros b w Hbw. destruct (Hd b w Hbw) as [H1 H2]. rewrite Hsb, Hsk. split; [|done]. rewrite Hout; [done|].
    apply Hnd. by eexists.
Qed.

(** ** Neighbours *)

Lemma brklock_run {B} (m : M (kmst X) B) e (b : B) : brklock e = false →
    m (set_brklock true e) = Ret (b, set_brklock true e) →
  with_brklock m e = Ret (b, e).
Proof.
  intros Hl Hm. unfold with_brklock, spinlock, spinunlock, mbind, M_bind. rewrite Hl. rewrite Hm.
  unfold modify, mret, M_ret. do 2 f_equal.
  destruct e. cbn in *. by subst.
Qed.

Lemma mapped_run e a n : brk_ok e → (8 | a) → 0 < n → (∀ b, (8 | b) → a ≤ b < a + n → is_Some (hm_word (km_x e) b)) →
    on_x (kmap_mapped_range a n) e = Ret (true, e).
Proof. intros Hb Ha Hn Hw. rewrite (on_x_run _ e _ _ (hm_mapped_ok _ _ _ (bo_x _ Hb) Ha Hn Hw)). by rewrite set_x_id. Qed.

Lemma prev_run e F c : km_ok e F → (64 | c) → (brk e).2 ≤ c < (base e).2 →
  ∃ r, prev_of (c + 48) e = Ret (r, e) ∧ (∀ p, r = Some p → ∃ a s, F !! p = Some (a, s) ∧ p + 64 * s = c + 64) ∧
    (∀ p a s, F !! p = Some (a, s) → p + 64 * s = c + 64 → r = Some p).
Proof.
  intros Hok Hc Hr. pose proof Hok as [Hb He Hap Hh Ht _]. pose proof (heap_range e Hb) as (Hb0 & Hb1 & Hb2).
  pose proof (bo_order _ Hb) as Hord.
  assert (c + 64 ≤ (base e).2) as Hend by (destruct Hc as [i ->], Hb2 as [j Hj]; lia).
  assert (∀ b, (8 | b) → (brk e).2 ≤ b < (base e).2 → is_Some (hm_word (km_x e) b)) as Hw by apply Hb.
  unfold prev_of. rewrite (proj2 (Z.eqb_neq _ VADDR_NONE)) by (unfold VADDR_NONE; lia).
  mrun (mapped_run e (c + 48) SIZEOF_TAIL Hb ltac:(destruct Hc as [i ->]; exists (8 * i + 6);
    lia) ltac:(done) ltac:(unfold SIZEOF_TAIL; intros; apply Hw; [done|lia])). cbn [negb].
  destruct (Hw (c + 56)) as [m Hm]; [destruct Hc as [i ->]; exists (8 * i + 7); lia|lia|]. unfold tail_magic.
  replace (c + 48 + 8) with (c + 56) by lia. mrun (hload_run e (c + 56) m (bo_x _ Hb) Hm).
  destruct (Z.eqb_spec m ZONE_TAIL_MAGIC) as [->|Hne]; cbn [negb].
  - destruct (Ht c Hc ltac:(lia) Hm) as (p & a & s & Hp & Hpe).
    destruct (He _ _ _ Hp) as (Hpa & (Hp1 & Hp2 & Hp3) & (Hf1 & _ & _ & _ & Hf5) & _).
    unfold SIZEOF_TAIL in Hf5. replace (p + 64 * s - 16) with (c + 48) in Hf5 by lia.
    mrun (hload_run e (c + 48) _ (bo_x _ Hb) Hf5).
    replace (c + 48 - (64 * s - 16)) with p by lia. rewrite (u64_small p) by (unfold word64; lia).
    mrun (mapped_run e p SIZEOF_HEAD Hb ltac:(exists (8 * a); lia) ltac:(done) ltac:(unfold SIZEOF_HEAD; intros;
      apply Hw; [done|lia])). cbn [negb].
    mrun (hload_run e p _ (bo_x _ Hb) Hf1). rewrite Z.eqb_refl. exists (Some p). split; [done|].
    split; [intros ? [= <-]; eauto|].
    intros q a' s' Hq Hqe. destruct (decide (q = p)) as [->|Hne]; [done|]. destruct (He _ _ _ Hq) as (_ & (_ & ? & _) & _).
    destruct (Hap _ _ _ _ _ _ Hne Hq Hp); lia.
  - exists None. split; [done|]. split; [done|]. intros p a s Hp Hpe.
    destruct (He _ _ _ Hp) as (_ & _ & (_ & _ & _ & Hf4 & _) & _).
    unfold SIZEOF_TAIL, tail_magic in Hf4. replace (p + 64 * s - 16 + 8) with (c + 56) in Hf4 by lia. congruence.
Qed.

Lemma next_run e F c : km_ok e F → (64 | c) → (brk e).2 ≤ c < (base e).2 →
  ∃ r, next_of c e = Ret (r, e) ∧ (∀ p, r = Some p → p = c ∧ is_Some (F !! c)) ∧ (is_Some (F !! c) → r = Some c).
Proof.
  intros Hok Hc Hr. pose proof Hok as [Hb He Hap Hh Ht _]. pose proof (heap_range e Hb) as (Hb0 & Hb1 & Hb2).
  pose proof (bo_order _ Hb) as Hord.
  assert (c + 64 ≤ (base e).2) as Hend by (destruct Hc as [i ->], Hb2 as [j Hj]; lia).
  assert (∀ b, (8 | b) → (brk e).2 ≤ b < (base e).2 → is_Some (hm_word (km_x e) b)) as Hw by apply Hb.
  unfold next_of. rewrite (proj2 (Z.eqb_neq _ VADDR_NONE)) by (unfold VADDR_NONE; lia).
  mrun (mapped_run e c SIZEOF_HEAD Hb ltac:(destruct Hc as [i ->]; exists (8 * i);
    lia) ltac:(done) ltac:(unfold SIZEOF_HEAD; intros; apply Hw; [done|lia])). cbn [negb].
  destruct (Hw c) as [m Hm]; [destruct Hc as [i ->]; exists (8 * i); lia|lia|]. mrun (hload_run e c m (bo_x _ Hb) Hm).
  exists (if m =? ZONE_HEAD_MAGIC then Some c else None). split; [done|].
  destruct (Z.eqb_spec m ZONE_HEAD_MAGIC) as [->|Hne]; (split; [|done || idtac]).
  - intros ? [= <-]. split; [done|]. apply Hh; [done|lia|done].
  - done.
  - intros [[a s] Hp]. destruct (He _ _ _ Hp) as (_ & _ & (Hf1 & _) & _). congruence.
Qed.

Lemma neighbors_run' e F a s : km_ok e F → in_heap e (64 * a) (64 * s) → 0 ≤ a →
  ∃ pn nn, ___get_neighbors a s 0 e = Ret ((pn, nn), e) ∧
    (∀ p, pn = Some p → ∃ a' s', F !! p = Some (a', s') ∧ a' + s' = a) ∧
    (∀ p, nn = Some p → ∃ s', F !! p = Some (a + s, s')) ∧
    (∀ p a' s', F !! p = Some (a', s') → (a' + s' = a → pn = Some p) ∧ (a' = a + s → nn = Some p)).
Proof.
  intros Hok Hh Ha. pose proof Hok as [Hb He _ _ _ _]. pose proof (heap_range e Hb) as (Hb0 & Hb1 & Hb2).
  pose proof Hh as (Hh1 & Hh2 & Hh3).
  pose proof (bo_align _ Hb) as Hal. unfold ___get_neighbors. change (negb (0 =? 0)) with false.
  rewrite !z_to_v_eq by lia. unfold SIZEOF_TAIL, SIZEOF_HEAD.
  rewrite (u64_small (64 * a + 64 * s)), (u64_small (64 * a - 16)), (u64_small (_ + 40)) by (unfold word64; lia).
  erewrite bind_Ret by (apply brklock_run; [apply Hb|reflexivity]). cbn [set_brklock brk base].
  assert (∃ pn, prev_of (if 64 * a - 16 <? (brk e).2 then VADDR_NONE else 64 * a - 16) e = Ret (pn, e) ∧
    (∀ p, pn = Some p → ∃ a' s', F !! p = Some (a', s') ∧ a' + s' = a) ∧
      (∀ p a' s', F !! p = Some (a', s') → a' + s' = a → pn = Some p)) as (pn & H1 & H2 & H3).
  { destruct (Z.ltb_spec (64 * a - 16) (brk e).2) as [Hlt|Hge].
    - exists None. split; [done|]. split; [done|]. intros p a' s' Hp Hadj.
      destruct (He _ _ _ Hp) as (-> & (? & ? & _) & _). destruct Hal as [i Hi]. lia.
    - destruct (prev_run e F (64 * (a - 1)) Hok) as (r & Hr & Hr1 & Hr2);
        [by exists (a - 1); lia|destruct Hal as [i Hi]; lia|].
      replace (64 * a - 16) with (64 * (a - 1) + 48) by lia. exists r. split; [done|]. split.
      + intros p Hp. destruct (Hr1 p Hp) as (a' & s' & Ha' & Hend). exists a', s'. split; [done|].
        destruct (He _ _ _ Ha') as (-> & _). lia.
      + intros p a' s' Hp Hadj. destruct (He _ _ _ Hp) as (Hpa & _). eapply Hr2; [exact Hp|]. lia. }
  assert (∃ nn, next_of (if (base e).2 <? 64 * a + 64 * s + 40 then VADDR_NONE else 64 * a + 64 * s) e = Ret (nn, e) ∧
    (∀ p, nn = Some p → ∃ s', F !! p = Some (a + s, s')) ∧ (∀ p a' s', F !! p = Some (a', s') → a' = a + s →
      nn = Some p)) as (nn & H4 & H5 & H6).
  { destruct (Z.ltb_spec (base e).2 (64 * a + 64 * s + 40)) as [Hlt|Hge].
    - exists None. split; [done|]. split; [done|]. intros p a' s' Hp ->.
      destruct (He _ _ _ Hp) as (-> & (? & ? & ?) & _). lia.
    - destruct (next_run e F (64 * (a + s)) Hok) as (r & Hr & Hr1 & Hr2); [by exists (a + s); lia|lia|].
      replace (64 * a + 64 * s) with (64 * (a + s)) by lia. exists r. split; [done|]. split.
      + intros p Hp. destruct (Hr1 p Hp) as [-> [[a' s'] Ha']]. exists s'. destruct (He _ _ _ Ha') as (Hpa & _).
        by replace (a + s) with a' at 2 by lia.
      + intros p a' s' Hp ->. destruct (He _ _ _ Hp) as (Hpa & _). rewrite Hpa. apply Hr2. rewrite <- Hpa. eauto. }
  exists pn, nn. split; [mrun H1; by mrun H4|]. split; [done|]. split; [done|]. intros p a' s' Hp.
  split; [by eapply H3|by eapply H6].
Qed.

(** * The contract with the zone allocator *)

Definition km_area e (a s : Z) : Prop := 0 ≤ a ∧ in_heap e (64 * a) (64 * s) ∧ no_data (64 * a) (64 * s) ∧
    (base e).2 ≤ 2 ^ 64 - 2 ^ 32.

Definition kmem_zone_laws : ZoneEnvLaws (kmst X).
Proof.
  refine {|
    zv_inv o e F := o = 0 ∧ km_ok e F;
    zv_area o e a s := km_area e a s;
    zv_can e := True;
    zv_keep := same_brk;
    zv_gap := 1;
    zv_unit := 1;
  |}.
  - lia.
  - split; [by intros e|]. unfold same_brk. intros e1 e2 e3 (-> & -> & -> & -> & Hk1) (-> & -> & -> & -> & Hk2).
    split_and!; try done. by etrans.
  - intros _ e e' a s (Hb & Hk & _) (? & ? & ? & ?). unfold km_area, in_heap in *. by rewrite Hb, Hk.
  - intros _ e a s (? & (? & ? & ?) & ? & ?). lia.
  - intros _ e F p a s [_ Hok] Hp. destruct (ko_entry _ _ Hok _ _ _ Hp) as (-> & Hh & _ & Hnd).
    pose proof (heap_range e (ko_brk _ _ Hok)). split_and!; try done; [|lia].
    destruct Hh as (? & _). lia.
  - intros _ e a s s' (? & (? & ? & ?) & Hd1 & ?) (? & (? & ? & ?) & Hd2 & ?). unfold km_area, in_heap. split_and!; try lia.
    intros b Hb Hr. destruct (decide (b < 64 * (a + s))); [apply (Hd1 b Hb)|apply (Hd2 b Hb)]; lia.
  - intros _ e a s s' (? & (? & ? & ?) & Hd1 & ?) Hs _. unfold km_area, in_heap.
    split_and!; try lia; intros b Hb Hr; apply (Hd1 b Hb); lia.
  - intros _ e F p a s [_ Hok] Hp. destruct (ko_entry _ _ Hok _ _ _ Hp) as (_ & _ & (_ & H2 & H3 & _) & _).
    pose proof (bo_x _ (ko_brk _ _ Hok)) as Hx.
    cbn. unfold ze_head. mrun (hload_run e _ _ Hx H2). by mrun (hload_run e _ _ Hx H3).
  - intros o e F p a s [-> Hok] Hp. destruct (ko_entry _ _ Hok _ _ _ Hp) as (Hpa & Hh & Hf & _).
    destruct (wp_elim _ _ _ (freeptr_run e p a s 0 (ko_brk _ _ Hok) Hh Hpa Hf)) as ([] & e' & Hr & Hw).
    destruct (freeptr_ok' e e' F p a s Hok Hp Hw) as [Hok' Hsame]. by exists e'.
  - intros o e F a s [-> Hok] (Ha & Hh & _) _.
    destruct (neighbors_run' e F a s Hok Hh Ha) as (pn & nn & H1 & H2 & H3 & H4). exists pn, nn. split; [exact H1|].
    auto.
  - intros o e F a s [-> Hok] _ (Ha & Hh & Hnd & _) Hap.
    destruct (wp_elim _ _ _ (mkptr_run e a s 0 (ko_brk _ _ Hok) Hh Ha)) as (p & e' & Hr & -> & Hw).
    destruct (mkptr_ok' e e' F a s Hok Ha Hh Hnd) as (Hn & Hok' & Hsame); [|done|by exists (64 * a), e'].
    intros q a' s' Hq. destruct (ko_entry _ _ Hok _ _ _ Hq) as (-> & _). specialize (Hap _ _ Hq).
    unfold apart in Hap. cbn in Hap. lia.
Defined.

End entries.
