(* ===== verification/KmemOps.v ===== *)
(** Allocation and release of blocks of the upper heap: every word above the break
    is either a word of a block in use or in a free block of the zone. *)

From S2P Require Import Prelude Words Locks Machine Hal Kmap Zone Kmem KmemInv.

(** * Words of a block *)

Definition block_at (f : Z → option Z) (p n : Z) : gmap Z Z :=
  list_to_map ((λ i, (p + 8 * i, default 0 (f (p + 8 * i)))) <$> seqZ 0 (n `div` 8)).

Definition outside (p n : Z) (D : gmap Z Z) : gmap Z Z := filter (λ bw, ¬ (p ≤ bw.1 < p + n)) D.

Lemma block_at_lookup f p n b w : (8 | n) → block_at f p n !! b = Some w ↔ (8 | b - p) ∧ p ≤ b < p + n ∧ w = default 0 (f b).
Proof.
  intros [m ->]. unfold block_at. rewrite Z.div_mul by done. rewrite <- elem_of_list_to_map.
  - rewrite list_elem_of_fmap. setoid_rewrite elem_of_seqZ. split.
    + intros (i & [= -> ->] & Hi). split; [exists i; lia|]. split; [lia|done].
    + intros ([i Hi] & Hr & ->). exists i. replace (p + 8 * i) with b by lia. split; [done|lia].
  - rewrite <- list_fmap_compose. apply NoDup_fmap; [|apply NoDup_seqZ]. intros i j. cbn. lia.
Qed.

Lemma outside_lookup p n D b w : outside p n D !! b = Some w ↔ D !! b = Some w ∧ ¬ (p ≤ b < p + n).
Proof. apply map_lookup_filter_Some. Qed.

Section ops.
Context {X : Type} `{!HeapEnv X, !HeapEnvLaws X}.
Implicit Types (e : kmst X) (s : kmz X) (F : entries) (D : gmap Z Z).

(** Entries and data are as they were where the words above the break are, and no
    magic number has appeared. *)
Lemma km_ok_move D D' e e' F : km_ok D e F → brk_ok e' → base e' = base e → (brk e').1 = (brk e).1 →
  (∀ b w, hm_word (km_x e') b = Some w → w = 0 ∨ hm_word (km_x e) b = Some w) →
  (∀ b w, D' !! b = Some w → hm_word (km_x e') b = Some w ∧ (brk e').2 ≤ b < (base e).2) →
  (∀ p a n, F !! p = Some (a, n) → (brk e').2 ≤ p ∧ framed (km_x e') p a n ∧ no_data D' p (64 * n)) → km_ok D' e' F.
Proof.
  intros [Hb He Hap Hh Ht Hd] Hb' Hbase Hlo Hw HD HF. split; [done| |done| | |].
  - intros p a n Hp. destruct (He _ _ _ Hp) as (Hpa & (H1 & H2 & H3) & _). destruct (HF _ _ _ Hp) as (H4 & H5 & H6).
    unfold in_heap. rewrite Hbase. done.
  - intros c Hc Hr Hm. rewrite Hbase, Hlo in Hr. destruct (Hw _ _ Hm) as [?|Hm']; [done|]. by apply Hh.
  - intros c Hc Hr Hm. rewrite Hbase, Hlo in Hr. destruct (Hw _ _ Hm) as [?|Hm']; [done|]. by apply Ht.
  - intros b w Hbw. destruct (HD _ _ Hbw). by rewrite Hbase.
Qed.

(** The same state with other data. *)
Lemma km_ok_data D D' e F : km_ok D e F → (∀ b w, D' !! b = Some w → hm_word (km_x e) b = Some w ∧
    (brk e).2 ≤ b < (base e).2) →
  (∀ p a n, F !! p = Some (a, n) → no_data D' p (64 * n)) → km_ok D' e F.
Proof.
  intros Hok HD HF. eapply km_ok_move; [exact Hok|apply Hok|done..|intros; by right|done|].
  intros p a n Hp. destruct (ko_entry _ _ _ Hok _ _ _ Hp) as (_ & (? & _) & ? & _). split_and!; try done. by eapply HF.
Qed.

Lemma framed_move x x' p a n : 0 < n → (∀ b w, p ≤ b < p + 64 * n → hm_word x b = Some w → hm_word x' b = Some w) →
    framed x p a n → framed x' p a n.
Proof.
  unfold framed, head_addr, head_size, tail_magic, SIZEOF_TAIL. intros Hn Hw (H1 & H2 & H3 & H4 & H5).
  split_and!; apply Hw; done || lia.
Qed.

(** ** The break *)

Lemma brklock_run' {B} (m : M (kmst X) B) e (b : B) e' : brklock e = false → m (set_brklock true e) = Ret (b, e') →
  with_brklock m e = Ret (b, set_brklock false e').
Proof. intros Hl Hm. unfold with_brklock, spinlock, spinunlock, mbind, M_bind. rewrite Hl. by rewrite Hm. Qed.

Lemma sbrk_start e n : brk_ok e → 0 < n < 2 ^ 32 → kmem_sbrk false (- n) e =
  if (brk e).2 - n <=? (brk e).1 then Ret (VADDR_NONE, e)
  else let v := (brk e).2 - n in with_brklock (
    r ← _ensure_range_mapped (brk e).2 v;
    if negb (r =? 0) then mret VADDR_NONE
    else
      modify (λ e, set_maxbrk (put_at false (Z.min (maxbrk e).2 v) (maxbrk e)) e);;
      modify (λ e, set_brk (put_at false v (brk e)) e);;
      mret (brk e).2) e.
Proof.
  intros Hb Hn. pose proof (heap_range e Hb) as (Hb0 & Hb1 & _). destruct Hb as [Hl _ Hbs (Ho1 & Ho2 & Ho3) _ _].
  destruct hm_area_ok as (Hpos & _). rewrite Hbs in Ho1. cbn in Ho1.
  assert (set_brklock false (set_brklock true e) = e) as Hun by (destruct e; cbn in *; by subst).
  unfold kmem_sbrk. destruct (Z.leb_spec ((brk e).2 - n) (brk e).1) as [Hle|Hgt].
  - rewrite <- Hun at 2. apply brklock_run'; [done|]. mrun. cbn [set_brklock brk base].
    rewrite (proj2 (Z.eqb_neq (- n) 0)) by lia. cbn [at_ negb].
    assert (∃ v, u64 ((brk e).2 + - n) = v ∧ ((base e).2 < v ∨ v ≤ (brk e).1)) as (v & -> & Hv).
    { eexists. split; [done|]. destruct (Z.le_gt_cases n (brk e).2); [rewrite u64_small by (unfold word64; lia); lia|].
      left. unfold u64. rewrite <- (Z.mod_unique ((brk e).2 + - n) (2 ^ 64) (-1) (2 ^ 64 + (brk e).2 - n)); lia. }
    unfold past_base. rewrite bind_assoc. mrun. cbn [set_brklock brk base].
    destruct (Z.ltb_spec (base e).2 v) as [H1|H1]; [done|].
    unfold cmp. rewrite (proj2 (Z.ltb_lt (brk e).1 (brk e).2)) by lia. rewrite (proj2 (Z.ltb_ge (brk e).1 v)) by lia.
    by destruct (v <? (brk e).1).
  - unfold with_brklock, spinlock, mbind, M_bind. rewrite Hl. cbn [gets set_brklock brk base].
    rewrite (proj2 (Z.eqb_neq (- n) 0)) by lia. cbn [at_ negb].
    unfold past_base, mbind, M_bind. cbn [gets set_brklock brk base mret M_ret].
    rewrite u64_small by (unfold word64; lia). rewrite (proj2 (Z.ltb_ge (base e).2 _)) by lia.
    unfold cmp. rewrite (proj2 (Z.ltb_lt (brk e).1 (brk e).2)), (proj2 (Z.ltb_lt (brk e).1 _)) by lia.
    replace ((brk e).2 + - n) with ((brk e).2 - n) by lia. done.
Qed.

(** The words after pages have been mapped: new ones are 0. *)
Definition mapped_more (x x' : X) : Prop :=
  hm_keep x x' ∧ (∀ b w, hm_word x b = Some w → hm_word x' b = Some w) ∧
  (∀ b w, hm_word x' b = Some w → w = 0 ∨ hm_word x b = Some w).

(** The memory at [p] cannot be mapped: a word of it is not mapped, and there are
    fewer free frames than four for each page. *)
Definition short e (p n : Z) : Prop :=
  (∃ b, (8 | b) ∧ p ≤ b < p + n ∧ hm_word (km_x e) b = None) ∧ hm_frames (km_x e) < 4 * pages_in p n.

Lemma ensure_mapped_run e p n : hm_inv (km_x e) → (8 | p) → hal_virtmem_kmembase ≤ p → 0 < n →
    p + n ≤ hal_virtmem_kmembase + hal_virtmem_kmemsize →
  (∃ r x', _ensure_range_mapped (p + n) p e = Ret (r, set_x x' e) ∧ hm_inv x' ∧ mapped_more (km_x e) x' ∧
     if decide (r = 0) then ∀ b, (8 | b) → p ≤ b < p + n → is_Some (hm_word x' b)
     else short e p n) ∨
  (_ensure_range_mapped (p + n) p e = Abort AssertFail ∧ short e p n).
Proof.
  intros Hx Hp8 Hp Hn Hpn. unfold _ensure_range_mapped, _ensure_range.
  rewrite Z.min_r, Z.max_l by lia. replace (p + n - p) with n by lia.
  destruct (hm_ensure_ok (km_x e) p n Hx Hp8 Hp Hn) as [(r & x1 & Hr & [Hi Hkp] & Hk & Hz & Hd)|[Hr Hno]]; [lia| |right].
  - left. assert (mapped_more (km_x e) x1) as Hmm.
    { split; [done|]. split; [done|]. intros b w Hw.
      destruct (hm_word (km_x e) b) as [w'|] eqn:E; [right; by rewrite (Hk _ _ E) in Hw|].
      destruct (Hz b E); [congruence|]. left. congruence. }
    mrun (on_x_run _ e _ _ Hr). destruct (Z.eqb_spec r 0) as [->|Hne]; cbn [negb].
    + destruct (hm_commit_ok x1 Hi) as (x2 & Hc & [Hi2 Hk2] & Hw2). mrun (on_x_run _ (set_x x1 e) _ _ Hc).
      exists 0, x2. split; [done|]. split; [done|].
      destruct Hmm as (Hm0 & Hm1 & Hm2). split; [split; [by etrans|split; intros b w; rewrite Hw2; auto]|].
      rewrite decide_True in * by done. intros b Hb Hb'. rewrite Hw2. by apply Hd.
    + exists (-1), x1. split; [done|]. split; [done|]. split; [done|]. rewrite decide_False in Hd by done.
      by rewrite decide_False.
  - split; [|done]. unfold on_x, zoom, mbind, M_bind. by rewrite Hr.
Qed.

Lemma mapped_more_ok D e x F : km_ok D e F → hm_inv x → mapped_more (km_x e) x → km_ok D (set_x x e) F.
Proof.
  intros Hok Hi (_ & Hm1 & Hm2). pose proof Hok as [Hb He _ _ _ Hd]. eapply km_ok_move; [exact Hok| |done..| |].
  - destruct Hb as [H1 H2 H3 H4 H5 H6]. split; try done. cbn. intros b Hb8 Hr. destruct (H6 b Hb8 Hr) as [w Hw].
    exists w. by apply Hm1.
  - intros b w Hbw. destruct (Hd b w Hbw). split; [by apply Hm1|done].
  - intros p a n Hp. destruct (He _ _ _ Hp) as (_ & (? & ? & _) & Hf & Hnd). split_and!; try done.
    eapply framed_move; [|intros; by apply Hm1|exact Hf]. lia.
Qed.

(** The break moves down by [n] bytes, or the heap is full or cannot be mapped. *)
Lemma brkgrow_run D e F n : km_ok D e F → 0 < n < 2 ^ 32 → (64 | n) →
  let p := (brk e).2 - n in
  let lacks := short e p n in
  (∃ e', kmem_brkgrow false n e = Ret (p, e') ∧ (brk e).1 < p ∧ km_ok D e' F ∧
    (hm_keep (km_x e) (km_x e') ∧ kmem_trim e' = kmem_trim e) ∧ base e' = base e ∧ brk e' = ((brk e).1, p)) ∨
  (∃ e', kmem_brkgrow false n e = Ret (VADDR_NONE, e') ∧ km_ok D e' F ∧
    (hm_keep (km_x e) (km_x e') ∧ kmem_trim e' = kmem_trim e) ∧ base e' = base e ∧ brk e' = brk e ∧
    (p ≤ (brk e).1 ∨ lacks)) ∨
  (kmem_brkgrow false n e = Abort AssertFail ∧ (brk e).1 < p ∧ lacks).
Proof.
  intros Hok Hn Hal p lacks. pose proof (ko_brk _ _ _ Hok) as Hb. pose proof (heap_range e Hb) as (Hb0 & Hb1 & _).
  pose proof Hb as [Hl Hx Hbs (Ho1 & Ho2 & Ho3) Ha Hm]. destruct hm_area_ok as (Hpos & _). pose proof Ho1 as Ho1'.
  rewrite Hbs in Ho1'. cbn in Ho1'.
  assert (set_brklock false (set_brklock true e) = e) as Hun by (destruct e; cbn in *; by subst).
  unfold kmem_brkgrow. fold p. destruct (Z.leb_spec p (brk e).1) as [Hle|Hgt].
  { right. left. exists e. split_and!; try done; [|by left].
    assert (kmem_sbrk false (- n) e = Ret (VADDR_NONE, e)) as Hs; [|by mrun Hs].
    rewrite sbrk_start by done. by rewrite (proj2 (Z.leb_le _ _)) by lia. }
  assert (∀ o, kmem_sbrk false (- n) e = o → (∃ e', o = Ret ((brk e).2, e') ∧ km_ok D e' F ∧
    (hm_keep (km_x e) (km_x e') ∧ kmem_trim e' = kmem_trim e) ∧ base e' = base e ∧ brk e' = ((brk e).1, p)) ∨
    (∃ e', o = Ret (VADDR_NONE, e') ∧ km_ok D e' F ∧ (hm_keep (km_x e) (km_x e') ∧ kmem_trim e' = kmem_trim e) ∧
      base e' = base e ∧ brk e' = brk e ∧ lacks) ∨ (o = Abort AssertFail ∧ lacks)) as Hs.
  { intros o <-. rewrite sbrk_start by done. fold p. rewrite (proj2 (Z.leb_gt _ _)) by lia. cbv zeta.
    destruct (ensure_mapped_run (set_brklock true e) p n) as [(r & x' & Hr & Hi & Hmm & Hd)|[Hr Hno]];
      [done|destruct Ha as [i Hi], Hal as [j Hj]; exists (8 * i - 8 * j); lia|lia|lia|rewrite Hbs in Ho3; cbn in Ho3;
      lia|..];
      replace (p + n) with (brk e).2 in * by lia.
    - pose proof (mapped_more_ok D e x' F Hok Hi Hmm) as Hok'. destruct (decide (r = 0)) as [->|Hne].
      + left. eexists. split; [eapply brklock_run'; [done|]; mrun Hr; done|].
        split; [|split; [split; [apply Hmm|done]|done]]. pose proof Hok' as [Hbk He Hap Hh Ht Hdt].
        eapply km_ok_move; [exact Hok'|..]; try done.
        * destruct Hbk as [H1 H2 H3 H4 H5 H6]. split; try done; cbn; [lia|by apply Z.divide_sub_r|].
          intros b Hb8 Hr8. destruct (decide (b < (brk e).2)); [apply Hd; [done|lia]|apply H6; [done|cbn; lia]].
        * by right.
        * intros b w Hbw. destruct (Hdt b w Hbw). cbn in *. split; [done|lia].
        * intros q a m Hq. destruct (He _ _ _ Hq) as (_ & (? & _) & ? & ?). cbn in *. split_and!; [lia|done|done].
      + right. left. eexists. split;
          [eapply brklock_run'; [done|]; mrun Hr; by rewrite (proj2 (Z.eqb_neq r 0)) by done|]. cbn.
        replace (set_brklock false (set_x x' (set_brklock true e))) with (set_x x' e) by (rewrite <- Hun at 1; done).
        split_and!; try done. apply Hmm.
    - right. right. split; [|done]. unfold with_brklock, spinlock, mbind, M_bind. rewrite Hl. by rewrite Hr. }
  destruct (Hs _ eq_refl) as [(e' & Hr & H)|[(e' & Hr & Hok' & H0 & H1 & H2 & H3)|[Hr H]]].
  - left. exists e'. split; [|split; [lia|done]]. mrun Hr.
    rewrite (proj2 (Z.eqb_neq _ _)) by (unfold VADDR_NONE; lia). cbn [negb].
    by rewrite u64_small by (unfold word64; lia).
  - right. left. exists e'. split; [by mrun Hr|]. destruct H0. split_and!; try done. by right.
  - right. right. split; [|split; [lia|done]]. by rewrite (bind_Abort _ _ _ _ Hr).
Qed.

(** * The heap *)

(** The blocks of 64 bytes that [size] bytes take. *)
Definition units (size : Z) : Z := (size + 63) `div` 64.

Lemma units_range size : 0 < size → size ≤ 64 * units size < size + 64.
Proof. unfold units. intros. Z.div_mod_to_equations. lia. Qed.

Lemma zsize_eq size : 0 ≤ size < 2 ^ 63 → zsize size = units size.
Proof. intros Hs. unfold zsize, v_to_z, units. rewrite u64_small by (unfold word64; lia). by rewrite Z.shiftr_div_pow2. Qed.

Lemma size_zalign_eq size : 0 < size < 2 ^ 62 → size_zalign size = 64 * units size.
Proof. intros Hs. pose proof (units_range size). unfold size_zalign. rewrite zsize_eq by lia. apply z_to_v_eq; lia. Qed.

Lemma zsize_zalign size : 0 < size < 2 ^ 62 → zsize (size_zalign size) = units size.
Proof.
  intros Hs. pose proof (units_range size). rewrite size_zalign_eq by lia. rewrite zsize_eq by lia. unfold units at 1.
  replace (64 * units size + 63) with (63 + units size * 64) by lia. by rewrite Z.div_add.
Qed.

(** [D] holds the words of the blocks in use, [F] the free blocks: together all
    words above the break, and none twice. *)
Record heap_ok D s F : Prop := {
  ho_locks : lockz_hi s = false;
  ho_zone : @ready _ _ (kmem_zone_laws D) (kmemz_hi s) (kz_st s) F;
  ho_all b : (8 | b) → (brk (kz_st s)).2 ≤ b < (base (kz_st s)).2 → is_Some (D !! b) ∨ covered F (b `div` 64);
  ho_words b : is_Some (D !! b) → (8 | b);
}.

Lemma ho_km D s F : heap_ok D s F → km_ok D (kz_st s) F.
Proof. intros [_ Hz _ _]. by destruct (rd_env _ _ _ Hz). Qed.

Lemma ho_opq D s F : heap_ok D s F → z_opq (kmemz_hi s) = 0.
Proof. intros [_ Hz _ _]. by destruct (rd_env _ _ _ Hz). Qed.

(** The words in free blocks are not in use. *)
Lemma covered_free D e F b : km_ok D e F → covered F (b `div` 64) → D !! b = None.
Proof.
  intros Hok (p & a & n & Hp & Hr). apply eq_None_not_Some. intros Hb.
  destruct (ko_entry _ _ _ Hok _ _ _ Hp) as (-> & _ & _ & Hnd).
  apply (Hnd b Hb). Z.div_mod_to_equations. lia.
Qed.

Definition block (p n b : Z) : Prop := (8 | b) ∧ p ≤ b < p + n.

(** A block becomes used. *)
Lemma heap_take D s e z F' a n : km_ok D e F' → @ready _ _ (kmem_zone_laws D) z e F' → 0 ≤ a → 0 < n →
    in_heap e (64 * a) (64 * n) →
  (∀ x, a ≤ x < a + n → ¬ covered F' x) →
  (∀ b, (8 | b) → (brk e).2 ≤ b < (base e).2 → is_Some (D !! b) ∨ covered F' (b `div` 64) ∨ 64 * a ≤ b < 64 * a + 64 * n) →
  (∀ b, is_Some (D !! b) → (8 | b) ∧ ¬ (64 * a ≤ b < 64 * a + 64 * n)) →
  ∃ D', heap_ok D' (Kmz (kmemz_lo s) z (lockz_lo s) false e) F' ∧ D ⊆ D' ∧
    ∀ b, is_Some (D' !! b) ↔ is_Some (D !! b) ∨ block (64 * a) (64 * n) b.
Proof.
  intros Hok Hz Ha Hn Hin Hdis Hall Hout. set (B := block_at (hm_word (km_x e)) (64 * a) (64 * n)).
  assert (∀ b w, B !! b = Some w ↔ (8 | b - 64 * a) ∧ 64 * a ≤ b < 64 * a + 64 * n ∧
    w = default 0 (hm_word (km_x e) b)) as HB.
  { intros b w. apply block_at_lookup. by exists (8 * n); lia. }
  assert (D ##ₘ B) as Hdj.
  { apply map_disjoint_spec. intros b w w' Hb Hb'. apply HB in Hb' as (_ & ? & _).
    destruct (Hout b ltac:(eauto)) as [_ []]. done. }
  assert (∀ b, (8 | b - 64 * a) ↔ (8 | b)) as H8.
  { intros b. split; intros [i Hi]; [exists (i + 8 * a)|exists (i - 8 * a)]; lia. }
  assert (∀ b, is_Some (B !! b) ↔ block (64 * a) (64 * n) b) as HBb.
  { intros b. unfold block. split; [intros [w Hw]; apply HB in Hw as (Hb8 & ? & _); by rewrite <- H8|].
    intros [Hb8 ?]. eexists. apply HB. by rewrite H8. }
  exists (D ∪ B). assert (∀ b, is_Some ((D ∪ B) !! b) ↔ is_Some (D !! b) ∨ block (64 * a) (64 * n) b) as Hdom.
  { intros b. rewrite <- HBb. apply lookup_union_is_Some. }
  split; [|split; [apply map_union_subseteq_l|done]].
  assert (km_ok (D ∪ B) e F') as Hok'.
  { eapply km_ok_data; [exact Hok|..].
    - intros b w [Hb|Hb]%lookup_union_Some; [by apply (ko_data _ _ _ Hok)| |done]. apply HB in Hb as (Hb8 & Hr & ->).
      rewrite H8 in Hb8. destruct Hin as (? & ? & ?).
      destruct (bo_mem _ (ko_brk _ _ _ Hok) b Hb8 ltac:(lia)) as [w Hw]. rewrite Hw. split; [done|lia].
    - intros p b m Hp c [Hc|[_ Hc]]%Hdom Hr; destruct (ko_entry _ _ _ Hok _ _ _ Hp) as (-> & _ & _ & Hnd);
        [by apply (Hnd c)|].
      apply (Hdis (c `div` 64)); [|exists (64 * b), b, m; split; [done|]]; Z.div_mod_to_equations; lia. }
  split; [done| | |].
  - destruct Hz as [H1 [H2 _] H3]. by split.
  - cbn. intros b Hb8 Hr. rewrite Hdom. destruct (Hall b Hb8 Hr) as [?|[?|?]]; [by left; left|by right|by left; right].
  - intros b [Hb|Hb]%Hdom; [by apply Hout|apply Hb].
Qed.

Lemma on_kst_run {B} (m : M (kmst X) B) s b e : m (kz_st s) = Ret (b, e) → on_kst m s = Ret (b, set_kst e s).
Proof. intros Hm. unfold on_kst, zoom. by rewrite Hm. Qed.

Lemma on_kmemz_run {B} (m : M (zst (kmst X)) B) s b z e : m (Zst (kmemz_hi s) (kz_st s)) = Ret (b, Zst z e) →
  on_kmemz false m s = Ret (b, Kmz (kmemz_lo s) z (lockz_lo s) (lockz_hi s) e).
Proof. intros Hm. unfold on_kmemz, zoom. cbn. by rewrite Hm. Qed.

Lemma lockz_run s : lockz_hi s = false →
  spinlock (lockz false) (set_lockz false) s = Ret (tt, Kmz (kmemz_lo s) (kmemz_hi s) (lockz_lo s) true (kz_st s)).
Proof. intros Hl. unfold spinlock. cbn. by rewrite Hl. Qed.

(** Other parts of the kernel are as they were: the mappings that are not the
    heap's, the lower break, and the ends of the heap. *)
Definition heap_keep s s' : Prop :=
  (hm_keep (km_x (kz_st s)) (km_x (kz_st s')) ∧ kmem_trim (kz_st s') = kmem_trim (kz_st s)) ∧
  (brk (kz_st s')).1 = (brk (kz_st s)).1 ∧ base (kz_st s') = base (kz_st s).

(** There is not the memory for [n] bytes below the break: they would reach the lower
    break, or the frames to map them are not there. *)
Definition exhausted s n : Prop :=
  let e := kz_st s in
  (brk e).2 - n ≤ (brk e).1 ∨ short e ((brk e).2 - n) n.

(** What [kmem_alloc] does once the zone has answered. *)
Lemma alloc_zone_run s size a z e : lockz_hi s = false → 0 < size < 2 ^ 62 →
  zone_alloc (units size) (Zst (kmemz_hi s) (kz_st s)) = Ret (a, Zst z e) → 0 ≤ a → 64 * a < 2 ^ 64 →
  kmem_alloc 0 size s = Ret (64 * a, Kmz (kmemz_lo s) z (lockz_lo s) false e).
Proof.
  intros Hl Hs Hr Ha Hb. unfold kmem_alloc. rewrite zsize_zalign by lia. cbn [negb Z.eqb]. mrun (lockz_run s Hl).
  mrun (on_kmemz_run _ (Kmz (kmemz_lo s) (kmemz_hi s) (lockz_lo s) true (kz_st s)) _ _ _ Hr). unfold spinunlock. mrun.
  rewrite (proj2 (Z.eqb_neq a _)) by (unfold ZADDR_NONE; lia). cbn [negb]. by rewrite z_to_v_eq by lia.
Qed.

Lemma alloc_brk_run s size : lockz_hi s = false → 0 < size ≤ 2 ^ 31 - 64 →
  zone_alloc (units size) (Zst (kmemz_hi s) (kz_st s)) = Ret (ZADDR_NONE, Zst (kmemz_hi s) (kz_st s)) →
  kmem_alloc 0 size s = on_kst (kmem_brkgrow false (64 * units size)) s.
Proof.
  intros Hl Hs Hr. pose proof (units_range size ltac:(lia)). unfold kmem_alloc.
  rewrite zsize_zalign, size_zalign_eq by lia. cbn [negb Z.eqb]. mrun (lockz_run s Hl).
  mrun (on_kmemz_run _ (Kmz (kmemz_lo s) (kmemz_hi s) (lockz_lo s) true (kz_st s)) _ _ _ Hr). unfold spinunlock.
  mrun. cbn [negb].
  unfold u32. rewrite Z.mod_small by lia. f_equal. destruct s. cbn in *. by subst.
Qed.

(** [r] is a new block of [n] bytes, and [s'] the heap in which it is used. *)
Record new_block D s n r s' : Prop := {
  nb_keep : heap_keep s s';
  nb_align : (64 | r);
  nb_range : (brk (kz_st s)).1 < r ∧ r + n ≤ (base (kz_st s)).2;
  nb_free b : block r n b → D !! b = None;
  nb_heap : ∃ F' D', heap_ok D' s' F' ∧ D ⊆ D' ∧ ∀ b, is_Some (D' !! b) ↔ is_Some (D !! b) ∨ block r n b;
}.

Lemma alloc_from_zone D s F z' e' F' a n : heap_ok D s F → @ready _ _ (kmem_zone_laws D) z' e' F' →
    same_brk (kz_st s) e' → km_area D (kz_st s) a n →
  (∀ x, covered F' x ↔ covered F x ∧ ¬ (a ≤ x < a + n)) →
    new_block D s (64 * n) (64 * a) (Kmz (kmemz_lo s) z' (lockz_lo s) false e').
Proof.
  intros Hh Hz' (Hkb & Hkk & _ & Hkt & Hkx) (Ha & Hinh & Hnd & _) Hcov. pose proof (ho_km _ _ _ Hh) as Hok.
  pose proof Hz' as [_ [_ Hok'] _].
  pose proof Hinh as (Hi1 & Hi2 & Hi3). destruct (bo_order _ (ko_brk _ _ _ Hok)) as (_ & Hord & _). split.
  - split; [done|]. cbn. by rewrite Hkk, Hkb.
  - by exists a; lia.
  - lia.
  - intros b [_ Hb]. apply eq_None_not_Some. intros Hb'. by apply (Hnd b Hb').
  - exists F'. apply heap_take; try done.
    + lia.
    + unfold in_heap. by rewrite Hkb, Hkk.
    + intros x Hx Hc. by apply Hcov in Hc as [_ []].
    + intros b Hb8 Hbr. rewrite Hkb, Hkk in Hbr. destruct (ho_all _ _ _ Hh b Hb8 Hbr) as [?|Hc]; [by left|right].
      rewrite Hcov.
      destruct (decide (a ≤ b `div` 64 < a + n)); [right; Z.div_mod_to_equations; lia|by left].
    + intros b Hb. split; [by apply (ho_words _ _ _ Hh)|]. by apply Hnd.
Qed.

Lemma alloc_from_brk D s F e' n (r := (brk (kz_st s)).2 - 64 * n) : heap_ok D s F → 0 < n → (brk (kz_st s)).1 < r →
    km_ok D e' F →
  hm_keep (km_x (kz_st s)) (km_x e') ∧ kmem_trim e' = kmem_trim (kz_st s) → base e' = base (kz_st s) →
    brk e' = ((brk (kz_st s)).1, r) → new_block D s (64 * n) r (set_kst e' s).
Proof.
  intros Hh Hn Hgt Hok' Hkx Hkb Hkk. pose proof (ho_km _ _ _ Hh) as Hok.
  pose proof (bo_align _ (ko_brk _ _ _ Hok)) as [q Hq].
  pose proof (bo_order _ (ko_brk _ _ _ Hok)) as (Hord1 & Hord2 & Hord3). destruct hm_area_ok as (Hpos & _).
  rewrite (bo_area _ (ko_brk _ _ _ Hok)) in Hord1. cbn in Hord1.
  assert (∀ b, is_Some (D !! b) → (brk (kz_st s)).2 ≤ b) as HD by (intros b [w Hb];
    destruct (ko_data _ _ _ Hok _ _ Hb); lia).
  split.
  - split; [done|]. cbn. by rewrite Hkk, Hkb.
  - exists (q - n). lia.
  - lia.
  - intros b [_ Hb]. apply eq_None_not_Some. intros Hb'%HD. lia.
  - exists F. replace (set_kst e' s) with (Kmz (kmemz_lo s) (kmemz_hi s) (lockz_lo s) false e') by (unfold set_kst;
      by rewrite (ho_locks _ _ _ Hh)).
    replace r with (64 * (q - n)) by lia. apply heap_take; try done.
    + destruct (ho_zone _ _ _ Hh) as [H1 [H2 _] H3]. by split.
    + lia.
    + unfold in_heap. rewrite Hkb, Hkk. cbn. lia.
    + intros x Hx (p & a & m & Hp & Hr'). destruct (ko_entry _ _ _ Hok _ _ _ Hp) as (-> & (? & _) & _). lia.
    + intros b Hb8. rewrite Hkb, Hkk. cbn. intros Hbr. destruct (decide (b < (brk (kz_st s)).2)); [right; right; lia|].
      destruct (ho_all _ _ _ Hh b Hb8 ltac:(lia)); [by left|by right; left].
    + intros b Hb. split; [by apply (ho_words _ _ _ Hh)|]. apply HD in Hb. lia.
Qed.

Lemma kmem_alloc_run D s F size : heap_ok D s F → 0 < size ≤ 2 ^ 31 - 64 →
  let n := 64 * units size in
  let no_block := ∀ p a m, F !! p = Some (a, m) → m < 2 ^ Z.log2_up (units size) in
  (∃ r s', kmem_alloc 0 size s = Ret (r, s') ∧ new_block D s n r s') ∨
  (∃ s', kmem_alloc 0 size s = Ret (VADDR_NONE, s') ∧ heap_ok D s' F ∧ heap_keep s s' ∧ no_block ∧ exhausted s n) ∨
  (kmem_alloc 0 size s = Abort AssertFail ∧ no_block ∧ exhausted s n).
Proof.
  intros Hh Hs n no_block. pose proof (ho_km _ _ _ Hh) as Hok. pose proof (units_range size ltac:(lia)) as Hu.
  pose proof (heap_range _ (ko_brk _ _ _ Hok)) as (Hb0 & Hb1 & _).
  destruct (@zone_alloc_run _ _ (kmem_zone_laws D) (kmemz_hi s) (kz_st s) F (units size) (ho_zone _ _ _ Hh))
    as [Hz|[Hz Hno]]; [lia|by apply Z.divide_1_l| |].
  - left. destruct Hz as (a & z' & e' & F' & Hr & Hz' & Ho' & Hk & Harea & Hin & Hcov).
    rewrite (ho_opq _ _ _ Hh) in *. cbn in Hk, Harea.
    pose proof Harea as (Ha & (Hi1 & Hi2 & Hi3) & _). eexists _, _.
    split; [apply (alloc_zone_run s size a z' e' (ho_locks _ _ _ Hh) ltac:(lia) Hr Ha); lia|].
    by eapply alloc_from_zone.
  - rewrite (alloc_brk_run s size (ho_locks _ _ _ Hh) Hs Hz). assert (64 | n) as Hdiv by (by exists (units size); lia).
    destruct (brkgrow_run D (kz_st s) F n Hok ltac:(lia) Hdiv)
      as [(e' & Hr & Hgt & Hok' & Hkx & Hkb & Hkk)|[(e' & Hr & Hok' & Hkx & Hkb & Hkk & Hlack)|(Hr & Hgt & Hlack)]].
    + left. eexists _, _. split; [by apply on_kst_run|]. apply (alloc_from_brk _ _ F); try done. lia.
    + right. left. eexists. split; [by apply on_kst_run|]. split; [|split; [|done]].
      * destruct Hh as [H1 [H2 [H3 _] H4] H5 H6]. split; try done. cbn. by rewrite Hkb, Hkk.
      * split; [done|]. cbn. by rewrite Hkb, Hkk.
    + right. right. split; [|split; [done|by right]]. unfold on_kst, zoom. fold n. by rewrite Hr.
Qed.

(** ** Release *)

Lemma heap_entry_apart D s F p n q a m : heap_ok D s F → (64 | p) → (∀ b, block p n b → is_Some (D !! b)) →
    F !! q = Some (a, m) → 0 < n →
  p + n ≤ q ∨ q + 64 * m ≤ p.
Proof.
  intros Hh [i Hi] HD Hq Hn. destruct (ko_entry _ _ _ (ho_km _ _ _ Hh) _ _ _ Hq) as (Hqa & (_ & Hm & _) & _ & Hnd).
  destruct (decide (q < p)) as [Hlt|Hge].
  - right. destruct (decide (q + 64 * m ≤ p)); [done|]. exfalso.
    apply (Hnd p); [apply HD|]; [split; [exists (8 * i); lia|lia]|lia].
  - left. destruct (decide (p + n ≤ q)); [done|]. exfalso.
    apply (Hnd q); [apply HD|]; [split; [exists (8 * a); lia|lia]|lia].
Qed.

(** The pages between the breaks that a release leaves are unmapped in the mode
    [TRIM_BRK]; words above the new break stay. *)
Lemma trim_run e v1 v2 : hm_inv (km_x e) → hal_virtmem_kmembase ≤ v1 ≤ v2 →
    v2 ≤ hal_virtmem_kmembase + hal_virtmem_kmemsize →
  ∃ r x', _ensure_range_unmapped (trunc_page v2) (trunc_page v1) e = Ret (r, set_x x' e) ∧ hm_inv x' ∧ hm_keep (km_x e) x' ∧
    (∀ b, v2 ≤ b → hm_word x' b = hm_word (km_x e) b) ∧ (∀ b, hm_word x' b = None ∨ hm_word x' b = hm_word (km_x e) b).
Proof.
  intros Hx Hv Hv2. destruct hm_area_ok as (Hpos & _ & [i Hi] & _). rewrite !trunc_page_eq by lia.
  unfold _ensure_range_unmapped, _ensure_range.
  assert (4096 * (v1 `div` 4096) ≤ 4096 * (v2 `div` 4096) ≤ v2 ∧ hal_virtmem_kmembase ≤ 4096 * (v1 `div` 4096))
    as ((Hd1 & Hd2) & Hd3) by (Z.div_mod_to_equations; lia).
  rewrite Z.min_r, Z.max_l by lia.
  destruct (hm_unmap_ok (km_x e) (4096 * (v1 `div` 4096)) (4096 * (v2 `div` 4096) - 4096 * (v1 `div` 4096)) Hx)
    as (r & x1 & Hr & [Hi1 Hk1] & Ho & Hn).
  - by exists (v1 `div` 4096); lia.
  - by exists (v2 `div` 4096 - v1 `div` 4096); lia.
  - lia.
  - lia.
  - lia.
  - mrun (on_x_run _ e _ _ Hr). destruct (Z.eqb_spec r 0) as [->|Hne]; cbn [negb].
    + destruct (hm_commit_ok x1 Hi1) as (x2 & Hc & [Hi2 Hk2] & Hw2). mrun (on_x_run _ (set_x x1 e) _ _ Hc). exists 0, x2.
      split_and!; [done..|by etrans|intros b Hb; rewrite Hw2; apply Ho; lia|intros b; rewrite Hw2; apply Hn].
    + exists (-1), x1. split_and!; try done. intros b Hb. apply Ho. lia.
Qed.

(** The break moves over the block at it. *)
Lemma free_brk_run e p n : brk_ok e → 0 < n → p = (brk e).2 → p + n ≤ (base e).2 →
  ∃ x', free_brk false (p + n) p e = Ret (true, set_x x' (set_brk ((brk e).1, p + n) e)) ∧ hm_inv x' ∧ hm_keep (km_x e) x' ∧
    (∀ b, p + n ≤ b → hm_word x' b = hm_word (km_x e) b) ∧ (∀ b, hm_word x' b = None ∨ hm_word x' b = hm_word (km_x e) b) ∧
    (kmem_trim e = TRIM_NONE → x' = km_x e).
Proof.
  intros [Hl Hx Hbs (Ho1 & Ho2 & Ho3) Ha Hm] Hn -> Hend. set (p := (brk e).2) in *.
  unfold free_brk. set (e1 := set_brk ((brk e).1, p + n) (set_brklock true e)).
  assert (∀ x, set_brklock false (set_x x e1) = set_x x (set_brk ((brk e).1, p + n) e)) as Hun by (intros x;
    unfold e1; rewrite <- Hl; by destruct e).
  destruct (Z.leb_spec TRIM_BRK (kmem_trim e)) as [Ht|Ht].
  - destruct (trim_run e1 p (p + n)) as (r & x' & Hr & Hi' & Hk' & Hw1 & Hw2);
      [done|rewrite Hbs in Ho1; cbn in Ho1; lia|rewrite Hbs in Hend; cbn in Hend; lia|].
    exists x'. split_and!; try done; [|intros Hn0; unfold TRIM_BRK, TRIM_NONE in *; lia]. rewrite <- Hun.
    apply brklock_run'; [done|]. mrun. cbn [at_ brk set_brklock]. fold p. rewrite Z.eqb_refl. cbn [negb]. mrun.
    change (kmem_trim _) with (kmem_trim e). rewrite (proj2 (Z.leb_le _ _)) by lia. cbn [when]. rewrite bind_assoc.
    fold e1. cbn [put_at]. mrun Hr. done.
  - exists (km_x e). split_and!; try done; [|by right]. rewrite <- Hun. apply brklock_run'; [done|]. mrun.
    cbn [at_ brk set_brklock]. fold p. rewrite Z.eqb_refl. cbn [negb]. mrun.
    change (kmem_trim _) with (kmem_trim e). rewrite (proj2 (Z.leb_gt _ _)) by lia. cbn [when]. mrun. by destruct e.
Qed.

(** There is memory for a block of 64 bytes: a free block, or mapped words below
    the break. *)
Definition room s : Prop :=
  let e := kz_st s in
  (∃ i, 0 ≤ i < 64 ∧ z_list (kmemz_hi s) !!! Z.to_nat i ≠ []) ∨
  (brk e).1 < (brk e).2 - 64 ∧ ∀ b, (8 | b) → (brk e).2 - 64 ≤ b < (brk e).2 → is_Some (hm_word (km_x e) b).

Lemma room_zone s F x : zone_inv (kmemz_hi s) F → covered F x → room s.
Proof.
  intros Hz (p & a & n & Hp & Hr). left. pose proof (zi_size _ _ Hz _ _ _ Hp) as Hn. exists (Z.log2 n).
  assert (0 ≤ Z.log2 n < 64) as Hl by (split; [apply Z.log2_nonneg|apply Z.log2_lt_pow2; lia]). split; [done|]. intros He.
  assert (p ∈ z_list (kmemz_hi s) !!! Z.to_nat (Z.log2 n)) as Hin by (apply (zi_list _ _ Hz); [done|eauto]).
  rewrite He in Hin. by apply not_elem_of_nil in Hin.
Qed.

(** [s'] is the heap without the block [p]. *)
Definition dropped D s p n s' : Prop :=
  heap_keep s s' ∧ (∃ F', heap_ok (outside p n D) s' F') ∧ (kmem_trim (kz_st s) = TRIM_NONE → room s').

Lemma free_at_brk D s F p n : heap_ok D s F → 0 < n → (64 | n) → p = (brk (kz_st s)).2 → p + n ≤ (base (kz_st s)).2 →
    (∀ b, block p n b → is_Some (D !! b)) →
  ∃ e', free_brk false (p + n) p (kz_st s) = Ret (true, e') ∧ dropped D s p n (set_kst e' s).
Proof.
  intros Hh Hn Hn64 Hp Hend HD. pose proof (ho_km _ _ _ Hh) as Hok. pose proof (ko_brk _ _ _ Hok) as Hb.
  destruct (free_brk_run (kz_st s) p n Hb Hn Hp Hend) as (x' & Hr & Hi' & Hk' & Hw1 & Hw2 & Htr). eexists.
  split; [exact Hr|].
  destruct Hb as [Hl Hx Hbs (Ho1 & Ho2 & Ho3) Ha Hm]. assert (64 | p) as Hp64 by (by rewrite Hp). set (e' := set_x x' _).
  assert (∀ b w, outside p n D !! b = Some w → D !! b = Some w ∧ p + n ≤ b) as Hout.
  { intros b w [Hb Hne]%outside_lookup. split; [done|]. destruct (ko_data _ _ _ Hok _ _ Hb). lia. }
  assert (∀ q a m, F !! q = Some (a, m) → p + n ≤ q) as HF.
  { intros q a m Hq. destruct (ko_entry _ _ _ Hok _ _ _ Hq) as (_ & (? & ? & _) & _).
    destruct (heap_entry_apart D s F p n q a m Hh Hp64 HD Hq Hn); lia. }
  assert (km_ok (outside p n D) e' F) as Hok'.
  { eapply km_ok_move; [exact Hok|..]; try done.
    - split; try done; [cbn; lia|cbn; by apply Z.divide_add_r|]. cbn. intros b Hb8 Hbr. rewrite Hw1 by lia.
      apply Hm; [done|lia].
    - cbn. intros b w Hbw. destruct (Hw2 b); [congruence|]. right. congruence.
    - cbn. intros b w [Hbw Hge]%Hout. rewrite Hw1 by lia. split; [by apply (ko_data _ _ _ Hok)|].
      destruct (ko_data _ _ _ Hok _ _ Hbw). lia.
    - cbn. intros q a m Hq. pose proof (HF _ _ _ Hq).
      destruct (ko_entry _ _ _ Hok _ _ _ Hq) as (_ & (_ & ? & _) & Hf & Hnd). split_and!; [done| |].
      + eapply framed_ext; [|intros b Hbr; apply Hw1|exact Hf]; lia.
      + intros b [w Hbw]. apply Hout in Hbw as [Hbw _]. apply Hnd. eauto. }
  split; [done|]. split.
  2:{ intros ->%Htr. right. cbn. destruct Hn64 as [i Hi2]. split; [lia|]. intros b Hb8 Hbr. apply Hm; [done|lia]. }
  exists F. destruct Hh as [H1 [H2 [H3 _] H4] H5 H6]. split; try done.
  - cbn. intros b Hb8 Hbr. destruct (H5 b Hb8 ltac:(lia)) as [[w Hw]|?]; [left|by right]. exists w.
    apply outside_lookup. split; [done|lia].
  - intros b [w Hw]. apply Hout in Hw as [Hw _]. eauto.
Qed.

(** Another block becomes an entry of the zone. *)
Lemma free_to_zone D s F p n : heap_ok D s F → 0 < n → (64 | p) → (brk (kz_st s)).2 ≤ p →
    p + 64 * n ≤ (base (kz_st s)).2 → (∀ b, block p (64 * n) b → is_Some (D !! b)) →
  ∃ z' e', zone_free (v_to_z p) n (Zst (kmemz_hi s) (kz_st s)) = Ret (tt, Zst z' e') ∧
    dropped D s p (64 * n) (Kmz (kmemz_lo s) z' (lockz_lo s) false e').
Proof.
  intros Hh Hn [a Hp] Hbk Hend HD. pose proof (ho_km _ _ _ Hh) as Hok.
  pose proof (heap_range _ (ko_brk _ _ _ Hok)) as (Hb0 & Hb1 & _).
  set (D' := outside p (64 * n) D). assert (km_ok D' (kz_st s) F) as Hok'.
  { eapply km_ok_data; [exact Hok|..].
    - intros b w [Hb _]%outside_lookup. by apply (ko_data _ _ _ Hok).
    - intros q b m Hq c [w [Hc _]%outside_lookup]. destruct (ko_entry _ _ _ Hok _ _ _ Hq) as (_ & _ & _ & Hnd).
      apply Hnd. eauto. }
  assert (v_to_z p = a) as -> by (unfold v_to_z; rewrite Z.shiftr_div_pow2 by lia; rewrite Hp; by apply Z.div_mul).
  pose proof (ho_opq _ _ _ Hh) as Ho.
  destruct (@zone_create_run _ _ (kmem_zone_laws D') (kmemz_hi s) (kz_st s) F a n)
    as (z' & e' & F' & Hr & Hz' & _ & Hk & Hcov).
  - destruct (ho_zone _ _ _ Hh) as [H1 [H2 _] H3]. by split.
  - rewrite Ho. cbn. unfold km_area, in_heap. split_and!; try lia. intros b [w [_ Hb]%outside_lookup]. lia.
  - intros q [b m] Hq. destruct (heap_entry_apart D s F p (64 * n) q b m Hh ltac:(by exists a) HD Hq ltac:(lia));
      destruct (ko_entry _ _ _ Hok _ _ _ Hq) as (-> & _);
      unfold apart; cbn; lia.
  - done.
  - exists z', e'. split; [unfold zone_free; rewrite (proj2 (Z.eqb_neq n 0)) by lia; by mrun|].
    destruct Hk as (Hkb & Hkk & _ & Hkt & Hkx). split; [split; [done|]; cbn; by rewrite Hkk, Hkb|]. split.
    2:{ intros _. eapply (room_zone _ F' a); [apply Hz'|]. rewrite Hcov. lia. }
    exists F'. split; [done|done| |].
    + cbn. rewrite Hkb, Hkk. intros b Hb8 Hbr. rewrite Hcov.
      destruct (decide (p ≤ b < p + 64 * n)); [right; right; Z.div_mod_to_equations; lia|].
      destruct (ho_all _ _ _ Hh b Hb8 Hbr) as [[w Hw]|?]; [left; exists w; by apply outside_lookup|by right; left].
    + intros b [w [Hb _]%outside_lookup]. apply (ho_words _ _ _ Hh). eauto.
Qed.

Lemma kmem_free_run D s F p size : heap_ok D s F → 0 < size < 2 ^ 62 → (64 | p) → (brk (kz_st s)).2 ≤ p →
    p + 64 * units size ≤ (base (kz_st s)).2 →
  (∀ b, block p (64 * units size) b → is_Some (D !! b)) → ∃ s', kmem_free 0 p size s = Ret (tt, s') ∧
    dropped D s p (64 * units size) s'.
Proof.
  intros Hh Hs Hp64 Hbk Hend HD. pose proof (units_range size ltac:(lia)) as Hu.
  pose proof (heap_range _ (ko_brk _ _ _ (ho_km _ _ _ Hh))) as (Hb0 & Hb1 & _).
  unfold kmem_free. rewrite zsize_zalign, size_zalign_eq by lia. cbn [negb Z.eqb]. rewrite u64_small by (unfold word64; lia).
  destruct (decide (p = (brk (kz_st s)).2)) as [Heq|Hne].
  - destruct (free_at_brk D s F p (64 * units size)) as (e' & Hr & Hd); try done; [lia|by exists (units size); lia|].
    exists (set_kst e' s). split; [|done]. by mrun (on_kst_run _ s _ _ Hr).
  - destruct (free_to_zone D s F p (units size)) as (z' & e' & Hr & Hd); try done; [lia|]. eexists. split; [|exact Hd].
    assert (free_brk false (p + 64 * units size) p (kz_st s) = Ret (false, kz_st s)) as Hf.
    { unfold free_brk. apply brklock_run; [apply (ko_brk _ _ _ (ho_km _ _ _ Hh))|]. mrun. cbn [at_ brk set_brklock].
      by rewrite (proj2 (Z.eqb_neq _ p)) by lia. }
    mrun (on_kst_run _ s _ _ Hf). replace (set_kst (kz_st s) s) with s by (by destruct s).
    mrun (lockz_run s (ho_locks _ _ _ Hh)).
    mrun (on_kmemz_run _ (Kmz (kmemz_lo s) (kmemz_hi s) (lockz_lo s) true (kz_st s)) _ _ _ Hr). done.
Qed.

(** With room, a small block can be allocated. *)
Lemma alloc_room D s F size : heap_ok D s F → room s → 0 < size ≤ 64 → ∃ r s', kmem_alloc 0 size s = Ret (r, s') ∧
    new_block D s 64 r s'.
Proof.
  intros Hh Hroom Hs. assert (units size = 1) as Hu by (unfold units; Z.div_mod_to_equations; lia).
  destruct (kmem_alloc_run D s F size Hh ltac:(lia)) as [(r & s' & Hr)|Hno]; rewrite Hu in *; [eauto|exfalso].
  assert ((∀ p a m, F !! p = Some (a, m) → m < 2 ^ Z.log2_up 1) ∧ exhausted s (64 * 1)) as [Hnb Hex]
    by (destruct Hno as [(? & _ & _ & _ & ? & ?)|(_ & ? & ?)]; done).
  destruct (ho_zone _ _ _ Hh) as [Hz _ _]. destruct Hroom as [(i & Hi & Hne)|[Hlt Hw]].
  - destruct (z_list (kmemz_hi s) !!! Z.to_nat i) as [|p l] eqn:El; [done|].
    assert (p ∈ z_list (kmemz_hi s) !!! Z.to_nat i) as Hp by (rewrite El; apply list_elem_of_here).
    apply (zi_list _ _ Hz) in Hp as (a & m & Hp & _); [|done]. pose proof (zi_size _ _ Hz _ _ _ Hp).
    specialize (Hnb _ _ _ Hp). change (2 ^ Z.log2_up 1) with 1 in Hnb. lia.
  - destruct Hex as [?|[(b & Hb8 & Hb & Hbw) _]]; [lia|]. destruct (Hw b Hb8 ltac:(lia)). congruence.
Qed.

(** ** Stores by the owners of blocks *)

Lemma heap_store D s F b w v : heap_ok D s F → D !! b = Some w → v ≠ ZONE_HEAD_MAGIC →
  ∃ x', hstore b v (km_x (kz_st s)) = Ret (tt, x') ∧ heap_ok (<[b := v]> D) (set_kst (set_x x' (kz_st s)) s) F.
Proof.
  intros Hh Hb Hv. pose proof (ho_km _ _ _ Hh) as Hok. destruct (ko_data _ _ _ Hok _ _ Hb) as [Hw Hr].
  pose proof (ko_brk _ _ _ Hok) as [H1 H2 H3 H4 H5 H6].
  destruct (hstore_ok _ _ _ v H2 Hw) as (x' & Hs & [Hi' _] & Hx'). exists x'. split; [done|].
  assert (∀ c, is_Some (<[b := v]> D !! c) ↔ is_Some (D !! c)) as Hdom.
  { intros c. destruct (decide (c = b)) as [->|Hne];
      [rewrite lookup_insert_eq, Hb; split; eauto|by rewrite lookup_insert_ne]. }
  assert (∀ p a n, F !! p = Some (a, n) → ¬ (p ≤ b < p + 64 * n)) as HF.
  { intros p a n Hp. destruct (ko_entry _ _ _ Hok _ _ _ Hp) as (_ & _ & _ & Hnd). apply Hnd. eauto. }
  assert (∀ c u, hm_word x' c = Some u → u = v ∨ hm_word (km_x (kz_st s)) c = Some u) as Hnew.
  { intros c u. rewrite Hx'. case_decide; [intros [= <-]; by left|by right]. }
  assert (km_ok (<[b := v]> D) (set_x x' (kz_st s)) F) as Hok'.
  { destruct Hok as [_ He Hap Hhd Htl Hd]. split; cbn.
    - split; try done. cbn. intros c Hc Hcr. rewrite Hx'. case_decide; [eauto|by apply H6].
    - intros p a n Hp. destruct (He _ _ _ Hp) as (Hpa & Hin & Hf & Hnd). split_and!; [done..| |].
      + eapply framed_ext; [|intros c Hc|exact Hf]; [by destruct Hin as (_ & ? & _); lia|].
        rewrite Hx', decide_False; [done|]. intros ->. by eapply HF.
      + intros c Hc%Hdom. by apply Hnd.
    - done.
    - intros c Hc Hcr Hm. destruct (Hnew _ _ Hm); [congruence|]. by apply Hhd.
    - intros c Hc Hcr Hm. destruct (Hnew _ _ Hm); [by subst|]. by apply Htl.
    - intros c u. rewrite lookup_insert_Some, Hx'. intros [[<- <-]|[Hne Hc]]; [by rewrite decide_True|].
      rewrite decide_False by done. by apply Hd. }
  destruct Hh as [G1 [G2 [G3 _] G4] G5 G6]. split; try done.
  - intros c Hc Hcr. rewrite Hdom. by apply G5.
  - intros c Hc%Hdom. by apply G6.
Qed.

(** ** The start *)

(** [kmeminit] on the state the loader leaves: nothing mapped in the heap's range. *)
Lemma kmeminit_run s : brklock (kz_st s) = false → hm_inv (km_x (kz_st s)) →
  (∀ b, hal_virtmem_kmembase ≤ b < hal_virtmem_kmembase + hal_virtmem_kmemsize → hm_word (km_x (kz_st s)) b = None) →
  ∃ s', kmeminit s = Ret (tt, s') ∧ heap_ok ∅ s' ∅ ∧ km_x (kz_st s') = km_x (kz_st s) ∧
    kmem_trim (kz_st s') = kmem_trim (kz_st s) ∧
    base (kz_st s') = (hal_virtmem_kmembase, hal_virtmem_kmembase + hal_virtmem_kmemsize) ∧ brk (kz_st s') = base (kz_st s').
Proof.
  intros Hl Hx Hw. destruct hm_area_ok as (Hp1 & Hp2 & Hp3 & Hp4 & Hp5). eexists. split.
  { unfold kmeminit. rewrite u64_small by (unfold word64; lia). by destruct s. }
  cbn. split; [|done]. assert (64 | hal_virtmem_kmembase + hal_virtmem_kmemsize) as Hd by (apply Z.divide_add_r;
    [etrans; [|done]; by exists 64|done]).
  split; try done; cbn; [|intros b Hb Hr; lia|intros b; by intros []].
  split; [apply zone_init_inv| |done]. split; [done|]. split; cbn; try done.
  - split; try done; cbn; [lia|intros b Hb Hr; lia].
  - intros c Hc Hr Hm. rewrite Hw in Hm by lia. done.
  - intros c Hc Hr Hm. destruct Hc as [i Hi], Hd as [j Hj]. rewrite Hw in Hm by lia. done.
Qed.

End ops.

(** * Properties *)

(** C8. [kmem_alloc] on the upper heap: the block it returns is 64-byte aligned, lies
    between the lower break and the end of the heap, was not in use, and every one
    of its words can be accessed; the words of all other blocks in use keep their
    contents. It returns [VADDR_INVALID], or stops at the assertion of the page
    table, only when no free block holds the size rounded up to a power of two and
    the break cannot move: [size] bytes below it would reach the lower break, or a
    page of them is not mapped and there are fewer free frames than four for each
    page. *)
Theorem kmem_alloc_correct {X} `{!HeapEnv X} (HL : HeapEnvLaws X) (D : gmap Z Z) (s : kmz X) (F : entries) (size : Z)
    (Hh : heap_ok D s F) (Hsize : 0 < size ≤ 2 ^ 31 - 64) :
  let n := 64 * units size in
  let no_block := ∀ p a m, F !! p = Some (a, m) → m < 2 ^ Z.log2_up (units size) in
  (∃ r s' F' D', kmem_alloc 0 size s = Ret (r, s') ∧ heap_ok D' s' F' ∧ (64 | r) ∧ size ≤ n ∧
     (brk (kz_st s)).1 < r ∧ r + n ≤ (base (kz_st s)).2 ∧ (∀ b, block r n b → D !! b = None) ∧
     (∀ b w, D !! b = Some w → hm_word (km_x (kz_st s')) b = Some w) ∧
     (∀ b, block r n b → is_Some (hm_word (km_x (kz_st s')) b)) ∧
     ∀ b, is_Some (D' !! b) ↔ is_Some (D !! b) ∨ block r n b) ∨
  (∃ s', kmem_alloc 0 size s = Ret (VADDR_NONE, s') ∧ heap_ok D s' F ∧ no_block ∧ exhausted s n) ∨
  (kmem_alloc 0 size s = Abort AssertFail ∧ no_block ∧ exhausted s n).
Proof.
  intros n no_block. pose proof (units_range size ltac:(lia)) as Hu.
  destruct (kmem_alloc_run D s F size Hh Hsize)
    as [(r & s' & Hr & [_ Ha [Hlo Hhi] Hf (F' & D' & Hh' & Hsub & Hdom)])|[(s' & Hr & Hh' & _ & Hno & Hex)|Hab]].
  - left. exists r, s', F', D'. pose proof (ho_km _ _ _ Hh') as Hok. split_and!; try done; [lia|..].
    + intros b w Hb. eapply lookup_weaken in Hb; [|exact Hsub]. by apply (ko_data _ _ _ Hok).
    + intros b Hb. assert (is_Some (D' !! b)) as [w Hw] by (apply Hdom; by right). exists w. by apply (ko_data _ _ _ Hok).
  - right. left. by exists s'.
  - by right; right.
Qed.

(** C18. [kmem_free] of a block of the upper heap that is in use, in every trim mode: it
    returns, exactly the words of the block stop being in use, and all others keep
    their contents. *)
Theorem kmem_free_correct {X} `{!HeapEnv X} (HL : HeapEnvLaws X) (D : gmap Z Z) (s : kmz X) (F : entries) (p size : Z)
    (Hh : heap_ok D s F) (Hsize : 0 < size < 2 ^ 62) (Hp : (64 | p)) (Hlo : (brk (kz_st s)).2 ≤ p)
    (Hend : p + 64 * units size ≤ (base (kz_st s)).2) (HD : ∀ b, block p (64 * units size) b → is_Some (D !! b)) :
  ∃ s' F' D', kmem_free 0 p size s = Ret (tt, s') ∧ heap_ok D' s' F' ∧
    (∀ b w, D' !! b = Some w ↔ D !! b = Some w ∧ ¬ (p ≤ b < p + 64 * units size)) ∧
    (∀ b w, D !! b = Some w → ¬ (p ≤ b < p + 64 * units size) → hm_word (km_x (kz_st s')) b = Some w).
Proof.
  destruct (kmem_free_run D s F p size Hh Hsize Hp Hlo Hend HD) as (s' & Hr & _ & (F' & Hh') & _).
  exists s', F', (outside p (64 * units size) D). split_and!; [done..| |].
  - intros b w. apply outside_lookup.
  - intros b w Hb Hn. apply (ko_data _ _ _ (ho_km _ _ _ Hh')). by apply outside_lookup.
Qed.
