(* ===== verification/HeapMap.v ===== *)
(** The kernel heap over the kernel map: the words of the heap's addresses are words
    of the frames that kmap.c has mapped there. *)

From S2P Require Import Prelude Words Machine Hal PageTable Kmap Kmem KmemInv.

(** * Contents of frames *)

(** A store to a word of a frame. *)
Class HalMem (S : Type) := { pm_store : Z → Z → Z → S → S }.

Class HalMemLaws (S : Type) `{!HalPmap S, !HalMem S} : Prop := {
  pm_owned_page s f : pm_inv s → pm_owned s f → ∃ l, pm_page s f = Some l ∧ length l = WORDS_PER_PAGE;
  pm_owned_bound s f : pm_inv s → pm_owned s f → 0 ≤ f < 2 ^ 51;
  pm_owned_used s f : pm_inv s → pm_owned s f → f ∉ pm_free s;
  pm_unbox_write pfn prot : 0 ≤ pfn < 2 ^ 51 → 0 ≤ prot < 1024 → has prot HAL_PTE_P = true →
    has (hal_l1e_unbox (hal_l1e_box pfn prot)).2 HAL_PTE_W = has prot HAL_PTE_W;
  pm_store_ok s f i v : pm_inv s → pm_owned s f → 0 ≤ i < 512 → let s' := pm_store f i v s in
    pm_inv s' ∧ view_eq (pm_view s) (pm_view s') ∧ pm_free s' = pm_free s ∧ (∀ g, pm_owned s g → pm_owned s' g) ∧
    (∀ g, g ≠ f → pm_page s' g = pm_page s g) ∧ pm_page s' f = (λ l, <[Z.to_nat i := v]> l) <$> pm_page s f;
}.

(** * Loads and stores through the map *)

Section words.
Context {S : Type} `{!HalPmap S, !HalMem S}.
Implicit Types k : kst S.

Definition page_of (a : Z) : Z := 4096 * (a `div` 4096).
Definition word_of (a : Z) : Z := (a `mod` 4096) `div` 8.

Definition entry_frame (e : Z) : option Z := if has (hal_l1e_unbox e).2 HAL_PTE_P then Some (hal_l1e_unbox e).1 else None.
Definition writable (e : Z) : bool := has (hal_l1e_unbox e).2 HAL_PTE_W.
Definition frame_at k (a : Z) : option Z := entry_frame (pm_view (k_mach k) (page_of a)).

Definition word_at k (a : Z) : option Z :=
  if a `mod` 8 =? 0 then f ← frame_at k a; l ← pm_page (k_mach k) f; l !! Z.to_nat (word_of a) else None.

Definition vload (a : Z) : M (kst S) Z := w ← gets (λ k, word_at k a); opt_or Fault w.

Definition vstore (a v : Z) : M (kst S) unit :=
  vload a;;
  k ← gets id;
  f ← opt_or Fault (if writable (pm_view (k_mach k) (page_of a)) then frame_at k a else None);
  modify (λ k, Kst (pm_store f (word_of a) v (k_mach k)) (k_ktlb k)).

(** The iterations that a range of [n] bytes takes. *)
Definition range_fuel (n : Z) : nat := Z.to_nat (n `div` 4096 + 3).

Definition map_heap_env (hbase hsize : Z) (commit : M (kst S) unit) : HeapEnv (kst S) := {|
  Kmem.kmap_ensure_range a n prot := Kmap.kmap_ensure_range (range_fuel n) a n prot;
  Kmem.kmap_mapped_range a n := Kmap.kmap_mapped_range (range_fuel n) a n;
  Kmem.kmap_commit := commit;
  hload := vload;
  hstore := vstore;
  hal_virtmem_kmembase := hbase;
  hal_virtmem_kmemsize := hsize;
|}.

End words.

(** * Lemmas *)

Lemma same_page_eq va va' : (4096 | va) → (4096 | va') → va ≤ va' < va + 2 ^ 48 → same_page va va' → va = va'.
Proof.
  intros [a ->] [b ->] Hr. unfold same_page, L4OFF, L3OFF, L2OFF, L1OFF. rewrite !Z.shiftr_div_pow2 by lia.
  rewrite !land_ones_9.
  change (2 ^ 39) with (512 * 512 * 512 * 4096). change (2 ^ 30) with (512 * 512 * 4096).
  change (2 ^ 21) with (512 * 4096). change (2 ^ 12) with 4096.
  rewrite !Z.div_mul_cancel_r by lia. rewrite !Z.div_mul by lia. intros (H4 & H3 & H2 & H1).
  change (512 * 512 * 512) with (2 ^ 27) in *. change (512 * 512) with (2 ^ 18) in *. Z.div_mod_to_equations. lia.
Qed.

Lemma page_of_id va : (4096 | va) → page_of va = va.
Proof. intros [i ->]. unfold page_of. rewrite Z.div_mul by lia. lia. Qed.

Lemma page_of_div a : (4096 | page_of a).
Proof. by exists (a `div` 4096); unfold page_of; lia. Qed.

Lemma page_of_range a : page_of a ≤ a < page_of a + 4096.
Proof. unfold page_of. Z.div_mod_to_equations. lia. Qed.

Lemma word_of_range a : 0 ≤ word_of a < 512.
Proof. unfold word_of. Z.div_mod_to_equations. lia. Qed.

Section laws.
Context {S : Type} `{!HalPmap S, !HalPmapLaws S, !HalMem S, !HalMemLaws S}.
Context (hbase hsize : Z).
Context (Hbase : (4096 | hbase)) (Hsize : (4096 | hsize)) (Hpos : 0 < hbase) (Hpos' : 0 < hsize ≤ 2 ^ 48)
    (Hend : hbase + hsize ≤ 2 ^ 64 - 2 ^ 32).
Implicit Types k : kst S.

(** The pages of the heap. *)
Definition heap_page (va : Z) : Prop := (4096 | va) ∧ hbase ≤ va < hbase + hsize.
Definition heap_addr (a : Z) : Prop := hbase ≤ a < hbase + hsize.

Context (Hkva : ∀ va, heap_page va → pm_kva va).

Lemma heap_page_of a : heap_addr a → heap_page (page_of a).
Proof.
  intros Ha. split; [apply page_of_div|]. pose proof (page_of_range a).
  destruct Hbase as [i Hi], Hsize as [j Hj], (page_of_div a) as [m Hm]. unfold heap_addr in Ha. lia.
Qed.

Lemma heap_page_end va : heap_page va → va + 4096 ≤ hbase + hsize.
Proof. intros [[m Hm] Hr]. destruct Hbase as [i Hi], Hsize as [j Hj]. lia. Qed.

Lemma heap_page_eq va va' : heap_page va → heap_page va' → same_page va va' → va = va'.
Proof.
  intros [Hd Hr] [Hd' Hr'] Hs. destruct (Z.le_ge_cases va va'); [apply same_page_eq; done || lia|symmetry].
  apply same_page_eq; [done..|lia|]. unfold same_page in *. naive_solver.
Qed.

Definition rw : Z := Z.lor HAL_PTE_P HAL_PTE_W.

(** Every heap page that is mapped has a frame of its own, and can be written. *)
Record map_ok k : Prop := {
  mo_inv : pm_inv (k_mach k);
  mo_frame va f : heap_page va → frame_at k va = Some f → pm_owned (k_mach k) f ∧ pm_view (k_mach k) va = hal_l1e_box f rw;
  mo_inj va va' f : heap_page va → heap_page va' → frame_at k va = Some f → frame_at k va' = Some f → va = va';
}.

Definition map_word k (a : Z) : option Z := if decide (heap_addr a) then word_at k a else None.

(** The frames that the allocator has. *)
Definition free_frames k : Z := size (pm_free (k_mach k)).

(** The other pages, and the frames that are not the heap's. *)
Record map_keep k k' : Prop := {
  mk_view va : pm_kva va → (∀ p, heap_page p → ¬ same_page p va) → pm_view (k_mach k') va = pm_view (k_mach k) va;
  mk_frame f : pm_owned (k_mach k) f → (∀ va, heap_page va → frame_at k va ≠ Some f) →
    pm_owned (k_mach k') f ∧ pm_page (k_mach k') f = pm_page (k_mach k) f ∧ ∀ va, heap_page va → frame_at k' va ≠ Some f;
}.

#[local] Instance map_keep_order : PreOrder map_keep.
Proof.
  split; [by intros k; split|]. intros k1 k2 k3 [V1 F1] [V2 F2]. split.
  - intros va Hv Hp. by rewrite V2, V1.
  - intros f Ho Hn. destruct (F1 f Ho Hn) as (Ho2 & E2 & Hn2). destruct (F2 f Ho2 Hn2) as (Ho3 & E3 & Hn3).
    split_and!; [done|congruence|done].
Qed.

(** ** Replacing the entry of one page *)

Section change.
Context (k k' : kst S) (va e : Z) (Hok : map_ok k) (Hva : heap_page va) (Hinv : pm_inv (k_mach k')).
Context (Hview : view_set (pm_view (k_mach k)) (pm_view (k_mach k')) va e).

Lemma change_frame va' : heap_page va' → frame_at k' va' = if decide (va' = va) then entry_frame e else frame_at k va'.
Proof.
  intros Hva'. unfold frame_at. rewrite (page_of_id va') by apply Hva'. rewrite Hview by (by apply Hkva).
  destruct (decide (va' = va)) as [->|Hne]; [by rewrite decide_True by done|]. rewrite decide_False; [done|].
  intros Hs. by apply Hne, eq_sym, heap_page_eq.
Qed.

(** Frames of the other heap pages are kept. *)
Context (Hkeep : ∀ va' f, heap_page va' → va' ≠ va → frame_at k va' = Some f → keeps k k' f).
Context (Hnew : ∀ f, entry_frame e = Some f → pm_owned (k_mach k') f ∧ e = hal_l1e_box f rw ∧ ∀ va', heap_page va' →
    va' ≠ va → frame_at k va' ≠ Some f).

Lemma change_ok : map_ok k'.
Proof.
  split; [done| |].
  - intros va' f Hva'. rewrite change_frame by done. rewrite Hview by (by apply Hkva).
    destruct (decide (va' = va)) as [->|Hne].
    + intros Hf. rewrite decide_True by done. by destruct (Hnew f Hf) as (? & ? & _).
    + intros Hf. rewrite decide_False by (intros Hs; by apply Hne, eq_sym, heap_page_eq).
      destruct (mo_frame _ Hok _ _ Hva' Hf) as [Ho Hw]. split; [|done]. by apply (Hkeep va').
  - intros v1 v2 f Hv1 Hv2. rewrite !change_frame by done.
    destruct (decide (v1 = va)) as [->|Hn1], (decide (v2 = va)) as [->|Hn2]; [done|..].
    + intros H1 H2. by destruct (Hnew f H1) as (_ & _ & []%(λ H, H v2 Hv2 Hn2 H2)).
    + intros H1 H2. by destruct (Hnew f H2) as (_ & _ & []%(λ H, H v1 Hv1 Hn1 H1)).
    + intros H1 H2. by apply (mo_inj _ Hok _ _ f).
Qed.

Lemma change_word_other a : heap_addr a → page_of a ≠ va → word_at k' a = word_at k a.
Proof.
  intros Ha Hne. pose proof (heap_page_of a Ha) as Hp. unfold word_at. case_match; [|done].
  assert (frame_at k' a = frame_at k a) as ->.
  { pose proof (change_frame _ Hp) as Hc. rewrite decide_False in Hc by done. unfold frame_at in *.
    by rewrite !(page_of_id (page_of a)) in Hc by apply page_of_div. }
  destruct (frame_at k a) as [f|] eqn:E; [|done]. cbn.
  assert (frame_at k (page_of a) = Some f) as E' by (unfold frame_at in *;
    by rewrite page_of_id by apply page_of_div).
  destruct (mo_frame _ Hok _ _ Hp E') as [Ho _]. by destruct (Hkeep _ _ Hp Hne E' Ho) as [_ ->].
Qed.

Lemma change_word_page a : heap_addr a → page_of a = va → word_at k' a =
  if a `mod` 8 =? 0 then f ← entry_frame e; l ← pm_page (k_mach k') f; l !! Z.to_nat (word_of a) else None.
Proof.
  intros Ha Heq. unfold word_at. case_match; [|done]. unfold frame_at. rewrite Heq. rewrite Hview by (by apply Hkva).
  by rewrite decide_True by done.
Qed.

Lemma change_keep : (∀ f, pm_owned (k_mach k) f → (∀ va', heap_page va' → frame_at k va' ≠ Some f) → keeps k k' f ∧
    entry_frame e ≠ Some f) → map_keep k k'.
Proof.
  intros Hf. split.
  - intros va' Hv Hp. rewrite Hview by done. rewrite decide_False; [done|]. by apply Hp.
  - intros f Ho Hn. destruct (Hf f Ho Hn) as [Hk He]. destruct (Hk Ho) as [Ho' Hp']. split_and!; [done..|].
    intros va' Hva'. rewrite change_frame by done.
    case_decide; [done|by apply Hn].
Qed.

End change.

(** ** Mapping pages *)

Lemma frame_at_page k a : frame_at k (page_of a) = frame_at k a.
Proof. unfold frame_at. by rewrite page_of_id by apply page_of_div. Qed.

(** The words of a mapped page can be accessed, those of another cannot. *)
Lemma word_mapped k a f : map_ok k → heap_addr a → (8 | a) → frame_at k a = Some f → is_Some (map_word k a).
Proof.
  intros Hok Ha H8 Hf. unfold map_word, word_at. rewrite decide_True by done.
  rewrite (proj2 (Z.eqb_eq _ 0)) by (by apply Z.mod_divide).
  rewrite Hf. cbn. destruct (mo_frame _ Hok (page_of a) f (heap_page_of a Ha) ltac:(by rewrite frame_at_page)) as [Ho _].
  destruct (pm_owned_page _ f (mo_inv _ Hok) Ho) as (l & -> & Hl). cbn. apply lookup_lt_is_Some. rewrite Hl.
  pose proof (word_of_range a). unfold WORDS_PER_PAGE. lia.
Qed.

Lemma word_unmapped k a : frame_at k a = None → map_word k a = None.
Proof. intros Hf. unfold map_word, word_at. rewrite Hf. repeat case_match; done. Qed.

Lemma word_frame k a w : map_word k a = Some w → is_Some (frame_at k a).
Proof. intros Hw. destruct (frame_at k a) eqn:E; [done|]. by rewrite word_unmapped in Hw. Qed.

Record grown k k' : Prop := {
  gr_ok : map_ok k';
  gr_keep : map_keep k k';
  gr_word b w : map_word k b = Some w → map_word k' b = Some w;
  gr_new b : map_word k b = None → map_word k' b = None ∨ map_word k' b = Some 0;
}.

Lemma grown_refl k : map_ok k → grown k k.
Proof. intros Hok. split; [done..|]. by left. Qed.

Lemma grown_trans k1 k2 k3 : grown k1 k2 → grown k2 k3 → grown k1 k3.
Proof.
  intros [O1 K1 W1 N1] [O2 K2 W2 N2]. split; [done|by etrans|by auto|]. intros b Hb.
  destruct (N1 b Hb) as [H|H]; [by apply N2|right; by apply W2].
Qed.

Lemma heap_page_8 va : heap_page va → (8 | va) ∧ heap_addr va.
Proof. intros [[i Hi] Hr]. split; [exists (512 * i); lia|done]. Qed.

Lemma grown_frame k k' va : map_ok k → grown k k' → heap_page va → is_Some (frame_at k va) → is_Some (frame_at k' va).
Proof.
  intros Hok Hg Hp [f Hf]. destruct (heap_page_8 va Hp) as [H8 Ha]. destruct (word_mapped k va f Hok Ha H8 Hf) as [w Hw].
  by eapply word_frame, (gr_word _ _ Hg).
Qed.

Lemma box_rw r : 0 ≤ r < 2 ^ 51 → entry_frame (hal_l1e_box r rw) = Some r ∧ writable (hal_l1e_box r rw) = true.
Proof.
  intros Hr. unfold entry_frame, writable. rewrite pm_unbox_present by done. rewrite pm_unbox_write by done.
  by rewrite pm_unbox_pfn by done.
Qed.

(** A step that leaves the entry's frame alone. *)
Lemma change_grown k k' va e : map_ok k → heap_page va → pm_inv (k_mach k') →
    view_set (pm_view (k_mach k)) (pm_view (k_mach k')) va e →
  entry_frame e = frame_at k va → (∀ f, frame_at k va = Some f → e = hal_l1e_box f rw) → (∀ f, keeps k k' f) → grown k k'.
Proof.
  intros Hok Hva Hi Hv He Hw Hk.
  assert (∀ f, entry_frame e = Some f → pm_owned (k_mach k') f ∧ e = hal_l1e_box f rw ∧ ∀ va', heap_page va' →
    va' ≠ va → frame_at k va' ≠ Some f) as Hnew.
  { intros f Hf. rewrite He in Hf. destruct (mo_frame _ Hok _ _ Hva Hf) as [Ho _]. split_and!; [by apply Hk|by apply Hw|].
    intros va' Hva' Hne Hf'. by apply Hne, (mo_inj _ Hok _ _ f). }
  assert (∀ b, map_word k' b = map_word k b) as Hword.
  { intros b. unfold map_word. case_decide as Hb; [|done]. destruct (decide (page_of b = va)) as [Heq|Hne].
    - rewrite (change_word_page k k' va e) by done. unfold word_at. case_match; [|done].
      assert (frame_at k b = entry_frame e) as -> by (rewrite He, <- Heq; symmetry; apply frame_at_page).
      destruct (entry_frame e) as [f|] eqn:Ef; [|done]. cbn. symmetry in He.
      destruct (mo_frame _ Hok _ _ Hva He) as [Ho _]. by destruct (Hk f Ho) as [_ ->].
    - eapply change_word_other; try done; intros; by apply Hk. }
  split.
  - eapply change_ok; try done; intros; by apply Hk.
  - eapply change_keep; try done. intros f Ho Hn. split; [by apply Hk|]. rewrite He. by apply Hn.
  - intros b w. by rewrite Hword.
  - intros b. rewrite Hword. by left.
Qed.

Lemma change_fresh k k' va r : map_ok k → heap_page va → pm_inv (k_mach k') →
    view_set (pm_view (k_mach k)) (pm_view (k_mach k')) va (hal_l1e_box r rw) →
  frame_at k va = None → r ∈ pm_free (k_mach k) → pm_owned (k_mach k') r → pm_page (k_mach k') r = Some zero_page →
    (∀ f, keeps k k' f) → grown k k'.
Proof.
  intros Hok Hva Hi Hv Hnone Hr Hro Hz Hk. destruct (box_rw r (pm_owned_bound _ _ Hi Hro)) as [He Hw].
  assert (∀ f, pm_owned (k_mach k) f → f ≠ r) as Hne by (intros f Ho ->; by apply (pm_owned_used _ _ (mo_inv _ Hok) Ho)).
  assert (∀ va' f, heap_page va' → frame_at k va' = Some f → f ≠ r) as Hdis.
  { intros va' f Hva' Hf. destruct (mo_frame _ Hok _ _ Hva' Hf) as [Ho _]. by apply Hne. }
  assert (∀ f, entry_frame (hal_l1e_box r rw) = Some f → pm_owned (k_mach k') f ∧
    hal_l1e_box r rw = hal_l1e_box f rw ∧ ∀ va', heap_page va' → va' ≠ va → frame_at k va' ≠ Some f) as Hnew.
  { intros f. rewrite He. intros [= <-]. split_and!; [done..|]. intros va' Hva' _ Hf. by apply (Hdis va' r). }
  split.
  - eapply change_ok; try done; intros; by apply Hk.
  - eapply change_keep; try done. intros f Ho Hn. split; [by apply Hk|]. rewrite He. intros [= ->]. by apply (Hne f).
  - intros b w Hb. destruct (word_frame k b w Hb) as [f Hf]. unfold map_word in *. case_decide as Ha; [|done]. rewrite <- Hb.
    assert (page_of b ≠ va) by (intros <-; rewrite frame_at_page in Hnone; congruence).
    eapply change_word_other; try done; intros; by apply Hk.
  - intros b Hb. unfold map_word in *. case_decide as Ha; [|by left]. destruct (decide (page_of b = va)) as [Heq|Hn].
    + rewrite (change_word_page k k' va (hal_l1e_box r rw)) by done. case_match; [right|by left]. rewrite He.
      cbn [mbind option_bind]. rewrite Hz. cbn [mbind option_bind].
      pose proof (word_of_range b). apply lookup_replicate_2. unfold WORDS_PER_PAGE. lia.
    + left. rewrite <- Hb. eapply change_word_other; try done; intros; by apply Hk.
Qed.

(** A step that only adds page tables. *)
Lemma tables_grown k k' : map_ok k → pm_inv (k_mach k') → view_eq (pm_view (k_mach k)) (pm_view (k_mach k')) →
    (∀ f, keeps k k' f) → grown k k'.
Proof.
  intros Hok Hi Hv Hk. assert (∀ va, heap_page va → frame_at k' va = frame_at k va) as Hf.
  { intros va Hva. unfold frame_at. rewrite page_of_id by apply Hva. by rewrite Hv by (by apply Hkva). }
  assert (∀ b, map_word k' b = map_word k b) as Hword.
  { intros b. unfold map_word. case_decide as Hb; [|done]. unfold word_at. case_match; [|done].
    rewrite <- (frame_at_page k'), <- (frame_at_page k).
    pose proof (heap_page_of b Hb) as Hp. rewrite (Hf _ Hp). destruct (frame_at k (page_of b)) as [f|] eqn:E; [|done]. cbn.
    destruct (mo_frame _ Hok _ _ Hp E) as [Ho _]. by destruct (Hk f Ho) as [_ ->]. }
  split.
  - split; [done| |].
    + intros va f Hva. rewrite Hf, Hv by (done || by apply Hkva). intros E.
      destruct (mo_frame _ Hok _ _ Hva E) as [Ho Hw]. split; [by apply Hk|done].
    + intros v1 v2 f H1 H2. rewrite !Hf by done. by apply (mo_inj _ Hok).
  - split; [by intros; apply Hv|]. intros f Ho Hn. destruct (Hk f Ho) as [Ho' Hp']. split_and!; [done..|].
    intros va Hva. rewrite Hf by done. by apply Hn.
  - intros b w. by rewrite Hword.
  - intros b. rewrite Hword. by left.
Qed.

Lemma ensure_step k va : map_ok k → heap_page va →
  (∃ k', kmap_ensure va rw k = Ret (0, k') ∧ grown k k' ∧ is_Some (frame_at k' va)) ∨
  (∃ k', kmap_ensure va rw k = Ret (-1, k') ∧ grown k k' ∧ frame_at k va = None) ∨
  (kmap_ensure va rw k = Abort AssertFail ∧ frame_at k va = None).
Proof.
  intros Hok Hva. pose proof (mo_inv _ Hok) as Hi. pose proof (Hkva va Hva) as Hv.
  destruct (hal_l1e_unbox (pm_view (k_mach k) va)) as [pfn prot] eqn:Hold.
  assert (frame_at k va = if has prot HAL_PTE_P then Some pfn else None) as Hf by (unfold frame_at, entry_frame;
    rewrite page_of_id by apply Hva; by rewrite Hold).
  destruct (has prot HAL_PTE_P) eqn:Hp.
  - left. destruct (decide (rw = prot)) as [Heq|Hne].
    + exists k. rewrite kmap_ensure_same by (done || by rewrite Hold). split; [done|].
      split; [by apply grown_refl|by rewrite Hf].
    + destruct (kmap_ensure_protect va rw k pfn prot Hi Hv Hold Hp) as (k' & Hr & [Hi' Hs _] & _ & Hk); [done..|].
      exists k'. split; [done|].
      destruct (mo_frame _ Hok _ _ Hva Hf) as [Ho _]. destruct (box_rw pfn (pm_owned_bound _ _ Hi Ho)) as [He Hw].
      assert (grown k k') as Hg by (apply (change_grown k k' va (hal_l1e_box pfn rw)); try done;
        [by rewrite He, Hf|rewrite Hf; by intros ? [= <-]]). split; [done|]. by apply (grown_frame k); rewrite ?Hf.
  - destruct (kmap_ensure_map va rw k pfn prot Hi Hv Hold Hp)
      as [(r & k' & Hin & Hr & [Hi' Hs _] & Ho & Hz & _ & _ & Hk)|[(k' & Hr & Hi' & _ & Hv' & _ & _ & Hk)|(Hr & _)]];
      [done|..].
    + left. exists k'. split; [done|]. assert (grown k k') as Hg by (by eapply change_fresh). split; [done|].
      rewrite (change_frame k k' va (hal_l1e_box r rw)) by done. rewrite decide_True by done.
      destruct (box_rw r (pm_owned_bound _ _ Hi' Ho)) as [-> _]. done.
    + right. left. exists k'. split; [done|]. split; [|done]. by apply tables_grown.
    + by right; right.
Qed.

Lemma ensure_loop e (n : nat) : ∀ fuel i k,
  (n < fuel)%nat → 0 ≤ i → e ≤ i + 4096 * n → (0 < n → i + 4096 * (n - 1) < e) → i + 4096 * n < 2 ^ 64 →
  map_ok k → (∀ j : Z, 0 ≤ j < n → heap_page (i + 4096 * j)) →
  (∃ k', kmap_ensure_loop fuel i e rw k = Ret (0, k') ∧ grown k k' ∧ ∀ j : Z, 0 ≤ j < n →
    is_Some (frame_at k' (i + 4096 * j))) ∨
  (∃ k', kmap_ensure_loop fuel i e rw k = Ret (-1, k') ∧ grown k k' ∧ ∃ j : Z, 0 ≤ j < n ∧
    frame_at k (i + 4096 * j) = None) ∨
  (kmap_ensure_loop fuel i e rw k = Abort AssertFail ∧ ∃ j : Z, 0 ≤ j < n ∧ frame_at k (i + 4096 * j) = None).
Proof.
  induction n as [|n IH]; intros [|fuel] i k Hfuel Hi0 He Hlast Hmax Hok HP; try lia.
  - left. exists k. cbn [kmap_ensure_loop]. rewrite (proj2 (Z.ltb_ge i e)) by lia. split; [done|].
    split; [by apply grown_refl|lia].
  - cbn [kmap_ensure_loop]. rewrite (proj2 (Z.ltb_lt i e)) by lia. pose proof (HP 0 ltac:(lia)) as Hp.
    rewrite Z.mul_0_r, Z.add_0_r in Hp.
    assert (∀ k1, frame_at k1 i = None → ∃ j : Z, 0 ≤ j < (Datatypes.S n) ∧ frame_at k1 (i + 4096 * j) = None) as Hfirst.
    { intros k1 Hk1. exists 0. split; [lia|]. by replace (i + 4096 * 0) with i by lia. }
    destruct (ensure_step k i Hok Hp) as [(k1 & Hr & Hg & Hf)|[(k1 & Hr & Hg & Hf)|[Hr Hf]]].
    + mrun Hr. rewrite page_size_eq, u64_small by (unfold word64; lia).
      assert (∀ j : Z, 0 ≤ j < n ∧ frame_at k1 (i + 4096 + 4096 * j) = None → ∃ j' : Z, 0 ≤ j' < Datatypes.S n ∧
        frame_at k (i + 4096 * j') = None) as Hback.
      { intros j [Hj Hn]. exists (j + 1). split; [lia|].
        replace (i + 4096 * (j + 1)) with (i + 4096 + 4096 * j) by lia. apply eq_None_not_Some. intros Hs.
        apply (grown_frame k k1 _ Hok Hg) in Hs; [by rewrite Hn in Hs; destruct Hs|].
        replace (i + 4096 + 4096 * j) with (i + 4096 * (j + 1)) by lia. apply HP. lia. }
      destruct (IH fuel (i + 4096) k1) as [(k2 & Hr2 & Hg2 & Hf2)|[(k2 & Hr2 & Hg2 & j & Hj)|[Hr2 [j Hj]]]];
        try (done || lia).
      * by apply Hg.
      * intros j Hj. replace (i + 4096 + 4096 * j) with (i + 4096 * (j + 1)) by lia. apply HP. lia.
      * left. exists k2. split; [done|]. split; [by eapply grown_trans|]. intros j Hj. destruct (decide (j = 0)) as [->|Hne].
        -- rewrite Z.mul_0_r, Z.add_0_r. apply (grown_frame k1 k2); [apply Hg|done..].
        -- replace (i + 4096 * j) with (i + 4096 + 4096 * (j - 1)) by lia. apply Hf2. lia.
      * right. left. exists k2. split; [done|]. split; [by eapply grown_trans|by apply (Hback j)].
      * right. right. split; [done|by apply (Hback j)].
    + right. left. exists k1. mrun Hr. split_and!; [done..|by apply Hfirst].
    + right. right. rewrite (bind_Abort _ _ _ _ Hr). split; [done|by apply Hfirst].
Qed.

(** ** Unmapping pages *)

(** [P]: the pages that may have been unmapped. *)
Record shrunk (P : Z → Prop) k k' : Prop := {
  sh_ok : map_ok k';
  sh_keep : map_keep k k';
  sh_other b : ¬ P (page_of b) → map_word k' b = map_word k b;
  sh_word b : map_word k' b = None ∨ map_word k' b = map_word k b;
}.

Lemma shrunk_refl P k : map_ok k → shrunk P k k.
Proof. intros Hok. split; [done..|]. by right. Qed.

Lemma shrunk_trans P k1 k2 k3 : shrunk P k1 k2 → shrunk P k2 k3 → shrunk P k1 k3.
Proof.
  intros [O1 K1 T1 W1] [O2 K2 T2 W2]. split; [done|by etrans|intros b Hb; by rewrite T2, T1|]. intros b.
  destruct (W2 b) as [H|H]; [by left|]. rewrite H. apply W1.
Qed.

Lemma change_absent (P : Z → Prop) k k' va e : map_ok k → heap_page va → P va → pm_inv (k_mach k') →
    view_set (pm_view (k_mach k)) (pm_view (k_mach k')) va e →
  entry_frame e = None → (∀ f, frame_at k va ≠ Some f → keeps k k' f) → shrunk P k k'.
Proof.
  intros Hok Hva HP Hi Hv He Hk.
  assert (∀ va' f, heap_page va' → va' ≠ va → frame_at k va' = Some f → keeps k k' f) as Hkeep.
  { intros va' f Hva' Hne Hf. apply Hk. intros Hf'. by apply Hne, (mo_inj _ Hok _ _ f). }
  assert (∀ f, entry_frame e = Some f → pm_owned (k_mach k') f ∧ e = hal_l1e_box f rw ∧ ∀ va', heap_page va' →
    va' ≠ va → frame_at k va' ≠ Some f) as Hnew by (by rewrite He).
  assert (∀ b, page_of b ≠ va → map_word k' b = map_word k b) as Ho.
  { intros b Hb. unfold map_word. case_decide as Ha; [|done]. by apply (change_word_other k k' va e). }
  split.
  - by apply (change_ok k k' va e).
  - apply (change_keep k k' va e); try done. intros f Hof Hn. split; [|by rewrite He]. apply Hk. by apply Hn.
  - intros b Hb. apply Ho. intros Heq. by rewrite Heq in Hb.
  - intros b. destruct (decide (page_of b = va)) as [Heq|Hne]; [left|right; by apply Ho]. unfold map_word.
    case_decide as Ha; [|done].
    rewrite (change_word_page k k' va e) by done. rewrite He. by case_match.
Qed.

(** [kmap_ensure] of no access for a page that has no frame. *)
Lemma ensure_absent k va : pm_inv (k_mach k) → pm_kva va → entry_frame (pm_view (k_mach k) va) = None →
  ∃ k', kmap_ensure va 0 k = Ret (0, k') ∧ pm_inv (k_mach k') ∧ (∀ f, keeps k k' f) ∧
    (k' = k ∨ ∃ e, entry_frame e = None ∧ view_set (pm_view (k_mach k)) (pm_view (k_mach k')) va e).
Proof.
  intros Hi Hv Hn. destruct (hal_l1e_unbox (pm_view (k_mach k) va)) as [pfn prot] eqn:Hold.
  assert (has prot HAL_PTE_P = false) as Hp by (unfold entry_frame in Hn; rewrite Hold in Hn; cbn in Hn;
    by destruct (has prot HAL_PTE_P)).
  destruct (kmap_ensure_start va 0 k pfn prot Hi Hv Hold) as (b & p & Hb & ->). destruct (Z.eqb_spec 0 prot) as [<-|Hne].
  - exists k. split_and!; [done..|by left].
  - rewrite Hp. change (has 0 HAL_PTE_P) with false. cbn [xorb]. destruct b; [|by destruct Hb as (_ & _ & ->)].
    destruct Hb as [Hptr _]. destruct (ensure_set_run p va pfn 0 k Hi Hv Hptr) as (s' & Hw & Hi' & Hs' & _ & Hk).
    eexists. split; [exact Hw|]. split_and!; [done..|]. right. eexists. split; [|exact Hs']. unfold entry_frame.
    by rewrite pm_unbox_present by done.
Qed.

Lemma unmap_step (P : Z → Prop) k va : map_ok k → heap_page va → P va → ∃ k', kmap_ensure va 0 k = Ret (0, k') ∧
    shrunk P k k'.
Proof.
  intros Hok Hva HP. pose proof (mo_inv _ Hok) as Hi. pose proof (Hkva va Hva) as Hv.
  assert (frame_at k va = entry_frame (pm_view (k_mach k) va)) as Hfa by (unfold frame_at;
    by rewrite page_of_id by apply Hva).
  destruct (entry_frame (pm_view (k_mach k) va)) as [f|] eqn:E.
  - destruct (mo_frame _ Hok _ _ Hva Hfa) as [Ho _]. unfold entry_frame in E.
    destruct (hal_l1e_unbox (pm_view (k_mach k) va)) as [pfn prot] eqn:Hold. cbn in E.
    destruct (has prot HAL_PTE_P) eqn:Hp; [|done]. injection E as ->.
    destruct (kmap_ensure_unmap va 0 k f prot Hi Hv Hold Hp ltac:(done) Ho) as (k' & Hr & [Hi' Hs _] & _ & Hk).
    exists k'. split; [done|].
    eapply change_absent; try done.
    + unfold entry_frame. by rewrite pm_unbox_present by done.
    + intros g Hg. apply Hk. rewrite Hfa in Hg. congruence.
  - destruct (ensure_absent k va Hi Hv E) as (k' & Hr & Hi' & Hk & [->|(e & He & Hs)]); eexists;
      (split; [exact Hr|]); [by apply shrunk_refl|].
    by apply (change_absent P k k' va e).
Qed.

Lemma unmap_loop (P : Z → Prop) e (n : nat) : ∀ fuel i k,
  (n < fuel)%nat → 0 ≤ i → e = i + 4096 * n → i + 4096 * n < 2 ^ 64 → map_ok k →
  (∀ j : Z, 0 ≤ j < n → heap_page (i + 4096 * j) ∧ P (i + 4096 * j)) →
    ∃ k', kmap_ensure_loop fuel i e 0 k = Ret (0, k') ∧ shrunk P k k'.
Proof.
  induction n as [|n IH]; intros [|fuel] i k Hfuel Hi0 He Hmax Hok HP; try lia; cbn [kmap_ensure_loop].
  - rewrite (proj2 (Z.ltb_ge i e)) by lia. exists k. split; [done|]. by apply shrunk_refl.
  - rewrite (proj2 (Z.ltb_lt i e)) by lia. destruct (HP 0 ltac:(lia)) as [Hp HPi]. rewrite Z.mul_0_r, Z.add_0_r in Hp, HPi.
    destruct (unmap_step P k i Hok Hp HPi) as (k1 & Hr & Hs). mrun Hr.
    rewrite page_size_eq, u64_small by (unfold word64; lia).
    destruct (IH fuel (i + 4096) k1) as (k2 & Hr2 & Hs2); try (done || lia).
    + apply Hs.
    + intros j Hj. replace (i + 4096 + 4096 * j) with (i + 4096 * (j + 1)) by lia. apply HP. lia.
    + exists k2. split; [done|by eapply shrunk_trans].
Qed.

(** ** Asking whether pages are mapped *)

Lemma mapped_step k va f : map_ok k → heap_page va → frame_at k va = Some f → kmap_mapped va k = Ret (true, k).
Proof.
  intros Hok Hva Hf. pose proof (mo_inv _ Hok) as Hi. pose proof (Hkva va Hva) as Hv.
  destruct (kmap_ensure_lookup va k Hi Hv) as (b & p & Hr & Hb). unfold kmap_mapped. mrun Hr. destruct b; [done|].
  destruct Hb as [_ Hz].
  unfold frame_at, entry_frame in Hf. rewrite page_of_id in Hf by apply Hva. by rewrite Hz, pm_unbox_0 in Hf.
Qed.

Lemma mapped_loop e (n : nat) : ∀ fuel i k,
  (n < fuel)%nat → 0 ≤ i → e ≤ i + 4096 * n → (0 < n → i + 4096 * (n - 1) < e) → i + 4096 * n < 2 ^ 64 → map_ok k →
  (∀ j : Z, 0 ≤ j < n → heap_page (i + 4096 * j) ∧ is_Some (frame_at k (i + 4096 * j))) →
    kmap_mapped_loop fuel i e k = Ret (true, k).
Proof.
  induction n as [|n IH]; intros [|fuel] i k Hfuel Hi0 He Hlast Hmax Hok HP; try lia; cbn [kmap_mapped_loop].
  - by rewrite (proj2 (Z.ltb_ge i e)) by lia.
  - rewrite (proj2 (Z.ltb_lt i e)) by lia. destruct (HP 0 ltac:(lia)) as [Hp [f Hf]]. rewrite Z.mul_0_r, Z.add_0_r in Hp, Hf.
    mrun (mapped_step k i f Hok Hp Hf). cbn [negb]. rewrite page_size_eq, u64_small by (unfold word64; lia).
    apply IH; try (done || lia).
    intros j Hj. replace (i + 4096 + 4096 * j) with (i + 4096 * (j + 1)) by lia. apply HP. lia.
Qed.

(** ** The contract of the heap *)

(** The pages that meet a range of addresses. *)
Lemma range_pages a n : heap_addr a → 0 < n → a + n ≤ hbase + hsize →
  ∃ m : nat, Z.of_nat m = pages_in a n ∧ (m < range_fuel n)%nat ∧ 0 ≤ page_of a ∧ a + n ≤ page_of a + 4096 * m ∧
    (0 < m → page_of a + 4096 * (m - 1) < a + n) ∧
    page_of a + 4096 * m < 2 ^ 64 ∧ (∀ j : Z, 0 ≤ j < m → heap_page (page_of a + 4096 * j)).
Proof.
  intros Ha Hn Hle. unfold heap_addr in Ha. pose proof (page_of_range a) as Hp. destruct (page_of_div a) as [q Hq].
  exists (Z.to_nat (pages_in a n)). unfold range_fuel, pages_in. unfold page_of in *.
  split_and!; try (Z.div_mod_to_equations; lia). intros j Hj. destruct Hbase as [u Hu], Hsize as [v Hv].
  split; [exists (a `div` 4096 + j); lia|]. Z.div_mod_to_equations. lia.
Qed.

Lemma word_read k a w : map_word k a = Some w → vload a k = Ret (w, k).
Proof.
  unfold map_word. case_decide; [|done]. intros Hw. unfold vload. mrun. by rewrite Hw.
Qed.

Lemma word_of_inj a b : a `mod` 8 = 0 → b `mod` 8 = 0 → page_of a = page_of b → word_of a = word_of b → a = b.
Proof. unfold page_of, word_of. intros. Z.div_mod_to_equations. lia. Qed.

Lemma word_write k a w v : map_ok k → map_word k a = Some w →
  ∃ k', vstore a v k = Ret (tt, k') ∧ (map_ok k' ∧ map_keep k k') ∧
    ∀ b, map_word k' b = if decide (b = a) then Some v else map_word k b.
Proof.
  intros Hok Hw. destruct (word_frame k a w Hw) as [f Hf]. pose proof (word_read k a w Hw) as Hr.
  unfold map_word in Hw. case_decide as Ha; [|done].
  pose proof (heap_page_of a Ha) as Hp. assert (frame_at k (page_of a) = Some f) as Hf' by (by rewrite frame_at_page).
  destruct (mo_frame _ Hok _ _ Hp Hf') as [Ho Hwr]. pose proof (word_of_range a) as Hwo. pose proof (mo_inv _ Hok) as Hi.
  destruct (pm_store_ok _ f (word_of a) v Hi Ho Hwo) as (Hi' & Hv & Hfr & Hown & Hoth & Hupd).
  destruct (pm_owned_page _ f Hi Ho) as (l & Hl & Hlen).
  assert (a `mod` 8 = 0) as Ha8 by (unfold word_at in Hw; by destruct (Z.eqb_spec (a `mod` 8) 0)).
  exists (Kst (pm_store f (word_of a) v (k_mach k)) (k_ktlb k)). set (k' := Kst _ _). split.
  { unfold vstore. mrun Hr. unfold id. rewrite Hwr. destruct (box_rw f (pm_owned_bound _ _ Hi Ho)) as [_ ->].
    rewrite Hf. mrun. done. }
  assert (∀ va, heap_page va → frame_at k' va = frame_at k va) as Hfa.
  { intros va Hva. unfold frame_at. cbn. rewrite page_of_id by apply Hva. by rewrite Hv by (by apply Hkva). }
  split; [split|].
  - split; [done| |].
    + intros va g Hva. rewrite Hfa by done. intros E. destruct (mo_frame _ Hok _ _ Hva E) as [Hg Hgw].
      split; [by apply Hown|]. cbn. by rewrite Hv by (by apply Hkva).
    + intros v1 v2 g H1 H2. rewrite !Hfa by done. by apply (mo_inj _ Hok).
  - split; [by intros; apply Hv|]. intros g Hg Hn.
    split_and!; [by apply Hown|apply Hoth; intros ->; by apply (Hn _ Hp)|]. intros va Hva. rewrite Hfa by done.
    by apply Hn.
  - intros b. unfold map_word.
    destruct (decide (heap_addr b)) as [Hb|Hb]; [|by rewrite decide_False by (by intros ->)]. unfold word_at.
    assert (frame_at k' b = frame_at k b) as -> by (rewrite <- (frame_at_page k'), <- (frame_at_page k);
      by apply Hfa, heap_page_of).
    destruct (decide (b = a)) as [->|Hne].
    + rewrite (proj2 (Z.eqb_eq _ _) Ha8), Hf. cbn [mbind option_bind k_mach k']. rewrite Hupd, Hl.
      cbn [fmap option_fmap option_map mbind option_bind].
      apply list_lookup_insert_eq. rewrite Hlen. unfold WORDS_PER_PAGE. lia.
    + destruct (Z.eqb_spec (b `mod` 8) 0) as [Hb8|]; [|done]. destruct (frame_at k b) as [g|] eqn:Eg; [|done].
      cbn [mbind option_bind k_mach k'].
      destruct (decide (g = f)) as [->|Hgf]; [|by rewrite Hoth by done]. rewrite Hupd, Hl.
      cbn [fmap option_fmap option_map mbind option_bind].
      rewrite list_lookup_insert_ne; [done|]. intros Heq. apply Hne. pose proof (word_of_range b).
      apply word_of_inj; [done..| |lia].
      apply (mo_inj _ Hok _ _ f); [by apply heap_page_of|done|by rewrite frame_at_page|done].
Qed.

Context (commit : M (kst S) unit) (Hcommit : ∀ k, ∃ k', commit k = Ret (tt, k') ∧ k_mach k' = k_mach k).

Lemma same_mach k k' : k_mach k' = k_mach k → map_ok k → map_ok k' ∧ map_keep k k' ∧ ∀ b, map_word k' b = map_word k b.
Proof.
  intros Heq [H1 H2 H3]. assert (∀ va, frame_at k' va = frame_at k va) as Hf by (intros va; unfold frame_at;
    by rewrite Heq). split_and!.
  - split; [by rewrite Heq| |]; intros *; rewrite ?Hf, ?Heq; [by apply H2|by apply H3].
  - split; [by rewrite Heq|]. intros f. rewrite Heq. setoid_rewrite Hf. done.
  - intros b. unfold map_word, word_at. by rewrite Hf, Heq.
Qed.

Lemma word_addr k a : is_Some (map_word k a) → heap_addr a.
Proof. intros [w Hw]. unfold map_word in Hw. by case_decide. Qed.

(** Pages that a range meets have a word in it. *)
Lemma range_word a n (m : nat) j : (8 | a) → 0 < n → (0 < m → page_of a + 4096 * (m - 1) < a + n) → 0 ≤ j < m →
  let b := Z.max a (page_of a + 4096 * j) in (8 | b) ∧ a ≤ b < a + n ∧ page_of b = page_of a + 4096 * j.
Proof.
  intros [i Hi] Hn Hlast Hj b. pose proof (page_of_range a). destruct (page_of_div a) as [q Hq]. split_and!.
  - unfold b. destruct (Z.max_spec a (page_of a + 4096 * j)) as [[_ ->]|[_ ->]];
      [exists (512 * q + 512 * j); lia|by exists i].
  - lia.
  - lia.
  - unfold b. destruct (Z.max_spec a (page_of a + 4096 * j)) as [[_ ->]|[? ->]].
    + apply page_of_id. exists (q + j). lia.
    + assert (j = 0) as -> by lia. lia.
Qed.

Lemma map_mapped_ok k a n : map_ok k → (8 | a) → 0 < n → (∀ b, (8 | b) → a ≤ b < a + n → is_Some (map_word k b)) →
  Kmap.kmap_mapped_range (range_fuel n) a n k = Ret (true, k).
Proof.
  intros Hok Ha Hn Hw. pose proof (word_addr k a (Hw a Ha ltac:(lia))) as Haa.
  assert (a + n ≤ hbase + hsize) as Hle.
  { pose proof Ha as [i Hi]. pose proof (word_addr k (a + 8 * ((n - 1) `div` 8))) as Hl.
    assert (heap_addr (a + 8 * ((n - 1) `div` 8))) as [_ Hb] by (apply Hl, Hw;
      [exists (i + (n - 1) `div` 8); lia|Z.div_mod_to_equations; lia]).
    destruct Hbase as [u Hu], Hsize as [v Hv]. Z.div_mod_to_equations. lia. }
  destruct (range_pages a n Haa Hn Hle) as (m & Hm & Hfuel & H0 & H1 & H2 & H3 & H4).
  unfold Kmap.kmap_mapped_range, heap_addr in *.
  rewrite trunc_page_eq by lia. rewrite u64_small by (unfold word64; lia). fold (page_of a).
  apply (mapped_loop _ m); try done.
  intros j Hj. split; [by apply H4|]. destruct (range_word a n m j Ha Hn H2 Hj) as (Hb8 & Hbr & Hbp).
  destruct (Hw _ Hb8 Hbr) as [w Hw'].
  rewrite <- Hbp, frame_at_page. by eapply word_frame.
Qed.

Lemma map_ensure_ok k a n : map_ok k → (8 | a) → hbase ≤ a → 0 < n → a + n ≤ hbase + hsize →
  (∃ r k', Kmap.kmap_ensure_range (range_fuel n) a n rw k = Ret (r, k') ∧ grown k k' ∧
     if decide (r = 0) then ∀ b, (8 | b) → a ≤ b < a + n → is_Some (map_word k' b)
     else (∃ b, (8 | b) ∧ a ≤ b < a + n ∧ map_word k b = None) ∧ free_frames k < 4 * pages_in a n) ∨
  (Kmap.kmap_ensure_range (range_fuel n) a n rw k = Abort AssertFail ∧
    (∃ b, (8 | b) ∧ a ≤ b < a + n ∧ map_word k b = None) ∧ free_frames k < 4 * pages_in a n).
Proof.
  intros Hok Ha Hlo Hn Hle. assert (heap_addr a) as Haa by (unfold heap_addr; lia).
  destruct (range_pages a n Haa Hn Hle) as (m & Hm & Hfuel & H0 & H1 & H2 & H3 & H4). unfold Kmap.kmap_ensure_range.
  rewrite trunc_page_eq by lia. rewrite u64_small by (unfold word64; lia). fold (page_of a).
  assert (∀ j : Z, 0 ≤ j < m → frame_at k (page_of a + 4096 * j) = None → ∃ b, (8 | b) ∧ a ≤ b < a + n ∧
    map_word k b = None) as Hnone.
  { intros j Hj Hf. destruct (range_word a n m j Ha Hn H2 Hj) as (Hb8 & Hbr & Hbp).
    exists (Z.max a (page_of a + 4096 * j)). split; [done|]. split; [done|]. apply word_unmapped.
    by rewrite <- frame_at_page, Hbp. }
  assert (∀ o, kmap_ensure_loop (range_fuel n) (page_of a) (a + n) rw k = o →
    (∃ k', o = Ret (0, k')) ∨ free_frames k < 4 * pages_in a n) as Hshort.
  { intros o <-. destruct (kmap_ensure_loop_run (λ _, True) rw (a + n) m (range_fuel n) (page_of a) k)
      as [(k' & -> & _)|[(k' & -> & _ & _ & Hsz)|[-> Hsz]]];
      try done; [apply Hok|intros j Hj; split; [by apply Hkva, H4|done]|left; eauto|right; unfold free_frames; lia..]. }
  destruct (ensure_loop (a + n) m (range_fuel n) (page_of a) k)
    as [(k' & Hr & Hg & Hf)|[(k' & Hr & Hg & j & Hj & Hf)|[Hr (j & Hj & Hf)]]]; try done.
  - left. exists 0, k'. split_and!; [done..|]. rewrite decide_True by done. intros b Hb Hbr.
    assert (heap_addr b) as Hab by (unfold heap_addr; lia). destruct (Hf ((page_of b - page_of a) `div` 4096)) as [f Hfb].
    { unfold page_of in *. Z.div_mod_to_equations. lia. }
    apply (word_mapped k' b f); [apply Hg|done|done|]. rewrite <- frame_at_page, <- Hfb. f_equal. unfold page_of.
    Z.div_mod_to_equations. lia.
  - left. exists (-1), k'. split_and!; [done..|]. rewrite decide_False by done. split; [by apply (Hnone j)|].
    by destruct (Hshort _ Hr) as [[? [=]]|].
  - right. split; [done|]. split; [by apply (Hnone j)|]. by destruct (Hshort _ Hr) as [[? [=]]|].
Qed.

Lemma map_unmap_ok k a n : map_ok k → (4096 | a) → (4096 | n) → hbase ≤ a → 0 ≤ n → a + n ≤ hbase + hsize →
  ∃ k', Kmap.kmap_ensure_range (range_fuel n) a n 0 k = Ret (0, k') ∧ shrunk (λ va, a ≤ va < a + n) k k'.
Proof.
  intros Hok Ha [m Hm] Hlo Hn Hle. unfold Kmap.kmap_ensure_range. rewrite trunc_page_eq by lia.
  rewrite u64_small by (unfold word64; lia).
  fold (page_of a). rewrite page_of_id by done. apply (unmap_loop _ _ (Z.to_nat m)); try (done || lia).
  - unfold range_fuel. rewrite Hm, Z.div_mul by lia. lia.
  - intros j Hj. split; [|lia]. split; [|lia]. destruct Ha as [i ->]. exists (i + j). lia.
Qed.

Definition map_heap_laws : @HeapEnvLaws (kst S) (map_heap_env hbase hsize commit).
Proof.
  unshelve refine {| hm_inv := map_ok; hm_word := map_word; hm_keep := map_keep; hm_frames := free_frames |}.
  - cbn. split_and!; try done; [lia|]. etrans; [|exact Hsize]. by exists 64.
  - intros k a w _ Hw. cbn. by apply word_read.
  - intros k a w v Hok Hw. cbn. by apply (word_write k a w v).
  - intros k a n Hok Ha Hn Hw. cbn. by apply map_mapped_ok.
  - intros k a n Hok Ha Hlo Hn Hle. cbn in *.
    destruct (map_ensure_ok k a n Hok Ha Hlo Hn Hle) as [(r & k' & Hr & [G1 G2 G3 G4] & Hd)|H]; [left|by right].
    exists r, k'. done.
  - intros k a n Hok Ha Hn8 Hlo Hn Hle. cbn in *.
    destruct (map_unmap_ok k a n Hok Ha Hn8 Hlo Hn Hle) as (k' & Hr & [S1 S2 S3 S4]). exists 0, k'. split; [done|].
    split; [done|].
    split; [|done]. intros b Hb. apply S3. destruct Ha as [i Hi], Hn8 as [j Hj], (page_of_div b) as [q Hq].
    pose proof (page_of_range b). lia.
  - intros k Hok. cbn. destruct (Hcommit k) as (k' & Hr & Hm). destruct (same_mach k k' Hm Hok) as (H1 & H2 & H3).
    by exists k'.
Defined.

End laws.

(** * Stores outside the tables *)

Section data_write.
Context `{!Config, !PteFormat}.
Context (D F : Z → Prop) (top : Z → Z) (fs : gmap Z (list Z)) (f i v : Z).
Context (Hok : space_ok D F top fs) (Hf : ∀ p, path_ok D p → table top fs p ≠ Some f).

Lemma entry_other g j : g ≠ f → entry (frame_update fs f i v) g j = entry fs g j.
Proof. intros Hne. unfold entry, frame_word, frame_update. by rewrite lookup_alter_ne. Qed.

Lemma data_write_table p : path_ok D p → table top (frame_update fs f i v) p = table top fs p.
Proof. apply table_agree; [done|]. intros q g j Hq _ _ Hg. rewrite entry_other; [done|]. intros ->. by apply (Hf q). Qed.

Lemma data_write_leaf va : D (L4OFF va) → leaf top (frame_update fs f i v) va = leaf top fs va.
Proof.
  intros Hd. unfold leaf. rewrite data_write_table by (by apply va_path). destruct (table top fs _) as [g|] eqn:E; [|done].
  rewrite entry_other; [done|]. intros ->. by apply (Hf _ (va_path D va Hd)).
Qed.

Lemma data_write_ok : space_ok D F top (frame_update fs f i v).
Proof.
  split.
  - intros q g Hq. rewrite data_write_table by done. intros Hg. destruct (so_frame _ _ _ _ Hok q g Hq Hg).
    split; [by apply frame_update_ok|done].
  - intros q r g Hq Hr. rewrite !data_write_table by done. by eapply so_inj.
  - by eapply so_top.
  - intros q g j Hq Hlq Hj. rewrite data_write_table by done. intros Hg.
    rewrite entry_other by (intros ->; by apply (Hf q)). by eapply so_entry.
Qed.

End data_write.

(** * Frames of the machine *)

Section machine.
Context {CFG : Config} {A : Type} `{!PfnCache A, !PfnAllocator A}.
Implicit Types s : mach A.

#[global] Instance mach_mem : HalMem (mach A) := {| pm_store f i v s := set_frames (frame_update (m_frames s) f i v) s |}.

Lemma store_page s f i v l : m_frames s !! f = Some l →
  m_frames (pm_store f i v s) !! f = (λ l, <[Z.to_nat i := v]> l) <$> m_frames s !! f ∧ ∀ g, g ≠ f →
    m_frames (pm_store f i v s) !! g = m_frames s !! g.
Proof. intros Hl. cbn. unfold frame_update. split; [apply lookup_alter_eq|]. intros g Hg. by apply lookup_alter_ne. Qed.

Lemma frame_page s f : frame_ok (m_frames s) f → ∃ l, m_frames s !! f = Some l ∧ length l = WORDS_PER_PAGE.
Proof. by intros [_ Hl]. Qed.

End machine.
