(* ===== verification/Slab.v ===== *)
(** The slab allocator (libnux/slabinc.c, instantiated by libnux/slab.c): caches of
    objects of one size, cut from aligned pairs of pages. *)

From S2P Require Import Prelude Words Locks Machine Hal.

Definition SLAB_LOG2SZ : Z := 1.
Definition SLAB_SIZE : Z := Z.shiftl 1 SLAB_LOG2SZ * PAGE_SIZE.
Definition SLABMAGIC : Z := 0x80763141.

(** [sizeof (struct slabhdr)], the size of its cache line, and of [struct objhdr]. *)
Definition SIZEOF_SLABHDR : Z := 64.
Definition SIZEOF_OBJHDR : Z := 8.

(** What the slabs are built on: kva.c, kmap.c, and the constructors of the caches.
    [call_ctr f obj opq dec] calls the function [f], which can write the words of the
    objects. *)
Class SlabEnv (X : Type) := {
  kva_alloc : Z → M X Z;
  kva_free : Z → Z → M X unit;
  kmap_ensure_range : Z → Z → Z → M X Z;
  kmap_commit : M X unit;
  call_ctr : Z → Z → Z → Z → M (X * gmap Z Z) unit;
}.

(** The list of free objects is kept in the objects themselves; here it is the list
    of their addresses. *)
Record slabhdr : Set := Slabhdr { sh_magic : Z; sh_cache : Z; sh_freecnt : Z; sh_freeq : list Z }.

Record slab : Set := Slab {
  sc_lock : bool; sc_name : Z; sc_objsize : Z; sc_ctr : Z; sc_emptycnt : Z; sc_freecnt : Z; sc_fullcnt : Z;
  sc_emptyq : list Z; sc_freeq : list Z; sc_fullq : list Z;
}.

(** The caches and slab headers by address, the words of the objects, and the
    variables of slabinc.c. *)
Record slst (X : Type) : Type := Slst {
  ss_slabs : gmap Z slab; ss_hdrs : gmap Z slabhdr; ss_words : gmap Z Z;
  __slabinc_initialized : Z; __slabinc_size : Z; __slabinc_slabs : Z; __slabinc_slabq : list Z; __slabinc_lock : bool;
  ss_x : X;
}.
Arguments Slst {X} _ _ _ _ _ _ _ _ _.
Arguments ss_slabs {X} _.
Arguments ss_hdrs {X} _.
Arguments ss_words {X} _.
Arguments __slabinc_initialized {X} _.
Arguments __slabinc_size {X} _.
Arguments __slabinc_slabs {X} _.
Arguments __slabinc_slabq {X} _.
Arguments __slabinc_lock {X} _.
Arguments ss_x {X} _.

Definition ___slabsize : Z := SLAB_SIZE.
Definition ___slabobjs (size : Z) : Z := (___slabsize - 2 * SIZEOF_SLABHDR) `div` size.

(** [LIST_REMOVE]: out of the list that holds it. *)
Definition list_remove (x : Z) (l : list Z) : list Z := filter (λ y, y ≠ x) l.

(** The fields of a cache. *)
Definition with_lock (b : bool) (c : slab) : slab :=
  Slab b (sc_name c) (sc_objsize c) (sc_ctr c) (sc_emptycnt c) (sc_freecnt c) (sc_fullcnt c) (sc_emptyq c)
    (sc_freeq c) (sc_fullq c).
Definition with_queues (e f g : list Z) (c : slab) : slab :=
  Slab (sc_lock c) (sc_name c) (sc_objsize c) (sc_ctr c) (sc_emptycnt c) (sc_freecnt c) (sc_fullcnt c) e f g.
Definition with_counts (e f g : Z) (c : slab) : slab :=
  Slab (sc_lock c) (sc_name c) (sc_objsize c) (sc_ctr c) (u32 e) (u32 f) (u32 g) (sc_emptyq c) (sc_freeq c) (sc_fullq c).
Definition unlinked (sh : Z) (c : slab) : slab :=
  with_queues (list_remove sh (sc_emptyq c)) (list_remove sh (sc_freeq c)) (list_remove sh (sc_fullq c)) c.
Definition to_emptyq (sh : Z) (c : slab) : slab := with_queues (sh :: sc_emptyq c) (sc_freeq c) (sc_fullq c) c.
Definition to_freeq (sh : Z) (c : slab) : slab := with_queues (sc_emptyq c) (sh :: sc_freeq c) (sc_fullq c) c.
Definition to_fullq (sh : Z) (c : slab) : slab := with_queues (sc_emptyq c) (sc_freeq c) (sh :: sc_fullq c) c.
Definition add_counts (e f g : Z) (c : slab) : slab := with_counts (sc_emptycnt c + e) (sc_freecnt c + f)
    (sc_fullcnt c + g) c.

Section code.
Context {X : Type} `{!SlabEnv X}.

Definition set_slabs (m : gmap Z slab) (s : slst X) : slst X :=
  Slst m (ss_hdrs s) (ss_words s) (__slabinc_initialized s) (__slabinc_size s) (__slabinc_slabs s)
    (__slabinc_slabq s) (__slabinc_lock s) (ss_x s).
Definition set_hdrs (m : gmap Z slabhdr) (s : slst X) : slst X :=
  Slst (ss_slabs s) m (ss_words s) (__slabinc_initialized s) (__slabinc_size s) (__slabinc_slabs s)
    (__slabinc_slabq s) (__slabinc_lock s) (ss_x s).
Definition set_words (m : gmap Z Z) (s : slst X) : slst X :=
  Slst (ss_slabs s) (ss_hdrs s) m (__slabinc_initialized s) (__slabinc_size s) (__slabinc_slabs s)
    (__slabinc_slabq s) (__slabinc_lock s) (ss_x s).
Definition set_slabinc_lock (b : bool) (s : slst X) : slst X :=
  Slst (ss_slabs s) (ss_hdrs s) (ss_words s) (__slabinc_initialized s) (__slabinc_size s) (__slabinc_slabs s)
    (__slabinc_slabq s) b (ss_x s).
Definition set_slabinc (n : Z) (q : list Z) (s : slst X) : slst X :=
  Slst (ss_slabs s) (ss_hdrs s) (ss_words s) (__slabinc_initialized s) (__slabinc_size s) n q (__slabinc_lock s) (ss_x s).
Definition set_ssx (x : X) (s : slst X) : slst X :=
  Slst (ss_slabs s) (ss_hdrs s) (ss_words s) (__slabinc_initialized s) (__slabinc_size s) (__slabinc_slabs s)
    (__slabinc_slabq s) (__slabinc_lock s) x.
Definition on_env {B} (m : M X B) : M (slst X) B := zoom ss_x set_ssx m.

Definition on_objs {B} (m : M (X * gmap Z Z) B) : M (slst X) B := zoom (λ s, (ss_x s, ss_words s)) (λ xw s,
    set_words xw.2 (set_ssx xw.1 s)) m.

Definition get_slab (c : Z) : M (slst X) slab := m ← gets ss_slabs; opt_or Fault (m !! c).
Definition put_slab (c : Z) (f : slab → slab) : M (slst X) unit :=
  sc ← get_slab c; modify (λ s, set_slabs (<[c := f sc]> (ss_slabs s)) s).
Definition get_hdr (sh : Z) : M (slst X) slabhdr := m ← gets ss_hdrs; opt_or Fault (m !! sh).
Definition put_hdr (sh : Z) (h : slabhdr) : M (slst X) unit := modify (λ s, set_hdrs (<[sh := h]> (ss_hdrs s)) s).

Definition SPIN_LOCK (c : Z) : M (slst X) unit :=
  sc ← get_slab c; if sc_lock sc then stop Hang else put_slab c (with_lock true).
Definition SPIN_UNLOCK (c : Z) : M (slst X) unit := put_slab c (with_lock false).

(** The address of the header, and of the first object. *)
Definition ___slaballoc : M X (Z * Z) :=
  kva_una ← kva_alloc (2 * SLAB_SIZE - PAGE_SIZE);
  let kva_una_end := u64 (kva_una + 2 * SLAB_SIZE - PAGE_SIZE) in
  let kva_start := if negb (kva_una `mod` SLAB_SIZE =? 0) then Z.land (u64 (kva_una + SLAB_SIZE - 1))
    (2 ^ 64 - SLAB_SIZE) else kva_una in
  let kva_end := u64 (kva_start + SLAB_SIZE) in
  when (kva_una <? kva_start) (kva_free kva_una (kva_start - kva_una));;
  when (kva_end <? kva_una_end) (kva_free kva_end (kva_una_end - kva_end));;
  r ← kmap_ensure_range kva_start SLAB_SIZE (Z.lor HAL_PTE_W HAL_PTE_P);
  assertb (r =? 0);;
  kmap_commit;;
  mret (kva_start, kva_start + SIZEOF_SLABHDR).

Definition ___slabgethdr (obj : Z) : M (slst X) Z :=
  let sh := Z.land obj (2 ^ 64 - ___slabsize) in
  h ← get_hdr sh;
  mret (if sh_magic h =? SLABMAGIC then sh else 0).

(** The memory of the header goes away with its pages. *)
Definition ___slabfree (ptr : Z) : M (slst X) unit :=
  on_env (kmap_ensure_range ptr SLAB_SIZE 0);;
  on_env kmap_commit;;
  on_env (kva_free ptr SLAB_SIZE);;
  modify (λ s, set_hdrs (delete ptr (ss_hdrs s)) s).

(** [for (i = 0; i < objs; i++)]: the free list, last object first. *)
Fixpoint link_objs (n : nat) (ptr objsize : Z) (q : list Z) : list Z :=
  match n with
  | O => q
  | S n' => link_objs n' (ptr + objsize) objsize (ptr :: q)
  end.

Definition slab_grow (c : Z) : M (slst X) Z :=
  sc ← get_slab c;
  let objs := ___slabobjs (sc_objsize sc) in
  sp ← on_env ___slaballoc; let '(sh, ptr) := sp : Z * Z in
  if sh =? 0 then stop Fatal
  else
    put_hdr sh (Slabhdr SLABMAGIC c (u32 objs) (link_objs (Z.to_nat objs) ptr (sc_objsize sc) []));;
    SPIN_LOCK c;;
    put_slab c (λ sc, add_counts 1 0 0 (to_emptyq sh sc));;
    SPIN_UNLOCK c;;
    mret 1.

(** [while (!LIST_EMPTY (&sc->emptyq))]. *)
Fixpoint shrink_loop (fuel : nat) (c shrunk : Z) : M (slst X) Z :=
  match fuel with
  | O => stop Hang
  | S fuel' =>
      sc ← get_slab c;
      match sc_emptyq sc with
      | [] => mret shrunk
      | sh :: _ =>
          put_slab c (λ sc, add_counts (-1) 0 0 (unlinked sh sc));;
          SPIN_UNLOCK c;;
          ___slabfree sh;;
          SPIN_LOCK c;;
          shrink_loop fuel' c (shrunk + 1)
      end
  end.

Definition slab_shrink (c : Z) : M (slst X) Z :=
  SPIN_LOCK c;;
  sc ← get_slab c;
  shrunk ← shrink_loop (S (length (sc_emptyq sc))) c 0;
  SPIN_UNLOCK c;;
  mret shrunk.

(** The slab that an object is taken from, on the queue where it belongs after
    that. *)
Definition pick_slab (c : Z) : M (slst X) (option Z) :=
  sc ← get_slab c;
  match sc_freeq sc with
  | sh :: _ =>
      h ← get_hdr sh;
      when (sh_freecnt h =? 1) (put_slab c (λ sc, add_counts 0 (-1) 1 (to_fullq sh (unlinked sh sc))));;
      mret (Some sh)
  | [] =>
      match sc_emptyq sc with
      | sh :: _ => put_slab c (λ sc, add_counts (-1) 1 0 (to_freeq sh (unlinked sh sc)));; mret (Some sh)
      | [] => mret None
      end
  end.

(** From [retry] on; [tries] is at most 4 when it is tested. *)
Fixpoint find_slab (fuel : nat) (c tries : Z) : M (slst X) (option Z) :=
  match fuel with
  | O => stop Hang
  | S fuel' =>
      sh ← pick_slab c;
      match sh : option Z with
      | Some sh => mret (Some sh)
      | None =>
          SPIN_UNLOCK c;;
          if 3 <? tries then mret None
          else
            slab_grow c;;
            SPIN_LOCK c;;
            find_slab fuel' c (tries + 1)
      end
  end.

Definition slab_alloc_opq (c opq : Z) : M (slst X) Z :=
  SPIN_LOCK c;;
  sh ← find_slab 6 c 0;
  match sh : option Z with
  | None => mret 0
  | Some sh =>
      h ← get_hdr sh;
      match sh_freeq h with
      | [] => stop Fault
      | oh :: q =>
          put_hdr sh (Slabhdr (sh_magic h) (sh_cache h) (u32 (sh_freecnt h - 1)) q);;
          SPIN_UNLOCK c;;
          modify (λ s, set_words (<[oh := 0]> (ss_words s)) s);;
          sc ← get_slab c;
          when (negb (sc_ctr sc =? 0)) (on_objs (call_ctr (sc_ctr sc) oh opq 0));;
          mret oh
      end
  end.

Definition slab_alloc (c : Z) : M (slst X) Z := slab_alloc_opq c 0.

Definition slab_free (ptr : Z) : M (slst X) unit :=
  sh ← ___slabgethdr ptr;
  if sh =? 0 then mret tt
  else
    h ← get_hdr sh;
    let c := sh_cache h in
    sc ← get_slab c;
    let max_objs := u32 (___slabobjs (sc_objsize sc)) in
    when (negb (sc_ctr sc =? 0)) (on_objs (call_ctr (sc_ctr sc) ptr 0 1));;
    SPIN_LOCK c;;
    h ← get_hdr sh;
    let n := u32 (sh_freecnt h + 1) in
    put_hdr sh (Slabhdr (sh_magic h) (sh_cache h) n (ptr :: sh_freeq h));;
    (if n =? 1 then put_slab c (λ sc, add_counts 0 1 (-1) (to_freeq sh (unlinked sh sc)))
     else if n =? max_objs then put_slab c (λ sc, add_counts 1 (-1) 0 (to_emptyq sh (unlinked sh sc)))
     else mret tt);;
    SPIN_UNLOCK c.

Definition slabinc_init : M (slst X) unit :=
  i ← gets __slabinc_initialized;
  when (i =? 0) (modify (λ s,
    Slst (ss_slabs s) (ss_hdrs s) (ss_words s) (__slabinc_initialized s + 1) ___slabsize (__slabinc_slabs s) [] false
      (ss_x s))).

Definition slabinc_locked (m : M (slst X) unit) : M (slst X) unit :=
  spinlock __slabinc_lock set_slabinc_lock;; m;; spinunlock set_slabinc_lock.

Definition slab_register (c name objsize ctr : Z) (cachealign : bool) : M (slst X) unit :=
  slabinc_init;;
  let objsize := if cachealign then Z.land (u64 (objsize + 63)) (2 ^ 64 - 64) else objsize in
  let objsize := Z.max objsize SIZEOF_OBJHDR in
  modify (λ s, set_slabs (<[c := Slab false name objsize ctr 0 0 0 [] [] []]> (ss_slabs s)) s);;
  slabinc_locked (modify (λ s, set_slabinc (u32 (__slabinc_slabs s + 1)) (c :: __slabinc_slabq s) s)).

(** One of the loops of [slab_deregister]. *)
Fixpoint drain (fuel : nat) (c : Z) (queue : slab → list Z) : M (slst X) unit :=
  match fuel with
  | O => stop Hang
  | S fuel' =>
      sc ← get_slab c;
      match queue sc with
      | [] => mret tt
      | sh :: _ => put_slab c (unlinked sh);; ___slabfree sh;; drain fuel' c queue
      end
  end.

Definition slab_deregister (c : Z) : M (slst X) unit :=
  sc ← get_slab c;
  drain (S (length (sc_emptyq sc))) c sc_emptyq;;
  drain (S (length (sc_freeq sc))) c sc_freeq;;
  drain (S (length (sc_fullq sc))) c sc_fullq;;
  slabinc_locked (modify (λ s, set_slabinc (u32 (__slabinc_slabs s - 1)) (list_remove c (__slabinc_slabq s)) s)).

End code.
