(* ===== verification/SlabInv.v ===== *)
(** The slab allocator: the queues hold each slab where its number of free objects
    puts it, and no object is given out twice. *)

From S2P Require Import Prelude Words Locks Machine Hal Slab.

(** * Arithmetic and lists *)

Lemma land_high k x : 0 ≤ k ≤ 64 → word64 x → Z.land x (2 ^ 64 - 2 ^ k) = 2 ^ k * (x `div` 2 ^ k).
Proof.
  intros Hk Hx. assert (2 ^ 64 - 2 ^ k = Z.shiftl (Z.ones (64 - k)) k) as ->.
  { rewrite Z.shiftl_mul_pow2, Z.ones_equiv by lia.
    replace (2 ^ 64) with (2 ^ (64 - k) * 2 ^ k) by (rewrite <- Z.pow_add_r by lia; f_equal; lia). lia. }
  rewrite Z.mul_comm, <- Z.shiftr_div_pow2, <- Z.shiftl_mul_pow2 by lia. apply Z.bits_inj'. intros n Hn.
  rewrite Z.land_spec, !Z.shiftl_spec by done.
  destruct (Z.lt_ge_cases n k); [rewrite !(Z.testbit_neg_r _ (n - k)) by lia; apply andb_false_r|].
  rewrite Z.shiftr_spec by lia. replace (n - k + k) with n by lia. destruct (Z.lt_ge_cases n 64).
  - rewrite Z.ones_spec_low by lia. apply andb_true_r.
  - rewrite <- (Z.mod_small x (2 ^ 64)) by done. by rewrite Z.mod_pow2_bits_high by lia.
Qed.

Lemma list_remove_in x y l : y ∈ list_remove x l ↔ y ∈ l ∧ y ≠ x.
Proof. unfold list_remove. rewrite list_elem_of_filter. tauto. Qed.

Lemma list_remove_out x l : x ∉ l → list_remove x l = l.
Proof. intros Hx. induction l as [|y l IH]; [done|]. unfold list_remove in *.
  apply not_elem_of_cons in Hx as [Hne Hl]. rewrite filter_cons_True by done. by rewrite IH. Qed.

Lemma list_remove_app x l k : list_remove x (l ++ k) = list_remove x l ++ list_remove x k.
Proof. apply filter_app. Qed.

Lemma list_remove_perm x l : NoDup l → x ∈ l → x :: list_remove x l ≡ₚ l.
Proof.
  intros Hn Hx. induction l as [|y l IH]; [by apply not_elem_of_nil in Hx|]. apply NoDup_cons in Hn as [Hy Hn].
  unfold list_remove in *.
  destruct (decide (y = x)) as [->|Hne].
  - rewrite filter_cons_False by (by intros []). fold (list_remove x l). by rewrite list_remove_out.
  - rewrite filter_cons_True by done. apply elem_of_cons in Hx as [->|Hx]; [done|]. rewrite Permutation_swap. by rewrite IH.
Qed.

Lemma link_objs_in n : ∀ ptr z q p, p ∈ link_objs n ptr z q ↔ p ∈ q ∨ ∃ i : Z, 0 ≤ i < n ∧ p = ptr + i * z.
Proof.
  induction n as [|n IH]; intros ptr z q p; cbn [link_objs].
  - split; [by left|]. intros [?|(i & Hi & _)]; [done|lia].
  - rewrite IH, elem_of_cons. split.
    + intros [[->|?]|(i & Hi & ->)]; [right; exists 0; lia|by left|right; exists (i + 1); lia].
    + intros [?|(i & Hi & ->)]; [by left; right|].
      destruct (decide (i = 0)) as [->|]; [left; left; lia|right; exists (i - 1); lia].
Qed.

Lemma link_objs_length n : ∀ ptr z q, length (link_objs n ptr z q) = (n + length q)%nat.
Proof. induction n as [|n IH]; intros; cbn [link_objs]; [done|]. rewrite IH. cbn. lia. Qed.

Lemma link_objs_nodup n : ∀ ptr z q, 0 < z → NoDup q → (∀ p, p ∈ q → p < ptr) → NoDup (link_objs n ptr z q).
Proof.
  induction n as [|n IH]; intros ptr z q Hz Hq Hlt; cbn [link_objs]; [done|]. apply IH; [done| |].
  - apply NoDup_cons. split; [|done]. intros Hp%Hlt. lia.
  - intros p [->|Hp%Hlt]%elem_of_cons; lia.
Qed.

(** * What the slabs need of kva.c and kmap.c *)

Definition pages_of (a n p : Z) : Prop := (4096 | p) ∧ a ≤ p < a + n.

(** Stopped at an assertion or at an access to no memory. *)
Definition oom {A} (o : outcome A) : Prop := o = Abort AssertFail ∨ o = Abort Fault.

Lemma oom_bind {T A B} (m : M T A) (f : A → M T B) s : oom (m s) → oom ((m ≫= f) s).
Proof. unfold oom, mbind, M_bind. by intros [->| ->]; [left|right]. Qed.

(** [se_inv x P]: the pages [P] of the kernel's addresses are the slabs' own.
    [kva_can x]: there are addresses for one more. [can x m k]: there is memory for [m]
    more entries of kva.c, which [kva_free] uses without a check, and for the pages of
    [k] more slabs. *)
Class SlabEnvLaws (X : Type) `{!SlabEnv X} := {
  se_inv : X → (Z → Prop) → Prop;
  kva_can : X → Prop;
  can : X → nat → nat → Prop;
  se_ext x P P' : (∀ p, P p ↔ P' p) → se_inv x P → se_inv x P';
  can_le x m k m' k' : can x m k → (m' ≤ m)%nat → (k' ≤ k)%nat → can x m' k';
  kva_alloc_ok x P n : se_inv x P → kva_can x → (4096 | n) → 0 < n ≤ 3 * 4096 →
    ∃ a x', kva_alloc n x = Ret (a, x') ∧ (4096 | a) ∧ 0 < a ∧ a + n < 2 ^ 64 ∧ (∀ p, pages_of a n p → ¬ P p) ∧
      se_inv x' (λ p, P p ∨ pages_of a n p) ∧ ∀ m k, can x m k → can x' m k;
  kva_free_ok x P a n : se_inv x P → (4096 | a) → (4096 | n) → 0 < n → (∀ p, pages_of a n p → P p) →
    (∃ x', kva_free a n x = Ret (tt, x') ∧ se_inv x' (λ p, P p ∧ ¬ pages_of a n p) ∧ ∀ m k, can x (S m) k → can x' m k) ∨
    (¬ can x 1 0 ∧ kva_free a n x = Abort Fault);
  ensure_ok x P a : se_inv x P → (∀ p, pages_of a 8192 p → P p) →
    let o := kmap_ensure_range a 8192 (Z.lor HAL_PTE_W HAL_PTE_P) x in
    (∃ x', o = Ret (0, x') ∧ se_inv x' P ∧ ∀ m k, can x m (S k) → can x' m k) ∨
    (¬ can x 0 1 ∧ (o = Abort AssertFail ∨ ∃ r x', r ≠ 0 ∧ o = Ret (r, x')));
  unmap_ok x P a : se_inv x P → (∀ p, pages_of a 8192 p → P p) →
    ∃ r x', kmap_ensure_range a 8192 0 x = Ret (r, x') ∧ se_inv x' P ∧ ∀ m k, can x m k → can x' m k;
  commit_ok x P : se_inv x P → ∃ x', kmap_commit x = Ret (tt, x') ∧ se_inv x' P ∧ ∀ m k, can x m k → can x' m k;
  ctr_ok x P w f obj opq dec : se_inv x P → ∃ x' w', call_ctr f obj opq dec (x, w) = Ret (tt, (x', w')) ∧ se_inv x' P;
}.

Lemma slab_size_eq : SLAB_SIZE = 8192.
Proof. done. Qed.

Section alloc.
Context {X : Type} `{!SlabEnv X, !SlabEnvLaws X}.

Lemma slab_start_eq k : 0 ≤ k → 4096 * k + 8192 ≤ 2 ^ 64 →
  (if negb ((4096 * k) `mod` SLAB_SIZE =? 0) then Z.land (u64 (4096 * k + SLAB_SIZE - 1)) (2 ^ 64 - SLAB_SIZE) else
    4096 * k) = 8192 * ((k + 1) `div` 2).
Proof.
  intros Hk Hb. rewrite slab_size_eq.
  destruct (Z.eqb_spec ((4096 * k) `mod` 8192) 0) as [He|He]; cbn [negb]; [Z.div_mod_to_equations; lia|].
  rewrite u64_small by (unfold word64; lia). change (2 ^ 64 - 8192) with (2 ^ 64 - 2 ^ 13).
  rewrite land_high by (unfold word64; lia).
  change (2 ^ 13) with 8192. Z.div_mod_to_equations. lia.
Qed.

(** A range that is perhaps empty goes back. *)
Lemma when_free_run x P Q a e : se_inv x P → (4096 | a) → (4096 | e) → (∀ p, pages_of a (e - a) p → P p) →
    (∀ p, P p ∧ ¬ pages_of a (e - a) p ↔ Q p) →
  (∃ x', when (a <? e) (kva_free a (e - a)) x = Ret (tt, x') ∧ se_inv x' Q ∧
    ∀ m k, can x ((if a <? e then 1 else 0) + m) k → can x' m k) ∨
  (a < e ∧ ¬ can x 1 0 ∧ oom (when (a <? e) (kva_free a (e - a)) x)).
Proof.
  intros Hi Ha He HP HQ. destruct (Z.ltb_spec a e) as [Hlt|Hge]; cbn [when].
  - destruct (kva_free_ok x P a (e - a) Hi Ha ltac:(by apply Z.divide_sub_r) ltac:(lia) HP)
      as [(x' & Hr & Hi' & Hc)|[Hn Hf]]; [left|right].
    + exists x'. split; [done|]. split; [by eapply se_ext; [exact HQ|]|exact Hc].
    + split; [done|]. split; [done|]. by right.
  - left. exists x. split; [done|]. split; [|done]. eapply se_ext; [|exact Hi]. intros p. rewrite <- HQ.
    unfold pages_of. split; [|tauto]. intros. split; [done|lia].
Qed.

(** A pair of pages, aligned; the page too many goes back. *)
Lemma slaballoc_run x P : se_inv x P → kva_can x →
  (∃ sh x', ___slaballoc x = Ret ((sh, sh + 64), x') ∧ (8192 | sh) ∧ 0 < sh ∧ sh + 8192 < 2 ^ 64 ∧
     (∀ p, pages_of sh 8192 p → ¬ P p) ∧ se_inv x' (λ p, P p ∨ pages_of sh 8192 p)) ∨
  (¬ can x 1 1 ∧ oom (___slaballoc x)).
Proof.
  intros Hi Hc. unfold ___slaballoc. rewrite slab_size_eq, page_size_eq. change (2 * 8192 - 4096) with 12288.
  destruct (kva_alloc_ok x P 12288 Hi Hc) as (a & x1 & Hr & [k Hk] & Ha & Hend & Hnew & Hi1 & Hcan1);
    [by exists 3|lia|]. mrun Hr.
  rewrite Z.mul_comm in Hk. subst a. rewrite <- slab_size_eq. rewrite slab_start_eq by lia. rewrite slab_size_eq.
  set (sh := 8192 * ((k + 1) `div` 2)).
  assert (4096 * k ≤ sh ≤ 4096 * k + 4096 ∧ (sh = 4096 * k ∨ sh = 4096 * k + 4096)) as [Hsh Hone] by (unfold sh;
    Z.div_mod_to_equations; lia).
  rewrite !u64_small by (unfold word64; lia). replace (4096 * k + 2 * 8192 - 4096) with (4096 * k + 12288) by lia.
  assert (∀ i, (4096 | 4096 * i)) as Hdiv by (intros i; by exists i; lia).
  assert (sh = 4096 * (2 * ((k + 1) `div` 2))) as Hshd by (unfold sh; lia).
  set (P1 := λ p, P p ∨ pages_of (4096 * k) 12288 p) in *. set (P2 := λ p, P p ∨ pages_of sh 8192 p).
  set (Pm := λ p, P1 p ∧ ¬ pages_of (4096 * k) (sh - 4096 * k) p).
  destruct (when_free_run x1 P1 Pm (4096 * k) sh Hi1) as [(x2 & Hr2 & Hi2 & Hcan2)|(Hlt & Hno & Hoom)];
    [done|by rewrite Hshd|intros p [? ?]; right; split; [done|lia]|done| |].
  2: { right. split; [|by apply oom_bind]. intros Hcan%Hcan1. apply Hno. eapply can_le; [exact Hcan|lia..]. }
  mrun Hr2. assert (∀ p, Pm p ∧ ¬ pages_of (sh + 8192) (4096 * k + 12288 - (sh + 8192)) p ↔ P2 p) as Heq.
  { intros p. unfold Pm, P1, P2. split.
    - intros [[[?|[? ?]] H1] H2]; [by left|right]. split; [done|].
      destruct (decide (p < sh)); [destruct H1; split; [done|lia]|]. destruct (decide (p < sh + 8192)); [lia|].
      destruct H2. split; [done|lia].
    - intros [Hp|[? ?]].
      + assert (¬ pages_of (4096 * k) 12288 p) as Hn by (intros Hpp; by apply (Hnew p Hpp)). unfold pages_of in *.
        split; [split; [by left|]|]; intros [? ?]; apply Hn; (split; [done|lia]).
      + unfold pages_of. split; [split; [right; split; [done|lia]|]|]; intros [_ ?]; lia. }
  destruct (when_free_run x2 Pm P2 (sh + 8192) (4096 * k + 12288) Hi2) as [(x3 & Hr3 & Hi3 & Hcan3)|(Hlt & Hno & Hoom)].
  { replace (sh + 8192) with (4096 * (2 * ((k + 1) `div` 2) + 2)) by lia. done. }
  { replace (4096 * k + 12288) with (4096 * (k + 3)) by lia. done. }
  { intros p [Hp Hpr]. split; [right; split; [done|lia]|]. intros [_ ?]. lia. }
  { done. }
  2: { right. split; [|by apply oom_bind]. intros Hcan%Hcan1. apply Hno.
       rewrite (proj2 (Z.ltb_ge _ _)) in Hcan2 by lia. eapply can_le; [exact (Hcan2 1%nat 1%nat Hcan)|lia..]. }
  mrun Hr3. assert (can x 1 1 → can x3 0 1) as Hcan.
  { intros Hcan%Hcan1. apply Hcan3, Hcan2. eapply can_le; [exact Hcan| |done].
    destruct (Z.ltb_spec (4096 * k) sh), (Z.ltb_spec (sh + 8192) (4096 * k + 12288)); lia. }
  destruct (ensure_ok x3 P2 sh Hi3) as [(x4 & Hr4 & Hi4 & _)|[Hno Hr4]]; [by right| |].
  2: { right. split; [tauto|]. destruct Hr4 as [Hr4|(r & x4 & Hne & Hr4)]; [apply oom_bind; by left|]. mrun Hr4.
       rewrite (proj2 (Z.eqb_neq r 0)) by done. by left. }
  left. mrun Hr4. destruct (commit_ok x4 P2 Hi4) as (x5 & Hr5 & Hi5 & _). rewrite bind_assert by done. mrun Hr5.
  exists sh, x5. split_and!; try done; [by exists ((k + 1) `div` 2); unfold sh; lia|lia|lia|]. intros p [Hp Hpr].
  apply Hnew. split; [done|lia].
Qed.

End alloc.

(** * The invariant *)

Definition objs (z : Z) : Z := ___slabobjs z.

(** [p] is an object of the slab [sh] of objects of size [z]. *)
Definition is_obj (z sh p : Z) : Prop := ∃ i, 0 ≤ i < objs z ∧ p = sh + 64 + i * z.

Definition all_q (sc : slab) : list Z := sc_emptyq sc ++ sc_freeq sc ++ sc_fullq sc.

Record hdr_ok (c z sh : Z) (h : slabhdr) : Prop := {
  hd_magic : sh_magic h = SLABMAGIC;
  hd_cache : sh_cache h = c;
  hd_cnt : sh_freecnt h = length (sh_freeq h);
  hd_nodup : NoDup (sh_freeq h);
  hd_objs p : p ∈ sh_freeq h → is_obj z sh p;
  hd_align : (8192 | sh);
  hd_range : 0 < sh ∧ sh + 8192 < 2 ^ 64;
}.

(** The slabs of [l] have headers with the numbers of free objects [N]. *)
Definition queue_ok (H : gmap Z slabhdr) (c z : Z) (N : Z → Prop) (l : list Z) : Prop :=
  ∀ sh, sh ∈ l → ∃ h, H !! sh = Some h ∧ hdr_ok c z sh h ∧ N (sh_freecnt h).

Record cache_ok (H : gmap Z slabhdr) (c : Z) (lk : bool) (sc : slab) : Prop := {
  ca_lock : sc_lock sc = lk;
  ca_size : 8 ≤ sc_objsize sc ∧ 2 ≤ objs (sc_objsize sc);
  ca_nodup : NoDup (all_q sc);
  ca_empty : queue_ok H c (sc_objsize sc) (λ n, n = objs (sc_objsize sc)) (sc_emptyq sc);
  ca_free : queue_ok H c (sc_objsize sc) (λ n, 0 < n < objs (sc_objsize sc)) (sc_freeq sc);
  ca_full : queue_ok H c (sc_objsize sc) (λ n, n = 0) (sc_fullq sc);
  ca_emptycnt : sc_emptycnt sc = u32 (length (sc_emptyq sc));
  ca_freecnt : sc_freecnt sc = u32 (length (sc_freeq sc));
  ca_fullcnt : sc_fullcnt sc = u32 (length (sc_fullq sc));
}.

Section inv.
Context {X : Type} `{!SlabEnv X, !SlabEnvLaws X}.
Implicit Types s : slst X.

Definition own_pages (H : gmap Z slabhdr) (p : Z) : Prop := ∃ sh, is_Some (H !! sh) ∧ pages_of sh 8192 p.

(** [L]: the cache whose lock is held. *)
Record slabs_ok (L : option Z) s : Prop := {
  sk_cache c sc : ss_slabs s !! c = Some sc → cache_ok (ss_hdrs s) c (bool_decide (L = Some c)) sc;
  sk_hdr sh h : ss_hdrs s !! sh = Some h → ∃ sc, ss_slabs s !! sh_cache h = Some sc ∧ sh ∈ all_q sc;
  sk_env : se_inv (ss_x s) (own_pages (ss_hdrs s));
}.

(** The object [p] has been given out. *)
Definition used s (p : Z) : Prop :=
  ∃ sh h sc, ss_hdrs s !! sh = Some h ∧ ss_slabs s !! sh_cache h = Some sc ∧ is_obj (sc_objsize sc) sh p ∧ p ∉ sh_freeq h.

Lemma objs_bound z : 8 ≤ z → 0 ≤ objs z ≤ 1008 ∧ objs z * z ≤ 8064.
Proof.
  intros Hz. unfold objs, ___slabobjs, ___slabsize. rewrite slab_size_eq. unfold SIZEOF_SLABHDR.
  change (8192 - 2 * 64) with 8064.
  pose proof (Z.mul_div_le 8064 z ltac:(lia)). pose proof (Z.div_pos 8064 z ltac:(lia) ltac:(lia)). nia.
Qed.

(** An object lies in its slab, so the slab can be found from it. *)
Lemma obj_in_slab z sh p : 8 ≤ z → is_obj z sh p → sh + 64 ≤ p ∧ p + z ≤ sh + 8192.
Proof. intros Hz (i & Hi & ->). pose proof (objs_bound z Hz). nia. Qed.

Lemma obj_slab z sh p : 8 ≤ z → is_obj z sh p → (8192 | sh) → 0 < sh ∧ sh + 8192 < 2 ^ 64 →
    Z.land p (2 ^ 64 - ___slabsize) = sh.
Proof.
  intros Hz Ho [k Hk] Hr. pose proof (obj_in_slab z sh p Hz Ho). change (2 ^ 64 - ___slabsize) with (2 ^ 64 - 2 ^ 13).
  rewrite land_high by (unfold word64; lia). change (2 ^ 13) with 8192. Z.div_mod_to_equations. lia.
Qed.

Lemma queue_ok_ne H c z N l sh h : sh ∉ l → queue_ok H c z N l → queue_ok (<[sh := h]> H) c z N l.
Proof. intros Hn Hq sh' Hsh'. destruct (Hq sh' Hsh') as (h' & Hh' & ?). exists h'. split; [|done].
  rewrite lookup_insert_ne; [done|]. by intros ->. Qed.

Lemma queue_ok_del H c z N l sh : sh ∉ l → queue_ok H c z N l → queue_ok (delete sh H) c z N l.
Proof. intros Hn Hq sh' Hsh'. destruct (Hq sh' Hsh') as (h' & Hh' & ?). exists h'. split; [|done].
  rewrite lookup_delete_ne; [done|]. by intros ->. Qed.

Lemma queue_ok_remove H c z N l sh : queue_ok H c z N l → queue_ok H c z N (list_remove sh l).
Proof. intros Hq sh' [Hsh' _]%list_remove_in. by apply Hq. Qed.

Lemma queue_ok_cons H c z (N : Z → Prop) l sh h : H !! sh = Some h → hdr_ok c z sh h → N (sh_freecnt h) →
    queue_ok H c z N l → queue_ok H c z N (sh :: l).
Proof. intros Hh Ho Hn Hq sh' [->|Hsh']%elem_of_cons; [eauto|by apply Hq]. Qed.

(** The header of a slab of a cache. *)
Lemma cache_hdr H c lk sc sh : cache_ok H c lk sc → sh ∈ all_q sc → ∃ h, H !! sh = Some h ∧
    hdr_ok c (sc_objsize sc) sh h ∧ 0 ≤ sh_freecnt h ≤ objs (sc_objsize sc).
Proof.
  intros Hc. pose proof (ca_size _ _ _ _ Hc) as Hz. unfold all_q. rewrite !elem_of_app. intros [Hs|[Hs|Hs]].
  - destruct (ca_empty _ _ _ _ Hc sh Hs) as (h & ? & ? & ?). exists h. split_and!; try done; lia.
  - destruct (ca_free _ _ _ _ Hc sh Hs) as (h & ? & ? & ?). exists h. split_and!; try done; lia.
  - destruct (ca_full _ _ _ _ Hc sh Hs) as (h & ? & ? & ?). exists h. split_and!; try done; lia.
Qed.

Lemma cache_ok_other H c lk sc sh h : cache_ok H c lk sc → sh ∉ all_q sc → cache_ok (<[sh := h]> H) c lk sc.
Proof.
  intros [] Hn. unfold all_q in Hn. rewrite !elem_of_app in Hn. split; try done; apply queue_ok_ne; tauto.
Qed.

Lemma cache_ok_gone H c lk sc sh : cache_ok H c lk sc → sh ∉ all_q sc → cache_ok (delete sh H) c lk sc.
Proof.
  intros [] Hn. unfold all_q in Hn. rewrite !elem_of_app in Hn. split; try done; apply queue_ok_del; tauto.
Qed.

(** A slab is in the queues of one cache. *)
Lemma sk_owner L s sh h c sc : slabs_ok L s → ss_hdrs s !! sh = Some h → ss_slabs s !! c = Some sc → sh ∈ all_q sc →
    c = sh_cache h.
Proof.
  intros Hs Hh Hc Hin. destruct (cache_hdr _ _ _ _ _ (sk_cache _ _ Hs c sc Hc) Hin) as (h' & Hh' & Ho & _).
  rewrite Hh in Hh'. injection Hh' as <-. by rewrite (hd_cache _ _ _ _ Ho).
Qed.

(** ** Moving a slab *)

Lemma unlink_perm sc sh q : NoDup (all_q sc) → sh ∈ all_q sc →
  q = all_q (to_emptyq sh (unlinked sh sc)) ∨ q = all_q (to_freeq sh (unlinked sh sc)) ∨ q = all_q
    (to_fullq sh (unlinked sh sc)) → q ≡ₚ all_q sc.
Proof.
  intros Hn Hin Hq. rewrite <- (list_remove_perm sh (all_q sc) Hn Hin). unfold all_q. rewrite !list_remove_app.
  destruct Hq as [->|[->| ->]]; unfold all_q; cbn; by rewrite <- ?Permutation_middle.
Qed.

Lemma remove_len x l : NoDup l → x ∈ l → (length (list_remove x l) = length l - 1)%nat.
Proof. intros Hn Hx. rewrite <- (list_remove_perm x l Hn Hx) at 2. cbn. lia. Qed.

(** The cache after one of its slabs has a new header and, perhaps, a new place. *)
Lemma cache_relink H c lk lk' sc sc' sh h : cache_ok H c lk sc → sc_objsize sc' = sc_objsize sc → sc_lock sc' = lk' →
    NoDup (all_q sc') →
  hdr_ok c (sc_objsize sc) sh h →
  (∀ x, x ∈ sc_emptyq sc' → (x = sh ∧ sh_freecnt h = objs (sc_objsize sc)) ∨ x ≠ sh ∧ x ∈ sc_emptyq sc) →
  (∀ x, x ∈ sc_freeq sc' → (x = sh ∧ 0 < sh_freecnt h < objs (sc_objsize sc)) ∨ x ≠ sh ∧ x ∈ sc_freeq sc) →
  (∀ x, x ∈ sc_fullq sc' → (x = sh ∧ sh_freecnt h = 0) ∨ x ≠ sh ∧ x ∈ sc_fullq sc) →
  sc_emptycnt sc' = u32 (length (sc_emptyq sc')) → sc_freecnt sc' = u32 (length (sc_freeq sc')) →
    sc_fullcnt sc' = u32 (length (sc_fullq sc')) →
  cache_ok (<[sh := h]> H) c lk' sc'.
Proof.
  intros Hc Hz Hl Hn Hh He Hf Hg C1 C2 C3.
  assert (∀ N q q', queue_ok H c (sc_objsize sc) N q → (∀ x, x ∈ q' → (x = sh ∧ N (sh_freecnt h)) ∨ x ≠ sh ∧ x ∈ q) →
    queue_ok (<[sh := h]> H) c (sc_objsize sc) N q') as Hq.
  { intros N q q' Hq Hx x Hx'. destruct (Hx x Hx') as [[-> ?]|[Hne Hin]]; [exists h; by rewrite lookup_insert_eq|].
    destruct (Hq x Hin) as (hx & Hhx & ?). exists hx. by rewrite lookup_insert_ne. }
  split; try done; rewrite Hz; [apply Hc|eapply Hq; [apply Hc|done]..].
Qed.

Lemma slabs_relink L L' s s' c sc sc' sh h : slabs_ok L s → ss_slabs s !! c = Some sc →
    ss_slabs s' = <[c := sc']> (ss_slabs s) → ss_hdrs s' = <[sh := h]> (ss_hdrs s) →
  sh_cache h = c → cache_ok (<[sh := h]> (ss_hdrs s)) c (bool_decide (L' = Some c)) sc' →
    (∀ c', c' ≠ c → L' = Some c' ↔ L = Some c') →
  (∀ x, x ∈ all_q sc' ↔ x ∈ all_q sc ∨ x = sh) → sh ∈ all_q sc ∨ ss_hdrs s !! sh = None →
    se_inv (ss_x s') (own_pages (<[sh := h]> (ss_hdrs s))) → slabs_ok L' s'.
Proof.
  intros Hs Hc Es Eh Hsh Hok HL Hq Hold Henv. split.
  - intros c' sc1. rewrite Es, Eh. intros [[<- <-]|[Hne Hc']]%lookup_insert_Some; [done|].
    replace (bool_decide (L' = Some c')) with (bool_decide (L = Some c')) by (apply bool_decide_ext; symmetry;
      by apply HL). apply cache_ok_other; [by apply (sk_cache _ _ Hs)|].
    intros Hin. destruct (cache_hdr _ _ _ _ _ (sk_cache _ _ Hs c' sc1 Hc') Hin) as (h1 & Hh1 & Ho1 & _).
    destruct Hold as [Hold|Hold]; [|congruence].
    pose proof (sk_owner _ _ _ _ _ _ Hs Hh1 Hc Hold). pose proof (hd_cache _ _ _ _ Ho1). congruence.
  - intros x hx. rewrite Es, Eh. intros [[<- <-]|[Hne Hx]]%lookup_insert_Some.
    + exists sc'. rewrite Hsh, lookup_insert_eq. split; [done|]. rewrite Hq. by right.
    + destruct (sk_hdr _ _ Hs x hx Hx) as (scx & Hscx & Hin). destruct (decide (sh_cache hx = c)) as [Heq|Hnc].
      * exists sc'. rewrite Heq, lookup_insert_eq. split; [done|]. rewrite Hq. left. rewrite Heq in Hscx. congruence.
      * exists scx. by rewrite lookup_insert_ne.
  - by rewrite Eh.
Qed.

Lemma u32_add a b : u32 (u32 a + b) = u32 (a + b).
Proof. unfold u32. by rewrite Zplus_mod_idemp_l. Qed.

(** Headers of slabs that exist may change: the pages are the same. *)
Lemma own_pages_same H sh h p : is_Some (H !! sh) → own_pages (<[sh := h]> H) p ↔ own_pages H p.
Proof.
  intros Hs. unfold own_pages. split; intros (x & Hx & Hp); exists x; (split; [|done]).
  - destruct (decide (x = sh)) as [->|Hne]; [done|by rewrite lookup_insert_ne in Hx].
  - destruct (decide (x = sh)) as [->|Hne]; [rewrite lookup_insert_eq; eauto|by rewrite lookup_insert_ne].
Qed.

End inv.
