(* ===== verification/SlabOps.v ===== *)
(** The operations of the slab allocator keep its invariant. *)

From S2P Require Import Prelude Words Locks Machine Hal Slab SlabInv.

Section ops.
Context {X : Type} `{!SlabEnv X, !SlabEnvLaws X}.
Implicit Types s : slst X.

Lemma get_slab_run s c sc : ss_slabs s !! c = Some sc → get_slab c s = Ret (sc, s).
Proof. intros Hc. unfold get_slab. mrun. by rewrite Hc. Qed.

Lemma put_slab_run s c sc f : ss_slabs s !! c = Some sc →
    put_slab c f s = Ret (tt, set_slabs (<[c := f sc]> (ss_slabs s)) s).
Proof. intros Hc. unfold put_slab. by mrun (get_slab_run s c sc Hc). Qed.

Lemma get_hdr_run s sh h : ss_hdrs s !! sh = Some h → get_hdr sh s = Ret (h, s).
Proof. intros Hc. unfold get_hdr. mrun. by rewrite Hc. Qed.

Lemma slab_env_run {B} (m : M X B) s b x : m (ss_x s) = Ret (b, x) → on_env m s = Ret (b, set_ssx x s).
Proof. intros Hm. unfold on_env, zoom. by rewrite Hm. Qed.

Lemma oom_env {B} (m : M X B) s : oom (m (ss_x s)) → oom (on_env m s).
Proof. unfold oom, on_env, zoom. by intros [->| ->]; [left|right]. Qed.

(** ** Locks *)

Definition relock (b : bool) (c : Z) (sc : slab) s : slst X := set_slabs (<[c := with_lock b sc]> (ss_slabs s)) s.

Lemma spin_lock_run s c sc : ss_slabs s !! c = Some sc → sc_lock sc = false → SPIN_LOCK c s = Ret (tt, relock true c sc s).
Proof. intros Hc Hl. unfold SPIN_LOCK. mrun (get_slab_run s c sc Hc). rewrite Hl. by apply put_slab_run. Qed.

Lemma spin_unlock_run s c sc : ss_slabs s !! c = Some sc → SPIN_UNLOCK c s = Ret (tt, relock false c sc s).
Proof. apply put_slab_run. Qed.

Lemma cache_ok_lock H c lk b sc : cache_ok H c lk sc → cache_ok H c b (with_lock b sc).
Proof. intros []. by split. Qed.

Lemma relock_ok L L' s c sc : slabs_ok L s → ss_slabs s !! c = Some sc →
    (∀ c', c' ≠ c → L' = Some c' ↔ L = Some c') → slabs_ok L' (relock (bool_decide (L' = Some c)) c sc s).
Proof.
  intros [H1 H2 H3] Hc HL. split; [| |done].
  - intros c' sc'. cbn. intros [[<- <-]|[Hne Hc']]%lookup_insert_Some; [eapply cache_ok_lock; by apply H1|].
    replace (bool_decide (L' = Some c')) with (bool_decide (L = Some c')) by (apply bool_decide_ext; symmetry;
      by apply HL). by apply H1.
  - intros sh h Hh. destruct (H2 sh h Hh) as (sc1 & Hsc1 & Hin). cbn. destruct (decide (sh_cache h = c)) as [Heq|Hne].
    + exists (with_lock (bool_decide (L' = Some c)) sc). rewrite Heq, lookup_insert_eq. split; [done|].
      rewrite Heq in Hsc1. replace sc with sc1 by congruence. done.
    + exists sc1. by rewrite lookup_insert_ne.
Qed.

Lemma lock_ok s c sc : slabs_ok None s → ss_slabs s !! c = Some sc → slabs_ok (Some c) (relock true c sc s).
Proof. intros Hs Hc. pose proof (relock_ok None (Some c) s c sc Hs Hc) as H. rewrite bool_decide_true in H by done.
  apply H. naive_solver. Qed.

Lemma unlock_ok s c sc : slabs_ok (Some c) s → ss_slabs s !! c = Some sc → slabs_ok None (relock false c sc s).
Proof. intros Hs Hc. pose proof (relock_ok (Some c) None s c sc Hs Hc) as H. rewrite bool_decide_false in H by done.
  apply H. naive_solver. Qed.

Lemma used_relock b c sc s p : ss_slabs s !! c = Some sc → used (relock b c sc s) p ↔ used s p.
Proof.
  intros Hc. unfold used. cbn. split; intros (sh & h & sc' & Hh & Hsc & Ho & Hn).
  - destruct (decide (sh_cache h = c)) as [Heq|Hne]; [|rewrite lookup_insert_ne in Hsc by done; by exists sh, h, sc'].
    rewrite Heq, lookup_insert_eq in Hsc. injection Hsc as <-. exists sh, h, sc. by rewrite Heq.
  - destruct (decide (sh_cache h = c)) as [Heq|Hne]; [|exists sh, h, sc'; by rewrite lookup_insert_ne].
    exists sh, h, (with_lock b sc). rewrite Heq, lookup_insert_eq. rewrite Heq in Hsc.
    replace sc with sc' by congruence. done.
Qed.

(** ** Growing *)

Lemma grow_hdr c z sh : 8 ≤ z → 2 ≤ objs z → (8192 | sh) → 0 < sh ∧ sh + 8192 < 2 ^ 64 →
  let h := Slabhdr SLABMAGIC c (u32 (objs z)) (link_objs (Z.to_nat (objs z)) (sh + 64) z []) in
  hdr_ok c z sh h ∧ sh_freecnt h = objs z ∧ ∀ p, p ∈ sh_freeq h ↔ is_obj z sh p.
Proof.
  intros Hz Ho Ha Hr h. destruct (objs_bound z Hz) as [Hb _].
  assert (u32 (objs z) = objs z) as Hu by (unfold u32; apply Z.mod_small; lia).
  assert (∀ p, p ∈ sh_freeq h ↔ is_obj z sh p) as Hin.
  { intros p. cbn. rewrite link_objs_in.
    split; [intros [?%not_elem_of_nil|(i & Hi & ->)]; [done|exists i; split; [lia|done]]|]. intros (i & Hi & ->).
    right. exists i. split; [lia|done]. }
  split; [|split; [exact Hu|exact Hin]]. split; try done; cbn.
  - rewrite link_objs_length, Hu. cbn. lia.
  - apply link_objs_nodup; [lia|constructor|]. intros p ?%not_elem_of_nil. done.
  - intros p. apply Hin.
Qed.

Lemma slab_grow_run s c sc : slabs_ok None s → ss_slabs s !! c = Some sc → kva_can (ss_x s) →
  (∃ s' sc', slab_grow c s = Ret (1, s') ∧ slabs_ok None s' ∧ ss_slabs s' !! c = Some sc' ∧ sc_emptyq sc' ≠ [] ∧
    sc_freeq sc' = sc_freeq sc ∧
     sc_objsize sc' = sc_objsize sc ∧ sc_ctr sc' = sc_ctr sc ∧ ss_words s' = ss_words s ∧ ∀ p, used s' p ↔ used s p) ∨
  (¬ can (ss_x s) 1 1 ∧ oom (slab_grow c s)).
Proof.
  intros Hs Hc Hcan. unfold slab_grow. mrun (get_slab_run s c sc Hc). pose proof (sk_cache _ _ Hs c sc Hc) as Hca.
  destruct (ca_size _ _ _ _ Hca) as [Hz Hob].
  destruct (slaballoc_run (ss_x s) _ (sk_env _ _ Hs) Hcan) as [(sh & x' & Hr & Ha & Hpos & Hend & Hnew & Henv)|[Hno Hr]].
  2:{ right. split; [done|]. by apply oom_bind, oom_env. }
  left. mrun (slab_env_run _ s _ _ Hr). rewrite (proj2 (Z.eqb_neq sh 0)) by lia. fold (objs (sc_objsize sc)).
  destruct (grow_hdr c (sc_objsize sc) sh Hz Hob Ha ltac:(lia)) as (Hh & Hn & Hin). set (h := Slabhdr _ _ _ _) in *.
  assert (ss_hdrs s !! sh = None) as Hfresh.
  { apply eq_None_not_Some. intros Hsome. apply (Hnew sh); [split; [by etrans; [exists 2|exact Ha]|lia]|]. exists sh.
    split; [done|]. split; [by etrans; [exists 2|exact Ha]|lia]. }
  assert (sh ∉ all_q sc) as Hnq.
  { intros Hq. destruct (cache_hdr _ _ _ _ _ Hca Hq) as (h' & Hh' & _). congruence. }
  set (sc' := add_counts 1 0 0 (to_emptyq sh sc)).
  exists (Slst (<[c := sc']> (ss_slabs s)) (<[sh := h]> (ss_hdrs s)) (ss_words s) (__slabinc_initialized s)
    (__slabinc_size s) (__slabinc_slabs s) (__slabinc_slabq s) (__slabinc_lock s) x'), sc'.
  pose proof (ca_lock _ _ _ _ Hca) as Hlk. rewrite bool_decide_false in Hlk by done.
  assert (with_lock false (add_counts 1 0 0 (to_emptyq sh (with_lock true sc))) = sc') as Hsc' by (unfold sc';
    destruct sc; cbn in *; by subst).
  split.
  { unfold put_hdr. mrun. set (s1 := set_hdrs _ _). mrun (spin_lock_run s1 c sc Hc Hlk). unfold relock.
    mrun (put_slab_run (set_slabs (<[c := with_lock true sc]> (ss_slabs s1)) s1) c (with_lock true sc) (λ sc,
      add_counts 1 0 0 (to_emptyq sh sc)) (lookup_insert_eq _ _ _)).
    mrun (spin_unlock_run (set_slabs (<[c := add_counts 1 0 0 (to_emptyq sh (with_lock true sc))]>
      (<[c := with_lock true sc]> (ss_slabs s1))) s1) c _ (lookup_insert_eq _ _ _)).
    unfold relock. cbn. rewrite !insert_insert_eq. by rewrite Hsc'. }
  assert (cache_ok (<[sh := h]> (ss_hdrs s)) c false sc') as Hok.
  { eapply (cache_relink _ _ _ _ sc); try done.
    - unfold all_q. cbn. apply NoDup_cons. split; [done|apply (ca_nodup _ _ _ _ Hca)].
    - cbn. intros x [->|Hx]%elem_of_cons; [by left|right]. split; [|done]. intros ->. apply Hnq. unfold all_q.
      rewrite !elem_of_app. by left.
    - cbn. intros x Hx. right. split; [|done]. intros ->. apply Hnq. unfold all_q. rewrite !elem_of_app. by right; left.
    - cbn. intros x Hx. right. split; [|done]. intros ->. apply Hnq. unfold all_q. rewrite !elem_of_app. by right; right.
    - cbn. rewrite (ca_emptycnt _ _ _ _ Hca), u32_add. f_equal. lia.
    - cbn. rewrite (ca_freecnt _ _ _ _ Hca), u32_add. f_equal. lia.
    - cbn. rewrite (ca_fullcnt _ _ _ _ Hca), u32_add. f_equal. lia. }
  split.
  { eapply (slabs_relink None None s _ c sc sc' sh h); try done; [|by right|].
    - unfold all_q. cbn. intros x. rewrite elem_of_cons. tauto.
    - cbn. eapply se_ext; [|exact Henv]. intros p. unfold own_pages. split.
      + intros [(x & Hx & Hp)|Hp]; [exists x|exists sh; by rewrite lookup_insert_eq]. split; [|done].
        by apply lookup_insert_is_Some'; right.
      + intros (x & [->|Hx]%lookup_insert_is_Some' & Hp); [by right|left; eauto]. }
  split; [apply lookup_insert_eq|]. split_and!; try done. intros p. unfold used. cbn. split.
  - intros (x & hx & scx & Hx & Hcx & Ho & Hnf).
    apply lookup_insert_Some in Hx as [[<- <-]|[Hne Hx]]; [cbn in Hcx; rewrite lookup_insert_eq in Hcx;
      injection Hcx as <-; by destruct Hnf; apply Hin|].
    destruct (decide (sh_cache hx = c)) as [Heq|Hnc]; [|rewrite lookup_insert_ne in Hcx by done; by exists x, hx, scx].
    rewrite Heq, lookup_insert_eq in Hcx. injection Hcx as <-. exists x, hx, sc. by rewrite Heq.
  - intros (x & hx & scx & Hx & Hcx & Ho & Hnf). assert (x ≠ sh) by congruence. exists x, hx.
    destruct (decide (sh_cache hx = c)) as [Heq|Hnc].
    + exists sc'. rewrite lookup_insert_ne by done. rewrite Heq, lookup_insert_eq. rewrite Heq in Hcx.
      assert (scx = sc) as -> by congruence. done.
    + exists scx. by rewrite !lookup_insert_ne by done.
Qed.

(** ** One slab changes *)

(** Objects of two slabs are apart, as are two objects of one slab. *)
Lemma is_obj_apart z z' sh sh' p q : 8 ≤ z → 8 ≤ z' → (8192 | sh) → (8192 | sh') → is_obj z sh p → is_obj z' sh' q →
    sh ≠ sh' → p + z ≤ q ∨ q + z' ≤ p.
Proof.
  intros Hz Hz' [k ->] [k' ->] Hp Hq Hne. pose proof (obj_in_slab _ _ _ Hz Hp).
  pose proof (obj_in_slab _ _ _ Hz' Hq). assert (k < k' ∨ k' < k) by nia. lia.
Qed.

Lemma is_obj_step z sh p q : 8 ≤ z → is_obj z sh p → is_obj z sh q → p ≠ q → p + z ≤ q ∨ q + z ≤ p.
Proof. intros Hz (i & _ & ->) (j & _ & ->) Hne. assert (i < j ∨ j < i) by nia. nia. Qed.

(** The header and the object size of a slab. *)
Lemma slab_facts L s sh h : slabs_ok L s → ss_hdrs s !! sh = Some h →
  ∃ sc, ss_slabs s !! sh_cache h = Some sc ∧ sh ∈ all_q sc ∧ hdr_ok (sh_cache h) (sc_objsize sc) sh h ∧
    8 ≤ sc_objsize sc ∧ 2 ≤ objs (sc_objsize sc) ∧
    0 ≤ sh_freecnt h ≤ objs (sc_objsize sc).
Proof.
  intros Hs Hh. destruct (sk_hdr _ _ Hs sh h Hh) as (sc & Hc & Hin). exists sc. pose proof (sk_cache _ _ Hs _ _ Hc) as Hca.
  destruct (cache_hdr _ _ _ _ _ Hca Hin) as (h' & Hh' & Ho & Hn). assert (h' = h) as -> by congruence.
  destruct (ca_size _ _ _ _ Hca). by split_and!; try lia.
Qed.

(** [p] is an object, of size [z]. *)
Definition obj_at s (p z : Z) : Prop := ∃ sh h sc, ss_hdrs s !! sh = Some h ∧ ss_slabs s !! sh_cache h = Some sc ∧
    is_obj (sc_objsize sc) sh p ∧ sc_objsize sc = z.

Lemma obj_at_apart L s p q z z' : slabs_ok L s → obj_at s p z → obj_at s q z' → p ≠ q → p + z ≤ q ∨ q + z' ≤ p.
Proof.
  intros Hs (sh & h & sc & Hh & Hc & Hp & <-) (sh' & h' & sc' & Hh' & Hc' & Hq & <-) Hne.
  destruct (slab_facts _ _ _ _ Hs Hh) as (sc1 & ? & _ & Ho1 & Hz1 & _). replace sc1 with sc in * by congruence.
  destruct (slab_facts _ _ _ _ Hs Hh') as (sc2 & ? & _ & Ho2 & Hz2 & _). replace sc2 with sc' in * by congruence.
  destruct (decide (sh = sh')) as [->|Hns].
  - assert (sc' = sc) as -> by congruence. by eapply is_obj_step.
  - eapply is_obj_apart; [exact Hz1|exact Hz2|apply Ho1|apply Ho2|done..].
Qed.

Definition set_one (c : Z) (sc : slab) (sh : Z) (h : slabhdr) s : slst X := set_hdrs (<[sh := h]> (ss_hdrs s))
    (set_slabs (<[c := sc]> (ss_slabs s)) s).

(** The objects of the slab [sh] that are given out after the change are those off
    its new free list. *)
Lemma set_one_ok L s c sc sc' sh h h' : slabs_ok L s → ss_slabs s !! c = Some sc → ss_hdrs s !! sh = Some h → sh ∈ all_q sc →
  hdr_ok c (sc_objsize sc) sh h' → cache_ok (<[sh := h']> (ss_hdrs s)) c (bool_decide (L = Some c)) sc' →
    sc_objsize sc' = sc_objsize sc →
  (∀ x, x ∈ all_q sc' ↔ x ∈ all_q sc) →
  slabs_ok L (set_one c sc' sh h' s) ∧ (∀ p, used (set_one c sc' sh h' s) p ↔ used s p ∧
    ¬ is_obj (sc_objsize sc) sh p ∨ is_obj (sc_objsize sc) sh p ∧ p ∉ sh_freeq h').
Proof.
  intros Hs Hc Hh Hin Ho Hok Hz Hq. pose proof (sk_owner _ _ _ _ _ _ Hs Hh Hc Hin) as Hcc.
  pose proof (hd_cache _ _ _ _ Ho) as Hcc'. split.
  { eapply (slabs_relink L L s _ c sc sc' sh h'); try done.
    - intros x. rewrite Hq. split; [by left|]. by intros [?| ->].
    - by left.
    - cbn. eapply se_ext; [|apply (sk_env _ _ Hs)]. intros p. rewrite own_pages_same; [done|eauto]. }
  intros p. unfold used. cbn. split.
  - intros (x & hx & scx & Hx & Hcx & Hox & Hnf). apply lookup_insert_Some in Hx as [[<- <-]|[Hne Hx]].
    + right. rewrite Hcc', lookup_insert_eq in Hcx. injection Hcx as <-. by rewrite <- Hz.
    + left. assert (∃ scy, ss_slabs s !! sh_cache hx = Some scy ∧ sc_objsize scy = sc_objsize scx) as (scy & Hy & Hzy).
      { destruct (decide (sh_cache hx = c)) as [Heq|Hnc]; [|rewrite lookup_insert_ne in Hcx by done; eauto].
        rewrite Heq, lookup_insert_eq in Hcx. injection Hcx as <-. exists sc. by rewrite Heq. }
      split; [exists x, hx, scy; by rewrite Hzy|]. intros Hop.
      destruct (slab_facts _ _ _ _ Hs Hx) as (sc1 & ? & _ & Ho1 & Hz1 & _). replace sc1 with scy in * by congruence.
      pose proof (ca_size _ _ _ _ (sk_cache _ _ Hs _ _ Hc)) as [Hz2 _]. rewrite <- Hzy in Hox.
      destruct (is_obj_apart _ _ sh x p p Hz2 Hz1 (hd_align _ _ _ _ Ho) (hd_align _ _ _ _ Ho1) Hop Hox Hne); lia.
  - intros [[(x & hx & scx & Hx & Hcx & Hox & Hnf) Hnot]|[Hop Hnf]].
    + assert (x ≠ sh) as Hne. { intros ->. destruct Hnot. assert (hx = h) as -> by congruence.
      rewrite <- Hcc, Hc in Hcx. by injection Hcx as ->. }
      exists x, hx. destruct (decide (sh_cache hx = c)) as [Heq|Hnc].
      * exists sc'. rewrite lookup_insert_ne by done. rewrite Heq, lookup_insert_eq, Hz. rewrite Heq in Hcx.
        assert (scx = sc) as -> by congruence. done.
      * exists scx. by rewrite !lookup_insert_ne by done.
    + exists sh, h', sc'. by rewrite !lookup_insert_eq, Hcc', lookup_insert_eq, Hz.
Qed.

(** ** Taking an object *)

Lemma set_slabs_id s c sc : ss_slabs s !! c = Some sc → set_slabs (<[c := sc]> (ss_slabs s)) s = s.
Proof. intros Hc. rewrite insert_id by done. by destruct s. Qed.

Lemma cnt_remove x q : NoDup q → x ∈ q → u32 (u32 (length q) + -1) = u32 (length (list_remove x q)).
Proof. intros Hn Hx. rewrite u32_add, remove_len by done. f_equal.
  destruct q; [by apply not_elem_of_nil in Hx|cbn; lia]. Qed.

Lemma cnt_keep x q : x ∉ q → u32 (u32 (length q) + 0) = u32 (length (list_remove x q)).
Proof. intros Hx. rewrite u32_add, list_remove_out by done. f_equal. lia. Qed.

Lemma cnt_add x q : x ∉ q → u32 (u32 (length q) + 1) = u32 (S (length (list_remove x q))).
Proof. intros Hx. rewrite u32_add, list_remove_out by done. f_equal. lia. Qed.

(** The queue a slab belongs on when it has a new header. *)
Lemma cache_moved H c lk sc sc' sh h : cache_ok H c lk sc → sh ∈ all_q sc → hdr_ok c (sc_objsize sc) sh h →
  (sc' = add_counts 0 (-1) 1 (to_fullq sh (unlinked sh sc)) ∧ sh ∈ sc_freeq sc ∧ sh_freecnt h = 0 ∨
   sc' = add_counts (-1) 1 0 (to_freeq sh (unlinked sh sc)) ∧ sh ∈ sc_emptyq sc ∧ 0 < sh_freecnt h < objs (sc_objsize sc) ∨
   sc' = add_counts 0 1 (-1) (to_freeq sh (unlinked sh sc)) ∧ sh ∈ sc_fullq sc ∧ 0 < sh_freecnt h < objs (sc_objsize sc) ∨
   sc' = add_counts 1 (-1) 0 (to_emptyq sh (unlinked sh sc)) ∧ sh ∈ sc_freeq sc ∧ sh_freecnt h = objs (sc_objsize sc) ∨
   sc' = sc ∧ sh ∈ sc_freeq sc ∧ 0 < sh_freecnt h < objs (sc_objsize sc)) →
  cache_ok (<[sh := h]> H) c lk sc' ∧ sc_objsize sc' = sc_objsize sc ∧ ∀ x, x ∈ all_q sc' ↔ x ∈ all_q sc.
Proof.
  intros Hca Hin Ho Hcase. pose proof (ca_nodup _ _ _ _ Hca) as Hnd. pose proof (ca_size _ _ _ _ Hca) as Hsz.
  assert (all_q sc' ≡ₚ all_q sc) as Hperm.
  { destruct Hcase as [[-> _]|[[-> _]|[[-> _]|[[-> _]|[-> _]]]]]; [eapply unlink_perm; eauto..|done]. }
  assert (sc_objsize sc' = sc_objsize sc ∧ sc_lock sc' = sc_lock sc) as [Hz Hl]
    by (destruct Hcase as [[-> _]|[[-> _]|[[-> _]|[[-> _]|[-> _]]]]]; done).
  split; [|split; [done|intros x; by rewrite Hperm]].
  unfold all_q in Hnd, Hin. apply NoDup_app in Hnd as (Ne & Nx & (Nf & Ny & Nu)%NoDup_app).
  assert (∀ q x, x ∈ list_remove sh q → x ≠ sh ∧ x ∈ q) as Hrm by (intros q x [? ?]%list_remove_in; done).
  assert (∀ x, (x ∈ sc_emptyq sc → x ∉ sc_freeq sc ∧ x ∉ sc_fullq sc) ∧
    (x ∈ sc_freeq sc → x ∉ sc_emptyq sc ∧ x ∉ sc_fullq sc) ∧ (x ∈ sc_fullq sc → x ∉ sc_emptyq sc ∧ x ∉ sc_freeq sc))
    as Hdis.
  { intros x. specialize (Nx x). specialize (Ny x). rewrite elem_of_app in Nx. tauto. }
  pose proof (Hdis sh) as Hd. pose proof (ca_emptycnt _ _ _ _ Hca) as Ke. pose proof (ca_freecnt _ _ _ _ Hca) as Kf.
  pose proof (ca_fullcnt _ _ _ _ Hca) as Ku.
  eapply (cache_relink _ _ lk lk sc); try done; [by rewrite Hl; apply (ca_lock _ _ _ _ Hca)|rewrite Hperm; apply Hca|..];
    destruct Hcase as [(-> & Hq & Hn)|[(-> & Hq & Hn)|[(-> & Hq & Hn)|[(-> & Hq & Hn)|(-> & Hq & Hn)]]]]; cbn.
  all: try (intros x [->|Hx]%elem_of_cons; [left; split; [done|lia]|right; by apply Hrm]).
  all: try (intros x Hx; right; by apply Hrm).
  all: try done.
  all: try (intros x Hx; destruct (decide (x = sh)) as [->|Hne]; [left; tauto|by right]).
  all: rewrite ?Ke, ?Kf, ?Ku; first [apply cnt_remove; tauto|apply cnt_keep; tauto|apply cnt_add; tauto].
Qed.

Definition taken (h : slabhdr) (q : list Z) : slabhdr := Slabhdr (sh_magic h) (sh_cache h) (u32 (sh_freecnt h - 1)) q.

Lemma taken_hdr_ok c z sh h p q : 8 ≤ z → hdr_ok c z sh h → sh_freecnt h ≤ objs z → sh_freeq h = p :: q →
    hdr_ok c z sh (taken h q) ∧ sh_freecnt (taken h q) = sh_freecnt h - 1.
Proof.
  intros Hz [Hm Hc Hn Hd Ho Ha Hr] Hb Hq. pose proof (objs_bound z Hz). rewrite Hq in *. cbn in Hn.
  assert (u32 (sh_freecnt h - 1) = sh_freecnt h - 1) as Hu by (unfold u32; apply Z.mod_small; lia).
  split; [|done]. apply NoDup_cons in Hd as [_ Hd]. split; try done; cbn; [lia|]. intros x Hx. apply Ho. by right.
Qed.

(** The slab picked has a free object, and is where it belongs once the object is
    taken. *)
Definition picked s (c : Z) (sc : slab) (sh : Z) (h : slabhdr) (p : Z) (q : list Z) (sc' : slab) : Prop :=
  ss_hdrs s !! sh = Some h ∧ sh ∈ all_q sc ∧ sh_freeq h = p :: q ∧ hdr_ok c (sc_objsize sc) sh h ∧
    hdr_ok c (sc_objsize sc) sh (taken h q) ∧ sc_ctr sc' = sc_ctr sc ∧
  cache_ok (<[sh := taken h q]> (ss_hdrs s)) c true sc' ∧ sc_objsize sc' = sc_objsize sc ∧ ∀ x, x ∈ all_q sc' ↔ x ∈ all_q sc.

Lemma pick_slab_run s c sc : slabs_ok (Some c) s → ss_slabs s !! c = Some sc → sc_freeq sc ≠ [] ∨ sc_emptyq sc ≠ [] →
  ∃ sh h p q sc', pick_slab c s = Ret (Some sh, set_slabs (<[c := sc']> (ss_slabs s)) s) ∧ picked s c sc sh h p q sc'.
Proof.
  intros Hs Hc Hne. pose proof (sk_cache _ _ Hs c sc Hc) as Hca. rewrite bool_decide_true in Hca by done.
  pose proof (ca_size _ _ _ _ Hca) as [Hz Hob].
  assert (∀ h : slabhdr, sh_freecnt h = length (sh_freeq h) → 0 < sh_freecnt h → ∃ p q, sh_freeq h = p :: q) as Hcons.
  { intros h Hl Hpos. destruct (sh_freeq h) as [|p q]; [cbn in Hl; lia|eauto]. }
  unfold pick_slab. mrun (get_slab_run s c sc Hc). destruct (sc_freeq sc) as [|sh l] eqn:Ef.
  - destruct (sc_emptyq sc) as [|sh l] eqn:Ee; [naive_solver|].
    destruct (ca_empty _ _ _ _ Hca sh ltac:(rewrite Ee; by left)) as (h & Hh & Ho & Hn).
    destruct (Hcons h (hd_cnt _ _ _ _ Ho) ltac:(lia)) as (p & q & Hq).
    destruct (taken_hdr_ok _ _ _ _ _ _ Hz Ho ltac:(lia) Hq) as [Ht Htn].
    assert (sh ∈ all_q sc) as Hin by (unfold all_q; rewrite Ee; by left).
    destruct (cache_moved _ _ _ _ (add_counts (-1) 1 0 (to_freeq sh (unlinked sh sc))) _ _ Hca Hin Ht) as (Hok & Hoz & Hqs).
    { right; left. split_and!; [done|rewrite Ee; by left|lia|lia]. }
    exists sh, h, p, q, (add_counts (-1) 1 0 (to_freeq sh (unlinked sh sc))). split; [|done].
    by mrun (put_slab_run s c sc (λ sc, add_counts (-1) 1 0 (to_freeq sh (unlinked sh sc))) Hc).
  - destruct (ca_free _ _ _ _ Hca sh ltac:(rewrite Ef; by left)) as (h & Hh & Ho & Hn).
    destruct (Hcons h (hd_cnt _ _ _ _ Ho) ltac:(lia)) as (p & q & Hq).
    destruct (taken_hdr_ok _ _ _ _ _ _ Hz Ho ltac:(lia) Hq) as [Ht Htn].
    assert (sh ∈ sc_freeq sc) as Hinf by (rewrite Ef; by left).
    assert (sh ∈ all_q sc) as Hin by (unfold all_q; rewrite !elem_of_app; tauto).
    mrun (get_hdr_run s sh h Hh). destruct (Z.eqb_spec (sh_freecnt h) 1) as [He|He]; cbn [when].
    + destruct (cache_moved _ _ _ _ (add_counts 0 (-1) 1 (to_fullq sh (unlinked sh sc))) _ _ Hca Hin Ht)
        as (Hok & Hoz & Hqs); [left; split_and!; [done..|lia]|].
      exists sh, h, p, q, (add_counts 0 (-1) 1 (to_fullq sh (unlinked sh sc))). split; [|done].
      by mrun (put_slab_run s c sc (λ sc, add_counts 0 (-1) 1 (to_fullq sh (unlinked sh sc))) Hc).
    + destruct (cache_moved _ _ _ _ sc _ _ Hca Hin Ht) as (Hok & Hoz & Hqs); [do 4 right; split_and!; [done..|lia|lia]|].
      exists sh, h, p, q, sc. split; [|done]. mrun. by rewrite set_slabs_id.
Qed.

Lemma pick_slab_none s c sc : ss_slabs s !! c = Some sc → sc_freeq sc = [] → sc_emptyq sc = [] →
    pick_slab c s = Ret (None, s).
Proof. intros Hc Hf He. unfold pick_slab. mrun (get_slab_run s c sc Hc). by rewrite Hf, He. Qed.

(** There is an object, or room for a new slab. *)
Definition has_room s (sc : slab) : Prop := sc_freeq sc ≠ [] ∨ sc_emptyq sc ≠ [] ∨ kva_can (ss_x s).

Lemma find_slab_run s c sc n t : slabs_ok (Some c) s → ss_slabs s !! c = Some sc → has_room s sc → t ≤ 3 →
  (∃ s1 sc1 sh h p q sc', find_slab (S (S n)) c t s = Ret (Some sh, set_slabs (<[c := sc']> (ss_slabs s1)) s1) ∧
    slabs_ok (Some c) s1 ∧ ss_slabs s1 !! c = Some sc1 ∧
     sc_objsize sc1 = sc_objsize sc ∧ picked s1 c sc1 sh h p q sc' ∧
       (sc_ctr sc1 = sc_ctr sc ∧ ss_words s1 = ss_words s) ∧ ∀ x, used s1 x ↔ used s x) ∨
  (sc_freeq sc = [] ∧ sc_emptyq sc = [] ∧ ¬ can (ss_x s) 1 1 ∧ oom (find_slab (S (S n)) c t s)).
Proof.
  intros Hs Hc Hroom Ht. destruct (decide (sc_freeq sc ≠ [] ∨ sc_emptyq sc ≠ [])) as [Hne|Hno].
  { destruct (pick_slab_run s c sc Hs Hc Hne) as (sh & h & p & q & sc' & Hr & Hp). left.
    exists s, sc, sh, h, p, q, sc'. split; [|done]. cbn [find_slab]. by mrun Hr. }
  assert (sc_freeq sc = [] ∧ sc_emptyq sc = []) as [Hf He] by (destruct (sc_freeq sc), (sc_emptyq sc); naive_solver).
  destruct Hroom as [?|[?|Hcan]]; [done..|].
  remember (S n) as k eqn:Hk. cbn [find_slab]. mrun (pick_slab_none s c sc Hc Hf He).
  mrun (spin_unlock_run s c sc Hc). rewrite (proj2 (Z.ltb_ge 3 t)) by lia.
  pose proof (unlock_ok s c sc Hs Hc) as Hs1.
  destruct (slab_grow_run (relock false c sc s) c (with_lock false sc) Hs1 (lookup_insert_eq _ _ _) Hcan)
    as [(s2 & sc2 & Hg & Hs2 & Hc2 & Hne2 & _ & Hz2 & Hct2 & Hw2 & Hu2)|[Hnc Hg]];
      [|right; split; [done|split; [done|split; [done|by apply oom_bind]]]].
  left. mrun Hg. pose proof (ca_lock _ _ _ _ (sk_cache _ _ Hs2 c sc2 Hc2)) as Hlk.
  rewrite bool_decide_false in Hlk by done. mrun (spin_lock_run s2 c sc2 Hc2 Hlk).
  pose proof (lock_ok s2 c sc2 Hs2 Hc2) as Hs3.
  destruct (pick_slab_run (relock true c sc2 s2) c (with_lock true sc2) Hs3 (lookup_insert_eq _ _ _) ltac:(by right))
    as (sh & h & p & q & sc' & Hr & Hp).
  exists (relock true c sc2 s2), (with_lock true sc2), sh, h, p, q, sc'.
  split; [subst k; cbn [find_slab]; by mrun Hr|]. split; [done|]. split; [apply lookup_insert_eq|].
  split; [done|]. split; [done|]. split; [done|]. intros x. by rewrite used_relock, Hu2, used_relock.
Qed.

Lemma slabs_ok_env L s s' : slabs_ok L s → ss_slabs s' = ss_slabs s → ss_hdrs s' = ss_hdrs s →
    se_inv (ss_x s') (own_pages (ss_hdrs s)) → slabs_ok L s'.
Proof. intros [H1 H2 H3] E1 E2 He. split; by rewrite ?E1, ?E2. Qed.

Lemma used_env s s' p : ss_slabs s' = ss_slabs s → ss_hdrs s' = ss_hdrs s → used s' p ↔ used s p.
Proof. intros E1 E2. unfold used. by rewrite E1, E2. Qed.

(** The constructor, if there is one, changes the environment and the words of objects. *)
Lemma ctr_run s f obj opq dec P : se_inv (ss_x s) P →
  ∃ x w, when (negb (f =? 0)) (call_ctr f obj opq dec) (ss_x s, ss_words s) = Ret (tt, (x, w)) ∧ se_inv x P ∧
    when (negb (f =? 0)) (on_objs (call_ctr f obj opq dec)) s = Ret (tt, set_words w (set_ssx x s)).
Proof.
  intros Hi. destruct (f =? 0); cbn [negb when]; [exists (ss_x s), (ss_words s); split; [done|]; split;
    [done|by destruct s]|].
  destruct (ctr_ok (ss_x s) P (ss_words s) f obj opq dec Hi) as (x & w & Hr & Hx). exists x, w. split; [done|].
  split; [done|]. unfold on_objs, zoom. by rewrite Hr.
Qed.

(** The objects of a slab, as a list. *)
Definition obj_list (z sh : Z) : list Z := link_objs (Z.to_nat (objs z)) (sh + 64) z [].

Lemma obj_list_in z sh p : p ∈ obj_list z sh ↔ is_obj z sh p.
Proof.
  unfold obj_list. rewrite link_objs_in.
  split; [intros [?%not_elem_of_nil|(i & Hi & ->)]; [done|exists i; split; [lia|done]]|].
  intros (i & Hi & ->). right. exists i. split; [lia|done].
Qed.

(** An object of a slab has been given out if it is not on the slab's free list. *)
Lemma used_in_slab L s c sc sh h x : slabs_ok L s → ss_slabs s !! c = Some sc → ss_hdrs s !! sh = Some h →
    sh ∈ all_q sc → is_obj (sc_objsize sc) sh x →
  used s x ↔ x ∉ sh_freeq h.
Proof.
  intros Hs Hc Hh Hin Hx. pose proof (sk_owner _ _ _ _ _ _ Hs Hh Hc Hin) as Hcc.
  split; [|intros Hn; exists sh, h, sc; by rewrite <- Hcc].
  intros (y & hy & scy & Hy & Hcy & Hoy & Hny). destruct (decide (y = sh)) as [->|Hne]; [congruence|].
  destruct (slab_facts _ _ _ _ Hs Hy) as (sc1 & ? & _ & Ho1 & Hz1 & _). replace sc1 with scy in * by congruence.
  destruct (slab_facts _ _ _ _ Hs Hh) as (sc2 & ? & _ & Ho2 & Hz2 & _). replace sc2 with sc in * by congruence.
  destruct (is_obj_apart _ _ y sh x x Hz1 Hz2 (hd_align _ _ _ _ Ho1) (hd_align _ _ _ _ Ho2) Hoy Hx Hne); lia.
Qed.

(** Taking the first free object of the slab picked. *)
Lemma take_ok s c sc sh h p q sc' : slabs_ok (Some c) s → ss_slabs s !! c = Some sc → picked s c sc sh h p q sc' →
  let s' := relock false c sc' (set_one c sc' sh (taken h q) s) in
  slabs_ok None s' ∧ ¬ used s p ∧ (∀ x, used s' x ↔ used s x ∨ x = p) ∧ obj_at s' p (sc_objsize sc).
Proof.
  intros Hs Hc (Hh & Hin & Hq & Ho & Ht & _ & Hok & Hz & Hqs) s'. pose proof (sk_owner _ _ _ _ _ _ Hs Hh Hc Hin) as Hcc.
  destruct (set_one_ok (Some c) s c sc sc' sh h (taken h q) Hs Hc Hh Hin Ht) as [Hs1 Hu1];
    [by rewrite bool_decide_true|done..|].
  assert (ss_slabs (set_one c sc' sh (taken h q) s) !! c = Some sc') as Hc1 by apply lookup_insert_eq.
  assert (is_obj (sc_objsize sc) sh p) as Hop by (apply (hd_objs _ _ _ _ Ho); rewrite Hq; by left).
  pose proof (hd_nodup _ _ _ _ Ho) as Hnd. rewrite Hq in Hnd. apply NoDup_cons in Hnd as [Hpq _].
  pose proof (λ x, used_in_slab _ s c sc sh h x Hs Hc Hh Hin) as Hsh. rewrite Hq in Hsh.
  split; [by apply unlock_ok|]. split; [rewrite (Hsh p Hop); intros Hn; destruct Hn; by left|]. split.
  - intros x. unfold s'. rewrite used_relock by done. rewrite Hu1. cbn. rewrite <- obj_list_in. specialize (Hsh x).
    rewrite <- obj_list_in in Hsh, Hop. rewrite elem_of_cons in Hsh.
    destruct (decide (x ∈ obj_list (sc_objsize sc) sh)), (decide (x = p)) as [->|]; tauto.
  - exists sh, (taken h q), (with_lock false sc'). cbn. rewrite lookup_insert_eq, <- Hcc, lookup_insert_eq. by rewrite Hz.
Qed.

(** The first word of the object [p] is cleared and then the constructor [f], if there is
    one, called on it; no other word changes but by the constructor. *)
Definition constructed (f p opq : Z) s s' : Prop :=
  ∃ x1, se_inv x1 (own_pages (ss_hdrs s')) ∧
    when (negb (f =? 0)) (call_ctr f p opq 0) (x1, <[p := 0]> (ss_words s)) = Ret (tt, (ss_x s', ss_words s')).

Lemma slab_alloc_run s c sc opq : slabs_ok None s → ss_slabs s !! c = Some sc → has_room s sc →
  (∃ p s', slab_alloc_opq c opq s = Ret (p, s') ∧ slabs_ok None s' ∧ ¬ used s p ∧
    (∀ x, used s' x ↔ used s x ∨ x = p) ∧ obj_at s' p (sc_objsize sc) ∧ constructed (sc_ctr sc) p opq s s') ∨
  (sc_freeq sc = [] ∧ sc_emptyq sc = [] ∧ ¬ can (ss_x s) 1 1 ∧ oom (slab_alloc_opq c opq s)).
Proof.
  intros Hs Hc Hroom. unfold slab_alloc_opq. pose proof (ca_lock _ _ _ _ (sk_cache _ _ Hs c sc Hc)) as Hlk.
  rewrite bool_decide_false in Hlk by done.
  mrun (spin_lock_run s c sc Hc Hlk). pose proof (lock_ok s c sc Hs Hc) as Hs1.
  destruct (find_slab_run (relock true c sc s) c (with_lock true sc) 4 0 Hs1 (lookup_insert_eq _ _ _) Hroom ltac:(lia))
    as [(s2 & sc2 & sh & h & p & q & sc' & Hr & Hs2 & Hc2 & Hz2 & Hp & (Hct2 & Hw2) & Hu2)|(Hf & He & Hno & Hr)];
      [|right; split; [done|split; [done|split; [done|by apply oom_bind]]]].
  left. mrun Hr. destruct (take_ok s2 c sc2 sh h p q sc' Hs2 Hc2 Hp) as (Hs3 & Hn3 & Hu3 & Ho3).
  destruct Hp as (Hh & Hin & Hq & Ho & Ht & Hctr & Hok & Hz & Hqs).
  mrun (get_hdr_run (set_slabs (<[c := sc']> (ss_slabs s2)) s2) sh h Hh). rewrite Hq. unfold put_hdr. mrun.
  fold (taken h q). fold (set_one c sc' sh (taken h q) s2).
  assert (ss_slabs (set_one c sc' sh (taken h q) s2) !! c = Some sc') as Hc3 by apply lookup_insert_eq.
  mrun (spin_unlock_run _ _ _ Hc3).
  set (s3 := relock false c sc' _) in *.
  assert (ss_slabs (set_words (<[p := 0]> (ss_words s3)) s3) !! c = Some (with_lock false sc')) as Hc4
    by apply lookup_insert_eq.
  mrun. set (s4 := set_words _ s3) in *. mrun (get_slab_run _ _ _ Hc4).
  destruct (ctr_run s4 (sc_ctr (with_lock false sc')) p opq 0 (own_pages (ss_hdrs s3)) (sk_env None s3 Hs3))
    as (x & w & Hcx & Hix & Hx). mrun Hx.
  eexists p, _. split; [done|]. split; [by apply (slabs_ok_env None s3)|].
  split; [rewrite <- (used_relock true c sc s) by done; by rewrite <- Hu2|]. split.
  { intros y. rewrite (used_env s3) by done. by rewrite Hu3, Hu2, used_relock. }
  split; [rewrite Hz2 in Ho3; exact Ho3|]. exists (ss_x s4). split; [exact (sk_env None s3 Hs3)|].
  change (sc_ctr (with_lock false sc')) with (sc_ctr sc') in Hcx. rewrite Hctr, Hct2 in Hcx.
  change (ss_words s4) with (<[p := 0]> (ss_words s2)) in Hcx. rewrite Hw2 in Hcx. exact Hcx.
Qed.

(** ** Giving an object back *)

Definition freed (h : slabhdr) (p : Z) : slabhdr := Slabhdr (sh_magic h) (sh_cache h) (u32 (sh_freecnt h + 1))
    (p :: sh_freeq h).

Lemma freed_ok c z sh h p : 8 ≤ z → hdr_ok c z sh h → is_obj z sh p → p ∉ sh_freeq h → hdr_ok c z sh (freed h p) ∧
    sh_freecnt (freed h p) = sh_freecnt h + 1 ∧ sh_freecnt h + 1 ≤ objs z.
Proof.
  intros Hz [Hm Hc Hn Hd Ho Ha Hr] Hp Hnp. pose proof (objs_bound z Hz) as [Hb _].
  assert (length (p :: sh_freeq h) ≤ objs z) as Hle.
  { replace (objs z) with (Z.of_nat (length (obj_list z sh))) by (unfold obj_list; rewrite link_objs_length; cbn;
      lia). apply inj_le. apply submseteq_length, NoDup_submseteq; [by apply NoDup_cons|].
    intros x [->|Hx]%elem_of_cons; apply obj_list_in; [done|by apply Ho]. }
  cbn [length] in Hle. assert (u32 (sh_freecnt h + 1) = sh_freecnt h + 1) as Hu by (unfold u32; apply Z.mod_small; lia).
  split; [|split; [done|lia]]. split; try done; cbn; [lia|by apply NoDup_cons|].
  intros x [->|Hx]%elem_of_cons; [done|by apply Ho].
Qed.

Lemma slabgethdr_run s sh h p : ss_hdrs s !! sh = Some h → sh_magic h = SLABMAGIC →
    Z.land p (2 ^ 64 - ___slabsize) = sh → ___slabgethdr p s = Ret (sh, s).
Proof. intros Hh Hm Hl. unfold ___slabgethdr. rewrite Hl. mrun (get_hdr_run s sh h Hh). by rewrite Hm, Z.eqb_refl. Qed.

(** What [slab_free] does to the queues, from the header's new number. *)
Definition requeue (sh n max : Z) (sc : slab) : slab :=
  if n =? 1 then add_counts 0 1 (-1) (to_freeq sh (unlinked sh sc)) else if n =? max then add_counts 1 (-1) 0
    (to_emptyq sh (unlinked sh sc)) else sc.

Lemma requeue_run s c sc sh n max : ss_slabs s !! c = Some sc →
  (if n =? 1 then put_slab c (λ sc, add_counts 0 1 (-1) (to_freeq sh (unlinked sh sc)))
   else if n =? max then put_slab c (λ sc, add_counts 1 (-1) 0 (to_emptyq sh (unlinked sh sc)))
   else mret tt) s = Ret (tt, set_slabs (<[c := requeue sh n max sc]> (ss_slabs s)) s).
Proof.
  intros Hc. unfold requeue. destruct (n =? 1); [by apply (put_slab_run s c sc)|].
  destruct (n =? max); [by apply (put_slab_run s c sc)|]. by rewrite set_slabs_id.
Qed.

Lemma requeue_ok H c lk sc sh h h' : cache_ok H c lk sc → H !! sh = Some h → sh ∈ all_q sc →
    hdr_ok c (sc_objsize sc) sh h' → sh_freecnt h' = sh_freecnt h + 1 →
  sh_freecnt h' ≤ objs (sc_objsize sc) → let sc' := requeue sh (sh_freecnt h') (objs (sc_objsize sc)) sc in
  cache_ok (<[sh := h']> H) c lk sc' ∧ sc_objsize sc' = sc_objsize sc ∧ ∀ x, x ∈ all_q sc' ↔ x ∈ all_q sc.
Proof.
  intros Hca Hh Hin Ho Hn Hle sc'. apply cache_moved; try done. pose proof (ca_size _ _ _ _ Hca) as [_ Hob].
  unfold sc', requeue. unfold all_q in Hin. rewrite !elem_of_app in Hin.
  destruct Hin as [Hin|[Hin|Hin]].
  - destruct (ca_empty _ _ _ _ Hca sh Hin) as (hx & Hx & _ & Hc). replace hx with h in * by congruence. lia.
  - destruct (ca_free _ _ _ _ Hca sh Hin) as (hx & Hx & _ & Hc). replace hx with h in * by congruence.
    rewrite (proj2 (Z.eqb_neq _ 1)) by lia.
    destruct (Z.eqb_spec (sh_freecnt h') (objs (sc_objsize sc))); do 3 right; [by left|right]. split_and!; [done..|lia|lia].
  - destruct (ca_full _ _ _ _ Hca sh Hin) as (hx & Hx & _ & Hc). replace hx with h in * by congruence.
    rewrite (proj2 (Z.eqb_eq _ 1)) by lia.
    right; right; left. split_and!; [done..|lia|lia].
Qed.

Lemma slab_free_run s p : slabs_ok None s → used s p → ∃ s', slab_free p s = Ret (tt, s') ∧ slabs_ok None s' ∧
    ∀ x, used s' x ↔ used s x ∧ x ≠ p.
Proof.
  intros Hs (sh & h & sc & Hh & Hc & Hop & Hnp).
  destruct (slab_facts _ _ _ _ Hs Hh) as (sc1 & Hc1 & Hin & Ho & Hz & Hob & Hfc).
  assert (sc1 = sc) as -> by congruence. clear Hc1.
  unfold slab_free. mrun (slabgethdr_run s sh h p Hh (hd_magic _ _ _ _ Ho)
    (obj_slab _ _ _ Hz Hop (hd_align _ _ _ _ Ho) (hd_range _ _ _ _ Ho))).
  pose proof (hd_range _ _ _ _ Ho) as Hr. rewrite (proj2 (Z.eqb_neq sh 0)) by lia. mrun (get_hdr_run s sh h Hh).
  set (c := sh_cache h) in *. mrun (get_slab_run s c sc Hc).
  destruct (ctr_run s (sc_ctr sc) p 0 1 _ (sk_env _ _ Hs)) as (x & w & _ & Hix & Hx). mrun Hx.
  set (s1 := set_words w (set_ssx x s)). assert (slabs_ok None s1) as Hs1 by (by apply (slabs_ok_env None s)).
  pose proof (ca_lock _ _ _ _ (sk_cache _ _ Hs c sc Hc)) as Hlk. rewrite bool_decide_false in Hlk by done.
  mrun (spin_lock_run s1 c sc Hc Hlk).
  pose proof (lock_ok s1 c sc Hs1 Hc) as Hs2. set (s2 := relock true c sc s1) in *.
  assert (ss_slabs s2 !! c = Some (with_lock true sc)) as Hc2 by apply lookup_insert_eq.
  mrun (get_hdr_run s2 sh h Hh). fold (freed h p). unfold put_hdr. mrun.
  set (s3 := set_hdrs (<[sh := freed h p]> (ss_hdrs s2)) s2). fold c.
  destruct (freed_ok _ _ _ _ _ Hz Ho Hop Hnp) as (Hf & Hfn & Hle).
  assert (u32 (sh_freecnt h + 1) = sh_freecnt (freed h p)) as -> by done.
  assert (u32 (___slabobjs (sc_objsize sc)) = objs (sc_objsize sc)) as -> by (unfold u32; apply Z.mod_small;
    pose proof (objs_bound _ Hz); unfold objs in *; lia).
  set (sc' := requeue sh (sh_freecnt (freed h p)) (objs (sc_objsize sc)) (with_lock true sc)).
  mrun (requeue_run s3 c (with_lock true sc) sh (sh_freecnt (freed h p)) (objs (sc_objsize sc)) Hc2). fold sc'.
  pose proof (sk_cache _ _ Hs2 c _ Hc2) as Hca. rewrite bool_decide_true in Hca by done.
  destruct (requeue_ok _ _ _ _ _ _ (freed h p) Hca Hh Hin Hf Hfn ltac:(cbn [sc_objsize with_lock]; lia))
    as (Hok & Hz' & Hqs).
  destruct (set_one_ok (Some c) s2 c (with_lock true sc) sc' sh h (freed h p) Hs2 Hc2 Hh Hin Hf) as [Hs4 Hu4];
    [by rewrite bool_decide_true|done..|].
  assert (ss_slabs (set_one c sc' sh (freed h p) s2) !! c = Some sc') as Hc4 by apply lookup_insert_eq.
  exists (relock false c sc' (set_one c sc' sh (freed h p) s2)). split; [exact (spin_unlock_run _ _ _ Hc4)|].
  split; [by apply unlock_ok|].
  intros y. rewrite used_relock by done. rewrite Hu4. unfold s2 at 1. rewrite used_relock by done.
  rewrite (used_env s s1) by done. cbn [sc_objsize with_lock sh_freeq freed].
  pose proof (used_in_slab _ s c sc sh h y Hs Hc Hh Hin) as Hsh. rewrite <- obj_list_in in Hsh, Hop |- *.
  rewrite elem_of_cons. destruct (decide (y ∈ obj_list (sc_objsize sc) sh)), (decide (y = p)) as [->|]; tauto.
Qed.

(** ** Giving a slab back *)

Definition recount (sc : slab) : slab := with_counts (length (sc_emptyq sc)) (length (sc_freeq sc))
    (length (sc_fullq sc)) sc.

Lemma cache_drop H c lk sc sh : cache_ok H c lk sc → cache_ok (delete sh H) c lk (recount (unlinked sh sc)).
Proof.
  intros [Hl Hz Hn He Hf Hg _ _ _].
  assert (∀ q N, queue_ok H c (sc_objsize sc) N q → queue_ok (delete sh H) c (sc_objsize sc) N (list_remove sh q))
    as Hq.
  { intros q N Hq. apply queue_ok_del; [|by apply queue_ok_remove]. by intros [_ ?]%list_remove_in. }
  split; try done; try (by apply Hq). unfold all_q in *. cbn. rewrite <- !list_remove_app. by apply NoDup_filter.
Qed.

Lemma own_pages_drop L s sh h p : slabs_ok L s → ss_hdrs s !! sh = Some h →
    own_pages (delete sh (ss_hdrs s)) p ↔ own_pages (ss_hdrs s) p ∧ ¬ pages_of sh 8192 p.
Proof.
  intros Hs Hh. unfold own_pages. destruct (slab_facts _ _ _ _ Hs Hh) as (sc & _ & _ & Ho & _).
  destruct (hd_align _ _ _ _ Ho) as [k Hk]. split.
  - intros (x & [hx Hx] & Hp). apply lookup_delete_Some in Hx as [Hne Hx]. split; [exists x; eauto|]. intros Hp'.
    destruct (slab_facts _ _ _ _ Hs Hx) as (scx & _ & _ & Hox & _). destruct (hd_align _ _ _ _ Hox) as [kx Hkx].
    unfold pages_of in *. lia.
  - intros [(x & Hx & Hp) Hn]. exists x. split; [|done]. rewrite lookup_delete_ne; [done|]. by intros ->.
Qed.

Definition drop_one (c sh : Z) (sc : slab) (x : X) s : slst X := set_ssx x
    (set_hdrs (delete sh (ss_hdrs s)) (set_slabs (<[c := recount (unlinked sh sc)]> (ss_slabs s)) s)).

Lemma drop_one_ok L s c sc sh h x : slabs_ok L s → ss_slabs s !! c = Some sc → ss_hdrs s !! sh = Some h → sh ∈ all_q sc →
  se_inv x (λ p, own_pages (ss_hdrs s) p ∧ ¬ pages_of sh 8192 p) → slabs_ok L (drop_one c sh sc x s) ∧
  ∀ p, used (drop_one c sh sc x s) p ↔ used s p ∧ ¬ is_obj (sc_objsize sc) sh p.
Proof.
  intros Hs Hc Hh Hin Hx. pose proof (sk_owner _ _ _ _ _ _ Hs Hh Hc Hin) as Hcc. split; [split|].
  - intros c' sc'. cbn. intros [[<- <-]|[Hne Hc']]%lookup_insert_Some; [by apply cache_drop, (sk_cache _ _ Hs)|].
    apply cache_ok_gone; [by apply (sk_cache _ _ Hs)|].
    intros Hin'. pose proof (sk_owner _ _ _ _ _ _ Hs Hh Hc' Hin'). congruence.
  - intros y hy. cbn. intros [Hne Hy]%lookup_delete_Some. destruct (sk_hdr _ _ Hs y hy Hy) as (scy & Hcy & Hiny).
    destruct (decide (sh_cache hy = c)) as [Heq|Hnc].
    + exists (recount (unlinked sh sc)). rewrite Heq, lookup_insert_eq. split; [done|]. rewrite Heq in Hcy.
      assert (scy = sc) as -> by congruence.
      unfold all_q in *. cbn. rewrite <- !list_remove_app. apply list_remove_in. done.
    + exists scy. by rewrite lookup_insert_ne.
  - cbn. eapply se_ext; [|exact Hx]. intros p. by rewrite (own_pages_drop _ _ _ _ _ Hs Hh).
  - intros p. unfold used at 1. cbn. split.
    + intros (y & hy & scy & Hy & Hcy & Hoy & Hny). apply lookup_delete_Some in Hy as [Hne Hy].
      assert (∃ scz, ss_slabs s !! sh_cache hy = Some scz ∧ sc_objsize scz = sc_objsize scy) as (scz & Hcz & Hzz).
      { destruct (decide (sh_cache hy = c)) as [Heq|Hnc]; [|rewrite lookup_insert_ne in Hcy by done; eauto].
        rewrite Heq, lookup_insert_eq in Hcy. injection Hcy as <-. exists sc. by rewrite Heq. }
      rewrite <- Hzz in Hoy. split; [by exists y, hy, scz|]. intros Hop.
      destruct (slab_facts _ _ _ _ Hs Hy) as (sc1 & ? & _ & Ho1 & Hz1 & _). replace sc1 with scz in * by congruence.
      destruct (slab_facts _ _ _ _ Hs Hh) as (sc2 & ? & _ & Ho2 & Hz2 & _). replace sc2 with sc in * by congruence.
      destruct (is_obj_apart _ _ y sh p p Hz1 Hz2 (hd_align _ _ _ _ Ho1) (hd_align _ _ _ _ Ho2) Hoy Hop); [congruence|lia..].
    + intros [(y & hy & scy & Hy & Hcy & Hoy & Hny) Hnot]. assert (y ≠ sh) as Hne.
      { intros ->. destruct Hnot. assert (hy = h) as -> by congruence. rewrite <- Hcc, Hc in Hcy.
      by injection Hcy as ->. }
      exists y, hy. destruct (decide (sh_cache hy = c)) as [Heq|Hnc].
      * exists (recount (unlinked sh sc)). rewrite lookup_delete_ne by done. rewrite Heq, lookup_insert_eq.
        rewrite Heq in Hcy. assert (scy = sc) as -> by congruence. done.
      * exists scy. rewrite lookup_delete_ne by done. by rewrite lookup_insert_ne by done.
Qed.

Lemma slabfree_run s sh P : se_inv (ss_x s) P → (∀ p, pages_of sh 8192 p → P p) → (4096 | sh) →
  (∃ x, ___slabfree sh s = Ret (tt, set_hdrs (delete sh (ss_hdrs s)) (set_ssx x s)) ∧
    se_inv x (λ p, P p ∧ ¬ pages_of sh 8192 p) ∧
     ∀ m, can (ss_x s) (S m) 0 → can x m 0) ∨
  (¬ can (ss_x s) 1 0 ∧ oom (___slabfree sh s)).
Proof.
  intros Hi Hp Ha. unfold ___slabfree. rewrite slab_size_eq.
  destruct (unmap_ok (ss_x s) P sh Hi Hp) as (r & x1 & Hr1 & Hi1 & Hc1).
  mrun (slab_env_run _ s _ _ Hr1). destruct (commit_ok x1 P Hi1) as (x2 & Hr2 & Hi2 & Hc2).
  mrun (slab_env_run _ (set_ssx x1 s) _ _ Hr2).
  destruct (kva_free_ok x2 P sh 8192 Hi2 Ha) as [(x3 & Hr3 & Hi3 & Hc3)|[Hno Hf]]; [by exists 2|lia|done| |].
  - mrun (slab_env_run _ (set_ssx x2 (set_ssx x1 s)) _ _ Hr3). left. exists x3. split; [done|]. split; [done|]. auto.
  - right. split; [intros Hc; by apply Hno, Hc2, Hc1|]. apply oom_bind, oom_env. by right.
Qed.

Lemma empty_unused L s c sc sh h p : slabs_ok L s → ss_slabs s !! c = Some sc → ss_hdrs s !! sh = Some h →
    sh ∈ sc_emptyq sc → is_obj (sc_objsize sc) sh p → ¬ used s p.
Proof.
  intros Hs Hc Hh Hin Hop. assert (sh ∈ all_q sc) as Hinq by (unfold all_q; rewrite !elem_of_app; tauto).
  rewrite (used_in_slab _ _ _ _ _ _ _ Hs Hc Hh Hinq Hop). intros Hn.
  pose proof (sk_cache _ _ Hs c sc Hc) as Hca. pose proof (ca_size _ _ _ _ Hca) as [Hz _].
  destruct (ca_empty _ _ _ _ Hca sh Hin) as (h' & Hh' & Ho & Hcnt). replace h' with h in * by congruence.
  destruct (freed_ok _ _ _ _ _ Hz Ho Hop Hn). lia.
Qed.

Lemma shrink_counts H c lk sc sh : cache_ok H c lk sc → sh ∈ sc_emptyq sc →
    with_lock lk (with_lock false (add_counts (-1) 0 0 (unlinked sh sc))) = recount (unlinked sh sc).
Proof.
  intros Hca Hin. unfold recount, add_counts, with_counts, with_lock, unlinked, with_queues. cbn.
  rewrite (ca_lock _ _ _ _ Hca), (ca_emptycnt _ _ _ _ Hca), (ca_freecnt _ _ _ _ Hca), (ca_fullcnt _ _ _ _ Hca).
  pose proof (ca_nodup _ _ _ _ Hca) as Hnd.
  unfold all_q in Hnd. apply NoDup_app in Hnd as (Ne & Nx & _). specialize (Nx sh Hin). rewrite elem_of_app in Nx.
  by rewrite (cnt_remove sh), !(cnt_keep sh) by tauto.
Qed.

Lemma pages_own s sh h : ss_hdrs s !! sh = Some h → ∀ p, pages_of sh 8192 p → own_pages (ss_hdrs s) p.
Proof. intros Hh p Hp. exists sh. eauto. Qed.

Lemma shrink_loop_run n : ∀ s c sc k, slabs_ok (Some c) s → ss_slabs s !! c = Some sc → length (sc_emptyq sc) = n →
  (∃ s' sc', shrink_loop (S n) c k s = Ret (k + n, s') ∧ slabs_ok (Some c) s' ∧ ss_slabs s' !! c = Some sc' ∧
    sc_emptyq sc' = [] ∧
    (∀ p, used s' p ↔ used s p) ∧ ∀ sh, is_Some (ss_hdrs s' !! sh) ↔ is_Some (ss_hdrs s !! sh) ∧ sh ∉ sc_emptyq sc) ∨
  (¬ can (ss_x s) n 0 ∧ oom (shrink_loop (S n) c k s)).
Proof.
  induction n as [|n IH]; intros s c sc k Hs Hc Hn; [|remember (S n) as m eqn:Em]; cbn [shrink_loop];
    mrun (get_slab_run s c sc Hc); destruct (sc_emptyq sc) as [|sh l] eqn:He; cbn in Hn; try lia.
  { left. exists s, sc. split_and!; try done; [by mrun; rewrite Z.add_0_r|]. intros sh.
    split; [intros; split; [done|apply not_elem_of_nil]|by intros [? _]]. }
  assert (sh ∈ sc_emptyq sc) as Hin by (rewrite He; by left).
  assert (sh ∈ all_q sc) as Hinq by (unfold all_q; rewrite !elem_of_app; tauto).
  pose proof (sk_cache _ _ Hs c sc Hc) as Hca. rewrite bool_decide_true in Hca by done.
  destruct (ca_empty _ _ _ _ Hca sh Hin) as (h & Hh & Ho & _).
  mrun (put_slab_run s c sc (λ sc, add_counts (-1) 0 0 (unlinked sh sc)) Hc). set (s1 := set_slabs _ s).
  assert (ss_slabs s1 !! c = Some (add_counts (-1) 0 0 (unlinked sh sc))) as Hc1 by apply lookup_insert_eq.
  mrun (spin_unlock_run _ _ _ Hc1). set (s2 := relock _ _ _ s1).
  destruct (slabfree_run s2 sh (own_pages (ss_hdrs s)) (sk_env _ _ Hs) (pages_own s sh h Hh))
    as [(x & Hx & Hix & Hcx)|[Hno Hx]]; [etrans; [|apply (hd_align _ _ _ _ Ho)]; by exists 2| |right; split;
    [intros Hcan; apply Hno; eapply can_le; [exact Hcan|lia..]|by apply oom_bind]]. mrun Hx.
  set (s3 := set_hdrs _ _). assert (ss_slabs s3 !! c = Some (with_lock false (add_counts (-1) 0 0 (unlinked sh sc))))
    as Hc3 by apply lookup_insert_eq. mrun (spin_lock_run s3 c _ Hc3 eq_refl).
  destruct (drop_one_ok (Some c) s c sc sh h x Hs Hc Hh Hinq Hix) as [Hs4 Hu4].
  assert (relock true c (with_lock false (add_counts (-1) 0 0 (unlinked sh sc))) s3 = drop_one c sh sc x s) as ->.
  { unfold relock, drop_one. rewrite (shrink_counts _ _ _ _ _ Hca Hin). cbn. by rewrite !insert_insert_eq. }
  pose proof (ca_nodup _ _ _ _ Hca) as Hnd. unfold all_q in Hnd. apply NoDup_app in Hnd as (Ne & _).
  rewrite He in Ne. apply NoDup_cons in Ne as [Hl _].
  assert (sc_emptyq (recount (unlinked sh sc)) = l) as Hl'.
  { cbn. rewrite He. unfold list_remove. rewrite filter_cons_False by naive_solver. by apply list_remove_out. }
  destruct (IH (drop_one c sh sc x s) c (recount (unlinked sh sc)) (k + 1) Hs4 (lookup_insert_eq _ _ _))
    as [(s' & sc' & Hr & Hs' & Hc' & He' & Hu' & Hh')|[Hno Hr]]; [rewrite Hl'; lia| |right; subst m; split;
    [intros Hcan; by apply Hno, Hcx|done]].
  left. exists s', sc'. subst m. split; [rewrite Hr; do 2 f_equal; lia|]. do 3 (split; [done|]). split.
  - intros p. rewrite Hu', Hu4. split; [tauto|]. intros Hp. split; [done|]. intros Hop.
    by destruct (empty_unused _ _ _ _ _ _ _ Hs Hc Hh Hin Hop).
  - intros y. rewrite Hh', Hl'. cbn. destruct (decide (y = sh)) as [->|Hne].
    + rewrite lookup_delete_eq. split; [intros [[? ?] _]; done|]. intros [_ Hno]. destruct Hno. by left.
    + rewrite lookup_delete_ne by done. rewrite elem_of_cons. naive_solver.
Qed.

Lemma slab_shrink_run s c sc : slabs_ok None s → ss_slabs s !! c = Some sc →
  (∃ s' sc', slab_shrink c s = Ret (Z.of_nat (length (sc_emptyq sc)), s') ∧ slabs_ok None s' ∧
    ss_slabs s' !! c = Some sc' ∧ sc_emptyq sc' = [] ∧
    (∀ p, used s' p ↔ used s p) ∧ ∀ sh, is_Some (ss_hdrs s' !! sh) ↔ is_Some (ss_hdrs s !! sh) ∧ sh ∉ sc_emptyq sc) ∨
  (¬ can (ss_x s) (length (sc_emptyq sc)) 0 ∧ oom (slab_shrink c s)).
Proof.
  intros Hs Hc. unfold slab_shrink. pose proof (ca_lock _ _ _ _ (sk_cache _ _ Hs c sc Hc)) as Hlk.
  rewrite bool_decide_false in Hlk by done.
  mrun (spin_lock_run s c sc Hc Hlk). set (s1 := relock true c sc s).
  assert (ss_slabs s1 !! c = Some (with_lock true sc)) as Hc1 by apply lookup_insert_eq.
  mrun (get_slab_run _ _ _ Hc1).
  destruct (shrink_loop_run _ s1 c (with_lock true sc) 0 (lock_ok _ _ _ Hs Hc) Hc1 eq_refl)
    as [(s2 & sc2 & Hr & Hs2 & Hc2 & He2 & Hu2 & Hh2)|[Hno Hr]]; [|right; split; [done|by apply oom_bind]].
  left. mrun Hr. mrun (spin_unlock_run _ _ _ Hc2). exists (relock false c sc2 s2), (with_lock false sc2).
  split; [done|]. split; [by apply unlock_ok|]. split; [apply lookup_insert_eq|]. split; [done|]. split; [|done].
  intros p. rewrite used_relock by done. rewrite Hu2. by apply used_relock.
Qed.

(** ** Slabs without objects given out *)

(** A slab of the cache [c], none of whose objects has been given out. *)
Definition unused_slab s (c sh : Z) : Prop :=
  ∃ h sc, ss_hdrs s !! sh = Some h ∧ sh_cache h = c ∧ ss_slabs s !! c = Some sc ∧ ∀ p, is_obj (sc_objsize sc) sh p →
    ¬ used s p.

Lemma all_free c z sh h : 8 ≤ z → hdr_ok c z sh h → (∀ p, is_obj z sh p → p ∈ sh_freeq h) → sh_freecnt h = objs z.
Proof.
  intros Hz [_ _ Hn Hd Ho _ _] Hall. pose proof (objs_bound z Hz) as [Hb _]. rewrite Hn.
  assert (length (obj_list z sh) = Z.to_nat (objs z)) as Hl by (unfold obj_list; rewrite link_objs_length; cbn; lia).
  assert (NoDup (obj_list z sh)) as Hnd by (apply link_objs_nodup; [lia|apply NoDup_nil_2|by intros ? ?%not_elem_of_nil]).
  assert (length (obj_list z sh) ≤ length (sh_freeq h))%nat by (apply submseteq_length, NoDup_submseteq; [done|];
    intros p Hp%obj_list_in; by apply Hall).
  assert (length (sh_freeq h) ≤ length (obj_list z sh))%nat by (apply submseteq_length, NoDup_submseteq; [done|];
    intros p Hp; by apply obj_list_in, Ho). lia.
Qed.

(** They are the slabs on the queue [emptyq]. *)
Lemma emptyq_unused L s c sc sh : slabs_ok L s → ss_slabs s !! c = Some sc → sh ∈ sc_emptyq sc ↔ unused_slab s c sh.
Proof.
  intros Hs Hc. pose proof (sk_cache _ _ Hs c sc Hc) as Hca. pose proof (ca_size _ _ _ _ Hca) as [Hz Hob]. split.
  - intros Hin. destruct (ca_empty _ _ _ _ Hca sh Hin) as (h & Hh & Ho & _). exists h, sc.
    split_and!; [done|by apply (hd_cache _ _ _ _ Ho)|done|].
    intros p Hp. by apply (empty_unused L s c sc sh h p).
  - intros (h & sc' & Hh & Hcc & Hc' & Hun). assert (sc' = sc) as -> by congruence.
    destruct (slab_facts _ _ _ _ Hs Hh) as (sc1 & Hc1 & Hin & Ho & _). rewrite Hcc in *.
    assert (sc1 = sc) as -> by congruence.
    assert (sh_freecnt h = objs (sc_objsize sc)) as Hn.
    { apply (all_free c _ sh h Hz Ho). intros p Hp. destruct (decide (p ∈ sh_freeq h)) as [|Hnp]; [done|].
      destruct (Hun p Hp). by apply (used_in_slab L s c sc sh h p). }
    unfold all_q in Hin. rewrite !elem_of_app in Hin. destruct Hin as [|[Hin|Hin]]; [done|..].
    + destruct (ca_free _ _ _ _ Hca sh Hin) as (h' & Hh' & _ & Hn'). assert (h' = h) as -> by congruence. lia.
    + destruct (ca_full _ _ _ _ Hca sh Hin) as (h' & Hh' & _ & Hn'). assert (h' = h) as -> by congruence. lia.
Qed.

End ops.
