(* ===== verification/SlabTheorems.v ===== *)
(** Registering caches, and what the slab allocator promises. *)

From S2P Require Import Prelude Words Locks Machine Hal Slab SlabInv SlabOps.

Section caches.
Context {X : Type} `{!SlabEnv X, !SlabEnvLaws X}.
Implicit Types s : slst X.

(** ** A new cache *)

Definition objsize_of (objsize : Z) (cachealign : bool) : Z := Z.max (if cachealign then Z.land (u64 (objsize + 63))
    (2 ^ 64 - 64) else objsize) SIZEOF_OBJHDR.

Lemma objsize_of_spec z al : 0 ≤ z ≤ 4032 → z ≤ objsize_of z al ∧ 8 ≤ objsize_of z al ≤ 4032 ∧
    (al = true → (64 | objsize_of z al) ∨ objsize_of z al = 8) ∧ 2 ≤ objs (objsize_of z al).
Proof.
  intros Hz. assert (z ≤ objsize_of z al ∧ 8 ≤ objsize_of z al ≤ 4032 ∧
    (al = true → (64 | objsize_of z al) ∨ objsize_of z al = 8)) as (H1 & H2 & H3).
  { unfold objsize_of, SIZEOF_OBJHDR. destruct al; [|split_and!; [lia..|done]].
    rewrite u64_small by (unfold word64; lia). change (2 ^ 64 - 64) with (2 ^ 64 - 2 ^ 6).
    rewrite land_high by (unfold word64; lia). change (2 ^ 6) with 64.
    assert (z ≤ 64 * ((z + 63) `div` 64) ≤ 4032) by (Z.div_mod_to_equations; lia).
    split_and!; [lia..|]. intros _.
    destruct (decide (8 ≤ 64 * ((z + 63) `div` 64))); [left; exists ((z + 63) `div` 64); lia|right; lia]. }
  split_and!; try done; try lia. unfold objs, ___slabobjs, ___slabsize. rewrite slab_size_eq. unfold SIZEOF_SLABHDR.
  apply Z.div_le_lower_bound; lia.
Qed.

Lemma cache_new H c z ctr name : 8 ≤ z → 2 ≤ objs z → cache_ok H c false (Slab false name z ctr 0 0 0 [] [] []).
Proof. intros Hz Ho. split; try done; [apply NoDup_nil_2|intros ? ?%not_elem_of_nil..]; done. Qed.

Definition inited s : slst X :=
  if __slabinc_initialized s =? 0 then Slst (ss_slabs s) (ss_hdrs s) (ss_words s) (__slabinc_initialized s + 1)
    ___slabsize (__slabinc_slabs s) [] false (ss_x s) else s.

Lemma slabinc_init_run s : slabinc_init s = Ret (tt, inited s).
Proof. unfold slabinc_init, inited. mrun. by destruct (__slabinc_initialized s =? 0). Qed.

Lemma slabinc_locked_run f s : __slabinc_lock s = false →
    slabinc_locked (modify f) s = Ret (tt, set_slabinc_lock false (f (set_slabinc_lock true s))).
Proof. intros Hl. unfold slabinc_locked, spinlock, spinunlock, mbind, M_bind. by rewrite Hl. Qed.

Lemma slab_register_run s c name z ctr al : slabs_ok None s → ss_slabs s !! c = None → 0 ≤ z ≤ 4032 →
    __slabinc_lock s = false →
  ∃ s', slab_register c name z ctr al s = Ret (tt, s') ∧ slabs_ok None s' ∧
    ss_slabs s' = <[c := Slab false name (objsize_of z al) ctr 0 0 0 [] [] []]> (ss_slabs s) ∧
    (∀ p, used s' p ↔ used s p) ∧ ss_hdrs s' = ss_hdrs s ∧ ss_x s' = ss_x s ∧ __slabinc_lock s' = false ∧
    (__slabinc_initialized s ≠ 0 → __slabinc_slabq s' = c :: __slabinc_slabq s ∧
      __slabinc_slabs s' = u32 (__slabinc_slabs s + 1)).
Proof.
  intros Hs Hc Hz Hl. destruct (objsize_of_spec z al Hz) as (_ & [H8 _] & _ & Hob). unfold slab_register.
  mrun (slabinc_init_run s).
  set (sc := Slab false name (objsize_of z al) ctr 0 0 0 [] [] []).
  assert (∀ s', ss_slabs s' = <[c := sc]> (ss_slabs s) → ss_hdrs s' = ss_hdrs s → ss_x s' = ss_x s →
    slabs_ok None s' ∧ ∀ p, used s' p ↔ used s p) as Hnew.
  { intros s' E1 E2 E3. split.
    - split; [| |rewrite E2, E3; apply (sk_env _ _ Hs)].
      + intros c' sc'. rewrite E1, E2.
        intros [[<- <-]|[Hne Hc']]%lookup_insert_Some; [by apply cache_new|by apply (sk_cache _ _ Hs)].
      + intros sh h. rewrite E1, E2. intros Hh. destruct (sk_hdr _ _ Hs sh h Hh) as (sch & Hsch & Hin). exists sch.
        rewrite lookup_insert_ne; [done|]. congruence.
    - intros p. unfold used. rewrite E1, E2.
      split; intros (sh & h & sch & Hh & Hch & Ho & Hn); exists sh, h, sch; (split; [done|]).
      + rewrite lookup_insert_ne in Hch; [done|]. destruct (sk_hdr _ _ Hs sh h Hh) as (? & ? & _). congruence.
      + rewrite lookup_insert_ne; [done|]. congruence. }
  assert (__slabinc_lock (inited s) = false ∧ ss_slabs (inited s) = ss_slabs s ∧ ss_hdrs (inited s) = ss_hdrs s ∧
    ss_x (inited s) = ss_x s) as (Il & Is & Ih & Ix) by (unfold inited; by destruct (_ =? 0)).
  fold (objsize_of z al). fold sc. set (s1 := set_slabs (<[c := sc]> (ss_slabs (inited s))) (inited s)).
  set (f := λ s, set_slabinc (u32 (__slabinc_slabs s + 1)) (c :: __slabinc_slabq s) s).
  exists (set_slabinc_lock false (f (set_slabinc_lock true s1))).
  split; [by apply slabinc_locked_run|].
  destruct (Hnew (set_slabinc_lock false (f (set_slabinc_lock true s1)))) as [? ?]; [cbn; by rewrite Is|done..|].
  split_and!; try done; [cbn; by rewrite Is|]. intros Hi. cbn. unfold inited. by rewrite (proj2 (Z.eqb_neq _ 0) Hi).
Qed.

(** ** The end of a cache *)

(** [slab_deregister] does not keep the cache's counters: the invariant holds but for
    them. *)
Definition recounted (c : Z) (sc : slab) s : slst X := set_slabs (<[c := recount sc]> (ss_slabs s)) s.

Definition shorter (sc' sc : slab) : Prop :=
  (length (sc_emptyq sc') ≤ length (sc_emptyq sc) ∧ length (sc_freeq sc') ≤ length (sc_freeq sc) ∧
    length (sc_fullq sc') ≤ length (sc_fullq sc))%nat.

(** What the loops leave of the state: the other caches and their slabs. *)
Record drained (c : Z) s s' : Prop := {
  dr_other c' : c' ≠ c → ss_slabs s' !! c' = ss_slabs s !! c';
  dr_hdrs sh h : ss_hdrs s' !! sh = Some h → ss_hdrs s !! sh = Some h;
  dr_keep sh h : ss_hdrs s !! sh = Some h → sh_cache h ≠ c → ss_hdrs s' !! sh = Some h;
  dr_slabq : __slabinc_slabq s' = __slabinc_slabq s;
  dr_lock : __slabinc_lock s' = __slabinc_lock s;
}.

Lemma drained_refl c s : drained c s s.
Proof. by split. Qed.

Lemma drained_trans c s1 s2 s3 : drained c s1 s2 → drained c s2 s3 → drained c s1 s3.
Proof. intros [A1 A2 A3 A4 A5] [B1 B2 B3 B4 B5]. split; [intros; by rewrite B1, A1|eauto|eauto|congruence..]. Qed.

Lemma list_remove_shorter x l : (length (list_remove x l) ≤ length l)%nat.
Proof. apply length_filter. Qed.

Lemma drain_run queue n : (∀ x sc, queue (unlinked x sc) = list_remove x (queue sc)) →
    (∀ x sc, x ∈ queue sc → x ∈ all_q sc) → (∀ sc, queue (recount sc) = queue sc) →
  ∀ s c sc, slabs_ok None (recounted c sc s) → ss_slabs s !! c = Some sc → (length (queue sc) < n)%nat →
  (∃ s' sc', drain n c queue s = Ret (tt, s') ∧ slabs_ok None (recounted c sc' s') ∧ ss_slabs s' !! c = Some sc' ∧
    queue sc' = [] ∧ shorter sc' sc ∧ drained c s s' ∧
     ∀ m, can (ss_x s) (length (queue sc) + m) 0 → can (ss_x s') m 0) ∨
  (¬ can (ss_x s) (length (queue sc)) 0 ∧ oom (drain n c queue s)).
Proof.
  intros Hqu Hqa Hqr. induction n as [|n IH]; intros s c sc Hs Hc Hn; [lia|]. cbn [drain].
  mrun (get_slab_run s c sc Hc). destruct (queue sc) as [|sh l] eqn:Hq.
  { left. exists s, sc. split_and!; try done. }
  assert (sh ∈ queue sc) as Hin by (rewrite Hq; by left). assert (sh ∈ all_q (recount sc)) as Hinq by (by apply (Hqa sh sc)).
  assert (ss_slabs (recounted c sc s) !! c = Some (recount sc)) as Hrc by apply lookup_insert_eq.
  pose proof (sk_cache _ _ Hs c _ Hrc) as Hca. destruct (cache_hdr _ _ _ _ _ Hca Hinq) as (h & Hh & Ho & _).
  change (ss_hdrs s !! sh = Some h) in Hh.
  mrun (put_slab_run s c sc (unlinked sh) Hc). set (s1 := set_slabs _ s).
  destruct (slabfree_run s1 sh (own_pages (ss_hdrs s)) (sk_env _ _ Hs) (pages_own s sh h Hh))
    as [(x & Hx & Hix & Hcx)|[Hno Hx]]; [etrans; [|apply (hd_align _ _ _ _ Ho)]; by exists 2| |right; split;
    [intros Hcan; apply Hno; eapply can_le; [exact Hcan|cbn; lia|lia]|by apply oom_bind]]. mrun Hx.
  set (s2 := set_hdrs _ _). destruct (drop_one_ok None (recounted c sc s) c _ sh h x Hs Hrc Hh Hinq Hix) as [Hs2 _].
  assert (drop_one c sh (recount sc) x (recounted c sc s) = recounted c (unlinked sh sc) s2) as He.
  { unfold drop_one, recounted. cbn. by rewrite !insert_insert_eq. }
  assert (length (queue (unlinked sh sc)) ≤ length l)%nat as Hlen.
  { rewrite Hqu. unfold list_remove. rewrite Hq, filter_cons_False by naive_solver. apply (length_filter (λ y, y ≠ sh) l). }
  rewrite He in Hs2. destruct (IH s2 c (unlinked sh sc) Hs2 (lookup_insert_eq _ _ _))
    as [(s' & sc' & Hr & Hs' & Hc' & Hq' & Hsh' & Hd' & Hcn)|[Hno Hr]]; [cbn in Hn; lia|left|right; split; [|done];
    intros Hcan; apply Hno; apply (can_le _ (length l) 0); [apply Hcx; exact Hcan|lia|done]].
  exists s', sc'. split_and!; try done.
  - destruct Hsh' as (? & ? & ?). cbn in *. pose proof (list_remove_shorter sh (sc_emptyq sc)).
    pose proof (list_remove_shorter sh (sc_freeq sc)).
    pose proof (list_remove_shorter sh (sc_fullq sc)). unfold shorter. lia.
  - eapply drained_trans; [|exact Hd']. split; try done; cbn.
    + intros c' Hne. by rewrite lookup_insert_ne.
    + intros y hy [_ Hy]%lookup_delete_Some. done.
    + intros y hy Hy Hnc. rewrite lookup_delete_ne; [done|]. intros <-. pose proof (hd_cache _ _ _ _ Ho). congruence.
  - intros m Hcan. apply Hcn. apply (can_le _ (length l + m)%nat 0); [apply Hcx; exact Hcan|lia|done].
Qed.

(** All its slabs are given back, and nothing of it is left. *)
Lemma slab_deregister_run s c sc : slabs_ok None s → ss_slabs s !! c = Some sc → __slabinc_lock s = false →
  (∃ s', slab_deregister c s = Ret (tt, s') ∧ slabs_ok None (set_slabs (delete c (ss_slabs s')) s') ∧
    (∀ c', c' ≠ c → ss_slabs s' !! c' = ss_slabs s !! c') ∧
    (∀ sh h, ss_hdrs s' !! sh = Some h ↔ ss_hdrs s !! sh = Some h ∧ sh_cache h ≠ c) ∧
      __slabinc_slabq s' = list_remove c (__slabinc_slabq s) ∧ __slabinc_lock s' = false) ∨
  (¬ can (ss_x s) (length (all_q sc)) 0 ∧ oom (slab_deregister c s)).
Proof.
  intros Hs Hc Hl. unfold slab_deregister. mrun (get_slab_run s c sc Hc).
  assert (slabs_ok None (recounted c sc s)) as Hs0.
  { pose proof (sk_cache _ _ Hs c sc Hc) as Hca.
    assert (recount sc = sc) as Hr by (unfold recount, with_counts;
      rewrite <- (ca_emptycnt _ _ _ _ Hca), <- (ca_freecnt _ _ _ _ Hca), <- (ca_fullcnt _ _ _ _ Hca); by destruct sc).
    unfold recounted. by rewrite Hr, set_slabs_id. }
  assert (length (all_q sc) = length (sc_emptyq sc) + length (sc_freeq sc) + length (sc_fullq sc))%nat as Hlen
    by (unfold all_q; rewrite !length_app; lia).
  assert (∀ x sc, x ∈ sc_emptyq sc ∨ x ∈ sc_freeq sc ∨ x ∈ sc_fullq sc → x ∈ all_q sc) as Hall by (intros x sc0;
    unfold all_q; rewrite !elem_of_app; tauto).
  destruct (drain_run sc_emptyq (S (length (sc_emptyq sc))) ltac:(done) ltac:(by auto) ltac:(done) s c sc Hs0 Hc
    ltac:(lia)) as [(s1 & sc1 & Hr1 & Hs1 & Hc1 & Hq1 & (L1 & L2 & L3) & D1 & Hn1)|[Hno Hr1]]; [|right; split;
    [|by apply oom_bind]; intros Hcan; apply Hno; eapply can_le; [exact Hcan|lia..]].
  mrun Hr1.
  destruct (drain_run sc_freeq (S (length (sc_freeq sc))) ltac:(done) ltac:(by auto) ltac:(done) s1 c sc1 Hs1 Hc1
    ltac:(lia)) as [(s2 & sc2 & Hr2 & Hs2 & Hc2 & Hq2 & (L1' & L2' & L3') & D2 & Hn2)|[Hno Hr2]];
    [|right; split; [|by apply oom_bind]; intros Hcan; apply Hno; eapply can_le;
      [apply (Hn1 (length (sc_freeq sc))); eapply can_le; [exact Hcan|lia..]|lia..]].
  mrun Hr2.
  destruct (drain_run sc_fullq (S (length (sc_fullq sc))) ltac:(done) ltac:(by auto) ltac:(done) s2 c sc2 Hs2 Hc2
    ltac:(lia)) as [(s3 & sc3 & Hr3 & Hs3 & Hc3 & Hq3 & (L1'' & L2'' & L3'') & D3 & _)|[Hno Hr3]].
  2: { right. split; [|by apply oom_bind]. intros Hcan. apply Hno. apply Hn2.
       eapply can_le; [apply (Hn1 (length (sc_freeq sc) + length (sc_fullq sc))%nat); eapply can_le;
         [exact Hcan|lia..]|lia..]. }
  mrun Hr3. left.
  rewrite Hq2 in L2''. rewrite Hq1 in L1'. cbn in *.
  assert (all_q sc3 = []) as Hnil by (unfold all_q; destruct (sc_emptyq sc3), (sc_freeq sc3), (sc_fullq sc3);
    cbn in *; try done; lia).
  pose proof (drained_trans _ _ _ _ (drained_trans _ _ _ _ D1 D2) D3) as [E1 E2 E3 E4 E5].
  set (f := λ s, set_slabinc (u32 (__slabinc_slabs s - 1)) (list_remove c (__slabinc_slabq s)) s).
  exists (set_slabinc_lock false (f (set_slabinc_lock true s3))).
  assert (∀ sh h, ss_hdrs s3 !! sh = Some h → sh_cache h ≠ c) as Hnone.
  { intros sh h Hh Heq. destruct (sk_hdr _ _ Hs3 sh h Hh) as (scx & Hx & Hin). cbn in Hx.
    rewrite Heq, lookup_insert_eq in Hx. injection Hx as <-. change (all_q (recount sc3)) with (all_q sc3) in Hin.
    rewrite Hnil in Hin. by apply not_elem_of_nil in Hin. }
  split; [apply slabinc_locked_run; congruence|]. split; [|split; [done|]]; [|split; [|split; [cbn; by rewrite E4|done]]].
  - split; [| |apply (sk_env _ _ Hs3)].
    + intros c' sc'. cbn. intros [Hne Hc']%lookup_delete_Some. apply (sk_cache _ _ Hs3 c' sc'). cbn.
      by rewrite lookup_insert_ne.
    + intros sh h Hh. destruct (sk_hdr _ _ Hs3 sh h Hh) as (scx & Hx & Hin). pose proof (Hnone sh h Hh). exists scx.
      cbn in *. rewrite lookup_insert_ne in Hx by done. by rewrite lookup_delete_ne.
  - intros sh h. cbn. split; [eauto|]. intros [? ?]. by apply E3.
Qed.

(** ** Histories *)

(** The cache of the object [p]. *)
Definition cache_of s (p : Z) : option Z := sh_cache <$> ss_hdrs s !! Z.land p (2 ^ 64 - ___slabsize).

(** The states that calls lead to, with the objects that are given out. Objects have at
    most 4032 bytes, and are freed once; a cache that has no free object is asked for
    one only while there are addresses for a slab; the memory of a cache that has been
    deregistered, which is the caller's, is not used again. *)
Inductive slab_reach : slst X → list Z → Prop :=
  | sl_init s : ss_slabs s = ∅ → ss_hdrs s = ∅ → se_inv (ss_x s) (λ _, False) → slab_reach s []
  | sl_register s l c name z ctr al s' : slab_reach s l → ss_slabs s !! c = None → 0 ≤ z ≤ 4032 → __slabinc_lock s = false →
      slab_register c name z ctr al s = Ret (tt, s') → slab_reach s' l
  | sl_alloc s l c sc opq p s' : slab_reach s l → ss_slabs s !! c = Some sc → has_room s sc →
    slab_alloc_opq c opq s = Ret (p, s') → slab_reach s' (p :: l)
  | sl_free s l p s' : slab_reach s l → p ∈ l → slab_free p s = Ret (tt, s') → slab_reach s' (list_remove p l)
  | sl_shrink s l c sc n s' : slab_reach s l → ss_slabs s !! c = Some sc → slab_shrink c s = Ret (n, s') → slab_reach s' l
  | sl_deregister s l c sc s' : slab_reach s l → ss_slabs s !! c = Some sc → __slabinc_lock s = false →
    slab_deregister c s = Ret (tt, s') →
      slab_reach (set_slabs (delete c (ss_slabs s')) s') (filter (λ p, cache_of s p ≠ Some c) l).

Lemma used_cache_of s sh h sc p : slabs_ok None s → ss_hdrs s !! sh = Some h → ss_slabs s !! sh_cache h = Some sc →
    is_obj (sc_objsize sc) sh p → cache_of s p = Some (sh_cache h).
Proof.
  intros Hs Hh Hc Ho. destruct (slab_facts _ _ _ _ Hs Hh) as (sc' & Hc' & _ & Hok & Hz & _).
  assert (sc' = sc) as -> by congruence.
  unfold cache_of. rewrite (obj_slab _ _ _ Hz Ho (hd_align _ _ _ _ Hok) (hd_range _ _ _ _ Hok)). by rewrite Hh.
Qed.

(** The objects given out after the end of a cache. *)
Lemma used_deregistered s s' c : slabs_ok None s → (∀ c', c' ≠ c → ss_slabs s' !! c' = ss_slabs s !! c') →
  (∀ sh h, ss_hdrs s' !! sh = Some h ↔ ss_hdrs s !! sh = Some h ∧ sh_cache h ≠ c) →
  ∀ p, used (set_slabs (delete c (ss_slabs s')) s') p ↔ cache_of s p ≠ Some c ∧ used s p.
Proof.
  intros Hs Hsl Hh p. unfold used at 1. cbn. split.
  - intros (sh & h & sc & Hsh & Hc & Ho & Hn). apply Hh in Hsh as [Hsh Hne]. rewrite lookup_delete_ne in Hc by done.
    rewrite Hsl in Hc by done.
    rewrite (used_cache_of s sh h sc p Hs Hsh Hc Ho). split; [congruence|]. by exists sh, h, sc.
  - intros [Hcp (sh & h & sc & Hsh & Hc & Ho & Hn)]. rewrite (used_cache_of s sh h sc p Hs Hsh Hc Ho) in Hcp.
    assert (sh_cache h ≠ c) as Hne by congruence.
    exists sh, h, sc. rewrite lookup_delete_ne by done. rewrite Hsl by done. by rewrite Hh.
Qed.

Lemma slab_reach_ok s l : slab_reach s l → slabs_ok None s ∧ NoDup l ∧ ∀ p, p ∈ l ↔ used s p.
Proof.
  induction 1 as [s E1 E2 Hx|s l c name z ctr al s' _ (Hs & Hn & Hu) Hc Hz Hl Hr|s l c sc opq p s' _ (Hs & Hn & Hu)
    Hc Hroom Hr|s l p s' _ (Hs & Hn & Hu) Hp Hr|s l c sc n s' _ (Hs & Hn & Hu) Hc Hr|s l c sc s' _ (Hs & Hn & Hu) Hc
    Hl Hr].
  - split; [|split; [apply NoDup_nil_2|]].
    + split; [by rewrite E1|by rewrite E2|]. eapply se_ext; [|exact Hx]. intros p. rewrite E2. split; [done|].
      by intros (sh & [? ?] & _).
    + intros p. split; [by intros ?%not_elem_of_nil|]. intros (sh & h & sc & Hh & _). by rewrite E2 in Hh.
  - destruct (slab_register_run s c name z ctr al Hs Hc Hz Hl) as (s1 & Hr1 & Hs1 & _ & Hu1 & _). rewrite Hr in Hr1.
    injection Hr1 as <-. split_and!; try done. intros p. by rewrite Hu, Hu1.
  - destruct (slab_alloc_run s c sc opq Hs Hc Hroom)
      as [(p1 & s1 & Hr1 & Hs1 & Hf1 & Hu1 & _)|(_ & _ & _ & [Hr1|Hr1])]; rewrite Hr in Hr1; [|done..].
    injection Hr1 as <- <-.
    split; [done|]. split; [apply NoDup_cons; split; [by rewrite Hu|done]|]. intros q. rewrite elem_of_cons, Hu, Hu1. tauto.
  - destruct (slab_free_run s p Hs (proj1 (Hu p) Hp)) as (s1 & Hr1 & Hs1 & Hu1). rewrite Hr in Hr1. injection Hr1 as <-.
    split; [done|]. split; [by apply NoDup_filter|]. intros q. by rewrite list_remove_in, Hu, Hu1.
  - destruct (slab_shrink_run s c sc Hs Hc) as [(s1 & sc1 & Hr1 & Hs1 & _ & _ & Hu1 & _)|[_ [Hr1|Hr1]]];
      rewrite Hr in Hr1; [|done..]. injection Hr1 as _ <-. split_and!; try done. intros p. by rewrite Hu, Hu1.
  - destruct (slab_deregister_run s c sc Hs Hc Hl) as [(s1 & Hr1 & Hs1 & Hsl & Hh & _)|[_ [Hr1|Hr1]]];
      rewrite Hr in Hr1; [|done..]. injection Hr1 as <-.
    split; [done|]. split; [by apply NoDup_filter|]. intros p. rewrite list_elem_of_filter, Hu.
    by rewrite (used_deregistered s s' c Hs Hsl Hh).
Qed.

(** ** What the callers can rely on *)

(** C10. [slab_alloc] of a cache that has a free object, or for which there are the
    addresses, the heap and the frames for a slab, returns an object of the cache's
    size that was not given out, after clearing its first word and calling the cache's
    constructor on it, if it has one; no word of memory is changed but that one and
    those the constructor writes. The object does not overlap any object given out, by
    this cache or another, which all stay, and the slabs stay on the queue that their
    number of free objects calls for. Caches hold two objects a slab or more, which is
    objects of at most 4032 bytes. *)
Theorem slab_alloc_correct s c sc opq (Hs : slabs_ok None s) (Hc : ss_slabs s !! c = Some sc)
    (Hr : sc_freeq sc ≠ [] ∨ sc_emptyq sc ≠ [] ∨ kva_can (ss_x s) ∧ can (ss_x s) 1 1) :
  ∃ p s', slab_alloc_opq c opq s = Ret (p, s') ∧ slabs_ok None s' ∧ ¬ used s p ∧ (∀ q, used s' q ↔ used s q ∨ q = p) ∧
    obj_at s' p (sc_objsize sc) ∧ constructed (sc_ctr sc) p opq s s' ∧
    ∀ q z, used s q → obj_at s' q z → p + sc_objsize sc ≤ q ∨ q + z ≤ p.
Proof.
  destruct (slab_alloc_run s c sc opq Hs Hc) as [(p & s' & Hrun & Hs' & Hf & Hu & Ho & Hw)|(? & ? & ? & _)];
    [unfold has_room; tauto| |tauto].
  exists p, s'. split_and!; try done. intros q z Hq Hoq. apply (obj_at_apart None s'); try done. by intros ->.
Qed.

(** C3. Whatever the calls that create caches of objects of at most 4032 bytes, that
    allocate, free and shrink, and that end caches, the objects given out are those the
    history says, no object is given out twice, and no two overlap; any of them can be
    freed, and then is free, while the others stay; and [slab_shrink] gives back the
    slabs of the cache with no object given out, which it returns the number of, and no
    other, when the heap has the memory for kva.c to take their addresses back. *)
Theorem slab_history_correct s l (Hr : slab_reach s l) :
  NoDup l ∧ (∀ p, p ∈ l ↔ used s p) ∧ (∀ p q z z', p ∈ l → q ∈ l → p ≠ q → obj_at s p z → obj_at s q z' →
    p + z ≤ q ∨ q + z' ≤ p) ∧
  (∀ p, p ∈ l → ∃ s', slab_free p s = Ret (tt, s') ∧ ∀ q, used s' q ↔ used s q ∧ q ≠ p) ∧
  (∀ c, is_Some (ss_slabs s !! c) → ∃ U, NoDup U ∧ (∀ sh, sh ∈ U ↔ unused_slab s c sh) ∧
     (can (ss_x s) (length U) 0 → ∃ s', slab_shrink c s = Ret (Z.of_nat (length U), s') ∧
        (∀ sh, is_Some (ss_hdrs s' !! sh) ↔ is_Some (ss_hdrs s !! sh) ∧ ¬ unused_slab s c sh) ∧ ∀ p, used s' p ↔ used s p)).
Proof.
  destruct (slab_reach_ok s l Hr) as (Hs & Hn & Hu). split; [done|]. split; [done|]. split; [|split].
  - intros p q z z' _ _ Hne Hp Hq. by apply (obj_at_apart None s).
  - intros p Hp. destruct (slab_free_run s p Hs (proj1 (Hu p) Hp)) as (s' & ? & _ & ?). eauto.
  - intros c [sc Hc]. pose proof (λ sh, emptyq_unused None s c sc sh Hs Hc) as Hun. exists (sc_emptyq sc).
    split_and!; [|done|].
    + pose proof (ca_nodup _ _ _ _ (sk_cache _ _ Hs c sc Hc)) as Hnd. unfold all_q in Hnd.
      by apply NoDup_app in Hnd as (? & _).
    + intros Hcan. destruct (slab_shrink_run s c sc Hs Hc) as [(s' & _ & Hrun & _ & _ & _ & Hu' & Hh')|[? _]];
        [|done]. exists s'. split_and!; [done| |done].
      intros sh. by rewrite Hh', Hun.
Qed.

(** Freeing an object that is given out puts it back on the free list of its slab,
    found from the address alone, moves the slab to the queue that its number of free
    objects now calls for, and keeps all other objects. *)
Theorem slab_free_correct s p (Hs : slabs_ok None s) (Hp : used s p) :
  ∃ s', slab_free p s = Ret (tt, s') ∧ slabs_ok None s' ∧ ∀ q, used s' q ↔ used s q ∧ q ≠ p.
Proof. by apply slab_free_run. Qed.

(** C31. [slab_deregister], when the heap has the memory for kva.c to take the addresses
    of the cache's slabs back, gives back every slab of the cache and no other, leaves
    the other caches and their objects as they were, and takes the cache off the list
    of caches; the loops end. *)
Theorem slab_deregister_correct s c sc (Hs : slabs_ok None s) (Hc : ss_slabs s !! c = Some sc)
    (Hl : __slabinc_lock s = false)
    (Hcan : can (ss_x s) (length (all_q sc)) 0) :
  ∃ s', slab_deregister c s = Ret (tt, s') ∧ slabs_ok None (set_slabs (delete c (ss_slabs s')) s') ∧
    (∀ c', c' ≠ c → ss_slabs s' !! c' = ss_slabs s !! c') ∧
    (∀ sh h, ss_hdrs s' !! sh = Some h ↔ ss_hdrs s !! sh = Some h ∧ sh_cache h ≠ c) ∧
      __slabinc_slabq s' = list_remove c (__slabinc_slabq s) ∧
    (∀ p, used (set_slabs (delete c (ss_slabs s')) s') p ↔ cache_of s p ≠ Some c ∧ used s p).
Proof.
  destruct (slab_deregister_run s c sc Hs Hc Hl) as [(s' & ? & ? & ? & ? & ? & _)|[? _]]; [|done]. exists s'.
  split_and!; try done. by apply used_deregistered.
Qed.

End caches.

(** * A small kernel *)

(** Addresses from a range are given out once, in order; the heap has memory for so many
    entries, and there are frames for so many slabs. The constructor stores its argument
    in the second word of the object. *)
Module SlabExample.

Record kern : Set := Kern { k_next : Z; k_entries : nat; k_slabs : nat }.

#[global] Instance ex_env : SlabEnv kern := {|
  kva_alloc n := λ x, if k_next x + n <? 2 ^ 40 then Ret (k_next x, Kern (k_next x + n) (k_entries x) (k_slabs x))
    else Ret (2 ^ 64 - 1, x);
  kva_free _ _ := λ x, match k_entries x with O => Abort Fault | S m => Ret (tt, Kern (k_next x) m (k_slabs x)) end;
  kmap_ensure_range _ _ prot := λ x,
    if prot =? 0 then Ret (0, x) else match k_slabs x with O => Ret (-1, x) | S k => Ret
      (0, Kern (k_next x) (k_entries x) k) end;
  kmap_commit := mret tt;
  call_ctr _ obj opq dec := λ xw, Ret (tt, if dec =? 0 then (xw.1, <[obj + 8 := opq]> xw.2) else xw);
|}.

Definition below (x : kern) (P : Z → Prop) : Prop := (4096 | k_next x) ∧ 0 < k_next x ∧ ∀ p, P p → p < k_next x.

#[global] Instance ex_laws : SlabEnvLaws kern.
Proof.
  refine (Build_SlabEnvLaws _ _ below (λ x, k_next x + 3 * 4096 < 2 ^ 40) (λ x m k, (m ≤ k_entries x ∧
    k ≤ k_slabs x)%nat) _ _ _ _ _ _ _ _).
  - intros x P P' He (? & ? & HP). split_and!; try done. intros p Hp. by apply HP, He.
  - intros. cbn in *. lia.
  - intros x P n (Hx & H0 & HP) Hc Hn Hr. eexists (k_next x), _. cbn. rewrite (proj2 (Z.ltb_lt _ _)) by lia.
    split_and!; try done; try lia.
    + intros p [_ Hp] Hpp%HP. lia.
    + split; [by apply Z.divide_add_r|]. split; [cbn; lia|]. cbn. intros p [Hp%HP|[_ Hp]]; lia.
  - intros x P a n (Hx & H0 & HP) _ _ _ _. cbn.
    destruct (k_entries x) as [|m] eqn:E; [right; split; [cbn; lia|done]|left]. eexists. split; [done|].
    split; [split_and!; try done; intros p [Hp _]; by apply HP|]. cbn. lia.
  - intros x P a Hx _. cbn. destruct (k_slabs x) as [|k] eqn:E; [right; split; [cbn; lia|]|left];
      [right; by exists (-1), x|]. eexists. split; [done|]. split; [done|]. cbn. lia.
  - intros x P a Hx _. by exists 0, x.
  - intros x P Hx. by exists x.
  - intros x P w f obj opq dec Hx. cbn. destruct (dec =? 0); by eexists _, _.
Defined.

(** The state after a call. *)
Definition after {A} (m : M (slst kern) A) (s : slst kern) : slst kern := match m s with Ret (_, s') => s' | Abort _
    => s end.

(** A cache of objects of 100 bytes, cache aligned, at 0x500, with a constructor, and one
    object given out. *)
Definition s0 : slst kern := Slst ∅ ∅ ∅ 0 0 0 [] false (Kern 0x101000 4 2).
Definition s1 : slst kern := after (slab_register 0x500 0 100 0x700 true) s0.
Definition s2 : slst kern := after (slab_alloc_opq 0x500 42) s1.
Definition s3 : slst kern := after (slab_free 0x103f40) s2.

Lemma s1_reach : slab_reach s1 [].
Proof.
  eapply (sl_register s0 [] 0x500 0 100 0x700 true); [apply sl_init; [done|done|]|done|lia|done|vm_compute;
    reflexivity]. split_and!; try done. by exists 0x101.
Qed.

Definition c1 : slab := Slab false 0 128 0x700 0 0 0 [] [] [].

Lemma s2_reach : slab_reach s2 [0x103f40].
Proof.
  apply (sl_alloc s1 [] 0x500 c1 42 0x103f40); [exact s1_reach|vm_compute; reflexivity|right; right; vm_compute;
    reflexivity|vm_compute; reflexivity].
Qed.

Lemma s3_reach : slab_reach s3 [].
Proof. apply (sl_free s2 [0x103f40] 0x103f40); [exact s2_reach|by left|vm_compute; reflexivity]. Qed.

Lemma can1 : kva_can (ss_x s1) ∧ can (ss_x s1) 1 1.
Proof. vm_compute. repeat split; repeat constructor. Qed.

Lemma slab_alloc_correct_witness :
  ∃ p s', slab_alloc_opq 0x500 42 s1 = Ret (p, s') ∧ slabs_ok None s' ∧ ¬ used s1 p ∧ (∀ q, used s' q ↔ used s1 q ∨ q = p) ∧
    obj_at s' p 128 ∧ constructed 0x700 p 42 s1 s' ∧ ∀ q z, used s1 q → obj_at s' q z → p + 128 ≤ q ∨ q + z ≤ p.
Proof.
  apply (slab_alloc_correct s1 0x500 c1 42); [apply (slab_reach_ok s1 [] s1_reach)|vm_compute; reflexivity|right;
    right; exact can1].
Defined.

(** The words of the object: the first is cleared, the second is the constructor's. *)
Lemma ctr_words : ss_words s2 = {[0x103f48 := 42; 0x103f40 := 0]}.
Proof. by vm_compute. Qed.

(** With its object freed, the slab is unused, and is given back. *)
Lemma slab_history_correct_witness :
  slab_alloc_opq 0x500 42 s1 = Ret (0x103f40, s2) ∧ slab_free 0x103f40 s2 = Ret (tt, s3) ∧ (∀ p, ¬ used s3 p) ∧
  ∃ s', slab_shrink 0x500 s3 = Ret (1, s') ∧ ∀ sh, is_Some (ss_hdrs s' !! sh) ↔ is_Some (ss_hdrs s3 !! sh) ∧
    ¬ unused_slab s3 0x500 sh.
Proof.
  split; [vm_compute; reflexivity|]. split; [vm_compute; reflexivity|].
  destruct (slab_history_correct s3 [] s3_reach) as (_ & Hu & _ & _ & Hsh).
  split; [intros p Hp%Hu; by apply not_elem_of_nil in Hp|].
  destruct (Hsh 0x500) as (U & Hn & HU & Hr); [vm_compute; eauto|].
  destruct (slab_reach_ok s3 [] s3_reach) as (Hs & _ & _).
  assert (U ≡ₚ [0x102000]) as HP.
  { apply NoDup_Permutation; [exact Hn|apply NoDup_singleton|]. intros sh. rewrite HU. symmetry.
    eapply (emptyq_unused None s3 0x500 (Slab false 0 128 0x700 1 0 0 [0x102000] [] []) sh Hs). vm_compute. reflexivity. }
  assert (length U = 1%nat) as HL by (by rewrite HP). rewrite HL in Hr.
  destruct Hr as (s' & Hr & Hh & _); [vm_compute; repeat split; repeat constructor|]. exists s'.
  split; [exact Hr|exact Hh].
Defined.

Lemma s2_ok : slabs_ok None s2 ∧ used s2 0x103f40.
Proof. destruct (slab_reach_ok s2 [0x103f40] s2_reach) as (Hs & _ & Hu). split; [done|]. apply Hu. by left. Qed.

Lemma slab_free_correct_witness : ∃ s', slab_free 0x103f40 s2 = Ret (tt, s') ∧ slabs_ok None s' ∧
    ∀ q, used s' q ↔ used s2 q ∧ q ≠ 0x103f40.
Proof. destruct s2_ok as [Hs Hu]. exact (slab_free_correct s2 0x103f40 Hs Hu). Defined.

Definition c2 : slab := Slab false 0 128 0x700 0 1 0 [] [0x102000] [].

Lemma slab_deregister_correct_witness :
  ∃ s', slab_deregister 0x500 s2 = Ret (tt, s') ∧ slabs_ok None (set_slabs (delete 0x500 (ss_slabs s')) s') ∧
    (∀ c', c' ≠ 0x500 → ss_slabs s' !! c' = ss_slabs s2 !! c') ∧
    (∀ sh h, ss_hdrs s' !! sh = Some h ↔ ss_hdrs s2 !! sh = Some h ∧ sh_cache h ≠ 0x500) ∧
      __slabinc_slabq s' = list_remove 0x500 (__slabinc_slabq s2) ∧
    (∀ p, used (set_slabs (delete 0x500 (ss_slabs s')) s') p ↔ cache_of s2 p ≠ Some 0x500 ∧ used s2 p).
Proof.
  destruct s2_ok as [Hs _]. apply (slab_deregister_correct s2 0x500 c2 Hs);
    [vm_compute; reflexivity|vm_compute; reflexivity|].
  vm_compute. repeat split; repeat constructor.
Defined.

End SlabExample.
