(* ===== verification/Pae64.v ===== *)
(** Page tables of the amd64 HAL (libhal_x86/amd64/pae64.c). The CPU's tables
    are reached through a recursive slot of the top level (the linear map), the
    tables of a [struct hal_umap] through the direct map. *)

From S2P Require Import Prelude Words Locks Machine Hal X86Pmap PageTable.

Definition L1_SHIFT : Z := 12.
Definition L2_SHIFT : Z := L1_SHIFT + 9.
Definition L3_SHIFT : Z := L2_SHIFT + 9.
Definition L4_SHIFT : Z := L3_SHIFT + 9.

Definition MKCANON (va : Z) : Z := Z.shiftr (s64 (u64 (Z.shiftl va 16))) 16.
Definition UNCANON (va : Z) : Z := Z.land va (Z.shiftl 1 48 - 1).

Definition L4_RESPT : Z := 0x000F000000000080.
Definition L3_RESPT : Z := 0x000F000000000000.
Definition L3_RES1G : Z := 0x000F00003fffe000.
Definition L2_RESPT : Z := 0x000F000000000000.
Definition L2_RES2M : Z := 0x000F0000001fe000.
Definition L1_RESPT : Z := 0x000F000000000000.

Definition l4e_reserved (pte : Z) : bool := has pte L4_RESPT.
Definition l3e_bigpage (pte : Z) : bool := has pte PTE_PS.
Definition l3e_reserved (pte : Z) : bool := has pte (if l3e_bigpage pte then L3_RES1G else L3_RESPT).
Definition l2e_bigpage (pte : Z) : bool := has pte PTE_PS.
Definition l2e_reserved (pte : Z) : bool := has pte (if l2e_bigpage pte then L2_RES2M else L2_RESPT).
Definition l1e_reserved (pte : Z) : bool := has pte L1_RESPT.

Definition mkpte (p f : Z) : Z := Z.lor (u64 (Z.shiftl p PAGE_SHIFT)) f.
Definition pte_pfn (p : Z) : Z := Z.shiftr (Z.land p (2 ^ 64 - 1 - PTE_NX)) PAGE_SHIFT.
Definition pte_present (pte : Z) : bool := has pte PTE_P.

Definition PTE_INVALID : Z := 0.
Definition PTEP_INVALID : Z := L1P_INVALID.
Definition mkptep_fgn (p : Z) : Z := Z.lor p 1.
Definition ptep_is_foreign (p : Z) : bool := has p 1.

Definition UMAP_LOG2_L4PTES : Z := 3.
Definition UMAP_L4PTES : Z := Z.shiftl 1 UMAP_LOG2_L4PTES.

Definition mkaddr (l4off l3off l2off l1off : Z) : Z :=
  u64 (MKCANON (Z.lor (Z.lor (Z.lor (u64 (Z.shiftl l4off L4_SHIFT)) (u64 (Z.shiftl l3off L3_SHIFT)))
    (u64 (Z.shiftl l2off L2_SHIFT))) (u64 (Z.shiftl l1off L1_SHIFT)))).

(** [_linear_start]. *)
Class Pae64Config := {
  linaddr : Z;
}.

#[export] Instance pae64_format : PteFormat := {|
  PageTable.pte_present := pte_present;
  PageTable.pte_frame := pte_pfn;
  PageTable.pte_table_ok e := negb (has e L4_RESPT);
|}.

Section defs.
Context `{!Config, !Pae64Config} {A : Type} `{!PfnCache A, !PfnAllocator A}.

(** ** The linear map, as [pae64_init] lays it out *)

Definition linoff : Z := L4OFF linaddr.
Definition linaddr_l2 : Z := mkaddr linoff linoff 0 0.
Definition linaddr_l3 : Z := mkaddr linoff linoff linoff 0.
Definition linaddr_l4 : Z := mkaddr linoff linoff linoff linoff.

(** ** The hardware: translation of an address by the CPU *)

Definition canonical (va : Z) : bool := va =? u64 (MKCANON va).

(** Frame that the tables at [root] map [va] to, when they do. *)
Definition mmu (fs : gmap Z (list Z)) (root va : Z) : option Z :=
  if negb (canonical va) then None else
  let l4e := entry fs root (L4OFF va) in
  if negb (pte_present l4e) || l4e_reserved l4e then None else
  let l3e := entry fs (pte_pfn l4e) (L3OFF va) in
  if negb (pte_present l3e) || l3e_reserved l3e then None else
  if l3e_bigpage l3e then
    Some (Z.lor (Z.land (pte_pfn l3e) (Z.lnot 0x3ffff)) (Z.land (Z.shiftr va 12) 0x3ffff)) else
  let l2e := entry fs (pte_pfn l3e) (L2OFF va) in
  if negb (pte_present l2e) || l2e_reserved l2e then None else
  if l2e_bigpage l2e then
    Some (Z.lor (Z.land (pte_pfn l2e) (Z.lnot 0x1ff)) (Z.land (Z.shiftr va 12) 0x1ff)) else
  let l1e := entry fs (pte_pfn l2e) (L1OFF va) in
  if negb (pte_present l1e) || l1e_reserved l1e then None else Some (pte_pfn l1e).

(** A load and a store of a page table entry by address: in the direct map, in
    the kernel's data, or wherever the tables map the address. *)
Definition translated (p : Z) (s : mach A) : option (Z * Z) :=
  f ← mmu (m_frames s) (m_root s) p;
  Some (f, Z.land (Z.shiftr p 3) 0x1ff).

Definition direct (p : Z) (s : mach A) : bool := in_dmap p || bool_decide (is_Some (m_kdata s !! p)).

Definition vload (p : Z) : M (mach A) Z := λ s,
  if direct p s then kload p s else
  if negb (p `mod` 8 =? 0) then Abort Undef else
  match translated p s with
  | Some (f, w) => match frame_word (m_frames s) f w with Some v => Ret (v, s) | None => Abort Fault end
  | None => Abort Fault
  end.

Definition vstore (p v : Z) : M (mach A) unit := λ s,
  if direct p s then kstore p v s else
  if negb (p `mod` 8 =? 0) then Abort Undef else
  match translated p s with
  | Some (f, w) =>
      match frame_word (m_frames s) f w with
      | Some _ => Ret (tt, set_frames (frame_update (m_frames s) f w v) s)
      | None => Abort Fault
      end
  | None => Abort Fault
  end.

(** ** Entries *)

Definition get_pte (ptep : Z) : M (mach A) Z :=
  if ptep_is_foreign ptep then
    let pfn := Z.shiftr ptep PAGE_SHIFT in
    let offset := Z.land (Z.shiftr ptep 3) 0x1ff in
    t ← pfn_get pfn;
    pte ← kload (t + 8 * offset);
    pfn_put pfn t;;
    mret pte
  else vload ptep.

Definition set_pte (ptep pte : Z) : M (mach A) Z :=
  if ptep_is_foreign ptep then
    let pfn := Z.shiftr ptep PAGE_SHIFT in
    let offset := Z.land (Z.shiftr ptep 3) 0x1ff in
    t ← pfn_get pfn;
    old ← kload (t + 8 * offset);
    kstore (t + 8 * offset) pte;;
    pfn_put pfn t;;
    mret old
  else
    old ← vload ptep;
    vstore ptep pte;;
    mret old.

Definition alloc_table (user : bool) : M (mach A) Z :=
  pfn ← pfn_alloc false;
  if pfn =? PFN_INVALID then mret PTE_INVALID
  else mret (mkpte pfn (Z.lor (Z.lor PTE_P PTE_W) (if user then PTE_U else 0))).

(** What every walker does with the entry at [ptep]: when it is not present,
    give up unless [alloc] is set, and otherwise link a new table. [None] is
    the early return. *)
Definition fetch_table (ptep : Z) (alloc user : bool) : M (mach A) (option Z) :=
  e ← get_pte ptep;
  if pte_present e then mret (Some e)
  else if negb alloc then mret None
  else
    e ← alloc_table user;
    if e =? PTE_INVALID then mret None
    else set_pte ptep e;; mret (Some e).

Definition linmap_get_l4p (va : Z) : Z := linaddr_l4 + 8 * Z.shiftr (UNCANON va) L4_SHIFT.

Definition linmap_get_l4e (va : Z) : M (mach A) Z :=
  vload (linaddr_l4 + 8 * Z.shiftr (UNCANON va) L4_SHIFT).

Definition linmap_get_l3p (va : Z) (alloc user : bool) : M (mach A) Z :=
  l4e ← fetch_table (linmap_get_l4p va) alloc user;
  match l4e with
  | None => mret PTEP_INVALID
  | Some l4e =>
      assertb (negb (l4e_reserved l4e));;
      mret (linaddr_l3 + 8 * Z.shiftr (UNCANON va) L3_SHIFT)
  end.

Definition linmap_get_l2p (va : Z) (alloc user : bool) : M (mach A) Z :=
  l3p ← linmap_get_l3p va alloc user;
  if l3p =? PTEP_INVALID then mret l3p else
  l3e ← fetch_table l3p alloc user;
  match l3e with
  | None => mret PTEP_INVALID
  | Some l3e =>
      assertb (negb (l3e_reserved l3e));;
      assertb (negb (l3e_bigpage l3e));;
      mret (linaddr_l2 + 8 * Z.shiftr (UNCANON va) L2_SHIFT)
  end.

Definition linmap_get_l1p (va : Z) (alloc user : bool) : M (mach A) Z :=
  l2p ← linmap_get_l2p va alloc user;
  if l2p =? PTEP_INVALID then mret l2p else
  l2e ← fetch_table l2p alloc user;
  match l2e with
  | None => mret PTEP_INVALID
  | Some l2e =>
      assertb (negb (l2e_reserved l2e));;
      assertb (negb (l2e_bigpage l2e));;
      mret (linaddr + 8 * Z.shiftr (UNCANON va) L1_SHIFT)
  end.

(** ** The tables of a [struct hal_umap]: [None] is the [NULL] pointer, the map
    currently loaded *)

Definition get_umap_l4p (umap : option Z) (va : Z) : M (mach A) Z :=
  assertb (L4OFF va <? UMAP_L4PTES);;
  match umap with
  | None => assertb (L4OFF va <? UMAP_L4PTES);; mret (linmap_get_l4p va)
  | Some u => mret (u + 8 * L4OFF va)
  end.

Definition get_umap_l3pfn (umap : option Z) (va : Z) (alloc : bool) : M (mach A) Z :=
  l4p ← get_umap_l4p umap va;
  l4e ← fetch_table l4p alloc true;
  match l4e with
  | None => mret PFN_INVALID
  | Some l4e => assertb (negb (l4e_reserved l4e));; mret (pte_pfn l4e)
  end.

Definition get_umap_l3p (umap : option Z) (va : Z) (alloc : bool) : M (mach A) Z :=
  match umap with
  | None => assertb (L4OFF va <? UMAP_L4PTES);; linmap_get_l3p va alloc true
  | Some u =>
      l3pfn ← get_umap_l3pfn umap va alloc;
      if l3pfn =? PFN_INVALID then mret PTEP_INVALID
      else mret (mkptep_fgn (Z.shiftl l3pfn PAGE_SHIFT + Z.shiftl (L3OFF va) 3))
  end.

Definition get_umap_l2pfn (umap : option Z) (va : Z) (alloc : bool) : M (mach A) Z :=
  l3p ← get_umap_l3p umap va alloc;
  if l3p =? PTEP_INVALID then mret PFN_INVALID else
  l3e ← fetch_table l3p alloc true;
  match l3e with
  | None => mret PFN_INVALID
  | Some l3e =>
      assertb (negb (l3e_reserved l3e));;
      assertb (negb (l3e_bigpage l3e));;
      mret (pte_pfn l3e)
  end.

Definition get_umap_l2p (umap : option Z) (va : Z) (alloc : bool) : M (mach A) Z :=
  match umap with
  | None => assertb (L4OFF va <? UMAP_L4PTES);; linmap_get_l2p va alloc true
  | Some u =>
      l2pfn ← get_umap_l2pfn umap va alloc;
      if l2pfn =? PFN_INVALID then mret PTEP_INVALID
      else mret (mkptep_fgn (Z.shiftl l2pfn PAGE_SHIFT + Z.shiftl (L2OFF va) 3))
  end.

Definition get_umap_l1pfn (umap : option Z) (va : Z) (alloc : bool) : M (mach A) Z :=
  l2p ← get_umap_l2p umap va alloc;
  if l2p =? PTEP_INVALID then mret PFN_INVALID else
  l2e ← fetch_table l2p alloc true;
  match l2e with
  | None => mret PFN_INVALID
  | Some l2e =>
      assertb (negb (l2e_reserved l2e));;
      assertb (negb (l2e_bigpage l2e));;
      mret (pte_pfn l2e)
  end.

Definition umap_get_l1p (umap : option Z) (va : Z) (alloc : bool) : M (mach A) Z :=
  match umap with
  | None => assertb (L4OFF va <? UMAP_L4PTES);; linmap_get_l1p va alloc true
  | Some u =>
      l1pfn ← get_umap_l1pfn umap va alloc;
      if l1pfn =? PFN_INVALID then mret PTEP_INVALID
      else mret (mkptep_fgn (Z.shiftl l1pfn PAGE_SHIFT + Z.shiftl (L1OFF va) 3))
  end.

Definition pt_umap_minaddr : Z := 0.
Definition pt_umap_maxaddr : Z := Z.shiftl 1 (39 + UMAP_LOG2_L4PTES).

Definition kmap_get_l1p (va : Z) (alloc : bool) : M (mach A) Z := linmap_get_l1p va alloc false.

End defs.

(** * Addresses *)

(** The canonical address whose low 48 bits are [x]. *)
Definition canon (x : Z) : Z := if x <? 2 ^ 47 then x else x + (2 ^ 64 - 2 ^ 48).

Lemma MKCANON_canon x : 0 ≤ x < 2 ^ 48 → u64 (MKCANON x) = canon x.
Proof.
  intros Hx. unfold MKCANON, canon, s64. rewrite Z.shiftl_mul_pow2 by lia.
  rewrite (u64_small (x * 2 ^ 16)) by (unfold word64; lia).
  rewrite (u64_small (x * 2 ^ 16)) by (unfold word64; lia).
  rewrite Z.shiftr_div_pow2 by lia.
  destruct (Z.ltb_spec (x * 2 ^ 16) (2 ^ 63)), (Z.ltb_spec x (2 ^ 47)); try lia.
  - rewrite Z.div_mul by lia. apply u64_small. unfold word64. lia.
  - replace (x * 2 ^ 16 - 2 ^ 64) with ((x - 2 ^ 48) * 2 ^ 16) by lia. rewrite Z.div_mul by lia.
    unfold u64. rewrite <- (Z.mod_add _ 1) by lia. rewrite Z.mod_small; lia.
Qed.

Definition vaddr (a b c d : Z) : Z := a * 2 ^ 39 + b * 2 ^ 30 + c * 2 ^ 21 + d * 2 ^ 12.

Lemma mkaddr_canon a b c d :
  index_ok a → index_ok b → index_ok c → index_ok d → mkaddr a b c d = canon (vaddr a b c d).
Proof.
  unfold index_ok. intros. unfold mkaddr, L4_SHIFT, L3_SHIFT, L2_SHIFT, L1_SHIFT.
  assert (∀ x k, 0 ≤ x < 512 → 0 ≤ k ≤ 39 → u64 (Z.shiftl x k) = Z.shiftl x k) as Hu.
  { intros x k Hx Hk. apply u64_small. rewrite Z.shiftl_mul_pow2 by lia. unfold word64.
    assert (2 ^ k ≤ 2 ^ 39) by (apply Z.pow_le_mono_r; lia). nia. }
  rewrite !Hu by lia. rewrite <- !Z.lor_assoc.
  rewrite (Z.shiftl_mul_pow2 d) by lia. change (12 + 9) with 21. change (21 + 9) with 30.
  change (30 + 9) with 39.
  rewrite (lor_shiftl_add c) by lia. rewrite (lor_shiftl_add b) by lia.
  rewrite (lor_shiftl_add a) by lia. rewrite MKCANON_canon by (unfold vaddr; lia).
  f_equal. unfold vaddr. lia.
Qed.

Lemma part_of r h a k :
  0 ≤ k → 0 ≤ r < 2 ^ k → 0 ≤ a < 512 → ((r + (h * 512 + a) * 2 ^ k) `div` 2 ^ k) `mod` 512 = a.
Proof.
  intros Hk Hr Ha. rewrite Z.div_add, Z.div_small, Z.add_0_l by lia.
  rewrite Z.add_comm, Z.mod_add by lia. by apply Z.mod_small.
Qed.

(** The parts of a canonical address. *)
Lemma canon_parts a b c d o :
  index_ok a → index_ok b → index_ok c → index_ok d → 0 ≤ o < 4096 →
  let p := canon (vaddr a b c d) + o in
  L4OFF p = a ∧ L3OFF p = b ∧ L2OFF p = c ∧ L1OFF p = d ∧ p `mod` 4096 = o ∧
  canonical p = true ∧ 0 ≤ p < 2 ^ 64.
Proof.
  intros Ha Hb Hc Hd Ho p. unfold index_ok in Ha, Hb, Hc, Hd.
  assert (∃ h, p = h * 2 ^ 48 + (vaddr a b c d + o) ∧ 0 ≤ p < 2 ^ 64) as (h & Hp & Hr).
  { unfold p, canon, vaddr. case_bool; [exists 0|exists (2 ^ 16 - 1)]; lia. }
  assert (0 ≤ vaddr a b c d + o < 2 ^ 48) as Hv by (unfold vaddr; lia).
  unfold L4OFF, L3OFF, L2OFF, L1OFF. rewrite !land_ones_9, !Z.shiftr_div_pow2 by lia.
  split_and!; [..|lia|lia].
  - replace p with ((b * 2 ^ 30 + c * 2 ^ 21 + d * 2 ^ 12 + o) + (h * 512 + a) * 2 ^ 39)
      by (rewrite Hp; unfold vaddr; lia). apply part_of; lia.
  - replace p with ((c * 2 ^ 21 + d * 2 ^ 12 + o) + ((h * 512 + a) * 512 + b) * 2 ^ 30)
      by (rewrite Hp; unfold vaddr; lia). apply part_of; lia.
  - replace p with ((d * 2 ^ 12 + o) + (((h * 512 + a) * 512 + b) * 512 + c) * 2 ^ 21)
      by (rewrite Hp; unfold vaddr; lia). apply part_of; lia.
  - replace p with (o + ((((h * 512 + a) * 512 + b) * 512 + c) * 512 + d) * 2 ^ 12)
      by (rewrite Hp; unfold vaddr; lia). apply part_of; lia.
  - replace p with (o + ((((h * 512 + a) * 512 + b) * 512 + c) * 512 + d) * 4096)
      by (rewrite Hp; unfold vaddr; lia). rewrite Z.mod_add by lia. by apply Z.mod_small.
  - unfold canonical. apply Z.eqb_eq. transitivity (canon (vaddr a b c d + o)).
    + unfold p, canon. assert (vaddr a b c d < 2 ^ 47 ↔ vaddr a b c d + o < 2 ^ 47).
      { unfold vaddr. lia. }
      destruct (Z.ltb_spec (vaddr a b c d) (2 ^ 47)), (Z.ltb_spec (vaddr a b c d + o) (2 ^ 47)); lia.
    + rewrite <- MKCANON_canon by done. unfold MKCANON. do 3 f_equal.
      unfold u64. rewrite !Z.shiftl_mul_pow2 by lia. rewrite Hp.
      replace ((h * 2 ^ 48 + (vaddr a b c d + o)) * 2 ^ 16)
        with ((vaddr a b c d + o) * 2 ^ 16 + h * 2 ^ 64) by lia.
      by rewrite Z.mod_add.
Qed.

(** Indices into the flat arrays of entries of the linear map. *)
Lemma uncanon_split va :
  Z.shiftr (UNCANON va) L4_SHIFT = L4OFF va ∧
  Z.shiftr (UNCANON va) L3_SHIFT = L4OFF va * 512 + L3OFF va ∧
  Z.shiftr (UNCANON va) L2_SHIFT = (L4OFF va * 512 + L3OFF va) * 512 + L2OFF va ∧
  Z.shiftr (UNCANON va) L1_SHIFT =
    ((L4OFF va * 512 + L3OFF va) * 512 + L2OFF va) * 512 + L1OFF va.
Proof.
  unfold UNCANON, L4OFF, L3OFF, L2OFF, L1OFF. change (Z.shiftl 1 48 - 1) with (Z.ones 48).
  change L4_SHIFT with 39. change L3_SHIFT with 30. change L2_SHIFT with 21. change L1_SHIFT with 12.
  rewrite Z.land_ones, !land_ones_9, !Z.shiftr_div_pow2 by lia.
  assert (∀ x, (x `div` 2 ^ 12) `div` 2 ^ 9 = x `div` 2 ^ 21 ∧ (x `div` 2 ^ 12) `div` 2 ^ 18 = x `div` 2 ^ 30
    ∧ (x `div` 2 ^ 12) `div` 2 ^ 27 = x `div` 2 ^ 39) as Hdd.
  { intros x. rewrite !Z.div_div by lia. done. }
  pose proof (Hdd va) as (E1 & E2 & E3). pose proof (Hdd (va `mod` 2 ^ 48)) as (F1 & F2 & F3).
  assert ((va `mod` 2 ^ 48) `div` 2 ^ 12 = (va `div` 2 ^ 12) `mod` 2 ^ 36) as Hm.
  { change (2 ^ 48) with (2 ^ 12 * 2 ^ 36). rewrite Z.rem_mul_r by lia.
    rewrite (Z.mul_comm (2 ^ 12)), Z.div_add by lia.
    rewrite Z.div_small; [done|]. apply Z.mod_pos_bound. lia. }
  rewrite Hm in F1, F2, F3. rewrite Hm, <- F1, <- F2, <- F3, <- E1, <- E2, <- E3.
  set (v := va `div` 2 ^ 12). clearbody v. clear.
  split_and!; Z.div_mod_to_equations; lia.
Qed.

(** * Entries *)

Lemma land_subset_zero e m m' : Z.land m m' = m' → Z.land e m = 0 → Z.land e m' = 0.
Proof. intros Hm He. rewrite <- Hm, Z.land_assoc, He. apply Z.land_0_l. Qed.

(** An entry that points to a table, at any level, passes the assertions of the
    walkers and the checks of the hardware. *)
Definition good (e : Z) : Prop := pte_present e = true ∧ has e L4_RESPT = false.

Lemma good_checks e :
  good e →
  pte_present e = true ∧ l4e_reserved e = false ∧ l3e_bigpage e = false ∧ l3e_reserved e = false ∧
  l2e_bigpage e = false ∧ l2e_reserved e = false ∧ l1e_reserved e = false.
Proof.
  intros [Hp Hr]. unfold l4e_reserved, l3e_reserved, l2e_reserved, l1e_reserved.
  assert (l3e_bigpage e = false) as Hb.
  { unfold l3e_bigpage, has in *. apply negb_false_iff, Z.eqb_eq in Hr.
    apply negb_false_iff, Z.eqb_eq. by apply (land_subset_zero _ L4_RESPT). }
  unfold l2e_bigpage in *. change (has e PTE_PS) with (l3e_bigpage e). rewrite Hb.
  assert (has e L3_RESPT = false) as H3.
  { unfold has in *. apply negb_false_iff, Z.eqb_eq in Hr.
    apply negb_false_iff, Z.eqb_eq. by apply (land_subset_zero _ L4_RESPT). }
  split_and!; done.
Qed.

Lemma mkpte_facts r fl :
  0 ≤ r < 2 ^ 36 → 0 ≤ fl < 128 → has fl PTE_P = true →
  good (mkpte r fl) ∧ pte_pfn (mkpte r fl) = r ∧ mkpte r fl ≠ 0.
Proof.
  intros Hr Hfl Hp. unfold mkpte, PAGE_SHIFT.
  rewrite u64_small by (rewrite Z.shiftl_mul_pow2 by lia; unfold word64; lia).
  assert (pte_present (Z.lor (Z.shiftl r 12) fl) = true) as Hpr.
  { unfold pte_present. by rewrite has_lor_shiftl. }
  split_and!; [split; [done|]| |].
  - unfold has. apply negb_false_iff, Z.eqb_eq. rewrite lor_shiftl_add by lia.
    apply Z.bits_inj'. intros i Hi. rewrite Z.land_spec, Z.bits_0.
    destruct (Z.lt_ge_cases i 48) as [Hlt|Hge].
    + destruct (decide (i = 7)) as [->|Hne].
      * rewrite <- (lor_shiftl_add r fl 12) by lia. rewrite Z.lor_spec, Z.shiftl_spec_low by lia.
        by rewrite (testbit_above fl 7) by (done || lia).
      * assert (Forall (λ i, i = 7 ∨ Z.testbit L4_RESPT i = false) (seqZ 0 48)) as Hc
          by (apply (bool_decide_unpack _); vm_compute; done).
        rewrite Forall_seqZ in Hc. destruct (Hc i ltac:(lia)) as [?|Hz]; [done|].
        by rewrite Hz, andb_false_r.
    + by rewrite (testbit_above _ 48 i) by lia.
  - unfold pte_pfn, PAGE_SHIFT. rewrite lor_shiftl_add by lia.
    change (2 ^ 64 - 1 - PTE_NX) with (Z.ones 63). rewrite Z.land_ones, Z.mod_small by lia.
    rewrite Z.shiftr_div_pow2 by lia. rewrite Z.add_comm, Z.div_add by lia.
    rewrite Z.div_small by lia. lia.
  - intros He. rewrite He in Hpr. done.
Qed.

#[export] Instance pae64_format_ok : PteFormatOk.
Proof. done. Qed.

Section mmu.
Context {CFG : Config} {CFGOK : ConfigOk} {LIN : Pae64Config}.

(** A walk in which every entry is good. *)
Fixpoint gwalk (fs : gmap Z (list Z)) (f : Z) (p : list Z) : option Z :=
  match p with
  | [] => Some f
  | i :: p' =>
      if pte_present (entry fs f i) && negb (has (entry fs f i) L4_RESPT)
      then gwalk fs (pte_pfn (entry fs f i)) p' else None
  end.

Lemma gwalk_cons fs f i p : good (entry fs f i) → gwalk fs f (i :: p) = gwalk fs (pte_pfn (entry fs f i)) p.
Proof. intros [Hp Hr]. simpl. by rewrite Hp, Hr. Qed.

Lemma gwalk_cons_inv fs f i p g :
  gwalk fs f (i :: p) = Some g → good (entry fs f i) ∧ gwalk fs (pte_pfn (entry fs f i)) p = Some g.
Proof.
  simpl. destruct (pte_present (entry fs f i)) eqn:E1, (has (entry fs f i) L4_RESPT) eqn:E2; try done.
Qed.

Lemma gwalk_app fs f p q : gwalk fs f (p ++ q) = gwalk fs f p ≫= λ g, gwalk fs g q.
Proof. revert f. induction p as [|i p IH]; intros f; simpl; [done|]. case_bool; [apply IH|done]. Qed.

(** The hardware follows four good entries. *)
Lemma mmu_gwalk fs root va f :
  canonical va = true → gwalk fs root [L4OFF va; L3OFF va; L2OFF va; L1OFF va] = Some f →
  mmu fs root va = Some f.
Proof.
  intros Hc [G4 [G3 [G2 [G1 [= <-]]%gwalk_cons_inv]%gwalk_cons_inv]%gwalk_cons_inv]%gwalk_cons_inv.
  unfold mmu. rewrite Hc.
  destruct (good_checks _ G4) as (-> & -> & _). destruct (good_checks _ G3) as (-> & _ & -> & -> & _).
  destruct (good_checks _ G2) as (-> & _ & _ & _ & -> & -> & _).
  destruct (good_checks _ G1) as (-> & _ & _ & _ & _ & _ & ->). done.
Qed.

End mmu.

(** * The linear map *)

Class Pae64ConfigOk `{!Config, !Pae64Config} : Prop := {
  linaddr_slot : linaddr = mkaddr linoff 0 0 0;
  linoff_pos : 0 < linoff;
  linaddr_not_dmap p : in_dmap p = true → L4OFF p ≠ linoff;
  dmap_48 : max_dmap_pfn ≤ 2 ^ 36;
}.

Section linmap.
Context {CFG : Config} {CFGOK : ConfigOk} {LIN : Pae64Config} {LINOK : Pae64ConfigOk}.
Context {A : Type} `{!PfnCache A, !PfnAllocator A, !PfnAllocatorLaws A}.
Implicit Types s : mach A.

Lemma linoff_ok : index_ok linoff.
Proof. apply off_range. Qed.

(** Where word [j] of the table at path [q] appears in the linear map. *)
Definition lin_addr (q : list Z) (j : Z) : Z :=
  match q with
  | [] => canon (vaddr linoff linoff linoff linoff) + 8 * j
  | [a] => canon (vaddr linoff linoff linoff a) + 8 * j
  | [a; b] => canon (vaddr linoff linoff a b) + 8 * j
  | a :: b :: c :: _ => canon (vaddr linoff a b c) + 8 * j
  end.

Lemma canon_shift x y : 0 ≤ x ≤ y → y < 2 ^ 48 → (x < 2 ^ 47 ↔ y < 2 ^ 47) → canon y = canon x + (y - x).
Proof.
  intros. unfold canon. destruct (Z.ltb_spec x (2 ^ 47)), (Z.ltb_spec y (2 ^ 47)); lia.
Qed.

Lemma linmap_addrs va :
  linmap_get_l4p va = lin_addr [] (L4OFF va) ∧
  linaddr_l3 + 8 * Z.shiftr (UNCANON va) L3_SHIFT = lin_addr [L4OFF va] (L3OFF va) ∧
  linaddr_l2 + 8 * Z.shiftr (UNCANON va) L2_SHIFT = lin_addr [L4OFF va; L3OFF va] (L2OFF va) ∧
  linaddr + 8 * Z.shiftr (UNCANON va) L1_SHIFT = lin_addr [L4OFF va; L3OFF va; L2OFF va] (L1OFF va).
Proof.
  pose proof linoff_ok as Hl. destruct (off_range va) as (H4 & H3 & H2 & H1).
  unfold linmap_get_l4p. destruct (uncanon_split va) as (-> & -> & -> & ->).
  rewrite linaddr_slot.
  unfold linaddr_l4, linaddr_l3, linaddr_l2, lin_addr.
  assert (index_ok 0) as H0 by done.
  rewrite !mkaddr_canon by done. unfold index_ok in *. split_and!; [done|..].
  - rewrite (canon_shift (vaddr linoff linoff linoff 0) (vaddr linoff linoff linoff (L4OFF va)));
      unfold vaddr; lia.
  - rewrite (canon_shift (vaddr linoff linoff 0 0) (vaddr linoff linoff (L4OFF va) (L3OFF va)));
      unfold vaddr; lia.
  - rewrite (canon_shift (vaddr linoff 0 0 0) (vaddr linoff (L4OFF va) (L3OFF va) (L2OFF va)));
      unfold vaddr; lia.
Qed.

(** ** The CPU's own tables *)

Definition cpu_top s (i : Z) : Z := entry (m_frames s) (m_root s) i.

(** Frames that are not page tables below the top level. *)
Definition not_tables s (f : Z) : Prop := f ∈ free_frames s ∨ f = m_root s.

Record cpu_inv (D : Z → Prop) s : Prop := {
  ci_alloc : alloc_ok s;
  ci_space : space_ok D (not_tables s) (cpu_top s) (m_frames s);
  ci_root : frame_ok (m_frames s) (m_root s);
  ci_root_used : m_root s ∉ free_frames s;
  ci_self : good (cpu_top s linoff) ∧ pte_pfn (cpu_top s linoff) = m_root s;
  ci_kdata p : is_Some (m_kdata s !! p) → L4OFF p ≠ linoff;
  ci_slots i : D i → index_ok i ∧ i ≠ linoff;
}.

Lemma cpu_table s (p : list Z) :
  p ≠ [] → table (cpu_top s) (m_frames s) p = walk (m_frames s) (m_root s) p.
Proof. by destruct p. Qed.

Lemma sub_table_some e f : sub_table e = Some f → pte_present e = true ∧ pte_pfn e = f.
Proof. unfold sub_table. cbn. destruct (pte_present e); [|done]. by intros [= <-]. Qed.

Lemma walk_snoc_some fs f (q : list Z) i g :
  walk fs f (q ++ [i]) = Some g → ∃ h, walk fs f q = Some h ∧ sub_table (entry fs h i) = Some g.
Proof.
  rewrite walk_app. destruct (walk fs f q) as [h|]; [|done]. simpl.
  destruct (sub_table (entry fs h i)) as [g'|] eqn:E; [|done]. simpl. intros [= ->]. eauto.
Qed.

(** A path below the CPU's top level, possibly empty. *)
Definition cpu_path (D : Z → Prop) (q : list Z) : Prop := q = [] ∨ path_ok D q.

(** Entries on the way to a table are good. *)
Lemma cpu_entry_good D s (q : list Z) i h f :
  cpu_inv D s → path_ok D (q ++ [i]) → walk (m_frames s) (m_root s) q = Some h →
  sub_table (entry (m_frames s) h i) = Some f → good (entry (m_frames s) h i).
Proof.
  intros Hi Hp Hw [Hpr _]%sub_table_some. split; [done|].
  destruct (decide (q = [])) as [->|Hne].
  - injection Hw as <-. destruct Hp as ((j & p' & [= <- <-] & Hj) & _).
    pose proof (so_top _ _ _ _ (ci_space _ _ Hi) i Hj Hpr) as Ht. cbn in Ht. by apply negb_true_iff in Ht.
  - destruct (path_ok_prefix D q i Hp Hne) as (Hq & Hii & Hlen). rewrite <- cpu_table in Hw by done.
    pose proof (so_entry _ _ _ _ (ci_space _ _ Hi) q h i Hq Hlen Hii Hw Hpr) as Ht.
    cbn in Ht. by apply negb_true_iff in Ht.
Qed.

Lemma cpu_gwalk D s (q : list Z) f :
  cpu_inv D s → cpu_path D q → walk (m_frames s) (m_root s) q = Some f →
  gwalk (m_frames s) (m_root s) q = Some f.
Proof.
  intros Hi. revert f. induction q as [|i q IH] using rev_ind; intros f Hq Hw; [done|].
  destruct Hq as [?|Hq]; [by destruct q|]. apply walk_snoc_some in Hw as (h & Hh & Hs).
  pose proof (cpu_entry_good D s q i h f Hi Hq Hh Hs) as Hg.
  assert (cpu_path D q) as Hq'.
  { destruct (decide (q = [])) as [->|Hne]; [by left|right]. by apply (path_ok_prefix D q i). }
  rewrite gwalk_app, (IH h) by done. simpl. destruct Hg as [-> ->]. simpl. f_equal.
  by apply sub_table_some in Hs as [_ ->].
Qed.

(** The path of a linear address: the path of the table, padded with the
    recursive slot. *)
Lemma lin_addr_parts D (q : list Z) j :
  cpu_path D q → index_ok j → let p := lin_addr q j in
  [L4OFF p; L3OFF p; L2OFF p; L1OFF p] = replicate (4 - length q) linoff ++ q ∧
  p `mod` 4096 = 8 * j ∧ canonical p = true ∧ L4OFF p = linoff ∧ 0 ≤ p < 2 ^ 64.
Proof.
  intros Hq Hj p. pose proof linoff_ok as Hl. unfold p.
  assert (0 ≤ 8 * j < 4096) as Ho by (unfold index_ok in Hj; lia).
  assert (Forall index_ok q ∧ (length q ≤ 3)%nat) as [Hf Hlen].
  { destruct Hq as [->|(_ & ? & ?)]; [|done]. split; [done|simpl; lia]. }
  destruct q as [|a [|b [|c [|]]]]; simpl in Hlen; [| | | |lia];
    rewrite ?Forall_cons in Hf; cbn [lin_addr replicate length app Nat.sub].
  - destruct (canon_parts linoff linoff linoff linoff (8 * j)) as (-> & -> & -> & -> & -> & -> & ?); done.
  - destruct (canon_parts linoff linoff linoff a (8 * j)) as (-> & -> & -> & -> & -> & -> & ?);
      [tauto..|done].
  - destruct (canon_parts linoff linoff a b (8 * j)) as (-> & -> & -> & -> & -> & -> & ?); [tauto..|done].
  - destruct (canon_parts linoff a b c (8 * j)) as (-> & -> & -> & -> & -> & -> & ?); [tauto..|done].
Qed.

(** The recursive slot: the CPU translates the linear address of a word of a
    table to that word. *)
Lemma lin_translate D s (q : list Z) j f :
  cpu_inv D s → cpu_path D q → index_ok j → walk (m_frames s) (m_root s) q = Some f →
  translated (lin_addr q j) s = Some (f, j).
Proof.
  intros Hi Hq Hj Hw. destruct (lin_addr_parts D q j Hq Hj) as (Hpath & Hmod & Hc & _).
  pose proof (ci_self _ _ Hi) as [Hg Hself]. unfold cpu_top in *.
  assert (∀ n, gwalk (m_frames s) (m_root s) (replicate n linoff) = Some (m_root s)) as Hrep.
  { induction n as [|n IH]; [done|]. simpl replicate. rewrite gwalk_cons by done. by rewrite Hself. }
  unfold translated. rewrite (mmu_gwalk _ _ _ f).
  - cbn [mbind option_bind]. do 2 f_equal. rewrite land_ones_9, Z.shiftr_div_pow2 by lia.
    unfold index_ok in Hj. Z.div_mod_to_equations; lia.
  - done.
  - rewrite Hpath, gwalk_app, Hrep. simpl. by apply (cpu_gwalk D).
Qed.

Lemma cpu_table_frame D s (q : list Z) f :
  cpu_inv D s → cpu_path D q → walk (m_frames s) (m_root s) q = Some f → frame_ok (m_frames s) f.
Proof.
  intros Hi [->|Hq] Hw; [injection Hw as <-; by eapply ci_root|].
  rewrite <- cpu_table in Hw by (by eapply path_ok_ne).
  by destruct (so_frame _ _ _ _ (ci_space _ _ Hi) q f Hq Hw).
Qed.

Lemma not_foreign p : p `mod` 8 = 0 → ptep_is_foreign p = false.
Proof.
  intros Hp. unfold ptep_is_foreign, has. apply negb_false_iff, Z.eqb_eq.
  change 1 with (Z.ones 1). rewrite Z.land_ones by lia. change (2 ^ 1) with 2.
  Z.div_mod_to_equations; lia.
Qed.

(** [points s p f j]: [p] designates word [j] of frame [f]. *)
Definition points s (p f j : Z) : Prop :=
  get_pte p s = Ret (entry (m_frames s) f j, s) ∧
  ∀ v, set_pte p v s = Ret (entry (m_frames s) f j, set_frames (frame_update (m_frames s) f j v) s).

Lemma frame_word_entry fs f j : frame_ok fs f → index_ok j → frame_word fs f j = Some (entry fs f j).
Proof. intros Hf Hj. unfold entry. by destruct (frame_word_ok fs f j Hf Hj) as [w ->]. Qed.

Lemma lin_points D s (q : list Z) j f :
  cpu_inv D s → cpu_path D q → index_ok j → walk (m_frames s) (m_root s) q = Some f →
  points s (lin_addr q j) f j.
Proof.
  intros Hi Hq Hj Hw. destruct (lin_addr_parts D q j Hq Hj) as (_ & Hmod & _ & Hl4 & _).
  assert (lin_addr q j `mod` 8 = 0) as H8 by (Z.div_mod_to_equations; lia).
  pose proof (cpu_table_frame D s q f Hi Hq Hw) as Hf.
  pose proof (lin_translate D s q j f Hi Hq Hj Hw) as Ht.
  assert (direct (lin_addr q j) s = false) as Hd.
  { unfold direct. apply orb_false_iff. split.
    - destruct (in_dmap _) eqn:E; [|done]. by destruct (linaddr_not_dmap _ E).
    - apply bool_decide_eq_false. intros Hk. by apply (ci_kdata _ _ Hi) in Hk. }
  assert (∀ v, vload (lin_addr q j) s = Ret (entry (m_frames s) f j, s) ∧
    vstore (lin_addr q j) v s = Ret (tt, set_frames (frame_update (m_frames s) f j v) s)) as Hv.
  { intros v. unfold vload, vstore. rewrite Hd, H8, Ht. cbn. by rewrite frame_word_entry. }
  unfold points, get_pte, set_pte. rewrite not_foreign by done. split; [by apply (Hv 0)|].
  intros v. destruct (Hv v) as [Hl Hs]. mrun Hl. by mrun Hs.
Qed.

(** ** Linking a new table *)

Definition table_flags (user : bool) : Z := Z.lor (Z.lor PTE_P PTE_W) (if user then PTE_U else 0).

Lemma table_flags_ok user : 0 ≤ table_flags user < 128 ∧ has (table_flags user) PTE_P = true.
Proof. by destruct user. Qed.

Lemma alloc_table_run user s :
  alloc_ok s →
  (free_frames s = ∅ ∧ alloc_table user s = Ret (PTE_INVALID, s)) ∨
  ∃ r a', r ∈ free_frames s ∧ frame_ok (m_frames s) r ∧
    alloc_table user s = Ret (mkpte r (table_flags user), taken s r a') ∧
    alloc_ok (taken s r a') ∧ free_frames (taken s r a') = free_frames s ∖ {[r]} ∧
    (∀ f, al_range a' f ↔ al_range (m_alloc s) f) ∧
    good (mkpte r (table_flags user)) ∧ pte_pfn (mkpte r (table_flags user)) = r ∧
    mkpte r (table_flags user) ≠ 0.
Proof.
  intros Hok. destruct (pfn_alloc_run false s Hok) as [[He Hr]|(r & a' & Hin & Hr & Hok' & Hf & Hrg)].
  - left. split; [done|]. unfold alloc_table. by mrun Hr.
  - right. pose proof (ao_frames _ Hok r Hin) as Hfr. destruct (table_flags_ok user) as [Hfl Hp].
    pose proof dmap_48 as H48. destruct Hfr as [Hrd Hfr'].
    destruct (mkpte_facts r (table_flags user)) as (Hg & Hpf & Hne); [lia|done..|].
    exists r, a'. split; [done|]. split; [done|]. split; [|done].
    unfold alloc_table. mrun Hr. destruct (pfn_valid r Hrd) as [_ Hv].
    by rewrite (proj2 (Z.eqb_neq _ _) Hv).
Qed.

(** What [fetch_table] does, whatever kind of pointer it is given: [v] is the
    entry and [upd] what a store through the pointer does. *)
Lemma fetch_table_run p v (upd : Z → mach A → mach A) alloc user s :
  alloc_ok s → get_pte p s = Ret (v, s) →
  (∀ r a' e, r ∈ free_frames s → alloc_ok (taken s r a') →
     free_frames (taken s r a') = free_frames s ∖ {[r]} →
     (∀ f, al_range a' f ↔ al_range (m_alloc s) f) →
     ∃ old, set_pte p e (taken s r a') = Ret (old, upd e (taken s r a'))) →
  (pte_present v = true ∧ fetch_table p alloc user s = Ret (Some v, s)) ∨
  (pte_present v = false ∧ (alloc = false ∨ free_frames s = ∅) ∧
     fetch_table p alloc user s = Ret (None, s)) ∨
  (pte_present v = false ∧ alloc = true ∧ ∃ r a', r ∈ free_frames s ∧ frame_ok (m_frames s) r ∧
     alloc_ok (taken s r a') ∧ free_frames (taken s r a') = free_frames s ∖ {[r]} ∧
     (∀ f, al_range a' f ↔ al_range (m_alloc s) f) ∧
     let e := mkpte r (table_flags user) in
     good e ∧ pte_pfn e = r ∧ fetch_table p alloc user s = Ret (Some e, upd e (taken s r a'))).
Proof.
  intros Hok Hget Hset. unfold fetch_table. mrun Hget. destruct (pte_present v) eqn:Hv; [by left|right].
  destruct alloc; simpl; [|by left; auto].
  destruct (alloc_table_run user s Hok) as [[He Hr]|(r & a' & Hin & Hfr & Hr & Hok' & Hf & Hrg & Hg & Hpf & Hne)].
  - left. mrun Hr. auto.
  - right. split_and!; [done|done|]. exists r, a'.
    destruct (Hset r a' (mkpte r (table_flags user)) Hin Hok' Hf Hrg) as [old Hs].
    do 5 (split; [done|]). cbn zeta.
    split; [done|]. split; [done|]. mrun Hr.
    rewrite (proj2 (Z.eqb_neq (mkpte r (table_flags user)) PTE_INVALID)) by done. by mrun Hs.
Qed.

(** ** One step down the CPU's tables *)

(** An allocated frame that is none of the CPU's tables. *)
Record owned (D : Z → Prop) s (f : Z) : Prop := {
  ow_used : f ∉ free_frames s;
  ow_frame : frame_ok (m_frames s) f;
  ow_range : al_range (m_alloc s) f;
  ow_root : f ≠ m_root s;
  ow_table p : path_ok D p → walk (m_frames s) (m_root s) p ≠ Some f;
}.

(** [s'] has the mappings of [s], and possibly more, empty, tables. *)
Record cpu_ext (D : Z → Prop) s s' : Prop := {
  ce_leaf va : D (L4OFF va) →
    leaf (cpu_top s') (m_frames s') va = leaf (cpu_top s) (m_frames s) va;
  ce_walk p f : cpu_path D p → walk (m_frames s) (m_root s) p = Some f →
    walk (m_frames s') (m_root s') p = Some f;
  ce_root : m_root s' = m_root s;
  ce_kdata : m_kdata s' = m_kdata s;
  ce_free : free_frames s' ⊆ free_frames s;
  ce_alock : m_alock s' = m_alock s;
  ce_owned f : owned D s f → owned D s' f ∧ m_frames s' !! f = m_frames s !! f;
}.

#[export] Instance cpu_ext_po D : PreOrder (cpu_ext D).
Proof.
  split.
  - intros s. by split.
  - intros s1 s2 s3 H12 H23. split.
    + intros va Hd. by rewrite (ce_leaf _ _ _ H23), (ce_leaf _ _ _ H12).
    + intros p f Hp Hw. by apply (ce_walk _ _ _ H23), (ce_walk _ _ _ H12).
    + by rewrite (ce_root _ _ _ H23), (ce_root _ _ _ H12).
    + by rewrite (ce_kdata _ _ _ H23), (ce_kdata _ _ _ H12).
    + pose proof (ce_free _ _ _ H23). pose proof (ce_free _ _ _ H12). set_solver.
    + by rewrite (ce_alock _ _ _ H23), (ce_alock _ _ _ H12).
    + intros f Ho. destruct (ce_owned _ _ _ H12 f Ho) as [Ho2 E2].
      destruct (ce_owned _ _ _ H23 f Ho2) as [Ho3 E3]. split; [done|congruence].
Qed.

Lemma root_not_free D s r : cpu_inv D s → r ∈ free_frames s → r ≠ m_root s.
Proof. intros Hi Hr ->. by destruct (ci_root_used _ _ Hi). Qed.

Lemma cpu_top_taken D s r a' i :
  cpu_inv D s → r ∈ free_frames s → index_ok i → cpu_top (taken s r a') i = cpu_top s i.
Proof.
  intros Hi Hr Hii. unfold cpu_top. simpl. rewrite entry_zero by done.
  rewrite decide_False; [done|]. by eapply root_not_free.
Qed.

Lemma taken_cpu_inv D s r a' :
  cpu_inv D s → r ∈ free_frames s → alloc_ok (taken s r a') →
  free_frames (taken s r a') = free_frames s ∖ {[r]} → cpu_inv D (taken s r a').
Proof.
  intros Hi Hr Hok Hf. pose proof (ao_frames _ (ci_alloc _ _ Hi) r Hr) as [Hrd _].
  pose proof (root_not_free D s r Hi Hr) as Hne. split.
  - done.
  - apply (space_ok_top_ext D _ (cpu_top s)); [by apply Hi|by intros; apply (cpu_top_taken D)|].
    apply (zero_free_ok D (not_tables s)); [by apply Hi|by left|done|].
    intros x [Hx|Hx]; [left|by right]. rewrite Hf in Hx. set_solver.
  - simpl. apply frame_zero_ok; [done|by apply (ci_root _ _ Hi)].
  - rewrite Hf. simpl. pose proof (ci_root_used _ _ Hi). set_solver.
  - rewrite (cpu_top_taken D s r a' linoff Hi Hr linoff_ok). simpl. by apply Hi.
  - simpl. by apply Hi.
  - by apply Hi.
Qed.

Lemma taken_walk D s r a' (q : list Z) :
  cpu_inv D s → r ∈ free_frames s → cpu_path D q →
  walk (m_frames (taken s r a')) (m_root s) q = walk (m_frames s) (m_root s) q.
Proof.
  intros Hi Hr [->|Hq]; [done|]. pose proof (path_ok_ne _ _ Hq).
  rewrite <- (cpu_table s) by done. rewrite <- (cpu_table (taken s r a')) by done.
  rewrite (table_top_ext D (cpu_top s)); [|by intros; apply (cpu_top_taken D)|done].
  apply (zero_free_table D (not_tables s)); [by apply Hi|by left|done].
Qed.

(** The state after the new table [r] has been linked at [(g, i)]. *)
Definition linked s r a' g i e : mach A :=
  set_frames (frame_update (m_frames (taken s r a')) g i e) (taken s r a').

Section link.
Context (D : Z → Prop) (s : mach A) (q : list Z) (g i r e : Z) (a' : A).
Context (Hi : cpu_inv D s) (Hq : cpu_path D q) (Hlen : (length q ≤ 2)%nat).
Context (Hp : path_ok D (q ++ [i])) (Hw : walk (m_frames s) (m_root s) q = Some g).
Context (Hnp : pte_present (entry (m_frames s) g i) = false).
Context (Hr : r ∈ free_frames s) (Hok : alloc_ok (taken s r a')).
Context (Hf : free_frames (taken s r a') = free_frames s ∖ {[r]}).
Context (Hrg : ∀ f, al_range a' f ↔ al_range (m_alloc s) f).
Context (He : good e) (Her : pte_pfn e = r).

Lemma link_index : index_ok i.
Proof. destruct Hp as (_ & Hfa & _). apply Forall_app in Hfa as [_ [? _]%Forall_cons]. done. Qed.

Lemma link_frame : frame_ok (m_frames (taken s r a')) g.
Proof.
  apply frame_zero_ok; [by apply (ao_frames _ (ci_alloc _ _ Hi))|].
  by apply (cpu_table_frame D s q).
Qed.

Lemma link_entry h j :
  index_ok j → entry (m_frames (linked s r a' g i e)) h j =
    if decide (g = h ∧ i = j) then e else if decide (r = h) then 0 else entry (m_frames s) h j.
Proof.
  intros Hj. unfold linked. simpl. rewrite entry_update by (try apply link_frame; try apply link_index; done).
  by rewrite entry_zero.
Qed.

Lemma link_grown :
  grown D (cpu_top s) (m_frames s) (cpu_top (linked s r a' g i e))
    (m_frames (linked s r a' g i e)) (q ++ [i]) r.
Proof.
  pose proof link_index as Hix. pose proof link_entry as Hle. pose proof (ci_space _ _ Hi) as Hsp.
  pose proof (root_not_free D s r Hi Hr) as Hne.
  pose proof (ao_frames _ (ci_alloc _ _ Hi) r Hr) as Hfr.
  assert (∀ j, D j → index_ok j) as HD by (intros; by apply (ci_slots _ _ Hi)).
  destruct (decide (q = [])) as [->|Hqn].
  - injection Hw as <-. destruct Hp as ((j & ? & [= <- <-] & Hd) & _).
    apply (grown_top D (not_tables s) _ _ Hsp r e); try done.
    + by left.
    + by destruct He.
    + destruct He as [_ Hz]. cbn. by rewrite Hz.
    + unfold cpu_top. simpl. rewrite Hle by done. by rewrite decide_True.
    + intros k Hk Hik Hki. unfold cpu_top. simpl. rewrite Hle by done.
      rewrite decide_False by (intros [_ ?]; done). by rewrite decide_False.
    + intros h k Hh Hk. rewrite Hle, entry_zero by done. rewrite decide_False; [done|].
      intros [<- _]. destruct Hh as [Hh|(p' & Hp' & Hh)]; [congruence|].
      destruct (so_frame _ _ _ _ Hsp p' _ Hp' Hh) as [_ Hnt]. apply Hnt. by right.
    + intros h Hh. by apply frame_update_ok, frame_zero_ok; [destruct Hfr|].
  - destruct Hq as [?|Hq']; [done|]. rewrite <- cpu_table in Hw by done.
    apply (grown_top_ext D _ _ (cpu_top s)); [done| |].
    + intros k _ Hk. unfold cpu_top. simpl. rewrite Hle by done.
      rewrite decide_False.
      * by rewrite decide_False.
      * intros [-> _]. destruct (so_frame _ _ _ _ Hsp q _ Hq' Hw) as [_ Hnt]. apply Hnt. by right.
    + apply (grown_below D (not_tables s)); try done; [by left|by destruct He|].
      destruct He as [_ Hz]. cbn. by rewrite Hz.
Qed.

Lemma link_inv : cpu_inv D (linked s r a' g i e).
Proof.
  pose proof link_grown as Hgr. pose proof link_entry as Hle. pose proof (ci_space _ _ Hi) as Hsp.
  pose proof (root_not_free D s r Hi Hr) as Hne.
  pose proof (ao_frames _ (ci_alloc _ _ Hi) r Hr) as Hfr.
  assert (cpu_top (linked s r a' g i e) linoff = cpu_top s linoff) as Hself.
  { unfold cpu_top at 1. simpl. rewrite Hle by apply linoff_ok.
    rewrite decide_False; [by rewrite decide_False|]. intros [Hg Hil].
    destruct Hq as [->|Hq'].
    - destruct Hp as ((j & ? & [= <- <-] & Hd) & _). by destruct (ci_slots _ _ Hi i Hd).
    - rewrite <- cpu_table in Hw by (by eapply path_ok_ne).
      destruct (so_frame _ _ _ _ Hsp q g Hq' Hw) as [_ Hnt]. apply Hnt. by right. }
  split.
  - destruct Hok as [H1 H2 H3 H4]. split; [done| |done|done].
    intros f Hfin. apply frame_update_ok. by apply H2.
  - apply (grown_ok D (not_tables s) _ _ _ _ _ _ _ Hsp Hgr); [by left|done|].
    intros x [Hx|Hx].
    + change (x ∈ free_frames (taken s r a')) in Hx. rewrite Hf in Hx. split; [left|]; set_solver.
    + simpl in Hx. subst x. split; [by right|done].
  - apply frame_update_ok, frame_zero_ok; [by destruct Hfr|by apply (ci_root _ _ Hi)].
  - change (m_root s ∉ free_frames (taken s r a')). rewrite Hf.
    pose proof (ci_root_used _ _ Hi). set_solver.
  - rewrite Hself. by apply Hi.
  - simpl. by apply Hi.
  - by apply Hi.
Qed.

Lemma link_walk (p : list Z) :
  path_ok D p → walk (m_frames (linked s r a' g i e)) (m_root s) p =
    if decide (p = q ++ [i]) then Some r else walk (m_frames s) (m_root s) p.
Proof.
  intros Hpp. pose proof (path_ok_ne _ _ Hpp).
  rewrite <- (cpu_table s) by done. rewrite <- (gr_table _ _ _ _ _ _ _ link_grown) by done.
  by rewrite cpu_table.
Qed.

Lemma link_owned f :
  owned D s f → owned D (linked s r a' g i e) f ∧ m_frames (linked s r a' g i e) !! f = m_frames s !! f.
Proof.
  intros [Hu Hfr Hra Hro Ht]. pose proof (ao_frames _ (ci_alloc _ _ Hi) r Hr) as [Hrd _].
  assert (f ≠ r) as Hfr' by (intros ->; done).
  assert (f ≠ g) as Hfg.
  { intros ->. destruct Hq as [->|Hq']; [by injection Hw|]. by destruct (Ht q Hq'). }
  split.
  - split.
    + change (f ∉ free_frames (taken s r a')). rewrite Hf. set_solver.
    + by apply frame_update_ok, frame_zero_ok.
    + by apply Hrg.
    + done.
    + intros p Hpp. simpl m_root. rewrite link_walk by done. case_decide; [congruence|by apply Ht].
  - simpl. unfold frame_update. rewrite lookup_alter_ne by done. by rewrite lookup_insert_ne.
Qed.

Lemma link_ext : cpu_ext D s (linked s r a' g i e).
Proof.
  pose proof link_grown as Hgr. split; try done.
  - intros va Hd. by apply (grown_leaf D (not_tables s) _ _ _ _ _ _ va (ci_space _ _ Hi) Hgr).
  - intros p f [->|Hpp] Hwp; [done|]. simpl m_root. rewrite link_walk by done.
    rewrite decide_False; [done|]. intros ->. pose proof (gr_new _ _ _ _ _ _ _ Hgr) as Hnew.
    rewrite cpu_table in Hnew by (by eapply path_ok_ne). congruence.
  - change (free_frames (taken s r a') ⊆ free_frames s). rewrite Hf. set_solver.
  - apply link_owned.
Qed.

End link.

(** [fetch_table] on the entry that follows path [q]. *)
Lemma cpu_fetch D s (q : list Z) g i alloc user :
  cpu_inv D s → cpu_path D q → (length q ≤ 2)%nat → path_ok D (q ++ [i]) →
  walk (m_frames s) (m_root s) q = Some g →
  ∃ r s', fetch_table (lin_addr q i) alloc user s = Ret (r, s') ∧ cpu_inv D s' ∧ cpu_ext D s s' ∧
    (alloc = false → s' = s) ∧ (size (free_frames s) ≤ size (free_frames s') + 1)%nat ∧
    match r with
    | None => s' = s ∧ walk (m_frames s) (m_root s) (q ++ [i]) = None ∧
        (alloc = false ∨ free_frames s = ∅)
    | Some e => good e ∧ walk (m_frames s') (m_root s') (q ++ [i]) = Some (pte_pfn e)
    end.
Proof.
  intros Hi Hq Hlen Hp Hw.
  assert (index_ok i) as Hix.
  { destruct Hp as (_ & Hfa & _). apply Forall_app in Hfa as [_ [? _]%Forall_cons]. done. }
  destruct (lin_points D s q i g Hi Hq Hix Hw) as [Hget _].
  destruct (fetch_table_run (lin_addr q i) _ (λ e s1, set_frames (frame_update (m_frames s1) g i e) s1)
    alloc user s (ci_alloc _ _ Hi) Hget)
    as [(Hpr & Hrun)|[(Hnp & Hal & Hrun)|(Hnp & Hal & r & a' & Hr & Hfr & Hok & Hf & Hrg & Hg & Her & Hrun)]].
  - intros r a' e Hr Hok Hf _. exists (entry (m_frames (taken s r a')) g i).
    apply (lin_points D); [by apply taken_cpu_inv|done..|]. simpl m_root.
    by rewrite (taken_walk D).
  - exists (Some (entry (m_frames s) g i)), s. do 4 (split; [done|]). split; [lia|].
    assert (sub_table (entry (m_frames s) g i) = Some (pte_pfn (entry (m_frames s) g i))) as Hs.
    { unfold sub_table. cbn. by rewrite Hpr. }
    split; [by eapply (cpu_entry_good D s q)|]. rewrite walk_app, Hw. simpl. by rewrite Hs.
  - exists None, s. do 4 (split; [done|]). split; [lia|]. split; [done|]. split; [|done].
    rewrite walk_app, Hw. simpl. unfold sub_table. cbn. by rewrite Hnp.
  - exists (Some (mkpte r (table_flags user))), (linked s r a' g i (mkpte r (table_flags user))).
    split; [done|]. split; [by eapply link_inv|]. split; [by eapply link_ext|].
    split; [by rewrite Hal|]. split.
    { change (size (free_frames s) ≤ size (free_frames (taken s r a')) + 1)%nat. rewrite Hf.
      rewrite size_difference by set_solver. rewrite size_singleton. lia. }
    split; [done|]. simpl m_root. erewrite link_walk by done. rewrite decide_True by done. by rewrite Her.
Qed.

(** ** The walkers of the linear map *)

Lemma lin_addr_valid D (q : list Z) j : cpu_path D q → index_ok j → (lin_addr q j =? PTEP_INVALID) = false.
Proof.
  intros Hq Hj. apply Z.eqb_neq. intros He.
  destruct (lin_addr_parts D q j Hq Hj) as (_ & _ & _ & Hl & _). rewrite He in Hl.
  pose proof linoff_pos. change (L4OFF PTEP_INVALID) with 0 in Hl. lia.
Qed.

(** [reached s s' q p j]: the walk has ended at [p], the address of word [j] of
    the table at path [q], or has given up for want of a table. *)
Definition reached D (alloc : bool) s s' (q : list Z) (p j : Z) : Prop :=
  cpu_inv D s' ∧ cpu_ext D s s' ∧ (alloc = false → s' = s) ∧
  (size (free_frames s) ≤ size (free_frames s') + length q)%nat ∧
  ((p = PTEP_INVALID ∧ walk (m_frames s') (m_root s') q = None ∧
      (alloc = false ∨ free_frames s' = ∅ ∧ (size (free_frames s) < length q)%nat)) ∨
   (p = lin_addr q j ∧ ∃ f, walk (m_frames s') (m_root s') q = Some f)).

Lemma cpu_va_paths D va :
  D (L4OFF va) → path_ok D [L4OFF va] ∧ path_ok D [L4OFF va; L3OFF va] ∧
    path_ok D [L4OFF va; L3OFF va; L2OFF va].
Proof.
  intros Hd. pose proof (va_path D va Hd) as H3.
  destruct (path_ok_prefix D [L4OFF va; L3OFF va] (L2OFF va) H3) as (H2 & _); [done|].
  destruct (path_ok_prefix D [L4OFF va] (L3OFF va) H2) as (H1 & _); [done|]. done.
Qed.

Lemma linmap_get_l3p_run D s va alloc user :
  cpu_inv D s → D (L4OFF va) →
  ∃ p s', linmap_get_l3p va alloc user s = Ret (p, s') ∧ reached D alloc s s' [L4OFF va] p (L3OFF va).
Proof.
  intros Hi Hd. destruct (cpu_va_paths D va Hd) as (P1 & _). destruct (linmap_addrs va) as (A4 & A3 & _).
  unfold linmap_get_l3p. rewrite A4.
  destruct (cpu_fetch D s [] (m_root s) (L4OFF va) alloc user)
    as (r & s' & Hrun & Hi' & He & Hna & Hsz & Hr); [done|by left|simpl; lia|done|done|].
  mrun Hrun. destruct r as [e|].
  - destruct Hr as [Hg Hw]. destruct (good_checks e Hg) as (_ & Hres & _).
    rewrite bind_assert by (by rewrite Hres). rewrite A3.
    exists (lin_addr [L4OFF va] (L3OFF va)), s'. split; [done|]. split_and!; [done..|simpl in *; lia|]. right. eauto.
  - destruct Hr as (-> & Hw & Ha). exists PTEP_INVALID, s. split; [done|]. split_and!; [done..|lia|]. left.
    split; [done|]. split; [done|]. destruct Ha as [?|Ha]; [by left|right].
    rewrite Ha, size_empty. simpl. split; [done|lia].
Qed.

Lemma linmap_get_l2p_run D s va alloc user :
  cpu_inv D s → D (L4OFF va) →
  ∃ p s', linmap_get_l2p va alloc user s = Ret (p, s') ∧
    reached D alloc s s' [L4OFF va; L3OFF va] p (L2OFF va).
Proof.
  intros Hi Hd. destruct (cpu_va_paths D va Hd) as (P1 & P2 & _).
  destruct (linmap_addrs va) as (_ & _ & A2 & _). destruct (off_range va) as (_ & I3 & _).
  destruct (linmap_get_l3p_run D s va alloc user Hi Hd) as (p & s1 & Hrun & Hi1 & He1 & Hna1 & Hsz1 & Hr).
  unfold linmap_get_l2p. mrun Hrun. destruct Hr as [(-> & Hw & Ha)|(-> & f & Hw)].
  { exists PTEP_INVALID, s1. split; [done|]. split_and!; [done..|simpl in *; lia|]. left.
    split; [done|]. split; [|destruct Ha as [?|[? ?]]; [by left|right; simpl in *; split; [done|lia]]].
    change [L4OFF va; L3OFF va] with ([L4OFF va] ++ [L3OFF va]). by rewrite walk_app, Hw. }
  rewrite (lin_addr_valid D) by (done || by right).
  destruct (cpu_fetch D s1 [L4OFF va] f (L3OFF va) alloc user)
    as (r & s2 & Hrun2 & Hi2 & He2 & Hna2 & Hsz2 & Hr2); [done|by right|simpl; lia|done|done|].
  mrun Hrun2. assert (cpu_ext D s s2) by (by transitivity s1).
  assert (alloc = false → s2 = s) by (intros Ha; by rewrite Hna2, Hna1).
  destruct r as [e|].
  - destruct Hr2 as [Hg Hw2]. destruct (good_checks e Hg) as (_ & _ & Hbig & Hres & _).
    rewrite bind_assert by (by rewrite Hres). rewrite bind_assert by (by rewrite Hbig). rewrite A2.
    exists (lin_addr [L4OFF va; L3OFF va] (L2OFF va)), s2. split; [done|]. split_and!; [done..|simpl in *; lia|].
    right. eauto.
  - destruct Hr2 as (-> & Hw2 & Ha). exists PTEP_INVALID, s1. split; [done|].
    split_and!; [done..|simpl in *; lia|]. left. split; [done|]. split; [done|].
    destruct Ha as [?|Ha]; [by left|right]. rewrite Ha, size_empty in Hsz1. simpl in *. split; [done|lia].
Qed.

Lemma linmap_get_l1p_run D s va alloc user :
  cpu_inv D s → D (L4OFF va) →
  ∃ p s', linmap_get_l1p va alloc user s = Ret (p, s') ∧
    reached D alloc s s' [L4OFF va; L3OFF va; L2OFF va] p (L1OFF va).
Proof.
  intros Hi Hd. destruct (cpu_va_paths D va Hd) as (_ & P2 & P3).
  destruct (linmap_addrs va) as (_ & _ & _ & A1). destruct (off_range va) as (_ & _ & I2 & _).
  destruct (linmap_get_l2p_run D s va alloc user Hi Hd) as (p & s1 & Hrun & Hi1 & He1 & Hna1 & Hsz1 & Hr).
  unfold linmap_get_l1p. mrun Hrun. destruct Hr as [(-> & Hw & Ha)|(-> & f & Hw)].
  { exists PTEP_INVALID, s1. split; [done|]. split_and!; [done..|simpl in *; lia|]. left.
    split; [done|]. split; [|destruct Ha as [?|[? ?]]; [by left|right; simpl in *; split; [done|lia]]].
    change [L4OFF va; L3OFF va; L2OFF va] with ([L4OFF va; L3OFF va] ++ [L2OFF va]).
    by rewrite walk_app, Hw. }
  rewrite (lin_addr_valid D) by (done || by right).
  destruct (cpu_fetch D s1 [L4OFF va; L3OFF va] f (L2OFF va) alloc user)
    as (r & s2 & Hrun2 & Hi2 & He2 & Hna2 & Hsz2 & Hr2); [done|by right|simpl; lia|done|done|].
  mrun Hrun2. assert (cpu_ext D s s2) by (by transitivity s1).
  assert (alloc = false → s2 = s) by (intros Ha; by rewrite Hna2, Hna1).
  destruct r as [e|].
  - destruct Hr2 as [Hg Hw2]. destruct (good_checks e Hg) as (_ & _ & _ & _ & Hbig & Hres & _).
    rewrite bind_assert by (by rewrite Hres). rewrite bind_assert by (by rewrite Hbig). rewrite A1.
    exists (lin_addr [L4OFF va; L3OFF va; L2OFF va] (L1OFF va)), s2. split; [done|].
    split_and!; [done..|simpl in *; lia|]. right. eauto.
  - destruct Hr2 as (-> & Hw2 & Ha). exists PTEP_INVALID, s1. split; [done|].
    split_and!; [done..|simpl in *; lia|]. left. split; [done|]. split; [done|].
    destruct Ha as [?|Ha]; [by left|right]. rewrite Ha, size_empty in Hsz1. simpl in *. split; [done|lia].
Qed.

End linmap.
