(* ===== verification/Amd64.v ===== *)
(** The amd64 HAL as an implementation of the page table interface: the
    operations of libhal_x86/pmap.c over the walkers of pae64.c, and the
    contract that libnux/kmap.c is verified against. *)

From S2P Require Import Prelude Words Stree Locks Machine Pfnalloc Hal X86Pmap PageTable Pae64 Kmap.

Section pmap.
Context {CFG : Config} {LIN : Pae64Config}.
Context {A : Type} `{!PfnCache A, !PfnAllocator A}.

Definition amd64_kmap_getl1p (va : Z) (alloc : bool) : M (mach A) (bool * Z) :=
  if va <? pt_umap_maxaddr then mret (false, L1P_INVALID)
  else
    l1p ← kmap_get_l1p va alloc;
    mret (negb (l1p =? L1P_INVALID), l1p).

Definition amd64_umap_getl1p (umap : option Z) (uaddr : Z) (alloc : bool) : M (mach A) (bool * Z) :=
  if (pt_umap_maxaddr <=? uaddr) || (uaddr <? pt_umap_minaddr) then mret (false, L1P_INVALID)
  else
    l1p ← umap_get_l1p umap uaddr alloc;
    mret (negb (l1p =? L1P_INVALID), l1p).

Definition amd64_l1e_get (l1p : Z) : M (mach A) Z := get_pte l1p.
Definition amd64_l1e_set (l1p l1e : Z) : M (mach A) Z := set_pte l1p l1e.

(** [D]: the slots of the top level that hold the kernel's 4K mappings. *)
Definition amd64_kva (D : Z → Prop) (va : Z) : Prop := pt_umap_maxaddr ≤ va < 2 ^ 64 ∧ D (L4OFF va).

Definition amd64_ptr (D : Z → Prop) (s : mach A) (p va : Z) : Prop :=
  amd64_kva D va ∧ p = lin_addr [L4OFF va; L3OFF va; L2OFF va] (L1OFF va) ∧
  ∃ f, walk (m_frames s) (m_root s) [L4OFF va; L3OFF va; L2OFF va] = Some f.

Definition amd64_pmap (D : Z → Prop) (nx : bool) : HalPmap (mach A) := {|
  Kmap.hal_kmap_getl1p := amd64_kmap_getl1p;
  Kmap.hal_l1e_get := amd64_l1e_get;
  Kmap.hal_l1e_set := amd64_l1e_set;
  Kmap.hal_l1e_box := X86Pmap.hal_l1e_box (nx_value nx);
  Kmap.hal_l1e_unbox := X86Pmap.hal_l1e_unbox;
  Kmap.hal_l1e_tlbop := X86Pmap.hal_l1e_tlbop;
  pm_alloc := pfn_alloc;
  pm_free_page := pfn_free;
  pm_kva := amd64_kva D;
  pm_inv := cpu_inv D;
  pm_view s va := leaf (cpu_top s) (m_frames s) va;
  pm_ptr := amd64_ptr D;
  pm_free := free_frames;
  pm_page s f := m_frames s !! f;
  pm_owned := owned D;
|}.

End pmap.

Section laws.
Context {CFG : Config} {CFGOK : ConfigOk} {LIN : Pae64Config} {LINOK : Pae64ConfigOk}.
Context {A : Type} `{!PfnCache A, !PfnAllocator A, !PfnAllocatorLaws A}.
Context (D : Z → Prop) (nx : bool).
Implicit Types s : mach A.

Lemma kva_slot va : amd64_kva D va → D (L4OFF va).
Proof. by intros [_ ?]. Qed.

Lemma leaf_cpu s va :
  leaf (cpu_top s) (m_frames s) va =
    match walk (m_frames s) (m_root s) [L4OFF va; L3OFF va; L2OFF va] with
    | Some f => entry (m_frames s) f (L1OFF va)
    | None => 0
    end.
Proof. unfold leaf. by rewrite cpu_table. Qed.

(** ** Writing a last-level entry of the CPU's map *)

Section write.
Context (s : mach A) (va f e : Z) (Hi : cpu_inv D s) (Hd : D (L4OFF va)).
Context (Hw : walk (m_frames s) (m_root s) [L4OFF va; L3OFF va; L2OFF va] = Some f).

Definition written : mach A := set_frames (frame_update (m_frames s) f (L1OFF va) e) s.

Lemma write_table : table (cpu_top s) (m_frames s) [L4OFF va; L3OFF va; L2OFF va] = Some f.
Proof. by rewrite cpu_table. Qed.

Lemma write_frame : frame_ok (m_frames s) f ∧ f ≠ m_root s ∧ f ∉ free_frames s.
Proof.
  destruct (so_frame _ _ _ _ (ci_space _ _ Hi) _ f (va_path D va Hd) write_table) as [Hf Hn].
  split; [done|]. split; intros Hc; apply Hn; [by right|by left].
Qed.

Lemma write_top i : index_ok i → cpu_top written i = cpu_top s i.
Proof.
  intros Hix. destruct write_frame as (Hf & Hr & _). destruct (off_range va) as (_ & _ & _ & H1).
  unfold cpu_top. simpl. rewrite entry_update by done. rewrite decide_False; [done|]. by intros [? _].
Qed.

Lemma write_walk p : path_ok D p → walk (m_frames written) (m_root s) p = walk (m_frames s) (m_root s) p.
Proof.
  intros Hp. pose proof (path_ok_ne _ _ Hp). destruct (off_range va) as (_ & _ & _ & H1).
  rewrite <- (cpu_table s) by done. rewrite <- (cpu_table written) by done.
  rewrite (table_top_ext D (cpu_top s)); [|by intros; apply write_top|done].
  by apply (leaf_write_table D _ _ _ (ci_space _ _ Hi) _ _ _ _ (va_path D va Hd) eq_refl write_table).
Qed.

Lemma write_inv : cpu_inv D written.
Proof.
  destruct write_frame as (Hf & Hr & Hfr). destruct (off_range va) as (_ & _ & _ & H1).
  destruct (ci_alloc _ _ Hi) as [A1 A2 A3 A4]. split.
  - split; [done| |done|done]. intros g Hg. by apply frame_update_ok, A2.
  - apply (space_ok_top_ext D _ (cpu_top s)); [by apply Hi|by intros; apply write_top|].
    by apply (leaf_write_ok D _ _ _ (ci_space _ _ Hi) _ _ _ _ (va_path D va Hd) eq_refl write_table).
  - by apply frame_update_ok, (ci_root _ _ Hi).
  - by apply (ci_root_used _ _ Hi).
  - rewrite write_top by apply linoff_ok. by apply Hi.
  - by apply Hi.
  - by apply Hi.
Qed.

Lemma write_leaf va' :
  D (L4OFF va') → leaf (cpu_top written) (m_frames written) va' =
    if decide (same_page va va') then e else leaf (cpu_top s) (m_frames s) va'.
Proof.
  intros Hd'. rewrite (leaf_top_ext D (cpu_top s)); [|by intros; apply write_top|done].
  by apply (leaf_write_leaf D (not_tables s)); [apply Hi|..|apply write_table].
Qed.

Lemma write_owned g : owned D s g → owned D written g ∧ m_frames written !! g = m_frames s !! g.
Proof.
  intros [Hu Hfr Hra Hro Ht].
  assert (g ≠ f) as Hne by (intros ->; by destruct (Ht _ (va_path D va Hd))).
  split; [split; try done|].
  - by apply frame_update_ok.
  - intros p Hp. simpl m_root. rewrite write_walk by done. by apply Ht.
  - simpl. unfold frame_update. by rewrite lookup_alter_ne.
Qed.

End write.

(** ** Taking and returning frames *)

Lemma taken_leaf s r a' va :
  cpu_inv D s → r ∈ free_frames s → D (L4OFF va) →
  leaf (cpu_top (taken s r a')) (m_frames (taken s r a')) va = leaf (cpu_top s) (m_frames s) va.
Proof.
  intros Hi Hr Hd. rewrite !leaf_cpu. simpl m_root. rewrite (taken_walk D) by (done || right; by apply va_path).
  destruct (walk _ _ _) as [f|] eqn:E; [|done]. destruct (off_range va) as (_ & _ & _ & H1).
  simpl. rewrite entry_zero by done. rewrite decide_False; [done|]. intros <-.
  destruct (write_frame s va r Hi Hd E) as (_ & _ & ?). done.
Qed.

Lemma taken_owned s r a' :
  cpu_inv D s → r ∈ free_frames s → free_frames (taken s r a') = free_frames s ∖ {[r]} →
  (∀ f, al_range a' f ↔ al_range (m_alloc s) f) →
  owned D (taken s r a') r ∧
  ∀ f, owned D s f → owned D (taken s r a') f ∧ m_frames (taken s r a') !! f = m_frames s !! f.
Proof.
  intros Hi Hr Hf Hrg. pose proof (ao_frames _ (ci_alloc _ _ Hi) r Hr) as Hfr.
  assert (∀ p, path_ok D p → walk (m_frames (taken s r a')) (m_root s) p =
    walk (m_frames s) (m_root s) p) as Hw by (intros; apply (taken_walk D); [done..|by right]).
  assert (∀ f, f ∉ free_frames (taken s r a') → frame_ok (m_frames s) f → al_range (m_alloc s) f →
    f ≠ m_root s → (∀ p, path_ok D p → walk (m_frames s) (m_root s) p ≠ Some f) →
    owned D (taken s r a') f) as Hmk.
  { intros f H1 H2 H3 H4 H5. split; [done| | |done|].
    - apply frame_zero_ok; [by destruct Hfr|done].
    - by apply Hrg.
    - intros p Hp. simpl m_root. rewrite Hw by done. by apply H5. }
  split.
  - apply Hmk; [set_solver|done| |by eapply root_not_free|].
    + apply al_free_range; [by apply Hi|done].
    + intros p Hp Hc. rewrite <- cpu_table in Hc by (by eapply path_ok_ne).
      destruct (so_frame _ _ _ _ (ci_space _ _ Hi) p r Hp Hc) as [_ Hn]. apply Hn. by left.
  - intros f [H1 H2 H3 H4 H5]. split; [apply Hmk; [set_solver|done..]|].
    simpl. rewrite lookup_insert_ne; [done|]. intros <-. done.
Qed.

Lemma freed_inv s f a' n :
  cpu_inv D s → owned D s f → let s' := set_free_pages n (set_alloc a' s) in
  alloc_ok s' → al_free a' = {[f]} ∪ free_frames s → cpu_inv D s'.
Proof.
  intros Hi Ho s' Hok Hf. assert (free_frames s' = {[f]} ∪ free_frames s) as Hf' by exact Hf.
  destruct Hi as [_ [S1 S2 S3 S4] Hr Hru Hs Hk Hsl]. split; [done| |done| |done|done|done].
  - split; [|done..]. intros p g Hp Hg. destruct (S1 p g Hp Hg) as [Hfr Hn]. split; [done|].
    intros [Hc|Hc]; [|by apply Hn; right]. rewrite Hf' in Hc.
    apply elem_of_union in Hc as [->%elem_of_singleton|Hc]; [|by apply Hn; left].
    rewrite cpu_table in Hg by (by eapply path_ok_ne). by destruct (ow_table _ _ _ Ho p Hp).
  - rewrite Hf'. simpl. pose proof (ow_root _ _ _ Ho). set_solver.
Qed.

Lemma freed_owned s f a' n g :
  g ≠ f → owned D s g → let s' := set_free_pages n (set_alloc a' s) in
  al_free a' = {[f]} ∪ free_frames s → (∀ x, al_range a' x ↔ al_range (m_alloc s) x) → owned D s' g.
Proof.
  intros Hne [H1 H2 H3 H4 H5] s' Hf Hrg. split; [|done| |done|done].
  - change (g ∉ al_free a'). rewrite Hf. set_solver.
  - by apply Hrg.
Qed.

Lemma amd64_pmap_laws : @HalPmapLaws (mach A) (amd64_pmap D nx).
Proof.
  split.
  - (* getl1p *)
    intros va alloc s Hi [Hva Hd]. cbn. unfold amd64_kmap_getl1p, kmap_get_l1p.
    rewrite (proj2 (Z.ltb_ge _ _)) by lia.
    destruct (linmap_get_l1p_run D s va alloc false Hi Hd) as (p & s' & Hr & Hi' & He & Hna & Hsz & Hres).
    mrun Hr. destruct Hres as [(-> & Hw & Ha)|(-> & f & Hw)].
    + exists false, L1P_INVALID, s'. split; [done|]. split_and!; [done| |done|by apply He|done|by apply He|done| |done].
      * intros va' [_ Hd']. by apply (ce_leaf _ _ _ He).
      * by rewrite leaf_cpu, Hw.
    + destruct (off_range va) as (_ & _ & _ & H1).
      rewrite (lin_addr_valid D) by (done || right; by apply va_path).
      exists true. eexists _, s'. split; [done|]. split_and!; [done| |done|by apply He|done|by apply He|].
      * intros va' [_ Hd']. by apply (ce_leaf _ _ _ He).
      * split; [done|]. eauto.
  - (* getl1p with a table *)
    intros s p va Hi [Hva Hd] (_ & -> & f & Hf). cbn. unfold amd64_kmap_getl1p, kmap_get_l1p.
    rewrite (proj2 (Z.ltb_ge _ _)) by lia.
    destruct (linmap_get_l1p_run D s va false false Hi Hd) as (p & s' & Hr & _ & _ & Hna & _ & Hres).
    rewrite Hna in Hr, Hres by done. mrun Hr. destruct Hres as [(-> & Hw & _)|(-> & _)]; [congruence|].
    destruct (off_range va) as (_ & _ & _ & H1).
    by rewrite (lin_addr_valid D) by (done || right; by apply va_path).
  - (* valid pointer *)
    intros s p va ([_ Hd] & -> & _). destruct (off_range va) as (_ & _ & _ & H1).
    apply Z.eqb_neq. apply (lin_addr_valid D); [right; by apply va_path|done].
  - (* get *)
    intros s p va Hi ([_ Hd] & -> & f & Hf). destruct (off_range va) as (_ & _ & _ & H1).
    destruct (lin_points D s [L4OFF va; L3OFF va; L2OFF va] (L1OFF va) f) as [Hget _];
      [done|right; by apply va_path|done|done|].
    etrans; [exact Hget|]. cbn [pm_view amd64_pmap]. by rewrite leaf_cpu, Hf.
  - (* set *)
    intros s p va e Hi _ ([_ Hd] & -> & f & Hf). destruct (off_range va) as (_ & _ & _ & H1).
    destruct (lin_points D s [L4OFF va; L3OFF va; L2OFF va] (L1OFF va) f) as [_ Hset];
      [done|right; by apply va_path|done|done|].
    exists (written s va f e). split_and!.
    + etrans; [exact (Hset e)|]. cbn [pm_view amd64_pmap]. by rewrite leaf_cpu, Hf.
    + by apply write_inv.
    + intros va' [_ Hd']. by apply write_leaf.
    + done.
    + intros g Hg. by apply write_owned.
    + intros q va' (Hk & -> & f' & Hf'). split; [done|]. split; [done|]. exists f'. simpl m_root.
      rewrite write_walk; [done..|]. apply va_path. by destruct Hk.
  - (* alloc *)
    intros s low Hi. destruct (pfn_alloc_run low s (ci_alloc _ _ Hi)) as [?|(r & a' & Hr & Hrun & Hok & Hf & Hrg)];
      [by left|right].
    assert (free_frames (taken s r a') = free_frames s ∖ {[r]}) as Hf' by exact Hf.
    destruct (taken_owned s r a' Hi Hr Hf' Hrg) as [Ho Hoo].
    exists r, (taken s r a'). split_and!; [done| |done|by apply taken_cpu_inv| |done|done| | |done].
    + apply pfn_valid, (ao_frames _ (ci_alloc _ _ Hi) r Hr).
    + intros va [_ Hd]. by apply taken_leaf.
    + simpl. by rewrite lookup_insert_eq.
    + intros p va (Hk & -> & f & Hw). split; [done|]. split; [done|]. exists f. simpl m_root.
      rewrite (taken_walk D); [done..|]. right. apply va_path. by destruct Hk.
  - (* free *)
    intros s f Hi Ho. destruct (pfn_free_run f s (ci_alloc _ _ Hi)) as (a' & Hrun & Hok & Hf & Hrg); [by apply Ho..|].
    eexists. split; [exact Hrun|]. split_and!; [by eapply freed_inv|done|done|done|].
    intros g Hne Hg. split; [by eapply freed_owned|done].
  - done.
  - (* unbox of a boxed frame *)
    intros pfn prot Hpfn Hprot. cbn. destruct (box_flags_facts nx prot Hprot) as (_ & Hz & _).
    rewrite box_split by done. by apply l1epfn_split.
  - (* unbox of a boxed present bit *)
    intros pfn prot _. cbn. by rewrite unbox_present, box_present.
  - (* tlbop *)
    intros old new Hp. cbn in *. rewrite unbox_present in Hp. unfold X86Pmap.hal_l1e_tlbop.
    assert (has (l1eflags old) PTE_P = true) as ->.
    { unfold has, l1eflags in *. by rewrite <- Z.land_assoc. }
    rewrite orb_true_r. simpl. case_bool; auto.
  - (* bound *)
    intros s f Hi Hf. pose proof (ao_frames _ (ci_alloc _ _ Hi) f Hf) as [Hfd _].
    destruct (pfn_valid f Hfd). pose proof dmap_48. lia.
Qed.

End laws.

(** * What the hardware sees *)

Definition translate_leaf (e : Z) : option Z :=
  if pte_present e && negb (l1e_reserved e) then Some (pte_pfn e) else None.

Section hardware.
Context {CFG : Config} {CFGOK : ConfigOk} {LIN : Pae64Config} {LINOK : Pae64ConfigOk}.
Context {A : Type} `{!PfnCache A, !PfnAllocator A, !PfnAllocatorLaws A}.
Context (D : Z → Prop).
Implicit Types s : mach A.

Lemma sub_table_present e : pte_present e = true → sub_table e = Some (pte_pfn e).
Proof. intros Hp. unfold sub_table. cbn. by rewrite Hp. Qed.

Lemma sub_table_absent e : pte_present e = false → sub_table e = None.
Proof. intros Hp. unfold sub_table. cbn. by rewrite Hp. Qed.

(** Below the slots of the invariant the CPU's translation is a function of the
    last-level entry. *)
Lemma mmu_leaf s va :
  cpu_inv D s → D (L4OFF va) → canonical va = true →
  mmu (m_frames s) (m_root s) va = translate_leaf (leaf (cpu_top s) (m_frames s) va).
Proof.
  intros Hi Hd Hc. destruct (cpu_va_paths D va Hd) as (P1 & P2 & P3). rewrite leaf_cpu.
  unfold mmu. rewrite Hc. cbn [negb]. set (fs := m_frames s). set (root := m_root s).
  cbn [walk]. set (e4 := entry fs root (L4OFF va)).
  destruct (pte_present e4) eqn:E4; [|by rewrite (sub_table_absent e4)].
  rewrite (sub_table_present e4 E4). cbn [mbind option_bind].
  assert (good e4) as G4.
  { eapply (cpu_entry_good D s []); [done|done|done|]. by apply sub_table_present. }
  destruct (good_checks e4 G4) as (_ & -> & _). cbn [negb orb].
  set (e3 := entry fs (pte_pfn e4) (L3OFF va)).
  destruct (pte_present e3) eqn:E3; [|by rewrite (sub_table_absent e3)].
  rewrite (sub_table_present e3 E3). cbn [mbind option_bind].
  assert (good e3) as G3.
  { eapply (cpu_entry_good D s [L4OFF va]); [done|done| |by apply sub_table_present].
    cbn [walk]. fold fs root e4. by rewrite (sub_table_present e4 E4). }
  destruct (good_checks e3 G3) as (_ & _ & -> & -> & _). cbn [negb orb].
  set (e2 := entry fs (pte_pfn e3) (L2OFF va)).
  destruct (pte_present e2) eqn:E2; [|by rewrite (sub_table_absent e2)].
  rewrite (sub_table_present e2 E2). cbn [mbind option_bind].
  assert (good e2) as G2.
  { eapply (cpu_entry_good D s [L4OFF va; L3OFF va]); [done|done| |by apply sub_table_present].
    cbn [walk]. fold fs root e4. rewrite (sub_table_present e4 E4). cbn [mbind option_bind].
    fold e3. by rewrite (sub_table_present e3 E3). }
  destruct (good_checks e2 G2) as (_ & _ & _ & _ & -> & -> & _). cbn [negb orb].
  unfold translate_leaf. destruct (pte_present (entry fs (pte_pfn e2) _)); [|done]. by destruct (l1e_reserved _).
Qed.

End hardware.

(** A boxed entry translates to its frame. *)
Lemma box_no_reserved :
  Forall (λ prot, Forall (λ nx,
    Z.land (box_flags (nx_value nx) prot) L1_RESPT = 0 ∧
    Z.land (box_flags (nx_value nx) prot) 0x7ffffffffffff000 = 0) [true; false]) (seqZ 0 1024).
Proof. apply (bool_decide_unpack _). vm_compute. done. Qed.

Lemma translate_box nx pfn prot :
  0 ≤ pfn < 2 ^ 36 → 0 ≤ prot < 1024 → has prot HAL_PTE_P = true →
  translate_leaf (X86Pmap.hal_l1e_box (nx_value nx) pfn prot) = Some pfn.
Proof.
  intros Hpfn Hprot Hp. unfold translate_leaf, pte_present. rewrite box_present, Hp.
  pose proof box_no_reserved as Hc. rewrite Forall_seqZ in Hc. specialize (Hc prot ltac:(lia)).
  rewrite !Forall_cons in Hc.
  assert (Z.land (box_flags (nx_value nx) prot) L1_RESPT = 0 ∧
    Z.land (box_flags (nx_value nx) prot) 0x7ffffffffffff000 = 0) as [Hr Hz]
    by (destruct nx; tauto).
  rewrite box_split by lia.
  assert (l1e_reserved (Z.lor (Z.shiftl pfn 12) (box_flags (nx_value nx) prot)) = false) as ->.
  { unfold l1e_reserved, has. apply negb_false_iff, Z.eqb_eq. rewrite Z.land_lor_distr_l, Hr, Z.lor_0_r.
    apply Z.bits_inj'. intros i Hi. rewrite Z.land_spec, Z.bits_0.
    destruct (Z.lt_ge_cases i 48) as [Hlt|Hge].
    - assert (Forall (λ i, Z.testbit L1_RESPT i = false) (seqZ 0 48)) as Hc2
        by (apply (bool_decide_unpack _); vm_compute; done).
      rewrite Forall_seqZ in Hc2. rewrite Hc2 by lia. apply andb_false_r.
    - rewrite (testbit_above _ 48 i); [done| |done]. rewrite Z.shiftl_mul_pow2 by lia. lia. }
  simpl. f_equal. rewrite <- (l1epfn_split pfn (box_flags (nx_value nx) prot)) at 2 by (done || lia).
  unfold pte_pfn, l1epfn. change (2 ^ 64 - 1 - PTE_NX) with 0x7fffffffffffffff.
  apply Z.bits_inj'. intros i Hi. rewrite !Z.shiftr_spec, !Z.land_spec by done. f_equal.
  change 0x7fffffffffffffff with (Z.ones 63). change 0x7ffffffffffff000 with (Z.shiftl (Z.ones 51) 12).
  unfold PAGE_SHIFT. rewrite Z.shiftl_spec by lia. replace (i + 12 - 12) with i by lia.
  destruct (Z.lt_ge_cases i 51).
  - rewrite !Z.ones_spec_low by lia. done.
  - rewrite !Z.ones_spec_high by lia. done.
Qed.

(** * Properties *)

(** C9. On amd64, [kmap_map] changes what the CPU translates, and only at its
    page: after the call the CPU's walk of the tables takes the page's address
    to the frame, and takes every other address of the kernel map where it took
    it before; the call can only fail to return when the page had no mapping
    and fewer than three frames are free. *)
Theorem amd64_kmap_map_translates `{!Config} (Hcfg : ConfigOk) `{!Pae64Config} (Hlin : Pae64ConfigOk)
    {A : Type} `{!PfnCache A, !PfnAllocator A} (Hlaws : PfnAllocatorLaws A)
    (D : Z → Prop) (nx : bool) (va pfn prot : Z) (k : kst (mach A))
    (Hi : cpu_inv D (k_mach k)) (Hv : amd64_kva D va) (Hc : canonical va = true)
    (Hpfn : 0 ≤ pfn < 2 ^ 36) (Hprot : 0 ≤ prot < 1024) (Hp : has prot HAL_PTE_P = true) :
  let tr (k : kst (mach A)) := mmu (m_frames (k_mach k)) (m_root (k_mach k)) in
  (∃ old k', kmap_map (HalPmap0 := amd64_pmap D nx) va pfn prot k = Ret (old, k') ∧
     cpu_inv D (k_mach k') ∧ tr k' va = Some pfn ∧
     ∀ va', amd64_kva D va' → canonical va' = true → ¬ same_page va va' → tr k' va' = tr k va') ∨
  (kmap_map (HalPmap0 := amd64_pmap D nx) va pfn prot k = Abort AssertFail ∧
     tr k va = None ∧ (size (free_frames (k_mach k)) < 3)%nat).
Proof.
  intros tr. pose proof (amd64_pmap_laws D nx) as Hl. unfold kmap_map.
  destruct (@kmap_map_run _ (amd64_pmap D nx) Hl va pfn prot true k Hi Hv)
    as [(s' & Hr & Hi' & Hs & _)|(Hr & Hz & Hsz)].
  - change (∀ va', amd64_kva D va' → leaf (cpu_top s') (m_frames s') va' =
      if decide (same_page va va') then X86Pmap.hal_l1e_box (nx_value nx) pfn prot
      else leaf (cpu_top (k_mach k)) (m_frames (k_mach k)) va') in Hs.
    left. eexists _, _. split; [exact Hr|]. split; [done|]. unfold tr. cbn [k_mach]. split.
    + rewrite (mmu_leaf D) by (done || apply Hv). rewrite (Hs va Hv).
      rewrite decide_True by done. by apply translate_box.
    + intros va' Hv' Hc' Hne. rewrite !(mmu_leaf D) by (done || apply Hv').
      rewrite (Hs va' Hv'). by rewrite decide_False.
  - right. split; [done|]. split; [|by apply Hsz]. unfold tr. rewrite (mmu_leaf D) by (done || apply Hv).
    change (leaf (cpu_top (k_mach k)) (m_frames (k_mach k)) va = 0) in Hz. by rewrite Hz.
Qed.

(** * A small machine, for evaluation

    The root table is frame 0 and maps itself at slot 508; four frames are free;
    the kernel maps below slot 511. *)

#[local] Existing Instance ex_config.
#[local] Existing Instance ex_nocache.
#[local] Existing Instance ex_config_ok.

Definition ex64_config : Pae64Config := {| linaddr := 0xfffffe0000000000 |}.
#[local] Existing Instance ex64_config.

Definition ex64_root : list Z := <[508%nat := mkpte 0 3]> zero_page.
Definition ex64_slots (i : Z) : Prop := i = 511.

Definition ex64 : mach pfa :=
  Mach {[0 := ex64_root; 1 := ex_page; 2 := ex_page; 3 := ex_page; 4 := ex_page]} ∅ 0 4 rwlock_init
    (Pfa [30] 3 false).

Definition ex64_k : kst (mach pfa) := Kst ex64 (Ktlb 0 0).

Lemma ex64_config_ok : Pae64ConfigOk.
Proof.
  split; [done|done| |done]. intros p. unfold in_dmap, dmap_frame. rewrite page_size_eq. cbn.
  rewrite andb_true_iff, Z.leb_le, Z.ltb_lt. intros [Hl Hu] He.
  change (linoff) with 508 in He. unfold L4OFF in He.
  change 0x1ff with (Z.ones 9) in He. rewrite Z.land_ones, Z.shiftr_div_pow2 in He by lia.
  Z.div_mod_to_equations. lia.
Qed.
#[local] Existing Instance ex64_config_ok.

Lemma ex64_free : free_frames ex64 = {[1; 2; 3; 4]}.
Proof. apply ex_free4. Qed.

Lemma ex64_alloc_ok : alloc_ok ex64.
Proof. apply ex_alloc4_ok. by intros f [->|[->|[->| ->]]]. Qed.

Lemma ex64_inv : cpu_inv ex64_slots ex64.
Proof.
  assert (∀ p, path_ok ex64_slots p → table (cpu_top ex64) (m_frames ex64) p = None) as Ht.
  { intros p ((i & p' & -> & ->) & _). cbn [table]. by vm_compute. }
  split.
  - apply ex64_alloc_ok.
  - split.
    + intros p f Hp. by rewrite Ht.
    + intros p q f Hp Hq. by rewrite Ht.
    + intros i ->. by vm_compute.
    + intros p f i Hp _ _. by rewrite Ht.
  - split; [done|]. by exists ex64_root.
  - rewrite ex64_free. simpl. set_solver.
  - split; [|done]. by split.
  - intros p. cbn. intros [? [=]].
  - intros i ->. split; [done|]. by vm_compute.
Qed.

Definition ex64_va : Z := 0xffffff8000123000.
Definition ex64_pmap : HalPmap (mach pfa) := amd64_pmap ex64_slots true.
#[local] Existing Instance ex64_pmap.

Lemma ex64_laws : HalPmapLaws (mach pfa).
Proof. apply amd64_pmap_laws. Qed.

Lemma ex64_kva : amd64_kva ex64_slots ex64_va.
Proof. vm_compute. done. Qed.

Lemma ex64_size : size (free_frames ex64) = 4%nat.
Proof. rewrite ex64_free. done. Qed.

Lemma kmap_map_correct_witness :
  ∃ old k', kmap_map ex64_va 6 3 ex64_k = Ret (old, k') ∧ kmap_getpfn ex64_va k' = Ret (6, k').
Proof.
  destruct (kmap_map_correct ex64_laws ex64_va 6 3 ex64_k ex64_inv ex64_kva)
    as [(old & k' & Hr & _ & _ & Hg & _)|(_ & _ & Hsz)]; [done..|exists old, k'; split; [exact Hr|exact Hg]|].
  exfalso. change (size (free_frames ex64) < 3)%nat in Hsz. rewrite ex64_size in Hsz. lia.
Defined.

Lemma kmap_unmap_correct_witness :
  ∃ old k', kmap_unmap ex64_va ex64_k = Ret (old, k') ∧ kmap_getpfn ex64_va k' = Ret (PFN_INVALID, k').
Proof.
  destruct (kmap_unmap_correct ex64_laws ex64_va ex64_k ex64_inv ex64_kva)
    as (old & k' & Hr & _ & _ & Hg & _). exists old, k'. split; [exact Hr|exact Hg].
Defined.

Lemma kmap_ensure_range_correct_witness :
  ∃ k', kmap_ensure_range 2 ex64_va 0x800 3 ex64_k = Ret (0, k') ∧
    is_present (pm_view (k_mach k') ex64_va).
Proof.
  destruct (kmap_ensure_range_correct ex64_laws ex64_va 0x800 3 1 2 ex64_k ex64_inv)
    as [(k' & Hr & _ & Hp)|[(k' & _ & _ & _ & Hsz)|[_ Hsz]]]; [done..|lia| |done|done| | |].
  - intros j Hj. assert (j = 0) as -> by lia. exact ex64_kva.
  - exists k'. split; [exact Hr|]. exact (Hp 0 ltac:(lia)).
  - exfalso. change (size (free_frames ex64) < 4)%nat in Hsz. rewrite ex64_size in Hsz. lia.
  - exfalso. change (size (free_frames ex64) < 4)%nat in Hsz. rewrite ex64_size in Hsz. lia.
Defined.

Lemma ex64_mapped : ∃ old k1, kmap_map ex64_va 6 3 ex64_k = Ret (old, k1).
Proof.
  destruct (@kmap_map_run _ _ ex64_laws ex64_va 6 3 true ex64_k ex64_inv ex64_kva) as [(s' & Hr & _)|(_ & _ & Hsz)].
  - eexists _, _. exact Hr.
  - specialize (Hsz eq_refl). change (size (free_frames ex64) < 3)%nat in Hsz. rewrite ex64_size in Hsz. lia.
Qed.

Lemma kmap_mapped_after_unmap_witness :
  ∃ k2, kmap_getpfn ex64_va k2 = Ret (PFN_INVALID, k2) ∧ kmap_mapped ex64_va k2 = Ret (true, k2).
Proof.
  destruct ex64_mapped as (old & k1 & Hr).
  destruct (kmap_mapped_after_unmap ex64_laws ex64_va 6 3 old ex64_k k1 ex64_inv ex64_kva Hr)
    as (old' & k2 & _ & Hg & Hm). exists k2. split; [exact Hg|exact Hm].
Defined.

Lemma amd64_kmap_map_translates_witness :
  ∃ old k', kmap_map ex64_va 6 3 ex64_k = Ret (old, k') ∧
    mmu (m_frames (k_mach k')) (m_root (k_mach k')) ex64_va = Some 6.
Proof.
  destruct (amd64_kmap_map_translates ex_config_ok ex64_config_ok stree_allocator_laws ex64_slots true
    ex64_va 6 3 ex64_k ex64_inv ex64_kva) as [(old & k' & Hr & _ & Ht & _)|(_ & _ & Hsz)]; [done..| |].
  - exists old, k'. split; [exact Hr|exact Ht].
  - exfalso. change (size (free_frames ex64) < 3)%nat in Hsz. rewrite ex64_size in Hsz. lia.
Defined.

(** C11. The amd64 page tables implement the contract the kernel map is verified
    against: looking an entry up through the recursive slot of the top level,
    reading and replacing it, and allocating and freeing frames behave as the
    map from pages to entries that the contract describes, tables that the
    lookup adds never change a mapping or the contents of a frame in use, and
    boxed entries unbox to what was boxed. *)
Theorem amd64_refines_pmap `{!Config} (Hcfg : ConfigOk) `{!Pae64Config} (Hlin : Pae64ConfigOk)
    {A : Type} `{!PfnCache A, !PfnAllocator A} (Hlaws : PfnAllocatorLaws A) (D : Z → Prop) (nx : bool) :
  @HalPmapLaws (mach A) (amd64_pmap D nx).
Proof. apply amd64_pmap_laws. Qed.

Lemma amd64_refines_pmap_witness : @HalPmapLaws (mach pfa) ex64_pmap.
Proof. exact (amd64_refines_pmap ex_config_ok ex64_config_ok stree_allocator_laws ex64_slots true). Defined.
