(* ===== verification/HeapAmd64.v ===== *)
(** The kernel heap over the amd64 page tables. *)

From S2P Require Import Prelude Words Stree Locks Machine Pfnalloc Hal X86Pmap PageTable Kmap Pae64 Amd64 Zone Kmem KmemInv KmemOps HeapMap.

Section laws.
Context {CFG : Config} {CFGOK : ConfigOk} {LIN : Pae64Config} {LINOK : Pae64ConfigOk}.
Context {A : Type} `{!PfnCache A, !PfnAllocator A, !PfnAllocatorLaws A}.
Context (D : Z → Prop) (nx : bool).

Lemma amd64_mem_laws : @HalMemLaws (mach A) (amd64_pmap D nx) mach_mem.
Proof.
  split.
  - intros s f _ Ho. by apply frame_page, Ho.
  - intros s f _ Ho. destruct (ow_frame _ _ _ Ho) as [Hd _]. destruct (pfn_valid f Hd). pose proof dmap_48. lia.
  - intros s f _ Ho. by apply Ho.
  - intros pfn prot Hpfn Hprot Hp. cbn. destruct (X86Pmap.box_flags_facts nx prot Hprot) as (Hu & _).
    rewrite X86Pmap.box_split, X86Pmap.unbox_prot_split by done. rewrite Hu.
    unfold boxed_prot. rewrite Hp. destruct nx; [done|]. unfold has. rewrite Z.land_lor_distr_l. by rewrite Z.lor_0_r.
  - intros s f i v Hi Ho Hix s'. cbn in Hi, Ho. destruct Ho as [H1 H2 H3 H4 H5]. destruct (frame_page s f H2) as (l & Hl & _).
    assert (∀ p, path_ok D p → table (cpu_top s) (m_frames s) p ≠ Some f) as Ht by (intros p Hp; rewrite cpu_table by (by eapply path_ok_ne); by apply H5).
    assert (∀ j, cpu_top s' j = cpu_top s j) as Htop by (intros j; unfold cpu_top; cbn; by rewrite entry_other).
    assert (∀ p, path_ok D p → walk (m_frames s') (m_root s) p = walk (m_frames s) (m_root s) p) as Hw.
    { intros p Hp. pose proof (path_ok_ne _ _ Hp). rewrite <- (cpu_table s), <- (cpu_table s') by done.
      rewrite (table_top_ext D (cpu_top s)); [|by intros; apply Htop|done].
      by apply (data_write_table D). }
    pose proof Hi as [[A1 A2 A3 A4] C2 C3 C4 C5 C6 C7]. split_and!.
    + split; [split; [done|intros g Hg; by apply frame_update_ok, A2|done|done]| | |done| |done|done].
      * apply (space_ok_top_ext D _ (cpu_top s)); [by apply C7|by intros; apply Htop|]. by apply data_write_ok.
      * by apply frame_update_ok.
      * by rewrite Htop.
    + intros va [_ Hd]. cbn. rewrite (leaf_top_ext D (cpu_top s)); [|by intros; apply Htop|done]. by apply (data_write_leaf D).
    + done.
    + intros g [G1 G2 G3 G4 G5]. split; [done|by apply frame_update_ok|done|done|]. intros p Hp. cbn. rewrite Hw by done. by apply G5.
    + by apply (store_page s f i v l).
    + by apply (store_page s f i v l).
Qed.

End laws.

(** * What the CPU translates *)

Lemma off_page a : 0 ≤ a → L4OFF (page_of a) = L4OFF a ∧ L3OFF (page_of a) = L3OFF a ∧ L2OFF (page_of a) = L2OFF a ∧ L1OFF (page_of a) = L1OFF a.
Proof.
  intros Ha. assert (∀ n, 12 ≤ n → Z.shiftr (page_of a) n = Z.shiftr a n) as Hs.
  { intros n Hn. unfold page_of. rewrite !Z.shiftr_div_pow2 by lia. replace n with (12 + (n - 12)) by lia.
    rewrite Z.pow_add_r by lia. change (2 ^ 12) with 4096.
    rewrite <- !Z.div_div by lia. by rewrite (Z.mul_comm 4096), Z.div_mul by lia. }
  unfold L4OFF, L3OFF, L2OFF, L1OFF. by rewrite !Hs by lia.
Qed.

Section backed.
Context {CFG : Config} {CFGOK : ConfigOk} {LIN : Pae64Config} {LINOK : Pae64ConfigOk}.
Context {A : Type} `{!PfnCache A, !PfnAllocator A, !PfnAllocatorLaws A}.
Context (D : Z → Prop) (nx : bool) (hbase hsize : Z).
Context (Hkva : ∀ va, heap_page hbase hsize va → amd64_kva D va).

Lemma heap_mmu (k : kst (mach A)) a f :
  map_ok (HalPmap0 := amd64_pmap D nx) hbase hsize k → heap_page hbase hsize (page_of a) → 0 ≤ a → canonical a = true →
  frame_at (HalPmap0 := amd64_pmap D nx) k a = Some f → owned D (k_mach k) f ∧ mmu (m_frames (k_mach k)) (m_root (k_mach k)) a = Some f.
Proof.
  intros Hok Hp Ha Hc Hf. destruct (off_page a Ha) as (H4 & H3 & H2 & H1).
  assert (frame_at (HalPmap0 := amd64_pmap D nx) k (page_of a) = Some f) as Hf' by (by rewrite frame_at_page).
  destruct (mo_frame _ _ _ Hok _ _ Hp Hf') as [Ho Hb]. cbn in Ho, Hb. split; [done|].
  rewrite (mmu_leaf D); [|apply (mo_inv _ _ _ Hok)|rewrite <- H4; by apply Hkva|done].
  assert (leaf (cpu_top (k_mach k)) (m_frames (k_mach k)) a = leaf (cpu_top (k_mach k)) (m_frames (k_mach k)) (page_of a)) as ->
    by (unfold leaf; by rewrite H4, H3, H2, H1).
  rewrite Hb. apply translate_box; [|done|done]. destruct (ow_frame _ _ _ Ho) as [Hd _]. pose proof dmap_48. lia.
Qed.

Lemma heap_mmu_frame (k : kst (mach A)) a f :
  map_ok (HalPmap0 := amd64_pmap D nx) hbase hsize k → heap_page hbase hsize (page_of a) → 0 ≤ a → canonical a = true →
  mmu (m_frames (k_mach k)) (m_root (k_mach k)) a = Some f → frame_at (HalPmap0 := amd64_pmap D nx) k a = Some f.
Proof.
  intros Hok Hp Ha Hc Hm. destruct (frame_at (HalPmap0 := amd64_pmap D nx) k a) as [g|] eqn:E.
  - destruct (heap_mmu k a g Hok Hp Ha Hc E). congruence.
  - destruct (off_page a Ha) as (H4 & H3 & H2 & H1).
    rewrite (mmu_leaf D) in Hm; [|apply (mo_inv _ _ _ Hok)|rewrite <- H4; by apply Hkva|done]. unfold frame_at, entry_frame in E. cbn in E.
    assert (leaf (cpu_top (k_mach k)) (m_frames (k_mach k)) a = leaf (cpu_top (k_mach k)) (m_frames (k_mach k)) (page_of a)) as Hl
      by (unfold leaf; by rewrite H4, H3, H2, H1).
    rewrite unbox_present, <- Hl in E. unfold translate_leaf, pte_present in Hm. by destruct (has _ PTE_P).
Qed.

End backed.

(** The heap's range: whole pages, below the slots of the kernel's 4K mappings. *)
Record heap_range_ok `{!Pae64Config} (D : Z → Prop) (hbase hsize : Z) : Prop := {
  hr_base : (4096 | hbase);
  hr_size : (4096 | hsize);
  hr_pos : 0 < hbase;
  hr_len : 0 < hsize ≤ 2 ^ 48;
  hr_end : hbase + hsize ≤ 2 ^ 64 - 2 ^ 32;
  hr_kva va : heap_page hbase hsize va → amd64_kva D va;
  hr_canon a : heap_addr hbase hsize a → canonical a = true;
}.

(** [kmap_commit] broadcasts to the CPUs; it leaves the tables alone. *)
Definition leaves_mach {S} (commit : M (kst S) unit) : Prop := ∀ k, ∃ k', commit k = Ret (tt, k') ∧ k_mach k' = k_mach k.

Section amd64.
Context {CFG : Config} {CFGOK : ConfigOk} {LIN : Pae64Config} {LINOK : Pae64ConfigOk}.
Context {A : Type} `{!PfnCache A, !PfnAllocator A, !PfnAllocatorLaws A}.
Context (D : Z → Prop) (nx : bool) (hbase hsize : Z) (commit : M (kst (mach A)) unit).

Definition amd64_heap_env : HeapEnv (kst (mach A)) := map_heap_env (HalPmap0 := amd64_pmap D nx) hbase hsize commit.

Definition amd64_heap_laws (Hr : heap_range_ok D hbase hsize) (Hc : leaves_mach commit) : @HeapEnvLaws (kst (mach A)) amd64_heap_env :=
  map_heap_laws (HalPmapLaws0 := amd64_pmap_laws D nx) (HalMemLaws0 := amd64_mem_laws D nx) hbase hsize
    (hr_base _ _ _ Hr) (hr_size _ _ _ Hr) (hr_pos _ _ _ Hr) (hr_len _ _ _ Hr) (hr_end _ _ _ Hr) (hr_kva _ _ _ Hr) commit Hc.

End amd64.

(** C2. The heap of the amd64 kernel is backed by memory: when [kmem_alloc] returns a
    block, the CPU's translation takes each of its addresses to a frame that has been
    allocated and is no page table, and never takes addresses of two pages of the
    heap to the same frame. *)
Theorem amd64_kmem_alloc_backed `{!Config} (Hcfg : ConfigOk) `{!Pae64Config} (Hlin : Pae64ConfigOk)
    {A : Type} `{!PfnCache A, !PfnAllocator A} (Hlaws : PfnAllocatorLaws A) (D : Z → Prop) (nx : bool) (hbase hsize : Z)
    (commit : M (kst (mach A)) unit) (Hr : heap_range_ok D hbase hsize) (Hc : leaves_mach commit)
    (W : gmap Z Z) (s s' : kmz (kst (mach A))) (F : entries) (size r : Z)
    (Hh : heap_ok (HeapEnvLaws0 := amd64_heap_laws D nx hbase hsize commit Hr Hc) W s F) (Hsize : 0 < size ≤ 2 ^ 31 - 64)
    (Hrun : kmem_alloc (HeapEnv0 := amd64_heap_env D nx hbase hsize commit) 0 size s = Ret (r, s')) (Hres : r ≠ VADDR_NONE) :
  let m := k_mach (km_x (kz_st s')) in
  (∀ a, r ≤ a < r + size → ∃ f, mmu (m_frames m) (m_root m) a = Some f ∧ owned D m f) ∧
  (∀ a a' f, heap_addr hbase hsize a → heap_addr hbase hsize a' → mmu (m_frames m) (m_root m) a = Some f →
     mmu (m_frames m) (m_root m) a' = Some f → a `div` 4096 = a' `div` 4096).
Proof.
  intros m. pose proof (units_range size ltac:(lia)) as Hu.
  destruct (@kmem_alloc_run _ _ (amd64_heap_laws D nx hbase hsize commit Hr Hc) W s F size Hh Hsize)
    as [(r' & s1 & Hr1 & [_ [q Hq] Hrg _ (F' & W' & Hh' & _ & Hdom)])|[(s1 & Hr1 & _)|[Hr1 _]]];
    rewrite Hrun in Hr1; [injection Hr1 as <- <-|by injection Hr1 as ? _|done].
  pose proof (ho_km _ _ _ Hh') as Hok. pose proof (bo_x _ (ko_brk _ _ _ Hok)) as Hmap. cbn in Hmap. pose proof (hr_pos _ _ _ Hr) as Hpos.
  assert (∀ a, heap_addr hbase hsize a → heap_page hbase hsize (page_of a) ∧ 0 ≤ a) as Hpg.
  { intros a Ha. split; [|unfold heap_addr in Ha; lia]. by apply heap_page_of; [apply Hr..|]. }
  split.
  - intros a Ha. set (b := 8 * (a `div` 8)).
    assert (block r (64 * units size) b) as Hb by (split; [exists (a `div` 8); lia|]; unfold b; Z.div_mod_to_equations; lia).
    assert (is_Some (W' !! b)) as [w Hw] by (apply Hdom; by right). destruct (ko_data _ _ _ Hok _ _ Hw) as [Hbw _]. cbn in Hbw.
    pose proof (word_addr hbase hsize _ b ltac:(eauto)) as Hab. destruct (word_frame hbase hsize _ _ _ Hbw) as [f Hf].
    assert (page_of b = page_of a) as Hpe by (unfold page_of, b; Z.div_mod_to_equations; lia).
    destruct (Hpg b Hab) as [Hp _]. rewrite Hpe in Hp. assert (heap_addr hbase hsize a) as Haa.
    { destruct Hp as [_ Hp]. pose proof (page_of_range a). pose proof (heap_page_end hbase hsize (hr_base _ _ _ Hr) (hr_size _ _ _ Hr) (page_of a)) as Hpe'.
      unfold heap_addr. destruct (Hpg b Hab) as [Hp' _]. rewrite Hpe in Hp'. specialize (Hpe' Hp'). lia. }
    destruct (heap_mmu D nx hbase hsize (hr_kva _ _ _ Hr) (km_x (kz_st s')) a f Hmap Hp (proj2 (Hpg a Haa)) (hr_canon _ _ _ Hr a Haa)) as [Ho Hm].
    + rewrite <- frame_at_page, <- Hpe. by rewrite frame_at_page.
    + by exists f.
  - intros a a' f Ha Ha' Hm Hm'. destruct (Hpg a Ha) as [Hp Hn], (Hpg a' Ha') as [Hp' Hn'].
    apply (heap_mmu_frame D nx hbase hsize (hr_kva _ _ _ Hr)) in Hm; [|done|done|done|by apply (hr_canon _ _ _ Hr)].
    apply (heap_mmu_frame D nx hbase hsize (hr_kva _ _ _ Hr)) in Hm'; [|done|done|done|by apply (hr_canon _ _ _ Hr)].
    rewrite <- frame_at_page in Hm, Hm'. pose proof (mo_inj _ _ _ Hmap _ _ f Hp Hp' Hm Hm') as He. unfold page_of in He. lia.
Qed.

(** * An example: a heap of 16 pages on a machine with four free frames *)

Lemma canonical_high a : 2 ^ 64 - 2 ^ 47 ≤ a < 2 ^ 64 → canonical a = true.
Proof.
  intros Ha. unfold canonical, MKCANON. apply Z.eqb_eq. rewrite Z.shiftl_mul_pow2 by lia.
  assert (u64 (a * 2 ^ 16) = (a - (2 ^ 64 - 2 ^ 48)) * 2 ^ 16) as ->.
  { unfold u64. symmetry. apply (Z.mod_unique _ _ (2 ^ 16 - 1)); lia. }
  unfold s64. rewrite (u64_small ((a - (2 ^ 64 - 2 ^ 48)) * 2 ^ 16)) by (unfold word64; lia).
  rewrite (proj2 (Z.ltb_ge _ _)) by lia. rewrite Z.shiftr_div_pow2 by lia.
  replace ((a - (2 ^ 64 - 2 ^ 48)) * 2 ^ 16 - 2 ^ 64) with ((a - 2 ^ 64) * 2 ^ 16) by lia. rewrite Z.div_mul by lia.
  unfold u64. apply (Z.mod_unique _ _ (-1)); lia.
Qed.

Module HeapExample.

#[local] Existing Instance ex_config.
#[local] Existing Instance ex_nocache.
#[local] Existing Instance ex_config_ok.
#[local] Existing Instance ex64_config.
#[local] Existing Instance ex64_config_ok.
#[local] Existing Instance stree_allocator_laws.

Definition exh_base : Z := 0xffffff8000100000.
Definition exh_size : Z := 0x10000.
Definition exh_commit : M (kst (mach pfa)) unit := mret tt.

Lemma exh_range : heap_range_ok ex64_slots exh_base exh_size.
Proof.
  assert (∀ a, heap_addr exh_base exh_size a → Z.shiftr a 39 = 33554431 ∧ 2 ^ 64 - 2 ^ 47 ≤ a < 2 ^ 64) as Ha.
  { unfold heap_addr, exh_base, exh_size. intros a Ha. rewrite Z.shiftr_div_pow2 by lia. split; [|lia]. Z.div_mod_to_equations. lia. }
  assert (pt_umap_maxaddr ≤ 2 ^ 47) as Hmax by (by vm_compute).
  split; try done.
  - by exists 0xffffff8000100.
  - by exists 16.
  - intros va [_ Hva]. destruct (Ha va Hva) as [Hs ?]. split; [lia|]. unfold ex64_slots, L4OFF. by rewrite Hs.
  - intros a Haa. apply canonical_high. by apply Ha.
Qed.

Lemma exh_commit_ok : leaves_mach exh_commit.
Proof. intros k. by exists k. Qed.

Definition exh_env : HeapEnv (kst (mach pfa)) := amd64_heap_env ex64_slots true exh_base exh_size exh_commit.
#[local] Existing Instance exh_env.
Definition exh_laws : HeapEnvLaws (kst (mach pfa)) := amd64_heap_laws ex64_slots true exh_base exh_size exh_commit exh_range exh_commit_ok.
#[local] Existing Instance exh_laws.

(** The state before and after [kmeminit]. *)
Definition exh_zone : zone := Zone 0 0 (replicate 64 []) 0.
Definition exh_0 : kmz (kst (mach pfa)) := Kmz exh_zone exh_zone false false (Kmst false (0, 0) (0, 0) (0, 0) TRIM_NONE ex64_k).
Definition exh_1 : kmz (kst (mach pfa)) :=
  let b := (exh_base, exh_base + exh_size) in Kmz exh_zone exh_zone false false (Kmst false b b b TRIM_NONE ex64_k).

Lemma exh_no_frame a : heap_addr exh_base exh_size a → frame_at (HalPmap0 := ex64_pmap) ex64_k a = None.
Proof.
  intros Ha. destruct (off_page a ltac:(unfold heap_addr, exh_base in Ha; lia)) as (H4 & _).
  assert (heap_page exh_base exh_size (page_of a)) as Hp by (apply heap_page_of; [apply exh_range..|done]).
  destruct (hr_kva _ _ _ exh_range _ Hp) as [_ Hd].
  unfold frame_at, entry_frame. cbn [pm_view ex64_pmap amd64_pmap]. unfold leaf, table. unfold ex64_slots in Hd. rewrite Hd. by vm_compute.
Qed.

Lemma exh_map_ok : map_ok (HalPmap0 := ex64_pmap) exh_base exh_size ex64_k.
Proof.
  split; [exact ex64_inv|..]; intros *; intros Hva; destruct (heap_page_8 _ _ _ Hva) as [_ Ha]; rewrite exh_no_frame by done; done.
Qed.

Lemma exh_heap : kmeminit exh_0 = Ret (tt, exh_1) ∧ heap_ok ∅ exh_1 ∅.
Proof.
  destruct (kmeminit_run exh_0) as (s' & Hr & Hh & _); [done|exact exh_map_ok| |].
  - intros b Hb. apply word_unmapped. by apply exh_no_frame.
  - assert (kmeminit exh_0 = Ret (tt, exh_1)) as He by (by vm_compute). split; [done|]. rewrite Hr in He. by injection He as <-.
Qed.

Definition result {S B} (o : outcome (B * S)) : option B := match o with Ret (b, _) => Some b | Abort _ => None end.

Lemma result_eq {S B} (o : outcome (B * S)) b b' s : result o = Some b → o = Ret (b', s) → b' = b.
Proof. intros Hb ->. by injection Hb. Qed.

Lemma result_abort {S B} (o : outcome (B * S)) b e : result o = Some b → o ≠ Abort e.
Proof. by intros Hb ->. Qed.

Lemma exh_alloc : result (kmem_alloc 0 100 exh_1) = Some (exh_base + 0xff80).
Proof. by vm_compute. Qed.

Lemma kmem_alloc_correct_witness : ∃ s' F' D', kmem_alloc 0 100 exh_1 = Ret (exh_base + 0xff80, s') ∧ heap_ok D' s' F' ∧
  ∀ b, block (exh_base + 0xff80) 128 b → is_Some (hm_word (km_x (kz_st s')) b).
Proof.
  destruct (kmem_alloc_correct exh_laws ∅ exh_1 ∅ 100 (proj2 exh_heap) ltac:(lia))
    as [(r & s' & F' & D' & Hr & Hh & _ & _ & _ & _ & _ & _ & Hw & _)|[(s' & Hr & _)|[Hr _]]].
  - pose proof (result_eq _ _ _ _ exh_alloc Hr) as ->. exists s', F', D'. split; [exact Hr|]. split; [exact Hh|exact Hw].
  - exfalso. by pose proof (result_eq _ _ _ _ exh_alloc Hr).
  - exfalso. exact (result_abort _ _ _ exh_alloc Hr).
Defined.

Lemma exh_used : ∃ s1 D F, kmem_alloc 0 100 exh_1 = Ret (exh_base + 0xff80, s1) ∧ heap_ok D s1 F ∧ (brk (kz_st s1)).2 ≤ exh_base + 0xff80 ∧
  exh_base + 0xff80 + 128 ≤ (base (kz_st s1)).2 ∧ ∀ b, block (exh_base + 0xff80) 128 b → is_Some (D !! b).
Proof.
  destruct (kmem_alloc_run ∅ exh_1 ∅ 100 (proj2 exh_heap) ltac:(lia))
    as [(r & s1 & Hr & [[_ [_ Hb]] Ha [_ Hhi] _ (F' & D' & Hh & _ & Hdom)])|[(s' & Hr & _)|[Hr _]]].
  - pose proof (result_eq _ _ _ _ exh_alloc Hr) as ->. exists s1, D', F'. split; [exact Hr|]. split; [exact Hh|].
    assert (is_Some (D' !! (exh_base + 0xff80))) as [w Hw] by (apply Hdom; right; split;
      [apply Z.mod_divide; [lia|by vm_compute]|change (64 * units 100) with 128; lia]).
    destruct (ko_data _ _ _ (ho_km _ _ _ Hh) _ _ Hw) as [_ [Hlo _]]. split; [exact Hlo|]. split; [by rewrite Hb|]. intros b Hbb. apply Hdom. by right.
  - exfalso. by pose proof (result_eq _ _ _ _ exh_alloc Hr).
  - exfalso. exact (result_abort _ _ _ exh_alloc Hr).
Qed.

Lemma kmem_free_correct_witness : ∃ s1 s2, kmem_alloc 0 100 exh_1 = Ret (exh_base + 0xff80, s1) ∧ kmem_free 0 (exh_base + 0xff80) 100 s1 = Ret (tt, s2).
Proof.
  destruct exh_used as (s1 & D' & F' & Hr & Hh & Hlo & Hhi & HD).
  assert (64 | exh_base + 0xff80) as Ha by (apply Z.mod_divide; [lia|by vm_compute]).
  destruct (kmem_free_correct exh_laws D' s1 F' (exh_base + 0xff80) 100 Hh ltac:(lia) Ha Hlo Hhi HD) as (s2 & _ & _ & Hf & _).
  exists s1, s2. split; [exact Hr|exact Hf].
Defined.

Lemma amd64_kmem_alloc_backed_witness : ∃ s' f, kmem_alloc 0 100 exh_1 = Ret (exh_base + 0xff80, s') ∧
  let m := k_mach (km_x (kz_st s')) in mmu (m_frames m) (m_root m) (exh_base + 0xff80) = Some f ∧ owned ex64_slots m f.
Proof.
  destruct exh_used as (s' & _ & _ & Hr & _). exists s'.
  destruct (amd64_kmem_alloc_backed ex_config_ok ex64_config_ok stree_allocator_laws ex64_slots true exh_base exh_size exh_commit exh_range exh_commit_ok
    ∅ exh_1 s' ∅ 100 (exh_base + 0xff80) (proj2 exh_heap) ltac:(lia) Hr ltac:(done)) as [Hm _].
  destruct (Hm (exh_base + 0xff80) ltac:(lia)) as (f & Hf). exists f. split; [exact Hr|exact Hf].
Defined.

End HeapExample.
