(* ===== verification/Umap64.v ===== *)
(** User maps of the amd64 HAL: the tables of a [struct hal_umap]
    (libhal_x86/amd64/pae64.c and pmap.c), walked through the direct map and
    loaded into the CPU's top level. *)

From S2P Require Import Prelude Words Stree Locks Machine Pfnalloc Hal X86Pmap PageTable Pae64 Kmap Amd64.
From S2P Require Import Space UmapInit UmapScan UmapFree.

Section defs.
Context {CFG : Config} {LIN : Pae64Config}.
Context {A : Type} `{!PfnCache A, !PfnAllocator A}.

Definition hal_virtmem_userbase : Z := pt_umap_minaddr.

(** [va] of the loops over the slots of a umap. *)
Definition slot_va (i : Z) : Z := u64 (hal_virtmem_userbase + i * Z.shiftl 1 L4_SHIFT).

Definition hal_umap_init (u : Z) : M (mach A) unit :=
  init_slots (alloc_table true) UMAP_L4PTES u.

Definition bootstrap_slot (u i : Z) : M (mach A) unit :=
  let l4p := linmap_get_l4p (slot_va i) in
  l4e ← get_pte l4p;
  l4e ← (if negb (pte_present l4e) then
           e ← alloc_table true;
           assertb (negb (e =? PTE_INVALID));;
           set_pte l4p e;;
           mret e
         else mret l4e);
  kstore (u + 8 * i) l4e.

Definition hal_umap_bootstrap (u : Z) : M (mach A) unit :=
  for_each (seqZ 0 UMAP_L4PTES) (bootstrap_slot u);;
  for_each (seqZ UMAP_L4PTES (256 - UMAP_L4PTES)) (λ i,
    l4e ← linmap_get_l4e (slot_va i);
    if pte_present l4e then stop Fatal else mret tt).

Fixpoint load_slots (umap : option Z) (slots : list Z) (tlbop : Z) : M (mach A) Z :=
  match slots with
  | [] => mret tlbop
  | i :: slots' =>
      newl4e ← (match umap with Some u => kload (u + 8 * i) | None => mret 0 end);
      oldl4e ← set_pte (linmap_get_l4p (slot_va i)) newl4e;
      load_slots umap slots' (Z.lor tlbop (X86Pmap.hal_l1e_tlbop oldl4e newl4e))
  end.

Definition hal_umap_load (umap : option Z) : M (mach A) Z :=
  load_slots umap (seqZ 0 UMAP_L4PTES) HAL_TLBOP_NONE.

(** The pointer [scan_l1] reports. *)
Definition fgn_ptr (pfn i : Z) : Z := mkptep_fgn (Z.shiftl pfn PAGE_SHIFT + Z.shiftl i 3).

Definition scan_slot (umap : option Z) (i : Z) : M (mach A) Z :=
  match umap with
  | Some u => kload (u + 8 * i)
  | None => linmap_get_l4e (mkaddr i 0 0 0)
  end.

(** The address, and what is stored through [l1p_out] and [l1e_out]. *)
Definition pt_umap_next (umap : option Z) (uaddr : Z) : M (mach A) (Z * option (Z * Z)) :=
  let l4off := L4OFF uaddr in
  let l3off := L3OFF uaddr in
  let l2off := L2OFF uaddr in
  let l1off := L1OFF uaddr in
  next_search mkaddr uaddr
    (scan_if (get_umap_l1pfn umap uaddr false) (λ l1pfn, scan_l1 fgn_ptr l1pfn (l1off + 1)))
    (scan_if (get_umap_l2pfn umap uaddr false) (λ l2pfn, scan_l2 pte_present fgn_ptr l2pfn (l2off + 1)))
    (scan_if (get_umap_l3pfn umap uaddr false) (λ l3pfn, scan_l3 pte_present fgn_ptr l3pfn (l3off + 1)))
    (scan_l4 pte_present fgn_ptr UMAP_L4PTES (scan_slot umap) (l4off + 1)).

Definition pt_umap_free (u : Z) : M (mach A) unit :=
  free_slots pte_present (λ _, true) UMAP_L4PTES u.

Definition hal_umap_next (umap : option Z) (uaddr : Z) : M (mach A) (Z * option (Z * Z)) :=
  let uaddr := if uaddr <? hal_virtmem_userbase then hal_virtmem_userbase else uaddr in
  pt_umap_next umap uaddr.

Definition hal_umap_free (u : Z) : M (mach A) unit := pt_umap_free u.

End defs.

(** * The walkers *)

Definition uslot (i : Z) : Prop := 0 ≤ i < UMAP_L4PTES.

Section walk.
Context {CFG : Config} {CFGOK : ConfigOk} {LIN : Pae64Config} {LINOK : Pae64ConfigOk}.
Context {A : Type} `{!PfnCache A, !PfnAllocator A, !PfnAllocatorLaws A}.
Implicit Types s : mach A.

Lemma fgn_parts f i :
  0 ≤ f → index_ok i → ptep_is_foreign (fgn_ptr f i) = true ∧
  Z.shiftr (fgn_ptr f i) PAGE_SHIFT = f ∧ Z.land (Z.shiftr (fgn_ptr f i) 3) 0x1ff = i.
Proof.
  intros Hf Hi. unfold index_ok in Hi. unfold fgn_ptr, mkptep_fgn, ptep_is_foreign, has, PAGE_SHIFT.
  rewrite !Z.shiftl_mul_pow2 by lia. change (2 ^ 12) with 4096. change (2 ^ 3) with 8.
  assert (Z.lor (f * 4096 + i * 8) 1 = f * 4096 + i * 8 + 1) as ->.
  { replace (f * 4096 + i * 8) with ((f * 2048 + i * 4) * 2 ^ 1) by lia.
    rewrite <- Z.shiftl_mul_pow2 by lia. rewrite lor_shiftl_add, Z.shiftl_mul_pow2 by lia. lia. }
  rewrite land_ones_9, !Z.shiftr_div_pow2 by lia. change (2 ^ 12) with 4096. change (2 ^ 3) with 8.
  change 1 with (Z.ones 1) at 2. rewrite Z.land_ones by lia. change (2 ^ 1) with 2.
  split_and!; [|Z.div_mod_to_equations; lia..].
  apply negb_true_iff, Z.eqb_neq. Z.div_mod_to_equations; lia.
Qed.

Lemma fgn_valid f i : 0 ≤ f → index_ok i → (fgn_ptr f i =? PTEP_INVALID) = false.
Proof.
  intros Hf Hi. destruct (fgn_parts f i Hf Hi) as (Hfo & _). apply Z.eqb_neq. intros Hc. by rewrite Hc in Hfo.
Qed.

Lemma fgn_get f i s :
  frame_ok (m_frames s) f → index_ok i → get_pte (fgn_ptr f i) s = Ret (entry (m_frames s) f i, s).
Proof.
  intros Hf Hi. destruct (fgn_parts f i) as (E1 & E2 & E3); [by destruct Hf; lia|done|].
  unfold get_pte. rewrite E1, E2, E3. by apply frame_load_run.
Qed.

Lemma fgn_set f i e s :
  frame_ok (m_frames s) f → index_ok i →
  set_pte (fgn_ptr f i) e s =
    Ret (entry (m_frames s) f i, set_frames (frame_update (m_frames s) f i e) s).
Proof.
  intros Hf Hi. destruct (fgn_parts f i) as (E1 & E2 & E3); [by destruct Hf; lia|done|].
  unfold set_pte. rewrite E1, E2, E3. by apply frame_swap_run.
Qed.

(** Entries of the array of a [struct hal_umap]. *)
Lemma data_get a v s :
  m_kdata s !! a = Some v → in_dmap a = false → a `mod` 8 = 0 → get_pte a s = Ret (v, s).
Proof.
  intros Hk Hd Hm. unfold get_pte. rewrite not_foreign by done. unfold vload, direct.
  rewrite bool_decide_true by (rewrite Hk; eauto). rewrite orb_true_r. by apply data_load_run.
Qed.

Lemma data_set a v e s :
  m_kdata s !! a = Some v → in_dmap a = false → a `mod` 8 = 0 →
  set_pte a e s = Ret (v, set_kdata (<[a := e]> (m_kdata s)) s).
Proof.
  intros Hk Hd Hm. pose proof (data_get a v s Hk Hd Hm) as Hget. unfold get_pte in Hget.
  unfold set_pte. rewrite not_foreign in * by done. mrun Hget.
  assert (vstore a e s = Ret (tt, set_kdata (<[a := e]> (m_kdata s)) s)) as Hst; [|by mrun Hst].
  unfold vstore, direct. rewrite bool_decide_true by (rewrite Hk; eauto). rewrite orb_true_r.
  by apply (data_store_run a v).
Qed.

Lemma good_table_ok e : good e ↔ pte_present e = true ∧ PageTable.pte_table_ok e = true.
Proof. unfold good. cbn. by rewrite negb_true_iff. Qed.

(** The pointer the walkers use for the word [i] after path [q]. *)
Definition um_ptr (u : Z) s (q : list Z) (i p : Z) : Prop :=
  match q with
  | [] => p = u + 8 * i
  | _ => ∃ g, sp_table (InData u) s q = Some g ∧ p = fgn_ptr g i
  end.

Lemma um_ptr_get u s q i p :
  space_inv uslot (InData u) s → path_ok uslot (q ++ [i]) → um_ptr u s q i p →
  ∃ v, slot_read (InData u) s q i = Some v ∧ get_pte p s = Ret (v, s).
Proof.
  intros Hi Hp Hptr. destruct q as [|j q]; cbn [um_ptr slot_read] in *.
  - destruct Hp as ((k & ? & [= <- <-] & Hd) & _). destruct (sp_top _ _ _ Hi i Hd) as ([v Hv] & Hdm & Hal).
    subst p. exists v. cbn [tl_read]. rewrite Hv. split; [done|]. by apply data_get.
  - destruct Hptr as (g & Hg & ->). rewrite Hg. eexists. split; [done|].
    destruct (path_ok_prefix uslot (j :: q) i Hp) as (Hq & Hix & _); [done|].
    apply fgn_get; [|done]. by apply (so_frame _ _ _ _ (sp_space _ _ _ Hi) (j :: q)).
Qed.

Lemma um_ptr_set u s q i p e :
  space_inv uslot (InData u) s → path_ok uslot (q ++ [i]) → um_ptr u s q i p →
  ∃ v, set_pte p e s = Ret (v, slot_write (InData u) q i e s).
Proof.
  intros Hi Hp Hptr. destruct q as [|j q]; cbn [um_ptr slot_write] in *.
  - destruct Hp as ((k & ? & [= <- <-] & Hd) & _). destruct (sp_top _ _ _ Hi i Hd) as ([v Hv] & Hdm & Hal).
    subst p. exists v. by apply data_set.
  - destruct Hptr as (g & Hg & ->). rewrite Hg. eexists.
    destruct (path_ok_prefix uslot (j :: q) i Hp) as (Hq & Hix & _); [done|].
    apply fgn_set; [|done]. by apply (so_frame _ _ _ _ (sp_space _ _ _ Hi) (j :: q)).
Qed.

(** [fetch_table] on the word after path [q]. *)
Lemma um_fetch u s (q : list Z) i p alloc :
  space_inv uslot (InData u) s → path_ok uslot (q ++ [i]) → um_ptr u s q i p →
  ∃ r s', fetch_table p alloc true s = Ret (r, s') ∧ space_inv uslot (InData u) s' ∧
    sp_grow uslot (InData u) s s' ∧ (alloc = false → s' = s) ∧
    (size (free_frames s) ≤ size (free_frames s') + 1)%nat ∧
    match r with
    | None => s' = s ∧ sp_table (InData u) s (q ++ [i]) = None ∧ (alloc = false ∨ free_frames s = ∅)
    | Some e => good e ∧ sp_table (InData u) s' (q ++ [i]) = Some (pte_pfn e)
    end.
Proof.
  intros Hi Hp Hptr. destruct (um_ptr_get u s q i p Hi Hp Hptr) as (v & Hv & Hget).
  assert (sp_table (InData u) s (q ++ [i]) = sub_table v) as Htab.
  { unfold slot_read in Hv. destruct q as [|j q'].
    - injection Hv as <-. unfold sp_table. cbn [app table]. by destruct (sub_table _).
    - unfold sp_table in *. rewrite table_snoc by done. destruct (table _ _ (j :: q')); [|done].
      by injection Hv as <-. }
  destruct (fetch_table_run p v (slot_write (InData u) q i) alloc true s (sp_alloc _ _ _ Hi) Hget)
    as [(Hpr & Hrun)|[(Hnp & Hal & Hrun)|(Hnp & Hal & r & a' & Hr & Hfr & Hok & Hf & Hrg & Hg & Her & Hrun)]].
  - intros r a' e Hr Hok Hf Hrg.
    destruct (um_ptr_set u (taken s r a') q i p e) as [old Hs]; [by apply take_inv|done| |by exists old].
    destruct q as [|j q']; [done|]. destruct Hptr as (g & Hgt & ->). exists g. split; [|done].
    destruct (path_ok_prefix uslot (j :: q') i Hp) as (Hq & _); [done|]. by rewrite (take_table uslot).
  - exists (Some v), s. do 4 (split; [done|]). split; [lia|].
    assert (sub_table v = Some (pte_pfn v)) as Hs by (unfold sub_table; cbn; by rewrite Hpr).
    split; [|by rewrite Htab]. apply good_table_ok. split; [done|].
    unfold slot_read in Hv. destruct q as [|j q'].
    + injection Hv as <-. apply (so_top _ _ _ _ (sp_space _ _ _ Hi)); [|done].
      by destruct Hp as ((k & ? & [= <- <-] & ?) & _).
    + destruct (sp_table (InData u) s (j :: q')) as [g|] eqn:Eg; [|done]. injection Hv as <-.
      destruct (path_ok_prefix uslot (j :: q') i Hp) as (Hq & Hix & Hl); [done|].
      by apply (so_entry _ _ _ _ (sp_space _ _ _ Hi) (j :: q')).
  - exists None, s. do 4 (split; [done|]). split; [lia|]. split; [done|]. split; [|done].
    rewrite Htab. unfold sub_table. cbn. by rewrite Hnp.
  - apply good_table_ok in Hg as [Hg1 Hg2]. set (e := mkpte r (table_flags true)) in *.
    exists (Some e), (grow (InData u) q i e s r a'). split; [done|].
    split; [by eapply grow_inv|]. split; [by eapply grow_sp_grow|]. split; [by rewrite Hal|].
    split; [|split; [by apply good_table_ok|]].
    + rewrite (grow_free (InData u) s q i r e a' Hf), size_difference, size_singleton by set_solver. lia.
    + erewrite (grow_table uslot (InData u) s q i v r e a') by done. rewrite decide_True by done. by rewrite Her.
Qed.

(** The walk has ended with [r], the table at path [q], or has given up for want
    of a table. *)
Definition um_reached (u : Z) (alloc : bool) s s' (q : list Z) (r : Z) : Prop :=
  space_inv uslot (InData u) s' ∧ sp_grow uslot (InData u) s s' ∧ (alloc = false → s' = s) ∧
  (size (free_frames s) ≤ size (free_frames s') + length q)%nat ∧
  ((r = PFN_INVALID ∧ sp_table (InData u) s' q = None ∧
      (alloc = false ∨ free_frames s' = ∅ ∧ (size (free_frames s) < length q)%nat)) ∨
   (r ≠ PFN_INVALID ∧ sp_table (InData u) s' q = Some r)).

Lemma um_table_valid u s q f :
  space_inv uslot (InData u) s → path_ok uslot q → sp_table (InData u) s q = Some f → f ≠ PFN_INVALID.
Proof.
  intros Hi Hq Hf. destruct (so_frame _ _ _ _ (sp_space _ _ _ Hi) q f Hq Hf) as [[Hr _] _].
  by apply pfn_valid.
Qed.

Lemma um_table_pos u s q f :
  space_inv uslot (InData u) s → path_ok uslot q → sp_table (InData u) s q = Some f → 0 ≤ f.
Proof. intros Hi Hq Hf. destruct (so_frame _ _ _ _ (sp_space _ _ _ Hi) q f Hq Hf) as [[Hr _] _]. lia. Qed.

(** Giving up on a table means giving up on the tables below. *)
Lemma um_reached_none u alloc s s' q r i :
  um_reached u alloc s s' q r → r = PFN_INVALID → q ≠ [] → um_reached u alloc s s' (q ++ [i]) PFN_INVALID.
Proof.
  intros (H1 & H2 & H3 & H4 & H5) -> Hq. unfold um_reached. rewrite length_app. split_and!; [done..|simpl; lia|].
  left. destruct H5 as [(_ & Hn & Ha)|[? _]]; [|done]. split; [done|]. split.
  - unfold sp_table in *. by rewrite table_snoc, Hn.
  - destruct Ha as [?|[? ?]]; [by left|right]. split; [done|simpl; lia].
Qed.

(** The step from the table at [q] to the table at [q ++ [i]]. *)
Lemma um_step u alloc s s1 q i p :
  space_inv uslot (InData u) s1 → sp_grow uslot (InData u) s s1 → (alloc = false → s1 = s) →
  (size (free_frames s) ≤ size (free_frames s1) + length q)%nat →
  path_ok uslot (q ++ [i]) → um_ptr u s1 q i p →
  ∃ r s', fetch_table p alloc true s1 = Ret (r, s') ∧
    match r with
    | None => um_reached u alloc s s' (q ++ [i]) PFN_INVALID
    | Some e => good e ∧ um_reached u alloc s s' (q ++ [i]) (pte_pfn e)
    end.
Proof.
  intros Hi He Hna Hsz Hp Hptr.
  destruct (um_fetch u s1 q i p alloc Hi Hp Hptr) as (r & s' & Hrun & Hi' & He' & Hna' & Hsz' & Hr).
  exists r, s'. split; [done|].
  assert (sp_grow uslot (InData u) s s') by (by transitivity s1).
  assert (alloc = false → s' = s) by (intros Ha; by rewrite Hna', Hna).
  destruct r as [e|]; unfold um_reached; rewrite length_app; simpl length.
  - destruct Hr as [Hg Ht]. split; [done|]. split_and!; [done..|lia|]. right. split; [|done].
    by eapply um_table_valid.
  - destruct Hr as (-> & Ht & Ha). split_and!; [done..|lia|]. left. split; [done|]. split; [done|].
    destruct Ha as [?|Ha]; [by left|right]. split; [done|]. rewrite Ha, size_empty in Hsz. lia.
Qed.

Lemma get_umap_l3pfn_run u s va alloc :
  space_inv uslot (InData u) s → uslot (L4OFF va) →
  ∃ r s', get_umap_l3pfn (Some u) va alloc s = Ret (r, s') ∧ um_reached u alloc s s' [L4OFF va] r.
Proof.
  intros Hi Hd. destruct (cpu_va_paths uslot va Hd) as (P1 & _). unfold get_umap_l3pfn, get_umap_l4p.
  assert ((L4OFF va <? UMAP_L4PTES) = true) as Hlt by (apply Z.ltb_lt; by destruct Hd).
  rewrite bind_assoc, bind_assert by done. mrun.
  destruct (um_step u alloc s s [] (L4OFF va) (u + 8 * L4OFF va)) as (r & s' & Hrun & Hr); [done..|simpl; lia|done|done|].
  mrun Hrun. destruct r as [e|]; [|by exists PFN_INVALID, s'].
  destruct Hr as [Hg Hr]. destruct (good_checks e Hg) as (_ & Hres & _).
  rewrite bind_assert by (by rewrite Hres). by exists (pte_pfn e), s'.
Qed.

Lemma get_umap_l2pfn_run u s va alloc :
  space_inv uslot (InData u) s → uslot (L4OFF va) →
  ∃ r s', get_umap_l2pfn (Some u) va alloc s = Ret (r, s') ∧
    um_reached u alloc s s' [L4OFF va; L3OFF va] r.
Proof.
  intros Hi Hd. destruct (cpu_va_paths uslot va Hd) as (P1 & P2 & _). destruct (off_range va) as (_ & I3 & _).
  destruct (get_umap_l3pfn_run u s va alloc Hi Hd) as (f & s1 & Hrun & Hre).
  pose proof Hre as (Hi1 & He1 & Hna1 & Hsz1 & Hr). unfold get_umap_l2pfn, get_umap_l3p. rewrite bind_assoc. mrun Hrun.
  destruct Hr as [(-> & Hr)|[Hv Hf]].
  - rewrite Z.eqb_refl. mrun. exists PFN_INVALID, s1. split; [done|].
    by apply (um_reached_none u alloc s s1 [L4OFF va] PFN_INVALID).
  - rewrite (proj2 (Z.eqb_neq _ _) Hv). mrun. fold (fgn_ptr f (L3OFF va)).
    rewrite (fgn_valid f (L3OFF va) (um_table_pos u s1 _ f Hi1 P1 Hf) I3).
    destruct (um_step u alloc s s1 [L4OFF va] (L3OFF va) (fgn_ptr f (L3OFF va))) as (r & s' & Hrun' & Hr');
      [done..|by exists f|].
    mrun Hrun'. destruct r as [e|]; [|by exists PFN_INVALID, s'].
    destruct Hr' as [Hg Hr']. destruct (good_checks e Hg) as (_ & _ & Hbig & Hres & _).
    rewrite bind_assert by (by rewrite Hres). rewrite bind_assert by (by rewrite Hbig).
    by exists (pte_pfn e), s'.
Qed.

Lemma get_umap_l1pfn_run u s va alloc :
  space_inv uslot (InData u) s → uslot (L4OFF va) →
  ∃ r s', get_umap_l1pfn (Some u) va alloc s = Ret (r, s') ∧
    um_reached u alloc s s' [L4OFF va; L3OFF va; L2OFF va] r.
Proof.
  intros Hi Hd. destruct (cpu_va_paths uslot va Hd) as (P1 & P2 & P3). destruct (off_range va) as (_ & _ & I2 & _).
  destruct (get_umap_l2pfn_run u s va alloc Hi Hd) as (f & s1 & Hrun & Hre).
  pose proof Hre as (Hi1 & He1 & Hna1 & Hsz1 & Hr). unfold get_umap_l1pfn, get_umap_l2p. rewrite bind_assoc. mrun Hrun.
  destruct Hr as [(-> & Hr)|[Hv Hf]].
  - rewrite Z.eqb_refl. mrun. exists PFN_INVALID, s1. split; [done|].
    by apply (um_reached_none u alloc s s1 [L4OFF va; L3OFF va] PFN_INVALID).
  - rewrite (proj2 (Z.eqb_neq _ _) Hv). mrun. fold (fgn_ptr f (L2OFF va)).
    rewrite (fgn_valid f (L2OFF va) (um_table_pos u s1 _ f Hi1 P2 Hf) I2).
    destruct (um_step u alloc s s1 [L4OFF va; L3OFF va] (L2OFF va) (fgn_ptr f (L2OFF va)))
      as (r & s' & Hrun' & Hr'); [done..|by exists f|].
    mrun Hrun'. destruct r as [e|]; [|by exists PFN_INVALID, s'].
    destruct Hr' as [Hg Hr']. destruct (good_checks e Hg) as (_ & _ & _ & _ & Hbig & Hres & _).
    rewrite bind_assert by (by rewrite Hres). rewrite bind_assert by (by rewrite Hbig).
    by exists (pte_pfn e), s'.
Qed.

(** The walkers without allocation: the table, if there is one. *)
Lemma um_lookup u s s' q r :
  um_reached u false s s' q r → s' = s ∧ r = default PFN_INVALID (sp_table (InData u) s q).
Proof.
  intros (_ & _ & Hs & _ & Hr). rewrite Hs in * by done. split; [done|].
  destruct Hr as [(-> & -> & _)|[_ ->]]; done.
Qed.

(** [umap_get_l1p]: a pointer to the entry of [va], or the invalid pointer. *)
Lemma umap_get_l1p_run u s va alloc :
  space_inv uslot (InData u) s → uslot (L4OFF va) →
  ∃ p s', umap_get_l1p (Some u) va alloc s = Ret (p, s') ∧
    space_inv uslot (InData u) s' ∧ sp_grow uslot (InData u) s s' ∧ (alloc = false → s' = s) ∧
    (size (free_frames s) ≤ size (free_frames s') + 3)%nat ∧
    ((p = PTEP_INVALID ∧ sp_table (InData u) s' [L4OFF va; L3OFF va; L2OFF va] = None ∧
        (alloc = false ∨ free_frames s' = ∅ ∧ (size (free_frames s) < 3)%nat)) ∨
     (∃ f, sp_table (InData u) s' [L4OFF va; L3OFF va; L2OFF va] = Some f ∧
        p = fgn_ptr f (L1OFF va) ∧ p ≠ PTEP_INVALID)).
Proof.
  intros Hi Hd. destruct (get_umap_l1pfn_run u s va alloc Hi Hd) as (f & s1 & Hrun & Hi1 & He1 & Hna1 & Hsz1 & Hr).
  unfold umap_get_l1p. mrun Hrun. destruct Hr as [(-> & Hr)|[Hv Hf]].
  - rewrite Z.eqb_refl. exists PTEP_INVALID, s1. split; [done|]. split_and!; [done..|]. left. by split.
  - rewrite (proj2 (Z.eqb_neq _ _) Hv). eexists _, s1. split; [done|]. split_and!; [done..|]. right.
    exists f. split; [done|]. split; [done|]. apply Z.eqb_neq. fold (fgn_ptr f (L1OFF va)).
    apply fgn_valid; [|by apply off_range]. by eapply um_table_pos; [|by apply (va_path uslot)|].
Qed.

End walk.

(** * The next page in use *)

Section next.
Context {CFG : Config} {CFGOK : ConfigOk} {LIN : Pae64Config} {LINOK : Pae64ConfigOk}.
Context {A : Type} `{!PfnCache A, !PfnAllocator A, !PfnAllocatorLaws A}.
Implicit Types s : mach A.

Lemma user_digits va :
  0 ≤ va < pt_umap_maxaddr → let n := va `div` 4096 in
  L4OFF va = n `div` 512 ^ 3 ∧ L3OFF va = (n `div` 512 ^ 2) `mod` 512 ∧
  L2OFF va = (n `div` 512) `mod` 512 ∧ L1OFF va = n `mod` 512 ∧ uslot (n `div` 512 ^ 3).
Proof.
  intros Hva n. change pt_umap_maxaddr with (2 ^ 42) in Hva.
  destruct (va_page_path va) as [Hp H1]; [lia|]. fold n in Hp, H1. injection Hp as -> -> ->.
  split_and!; [done..|]. unfold uslot. change UMAP_L4PTES with 8. change (512 ^ 3) with 134217728.
  unfold n. Z.div_mod_to_equations. lia.
Qed.

(** The address of a page of the user area. *)
Lemma mkaddr_page m a b c d :
  0 ≤ m < UMAP_L4PTES * 512 ^ 3 → page_path m = [a; b; c] → m `mod` 512 = d → mkaddr a b c d = 4096 * m.
Proof.
  intros Hm [= <- <- <-] <-. change UMAP_L4PTES with 8 in Hm.
  destruct (page_split m) as (E & _).
  assert (0 ≤ m `div` 512 ^ 3 < 8) as Ha.
  { change (512 ^ 3) with 134217728 in *. Z.div_mod_to_equations. lia. }
  pose proof (Z.mod_pos_bound (m `div` 512 ^ 2) 512). pose proof (Z.mod_pos_bound (m `div` 512) 512).
  pose proof (Z.mod_pos_bound m 512).
  rewrite mkaddr_canon by (unfold index_ok; lia). unfold canon, vaddr.
  change (2 ^ 39) with (134217728 * 4096). change (2 ^ 30) with (262144 * 4096).
  change (2 ^ 21) with (512 * 4096). change (2 ^ 12) with 4096.
  rewrite (proj2 (Z.ltb_lt _ _)) by lia. lia.
Qed.

Lemma pt_umap_next_run u s uaddr :
  space_inv uslot (InData u) s → 0 ≤ uaddr < pt_umap_maxaddr →
  ∃ r, pt_umap_next (Some u) uaddr s = Ret (next_result fgn_ptr (InData u) s r, s) ∧
    least (λ m, page_leaf (InData u) s m ≠ 0) (uaddr `div` 4096 + 1) (UMAP_L4PTES * 512 ^ 3) r.
Proof.
  intros Hi Hu. destruct (user_digits uaddr Hu) as (E4 & E3 & E2 & E1 & Hd).
  set (n := uaddr `div` 4096) in *. assert (0 ≤ n) as Hn by (apply Z.div_pos; lia).
  assert (uslot (L4OFF uaddr)) as Hd' by (by rewrite E4).
  destruct (get_umap_l1pfn_run u s uaddr false Hi Hd') as (f1 & s1 & R1 & [-> ->]%um_lookup).
  destruct (get_umap_l2pfn_run u s uaddr false Hi Hd') as (f2 & s2 & R2 & [-> ->]%um_lookup).
  destruct (get_umap_l3pfn_run u s uaddr false Hi Hd') as (f3 & s3 & R3 & [-> ->]%um_lookup).
  rewrite E4, E3, E2 in R1. rewrite E4, E3 in R2. rewrite E4 in R3.
  assert (∀ e, pte_present e = true → PageTable.pte_present e = true) as T1 by done.
  assert (∀ e, PageTable.pte_present e = true → PageTable.pte_table_ok e = true → pte_present e = true) as T2 by done.
  unfold pt_umap_next. rewrite E1, E2, E3, E4.
  apply next_search_run; [done|intros; by apply mkaddr_page|unfold page_path; by rewrite E4, E3, E2|..].
  - unfold uslot in Hd. nia.
  - by apply (next_l1_run fgn_ptr uslot).
  - by apply (next_l2_run pte_present fgn_ptr uslot).
  - by apply (next_l3_run pte_present fgn_ptr uslot).
  - apply (next_l4_run pte_present fgn_ptr uslot); [done..|apply Hd|done|].
    intros i Hs. destruct (sp_top _ _ _ Hi i Hs) as ([v Hv] & Hdm & Hal). cbn. rewrite Hv. by apply data_load_run.
Qed.

End next.

(** * Loading a map into the CPU's top level *)

Section load.
Context {CFG : Config} {CFGOK : ConfigOk} {LIN : Pae64Config} {LINOK : Pae64ConfigOk}.
Context {A : Type} `{!PfnCache A, !PfnAllocator A, !PfnAllocatorLaws A}.
Context (K : Z → Prop) (HK : ∀ i, K i → ¬ uslot i) (Hlin : ¬ uslot linoff).
Implicit Types s : mach A.

Lemma slot_va_off i : index_ok i → L4OFF (slot_va i) = i.
Proof.
  intros Hi. unfold index_ok in Hi. unfold slot_va, hal_virtmem_userbase, pt_umap_minaddr.
  change (Z.shiftl 1 L4_SHIFT) with (2 ^ 39). rewrite u64_small by (unfold word64; lia).
  unfold L4OFF. rewrite land_ones_9, Z.shiftr_div_pow2 by lia. rewrite Z.add_0_l, Z.div_mul by lia.
  by apply Z.mod_small.
Qed.

Definition root_set (j v : Z) s : mach A := set_frames (frame_update (m_frames s) (m_root s) j v) s.

Lemma root_points s j : cpu_inv K s → index_ok j → points s (linmap_get_l4p (slot_va j)) (m_root s) j.
Proof.
  intros Hi Hj. destruct (linmap_addrs (slot_va j)) as (-> & _). rewrite slot_va_off by done.
  apply (lin_points K s []); [done|by left|done|done].
Qed.

Lemma root_set_entry s j v f i :
  cpu_inv K s → index_ok j → index_ok i →
  entry (m_frames (root_set j v s)) f i = if decide (m_root s = f ∧ j = i) then v else entry (m_frames s) f i.
Proof. intros Hi Hj Hx. apply entry_update; [by apply (ci_root _ _ Hi)|done|done]. Qed.

Lemma root_set_inv s j v : cpu_inv K s → uslot j → cpu_inv K (root_set j v s).
Proof.
  intros Hi Hu. assert (index_ok j) as Hj by (unfold uslot, index_ok in *; change UMAP_L4PTES with 8 in *; lia).
  pose proof (λ f i, root_set_entry s j v f i Hi Hj) as He. destruct (ci_alloc _ _ Hi) as [A1 A2 A3 A4].
  assert (∀ i, K i → index_ok i → cpu_top (root_set j v s) i = cpu_top s i) as Htop.
  { intros i Hk Hx. unfold cpu_top. simpl m_root. rewrite He by done. rewrite decide_False; [done|].
    intros [_ <-]. by apply (HK j). }
  assert (∀ p, path_ok K p → table (cpu_top s) (m_frames (root_set j v s)) p = table (cpu_top s) (m_frames s) p) as Htab.
  { apply table_agree; [done|]. intros p f i Hp _ Hx Ht. rewrite He by done. rewrite decide_False; [done|].
    intros [<- _]. destruct (so_frame _ _ _ _ (ci_space _ _ Hi) p _ Hp Ht) as [_ Hn]. apply Hn. by right. }
  split.
  - split; [done| |done|done]. intros g Hg. by apply frame_update_ok, A2.
  - apply (space_ok_top_ext K _ (cpu_top s)); [intros; by apply (ci_slots _ _ Hi)|done|].
    destruct (ci_space _ _ Hi) as [S1 S2 S3 S4]. split.
    + intros p f Hp. rewrite Htab by done. intros Ht. destruct (S1 p f Hp Ht). split; [by apply frame_update_ok|done].
    + intros p q f Hp Hq. rewrite !Htab by done. by apply S2.
    + done.
    + intros p f i Hp Hl Hx. rewrite Htab by done. intros Ht. rewrite He by done. rewrite decide_False; [by apply (S4 p)|].
      intros [<- _]. destruct (S1 p _ Hp Ht) as [_ Hn]. apply Hn. by right.
  - apply frame_update_ok. by apply (ci_root _ _ Hi).
  - by apply (ci_root_used _ _ Hi).
  - unfold cpu_top. simpl m_root. rewrite He by apply linoff_ok. rewrite decide_False; [by apply Hi|].
    intros [_ Hc]. rewrite Hc in Hu. done.
  - by apply (ci_kdata _ _ Hi).
  - by apply (ci_slots _ _ Hi).
Qed.

Lemma root_set_leaf s j v va :
  cpu_inv K s → uslot j → K (L4OFF va) →
  leaf (cpu_top (root_set j v s)) (m_frames (root_set j v s)) va = leaf (cpu_top s) (m_frames s) va.
Proof.
  intros Hi Hu Hk. assert (index_ok j) as Hj by (unfold uslot, index_ok in *; change UMAP_L4PTES with 8 in *; lia).
  pose proof (λ f i, root_set_entry s j v f i Hi Hj) as He.
  destruct (off_range va) as (I4 & I3 & I2 & I1). unfold leaf.
  rewrite (table_agree K (cpu_top s) (m_frames s)); [| | |by apply va_path].
  - destruct (table _ _ _) as [f|] eqn:Ef; [|done]. rewrite He by done. rewrite decide_False; [done|].
    intros [<- _]. destruct (so_frame _ _ _ _ (ci_space _ _ Hi) _ _ (va_path K va Hk) Ef) as [_ Hn]. apply Hn. by right.
  - intros i Hki Hx. unfold cpu_top. simpl m_root. rewrite He by done. rewrite decide_False; [done|].
    intros [_ <-]. by apply (HK j).
  - intros p f i Hp _ Hx Ht. rewrite He by done. rewrite decide_False; [done|].
    intros [<- _]. destruct (so_frame _ _ _ _ (ci_space _ _ Hi) p _ Hp Ht) as [_ Hn]. apply Hn. by right.
Qed.

(** The entries a load takes. *)
Definition new_l4e (umap : option Z) s (i : Z) : Z :=
  match umap with Some u => tl_read (InData u) s i | None => 0 end.

Definition loaded s s' : Prop :=
  m_kdata s' = m_kdata s ∧ m_root s' = m_root s ∧ m_alloc s' = m_alloc s ∧
  m_free_pages s' = m_free_pages s ∧ m_alock s' = m_alock s ∧
  (∀ f, f ≠ m_root s → m_frames s' !! f = m_frames s !! f).

Lemma load_slots_run umap s0 (n : nat) : ∀ lo s op,
  0 ≤ lo → lo + n ≤ UMAP_L4PTES → (∀ u, umap = Some u → tl_ok uslot (InData u) s0) →
  cpu_inv K s → m_kdata s = m_kdata s0 → 0 ≤ op →
  ∃ op' s', load_slots umap (seqZ lo n) op s = Ret (op', s') ∧ cpu_inv K s' ∧ loaded s s' ∧
    (∀ va, K (L4OFF va) → leaf (cpu_top s') (m_frames s') va = leaf (cpu_top s) (m_frames s) va) ∧
    (∀ i, index_ok i → cpu_top s' i =
       if decide (lo ≤ i < lo + n) then new_l4e umap s0 i else cpu_top s i) ∧
    0 ≤ op' ∧ (op ≠ 0 ∨ (∃ i, lo ≤ i < lo + n ∧ pte_present (cpu_top s i) = true) → op' ≠ 0).
Proof.
  induction n as [|n IH]; intros lo s op Hlo Hhi Hu Hi Hk Hop.
  - exists op, s. split; [done|]. split; [done|]. split; [done|]. split; [done|]. split.
    { intros i _. by rewrite decide_False by lia. }
    split; [done|]. intros [?|(i & ? & _)]; [done|lia].
  - rewrite seqZ_cons by lia. cbn [load_slots]. replace (Z.pred (S n)) with (Z.of_nat n) by lia.
    assert (uslot lo) as Hs by (unfold uslot; lia).
    assert (index_ok lo) as Hx by (unfold uslot, index_ok in *; change UMAP_L4PTES with 8 in *; lia).
    assert ((match umap with Some u => kload (u + 8 * lo) | None => mret 0 end) s =
      Ret (new_l4e umap s0 lo, s)) as Hnew.
    { destruct umap as [u|]; [|done]. destruct (Hu u eq_refl lo Hs) as ([v Hv] & Hdm & Hal).
      cbn. rewrite Hv. apply data_load_run; [by rewrite Hk|done|done]. }
    mrun Hnew. destruct (root_points s lo Hi Hx) as [_ Hset]. mrun (Hset (new_l4e umap s0 lo)).
    set (v := new_l4e umap s0 lo). fold (root_set lo v s). set (old := entry (m_frames s) (m_root s) lo).
    set (o1 := X86Pmap.hal_l1e_tlbop old v).
    assert (0 ≤ o1) as Ho1 by (unfold o1, X86Pmap.hal_l1e_tlbop; repeat case_bool; done).
    assert (pte_present old = true → o1 ≠ 0) as Hold.
    { intros Hp. unfold o1, X86Pmap.hal_l1e_tlbop.
      assert (has (l1eflags old) PTE_P = true) as ->
        by (unfold pte_present, has, l1eflags in *; by rewrite <- Z.land_assoc).
      rewrite orb_true_r. simpl. by case_bool. }
    destruct (IH (Z.succ lo) (root_set lo v s) (Z.lor op o1)) as (op' & s' & Hrun & Hi' & Hl & Hlf & Ht & Hop' & Hne);
      [lia|lia|done|by apply root_set_inv|done|by apply Z.lor_nonneg|].
    exists op', s'. split; [exact Hrun|]. split; [done|].
    destruct Hl as (L1 & L2 & L3 & L4 & L5 & L6). split; [|split; [|split; [|split; [done|]]]].
    + split_and!; try done. intros f Hf. rewrite L6 by done. simpl. unfold frame_update. by rewrite lookup_alter_ne.
    + intros va Hkv. rewrite Hlf by done. by apply root_set_leaf.
    + intros i Hxi. rewrite Ht by done. unfold cpu_top at 1. simpl m_root. rewrite root_set_entry by done.
      destruct (decide (i = lo)) as [->|Hil].
      * rewrite (decide_False (P := Z.succ lo ≤ lo < _)) by lia. rewrite (decide_True (P := lo ≤ lo < _)) by lia.
        by rewrite decide_True.
      * rewrite (decide_False (P := m_root s = m_root s ∧ lo = i)) by (intros [_ ?]; congruence).
        destruct (decide (Z.succ lo ≤ i < Z.succ lo + n)).
        -- by rewrite decide_True by lia.
        -- by rewrite decide_False by lia.
    + intros Hc. apply Hne. destruct Hc as [Hc|(i & Hir & Hip)].
      * left. rewrite Z.lor_eq_0_iff. tauto.
      * destruct (decide (i = lo)) as [->|Hil].
        -- left. rewrite Z.lor_eq_0_iff. intros [_ ?]. by apply Hold.
        -- right. exists i. split; [lia|]. unfold cpu_top. simpl m_root. rewrite root_set_entry;
             [|done|done|unfold index_ok; change UMAP_L4PTES with 8 in *; lia].
           rewrite decide_False; [done|]. intros [_ ?]. congruence.
Qed.

(** The map a load leaves behind, in the kernel's data and in the CPU's table. *)
Section load_map.
Context (u : Z) (s s' : mach A) (Hi : space_inv uslot (InData u) s) (Hi' : cpu_inv K s').
Context (Hroot : ∀ p, path_ok uslot p → sp_table (InData u) s p ≠ Some (m_root s)).
Context (Hl : loaded s s').
Context (Htop : ∀ i, uslot i → cpu_top s' i = tl_read (InData u) s i).

Lemma loaded_frame p f :
  path_ok uslot p → sp_table (InData u) s p = Some f → m_frames s' !! f = m_frames s !! f.
Proof. intros Hp Ht. destruct Hl as (_ & _ & _ & _ & _ & Hf). apply Hf. intros ->. by apply (Hroot p). Qed.

Lemma loaded_table p : path_ok uslot p → table (tl_read (InData u) s) (m_frames s') p = sp_table (InData u) s p.
Proof.
  apply table_agree; [done|]. intros q f i Hq _ _ Ht. unfold entry, frame_word. by rewrite (loaded_frame q).
Qed.

Lemma loaded_space (F : Z → Prop) (top : Z → Z) :
  (∀ i, uslot i → top i = tl_read (InData u) s i) →
  (∀ f, F f → f ∈ free_frames s ∨ f = m_root s) → space_ok uslot F top (m_frames s').
Proof.
  intros Ht HF. pose proof (sp_slots _ _ _ Hi) as HD. destruct (sp_space _ _ _ Hi) as [S1 S2 S3 S4].
  apply (space_ok_top_ext uslot _ (tl_read (InData u) s)); [done|by intros; apply Ht|]. split.
  - intros p f Hp. rewrite loaded_table by done. intros Hf. destruct (S1 p f Hp Hf) as [[Hr Hfr] Hn]. split.
    + split; [done|]. by rewrite (loaded_frame p).
    + intros [Hc| ->]%HF; [apply Hn; by left|by apply (Hroot p)].
  - intros p q f Hp Hq. rewrite !loaded_table by done. by apply S2.
  - done.
  - intros p f i Hp Hlen Hx. rewrite loaded_table by done. intros Hf. unfold entry, frame_word.
    rewrite (loaded_frame p) by done. by apply (S4 p).
Qed.

Lemma loaded_cpu_inv : cpu_inv uslot s'.
Proof.
  destruct Hl as (L1 & L2 & L3 & _). destruct Hi' as [A1 _ C3 C4 C5 C6 _].
  split; [done| |done|done|done|done|].
  - apply loaded_space; [done|]. unfold not_tables, free_frames. rewrite L2, L3. done.
  - intros i Hu. split; [by apply Hi|]. intros ->. by apply Hlin.
Qed.

Lemma loaded_space_inv : space_inv uslot (InData u) s'.
Proof.
  destruct Hl as (L1 & L2 & L3 & _).
  assert (∀ i, tl_read (InData u) s' i = tl_read (InData u) s i) as Htl by (intros i; cbn; by rewrite L1).
  split; [by apply Hi'| | |by apply Hi|].
  - apply loaded_space; [done|]. intros f [Hf|?]; [left|done]. unfold free_frames in *. by rewrite <- L3.
  - intros i Hu. rewrite L1. by apply (sp_top _ _ _ Hi).
  - intros p f Hp. unfold sp_table. rewrite (table_top_ext uslot (tl_read (InData u) s)) by done.
    rewrite loaded_table by done. rewrite L3. by apply Hi.
Qed.

Lemma loaded_leaf va : uslot (L4OFF va) → leaf (cpu_top s') (m_frames s') va = sp_leaf (InData u) s va.
Proof.
  intros Hd. unfold leaf. rewrite (table_top_ext uslot (tl_read (InData u) s)); [|by auto|by apply va_path].
  rewrite loaded_table by (by apply va_path). unfold sp_leaf, leaf, sp_table.
  destruct (table _ _ _) as [f|] eqn:E; [|done]. unfold entry, frame_word.
  by rewrite (loaded_frame _ f (va_path uslot va Hd) E).
Qed.

End load_map.

End load.

(** * A new map *)

Lemma pae64_alloc_table_spec {CFG : Config} {CFGOK : ConfigOk} {LIN : Pae64Config} {LINOK : Pae64ConfigOk}
    {A : Type} `{!PfnCache A, !PfnAllocator A, !PfnAllocatorLaws A} (user : bool) :
  alloc_table_spec (alloc_table user : M (mach A) Z).
Proof.
  intros s Hok. destruct (alloc_table_run user s Hok)
    as [?|(r & a' & Hr & Hfr & Hal & A2 & Hf & Hrg & Hg & Hpf & Hne)]; [by left|right].
  exists r, a', (mkpte r (table_flags user)). do 6 (split; [done|]). by apply good_table_ok in Hg.
Qed.

(** * Properties *)

(** [pt_umap_next] finds the next page in use of a user map, and changes
    nothing: the address it returns is the least page above the one it is given
    whose last-level entry is not zero, with that entry and a pointer through
    which the entry is read; it returns [UADDR_INVALID] exactly when every
    later page of the user area has a zero entry. *)
Theorem pt_umap_next_correct `{!Config} (Hcfg : ConfigOk) `{!Pae64Config} (Hlin : Pae64ConfigOk)
    {A : Type} `{!PfnCache A, !PfnAllocator A} (Hlaws : PfnAllocatorLaws A) (u uaddr : Z) (s : mach A)
    (Hi : space_inv uslot (InData u) s) (Hu : 0 ≤ uaddr < pt_umap_maxaddr) :
  (∃ va p, pt_umap_next (Some u) uaddr s = Ret ((va, Some (p, sp_leaf (InData u) s va)), s) ∧
     va `mod` 4096 = 0 ∧ uaddr < va < pt_umap_maxaddr ∧ sp_leaf (InData u) s va ≠ 0 ∧
     get_pte p s = Ret (sp_leaf (InData u) s va, s) ∧
     ∀ va', uaddr `div` 4096 < va' `div` 4096 → va' < va → sp_leaf (InData u) s va' = 0) ∨
  (pt_umap_next (Some u) uaddr s = Ret ((UADDR_INVALID, None), s) ∧
     ∀ va', uaddr `div` 4096 < va' `div` 4096 → va' < pt_umap_maxaddr → sp_leaf (InData u) s va' = 0).
Proof.
  destruct (pt_umap_next_run u s uaddr Hi Hu) as (r & Hrun & Hl). change pt_umap_maxaddr with (2 ^ 42) in *.
  change UMAP_L4PTES with 8 in Hl. change (512 ^ 3) with 134217728 in Hl.
  assert (∀ va', uaddr `div` 4096 < va' `div` 4096 → va' < 2 ^ 42 →
    sp_leaf (InData u) s va' = page_leaf (InData u) s (va' `div` 4096)) as Hpl.
  { intros va' H1 H2. apply sp_leaf_page. Z.div_mod_to_equations; lia. }
  destruct r as [m|]; [left|right].
  - destruct Hl as (Hm & Hne & Hb). assert ((4096 * m) `div` 4096 = m) as Hdm by (Z.div_mod_to_equations; lia).
    assert (sp_leaf (InData u) s (4096 * m) = page_leaf (InData u) s m) as Hlf by (rewrite Hpl, Hdm by lia; done).
    exists (4096 * m), (page_ptr fgn_ptr (InData u) s m). rewrite Hlf. split; [exact Hrun|].
    split; [Z.div_mod_to_equations; lia|]. split; [Z.div_mod_to_equations; lia|]. split; [done|]. split.
    + rewrite page_leaf_path in *. unfold page_ptr. destruct (sp_table _ _ (page_path m)) as [f|] eqn:Ef; [|done].
      simpl. apply fgn_get; [|apply Z.mod_pos_bound; lia].
      apply (so_frame _ _ _ _ (sp_space _ _ _ Hi) (page_path m)); [|done]. apply (next_path uslot (InData u) s Hi m).
      unfold uslot. change UMAP_L4PTES with 8. change (512 ^ 3) with 134217728. Z.div_mod_to_equations; lia.
    + intros va' H1 H2. rewrite Hpl by (Z.div_mod_to_equations; lia).
      apply dec_stable. apply Hb. Z.div_mod_to_equations; lia.
  - split; [exact Hrun|]. intros va' H1 H2. rewrite Hpl by done. apply dec_stable. apply Hl.
    Z.div_mod_to_equations; lia.
Qed.

(** [pt_umap_free] gives every table of a user map back to the allocator,
    each exactly once, so that the count of free pages stays exact, and nothing
    else; it clears the map's top level and changes no frame's contents. *)
Theorem pt_umap_free_correct `{!Config} (Hcfg : ConfigOk) `{!Pae64Config} (Hlin : Pae64ConfigOk)
    {A : Type} `{!PfnCache A, !PfnAllocator A} (Hlaws : PfnAllocatorLaws A) (u : Z) (s : mach A)
    (Hi : space_inv uslot (InData u) s) :
  ∃ s', pt_umap_free u s = Ret (tt, s') ∧ alloc_ok s' ∧ m_frames s' = m_frames s ∧
    (∀ f, f ∈ free_frames s' ↔ f ∈ free_frames s ∨
       ∃ p, path_ok uslot p ∧ sp_table (InData u) s p = Some f) ∧
    (∀ i, uslot i → m_kdata s' !! (u + 8 * i) = Some PTE_INVALID) ∧
    (∀ a, (∀ i, uslot i → a ≠ u + 8 * i) → m_kdata s' !! a = m_kdata s !! a).
Proof.
  destruct (free_slots_run pte_present (λ _, true) UMAP_L4PTES u s Hi) as (s' & Hrun & [F1 F2 F3 F4 F5 F6] & Hz & Hk);
    [done..|].
  exists s'. split; [exact Hrun|]. split; [done|]. split; [done|]. split; [|done].
  intros f. rewrite F5. by setoid_rewrite (left_id True (∧)).
Qed.

(** [hal_umap_init] makes a user map without mappings out of any array of
    words, whatever they held: its top-level entries are fresh empty tables of
    its own, or empty when frames run out. Frames in use keep their contents. *)
Theorem hal_umap_init_correct `{!Config} (Hcfg : ConfigOk) `{!Pae64Config} (Hlin : Pae64ConfigOk)
    {A : Type} `{!PfnCache A, !PfnAllocator A} (Hlaws : PfnAllocatorLaws A) (u : Z) (s : mach A)
    (Hok : alloc_ok s) (Hw : ∀ i, uslot i → is_Some (m_kdata s !! (u + 8 * i)))
    (Hdm : ∀ i, uslot i → in_dmap (u + 8 * i) = false ∧ (u + 8 * i) `mod` 8 = 0) :
  ∃ s', hal_umap_init u s = Ret (tt, s') ∧ space_inv uslot (InData u) s' ∧
    (∀ va, uslot (L4OFF va) → sp_leaf (InData u) s' va = 0) ∧ init_frame UMAP_L4PTES u s s'.
Proof.
  assert (0 ≤ UMAP_L4PTES ≤ 512) as Hn by done.
  destruct (init_slots_run UMAP_L4PTES u Hn (alloc_table true) s (pae64_alloc_table_spec true) Hok Hw Hdm)
    as (s' & Hr & Hf & Hfr & _).
  destruct (fresh_space UMAP_L4PTES u Hn s' Hf Hdm) as [Hi Hz]. by exists s'.
Qed.

(** C25. [hal_umap_load] switches the CPU to a user map: afterwards the CPU
    translates every address of the user area as the map's entries say, and
    every kernel address as before. It asks for a TLB flush whenever the
    previous map had a table. *)
Theorem hal_umap_load_correct `{!Config} (Hcfg : ConfigOk) `{!Pae64Config} (Hlin : Pae64ConfigOk)
    {A : Type} `{!PfnCache A, !PfnAllocator A} (Hlaws : PfnAllocatorLaws A) (K : Z → Prop) (u : Z) (s : mach A)
    (HK : ∀ i, K i → ¬ uslot i) (Hself : ¬ uslot linoff) (Hcpu : cpu_inv K s)
    (Hi : space_inv uslot (InData u) s)
    (Hroot : ∀ p, path_ok uslot p → sp_table (InData u) s p ≠ Some (m_root s)) :
  let tr (s : mach A) := mmu (m_frames s) (m_root s) in
  ∃ op s', hal_umap_load (Some u) s = Ret (op, s') ∧ cpu_inv K s' ∧ space_inv uslot (InData u) s' ∧
    (∀ va, uslot (L4OFF va) → canonical va = true → tr s' va = translate_leaf (sp_leaf (InData u) s va)) ∧
    (∀ va, K (L4OFF va) → canonical va = true → tr s' va = tr s va) ∧
    ((∃ i, uslot i ∧ pte_present (cpu_top s i) = true) → op ≠ HAL_TLBOP_NONE).
Proof.
  intros tr. destruct (load_slots_run K HK Hself (Some u) s 8 0 s HAL_TLBOP_NONE)
    as (op & s' & Hrun & Hi' & Hl & Hlf & Ht & _ & Hop); [done|done| |done|done|done|].
  { intros u' [= <-]. by apply Hi. }
  assert (∀ i, uslot i → cpu_top s' i = tl_read (InData u) s i) as Htop.
  { intros i Hu. rewrite Ht by (by apply Hi). unfold uslot in Hu. change UMAP_L4PTES with 8 in Hu.
    by rewrite decide_True by lia. }
  exists op, s'. split; [exact Hrun|]. split; [done|]. split; [by eapply loaded_space_inv|]. split_and!.
  - intros va Hu Hc. unfold tr. rewrite (mmu_leaf uslot); [|by eapply loaded_cpu_inv|done..].
    by rewrite (loaded_leaf u s s').
  - intros va Hk Hc. unfold tr. rewrite !(mmu_leaf K) by done. by rewrite Hlf.
  - intros (i & Hu & Hp). apply Hop. right. exists i. split; [|done]. unfold uslot in Hu.
    change UMAP_L4PTES with 8 in Hu. lia.
Qed.

(** * A small machine with a user map, for evaluation

    Frame 0 is the CPU's top level; frames 1, 2 and 3 are the tables of a map
    whose page 5 is frame 6; frame 4 is free. *)

#[local] Existing Instance ex_config.
#[local] Existing Instance ex_nocache.
#[local] Existing Instance ex_config_ok.
#[local] Existing Instance ex64_config.
#[local] Existing Instance ex64_config_ok.

Definition exu_addr : Z := 0xffffffff80100000.

Definition exu : mach pfa :=
  Mach {[0 := ex64_root; 1 := <[0%nat := mkpte 2 7]> zero_page; 2 := <[0%nat := mkpte 3 7]> zero_page;
         3 := <[5%nat := mkpte 6 7]> zero_page; 4 := ex_page]}
    (list_to_map ((λ i, (exu_addr + 8 * i, if i =? 0 then mkpte 1 7 else 0)) <$> seqZ 0 8))
    0 1 rwlock_init (Pfa [16] 3 false).

Lemma exu_free : free_frames exu = {[4]}.
Proof. apply ex_free1. Qed.

Lemma exu_alloc_ok : alloc_ok exu.
Proof. by apply ex_alloc1_ok. Qed.

Lemma exu_top i :
  uslot i → sub_table (tl_read (InData exu_addr) exu i) = (if decide (i = 0) then Some 1 else None) ∧
  is_Some (m_kdata exu !! (exu_addr + 8 * i)) ∧ in_dmap (exu_addr + 8 * i) = false ∧
  (exu_addr + 8 * i) `mod` 8 = 0 ∧ (pte_present (tl_read (InData exu_addr) exu i) = true →
    PageTable.pte_table_ok (tl_read (InData exu_addr) exu i) = true).
Proof.
  intros Hu. assert (i ∈ seqZ 0 8) as Hin by (apply elem_of_seqZ; unfold uslot in Hu; change UMAP_L4PTES with 8 in Hu; lia).
  clear Hu. revert i Hin. apply Forall_forall. apply (bool_decide_unpack _). vm_compute. done.
Qed.

Lemma exu_words i :
  index_ok i → sub_table (entry (m_frames exu) 1 i) = (if decide (i = 0) then Some 2 else None) ∧
  sub_table (entry (m_frames exu) 2 i) = (if decide (i = 0) then Some 3 else None) ∧
  (∀ f, f = 1 ∨ f = 2 → pte_present (entry (m_frames exu) f i) = true →
     PageTable.pte_table_ok (entry (m_frames exu) f i) = true).
Proof.
  intros Hx. assert (i ∈ seqZ 0 512) as Hin by (apply elem_of_seqZ; unfold index_ok in Hx; lia).
  assert (Forall (λ i, sub_table (entry (m_frames exu) 1 i) = (if decide (i = 0) then Some 2 else None) ∧
    sub_table (entry (m_frames exu) 2 i) = (if decide (i = 0) then Some 3 else None) ∧
    (pte_present (entry (m_frames exu) 1 i) = true → PageTable.pte_table_ok (entry (m_frames exu) 1 i) = true) ∧
    (pte_present (entry (m_frames exu) 2 i) = true → PageTable.pte_table_ok (entry (m_frames exu) 2 i) = true))
    (seqZ 0 512)) as Hfa by (apply (bool_decide_unpack _); vm_compute; done).
  rewrite Forall_forall in Hfa. destruct (Hfa i Hin) as (H1 & H2 & H3 & H4). split_and!; [done..|].
  by intros f [->| ->].
Qed.

Lemma exu_table p f :
  path_ok uslot p → sp_table (InData exu_addr) exu p = Some f →
  p = [0] ∧ f = 1 ∨ p = [0; 0] ∧ f = 2 ∨ p = [0; 0; 0] ∧ f = 3.
Proof.
  intros ((i & q & -> & Hi) & Hfa & Hlen). unfold sp_table. cbn [table].
  destruct (exu_top i Hi) as (-> & _). case_decide as E; [|done]. cbn [mbind option_bind]. subst i.
  destruct q as [|j q]; [intros [= <-]; auto|]. cbn [walk]. rewrite !Forall_cons in Hfa. destruct Hfa as (_ & Hj & Hq).
  destruct (exu_words j Hj) as (-> & _). case_decide as E; [|done]. cbn [mbind option_bind]. subst j.
  destruct q as [|k q]; [intros [= <-]; auto|]. cbn [walk]. rewrite !Forall_cons in Hq. destruct Hq as (Hk & Hq).
  destruct (exu_words k Hk) as (_ & -> & _). case_decide as E; [|done]. cbn [mbind option_bind]. subst k.
  destruct q as [|? q]; [intros [= <-]; auto|]. simpl in Hlen. lia.
Qed.

Lemma exu_space : space_inv uslot (InData exu_addr) exu.
Proof.
  assert (∀ f, f ∈ free_frames exu → f = 4) as Hfree by (intros f; rewrite exu_free; set_solver).
  split.
  - apply exu_alloc_ok.
  - split.
    + intros p f Hp Ht. destruct (exu_table p f Hp Ht) as [[-> ->]|[[-> ->]|[-> ->]]];
        (split; [split; [done|by eexists]|intros [Hc%Hfree|[=]]; done]).
    + intros p q f Hp Hq Ht Ht'.
      destruct (exu_table p f Hp Ht) as [[-> ->]|[[-> ->]|[-> ->]]],
        (exu_table q _ Hq Ht') as [[-> ?]|[[-> ?]|[-> ?]]]; done.
    + intros i Hu. by apply exu_top.
    + intros p f i Hp Hl Hx Ht. destruct (exu_words i Hx) as (_ & _ & Hw).
      destruct (exu_table p f Hp Ht) as [[-> ->]|[[-> ->]|[-> ->]]]; [auto|auto|simpl in Hl; lia].
  - intros i Hu. destruct (exu_top i Hu) as (_ & ? & ? & ? & _). done.
  - unfold uslot, index_ok. change UMAP_L4PTES with 8. lia.
  - intros p f Hp Ht. destruct (exu_table p f Hp Ht) as [[-> ->]|[[-> ->]|[-> ->]]]; done.
Qed.

Lemma exu_cpu_inv : cpu_inv ex64_slots exu.
Proof.
  assert (∀ p, path_ok ex64_slots p → table (cpu_top exu) (m_frames exu) p = None) as Ht.
  { intros p ((i & p' & -> & ->) & _). cbn [table]. by vm_compute. }
  split.
  - apply exu_alloc_ok.
  - split.
    + intros p f Hp. by rewrite Ht.
    + intros p q f Hp Hq. by rewrite Ht.
    + intros i ->. by vm_compute.
    + intros p f i Hp _ _. by rewrite Ht.
  - split; [done|]. by exists ex64_root.
  - rewrite exu_free. simpl. set_solver.
  - split; [|done]. by split.
  - intros p [v Hv]. apply (elem_of_list_to_map_2 (M := gmap Z)) in Hv.
    apply list_elem_of_fmap in Hv as (i & [= -> _] & Hi). revert i Hi. apply Forall_forall.
    apply (bool_decide_unpack _). vm_compute. done.
  - intros i ->. split; [done|]. by vm_compute.
Qed.

Lemma pt_umap_next_correct_witness :
  pt_umap_next (Some exu_addr) 0x1234 exu = Ret ((0x5000, Some (fgn_ptr 3 5, mkpte 6 7)), exu).
Proof.
  destruct (pt_umap_next_correct ex_config_ok ex64_config_ok stree_allocator_laws exu_addr 0x1234 exu exu_space)
    as [(va & p & Hr & _)|[Hr _]]; [done| |]; vm_compute; done.
Defined.

Lemma exu_va : uslot (L4OFF 0x5000) ∧ canonical 0x5000 = true.
Proof. by vm_compute. Qed.

Lemma exu_paths : path_ok uslot [0] ∧ path_ok uslot [0; 0; 0].
Proof.
  assert (uslot 0) as H0 by done. split.
  - split_and!; [by exists 0, []|by repeat constructor|simpl; lia].
  - split_and!; [by exists 0, [0; 0]|by repeat constructor|simpl; lia].
Qed.

Lemma pt_umap_free_correct_witness :
  ∃ s', pt_umap_free exu_addr exu = Ret (tt, s') ∧ 1 ∈ free_frames s' ∧ 3 ∈ free_frames s'.
Proof.
  destruct (pt_umap_free_correct ex_config_ok ex64_config_ok stree_allocator_laws exu_addr exu exu_space)
    as (s' & Hr & _ & _ & Hf & _).
  exists s'. split; [exact Hr|]. split; apply Hf; right; [exists [0]|exists [0; 0; 0]];
    (split; [apply exu_paths|vm_compute; reflexivity]).
Defined.

Lemma hal_umap_init_correct_witness :
  ∃ s', hal_umap_init exu_addr exu = Ret (tt, s') ∧ space_inv uslot (InData exu_addr) s' ∧
    sp_leaf (InData exu_addr) s' 0x5000 = 0.
Proof.
  destruct (hal_umap_init_correct ex_config_ok ex64_config_ok stree_allocator_laws exu_addr exu exu_alloc_ok)
    as (s' & Hr & Hi & Hz & _).
  - intros i Hu. apply exu_top. exact Hu.
  - intros i Hu. destruct (exu_top i Hu) as (_ & _ & ? & ? & _). done.
  - exists s'. split; [exact Hr|]. split; [exact Hi|]. apply Hz. exact (proj1 exu_va).
Defined.

Lemma hal_umap_load_correct_witness :
  ∃ op s', hal_umap_load (Some exu_addr) exu = Ret (op, s') ∧ mmu (m_frames s') (m_root s') 0x5000 = Some 6.
Proof.
  destruct (hal_umap_load_correct ex_config_ok ex64_config_ok stree_allocator_laws ex64_slots exu_addr exu)
    as (op & s' & Hr & _ & _ & Ht & _).
  - intros i -> Hc. vm_compute in Hc. by destruct Hc.
  - intros Hc. vm_compute in Hc. by destruct Hc.
  - apply exu_cpu_inv.
  - apply exu_space.
  - intros p Hp Ht. destruct (exu_table p _ Hp Ht) as [[_ ?]|[[_ ?]|[_ ?]]]; done.
  - exists op, s'. split; [exact Hr|]. rewrite Ht; [vm_compute; reflexivity|apply exu_va|apply exu_va].
Defined.
