(* ===== verification/UmapCur64.v ===== *)
(** The user map that the CPU has loaded, on amd64: its tables are reached from the
    CPU's own top level through the linear map, and what is changed there is the map
    itself. *)

From S2P Require Import Prelude Words Stree Locks Machine Pfnalloc Hal X86Pmap PageTable Space UmapInit UmapScan UmapFree.
From S2P Require Import Pae64 Kmap Amd64 Umap64.

Section amd64.
Context {CFG : Config} {CFGOK : ConfigOk} {LIN : Pae64Config} {LINOK : Pae64ConfigOk}.
Context {A : Type} `{!PfnCache A, !PfnAllocator A, !PfnAllocatorLaws A}.
Implicit Types s : mach A.

(** The tables of [u] hang below the CPU's top level. *)
Definition cur_map (u : Z) s : Prop :=
  cpu_inv uslot s ∧ ∀ i f, uslot i → sp_table (InData u) s [i] = Some f → walk (m_frames s) (m_root s) [i] = Some f.

Lemma slot_path i : uslot i → path_ok uslot [i].
Proof. intros Hu. apply path_ok_one; [done|]. unfold uslot in Hu. change UMAP_L4PTES with 8 in Hu. unfold index_ok. lia. Qed.

Lemma cur_walk u s q f : cur_map u s → path_ok uslot q → sp_table (InData u) s q = Some f →
    walk (m_frames s) (m_root s) q = Some f.
Proof.
  intros [_ Hc] ((i & p' & -> & Hu) & _). specialize (Hc i). unfold sp_table in *. cbn [table walk] in *.
  destruct (sub_table (tl_read (InData u) s i)) as [g|]; [|done]. intros Hw. specialize (Hc g Hu eq_refl).
  destruct (sub_table (entry (m_frames s) (m_root s) i)) as [h|]; [|done]. cbn in *. by injection Hc as ->.
Qed.

(** Two pointers to the same word. *)
Lemma fetch_same p p' v alloc user s : get_pte p s = Ret (v, s) → get_pte p' s = Ret (v, s) →
  (∀ e t, alloc_table user s = Ret (e, t) → e ≠ PTE_INVALID → set_pte p e t = set_pte p' e t) →
    fetch_table p alloc user s = fetch_table p' alloc user s.
Proof.
  intros Hp Hp' Hs. unfold fetch_table. mrun Hp. mrun Hp'. destruct (pte_present v); [done|].
  destruct alloc; [|done]. cbn [negb].
  unfold mbind, M_bind. destruct (alloc_table user s) as [[e t]|] eqn:E; [|done].
  destruct (Z.eqb_spec e PTE_INVALID) as [|Hne]; [done|].
  by rewrite (Hs e t eq_refl Hne).
Qed.

(** The word [i] of the table at path [q], through the linear map and through the
    direct map. *)
Lemma cur_fetch u s q i f alloc : cur_map u s → space_inv uslot (InData u) s → q ≠ [] → path_ok uslot (q ++ [i]) →
    sp_table (InData u) s q = Some f →
  fetch_table (lin_addr q i) alloc true s = fetch_table (fgn_ptr f i) alloc true s.
Proof.
  intros Hc Hi Hne Hp Hf. destruct (path_ok_prefix uslot q i Hp Hne) as (Hq & Hix & _).
  pose proof (cur_walk u s q f Hc Hq Hf) as Hw. destruct Hc as [Hcpu _].
  pose proof (cpu_table_frame uslot s q f Hcpu (or_intror Hq) Hw) as Hfr.
  destruct (lin_points uslot s q i f Hcpu (or_intror Hq) Hix Hw) as [Hget _].
  apply (fetch_same _ _ _ _ _ _ Hget (fgn_get f i s Hfr Hix)). intros e t Ht He.
  destruct (alloc_table_run true s (ci_alloc _ _ Hcpu)) as [[_ Hr]|(r & a' & Hin & _ & Hr & Hok & Hfree & _)];
    rewrite Ht in Hr; injection Hr as -> ->; [done|].
  pose proof (taken_cpu_inv uslot s r a' Hcpu Hin Hok Hfree) as Hcpu'.
  assert (walk (m_frames (taken s r a')) (m_root (taken s r a')) q = Some f) as Hw'
    by (change (m_root (taken s r a')) with (m_root s); by rewrite (taken_walk uslot) by (done || by right)).
  destruct (lin_points uslot (taken s r a') q i f Hcpu' (or_intror Hq) Hix Hw') as [_ ->]. symmetry. apply fgn_set; [|done].
  by apply (cpu_table_frame uslot _ q f Hcpu' (or_intror Hq)).
Qed.

Lemma cur_step u s q i f alloc : cur_map u s → space_inv uslot (InData u) s → q ≠ [] → path_ok uslot (q ++ [i]) →
    sp_table (InData u) s q = Some f →
  ∃ r s', fetch_table (lin_addr q i) alloc true s = Ret (r, s') ∧ cur_map u s' ∧ space_inv uslot (InData u) s' ∧
    sp_grow uslot (InData u) s s' ∧
    (alloc = false → s' = s) ∧ (size (free_frames s) ≤ size (free_frames s') + 1)%nat ∧
    match r with
    | None => s' = s ∧ sp_table (InData u) s (q ++ [i]) = None ∧ (alloc = false ∨ free_frames s = ∅)
    | Some e => good e ∧ sp_table (InData u) s' (q ++ [i]) = Some (pte_pfn e)
    end.
Proof.
  intros Hc Hi Hne Hp Hf. pose proof (cur_fetch u s q i f alloc Hc Hi Hne Hp Hf) as Heq.
  destruct (path_ok_prefix uslot q i Hp Hne) as (Hq & _ & Hlen).
  pose proof (cur_walk u s q f Hc Hq Hf) as Hw. destruct Hc as [Hcpu Hslots].
  destruct (um_fetch u s q i (fgn_ptr f i) alloc Hi Hp) as (r & s' & Hr & Hi' & Hg & Hna & Hsz & Hm);
    [destruct q; [done|by exists f]|].
  destruct (cpu_fetch uslot s q f i alloc true Hcpu (or_intror Hq) Hlen Hp Hw) as (r2 & s2 & Hr2 & Hcpu2 & Hx2 & _).
  rewrite Heq, Hr in Hr2. injection Hr2 as <- <-.
  exists r, s'. split; [by rewrite Heq|]. split; [|done]. split; [done|]. intros j g Hj Hg'.
  apply (ce_walk _ _ _ Hx2); [right; by apply slot_path|]. apply Hslots; [done|].
  rewrite <- Hg'. unfold sp_table. cbn [table tl_read]. rewrite (ce_kdata _ _ _ Hx2). by destruct (sub_table _).
Qed.

(** [linmap_get_l1p] at an address of a slot that the map has. *)
Lemma cur_get_l1p u s va alloc f4 : cur_map u s → space_inv uslot (InData u) s → uslot (L4OFF va) →
    sp_table (InData u) s [L4OFF va] = Some f4 →
  let q := [L4OFF va; L3OFF va; L2OFF va] in
  ∃ p s', umap_get_l1p None va alloc s = Ret (p, s') ∧ cur_map u s' ∧ space_inv uslot (InData u) s' ∧
    sp_grow uslot (InData u) s s' ∧ (alloc = false → s' = s) ∧
    ((p = PTEP_INVALID ∧ sp_table (InData u) s' q = None ∧
      (alloc = false ∨ free_frames s' = ∅ ∧ (size (free_frames s) < 3)%nat)) ∨
     (∃ f, sp_table (InData u) s' q = Some f ∧ p = lin_addr q (L1OFF va) ∧ p ≠ PTEP_INVALID)).
Proof.
  intros Hc Hi Hd Hf q. destruct (cpu_va_paths uslot va Hd) as (P1 & P2 & P3).
  destruct (linmap_addrs va) as (A4 & A3 & A2 & A1). destruct (off_range va) as (I4 & I3 & I2 & I1).
  pose proof (cur_walk u s _ f4 Hc P1 Hf) as Hw4. unfold umap_get_l1p.
  rewrite bind_assert by (apply Z.ltb_lt; by destruct Hd).
  assert (linmap_get_l3p va alloc true s = Ret (lin_addr [L4OFF va] (L3OFF va), s)) as H3.
  { unfold linmap_get_l3p. rewrite A4.
    destruct (lin_points uslot s [] (L4OFF va) (m_root s) (proj1 Hc) (or_introl eq_refl) I4 eq_refl) as [Hget _].
    cbn [walk] in Hw4. destruct (sub_table (entry (m_frames s) (m_root s) (L4OFF va))) as [g|] eqn:Es; [|done].
    pose proof (cpu_entry_good uslot s [] (L4OFF va) (m_root s) g (proj1 Hc) P1 eq_refl Es) as Hgd.
    destruct (good_checks _ Hgd) as (Hpr & Hres & _).
    assert (fetch_table (lin_addr [] (L4OFF va)) alloc true s = Ret (Some (entry (m_frames s) (m_root s) (L4OFF va)),
      s)) as Hft by (unfold fetch_table; mrun Hget; by rewrite Hpr).
    mrun Hft. rewrite bind_assert by (by rewrite Hres). by rewrite A3. }
  assert (∀ t : mach A, sp_table (InData u) t [L4OFF va; L3OFF va] = None → sp_table (InData u) t q = None) as Hnone.
  { intros t Ht. unfold sp_table in *. change q with ([L4OFF va; L3OFF va] ++ [L2OFF va]). by rewrite table_snoc, Ht. }
  unfold linmap_get_l1p, linmap_get_l2p. rewrite bind_assoc. mrun H3. rewrite (lin_addr_valid uslot) by (done || by right).
  destruct (cur_step u s [L4OFF va] (L3OFF va) f4 alloc Hc Hi ltac:(done) P2 Hf)
    as (r & s1 & Hr & Hc1 & Hi1 & Hg1 & Hna1 & Hsz1 & Hm1). rewrite bind_assoc. mrun Hr.
  destruct r as [e1|].
  2: { mrun. exists PTEP_INVALID, s1. split; [done|]. split_and!; [done..|]. left. destruct Hm1 as (-> & Hn & Ha).
       split; [done|]. split; [by apply Hnone|].
       destruct Ha as [?|Ha]; [by left|right]. rewrite Ha, size_empty. split; [done|lia]. }
  destruct Hm1 as [Hgd1 Ht1]. destruct (good_checks e1 Hgd1) as (_ & _ & Hbig & Hres & _). rewrite !bind_assoc.
  rewrite bind_assert by (by rewrite Hres). rewrite bind_assoc, bind_assert by (by rewrite Hbig).
  mrun. rewrite A2, (lin_addr_valid uslot) by (done || by right).
  destruct (cur_step u s1 [L4OFF va; L3OFF va] (L2OFF va) _ alloc Hc1 Hi1 ltac:(done) P3 Ht1)
    as (r & s2 & Hr2 & Hc2 & Hi2 & Hg2 & Hna2 & Hsz2 & Hm2). mrun Hr2.
  assert (sp_grow uslot (InData u) s s2) as Hg by (by transitivity s1).
  assert (alloc = false → s2 = s) as Hna by (intros Ha; by rewrite Hna2, Hna1).
  destruct r as [e2|].
  2: { exists PTEP_INVALID, s2. split; [done|]. split_and!; [done..|]. left. destruct Hm2 as (-> & Hn & Ha).
       split; [done|]. split; [done|].
       destruct Ha as [?|Ha]; [by left|right]. rewrite Ha, size_empty in Hsz1. split; [done|lia]. }
  destruct Hm2 as [Hgd2 Ht2]. destruct (good_checks e2 Hgd2) as (_ & _ & _ & _ & Hbig2 & Hres2 & _).
  rewrite bind_assert by (by rewrite Hres2). rewrite bind_assert by (by rewrite Hbig2).
  rewrite A1. eexists _, s2. split; [done|]. split_and!; [done..|]. right. exists (pte_pfn e2). split; [done|].
  split; [done|]. apply Z.eqb_neq. by apply (lin_addr_valid uslot); [right|].
Qed.

(** A store to the entry of [va]. *)
Lemma cur_set u s va f e : cur_map u s → space_inv uslot (InData u) s → uslot (L4OFF va) →
    sp_table (InData u) s [L4OFF va; L3OFF va; L2OFF va] = Some f →
  set_pte (lin_addr [L4OFF va; L3OFF va; L2OFF va] (L1OFF va)) e s = Ret (sp_leaf (InData u) s va, leaf_set s va f e)
    ∧ cur_map u (leaf_set s va f e).
Proof.
  intros Hc Hi Hd Hf. pose proof (va_path uslot va Hd) as Hp. destruct (off_range va) as (_ & _ & _ & I1).
  pose proof (cur_walk u s _ f Hc Hp Hf) as Hw. destruct Hc as [Hcpu Hslots]. split.
  - destruct (lin_points uslot s _ (L1OFF va) f Hcpu (or_intror Hp) I1 Hw) as [_ ->]. unfold sp_leaf, leaf.
    unfold sp_table in Hf. by rewrite Hf.
  - split; [exact (write_inv uslot s va f e Hcpu Hd Hw)|]. intros i g Hu.
    rewrite (leaf_set_table uslot (InData u)) by (done || by apply slot_path). intros Hg.
    etrans; [exact (write_walk uslot s va f e Hcpu Hd Hw [i] (slot_path i Hu))|]. by apply Hslots.
Qed.

(** [hal_umap_load] makes a map the one that is loaded. *)
Lemma load_cur K u s : (∀ i, K i → ¬ uslot i) → ¬ uslot linoff → cpu_inv K s → space_inv uslot (InData u) s →
  (∀ p, path_ok uslot p → sp_table (InData u) s p ≠ Some (m_root s)) →
  ∃ op s', hal_umap_load (Some u) s = Ret (op, s') ∧ space_inv uslot (InData u) s' ∧ cur_map u s'.
Proof.
  intros HK Hself Hcpu Hi Hroot.
  destruct (load_slots_run K HK Hself (Some u) s 8 0 s HAL_TLBOP_NONE) as (op & s' & Hrun & Hi' & Hl & _ & Ht & _);
    [done|done| |done|done|done|].
  { intros u' [= <-]. by apply Hi. }
  assert (∀ i, uslot i → cpu_top s' i = tl_read (InData u) s i) as Htop.
  { intros i Hu. rewrite Ht by (by apply Hi). unfold uslot in Hu. change UMAP_L4PTES with 8 in Hu.
    by rewrite decide_True by lia. }
  exists op, s'. split; [exact Hrun|]. split; [by eapply loaded_space_inv|]. split; [by eapply loaded_cpu_inv|].
  intros i f Hu. unfold sp_table. cbn [table walk]. change (entry (m_frames s') (m_root s') i) with (cpu_top s' i).
  rewrite Htop by done.
  cbn [tl_read]. destruct Hl as (-> & _). by destruct (sub_table _).
Qed.

End amd64.
