(* ===== verification/Sv48.v ===== *)
(** Page tables of the RISC-V HAL (libhal_riscv/sv48.c and internal.h): four
    levels of tables, reached through the direct map from the table the [satp]
    register names or from the array of a [struct hal_umap]. *)

From S2P Require Import Prelude Words Locks Machine Hal RvPmap PageTable Space.
From S2P Require Pae64.

Definition SATP_PFN_MASK : Z := Z.shiftl 1 44 - 1.

Definition L1_SHIFT : Z := 12.
Definition L2_SHIFT : Z := L1_SHIFT + 9.
Definition L3_SHIFT : Z := L2_SHIFT + 9.
Definition L4_SHIFT : Z := L3_SHIFT + 9.

Definition MKCANON (va : Z) : Z := Z.shiftr (s64 (u64 (Z.shiftl va 16))) 16.

Definition PTE_INVALID : Z := 0.
Definition PTEP_INVALID : Z := L1P_INVALID.

Definition UMAP_LOG2_L4PTES : Z := 3.
Definition UMAP_L4PTES : Z := Z.shiftl 1 UMAP_LOG2_L4PTES.

Definition mkaddr (l4off l3off l2off l1off : Z) : Z :=
  u64 (MKCANON (Z.lor (Z.lor (Z.lor (u64 (Z.shiftl l4off L4_SHIFT)) (u64 (Z.shiftl l3off L3_SHIFT)))
    (u64 (Z.shiftl l2off L2_SHIFT))) (u64 (Z.shiftl l1off L1_SHIFT)))).

(** Bits that a pointer to a table must leave clear, apart from [PTE_V]: the
    permissions, the bits reserved in such an entry, and the top ten bits. *)
Definition PTE_RESERVED : Z := Z.shiftl 0x3ff 54.
Definition PTE_TABLE_MASK : Z :=
  Z.lor (Z.lor PTE_FLAGS PTE_RESERVED) (Z.lor PTE_U (Z.lor PTE_A PTE_D)).

#[export] Instance sv48_format : PteFormat := {|
  PageTable.pte_present := pte_valid;
  PageTable.pte_frame := pte_pfn;
  PageTable.pte_table_ok e := Z.land e PTE_TABLE_MASK =? PTE_V;
|}.

#[export] Instance sv48_format_ok : PteFormatOk.
Proof. done. Qed.

(** A page table entry in memory: a C pointer, or a [ptep_t]. *)
Inductive wref : Set :=
  | Direct (p : Z)
  | Ptep (p : Z).

Section defs.
Context {CFG : Config} {A : Type} `{!PfnCache A, !PfnAllocator A}.

(** ** internal.h *)

Definition get_pte (ptep : Z) : M (mach A) Z :=
  let pfn := Z.shiftr ptep PAGE_SHIFT in
  let offset := Z.land (Z.shiftr ptep 3) 0x1ff in
  t ← pfn_get pfn;
  pte ← kload (t + 8 * offset);
  pfn_put pfn t;;
  mret pte.

Definition set_pte (ptep pte : Z) : M (mach A) Z :=
  let pfn := Z.shiftr ptep PAGE_SHIFT in
  let offset := Z.land (Z.shiftr ptep 3) 0x1ff in
  t ← pfn_get pfn;
  old ← kload (t + 8 * offset);
  kstore (t + 8 * offset) pte;;
  pfn_put pfn t;;
  mret old.

Definition alloc_table : M (mach A) Z :=
  pfn ← pfn_alloc false;
  if pfn =? PFN_INVALID then mret PTE_INVALID else mret (mkpte pfn PTE_V).

(** The register holds the mode, 9 for Sv48, and the frame of the top table. *)
Definition riscv_satp : M (mach A) Z := gets (λ s, Z.lor (Z.shiftl 9 60) (m_root s)).

(** [sfence.vma]. The machine has no TLB: its translation reads the tables. *)
Definition riscv_invlpg (va : Z) : M (mach A) unit := mret tt.

(** ** sv48.c *)

Definition get_cpumap_l4pfn : M (mach A) Z :=
  satp ← riscv_satp; mret (Z.land satp SATP_PFN_MASK).

Definition get_cpumap_l4off (off : Z) : M (mach A) Z :=
  pfn ← get_cpumap_l4pfn;
  t ← pfn_get pfn;
  assertb (off <? 512);;
  mret (t + 8 * off).

Definition get_cpumap_l4ptr (va : Z) : M (mach A) Z := get_cpumap_l4off (L4OFF va).

Definition put_cpumap_l4ptr (va pte : Z) : M (mach A) unit :=
  pfn ← get_cpumap_l4pfn; pfn_put pfn pte.

Definition w_get (w : wref) : M (mach A) Z :=
  match w with Direct p => kload p | Ptep p => get_pte p end.

Definition w_set (w : wref) (e : Z) : M (mach A) unit :=
  match w with Direct p => kstore p e | Ptep p => set_pte p e;; mret tt end.

(** What every level of the walk does with its entry: when it is not valid, give
    up unless [alloc] is set, and otherwise link a new table. *)
Definition fetch_pfn (w : wref) (va : Z) (alloc : bool) : M (mach A) Z :=
  e ← w_get w;
  r ← (if negb (pte_valid e) then
         if negb alloc then mret None
         else
           e ← alloc_table;
           if e =? PTE_INVALID then mret None
           else w_set w e;; riscv_invlpg va;; mret (Some e)
       else mret (Some e));
  match r with
  | None => mret PFN_INVALID
  | Some e => assertb (pte_valid_table e);; mret (pte_pfn e)
  end.

Definition walk_l3pfn (l4ptr va : Z) (alloc : bool) : M (mach A) Z := fetch_pfn (Direct l4ptr) va alloc.

Definition walk_l3p (l4ptr va : Z) (alloc : bool) : M (mach A) Z :=
  l3pfn ← walk_l3pfn l4ptr va alloc;
  if l3pfn =? PFN_INVALID then mret PTEP_INVALID else mret (mkptep l3pfn (L3OFF va)).

Definition walk_l2pfn (l4ptr va : Z) (alloc : bool) : M (mach A) Z :=
  l3p ← walk_l3p l4ptr va alloc;
  if l3p =? PTEP_INVALID then mret PFN_INVALID else fetch_pfn (Ptep l3p) va alloc.

Definition walk_l2p (l4ptr va : Z) (alloc : bool) : M (mach A) Z :=
  l2pfn ← walk_l2pfn l4ptr va alloc;
  if l2pfn =? PFN_INVALID then mret PTEP_INVALID else mret (mkptep l2pfn (L2OFF va)).

Definition walk_l1pfn (l4ptr va : Z) (alloc : bool) : M (mach A) Z :=
  l2p ← walk_l2p l4ptr va alloc;
  if l2p =? PTEP_INVALID then mret PFN_INVALID else fetch_pfn (Ptep l2p) va alloc.

Definition walk_l1p (l4ptr va : Z) (alloc : bool) : M (mach A) Z :=
  l1pfn ← walk_l1pfn l4ptr va alloc;
  if l1pfn =? PFN_INVALID then mret PTEP_INVALID else mret (mkptep l1pfn (L1OFF va)).

Definition cpumap_get_l1p (va : Z) (alloc : bool) : M (mach A) Z :=
  l4ptr ← get_cpumap_l4ptr va;
  l1p ← walk_l1p l4ptr va alloc;
  put_cpumap_l4ptr va l4ptr;;
  mret l1p.

(** [None] is the [NULL] pointer, the map currently loaded. *)
Definition umap_l4ptr (umap : option Z) (va : Z) : M (mach A) Z :=
  match umap with
  | None => get_cpumap_l4ptr va
  | Some u => mret (u + 8 * L4OFF va)
  end.

Definition umap_put_l4ptr (umap : option Z) (va l4ptr : Z) : M (mach A) unit :=
  match umap with
  | None => put_cpumap_l4ptr va l4ptr
  | Some _ => mret tt
  end.

Definition umap_get_l1p (umap : option Z) (va : Z) (alloc : bool) : M (mach A) Z :=
  assertb (L4OFF va <? UMAP_L4PTES);;
  l4ptr ← umap_l4ptr umap va;
  l1p ← walk_l1p l4ptr va alloc;
  umap_put_l4ptr umap va l4ptr;;
  mret l1p.

Definition pt_umap_minaddr : Z := 0.
Definition pt_umap_maxaddr : Z := Z.shiftl 1 (39 + UMAP_LOG2_L4PTES).

(** ** The hardware: translation of an address by the CPU (Sv48) *)

Definition canonical (va : Z) : bool := va =? u64 (MKCANON va).

(** Index of [va] at a level, the last level being 0. *)
Definition vpn (level : nat) (va : Z) : Z := Z.land (Z.shiftr va (12 + 9 * level)) 0x1ff.

(** The entry at one level: an address fault, a leaf, whose low frame bits are
    those of the address, or a pointer to the next table. *)
Fixpoint mmu_walk (level : nat) (fs : gmap Z (list Z)) (f va : Z) : option Z :=
  let e := entry fs f (vpn level va) in
  if negb (pte_valid e) || (negb (has e PTE_R) && has e PTE_W) || has e PTE_RESERVED then None
  else if has e PTE_R || has e PTE_X then
    let m := Z.ones (9 * level) in
    if has (pte_pfn e) m then None else Some (Z.lor (pte_pfn e) (Z.land (Z.shiftr va 12) m))
  else
    match level with
    | O => None
    | S level' => if has e (Z.lor PTE_U (Z.lor PTE_A PTE_D)) then None else mmu_walk level' fs (pte_pfn e) va
    end.

Definition mmu (fs : gmap Z (list Z)) (root va : Z) : option Z :=
  if negb (canonical va) then None else mmu_walk 3 fs root va.

End defs.

(** * Entries *)

(** Physical addresses have 56 bits. *)
Class Sv48ConfigOk {CFG : Config} : Prop := {
  dmap_56 : max_dmap_pfn ≤ 2 ^ 44;
}.

Lemma mkptep_parts f i :
  0 ≤ f < 2 ^ 52 → index_ok i → Z.shiftr (mkptep f i) PAGE_SHIFT = f ∧
  Z.land (Z.shiftr (mkptep f i) 3) 0x1ff = i ∧ (f ≠ 0 → mkptep f i ≠ PTEP_INVALID).
Proof.
  intros Hf Hi. unfold index_ok in Hi. unfold mkptep, PAGE_SHIFT, PTEP_INVALID, L1P_INVALID.
  rewrite u64_small by (rewrite Z.shiftl_mul_pow2 by lia; unfold word64; lia).
  rewrite (Z.shiftl_mul_pow2 i) by lia. rewrite lor_shiftl_add by lia.
  rewrite land_ones_9, !Z.shiftr_div_pow2 by lia.
  change (2 ^ 12) with 4096. change (2 ^ 3) with 8. split_and!; [Z.div_mod_to_equations; lia..|lia].
Qed.

Lemma land_lor_r_zero x y m : Z.land x m = 0 → Z.land (Z.lor x y) m = Z.land y m.
Proof. intros Hx. by rewrite Z.land_lor_distr_l, Hx. Qed.

Lemma shiftl_high_clear r : 0 ≤ r < 2 ^ 44 → Z.land (Z.shiftl r 10) PTE_TABLE_MASK = 0.
Proof.
  intros Hr. apply Z.bits_inj'. intros i Hi. rewrite Z.land_spec, Z.bits_0.
  assert (Forall (λ i, i < 10 ∨ Z.testbit PTE_TABLE_MASK i = false) (seqZ 0 54)) as Hc
    by (apply (bool_decide_unpack _); vm_compute; done).
  rewrite Forall_seqZ in Hc. destruct (Z.lt_ge_cases i 54) as [Hlt|Hge].
  - destruct (Hc i ltac:(lia)) as [Hs|Hz]; [by rewrite Z.shiftl_spec_low|by rewrite Hz, andb_false_r].
  - rewrite (testbit_above _ 54 i); [done| |done]. rewrite Z.shiftl_mul_pow2 by lia. lia.
Qed.

Lemma sv_mkpte_facts r :
  0 ≤ r < 2 ^ 44 → pte_valid (mkpte r PTE_V) = true ∧ PageTable.pte_table_ok (mkpte r PTE_V) = true ∧
  pte_pfn (mkpte r PTE_V) = r ∧ mkpte r PTE_V ≠ 0.
Proof.
  intros Hr. unfold mkpte, PTE_PFN_SHIFT.
  rewrite u64_small by (rewrite Z.shiftl_mul_pow2 by lia; unfold word64; lia).
  assert (pte_valid (Z.lor (Z.shiftl r 10) PTE_V) = true) as Hv.
  { unfold pte_valid. by rewrite has_lor_shiftl. }
  split_and!; [done| |by apply rv_pte_pfn_split|intros He; by rewrite He in Hv].
  cbn. by rewrite land_lor_r_zero by (by apply shiftl_high_clear).
Qed.

(** Table entries pass the assertion of the walkers and the hardware's checks. *)
Lemma table_ok_masks e m :
  Z.land PTE_TABLE_MASK m = m → PageTable.pte_table_ok e = true → Z.land e m = Z.land PTE_V m.
Proof.
  intros Hm Ht. apply Z.eqb_eq in Ht. rewrite <- Ht, <- Z.land_assoc. by rewrite Hm.
Qed.

Lemma table_ok_valid e : PageTable.pte_table_ok e = true → pte_valid_table e = true.
Proof. intros Ht. unfold pte_valid_table. by rewrite (table_ok_masks e PTE_FLAGS). Qed.

Lemma table_ok_has e m :
  Z.land PTE_TABLE_MASK m = m → PageTable.pte_table_ok e = true → has e m = has PTE_V m.
Proof. intros Hm Ht. unfold has. by rewrite (table_ok_masks e m). Qed.

(** * The walkers *)

Section walk.
Context {CFG : Config} {CFGOK : ConfigOk} {SVOK : Sv48ConfigOk}.
Context {A : Type} `{!PfnCache A, !PfnAllocator A, !PfnAllocatorLaws A}.
Implicit Types s : mach A.

(** A space whose tables are not frame 0, whose first entry has the address of
    the invalid pointer. *)
Record sv_inv (D : Z → Prop) (l : tloc) s : Prop := {
  sv_space : space_inv D l s;
  sv_free0 : 0 ∉ free_frames s;
  sv_table0 p : path_ok D p → sp_table l s p ≠ Some 0;
}.

Lemma sv_inv_ext D l s s' : sv_inv D l s → space_inv D l s' → sp_frame D l s s' → sv_inv D l s'.
Proof.
  intros [H1 H2 H3] Hi Hf. split; [done| |].
  - intros Hc. by apply H2, (sf_free _ _ _ _ Hf).
  - intros p Hp Hc. by destruct (sf_new _ _ _ _ Hf p 0 Hp Hc) as [?|?]; [eapply H3|].
Qed.

Lemma get_pte_run f i s :
  frame_ok (m_frames s) f → index_ok i → get_pte (mkptep f i) s = Ret (entry (m_frames s) f i, s).
Proof.
  intros Hf Hi. pose proof Hf as [Hr _]. destruct (pfn_valid f Hr).
  destruct (mkptep_parts f i) as (E1 & E2 & _); [lia|done|].
  unfold get_pte. rewrite E1, E2. by apply frame_load_run.
Qed.

Lemma set_pte_run f i e s :
  frame_ok (m_frames s) f → index_ok i → set_pte (mkptep f i) e s =
    Ret (entry (m_frames s) f i, set_frames (frame_update (m_frames s) f i e) s).
Proof.
  intros Hf Hi. pose proof Hf as [Hr _]. destruct (pfn_valid f Hr).
  destruct (mkptep_parts f i) as (E1 & E2 & _); [lia|done|].
  unfold set_pte. rewrite E1, E2. by apply frame_swap_run.
Qed.

(** The address of a slot of the top level. *)
Definition tl_ptr (l : tloc) (i : Z) : Z :=
  match l with InData u => u + 8 * i | InFrame f => window f + 8 * i end.

Lemma tl_load_run D l i s :
  space_inv D l s → D i → kload (tl_ptr l i) s = Ret (tl_read l s i, s).
Proof.
  intros Hi Hd. pose proof (sp_slots _ _ _ Hi i Hd) as Hx. pose proof (sp_top _ _ _ Hi) as Ht.
  destruct l as [u|f]; cbn [tl_ptr tl_read].
  - destruct (Ht i Hd) as ([v Hv] & Hdm & Hal). rewrite Hv. by apply data_load_run.
  - destruct Ht as [Hf _]. pose proof Hf as [Hr _]. destruct (frame_word_ok _ f i Hf Hx) as [w Hw].
    unfold entry. rewrite Hw. by apply kload_run.
Qed.

Lemma tl_store_run D l i e s :
  space_inv D l s → D i → kstore (tl_ptr l i) e s = Ret (tt, tl_write l i e s).
Proof.
  intros Hi Hd. pose proof (sp_slots _ _ _ Hi i Hd) as Hx. pose proof (sp_top _ _ _ Hi) as Ht.
  destruct l as [u|f]; cbn [tl_ptr tl_write].
  - destruct (Ht i Hd) as ([v Hv] & Hdm & Hal). by apply (data_store_run _ v).
  - destruct Ht as [Hf _]. by apply kstore_run.
Qed.

(** The reference the walkers use for the word [i] after path [q]. *)
Definition word_ok (l : tloc) s (q : list Z) (i : Z) (w : wref) : Prop :=
  match q with
  | [] => w = Direct (tl_ptr l i)
  | _ => ∃ g, sp_table l s q = Some g ∧ w = Ptep (mkptep g i)
  end.

Lemma path_top D i : path_ok D ([] ++ [i]) → D i.
Proof. by intros ((k & ? & [= <- <-] & Hd) & _). Qed.

Lemma w_get_run D l s q i w :
  space_inv D l s → path_ok D (q ++ [i]) → word_ok l s q i w →
  ∃ v, slot_read l s q i = Some v ∧ w_get w s = Ret (v, s).
Proof.
  intros Hi Hp Hw. destruct q as [|j q]; cbn [word_ok slot_read] in *.
  - subst w. eexists. split; [done|]. apply (tl_load_run D); [done|by apply path_top].
  - destruct Hw as (g & Hg & ->). rewrite Hg. eexists. split; [done|].
    destruct (path_ok_prefix D (j :: q) i Hp) as (Hq & Hix & _); [done|].
    apply get_pte_run; [|done]. by apply (so_frame _ _ _ _ (sp_space _ _ _ Hi) (j :: q)).
Qed.

Lemma w_set_run D l s q i w e :
  space_inv D l s → path_ok D (q ++ [i]) → word_ok l s q i w →
  w_set w e s = Ret (tt, slot_write l q i e s).
Proof.
  intros Hi Hp Hw. destruct q as [|j q]; cbn [word_ok slot_write] in *.
  - subst w. apply (tl_store_run D); [done|by apply path_top].
  - destruct Hw as (g & Hg & ->). rewrite Hg.
    destruct (path_ok_prefix D (j :: q) i Hp) as (Hq & Hix & _); [done|]. unfold w_set.
    destruct (so_frame _ _ _ _ (sp_space _ _ _ Hi) (j :: q) g Hq Hg) as [Hf _].
    by mrun (set_pte_run g i e s Hf Hix).
Qed.

Lemma sv_alloc_table_run s :
  alloc_ok s →
  (free_frames s = ∅ ∧ alloc_table s = Ret (PTE_INVALID, s)) ∨
  ∃ r a', r ∈ free_frames s ∧ frame_ok (m_frames s) r ∧
    alloc_table s = Ret (mkpte r PTE_V, taken s r a') ∧
    alloc_ok (taken s r a') ∧ free_frames (taken s r a') = free_frames s ∖ {[r]} ∧
    (∀ f, al_range a' f ↔ al_range (m_alloc s) f) ∧
    pte_valid (mkpte r PTE_V) = true ∧ PageTable.pte_table_ok (mkpte r PTE_V) = true ∧
    pte_pfn (mkpte r PTE_V) = r ∧ mkpte r PTE_V ≠ 0.
Proof.
  intros Hok. destruct (pfn_alloc_run false s Hok) as [[He Hr]|(r & a' & Hin & Hr & Hok' & Hf & Hrg)].
  - left. split; [done|]. unfold alloc_table. by mrun Hr.
  - right. pose proof (ao_frames _ Hok r Hin) as Hfr. pose proof dmap_56 as H56. pose proof Hfr as [Hrd _].
    destruct (sv_mkpte_facts r) as (Hv & Ht & Hpf & Hne); [lia|].
    exists r, a'. split; [done|]. split; [done|]. split; [|done].
    unfold alloc_table. mrun Hr. destruct (pfn_valid r Hrd) as [_ Hnv].
    by rewrite (proj2 (Z.eqb_neq _ _) Hnv).
Qed.

(** The walk has ended with [r], the table at path [q], or has given up for want
    of a table. *)
Definition sv_reached (D : Z → Prop) (l : tloc) (alloc : bool) s s' (q : list Z) (r : Z) : Prop :=
  sv_inv D l s' ∧ sp_grow D l s s' ∧ (alloc = false → s' = s) ∧
  (size (free_frames s) ≤ size (free_frames s') + length q)%nat ∧
  ((r = PFN_INVALID ∧ sp_table l s' q = None ∧
      (alloc = false ∨ free_frames s' = ∅ ∧ (size (free_frames s) < length q)%nat)) ∨
   (r ≠ PFN_INVALID ∧ sp_table l s' q = Some r)).

Lemma sv_table_frame D l s q f :
  sv_inv D l s → path_ok D q → sp_table l s q = Some f →
  frame_ok (m_frames s) f ∧ 0 ≤ f < 2 ^ 52 ∧ f ≠ PFN_INVALID ∧ f ≠ 0.
Proof.
  intros Hi Hq Hf. destruct (so_frame _ _ _ _ (sp_space _ _ _ (sv_space _ _ _ Hi)) q f Hq Hf) as [Hfr _].
  pose proof Hfr as [Hr _]. destruct (pfn_valid f Hr). split_and!; [done|lia|lia|done|].
  intros ->. by apply (sv_table0 _ _ _ Hi q).
Qed.

(** [slot_read] and the table below. *)
Lemma slot_read_table l s q i v : slot_read l s q i = Some v → sp_table l s (q ++ [i]) = sub_table v.
Proof.
  unfold slot_read. destruct q as [|j q'].
  - intros [= <-]. unfold sp_table. cbn [app table]. by destruct (sub_table _).
  - unfold sp_table in *. rewrite table_snoc by done. destruct (table _ _ (j :: q')); [|done].
    by intros [= <-].
Qed.

Lemma slot_read_table_ok D l s q i v :
  space_inv D l s → path_ok D (q ++ [i]) → slot_read l s q i = Some v → pte_valid v = true →
  PageTable.pte_table_ok v = true.
Proof.
  intros Hi Hp Hv Hpr. unfold slot_read in Hv. destruct q as [|j q'].
  - injection Hv as <-. apply (so_top _ _ _ _ (sp_space _ _ _ Hi)); [by apply path_top|done].
  - destruct (sp_table l s (j :: q')) as [g|] eqn:Eg; [|done]. injection Hv as <-.
    destruct (path_ok_prefix D (j :: q') i Hp) as (Hq & Hix & Hl); [done|].
    by apply (so_entry _ _ _ _ (sp_space _ _ _ Hi) (j :: q')).
Qed.

Lemma fetch_run D l s0 s q i w va alloc :
  sv_inv D l s → sp_grow D l s0 s → (alloc = false → s = s0) →
  (size (free_frames s0) ≤ size (free_frames s) + length q)%nat →
  path_ok D (q ++ [i]) → word_ok l s q i w →
  ∃ r s', fetch_pfn w va alloc s = Ret (r, s') ∧ sv_reached D l alloc s0 s' (q ++ [i]) r.
Proof.
  intros Hsv He Hna Hsz Hp Hw. pose proof (sv_space _ _ _ Hsv) as Hi.
  destruct (w_get_run D l s q i w Hi Hp Hw) as (v & Hv & Hget). pose proof (slot_read_table l s q i v Hv) as Htab.
  unfold fetch_pfn. mrun Hget. destruct (pte_valid v) eqn:Ev; cbn [negb].
  - pose proof (slot_read_table_ok D l s q i v Hi Hp Hv Ev) as Hok. mrun.
    rewrite bind_assert by (by apply table_ok_valid). exists (pte_pfn v), s. split; [done|].
    assert (sp_table l s (q ++ [i]) = Some (pte_pfn v)) as Hs.
    { rewrite Htab. unfold sub_table. cbn. by rewrite Ev. }
    destruct (sv_table_frame D l s _ _ Hsv Hp Hs) as (_ & _ & Hnv & _).
    split_and!; [done..|rewrite length_app; simpl; lia|]. by right.
  - assert (sp_table l s (q ++ [i]) = None) as Hs by (rewrite Htab; unfold sub_table; cbn; by rewrite Ev).
    assert (∀ ok : alloc = false ∨ free_frames s = ∅,
      sv_reached D l alloc s0 s (q ++ [i]) PFN_INVALID) as Hnone.
    { intros ok. split_and!; [done..|rewrite length_app; simpl; lia|]. left. split; [done|]. split; [done|].
      destruct ok as [?|Hem]; [by left|right]. split; [done|].
      rewrite Hem, size_empty in Hsz. rewrite length_app. simpl. lia. }
    destruct alloc; cbn [negb]; [|mrun; exists PFN_INVALID, s; split; [done|by apply Hnone; left]].
    rewrite bind_assoc. destruct (sv_alloc_table_run s (sp_alloc _ _ _ Hi))
      as [[Hem Hal]|(r & a' & Hr & Hfr & Hal & Hok & Hf & Hrg & Hev & Het & Hep & Hne)].
    + mrun Hal. exists PFN_INVALID, s. split; [done|by apply Hnone; right].
    + mrun Hal. rewrite (proj2 (Z.eqb_neq (mkpte r PTE_V) PTE_INVALID)) by done. rewrite bind_assoc.
      assert (word_ok l (taken s r a') q i w) as Hw'.
      { destruct q as [|j q']; [done|]. destruct Hw as (g & Hg & ->). exists g. split; [|done].
        destruct (path_ok_prefix D (j :: q') i Hp) as (Hq & _); [done|]. by rewrite (take_table D). }
      mrun (w_set_run D l (taken s r a') q i w (mkpte r PTE_V) (take_inv D l s r a' Hi Hr Hok Hf Hrg) Hp Hw').
      rewrite bind_assoc. unfold riscv_invlpg. mrun. rewrite bind_assert by (by apply table_ok_valid).
      fold (grow l q i (mkpte r PTE_V) s r a').
      assert (sp_grow D l s (grow l q i (mkpte r PTE_V) s r a')) as Hext by (by eapply grow_sp_grow).
      exists (pte_pfn (mkpte r PTE_V)). eexists. split; [done|]. unfold sv_reached. split_and!.
      * eapply sv_inv_ext; [done| |apply Hext]. by eapply grow_inv.
      * by transitivity s.
      * done.
      * rewrite (grow_free l s q i r (mkpte r PTE_V) a' Hf), size_difference, size_singleton by set_solver.
        rewrite length_app. simpl. lia.
      * right. rewrite Hep. split; [by apply pfn_valid; destruct Hfr|].
        erewrite (grow_table D l s q i v r (mkpte r PTE_V) a') by done. by rewrite decide_True.
Qed.

(** Giving up on a table means giving up on the tables below. *)
Lemma sv_reached_none D l alloc s s' q i :
  sv_reached D l alloc s s' q PFN_INVALID → q ≠ [] → sv_reached D l alloc s s' (q ++ [i]) PFN_INVALID.
Proof.
  intros (H1 & H2 & H3 & H4 & H5) Hq. unfold sv_reached. rewrite length_app. split_and!; [done..|simpl; lia|].
  left. destruct H5 as [(_ & Hn & Ha)|[? _]]; [|done]. split; [done|]. split.
  - unfold sp_table in *. by rewrite table_snoc, Hn.
  - destruct Ha as [?|[? ?]]; [by left|right]. split; [done|simpl; lia].
Qed.

Section levels.
Context (D : Z → Prop) (l : tloc) (s : mach A) (va : Z) (alloc : bool).
Context (Hsv : sv_inv D l s) (Hd : D (L4OFF va)).
Let p := tl_ptr l (L4OFF va).

Lemma walk_l3pfn_run :
  ∃ r s', walk_l3pfn p va alloc s = Ret (r, s') ∧ sv_reached D l alloc s s' [L4OFF va] r.
Proof.
  destruct (Pae64.cpu_va_paths D va Hd) as (P1 & _).
  apply (fetch_run D l s s [] (L4OFF va) (Direct p)); [done..|simpl; lia|done|done].
Qed.

(** One level down. *)
Lemma next_level_run (q : list Z) (i f : Z) s1 :
  sv_reached D l alloc s s1 q f → path_ok D q → path_ok D (q ++ [i]) → index_ok i →
  ∃ r s', (if (if f =? PFN_INVALID then PTEP_INVALID else mkptep f i) =? PTEP_INVALID then mret PFN_INVALID
           else fetch_pfn (Ptep (if f =? PFN_INVALID then PTEP_INVALID else mkptep f i)) va alloc) s1 = Ret (r, s') ∧
    sv_reached D l alloc s s' (q ++ [i]) r.
Proof.
  intros Hre Hq Hqi Hx. pose proof Hre as (Hsv1 & He1 & Hna1 & Hsz1 & Hr). destruct Hr as [(-> & _)|[Hv Hf]].
  - rewrite !Z.eqb_refl. exists PFN_INVALID, s1. split; [done|].
    apply sv_reached_none; [done|by eapply path_ok_ne].
  - destruct (sv_table_frame D l s1 q f Hsv1 Hq Hf) as (_ & Hb & _ & H0).
    destruct (mkptep_parts f i Hb Hx) as (_ & _ & Hn).
    rewrite (proj2 (Z.eqb_neq _ _) Hv), (proj2 (Z.eqb_neq _ _) (Hn H0)).
    apply (fetch_run D l s s1 q i); [done..|]. destruct q; [by destruct (path_ok_ne _ _ Hq)|]. by exists f.
Qed.

Lemma walk_l2pfn_run :
  ∃ r s', walk_l2pfn p va alloc s = Ret (r, s') ∧ sv_reached D l alloc s s' [L4OFF va; L3OFF va] r.
Proof.
  destruct (Pae64.cpu_va_paths D va Hd) as (P1 & P2 & _). destruct (off_range va) as (_ & I3 & _).
  destruct walk_l3pfn_run as (f & s1 & Hrun & Hre).
  destruct (next_level_run [L4OFF va] (L3OFF va) f s1 Hre P1 P2 I3) as (r & s2 & Hr & Hre2).
  exists r, s2. split; [|done]. rewrite <- Hr. unfold walk_l2pfn, walk_l3p. rewrite bind_assoc. mrun Hrun.
  by destruct (f =? PFN_INVALID).
Qed.

Lemma walk_l1pfn_run :
  ∃ r s', walk_l1pfn p va alloc s = Ret (r, s') ∧ sv_reached D l alloc s s' [L4OFF va; L3OFF va; L2OFF va] r.
Proof.
  destruct (Pae64.cpu_va_paths D va Hd) as (P1 & P2 & P3). destruct (off_range va) as (_ & _ & I2 & _).
  destruct walk_l2pfn_run as (f & s1 & Hrun & Hre).
  destruct (next_level_run [L4OFF va; L3OFF va] (L2OFF va) f s1 Hre P2 P3 I2) as (r & s2 & Hr & Hre2).
  exists r, s2. split; [|done]. rewrite <- Hr. unfold walk_l1pfn, walk_l2p. rewrite bind_assoc. mrun Hrun.
  by destruct (f =? PFN_INVALID).
Qed.

(** A pointer to the last-level entry of [va], or the invalid pointer. *)
Definition sv_found s' (r : Z) : Prop :=
  sv_inv D l s' ∧ sp_grow D l s s' ∧ (alloc = false → s' = s) ∧
  (size (free_frames s) ≤ size (free_frames s') + 3)%nat ∧
  ((r = PTEP_INVALID ∧ sp_table l s' [L4OFF va; L3OFF va; L2OFF va] = None ∧
      (alloc = false ∨ free_frames s' = ∅ ∧ (size (free_frames s) < 3)%nat)) ∨
   (∃ f, sp_table l s' [L4OFF va; L3OFF va; L2OFF va] = Some f ∧ r = mkptep f (L1OFF va) ∧ r ≠ PTEP_INVALID)).

Lemma walk_l1p_run : ∃ r s', walk_l1p p va alloc s = Ret (r, s') ∧ sv_found s' r.
Proof.
  destruct walk_l1pfn_run as (f & s1 & Hrun & Hsv1 & He1 & Hna1 & Hsz1 & Hr). unfold walk_l1p. mrun Hrun.
  destruct Hr as [(-> & Hr)|[Hv Hf]].
  - rewrite Z.eqb_refl. exists PTEP_INVALID, s1. split; [done|]. split_and!; [done..|]. left. by split.
  - rewrite (proj2 (Z.eqb_neq _ _) Hv). eexists _, s1. split; [done|]. split_and!; [done..|]. right.
    destruct (sv_table_frame D l s1 _ f Hsv1 (va_path D va Hd) Hf) as (_ & Hb & _ & H0).
    exists f. split; [done|]. split; [done|]. destruct (off_range va) as (_ & _ & _ & I1).
    by apply (mkptep_parts f (L1OFF va) Hb I1).
Qed.

End levels.

(** ** The table the CPU uses *)

Lemma l4pfn_run s : 0 ≤ m_root s < max_dmap_pfn → get_cpumap_l4pfn s = Ret (m_root s, s).
Proof.
  intros Hr. pose proof dmap_56. unfold get_cpumap_l4pfn, riscv_satp. mrun. unfold mret, M_ret. do 2 f_equal.
  change SATP_PFN_MASK with (Z.ones 44). rewrite Z.land_ones by lia.
  rewrite lor_shiftl_add by lia. change (9 * 2 ^ 60) with (9 * 2 ^ 16 * 2 ^ 44).
  rewrite Z.add_comm, Z.mod_add by lia. apply Z.mod_small. lia.
Qed.

Lemma l4off_run s off :
  0 ≤ m_root s < max_dmap_pfn → index_ok off →
  get_cpumap_l4off off s = Ret (tl_ptr (InFrame (m_root s)) off, s).
Proof.
  intros Hr [_ Hx]. unfold get_cpumap_l4off. mrun (l4pfn_run s Hr). mrun (pfn_get_run _ s Hr).
  by rewrite bind_assert by (by apply Z.ltb_lt).
Qed.

Lemma put_l4ptr_run s va q : 0 ≤ m_root s < max_dmap_pfn → put_cpumap_l4ptr va q s = Ret (tt, s).
Proof. intros Hr. unfold put_cpumap_l4ptr. mrun (l4pfn_run s Hr). by apply pfn_put_run. Qed.

Definition root_ok s : Prop := 0 ≤ m_root s < max_dmap_pfn.

Lemma cpumap_get_l1p_run D s va alloc :
  sv_inv D (InFrame (m_root s)) s → D (L4OFF va) →
  ∃ r s', cpumap_get_l1p va alloc s = Ret (r, s') ∧ sv_found D (InFrame (m_root s)) s va alloc s' r.
Proof.
  intros Hsv Hd. destruct (sp_top _ _ _ (sv_space _ _ _ Hsv)) as [[Hr _] _].
  destruct (off_range va) as (I4 & _). unfold cpumap_get_l1p, get_cpumap_l4ptr. mrun (l4off_run s _ Hr I4).
  destruct (walk_l1p_run D _ s va alloc Hsv Hd) as (r & s' & Hrun & Hf). mrun Hrun.
  pose proof Hf as (_ & He & _). rewrite <- (sf_root _ _ _ _ (se_frame _ _ _ _ (sg_ext _ _ _ _ He))) in Hr.
  mrun (put_l4ptr_run s' va (tl_ptr (InFrame (m_root s)) (L4OFF va)) Hr). by exists r, s'.
Qed.

(** The top level of a user map: its own array, or the CPU's table. *)
Definition umap_loc (umap : option Z) s : tloc :=
  match umap with Some u => InData u | None => InFrame (m_root s) end.

Lemma umap_l4ptr_run umap s va :
  root_ok s → umap_l4ptr umap va s = Ret (tl_ptr (umap_loc umap s) (L4OFF va), s).
Proof.
  intros Hr. destruct umap as [u|]; [done|]. destruct (off_range va) as (I4 & _).
  by apply l4off_run.
Qed.

Lemma umap_put_l4ptr_run umap s va q : root_ok s → umap_put_l4ptr umap va q s = Ret (tt, s).
Proof. intros Hr. destruct umap; [done|]. by apply put_l4ptr_run. Qed.

Definition uslot (i : Z) : Prop := 0 ≤ i < UMAP_L4PTES.

Lemma sv_umap_get_l1p_run u s va alloc :
  sv_inv uslot (InData u) s → uslot (L4OFF va) →
  ∃ r s', umap_get_l1p (Some u) va alloc s = Ret (r, s') ∧ sv_found uslot (InData u) s va alloc s' r.
Proof.
  intros Hsv Hd. unfold umap_get_l1p. rewrite bind_assert by (apply Z.ltb_lt; by destruct Hd).
  assert (umap_l4ptr (Some u) va s = Ret (tl_ptr (InData u) (L4OFF va), s)) as Hp by done. mrun Hp.
  destruct (walk_l1p_run uslot _ s va alloc Hsv Hd) as (r & s' & Hrun & Hf). mrun Hrun.
  assert (umap_put_l4ptr (Some u) va (tl_ptr (InData u) (L4OFF va)) s' = Ret (tt, s')) as Hq by done. mrun Hq.
  by exists r, s'.
Qed.

End walk.
