(* ===== verification/Riscv.v ===== *)
(** The RISC-V HAL as an implementation of the page table interface: the
    operations of libhal_riscv/pmap.c over the walkers of sv48.c, the contract
    that libnux/kmap.c is verified against, and what the CPU then translates. *)

From S2P Require Import Prelude Words Stree Locks Machine Pfnalloc Hal RvPmap PageTable Space Sv48 Kmap.

Section pmap.
Context {CFG : Config} {A : Type} `{!PfnCache A, !PfnAllocator A}.

Definition riscv_kmap_getl1p (va : Z) (alloc : bool) : M (mach A) (bool * Z) :=
  if va <? pt_umap_maxaddr then mret (false, L1P_INVALID)
  else
    l1p ← cpumap_get_l1p va alloc;
    mret (negb (l1p =? L1P_INVALID), l1p).

Definition riscv_umap_getl1p (umap : option Z) (uaddr : Z) (alloc : bool) : M (mach A) (bool * Z) :=
  if (pt_umap_maxaddr <=? uaddr) || (uaddr <? pt_umap_minaddr) then mret (false, L1P_INVALID)
  else
    l1p ← umap_get_l1p umap uaddr alloc;
    mret (negb (l1p =? L1P_INVALID), l1p).

Definition riscv_l1e_get (l1p : Z) : M (mach A) Z := get_pte l1p.
Definition riscv_l1e_set (l1p l1e : Z) : M (mach A) Z := set_pte l1p l1e.

(** [D]: the slots of the top level that hold the kernel's 4K mappings. *)
Definition riscv_kva (D : Z → Prop) (va : Z) : Prop := pt_umap_maxaddr ≤ va < 2 ^ 64 ∧ D (L4OFF va).

Definition cpu_map (s : mach A) : tloc := InFrame (m_root s).

Definition riscv_ptr (D : Z → Prop) (s : mach A) (p va : Z) : Prop :=
  riscv_kva D va ∧ p ≠ PTEP_INVALID ∧
  ∃ f, sp_table (cpu_map s) s [L4OFF va; L3OFF va; L2OFF va] = Some f ∧ p = mkptep f (L1OFF va).

(** An allocated frame that is none of the CPU's tables. *)
Record riscv_owned (D : Z → Prop) (s : mach A) (f : Z) : Prop := {
  ro_used : f ∉ free_frames s;
  ro_frame : frame_ok (m_frames s) f;
  ro_range : al_range (m_alloc s) f;
  ro_zero : f ≠ 0;
  ro_root : f ≠ m_root s;
  ro_table p : path_ok D p → sp_table (cpu_map s) s p ≠ Some f;
}.

Definition riscv_pmap (D : Z → Prop) : HalPmap (mach A) := {|
  Kmap.hal_kmap_getl1p := riscv_kmap_getl1p;
  Kmap.hal_l1e_get := riscv_l1e_get;
  Kmap.hal_l1e_set := riscv_l1e_set;
  Kmap.hal_l1e_box := RvPmap.hal_l1e_box;
  Kmap.hal_l1e_unbox := RvPmap.hal_l1e_unbox;
  Kmap.hal_l1e_tlbop := RvPmap.hal_l1e_tlbop;
  pm_alloc := pfn_alloc;
  pm_free_page := pfn_free;
  pm_kva := riscv_kva D;
  pm_inv s := sv_inv D (cpu_map s) s;
  pm_view s va := sp_leaf (cpu_map s) s va;
  pm_ptr := riscv_ptr D;
  pm_free := free_frames;
  pm_page s f := m_frames s !! f;
  pm_owned := riscv_owned D;
|}.

End pmap.

Section laws.
Context {CFG : Config} {CFGOK : ConfigOk} {SVOK : Sv48ConfigOk}.
Context {A : Type} `{!PfnCache A, !PfnAllocator A, !PfnAllocatorLaws A}.
Context (D : Z → Prop).
Implicit Types s : mach A.

(** Frames in use elsewhere survive a change of the space. *)
Lemma frame_owned s s' f :
  sp_frame D (cpu_map s) s s' → riscv_owned D s f →
  riscv_owned D s' f ∧ m_frames s' !! f = m_frames s !! f.
Proof.
  intros Hf [H1 H2 H3 H4 H5 H6]. pose proof (sf_root _ _ _ _ Hf) as Hr. split.
  - split; [|by apply Hf|by apply (sf_range _ _ _ _ Hf)|done|by rewrite Hr|].
    + intros Hc. by apply H1, (sf_free _ _ _ _ Hf).
    + intros p Hp. unfold cpu_map. rewrite Hr. intros Hc.
      by destruct (sf_new _ _ _ _ Hf p f Hp Hc) as [?|?]; [eapply H6|].
  - apply (sf_frames _ _ _ _ Hf); [done| |done]. intros [= ?]. by apply H5.
Qed.

Lemma ptr_table s s' p va :
  m_root s' = m_root s → (∀ q f, path_ok D q → sp_table (cpu_map s) s q = Some f → sp_table (cpu_map s) s' q = Some f) →
  riscv_ptr D s p va → riscv_ptr D s' p va.
Proof.
  intros Hr Ht (Hk & Hn & f & Hf & ->). split; [done|]. split; [done|]. exists f. split; [|done].
  unfold cpu_map. rewrite Hr. apply Ht; [|done]. apply va_path. by destruct Hk.
Qed.

Lemma sv_unbox_present pfn prot :
  0 ≤ prot < 1024 →
  has (RvPmap.hal_l1e_unbox (RvPmap.hal_l1e_box pfn prot)).2 HAL_PTE_P = has prot HAL_PTE_P.
Proof.
  intros Hprot. pose proof rv_box_flags_checked as Hc. rewrite Forall_seqZ in Hc.
  destruct (Hc prot ltac:(lia)) as [Hu _]. cbn.
  assert (unbox_prot (RvPmap.hal_l1e_box pfn prot) = unbox_prot (box_flags prot)) as ->.
  { assert (RvPmap.hal_l1e_box pfn prot = Z.lor (u64 (Z.shiftl pfn 10)) (box_flags prot)) as ->.
    { unfold box_flags, RvPmap.hal_l1e_box, PTE_PFN_SHIFT. rewrite Z.shiftl_0_l. change (u64 0) with 0.
      rewrite <- (Z.lor_0_r (u64 _)) at 1. by rewrite !or_if_lor. }
    assert (∀ m, 0 ≤ m < 2 ^ 10 → has (Z.lor (u64 (Z.shiftl pfn 10)) (box_flags prot)) m = has (box_flags prot) m) as Hh.
    { intros m Hm. pose proof (has_u64_shiftl pfn 10 m ltac:(lia) Hm) as Hz. unfold has in *.
      apply negb_false_iff, Z.eqb_eq in Hz. by rewrite Z.land_lor_distr_l, Hz. }
    unfold unbox_prot. by rewrite !Hh by done. }
  rewrite Hu. destruct (has prot HAL_PTE_P) eqn:E; [|done]. unfold has in *.
  rewrite Z.ldiff_land, <- Z.land_assoc. by change (Z.land (Z.lnot HAL_PTE_AVL2) HAL_PTE_P) with HAL_PTE_P.
Qed.

Lemma freed_sv_inv s f a' n :
  sv_inv D (cpu_map s) s → riscv_owned D s f → let s' := set_free_pages n (set_alloc a' s) in
  alloc_ok s' → al_free a' = {[f]} ∪ free_frames s → (∀ g, al_range a' g ↔ al_range (m_alloc s) g) →
  sv_inv D (cpu_map s') s'.
Proof.
  intros [Hi H0 Ht0] Ho s' Hok Hf Hrg. assert (free_frames s' = {[f]} ∪ free_frames s) as Hf' by exact Hf.
  destruct Hi as [_ [S1 S2 S3 S4] [Htop Hnf] Hsl Hran]. split; [split; [done| | |done|]|..].
  - split; [|done..]. intros p g Hp Hg. destruct (S1 p g Hp Hg) as [Hfr Hn]. split; [done|].
    intros [Hc|Hc]; [|by apply Hn; right]. rewrite Hf' in Hc.
    apply elem_of_union in Hc as [->%elem_of_singleton|Hc]; [|by apply Hn; left].
    by destruct (ro_table _ _ _ Ho p Hp).
  - split; [done|]. change (m_root s ∉ free_frames s'). rewrite Hf'. pose proof (ro_root _ _ _ Ho). set_solver.
  - intros p g Hp Hg. apply Hrg. by eapply Hran.
  - rewrite Hf'. pose proof (ro_zero _ _ _ Ho). set_solver.
  - done.
Qed.

Lemma riscv_pmap_laws : @HalPmapLaws (mach A) (riscv_pmap D).
Proof.
  split.
  - (* getl1p *)
    intros va alloc s Hi [Hva Hd]. cbn. unfold riscv_kmap_getl1p. rewrite (proj2 (Z.ltb_ge _ _)) by lia.
    destruct (cpumap_get_l1p_run D s va alloc Hi Hd) as (p & s' & Hr & Hi' & [He _] & Hna & Hsz & Hres).
    pose proof (se_frame _ _ _ _ He) as Hfr. pose proof (sf_root _ _ _ _ Hfr) as Hro.
    assert (cpu_map s' = cpu_map s) as Hcm by (unfold cpu_map; by rewrite Hro).
    mrun Hr. exists (negb (p =? L1P_INVALID)), p, s'. split; [done|]. rewrite Hcm.
    split_and!; [done| |done|by apply Hfr|done|intros; by apply frame_owned|].
    + intros va' [_ Hd']. cbn. rewrite ?Hcm. by apply (se_leaf _ _ _ _ He).
    + destruct Hres as [(-> & Ht & Ha)|(f & Ht & -> & Hn)].
      * change (L1P_INVALID =? L1P_INVALID) with true. cbn. split; [done|]. split; [|done].
        unfold sp_leaf, leaf. unfold sp_table, cpu_map in *. by rewrite Ht.
      * change PTEP_INVALID with L1P_INVALID in Hn. rewrite (proj2 (Z.eqb_neq _ _) Hn).
        split; [done|]. split; [done|]. exists f. by rewrite Hcm.
  - (* getl1p with a table *)
    intros s p va Hi [Hva Hd] (_ & Hn & f & Hf & ->). cbn. unfold riscv_kmap_getl1p.
    rewrite (proj2 (Z.ltb_ge _ _)) by lia.
    destruct (cpumap_get_l1p_run D s va false Hi Hd) as (p & s' & Hr & _ & _ & Hna & _ & Hres).
    rewrite Hna in Hr, Hres by done. mrun Hr. unfold cpu_map in Hf.
    destruct Hres as [(-> & Ht & _)|(g & Ht & -> & Hn')]; [congruence|].
    assert (g = f) as -> by congruence. change PTEP_INVALID with L1P_INVALID in Hn'.
    by rewrite (proj2 (Z.eqb_neq _ _) Hn').
  - (* valid pointer *)
    intros s p va (_ & Hn & _). done.
  - (* get *)
    intros s p va Hi ([_ Hd] & _ & f & Hf & ->). destruct (off_range va) as (_ & _ & _ & H1). cbn.
    destruct (sv_table_frame D _ s _ f Hi (va_path D va Hd) Hf) as (Hfr & _).
    etrans; [by apply get_pte_run|]. unfold sp_leaf, leaf. unfold sp_table in Hf. by rewrite Hf.
  - (* set *)
    intros s p va e Hi _ ([_ Hd] & Hn & f & Hf & ->). destruct (off_range va) as (_ & _ & _ & H1). cbn.
    destruct (sv_table_frame D _ s _ f Hi (va_path D va Hd) Hf) as (Hfr & _). pose proof (sv_space _ _ _ Hi) as Hsp.
    pose proof (leaf_set_sp_frame D _ s va f e Hsp Hd Hf) as Hsf.
    exists (leaf_set s va f e). split_and!.
    + etrans; [by apply set_pte_run|]. unfold sp_leaf, leaf. unfold sp_table in Hf. by rewrite Hf.
    + apply (sv_inv_ext D (cpu_map s) s); [done| |done]. by apply leaf_set_inv.
    + intros va' [_ Hd']. by apply (leaf_set_leaf D).
    + done.
    + intros g Hg. by apply frame_owned.
    + intros q va' Hq. apply (ptr_table s); [done| |done]. intros r g Hr. by rewrite (leaf_set_table D).
  - (* alloc *)
    intros s low Hi. pose proof (sv_space _ _ _ Hi) as Hsp.
    destruct (pfn_alloc_run low s (sp_alloc _ _ _ Hsp)) as [?|(r & a' & Hr & Hrun & Hok & Hf & Hrg)];
      [by left|right].
    assert (free_frames (taken s r a') = free_frames s ∖ {[r]}) as Hf' by exact Hf.
    pose proof (take_ext D _ s r a' Hsp Hr Hok Hf' Hrg) as He. pose proof (take_frame D _ s r Hsp Hr) as Hfr.
    pose proof (take_inv D _ s r a' Hsp Hr Hok Hf' Hrg) as Hti.
    exists r, (taken s r a'). split_and!; [done|apply pfn_valid; by destruct Hfr|done| | |done| | | |].
    + apply (sv_inv_ext D (cpu_map s) s); [done|done|apply He].
    + intros va [_ Hd]. by apply (se_leaf _ _ _ _ He).
    + split; [set_solver|apply frame_zero_ok; [by destruct Hfr|done]| | | |].
      * apply Hrg. apply al_free_range; [by apply (sp_alloc _ _ _ Hsp)|done].
      * intros ->. by apply (sv_free0 _ _ _ Hi).
      * intros Hc. by apply (take_not_top D _ s r Hsp Hr (m_root s)).
      * intros p Hp. change (cpu_map (taken s r a')) with (cpu_map s). rewrite (take_table D) by done. intros Hc.
        destruct (so_frame _ _ _ _ (sp_space _ _ _ Hsp) p r Hp Hc) as [_ Hnr]. apply Hnr. by left.
    + simpl. by rewrite lookup_insert_eq.
    + intros p va Hp. apply (ptr_table s); [done| |done]. intros q g Hq. by rewrite (take_table D).
    + intros f Ho. apply frame_owned; [apply He|done].
  - (* free *)
    intros s f Hi Ho. destruct (pfn_free_run f s (sp_alloc _ _ _ (sv_space _ _ _ Hi))) as (a' & Hrun & Hok & Hf & Hrg);
      [by apply Ho..|].
    eexists. split; [exact Hrun|]. split_and!; [by eapply freed_sv_inv|done|done|done|].
    intros g Hne [G1 G2 G3 G4 G5 G6]. split; [|done]. split; [|done| |done..].
    + change (g ∉ al_free a'). rewrite Hf. set_solver.
    + by apply Hrg.
  - done.
  - (* unbox of a boxed frame *)
    intros pfn prot Hpfn Hprot. cbn. pose proof rv_box_flags_checked as Hc. rewrite Forall_seqZ in Hc.
    destruct (Hc prot ltac:(lia)) as [_ Hb]. rewrite rv_box_split by lia. by apply rv_pte_pfn_split.
  - (* unbox of a boxed present bit *)
    intros pfn prot Hprot. by apply sv_unbox_present.
  - (* tlbop *)
    intros old new _. by left.
  - (* bound *)
    intros s f Hi Hf. pose proof (ao_frames _ (sp_alloc _ _ _ (sv_space _ _ _ Hi)) f Hf) as [Hfd _].
    pose proof dmap_56. lia.
Qed.

End laws.

(** * What the hardware sees *)

(** A last-level entry. *)
Definition translate_leaf (e : Z) : option Z :=
  if negb (pte_valid e) || (negb (has e PTE_R) && has e PTE_W) || has e PTE_RESERVED then None
  else if has e PTE_R || has e PTE_X then Some (pte_pfn e) else None.

Section hardware.
Context {CFG : Config} {CFGOK : ConfigOk} {SVOK : Sv48ConfigOk}.
Context {A : Type} `{!PfnCache A, !PfnAllocator A, !PfnAllocatorLaws A}.
Implicit Types s : mach A.

Lemma mmu_walk_invalid n fs f va : pte_valid (entry fs f (vpn n va)) = false → mmu_walk n fs f va = None.
Proof. intros Hv. destruct n; cbn [mmu_walk]; by rewrite Hv. Qed.

Lemma mmu_walk_table n fs f va :
  let e := entry fs f (vpn (S n) va) in
  pte_valid e = true → PageTable.pte_table_ok e = true → mmu_walk (S n) fs f va = mmu_walk n fs (pte_pfn e) va.
Proof.
  intros e Hv Ht. cbn [mmu_walk]. fold e. rewrite Hv.
  rewrite !(table_ok_has e) by done. done.
Qed.

Lemma mmu_walk_last fs f va : mmu_walk 0 fs f va = translate_leaf (entry fs f (L1OFF va)).
Proof.
  cbn [mmu_walk]. change (vpn 0 va) with (L1OFF va). unfold translate_leaf. change (Z.ones (9 * 0%nat)) with 0.
  unfold has at 6. rewrite !Z.land_0_r. cbn [Z.eqb negb]. by rewrite Z.lor_0_r.
Qed.

(** Below the slots of the invariant the CPU's translation is a function of the
    last-level entry. *)
Lemma sv_mmu_leaf D s va :
  space_inv D (cpu_map s) s → D (L4OFF va) → canonical va = true →
  mmu (m_frames s) (m_root s) va = translate_leaf (sp_leaf (cpu_map s) s va).
Proof.
  intros Hi Hd Hc. destruct (Pae64.cpu_va_paths D va Hd) as (P1 & P2 & P3). unfold mmu. rewrite Hc. cbn [negb].
  unfold sp_leaf, leaf. cbn [table tl_read cpu_map]. set (fs := m_frames s). set (root := m_root s).
  assert (∀ n q g i, entry fs g i = entry fs g (vpn (S n) va) → path_ok D (q ++ [i]) →
    slot_read (cpu_map s) s q i = Some (entry fs g i) →
    mmu_walk (S n) fs g va = match sub_table (entry fs g i) with Some h => mmu_walk n fs h va | None => None end ∧
    sp_table (cpu_map s) s (q ++ [i]) = sub_table (entry fs g i)) as Hstep.
  { intros n q g i He Hp Hs. split; [|by apply slot_read_table]. unfold sub_table.
    cbn [PageTable.pte_present PageTable.pte_frame sv48_format].
    destruct (pte_valid (entry fs g i)) eqn:Ev.
    - rewrite mmu_walk_table, <- He; [done|by rewrite <- He|]. rewrite <- He. by eapply slot_read_table_ok.
    - rewrite mmu_walk_invalid; [done|]. by rewrite <- He. }
  destruct (Hstep 2%nat [] root (L4OFF va)) as [-> T1]; [done..|]. cbn [tl_read cpu_map]. fold fs root.
  destruct (sub_table (entry fs root (L4OFF va))) as [f|] eqn:E4; [|done]. cbn [mbind option_bind walk].
  destruct (Hstep 1%nat [L4OFF va] f (L3OFF va)) as [-> T2]; [done..| |].
  { unfold slot_read. change ([L4OFF va]) with ([] ++ [L4OFF va]). by rewrite T1. }
  destruct (sub_table (entry fs f (L3OFF va))) as [g|] eqn:E3; [|done]. cbn [mbind option_bind].
  destruct (Hstep 0%nat [L4OFF va; L3OFF va] g (L2OFF va)) as [-> _]; [done..| |].
  { unfold slot_read. change ([L4OFF va; L3OFF va]) with ([L4OFF va] ++ [L3OFF va]). by rewrite T2. }
  destruct (sub_table (entry fs g (L2OFF va))) as [h|] eqn:E2; [|done]. cbn [mbind option_bind].
  apply mmu_walk_last.
Qed.

End hardware.

(** A boxed entry translates to its frame. *)
Lemma rv_box_hw_checked :
  Forall (λ prot, has prot HAL_PTE_P = true →
    pte_valid (box_flags prot) = true ∧ has (box_flags prot) PTE_R = true ∧
    Z.land (box_flags prot) PTE_RESERVED = 0) (seqZ 0 1024).
Proof. apply (bool_decide_unpack _). vm_compute. done. Qed.

Lemma sv_translate_box pfn prot :
  0 ≤ pfn < 2 ^ 44 → 0 ≤ prot < 1024 → has prot HAL_PTE_P = true →
  translate_leaf (RvPmap.hal_l1e_box pfn prot) = Some pfn.
Proof.
  intros Hpfn Hprot Hp. pose proof rv_box_flags_checked as Hc. rewrite Forall_seqZ in Hc.
  destruct (Hc prot ltac:(lia)) as [_ Hb]. pose proof rv_box_hw_checked as Hh. rewrite Forall_seqZ in Hh.
  destruct (Hh prot ltac:(lia) Hp) as (Hv & HR & Hres). rewrite rv_box_split by lia. unfold translate_leaf.
  assert (pte_valid (Z.lor (Z.shiftl pfn 10) (box_flags prot)) = true) as ->.
  { unfold pte_valid. by rewrite has_lor_shiftl. }
  assert (has (Z.lor (Z.shiftl pfn 10) (box_flags prot)) PTE_R = true) as -> by (by rewrite has_lor_shiftl).
  assert (has (Z.lor (Z.shiftl pfn 10) (box_flags prot)) PTE_RESERVED = false) as ->.
  { unfold has. apply negb_false_iff, Z.eqb_eq. rewrite Z.land_lor_distr_l, Hres, Z.lor_0_r.
    change PTE_RESERVED with (Z.land PTE_TABLE_MASK PTE_RESERVED). rewrite Z.land_assoc.
    by rewrite shiftl_high_clear. }
  cbn. by rewrite rv_pte_pfn_split.
Qed.

(** * A small machine, for evaluation

    The root table is frame 5; frames 1 to 4 are free; the kernel maps below slot
    511. *)

#[local] Existing Instance ex_config.
#[local] Existing Instance ex_nocache.
#[local] Existing Instance ex_config_ok.

Lemma exrv_config_ok : Sv48ConfigOk.
Proof. by split. Qed.
#[local] Existing Instance exrv_config_ok.

Definition exrv_slots (i : Z) : Prop := i = 511.

Definition exrv : mach pfa :=
  ex_mach4 {[1 := ex_page; 2 := ex_page; 3 := ex_page; 4 := ex_page; 5 := zero_page]} ∅ 5.

Definition exrv_k : kst (mach pfa) := Kst exrv (Ktlb 0 0).

Lemma exrv_inv : sv_inv exrv_slots (cpu_map exrv) exrv.
Proof.
  assert (∀ p, path_ok exrv_slots p → sp_table (cpu_map exrv) exrv p = None) as Ht.
  { intros p ((i & p' & -> & ->) & _). unfold sp_table. cbn [table]. by vm_compute. }
  pose proof (ex_free4 (m_frames exrv) ∅ 5) as Hf. change (ex_mach4 _ _ _) with exrv in Hf.
  split; [split|..].
  - apply ex_alloc4_ok. by intros f [->|[->|[->| ->]]].
  - split.
    + intros p f Hp. fold (sp_table (cpu_map exrv) exrv p). by rewrite Ht.
    + intros p q f Hp Hq. fold (sp_table (cpu_map exrv) exrv p). by rewrite Ht.
    + intros i ->. by vm_compute.
    + intros p f i Hp _ _. fold (sp_table (cpu_map exrv) exrv p). by rewrite Ht.
  - split; [split; [done|by exists zero_page]|]. rewrite Hf. set_solver.
  - by intros i ->.
  - intros p f Hp. by rewrite Ht.
  - rewrite Hf. set_solver.
  - intros p Hp. by rewrite Ht.
Qed.

Definition exrv_va : Z := 0xffffff8000123000.

Lemma exrv_kva : riscv_kva exrv_slots exrv_va.
Proof. vm_compute. done. Qed.

Lemma exrv_size : size (free_frames exrv) = 4%nat.
Proof. unfold exrv. by rewrite ex_free4. Qed.

(** * Properties *)

(** C16. On RISC-V, [kmap_map] changes what the CPU translates, and only at its
    page: after the call the CPU's walk of the Sv48 tables takes the page's
    address to the frame, and takes every other address of the kernel map where
    it took it before; the call can only fail to return when the page had no
    mapping and fewer than three frames are free. *)
Theorem riscv_kmap_map_translates `{!Config} (Hcfg : ConfigOk) (Hsv : Sv48ConfigOk)
    {A : Type} `{!PfnCache A, !PfnAllocator A} (Hlaws : PfnAllocatorLaws A)
    (D : Z → Prop) (va pfn prot : Z) (k : kst (mach A))
    (Hi : sv_inv D (cpu_map (k_mach k)) (k_mach k)) (Hv : riscv_kva D va) (Hc : canonical va = true)
    (Hpfn : 0 ≤ pfn < 2 ^ 44) (Hprot : 0 ≤ prot < 1024) (Hp : has prot HAL_PTE_P = true) :
  let tr (k : kst (mach A)) := mmu (m_frames (k_mach k)) (m_root (k_mach k)) in
  (∃ old k', kmap_map (HalPmap0 := riscv_pmap D) va pfn prot k = Ret (old, k') ∧
     sv_inv D (cpu_map (k_mach k')) (k_mach k') ∧ tr k' va = Some pfn ∧
     ∀ va', riscv_kva D va' → canonical va' = true → ¬ same_page va va' → tr k' va' = tr k va') ∨
  (kmap_map (HalPmap0 := riscv_pmap D) va pfn prot k = Abort AssertFail ∧
     tr k va = None ∧ (size (free_frames (k_mach k)) < 3)%nat).
Proof.
  intros tr. pose proof (riscv_pmap_laws D) as Hl. unfold kmap_map.
  destruct (@kmap_map_run _ (riscv_pmap D) Hl va pfn prot true k Hi Hv)
    as [(s' & Hr & Hi' & Hs & _)|(Hr & Hz & Hsz)].
  - change (∀ va', riscv_kva D va' → sp_leaf (cpu_map s') s' va' =
      if decide (same_page va va') then RvPmap.hal_l1e_box pfn prot
      else sp_leaf (cpu_map (k_mach k)) (k_mach k) va') in Hs.
    left. eexists _, _. split; [exact Hr|]. split; [done|]. unfold tr. cbn [k_mach].
    pose proof (sv_space _ _ _ Hi) as Hsp. pose proof (sv_space _ _ _ Hi') as Hsp'. split.
    + rewrite (sv_mmu_leaf D) by (done || apply Hv). rewrite (Hs va Hv).
      rewrite decide_True by done. by apply sv_translate_box.
    + intros va' Hv' Hc' Hne. rewrite !(sv_mmu_leaf D) by (done || apply Hv').
      rewrite (Hs va' Hv'). by rewrite decide_False.
  - right. split; [done|]. split; [|by apply Hsz]. unfold tr. pose proof (sv_space _ _ _ Hi) as Hsp.
    rewrite (sv_mmu_leaf D) by (done || apply Hv).
    change (sp_leaf (cpu_map (k_mach k)) (k_mach k) va = 0) in Hz. by rewrite Hz.
Qed.

(** C32. The Sv48 page tables implement the contract the kernel map is verified
    against: looking an entry up, reading and replacing it, and allocating and
    freeing frames behave as the map from pages to entries that the contract
    describes, tables that the lookup adds never change a mapping or the
    contents of a frame in use, and boxed entries unbox to what was boxed. *)
Theorem riscv_refines_pmap `{!Config} (Hcfg : ConfigOk) (Hsv : Sv48ConfigOk)
    {A : Type} `{!PfnCache A, !PfnAllocator A} (Hlaws : PfnAllocatorLaws A) (D : Z → Prop) :
  @HalPmapLaws (mach A) (riscv_pmap D).
Proof. apply riscv_pmap_laws. Qed.

Lemma riscv_kmap_map_translates_witness :
  ∃ old k', kmap_map (HalPmap0 := riscv_pmap exrv_slots) exrv_va 6 3 exrv_k = Ret (old, k') ∧
    mmu (m_frames (k_mach k')) (m_root (k_mach k')) exrv_va = Some 6.
Proof.
  destruct (riscv_kmap_map_translates ex_config_ok exrv_config_ok stree_allocator_laws exrv_slots
    exrv_va 6 3 exrv_k exrv_inv exrv_kva) as [(old & k' & Hr & _ & Ht & _)|(_ & _ & Hsz)]; [done..| |].
  - exists old, k'. split; [exact Hr|exact Ht].
  - exfalso. change (size (free_frames exrv) < 3)%nat in Hsz. rewrite exrv_size in Hsz. lia.
Defined.

Lemma riscv_refines_pmap_witness : @HalPmapLaws (mach pfa) (riscv_pmap exrv_slots).
Proof. exact (riscv_refines_pmap ex_config_ok exrv_config_ok stree_allocator_laws exrv_slots). Defined.
