(* ===== verification/HeapRiscv.v ===== *)
(** The kernel heap over the RISC-V page tables. *)

From S2P Require Import Prelude Words Stree Locks Machine Pfnalloc Hal RvPmap PageTable Space Kmap Sv48 Riscv Kmem KmemInv KmemOps HeapMap.

Section laws.
Context {CFG : Config} {CFGOK : ConfigOk} {SVOK : Sv48ConfigOk}.
Context {A : Type} `{!PfnCache A, !PfnAllocator A, !PfnAllocatorLaws A}.
Context (D : Z → Prop).

Lemma riscv_mem_laws : @HalMemLaws (mach A) (riscv_pmap D) mach_mem.
Proof.
  split.
  - intros s f _ Ho. by apply frame_page, Ho.
  - intros s f _ Ho. destruct (ro_frame _ _ _ Ho) as [Hd _]. pose proof dmap_56. lia.
  - intros s f _ Ho. by apply Ho.
  - intros pfn prot Hpfn Hprot Hp. cbn. pose proof rv_box_flags_checked as Hc. rewrite Forall_seqZ in Hc. destruct (Hc prot ltac:(lia)) as [Hu _].
    rewrite rv_box_split, rv_unbox_prot_split, Hu, Hp by lia. unfold has. rewrite Z.ldiff_land, <- Z.land_assoc. done.
  - intros s f i v Hi Ho Hix s'. cbn in Hi, Ho. destruct Ho as [H1 H2 H3 H4 H5 H6]. destruct (frame_page s f H2) as (l & Hl & _).
    assert (cpu_map s' = cpu_map s) as Hcm by done.
    assert (∀ j, tl_read (cpu_map s) s' j = tl_read (cpu_map s) s j) as Htop by (intros j; cbn; by rewrite entry_other).
    assert (∀ p, path_ok D p → sp_table (cpu_map s) s' p = sp_table (cpu_map s) s p) as Hw.
    { intros p Hp. unfold sp_table. rewrite (table_top_ext D (tl_read (cpu_map s) s)); [|by intros; apply Htop|done]. by apply (data_write_table D). }
    pose proof Hi as [[[A1 A2 A3 A4] S2 S3 S4 S5] V2 V3]. split_and!.
    + change (sv_inv D (cpu_map s) s'). split; [split|done|].
      * split; [done|intros g Hg; by apply frame_update_ok, A2|done|done].
      * apply (space_ok_top_ext D _ (tl_read (cpu_map s) s)); [by apply S4|by intros; apply Htop|]. by apply data_write_ok.
      * destruct S3 as [S31 S32]. split; [by apply frame_update_ok|done].
      * done.
      * intros p g Hp. rewrite Hw by done. by apply S5.
      * intros p Hp. rewrite Hw by done. by apply V3.
    + intros va [_ Hd]. change (sp_leaf (cpu_map s) s' va = sp_leaf (cpu_map s) s va). unfold sp_leaf.
      rewrite (leaf_top_ext D (tl_read (cpu_map s) s)); [|by intros; apply Htop|done]. by apply (data_write_leaf D).
    + done.
    + intros g [G1 G2 G3 G4 G5 G6]. split; [done|by apply frame_update_ok|done|done|done|]. intros p Hp.
      change (sp_table (cpu_map s) s' p ≠ Some g). rewrite Hw by done. by apply G6.
    + by apply (store_page s f i v l).
    + by apply (store_page s f i v l).
Qed.

End laws.
