(* ===== verification/UmapSv48.v ===== *)
(** User maps of the RISC-V HAL: the tables of a [struct hal_umap]
    (libhal_riscv/sv48.c and pmap.c), and loading them into the CPU's top
    level. *)

From S2P Require Import Prelude Words Stree Locks Machine Pfnalloc Hal RvPmap PageTable Space UmapInit UmapScan UmapFree.
From S2P Require Import Sv48 Kmap Riscv.

Section defs.
Context {CFG : Config} {A : Type} `{!PfnCache A, !PfnAllocator A}.

Definition hal_virtmem_userbase : Z := pt_umap_minaddr.

(** [va] of the loops over the slots of a umap. *)
Definition slot_va (i : Z) : Z := u64 (hal_virtmem_userbase + i * Z.shiftl 1 L4_SHIFT).

Definition hal_umap_init (u : Z) : M (mach A) unit := init_slots alloc_table UMAP_L4PTES u.

Definition bootstrap_slot (u i : Z) : M (mach A) unit :=
  l4ptr ← get_cpumap_l4ptr (slot_va i);
  l4e ← kload l4ptr;
  assertb (negb (pte_valid_leaf l4e));;
  l4e ← (if negb (pte_valid_table l4e) then
           e ← alloc_table;
           assertb (negb (e =? PTE_INVALID));;
           kstore l4ptr e;;
           riscv_invlpg (slot_va i);;
           mret e
         else mret l4e);
  put_cpumap_l4ptr (slot_va i) l4ptr;;
  kstore (u + 8 * i) l4e.

Definition hal_umap_bootstrap (u : Z) : M (mach A) unit :=
  for_each (seqZ 0 UMAP_L4PTES) (bootstrap_slot u);;
  for_each (seqZ UMAP_L4PTES (256 - UMAP_L4PTES)) (λ i,
    l4ptr ← get_cpumap_l4ptr (slot_va i);
    l4e ← kload l4ptr;
    if pte_valid l4e then stop Fatal else put_cpumap_l4ptr (slot_va i) l4ptr).

Fixpoint load_slots (umap : option Z) (slots : list Z) (tlbop : Z) : M (mach A) Z :=
  match slots with
  | [] => mret tlbop
  | i :: slots' =>
      newl4e ← (match umap with Some u => kload (u + 8 * i) | None => mret 0 end);
      l4ptr ← get_cpumap_l4ptr (slot_va i);
      oldl4e ← kload l4ptr;
      kstore l4ptr newl4e;;
      put_cpumap_l4ptr (slot_va i) l4ptr;;
      load_slots umap slots' (Z.lor tlbop (RvPmap.hal_l1e_tlbop oldl4e newl4e))
  end.

Definition hal_umap_load (umap : option Z) : M (mach A) Z :=
  load_slots umap (seqZ 0 UMAP_L4PTES) HAL_TLBOP_NONE.

Definition scan_l1 (l1pfn off : Z) : M (mach A) (option scan_out) := UmapScan.scan_l1 mkpte l1pfn off.
Definition scan_l2 (l2pfn off : Z) : M (mach A) (option scan_out) := UmapScan.scan_l2 pte_valid_table mkpte l2pfn off.
Definition scan_l3 (l3pfn off : Z) : M (mach A) (option scan_out) := UmapScan.scan_l3 pte_valid_table mkpte l3pfn off.

(** The slot the loop of [scan_l4] reads, whatever its counter. *)
Definition scan_slot (umap : option Z) (off : Z) : M (mach A) Z :=
  match umap with
  | None => p ← get_cpumap_l4off off; kload p
  | Some u => kload (u + 8 * off)
  end.

Definition scan_l4 (umap : option Z) (off : Z) : M (mach A) (option scan_out) :=
  for_find (seqZ off (UMAP_L4PTES - off)) (λ i,
    l4e ← scan_slot umap off;
    scan_entry pte_valid_table (λ l3pfn, scan_l3 l3pfn 0) i l4e).

Definition pt_umap_next (umap : option Z) (uaddr : Z) : M (mach A) (Z * option (Z * Z)) :=
  let l4off := L4OFF uaddr in
  let l3off := L3OFF uaddr in
  let l2off := L2OFF uaddr in
  let l1off := L1OFF uaddr in
  assertb (L4OFF uaddr <? UMAP_L4PTES);;
  l4ptr ← umap_l4ptr umap uaddr;
  r ← next_search mkaddr uaddr
    (scan_if (walk_l1pfn l4ptr uaddr false) (λ l1pfn, scan_l1 l1pfn (l1off + 1)))
    (scan_if (walk_l2pfn l4ptr uaddr false) (λ l2pfn, scan_l2 l2pfn (l2off + 1)))
    (scan_if (walk_l3pfn l4ptr uaddr false) (λ l3pfn, scan_l3 l3pfn (l3off + 1)))
    (scan_l4 umap (l4off + 1));
  umap_put_l4ptr umap uaddr l4ptr;;
  mret r.

Definition pt_umap_free (u : Z) : M (mach A) unit :=
  free_slots pte_valid_table (λ e, negb (pte_valid_leaf e)) UMAP_L4PTES u.

Definition hal_umap_next (umap : option Z) (uaddr : Z) : M (mach A) (Z * option (Z * Z)) :=
  let uaddr := if uaddr <? pt_umap_minaddr then pt_umap_minaddr else uaddr in
  if pt_umap_maxaddr <=? uaddr then mret (UADDR_INVALID, None) else pt_umap_next umap uaddr.

Definition hal_umap_free (u : Z) : M (mach A) unit := pt_umap_free u.

End defs.

(** * The next page in use *)

Section next.
Context {CFG : Config} {CFGOK : ConfigOk} {SVOK : Sv48ConfigOk}.
Context {A : Type} `{!PfnCache A, !PfnAllocator A, !PfnAllocatorLaws A}.
Implicit Types s : mach A.

Lemma valid_table_present e : pte_valid_table e = true → PageTable.pte_present e = true.
Proof.
  intros Ht. cbn. unfold pte_valid_table in Ht. apply Z.eqb_eq in Ht. unfold pte_valid, has.
  assert (Z.land e PTE_V = PTE_V) as ->; [|done].
  transitivity (Z.land (Z.land e PTE_FLAGS) PTE_V); [by rewrite <- Z.land_assoc|by rewrite Ht].
Qed.

Lemma sv_mkaddr_page m a b c d :
  0 ≤ m < UMAP_L4PTES * 512 ^ 3 → page_path m = [a; b; c] → m `mod` 512 = d → mkaddr a b c d = 4096 * m.
Proof.
  intros Hm [= <- <- <-] <-. change UMAP_L4PTES with 8 in Hm. destruct (page_split m) as (E & _).
  assert (0 ≤ m `div` 512 ^ 3 < 8) as Ha.
  { change (512 ^ 3) with 134217728 in *. Z.div_mod_to_equations. lia. }
  pose proof (Z.mod_pos_bound (m `div` 512 ^ 2) 512). pose proof (Z.mod_pos_bound (m `div` 512) 512).
  pose proof (Z.mod_pos_bound m 512). change mkaddr with Pae64.mkaddr.
  rewrite Pae64.mkaddr_canon by (unfold index_ok; lia). unfold Pae64.canon, Pae64.vaddr.
  change (2 ^ 39) with (134217728 * 4096). change (2 ^ 30) with (262144 * 4096).
  change (2 ^ 21) with (512 * 4096). change (2 ^ 12) with 4096.
  rewrite (proj2 (Z.ltb_lt _ _)) by lia. lia.
Qed.

(** A search that reads the same slot in every iteration stops at its first. *)
Lemma scan_entry_none (below : Z → M (mach A) (option scan_out)) i j e s :
  scan_entry pte_valid_table below i e s = Ret (None, s) → scan_entry pte_valid_table below j e s = Ret (None, s).
Proof.
  unfold scan_entry. destruct (pte_valid_table e); [|done]. intros (r & s1 & Hr & Hm)%bind_Ret_inv.
  rewrite (bind_Ret _ _ _ _ _ Hr). by destruct r.
Qed.

Lemma scan_l4_same umap l off s :
  sv_inv uslot l s → 0 ≤ off ≤ UMAP_L4PTES →
  (uslot off → scan_slot umap off s = Ret (tl_read l s off, s)) →
  finds (scan_l4 umap off) s (λ m, page_leaf l s m ≠ 0) (off * 512 ^ 3)
    (Z.min (off + 1) UMAP_L4PTES * 512 ^ 3) (out4 mkpte l s).
Proof.
  intros Hsv Hoff Hrd. pose proof (sv_space _ _ _ Hsv) as Hi. unfold scan_l4.
  destruct (decide (off = UMAP_L4PTES)) as [->|Hne].
  { exists None. split; [done|]. rewrite Z.min_r by lia. intros m Hm. lia. }
  assert (uslot off) as Hs by (unfold uslot; lia). rewrite Z.min_l by lia. specialize (Hrd Hs).
  destruct (slot_words pte_valid_table uslot l s Hi valid_table_present (λ e _, table_ok_valid e) off Hs) as [Hit Hsub].
  destruct (scan_entry_run pte_valid_table 2 (λ l3pfn, scan_l3 l3pfn 0)
    (out3 mkpte s) (tl_read l s) off s Hit) as (r & Hr & Hl).
  { intros Hpr. destruct (Hsub Hpr) as [Hp Hf].
    by apply (scan_l3_run pte_valid_table mkpte uslot l s Hi valid_table_present (λ e _, table_ok_valid e) [off]). }
  exists r. split; [|exact Hl]. rewrite seqZ_cons by lia. cbn [for_find]. rewrite bind_assoc. mrun Hrd. mrun Hr.
  destruct r as [m|]; [done|]. cbn [fmap option_fmap option_map] in *.
  rewrite (for_find_pure _ _ (λ _, None)).
  - assert (∀ ks : list Z, first_some (λ _ : Z, None : option scan_out) ks = None) as Hfs
      by (induction ks; [done|assumption]). by rewrite Hfs.
  - intros i _. mrun Hrd. by apply (scan_entry_none _ off).
Qed.

Lemma sv_lookup D l s s' q r :
  sv_reached D l false s s' q r → s' = s ∧ r = default PFN_INVALID (sp_table l s q).
Proof.
  intros (_ & _ & Hs & _ & Hr). rewrite Hs in * by done. split; [done|].
  destruct Hr as [(-> & -> & _)|[_ ->]]; done.
Qed.

Lemma sv_user_digits va :
  0 ≤ va < pt_umap_maxaddr → let n := va `div` 4096 in
  [L4OFF va; L3OFF va; L2OFF va] = page_path n ∧ L1OFF va = n `mod` 512 ∧ uslot (n `div` 512 ^ 3).
Proof.
  intros Hva n. change pt_umap_maxaddr with (2 ^ 42) in Hva.
  destruct (va_page_path va) as [Hp H1]; [lia|]. fold n in Hp, H1. split_and!; [done..| |];
    unfold n, uslot; change UMAP_L4PTES with 8; change (512 ^ 3) with 134217728; Z.div_mod_to_equations; lia.
Qed.

(** The last page that [pt_umap_next] looks at: the end of the slot after the
    one of its argument. *)
Definition next_limit (n : Z) : Z := Z.min (n `div` 512 ^ 3 + 2) UMAP_L4PTES * 512 ^ 3.

Lemma sv_pt_umap_next_run umap s uaddr :
  let l := umap_loc umap s in
  root_ok s → sv_inv uslot l s → 0 ≤ uaddr < pt_umap_maxaddr →
  ∃ r, pt_umap_next umap uaddr s = Ret (next_result mkpte l s r, s) ∧
    least (λ m, page_leaf l s m ≠ 0) (uaddr `div` 4096 + 1) (next_limit (uaddr `div` 4096)) r.
Proof.
  intros l Hroot Hsv Hu. destruct (sv_user_digits uaddr Hu) as (Hpath & E1 & Hd).
  set (n := uaddr `div` 4096) in *. assert (0 ≤ n) as Hn by (apply Z.div_pos; lia).
  pose proof Hpath as Hp'. unfold page_path in Hp'. injection Hp' as E4 E3 E2.
  assert (uslot (L4OFF uaddr)) as Hd' by (by rewrite E4). pose proof (sv_space _ _ _ Hsv) as Hi.
  destruct (walk_l1pfn_run uslot l s uaddr false Hsv Hd') as (f1 & s1 & R1 & [-> ->]%sv_lookup).
  destruct (walk_l2pfn_run uslot l s uaddr false Hsv Hd') as (f2 & s2 & R2 & [-> ->]%sv_lookup).
  destruct (walk_l3pfn_run uslot l s uaddr false Hsv Hd') as (f3 & s3 & R3 & [-> ->]%sv_lookup).
  assert ([L4OFF uaddr; L3OFF uaddr] = [n `div` 512 ^ 3; (n `div` 512 ^ 2) `mod` 512]) as Hp2 by (by rewrite E4, E3).
  assert ([L4OFF uaddr] = [n `div` 512 ^ 3]) as Hp3 by (by rewrite E4).
  rewrite Hpath in R1. rewrite Hp2 in R2. rewrite Hp3 in R3.
  unfold pt_umap_next. rewrite bind_assert by (apply Z.ltb_lt; by destruct Hd').
  mrun (umap_l4ptr_run umap s uaddr Hroot). fold l.
  assert (∀ i, uslot i → scan_slot umap i s = Ret (tl_read l s i, s)) as Hrd.
  { intros i Hs. pose proof (sp_slots _ _ _ Hi i Hs) as Hx. unfold l in *. destruct umap as [u|]; cbn [scan_slot umap_loc].
    - by apply (tl_load_run uslot (InData u)).
    - mrun (l4off_run s i Hroot Hx). by apply (tl_load_run uslot). }
  edestruct (next_search_run mkpte l s n Hn mkaddr uaddr
    (scan_if (walk_l1pfn (tl_ptr l (L4OFF uaddr)) uaddr false) (λ l1pfn, scan_l1 l1pfn (L1OFF uaddr + 1)))
    (scan_if (walk_l2pfn (tl_ptr l (L4OFF uaddr)) uaddr false)
       (λ l2pfn, scan_l2 l2pfn (L2OFF uaddr + 1)))
    (scan_if (walk_l3pfn (tl_ptr l (L4OFF uaddr)) uaddr false)
       (λ l3pfn, scan_l3 l3pfn (L3OFF uaddr + 1)))
    (scan_l4 umap (L4OFF uaddr + 1)) (next_limit n)) as (r & Hr & Hl).
  - intros m a b c d Hm. apply sv_mkaddr_page. unfold next_limit in Hm. lia.
  - done.
  - unfold next_limit, uslot in *. lia.
  - rewrite E1. by apply (next_l1_run mkpte uslot).
  - rewrite E2. by apply (next_l2_run pte_valid_table mkpte uslot l s Hi valid_table_present (λ e _, table_ok_valid e)).
  - rewrite E3. by apply (next_l3_run pte_valid_table mkpte uslot l s Hi valid_table_present (λ e _, table_ok_valid e)).
  - rewrite E4 at 1. apply finds_out4. unfold next_limit.
    replace (n `div` 512 ^ 3 + 2) with (n `div` 512 ^ 3 + 1 + 1) by lia.
    apply scan_l4_same; [done|unfold uslot in Hd; lia|]. by intros Hs; apply Hrd.
  - exists r. split; [|exact Hl]. mrun Hr. mrun (umap_put_l4ptr_run umap s uaddr (tl_ptr l (L4OFF uaddr)) Hroot). done.
Qed.

End next.

(** * Freeing a map *)

Lemma leaf_unchecked e :
  (PageTable.pte_present e = true → PageTable.pte_table_ok e = true) → negb (pte_valid_leaf e) = true.
Proof.
  intros Ht. destruct (pte_valid_leaf e) eqn:El; [|done]. exfalso. unfold pte_valid_leaf in El. apply Z.eqb_eq in El.
  assert (pte_valid e = true) as Hv.
  { unfold pte_valid, has. assert (Z.land e PTE_V = PTE_V) as ->; [|done].
    transitivity (Z.land (Z.land e (Z.lor PTE_V PTE_R)) PTE_V); [by rewrite <- Z.land_assoc|by rewrite El]. }
  by rewrite (table_ok_masks e (Z.lor PTE_V PTE_R)) in El by (done || by apply Ht).
Qed.

Lemma pt_umap_free_run {CFG : Config} {CFGOK : ConfigOk} {SVOK : Sv48ConfigOk}
    {A : Type} `{!PfnCache A, !PfnAllocator A, !PfnAllocatorLaws A} u (s : mach A) :
  space_inv uslot (InData u) s →
  ∃ s', pt_umap_free u s = Ret (tt, s') ∧ freed uslot (InData u) s (λ _, True) s' ∧
    (∀ i, uslot i → m_kdata s' !! (u + 8 * i) = Some PTE_INVALID) ∧
    (∀ a, (∀ i, uslot i → a ≠ u + 8 * i) → m_kdata s' !! a = m_kdata s !! a).
Proof.
  intros Hi.
  destruct (free_slots_run pte_valid_table (λ e, negb (pte_valid_leaf e)) UMAP_L4PTES u s Hi) as (s' & Hrun & HF);
    [apply valid_table_present|intros e _; apply table_ok_valid|apply leaf_unchecked|].
  exists s'. split; [exact Hrun|exact HF].
Qed.

(** * Loading a map into the CPU's top level *)

Section load.
Context {CFG : Config} {CFGOK : ConfigOk} {SVOK : Sv48ConfigOk}.
Context {A : Type} `{!PfnCache A, !PfnAllocator A, !PfnAllocatorLaws A}.
Implicit Types s : mach A.

Lemma sv_slot_va_off i : index_ok i → L4OFF (slot_va i) = i.
Proof.
  intros Hi. unfold index_ok in Hi. unfold slot_va, hal_virtmem_userbase, pt_umap_minaddr.
  change (Z.shiftl 1 L4_SHIFT) with (2 ^ 39). rewrite u64_small by (unfold word64; lia).
  unfold L4OFF. rewrite land_ones_9, Z.shiftr_div_pow2 by lia. rewrite Z.add_0_l, Z.div_mul by lia.
  by apply Z.mod_small.
Qed.

Definition new_l4e (umap : option Z) s (i : Z) : Z :=
  match umap with Some u => tl_read (InData u) s i | None => 0 end.

(** From [s] to [s'] the slots from [lo] to [hi] of the CPU's top level have been
    replaced. *)
Record loaded (umap : option Z) (lo hi : Z) s0 s s' : Prop := {
  ld_kdata : m_kdata s' = m_kdata s;
  ld_root : m_root s' = m_root s;
  ld_alloc : m_alloc s' = m_alloc s;
  ld_pages : m_free_pages s' = m_free_pages s;
  ld_alock : m_alock s' = m_alock s;
  ld_frames f : f ≠ m_root s → m_frames s' !! f = m_frames s !! f;
  ld_frame_ok f : frame_ok (m_frames s) f → frame_ok (m_frames s') f;
  ld_entry i : index_ok i → entry (m_frames s') (m_root s) i =
    if decide (lo ≤ i < hi) then new_l4e umap s0 i else entry (m_frames s) (m_root s) i;
}.

Lemma sv_load_slots_run umap s0 (n : nat) : ∀ lo s op,
  0 ≤ lo → lo + n ≤ UMAP_L4PTES → (∀ u, umap = Some u → tl_ok uslot (InData u) s0) →
  frame_ok (m_frames s) (m_root s) → m_kdata s = m_kdata s0 →
  ∃ s', load_slots umap (seqZ lo n) op s = Ret (if decide (n = 0%nat) then op else Z.lor op HAL_TLBOP_FLUSH, s') ∧
    loaded umap lo (lo + n) s0 s s'.
Proof.
  induction n as [|n IH]; intros lo s op Hlo Hhi Hu Hf Hk.
  - exists s. split; [done|]. split; try done. intros i _. by rewrite decide_False by lia.
  - rewrite seqZ_cons by lia. cbn [load_slots]. replace (Z.pred (S n)) with (Z.of_nat n) by lia.
    assert (uslot lo) as Hs by (unfold uslot; lia). pose proof Hf as [Hr _].
    assert (index_ok lo) as Hx by (unfold uslot, index_ok in *; change UMAP_L4PTES with 8 in *; lia).
    assert ((match umap with Some u => kload (u + 8 * lo) | None => mret 0 end) s =
      Ret (new_l4e umap s0 lo, s)) as Hnew.
    { destruct umap as [u|]; [|done]. destruct (Hu u eq_refl lo Hs) as ([v Hv] & Hdm & Hal).
      cbn. rewrite Hv. apply data_load_run; [by rewrite Hk|done|done]. }
    mrun Hnew. set (v := new_l4e umap s0 lo). unfold get_cpumap_l4ptr. rewrite sv_slot_va_off by done.
    mrun (l4off_run s lo Hr Hx). cbn [tl_ptr]. destruct (frame_word_ok _ _ lo Hf Hx) as [w Hw].
    mrun (kload_run (m_root s) lo w s Hr Hx Hw). mrun (kstore_run (m_root s) lo v s Hf Hx).
    set (s1 := set_frames (frame_update (m_frames s) (m_root s) lo v) s).
    mrun (put_l4ptr_run s1 (slot_va lo) (window (m_root s) + 8 * lo) Hr).
    destruct (IH (Z.succ lo) s1 (Z.lor op HAL_TLBOP_FLUSH)) as (s' & Hrun & [L1 L2 L3 L4 L5 L6 L7 L8]);
      [lia|lia|done|by apply frame_update_ok|done|].
    exists s'. split.
    + change (RvPmap.hal_l1e_tlbop w v) with HAL_TLBOP_FLUSH. rewrite Hrun.
      rewrite (decide_False (P := S n = 0%nat)) by lia. case_decide; [done|].
      by rewrite <- Z.lor_assoc, Z.lor_diag.
    + split; try done.
      * intros f Hne. rewrite L6 by done. simpl. unfold frame_update. by rewrite lookup_alter_ne.
      * intros f Hfo. by apply L7, frame_update_ok.
      * intros i Hxi. rewrite L8 by done. simpl m_frames. rewrite entry_update by done.
        destruct (decide (i = lo)) as [->|Hil].
        -- rewrite (decide_False (P := Z.succ lo ≤ lo < _)) by lia.
           rewrite (decide_True (P := lo ≤ lo < _)) by lia. by rewrite decide_True.
        -- rewrite (decide_False (P := m_root s = m_root s ∧ lo = i)) by (intros [_ ?]; congruence).
           destruct (decide (Z.succ lo ≤ i < Z.succ lo + n)); [by rewrite decide_True by lia|by rewrite decide_False by lia].
Qed.

Lemma loaded_alloc umap lo hi s0 s s' : loaded umap lo hi s0 s s' → alloc_ok s → alloc_ok s'.
Proof.
  intros [L1 L2 L3 L4 L5 L6 L7 L8] [A1 A2 A3 A4].
  split; unfold free_frames in *; rewrite ?L3, ?L4, ?L5; [done| |done|done]. intros f Hf. by apply L7, A2.
Qed.

(** The kernel's part of the CPU's map stays as it was. *)
Lemma loaded_kernel umap hi s0 s s' (K : Z → Prop) :
  loaded umap 0 hi s0 s s' → hi ≤ UMAP_L4PTES → (∀ i, K i → ¬ uslot i) → sv_inv K (cpu_map s) s →
  sv_inv K (cpu_map s') s' ∧ ∀ va, K (L4OFF va) → sp_leaf (cpu_map s') s' va = sp_leaf (cpu_map s) s va.
Proof.
  intros Hl Hhi HK [Hi H0 Ht0]. pose proof Hl as [L1 L2 L3 L4 L5 L6 L7 L8].
  assert (cpu_map s' = cpu_map s) as -> by (unfold cpu_map; by rewrite L2).
  assert (∀ i, K i → tl_read (cpu_map s) s' i = tl_read (cpu_map s) s i) as Htop.
  { intros i Hk. cbn. rewrite L8 by (by apply (sp_slots _ _ _ Hi)). rewrite decide_False; [done|].
    intros Hc. apply (HK i Hk). unfold uslot. lia. }
  assert (∀ p f, path_ok K p → sp_table (cpu_map s) s p = Some f → f ≠ m_root s) as Hne.
  { intros p f Hp Hf ->. destruct (so_frame _ _ _ _ (sp_space _ _ _ Hi) p _ Hp Hf) as [_ Hn]. apply Hn. by right. }
  assert (∀ p f, path_ok K p → sp_table (cpu_map s) s p = Some f → m_frames s' !! f = m_frames s !! f) as Hfr
    by (intros p f Hp Hf; apply L6; by eapply Hne).
  split; [|intros va Hk; by apply (copied_leaf K)]. split.
  - apply (copied_inv K (cpu_map s) _ s); [done..|exact (loaded_alloc _ _ _ _ _ _ Hl (sp_alloc _ _ _ Hi))| | | |].
    + destruct (sp_top _ _ _ Hi) as [T1 T2]. split; [by apply L7|]. unfold free_frames in *. by rewrite L3.
    + unfold free_frames. by rewrite L3.
    + by rewrite L3.
    + intros p f Hp Hf [= Hc]. by apply (Hne p f Hp Hf).
  - unfold free_frames in *. by rewrite L3.
  - intros p Hp. rewrite (copied_table K (cpu_map s) (cpu_map s) s s') by done. by apply Ht0.
Qed.

(** The map loaded is the user part of the CPU's map. *)
Lemma loaded_user u s s' :
  loaded (Some u) 0 UMAP_L4PTES s s s' → frame_ok (m_frames s) (m_root s) → m_root s ∉ free_frames s →
  sv_inv uslot (InData u) s → (∀ p, path_ok uslot p → sp_table (InData u) s p ≠ Some (m_root s)) →
  sv_inv uslot (cpu_map s') s' ∧ sv_inv uslot (InData u) s' ∧
  ∀ va, uslot (L4OFF va) → sp_leaf (cpu_map s') s' va = sp_leaf (InData u) s va.
Proof.
  intros Hl Hrf Hru [Hi H0 Ht0] Hroot. pose proof Hl as [L1 L2 L3 L4 L5 L6 L7 L8].
  assert (∀ i, uslot i → tl_read (cpu_map s') s' i = tl_read (InData u) s i) as Htop.
  { intros i Hd. cbn. rewrite L2, L8 by (by apply (sp_slots _ _ _ Hi)). by rewrite decide_True by apply Hd. }
  assert (∀ p f, path_ok uslot p → sp_table (InData u) s p = Some f → m_frames s' !! f = m_frames s !! f) as Hfr.
  { intros p f Hp Hf. apply L6. intros ->. by apply (Hroot p). }
  assert (free_frames s' = free_frames s) as Hfree by (unfold free_frames; by rewrite L3).
  assert (∀ f, al_range (m_alloc s') f ↔ al_range (m_alloc s) f) as Hrg by (by rewrite L3).
  pose proof (loaded_alloc _ _ _ _ _ _ Hl (sp_alloc _ _ _ Hi)) as Hok.
  assert (tl_ok uslot (InData u) s') as Hself by (intros i Hd; rewrite L1; by apply (sp_top _ _ _ Hi)).
  assert (∀ i, uslot i → tl_read (InData u) s' i = tl_read (InData u) s i) as Hst by (intros i _; cbn; by rewrite L1).
  split_and!.
  - split; [|by rewrite Hfree|].
    + apply (copied_inv uslot (InData u) _ s); [done..| |by rewrite Hfree|done|].
      * cbn. rewrite L2, Hfree. split; [by apply L7|done].
      * intros p f Hp Hf [= Hc]. apply (Hroot p Hp). by rewrite Hf, <- Hc, L2.
    + intros p Hp. rewrite (copied_table uslot (InData u) (cpu_map s') s s') by done. by apply Ht0.
  - split; [|by rewrite Hfree|].
    + by apply (copied_inv uslot (InData u) _ s); [done..|rewrite Hfree|done|].
    + intros p Hp. rewrite (copied_table uslot (InData u) (InData u) s s') by done. by apply Ht0.
  - intros va Hd. by apply (copied_leaf uslot).
Qed.

End load.

Lemma sv48_alloc_table_spec {CFG : Config} {CFGOK : ConfigOk} {SVOK : Sv48ConfigOk}
    {A : Type} `{!PfnCache A, !PfnAllocator A, !PfnAllocatorLaws A} : alloc_table_spec (alloc_table : M (mach A) Z).
Proof.
  intros s Hok. destruct (sv_alloc_table_run s Hok)
    as [?|(r & a' & Hr & Hfr & Hal & A2 & Hf & Hrg & Hv & Ht & Hpf & Hne)]; [by left|right].
  exists r, a', (mkpte r PTE_V). do 6 (split; [done|]). done.
Qed.

(** A new map is an address space without mappings. *)
Lemma hal_umap_init_run {CFG : Config} {CFGOK : ConfigOk} {SVOK : Sv48ConfigOk}
    {A : Type} `{!PfnCache A, !PfnAllocator A, !PfnAllocatorLaws A} u (s : mach A) :
  alloc_ok s → (∀ i, uslot i → is_Some (m_kdata s !! (u + 8 * i))) →
  (∀ i, uslot i → in_dmap (u + 8 * i) = false ∧ (u + 8 * i) `mod` 8 = 0) →
  ∃ s', hal_umap_init u s = Ret (tt, s') ∧ space_inv uslot (InData u) s' ∧
    (∀ va, uslot (L4OFF va) → sp_leaf (InData u) s' va = 0) ∧ init_frame UMAP_L4PTES u s s'.
Proof.
  intros Hok Hw Hdm. assert (0 ≤ UMAP_L4PTES ≤ 512) as Hn by done.
  destruct (init_slots_run UMAP_L4PTES u Hn alloc_table s sv48_alloc_table_spec Hok Hw Hdm) as (s' & Hr & Hf & Hfr & _).
  destruct (fresh_space UMAP_L4PTES u Hn s' Hf Hdm) as [Hi Hz]. by exists s'.
Qed.

(** * A small machine with a user map, for evaluation

    Frame 5 is the CPU's top level; frames 1, 2 and 3 are the tables, below slot
    2, of a map whose page 5 of that slot is frame 6; frame 4 is free. *)

#[local] Existing Instance ex_config.
#[local] Existing Instance ex_nocache.
#[local] Existing Instance ex_config_ok.
#[local] Existing Instance exrv_config_ok.

Definition exs_addr : Z := 0xffffffff80100000.
Definition exs_va : Z := Z.shiftl 2 39 + 0x5000.

Definition exs : mach pfa :=
  ex_mach1 {[5 := zero_page; 1 := <[0%nat := mkpte 2 PTE_V]> zero_page; 2 := <[0%nat := mkpte 3 PTE_V]> zero_page;
         3 := <[5%nat := RvPmap.hal_l1e_box 6 3]> zero_page; 4 := ex_page]}
    (list_to_map ((λ i, (exs_addr + 8 * i, if i =? 2 then mkpte 1 PTE_V else 0)) <$> seqZ 0 8)) 5.

Lemma exs_top i :
  uslot i → sub_table (tl_read (InData exs_addr) exs i) = (if decide (i = 2) then Some 1 else None) ∧
  is_Some (m_kdata exs !! (exs_addr + 8 * i)) ∧ in_dmap (exs_addr + 8 * i) = false ∧
  (exs_addr + 8 * i) `mod` 8 = 0 ∧ (pte_valid (tl_read (InData exs_addr) exs i) = true →
    PageTable.pte_table_ok (tl_read (InData exs_addr) exs i) = true).
Proof.
  intros Hu. assert (i ∈ seqZ 0 8) as Hin by (apply elem_of_seqZ; unfold uslot in Hu; change UMAP_L4PTES with 8 in Hu; lia).
  clear Hu. revert i Hin. apply Forall_forall. apply (bool_decide_unpack _). vm_compute. done.
Qed.

Lemma exs_words i :
  index_ok i → sub_table (entry (m_frames exs) 1 i) = (if decide (i = 0) then Some 2 else None) ∧
  sub_table (entry (m_frames exs) 2 i) = (if decide (i = 0) then Some 3 else None) ∧
  (∀ f, f = 1 ∨ f = 2 → pte_valid (entry (m_frames exs) f i) = true →
     PageTable.pte_table_ok (entry (m_frames exs) f i) = true).
Proof.
  intros Hx. assert (i ∈ seqZ 0 512) as Hin by (apply elem_of_seqZ; unfold index_ok in Hx; lia).
  assert (Forall (λ i, sub_table (entry (m_frames exs) 1 i) = (if decide (i = 0) then Some 2 else None) ∧
    sub_table (entry (m_frames exs) 2 i) = (if decide (i = 0) then Some 3 else None) ∧
    (pte_valid (entry (m_frames exs) 1 i) = true → PageTable.pte_table_ok (entry (m_frames exs) 1 i) = true) ∧
    (pte_valid (entry (m_frames exs) 2 i) = true → PageTable.pte_table_ok (entry (m_frames exs) 2 i) = true))
    (seqZ 0 512)) as Hfa by (apply (bool_decide_unpack _); vm_compute; done).
  rewrite Forall_forall in Hfa. destruct (Hfa i Hin) as (H1 & H2 & H3 & H4). split_and!; [done..|].
  by intros f [->| ->].
Qed.

Lemma exs_table p f :
  path_ok uslot p → sp_table (InData exs_addr) exs p = Some f →
  p = [2] ∧ f = 1 ∨ p = [2; 0] ∧ f = 2 ∨ p = [2; 0; 0] ∧ f = 3.
Proof.
  intros ((i & q & -> & Hi) & Hfa & Hlen). unfold sp_table. cbn [table].
  destruct (exs_top i Hi) as (-> & _). case_decide as E; [|done]. cbn [mbind option_bind]. subst i.
  destruct q as [|j q]; [intros [= <-]; auto|]. cbn [walk]. rewrite !Forall_cons in Hfa. destruct Hfa as (_ & Hj & Hq).
  destruct (exs_words j Hj) as (-> & _). case_decide as E; [|done]. cbn [mbind option_bind]. subst j.
  destruct q as [|k q]; [intros [= <-]; auto|]. cbn [walk]. rewrite !Forall_cons in Hq. destruct Hq as (Hk & Hq).
  destruct (exs_words k Hk) as (_ & -> & _). case_decide as E; [|done]. cbn [mbind option_bind]. subst k.
  destruct q as [|? q]; [intros [= <-]; auto|]. simpl in Hlen. lia.
Qed.

Lemma exs_inv : sv_inv uslot (InData exs_addr) exs.
Proof.
  assert (∀ f, f ∈ free_frames exs → f = 4) as Hfree by (intros f; unfold exs; rewrite ex_free1; set_solver).
  split; [split|..].
  - by apply ex_alloc1_ok.
  - split.
    + intros p f Hp Ht. destruct (exs_table p f Hp Ht) as [[-> ->]|[[-> ->]|[-> ->]]];
        (split; [split; [done|by eexists]|intros [Hc%Hfree|[=]]; done]).
    + intros p q f Hp Hq Ht Ht'.
      destruct (exs_table p f Hp Ht) as [[-> ->]|[[-> ->]|[-> ->]]],
        (exs_table q _ Hq Ht') as [[-> ?]|[[-> ?]|[-> ?]]]; done.
    + intros i Hu. by apply exs_top.
    + intros p f i Hp Hl Hx Ht. destruct (exs_words i Hx) as (_ & _ & Hw).
      destruct (exs_table p f Hp Ht) as [[-> ->]|[[-> ->]|[-> ->]]]; [auto|auto|simpl in Hl; lia].
  - intros i Hu. destruct (exs_top i Hu) as (_ & ? & ? & ? & _). done.
  - unfold uslot, index_ok. change UMAP_L4PTES with 8. lia.
  - intros p f Hp Ht. destruct (exs_table p f Hp Ht) as [[-> ->]|[[-> ->]|[-> ->]]]; done.
  - intros Hc%Hfree. done.
  - intros p Hp Ht. by destruct (exs_table p 0 Hp Ht) as [[_ ?]|[[_ ?]|[_ ?]]].
Qed.

Lemma exs_cpu_inv : sv_inv exrv_slots (cpu_map exs) exs.
Proof.
  assert (∀ p, path_ok exrv_slots p → sp_table (cpu_map exs) exs p = None) as Ht.
  { intros p ((i & p' & -> & ->) & _). unfold sp_table. cbn [table]. by vm_compute. }
  assert (∀ f, f ∈ free_frames exs → f = 4) as Hfree by (intros f; unfold exs; rewrite ex_free1; set_solver).
  split; [split|..].
  - by apply ex_alloc1_ok.
  - split.
    + intros p f Hp. fold (sp_table (cpu_map exs) exs p). by rewrite Ht.
    + intros p q f Hp Hq. fold (sp_table (cpu_map exs) exs p). by rewrite Ht.
    + intros i ->. by vm_compute.
    + intros p f i Hp _ _. fold (sp_table (cpu_map exs) exs p). by rewrite Ht.
  - split; [split; [done|by exists zero_page]|]. by intros Hc%Hfree.
  - by intros i ->.
  - intros p f Hp. by rewrite Ht.
  - by intros Hc%Hfree.
  - intros p Hp. by rewrite Ht.
Qed.

Lemma exs_uva : uslot (L4OFF exs_va) ∧ canonical exs_va = true.
Proof. by vm_compute. Qed.

(** * Properties *)

(** C36. [pt_umap_next] on RISC-V finds the next page in use of a user map, or of
    the map the CPU uses, within the 512 GB slot of its argument and the slot
    after it, and changes nothing. Later slots are not looked at: it returns
    [UADDR_INVALID] exactly when the rest of those two slots is empty, whatever
    the other slots hold. The value it stores through [l1p_out] is a page table
    entry, not a pointer to one. *)
Theorem sv48_umap_next_correct `{!Config} (Hcfg : ConfigOk) (Hsv : Sv48ConfigOk)
    {A : Type} `{!PfnCache A, !PfnAllocator A} (Hlaws : PfnAllocatorLaws A) (umap : option Z) (uaddr : Z) (s : mach A)
    (Hroot : root_ok s) (Hi : sv_inv uslot (umap_loc umap s) s) (Hu : 0 ≤ uaddr < pt_umap_maxaddr) :
  let l := umap_loc umap s in
  let hi := 4096 * next_limit (uaddr `div` 4096) in
  (∃ va f, pt_umap_next umap uaddr s = Ret ((va, Some (mkpte f (L1OFF va), sp_leaf l s va)), s) ∧
     va `mod` 4096 = 0 ∧ uaddr < va < hi ∧ sp_leaf l s va ≠ 0 ∧
     sp_table l s [L4OFF va; L3OFF va; L2OFF va] = Some f ∧
     ∀ va', uaddr `div` 4096 < va' `div` 4096 → va' < va → sp_leaf l s va' = 0) ∨
  (pt_umap_next umap uaddr s = Ret ((UADDR_INVALID, None), s) ∧
     ∀ va', uaddr `div` 4096 < va' `div` 4096 → va' < hi → sp_leaf l s va' = 0).
Proof.
  intros l hi. destruct (sv_pt_umap_next_run umap s uaddr Hroot Hi Hu) as (r & Hrun & Hl).
  change pt_umap_maxaddr with (2 ^ 42) in *. fold l in Hrun, Hl. set (n := uaddr `div` 4096) in *.
  assert (0 ≤ n) as Hn by (apply Z.div_pos; lia).
  assert (hi ≤ 2 ^ 42 ∧ next_limit n ≤ 2 ^ 30) as [Hhi Hlim].
  { unfold hi, next_limit. change UMAP_L4PTES with 8. change (512 ^ 3) with 134217728. lia. }
  assert (∀ va', n < va' `div` 4096 → va' < hi → sp_leaf l s va' = page_leaf l s (va' `div` 4096)) as Hpl.
  { intros va' H1 H2. apply sp_leaf_page. Z.div_mod_to_equations; lia. }
  destruct r as [m|]; [left|right].
  - destruct Hl as (Hm & Hne & Hb). assert ((4096 * m) `div` 4096 = m) as Hdm by (Z.div_mod_to_equations; lia).
    unfold hi in *.
    assert (sp_leaf l s (4096 * m) = page_leaf l s m) as Hlf by (rewrite Hpl by (rewrite ?Hdm; lia); by rewrite Hdm).
    destruct (va_page_path (4096 * m)) as [Hp H1]; [lia|]. rewrite Hdm in Hp, H1.
    pose proof Hne as Hne'. rewrite page_leaf_path in Hne'.
    destruct (sp_table l s (page_path m)) as [f|] eqn:Ef; [|done].
    exists (4096 * m), f. rewrite Hlf, Hp, H1. split.
    + rewrite Hrun. unfold next_result, page_ptr. by rewrite Ef.
    + split; [Z.div_mod_to_equations; lia|]. split; [unfold n in *; Z.div_mod_to_equations; lia|].
      split; [done|]. split; [done|]. intros va' Hv1 Hv2. rewrite Hpl by (Z.div_mod_to_equations; lia).
      apply dec_stable. apply Hb. Z.div_mod_to_equations; lia.
  - split; [exact Hrun|]. intros va' H1 H2. rewrite Hpl by done. apply dec_stable. apply Hl.
    unfold hi in H2. Z.div_mod_to_equations; lia.
Qed.

(** Page 5 of slot 2 is in use; a search from address 0 does not find it. *)
Lemma sv48_umap_next_correct_witness :
  pt_umap_next (Some exs_addr) 0 exs = Ret ((UADDR_INVALID, None), exs) ∧
  sp_leaf (InData exs_addr) exs exs_va = RvPmap.hal_l1e_box 6 3.
Proof.
  split; [|vm_compute; reflexivity].
  destruct (sv48_umap_next_correct ex_config_ok exrv_config_ok stree_allocator_laws (Some exs_addr) 0 exs)
    as [(va & f & Hr & _)|[Hr _]]; [done|exact exs_inv|done| |exact Hr].
  exfalso. assert (pt_umap_next (Some exs_addr) 0 exs = Ret ((UADDR_INVALID, None), exs)) as Hc
    by (vm_compute; reflexivity). congruence.
Defined.

(** [hal_umap_load] on RISC-V switches the CPU to a user map: afterwards the
    CPU translates every address of the user area as the map's entries say, and
    every kernel address as before; it always asks for a TLB flush. *)
Theorem sv48_umap_load_correct `{!Config} (Hcfg : ConfigOk) (Hsv : Sv48ConfigOk)
    {A : Type} `{!PfnCache A, !PfnAllocator A} (Hlaws : PfnAllocatorLaws A) (K : Z → Prop) (u : Z) (s : mach A)
    (HK : ∀ i, K i → ¬ uslot i) (Hcpu : sv_inv K (cpu_map s) s) (Hi : sv_inv uslot (InData u) s)
    (Hroot : ∀ p, path_ok uslot p → sp_table (InData u) s p ≠ Some (m_root s)) :
  let tr (s : mach A) := mmu (m_frames s) (m_root s) in
  ∃ s', hal_umap_load (Some u) s = Ret (HAL_TLBOP_FLUSH, s') ∧ sv_inv K (cpu_map s') s' ∧
    sv_inv uslot (InData u) s' ∧
    (∀ va, uslot (L4OFF va) → canonical va = true → tr s' va = translate_leaf (sp_leaf (InData u) s va)) ∧
    (∀ va, K (L4OFF va) → canonical va = true → tr s' va = tr s va).
Proof.
  intros tr. destruct (sp_top _ _ _ (sv_space _ _ _ Hcpu)) as [Hrf Hru].
  destruct (sv_load_slots_run (Some u) s 8 0 s HAL_TLBOP_NONE) as (s' & Hrun & Hl); [done|done| |done|done|].
  { intros u' [= <-]. apply (sp_top _ _ _ (sv_space _ _ _ Hi)). }
  destruct (loaded_kernel (Some u) 8 s s s' K Hl ltac:(done) HK Hcpu) as [Hk Hkl].
  destruct (loaded_user u s s' Hl Hrf Hru Hi Hroot) as (Hu & Hu' & Hul).
  exists s'. split; [exact Hrun|]. split; [done|]. split; [done|].
  pose proof (sv_space _ _ _ Hk). pose proof (sv_space _ _ _ Hu). pose proof (sv_space _ _ _ Hcpu). split.
  - intros va Hd Hc. unfold tr. rewrite (sv_mmu_leaf uslot) by done. by rewrite Hul.
  - intros va Hd Hc. unfold tr. rewrite !(sv_mmu_leaf K) by done. by rewrite Hkl.
Qed.

Lemma sv48_umap_load_correct_witness :
  ∃ s', hal_umap_load (Some exs_addr) exs = Ret (HAL_TLBOP_FLUSH, s') ∧ mmu (m_frames s') (m_root s') exs_va = Some 6.
Proof.
  destruct (sv48_umap_load_correct ex_config_ok exrv_config_ok stree_allocator_laws exrv_slots exs_addr exs)
    as (s' & Hr & _ & _ & Ht & _).
  - intros i -> Hc. vm_compute in Hc. by destruct Hc.
  - exact exs_cpu_inv.
  - exact exs_inv.
  - intros p Hp Ht. destruct (exs_table p _ Hp Ht) as [[_ ?]|[[_ ?]|[_ ?]]]; done.
  - exists s'. split; [exact Hr|]. rewrite Ht; [vm_compute; reflexivity|apply exs_uva|apply exs_uva].
Defined.
