(* ===== verification/UmapCurSv48.v ===== *)
(** The user map that the CPU has loaded, on RISC-V: its tables are reached from the
    CPU's own top level, and what is changed there is the map itself. *)

From S2P Require Import Prelude Words Stree Locks Machine Pfnalloc Hal RvPmap PageTable Space UmapInit UmapScan UmapFree.
From S2P Require Import Sv48 Kmap Riscv UmapSv48.

Section riscv.
Context {CFG : Config} {CFGOK : ConfigOk} {SVOK : Sv48ConfigOk}.
Context {A : Type} `{!PfnCache A, !PfnAllocator A, !PfnAllocatorLaws A}.
Implicit Types s : mach A.

(** The tables of [u] hang below the CPU's top level. *)
Definition sv_cur_map (u : Z) s : Prop :=
  sv_inv uslot (InFrame (m_root s)) s ∧ ∀ i f, uslot i → sp_table (InData u) s [i] = Some f →
    sp_table (InFrame (m_root s)) s [i] = Some f.

Lemma sv_slot_path i : uslot i → path_ok uslot [i].
Proof. intros Hu. apply path_ok_one; [done|]. unfold uslot in Hu. change UMAP_L4PTES with 8 in Hu. unfold index_ok. lia. Qed.

Lemma sv_cur_table u s q f : sv_cur_map u s → path_ok uslot q → sp_table (InData u) s q = Some f →
    sp_table (InFrame (m_root s)) s q = Some f.
Proof.
  intros [_ Hc] ((i & p' & -> & Hu) & _). specialize (Hc i). unfold sp_table in *. cbn [table walk] in *.
  destruct (sub_table (tl_read (InData u) s i)) as [g|]; [|done]. intros Hw. specialize (Hc g Hu eq_refl).
  destruct (sub_table (tl_read (InFrame (m_root s)) s i)) as [h|]; [|done]. cbn in *. by injection Hc as ->.
Qed.

(** The first step down, in a slot that has a table. *)
Lemma sv_l3pfn_found D l s va alloc f : sv_inv D l s → D (L4OFF va) → sp_table l s [L4OFF va] = Some f →
    walk_l3pfn (tl_ptr l (L4OFF va)) va alloc s = Ret (f, s).
Proof.
  intros [Hi _ _] Hd Hf. unfold walk_l3pfn, fetch_pfn. cbn [w_get]. mrun (tl_load_run D l (L4OFF va) s Hi Hd).
  unfold sp_table in Hf. cbn [table] in Hf. destruct (sub_table (tl_read l s (L4OFF va))) as [g|] eqn:Es; [|done].
  injection Hf as ->.
  unfold sub_table in Es. destruct (PageTable.pte_present (tl_read l s (L4OFF va))) eqn:Ep; [|done]. injection Es as Es.
  pose proof (so_top _ _ _ _ (sp_space _ _ _ Hi) (L4OFF va) Hd Ep) as Hok. cbn in Ep. rewrite Ep. cbn [negb]. mrun.
  rewrite bind_assert by (by apply table_ok_valid). by rewrite <- Es.
Qed.

Lemma sv_walk_same p p' s va alloc r : walk_l3pfn p va alloc s = Ret (r, s) → walk_l3pfn p' va alloc s = Ret (r, s) →
    walk_l1p p va alloc s = walk_l1p p' va alloc s.
Proof. intros H1 H2. unfold walk_l1p, walk_l1pfn, walk_l2p, walk_l2pfn, walk_l3p, mbind, M_bind. by rewrite H1, H2. Qed.

(** [umap_get_l1p] for the map that is loaded, in a slot that it has. *)
Lemma sv_cur_get_l1p u s va alloc f4 : sv_cur_map u s → sv_inv uslot (InData u) s → uslot (L4OFF va) →
    sp_table (InData u) s [L4OFF va] = Some f4 →
  ∃ r s', umap_get_l1p None va alloc s = Ret (r, s') ∧ sv_cur_map u s' ∧ sv_found uslot (InData u) s va alloc s' r.
Proof.
  intros Hc Hi Hd Hf. pose proof (sv_cur_table u s _ f4 Hc (sv_slot_path _ Hd) Hf) as Hf'. destruct Hc as [Hcpu Hslots].
  destruct (sp_top _ _ _ (sv_space _ _ _ Hcpu)) as [[Hr _] _]. unfold umap_get_l1p.
  rewrite bind_assert by (apply Z.ltb_lt; by destruct Hd).
  mrun (umap_l4ptr_run None s va Hr). cbn [umap_loc].
  pose proof (sv_walk_same _ _ s va alloc f4 (sv_l3pfn_found uslot _ s va alloc f4 Hcpu Hd Hf')
    (sv_l3pfn_found uslot _ s va alloc f4 Hi Hd Hf)) as Heq.
  destruct (walk_l1p_run uslot _ s va alloc Hi Hd) as (r & s' & Hrun & Hfound).
  destruct (walk_l1p_run uslot _ s va alloc Hcpu Hd) as (r2 & s2 & Hrun2 & Hcpu2 & Hg2 & _).
  rewrite Heq, Hrun in Hrun2. injection Hrun2 as <- <-. rewrite Hrun in Heq. mrun Heq.
  pose proof (se_frame _ _ _ _ (sg_ext _ _ _ _ Hg2)) as Hfr. assert (m_root s' = m_root s) as Hroot by apply Hfr.
  mrun (umap_put_l4ptr_run None s' va (tl_ptr (InFrame (m_root s)) (L4OFF va)) ltac:(unfold root_ok;
    by rewrite Hroot)). exists r, s'. split; [done|]. split; [|done].
  unfold sv_cur_map. rewrite Hroot. split; [done|]. intros i g Hu Hg.
  apply (se_table _ _ _ _ (sg_ext _ _ _ _ Hg2)); [by apply sv_slot_path|]. apply Hslots; [done|].
  rewrite <- Hg. unfold sp_table. cbn [table tl_read]. rewrite (sf_kdata _ _ _ _ Hfr) by done. by destruct (sub_table _).
Qed.

(** A store to the entry of [va]. *)
Lemma sv_cur_set u s va f e : sv_cur_map u s → sv_inv uslot (InData u) s → uslot (L4OFF va) →
    sp_table (InData u) s [L4OFF va; L3OFF va; L2OFF va] = Some f → sv_cur_map u (leaf_set s va f e).
Proof.
  intros Hc Hi Hd Hf. pose proof (sv_cur_table u s _ f Hc (va_path uslot va Hd) Hf) as Hf'. destruct Hc as [Hcpu Hslots].
  assert (space_inv uslot (InFrame (m_root s)) s) as Hsp by apply Hcpu.
  assert (space_inv uslot (InData u) s) as Hsu by apply Hi. split.
  - apply (sv_inv_ext uslot (InFrame (m_root s)) s); [done|by apply (leaf_set_inv uslot)|by apply (leaf_set_sp_frame uslot)].
  - intros i g Hu. rewrite (leaf_set_table uslot (InData u)) by (done || by apply sv_slot_path). intros Hg.
    change (m_root (leaf_set s va f e)) with (m_root s).
    rewrite (leaf_set_table uslot (InFrame (m_root s))) by (done || by apply sv_slot_path). by apply Hslots.
Qed.

(** [hal_umap_load] makes a map the one that is loaded. *)
Lemma sv_load_cur u s : frame_ok (m_frames s) (m_root s) → m_root s ∉ free_frames s → sv_inv uslot (InData u) s →
  (∀ p, path_ok uslot p → sp_table (InData u) s p ≠ Some (m_root s)) →
  ∃ s', hal_umap_load (Some u) s = Ret (HAL_TLBOP_FLUSH, s') ∧ sv_inv uslot (InData u) s' ∧ sv_cur_map u s'.
Proof.
  intros Hrf Hru Hi Hroot. destruct (sv_load_slots_run (Some u) s 8 0 s HAL_TLBOP_NONE) as (s' & Hrun & Hl);
    [done|done| |done|done|].
  { intros u' [= <-]. apply (sp_top _ _ _ (sv_space _ _ _ Hi)). }
  destruct (loaded_user u s s' Hl Hrf Hru Hi Hroot) as (Hu & Hu' & _). exists s'. split; [exact Hrun|].
  split; [done|]. split; [done|].
  intros i f Hd. pose proof Hl as [L1 L2 _ _ _ _ _ L8]. unfold sp_table. cbn [table tl_read].
  rewrite L2, L8 by (apply (sp_slots _ _ _ (sv_space _ _ _ Hi)); done). rewrite L1.
  by rewrite decide_True by (unfold uslot in Hd; change UMAP_L4PTES with 8 in Hd; lia).
Qed.

End riscv.
