(* ===== verification/Umap.v ===== *)
(** User mappings: libnux/umap.c, over the operations on a [struct hal_umap]
    that every HAL offers (include/nux/hal.h). The contract is that the pages of
    a map form a map of their own, separate from those of every other map, and
    that the frames of its tables come back when it is freed. *)

From S2P Require Import Prelude Words Locks Machine Hal PageTable Space UmapFree.

(** * What a HAL offers *)

(** [hu_slots] and [hu_max] bound the slots of a map and its addresses, [hu_ptr]
    is the pointer to a word of a table, [hu_inv u s] says that the map at
    address [u] is well formed, [hu_cur u s] that its tables are the CPU's, [hu_pre]
    what the HAL asks of the allocator. *)
Class HalUmap {CFG : Config} (A : Type) `{!PfnCache A, !PfnAllocator A} := {
  hal_umap_getl1p : option Z → Z → bool → M (mach A) (bool * Z);
  hal_l1e_get : Z → M (mach A) Z;
  hal_l1e_set : Z → Z → M (mach A) Z;
  hal_l1e_box : Z → Z → Z;
  hal_l1e_unbox : Z → Z * Z;
  hal_l1e_tlbop : Z → Z → Z;
  hal_umap_init : Z → M (mach A) unit;
  hal_umap_bootstrap : Z → M (mach A) unit;
  hal_umap_free : Z → M (mach A) unit;
  hu_slots : Z;
  hu_max : Z;
  hu_ptr : Z → Z → Z;
  hu_inv : Z → mach A → Prop;
  hu_cur : Z → mach A → Prop;
  hu_pre : mach A → Prop;
}.

Definition uslots {CFG : Config} {A : Type} `{!PfnCache A, !PfnAllocator A, !HalUmap A} (i : Z) : Prop :=
  0 ≤ i < hu_slots.

(** The words of the array at [u]. *)
Definition words_at {CFG : Config} {A : Type} `{!PfnCache A, !PfnAllocator A, !HalUmap A} (u : Z) (s : mach A) : Prop :=
  ∀ i, uslots i → is_Some (m_kdata s !! (u + 8 * i)) ∧ in_dmap (u + 8 * i) = false ∧ (u + 8 * i) `mod` 8 = 0.

Definition upath (va : Z) : list Z := [L4OFF va; L3OFF va; L2OFF va].

Class HalUmapLaws {CFG : Config} {FMT : PteFormat} (A : Type)
    `{!PfnCache A, !PfnAllocator A, !HalUmap A} : Prop := {
  hu_space u s : hu_inv u s → space_inv uslots (InData u) s;
  hu_inv_pre u s : hu_inv u s → hu_pre s;
  hu_inv_keep u s s' : hu_inv u s → space_inv uslots (InData u) s' → free_frames s' ⊆ free_frames s →
    (∀ p f, path_ok uslots p → sp_table (InData u) s' p = Some f →
       sp_table (InData u) s p = Some f ∨ f ∈ free_frames s) → hu_inv u s';
  hu_va va : 0 ≤ va < hu_max → uslots (L4OFF va);
  hu_out umap va alloc s : hu_max ≤ va → hal_umap_getl1p umap va alloc s = Ret ((false, L1P_INVALID), s);
  hu_getl1p u va alloc s : hu_inv u s → 0 ≤ va < hu_max →
    ∃ b p s', hal_umap_getl1p (Some u) va alloc s = Ret ((b, p), s') ∧
      space_inv uslots (InData u) s' ∧ sp_grow uslots (InData u) s s' ∧ (alloc = false → s' = s) ∧
      (if b then ∃ f, sp_table (InData u) s' (upath va) = Some f ∧ p = hu_ptr f (L1OFF va)
       else sp_table (InData u) s' (upath va) = None ∧
         (alloc = false ∨ free_frames s' = ∅ ∧ (size (free_frames s) < 3)%nat));
  hu_getl1p_cur u va alloc s : hu_inv u s → hu_cur u s → 0 ≤ va < hu_max → is_Some (sp_table (InData u) s [L4OFF va]) →
    ∃ b p s', hal_umap_getl1p None va alloc s = Ret ((b, p), s') ∧
      space_inv uslots (InData u) s' ∧ sp_grow uslots (InData u) s s' ∧ (alloc = false → s' = s) ∧ hu_cur u s' ∧
      (if b then ∃ f, sp_table (InData u) s' (upath va) = Some f ∧
         ∀ e, hal_l1e_set p e s' = Ret (sp_leaf (InData u) s' va, leaf_set s' va f e) ∧ hu_cur u (leaf_set s' va f e)
       else sp_table (InData u) s' (upath va) = None ∧
         (alloc = false ∨ free_frames s' = ∅ ∧ (size (free_frames s) < 3)%nat));
  hu_get u va f s : hu_inv u s → 0 ≤ va < hu_max → sp_table (InData u) s (upath va) = Some f →
    hal_l1e_get (hu_ptr f (L1OFF va)) s = Ret (sp_leaf (InData u) s va, s);
  hu_set u va f e s : hu_inv u s → 0 ≤ va < hu_max → sp_table (InData u) s (upath va) = Some f →
    hal_l1e_set (hu_ptr f (L1OFF va)) e s = Ret (sp_leaf (InData u) s va, leaf_set s va f e);
  hu_init u s : alloc_ok s → hu_pre s → words_at u s →
    ∃ s', hal_umap_init u s = Ret (tt, s') ∧ hu_inv u s' ∧
      (∀ va, uslots (L4OFF va) → sp_leaf (InData u) s' va = 0) ∧ free_frames s' ⊆ free_frames s ∧
      (∀ f, f ∈ free_frames s → f ∈ free_frames s' ∨
         ∃ p, path_ok uslots p ∧ sp_table (InData u) s' p = Some f) ∧
      (∀ p f, path_ok uslots p → sp_table (InData u) s' p = Some f → f ∈ free_frames s);
  hu_free u s : hu_inv u s →
    ∃ s', hal_umap_free u s = Ret (tt, s') ∧ freed uslots (InData u) s (λ _, True) s';
  hu_unbox_0 : hal_l1e_unbox 0 = (0, 0);
  hu_unbox_pfn pfn prot : 0 ≤ pfn < 2 ^ 51 → 0 ≤ prot < 1024 → (hal_l1e_unbox (hal_l1e_box pfn prot)).1 = pfn;
  hu_unbox_present pfn prot : 0 ≤ prot < 1024 →
    has (hal_l1e_unbox (hal_l1e_box pfn prot)).2 HAL_PTE_P = has prot HAL_PTE_P;
  hu_tlbop_present old new : has (hal_l1e_unbox old).2 HAL_PTE_P = true →
    hal_l1e_tlbop old new = HAL_TLBOP_FLUSH ∨ hal_l1e_tlbop old new = HAL_TLBOP_FLUSHALL;
}.

(** * The code *)

(** The fields of a [struct umap] other than [hal]. *)
Record umap_t : Set := Umap { um_tlbop : Z; um_cpumask : Z }.

(** The machine, the maps by the address of their [hal] field, and the map the
    CPU has loaded. *)
Record ust (A : Type) : Type := Ust { u_mach : mach A; u_maps : gmap Z umap_t; u_cur : option Z }.
Arguments Ust {A} _ _ _.
Arguments u_mach {A} _.
Arguments u_maps {A} _.
Arguments u_cur {A} _.

Section umap.
Context {CFG : Config} {A : Type} `{!PfnCache A, !PfnAllocator A, !HalUmap A}.

Definition set_mach (x : mach A) (k : ust A) : ust A := Ust x (u_maps k) (u_cur k).
Definition on_mach {B} (m : M (mach A) B) : M (ust A) B := zoom u_mach set_mach m.

(** An access to the map's fields. *)
Definition on_map (u : Z) (f : umap_t → umap_t) : M (ust A) unit := λ k,
  match u_maps k !! u with
  | Some m => Ret (tt, Ust (u_mach k) (<[u := f m]> (u_maps k)) (u_cur k))
  | None => Abort Fault
  end.

Definition cpu_umap_current : M (ust A) (option Z) := gets u_cur.

(** [__atomic_or_fetch (&umap->tlbop, op)]. *)
Definition or_tlbop (u op : Z) : M (ust A) unit :=
  on_map u (λ m, Umap (Z.lor (um_tlbop m) op) (um_cpumask m)).

Definition mapped (l1e : Z) : Z :=
  let '(oldpfn, oldprot) := hal_l1e_unbox l1e in
  if has oldprot HAL_PTE_P then oldpfn else PFN_INVALID.

(** The result and what is stored through [opfn]. *)
Definition _umap_setl1e (u va l1e : Z) (alloc : bool) : M (ust A) (bool * Z) :=
  cur ← cpu_umap_current;
  let hal := if bool_decide (cur = Some u) then None else Some u in
  lk ← on_mach (hal_umap_getl1p hal va alloc); let '(ok, l1p) := lk : bool * Z in
  if negb ok then mret (false, PFN_INVALID)
  else
    oldl1e ← on_mach (hal_l1e_set l1p l1e);
    or_tlbop u (hal_l1e_tlbop oldl1e l1e);;
    mret (true, mapped oldl1e).

Definition umap_chflags (u va prot_set prot_clr : Z) : M (ust A) Z :=
  lk ← on_mach (hal_umap_getl1p (Some u) va false); let '(ok, l1p) := lk : bool * Z in
  if negb ok then mret 0
  else
    l1e ← on_mach (hal_l1e_get l1p);
    let '(pfn, oldflags) := hal_l1e_unbox l1e in
    let flags := Z.lor oldflags prot_set in
    let flags := Z.land flags (Z.lnot prot_clr) in
    let l1e := hal_l1e_box pfn flags in
    oldl1e ← on_mach (hal_l1e_set l1p l1e);
    or_tlbop u (hal_l1e_tlbop oldl1e l1e);;
    mret oldflags.

Definition umap_map (u va pfn prot : Z) : M (ust A) (bool * Z) :=
  let l1e := hal_l1e_box pfn prot in
  _umap_setl1e u va l1e true.

Definition umap_unmap (u va : Z) : M (ust A) Z :=
  lk ← on_mach (hal_umap_getl1p (Some u) va false); let '(ok, l1p) := lk : bool * Z in
  if negb ok then mret PFN_INVALID
  else
    let l1e := hal_l1e_box PFN_INVALID 0 in
    oldl1e ← on_mach (hal_l1e_set l1p l1e);
    or_tlbop u (hal_l1e_tlbop oldl1e l1e);;
    mret (mapped oldl1e).

Definition umap_bootstrap (u : Z) : M (ust A) unit :=
  on_map u (λ m, Umap 0 (um_cpumask m));;
  on_map u (λ m, Umap (um_tlbop m) 0);;
  on_mach (hal_umap_bootstrap u).

Definition umap_free (u : Z) : M (ust A) unit :=
  m ← gets u_maps;
  match m !! u with
  | Some m => assertb (um_cpumask m =? 0);; on_mach (hal_umap_free u)
  | None => stop Fault
  end.

Definition umap_init (u : Z) : M (ust A) unit :=
  on_map u (λ m, Umap 0 (um_cpumask m));;
  on_map u (λ m, Umap (um_tlbop m) 0);;
  on_mach (hal_umap_init u).

End umap.

(** * Lemmas *)

Section lemmas.
Context {CFG : Config} {CFGOK : ConfigOk} {FMT : PteFormat} {FMTOK : PteFormatOk}.
Context {A : Type} `{!PfnCache A, !PfnAllocator A, !PfnAllocatorLaws A, !HalUmap A, !HalUmapLaws A}.
Implicit Types (s : mach A) (k : ust A).

Lemma on_umach_run {B} (m : M (mach A) B) k b s' :
  m (u_mach k) = Ret (b, s') → on_mach m k = Ret (b, set_mach s' k).
Proof. intros Hm. unfold on_mach, zoom. by rewrite Hm. Qed.

Lemma set_umach_id k : set_mach (u_mach k) k = k.
Proof. by destruct k. Qed.

Lemma mapped_pair e : (let '(p, q) := hal_l1e_unbox e in if has q HAL_PTE_P then p else PFN_INVALID) = mapped e.
Proof. done. Qed.

(** What an operation on the map [u] may do to the machine: change the map and
    its tables, take tables from the free frames. *)
Record umap_step (u : Z) s s' : Prop := {
  us_inv : hu_inv u s';
  us_frame : sp_frame uslots (InData u) s s';
  us_used f : f ∈ free_frames s → f ∈ free_frames s' ∨ ∃ p, path_ok uslots p ∧ sp_table (InData u) s' p = Some f;
  us_kept p f : path_ok uslots p → sp_table (InData u) s p = Some f → sp_table (InData u) s' p = Some f;
}.

Lemma umap_step_refl u s : hu_inv u s → umap_step u s s.
Proof. intros Hi. split; [done|done|by left|done]. Qed.

Lemma umap_step_trans u s1 s2 s3 : umap_step u s1 s2 → umap_step u s2 s3 → umap_step u s1 s3.
Proof.
  intros [I1 F1 U1 K1] [I2 F2 U2 K2]. split; [done|by transitivity s2| |auto].
  intros f Hf. destruct (U1 f Hf) as [?|(p & Hp & Ht)]; [by apply U2|right]. exists p. auto.
Qed.

Lemma umap_grow_step u s s' :
  hu_inv u s → space_inv uslots (InData u) s' → sp_grow uslots (InData u) s s' → umap_step u s s'.
Proof.
  intros Hi Hs [He Hu]. pose proof (se_frame _ _ _ _ He) as Hf. split; [|done|done|by apply (se_table _ _ _ _ He)].
  apply (hu_inv_keep u s); [done|done|apply Hf|]. intros p f Hp. by apply (sf_new _ _ _ _ Hf).
Qed.

Lemma umap_leaf_step u va f e s :
  hu_inv u s → 0 ≤ va < hu_max → sp_table (InData u) s (upath va) = Some f → umap_step u s (leaf_set s va f e).
Proof.
  intros Hi Hva Ht. pose proof (hu_space _ _ Hi) as Hs. pose proof (hu_va va Hva) as Hd.
  pose proof (leaf_set_sp_frame uslots (InData u) s va f e Hs Hd Ht) as Hf. split.
  - apply (hu_inv_keep u s); [done|by apply (leaf_set_inv uslots)|apply Hf|].
    intros p g Hp. by apply (sf_new _ _ _ _ Hf).
  - done.
  - by left.
  - intros p g Hp. by rewrite (leaf_set_table uslots).
Qed.

(** Another map, with which [u] shares nothing. *)
Lemma umap_step_other u u' s s' :
  umap_step u s s' → hu_inv u' s → disjoint_spaces uslots (InData u) uslots (InData u') s →
  hu_inv u' s' ∧ disjoint_spaces uslots (InData u) uslots (InData u') s' ∧
  ∀ va, 0 ≤ va < hu_max → sp_leaf (InData u') s' va = sp_leaf (InData u') s va.
Proof.
  intros [I1 F1 _ _] Hi' Hd. pose proof (hu_space _ _ Hi') as Hs'.
  pose proof (sp_alloc _ _ _ (hu_space _ _ I1)) as Hok. split_and!.
  - apply (hu_inv_keep u' s); [done| |apply F1|].
    + by apply (isolated_inv uslots uslots (InData u) (InData u') s s').
    + intros p f Hp. rewrite (isolated_table uslots uslots (InData u) (InData u') s s') by done. by left.
  - by apply (isolated_disjoint uslots uslots (InData u) (InData u') s s').
  - intros va Hva. apply (isolated_leaf uslots uslots (InData u) (InData u') s s'); [done..|by apply hu_va].
Qed.

(** The pages of the map after the entry of [va] has become [e]. *)
Definition entry_set (u va e : Z) s s' : Prop :=
  ∀ va', 0 ≤ va' < hu_max →
    sp_leaf (InData u) s' va' = if decide (same_page va va') then e else sp_leaf (InData u) s va'.

Definition entries_same (u : Z) s s' : Prop :=
  ∀ va', 0 ≤ va' < hu_max → sp_leaf (InData u) s' va' = sp_leaf (InData u) s va'.

(** The map's record after [op] has been added to its [tlbop]. *)
Definition add_tlbop (op : Z) (m : umap_t) : umap_t := Umap (Z.lor (um_tlbop m) op) (um_cpumask m).

Lemma set_entry_ptr_run u va f e s m k p :
  hu_inv u s → 0 ≤ va < hu_max → sp_table (InData u) s (upath va) = Some f → u_maps k !! u = Some m →
  hal_l1e_set p e s = Ret (sp_leaf (InData u) s va, leaf_set s va f e) →
  let old := sp_leaf (InData u) s va in let op := hal_l1e_tlbop old e in
  (oldl1e ← on_mach (hal_l1e_set p e);
     (or_tlbop u (hal_l1e_tlbop oldl1e e);; mret oldl1e)) (set_mach s k) =
      Ret (old, Ust (leaf_set s va f e) (<[u := add_tlbop op m]> (u_maps k)) (u_cur k)) ∧
    umap_step u s (leaf_set s va f e) ∧ entry_set u va e s (leaf_set s va f e).
Proof.
  intros Hi Hva Ht Hm Hset old op. split; [|split; [by apply umap_leaf_step|]].
  - mrun (on_umach_run _ (set_mach s k) _ _ Hset).
    unfold or_tlbop, on_map, mbind, M_bind. simpl. by rewrite Hm.
  - intros va' Hva'. apply (leaf_set_leaf uslots); [by apply hu_space|by apply hu_va|done|by apply hu_va].
Qed.

Lemma set_entry_run u va f e s m k :
  hu_inv u s → 0 ≤ va < hu_max → sp_table (InData u) s (upath va) = Some f → u_maps k !! u = Some m →
  let old := sp_leaf (InData u) s va in let op := hal_l1e_tlbop old e in
  ∃ s', (oldl1e ← on_mach (hal_l1e_set (hu_ptr f (L1OFF va)) e);
     (or_tlbop u (hal_l1e_tlbop oldl1e e);; mret oldl1e)) (set_mach s k) =
      Ret (old, Ust s' (<[u := add_tlbop op m]> (u_maps k)) (u_cur k)) ∧
    umap_step u s s' ∧ entry_set u va e s s'.
Proof. intros Hi Hva Ht Hm. eexists. apply set_entry_ptr_run; try done. by apply hu_set. Qed.

Lemma leaf_no_table u s va : sp_table (InData u) s (upath va) = None → sp_leaf (InData u) s va = 0.
Proof. intros Ht. unfold sp_leaf, leaf. unfold sp_table, upath in Ht. by rewrite Ht. Qed.

(** The map is not loaded, or its tables are the CPU's and it has one for [va]. *)
Definition ready (u va : Z) k : Prop :=
  u_cur k = Some u → hu_cur u (u_mach k) ∧ is_Some (sp_table (InData u) (u_mach k) [L4OFF va]).

(** The lookup of [_umap_setl1e], and what a store through the pointer does. *)
Lemma umap_getl1p_run u va alloc k :
  let s := u_mach k in
  hu_inv u s → 0 ≤ va < hu_max → ready u va k →
  ∃ b p s', hal_umap_getl1p (if bool_decide (u_cur k = Some u) then None else Some u) va alloc s = Ret ((b, p), s') ∧
    space_inv uslots (InData u) s' ∧ sp_grow uslots (InData u) s s' ∧ (alloc = false → s' = s) ∧ (u_cur k = Some u → hu_cur u s') ∧
    (if b then ∃ f, sp_table (InData u) s' (upath va) = Some f ∧
       ∀ e, hal_l1e_set p e s' = Ret (sp_leaf (InData u) s' va, leaf_set s' va f e) ∧ (u_cur k = Some u → hu_cur u (leaf_set s' va f e))
     else sp_table (InData u) s' (upath va) = None ∧ (alloc = false ∨ free_frames s' = ∅ ∧ (size (free_frames s) < 3)%nat)).
Proof.
  intros s Hi Hva Hrd. destruct (decide (u_cur k = Some u)) as [Hc|Hc].
  - rewrite bool_decide_true by done. destruct (Hrd Hc) as [Hcur Ht].
    destruct (hu_getl1p_cur u va alloc s Hi Hcur Hva Ht) as (b & p & s1 & Hr & Hs1 & Hg & Hna & Hc1 & Hb).
    exists b, p, s1. split_and!; try done. destruct b; [|done]. destruct Hb as (f & Hf & He). exists f. split; [done|].
    intros e. destruct (He e). by split.
  - rewrite bool_decide_false by done. destruct (hu_getl1p u va alloc s Hi Hva) as (b & p & s1 & Hr & Hs1 & Hg & Hna & Hb).
    exists b, p, s1. split_and!; try done. destruct b; [|done]. destruct Hb as (f & Hf & ->). exists f. split; [done|].
    intros e. split; [|done]. apply hu_set; [|done|done]. by apply (umap_grow_step u s s1 Hi Hs1 Hg).
Qed.

Lemma umap_setl1e_run u va e alloc k m :
  let s := u_mach k in
  hu_inv u s → 0 ≤ va < hu_max → u_maps k !! u = Some m → ready u va k →
  let old := sp_leaf (InData u) s va in
  (∃ s', _umap_setl1e u va e alloc k =
      Ret ((true, mapped old), Ust s' (<[u := add_tlbop (hal_l1e_tlbop old e) m]> (u_maps k)) (u_cur k)) ∧
    umap_step u s s' ∧ entry_set u va e s s' ∧ (u_cur k = Some u → hu_cur u s')) ∨
  (∃ s', _umap_setl1e u va e alloc k = Ret ((false, PFN_INVALID), set_mach s' k) ∧
    umap_step u s s' ∧ entries_same u s s' ∧ old = 0 ∧ (alloc = false → s' = s) ∧
    (alloc = true → (size (free_frames s) < 3)%nat) ∧ (u_cur k = Some u → hu_cur u s')).
Proof.
  intros s Hi Hva Hm Hrd old. unfold _umap_setl1e, cpu_umap_current. mrun.
  destruct (umap_getl1p_run u va alloc k Hi Hva Hrd) as (b & p & s1 & Hr & Hs1 & Hg & Hna & Hc1 & Hb).
  pose proof (umap_grow_step u s s1 Hi Hs1 Hg) as Hstep. pose proof (us_inv _ _ _ Hstep) as Hi1.
  assert (entries_same u s s1) as Hsame.
  { intros va' Hva'. apply (se_leaf _ _ _ _ (sg_ext _ _ _ _ Hg)). by apply hu_va. }
  mrun (on_umach_run _ k _ _ Hr). destruct b; cbn [negb]; [left|right].
  - destruct Hb as (f & Hf & He). destruct (He e) as [Hset Hc2].
    destruct (set_entry_ptr_run u va f e s1 m k p Hi1 Hva Hf Hm Hset) as (Hrun & Hst & Hent).
    eexists. split; [|split; [by eapply umap_step_trans|split; [|exact Hc2]]].
    + apply bind_Ret_inv in Hrun as (o & k1 & E1 & E2). rewrite (bind_Ret _ _ _ _ _ E1).
      apply bind_Ret_inv in E2 as ([] & k2 & E2 & E3). rewrite (bind_Ret _ _ _ _ _ E2).
      injection E3 as -> ->. unfold old. by rewrite (Hsame va Hva).
    + intros va' Hva'. rewrite Hent by done. by rewrite Hsame.
  - destruct Hb as [Ht Ha]. exists s1. split; [done|]. split; [done|]. split; [done|]. split.
    + unfold old. rewrite <- (Hsame va Hva). by apply leaf_no_table.
    + split; [done|]. split; [|done]. intros ->. by destruct Ha as [|[_ ?]].
Qed.

(** [umap_unmap], whether or not the map is loaded. *)
Lemma umap_unmap_run u va k m :
  let s := u_mach k in
  hu_inv u s → 0 ≤ va < hu_max → u_maps k !! u = Some m →
  let old := sp_leaf (InData u) s va in let e := hal_l1e_box PFN_INVALID 0 in
  (∃ f s', sp_table (InData u) s (upath va) = Some f ∧ umap_unmap u va k =
      Ret (mapped old, Ust s' (<[u := add_tlbop (hal_l1e_tlbop old e) m]> (u_maps k)) (u_cur k)) ∧
    umap_step u s s' ∧ entry_set u va e s s') ∨
  (sp_table (InData u) s (upath va) = None ∧ umap_unmap u va k = Ret (PFN_INVALID, k)).
Proof.
  intros s. subst s. intros Hi Hva Hm old e. unfold umap_unmap.
  destruct (hu_getl1p u va false (u_mach k) Hi Hva) as (b & p & s1 & Hr & _ & _ & Hna & Hb).
  rewrite Hna in Hr, Hb by done. mrun (on_umach_run _ k _ _ Hr). rewrite set_umach_id.
  destruct b; cbn [negb]; [left|right].
  - destruct Hb as (f & Hf & ->).
    destruct (set_entry_run u va f e (u_mach k) m k Hi Hva Hf Hm) as (s' & Hrun & Hst & Hset).
    rewrite set_umach_id in Hrun. exists f, s'. split; [done|]. split; [|done].
    apply bind_Ret_inv in Hrun as (o & k1 & E1 & E2). rewrite (bind_Ret _ _ _ _ _ E1).
    apply bind_Ret_inv in E2 as ([] & k2 & E2 & E3). rewrite (bind_Ret _ _ _ _ _ E2). by injection E3 as -> ->.
  - by destruct Hb.
Qed.

(** [umap_chflags]. *)
Lemma umap_chflags_run u va pset pclr k m :
  let s := u_mach k in
  hu_inv u s → 0 ≤ va < hu_max → u_maps k !! u = Some m →
  let old := sp_leaf (InData u) s va in
  let e := hal_l1e_box (hal_l1e_unbox old).1 (Z.land (Z.lor (hal_l1e_unbox old).2 pset) (Z.lnot pclr)) in
  (∃ f s', sp_table (InData u) s (upath va) = Some f ∧ umap_chflags u va pset pclr k =
      Ret ((hal_l1e_unbox old).2, Ust s' (<[u := add_tlbop (hal_l1e_tlbop old e) m]> (u_maps k)) (u_cur k)) ∧
    umap_step u s s' ∧ entry_set u va e s s') ∨
  (sp_table (InData u) s (upath va) = None ∧ umap_chflags u va pset pclr k = Ret (0, k)).
Proof.
  intros s. subst s. intros Hi Hva Hm old e. unfold umap_chflags.
  destruct (hu_getl1p u va false (u_mach k) Hi Hva) as (b & p & s1 & Hr & _ & _ & Hna & Hb).
  rewrite Hna in Hr, Hb by done. mrun (on_umach_run _ k _ _ Hr). rewrite set_umach_id.
  destruct b; cbn [negb]; [left|right].
  - destruct Hb as (f & Hf & ->).
    destruct (set_entry_run u va f e (u_mach k) m k Hi Hva Hf Hm) as (s' & Hrun & Hst & Hset).
    rewrite set_umach_id in Hrun. exists f, s'. split; [done|]. split; [|done].
    mrun (on_umach_run _ k _ _ (hu_get u va f (u_mach k) Hi Hva Hf)). rewrite set_umach_id. fold old.
    assert (hal_l1e_unbox old = ((hal_l1e_unbox old).1, (hal_l1e_unbox old).2)) as -> by (by destruct (hal_l1e_unbox old)).
    cbn zeta. cbn [fst snd]. fold e.
    apply bind_Ret_inv in Hrun as (o & k1 & E1 & E2). rewrite (bind_Ret _ _ _ _ _ E1).
    apply bind_Ret_inv in E2 as ([] & k2 & E2 & E3). rewrite (bind_Ret _ _ _ _ _ E2). by injection E3 as -> ->.
  - by destruct Hb.
Qed.

End lemmas.

(** * The life of a map *)

(** What a kernel does with a map between [umap_init] and [umap_free]. *)
Inductive umap_op : Set :=
  | OpMap (va pfn prot : Z)
  | OpUnmap (va : Z)
  | OpChflags (va prot_set prot_clr : Z).

Definition op_va (o : umap_op) : Z :=
  match o with OpMap va _ _ => va | OpUnmap va => va | OpChflags va _ _ => va end.

Section life.
Context {CFG : Config} {CFGOK : ConfigOk} {FMT : PteFormat} {FMTOK : PteFormatOk}.
Context {A : Type} `{!PfnCache A, !PfnAllocator A, !PfnAllocatorLaws A, !HalUmap A, !HalUmapLaws A}.
Implicit Types (s : mach A) (k : ust A).

Definition run_op (u : Z) (o : umap_op) : M (ust A) unit :=
  match o with
  | OpMap va pfn prot => umap_map u va pfn prot;; mret tt
  | OpUnmap va => umap_unmap u va;; mret tt
  | OpChflags va ps pc => umap_chflags u va ps pc;; mret tt
  end.

(** Out of the user area nothing happens. *)
Lemma umap_map_out u va pfn prot k : hu_max ≤ va → umap_map u va pfn prot k = Ret ((false, PFN_INVALID), k).
Proof.
  intros Hva. unfold umap_map, _umap_setl1e, cpu_umap_current. mrun.
  mrun (on_umach_run _ k _ _ (hu_out (if bool_decide (u_cur k = Some u) then None else Some u) va true (u_mach k) Hva)).
  by rewrite set_umach_id.
Qed.

Lemma umap_unmap_out u va k : hu_max ≤ va → umap_unmap u va k = Ret (PFN_INVALID, k).
Proof.
  intros Hva. unfold umap_unmap. mrun (on_umach_run _ k _ _ (hu_out (Some u) va false (u_mach k) Hva)).
  by rewrite set_umach_id.
Qed.

Lemma umap_chflags_out u va ps pc k : hu_max ≤ va → umap_chflags u va ps pc k = Ret (0, k).
Proof.
  intros Hva. unfold umap_chflags. mrun (on_umach_run _ k _ _ (hu_out (Some u) va false (u_mach k) Hva)).
  by rewrite set_umach_id.
Qed.

Lemma run_op_step u o k m :
  hu_inv u (u_mach k) → u_maps k !! u = Some m → u_cur k ≠ Some u → 0 ≤ op_va o →
  ∃ k' m', run_op u o k = Ret (tt, k') ∧ umap_step u (u_mach k) (u_mach k') ∧
    u_maps k' !! u = Some m' ∧ um_cpumask m' = um_cpumask m ∧ u_cur k' = u_cur k.
Proof.
  intros Hi Hm Hcur Hva. pose proof (umap_step_refl u _ Hi) as Hrefl.
  assert (∀ s' op, u_maps (Ust s' (<[u := add_tlbop op m]> (u_maps k)) (u_cur k)) !! u = Some (add_tlbop op m)) as Hl
    by (intros s' op; apply lookup_insert_eq).
  destruct (Z.lt_ge_cases (op_va o) hu_max) as [Hlt|Hge]; destruct o as [va pfn prot|va|va ps pc]; cbn [op_va run_op] in *.
  - destruct (umap_setl1e_run u va (hal_l1e_box pfn prot) true k m Hi ltac:(lia) Hm ltac:(by intros ?))
      as [(s' & Hr & Hst & _)|(s' & Hr & Hst & _)]; unfold umap_map; mrun Hr; eexists _, _; split_and!; try done; apply Hl.
  - destruct (umap_unmap_run u va k m Hi ltac:(lia) Hm) as [(f & s' & _ & Hr & Hst & _)|(_ & Hr)];
      mrun Hr; eexists _, _; split_and!; try done; apply Hl.
  - destruct (umap_chflags_run u va ps pc k m Hi ltac:(lia) Hm) as [(f & s' & _ & Hr & Hst & _)|(_ & Hr)];
      mrun Hr; eexists _, _; split_and!; try done; apply Hl.
  - mrun (umap_map_out u va pfn prot k Hge). by exists k, m.
  - mrun (umap_unmap_out u va k Hge). by exists k, m.
  - mrun (umap_chflags_out u va ps pc k Hge). by exists k, m.
Qed.

(** The frames of [F] are free or tables of the map. *)
Definition holds_frames (F : gset Z) (u : Z) s : Prop :=
  ∀ f, f ∈ F ↔ f ∈ free_frames s ∨ ∃ p, path_ok uslots p ∧ sp_table (InData u) s p = Some f.

Lemma holds_frames_step F u s s' : holds_frames F u s → umap_step u s s' → holds_frames F u s'.
Proof.
  intros HF [_ Hf Hu Hk] f. rewrite (HF f). split.
  - intros [Hfree|(p & Hp & Ht)]; [by apply Hu|right]. exists p. auto.
  - intros [Hfree|(p & Hp & Ht)]; [left; by apply (sf_free _ _ _ _ Hf)|].
    destruct (sf_new _ _ _ _ Hf p f Hp Ht) as [?|?]; [right; by exists p|by left].
Qed.

Lemma run_ops_step F u ops : ∀ k m,
  hu_inv u (u_mach k) → u_maps k !! u = Some m → u_cur k ≠ Some u → Forall (λ o, 0 ≤ op_va o) ops →
  holds_frames F u (u_mach k) →
  ∃ k' m', for_each ops (run_op u) k = Ret (tt, k') ∧ hu_inv u (u_mach k') ∧ holds_frames F u (u_mach k') ∧
    u_maps k' !! u = Some m' ∧ um_cpumask m' = um_cpumask m.
Proof.
  induction ops as [|o ops IH]; intros k m Hi Hm Hcur Hva HF; [by exists k, m|].
  apply Forall_cons in Hva as [Ho Hva].
  destruct (run_op_step u o k m Hi Hm Hcur Ho) as (k1 & m1 & Hr & Hst & Hm1 & Hc1 & Hcur1). cbn [for_each].
  mrun Hr. destruct (IH k1 m1) as (k2 & m2 & Hr2 & Hi2 & HF2 & Hm2 & Hc2);
    [apply Hst|done|by rewrite Hcur1|done|by eapply holds_frames_step|].
  exists k2, m2. split; [exact Hr2|]. split_and!; [done..|congruence].
Qed.

Lemma umap_init_run u k m :
  alloc_ok (u_mach k) → hu_pre (u_mach k) → words_at u (u_mach k) → u_maps k !! u = Some m →
  ∃ s', umap_init u k = Ret (tt, Ust s' (<[u := Umap 0 0]> (u_maps k)) (u_cur k)) ∧ hu_inv u s' ∧
    (∀ va, uslots (L4OFF va) → sp_leaf (InData u) s' va = 0) ∧ holds_frames (free_frames (u_mach k)) u s'.
Proof.
  intros Hok Hpre Hw Hm. destruct (hu_init u (u_mach k) Hok Hpre Hw) as (s' & Hr & Hi & Hz & Hsub & Hu & Ht).
  exists s'. split_and!; [|done|done|].
  - unfold umap_init, on_map, on_mach, zoom, mbind, M_bind. rewrite Hm. cbn. rewrite lookup_insert_eq. cbn.
    rewrite Hr. unfold set_mach. cbn. by rewrite insert_insert_eq.
  - intros f. split; [apply Hu|]. intros [?|(p & Hp & Hpf)]; [by apply Hsub|by eapply Ht].
Qed.

End life.

(** * Properties *)

(** C4. Mapping a page of a user map: [umap_map] makes the page map to the frame and
    returns the frame that was there before; every other page of the map, and every
    page of every map that shares no table with it, is as it was; when a mapping has
    been replaced a TLB operation is recorded. It fails, changing no mapping of any
    map, only when the page had none and fewer than three frames are free. This
    holds for a map that is not loaded, and for the one that is, whose tables are
    those of the CPU before and after, in a slot of the top level that the map has a
    table for. *)
Theorem umap_map_correct `{!Config} (Hcfg : ConfigOk) `{!PteFormat} (Hfmt : PteFormatOk)
    {A : Type} `{!PfnCache A, !PfnAllocator A} (Hal : PfnAllocatorLaws A) `{!HalUmap A} (HL : HalUmapLaws A)
    (u va pfn prot : Z) (k : ust A) (m : umap_t)
    (Hi : hu_inv u (u_mach k)) (Hva : 0 ≤ va < hu_max) (Hm : u_maps k !! u = Some m) (Hcur : ready u va k)
    (Hpfn : 0 ≤ pfn < 2 ^ 51) (Hprot : 0 ≤ prot < 1024) (Hp : has prot HAL_PTE_P = true) :
  let page u k va := mapped (sp_leaf (InData u) (u_mach k) va) in
  let others_kept k' := ∀ u', hu_inv u' (u_mach k) →
    disjoint_spaces uslots (InData u) uslots (InData u') (u_mach k) →
    hu_inv u' (u_mach k') ∧ ∀ va', 0 ≤ va' < hu_max → page u' k' va' = page u' k va' in
  (∃ k', umap_map u va pfn prot k = Ret ((true, page u k va), k') ∧ hu_inv u (u_mach k') ∧
     (∀ va', 0 ≤ va' < hu_max → page u k' va' = if decide (same_page va va') then pfn else page u k va') ∧
     others_kept k' ∧ (u_cur k = Some u → hu_cur u (u_mach k')) ∧
     (page u k va ≠ PFN_INVALID → ∃ m', u_maps k' !! u = Some m' ∧ um_tlbop m' ≠ HAL_TLBOP_NONE)) ∨
  (∃ k', umap_map u va pfn prot k = Ret ((false, PFN_INVALID), k') ∧ hu_inv u (u_mach k') ∧
     (∀ va', 0 ≤ va' < hu_max → page u k' va' = page u k va') ∧ others_kept k' ∧ (u_cur k = Some u → hu_cur u (u_mach k')) ∧
     page u k va = PFN_INVALID ∧ (size (free_frames (u_mach k)) < 3)%nat).
Proof.
  intros page others.
  destruct (umap_setl1e_run u va (hal_l1e_box pfn prot) true k m Hi Hva Hm Hcur)
    as [(s' & Hr & Hst & Hset & Hkc)|(s' & Hr & Hst & Hsame & Hz & _ & Hsz & Hkc)]; [left|right].
  - eexists. split; [exact Hr|]. split; [apply Hst|]. split_and!.
    + intros va' Hva'. unfold page. cbn [u_mach]. rewrite Hset by done. case_decide; [|done].
      unfold mapped. rewrite (surjective_pairing (hal_l1e_unbox _)).
      by rewrite hu_unbox_present, Hp, hu_unbox_pfn.
    + intros u' Hi' Hd. destruct (umap_step_other u u' _ _ Hst Hi' Hd) as (H1 & _ & H3). split; [done|].
      intros va' Hva'. unfold page. cbn [u_mach]. by rewrite H3.
    + done.
    + intros Hne. cbn [u_maps]. eexists. split; [apply lookup_insert_eq|]. cbn. unfold HAL_TLBOP_NONE.
      rewrite Z.lor_eq_0_iff. intros [_ Hop].
      assert (has (hal_l1e_unbox (sp_leaf (InData u) (u_mach k) va)).2 HAL_PTE_P = true) as Hpres.
      { unfold page, mapped in Hne. destruct (hal_l1e_unbox _) as [p q]. cbn in *. by destruct (has q HAL_PTE_P). }
      destruct (hu_tlbop_present _ (hal_l1e_box pfn prot) Hpres) as [Ho|Ho]; by rewrite Ho in Hop.
  - exists (set_mach s' k). split; [exact Hr|]. split; [apply Hst|]. split_and!.
    + intros va' Hva'. unfold page. cbn [u_mach set_mach]. by rewrite Hsame.
    + intros u' Hi' Hd. destruct (umap_step_other u u' _ _ Hst Hi' Hd) as (H1 & _ & H3). split; [done|].
      intros va' Hva'. unfold page. cbn [u_mach set_mach]. by rewrite H3.
    + done.
    + unfold page, mapped. by rewrite Hz, hu_unbox_0.
    + by apply Hsz.
Qed.

(** C5. A user map gives back what it takes: [umap_init], any sequence of
    mappings, unmappings and changes of flags, at addresses inside or outside
    the user area, and [umap_free] all return, and leave free exactly the frames
    that were free before. *)
Theorem umap_life_conserves `{!Config} (Hcfg : ConfigOk) `{!PteFormat} (Hfmt : PteFormatOk)
    {A : Type} `{!PfnCache A, !PfnAllocator A} (Hal : PfnAllocatorLaws A) `{!HalUmap A} (HL : HalUmapLaws A)
    (u : Z) (ops : list umap_op) (k : ust A) (m : umap_t)
    (Hok : alloc_ok (u_mach k)) (Hpre : hu_pre (u_mach k)) (Hw : words_at u (u_mach k))
    (Hm : u_maps k !! u = Some m) (Hcur : u_cur k ≠ Some u) (Hva : Forall (λ o, 0 ≤ op_va o) ops) :
  ∃ k', (umap_init u;; for_each ops (run_op u);; umap_free u) k = Ret (tt, k') ∧ alloc_ok (u_mach k') ∧
    free_frames (u_mach k') = free_frames (u_mach k) ∧ m_free_pages (u_mach k') = m_free_pages (u_mach k).
Proof.
  destruct (umap_init_run u k m Hok Hpre Hw Hm) as (s1 & Hr1 & Hi1 & _ & HF1). mrun Hr1.
  destruct (run_ops_step (free_frames (u_mach k)) u ops (Ust s1 (<[u := Umap 0 0]> (u_maps k)) (u_cur k)) (Umap 0 0))
    as (k2 & m2 & Hr2 & Hi2 & HF2 & Hm2 & Hc2); [done|apply lookup_insert_eq|done..|].
  mrun Hr2. destruct (hu_free u (u_mach k2) Hi2) as (s3 & Hr3 & [_ _ _ F4 F5 _]).
  assert (free_frames s3 = free_frames (u_mach k)) as Hfree.
  { apply set_eq. intros f. rewrite F5, (HF2 f). split; intros [?|(p & ?)]; [by left|right|by left|right];
      exists p; tauto. }
  exists (set_mach s3 k2). split; [|split; [done|split; [done|]]].
  - unfold umap_free. mrun. rewrite Hm2, bind_assert by (by rewrite Hc2). by apply on_umach_run.
  - cbn [u_mach set_mach]. rewrite (ao_pages _ F4), (ao_pages _ Hok). by rewrite Hfree.
Qed.

(** C37. The error paths of the user map operations: at an address outside the
    user area, and for [umap_unmap] and [umap_chflags] at an address that no
    page table of the map covers, they report failure and change nothing. *)
Theorem umap_errors `{!Config} (Hcfg : ConfigOk) `{!PteFormat} (Hfmt : PteFormatOk)
    {A : Type} `{!PfnCache A, !PfnAllocator A} (Hal : PfnAllocatorLaws A) `{!HalUmap A} (HL : HalUmapLaws A)
    (u va : Z) (k : ust A) (m : umap_t) (Hi : hu_inv u (u_mach k)) (Hm : u_maps k !! u = Some m) :
  (hu_max ≤ va → ∀ pfn prot pset pclr,
     umap_map u va pfn prot k = Ret ((false, PFN_INVALID), k) ∧ umap_unmap u va k = Ret (PFN_INVALID, k) ∧
     umap_chflags u va pset pclr k = Ret (0, k)) ∧
  (0 ≤ va < hu_max → sp_table (InData u) (u_mach k) (upath va) = None → ∀ pset pclr,
     umap_unmap u va k = Ret (PFN_INVALID, k) ∧ umap_chflags u va pset pclr k = Ret (0, k)).
Proof.
  split.
  - intros Hva pfn prot pset pclr. by rewrite umap_map_out, umap_unmap_out, umap_chflags_out.
  - intros Hva Ht pset pclr. split.
    + by destruct (umap_unmap_run u va k m Hi Hva Hm) as [(f & s' & Hf & _)|(_ & Hr)]; [congruence|].
    + by destruct (umap_chflags_run u va pset pclr k m Hi Hva Hm) as [(f & s' & Hf & _)|(_ & Hr)]; [congruence|].
Qed.
