(* ===== verification/UmapHals.v ===== *)
(** The user maps of the amd64 and of the RISC-V HAL implement the interface that
    libnux/umap.c is verified against. *)

From S2P Require Import Prelude Words Stree Locks Machine Pfnalloc Hal PageTable Space UmapInit UmapScan UmapFree.
From S2P Require X86Pmap RvPmap Pae64 Amd64 Umap64 UmapCur64 Sv48 Riscv UmapSv48 UmapCurSv48.
From S2P Require Import Umap.

(** * amd64 *)

Section amd64.
Context {CFG : Config} {LIN : Pae64.Pae64Config}.
Context {A : Type} `{!PfnCache A, !PfnAllocator A}.

Definition amd64_umap (nx : bool) : HalUmap A := {|
  Umap.hal_umap_getl1p := Amd64.amd64_umap_getl1p;
  Umap.hal_l1e_get := Amd64.amd64_l1e_get;
  Umap.hal_l1e_set := Amd64.amd64_l1e_set;
  Umap.hal_l1e_box := X86Pmap.hal_l1e_box (X86Pmap.nx_value nx);
  Umap.hal_l1e_unbox := X86Pmap.hal_l1e_unbox;
  Umap.hal_l1e_tlbop := X86Pmap.hal_l1e_tlbop;
  Umap.hal_umap_init := Umap64.hal_umap_init;
  Umap.hal_umap_bootstrap := Umap64.hal_umap_bootstrap;
  Umap.hal_umap_free := Umap64.hal_umap_free;
  hu_slots := Pae64.UMAP_L4PTES;
  hu_max := Pae64.pt_umap_maxaddr;
  hu_ptr := Umap64.fgn_ptr;
  hu_inv u s := space_inv (FMT := Pae64.pae64_format) Umap64.uslot (InData u) s;
  hu_cur := UmapCur64.cur_map;
  hu_pre _ := True;
|}.

End amd64.

Lemma leaf_entry {CFG : Config} {FMT : PteFormat} {A} u (s : mach A) va f :
  sp_table (InData u) s (upath va) = Some f → sp_leaf (InData u) s va = entry (m_frames s) f (L1OFF va).
Proof. intros Ht. unfold sp_leaf, leaf. unfold sp_table, upath in Ht. by rewrite Ht. Qed.

Lemma user_slot va : 0 ≤ va < 2 ^ 42 → 0 ≤ L4OFF va < 8.
Proof.
  intros Hva. unfold L4OFF. rewrite land_ones_9, Z.shiftr_div_pow2 by lia. change (2 ^ 39) with 549755813888.
  Z.div_mod_to_equations. lia.
Qed.

Section amd64_laws.
Context {CFG : Config} {CFGOK : ConfigOk} {LIN : Pae64.Pae64Config} {LINOK : Pae64.Pae64ConfigOk}.
Context {A : Type} `{!PfnCache A, !PfnAllocator A, !PfnAllocatorLaws A}.
Context (nx : bool).
#[local] Existing Instances Pae64.pae64_format Pae64.pae64_format_ok.
#[local] Existing Instance amd64_umap.

Lemma amd64_umap_laws : @HalUmapLaws CFG Pae64.pae64_format A _ _ (amd64_umap nx).
Proof.
  split.
  - done.
  - done.
  - done.
  - intros va Hva. by apply user_slot.
  - intros umap va alloc s Hva. cbn in *. unfold Amd64.amd64_umap_getl1p. by rewrite (proj2 (Z.leb_le _ _)).
  - (* getl1p *)
    intros u va alloc s Hi Hva. cbn in *. unfold Amd64.amd64_umap_getl1p.
    rewrite (proj2 (Z.leb_gt _ _)) by lia. rewrite (proj2 (Z.ltb_ge _ _)) by (unfold Pae64.pt_umap_minaddr; lia).
    destruct (Umap64.umap_get_l1p_run u s va alloc Hi (user_slot va Hva)) as (p & s' & Hr & Hi' & Hg & Hna & _ & Hp).
    cbn [orb]. mrun Hr. exists (negb (p =? L1P_INVALID)), p, s'. split; [done|]. split_and!; [done..|].
    destruct Hp as [(-> & Ht & Ha)|(f & Ht & -> & Hn)]; [done|].
    change Pae64.PTEP_INVALID with L1P_INVALID in Hn. rewrite (proj2 (Z.eqb_neq _ _) Hn). by exists f.
  - (* getl1p of the loaded map *)
    intros u va alloc s Hi Hcur Hva [f4 Hf4]. cbn in *. unfold Amd64.amd64_umap_getl1p.
    rewrite (proj2 (Z.leb_gt _ _)) by lia. rewrite (proj2 (Z.ltb_ge _ _)) by (unfold Pae64.pt_umap_minaddr; lia).
    destruct (UmapCur64.cur_get_l1p u s va alloc f4 Hcur Hi (user_slot va Hva) Hf4) as (p & s' & Hr & Hc' & Hi' & Hg & Hna & Hp).
    cbn [orb]. mrun Hr. exists (negb (p =? L1P_INVALID)), p, s'. split; [done|]. split_and!; [done..|].
    destruct Hp as [(-> & Ht & Ha)|(f & Ht & -> & Hn)]; [done|].
    change Pae64.PTEP_INVALID with L1P_INVALID in Hn. rewrite (proj2 (Z.eqb_neq _ _) Hn). exists f. split; [done|].
    intros e. by apply UmapCur64.cur_set; [| |apply user_slot|].
  - intros u va f s Hi Hva Ht. rewrite (leaf_entry u s va f Ht). destruct (off_range va) as (_ & _ & _ & I1).
    apply Umap64.fgn_get; [|done].
    by destruct (so_frame _ _ _ _ (sp_space _ _ _ Hi) (upath va) f (va_path Umap64.uslot va (user_slot va Hva)) Ht).
  - intros u va f e s Hi Hva Ht. rewrite (leaf_entry u s va f Ht). destruct (off_range va) as (_ & _ & _ & I1).
    apply Umap64.fgn_set; [|done].
    by destruct (so_frame _ _ _ _ (sp_space _ _ _ Hi) (upath va) f (va_path Umap64.uslot va (user_slot va Hva)) Ht).
  - (* init *)
    intros u s Hok _ Hw. assert (0 ≤ Pae64.UMAP_L4PTES ≤ 512) as Hn by done.
    assert (∀ i, Umap64.uslot i → in_dmap (u + 8 * i) = false ∧ (u + 8 * i) `mod` 8 = 0) as Hdm by (intros; by apply Hw).
    destruct (init_slots_run Pae64.UMAP_L4PTES u Hn (Pae64.alloc_table true) s (Umap64.pae64_alloc_table_spec true) Hok)
      as (s' & Hr & Hf & (_ & Hsub & _) & Hus); [by intros; apply Hw|done|].
    destruct (fresh_space Pae64.UMAP_L4PTES u Hn s' Hf Hdm) as [Hi Hz].
    destruct (init_used_tables Pae64.UMAP_L4PTES u Hn s s' Hf Hus) as [H1 H2].
    exists s'. split; [exact Hr|]. by split_and!.
  - (* free *)
    intros u s Hi. destruct (free_slots_run Pae64.pte_present (λ _, true) Pae64.UMAP_L4PTES u s Hi)
      as (s' & Hrun & Hf & _); [done..|]. by exists s'.
  - done.
  - intros pfn prot Hpfn Hprot. cbn. destruct (X86Pmap.box_flags_facts nx prot Hprot) as (_ & Hz & _).
    rewrite X86Pmap.box_split by done. by apply X86Pmap.l1epfn_split.
  - intros pfn prot _. cbn. by rewrite X86Pmap.unbox_present, X86Pmap.box_present.
  - intros old new Hp. cbn in *. rewrite X86Pmap.unbox_present in Hp. unfold X86Pmap.hal_l1e_tlbop.
    assert (has (X86Pmap.l1eflags old) X86Pmap.PTE_P = true) as ->.
    { unfold has, X86Pmap.l1eflags in *. by rewrite <- Z.land_assoc. }
    rewrite orb_true_r. simpl. case_bool; auto.
Qed.

End amd64_laws.

(** * RISC-V *)

Section riscv.
Context {CFG : Config} {A : Type} `{!PfnCache A, !PfnAllocator A}.

Definition riscv_umap : HalUmap A := {|
  Umap.hal_umap_getl1p := Riscv.riscv_umap_getl1p;
  Umap.hal_l1e_get := Riscv.riscv_l1e_get;
  Umap.hal_l1e_set := Riscv.riscv_l1e_set;
  Umap.hal_l1e_box := RvPmap.hal_l1e_box;
  Umap.hal_l1e_unbox := RvPmap.hal_l1e_unbox;
  Umap.hal_l1e_tlbop := RvPmap.hal_l1e_tlbop;
  Umap.hal_umap_init := UmapSv48.hal_umap_init;
  Umap.hal_umap_bootstrap := UmapSv48.hal_umap_bootstrap;
  Umap.hal_umap_free := UmapSv48.hal_umap_free;
  hu_slots := Sv48.UMAP_L4PTES;
  hu_max := Sv48.pt_umap_maxaddr;
  hu_ptr := RvPmap.mkptep;
  hu_inv u s := Sv48.sv_inv Sv48.uslot (InData u) s;
  hu_cur := UmapCurSv48.sv_cur_map;
  hu_pre s := 0 ∉ free_frames s;
|}.

End riscv.

Section riscv_laws.
Context {CFG : Config} {CFGOK : ConfigOk} {SVOK : Sv48.Sv48ConfigOk}.
Context {A : Type} `{!PfnCache A, !PfnAllocator A, !PfnAllocatorLaws A}.
#[local] Existing Instances Sv48.sv48_format Sv48.sv48_format_ok.
#[local] Existing Instance riscv_umap.

Lemma riscv_umap_laws : @HalUmapLaws CFG Sv48.sv48_format A _ _ riscv_umap.
Proof.
  split.
  - intros u s Hi. apply Hi.
  - intros u s Hi. apply Hi.
  - intros u s s' [Hi H0 Ht] Hi' Hsub Hnew. split; [done|set_solver|].
    intros p Hp Hc. by destruct (Hnew p 0 Hp Hc); [eapply Ht|].
  - intros va Hva. by apply user_slot.
  - intros umap va alloc s Hva. cbn in *. unfold Riscv.riscv_umap_getl1p. by rewrite (proj2 (Z.leb_le _ _)).
  - (* getl1p *)
    intros u va alloc s Hi Hva. cbn in *. unfold Riscv.riscv_umap_getl1p.
    rewrite (proj2 (Z.leb_gt _ _)) by lia. rewrite (proj2 (Z.ltb_ge _ _)) by (unfold Sv48.pt_umap_minaddr; lia).
    destruct (Sv48.sv_umap_get_l1p_run u s va alloc Hi (user_slot va Hva)) as (p & s' & Hr & Hi' & Hg & Hna & _ & Hp).
    cbn [orb]. mrun Hr. exists (negb (p =? L1P_INVALID)), p, s'. split; [done|]. split_and!; [apply Hi'|done..|].
    destruct Hp as [(-> & Ht & Ha)|(f & Ht & -> & Hn)]; [done|].
    change Sv48.PTEP_INVALID with L1P_INVALID in Hn. rewrite (proj2 (Z.eqb_neq _ _) Hn). by exists f.
  - (* getl1p of the loaded map *)
    intros u va alloc s Hi Hcur Hva [f4 Hf4]. cbn in *. unfold Riscv.riscv_umap_getl1p.
    rewrite (proj2 (Z.leb_gt _ _)) by lia. rewrite (proj2 (Z.ltb_ge _ _)) by (unfold Sv48.pt_umap_minaddr; lia).
    destruct (UmapCurSv48.sv_cur_get_l1p u s va alloc f4 Hcur Hi (user_slot va Hva) Hf4) as (p & s' & Hr & Hc' & Hi' & Hg & Hna & _ & Hp).
    cbn [orb]. mrun Hr. exists (negb (p =? L1P_INVALID)), p, s'. split; [done|]. split_and!; [apply Hi'|done..|].
    destruct Hp as [(-> & Ht & Ha)|(f & Ht & -> & Hn)]; [done|].
    change Sv48.PTEP_INVALID with L1P_INVALID in Hn. rewrite (proj2 (Z.eqb_neq _ _) Hn). exists f. split; [done|].
    intros e. split; [|by apply UmapCurSv48.sv_cur_set; [| |apply user_slot|]]. rewrite (leaf_entry u s' va f Ht). destruct (off_range va) as (_ & _ & _ & I1).
    apply Sv48.set_pte_run; [|done].
    by destruct (Sv48.sv_table_frame Sv48.uslot (InData u) s' (upath va) f Hi' (va_path Sv48.uslot va (user_slot va Hva)) Ht).
  - intros u va f s Hi Hva Ht. rewrite (leaf_entry u s va f Ht). destruct (off_range va) as (_ & _ & _ & I1).
    apply Sv48.get_pte_run; [|done].
    by destruct (Sv48.sv_table_frame Sv48.uslot (InData u) s (upath va) f Hi (va_path Sv48.uslot va (user_slot va Hva)) Ht).
  - intros u va f e s Hi Hva Ht. rewrite (leaf_entry u s va f Ht). destruct (off_range va) as (_ & _ & _ & I1).
    apply Sv48.set_pte_run; [|done].
    by destruct (Sv48.sv_table_frame Sv48.uslot (InData u) s (upath va) f Hi (va_path Sv48.uslot va (user_slot va Hva)) Ht).
  - (* init *)
    intros u s Hok H0 Hw. assert (0 ≤ Sv48.UMAP_L4PTES ≤ 512) as Hn by done.
    assert (∀ i, Sv48.uslot i → in_dmap (u + 8 * i) = false ∧ (u + 8 * i) `mod` 8 = 0) as Hdm by (intros; by apply Hw).
    destruct (init_slots_run Sv48.UMAP_L4PTES u Hn Sv48.alloc_table s UmapSv48.sv48_alloc_table_spec Hok)
      as (s' & Hr & Hf & (_ & Hsub & _) & Hus); [by intros; apply Hw|done|].
    destruct (fresh_space Sv48.UMAP_L4PTES u Hn s' Hf Hdm) as [Hi Hz].
    destruct (init_used_tables Sv48.UMAP_L4PTES u Hn s s' Hf Hus) as [H1 H2].
    exists s'. split; [exact Hr|]. split; [|by split_and!]. split; [exact Hi|set_solver|].
    intros p Hp Hc. by apply H0, (H2 p).
  - (* free *)
    intros u s Hi. destruct (UmapSv48.pt_umap_free_run u s (Sv48.sv_space _ _ _ Hi)) as (s' & Hrun & Hf & _). by exists s'.
  - done.
  - intros pfn prot Hpfn Hprot. cbn. pose proof RvPmap.rv_box_flags_checked as Hc. rewrite Forall_seqZ in Hc.
    destruct (Hc prot ltac:(lia)) as [_ Hb]. rewrite RvPmap.rv_box_split by lia. by apply RvPmap.rv_pte_pfn_split.
  - intros pfn prot Hprot. by apply Riscv.sv_unbox_present.
  - intros old new _. by left.
Qed.

End riscv_laws.

(** * The properties of libnux/umap.c on the example machines *)

#[local] Existing Instance ex_config.
#[local] Existing Instance ex_nocache.
#[local] Existing Instance ex_config_ok.

Definition exs_k : ust pfa := Ust UmapSv48.exs {[UmapSv48.exs_addr := Umap 3 0]} None.

Definition exs_ops : list umap_op := [OpMap 0x7000 4 3; OpUnmap UmapSv48.exs_va; OpChflags 0x7000 4 0; OpMap (2 ^ 50) 4 3].

Section amd64_example.
#[local] Existing Instances Amd64.ex64_config Amd64.ex64_config_ok Pae64.pae64_format Pae64.pae64_format_ok.
#[local] Instance ex_amd64 : HalUmap pfa := amd64_umap true.

(** The machine with the map loaded. *)
Definition exl : mach pfa := match Umap64.hal_umap_load (Some Umap64.exu_addr) Umap64.exu with Ret (_, s) => s | Abort _ => Umap64.exu end.
Definition exl_k : ust pfa := Ust exl {[Umap64.exu_addr := Umap 0 1]} (Some Umap64.exu_addr).

Lemma exl_cur : space_inv Umap64.uslot (InData Umap64.exu_addr) exl ∧ UmapCur64.cur_map Umap64.exu_addr exl.
Proof.
  destruct (UmapCur64.load_cur Amd64.ex64_slots Umap64.exu_addr Umap64.exu) as (op & s' & Hr & Hi & Hc).
  - intros i -> Hc. vm_compute in Hc. by destruct Hc.
  - intros Hc. vm_compute in Hc. by destruct Hc.
  - apply Umap64.exu_cpu_inv.
  - apply Umap64.exu_space.
  - intros p Hp Ht. destruct (Umap64.exu_table p _ Hp Ht) as [[_ ?]|[[_ ?]|[_ ?]]]; done.
  - assert (exl = s') as -> by (unfold exl; rewrite Hr; reflexivity). split; [exact Hi|exact Hc].
Qed.

#[local] Opaque exl.

Lemma exl_slot : is_Some (sp_table (InData Umap64.exu_addr) exl [L4OFF 0x5000]).
Proof. exists 1. vm_compute. reflexivity. Qed.

Lemma exl_old : mapped (sp_leaf (InData Umap64.exu_addr) (u_mach exl_k) 0x5000) = 6.
Proof. by vm_compute. Qed.

Lemma exu_page : 0 ≤ 0x5000 < hu_max.
Proof. done. Qed.

Lemma exu_same : same_page 0x5000 0x5000.
Proof. done. Qed.

(** Page 5 of the map, which is loaded, is frame 6; it becomes frame 9. *)
Lemma umap_map_correct_witness :
  ∃ k', umap_map Umap64.exu_addr 0x5000 9 3 exl_k = Ret ((true, 6), k') ∧
    mapped (sp_leaf (InData Umap64.exu_addr) (u_mach k') 0x5000) = 9 ∧ UmapCur64.cur_map Umap64.exu_addr (u_mach k').
Proof.
  destruct (umap_map_correct ex_config_ok Pae64.pae64_format_ok stree_allocator_laws (amd64_umap_laws true : HalUmapLaws pfa)
    Umap64.exu_addr 0x5000 9 3 exl_k (Umap 0 1) (proj1 exl_cur)) as [(k' & Hr & _ & Hp & _ & Hc & _)|(k' & _ & _ & _ & _ & _ & Hc & _)].
  - done.
  - by apply lookup_singleton_Some.
  - intros _. split; [exact (proj2 exl_cur)|exact exl_slot].
  - done.
  - done.
  - done.
  - exists k'. rewrite <- exl_old at 1. split; [exact Hr|]. specialize (Hp 0x5000 exu_page).
    rewrite (decide_True _ _ exu_same) in Hp. split; [exact Hp|exact (Hc eq_refl)].
  - assert (6 = PFN_INVALID) as Hx by (rewrite <- exl_old at 1; exact Hc). discriminate Hx.
Defined.

End amd64_example.

Section riscv_example.
#[local] Existing Instances Riscv.exrv_config_ok Sv48.sv48_format Sv48.sv48_format_ok.
#[local] Instance ex_riscv : HalUmap pfa := riscv_umap.

Lemma umap_life_conserves_witness :
  ∃ k', (umap_init UmapSv48.exs_addr;; for_each exs_ops (run_op UmapSv48.exs_addr);; umap_free UmapSv48.exs_addr) exs_k
      = Ret (tt, k') ∧ free_frames (u_mach k') = free_frames UmapSv48.exs.
Proof.
  destruct (umap_life_conserves ex_config_ok Sv48.sv48_format_ok stree_allocator_laws (riscv_umap_laws : HalUmapLaws pfa)
    UmapSv48.exs_addr exs_ops exs_k (Umap 3 0)) as (k' & Hr & _ & Hf & _).
  - by apply ex_alloc1_ok.
  - apply UmapSv48.exs_inv.
  - intros i Hu. destruct (UmapSv48.exs_top i Hu) as (_ & H1 & H2 & H3 & _). done.
  - by apply lookup_singleton_Some.
  - done.
  - by repeat constructor.
  - exists k'. split; [exact Hr|exact Hf].
Defined.

Lemma umap_errors_witness :
  umap_map UmapSv48.exs_addr (2 ^ 42) 9 3 exs_k = Ret ((false, PFN_INVALID), exs_k) ∧
  umap_unmap UmapSv48.exs_addr 0x5000 exs_k = Ret (PFN_INVALID, exs_k).
Proof.
  split.
  - apply (umap_errors ex_config_ok Sv48.sv48_format_ok stree_allocator_laws (riscv_umap_laws : HalUmapLaws pfa)
      UmapSv48.exs_addr (2 ^ 42) exs_k (Umap 3 0) UmapSv48.exs_inv); [by apply lookup_singleton_Some|done|exact 0|exact 0].
  - apply (umap_errors ex_config_ok Sv48.sv48_format_ok stree_allocator_laws (riscv_umap_laws : HalUmapLaws pfa)
      UmapSv48.exs_addr 0x5000 exs_k (Umap 3 0) UmapSv48.exs_inv);
      [by apply lookup_singleton_Some|done|vm_compute; reflexivity|exact 0|exact 0].
Defined.

End riscv_example.
