(* ===== verification/Cpu.v ===== *)
(** CPUs: libnux/cpu.c with include/nux/cpumask.h, the status flags of
    libnux/init.c, the comparison of TLB generations of libnux/internal.h and
    the address checks of libnux/uaddr.c. What the CPU and the platform are told
    to do is recorded as a list of events. *)

From S2P Require Import Prelude Words Locks Machine Hal PageTable Space UmapFree Kmap Umap.

Definition HAL_MAXCPUS : Z := 64.
Definition PLT_PCPU_INVALID : Z := -1.
Definition PADDR_INVALID : Z := 2 ^ 64 - 1.

Definition NUXST_OKPLT : Z := 1.
Definition NUXST_OKCPU : Z := 2.
Definition NUXST_RUNNING : Z := 4.
Definition NUXST_PANIC : Z := 128.

Definition NMIOP_KMAPUPDATE : Z := 1.
Definition NMIOP_TLBFLUSH : Z := 2.

(** * TLB generations *)

Definition _TG_WSHIFT : Z := 6.
Definition _TG_WRAP (t : Z) : Z := Z.land t (Z.shiftl 1 _TG_WSHIFT - 1).

Definition tlbgen_cmp (a b : Z) : Z :=
  if _TG_WRAP a =? _TG_WRAP b then
    if a <? b then -1 else if b <? a then 1 else 0
  else 1.

(** * Masks of CPUs *)

(** The atomic operations shift a [cpumask_t]; [cpumask_set] and
    [cpumask_clear] shift an [int] that is then widened. A count outside the
    width is undefined. *)
Definition atomic_cpumask_set (mask cpu : Z) : option Z :=
  b ← shl_u64 1 cpu; Some (Z.lor mask b).

Definition atomic_cpumask_and (cpumask mask : Z) : Z := Z.land cpumask mask.

Definition atomic_cpumask_clear (cpumask cpu : Z) : option Z :=
  b ← shl_u64 1 cpu; Some (atomic_cpumask_and cpumask (not64 b)).

Definition cpumask_set (cpumask cpu : Z) : option Z :=
  b ← shl_int 1 cpu; Some (Z.lor cpumask (u64 b)).

Definition cpumask_clear (cpumask cpu : Z) : option Z :=
  b ← shl_int 1 cpu; Some (Z.land cpumask (u64 (Z.lnot b))).

(** [_foreach_cpumask]: a [do ... while] loop over the bits of [m]. *)
Fixpoint foreach_cpumask_loop {S} (fuel : nat) (i m : Z) (op : Z → M S unit) : M S unit :=
  match fuel with
  | O => stop Hang
  | Datatypes.S fuel' =>
      when (negb (Z.land m 1 =? 0)) (op i);;
      let m := Z.shiftr m 1 in
      if negb (m =? 0) then foreach_cpumask_loop fuel' (i + 1) m op else mret tt
  end.

(** * The state *)

Record cpu_info : Set := Ci {
  ci_cpu_id : Z; ci_phys_id : Z; ci_umap : option Z; ci_idle : bool; ci_nmiop : Z;
  ci_ktlb : ktlb; ci_usrpgfault : Z; ci_usrpgaddr : Z; ci_usrpginfo : Z; ci_data : Z;
}.

(** What the CPU and the platform are told to do. *)
Inductive event : Set :=
  | EvTlbop (op : Z)
  | EvNmi (pcpu : Z)
  | EvIpi (pcpu : Z)
  | EvIpiAll
  | EvPcpuAdd (pcpu : Z)
  | EvPcpuInit
  | EvPltEnter
  | EvHalEnter (pcpu : Z)
  | EvStart (pcpu start : Z)
  | EvUserStart
  | EvUserEnd.

(** The variables of cpu.c, [struct ktlb ktlb] of ktlbgen.c, the flags of
    init.c, the fields of user maps, the machine, what [hal_cpu_getdata] returns
    and the events, the latest first. A pointer to a [struct cpu_info] is the
    index of the CPU. *)
Record cst (X : Type) : Type := Cst {
  number_cpus : Z; cpu_phys_to_id : list Z; cpus : gmap Z cpu_info;
  tlbmap : Z; cpus_active : Z; c_ktlb : ktlb; c_stflags : Z; c_apbooting : Z;
  c_umaps : gmap Z umap_t; c_data : option Z; c_events : list event; c_mach : X;
}.
Arguments Cst {X} _ _ _ _ _ _ _ _ _ _ _ _.
Arguments number_cpus {X} _.
Arguments cpu_phys_to_id {X} _.
Arguments cpus {X} _.
Arguments tlbmap {X} _.
Arguments cpus_active {X} _.
Arguments c_ktlb {X} _.
Arguments c_stflags {X} _.
Arguments c_apbooting {X} _.
Arguments c_umaps {X} _.
Arguments c_data {X} _.
Arguments c_events {X} _.
Arguments c_mach {X} _.

Section setters.
Context {X : Type}.
Implicit Types s : cst X.

Definition set_cpus (n : Z) (ids : list Z) (cs : gmap Z cpu_info) s : cst X :=
  Cst n ids cs (tlbmap s) (cpus_active s) (c_ktlb s) (c_stflags s) (c_apbooting s) (c_umaps s) (c_data s) (c_events s) (c_mach s).
Definition set_tlbmap (m : Z) s : cst X :=
  Cst (number_cpus s) (cpu_phys_to_id s) (cpus s) m (cpus_active s) (c_ktlb s) (c_stflags s) (c_apbooting s) (c_umaps s) (c_data s) (c_events s) (c_mach s).
Definition set_active (m : Z) s : cst X :=
  Cst (number_cpus s) (cpu_phys_to_id s) (cpus s) (tlbmap s) m (c_ktlb s) (c_stflags s) (c_apbooting s) (c_umaps s) (c_data s) (c_events s) (c_mach s).
Definition set_stflags (m : Z) s : cst X :=
  Cst (number_cpus s) (cpu_phys_to_id s) (cpus s) (tlbmap s) (cpus_active s) (c_ktlb s) m (c_apbooting s) (c_umaps s) (c_data s) (c_events s) (c_mach s).
Definition set_umaps (m : gmap Z umap_t) s : cst X :=
  Cst (number_cpus s) (cpu_phys_to_id s) (cpus s) (tlbmap s) (cpus_active s) (c_ktlb s) (c_stflags s) (c_apbooting s) m (c_data s) (c_events s) (c_mach s).
Definition set_data (d : option Z) s : cst X :=
  Cst (number_cpus s) (cpu_phys_to_id s) (cpus s) (tlbmap s) (cpus_active s) (c_ktlb s) (c_stflags s) (c_apbooting s) (c_umaps s) d (c_events s) (c_mach s).
Definition set_events (l : list event) s : cst X :=
  Cst (number_cpus s) (cpu_phys_to_id s) (cpus s) (tlbmap s) (cpus_active s) (c_ktlb s) (c_stflags s) (c_apbooting s) (c_umaps s) (c_data s) l (c_mach s).
Definition set_cmach (x : X) s : cst X :=
  Cst (number_cpus s) (cpu_phys_to_id s) (cpus s) (tlbmap s) (cpus_active s) (c_ktlb s) (c_stflags s) (c_apbooting s) (c_umaps s) (c_data s) (c_events s) x.

End setters.

(** * The code *)

Section cpu.
Context {X : Type}.

Definition emit (e : event) : M (cst X) unit := modify (λ s, set_events (e :: c_events s) s).
Definition on_cmach {B} (m : M X B) : M (cst X) B := zoom c_mach set_cmach m.

(** ** init.c *)

Definition nux_status : M (cst X) Z := gets c_stflags.
Definition nux_status_setfl (flags : Z) : M (cst X) Z :=
  st ← gets c_stflags; modify (set_stflags (Z.lor st flags));; mret st.
Definition nux_status_okcpu : M (cst X) bool :=
  st ← nux_status; ap ← gets c_apbooting;
  mret (negb (negb (has st NUXST_OKCPU) || negb (ap =? 0))).

(** ** Access to a [struct cpu_info] *)

Definition ci_get (p : Z) : M (cst X) cpu_info :=
  cs ← gets cpus; opt_or Fault (cs !! p).
Definition ci_put (p : Z) (ci : cpu_info) : M (cst X) unit :=
  modify (λ s, set_cpus (number_cpus s) (cpu_phys_to_id s) (<[p := ci]> (cpus s)) s).

Definition set_nmiop (v : Z) (c : cpu_info) : cpu_info :=
  Ci (ci_cpu_id c) (ci_phys_id c) (ci_umap c) (ci_idle c) v (ci_ktlb c) (ci_usrpgfault c) (ci_usrpgaddr c) (ci_usrpginfo c) (ci_data c).
Definition set_ktlb (v : ktlb) (c : cpu_info) : cpu_info :=
  Ci (ci_cpu_id c) (ci_phys_id c) (ci_umap c) (ci_idle c) (ci_nmiop c) v (ci_usrpgfault c) (ci_usrpgaddr c) (ci_usrpginfo c) (ci_data c).
Definition set_umap (v : option Z) (c : cpu_info) : cpu_info :=
  Ci (ci_cpu_id c) (ci_phys_id c) v (ci_idle c) (ci_nmiop c) (ci_ktlb c) (ci_usrpgfault c) (ci_usrpgaddr c) (ci_usrpginfo c) (ci_data c).
Definition set_idle (v : bool) (c : cpu_info) : cpu_info :=
  Ci (ci_cpu_id c) (ci_phys_id c) (ci_umap c) v (ci_nmiop c) (ci_ktlb c) (ci_usrpgfault c) (ci_usrpgaddr c) (ci_usrpginfo c) (ci_data c).
Definition set_userdata (v : Z) (c : cpu_info) : cpu_info :=
  Ci (ci_cpu_id c) (ci_phys_id c) (ci_umap c) (ci_idle c) (ci_nmiop c) (ci_ktlb c) (ci_usrpgfault c) (ci_usrpgaddr c) (ci_usrpginfo c) v.
Definition set_usrpg (fault addr info : Z) (c : cpu_info) : cpu_info :=
  Ci (ci_cpu_id c) (ci_phys_id c) (ci_umap c) (ci_idle c) (ci_nmiop c) (ci_ktlb c) fault addr info (ci_data c).

(** ** cpu.c *)

(** [raw]: what the memory [kmem_brkgrow] returns holds, if it succeeds. *)
Definition cpu_add (physid : Z) (raw : option cpu_info) : M (cst X) Z :=
  st ← nux_status;
  assertb (has st NUXST_OKPLT);;
  if HAL_MAXCPUS <=? physid then mret (-1)
  else
    n ← gets number_cpus;
    if HAL_MAXCPUS <=? n then mret (-1)
    else
      let id := n in
      r ← opt_or Fault raw;
      let ci := Ci id physid (ci_umap r) (ci_idle r) (ci_nmiop r) (ci_ktlb r) (ci_usrpgfault r) (ci_usrpgaddr r)
                  (ci_usrpginfo r) (ci_data r) in
      emit (EvPcpuAdd physid);;
      modify (λ s, set_cpus (u32 (n + 1)) (<[Z.to_nat physid := id]> (cpu_phys_to_id s)) (<[id := ci]> (cpus s)) s);;
      mret id.

Definition cpu_idfromphys (physid : Z) : M (cst X) Z :=
  assertb (physid <? HAL_MAXCPUS);;
  ids ← gets cpu_phys_to_id;
  id ← opt_or Fault (ids !! Z.to_nat physid);
  assertb (id <? HAL_MAXCPUS);;
  mret id.

(** [None] is [NULL]. *)
Definition cpu_getinfo (id : Z) : M (cst X) (option Z) :=
  n ← gets number_cpus;
  mret (if HAL_MAXCPUS <=? id then None else if n <=? id then None else Some id).

Definition cpu_curinfo : M (cst X) Z := d ← gets c_data; opt_or Fault d.

Definition cpu_id : M (cst X) Z := p ← cpu_curinfo; ci ← ci_get p; mret (ci_cpu_id ci).

(** [pcpuid] is what [plt_pcpu_id] returns. *)
Definition cpu_enter (pcpuid : Z) : M (cst X) unit :=
  emit EvPltEnter;;
  emit (EvHalEnter pcpuid);;
  cpuid ← cpu_idfromphys pcpuid;
  cpu ← cpu_getinfo cpuid;
  modify (set_data cpu);;
  p ← opt_or Fault cpu;
  ci_get p;;
  m ← gets cpus_active;
  m' ← opt_or Undef (atomic_cpumask_set m cpuid);
  modify (set_active m');;
  st ← nux_status;
  if has st NUXST_PANIC then stop Fatal else mret tt.

(** The CPUs that [plt_pcpu_iterate] enumerates, with the memory for each. *)
Definition cpu_init (pcpus : list (Z * option cpu_info)) (pcpuid : Z) : M (cst X) unit :=
  for_each pcpus (λ q, cpu_add (u16 q.1) q.2;; mret tt);;
  emit EvPcpuInit;;
  cpu_enter pcpuid.

Definition cpu_wasidle : M (cst X) bool := p ← cpu_curinfo; ci ← ci_get p; mret (ci_idle ci).
Definition cpu_clridle : M (cst X) unit := p ← cpu_curinfo; ci ← ci_get p; ci_put p (set_idle false ci).

(** [longjmp] to the frame of [cpu_enter], which marks the CPU idle. *)
Definition cpu_idle : M (cst X) unit := p ← cpu_curinfo; ci ← ci_get p; ci_put p (set_idle true ci).

(** [start] is [hal_pcpu_startaddr]. *)
Definition cpu_startall (pcpus : list Z) (pcpuid : Z) (start : Z → Z) : M (cst X) unit :=
  for_each pcpus (λ pcpu,
    if pcpu =? pcpuid then mret tt
    else if HAL_MAXCPUS <=? pcpu then mret tt
    else if negb (start pcpu =? PADDR_INVALID) then emit (EvStart pcpu (start pcpu))
    else cpu_idfromphys pcpu;; mret tt).

Definition cpu_activemask : M (cst X) Z := gets cpus_active.

Definition cpu_try_id : M (cst X) Z :=
  ok ← nux_status_okcpu; if negb ok then mret 0 else cpu_id.

Definition cpu_setdata (ptr : Z) : M (cst X) unit :=
  p ← cpu_curinfo; ci ← ci_get p; ci_put p (set_userdata ptr ci).
Definition cpu_getdata : M (cst X) Z := p ← cpu_curinfo; ci ← ci_get p; mret (ci_data ci).
Definition cpu_num : M (cst X) Z := gets number_cpus.

Definition foreach_cpumask (mask : Z) (op : Z → M (cst X) unit) : M (cst X) unit :=
  act ← cpu_activemask;
  foreach_cpumask_loop 64 0 (Z.land mask act) op.

Definition cpu_nmi (cpu : Z) : M (cst X) unit :=
  p ← cpu_getinfo cpu;
  match p : option Z with Some p => ci ← ci_get p; emit (EvNmi (ci_phys_id ci)) | None => mret tt end.

Definition cpu_nmi_mask (map : Z) : M (cst X) unit := foreach_cpumask map cpu_nmi.

Definition cpu_nmi_allbutself : M (cst X) unit :=
  ok ← nux_status_okcpu;
  if (ok : bool) then
    mask ← cpu_activemask;
    me ← cpu_id;
    mask ← opt_or Undef (cpumask_clear mask me);
    cpu_nmi_mask mask
  else mret tt.

Definition cpu_ipi (cpu : Z) : M (cst X) unit :=
  p ← cpu_getinfo cpu;
  match p : option Z with Some p => ci ← ci_get p; emit (EvIpi (ci_phys_id ci)) | None => mret tt end.

Definition cpu_ipi_broadcast : M (cst X) unit := emit EvIpiAll.
Definition cpu_ipi_mask (map : Z) : M (cst X) unit := foreach_cpumask map cpu_ipi.

(** [hal_cpu_tlbop] does nothing for [HAL_TLBOP_NONE]. *)
Definition hal_cpu_tlbop (op : Z) : M (cst X) unit :=
  if op =? HAL_TLBOP_NONE then mret tt else emit (EvTlbop op).

(** The compare-and-exchange of a generation of the current CPU. *)
Definition cas_global (p old new : Z) : M (cst X) unit :=
  ci ← ci_get p;
  when (kt_global (ci_ktlb ci) =? old) (ci_put p (set_ktlb (Ktlb new (kt_normal (ci_ktlb ci))) ci)).
Definition cas_normal (p old new : Z) : M (cst X) unit :=
  ci ← ci_get p;
  when (kt_normal (ci_ktlb ci) =? old) (ci_put p (set_ktlb (Ktlb (kt_global (ci_ktlb ci)) new) ci)).

Definition cpu_ktlb_update : M (cst X) unit :=
  p ← cpu_curinfo;
  ci ← ci_get p;
  let cpu_global := kt_global (ci_ktlb ci) in
  let cpu_normal := kt_normal (ci_ktlb ci) in
  kglobal ← gets (λ s, kt_global (c_ktlb s));
  knormal ← gets (λ s, kt_normal (c_ktlb s));
  if 0 <? tlbgen_cmp kglobal cpu_global then
    hal_cpu_tlbop HAL_TLBOP_FLUSHALL;;
    cas_global p cpu_global kglobal;;
    cas_normal p cpu_normal knormal
  else if 0 <? tlbgen_cmp knormal cpu_normal then
    hal_cpu_tlbop HAL_TLBOP_FLUSH;;
    cas_normal p cpu_normal knormal
  else mret tt.

Definition cpu_ktlb_reach (target : Z) : M (cst X) unit :=
  ok ← nux_status_okcpu;
  if negb ok then hal_cpu_tlbop HAL_TLBOP_FLUSH
  else
    p ← cpu_curinfo;
    ci ← ci_get p;
    if 0 <? tlbgen_cmp target (kt_normal (ci_ktlb ci)) then cpu_ktlb_update else mret tt.

Definition cpu_tlbflush_local : M (cst X) unit :=
  p ← cpu_curinfo;
  knormal ← gets (λ s, kt_normal (c_ktlb s));
  ci ← ci_get p;
  let cpu_normal := kt_normal (ci_ktlb ci) in
  hal_cpu_tlbop HAL_TLBOP_FLUSH;;
  cas_normal p cpu_normal knormal.

Definition cpu_nmiop : M (cst X) unit :=
  p ← cpu_curinfo;
  ci ← ci_get p;
  let nmiop := ci_nmiop ci in
  when (has nmiop NMIOP_KMAPUPDATE) cpu_ktlb_update;;
  when (has nmiop NMIOP_TLBFLUSH) cpu_tlbflush_local;;
  m ← gets tlbmap;
  me ← cpu_id;
  m' ← opt_or Undef (atomic_cpumask_clear m me);
  modify (set_tlbmap m').

(** [__atomic_or_fetch (&ci->nmiop, op)] and the interrupt. *)
Definition nmiop_send (op cpu : Z) : M (cst X) unit :=
  p ← cpu_getinfo cpu;
  match p : option Z with
  | None => mret tt
  | Some p => ci ← ci_get p; ci_put p (set_nmiop (Z.lor (ci_nmiop ci) op) ci);; cpu_nmi cpu
  end.

Definition cpu_kmapupdate (cpu : Z) : M (cst X) unit := nmiop_send NMIOP_KMAPUPDATE cpu.
Definition cpu_tlbflush (cpu : Z) : M (cst X) unit := nmiop_send NMIOP_TLBFLUSH cpu.

Definition cpu_kmapupdate_broadcast : M (cst X) unit :=
  ok ← nux_status_okcpu;
  if (ok : bool) then mask ← cpu_activemask; foreach_cpumask mask cpu_kmapupdate
  else hal_cpu_tlbop HAL_TLBOP_FLUSHALL.

Definition cpu_tlbflush_mask (mask : Z) : M (cst X) unit := foreach_cpumask mask cpu_tlbflush.

Definition cpu_tlbflush_broadcast : M (cst X) unit :=
  ok ← nux_status_okcpu;
  if (ok : bool) then mask ← cpu_activemask; cpu_tlbflush_mask mask
  else hal_cpu_tlbop HAL_TLBOP_FLUSHALL.

Definition cpu_nmi_broadcast : M (cst X) unit := mask ← cpu_activemask; cpu_tlbflush_mask mask.

(** libnux/kmap.c and libnux/umap.c: [__atomic_clear] writes one byte. *)
Definition kmap_commit : M (cst X) unit := cpu_kmapupdate_broadcast.

Definition umap_commit (u : Z) : M (cst X) unit :=
  ms ← gets c_umaps;
  m ← opt_or Fault (ms !! u);
  modify (set_umaps (<[u := Umap (Z.ldiff (um_tlbop m) 0xff) (um_cpumask m)]> ms));;
  cpu_tlbflush_mask (um_cpumask m).

(** entry.c *)
Definition hal_entry_nmi : M (cst X) unit :=
  st ← nux_status;
  if has st NUXST_PANIC then stop Fatal
  else
    ok ← nux_status_okcpu;
    if negb ok then mret tt else cpu_nmiop.

End cpu.

(** * User memory

    [ub] and [us] are [hal_virtmem_userbase ()] and [hal_virtmem_usersize ()]. *)

Definition uaddr_valid (ub us a : Z) : bool :=
  let min := ub in
  let max := u64 (min + us) in
  (min <=? a) && (a <? max).

Definition uaddr_validrange (ub us a size : Z) : bool :=
  let min := ub in
  if UADDR_INVALID - min <? us then false
  else
    let max := u64 (min + us) in
    if size =? 0 then (min <=? a) && (a <=? max)
    else if a <? min then false
    else
      let last_offset := size - 1 in
      if UADDR_INVALID - a <? last_offset then false
      else
        let last := u64 (a + last_offset) in
        last <? max.

Section useraccess.
Context {X : Type}.
Context (ub us : Z).

Definition cpu_useraccess_start : M (cst X) unit := emit EvUserStart.

Definition cpu_useraccess_reset : M (cst X) unit :=
  p ← cpu_curinfo; ci ← ci_get p; ci_put p (set_usrpg (ci_usrpgfault ci) 0 0 ci).

Definition cpu_useraccess_end : M (cst X) unit :=
  p ← cpu_curinfo;
  emit EvUserEnd;;
  ci ← ci_get p;
  ci_put p (set_usrpg 0 0 0 ci).

(** The result tells whether it jumps to the [setjmp] of the access. *)
Definition cpu_useraccess_checkpf (addr info : Z) : M (cst X) bool :=
  p ← cpu_curinfo;
  ci ← ci_get p;
  if negb (ci_usrpgfault ci =? 0) then
    ci_put p (set_usrpg (ci_usrpgfault ci) addr info ci);;
    mret true
  else mret false.

(** The part of [hal_entry_pf] that handles a fault in the kernel. *)
Definition kernel_pf (va info : Z) : M (cst X) unit :=
  jmp ← (if uaddr_valid ub us va then cpu_useraccess_checkpf va info else mret false);
  if (jmp : bool) then mret tt else stop Fatal.

(** From [setjmp] to the end of an access. [access] is the copy: it completes or
    stops at a page fault, [Some (address, info)]. [handler] is [pf_handler]. *)
Fixpoint useraccess_loop (fuel : nat) (handler : option (Z → Z → M (cst X) bool))
    (access : M X (option (Z * Z))) : M (cst X) bool :=
  match fuel with
  | O => stop Hang
  | S fuel' =>
      r ← on_cmach access;
      match r : option (Z * Z) with
      | None => cpu_useraccess_end;; mret true
      | Some (va, info) =>
          kernel_pf va info;;
          p ← cpu_curinfo;
          ci ← ci_get p;
          ok ← (match handler with
                | None => mret false
                | Some h => h (ci_usrpgaddr ci) (ci_usrpginfo ci)
                end);
          if negb ok then cpu_useraccess_end;; mret false
          else cpu_useraccess_reset;; useraccess_loop fuel' handler access
      end
  end.

(** What [cpu_useraccess_copyfrom], [_copyto] and [_memset] share: the check of
    the user range at [addr] and the guarded access. *)
Definition cpu_useraccess (fuel : nat) (addr size : Z) (handler : option (Z → Z → M (cst X) bool))
    (access : M X (option (Z * Z))) : M (cst X) bool :=
  p ← cpu_curinfo;
  if negb (uaddr_validrange ub us addr size) then mret false
  else
    cpu_useraccess_start;;
    ci ← ci_get p;
    ci_put p (set_usrpg 1 (ci_usrpgaddr ci) (ci_usrpginfo ci) ci);;
    useraccess_loop fuel handler access.

(** [memcpy] and [memset] on memory that may fault. *)
Context (memcpy : Z → Z → Z → M X (option (Z * Z))) (memset : Z → Z → Z → M X (option (Z * Z))).

Definition cpu_useraccess_copyfrom (fuel : nat) (dst src size : Z) (handler : option (Z → Z → M (cst X) bool)) : M (cst X) bool :=
  cpu_useraccess fuel src size handler (memcpy dst src size).
Definition cpu_useraccess_copyto (fuel : nat) (dst src size : Z) (handler : option (Z → Z → M (cst X) bool)) : M (cst X) bool :=
  cpu_useraccess fuel dst size handler (memcpy dst src size).
Definition cpu_useraccess_memset (fuel : nat) (dst ch size : Z) (handler : option (Z → Z → M (cst X) bool)) : M (cst X) bool :=
  cpu_useraccess fuel dst size handler (memset dst ch size).

Definition uaddr_copyfrom := cpu_useraccess_copyfrom.
Definition uaddr_copyto := cpu_useraccess_copyto.
Definition uaddr_memset := cpu_useraccess_memset.

End useraccess.

(** * Entering and leaving a user map *)

Section umaps.
Context {X : Type}.
Context (hal_umap_load : option Z → M X Z).

Definition cpu_umap_current : M (cst X) (option Z) := p ← cpu_curinfo; ci ← ci_get p; mret (ci_umap ci).

(** A change of the [cpumask] of a user map. *)
Definition on_cpumask (u : Z) (f : Z → option Z) : M (cst X) unit :=
  ms ← gets c_umaps;
  m ← opt_or Fault (ms !! u);
  c ← opt_or Undef (f (um_cpumask m));
  modify (set_umaps (<[u := Umap (um_tlbop m) c]> ms)).

Definition cpu_umap_enter (u : Z) : M (cst X) unit :=
  curumap ← cpu_umap_current;
  if bool_decide (curumap = Some u) then mret tt
  else
    (match curumap : option Z with
     | Some cu => me ← cpu_id; on_cpumask cu (λ m, atomic_cpumask_clear m me)
     | None => mret tt
     end);;
    p ← cpu_curinfo;
    ci ← ci_get p;
    ci_put p (set_umap (Some u) ci);;
    me ← cpu_id;
    on_cpumask u (λ m, atomic_cpumask_set m me);;
    op ← on_cmach (hal_umap_load (Some u));
    hal_cpu_tlbop op.

(** [__atomic_clear] of the pointer clears its lowest byte. *)
Definition clear_byte (p : Z) : option Z := let q := Z.ldiff p 0xff in if q =? 0 then None else Some q.

Definition cpu_umap_exit : M (cst X) (option Z) :=
  op ← on_cmach (hal_umap_load None);
  hal_cpu_tlbop op;;
  curumap ← cpu_umap_current;
  match curumap : option Z with
  | None => mret None
  | Some cu =>
      p ← cpu_curinfo;
      ci ← ci_get p;
      ci_put p (set_umap (clear_byte cu) ci);;
      me ← cpu_id;
      on_cpumask cu (λ m, atomic_cpumask_clear m me);;
      ci ← ci_get p;
      ci_put p (set_umap None ci);;
      mret (Some cu)
  end.

End umaps.

(** * TLB generations *)

Lemma tg_wrap_mod t : _TG_WRAP t = t `mod` 64.
Proof. unfold _TG_WRAP, _TG_WSHIFT. change (Z.shiftl 1 6 - 1) with (Z.ones 6). by rewrite Z.land_ones. Qed.

Lemma tlbgen_cmp_pos a b : (0 <? tlbgen_cmp a b) = true ↔ b < a ∨ a `mod` 64 ≠ b `mod` 64.
Proof.
  unfold tlbgen_cmp. rewrite !tg_wrap_mod.
  destruct (Z.eqb_spec (a `mod` 64) (b `mod` 64)) as [E|E]; [|split; [by right|done]].
  destruct (Z.ltb_spec a b), (Z.ltb_spec b a); split; intros H'; try done; try lia; try (left; lia).
Qed.

Lemma tlbgen_cmp_le a b : (0 <? tlbgen_cmp a b) = false → a ≤ b.
Proof.
  intros Hc. apply Z.nlt_ge. intros Hlt. assert ((0 <? tlbgen_cmp a b) = true) by (apply tlbgen_cmp_pos; by left). congruence.
Qed.

(** * Access to a [struct cpu_info] *)

Section ci_lemmas.
Context {X : Type}.
Implicit Types s : cst X.

Lemma ci_get_run p ci s : cpus s !! p = Some ci → ci_get p s = Ret (ci, s).
Proof. intros Hc. unfold ci_get. mrun. by rewrite Hc. Qed.

Lemma curinfo_run p s : c_data s = Some p → cpu_curinfo s = Ret (p, s).
Proof. intros Hd. unfold cpu_curinfo. mrun. by rewrite Hd. Qed.

Definition put_ci p ci s : cst X := set_cpus (number_cpus s) (cpu_phys_to_id s) (<[p := ci]> (cpus s)) s.

Lemma put_ci_id p ci s : cpus s !! p = Some ci → set_events (c_events s) (put_ci p ci s) = s.
Proof. intros Hc. unfold put_ci. rewrite insert_id by done. by destruct s. Qed.

Lemma cas_normal_run p old new ci s :
  cpus s !! p = Some ci → kt_normal (ci_ktlb ci) = old →
  cas_normal p old new s = Ret (tt, put_ci p (set_ktlb (Ktlb (kt_global (ci_ktlb ci)) new) ci) s).
Proof. intros Hc <-. unfold cas_normal. mrun (ci_get_run p ci s Hc). by rewrite Z.eqb_refl. Qed.

Lemma cas_global_run p old new ci s :
  cpus s !! p = Some ci → kt_global (ci_ktlb ci) = old →
  cas_global p old new s = Ret (tt, put_ci p (set_ktlb (Ktlb new (kt_normal (ci_ktlb ci))) ci) s).
Proof. intros Hc <-. unfold cas_global. mrun (ci_get_run p ci s Hc). by rewrite Z.eqb_refl. Qed.

(** The three ways [cpu_ktlb_update] goes. *)
Lemma cpu_ktlb_update_run p ci s :
  c_data s = Some p → cpus s !! p = Some ci →
  let kg := kt_global (c_ktlb s) in let kn := kt_normal (c_ktlb s) in
  let lg := kt_global (ci_ktlb ci) in let ln := kt_normal (ci_ktlb ci) in
  ∃ s' ci', cpu_ktlb_update s = Ret (tt, s') ∧ cpus s' = <[p := ci']> (cpus s) ∧ (s' = set_events (c_events s') (put_ci p ci' s) ∧ ci' = set_ktlb (ci_ktlb ci') ci) ∧
    if 0 <? tlbgen_cmp kg lg then c_events s' = EvTlbop HAL_TLBOP_FLUSHALL :: c_events s ∧ ci_ktlb ci' = Ktlb kg kn
    else if 0 <? tlbgen_cmp kn ln then c_events s' = EvTlbop HAL_TLBOP_FLUSH :: c_events s ∧ ci_ktlb ci' = Ktlb lg kn
    else s' = s ∧ ci' = ci.
Proof.
  intros Hd Hc kg kn lg ln. unfold cpu_ktlb_update. mrun (curinfo_run p s Hd). mrun (ci_get_run p ci s Hc).
  fold kg kn lg ln. destruct (0 <? tlbgen_cmp kg lg); [|destruct (0 <? tlbgen_cmp kn ln)].
  - unfold hal_cpu_tlbop, emit. change (HAL_TLBOP_FLUSHALL =? HAL_TLBOP_NONE) with false. mrun.
    set (s1 := set_events _ s). assert (cpus s1 !! p = Some ci) as H1 by exact Hc.
    mrun (cas_global_run p lg kg ci s1 H1 eq_refl). set (ci1 := set_ktlb _ ci).
    assert (cpus (put_ci p ci1 s1) !! p = Some ci1) as H2 by apply lookup_insert_eq.
    eexists _, _. split; [exact (cas_normal_run p ln kn ci1 _ H2 eq_refl)|].
    split; [apply insert_insert_eq|]. split; [|done].
    split; [|done]. unfold put_ci, set_cpus, set_events. cbn. by rewrite insert_insert_eq.
  - unfold hal_cpu_tlbop, emit. change (HAL_TLBOP_FLUSH =? HAL_TLBOP_NONE) with false. mrun.
    set (s1 := set_events _ s). assert (cpus s1 !! p = Some ci) as H1 by exact Hc.
    eexists _, _. split; [exact (cas_normal_run p ln kn ci s1 H1 eq_refl)|]. done.
  - exists s, ci. split; [done|]. split; [by rewrite insert_id|]. split; [|done].
    split; [symmetry; by apply put_ci_id|by destruct ci].
Qed.

End ci_lemmas.

(** * Loops over a mask *)

(** The CPUs of a mask, in order. *)
Definition mask_cpus (m : Z) : list Z := filter (λ j, Z.testbit m j = true) (seqZ 0 64).

Lemma filter_ext_in {B} (P Q : B → Prop) `{!∀ x, Decision (P x), !∀ x, Decision (Q x)} (l : list B) :
  (∀ x, x ∈ l → P x ↔ Q x) → filter P l = filter Q l.
Proof.
  induction l as [|x l IH]; intros Hl; [done|]. specialize (IH (λ y Hy, Hl y (list_elem_of_further y x l Hy))).
  specialize (Hl x (list_elem_of_here x l)). rewrite !filter_cons, IH. by repeat case_decide; tauto.
Qed.

Lemma list_filter_false {B} (l : list B) : filter (λ _, False) l = [].
Proof. by induction l. Qed.

Lemma foreach_loop_run {S} (op : Z → M S unit) (n : nat) : ∀ i m s,
  (0 < n)%nat → 0 ≤ m < 2 ^ n →
  foreach_cpumask_loop n i m op s = for_each (filter (λ j, Z.testbit m (j - i) = true) (seqZ i n)) op s.
Proof.
  induction n as [|n IH]; intros i m s Hn Hm; [lia|]. cbn [foreach_cpumask_loop].
  rewrite seqZ_cons by lia. replace (Z.pred (Datatypes.S n)) with (Z.of_nat n) by lia. replace (Z.succ i) with (i + 1) by lia.
  assert (negb (Z.land m 1 =? 0) = Z.testbit m 0) as ->.
  { change 1 with (Z.ones 1) at 1. rewrite Z.land_ones by lia. change (2 ^ 1) with 2.
    rewrite <- (Z.bit0_mod m). by destruct (Z.testbit m 0). }
  rewrite Nat2Z.inj_succ, Z.pow_succ_r in Hm by lia. rewrite filter_cons, Z.sub_diag.
  rewrite (filter_ext_in _ (λ j, Z.testbit (Z.shiftr m 1) (j - (i + 1)) = true)).
  2: { intros j Hj%elem_of_seqZ. rewrite Z.shiftr_spec by lia. by replace (j - (i + 1) + 1) with (j - i) by lia. }
  assert (0 ≤ Z.shiftr m 1 < 2 ^ n) as Hm'.
  { rewrite Z.shiftr_div_pow2 by lia. change (2 ^ 1) with 2. Z.div_mod_to_equations. lia. }
  assert (∀ s, (if negb (Z.shiftr m 1 =? 0) then foreach_cpumask_loop n (i + 1) (Z.shiftr m 1) op else mret tt) s =
    for_each (filter (λ j, Z.testbit (Z.shiftr m 1) (j - (i + 1)) = true) (seqZ (i + 1) n)) op s) as Hrest.
  { intros s1. destruct (Z.eqb_spec (Z.shiftr m 1) 0) as [E|E]; cbn [negb].
    - rewrite E. rewrite (filter_ext_in _ (λ _, False)) by (intros; by rewrite Z.bits_0). by rewrite list_filter_false.
    - apply IH; [|done]. destruct n; [|lia]. rewrite Z.pow_0_r in Hm'. lia. }
  destruct (Z.testbit m 0); cbn [when].
  - rewrite decide_True by done. cbn [for_each]. unfold mbind, M_bind. destruct (op i s) as [[? s1]|]; [|done]. apply Hrest.
  - rewrite decide_False by done. mrun. apply Hrest.
Qed.

Arguments foreach_cpumask_loop : simpl never.

Section loops.
Context {X : Type}.
Implicit Types s : cst X.

Lemma foreach_cpumask_run mask (op : Z → M (cst X) unit) s :
  0 ≤ mask → 0 ≤ cpus_active s < 2 ^ 64 →
  foreach_cpumask mask op s = for_each (mask_cpus (Z.land mask (cpus_active s))) op s.
Proof.
  intros Hm Ha. unfold foreach_cpumask, cpu_activemask. mrun.
  assert (0 ≤ Z.land mask (cpus_active s) < 2 ^ 64) as Hl.
  { rewrite Z.land_comm. by apply land_word64. }
  rewrite (foreach_loop_run op 64 0 _ s); [|lia|exact Hl]. unfold mask_cpus.
  rewrite (filter_ext_in _ (λ j, Z.testbit (Z.land mask (cpus_active s)) j = true)); [reflexivity|].
  intros j _. by rewrite Z.sub_0_r.
Qed.

End loops.
