(* ===== verification/CpuInv.v ===== *)
(** The state of libnux/cpu.c: its invariant from start-up on, what a broadcast
    of [kmap_commit] does, the masks of the CPUs that use a user map, and guarded
    accesses to user memory. *)

From S2P Require Import Prelude Words Locks Machine Hal PageTable Space UmapFree Kmap Umap Cpu.

(** * Bits of a mask *)

Lemma pow2_word64 c : 0 ≤ c < 64 → word64 (2 ^ c).
Proof. intros Hc. split; [by apply Z.pow_nonneg|]. apply Z.pow_lt_mono_r; lia. Qed.

Lemma shl_one_u64 c : 0 ≤ c < 64 → shl_u64 1 c = Some (2 ^ c).
Proof.
  intros Hc. unfold shl_u64. rewrite (proj2 (Z.leb_le 0 c)), (proj2 (Z.ltb_lt c 64)) by lia. cbn.
  by rewrite Z.shiftl_1_l, u64_small by by apply pow2_word64.
Qed.

Lemma testbit_pow2 c i : 0 ≤ c → Z.testbit (2 ^ c) i = bool_decide (i = c).
Proof.
  intros Hc. rewrite <- Z.shiftl_1_l, testbit_one_shl by done. case_bool_decide; [by apply Z.eqb_eq|by apply Z.eqb_neq].
Qed.

Lemma mask_set_run m c : word64 m → 0 ≤ c < 64 →
  ∃ m', atomic_cpumask_set m c = Some m' ∧ word64 m' ∧ ∀ i, Z.testbit m' i = bool_decide (i = c) || Z.testbit m i.
Proof.
  intros Hm Hc. unfold atomic_cpumask_set. rewrite shl_one_u64 by done. cbn. eexists. split; [done|]. split.
  - apply lor_word64; [done|]. by apply pow2_word64.
  - intros i. rewrite Z.lor_spec, testbit_pow2 by lia. by rewrite orb_comm.
Qed.

Lemma mask_clear_run m c : word64 m → 0 ≤ c < 64 →
  ∃ m', atomic_cpumask_clear m c = Some m' ∧ word64 m' ∧ ∀ i, Z.testbit m' i = negb (bool_decide (i = c)) && Z.testbit m i.
Proof.
  intros Hm Hc. unfold atomic_cpumask_clear, atomic_cpumask_and. rewrite shl_one_u64 by done. cbn. eexists. split; [done|]. split.
  - apply land_word64; [done|]. apply u64_range.
  - intros i. unfold not64. rewrite Z.land_spec, testbit_u64. destruct (decide (i < 0)) as [Hi|Hi].
    { rewrite (Z.testbit_neg_r m), !andb_false_r by done. done. }
    rewrite Z.lnot_spec, testbit_pow2 by lia. destruct (Z.ltb_spec i 64); [by destruct (Z.testbit m i), (bool_decide (i = c))|].
    rewrite (testbit_above m 64 i Hm) by done. by destruct (bool_decide (i = c)).
Qed.

Lemma elem_of_mask_cpus m c : c ∈ mask_cpus m ↔ 0 ≤ c < 64 ∧ Z.testbit m c = true.
Proof. unfold mask_cpus. rewrite list_elem_of_filter, elem_of_seqZ. intuition lia. Qed.

Lemma mask_cpus_NoDup m : NoDup (mask_cpus m).
Proof. apply NoDup_filter, NoDup_seqZ. Qed.

(** * The invariant *)

Section wf.
Context {X : Type}.
Implicit Types s : cst X.

(** The CPUs found are numbered from 0, [cpu_phys_to_id] leads back to each of
    them, and only CPUs that were found are active or run. *)
Record cpu_wf s : Prop := {
  wf_num : 0 ≤ number_cpus s ≤ HAL_MAXCPUS;
  wf_dom c : is_Some (cpus s !! c) ↔ 0 ≤ c < number_cpus s;
  wf_id c ci : cpus s !! c = Some ci → ci_cpu_id ci = c ∧ 0 ≤ ci_phys_id ci < HAL_MAXCPUS ∧
    cpu_phys_to_id s !! Z.to_nat (ci_phys_id ci) = Some c;
  wf_ids : Z.of_nat (length (cpu_phys_to_id s)) = HAL_MAXCPUS;
  wf_active : word64 (cpus_active s);
  wf_act c : Z.testbit (cpus_active s) c = true → 0 ≤ c < number_cpus s;
  wf_tlbmap : word64 (tlbmap s);
  wf_data p : c_data s = Some p → 0 ≤ p < number_cpus s;
}.

(** The physical numbers in use. *)
Definition known s (phys : Z) : Prop := ∃ c ci, cpus s !! c = Some ci ∧ ci_phys_id ci = phys.

Lemma cpu_add_run physid raw s r :
  cpu_wf s → has (c_stflags s) NUXST_OKPLT = true → 0 ≤ physid → raw = Some r → ¬ known s physid →
  ∃ s', if (HAL_MAXCPUS <=? physid) || (HAL_MAXCPUS <=? number_cpus s) then cpu_add physid raw s = Ret (-1, s) ∧ s' = s
        else cpu_add physid raw s = Ret (number_cpus s, s') ∧ cpu_wf s' ∧ number_cpus s' = number_cpus s + 1 ∧
          (∀ p, known s' p ↔ known s p ∨ p = physid) ∧ cpus_active s' = cpus_active s ∧ c_stflags s' = c_stflags s ∧
          cpu_phys_to_id s' !! Z.to_nat physid = Some (number_cpus s) ∧ c_data s' = c_data s.
Proof.
  intros [Hn Hd Hi Hl Ha Ht Htm Hda] Hst Hp -> Hk. unfold cpu_add, nux_status. mrun. rewrite bind_assert by done.
  destruct (Z.leb_spec HAL_MAXCPUS physid) as [|Hlt]; [by exists s|]. mrun.
  destruct (Z.leb_spec HAL_MAXCPUS (number_cpus s)) as [|Hlt']; [by exists s|]. mrun.
  unfold emit. mrun. eexists. split; [done|]. cbn. unfold HAL_MAXCPUS in *.
  assert (u32 (number_cpus s + 1) = number_cpus s + 1) as Hu by (apply u32_small; unfold word32; lia). rewrite Hu.
  assert (cpus s !! number_cpus s = None) as Hnew by (apply eq_None_not_Some; rewrite Hd; lia).
  split_and!; try done.
  - split; cbn; try done; unfold HAL_MAXCPUS; [lia| | |rewrite length_insert; lia| |].
    + intros c. destruct (decide (c = number_cpus s)) as [->|Hc].
      * rewrite lookup_insert_eq. split; [lia|done].
      * rewrite lookup_insert_ne, Hd by done. lia.
    + intros c ci. destruct (decide (c = number_cpus s)) as [->|Hc].
      * rewrite lookup_insert_eq. intros [= <-]. cbn. split_and!; [done|lia|lia|]. apply list_lookup_insert_eq. lia.
      * rewrite lookup_insert_ne by done. intros Hci. destruct (Hi _ _ Hci) as (H1 & H2 & H3). split_and!; [done|lia|lia|].
        rewrite list_lookup_insert_ne; [done|]. intros E. apply Hk. exists c, ci. split; [done|]. lia.
    + intros c Hc. specialize (Ht c Hc). lia.
    + intros p Hp'. specialize (Hda p Hp'). lia.
  - intros p. split.
    + intros (c & ci & Hc & <-). cbn in Hc. destruct (decide (c = number_cpus s)) as [->|Hne].
      * rewrite lookup_insert_eq in Hc. simplify_eq. by right.
      * rewrite lookup_insert_ne in Hc by done. left. by exists c, ci.
    + intros [(c & ci & Hc & <-)| ->].
      * exists c, ci. split; [|done]. cbn. rewrite lookup_insert_ne; [done|]. intros <-. congruence.
      * eexists _, _. split; [apply lookup_insert_eq|done].
  - apply list_lookup_insert_eq. lia.
Qed.

Lemma cpu_getinfo_run c s : cpu_wf s → 0 ≤ c →
  cpu_getinfo c s = Ret (if bool_decide (c < number_cpus s) then Some c else None, s).
Proof.
  intros Hw Hc. pose proof (wf_num s Hw) as Hn. unfold cpu_getinfo, HAL_MAXCPUS in *. mrun.
  destruct (Z.leb_spec 64 c), (Z.leb_spec (number_cpus s) c); case_bool_decide; done || lia.
Qed.

Lemma cpu_idfromphys_run p c ci s : cpu_wf s → cpus s !! c = Some ci → ci_phys_id ci = p →
  cpu_idfromphys p s = Ret (c, s).
Proof.
  intros Hw Hc <-. destruct (wf_id s Hw c ci Hc) as (Hid & Hp & Hl). unfold cpu_idfromphys, HAL_MAXCPUS in *.
  rewrite bind_assert by (apply Z.ltb_lt; lia). mrun. rewrite Hl. mrun. rewrite bind_assert; [done|].
  assert (is_Some (cpus s !! c)) as Hs%(wf_dom s Hw) by eauto. pose proof (wf_num s Hw). unfold HAL_MAXCPUS in *. apply Z.ltb_lt. lia.
Qed.

Lemma cpu_enter_run p c ci s :
  cpu_wf s → cpus s !! c = Some ci → ci_phys_id ci = p → has (c_stflags s) NUXST_PANIC = false →
  ∃ s', cpu_enter p s = Ret (tt, s') ∧ cpu_wf s' ∧ c_data s' = Some c ∧ cpus s' = cpus s ∧ number_cpus s' = number_cpus s ∧
    (∀ i, Z.testbit (cpus_active s') i = bool_decide (i = c) || Z.testbit (cpus_active s) i).
Proof.
  intros Hw Hc Hp Hst. assert (is_Some (cpus s !! c)) as Hr%(wf_dom s Hw) by eauto.
  pose proof (wf_num s Hw) as Hn. unfold HAL_MAXCPUS in Hn.
  destruct (mask_set_run (cpus_active s) c (wf_active s Hw)) as (m' & Hm & Hmw & Hb); [lia|].
  unfold cpu_enter, emit. mrun. set (s1 := set_events _ (set_events _ s)).
  assert (cpu_wf s1) as Hw1 by (destruct Hw; split; done).
  mrun (cpu_idfromphys_run p c ci s1 Hw1 Hc Hp). mrun (cpu_getinfo_run c s1 Hw1 (proj1 Hr)).
  rewrite bool_decide_true by apply Hr. mrun. mrun (ci_get_run c ci (set_data (Some c) s1) Hc). cbn. rewrite Hm. mrun.
  unfold nux_status. mrun. cbn. rewrite Hst. eexists. split; [done|].
  split_and!; try done. destruct Hw as [? ? ? ? ? Ha ? Hd]. split; cbn; try done.
  - intros i. rewrite Hb. case_bool_decide as E; [subst; intros _; lia|apply Ha].
  - by intros ? [= <-].
Qed.

(** Every CPU the platform reports once, with a number the kernel supports, is
    added. *)
Definition supported (l : list Z) : list Z := filter (λ p, p < HAL_MAXCPUS) l.

Lemma supported_length l : NoDup l → (∀ p, p ∈ l → 0 ≤ p) → Z.of_nat (length (supported l)) ≤ HAL_MAXCPUS.
Proof.
  intros Hnd Hp. assert (supported l ⊆+ seqZ 0 HAL_MAXCPUS) as Hs%submseteq_length.
  - apply NoDup_submseteq; [by apply NoDup_filter|]. intros p [H1 H2]%list_elem_of_filter. apply elem_of_seqZ. specialize (Hp p H2). lia.
  - rewrite length_seqZ in Hs. unfold HAL_MAXCPUS in *. lia.
Qed.

Lemma supported_snoc l p : supported (l ++ [p]) = supported l ++ (if decide (p < HAL_MAXCPUS) then [p] else []).
Proof. unfold supported. by rewrite filter_app. Qed.

Record init_state s : Prop := {
  is_num : number_cpus s = 0;
  is_cpus : cpus s = ∅;
  is_ids : Z.of_nat (length (cpu_phys_to_id s)) = HAL_MAXCPUS;
  is_act : cpus_active s = 0;
  is_tlb : tlbmap s = 0;
  is_data : c_data s = None;
  is_plt : has (c_stflags s) NUXST_OKPLT = true;
  is_nopanic : has (c_stflags s) NUXST_PANIC = false;
}.

Lemma init_wf s : init_state s → cpu_wf s.
Proof.
  intros [H1 H2 H3 H4 H5 H6 _ _]. split; rewrite ?H1, ?H2, ?H4, ?H5, ?H6; try done.
  - intros c. rewrite lookup_empty. split; [by intros []|lia].
  - intros c. by rewrite Z.bits_0.
Qed.

Lemma cpu_add_all l s0 : init_state s0 → NoDup l.*1 → (∀ p, p ∈ l.*1 → 0 ≤ p < 2 ^ 16) → (∀ q, q ∈ l → is_Some q.2) →
  ∃ s, for_each l (λ q : Z * option cpu_info, cpu_add (u16 q.1) q.2;; mret tt) s0 = Ret (tt, s) ∧ cpu_wf s ∧
    (∀ p, known s p ↔ p ∈ supported l.*1) ∧ number_cpus s = length (supported l.*1) ∧
    c_stflags s = c_stflags s0 ∧ cpus_active s = 0 ∧ c_data s = None.
Proof.
  intros H0 Hnd Hp Hr.
  apply (for_each_inv l _ (λ done s, cpu_wf s ∧ (∀ p, known s p ↔ p ∈ supported done.*1) ∧
    number_cpus s = length (supported done.*1) ∧ c_stflags s = c_stflags s0 ∧ cpus_active s = 0 ∧ c_data s = None)).
  - split_and!; [by apply init_wf| |by destruct H0..].
    intros p. cbn. split; [|by intros ?%not_elem_of_nil]. intros (c & ci & Hc & _). rewrite (is_cpus s0 H0) in Hc. by apply lookup_empty_Some in Hc.
  - intros dn [p raw] rest s Heq (Hw & Hk & Hn & Hst & Ha & Hd). subst l. rewrite fmap_app in *. cbn in Hnd, Hp.
    assert (0 ≤ p < 2 ^ 16) as Hp16 by (apply Hp; apply elem_of_app; right; apply list_elem_of_here).
    destruct (Hr (p, raw)) as [r Hraw]; [apply elem_of_app; right; apply list_elem_of_here|]. cbn in Hraw.
    assert (p ∉ dn.*1) as Hnew by (apply NoDup_app in Hnd as (_ & Hx & _); intros Hin; apply (Hx p Hin); set_solver).
    assert (u16 p = p) as Hu by by apply Z.mod_small.
    destruct (cpu_add_run p raw s r Hw) as (s' & Hs'); [by rewrite Hst; destruct H0|lia|done|by rewrite Hk; intros [_ ?]%list_elem_of_filter|].
    assert (Z.of_nat (length (supported (dn.*1 ++ [p]))) ≤ HAL_MAXCPUS) as Hlen.
    { apply supported_length; [|intros q [Hq|Hq]%elem_of_app; apply Hp; apply elem_of_app; [by left|apply list_elem_of_singleton in Hq as ->; right; apply list_elem_of_here]].
      change (p :: rest.*1) with ([p] ++ rest.*1) in Hnd. rewrite app_assoc in Hnd. by apply NoDup_app in Hnd as (? & _ & _). }
    rewrite supported_snoc, length_app in Hlen. cbn beta. change ([(p, raw)].*1) with [p]. cbn [fst snd]. rewrite supported_snoc, Hu.
    destruct (Z.leb_spec HAL_MAXCPUS p) as [Hge|Hlt]; [rewrite decide_False by lia|rewrite decide_True in Hlen |- * by lia].
    + destruct Hs' as [Hrun ->]. exists s. mrun Hrun. rewrite app_nil_r. done.
    + cbn in Hlen. destruct (Z.leb_spec HAL_MAXCPUS (number_cpus s)) as [Hge'|]; [lia|].
      destruct Hs' as (Hrun & Hw' & Hn' & Hk' & Ha' & Hst' & _ & Hd'). exists s'. mrun Hrun. split; [done|].
      split_and!; try done; [|rewrite length_app, Hn'; cbn; lia|congruence..].
      intros q. by rewrite Hk', Hk, elem_of_app, list_elem_of_singleton.
Qed.

(** [cpu_init] numbers every supported CPU that the platform reports, leads
    from its physical number to it, and leaves the booting CPU, and no other,
    active and current. *)
Theorem cpu_init_correct l pcpuid s0 :
  init_state s0 → NoDup l.*1 → (∀ p, p ∈ l.*1 → 0 ≤ p < 2 ^ 16) → (∀ q, q ∈ l → is_Some q.2) → pcpuid ∈ supported l.*1 →
  ∃ s c ci, cpu_init l pcpuid s0 = Ret (tt, s) ∧ cpu_wf s ∧ number_cpus s = length (supported l.*1) ∧
    (∀ p, p ∈ supported l.*1 → ∃ c ci, cpu_idfromphys p s = Ret (c, s) ∧ cpus s !! c = Some ci ∧ ci_phys_id ci = p) ∧
    c_data s = Some c ∧ cpus s !! c = Some ci ∧ ci_phys_id ci = pcpuid ∧
    ∀ i, Z.testbit (cpus_active s) i = bool_decide (i = c).
Proof.
  intros H0 Hnd Hp Hr Hb. destruct (cpu_add_all l s0 H0 Hnd Hp Hr) as (s1 & Hrun & Hw1 & Hk & Hn & Hst & Ha & Hd).
  unfold cpu_init. mrun Hrun. unfold emit. mrun. set (s2 := set_events _ s1).
  assert (cpu_wf s2) as Hw2 by (destruct Hw1; split; done).
  destruct (proj2 (Hk pcpuid) Hb) as (c & ci & Hc & Hph).
  destruct (cpu_enter_run pcpuid c ci s2 Hw2 Hc Hph) as (s3 & Hrun3 & Hw3 & Hd3 & Hcs & Hn3 & Hbits).
  { cbn. rewrite Hst. by destruct H0. }
  exists s3, c, ci. split; [exact Hrun3|]. split; [done|]. split; [rewrite Hn3; exact Hn|]. split_and!; try done.
  - intros p Hps. destruct (proj2 (Hk p) Hps) as (c' & ci' & Hc' & Hph'). exists c', ci'.
    split; [|by rewrite Hcs]. apply (cpu_idfromphys_run p c' ci'); [done|by rewrite Hcs|done].
  - by rewrite Hcs.
  - intros i. rewrite Hbits. cbn. by rewrite Ha, Z.bits_0, orb_false_r.
Qed.

(** * Broadcasts *)

Lemma nmiop_send_run op c ci s : cpu_wf s → cpus s !! c = Some ci →
  nmiop_send op c s = Ret (tt, set_events (EvNmi (ci_phys_id ci) :: c_events s)
                                 (put_ci c (set_nmiop (Z.lor (ci_nmiop ci) op) ci) s)).
Proof.
  intros Hw Hc. assert (is_Some (cpus s !! c)) as Hr%(wf_dom s Hw) by eauto.
  unfold nmiop_send. mrun (cpu_getinfo_run c s Hw (proj1 Hr)). rewrite bool_decide_true by apply Hr.
  mrun (ci_get_run c ci s Hc). unfold ci_put. mrun. unfold cpu_nmi, cpu_getinfo. mrun.
  pose proof (wf_num s Hw) as Hn. unfold HAL_MAXCPUS in Hn.
  rewrite (proj2 (Z.leb_gt HAL_MAXCPUS c)) by (unfold HAL_MAXCPUS; lia).
  rewrite bind_assoc. mrun. cbn [number_cpus set_cpus]. rewrite (proj2 (Z.leb_gt (number_cpus s) c)) by lia. mrun.
  set (ci' := set_nmiop _ ci). rewrite (bind_Ret _ _ _ _ _ (ci_get_run c ci' _ (lookup_insert_eq _ _ _))). done.
Qed.

(** The state after [nmiop_send op] to each of [js]. *)
Definition sent (op : Z) (js : list Z) s : cst X :=
  set_events (rev ((λ j, EvNmi (from_option ci_phys_id 0 (cpus s !! j))) <$> js) ++ c_events s)
    (set_cpus (number_cpus s) (cpu_phys_to_id s)
       (map_imap (λ c ci, Some (if decide (c ∈ js) then set_nmiop (Z.lor (ci_nmiop ci) op) ci else ci)) (cpus s)) s).

Lemma sent_lookup op js s c :
  cpus (sent op js s) !! c = (λ ci, if decide (c ∈ js) then set_nmiop (Z.lor (ci_nmiop ci) op) ci else ci) <$> cpus s !! c.
Proof. cbn. rewrite map_lookup_imap. by destruct (cpus s !! c). Qed.

Lemma sent_wf op js s : cpu_wf s → cpu_wf (sent op js s).
Proof.
  intros [H1 H2 H3 H4 H5 H6 H7 H8]. split; try done.
  - intros c. rewrite sent_lookup, fmap_is_Some. apply H2.
  - intros c ci. rewrite sent_lookup. intros (ci0 & Hc & ->)%fmap_Some. destruct (H3 c ci0 Hc). by case_decide.
Qed.

Lemma broadcast_run op mask s : cpu_wf s → 0 ≤ mask →
  foreach_cpumask mask (nmiop_send op) s = Ret (tt, sent op (mask_cpus (Z.land mask (cpus_active s))) s).
Proof.
  intros Hw Hm. rewrite foreach_cpumask_run by (done || apply Hw).
  set (js := mask_cpus _).
  assert (∀ j, j ∈ js → is_Some (cpus s !! j)) as Hjs.
  { intros j [Hj Hb]%elem_of_mask_cpus. rewrite Z.land_spec in Hb. apply andb_true_iff in Hb as [_ Hb]. by apply (wf_dom s Hw), (wf_act s Hw). }
  assert (NoDup js) as Hnd by apply mask_cpus_NoDup. clearbody js.
  destruct (for_each_inv js (nmiop_send op) (λ dn s', s' = sent op dn s) s) as (s' & Hrun & ->); [| |done].
  - unfold sent. cbn. rewrite map_imap_Some. destruct s; done.
  - intros dn j rest s1 Heq ->. destruct (Hjs j) as [ci Hci]; [rewrite Heq; set_solver|].
    assert (j ∉ dn) as Hj. { rewrite Heq in Hnd. apply NoDup_app in Hnd as (_ & Hx & _). intros Hin. exact (Hx j Hin (list_elem_of_here _ _)). }
    assert (cpus (sent op dn s) !! j = Some ci) as Hl by (rewrite sent_lookup, Hci; cbn; by rewrite decide_False).
    eexists. split; [exact (nmiop_send_run op j ci _ (sent_wf op dn s Hw) Hl)|].
    unfold sent, put_ci, set_events, set_cpus. cbn. f_equal.
    + apply map_eq. intros c. rewrite map_lookup_imap. destruct (decide (c = j)) as [->|Hc].
      * rewrite lookup_insert_eq, Hci. cbn. rewrite decide_True by set_solver. done.
      * rewrite lookup_insert_ne, map_lookup_imap by done. destruct (cpus s !! c); [|done]. cbn. do 2 f_equal.
        apply decide_ext. set_solver.
    + rewrite fmap_app, rev_app_distr. cbn. by rewrite Hci.
Qed.

Lemma has_lor_1 x : has (Z.lor x 1) 1 = true.
Proof.
  unfold has. apply negb_true_iff, Z.eqb_neq, (bit_nonzero _ 0). by rewrite Z.land_spec, Z.lor_spec, orb_true_r.
Qed.

(** Neither generation of a CPU is behind the kernel's. *)
Definition up_to_date (k l : ktlb) : Prop :=
  (0 <? tlbgen_cmp (kt_global k) (kt_global l)) = false ∧ (0 <? tlbgen_cmp (kt_normal k) (kt_normal l)) = false.

Lemma tlbgen_cmp_refl a : (0 <? tlbgen_cmp a a) = false.
Proof. unfold tlbgen_cmp. by rewrite Z.eqb_refl, Z.ltb_irrefl. Qed.

Lemma ktlb_update_up_to_date p ci s :
  c_data s = Some p → cpus s !! p = Some ci →
  ∃ ev k, cpu_ktlb_update s = Ret (tt, set_events ev (put_ci p (set_ktlb k ci) s)) ∧ up_to_date (c_ktlb s) k.
Proof.
  intros Hd Hc. destruct (cpu_ktlb_update_run p ci s Hd Hc) as (s' & ci' & Hrun & _ & [Hs' Hci'] & Hcase).
  exists (c_events s'), (ci_ktlb ci'). split; [by rewrite <- Hci', <- Hs'|].
  unfold up_to_date. case_bool; [|case_bool]; destruct Hcase as [_ Hk]; rewrite Hk; cbn; by rewrite ?tlbgen_cmp_refl.
Qed.

Lemma tlbflush_local_run p ci s :
  c_data s = Some p → cpus s !! p = Some ci →
  cpu_tlbflush_local s = Ret (tt, set_events (EvTlbop HAL_TLBOP_FLUSH :: c_events s)
    (put_ci p (set_ktlb (Ktlb (kt_global (ci_ktlb ci)) (kt_normal (c_ktlb s))) ci) s)).
Proof.
  intros Hd Hc. unfold cpu_tlbflush_local. mrun (curinfo_run p s Hd). mrun (ci_get_run p ci s Hc).
  unfold hal_cpu_tlbop, emit. change (HAL_TLBOP_FLUSH =? HAL_TLBOP_NONE) with false. mrun.
  exact (cas_normal_run p _ _ ci (set_events _ s) Hc eq_refl).
Qed.

Lemma cpu_id_run p ci s : c_data s = Some p → cpus s !! p = Some ci → cpu_id s = Ret (ci_cpu_id ci, s).
Proof. intros Hd Hc. unfold cpu_id. mrun (curinfo_run p s Hd). by mrun (ci_get_run p ci s Hc). Qed.

Lemma cpu_nmiop_run p ci s :
  cpu_wf s → c_data s = Some p → cpus s !! p = Some ci → has (ci_nmiop ci) NMIOP_KMAPUPDATE = true →
  ∃ ev k m, cpu_nmiop s = Ret (tt, set_tlbmap m (set_events ev (put_ci p (set_ktlb k ci) s))) ∧ up_to_date (c_ktlb s) k ∧
    ∀ i, Z.testbit m i = negb (bool_decide (i = p)) && Z.testbit (tlbmap s) i.
Proof.
  intros Hw Hd Hc Hop. pose proof (wf_num s Hw) as Hn. pose proof (wf_data s Hw p Hd) as Hp. unfold HAL_MAXCPUS in Hn.
  destruct (mask_clear_run (tlbmap s) p (wf_tlbmap s Hw)) as (m & Hm & _ & Hbits); [lia|].
  destruct (ktlb_update_up_to_date p ci s Hd Hc) as (ev & k & Hrun & Hk).
  unfold cpu_nmiop. mrun (curinfo_run p s Hd). mrun (ci_get_run p ci s Hc). rewrite Hop. cbn [when]. mrun Hrun.
  set (s1 := set_events ev _). assert (cpus s1 !! p = Some (set_ktlb k ci)) as Hc1 by apply lookup_insert_eq.
  destruct (has (ci_nmiop ci) NMIOP_TLBFLUSH); cbn [when].
  - mrun (tlbflush_local_run p _ s1 Hd Hc1). set (s2 := set_events _ (put_ci _ _ s1)).
    assert (∃ ci2, cpus s2 !! p = Some ci2 ∧ ci_cpu_id ci2 = p) as (ci2 & Hc2 & Hid).
    { eexists. split; [apply lookup_insert_eq|]. apply (wf_id s Hw p ci Hc). }
    mrun (cpu_id_run p ci2 s2 Hd Hc2). rewrite Hid. cbn [tlbmap set_events put_ci set_cpus s1 s2]. rewrite Hm. mrun.
    exists (EvTlbop HAL_TLBOP_FLUSH :: ev), (Ktlb (kt_global k) (kt_normal (c_ktlb s))), m. split; [|split; [|done]].
    + unfold s2, s1, set_tlbmap, put_ci, set_events, set_cpus. cbn. by rewrite insert_insert_eq.
    + split; [apply Hk|apply tlbgen_cmp_refl].
  - mrun. mrun (cpu_id_run p _ s1 Hd Hc1). replace (ci_cpu_id (set_ktlb k ci)) with p by (symmetry; apply (wf_id s Hw p ci Hc)).
    cbn [tlbmap set_events put_ci set_cpus s1]. rewrite Hm. mrun. by exists ev, k, m.
Qed.

(** Other CPUs may be interrupted. *)
Definition ok_cpu s : Prop := has (c_stflags s) NUXST_OKCPU = true ∧ c_apbooting s = 0 ∧ has (c_stflags s) NUXST_PANIC = false.

Lemma okcpu_run s : ok_cpu s → nux_status_okcpu s = Ret (true, s).
Proof. intros (H1 & H2 & _). unfold nux_status_okcpu, nux_status. mrun. by rewrite H1, H2. Qed.

(** C20. [kmap_commit] sends one NMI to each active CPU, in the order of their
    numbers, and asks it to update; the handler then brings the generations of
    that CPU up to date with the kernel's. *)
Theorem kmap_commit_correct s :
  cpu_wf s → ok_cpu s →
  let s1 := sent NMIOP_KMAPUPDATE (mask_cpus (cpus_active s)) s in
  kmap_commit s = Ret (tt, s1) ∧
  ∀ c, Z.testbit (cpus_active s) c = true →
    ∃ s2 ci2, hal_entry_nmi (set_data (Some c) s1) = Ret (tt, s2) ∧ c_ktlb s2 = c_ktlb s ∧
      cpus s2 !! c = Some ci2 ∧ up_to_date (c_ktlb s) (ci_ktlb ci2) ∧ ∀ c', c' ≠ c → cpus s2 !! c' = cpus s1 !! c'.
Proof.
  intros Hw Hok s1. split.
  - unfold kmap_commit, cpu_kmapupdate_broadcast, cpu_activemask. mrun (okcpu_run s Hok).
    unfold cpu_kmapupdate. rewrite broadcast_run; [by rewrite Z.land_diag|done|exact (proj1 (wf_active s Hw))].
  - intros c Hc. pose proof (wf_act s Hw c Hc) as Hr. destruct (proj2 (wf_dom s Hw c) Hr) as [ci Hci].
    assert (cpus s1 !! c = Some (set_nmiop (Z.lor (ci_nmiop ci) NMIOP_KMAPUPDATE) ci)) as Hci1.
    { unfold s1. rewrite sent_lookup, Hci. cbn. rewrite decide_True; [done|]. apply elem_of_mask_cpus.
      pose proof (wf_num s Hw). unfold HAL_MAXCPUS in *. split; [lia|done]. }
    set (s1' := set_data (Some c) s1). assert (cpu_wf s1') as Hw1.
    { destruct (sent_wf NMIOP_KMAPUPDATE (mask_cpus (cpus_active s)) s Hw). split; try done. by intros ? [= <-]. }
    destruct (cpu_nmiop_run c _ s1' Hw1 eq_refl Hci1 (has_lor_1 _)) as (ev & k & m & Hrun & Hk & _).
    unfold hal_entry_nmi, nux_status. mrun. change (c_stflags s1') with (c_stflags s). destruct Hok as (Hf & Hap & Hpan).
    rewrite Hpan. mrun (okcpu_run s1' (conj Hf (conj Hap Hpan))). cbn [negb].
    eexists _, _. split; [exact Hrun|]. split; [done|]. split; [apply lookup_insert_eq|]. split; [exact Hk|].
    intros c' Hne. by apply lookup_insert_ne.
Qed.

End wf.

(** * TLB generations *)

(** C39. A CPU that is [d] generations behind is found behind, unless the counter
    has wrapped in between and [d] is a multiple of 64. *)
Theorem tlbgen_cmp_behind c d :
  word64 c → 0 < d < 2 ^ 64 →
  (0 <? tlbgen_cmp (u64 (c + d)) c) = negb (bool_decide (2 ^ 64 ≤ c + d ∧ d `mod` 64 = 0)).
Proof.
  intros [H1 H2] Hd. assert (u64 (c + d) = if decide (2 ^ 64 ≤ c + d) then c + d - 2 ^ 64 else c + d) as Hu.
  { unfold u64. case_decide; [|apply Z.mod_small; lia]. symmetry. apply Z.mod_unique with 1; lia. }
  assert ((u64 (c + d)) `mod` 64 = c `mod` 64 ↔ d `mod` 64 = 0) as Hmod.
  { rewrite Hu. case_decide; Z.div_mod_to_equations; lia. }
  apply eq_true_iff_eq. rewrite tlbgen_cmp_pos, negb_true_iff, bool_decide_eq_false, Hmod, Hu.
  case_decide; split; intros H'; lia.
Qed.

Lemma tlbgen_cmp_behind_witness :
  (0 <? tlbgen_cmp (u64 (2 ^ 64 - 1 + 3)) (2 ^ 64 - 1)) = true ∧ (0 <? tlbgen_cmp (u64 (2 ^ 64 - 1 + 64)) (2 ^ 64 - 1)) = false.
Proof.
  split; [rewrite (tlbgen_cmp_behind (2 ^ 64 - 1) 3)|rewrite (tlbgen_cmp_behind (2 ^ 64 - 1) 64)]; try done; unfold word64; lia.
Defined.

(** * Masks of user maps *)

Section umap_masks.
Context {X : Type}.
Implicit Types s : cst X.

Definition loaded s (c u : Z) : Prop := ∃ ci, cpus s !! c = Some ci ∧ ci_umap ci = Some u.

(** The mask of a user map holds the CPUs that have it loaded. *)
Record masks_ok s : Prop := {
  mo_word u m : c_umaps s !! u = Some m → word64 (um_cpumask m);
  mo_bit u m c : c_umaps s !! u = Some m → (Z.testbit (um_cpumask m) c = true ↔ loaded s c u);
  mo_known c u : loaded s c u → is_Some (c_umaps s !! u);
}.

Lemma on_cpumask_run u f m m' s :
  c_umaps s !! u = Some m → f (um_cpumask m) = Some m' →
  on_cpumask u f s = Ret (tt, set_umaps (<[u := Umap (um_tlbop m) m']> (c_umaps s)) s).
Proof. intros Hu Hf. unfold on_cpumask. mrun. rewrite Hu. mrun. rewrite Hf. by mrun. Qed.

(** CPU [p] has switched to [o]. *)
Record switched s (p : Z) (o : option Z) s' : Prop := {
  sw_cpu : ∃ ci, cpus s !! p = Some ci ∧ cpus s' = <[p := set_umap o ci]> (cpus s);
  sw_umap v : match c_umaps s !! v with
              | None => c_umaps s' !! v = None
              | Some m => ∃ m', c_umaps s' !! v = Some m' ∧ um_tlbop m' = um_tlbop m ∧ word64 (um_cpumask m') ∧
                  ∀ i, Z.testbit (um_cpumask m') i = if decide (i = p) then bool_decide (o = Some v) else Z.testbit (um_cpumask m) i
              end;
}.

Lemma switched_masks s p o s' : masks_ok s → switched s p o s' → (∀ u, o = Some u → is_Some (c_umaps s !! u)) → masks_ok s'.
Proof.
  intros [Hw Hb Hk] [(ci & Hci & Hcs) Hu] Ho.
  assert (∀ c v, loaded s' c v ↔ if decide (c = p) then o = Some v else loaded s c v) as Hl.
  { intros c v. unfold loaded. rewrite Hcs. case_decide as E.
    - subst. rewrite lookup_insert_eq. split; [by intros (? & [= <-] & ?)|]. intros ->. by eexists.
    - by rewrite lookup_insert_ne by done. }
  assert (∀ v, is_Some (c_umaps s' !! v) ↔ is_Some (c_umaps s !! v)) as Hdom.
  { intros v. specialize (Hu v). destruct (c_umaps s !! v); [destruct Hu as (m' & -> & _)|rewrite Hu]; by split. }
  split.
  - intros v m' Hm'. specialize (Hu v). destruct (c_umaps s !! v); [|congruence]. destruct Hu as (? & ? & _ & ? & _). by simplify_eq.
  - intros v m' c Hm'. pose proof (Hu v) as Huv. destruct (c_umaps s !! v) as [m|] eqn:Em; [|congruence].
    destruct Huv as (m1 & Hm1 & _ & _ & Hbits). simplify_eq. rewrite Hbits, Hl. destruct (decide (c = p)); [|by apply Hb].
    by rewrite bool_decide_eq_true.
  - intros c v. rewrite Hl, Hdom. case_decide; [apply Ho|apply Hk].
Qed.

Context (hal_umap_load : option Z → M X Z).

(** [hal_umap_load] returns. *)
Definition loads (o : option Z) (x : X) : Prop := ∃ op x', hal_umap_load o x = Ret (op, x').

Lemma load_run o s : loads o (c_mach s) → ∃ s', (op ← on_cmach (hal_umap_load o); hal_cpu_tlbop op) s = Ret (tt, s') ∧
  cpus s' = cpus s ∧ c_umaps s' = c_umaps s ∧ c_data s' = c_data s ∧ (cpu_wf s → cpu_wf s').
Proof.
  intros (op & x' & Hrun).
  unfold on_cmach, hal_cpu_tlbop, emit. rewrite (bind_Ret _ _ s op (set_cmach x' s)) by (unfold zoom; by rewrite Hrun).
  case_bool; (eexists; split; [done|]; split_and!; try done; intros []; by split).
Qed.

Lemma umap_current_run p ci s : c_data s = Some p → cpus s !! p = Some ci → cpu_umap_current s = Ret (ci_umap ci, s).
Proof. intros Hd Hc. unfold cpu_umap_current. mrun (curinfo_run p s Hd). by mrun (ci_get_run p ci s Hc). Qed.

(** CPU [p] is in no mask any more. *)
Definition left (p : Z) (ms ms' : gmap Z umap_t) : Prop := ∀ v,
  match ms !! v with
  | None => ms' !! v = None
  | Some m => ∃ m', ms' !! v = Some m' ∧ um_tlbop m' = um_tlbop m ∧ word64 (um_cpumask m') ∧
      ∀ i, Z.testbit (um_cpumask m') i = negb (bool_decide (i = p)) && Z.testbit (um_cpumask m) i
  end.

Lemma not_loaded_bit s p ci v m : masks_ok s → cpus s !! p = Some ci → ci_umap ci ≠ Some v → c_umaps s !! v = Some m →
  ∀ i, Z.testbit (um_cpumask m) i = negb (bool_decide (i = p)) && Z.testbit (um_cpumask m) i.
Proof.
  intros Hm Hc Hu Hv i. case_bool_decide as E; [subst i|done]. cbn. apply not_true_is_false.
  rewrite (mo_bit s Hm v m p Hv). intros (ci2 & Hc2 & Hu2). congruence.
Qed.

Lemma leave_none s p ci : masks_ok s → cpus s !! p = Some ci → ci_umap ci = None → left p (c_umaps s) (c_umaps s).
Proof.
  intros Hm Hc Hu v. destruct (c_umaps s !! v) as [m|] eqn:Ev; [|done]. exists m. split_and!; try done; [by eapply mo_word|].
  apply (not_loaded_bit s p ci v); [done..|congruence|done].
Qed.

Lemma leave_some s p ci cu :
  cpu_wf s → masks_ok s → cpus s !! p = Some ci → ci_umap ci = Some cu →
  ∃ m m', c_umaps s !! cu = Some m ∧ atomic_cpumask_clear (um_cpumask m) p = Some m' ∧
    left p (c_umaps s) (<[cu := Umap (um_tlbop m) m']> (c_umaps s)).
Proof.
  intros Hw Hm Hc Eu. destruct (mo_known s Hm p cu) as [m Hcu]; [by exists ci|].
  assert (is_Some (cpus s !! p)) as Hp%(wf_dom s Hw) by eauto. pose proof (wf_num s Hw) as Hn. unfold HAL_MAXCPUS in Hn.
  destruct (mask_clear_run (um_cpumask m) p (mo_word s Hm _ _ Hcu)) as (m' & Hf & Hw' & Hbits); [lia|].
  exists m, m'. split_and!; [done..|]. intros v.
  destruct (decide (v = cu)) as [->|Hv]; [rewrite Hcu, lookup_insert_eq; by eexists|]. rewrite lookup_insert_ne by done.
  destruct (c_umaps s !! v) as [mv|] eqn:Ev; [|done]. exists mv. split_and!; try done; [by eapply mo_word|].
  apply (not_loaded_bit s p ci v); [done..|congruence|done].
Qed.

Lemma put_ci_wf s p ci ci' : cpu_wf s → cpus s !! p = Some ci → ci_cpu_id ci' = ci_cpu_id ci → ci_phys_id ci' = ci_phys_id ci →
  cpu_wf (put_ci p ci' s).
Proof.
  intros [H1 H2 H3 H4 H5 H6 H7 H8] Hc Hi Hp. split; try done.
  - intros c. cbn. destruct (decide (c = p)) as [->|Hne]; [|by rewrite lookup_insert_ne by done].
    rewrite lookup_insert_eq, <- H2, Hc. by split.
  - intros c ci2. cbn. destruct (decide (c = p)) as [->|Hne]; [|rewrite lookup_insert_ne by done; apply H3].
    rewrite lookup_insert_eq. intros [= <-]. rewrite Hi, Hp. by apply H3.
Qed.

Lemma umap_enter_run p u s :
  cpu_wf s → masks_ok s → c_data s = Some p → is_Some (c_umaps s !! u) → loads (Some u) (c_mach s) →
  ∃ s', cpu_umap_enter hal_umap_load u s = Ret (tt, s') ∧ switched s p (Some u) s' ∧ cpu_wf s'.
Proof.
  intros Hw Hm Hd [mu Hmu] Hload. destruct (proj2 (wf_dom s Hw p) (wf_data s Hw p Hd)) as [ci Hc].
  destruct (wf_id s Hw p ci Hc) as [Hid _]. unfold cpu_umap_enter. mrun (umap_current_run p ci s Hd Hc).
  case_bool_decide as Hu.
  { exists s. split; [done|]. split; [|done]. split.
    - exists ci. split; [done|]. rewrite insert_id; [done|]. rewrite Hc, <- Hu. by destruct ci.
    - intros v. destruct (c_umaps s !! v) as [m|] eqn:Ev; [|done]. exists m. split_and!; try done; [by eapply mo_word|].
      intros i. case_decide as Hi; [|done]. subst i. apply eq_true_iff_eq. rewrite (mo_bit s Hm v m p Ev), bool_decide_eq_true.
      unfold loaded. rewrite Hc, <- Hu. split; [by intros (? & [= <-] & ?)|by eexists]. }
  assert (∃ ms, (match ci_umap ci with
         | Some cu => me ← cpu_id; on_cpumask cu (λ m, atomic_cpumask_clear m me)
         | None => mret tt
         end) s = Ret (tt, set_umaps ms s) ∧ left p (c_umaps s) ms) as (ms & Hrun & Hleft).
  { destruct (ci_umap ci) as [cu|] eqn:Eu.
    - destruct (leave_some s p ci cu Hw Hm Hc Eu) as (m & m' & Hcu & Hcl & Hleft). eexists. split; [|exact Hleft].
      mrun (cpu_id_run p ci s Hd Hc). rewrite Hid. by apply on_cpumask_run.
    - exists (c_umaps s). split; [by destruct s|]. by eapply leave_none. }
  mrun Hrun. set (s1 := set_umaps ms s).
  mrun (curinfo_run p s1 Hd). mrun (ci_get_run p ci s1 Hc). unfold ci_put. mrun. set (s2 := set_cpus _ _ _ s1).
  assert (cpus s2 !! p = Some (set_umap (Some u) ci)) as Hc2 by apply lookup_insert_eq.
  mrun (cpu_id_run p _ s2 Hd Hc2). change (ci_cpu_id (set_umap (Some u) ci)) with (ci_cpu_id ci). rewrite Hid.
  pose proof (Hleft u) as Hl. rewrite Hmu in Hl. destruct Hl as (m1 & Hm1 & Hop1 & Hw1 & Hb1).
  destruct (mask_set_run (um_cpumask m1) p Hw1) as (m2 & Hset & Hw2 & Hb2).
  { pose proof (wf_num s Hw). pose proof (wf_data s Hw p Hd). unfold HAL_MAXCPUS in *. lia. }
  mrun (on_cpumask_run u (λ m, atomic_cpumask_set m p) m1 m2 s2 Hm1 Hset).
  destruct (load_run (Some u) (set_umaps (<[u := Umap (um_tlbop m1) m2]> (c_umaps s2)) s2) Hload) as (s' & Hl' & Hcs & Hus & _ & Hwf).
  exists s'. split; [exact Hl'|]. split.
  - split; [exists ci; split; [done|exact Hcs]|]. intros v. rewrite Hus. cbn. specialize (Hleft v).
    destruct (decide (v = u)) as [->|Hv].
    + rewrite Hmu, lookup_insert_eq. eexists. split; [done|]. cbn. split_and!; [congruence|done|]. intros i. rewrite Hb2, Hb1.
      case_decide as E; case_bool_decide; try done. cbn. by rewrite bool_decide_true.
    + destruct (c_umaps s !! v) as [m|]; rewrite lookup_insert_ne by done; [|done].
      destruct Hleft as (mv & ? & ? & ? & Hbv). exists mv. split_and!; try done. intros i. rewrite Hbv.
      case_decide; case_bool_decide as E2; try done. cbn. rewrite bool_decide_false; [done|congruence].
  - apply Hwf. assert (cpu_wf s1) as Hws1 by (destruct Hw; by split).
    destruct (put_ci_wf s1 p ci (set_umap (Some u) ci) Hws1 Hc eq_refl eq_refl). by split.
Qed.

Lemma umap_exit_run p s :
  cpu_wf s → masks_ok s → c_data s = Some p → loads None (c_mach s) →
  ∃ r s', cpu_umap_exit hal_umap_load s = Ret (r, s') ∧ switched s p None s' ∧ cpu_wf s' ∧ ∀ v, r = Some v ↔ loaded s p v.
Proof.
  intros Hw Hm Hd Hload. destruct (proj2 (wf_dom s Hw p) (wf_data s Hw p Hd)) as [ci Hc].
  destruct (wf_id s Hw p ci Hc) as [Hid _].
  assert (∀ v, ci_umap ci = Some v ↔ loaded s p v) as Hl.
  { intros v. unfold loaded. rewrite Hc. split; [by eexists|by intros (? & [= <-] & ?)]. }
  destruct (load_run None s Hload) as (s1 & Hl1 & Hcs & Hus & Hd1 & Hwf). specialize (Hwf Hw). rewrite Hd in Hd1. rewrite <- Hcs in Hc.
  unfold cpu_umap_exit. rewrite <- (bind_assoc _ (λ op, hal_cpu_tlbop op) (λ _, _) s). mrun Hl1. mrun (umap_current_run p ci s1 Hd1 Hc).
  destruct (ci_umap ci) as [cu|] eqn:Eu.
  - mrun (curinfo_run p s1 Hd1). mrun (ci_get_run p ci s1 Hc). unfold ci_put. mrun. set (s2 := set_cpus _ _ _ s1).
    assert (cpus s2 !! p = Some (set_umap (clear_byte cu) ci)) as Hc2 by apply lookup_insert_eq.
    mrun (cpu_id_run p _ s2 Hd1 Hc2). change (ci_cpu_id (set_umap (clear_byte cu) ci)) with (ci_cpu_id ci). rewrite Hid.
    rewrite Hcs in Hc. destruct (leave_some s p ci cu Hw Hm Hc Eu) as (m & m' & Hcu & Hcl & Hleft). rewrite <- Hcs in Hc.
    assert (c_umaps s2 !! cu = Some m) as Hcu2 by (cbn; by rewrite Hus).
    mrun (on_cpumask_run cu (λ m, atomic_cpumask_clear m p) m m' s2 Hcu2 Hcl). set (s3 := set_umaps _ s2).
    mrun (ci_get_run p _ s3 Hc2). eexists (Some cu), _. split; [done|]. split; [split|split; [|done]].
    + exists ci. rewrite <- Hcs. split; [done|]. cbn. by rewrite insert_insert_eq.
    + intros v. specialize (Hleft v). cbn. rewrite Hus. destruct (c_umaps s !! v) as [mv|]; [|done].
      destruct Hleft as (m1 & ? & ? & ? & Hb). exists m1. split_and!; try done. intros i. rewrite Hb. case_decide; case_bool_decide; done.
    + assert (cpu_wf s3) as Hw3 by (destruct (put_ci_wf s1 p ci (set_umap (clear_byte cu) ci) Hwf Hc eq_refl eq_refl); by split).
      exact (put_ci_wf s3 p _ (set_umap None (set_umap (clear_byte cu) ci)) Hw3 Hc2 eq_refl eq_refl).
  - exists None, s1. split; [done|]. split; [split|split; [done|done]].
    + exists ci. rewrite <- Hcs. split; [done|]. rewrite insert_id; [done|]. rewrite Hc, <- Eu. by destruct ci.
    + rewrite Hcs in Hc. intros v. rewrite Hus. pose proof (leave_none s p ci Hm Hc Eu v) as Hleft.
      destruct (c_umaps s !! v) as [mv|]; [|done].
      destruct Hleft as (m1 & ? & ? & ? & Hb). exists m1. split_and!; try done. intros i. rewrite Hb. case_decide; case_bool_decide; done.
Qed.

(** C26. When a CPU enters a user map, the map is loaded and its mask gains the
    CPU, which the mask of the map it leaves loses, if the HAL's function that loads
    it returns. When it exits, it has no map
    loaded and is in no mask. The masks keep holding the CPUs that have the map
    loaded. *)
Theorem umap_switch_correct p u s :
  cpu_wf s → masks_ok s → c_data s = Some p → is_Some (c_umaps s !! u) → loads (Some u) (c_mach s) → loads None (c_mach s) →
  (∃ s', cpu_umap_enter hal_umap_load u s = Ret (tt, s') ∧ switched s p (Some u) s' ∧ cpu_wf s' ∧ masks_ok s') ∧
  (∃ r s', cpu_umap_exit hal_umap_load s = Ret (r, s') ∧ switched s p None s' ∧ cpu_wf s' ∧ masks_ok s' ∧
     ∀ v, r = Some v ↔ loaded s p v).
Proof.
  intros Hw Hm Hd Hu Hlu Hln. split.
  - destruct (umap_enter_run p u s Hw Hm Hd Hu Hlu) as (s' & Hrun & Hsw & Hw'). exists s'. split_and!; try done.
    eapply switched_masks; [done..|]. by intros ? [= <-].
  - destruct (umap_exit_run p s Hw Hm Hd Hln) as (r & s' & Hrun & Hsw & Hw' & Hr). exists r, s'. split_and!; try done; [|apply Hr..].
    by eapply switched_masks.
Qed.

(** [umap_commit] sends one flush to each active CPU that has the map loaded,
    and to no other. *)
Theorem umap_commit_correct u m s :
  cpu_wf s → masks_ok s → c_umaps s !! u = Some m →
  ∃ js, umap_commit u s = Ret (tt, sent NMIOP_TLBFLUSH js (set_umaps (<[u := Umap (Z.ldiff (um_tlbop m) 0xff) (um_cpumask m)]> (c_umaps s)) s)) ∧
    NoDup js ∧ ∀ c, c ∈ js ↔ Z.testbit (cpus_active s) c = true ∧ loaded s c u.
Proof.
  intros Hw Hm Hu. exists (mask_cpus (Z.land (um_cpumask m) (cpus_active s))). split; [|split; [apply mask_cpus_NoDup|]].
  - unfold umap_commit. mrun. rewrite Hu. mrun. unfold cpu_tlbflush_mask, cpu_tlbflush. rewrite broadcast_run; [done|destruct Hw; by split|].
    by apply (mo_word s Hm u).
  - intros c. rewrite elem_of_mask_cpus, Z.land_spec, andb_true_iff, (mo_bit s Hm u m c Hu). split; [tauto|]. intros [Ha Hl].
    pose proof (wf_act s Hw c Ha). pose proof (wf_num s Hw). unfold HAL_MAXCPUS in *. split; [lia|tauto].
Qed.

End umap_masks.

(** * Accesses to user memory *)

Section access.
Context {X : Type} (ub us addr size : Z).
Context (access : M X (option (Z * Z))) (ho : option (Z → Z → M X bool)).
Implicit Types s : cst X.

(** No handler refuses every fault. *)
Definition h : Z → Z → M X bool := default (λ _ _, mret false) ho.

(** The accesses and page faults of one copy: it completes, or the handler
    refuses a fault. *)
Inductive copied : X → bool → X → Prop :=
  | copied_done x x' : access x = Ret (None, x') → copied x true x'
  | copied_refused x va info x1 x' :
      access x = Ret (Some (va, info), x1) → h va info x1 = Ret (false, x') → copied x false x'
  | copied_retry x va info x1 x2 ok x' :
      access x = Ret (Some (va, info), x1) → h va info x1 = Ret (true, x2) → copied x2 ok x' → copied x ok x'.

(** The access stays in the range, and the handler returns. [μ] bounds the
    faults that are left: an accepted fault is a fault less. *)
Record guarded (μ : X → nat) : Prop := {
  g_access x : ∃ r x', access x = Ret (r, x') ∧ ∀ va info, r = Some (va, info) → addr ≤ va < addr + size;
  g_handler x va info x' : access x = Ret (Some (va, info), x') →
    ∃ ok x2, h va info x' = Ret (ok, x2) ∧ (ok = true → (μ x2 < μ x)%nat);
}.

(** A valid range lies in the user area. *)
Lemma validrange_valid a n va :
  word64 ub → word64 us → word64 a → word64 n → uaddr_validrange ub us a n = true → a ≤ va < a + n → uaddr_valid ub us va = true.
Proof.
  unfold word64, uaddr_validrange, uaddr_valid, UADDR_INVALID. intros Hb Hs Ha Hn.
  destruct (Z.ltb_spec (2 ^ 64 - 1 - ub) us) as [|H1]; [done|]. rewrite (u64_small (ub + us)) by (unfold word64; lia).
  destruct (Z.eqb_spec n 0); [lia|]. destruct (Z.ltb_spec a ub); [done|].
  destruct (Z.ltb_spec (2 ^ 64 - 1 - a) (n - 1)); [done|]. rewrite u64_small by (unfold word64; lia).
  intros H5%Z.ltb_lt Hva. apply andb_true_iff. split; [apply Z.leb_le|apply Z.ltb_lt]; lia.
Qed.

Definition handler : option (Z → Z → M (cst X) bool) := (λ f va info, on_cmach (f va info)) <$> ho.

Lemma handler_run va info ok x2 s : h va info (c_mach s) = Ret (ok, x2) →
  (match handler with None => mret false | Some f => f va info end) s = Ret (ok, set_cmach x2 s).
Proof.
  unfold h, handler. destruct ho as [f|]; cbn.
  - intros Hf. unfold on_cmach, zoom. by rewrite Hf.
  - intros [= <- <-]. by destruct s.
Qed.

Lemma useraccess_end_run p ci s : c_data s = Some p → cpus s !! p = Some ci →
  cpu_useraccess_end s = Ret (tt, set_events (EvUserEnd :: c_events s) (put_ci p (set_usrpg 0 0 0 ci) s)).
Proof.
  intros Hd Hc. unfold cpu_useraccess_end, emit. mrun (curinfo_run p s Hd). set (s1 := set_events _ s). by mrun (ci_get_run p ci s1 Hc).
Qed.

Lemma kernel_pf_run p ci va info s :
  c_data s = Some p → cpus s !! p = Some ci → ci_usrpgfault ci ≠ 0 → uaddr_valid ub us va = true →
  kernel_pf ub us va info s = Ret (tt, put_ci p (set_usrpg (ci_usrpgfault ci) va info ci) s).
Proof.
  intros Hd Hc Hf Hv. unfold kernel_pf, cpu_useraccess_checkpf. rewrite Hv, bind_assoc. mrun (curinfo_run p s Hd).
  rewrite bind_assoc. mrun (ci_get_run p ci s Hc). apply Z.eqb_neq in Hf. rewrite Hf. cbn [negb]. rewrite bind_assoc. unfold ci_put. by mrun.
Qed.

Lemma useraccess_loop_run μ fuel : ∀ s p ci,
  guarded μ → (∀ va, addr ≤ va < addr + size → uaddr_valid ub us va = true) →
  c_data s = Some p → cpus s !! p = Some ci → ci_usrpgfault ci ≠ 0 → (μ (c_mach s) < fuel)%nat →
  ∃ ok x', copied (c_mach s) ok x' ∧
    useraccess_loop ub us fuel handler access s =
      Ret (ok, set_events (EvUserEnd :: c_events s) (put_ci p (set_usrpg 0 0 0 ci) (set_cmach x' s))).
Proof.
  induction fuel as [|fuel IH]; intros s p ci Hg Hv Hd Hc Hf Hlt; [lia|]. cbn [useraccess_loop].
  destruct (g_access μ Hg (c_mach s)) as (r & x1 & Ha & Hr).
  rewrite (bind_Ret _ _ s r (set_cmach x1 s)) by (unfold on_cmach, zoom; by rewrite Ha). set (s1 := set_cmach x1 s).
  destruct r as [[va info]|].
  - specialize (Hv va (Hr va info eq_refl)) as Hva. mrun (kernel_pf_run p ci va info s1 Hd Hc Hf Hva).
    set (ci2 := set_usrpg _ va info ci). set (s2 := put_ci p ci2 s1).
    assert (cpus s2 !! p = Some ci2) as Hc2 by apply lookup_insert_eq.
    mrun (curinfo_run p s2 Hd). mrun (ci_get_run p ci2 s2 Hc2).
    destruct (g_handler μ Hg _ _ _ _ Ha) as (ok & x2 & Hh & Hdec). mrun (handler_run va info ok x2 s2 Hh).
    set (s3 := set_cmach x2 s2). destruct ok; cbn [negb].
    + unfold cpu_useraccess_reset. rewrite bind_assoc. mrun (curinfo_run p s3 Hd). rewrite bind_assoc. mrun (ci_get_run p ci2 s3 Hc2).
      unfold ci_put. mrun. set (ci4 := set_usrpg _ 0 0 ci2). set (s4 := set_cpus _ _ _ s3).
      destruct (IH s4 p ci4) as (ok & x' & Hcp & Hrun); try done; [apply lookup_insert_eq|cbn; specialize (Hdec eq_refl); lia|].
      exists ok, x'. split; [by eapply copied_retry|]. rewrite Hrun. do 2 f_equal.
      unfold s4, s3, s2, s1, put_ci, set_events, set_cpus, set_cmach. cbn. by rewrite !insert_insert_eq.
    + exists false, x2. split; [by eapply copied_refused|]. mrun (useraccess_end_run p ci2 s3 Hd Hc2). do 2 f_equal.
      unfold s3, s2, s1, put_ci, set_events, set_cpus, set_cmach. cbn. by rewrite insert_insert_eq.
  - exists true, x1. split; [by constructor|]. by mrun (useraccess_end_run p ci s1 Hd Hc).
Qed.

(** C23. A guarded access to user memory fails at once, changing nothing, when its
    range is not in the user area. Otherwise it returns: the copy has completed,
    or the handler has refused a fault, and in both cases the access to user
    memory is closed and a later fault is not taken for one of it. *)
Theorem useraccess_correct μ fuel p ci s :
  word64 ub → word64 us → word64 addr → word64 size →
  guarded μ → c_data s = Some p → cpus s !! p = Some ci → (μ (c_mach s) < fuel)%nat →
  if uaddr_validrange ub us addr size then
    ∃ ok x', copied (c_mach s) ok x' ∧
      cpu_useraccess ub us fuel addr size handler access s =
        Ret (ok, set_events (EvUserEnd :: EvUserStart :: c_events s) (put_ci p (set_usrpg 0 0 0 ci) (set_cmach x' s)))
  else cpu_useraccess ub us fuel addr size handler access s = Ret (false, s).
Proof.
  intros Hub Hus Haddr Hsize Hg Hd Hc Hlt. unfold cpu_useraccess. mrun (curinfo_run p s Hd).
  destruct (uaddr_validrange ub us addr size) eqn:Ev; [|done]. cbn [negb]. unfold cpu_useraccess_start, emit. mrun.
  set (s1 := set_events _ s). mrun (ci_get_run p ci s1 Hc). unfold ci_put. mrun. set (ci1 := set_usrpg 1 _ _ ci). set (s2 := set_cpus _ _ _ s1).
  assert (cpus s2 !! p = Some ci1) as Hc2 by apply lookup_insert_eq.
  destruct (useraccess_loop_run μ fuel s2 p ci1) as (ok & x' & Hcp & Hrun); try done.
  { intros va Hva. by apply (validrange_valid addr size). }
  exists ok, x'. split; [done|]. rewrite Hrun. do 2 f_equal. unfold s2, s1, put_ci, set_events, set_cpus, set_cmach. cbn. by rewrite insert_insert_eq.
Qed.

End access.

(** * Examples *)

Definition ex_ci (id phys : Z) (u : option Z) : cpu_info := Ci id phys u false 0 (Ktlb 0 0) 0 0 0 0.

Definition ex_boot : cst unit := Cst 0 (replicate 64 0) ∅ 0 0 (Ktlb 0 0) NUXST_OKPLT 0 ∅ None [] tt.

Lemma cpu_init_correct_witness :
  ∃ s c ci, cpu_init [(3, Some (ex_ci 9 9 None)); (70, Some (ex_ci 9 9 None)); (0, Some (ex_ci 9 9 None))] 0 ex_boot = Ret (tt, s) ∧
    cpu_wf s ∧ number_cpus s = 2 ∧ c_data s = Some c ∧ cpus s !! c = Some ci ∧ ci_phys_id ci = 0.
Proof.
  destruct (cpu_init_correct [(3, Some (ex_ci 9 9 None)); (70, Some (ex_ci 9 9 None)); (0, Some (ex_ci 9 9 None))] 0 ex_boot)
    as (s & c & ci & H1 & H2 & H3 & H4 & H5 & H6 & H7 & H8).
  - by split.
  - apply (bool_decide_unpack _). by vm_compute.
  - intros p Hp. cbn in Hp. rewrite !elem_of_cons in Hp. destruct Hp as [->|[->|[->|[]%not_elem_of_nil]]]; lia.
  - intros q Hq. rewrite !elem_of_cons in Hq. destruct Hq as [->|[->|[->|[]%not_elem_of_nil]]]; by eexists.
  - apply list_elem_of_filter. cbn. split; [done|]. rewrite !elem_of_cons. auto.
  - by exists s, c, ci.
Defined.

(** Two CPUs, both active; the second one has the user map 0x5000 loaded. *)
Definition ex_cpus : cst unit :=
  Cst 2 (<[7%nat := 1]> (replicate 64 0)) (<[0 := ex_ci 0 0 None]> {[1 := ex_ci 1 7 (Some 0x5000)]}) 0 3 (Ktlb 5 9)
    (Z.lor NUXST_OKPLT NUXST_OKCPU) 0 (<[0x6000 := Umap 0 0]> {[0x5000 := Umap 0 2]}) (Some 1) [] tt.

Lemma ex_cpus_lookup c ci : cpus ex_cpus !! c = Some ci → (c = 0 ∧ ci = ex_ci 0 0 None) ∨ (c = 1 ∧ ci = ex_ci 1 7 (Some 0x5000)).
Proof. cbn. intros [[<- <-]|[_ [<- <-]%lookup_singleton_Some]]%lookup_insert_Some; auto. Qed.

Lemma ex_bits_3 c : Z.testbit 3 c = true → c = 0 ∨ c = 1.
Proof.
  intros Hb. destruct (decide (c < 0)); [by rewrite Z.testbit_neg_r in Hb by done|].
  destruct (decide (2 ≤ c)); [by rewrite (testbit_above 3 2) in Hb by (done || lia)|lia].
Qed.

Lemma ex_cpus_wf : cpu_wf ex_cpus.
Proof.
  split; try done.
  - intros c. split.
    + intros [ci [[-> _]|[-> _]]%ex_cpus_lookup]; done.
    + intros Hc. cbn in Hc. assert (c = 0 ∨ c = 1) as [->| ->] by lia; by eexists.
  - intros c ci [[-> ->]|[-> ->]]%ex_cpus_lookup; done.
  - intros c [->| ->]%ex_bits_3; done.
  - by intros ? [= <-].
Qed.

Lemma ex_cpus_masks : masks_ok ex_cpus.
Proof.
  assert (∀ c u, loaded ex_cpus c u ↔ c = 1 ∧ u = 0x5000) as Hl.
  { intros c u. split.
    - intros (ci & [[-> ->]|[-> ->]]%ex_cpus_lookup & Hu); cbn in Hu; by simplify_eq.
    - intros [-> ->]. by eexists. }
  assert (∀ u m, c_umaps ex_cpus !! u = Some m → (u = 0x6000 ∧ m = Umap 0 0) ∨ (u = 0x5000 ∧ m = Umap 0 2)) as Hm.
  { intros u m. cbn. intros [[<- <-]|[_ [<- <-]%lookup_singleton_Some]]%lookup_insert_Some; auto. }
  split.
  - intros u m [[-> ->]|[-> ->]]%Hm; done.
  - intros u m c [[-> ->]|[-> ->]]%Hm; rewrite Hl; cbn [um_cpumask].
    + rewrite Z.bits_0. split; [done|by intros []].
    + change 2 with (2 ^ 1). rewrite testbit_pow2, bool_decide_eq_true by done. tauto.
  - intros c u [-> ->]%Hl. by eexists.
Qed.

Lemma kmap_commit_correct_witness :
  ∃ s1 s2 ci2, kmap_commit ex_cpus = Ret (tt, s1) ∧ c_events s1 = [EvNmi 7; EvNmi 0] ∧
    hal_entry_nmi (set_data (Some 0) s1) = Ret (tt, s2) ∧ cpus s2 !! 0 = Some ci2 ∧ up_to_date (Ktlb 5 9) (ci_ktlb ci2).
Proof.
  destruct (kmap_commit_correct ex_cpus ex_cpus_wf) as [Hrun Hnmi]; [done|].
  destruct (Hnmi 0 eq_refl) as (s2 & ci2 & H2 & _ & Hc & Hu & _).
  eexists _, s2, ci2. split; [exact Hrun|]. split; [by vm_compute|]. split; [exact H2|]. by split.
Defined.

Lemma umap_switch_correct_witness :
  (∃ s', cpu_umap_enter (λ _, mret HAL_TLBOP_FLUSH) 0x6000 ex_cpus = Ret (tt, s') ∧ switched ex_cpus 1 (Some 0x6000) s') ∧
  (∃ s', cpu_umap_exit (λ _, mret HAL_TLBOP_FLUSH) ex_cpus = Ret (Some 0x5000, s') ∧ switched ex_cpus 1 None s').
Proof.
  destruct (umap_switch_correct (λ _, mret HAL_TLBOP_FLUSH) 1 0x6000 ex_cpus
    ex_cpus_wf ex_cpus_masks eq_refl ltac:(by eexists) ltac:(by eexists _, _) ltac:(by eexists _, _)) as [(s1 & H1 & H2 & _) (r & s2 & H3 & H4 & _ & _ & H5)].
  split; [by exists s1|]. exists s2. rewrite (proj2 (H5 0x5000)) in H3; [done|]. by eexists.
Defined.

Lemma umap_commit_correct_witness :
  ∃ js, umap_commit 0x5000 ex_cpus = Ret (tt, sent NMIOP_TLBFLUSH js (set_umaps (<[0x5000 := Umap 0 2]> (c_umaps ex_cpus)) ex_cpus)) ∧ 1 ∈ js.
Proof.
  destruct (umap_commit_correct 0x5000 (Umap 0 2) ex_cpus ex_cpus_wf ex_cpus_masks eq_refl) as (js & H1 & _ & H2).
  exists js. split; [exact H1|]. apply H2. split; [done|]. by eexists.
Defined.

(** A copy of 16 bytes that faults until the handler has mapped two pages. *)
Definition ex_access : M nat (option (Z * Z)) := λ x, Ret (match x with O => None | S _ => Some (0x2000, 0) end, x).
Definition ex_handler : Z → Z → M nat bool := λ _ _ x, Ret (true, pred x).
Definition ex_user : cst nat :=
  Cst 1 (replicate 64 0) {[0 := ex_ci 0 0 None]} 0 1 (Ktlb 5 9) (Z.lor NUXST_OKPLT NUXST_OKCPU) 0 ∅ (Some 0) [] 2%nat.

Lemma useraccess_correct_witness :
  ∃ ok x', copied ex_access (Some ex_handler) 2%nat ok x' ∧
    cpu_useraccess 0x1000 0x100000 3 0x2000 16 (handler (Some ex_handler)) ex_access ex_user =
      Ret (ok, set_events [EvUserEnd; EvUserStart] (put_ci 0 (ex_ci 0 0 None) (set_cmach x' ex_user))).
Proof.
  apply (useraccess_correct 0x1000 0x100000 0x2000 16 ex_access (Some ex_handler) id 3 0 (ex_ci 0 0 None) ex_user); try done; [|cbn; lia].
  split.
  - intros x. eexists _, x. split; [done|]. intros va info. destruct x; [done|]. intros [= <- <-]. lia.
  - intros x va info x' Ha. eexists true, _. split; [done|]. intros _. unfold ex_access in Ha. destruct x; simplify_eq. cbn. lia.
Defined.
