(* ===== verification/Tlb.v ===== *)
(** Keeping the TLBs of all CPUs in step with the kernel's page tables: the
    memory accesses of [kmap_map] and its kin (libnux/kmap.c),
    [ktlbgen_markdirty] (libnux/ktlbgen.c), [kmap_commit] and the functions of
    libnux/cpu.c that an NMI runs, interleaved in every way. *)

From S2P Require Import Prelude Words Locks Machine Hal PageTable Space UmapFree Kmap Umap Cpu.

(** * The machine *)

(** A cached translation: whether it is global, and how many changes of each
    kind had been made to the page tables when it was read from them. *)
Record tlbe : Set := Tlbe { te_glob : bool; te_n : Z; te_g : Z }.

(** [cpu_ktlb_update], by the value of its local variables: [cpu_global],
    [cpu_normal], [kglobal] and [knormal]. *)
Inductive upc : Set :=
  | U_start
  | U_normal (lg : Z)
  | U_kglobal (lg ln : Z)
  | U_knormal (lg ln kg : Z)
  | U_test (lg ln kg kn : Z)
  | U_flushall (lg ln kg kn : Z)
  | U_casg (lg ln kg kn : Z)
  | U_casgn (ln kn : Z)
  | U_flush (ln kn : Z)
  | U_casn (ln kn : Z).

(** [cpu_tlbflush_local]. *)
Inductive fpc : Set :=
  | F_start
  | F_normal (kn : Z)
  | F_flush (kn ln : Z)
  | F_cas (kn ln : Z).

(** [cpu_nmiop]. *)
Inductive npc : Set :=
  | N_start
  | N_update (op : Z)
  | N_flush (op : Z)
  | N_clear.

(** A change of a kernel mapping: the entry is written, then the change is
    marked. [new] is [None] for an unmapping, and tells whether the new entry is
    global otherwise. *)
Inductive mpc : Set :=
  | M_write (va : Z) (new : option bool)
  | M_mark (op : Z).

(** [kmap_commit]: what remains of the loop over the CPUs. *)
Inductive bpc : Set :=
  | B_set (js : list Z)
  | B_nmi (j : Z) (js : list Z).

Inductive frame : Set :=
  | Upd (u : upc)
  | Fls (f : fpc)
  | Nmi (n : npc)
  | Map (m : mpc)
  | Bcast (b : bpc).

(** A CPU: what it runs, the innermost call first; its fields [nmiop] and
    [ktlb]; whether an NMI is pending; its TLB. The rest is history: the changes
    of each kind that the last flush of its entries covers, and the generations
    of the kernel when it was last sent an NMI. *)
Record cpu : Set := Cpu {
  stack : list frame; nmiop : Z; gen : ktlb; pend : bool; tlb : gmap Z tlbe;
  cl_n : Z; cl_g : Z; due : ktlb;
}.

(** A generation of the kernel, with its history: the addresses of the changes,
    and how many changes had been made when each generation began. *)
Record ctr : Set := Ctr { c_gen : Z; c_log : list Z; c_hist : list Z }.

(** What the CPUs share: the page table, by address: whether the entry is global;
    and the generations of non-global and of global mappings. *)
Record shared : Set := Shared { pt : gmap Z bool; normal : ctr; global : ctr }.

Definition kgen (h : shared) : ktlb := Ktlb (c_gen (global h)) (c_gen (normal h)).

Definition changes (c : ctr) : Z := length (c_log c).

Definition with_stack (l : list frame) (x : cpu) : cpu :=
  Cpu l (nmiop x) (gen x) (pend x) (tlb x) (cl_n x) (cl_g x) (due x).
Definition with_gen (k : ktlb) (x : cpu) : cpu :=
  Cpu (stack x) (nmiop x) k (pend x) (tlb x) (cl_n x) (cl_g x) (due x).

(** [hal_cpu_tlbop]. *)
Definition flush_all (h : shared) (x : cpu) : cpu :=
  Cpu (stack x) (nmiop x) (gen x) (pend x) ∅ (changes (normal h)) (changes (global h)) (due x).
Definition flush (h : shared) (x : cpu) : cpu :=
  Cpu (stack x) (nmiop x) (gen x) (pend x) (filter (λ p, te_glob p.2 = true) (tlb x)) (changes (normal h)) (cl_g x) (due x).

Definition cas_g (old new : Z) (x : cpu) : cpu :=
  if kt_global (gen x) =? old then with_gen (Ktlb new (kt_normal (gen x))) x else x.
Definition cas_n (old new : Z) (x : cpu) : cpu :=
  if kt_normal (gen x) =? old then with_gen (Ktlb (kt_global (gen x)) new) x else x.

(** [hal_l1e_tlbop]: nothing to do when the old entry was not present, a global
    flush when the old or the new entry is global. *)
Definition change_op (old new : option bool) : Z :=
  match old with
  | None => HAL_TLBOP_NONE
  | Some g => if g || bool_decide (new = Some true) then HAL_TLBOP_FLUSHALL else HAL_TLBOP_FLUSH
  end.

Definition log_change (va : Z) (c : ctr) : ctr := Ctr (c_gen c) (c_log c ++ [va]) (c_hist c).

Definition write_pt (va : Z) (new : option bool) (h : shared) : shared :=
  let op := change_op (pt h !! va) new in
  Shared (match new with Some g => <[va := g]> (pt h) | None => delete va (pt h) end)
    (if op =? HAL_TLBOP_FLUSH then log_change va (normal h) else normal h)
    (if op =? HAL_TLBOP_FLUSHALL then log_change va (global h) else global h).

Definition new_gen (g : Z) (c : ctr) : ctr := Ctr g (c_log c) (c_hist c ++ [changes c]).

Definition mark (op : Z) (h : shared) : shared :=
  let k := ktlbgen_markdirty_on op (kgen h) in
  Shared (pt h)
    (if op =? HAL_TLBOP_FLUSH then new_gen (kt_normal k) (normal h) else normal h)
    (if op =? HAL_TLBOP_FLUSHALL then new_gen (kt_global k) (global h) else global h).

(** One memory access, or one flush, of the innermost call of a CPU. *)
Definition exec (h : shared) (x : cpu) : option (shared * cpu) :=
  match stack x with
  | Upd u :: r =>
      match u with
      | U_start => Some (h, with_stack (Upd (U_normal (kt_global (gen x))) :: r) x)
      | U_normal lg => Some (h, with_stack (Upd (U_kglobal lg (kt_normal (gen x))) :: r) x)
      | U_kglobal lg ln => Some (h, with_stack (Upd (U_knormal lg ln (kt_global (kgen h))) :: r) x)
      | U_knormal lg ln kg => Some (h, with_stack (Upd (U_test lg ln kg (kt_normal (kgen h))) :: r) x)
      | U_test lg ln kg kn =>
          Some (h, if 0 <? tlbgen_cmp kg lg then with_stack (Upd (U_flushall lg ln kg kn) :: r) x
                   else if 0 <? tlbgen_cmp kn ln then with_stack (Upd (U_flush ln kn) :: r) x
                   else with_stack r x)
      | U_flushall lg ln kg kn => Some (h, with_stack (Upd (U_casg lg ln kg kn) :: r) (flush_all h x))
      | U_casg lg ln kg kn => Some (h, with_stack (Upd (U_casgn ln kn) :: r) (cas_g lg kg x))
      | U_casgn ln kn => Some (h, with_stack r (cas_n ln kn x))
      | U_flush ln kn => Some (h, with_stack (Upd (U_casn ln kn) :: r) (flush h x))
      | U_casn ln kn => Some (h, with_stack r (cas_n ln kn x))
      end
  | Fls f :: r =>
      match f with
      | F_start => Some (h, with_stack (Fls (F_normal (kt_normal (kgen h))) :: r) x)
      | F_normal kn => Some (h, with_stack (Fls (F_flush kn (kt_normal (gen x))) :: r) x)
      | F_flush kn ln => Some (h, with_stack (Fls (F_cas kn ln) :: r) (flush h x))
      | F_cas kn ln => Some (h, with_stack r (cas_n ln kn x))
      end
  | Nmi n :: r =>
      match n with
      | N_start => Some (h, with_stack (Nmi (N_update (nmiop x)) :: r) x)
      | N_update op =>
          Some (h, with_stack (if has op NMIOP_KMAPUPDATE then Upd U_start :: Nmi (N_flush op) :: r
                               else Nmi (N_flush op) :: r) x)
      | N_flush op =>
          Some (h, with_stack (if has op NMIOP_TLBFLUSH then Fls F_start :: Nmi N_clear :: r
                               else Nmi N_clear :: r) x)
      | N_clear => Some (h, with_stack r x)
      end
  | Map (M_write va new) :: r => Some (write_pt va new h, with_stack (Map (M_mark (change_op (pt h !! va) new)) :: r) x)
  | Map (M_mark op) :: r =>
      (* the generations do not reach the end of their range *)
      if (kt_global (kgen h) + 1 <? 2 ^ 64) && (kt_normal (kgen h) + 1 <? 2 ^ 64)
      then Some (mark op h, with_stack r x) else None
  | Bcast _ :: _ => None
  | [] => None
  end.

Record sys : Set := Sys { sh : shared; cs : gmap Z cpu }.

Definition is_nmi (f : frame) : bool := match f with Nmi _ => true | _ => false end.

(** What a CPU may call while it runs nothing modelled here. *)
Definition callable (s : sys) (f : frame) : Prop :=
  match f with
  | Upd U_start | Fls F_start | Map (M_write _ _) => True
  | Bcast (B_set js) => ∀ j, j ∈ js ↔ is_Some (cs s !! j)
  | _ => False
  end.

Inductive step (s : sys) : sys → Prop :=
  | step_call c x f : cs s !! c = Some x → stack x = [] → callable s f →
      step s (Sys (sh s) (<[c := with_stack [f] x]> (cs s)))
  | step_exec c x h' x' : cs s !! c = Some x → exec (sh s) x = Some (h', x') →
      step s (Sys h' (<[c := x']> (cs s)))
  (* NMIs do not nest *)
  | step_nmi c x : cs s !! c = Some x → pend x = true → existsb is_nmi (stack x) = false →
      step s (Sys (sh s) (<[c := Cpu (Nmi N_start :: stack x) (nmiop x) (gen x) false (tlb x) (cl_n x) (cl_g x) (due x)]> (cs s)))
  (* the CPU reads a page table entry *)
  | step_fill c x va g : cs s !! c = Some x → pt (sh s) !! va = Some g →
      step s (Sys (sh s) (<[c := Cpu (stack x) (nmiop x) (gen x) (pend x)
        (<[va := Tlbe g (changes (normal (sh s))) (changes (global (sh s)))]> (tlb x)) (cl_n x) (cl_g x) (due x)]> (cs s)))
  | step_bset c x r j js y : cs s !! c = Some x → stack x = Bcast (B_set (j :: js)) :: r →
      let cs' := <[c := with_stack (Bcast (B_nmi j js) :: r) x]> (cs s) in cs' !! j = Some y →
      step s (Sys (sh s) (<[j := Cpu (stack y) (Z.lor (nmiop y) NMIOP_KMAPUPDATE) (gen y) (pend y) (tlb y) (cl_n y) (cl_g y) (due y)]> cs'))
  | step_bnmi c x r j js y : cs s !! c = Some x → stack x = Bcast (B_nmi j js) :: r →
      let cs' := <[c := with_stack (Bcast (B_set js) :: r) x]> (cs s) in cs' !! j = Some y →
      step s (Sys (sh s) (<[j := Cpu (stack y) (nmiop y) (gen y) true (tlb y) (cl_n y) (cl_g y) (kgen (sh s))]> cs'))
  | step_bdone c x r : cs s !! c = Some x → stack x = Bcast (B_set []) :: r →
      step s (Sys (sh s) (<[c := with_stack r x]> (cs s))).

(** * Generations *)

Record ctr_ok (c : ctr) : Prop := {
  co_gen : word64 (c_gen c);
  co_len : Z.of_nat (length (c_hist c)) = c_gen c + 1;
  co_le (i j : nat) a b : (i ≤ j)%nat → c_hist c !! i = Some a → c_hist c !! j = Some b → a ≤ b;
  co_max (i : nat) a : c_hist c !! i = Some a → 0 ≤ a ≤ changes c;
}.

(** The changes that generation [v] covers. *)
Definition at_gen (c : ctr) (v : Z) : Z := c_hist c !!! Z.to_nat v.

Definition gen_of (c : ctr) (v : Z) : Prop := 0 ≤ v ≤ c_gen c.

Lemma at_gen_some c v : ctr_ok c → gen_of c v → c_hist c !! Z.to_nat v = Some (at_gen c v).
Proof. intros Hc Hv. apply lookup_lt_total. pose proof (co_len _ Hc). unfold gen_of in Hv. lia. Qed.

Lemma at_gen_mono c v v' : ctr_ok c → 0 ≤ v ≤ v' → gen_of c v' → at_gen c v ≤ at_gen c v'.
Proof.
  intros Hc Hv Hv'. apply (co_le _ Hc (Z.to_nat v) (Z.to_nat v')); [lia| |]; apply at_gen_some; try done.
  unfold gen_of in *. lia.
Qed.

Lemma at_gen_max c v : ctr_ok c → gen_of c v → 0 ≤ at_gen c v ≤ changes c.
Proof. intros Hc Hv. by eapply co_max, at_gen_some. Qed.

Lemma changes_log va c : changes (log_change va c) = changes c + 1.
Proof. unfold changes, log_change. cbn. rewrite length_app. cbn. lia. Qed.

Lemma log_change_ok va c : ctr_ok c → ctr_ok (log_change va c).
Proof.
  intros [H1 H2 H3 H4]. split; [done..|]. intros i a Hi. specialize (H4 i a Hi). rewrite changes_log. lia.
Qed.

Lemma new_gen_ok c : ctr_ok c → c_gen c + 1 < 2 ^ 64 → ctr_ok (new_gen (c_gen c + 1) c).
Proof.
  intros [H1 H2 H3 H4] Hlt. unfold word64 in H1. split; cbn.
  - unfold word64. lia.
  - rewrite length_app. cbn. lia.
  - intros i j a b Hij Ha Hb. apply lookup_snoc_Some in Ha as [[Hi Ha]|[-> <-]], Hb as [[Hj Hb]|[-> <-]].
    + exact (H3 i j a b Hij Ha Hb).
    + by destruct (H4 i a Ha).
    + lia.
    + lia.
  - intros i a [[Hi Ha]|[_ <-]]%lookup_snoc_Some; [exact (H4 i a Ha)|]. unfold changes. cbn. lia.
Qed.

(** One state of a generation after another. *)
Record ctr_le (c c' : ctr) : Prop := {
  cl_gen : c_gen c ≤ c_gen c';
  cl_at v : gen_of c v → at_gen c' v = at_gen c v;
  cl_chg : changes c ≤ changes c';
}.

Lemma ctr_le_refl c : ctr_le c c.
Proof. done. Qed.

Lemma log_change_le va c : ctr_le c (log_change va c).
Proof. split; [done..|]. rewrite changes_log. lia. Qed.

Lemma new_gen_le c : ctr_ok c → ctr_le c (new_gen (c_gen c + 1) c).
Proof.
  intros Hc. split; cbn; [lia| |done]. intros v Hv. unfold at_gen. cbn. pose proof (co_len _ Hc). unfold gen_of in Hv.
  rewrite !list_lookup_total_alt, lookup_app_l by lia. done.
Qed.

Lemma new_gen_at c : ctr_ok c → at_gen (new_gen (c_gen c + 1) c) (c_gen c + 1) = changes c.
Proof.
  intros Hc. unfold at_gen, new_gen. cbn. pose proof (co_len _ Hc) as Hl. pose proof (co_gen _ Hc) as [Hg _].
  rewrite list_lookup_total_alt, lookup_app_r by lia.
  by replace (Z.to_nat (c_gen c + 1) - length (c_hist c))%nat with 0%nat by lia.
Qed.

#[local] Hint Resolve ctr_le_refl log_change_le log_change_ok : core.

(** * The invariant *)

Definition written (l : list Z) (k va : Z) : Prop := ∃ i : nat, k ≤ i ∧ l !! i = Some va.

(** No change of [va] since the translation was read. *)
Definition fresh (h : shared) (va : Z) (t : tlbe) : Prop :=
  ¬ written (c_log (normal h)) (te_n t) va ∧ ¬ written (c_log (global h)) (te_g t) va.

Record entry_ok (h : shared) (x : cpu) (va : Z) (t : tlbe) : Prop := {
  eo_n : te_n t ≤ changes (normal h);
  eo_g : te_g t ≤ changes (global h);
  eo_cl_g : cl_g x ≤ te_g t;
  eo_cl_n : te_glob t = false → cl_n x ≤ te_n t;
  eo_fresh : fresh h va t → pt h !! va = Some (te_glob t);
  eo_stale : te_glob t = true → fresh h va t ∨ written (c_log (global h)) (te_g t) va;
}.

(** What each call knows: the generations it has read, and after a flush, that
    they are covered. *)
Definition upd_ok (h : shared) (x : cpu) (u : upc) : Prop :=
  let n_read v := gen_of (normal h) v in
  let g_read v := gen_of (global h) v in
  let n_had v := n_read v ∧ at_gen (normal h) v ≤ cl_n x in
  let g_had v := g_read v ∧ at_gen (global h) v ≤ cl_g x in
  match u with
  | U_start => True
  | U_normal lg => g_had lg
  | U_kglobal lg ln => g_had lg ∧ n_had ln
  | U_knormal lg ln kg => g_had lg ∧ n_had ln ∧ g_read kg
  | U_test lg ln kg kn => g_had lg ∧ n_had ln ∧ g_read kg ∧ n_read kn
  | U_flushall lg ln kg kn => g_read kg ∧ n_read kn
  | U_casg lg ln kg kn => g_had kg ∧ n_had kn
  | U_casgn ln kn | U_casn ln kn => n_had kn
  | U_flush ln kn => n_read kn
  end.

Definition frame_ok (h : shared) (x : cpu) (f : frame) : Prop :=
  match f with
  | Upd u => upd_ok h x u
  | Fls F_start => True
  | Fls (F_normal kn) | Fls (F_flush kn _) => gen_of (normal h) kn
  | Fls (F_cas kn _) => gen_of (normal h) kn ∧ at_gen (normal h) kn ≤ cl_n x
  | Nmi N_start => has (nmiop x) NMIOP_KMAPUPDATE = true
  | Nmi (N_update op) => has op NMIOP_KMAPUPDATE = true
  | _ => True
  end.

(** The changes marked when the last NMI was sent are not in the TLB. *)
Definition covered_g (h : shared) (x : cpu) : Prop := at_gen (global h) (kt_global (due x)) ≤ cl_g x.
Definition covered_n (h : shared) (x : cpu) : Prop := at_gen (normal h) (kt_normal (due x)) ≤ cl_n x.

(** They are not, or the handler that runs will see to it. *)
Definition handled (h : shared) (x : cpu) (l : list frame) : Prop :=
  match l with
  | Nmi N_start :: _ | Nmi (N_update _) :: _ => True
  | Upd u :: Nmi (N_flush _) :: _ =>
      match u with
      | U_start | U_normal _ | U_kglobal _ _ | U_flushall _ _ _ _ => True
      | U_knormal lg ln kg => kt_global (due x) ≤ kg
      | U_test lg ln kg kn => kt_global (due x) ≤ kg ∧ kt_normal (due x) ≤ kn
      | U_flush _ _ => covered_g h x
      | _ => covered_n h x ∧ covered_g h x
      end
  | _ => covered_n h x ∧ covered_g h x
  end.

(** What a CPU runs: one call, or the handler of an NMI on top of it. *)
Definition base (l : list frame) : Prop := match l with [] => True | [Nmi _] => False | [_] => True | _ => False end.
Definition shape (l : list frame) : Prop :=
  match l with
  | Nmi _ :: b | Upd _ :: Nmi (N_flush _) :: b | Fls _ :: Nmi N_clear :: b => base b
  | _ => base l
  end.

Record core_ok (h : shared) (x : cpu) : Prop := {
  co_gn : gen_of (normal h) (kt_normal (gen x));
  co_gg : gen_of (global h) (kt_global (gen x));
  co_cn : at_gen (normal h) (kt_normal (gen x)) ≤ cl_n x ≤ changes (normal h);
  co_cg : at_gen (global h) (kt_global (gen x)) ≤ cl_g x ≤ changes (global h);
  co_tlb va t : tlb x !! va = Some t → entry_ok h x va t;
  co_dn : gen_of (normal h) (kt_normal (due x));
  co_dg : gen_of (global h) (kt_global (due x));
  co_pend : pend x = true → has (nmiop x) NMIOP_KMAPUPDATE = true;
}.

Record cpu_ok (h : shared) (x : cpu) : Prop := {
  ck_core : core_ok h x;
  ck_shape : shape (stack x);
  ck_stack : Forall (frame_ok h x) (stack x);
  ck_handled : pend x = true ∨ handled h x (stack x);
}.

Definition in_flight (s : sys) (op : Z) : Prop := ∃ c x, cs s !! c = Some x ∧ Map (M_mark op) ∈ stack x.

Record sys_ok (s : sys) : Prop := {
  sy_n : ctr_ok (normal (sh s));
  sy_g : ctr_ok (global (sh s));
  sy_cpu c x : cs s !! c = Some x → cpu_ok (sh s) x;
  sy_send c x j js y : cs s !! c = Some x → Bcast (B_nmi j js) ∈ stack x → cs s !! j = Some y →
    has (nmiop y) NMIOP_KMAPUPDATE = true;
  sy_mark_n : at_gen (normal (sh s)) (c_gen (normal (sh s))) = changes (normal (sh s)) ∨ in_flight s HAL_TLBOP_FLUSH;
  sy_mark_g : at_gen (global (sh s)) (c_gen (global (sh s))) = changes (global (sh s)) ∨ in_flight s HAL_TLBOP_FLUSHALL;
}.

(** ** It does not depend on what later happens elsewhere *)

Record shared_le (h h' : shared) : Prop := { sl_n : ctr_le (normal h) (normal h'); sl_g : ctr_le (global h) (global h') }.

Lemma gen_of_le c c' v : ctr_le c c' → gen_of c v → gen_of c' v.
Proof. intros [H _ _]. unfold gen_of. lia. Qed.

Lemma had_le c c' v k : ctr_le c c' → gen_of c v ∧ at_gen c v ≤ k → gen_of c' v ∧ at_gen c' v ≤ k.
Proof. intros Hc [Hv Hk]. split; [by eapply gen_of_le|]. by rewrite (cl_at _ _ Hc). Qed.

Lemma frame_ok_le h h' x f : shared_le h h' → frame_ok h x f → frame_ok h' x f.
Proof.
  intros [Hn Hg]. pose proof (λ v, gen_of_le _ _ v Hn). pose proof (λ v, gen_of_le _ _ v Hg).
  pose proof (λ v k, had_le _ _ v k Hn). pose proof (λ v k, had_le _ _ v k Hg).
  destruct f as [[]|[]|[]| |]; cbn; naive_solver.
Qed.

Lemma handled_le h h' x l : shared_le h h' → core_ok h x → handled h x l → handled h' x l.
Proof.
  intros [Hn Hg] Hc. unfold handled, covered_n, covered_g.
  rewrite (cl_at _ _ Hn _ (co_dn _ _ Hc)), (cl_at _ _ Hg _ (co_dg _ _ Hc)). done.
Qed.

Lemma cpu_ok_le h h' x :
  shared_le h h' → (∀ va t, tlb x !! va = Some t → entry_ok h' x va t) → cpu_ok h x → cpu_ok h' x.
Proof.
  intros Hle He [[H1 H2 H3 H4 H5 H6 H7 H8] Hsh Hs Hh]. pose proof Hle as [Hn Hg]. split.
  - split; [by eapply gen_of_le|by eapply gen_of_le| | |done|by eapply gen_of_le|by eapply gen_of_le|done].
    + rewrite (cl_at _ _ Hn _ H1). pose proof (cl_chg _ _ Hn). lia.
    + rewrite (cl_at _ _ Hg _ H2). pose proof (cl_chg _ _ Hg). lia.
  - done.
  - eapply Forall_impl; [exact Hs|]. intros f. by apply frame_ok_le.
  - destruct Hh; [by left|right]. by eapply handled_le.
Qed.

(** ** Changes of the page table *)

Lemma written_snoc l a k va : written (l ++ [a]) k va ↔ written l k va ∨ (a = va ∧ k ≤ length l).
Proof.
  split.
  - intros (i & Hk & [[Hi Hl]|[Hi Hl]]%lookup_snoc_Some); [left; by exists i|right; subst; auto].
  - intros [(i & Hk & Hl)|[-> Hk]]; [exists i; split; [done|by apply lookup_app_l_Some]|].
    exists (length l). split; [done|]. by rewrite lookup_app_r, Nat.sub_diag.
Qed.

Lemma entry_write h x va t va' new : entry_ok h x va t → entry_ok (write_pt va' new h) x va t.
Proof.
  intros [H1 H2 H3 H4 H5 H6]. unfold write_pt. set (op := change_op (pt h !! va') new).
  assert (∀ c : ctr, changes c ≤ changes (log_change va' c)) as Hle by (intros c; rewrite changes_log; lia).
  assert (∀ (b : bool) c (k : Z), k ≤ changes c → written (c_log (if b then log_change va' c else c)) k va ↔
            written (c_log c) k va ∨ (b = true ∧ va' = va)) as Hw.
  { intros [] c k Hk; cbn; [|naive_solver]. rewrite written_snoc. unfold changes in Hk. naive_solver lia. }
  split; cbn [te_n te_g te_glob normal global pt].
  - specialize (Hle (normal h)). case_bool; lia.
  - specialize (Hle (global h)). case_bool; lia.
  - done.
  - done.
  - intros [F1 F2]. cbn [normal global] in F1, F2. rewrite Hw in F1, F2 by lia.
    assert (fresh h va t) as Hf by (split; tauto). specialize (H5 Hf).
    destruct (decide (va' = va)) as [->|Hne].
    + exfalso. subst op. rewrite H5 in F1, F2. cbn in F1, F2. destruct (te_glob t || _); cbn in *; tauto.
    + destruct new; [by rewrite lookup_insert_ne|by rewrite lookup_delete_ne].
  - intros Hgl. unfold fresh. cbn [normal global]. rewrite !Hw by lia.
    destruct (H6 Hgl) as [Hf|]; [|tauto]. destruct (decide (va' = va)) as [->|Hne].
    + right. right. split; [|done]. subst op. rewrite (H5 Hf), Hgl. done.
    + destruct Hf. left. split; intros [?|[_ ?]]; tauto.
Qed.

Lemma write_pt_le va new h : shared_le h (write_pt va new h).
Proof. unfold write_pt. split; cbn; case_bool; auto. Qed.

Lemma mark_gen op (h : shared) :
  kt_global (kgen h) + 1 < 2 ^ 64 → kt_normal (kgen h) + 1 < 2 ^ 64 → ctr_ok (normal h) → ctr_ok (global h) →
  mark op h = Shared (pt h)
    (if op =? HAL_TLBOP_FLUSH then new_gen (c_gen (normal h) + 1) (normal h) else normal h)
    (if op =? HAL_TLBOP_FLUSHALL then new_gen (c_gen (global h) + 1) (global h) else global h).
Proof.
  cbn. intros Hg Hn [[Wn _] _ _ _] [[Wg _] _ _ _]. unfold mark, ktlbgen_markdirty_on.
  destruct (Z.eqb_spec op HAL_TLBOP_FLUSH) as [->|]; [cbn; by rewrite u64_small by (unfold word64; lia)|].
  destruct (Z.eqb_spec op HAL_TLBOP_FLUSHALL); [cbn; by rewrite u64_small by (unfold word64; lia)|done].
Qed.

Lemma entry_new_gen h x va t gn gg (bn bg : bool) :
  entry_ok h x va t → entry_ok (Shared (pt h) (if bn then new_gen gn (normal h) else normal h)
    (if bg then new_gen gg (global h) else global h)) x va t.
Proof. intros [H1 H2 H3 H4 H5 H6]. by destruct bn, bg; split. Qed.

(** ** What a CPU does by itself *)

(** The fields that calls rely on only grow. *)
Record cpu_le (x x' : cpu) : Prop := {
  xl_n : cl_n x ≤ cl_n x';
  xl_g : cl_g x ≤ cl_g x';
  xl_op : has (nmiop x) NMIOP_KMAPUPDATE = true → has (nmiop x') NMIOP_KMAPUPDATE = true;
}.

Lemma frame_ok_mono h x x' f : cpu_le x x' → frame_ok h x f → frame_ok h x' f.
Proof. intros [H1 H2 H3]. destruct f as [[]|[]|[]| |]; cbn; naive_solver lia. Qed.

Lemma frames_ok_mono h x x' l : cpu_le x x' → Forall (frame_ok h x) l → Forall (frame_ok h x') l.
Proof. intros Hle Hl. eapply Forall_impl; [exact Hl|]. intros f. by apply frame_ok_mono. Qed.

Section local.
Context (h : shared) (Hn : ctr_ok (normal h)) (Hg : ctr_ok (global h)).

Lemma flush_core x : core_ok h x → core_ok h (flush h x) ∧ cpu_le x (flush h x).
Proof.
  intros [H1 H2 H3 H4 H5 H6 H7 H8]. split; [split|split]; cbn; try done; try lia.
  intros va t [Ht Hgl]%map_lookup_filter_Some. destruct (H5 va t Ht). cbn in Hgl. split; cbn; try done. congruence.
Qed.

Lemma flush_all_core x : core_ok h x → core_ok h (flush_all h x) ∧ cpu_le x (flush_all h x).
Proof.
  intros [H1 H2 H3 H4 H5 H6 H7 H8]. split; [split|split]; cbn; try done; lia.
Qed.

Lemma cas_n_core ln kn x :
  core_ok h x → gen_of (normal h) kn → at_gen (normal h) kn ≤ cl_n x → core_ok h (cas_n ln kn x) ∧ cpu_le x (cas_n ln kn x).
Proof.
  intros Hc Hk Ha. unfold cas_n. case_bool; [|done]. destruct Hc as [H1 H2 H3 H4 H5 H6 H7 H8].
  split; [split|split]; cbn; try done; try lia. intros va t Ht. by destruct (H5 va t Ht).
Qed.

Lemma cas_g_core lg kg x :
  core_ok h x → gen_of (global h) kg → at_gen (global h) kg ≤ cl_g x → core_ok h (cas_g lg kg x) ∧ cpu_le x (cas_g lg kg x).
Proof.
  intros Hc Hk Ha. unfold cas_g. case_bool; [|done]. destruct Hc as [H1 H2 H3 H4 H5 H6 H7 H8].
  split; [split|split]; cbn; try done; try lia. intros va t Ht. by destruct (H5 va t Ht).
Qed.

(** The innermost call has gone from [f] to [l]. *)
Lemma local_ok x x' f r l :
  cpu_ok h x → stack x = f :: r → core_ok h x' ∧ cpu_le x x' →
  pend x' = pend x → Forall (frame_ok h x') l → shape (l ++ r) →
  (handled h x (f :: r) → handled h x' (l ++ r)) → cpu_ok h (with_stack (l ++ r) x').
Proof.
  intros [_ _ Hs Hh] Hst [Hc' Hle] Hp Hl Hsh Hhd. rewrite Hst in Hs, Hh. apply Forall_cons in Hs as [_ Hs]. split.
  - destruct Hc' as [H1 H2 H3 H4 H5 H6 H7 H8]. split; cbn; try done. intros va t Ht. by destruct (H5 va t Ht).
  - done.
  - cbn. apply Forall_app. split; [|eapply frames_ok_mono in Hs; [|exact Hle]];
      (eapply Forall_impl; [eassumption|]; intros g; by apply frame_ok_mono).
  - cbn. rewrite Hp. destruct Hh as [Hh|Hh]; [by left|right]. by apply Hhd.
Qed.

Lemma core_same x : core_ok h x → core_ok h x ∧ cpu_le x x.
Proof. done. Qed.

Lemma covered_due x : core_ok h x →
  (∀ v, kt_normal (due x) ≤ v → gen_of (normal h) v → at_gen (normal h) v ≤ cl_n x → covered_n h x) ∧
  (∀ v, kt_global (due x) ≤ v → gen_of (global h) v → at_gen (global h) v ≤ cl_g x → covered_g h x).
Proof.
  intros Hc. pose proof (co_dn _ _ Hc) as [D1 _]. pose proof (co_dg _ _ Hc) as [D2 _].
  split; intros v Hv Hk Ha; (eapply Z.le_trans; [|exact Ha]); by apply at_gen_mono.
Qed.

Lemma flush_covered x : core_ok h x → covered_n h (flush h x).
Proof. intros Hc. unfold covered_n. cbn. by apply at_gen_max, Hc. Qed.

Lemma flush_all_covered x : core_ok h x → covered_n h (flush_all h x) ∧ covered_g h (flush_all h x).
Proof. intros Hc. unfold covered_n, covered_g. cbn. split; by apply at_gen_max, Hc. Qed.

Lemma cas_n_same ln kn x :
  pend (cas_n ln kn x) = pend x ∧ due (cas_n ln kn x) = due x ∧ cl_n (cas_n ln kn x) = cl_n x ∧ cl_g (cas_n ln kn x) = cl_g x.
Proof. unfold cas_n. by case_bool. Qed.

Lemma cas_g_same lg kg x :
  pend (cas_g lg kg x) = pend x ∧ due (cas_g lg kg x) = due x ∧ cl_n (cas_g lg kg x) = cl_n x ∧ cl_g (cas_g lg kg x) = cl_g x.
Proof. unfold cas_g. by case_bool. Qed.

(** What is left when the innermost call has ended. *)
Lemma shape_tail f r : shape (f :: r) → shape r ∧ (∀ x, covered_n h x ∧ covered_g h x → handled h x r).
Proof.
  destruct f as [u|f|n|m|b].
  - destruct r as [|[| |[]| |] r']; cbn; done.
  - destruct r as [|[| |[]| |] r']; cbn; done.
  - destruct r as [|[| |[]| |] []]; cbn; done.
  - destruct r; cbn; done.
  - destruct r; cbn; done.
Qed.

(** One call follows another of the same kind. *)
Lemma shape_upd u u' r : shape (Upd u :: r) → shape (Upd u' :: r).
Proof. done. Qed.

Lemma handled_upd x u r :
  match u with U_casg _ _ _ _ | U_casgn _ _ | U_casn _ _ => True | _ => False end →
  covered_n h x ∧ covered_g h x → handled h x (Upd u :: r).
Proof. destruct u; try done; destruct r as [|[| |[]| |] r']; done. Qed.

Lemma handled_upd_inv x u r :
  match u with U_casg _ _ _ _ | U_casgn _ _ | U_casn _ _ => True | _ => False end →
  handled h x (Upd u :: r) → covered_n h x ∧ covered_g h x.
Proof. destruct u; try done; destruct r as [|[| |[]| |] r']; done. Qed.

Lemma upd_ok_step x u r h' x' :
  cpu_ok h x → stack x = Upd u :: r → exec h x = Some (h', x') → h' = h ∧ cpu_ok h x' ∧ nmiop x' = nmiop x.
Proof.
  intros Hx Hst He. pose proof (ck_core _ _ Hx) as Hc. pose proof (ck_stack _ _ Hx) as Hs.
  pose proof (ck_shape _ _ Hx) as Hsh. rewrite Hst in Hs, Hsh.
  apply Forall_cons in Hs as [Hu _]. unfold exec in He. rewrite Hst in He.
  destruct (covered_due x Hc) as [Dn Dg]. destruct (shape_tail _ _ Hsh) as [Htl Hhd].
  destruct u as [|lg|lg ln|lg ln kg|lg ln kg kn|lg ln kg kn|lg ln kg kn|ln kn|ln kn|ln kn]; cbn in Hu; injection He as <- <-;
    (split; [done|]).
  - split; [|done]. apply (local_ok x x (Upd U_start) r [_]); [done|done|by apply core_same|done| |exact Hsh|].
    + repeat constructor; apply Hc.
    + destruct r as [|[| |[]| |] r']; done.
  - split; [|done]. apply (local_ok x x (Upd (U_normal lg)) r [_]); [done|done|by apply core_same|done| |exact Hsh|].
    + repeat constructor; try apply Hu; apply Hc.
    + destruct r as [|[| |[]| |] r']; done.
  - split; [|done]. apply (local_ok x x (Upd (U_kglobal lg ln)) r [_]); [done|done|by apply core_same|done| |exact Hsh|].
    + repeat constructor; try apply Hu; try done. apply Hg.
    + destruct r as [|[| |[]| |] r']; cbn; try done. intros _. apply Hc.
  - split; [|done]. apply (local_ok x x (Upd (U_knormal lg ln kg)) r [_]); [done|done|by apply core_same|done| |exact Hsh|].
    + repeat constructor; try apply Hu; try done. apply Hn.
    + destruct r as [|[| |[]| |] r']; cbn; try done. intros ?. split; [done|]. apply Hc.
  - destruct Hu as ((Hlg & Alg) & (Hln & Aln) & Hkg & Hkn).
    destruct (0 <? tlbgen_cmp kg lg) eqn:Eg; [|destruct (0 <? tlbgen_cmp kn ln) eqn:En]; (split; [|done]).
    + apply (local_ok x x (Upd (U_test lg ln kg kn)) r [_]); [done|done|by apply core_same|done|by constructor|exact Hsh|].
      destruct r as [|[| |[]| |] r']; done.
    + apply (local_ok x x (Upd (U_test lg ln kg kn)) r [_]); [done|done|by apply core_same|done|by constructor|exact Hsh|].
      pose proof (tlbgen_cmp_le kg lg Eg) as Hle.
      destruct r as [|[| |[]| |] r']; cbn; try done. intros [D1 _]. apply (Dg lg); [lia|done..].
    + apply (local_ok x x (Upd (U_test lg ln kg kn)) r []); [done|done|by apply core_same|done|done|exact Htl|].
      pose proof (tlbgen_cmp_le kg lg Eg) as Hle. pose proof (tlbgen_cmp_le kn ln En) as Hle'.
      intros Hh. apply Hhd. destruct r as [|[| |[]| |] r']; cbn in Hh; try done. destruct Hh as [D1 D2].
      split; [apply (Dn ln)|apply (Dg lg)]; (lia || done).
  - destruct Hu as [Hkg Hkn]. split; [|done].
    apply (local_ok x (flush_all h x) (Upd (U_flushall lg ln kg kn)) r [_]); [done|done|by apply flush_all_core|done| |exact Hsh|].
    + constructor; [cbn; split; (split; [done|by apply at_gen_max])|done].
    + intros _. apply handled_upd; [done|]. by apply flush_all_covered.
  - destruct Hu as [[Hkg Akg] Hkn]. destruct (cas_g_same lg kg x) as (S1 & S2 & S3 & S4).
    split; [|by unfold cas_g; case_bool].
    apply (local_ok x (cas_g lg kg x) (Upd (U_casg lg ln kg kn)) r [_]); [done|done|by apply cas_g_core|done| |exact Hsh|].
    + constructor; [|done]. cbn. by rewrite S3.
    + intros Hh%handled_upd_inv; [|done]. apply handled_upd; [done|]. unfold covered_n, covered_g. by rewrite S2, S3, S4.
  - destruct Hu as [Hkn Akn]. destruct (cas_n_same ln kn x) as (S1 & S2 & S3 & S4).
    split; [|by unfold cas_n; case_bool].
    apply (local_ok x (cas_n ln kn x) (Upd (U_casgn ln kn)) r []); [done|done|by apply cas_n_core|done|done|exact Htl|].
    intros Hh%handled_upd_inv; [|done]. apply Hhd. unfold covered_n, covered_g. by rewrite S2, S3, S4.
  - split; [|done]. apply (local_ok x (flush h x) (Upd (U_flush ln kn)) r [_]); [done|done|by apply flush_core|done| |exact Hsh|].
    + constructor; [cbn; split; [done|by apply at_gen_max]|done].
    + intros Hh. apply handled_upd; [done|]. split; [by apply flush_covered|].
      destruct r as [|[| |[]| |] r']; cbn in Hh; try done; apply Hh.
  - destruct Hu as [Hkn Akn]. destruct (cas_n_same ln kn x) as (S1 & S2 & S3 & S4).
    split; [|by unfold cas_n; case_bool].
    apply (local_ok x (cas_n ln kn x) (Upd (U_casn ln kn)) r []); [done|done|by apply cas_n_core|done|done|exact Htl|].
    intros Hh%handled_upd_inv; [|done]. apply Hhd. unfold covered_n, covered_g. by rewrite S2, S3, S4.
Qed.

Lemma fls_ok_step x f r h' x' :
  cpu_ok h x → stack x = Fls f :: r → exec h x = Some (h', x') → h' = h ∧ cpu_ok h x' ∧ nmiop x' = nmiop x.
Proof.
  intros Hx Hst He. pose proof (ck_core _ _ Hx) as Hc. pose proof (ck_stack _ _ Hx) as Hs.
  pose proof (ck_shape _ _ Hx) as Hsh. rewrite Hst in Hs, Hsh.
  apply Forall_cons in Hs as [Hu _]. unfold exec in He. rewrite Hst in He. destruct (shape_tail _ _ Hsh) as [Htl Hhd].
  destruct f as [|kn|kn ln|kn ln]; cbn in Hu; injection He as <- <-; (split; [done|]).
  - split; [|done]. apply (local_ok x x (Fls F_start) r [_]); [done|done|by apply core_same|done| |exact Hsh|done].
    constructor; [|done]. split; [apply Hn|done].
  - split; [|done]. apply (local_ok x x (Fls (F_normal kn)) r [_]); [done|done|by apply core_same|done| |exact Hsh|done].
    by constructor.
  - split; [|done]. apply (local_ok x (flush h x) (Fls (F_flush kn ln)) r [_]); [done|done|by apply flush_core|done| |exact Hsh|].
    + constructor; [cbn; split; [done|by apply at_gen_max]|done].
    + intros [_ Hh]. split; [by apply flush_covered|apply Hh].
  - destruct Hu as [Hkn Akn]. destruct (cas_n_same ln kn x) as (S1 & S2 & S3 & S4).
    split; [|by unfold cas_n; case_bool].
    apply (local_ok x (cas_n ln kn x) (Fls (F_cas kn ln)) r []); [done|done|by apply cas_n_core|done|done|exact Htl|].
    intros Hh. apply Hhd. unfold covered_n, covered_g. by rewrite S2, S3, S4.
Qed.

Lemma nmi_ok_step x n r h' x' :
  cpu_ok h x → stack x = Nmi n :: r → exec h x = Some (h', x') → h' = h ∧ cpu_ok h x' ∧ nmiop x' = nmiop x.
Proof.
  intros Hx Hst He. pose proof (ck_core _ _ Hx) as Hc. pose proof (ck_stack _ _ Hx) as Hs.
  pose proof (ck_shape _ _ Hx) as Hsh. rewrite Hst in Hs, Hsh.
  apply Forall_cons in Hs as [Hu _]. unfold exec in He. rewrite Hst in He. destruct (shape_tail _ _ Hsh) as [Htl Hhd].
  destruct n as [|op|op|]; cbn in Hu; injection He as <- <-; (split; [done|]); (split; [|done]).
  - apply (local_ok x x (Nmi N_start) r [_]); [done|done|by apply core_same|done|by constructor|exact Hsh|done].
  - rewrite Hu. apply (local_ok x x (Nmi (N_update op)) r [_; _]);
      [done|done|by apply core_same|done|by repeat constructor|exact Hsh|done].
  - destruct (has op NMIOP_TLBFLUSH).
    + apply (local_ok x x (Nmi (N_flush op)) r [_; _]); [done|done|by apply core_same|done|by repeat constructor|exact Hsh|done].
    + apply (local_ok x x (Nmi (N_flush op)) r [_]); [done|done|by apply core_same|done|by repeat constructor|exact Hsh|done].
  - apply (local_ok x x (Nmi N_clear) r []); [done|done|by apply core_same|done|done|exact Htl|]. intros Hh. by apply Hhd.
Qed.

End local.

(** ** Steps of the system *)

Lemma in_flight_update s c x h' x' op :
  cs s !! c = Some x → (Map (M_mark op) ∈ stack x → Map (M_mark op) ∈ stack x') →
  in_flight s op → in_flight (Sys h' (<[c := x']> (cs s))) op.
Proof.
  intros Hc Hk (d & y & Hd & Hin). destruct (decide (d = c)) as [->|Hne].
  - exists c, x'. cbn [cs]. split; [apply lookup_insert_eq|]. apply Hk. congruence.
  - exists d, y. cbn [cs]. split; [by rewrite lookup_insert_ne|done].
Qed.

(** A CPU goes from [x] to [x'], and what is shared to [h']. *)
Lemma sys_update s c x h' x' :
  sys_ok s → cs s !! c = Some x → ctr_ok (normal h') → ctr_ok (global h') → shared_le (sh s) h' →
  (∀ y va t, entry_ok (sh s) y va t → entry_ok h' y va t) → cpu_ok h' x' →
  (has (nmiop x) NMIOP_KMAPUPDATE = true → has (nmiop x') NMIOP_KMAPUPDATE = true) →
  (∀ j js y, Bcast (B_nmi j js) ∈ stack x' → <[c := x']> (cs s) !! j = Some y → has (nmiop y) NMIOP_KMAPUPDATE = true) →
  (at_gen (normal h') (c_gen (normal h')) = changes (normal h') ∨ in_flight (Sys h' (<[c := x']> (cs s))) HAL_TLBOP_FLUSH) →
  (at_gen (global h') (c_gen (global h')) = changes (global h') ∨ in_flight (Sys h' (<[c := x']> (cs s))) HAL_TLBOP_FLUSHALL) →
  sys_ok (Sys h' (<[c := x']> (cs s))).
Proof.
  intros Hs Hc Hn Hg Hle He Hx' Hop Hsend Mn Mg. split; cbn [sh cs]; [done|done| | |done|done].
  - intros d y [[<- <-]|[Hne Hd]]%lookup_insert_Some; [done|].
    pose proof (sy_cpu _ Hs d y Hd) as Hy. apply (cpu_ok_le (sh s)); [done| |done].
    intros va t Ht. apply He. by apply (ck_core _ _ Hy).
  - intros d y j js z [[<- <-]|[Hne Hd]]%lookup_insert_Some Hin Hj; [by eapply Hsend|].
    apply lookup_insert_Some in Hj as [[<- <-]|[Hne' Hj]].
    + apply Hop. by apply (sy_send _ Hs d y c js x Hd Hin).
    + by apply (sy_send _ Hs d y j js z Hd Hin).
Qed.

(** The case of a CPU that neither changes what is shared nor drops a pending
    mark. *)
Lemma sys_local s c x x' :
  sys_ok s → cs s !! c = Some x → cpu_ok (sh s) x' →
  (has (nmiop x) NMIOP_KMAPUPDATE = true → has (nmiop x') NMIOP_KMAPUPDATE = true) →
  (∀ op, Map (M_mark op) ∈ stack x → Map (M_mark op) ∈ stack x') →
  (∀ j js y, Bcast (B_nmi j js) ∈ stack x' → <[c := x']> (cs s) !! j = Some y → has (nmiop y) NMIOP_KMAPUPDATE = true) →
  sys_ok (Sys (sh s) (<[c := x']> (cs s))).
Proof.
  intros Hs Hc Hx' Hop Hm Hsend. apply (sys_update s c x (sh s) x'); try apply Hs; try done.
  - destruct (sy_mark_n _ Hs) as [?|Hf]; [by left|right]. apply (in_flight_update s c x); auto.
  - destruct (sy_mark_g _ Hs) as [?|Hf]; [by left|right]. apply (in_flight_update s c x); auto.
Qed.

(** The pending interrupts are kept when no new ones appear. *)
Lemma sends_kept s c x x' :
  sys_ok s → cs s !! c = Some x → (has (nmiop x) NMIOP_KMAPUPDATE = true → has (nmiop x') NMIOP_KMAPUPDATE = true) →
  (∀ j js, Bcast (B_nmi j js) ∈ stack x' → Bcast (B_nmi j js) ∈ stack x) →
  ∀ j js y, Bcast (B_nmi j js) ∈ stack x' → <[c := x']> (cs s) !! j = Some y → has (nmiop y) NMIOP_KMAPUPDATE = true.
Proof.
  intros Hs Hc Hop Hin j js y Hj [[<- <-]|[Hne Hy]]%lookup_insert_Some.
  - apply Hop. eapply (sy_send _ Hs c x c js x); auto.
  - eapply (sy_send _ Hs c x j js y); auto.
Qed.

Definition quiet (f : frame) : Prop := match f with Map _ | Bcast _ => False | _ => True end.

(** The calls that only concern the TLB replace themselves by calls of the same
    sort. *)
Lemma exec_stack h x f r h' x' :
  stack x = f :: r → quiet f → exec h x = Some (h', x') → ∃ l, stack x' = l ++ r ∧ Forall quiet l.
Proof.
  intros Hst Hq He. unfold exec in He. rewrite Hst in He.
  destruct f as [[]|[]|[]| |]; try done; injection He as _ <-;
    repeat case_bool; cbn [stack with_stack];
    first [by exists []|by eexists [_]; split; [reflexivity|repeat constructor]
          |by eexists [_; _]; split; [reflexivity|repeat constructor]].
Qed.

Lemma quiet_frames f r l g :
  quiet f → Forall quiet l → ¬ quiet g → g ∈ f :: r ↔ g ∈ l ++ r.
Proof.
  intros Hf Hl Hg. rewrite elem_of_cons, elem_of_app. rewrite Forall_forall in Hl. split; [intros [->|?]; tauto|].
  intros [Hin|?]; [|tauto]. destruct Hg. by apply Hl.
Qed.

Section steps.
Context (s : sys) (Hs : sys_ok s).

Lemma step_quiet c x f r h' x' :
  cs s !! c = Some x → stack x = f :: r → quiet f → exec (sh s) x = Some (h', x') → sys_ok (Sys h' (<[c := x']> (cs s))).
Proof.
  intros Hc Hst Hq He. pose proof (sy_cpu _ Hs c x Hc) as Hx.
  destruct (exec_stack _ _ _ _ _ _ Hst Hq He) as (l & Hst' & Hl).
  assert (h' = sh s ∧ cpu_ok (sh s) x' ∧ nmiop x' = nmiop x) as (-> & Hx' & Hop).
  { pose proof (sy_n _ Hs) as Hn. pose proof (sy_g _ Hs) as Hg. destruct f as [u|f|n| |]; try done;
      [eapply upd_ok_step|eapply fls_ok_step|eapply nmi_ok_step]; eassumption. }
  assert (has (nmiop x) NMIOP_KMAPUPDATE = true → has (nmiop x') NMIOP_KMAPUPDATE = true) as Hk by (by rewrite Hop).
  apply (sys_local s c x x' Hs Hc Hx' Hk).
  - intros op. rewrite Hst, Hst'. exact (proj1 (quiet_frames f r l (Map (M_mark op)) Hq Hl (λ H, H))).
  - apply (sends_kept s c x x' Hs Hc Hk). intros j js. rewrite Hst, Hst'.
    exact (proj2 (quiet_frames f r l (Bcast (B_nmi j js)) Hq Hl (λ H, H))).
Qed.

(** A CPU whose stack changes in other ways. *)
Lemma stack_ok h x f r l :
  cpu_ok h x → stack x = f :: r → shape (l ++ r) → Forall (frame_ok h x) l → ¬ quiet f →
  (∀ y, covered_n h y ∧ covered_g h y → handled h y (l ++ r)) → cpu_ok h (with_stack (l ++ r) x).
Proof.
  intros Hx Hst Hsh Hl Hq Hh. apply (local_ok h x x f r l); [done|done|split; [apply Hx|done]|done|done|done|].
  intros Hc. apply Hh. destruct f; done.
Qed.

Lemma step_write c x va new r :
  cs s !! c = Some x → stack x = Map (M_write va new) :: r →
  sys_ok (Sys (write_pt va new (sh s))
    (<[c := with_stack (Map (M_mark (change_op (pt (sh s) !! va) new)) :: r) x]> (cs s))).
Proof.
  intros Hc Hst. pose proof (sy_cpu _ Hs c x Hc) as Hx. pose proof (ck_shape _ _ Hx) as Hsh. rewrite Hst in Hsh.
  assert (r = []) as -> by (destruct r; done). set (op := change_op _ _).
  assert (cpu_ok (sh s) (with_stack [Map (M_mark op)] x)) as Hx1.
  { apply (stack_ok (sh s) x (Map (M_write va new)) [] [_]); [done|done|done|by repeat constructor|by intros []|done]. }
  apply (sys_update s c x); try done.
  - unfold write_pt. cbn. case_bool; [apply log_change_ok|]; apply Hs.
  - unfold write_pt. cbn. case_bool; [apply log_change_ok|]; apply Hs.
  - apply write_pt_le.
  - intros y va' t. apply entry_write.
  - apply (cpu_ok_le (sh s)); [apply write_pt_le| |done]. intros va' t Ht. apply entry_write. by apply (ck_core _ _ Hx1).
  - intros j js y Hin. cbn in Hin. set_solver.
  - unfold write_pt. cbn [normal]. fold op. destruct (Z.eqb_spec op HAL_TLBOP_FLUSH) as [E|E].
    + right. exists c, (with_stack [Map (M_mark op)] x). cbn [cs]. split; [apply lookup_insert_eq|]. rewrite E. by left.
    + destruct (sy_mark_n _ Hs) as [?|Hf]; [by left|right]. apply (in_flight_update s c x); [done| |done].
      rewrite Hst. cbn. set_solver.
  - unfold write_pt. cbn [global]. fold op. destruct (Z.eqb_spec op HAL_TLBOP_FLUSHALL) as [E|E].
    + right. exists c, (with_stack [Map (M_mark op)] x). cbn [cs]. split; [apply lookup_insert_eq|]. rewrite E. by left.
    + destruct (sy_mark_g _ Hs) as [?|Hf]; [by left|right]. apply (in_flight_update s c x); [done| |done].
      rewrite Hst. cbn. set_solver.
Qed.

Lemma step_mark c x op r :
  cs s !! c = Some x → stack x = Map (M_mark op) :: r →
  kt_global (kgen (sh s)) + 1 < 2 ^ 64 → kt_normal (kgen (sh s)) + 1 < 2 ^ 64 →
  sys_ok (Sys (mark op (sh s)) (<[c := with_stack r x]> (cs s))).
Proof.
  intros Hc Hst Bg Bn. pose proof (sy_cpu _ Hs c x Hc) as Hx. pose proof (ck_shape _ _ Hx) as Hsh. rewrite Hst in Hsh.
  assert (r = []) as -> by (destruct r; done). pose proof (sy_n _ Hs) as Hn. pose proof (sy_g _ Hs) as Hg.
  rewrite (mark_gen op (sh s) Bg Bn Hn Hg). cbn in Bg, Bn. set (h' := Shared _ _ _).
  assert (cpu_ok (sh s) (with_stack [] x)) as Hx1.
  { apply (stack_ok (sh s) x (Map (M_mark op)) [] []); [done|done|done|done|by intros []|done]. }
  assert (shared_le (sh s) h') as Hle.
  { unfold h'. split; cbn; case_bool; auto using new_gen_le. }
  assert (∀ y va t, entry_ok (sh s) y va t → entry_ok h' y va t) as He by (intros; by apply entry_new_gen).
  apply (sys_update s c x); try done.
  - unfold h'. cbn. case_bool; auto using new_gen_ok.
  - unfold h'. cbn. case_bool; auto using new_gen_ok.
  - apply (cpu_ok_le (sh s)); [done| |done]. intros va' t Ht. apply He. by apply (ck_core _ _ Hx1).
  - intros j js y Hin. cbn in Hin. set_solver.
  - unfold h' at 1 2 3. cbn [normal]. destruct (Z.eqb_spec op HAL_TLBOP_FLUSH) as [E|E].
    + left. exact (new_gen_at _ Hn).
    + destruct (sy_mark_n _ Hs) as [?|Hf]; [by left|right]. apply (in_flight_update s c x); [done| |done].
      rewrite Hst. cbn. set_solver.
  - unfold h' at 1 2 3. cbn [global]. destruct (Z.eqb_spec op HAL_TLBOP_FLUSHALL) as [E|E].
    + left. exact (new_gen_at _ Hg).
    + destruct (sy_mark_g _ Hs) as [?|Hf]; [by left|right]. apply (in_flight_update s c x); [done| |done].
      rewrite Hst. cbn. set_solver.
Qed.

(** A CPU is sent an interrupt. *)
Lemma pend_ok h y :
  ctr_ok (normal h) → ctr_ok (global h) → cpu_ok h y → has (nmiop y) NMIOP_KMAPUPDATE = true →
  cpu_ok h (Cpu (stack y) (nmiop y) (gen y) true (tlb y) (cl_n y) (cl_g y) (kgen h)).
Proof.
  intros [[Wn _] _ _ _] [[Wg _] _ _ _] [[H1 H2 H3 H4 H5 H6 H7 H8] Hsh Hf Hh] Hb. split; [split| | |by left]; cbn; try done.
  intros va t Ht. by destruct (H5 va t Ht).
Qed.

(** Its [nmiop] gets a bit. *)
Definition or_nmiop (b : Z) (y : cpu) : cpu :=
  Cpu (stack y) (Z.lor (nmiop y) b) (gen y) (pend y) (tlb y) (cl_n y) (cl_g y) (due y).

Lemma has_lor a b m : has a m = true → has (Z.lor a b) m = true.
Proof.
  unfold has. rewrite !negb_true_iff, !Z.eqb_neq. intros Ha Hc. apply Ha. apply Z.bits_inj_0. intros i.
  assert (Z.testbit (Z.land (Z.lor a b) m) i = false) as Hi by (rewrite Hc; apply Z.bits_0).
  rewrite Z.land_spec in *. rewrite Z.lor_spec in Hi. destruct (Z.testbit a i), (Z.testbit b i), (Z.testbit m i); done.
Qed.

Lemma or_nmiop_has y : has (nmiop (or_nmiop NMIOP_KMAPUPDATE y)) NMIOP_KMAPUPDATE = true.
Proof. cbn. rewrite Z.lor_comm. by apply has_lor. Qed.

Lemma or_nmiop_ok h y : cpu_ok h y → cpu_ok h (or_nmiop NMIOP_KMAPUPDATE y).
Proof.
  intros [[H1 H2 H3 H4 H5 H6 H7 H8] Hsh Hf Hh]. split; [split| | |]; cbn; try done.
  - intros va t Ht. by destruct (H5 va t Ht).
  - intros Hp. by apply has_lor, H8.
  - eapply Forall_impl; [exact Hf|]. intros f. apply frame_ok_mono. split; cbn; [done..|]. apply has_lor.
Qed.

Lemma fill_ok x va g :
  cpu_ok (sh s) x → pt (sh s) !! va = Some g →
  cpu_ok (sh s) (Cpu (stack x) (nmiop x) (gen x) (pend x)
    (<[va := Tlbe g (changes (normal (sh s))) (changes (global (sh s)))]> (tlb x)) (cl_n x) (cl_g x) (due x)).
Proof.
  intros [[H1 H2 H3 H4 H5 H6 H7 H8] Hsh Hf Hh] Hp. split; [split| | |]; cbn; try done.
  - intros va' t [[<- <-]|[Hne Ht]]%lookup_insert_Some; [|by destruct (H5 va' t Ht)].
    assert (fresh (sh s) va (Tlbe g (changes (normal (sh s))) (changes (global (sh s))))) as Hfr.
    { split; intros (i & Hi & Hl%lookup_lt_Some); unfold changes in Hi; cbn in Hi; lia. }
    split; cbn; try done; try lia. by left.
Qed.

Lemma nmi_start_ok x :
  cpu_ok (sh s) x → pend x = true → existsb is_nmi (stack x) = false →
  cpu_ok (sh s) (Cpu (Nmi N_start :: stack x) (nmiop x) (gen x) false (tlb x) (cl_n x) (cl_g x) (due x)).
Proof.
  intros [[H1 H2 H3 H4 H5 H6 H7 H8] Hsh Hf Hh] Hp Hno. split; [split| | |]; cbn; try done.
  - intros va t Ht. by destruct (H5 va t Ht).
  - destruct (stack x) as [|[| |[]| |] [|[| |[]| |] ?]]; done.
  - constructor; [by apply H8|]. eapply Forall_impl; [exact Hf|]. intros f. by apply frame_ok_mono.
  - by right.
Qed.

Lemma call_ok x f :
  cpu_ok (sh s) x → stack x = [] → callable s f → cpu_ok (sh s) (with_stack [f] x).
Proof.
  intros [[H1 H2 H3 H4 H5 H6 H7 H8] Hsh Hf Hh] Hst Hcall. rewrite Hst in Hh. split; [split| | |]; cbn; try done.
  - intros va t Ht. by destruct (H5 va t Ht).
  - by destruct f as [[]|[]|[]|[]|[]].
  - constructor; [|done]. by destruct f as [[]|[]|[]|[]|[]].
  - destruct Hh as [|Hh]; [by left|right]. by destruct f as [[]|[]|[]|[]|[]].
Qed.

(** The loop of [kmap_commit] goes on to [l]. *)
Lemma bcast_ok h x b r l :
  cpu_ok h x → stack x = Bcast b :: r → (l = [] ∨ ∃ b', l = [Bcast b']) → r = [] ∧ cpu_ok h (with_stack (l ++ r) x).
Proof.
  intros Hx Hst Hl. pose proof (ck_shape _ _ Hx) as Hsh. rewrite Hst in Hsh.
  assert (r = []) as -> by (destruct r; done). split; [done|].
  apply (stack_ok h x (Bcast b) [] l); [done|done| | |by intros []|]; destruct Hl as [->|[b' ->]]; try done.
  by repeat constructor.
Qed.

Lemma step_bset_ok c x r j js y :
  cs s !! c = Some x → stack x = Bcast (B_set (j :: js)) :: r →
  let cs' := <[c := with_stack (Bcast (B_nmi j js) :: r) x]> (cs s) in cs' !! j = Some y →
  sys_ok (Sys (sh s) (<[j := or_nmiop NMIOP_KMAPUPDATE y]> cs')).
Proof.
  intros Hc Hst cs' Hj. pose proof (sy_cpu _ Hs c x Hc) as Hx.
  destruct (bcast_ok _ _ _ _ [Bcast (B_nmi j js)] Hx Hst ltac:(right; eauto)) as [-> Hx1].
  destruct (decide (j = c)) as [->|Hne].
  - unfold cs' in *. rewrite lookup_insert_eq in Hj. injection Hj as <-. rewrite insert_insert_eq.
    apply (sys_local s c x); [done|done|by apply or_nmiop_ok| | |].
    + intros Hb. cbn. by apply has_lor.
    + rewrite Hst. cbn. set_solver.
    + intros j' js' y'. cbn. intros [= <- <-]%list_elem_of_singleton. rewrite lookup_insert_eq. intros [= <-]. apply or_nmiop_has.
  - unfold cs' in *. rewrite lookup_insert_ne in Hj by done. rewrite insert_insert_ne by done.
    assert (sys_ok (Sys (sh s) (<[j := or_nmiop NMIOP_KMAPUPDATE y]> (cs s)))) as Hs1.
    { assert (has (nmiop y) NMIOP_KMAPUPDATE = true → has (nmiop (or_nmiop NMIOP_KMAPUPDATE y)) NMIOP_KMAPUPDATE = true) as Hk
        by (intros; apply or_nmiop_has).
      apply (sys_local s j y); [done|done|by apply or_nmiop_ok, (sy_cpu _ Hs j)|done|done|].
      apply (sends_kept s j y); done. }
    apply (sys_local _ c x _ Hs1); cbn [cs sh]; [by rewrite lookup_insert_ne|done|done| |].
    + rewrite Hst. cbn. set_solver.
    + intros j' js' y'. cbn. intros [= <- <-]%list_elem_of_singleton. rewrite lookup_insert_ne, lookup_insert_eq by done.
      intros [= <-]. apply or_nmiop_has.
Qed.

Lemma step_bnmi_ok c x r j js y :
  cs s !! c = Some x → stack x = Bcast (B_nmi j js) :: r →
  let cs' := <[c := with_stack (Bcast (B_set js) :: r) x]> (cs s) in cs' !! j = Some y →
  sys_ok (Sys (sh s) (<[j := Cpu (stack y) (nmiop y) (gen y) true (tlb y) (cl_n y) (cl_g y) (kgen (sh s))]> cs')).
Proof.
  intros Hc Hst cs' Hj. pose proof (sy_cpu _ Hs c x Hc) as Hx.
  destruct (bcast_ok _ _ _ _ [Bcast (B_set js)] Hx Hst ltac:(right; eauto)) as [-> Hx1].
  assert (sys_ok (Sys (sh s) cs')) as Hs1.
  { apply (sys_local s c x); [done..| |].
    - rewrite Hst. cbn. set_solver.
    - intros j' js' y'. cbn. set_solver. }
  assert (has (nmiop y) NMIOP_KMAPUPDATE = true) as Hb.
  { destruct (decide (j = c)) as [->|Hne]; unfold cs' in Hj.
    - rewrite lookup_insert_eq in Hj. injection Hj as <-. cbn.
      apply (sy_send _ Hs c x c js x Hc); [|done]. rewrite Hst. by left.
    - rewrite lookup_insert_ne in Hj by done. apply (sy_send _ Hs c x j js y Hc); [|done]. rewrite Hst. by left. }
  apply (sys_local _ j y _ Hs1); cbn [cs sh]; [done| |done|done|].
  - apply pend_ok; [apply Hs|apply Hs| |done]. by apply (sy_cpu _ Hs1 j).
  - by apply (sends_kept _ j y _ Hs1).
Qed.

Lemma step_ok s' : step s s' → sys_ok s'.
Proof.
  intros Hstep. destruct Hstep as [c x f Hc Hst Hcall|c x h' x' Hc He|c x Hc Hp Hno|c x va g Hc Hp|c x r j js y Hc Hst cs' Hj
    |c x r j js y Hc Hst cs' Hj|c x r Hc Hst]; try (pose proof (sy_cpu _ Hs c x Hc) as Hx).
  - apply (sys_local s c x); [done|done|by apply call_ok|done| |].
    + rewrite Hst. set_solver.
    + intros j js y. cbn. intros Hin%list_elem_of_singleton. by subst f.
  - destruct (stack x) as [|f r] eqn:Hst; [unfold exec in He; by rewrite Hst in He|].
    destruct f as [u|f|n|[va new|op]|b]; [by eapply step_quiet..| | |]; unfold exec in He; rewrite Hst in He.
    + injection He as <- <-. by apply step_write.
    + destruct ((_ <? _) && (_ <? _)) eqn:Hb; [|done]. injection He as <- <-.
      apply andb_true_iff in Hb as [Hb1%Z.ltb_lt Hb2%Z.ltb_lt]. by apply step_mark.
    + done.
  - apply (sys_local s c x); [done|done|by apply nmi_start_ok|done| |].
    + intros op Hin. by right.
    + apply (sends_kept s c x); [done..|]. intros j js. cbn. set_solver.
  - apply (sys_local s c x); [done|done|by apply fill_ok|done|done|]. by apply (sends_kept s c x).
  - by apply (step_bset_ok c x r j js y).
  - by apply (step_bnmi_ok c x r j js y).
  - destruct (bcast_ok _ _ _ _ [] Hx Hst ltac:(by left)) as [-> Hx1].
    apply (sys_local s c x); [done|done|done|done| |].
    + rewrite Hst. cbn. set_solver.
    + intros j js y. cbn. set_solver.
Qed.

End steps.

(** * Properties *)

(** Every CPU starts with an empty TLB, running nothing modelled here. *)
Definition cpu_start : cpu := Cpu [] 0 (Ktlb 0 0) false ∅ 0 0 (Ktlb 0 0).
Definition ctr_start : ctr := Ctr 0 [] [0].

Definition initial (s : sys) : Prop :=
  normal (sh s) = ctr_start ∧ global (sh s) = ctr_start ∧ ∀ c x, cs s !! c = Some x → x = cpu_start.

Inductive reachable : sys → Prop :=
  | reach_start s : initial s → reachable s
  | reach_step s s' : reachable s → step s s' → reachable s'.

Lemma ctr_start_ok : ctr_ok ctr_start ∧ at_gen ctr_start 0 = 0.
Proof.
  split; [|done]. split; cbn; [done|done| |].
  - intros [|i] [|j] a b _ Ha Hb; try done. injection Ha as <-. by injection Hb as <-.
  - intros [|i] a Ha; [|done]. injection Ha as <-. done.
Qed.

Lemma initial_ok s : initial s → sys_ok s.
Proof.
  intros (Hn & Hg & Hx). destruct ctr_start_ok as [Hc Ha]. split; rewrite ?Hn, ?Hg; try done.
  - intros c x ->%Hx. split; [split| | |right]; cbn; rewrite ?Hn, ?Hg, ?Ha; try done.
    split; unfold covered_n, covered_g; cbn; by rewrite ?Hn, ?Hg.
  - intros c x j js y ->%Hx. cbn. set_solver.
  - by left.
  - by left.
Qed.

Lemma reachable_ok s : reachable s → sys_ok s.
Proof. induction 1 as [s Hi|s s' _ IH Hstep]; [by apply initial_ok|by eapply step_ok]. Qed.

Lemma handled_idle h x l : existsb is_nmi l = false → handled h x l → covered_n h x ∧ covered_g h x.
Proof. destruct l as [|[u| |[]| |] [|[| |[]| |] l]]; cbn; try done; destruct u; done. Qed.

(** C1. TLB shootdown. In every interleaving of any number of CPUs that change
    kernel mappings, commit, flush and take NMIs at any point: a CPU that has no
    NMI pending and has left its handler holds no translation read before a
    change that had been marked when it was last sent an NMI. So when the last
    [kmap_commit] reached it after the last change was marked, and no change is
    half done, every translation in its TLB is the one in the page table. *)
Theorem tlb_shootdown (s : sys) (Hr : reachable s) (c : Z) (x : cpu) (Hc : cs s !! c = Some x)
    (Hp : pend x = false) (Hn : existsb is_nmi (stack x) = false) :
  (∀ va t, tlb x !! va = Some t →
     at_gen (global (sh s)) (kt_global (due x)) ≤ te_g t ∧
     (te_glob t = false → at_gen (normal (sh s)) (kt_normal (due x)) ≤ te_n t)) ∧
  (due x = kgen (sh s) → ¬ in_flight s HAL_TLBOP_FLUSH → ¬ in_flight s HAL_TLBOP_FLUSHALL →
   ∀ va t, tlb x !! va = Some t → fresh (sh s) va t ∧ pt (sh s) !! va = Some (te_glob t)).
Proof.
  pose proof (reachable_ok s Hr) as Hs. pose proof (sy_cpu _ Hs c x Hc) as [Hcore _ _ Hh].
  destruct Hh as [Hh|Hh]; [congruence|]. apply handled_idle in Hh as [Cn Cg]; [|done].
  assert (∀ va t, tlb x !! va = Some t →
     at_gen (global (sh s)) (kt_global (due x)) ≤ te_g t ∧
     (te_glob t = false → at_gen (normal (sh s)) (kt_normal (due x)) ≤ te_n t)) as Hread.
  { intros va t Ht. destruct (co_tlb _ _ Hcore va t Ht) as [_ _ H3 H4 _ _]. unfold covered_n, covered_g in *.
    split; [lia|]. intros Hgl. specialize (H4 Hgl). lia. }
  split; [done|]. intros Hd Fn Fg va t Ht. destruct (Hread va t Ht) as [Rg Rn].
  destruct (co_tlb _ _ Hcore va t Ht) as [_ _ _ _ Hpt Hst]. rewrite Hd in Rg, Rn. cbn in Rg, Rn.
  destruct (sy_mark_n _ Hs) as [Mn|?]; [|done]. destruct (sy_mark_g _ Hs) as [Mg|?]; [|done]. rewrite Mn in Rn. rewrite Mg in Rg.
  assert (¬ written (c_log (global (sh s))) (te_g t) va) as Wg.
  { intros (i & Hi & Hl%lookup_lt_Some). unfold changes in Rg. lia. }
  assert (fresh (sh s) va t) as Hf.
  { destruct (te_glob t); [by destruct (Hst eq_refl)|]. split; [|done].
    intros (i & Hi & Hl%lookup_lt_Some). specialize (Rn eq_refl). unfold changes in Rn. lia. }
  by split; [|apply Hpt].
Qed.

(** ** A run, for evaluation *)

Inductive act : Set :=
  | A_call (f : frame)
  | A_exec
  | A_nmi
  | A_fill (va : Z)
  | A_bcast.

Definition callable_b (s : sys) (f : frame) : bool :=
  match f with
  | Upd U_start | Fls F_start | Map (M_write _ _) => true
  | Bcast (B_set js) => bool_decide (list_to_set js = dom (cs s))
  | _ => false
  end.

(** One step of CPU [c]. *)
Definition run_act (s : sys) (c : Z) (a : act) : option sys :=
  x ← cs s !! c;
  match a with
  | A_call f =>
      if Nat.eqb (length (stack x)) 0 && callable_b s f then Some (Sys (sh s) (<[c := with_stack [f] x]> (cs s))) else None
  | A_exec => r ← exec (sh s) x; Some (Sys r.1 (<[c := r.2]> (cs s)))
  | A_nmi =>
      if pend x && negb (existsb is_nmi (stack x)) then
        Some (Sys (sh s) (<[c := Cpu (Nmi N_start :: stack x) (nmiop x) (gen x) false (tlb x) (cl_n x) (cl_g x) (due x)]> (cs s)))
      else None
  | A_fill va =>
      g ← pt (sh s) !! va;
      Some (Sys (sh s) (<[c := Cpu (stack x) (nmiop x) (gen x) (pend x)
        (<[va := Tlbe g (changes (normal (sh s))) (changes (global (sh s)))]> (tlb x)) (cl_n x) (cl_g x) (due x)]> (cs s)))
  | A_bcast =>
      match stack x with
      | Bcast (B_set []) :: r => Some (Sys (sh s) (<[c := with_stack r x]> (cs s)))
      | Bcast (B_set (j :: js)) :: r =>
          let cs' := <[c := with_stack (Bcast (B_nmi j js) :: r) x]> (cs s) in
          y ← cs' !! j; Some (Sys (sh s) (<[j := or_nmiop NMIOP_KMAPUPDATE y]> cs'))
      | Bcast (B_nmi j js) :: r =>
          let cs' := <[c := with_stack (Bcast (B_set js) :: r) x]> (cs s) in
          y ← cs' !! j;
          Some (Sys (sh s) (<[j := Cpu (stack y) (nmiop y) (gen y) true (tlb y) (cl_n y) (cl_g y) (kgen (sh s))]> cs'))
      | _ => None
      end
  end.

Fixpoint run_acts (s : sys) (l : list (Z * act)) : option sys :=
  match l with [] => Some s | (c, a) :: l' => s' ← run_act s c a; run_acts s' l' end.

Lemma callable_b_true s f : callable_b s f = true → callable s f.
Proof.
  destruct f as [[]|[]|[]|[]|[js|]]; cbn; try done. intros Hd%bool_decide_eq_true j.
  rewrite <- elem_of_dom, <- Hd. by rewrite elem_of_list_to_set.
Qed.

Lemma run_act_step s c a s' : run_act s c a = Some s' → step s s'.
Proof.
  unfold run_act. destruct (cs s !! c) as [x|] eqn:Hc; [|done]. cbn. destruct a as [f| | |va|].
  - destruct (Nat.eqb _ _ && _) eqn:Hb; [|done]. apply andb_true_iff in Hb as [Hst%Nat.eqb_eq Hf].
    apply length_zero_iff_nil in Hst. intros [= <-]. by apply step_call, callable_b_true.
  - destruct (exec (sh s) x) as [[h' x']|] eqn:He; [|done]. cbn. intros [= <-]. by apply (step_exec _ c x).
  - destruct (pend x && _) eqn:Hb; [|done]. apply andb_true_iff in Hb as [Hp Hno%negb_true_iff].
    intros [= <-]. by apply step_nmi.
  - destruct (pt (sh s) !! va) as [g|] eqn:Hg; [|done]. cbn. intros [= <-]. by apply (step_fill _ c x).
  - destruct (stack x) as [|[| | | |[[|j js]|j js]] r] eqn:Hst; try done.
    + intros [= <-]. by apply step_bdone.
    + destruct (_ !! j) as [y|] eqn:Hj; [|done]. cbn. intros [= <-]. by eapply step_bset.
    + destruct (_ !! j) as [y|] eqn:Hj; [|done]. cbn. intros [= <-]. by eapply step_bnmi.
Qed.

Lemma run_acts_reachable l : ∀ s s', reachable s → run_acts s l = Some s' → reachable s'.
Proof.
  induction l as [|[c a] l IH]; intros s s' Hr; cbn; [by intros [= <-]|].
  destruct (run_act s c a) as [s1|] eqn:Ha; [|done]. cbn. apply IH. by eapply reach_step, run_act_step.
Qed.

(** CPU 0 unmaps page 1, which CPU 1 has cached, and commits. *)
Definition ex_before : sys :=
  Sys (Shared {[1 := false; 2 := true]} ctr_start ctr_start) {[0 := cpu_start; 1 := cpu_start]}.

(** CPU 1 caches pages 1 and 2, CPU 0 unmaps page 1 and commits, both handle their
    NMI, CPU 1 in the middle of an update of its own. *)
Definition ex_acts : list (Z * act) :=
  [(1, A_fill 1); (1, A_fill 2); (0, A_call (Map (M_write 1 None))); (0, A_exec); (1, A_call (Upd U_start)); (1, A_exec);
   (1, A_exec); (1, A_exec); (0, A_exec); (0, A_call (Bcast (B_set [0; 1])))] ++
  replicate 5 (0, A_bcast) ++ [(1, A_nmi)] ++ replicate 11 (1, A_exec) ++ [(0, A_nmi)] ++ replicate 11 (0, A_exec) ++
  replicate 2 (1, A_exec).

Definition ex_after : sys := default ex_before (run_acts ex_before ex_acts).
Definition ex_cpu1 : cpu := default cpu_start (cs ex_after !! 1).

Definition is_map (f : frame) : bool := match f with Map _ => true | _ => false end.

Lemma ex_reachable : reachable ex_after.
Proof.
  apply (run_acts_reachable ex_acts ex_before); [|vm_compute; reflexivity].
  apply reach_start. split_and!; [done..|]. intros c x. cbn [cs ex_before].
  intros [[_ <-]|[_ [_ <-]%lookup_singleton_Some]]%lookup_insert_Some; done.
Qed.

Lemma ex_not_in_flight op : ¬ in_flight ex_after op.
Proof.
  assert (map_Forall (λ _ x, existsb is_map (stack x) = false) (cs ex_after)) as Hf
    by (apply (bool_decide_unpack _); vm_compute; done).
  intros (c & x & Hx & Hin). specialize (Hf c x Hx). cbn in Hf.
  assert (existsb is_map (stack x) = true); [|congruence].
  apply existsb_exists. exists (Map (M_mark op)). split; [by apply list_elem_of_In|done].
Qed.

Lemma tlb_shootdown_witness :
  tlb ex_cpu1 !! 1 = None ∧
  ∃ t, tlb ex_cpu1 !! 2 = Some t ∧ fresh (sh ex_after) 2 t ∧ pt (sh ex_after) !! 2 = Some (te_glob t).
Proof.
  split; [vm_compute; reflexivity|].
  assert (tlb ex_cpu1 !! 2 = Some (Tlbe true 0 0)) as Ht by (vm_compute; reflexivity).
  exists (Tlbe true 0 0). split; [exact Ht|].
  refine (proj2 (tlb_shootdown ex_after ex_reachable 1 ex_cpu1 _ _ _) _ _ _ 2 _ Ht);
    [vm_compute; reflexivity|vm_compute; reflexivity|vm_compute; reflexivity|vm_compute; reflexivity|apply ex_not_in_flight..].
Defined.
