(* ===== verification/Apxh.v ===== *)
(** The boot loader: its memory and page allocation (apxh/src/main.c, and get_page as
    multiboot/mb.c and sbi/md.c have it), and the page tables it builds, four levels
    for amd64 (apxh/src/pae.c) and for RISC-V (apxh/src/rv64-sv.c).

    The loader runs with physical memory mapped at its own addresses, so that a pointer
    is a physical address. Pointers have 64 bits; the 32-bit multiboot loader has all
    of its memory below 4 GB. *)

From S2P Require Import Prelude Words Locks Machine PageTable.

(** The limit on frame numbers that the lemmas on page tables ask for: physical
    addresses have 52 bits. *)
#[export] Instance boot_config : Config := {| hal_virtmem_dmapbase := 2 ^ 12; max_dmap_pfn := 2 ^ 40;
    hal_physmem_maxpfn := 2 ^ 40 |}.

Definition BOOTMEM : Z := Z.shiftl 512 20.
Definition PAGE_ROUND (a : Z) : Z := Z.land (u64 (a + (PAGE_SIZE - 1))) (Z.lnot (PAGE_SIZE - 1)).
Definition PAGE_CEILING (a : Z) : Z := Z.land (u64 (a + PAGE_SIZE)) (Z.lnot (PAGE_SIZE - 1)).

(** Frames of memory, the break of get_page, the root of the payload's page table, and
    the variables of main.c. *)
Record boot := Boot {
  b_fs : gmap Z (list Z);
  brk : Z;
  root : Z;
  boot_pagemap : list Z;
  stop_payload_allocation : bool;
  minramaddr : Z;
}.

Definition set_fs (x : gmap Z (list Z)) (s : boot) : boot := Boot x (brk s) (root s) (boot_pagemap s)
    (stop_payload_allocation s) (minramaddr s).
Definition set_brk (x : Z) (s : boot) : boot := Boot (b_fs s) x (root s) (boot_pagemap s) (stop_payload_allocation s)
    (minramaddr s).
Definition set_root (x : Z) (s : boot) : boot := Boot (b_fs s) (brk s) x (boot_pagemap s) (stop_payload_allocation s)
    (minramaddr s).
Definition set_pagemap (x : list Z) (s : boot) : boot := Boot (b_fs s) (brk s) (root s) x (stop_payload_allocation s)
    (minramaddr s).

(** * Memory *)

Definition pa_frame (p : Z) : Z := p `div` 4096.
Definition pa_word (p : Z) : Z := (p `div` 8) `mod` 512.

Definition pload (p : Z) : M boot Z := λ s,
  if negb (p `mod` 8 =? 0) then Abort Undef
  else match frame_word (b_fs s) (pa_frame p) (pa_word p) with Some w => Ret (w, s) | None => Abort Fault end.
Definition pstore (p v : Z) : M boot unit := λ s,
  if negb (p `mod` 8 =? 0) then Abort Undef
  else match frame_word (b_fs s) (pa_frame p) (pa_word p) with
       | Some _ => Ret (tt, set_fs (frame_update (b_fs s) (pa_frame p) (pa_word p) v) s)
       | None => Abort Fault
       end.

(** [memset (p, 0, PAGE_SIZE)] of a page. *)
Definition clear_page (p : Z) : M boot unit := λ s,
  match b_fs s !! pa_frame p with
  | Some _ => Ret (tt, set_fs (<[pa_frame p := zero_page]> (b_fs s)) s)
  | None => Abort Fault
  end.

(** Bytes of words, least significant first. *)
Definition word_byte (w k : Z) : Z := u8 (Z.shiftr w (8 * k)).
Definition put_byte (w k v : Z) : Z := Z.lor (Z.land w (not64 (Z.shiftl 0xff (8 * k)))) (Z.shiftl v (8 * k)).

Definition frame_byte (fs : gmap Z (list Z)) (p : Z) : option Z := w ← frame_word fs (pa_frame p) (pa_word p);
    Some (word_byte w (p `mod` 8)).

Definition pstore_byte (p v : Z) : M boot unit := λ s,
  match frame_word (b_fs s) (pa_frame p) (pa_word p) with
  | Some w => Ret (tt, set_fs (frame_update (b_fs s) (pa_frame p) (pa_word p) (put_byte w (p `mod` 8) v)) s)
  | None => Abort Fault
  end.

(** [memcpy], and [memset], to a physical address. *)
Fixpoint pstore_bytes (p : Z) (l : list Z) : M boot unit :=
  match l with
  | [] => mret tt
  | v :: l' => pstore_byte p v;; pstore_bytes (p + 1) l'
  end.

(** * Pages *)

Definition get_page : M boot Z :=
  b ← gets brk;
  let m := PAGE_ROUND b in
  modify (set_brk (u64 (m + PAGE_SIZE)));;
  clear_page m;;
  mret m.

Definition get_payload_page : M boot Z :=
  stopped ← gets stop_payload_allocation;
  assertb (negb stopped);;
  base ← gets minramaddr;
  page ← get_page;
  assertb (u64 (page - base) <? BOOTMEM);;
  clear_page page;;
  let pfn := u32 (Z.shiftr page PAGE_SHIFT) in
  let i := Z.to_nat (Z.shiftr (u64 (page - base)) (PAGE_SHIFT + 3)) in
  pm ← gets boot_pagemap;
  b ← opt_or Fault (pm !! i);
  modify (set_pagemap (<[i := u8 (Z.lor b (Z.shiftl 1 (Z.land pfn 7)))]> pm));;
  mret page.

Definition check_payload_page (addr : Z) : M boot bool :=
  base ← gets minramaddr;
  let i := u32 (Z.shiftr (u64 (u32 addr - base)) PAGE_SHIFT) in
  let by_ := Z.shiftr i 3 in
  assertb (by_ <=? Z.shiftr (Z.shiftr BOOTMEM PAGE_SHIFT) 3);;
  pm ← gets boot_pagemap;
  b ← opt_or Fault (pm !! Z.to_nat by_);
  mret (negb (Z.land b (Z.shiftl 1 (Z.land i 7)) =? 0)).

(** * Page tables *)

Inductive memory_type := MEMTYPE_WC | MEMTYPE_WB | MEMTYPE_UC.

(** What the two architectures differ in: the entry of a frame, the address and the
    flags in one, the flags of tables, of pages and of the linear map, and how flags
    merge. *)
Class BootArch := {
  mk_pte : Z → Z → Z;
  pte_addr_bits : Z → Z;
  pte_flag_bits : Z → Z;
  table_flags : Z;
  page_flags : bool → bool → bool → Z;
  direct_flags : memory_type → bool → bool → Z;
  linear_flags : Z;
  pte_mergeflags : Z → Z → M boot Z;
  page_1g : bool;
}.

Section tables.
Context `{!BootArch}.

Definition set_pte (ptep pfn flags : Z) : M boot unit := pstore ptep (mk_pte pfn flags).

(** Bit 0 is PTE_P and PTE_V. *)
Definition pte_getaddr (ptep : Z) : M boot Z :=
  pte ← pload ptep;
  mret (if Z.land pte 1 =? 0 then 0 else pte_addr_bits pte).

Definition pte_getflags (ptep : Z) : M boot Z := pte ← pload ptep; mret (pte_flag_bits pte).

Definition any_page (payload : bool) : M boot Z := if payload then get_payload_page else get_page.

(** The table that an entry points to, made when there is none. *)
Definition table_of (ptep : Z) (payload : bool) : M boot Z :=
  p ← pte_getaddr ptep;
  if p =? 0 then
    page ← any_page payload;
    set_pte ptep (Z.shiftr page PAGE_SHIFT) table_flags;;
    mret page
  else mret p.

Definition get_l3p (cr3 va : Z) (payload : bool) : M boot Z :=
  l3p ← table_of (cr3 + 8 * L4OFF va) payload;
  mret (l3p + 8 * L3OFF va).
Definition get_l2p (cr3 va : Z) (payload : bool) : M boot Z :=
  l3p ← get_l3p cr3 va payload;
  l2p ← table_of l3p payload;
  mret (l2p + 8 * L2OFF va).
Definition get_l1p (cr3 va : Z) (payload : bool) : M boot Z :=
  l2p ← get_l2p cr3 va payload;
  l1p ← table_of l2p payload;
  mret (l1p + 8 * L1OFF va).

Definition pt_init : M boot unit := r ← get_payload_page; modify (set_root r).

Definition map_page (cr3 va pa : Z) (payload w x : bool) : M boot unit :=
  l1p ← get_l1p cr3 va payload;
  page ← pte_getaddr l1p;
  assertb (page =? 0);;
  set_pte l1p (Z.shiftr pa PAGE_SHIFT) (page_flags false w x).

Definition populate_page (cr3 va : Z) (u w x payload : bool) : M boot Z :=
  l1p ← get_l1p cr3 va payload;
  let l1f := page_flags u w x in
  page ← pte_getaddr l1p;
  if page =? 0 then
    page ← any_page payload;
    set_pte l1p (Z.shiftr page PAGE_SHIFT) l1f;;
    mret page
  else
    oldf ← pte_getflags l1p;
    newf ← pte_mergeflags l1f oldf;
    when (negb (newf =? oldf)) (set_pte l1p (Z.shiftr page PAGE_SHIFT) newf);;
    mret page.

(** The entry a table has for the next level, which has to be there. *)
Definition must_have (ptep : Z) : M boot Z := p ← pte_getaddr ptep; assertb (negb (p =? 0));; mret p.

Definition getphys (va : Z) : M boot Z :=
  r ← gets root;
  l3p ← must_have (r + 8 * L4OFF va);
  l2p ← must_have (l3p + 8 * L3OFF va);
  l1p ← must_have (l2p + 8 * L2OFF va);
  page ← must_have (l1p + 8 * L1OFF va);
  mret (Z.lor page (Z.land va (PAGE_SIZE - 1))).

Definition GB1ALIGNED (a : Z) : bool := Z.land a (Z.shiftl 1 30 - 1) =? 0.
Definition MB2ALIGNED (a : Z) : bool := Z.land a (Z.shiftl 1 21 - 1) =? 0.

Fixpoint directmap_loop (fuel : nat) (cr3 pa va len : Z) (mt : memory_type) (payload x : bool) : M boot unit :=
  if 0 <? len then
    match fuel with
    | O => stop Hang
    | S fuel' =>
        let next sz := directmap_loop fuel' cr3 (u64 (pa + sz)) (u64 (va + sz)) (len - sz) mt payload x in
        if page_1g && GB1ALIGNED pa && GB1ALIGNED va && (Z.shiftl 1 30 <=? len) then
          l3p ← get_l3p cr3 va payload;
          set_pte l3p (Z.shiftr pa PAGE_SHIFT) (direct_flags mt false x);;
          next (Z.shiftl 1 30)
        else if MB2ALIGNED pa && MB2ALIGNED va && (Z.shiftl 1 21 <=? len) then
          l2p ← get_l2p cr3 va payload;
          set_pte l2p (Z.shiftr pa PAGE_SHIFT) (direct_flags mt false x);;
          next (Z.shiftl 1 21)
        else
          l1p ← get_l1p cr3 va payload;
          set_pte l1p (Z.shiftr pa PAGE_SHIFT) (direct_flags mt true x);;
          next (Z.shiftl 1 PAGE_SHIFT)
    end
  else mret tt.

(** Every turn covers at least a page. *)
Definition directmap (cr3 pabase va size : Z) (mt : memory_type) (payload x : bool) : M boot unit :=
  directmap_loop (Z.to_nat (size `div` PAGE_SIZE + 1)) cr3 pabase va (s64 size) mt payload x.
Definition physmap (va size pa : Z) (mt : memory_type) : M boot unit := r ← gets root; directmap r pa va size mt true false.

Definition topptalloc (va size : Z) : M boot unit :=
  r ← gets root;
  for_each (seqZ 0 (u32 (Z.shiftr (u64 (size + Z.shiftl 1 30 - 1)) 30))) (λ i,
    get_l3p r (u64 (va + u32 (Z.shiftl i PAGE_SHIFT))) true;; mret tt).

Definition ptalloc (va size : Z) : M boot unit :=
  r ← gets root;
  for_each (seqZ 0 (u32 (Z.shiftr size PAGE_SHIFT))) (λ i, get_l1p r (u64 (va + u32 (Z.shiftl i PAGE_SHIFT))) true;;
    mret tt).

Definition LINEAR_SIZE : Z := Z.shiftl 1 39.

(** The two failures are messages and [exit (-1)]. *)
Definition linear (va size : Z) : M boot unit :=
  if negb (Z.land va (LINEAR_SIZE - 1) =? 0) then stop Fatal
  else if size <? LINEAR_SIZE then stop Fatal
  else r ← gets root; set_pte (r + 8 * L4OFF va) (Z.shiftr r PAGE_SHIFT) linear_flags.

Fixpoint populate_loop (fuel : nat) (va len : Z) (u w x : bool) : M boot unit :=
  if 0 <? len then
    match fuel with
    | O => stop Hang
    | S fuel' =>
        r ← gets root;
        populate_page r va u w x true;;
        let d := u64 (PAGE_CEILING va - va) in
        populate_loop fuel' (u64 (va + d)) (len - d) u w x
    end
  else mret tt.
Definition page_turns (size : Z) : nat := Z.to_nat (size `div` PAGE_SIZE + 2).
Definition populate (va size : Z) (u w x : bool) : M boot unit := populate_loop (page_turns size) va (s64 size) u w x.

End tables.

(** * amd64 *)

Definition memtype_to_flags (mt : memory_type) (small : bool) : Z :=
  let pat := if small then Z.shiftl 1 7 else Z.shiftl 1 12 in
  match mt with
  | MEMTYPE_WC => Z.lor (Z.lor pat (Z.shiftl 1 4)) (Z.shiftl 1 3)
  | MEMTYPE_WB => 0
  | MEMTYPE_UC => Z.lor (Z.shiftl 1 4) (Z.shiftl 1 3)
  end.

Section pae64.
Context (nx_enabled p1g : bool).

Definition PTE_NX : Z := if nx_enabled then Z.shiftl 1 63 else 0.

Definition pae_addr_mask : Z := 0x7ffffffffffff000.

Definition pae_mergeflags (fl1 fl2 : Z) : M boot Z :=
  assertb (negb (Z.land (Z.land fl1 fl2) 1 =? 0));;
  if negb (Z.land fl1 4 =? Z.land fl2 4) then stop Fatal
  else mret (Z.lor (Z.lor (Z.lor 1 (Z.land fl1 4)) (Z.land (Z.lor fl1 fl2) 2)) (Z.land (Z.land fl1 fl2) PTE_NX)).

Definition pae64 : BootArch := {|
  mk_pte pfn flags := Z.lor (u64 (Z.shiftl pfn PAGE_SHIFT)) flags;
  pte_addr_bits pte := Z.land pte pae_addr_mask;
  pte_flag_bits pte := Z.land pte (not64 pae_addr_mask);
  table_flags := 7;
  page_flags u w x := Z.lor (Z.lor (Z.lor (if u then 4 else 0) (if w then 2 else 0)) (if x then 0 else PTE_NX)) 1;
  direct_flags mt small x := Z.lor (Z.lor (memtype_to_flags mt small) (if small then 3 else Z.lor (Z.shiftl 1 7) 3))
    (if x then 0 else PTE_NX);
  linear_flags := 3;
  pte_mergeflags := pae_mergeflags;
  page_1g := p1g;
|}.

End pae64.

(** * RISC-V *)

Definition sv_addr_mask : Z := 0x7ffffffffffffc00.

Definition sv_mergeflags (fl1 fl2 : Z) : M boot Z :=
  assertb (negb (Z.land (Z.land fl1 fl2) 1 =? 0));;
  assertb (negb (Z.land (Z.land fl1 fl2) 2 =? 0));;
  if negb (Z.land fl1 16 =? Z.land fl2 16) then stop Fatal
  else mret (Z.lor (Z.lor (Z.lor 3 (Z.land fl1 16)) (Z.land (Z.lor fl1 fl2) 4)) (Z.land (Z.lor fl1 fl2) 8)).

Definition sv48 : BootArch := {|
  mk_pte pfn flags := Z.lor (u64 (Z.shiftl pfn 10)) flags;
  pte_addr_bits pte := u64 (Z.shiftl (Z.land pte sv_addr_mask) 2);
  pte_flag_bits pte := Z.land pte (not64 sv_addr_mask);
  table_flags := 1;
  page_flags u w x := Z.lor (Z.lor (Z.lor (if u then 16 else 0) (if w then 4 else 0)) (if x then 8 else 0)) 3;
  direct_flags _ _ x := Z.lor (if x then 8 else 0) 7;
  linear_flags := 1;
  pte_mergeflags := sv_mergeflags;
  page_1g := true;
|}.
