(* ===== verification/ApxhPt.v ===== *)
(** The page tables of the boot loader form a tree, and each operation does to the
    translations what it says. *)

From S2P Require Import Prelude Words Locks Machine PageTable Apxh.

(** The CPU's reading of an entry above the last level: whether it maps a page. *)
Class BootCpu := pte_large : Z → bool.

#[export] Instance boot_format `{!BootArch, !BootCpu} : PteFormat := {|
  pte_present e := negb (Z.land e 1 =? 0) && negb (pte_large e);
  pte_frame e := pte_addr_bits e `div` 4096;
  pte_table_ok _ := true;
|}.

Definition pfn_ok (f : Z) : Prop := 0 < f < 2 ^ 40.

Class BootArchOk `{!BootArch, !BootCpu} : Prop := {
  table_pte f : pfn_ok f → pte_present (mk_pte f table_flags) = true ∧ pte_addr_bits (mk_pte f table_flags) = 4096 * f;
  page_pte f u w x : pfn_ok f → Z.land (mk_pte f (page_flags u w x)) 1 ≠ 0 ∧
    pte_addr_bits (mk_pte f (page_flags u w x)) = 4096 * f ∧
    pte_flag_bits (mk_pte f (page_flags u w x)) = page_flags u w x;
  merge_flags u w x u' w' x' s : pte_mergeflags (page_flags u w x) (page_flags u' w' x') s = if eqb u u' then Ret
    (page_flags u (w || w') (x || x'), s) else Abort Fatal;
  addr_page e : (4096 | pte_addr_bits e);
  addr_pos e : 0 ≤ pte_addr_bits e;
}.

#[export] Instance boot_format_ok `{!BootArch, !BootCpu} : PteFormatOk.
Proof. split. done. Qed.

#[export] Instance boot_config_ok : ConfigOk.
Proof. split; vm_compute; try done. Qed.

(** * Addresses and memory *)

Lemma page_round_eq a : 0 ≤ a → a + 4095 < 2 ^ 64 → PAGE_ROUND a = 4096 * ((a + 4095) `div` 4096).
Proof.
  intros Ha Hb. unfold PAGE_ROUND. change (PAGE_SIZE - 1) with (Z.ones 12). unfold u64.
  rewrite Z.mod_small by (change (Z.ones 12) with 4095; lia).
  change (a + Z.ones 12) with (a + 4095). rewrite <- Z.ldiff_land, Z.ldiff_ones_r by lia.
  rewrite Z.shiftr_div_pow2, Z.shiftl_mul_pow2 by lia. change (2 ^ 12) with 4096. lia.
Qed.

Lemma page_ceiling_eq a : 0 ≤ a → a + 4096 < 2 ^ 64 → PAGE_CEILING a = 4096 * (a `div` 4096) + 4096.
Proof.
  intros Ha Hb. unfold PAGE_CEILING. change (PAGE_SIZE - 1) with (Z.ones 12). change PAGE_SIZE with 4096. unfold u64.
  rewrite Z.mod_small by lia.
  rewrite <- Z.ldiff_land, Z.ldiff_ones_r by lia. rewrite Z.shiftr_div_pow2, Z.shiftl_mul_pow2 by lia.
  change (2 ^ 12) with 4096. Z.div_mod_to_equations. lia.
Qed.

Lemma addr_split f i : index_ok i → pa_frame (4096 * f + 8 * i) = f ∧ pa_word (4096 * f + 8 * i) = i ∧
    (4096 * f + 8 * i) `mod` 8 = 0.
Proof. unfold index_ok, pa_frame, pa_word. intros Hi. Z.div_mod_to_equations. lia. Qed.

Lemma pload_run f i s : frame_ok (b_fs s) f → index_ok i → pload (4096 * f + 8 * i) s = Ret (entry (b_fs s) f i, s).
Proof.
  intros Hf Hi. destruct (addr_split f i Hi) as (Ef & Ei & Ea). unfold pload. rewrite Ea, Ef, Ei. cbn [Z.eqb negb].
  destruct (frame_word_ok _ _ _ Hf Hi) as [w Hw]. unfold entry. by rewrite Hw.
Qed.

Lemma pstore_run f i v s : frame_ok (b_fs s) f → index_ok i →
    pstore (4096 * f + 8 * i) v s = Ret (tt, set_fs (frame_update (b_fs s) f i v) s).
Proof.
  intros Hf Hi. destruct (addr_split f i Hi) as (Ef & Ei & Ea). unfold pstore. rewrite Ea, Ef, Ei. cbn [Z.eqb negb].
  destruct (frame_word_ok _ _ _ Hf Hi) as [w Hw]. by rewrite Hw.
Qed.

(** * Allocating *)

(** The next page of the break, and the memory from there to frame [lim]. *)
Definition next_pfn (s : boot) : Z := (brk s + 4095) `div` 4096.

(** The bits of the pages of the payload, those from frame [n0] on. Whether the two
    functions mean the same bit depends on where memory starts. *)
Definition page_bit (s : boot) (f : Z) : bool := Z.testbit
    (boot_pagemap s !!! Z.to_nat ((4096 * f - minramaddr s) `div` 32768)) (f `mod` 8).
Definition marked (n0 : Z) (s : boot) : Prop :=
  (32768 | minramaddr s) → ∀ f, minramaddr s ≤ 4096 * f < minramaddr s + BOOTMEM → page_bit s f = true ↔ n0 ≤ f < next_pfn s.

Record ram_ok (n0 lim : Z) (s : boot) : Prop := {
  ra_brk : 0 < brk s ≤ 4096 * lim;
  ra_lim : lim ≤ 2 ^ 40;
  ra_ram f : next_pfn s ≤ f < lim → frame_ok (b_fs s) f;
  ra_min : 0 ≤ minramaddr s ≤ brk s;
  ra_map : length (boot_pagemap s) = Z.to_nat (BOOTMEM `div` (4096 * 8));
  ra_first : n0 ≤ next_pfn s ∧ minramaddr s ≤ 4096 * n0 ∧ (next_pfn s = n0 ∨ 4096 * next_pfn s ≤ minramaddr s + BOOTMEM);
  ra_marks : marked n0 s;
}.

(** [n] more pages can be had for the payload. *)
Definition room (lim n : Z) (s : boot) : Prop :=
  stop_payload_allocation s = false ∧ next_pfn s + n ≤ lim ∧ 4096 * (next_pfn s + n) ≤ minramaddr s + BOOTMEM.

(** The bit that get_payload_page sets for a page. *)
Definition mark_page (s : boot) (f : Z) : list Z :=
  let i := Z.to_nat ((4096 * f - minramaddr s) `div` 32768) in
  <[i := u8 (Z.lor (boot_pagemap s !!! i) (Z.shiftl 1 (u32 f `mod` 8)))]> (boot_pagemap s).

Definition with_page (s : boot) : boot :=
  Boot (<[next_pfn s := zero_page]> (b_fs s)) (4096 * (next_pfn s + 1)) (root s) (mark_page s (next_pfn s))
    (stop_payload_allocation s) (minramaddr s).

Lemma next_pfn_pos n0 lim s : ram_ok n0 lim s → 0 < next_pfn s ≤ lim.
Proof. intros H. pose proof (ra_brk _ _ _ H). unfold next_pfn. Z.div_mod_to_equations. lia. Qed.

Lemma clear_page_run f s : frame_ok (b_fs s) f → clear_page (4096 * f) s = Ret (tt, set_fs (<[f := zero_page]> (b_fs s)) s).
Proof. intros (_ & l & Hl & _). unfold clear_page, pa_frame. rewrite Z.mul_comm, Z.div_mul by lia. by rewrite Hl. Qed.

Lemma get_payload_page_run n0 lim s : ram_ok n0 lim s → room lim 1 s →
    get_payload_page s = Ret (4096 * next_pfn s, with_page s).
Proof.
  intros Hr (Hstop & Hlim & Hbm). pose proof (next_pfn_pos _ _ _ Hr) as Hn.
  destruct Hr as [Hbrk Hl40 Hram Hmin Hmap]. set (n := next_pfn s) in *.
  assert (frame_ok (b_fs s) n) as Hf by (apply Hram; lia). unfold get_payload_page.
  rewrite bind_gets, Hstop, bind_assert by done. rewrite bind_gets.
  assert (get_page s = Ret (4096 * n, set_fs (<[n := zero_page]> (b_fs s)) (set_brk (4096 * (n + 1)) s))) as Hg.
  { unfold get_page. rewrite bind_gets, bind_modify. cbn zeta. rewrite page_round_eq by lia. fold (next_pfn s).
    fold n. change PAGE_SIZE with 4096. unfold u64. rewrite Z.mod_small by lia.
    rewrite (bind_Ret _ _ _ _ _ (clear_page_run n (set_brk (4096 * n + 4096) s) Hf)).
    by replace (4096 * n + 4096) with (4096 * (n + 1)) by lia. }
  rewrite (bind_Ret _ _ _ _ _ Hg). assert (brk s ≤ 4096 * n) as Hb by (unfold n, next_pfn; Z.div_mod_to_equations; lia).
  assert (u64 (4096 * n - minramaddr s) = 4096 * n - minramaddr s) as -> by (apply Z.mod_small; lia).
  rewrite bind_assert by (apply Z.ltb_lt; lia).
  assert (frame_ok (<[n := zero_page]> (b_fs s)) n) as Hf' by (apply frame_zero_ok; [destruct Hf; lia|done]).
  rewrite (bind_Ret _ _ _ _ _ (clear_page_run n (set_fs (<[n := zero_page]> (b_fs s)) (set_brk (4096 * (n + 1)) s))
    Hf')). cbn zeta. rewrite bind_gets. cbn [boot_pagemap set_fs set_brk b_fs].
  change PAGE_SHIFT with 12. rewrite !Z.shiftr_div_pow2 by lia. change (2 ^ (12 + 3)) with 32768.
  change (2 ^ 12) with 4096. rewrite (Z.mul_comm 4096 n), Z.div_mul, (Z.mul_comm n 4096) by lia.
  assert (Z.to_nat ((4096 * n - minramaddr s) `div` 32768) < length (boot_pagemap s))%nat as Hi.
  { rewrite Hmap. change (BOOTMEM `div` (4096 * 8)) with 16384.
    assert ((4096 * n - minramaddr s) `div` 32768 < 16384) by (apply Z.div_lt_upper_bound; [lia|];
      change BOOTMEM with 536870912 in Hbm; lia). lia. }
  destruct (lookup_lt_is_Some_2 _ _ Hi) as [b Hb0]. rewrite Hb0, bind_opt, bind_modify.
  unfold mret, M_ret, with_page, mark_page. fold n.
  rewrite (list_lookup_total_correct _ _ _ Hb0). change (Z.land (u32 n) 7) with (Z.land (u32 n) (Z.ones 3)).
  rewrite Z.land_ones by lia. change (2 ^ 3) with 8.
  by rewrite insert_insert_eq.
Qed.

Lemma next_with_page s : next_pfn (with_page s) = next_pfn s + 1.
Proof. unfold next_pfn at 1. cbn. Z.div_mod_to_equations. lia. Qed.

Lemma page_byte s f : (32768 | minramaddr s) → (4096 * f - minramaddr s) `div` 32768 = f `div` 8 - minramaddr s `div` 32768.
Proof. intros [q ->]. rewrite Z.div_mul by lia.
  replace (4096 * f - q * 32768) with (4096 * f + (- q) * 32768) by lia. rewrite Z.div_add by lia.
  change 32768 with (4096 * 8). rewrite Z.div_mul_cancel_l by lia. lia. Qed.

Lemma with_page_bit n0 lim s f : ram_ok n0 lim s → room lim 1 s → (32768 | minramaddr s) →
    minramaddr s ≤ 4096 * f < minramaddr s + BOOTMEM → page_bit (with_page s) f = (f =? next_pfn s) || page_bit s f.
Proof.
  intros Hr (_ & _ & Hroom) Hal Hf. set (n := next_pfn s) in *.
  assert (minramaddr s ≤ 4096 * n < minramaddr s + BOOTMEM) as Hn.
  { pose proof (ra_min _ _ _ Hr). assert (brk s ≤ 4096 * n) by (unfold n, next_pfn; Z.div_mod_to_equations; lia). lia. }
  unfold page_bit, with_page, mark_page. cbn [boot_pagemap minramaddr]. fold n. rewrite !page_byte by done.
  change BOOTMEM with (32768 * 16384) in *. destruct Hal as [q Hq]. rewrite Hq, Z.div_mul in * by lia.
  assert (∀ g, q * 32768 ≤ 4096 * g < q * 32768 + 32768 * 16384 → 0 ≤ g `div` 8 - q < 16384) as Hrng by (intros g Hg;
    Z.div_mod_to_equations; lia). pose proof (Hrng f Hf). pose proof (Hrng n Hn).
  destruct (decide (f `div` 8 = n `div` 8)) as [E|E].
  - rewrite E. rewrite list_lookup_total_insert_eq by (rewrite (ra_map _ _ _ Hr);
      change (BOOTMEM `div` (4096 * 8)) with 16384; lia). unfold u8, u32. change 256 with (2 ^ 8).
    assert (0 ≤ f `mod` 8 < 8) by (by apply Z.mod_pos_bound). rewrite Z.mod_pow2_bits_low, Z.lor_spec by lia.
    assert ((n `mod` 2 ^ 32) `mod` 8 = n `mod` 8) as -> by (change (2 ^ 32) with (8 * 2 ^ 29);
      rewrite Z.rem_mul_r by lia; rewrite Z.add_mod, Z.mul_mod, Z.mod_same by lia;
      rewrite Z.mul_0_l, !Z.mod_0_l, Z.add_0_r, !Z.mod_mod by lia; done).
    rewrite Z.shiftl_1_l, Z.pow2_bits_eqb by (by apply Z.mod_pos_bound). rewrite orb_comm. f_equal.
    destruct (Z.eqb_spec f n) as [->|Hne]; [by apply Z.eqb_refl|]. apply Z.eqb_neq. intros Em. apply Hne.
    rewrite (Z.div_mod f 8), (Z.div_mod n 8) by lia. congruence.
  - rewrite list_lookup_total_insert_ne by lia. destruct (Z.eqb_spec f n) as [->|]; done.
Qed.

Lemma with_page_ram n0 lim s : ram_ok n0 lim s → room lim 1 s → ram_ok n0 lim (with_page s).
Proof.
  intros Hr Hroom. pose proof Hroom as (_ & Hlim & Hspan). pose proof (next_pfn_pos _ _ _ Hr).
  pose proof (λ f, with_page_bit n0 lim s f Hr Hroom) as Hbit. destruct Hr as [Hbrk Hl40 Hram Hmin Hmap Hfst Hmk].
  split; [cbn; lia|done| | |unfold with_page, mark_page; cbn; by rewrite length_insert|rewrite next_with_page;
    cbn [minramaddr with_page]; lia|].
  - intros f. rewrite next_with_page. intros Hf. cbn. apply frame_zero_ok; [cbn; lia|]. apply Hram. lia.
  - cbn. assert (brk s ≤ 4096 * next_pfn s) by (unfold next_pfn; Z.div_mod_to_equations; lia). lia.
  - intros Hal f Hf. rewrite Hbit, next_with_page by done. specialize (Hmk Hal f Hf).
    destruct (Z.eqb_spec f (next_pfn s)); [cbn; lia|]. cbn [orb]. rewrite Hmk. lia.
Qed.

Lemma with_page_room lim n s : room lim (n + 1) s → 0 ≤ n → room lim n (with_page s).
Proof. intros (Hs & Hl & Hb) Hn. unfold room. rewrite next_with_page. cbn. split_and!; [done|lia|lia]. Qed.

Lemma ram_ok_fs n0 lim s fs' : ram_ok n0 lim s → (∀ g, frame_ok (b_fs s) g → frame_ok fs' g) → ram_ok n0 lim (set_fs fs' s).
Proof. intros [A B C E G I J] Hfr. split; [done|done| |done|done|done|done]. intros g Hg. by apply Hfr, C. Qed.

(** * The tree of tables *)

(** The number of the page an address is in, among those that four levels translate. *)
Definition vpn (va : Z) : Z := (va `div` 4096) `mod` 2 ^ 36.

Lemma off_eq va : L4OFF va = (va `div` 2 ^ 39) `mod` 512 ∧ L3OFF va = (va `div` 2 ^ 30) `mod` 512 ∧
    L2OFF va = (va `div` 2 ^ 21) `mod` 512 ∧ L1OFF va = (va `div` 2 ^ 12) `mod` 512.
Proof. unfold L4OFF, L3OFF, L2OFF, L1OFF. change 0x1ff with (Z.ones 9).
  rewrite !Z.land_ones, !Z.shiftr_div_pow2 by lia. done. Qed.

Lemma vpn_offs va : vpn va = ((L4OFF va * 512 + L3OFF va) * 512 + L2OFF va) * 512 + L1OFF va.
Proof. destruct (off_eq va) as (-> & -> & -> & ->). unfold vpn. Z.div_mod_to_equations. lia. Qed.

Lemma same_page_vpn va va' : same_page va va' ↔ vpn va = vpn va'.
Proof.
  rewrite !vpn_offs. destruct (off_range va) as (? & ? & ? & ?), (off_range va') as (? & ? & ? & ?).
  unfold index_ok, same_page in *. lia.
Qed.

(** A page of the payload: its frame and its rights. *)
Record page := { pg_frame : Z; pg_u : bool; pg_w : bool; pg_x : bool }.

Section tree.
Context `{!BootArch, !BootCpu, !BootArchOk}.
Context (D : Z → Prop) (HD : ∀ i, D i → index_ok i) (n0 lim : Z).

Definition page_pte_of (pg : page) : Z := mk_pte (pg_frame pg) (page_flags (pg_u pg) (pg_w pg) (pg_x pg)).

Definition root_pfn (s : boot) : Z := root s `div` 4096.
Definition top (s : boot) (i : Z) : Z := entry (b_fs s) (root_pfn s) i.

(** Frames that are no tables: those of the pages, the root, and what is free. *)
Definition foreign (pages : gmap Z page) (s : boot) (f : Z) : Prop :=
  next_pfn s ≤ f < lim ∨ f = root_pfn s ∨ ∃ v pg, pages !! v = Some pg ∧ pg_frame pg = f.

(** An entry above the last level that is there is that of a table. *)
Definition plain (e : Z) : Prop := Z.land e 1 ≠ 0 → pte_present e = true.

(** No large page is on the way to an address. *)
Definition clear (s : boot) (va : Z) : Prop :=
  plain (top s (L4OFF va)) ∧
  (∀ f, table (top s) (b_fs s) [L4OFF va] = Some f → plain (entry (b_fs s) f (L3OFF va))) ∧
  (∀ f, table (top s) (b_fs s) [L4OFF va; L3OFF va] = Some f → plain (entry (b_fs s) f (L2OFF va))).

(** Tables form a tree below the slots [D]; [pages] are the pages of the payload; the
    addresses [X] are free for it. *)
Record boot_inv (X : Z → Prop) (pages : gmap Z page) (s : boot) : Prop := {
  bi_ram : ram_ok n0 lim s;
  bi_root : root s = 4096 * root_pfn s ∧ pfn_ok (root_pfn s) ∧ root_pfn s < next_pfn s ∧ frame_ok (b_fs s) (root_pfn s);
  bi_space : space_ok D (foreign pages s) (top s) (b_fs s);
  bi_low p f : path_ok D p → table (top s) (b_fs s) p = Some f → pfn_ok f ∧ f < next_pfn s;
  bi_page v pg : pages !! v = Some pg → pfn_ok (pg_frame pg) ∧ pg_frame pg < next_pfn s ∧ pg_frame pg ≠ root_pfn s ∧
    frame_ok (b_fs s) (pg_frame pg);
  bi_leaf va pg : pages !! vpn va = Some pg → D (L4OFF va) ∧ leaf (top s) (b_fs s) va = page_pte_of pg;
  bi_words v pg i w : pages !! v = Some pg → frame_word (b_fs s) (pg_frame pg) i = Some w → word64 w;
  bi_inj v v' pg pg' : pages !! v = Some pg → pages !! v' = Some pg' → pg_frame pg = pg_frame pg' → v = v';
  bi_image va : X (vpn va) → D (L4OFF va) ∧ clear s va ∧ (pages !! vpn va = None → Z.land (leaf (top s) (b_fs s) va) 1 = 0);
}.

(** What growing the tree keeps. *)
Record extends (s s' : boot) : Prop := {
  ex_table p f : path_ok D p → table (top s) (b_fs s) p = Some f → table (top s') (b_fs s') p = Some f;
  ex_new p f : path_ok D p → table (top s') (b_fs s') p = Some f → table (top s) (b_fs s) p = Some f ∨ next_pfn s ≤ f;
  ex_leaf va : D (L4OFF va) → leaf (top s') (b_fs s') va = leaf (top s) (b_fs s) va;
  ex_clear va : D (L4OFF va) → clear s va → clear s' va;
  ex_bytes f i : f < next_pfn s → f ≠ root_pfn s → (∀ p, path_ok D p → table (top s) (b_fs s) p ≠ Some f) →
    frame_word (b_fs s') f i = frame_word (b_fs s) f i;
  ex_root : root s' = root s;
  ex_next : next_pfn s ≤ next_pfn s';
  ex_stop : stop_payload_allocation s' = stop_payload_allocation s;
  ex_min : minramaddr s' = minramaddr s;
}.

Lemma extends_refl s : extends s s.
Proof. split; try done; try lia. auto. Qed.

Lemma extends_trans s1 s2 s3 : extends s1 s2 → extends s2 s3 → extends s1 s3.
Proof.
  intros HA HB. pose proof (ex_next _ _ HA). pose proof (ex_next _ _ HB). split.
  - intros p f Hp Hf. apply HB; [done|]. by apply HA.
  - intros p f Hp Hf. destruct (ex_new _ _ HB p f Hp Hf) as [Hf2|]; [|lia]. by apply HA.
  - intros va Hd. rewrite (ex_leaf _ _ HB), (ex_leaf _ _ HA) by done. done.
  - intros va Hd Hc. apply HB; [done|]. by apply HA.
  - intros f i Hf Hr Ht. assert (root_pfn s2 = root_pfn s1) as Er by (unfold root_pfn; by rewrite (ex_root _ _ HA)).
    rewrite (ex_bytes _ _ HB); [by apply (ex_bytes _ _ HA)|lia|by rewrite Er|].
    intros p Hp Hc. destruct (ex_new _ _ HA p f Hp Hc) as [Hc'|]; [by apply (Ht p)|lia].
  - by rewrite (ex_root _ _ HB), (ex_root _ _ HA).
  - lia.
  - by rewrite (ex_stop _ _ HB), (ex_stop _ _ HA).
  - by rewrite (ex_min _ _ HB), (ex_min _ _ HA).
Qed.

(** The table that a path leads to, the root for the empty one. *)
Definition node (s : boot) (q : list Z) : option Z := match q with [] => Some (root_pfn s) | _ => table (top s)
    (b_fs s) q end.

Lemma node_snoc s q i g : node s q = Some g → table (top s) (b_fs s) (q ++ [i]) = sub_table (entry (b_fs s) g i).
Proof.
  destruct q as [|j q]; cbn [node app].
  - intros [= <-]. cbn. unfold top. by destruct (sub_table _).
  - intros Hg. change (j :: q ++ [i]) with ((j :: q) ++ [i]). by rewrite table_snoc, Hg by done.
Qed.

Lemma node_ok X pages s q i g : boot_inv X pages s → node s q = Some g → path_ok D (q ++ [i]) → frame_ok (b_fs s) g ∧
    pfn_ok g ∧ g < next_pfn s ∧ (∀ v pg, pages !! v = Some pg → pg_frame pg ≠ g).
Proof.
  intros Hi Hg Hp. destruct q as [|j q].
  - injection Hg as <-. destruct (bi_root _ _ _ Hi) as (_ & ? & ? & ?). split_and!; try done; try lia.
    intros v pg Hpg. by apply (bi_page _ _ _ Hi v).
  - change (table (top s) (b_fs s) (j :: q) = Some g) in Hg.
    destruct (path_ok_prefix D (j :: q) i Hp) as (Hq & _); [done|].
    destruct (so_frame _ _ _ _ (bi_space _ _ _ Hi) _ _ Hq Hg) as [Hf Hn].
    destruct (bi_low _ _ _ Hi _ _ Hq Hg). split_and!; try done; try lia. intros v pg Hpg He. apply Hn. right. right. eauto.
Qed.
(** ** A new table *)

Section link.
Context (X : Z → Prop) (pages : gmap Z page) (s : boot) (q : list Z) (i g : Z).
Context (Hinv : boot_inv X pages s) (Hroom : room lim 1 s) (Hg : node s q = Some g) (Hp : path_ok D (q ++ [i]))
    (Hno : Z.land (entry (b_fs s) g i) 1 = 0).

Definition link_pte : Z := mk_pte (next_pfn s) table_flags.
Definition linked : boot := set_fs (frame_update (<[next_pfn s := zero_page]> (b_fs s)) g i link_pte) (with_page s).

Lemma new_pfn_ok : pfn_ok (next_pfn s) ∧ next_pfn s < lim ∧ frame_ok (b_fs s) (next_pfn s) ∧ g ≠ next_pfn s.
Proof.
  pose proof (next_pfn_pos _ _ _ (bi_ram _ _ _ Hinv)). destruct Hroom as (_ & Hl & _).
  pose proof (ra_lim _ _ _ (bi_ram _ _ _ Hinv)). unfold pfn_ok.
  destruct (node_ok _ _ _ _ _ _ Hinv Hg Hp) as (_ & _ & ? & _).
  split; [lia|]. split; [lia|]. split; [apply (ra_ram _ _ _ (bi_ram _ _ _ Hinv)); lia|lia].
Qed.

Lemma link_slot : index_ok i.
Proof. destruct Hp as (_ & Hf & _). apply Forall_app in Hf as [_ Hf]. by apply Forall_inv in Hf. Qed.

Lemma linked_slot h j : index_ok j → entry (b_fs linked) h j = if decide (g = h ∧
    i = j) then link_pte else if decide (next_pfn s = h) then 0 else entry (b_fs s) h j.
Proof.
  intros Hj. destruct new_pfn_ok as (Hn & Hl & Hf & _). destruct (node_ok _ _ _ _ _ _ Hinv Hg Hp) as (Hgf & _).
  cbn [linked b_fs set_fs].
  rewrite entry_update, entry_zero; [done|done| |apply link_slot|done]. apply frame_zero_ok; [destruct Hf; done|done].
Qed.

Lemma linked_root : root_pfn linked = root_pfn s ∧ next_pfn linked = next_pfn s + 1.
Proof. split; [done|]. apply next_with_page. Qed.

Lemma linked_frames h : frame_ok (b_fs s) h → frame_ok (b_fs linked) h.
Proof. intros Hh. destruct new_pfn_ok as (_ & _ & Hf & _). cbn.
  apply frame_update_ok, frame_zero_ok; [by destruct Hf|done]. Qed.

Lemma linked_grown : grown D (top s) (b_fs s) (top linked) (b_fs linked) (q ++ [i]) (next_pfn s).
Proof.
  destruct new_pfn_ok as (Hn & Hl & Hf & Hgn). destruct (table_pte (next_pfn s) Hn) as [Hpr Had].
  destruct (bi_root _ _ _ Hinv) as (_ & _ & Hrn & Hrf). pose proof link_slot as Hi.
  assert (pte_frame link_pte = next_pfn s) as Hfr by (cbn; unfold link_pte; rewrite Had, Z.mul_comm, Z.div_mul by lia; done).
  assert (foreign pages s (next_pfn s)) as HF by (left; lia).
  assert (pte_present (entry (b_fs s) g i) = false) as Hnp by (cbn; by rewrite Hno).
  pose proof linked_frames as Hlf. pose proof linked_slot as Hle. pose proof (proj1 linked_root) as Hlr.
  destruct q as [|j p].
  - injection Hg as <-. apply (grown_top D (foreign pages s) (top s) (b_fs s) (bi_space _ _ _ Hinv) (next_pfn s)
      link_pte HF Hpr Hfr eq_refl); [|done|done| | |done| |done].
    + destruct Hp as ((k & ? & [= <- <-] & Hk) & _). done.
    + unfold top. rewrite Hlr, Hle by done. by rewrite decide_True.
    + intros k Hk Hki Hne. unfold top. rewrite Hlr, Hle by done. rewrite decide_False by (intros [_ ->]; done).
      by rewrite decide_False by lia.
    + intros h k Hh Hk. rewrite Hle, entry_zero by done. rewrite decide_False; [done|]. intros [<- <-].
      destruct Hh as [Hh|(r & Hr & Ht)]; [lia|].
      destruct (so_frame _ _ _ _ (bi_space _ _ _ Hinv) r _ Hr Ht) as [_ Hnf]. apply Hnf. right. by left.
  - change (table (top s) (b_fs s) (j :: p) = Some g) in Hg.
    destruct (path_ok_prefix D (j :: p) i Hp) as (Hq & _ & Hlen); [done|].
    apply (grown_top_ext D (top s) (b_fs s) (top s) (top linked) (b_fs linked));
      [done| |apply (grown_below D (foreign pages s) (top s) (b_fs s) (bi_space _ _ _ Hinv) (next_pfn s) link_pte HF
      Hf Hpr Hfr eq_refl (j :: p) g i Hq Hlen Hi Hg Hnp)].
    intros k Hk Hki. unfold top. rewrite Hlr, Hle by done. rewrite decide_False; [by rewrite decide_False by lia|].
    intros [Hgr _].
    destruct (so_frame _ _ _ _ (bi_space _ _ _ Hinv) _ _ Hq Hg) as [_ Hnf]. apply Hnf. right. by left.
Qed.
Lemma linked_table p : path_ok D p →
    table (top linked) (b_fs linked) p = if decide (p = q ++ [i]) then Some (next_pfn s) else table (top s) (b_fs s)
    p.
Proof. apply (gr_table _ _ _ _ _ _ _ linked_grown). Qed.

Lemma plain_zero : plain 0.
Proof. intros Hb. done. Qed.

Lemma linked_plain h j : index_ok j → plain (entry (b_fs s) h j) → plain (entry (b_fs linked) h j).
Proof.
  intros Hj Hpl. rewrite linked_slot by done. destruct (decide _); [intros _; apply table_pte, new_pfn_ok|].
  destruct (decide _); [apply plain_zero|done].
Qed.

Lemma linked_below p f j : path_ok D p → index_ok j → (∀ f', table (top s) (b_fs s) p = Some f' →
    plain (entry (b_fs s) f' j)) → table (top linked) (b_fs linked) p = Some f → plain (entry (b_fs linked) f j).
Proof.
  intros Hpp Hj Hold. rewrite linked_table by done.
  destruct (decide (p = q ++ [i])) as [->|Hne]; [|intros Hf; apply linked_plain; auto].
  intros [= <-]. rewrite (gr_zero _ _ _ _ _ _ _ linked_grown) by done. apply plain_zero.
Qed.

Lemma linked_extends : extends s linked.
Proof.
  destruct linked_root as [Hlr Hln]. destruct new_pfn_ok as (Hn & Hl & Hf & Hgn). split; try done; [| | | | |lia].
  - intros p f Hpp Hpf. rewrite linked_table by done. rewrite decide_False; [done|]. intros ->.
    by rewrite (gr_new _ _ _ _ _ _ _ linked_grown) in Hpf.
  - intros p f Hpp. rewrite linked_table by done. destruct (decide _); [|by left]. intros [= <-]. right. lia.
  - intros va Hd. by apply (grown_leaf D (foreign pages s) (top s) (b_fs s) (top linked) (b_fs linked) (q ++ [i])
      (next_pfn s) va (bi_space _ _ _ Hinv) linked_grown).
  - intros va Hd (H4 & H3 & H2). destruct (off_range va) as (I4 & I3 & I2 & _).
    assert (path_ok D [L4OFF va]) as P4 by (by apply path_ok_one).
    assert (path_ok D [L4OFF va; L3OFF va]) as P3 by (apply (path_ok_snoc D [L4OFF va]); [done|done|cbn; lia]).
    split; [unfold top; rewrite Hlr; by apply linked_plain|]. split; intros f; by apply linked_below.
  - intros f j Hfn Hfr Hft. cbn [linked b_fs set_fs]. assert (f ≠ g) as Hfg.
    { intros ->. destruct q as [|k p]; [by injection Hg as <-|].
      destruct (path_ok_prefix D (k :: p) i Hp) as (Hq & _); [done|]. by apply (Hft (k :: p)). }
    unfold frame_word, frame_update. rewrite lookup_alter_ne by done. rewrite lookup_insert_ne by lia. done.
Qed.

Lemma linked_inv : boot_inv X pages linked.
Proof.
  destruct linked_root as [Hlr Hln]. destruct new_pfn_ok as (Hn & Hl & Hf & Hgn). pose proof linked_extends as Hex. split.
  - apply ram_ok_fs; [by apply with_page_ram; [apply Hinv|]|]. intros f Hff. by apply frame_update_ok.
  - destruct (bi_root _ _ _ Hinv) as (Hr & Hrp & Hrn & Hrf). rewrite Hlr, Hln. split; [done|]. split; [done|].
    split; [lia|by apply linked_frames].
  - apply (grown_ok D (foreign pages s) _ (top s) (b_fs s) _ _ (q ++ [i]) (next_pfn s));
      [apply Hinv|apply linked_grown|left; lia|done|].
    intros x [Hx|[Hx|(v & pg & Hv & Hx)]]; rewrite ?Hln, ?Hlr in Hx.
    + split; [left; lia|lia].
    + subst x. destruct (bi_root _ _ _ Hinv) as (_ & _ & Hrn & _). split; [right; by left|lia].
    + subst x. destruct (bi_page _ _ _ Hinv v pg Hv) as (_ & Hlt & _). split; [right; right; eauto|lia].
  - intros p f Hpp. rewrite linked_table, Hln by done. destruct (decide _); [intros [= <-]; split; [done|lia]|].
    intros Hpf. destruct (bi_low _ _ _ Hinv p f Hpp Hpf). split; [done|lia].
  - intros v pg Hv. destruct (bi_page _ _ _ Hinv v pg Hv) as (? & ? & ? & ?). rewrite Hln, Hlr. split; [done|].
    split; [lia|]. split; [done|by apply linked_frames].
  - intros va pg Hv. destruct (bi_leaf _ _ _ Hinv va pg Hv) as [Hd Hlf]. split; [done|]. by rewrite (ex_leaf _ _ Hex).
  - intros v pg j w Hv. destruct (bi_page _ _ _ Hinv v pg Hv) as (_ & ? & ? & _).
    rewrite (ex_bytes _ _ Hex); [by apply (bi_words _ _ _ Hinv v)|done..|]. intros p Hpp Hc.
    destruct (so_frame _ _ _ _ (bi_space _ _ _ Hinv) _ _ Hpp Hc) as [_ Hnf]. apply Hnf. right. right. eauto.
  - apply (bi_inj _ _ _ Hinv).
  - intros va Hx. destruct (bi_image _ _ _ Hinv va Hx) as (Hd & Hc & Hz). split; [done|]. split; [by apply Hex|].
    intros Hnone. rewrite (ex_leaf _ _ Hex) by done. by apply Hz.
Qed.
End link.
(** At most [k] pages are taken, and memory starts where it did. *)
Definition uses (k : Z) (s s' : boot) : Prop := minramaddr s' = minramaddr s ∧ ∀ n, 0 ≤ n → room lim (n + k) s →
    room lim n s'.

Lemma uses_none k s : 0 ≤ k → uses k s s.
Proof. intros Hk. split; [done|]. intros n Hn (? & ? & ?). unfold room. split_and!; [done|lia|lia]. Qed.

Lemma uses_trans k k' s1 s2 s3 : 0 ≤ k' → uses k s1 s2 → uses k' s2 s3 → uses (k + k') s1 s3.
Proof. intros Hk [EA HA] [EB HB]. split; [congruence|]. intros n Hn Hr. apply HB; [done|]. apply HA; [lia|].
  by replace (n + k' + k) with (n + (k + k')) by lia. Qed.

Lemma room_less n k s : k ≤ n → room lim n s → room lim k s.
Proof. intros Hk (? & ? & ?). unfold room. split_and!; [done|lia|lia]. Qed.

Lemma pte_getaddr_run f i s : frame_ok (b_fs s) f → index_ok i →
  pte_getaddr (4096 * f + 8 * i) s = Ret (if Z.land (entry (b_fs s) f i) 1 =? 0 then 0 else pte_addr_bits
    (entry (b_fs s) f i), s).
Proof. intros Hf Hi. unfold pte_getaddr. by rewrite (bind_Ret _ _ _ _ _ (pload_run f i s Hf Hi)). Qed.

Lemma table_of_run X pages s q i g : boot_inv X pages s → room lim 1 s → node s q = Some g → path_ok D (q ++ [i]) →
    plain (entry (b_fs s) g i) →
  ∃ f s', table_of (4096 * g + 8 * i) true s = Ret (4096 * f, s') ∧ boot_inv X pages s' ∧ extends s s' ∧
    table (top s') (b_fs s') (q ++ [i]) = Some f ∧ uses 1 s s'.
Proof.
  intros Hinv Hroom Hg Hp Hpl. destruct (node_ok _ _ _ _ _ _ Hinv Hg Hp) as (Hgf & _).
  pose proof (link_slot q i Hp) as Hi. unfold table_of. rewrite (bind_Ret _ _ _ _ _ (pte_getaddr_run g i s Hgf Hi)).
  destruct (Z.eqb_spec (Z.land (entry (b_fs s) g i) 1) 0) as [He|He].
  - cbn [Z.eqb]. unfold any_page.
    rewrite (bind_Ret _ _ _ _ _ (get_payload_page_run n0 lim s (bi_ram _ _ _ Hinv) Hroom)).
    exists (next_pfn s), (linked s i g). split_and!.
    + unfold set_pte. change PAGE_SHIFT with 12. rewrite Z.shiftr_div_pow2 by lia. change (2 ^ 12) with 4096.
      rewrite (Z.mul_comm 4096 (next_pfn s)), Z.div_mul by lia. rewrite (Z.mul_comm (next_pfn s)).
      destruct (new_pfn_ok X pages s q i g Hinv Hroom Hg Hp) as (_ & _ & Hnf & _).
      assert (frame_ok (b_fs (with_page s)) g) as Hgf' by (cbn; apply frame_zero_ok; [by destruct Hnf|done]).
      by rewrite (bind_Ret _ _ _ _ _ (pstore_run g i _ (with_page s) Hgf' Hi)).
    + by apply linked_inv with q.
    + by apply linked_extends with X pages q.
    + rewrite (linked_table X pages s q i g) by done. by rewrite decide_True.
    + split; [done|]. intros n Hn Hr. exact (with_page_room lim n s Hr Hn).
  - set (e := entry (b_fs s) g i) in *. pose proof (Hpl He) as Hpres.
    assert (table (top s) (b_fs s) (q ++ [i]) = Some (pte_addr_bits e `div` 4096)) as Ht.
    { rewrite (node_snoc s q i g Hg). unfold sub_table. fold e. by rewrite Hpres. }
    destruct (bi_low _ _ _ Hinv _ _ Hp Ht) as [Hf _]. destruct (addr_page e) as [k Hk].
    assert (pte_addr_bits e = 4096 * (pte_addr_bits e `div` 4096)) as Ha by (rewrite Hk, Z.div_mul by lia; lia).
    rewrite (proj2 (Z.eqb_neq (pte_addr_bits e) 0)) by (unfold pfn_ok in Hf; lia).
    exists (pte_addr_bits e `div` 4096), s. rewrite <- Ha. split; [done|]. split; [done|].
    split; [apply extends_refl|]. split; [done|]. by apply uses_none.
Qed.

(** ** The ways to the entries of an address *)

Lemma table_node s q f : q ≠ [] → table (top s) (b_fs s) q = Some f → node s q = Some f.
Proof. by destruct q. Qed.

Lemma root_node X pages s : boot_inv X pages s → root s = 4096 * root_pfn s ∧ node s [] = Some (root_pfn s).
Proof. intros Hi. split; [apply (bi_root _ _ _ Hi)|done]. Qed.

Lemma get_l3p_run X pages s va : boot_inv X pages s → room lim 1 s → D (L4OFF va) → plain (top s (L4OFF va)) →
  ∃ f s', get_l3p (root s) va true s = Ret (4096 * f + 8 * L3OFF va, s') ∧ boot_inv X pages s' ∧ extends s s' ∧
    table (top s') (b_fs s') [L4OFF va] = Some f ∧ uses 1 s s'.
Proof.
  intros Hinv Hroom Hd Hpl. destruct (off_range va) as (I4 & _). destruct (root_node _ _ _ Hinv) as [Hr Hn].
  unfold get_l3p. rewrite Hr.
  destruct (table_of_run X pages s [] (L4OFF va) (root_pfn s) Hinv Hroom Hn) as (f & s' & Hrun & Hi' & He & Ht & Hu);
    [by apply path_ok_one|done|]. rewrite (bind_Ret _ _ _ _ _ Hrun). eexists f, s'. done.
Qed.

Lemma get_l2p_run X pages s va : boot_inv X pages s → room lim 2 s → D (L4OFF va) → clear s va →
  ∃ f s', get_l2p (root s) va true s = Ret (4096 * f + 8 * L2OFF va, s') ∧ boot_inv X pages s' ∧ extends s s' ∧
    table (top s') (b_fs s') [L4OFF va; L3OFF va] = Some f ∧ uses 2 s s'.
Proof.
  intros Hinv Hroom Hd Hcl. destruct (off_range va) as (I4 & I3 & _). pose proof Hcl as (H4 & _).
  destruct (get_l3p_run X pages s va Hinv (room_less 2 1 s ltac:(lia) Hroom) Hd H4)
    as (f & s1 & Hr1 & Hi1 & He1 & Ht1 & Hu1).
  destruct (ex_clear _ _ He1 va Hd Hcl) as (_ & H3 & _). unfold get_l2p. rewrite (bind_Ret _ _ _ _ _ Hr1).
  destruct (table_of_run X pages s1 [L4OFF va] (L3OFF va) f Hi1) as (f2 & s2 & Hr2 & Hi2 & He2 & Ht2 & Hu2);
    [apply Hu1; [lia|done]|done| |by apply H3|].
  { apply (path_ok_snoc D [L4OFF va]); [by apply path_ok_one|done|cbn; lia]. }
  rewrite (bind_Ret _ _ _ _ _ Hr2). exists f2, s2. split; [done|]. split; [done|].
  split; [by apply extends_trans with s1|]. split; [done|]. by apply (uses_trans 1 1 s s1 s2).
Qed.

Lemma get_l1p_run X pages s va : boot_inv X pages s → room lim 3 s → D (L4OFF va) → clear s va →
  ∃ f s', get_l1p (root s) va true s = Ret (4096 * f + 8 * L1OFF va, s') ∧ boot_inv X pages s' ∧ extends s s' ∧
    table (top s') (b_fs s') [L4OFF va; L3OFF va; L2OFF va] = Some f ∧ uses 3 s s'.
Proof.
  intros Hinv Hroom Hd Hcl. destruct (off_range va) as (I4 & I3 & I2 & _).
  destruct (get_l2p_run X pages s va Hinv (room_less 3 2 s ltac:(lia) Hroom) Hd Hcl)
    as (f & s1 & Hr1 & Hi1 & He1 & Ht1 & Hu1).
  destruct (ex_clear _ _ He1 va Hd Hcl) as (_ & _ & H2). unfold get_l1p. rewrite (bind_Ret _ _ _ _ _ Hr1).
  destruct (table_of_run X pages s1 [L4OFF va; L3OFF va] (L2OFF va) f Hi1)
    as (f2 & s2 & Hr2 & Hi2 & He2 & Ht2 & Hu2); [apply Hu1; [lia|done]|done|by apply va_path|by apply H2|].
  rewrite (bind_Ret _ _ _ _ _ Hr2). exists f2, s2. split; [done|]. split; [done|].
  split; [by apply extends_trans with s1|]. split; [done|]. by apply (uses_trans 2 1 s s1 s2).
Qed.
(** ** A page of the payload *)

Lemma page_not_table X pages s v pg p : boot_inv X pages s → pages !! v = Some pg → path_ok D p →
    table (top s) (b_fs s) p ≠ Some (pg_frame pg).
Proof. intros Hi Hv Hp Ht. destruct (so_frame _ _ _ _ (bi_space _ _ _ Hi) _ _ Hp Ht) as [_ Hn]. apply Hn. right.
  right. eauto. Qed.

(** The words of the pages there are. *)
Definition keeps (pages : gmap Z page) (s s' : boot) : Prop := ∀ v pg i, pages !! v = Some pg →
    frame_word (b_fs s') (pg_frame pg) i = frame_word (b_fs s) (pg_frame pg) i.

Lemma extends_keeps X pages s s' : boot_inv X pages s → extends s s' → keeps pages s s'.
Proof.
  intros Hi He v pg i Hv. destruct (bi_page _ _ _ Hi v pg Hv) as (_ & ? & ? & _). apply (ex_bytes _ _ He); [done..|].
  intros p Hp. by apply page_not_table with X pages v.
Qed.

(** Taking a page from the break changes no table. *)
Lemma with_page_table X pages s p : boot_inv X pages s → room lim 1 s → path_ok D p →
    table (top (with_page s)) (b_fs (with_page s)) p = table (top s) (b_fs s) p.
Proof.
  intros Hi (_ & Hl & _) Hp.
  rewrite <- (zero_free_table D (foreign pages s) (top s) (b_fs s) (next_pfn s) p (bi_space _ _ _ Hi));
    [|left; lia|done]. apply (table_top_ext D); [|done].
  intros j Hd Hj. unfold top. cbn. rewrite entry_zero by done. rewrite decide_False; [done|].
  destruct (bi_root _ _ _ Hi) as (_ & _ & ? & _). change (root_pfn (with_page s)) with (root_pfn s). lia.
Qed.

Lemma with_page_entry X pages s p f j : boot_inv X pages s → room lim 1 s → path_ok D p →
    table (top s) (b_fs s) p = Some f → index_ok j → entry (b_fs (with_page s)) f j = entry (b_fs s) f j.
Proof.
  intros Hi Hr Hp Hf Hj. cbn. rewrite entry_zero by done. rewrite decide_False; [done|].
  destruct (bi_low _ _ _ Hi p f Hp Hf). lia.
Qed.

Lemma with_page_top X pages s j : boot_inv X pages s → index_ok j → top (with_page s) j = top s j.
Proof. intros Hi Hj. unfold top. cbn. rewrite entry_zero by done. rewrite decide_False; [done|].
  destruct (bi_root _ _ _ Hi) as (_ & _ & ? & _). change (root_pfn (with_page s)) with (root_pfn s). lia. Qed.

Lemma with_page_extends X pages s : boot_inv X pages s → room lim 1 s → extends s (with_page s).
Proof.
  intros Hi Hr. pose proof (λ p, with_page_table X pages s p Hi Hr) as Ht. split; try done.
  - intros p f Hp Hf. by rewrite Ht.
  - intros p f Hp. rewrite Ht by done. by left.
  - intros va Hd. unfold leaf. rewrite Ht by (by apply va_path). destruct (table _ _ _) as [f|] eqn:E; [|done].
    destruct (off_range va) as (_ & _ & _ & I1).
    apply (with_page_entry X pages s [L4OFF va; L3OFF va; L2OFF va]); [done|done|by apply va_path|done|done].
  - intros va Hd (H4 & H3 & H2). destruct (off_range va) as (I4 & I3 & I2 & _).
    assert (path_ok D [L4OFF va]) as P4 by (by apply path_ok_one).
    assert (path_ok D [L4OFF va; L3OFF va]) as P3 by (apply (path_ok_snoc D [L4OFF va]); [done|done|cbn; lia]).
    split; [by rewrite (with_page_top X pages)|]. rewrite !Ht by done.
    split; intros f Hf; [rewrite (with_page_entry X pages s [L4OFF va] f) by done;
      by apply H3|rewrite (with_page_entry X pages s [L4OFF va; L3OFF va] f) by done; by apply H2].
  - intros f j Hf Hfr Hft. cbn. unfold frame_word. by rewrite lookup_insert_ne by lia.
  - rewrite next_with_page. lia.
Qed.

Lemma with_page_inv X pages s : boot_inv X pages s → room lim 1 s → boot_inv X pages (with_page s).
Proof.
  intros Hi Hr. pose proof (with_page_extends X pages s Hi Hr) as He.
  pose proof (next_pfn_pos _ _ _ (bi_ram _ _ _ Hi)) as Hn. pose proof (ra_lim _ _ _ (bi_ram _ _ _ Hi)).
  pose proof Hr as (_ & Hl & _).
  assert (∀ f, frame_ok (b_fs s) f → frame_ok (b_fs (with_page s)) f) as Hfr by (intros f Hf; cbn;
    apply frame_zero_ok; [cbn; lia|done]). split.
  - apply with_page_ram; [apply Hi|done].
  - destruct (bi_root _ _ _ Hi) as (? & ? & ? & ?). rewrite next_with_page. split; [done|]. split; [done|].
    split; [change (root_pfn (with_page s)) with (root_pfn s); lia|by apply Hfr].
  - apply (space_ok_top_ext D _ (top s)); [done|intros j Hd Hj; by apply (with_page_top X pages)|].
    apply (zero_free_ok D (foreign pages s)); [apply Hi|left; lia|cbn; lia|].
    intros x [Hx|[Hx|Hx]]; [|right; by left|right; by right]. rewrite next_with_page in Hx. left. lia.
  - intros p f Hp. rewrite (with_page_table X pages) by done. rewrite next_with_page. intros Hf.
    destruct (bi_low _ _ _ Hi p f Hp Hf). split; [done|lia].
  - intros v pg Hv. destruct (bi_page _ _ _ Hi v pg Hv) as (? & ? & ? & ?). rewrite next_with_page. split; [done|].
    split; [lia|]. split; [done|by apply Hfr].
  - intros va pg Hv. destruct (bi_leaf _ _ _ Hi va pg Hv) as [Hd Hlf]. split; [done|]. by rewrite (ex_leaf _ _ He).
  - intros v pg j w Hv. rewrite (extends_keeps X pages s _ Hi He v pg j Hv). by apply (bi_words _ _ _ Hi v).
  - apply (bi_inj _ _ _ Hi).
  - intros va Hx. destruct (bi_image _ _ _ Hi va Hx) as (Hd & Hc & Hz). split; [done|]. split; [by apply He|].
    intros Hnone. rewrite (ex_leaf _ _ He) by done. by apply Hz.
Qed.
End tree.
