(* ===== verification/ApxhPages.v ===== *)
(** Populating pages: the boot loader gives each page of the payload a frame of its own,
    cleared, and merges the rights that overlapping segments ask for. *)

From S2P Require Import Prelude Words Locks Machine PageTable Apxh ApxhPt.

Lemma frame_update_same fs f i v : frame_word fs f i = Some v → frame_update fs f i v = fs.
Proof.
  unfold frame_word, frame_update. intros Hv. destruct (fs !! f) as [l|] eqn:El; [|done]. cbn in Hv. apply map_eq.
  intros g. destruct (decide (f = g)) as [<-|Hne]; [|by rewrite lookup_alter_ne].
  rewrite lookup_alter_eq, El. cbn. by rewrite list_insert_id.
Qed.

(** * Bytes of a page *)

Lemma byte_bit v k : 0 ≤ v < 256 → (k < 0 ∨ 8 ≤ k) → Z.testbit v k = false.
Proof. intros Hv [Hk|Hk]; [by apply Z.testbit_neg_r|]. rewrite <- (Z.mod_small v (2 ^ 8)) by lia.
  by rewrite Z.mod_pow2_bits_high by lia. Qed.

Lemma not64_testbit x n : 0 ≤ n < 64 → Z.testbit (not64 x) n = negb (Z.testbit x n).
Proof. intros Hn. unfold not64, u64. rewrite Z.mod_pow2_bits_low by lia. apply Z.lnot_spec. lia. Qed.

Lemma ones8_spec n : Z.testbit (Z.ones 8) n = (0 <=? n) && (n <? 8).
Proof. destruct (Z.lt_ge_cases n 0); [rewrite Z.testbit_neg_r by lia|destruct (Z.lt_ge_cases n 8);
    [rewrite Z.ones_spec_low by lia|rewrite Z.ones_spec_high by lia]]; symmetry; lia. Qed.

Lemma put_byte_same w k v : 0 ≤ k < 8 → 0 ≤ v < 256 → word_byte (put_byte w k v) k = v.
Proof.
  intros Hk Hv. unfold word_byte, put_byte, u8. change 256 with (2 ^ 8). apply Z.bits_inj'. intros n Hn.
  destruct (Z.lt_ge_cases n 8) as [Hl|Hl]; [|by rewrite Z.mod_pow2_bits_high, byte_bit by lia].
  rewrite Z.mod_pow2_bits_low, Z.shiftr_spec, Z.lor_spec, Z.land_spec, Z.shiftl_spec by lia.
  replace (n + 8 * k - 8 * k) with n by lia. rewrite not64_testbit by lia.
  rewrite Z.shiftl_spec by lia. replace (n + 8 * k - 8 * k) with n by lia. change 0xff with (Z.ones 8).
  rewrite Z.ones_spec_low by lia. cbn [negb]. by rewrite andb_false_r.
Qed.

Lemma put_byte_other w k v j : 0 ≤ k < 8 → 0 ≤ v < 256 → 0 ≤ j < 8 → j ≠ k → word_byte (put_byte w k v) j = word_byte w j.
Proof.
  intros Hk Hv Hj Hne. unfold word_byte, put_byte, u8. change 256 with (2 ^ 8). apply Z.bits_inj'. intros n Hn.
  destruct (Z.lt_ge_cases n 8) as [Hl|Hl]; [|by rewrite !Z.mod_pow2_bits_high by lia].
  rewrite !Z.mod_pow2_bits_low, !Z.shiftr_spec, Z.lor_spec, Z.land_spec, Z.shiftl_spec by lia.
  rewrite not64_testbit by lia. rewrite Z.shiftl_spec by lia. rewrite (byte_bit v) by lia.
  change 0xff with (Z.ones 8).
  rewrite ones8_spec. replace (_ && (_ <? 8)) with false by lia. by rewrite andb_true_r, orb_false_r.
Qed.

Lemma byte_addr f o : 0 ≤ o < 4096 → pa_frame (4096 * f + o) = f ∧ pa_word (4096 * f + o) = o `div` 8 ∧
    (4096 * f + o) `mod` 8 = o `mod` 8 ∧ index_ok (o `div` 8).
Proof. unfold index_ok, pa_frame, pa_word. intros Ho. Z.div_mod_to_equations. lia. Qed.

(** Only the frames [F] have changed. *)
Definition only_frames (F : Z → Prop) (fs fs' : gmap Z (list Z)) : Prop :=
  (∀ g, frame_ok fs g → frame_ok fs' g) ∧ ∀ g i, ¬ F g → frame_word fs' g i = frame_word fs g i.
Notation only_frame f := (only_frames (λ g, g = f)).

Definition words_ok (fs : gmap Z (list Z)) (f : Z) : Prop := ∀ i w, frame_word fs f i = Some w → word64 w.

Lemma update_words_ok fs f i v : words_ok fs f → word64 v → words_ok (frame_update fs f i v) f.
Proof.
  intros Hw Hv j w. unfold frame_word, frame_update. rewrite lookup_alter_eq. specialize (Hw j w).
  unfold frame_word in Hw. destruct (fs !! f) as [l|]; [|done]. cbn in *.
  intros [(_ & -> & _)|[_ Hl]]%list_lookup_insert_Some; auto.
Qed.

Lemma put_byte_word64 w k v : word64 w → 0 ≤ k < 8 → 0 ≤ v < 256 → word64 (put_byte w k v).
Proof.
  intros Hw Hk Hv. unfold put_byte.
  apply lor_word64; [apply land_word64; [done|]; unfold not64; pose proof (u64_range (Z.lnot (Z.shiftl 255 (8 * k))))
    as Hr; unfold word64 in Hr; lia|]. rewrite Z.shiftl_mul_pow2 by lia.
  assert (2 ^ (8 * k) ≤ 2 ^ 56) by (apply Z.pow_le_mono_r; lia). unfold word64. split; [lia|].
  apply Z.lt_le_trans with (256 * 2 ^ (8 * k)); [apply Z.mul_lt_mono_pos_r; lia|lia].
Qed.

Lemma pstore_byte_run f o v s : frame_ok (b_fs s) f → 0 ≤ o < 4096 → 0 ≤ v < 256 →
  ∃ fs', pstore_byte (4096 * f + o) v s = Ret (tt, set_fs fs' s) ∧ only_frame f (b_fs s) fs' ∧
    (words_ok (b_fs s) f → words_ok fs' f) ∧
    ∀ k, 0 ≤ k < 4096 → frame_byte fs' (4096 * f + k) = if decide (k = o) then Some v else frame_byte (b_fs s)
      (4096 * f + k).
Proof.
  intros Hf Ho Hv. destruct (byte_addr f o Ho) as (Ef & Ei & Ea & Hi).
  destruct (frame_word_ok _ _ _ Hf Hi) as [w Hw]. unfold pstore_byte. rewrite Ef, Ei, Ea, Hw. eexists.
  split; [done|]. split; [|split].
  - split; [intros g; apply frame_update_ok|]. intros g i Hg. unfold frame_word, frame_update. by rewrite lookup_alter_ne.
  - intros Hws. apply update_words_ok; [done|].
    apply put_byte_word64; [by apply (Hws (o `div` 8))|by apply Z.mod_pos_bound|done].
  - intros k Hk. destruct (byte_addr f k Hk) as (Ef' & Ei' & Ea' & Hi'). unfold frame_byte. unfold index_ok in *.
    rewrite Ef', Ei', Ea', frame_update_word by (done || lia). destruct (decide (k = o)) as [->|Hne].
    + rewrite decide_True by done. cbn. f_equal. apply put_byte_same; [Z.div_mod_to_equations; lia|done].
    + destruct (decide (f = f ∧ o `div` 8 = k `div` 8)) as [[_ E]|]; [|done]. rewrite <- E, Hw. cbn. f_equal.
      apply put_byte_other; [Z.div_mod_to_equations; lia|done|Z.div_mod_to_equations; lia|]. intros Em. apply Hne.
      rewrite (Z.div_mod k 8), (Z.div_mod o 8) by lia. congruence.
Qed.

Lemma only_frames_trans F fs1 fs2 fs3 : only_frames F fs1 fs2 → only_frames F fs2 fs3 → only_frames F fs1 fs3.
Proof. intros [A B] [A' B']. split; [auto|]. intros g i Hg. by rewrite B', B. Qed.

Lemma pstore_bytes_run f o l s : frame_ok (b_fs s) f → 0 ≤ o → o + Z.of_nat (length l) ≤ 4096 → Forall (λ v, 0 ≤ v < 256) l →
  ∃ fs', pstore_bytes (4096 * f + o) l s = Ret (tt, set_fs fs' s) ∧ only_frame f (b_fs s) fs' ∧
    (words_ok (b_fs s) f → words_ok fs' f) ∧
    ∀ k, 0 ≤ k < 4096 → frame_byte fs' (4096 * f + k) = if decide (o ≤ k < o + Z.of_nat (length l)) then l !!
      Z.to_nat (k - o) else frame_byte (b_fs s) (4096 * f + k).
Proof.
  revert o s. induction l as [|v l IH]; intros o s Hf Ho Hl Hb; cbn [length] in *.
  - exists (b_fs s). split; [by destruct s|]. split; [done|]. split; [done|]. intros k _. rewrite decide_False by lia. done.
  - apply Forall_cons in Hb as [Hv Hb].
    destruct (pstore_byte_run f o v s Hf) as (fs1 & Hr1 & Ho1 & Hw1 & Hb1); [lia|done|]. cbn [pstore_bytes].
    rewrite (bind_Ret _ _ _ _ _ Hr1).
    destruct (IH (o + 1) (set_fs fs1 s)) as (fs2 & Hr2 & Ho2 & Hw2 & Hb2); [by apply Ho1|lia|lia|done|].
    replace (4096 * f + o + 1) with (4096 * f + (o + 1)) by lia. rewrite Hr2. exists fs2. split; [done|].
    split; [by apply only_frames_trans with fs1|]. split; [auto|]. intros k Hk. rewrite Hb2 by done.
    cbn [b_fs set_fs]. rewrite Hb1 by done. destruct (decide (k = o)) as [->|Hne].
    + rewrite decide_False, decide_True by lia. by rewrite Z.sub_diag.
    + destruct (decide (o + 1 ≤ k < _)); [rewrite decide_True by lia|by rewrite decide_False by lia].
      replace (Z.to_nat (k - o)) with (S (Z.to_nat (k - (o + 1)))) by lia. done.
Qed.

Lemma zero_frame_word fs n i e : frame_word (<[n := zero_page]> fs) n i = Some e → e = 0.
Proof. unfold frame_word. rewrite lookup_insert_eq. change (zero_page !! Z.to_nat i = Some e → e = 0).
  unfold zero_page. by intros [-> _]%lookup_replicate. Qed.

Section pages.
Context `{!BootArch, !BootCpu, !BootArchOk}.
Context (D : Z → Prop) (HD : ∀ i, D i → index_ok i) (n0 lim : Z).
Notation boot_inv := (boot_inv D n0 lim).
Notation extends := (extends D).

(** Writing the entry of a page. *)
Section write.
Context (X : Z → Prop) (pages : gmap Z page) (s : boot) (va f : Z) (pg : page).
Context (Hinv : boot_inv X pages s) (Hd : D (L4OFF va)) (Hf : table (top s) (b_fs s) [L4OFF va; L3OFF va;
    L2OFF va] = Some f).
Context (Hpg : pfn_ok (pg_frame pg) ∧ pg_frame pg < next_pfn s ∧ pg_frame pg ≠ root_pfn s ∧ frame_ok (b_fs s) (pg_frame pg)).
Context (Hnt : ∀ p, path_ok D p → table (top s) (b_fs s) p ≠ Some (pg_frame pg)).
Context (Hnew : ∀ v pg', pages !! v = Some pg' → v ≠ vpn va →
    pg_frame pg' ≠ pg_frame pg) (Hwd : ∀ i w, frame_word (b_fs s) (pg_frame pg) i = Some w → word64 w).

Definition written : boot := set_fs (frame_update (b_fs s) f (L1OFF va) (page_pte_of pg)) s.

Lemma written_frames g : frame_ok (b_fs s) g → frame_ok (b_fs written) g.
Proof. apply frame_update_ok. Qed.

Lemma table_not_root : f ≠ root_pfn s.
Proof. intros ->. destruct (so_frame _ _ _ _ (bi_space _ _ _ _ _ _ Hinv) _ _ (va_path D va Hd) Hf) as [_ Hn].
  apply Hn. right. by left. Qed.

Lemma written_top j : index_ok j → top written j = top s j.
Proof.
  intros Hj. unfold top. destruct (so_frame _ _ _ _ (bi_space _ _ _ _ _ _ Hinv) _ _ (va_path D va Hd) Hf) as [Hfo _].
  destruct (off_range va) as (_ & _ & _ & I1). cbn. rewrite entry_update by done.
  rewrite decide_False; [done|]. intros [E _]. by apply table_not_root.
Qed.

Lemma written_table p : path_ok D p → table (top written) (b_fs written) p = table (top s) (b_fs s) p.
Proof.
  intros Hp. destruct (off_range va) as (_ & _ & _ & I1).
  rewrite <- (leaf_write_table D (foreign lim pages s) (top s) (b_fs s) (bi_space _ _ _ _ _ _ Hinv) _ f (L1OFF va)
    (page_pte_of pg) (va_path D va Hd) eq_refl Hf I1 p Hp).
  apply (table_top_ext D); [|done]. intros j _ Hj. by apply written_top.
Qed.

Lemma written_leaf va' : D (L4OFF va') →
    leaf (top written) (b_fs written) va' = if decide (vpn va' = vpn va) then page_pte_of pg else leaf (top s)
    (b_fs s) va'.
Proof.
  intros Hd'. rewrite (leaf_top_ext D (top s)); [|intros j _ Hj; by apply written_top|done]. cbn.
  rewrite (leaf_write_leaf D (foreign lim pages s)); [|apply Hinv|done..].
  destruct (decide (same_page va va')) as [Hs|Hs]; rewrite same_page_vpn in Hs;
    [by rewrite decide_True|by rewrite decide_False by congruence].
Qed.

Lemma written_entry p g j : path_ok D p → (length p ≤ 2)%nat → table (top s) (b_fs s) p = Some g → index_ok j →
    entry (b_fs written) g j = entry (b_fs s) g j.
Proof.
  intros Hp Hl Hg Hj. destruct (off_range va) as (_ & _ & _ & I1). cbn.
  rewrite (leaf_write_entry D (foreign lim pages s) (top s) (b_fs s) (bi_space _ _ _ _ _ _ Hinv) _ f (L1OFF va)
    (page_pte_of pg) (va_path D va Hd) Hf I1 p g j) by done.
  rewrite decide_False; [done|]. intros [-> _]. cbn in Hl. lia.
Qed.

Lemma written_clear va' : D (L4OFF va') → clear s va' → clear written va'.
Proof.
  intros Hd' (H4 & H3 & H2). destruct (off_range va') as (I4 & I3 & I2 & _).
  assert (path_ok D [L4OFF va']) as P4 by (by apply path_ok_one).
  assert (path_ok D [L4OFF va'; L3OFF va']) as P3 by (apply (path_ok_snoc D [L4OFF va']); [done|done|cbn; lia]).
  unfold clear. rewrite !written_table, written_top by done. split; [done|].
  split; intros g Hg; [rewrite (written_entry [L4OFF va'] g);
    [by apply H3|done|cbn; lia|done..]|rewrite (written_entry [L4OFF va'; L3OFF va'] g);
    [by apply H2|done|cbn; lia|done..]].
Qed.

Lemma written_word g i : (∀ p, path_ok D p → table (top s) (b_fs s) p ≠ Some g) →
    frame_word (b_fs written) g i = frame_word (b_fs s) g i.
Proof. intros Hg. cbn. unfold frame_word, frame_update. rewrite lookup_alter_ne; [done|]. intros ->.
  by apply (Hg _ (va_path D va Hd)). Qed.

Lemma written_inv : boot_inv X (<[vpn va := pg]> pages) written.
Proof.
  destruct (off_range va) as (_ & _ & _ & I1). split.
  - apply ram_ok_fs; [apply Hinv|apply written_frames].
  - destruct (bi_root _ _ _ _ _ _ Hinv) as (? & ? & ? & ?). split_and!; try done. by apply written_frames.
  - apply (space_ok_top_ext D _ (top s)); [done|intros j _ Hj; by apply written_top|]. cbn.
    apply leaf_write_ok with [L4OFF va; L3OFF va; L2OFF va]; [|by apply va_path|done..].
    destruct (bi_space _ _ _ _ _ _ Hinv) as [A B C E]. split; [|done..]. intros p g Hp Hg.
    destruct (A p g Hp Hg) as [Hgo Hgn]. split; [done|].
    intros [Hx|[Hx|(v & pg' & Hv & Hx)]]; [apply Hgn; by left|apply Hgn; right; by left|].
    destruct (decide (v = vpn va)) as [->|Hne]; [rewrite lookup_insert_eq in Hv; injection Hv as <-; subst g;
      by apply (Hnt p)|]. rewrite lookup_insert_ne in Hv by done. apply Hgn. right. right. eauto.
  - intros p g Hp. rewrite written_table by done. by apply Hinv.
  - intros v pg'. destruct (decide (v = vpn va)) as [->|Hne]; [rewrite lookup_insert_eq; intros [= <-];
      destruct Hpg as (? & ? & ? & ?); split_and!; try done; by apply written_frames|].
    rewrite lookup_insert_ne by done. intros Hv. destruct (bi_page _ _ _ _ _ _ Hinv v pg' Hv) as (? & ? & ? & ?).
    split_and!; try done. by apply written_frames.
  - intros va' pg'. destruct (decide (vpn va' = vpn va)) as [E|Hne].
    + rewrite E, lookup_insert_eq. intros [= <-].
      assert (L4OFF va' = L4OFF va) as E4 by (by apply same_page_vpn in E as [E4 _]). rewrite E4. split; [done|].
      rewrite written_leaf by (by rewrite E4). by rewrite decide_True.
    + rewrite lookup_insert_ne by done. intros Hv. destruct (bi_leaf _ _ _ _ _ _ Hinv va' pg' Hv) as [Hd' Hl].
      split; [done|]. by rewrite written_leaf, decide_False.
  - intros v pg' i w. destruct (decide (v = vpn va)) as [->|Hne];
      [rewrite lookup_insert_eq; intros [= <-]; rewrite written_word by done; apply Hwd|].
    rewrite lookup_insert_ne by done. intros Hv. rewrite written_word; [by apply (bi_words _ _ _ _ _ _ Hinv v)|].
    intros p Hp. by apply (page_not_table D n0 lim X pages s v pg' p Hinv).
  - intros v v' pg1 pg2. destruct (decide (v = vpn va)) as [->|Hv], (decide (v' = vpn va)) as [->|Hv'];
      rewrite ?lookup_insert_eq, ?lookup_insert_ne by done; [done| | |apply (bi_inj _ _ _ _ _ _ Hinv)].
    + intros [= <-] Hq E. by destruct (Hnew v' pg2 Hq Hv').
    + intros Hq [= <-] E. by destruct (Hnew v pg1 Hq Hv).
  - intros va' Hx. destruct (bi_image _ _ _ _ _ _ Hinv va' Hx) as (Hd' & Hc & Hz). split; [done|].
    split; [by apply written_clear|]. intros Hnone. rewrite written_leaf by done.
    destruct (decide (vpn va' = vpn va)) as [E|Hne]; [by rewrite E, lookup_insert_eq in Hnone|]. apply Hz.
    by rewrite lookup_insert_ne in Hnone.
Qed.
End write.

(** ** Writing the bytes of a page *)

Section data.
Context (X : Z → Prop) (pages : gmap Z page) (s : boot) (fs' : gmap Z (list Z)).
Context (Hinv : boot_inv X pages s) (Hof : only_frames (λ g, ∃ v pg, pages !! v = Some pg ∧ pg_frame pg = g) (b_fs s) fs').
Context (Hwd : ∀ v pg i w, pages !! v = Some pg → frame_word fs' (pg_frame pg) i = Some w → word64 w).

Lemma data_entry p g j : path_ok D p → table (top s) (b_fs s) p = Some g → entry fs' g j = entry (b_fs s) g j.
Proof. intros Hp Hg. unfold entry. rewrite (proj2 Hof); [done|]. intros (v & pg & Hv & <-).
  by apply (page_not_table D n0 lim X pages s v pg p Hinv Hv Hp). Qed.

Lemma data_top j : top (set_fs fs' s) j = top s j.
Proof. unfold top, entry. cbn. rewrite (proj2 Hof); [done|]. intros (v & pg & Hv & E).
  by destruct (bi_page _ _ _ _ _ _ Hinv v pg Hv) as (_ & _ & ? & _). Qed.

Lemma data_table p : path_ok D p → table (top (set_fs fs' s)) fs' p = table (top s) (b_fs s) p.
Proof. apply table_agree; [intros j _ _; by rewrite data_top|]. intros q g j Hq _ _ Hg. by rewrite (data_entry q). Qed.

Lemma data_leaf va : D (L4OFF va) → leaf (top (set_fs fs' s)) fs' va = leaf (top s) (b_fs s) va.
Proof.
  intros Hd. unfold leaf. rewrite data_table by (by apply va_path). destruct (table _ _ _) as [g|] eqn:Eg; [|done].
  by apply (data_entry _ _ _ (va_path D va Hd)).
Qed.

Lemma data_clear va : D (L4OFF va) → clear s va → clear (set_fs fs' s) va.
Proof.
  intros Hd (H4 & H3 & H2). destruct (off_range va) as (I4 & I3 & I2 & _).
  assert (path_ok D [L4OFF va]) as P4 by (by apply path_ok_one).
  assert (path_ok D [L4OFF va; L3OFF va]) as P3 by (apply (path_ok_snoc D [L4OFF va]); [done|done|cbn; lia]).
  unfold clear. cbn [b_fs set_fs]. rewrite !data_table, data_top by done. split; [done|].
  split; intros g Hg; [rewrite (data_entry [L4OFF va]) by done; by apply H3|rewrite (data_entry [L4OFF va; L3OFF va])
    by done; by apply H2].
Qed.

Lemma data_inv : boot_inv X pages (set_fs fs' s).
Proof.
  destruct Hof as [Hfr _]. split.
  - apply ram_ok_fs; [apply Hinv|done].
  - destruct (bi_root _ _ _ _ _ _ Hinv) as (? & ? & ? & ?). split_and!; try done. by apply Hfr.
  - destruct (bi_space _ _ _ _ _ _ Hinv) as [A B C E]. split.
    + intros p g Hp. cbn [b_fs set_fs]. rewrite data_table by done. intros Hg. destruct (A p g Hp Hg).
      split; [by apply Hfr|done].
    + intros p q g Hp Hq. cbn [b_fs set_fs]. rewrite !data_table by done. by apply B.
    + done.
    + done.
  - intros p g Hp. cbn [b_fs set_fs]. rewrite data_table by done. by apply Hinv.
  - intros v pg Hv. destruct (bi_page _ _ _ _ _ _ Hinv v pg Hv) as (? & ? & ? & ?). split_and!; try done. by apply Hfr.
  - intros va pg Hv. destruct (bi_leaf _ _ _ _ _ _ Hinv va pg Hv) as [Hd Hl]. split; [done|]. cbn [b_fs set_fs].
    by rewrite data_leaf.
  - done.
  - apply (bi_inj _ _ _ _ _ _ Hinv).
  - intros va Hx. destruct (bi_image _ _ _ _ _ _ Hinv va Hx) as (Hd & Hc & Hz). split; [done|].
    split; [by apply data_clear|]. cbn [b_fs set_fs]. by rewrite data_leaf.
Qed.
End data.

(** ** Populating a page *)

Definition merged (pg : page) (w x : bool) : page := {| pg_frame := pg_frame pg; pg_u := pg_u pg;
    pg_w := w || pg_w pg; pg_x := x || pg_x pg |}.

Lemma page_entry X pages s va f pg : boot_inv X pages s → D (L4OFF va) → table (top s) (b_fs s) [L4OFF va; L3OFF va;
    L2OFF va] = Some f → pages !! vpn va = Some pg → entry (b_fs s) f (L1OFF va) = page_pte_of pg.
Proof. intros Hi Hd Hf Hv. destruct (bi_leaf _ _ _ _ _ _ Hi va pg Hv) as [_ Hl]. unfold leaf in Hl. by rewrite Hf in Hl. Qed.

Lemma page_addr X pages s va f pg : boot_inv X pages s → D (L4OFF va) → table (top s) (b_fs s) [L4OFF va; L3OFF va;
    L2OFF va] = Some f → pages !! vpn va = Some pg →
  frame_ok (b_fs s) f ∧ pte_getaddr (4096 * f + 8 * L1OFF va) s = Ret (4096 * pg_frame pg, s) ∧
    4096 * pg_frame pg ≠ 0 ∧ pfn_ok (pg_frame pg).
Proof.
  intros Hi Hd Hf Hv. destruct (so_frame _ _ _ _ (bi_space _ _ _ _ _ _ Hi) _ _ (va_path D va Hd) Hf) as [Hfo _].
  destruct (off_range va) as (_ & _ & _ & I1). destruct (bi_page _ _ _ _ _ _ Hi _ _ Hv) as (Hok & _).
  split; [done|]. split; [|unfold pfn_ok in *; split; [lia|done]]. rewrite pte_getaddr_run by done.
  rewrite (page_entry X pages s va f pg) by done. unfold page_pte_of.
  destruct (page_pte (pg_frame pg) (pg_u pg) (pg_w pg) (pg_x pg) Hok) as (Hp & Ha & _).
  rewrite (proj2 (Z.eqb_neq _ _) Hp). by rewrite Ha.
Qed.

Lemma shiftr_page f : Z.shiftr (4096 * f) PAGE_SHIFT = f.
Proof. change PAGE_SHIFT with 12. rewrite Z.shiftr_div_pow2 by lia. change (2 ^ 12) with 4096.
  by rewrite Z.mul_comm, Z.div_mul by lia. Qed.

(** A page that is there keeps its frame and its bytes, and gets the rights of both. *)
Lemma populate_old X pages s va u w x pg : boot_inv X pages s → room lim 3 s → X (vpn va) →
    pages !! vpn va = Some pg → pg_u pg = u →
  ∃ s', populate_page (root s) va u w x true s = Ret (4096 * pg_frame pg, s') ∧
    boot_inv X (<[vpn va := merged pg w x]> pages) s' ∧ root s' = root s ∧ uses lim 3 s s' ∧ keeps pages s s'.
Proof.
  intros Hi Hr Hx Hv <-. destruct (bi_image _ _ _ _ _ _ Hi va Hx) as (Hd & Hc & _).
  destruct (get_l1p_run D HD n0 lim X pages s va Hi Hr Hd Hc) as (f & s1 & Hr1 & Hi1 & He1 & Ht1 & Hu1).
  destruct (page_addr X pages s1 va f pg Hi1 Hd Ht1 Hv) as (Hfo & Ha & Hnz & Hok).
  destruct (off_range va) as (_ & _ & _ & I1). unfold populate_page. rewrite (bind_Ret _ _ _ _ _ Hr1). cbn zeta.
  rewrite (bind_Ret _ _ _ _ _ Ha), (proj2 (Z.eqb_neq _ _) Hnz).
  unfold pte_getflags at 1. rewrite bind_assoc, (bind_Ret _ _ _ _ _ (pload_run f _ s1 Hfo I1)),
    (page_entry X pages s1 va f pg) by done. unfold page_pte_of.
  destruct (page_pte (pg_frame pg) (pg_u pg) (pg_w pg) (pg_x pg) Hok) as (_ & _ & ->).
  rewrite (bind_Ret _ _ _ _ _ eq_refl).
  pose proof (merge_flags (pg_u pg) w x (pg_u pg) (pg_w pg) (pg_x pg) s1) as Hm. rewrite eqb_reflx in Hm.
  rewrite (bind_Ret _ _ _ _ _ Hm), shiftr_page.
  exists (written s1 va f (merged pg w x)). split; [|split; [|split; [apply (ex_root _ _ _ He1)|split; [exact Hu1|]]]].
  - destruct (Z.eqb_spec (page_flags (pg_u pg) (w || pg_w pg) (x || pg_x pg))
      (page_flags (pg_u pg) (pg_w pg) (pg_x pg))) as [E|E]; cbn [negb when].
    + unfold written. rewrite frame_update_same; [by destruct s1|]. destruct (frame_word_ok _ _ _ Hfo I1) as [e Hw].
      rewrite Hw. f_equal. transitivity (entry (b_fs s1) f (L1OFF va)); [unfold entry; by rewrite Hw|].
      rewrite (page_entry X pages s1 va f pg) by done. unfold page_pte_of. cbn. by rewrite E.
    + unfold set_pte. by rewrite (bind_Ret _ _ _ _ _ (pstore_run f _ _ s1 Hfo I1)).
  - apply written_inv; [done|done|done|exact (bi_page _ _ _ _ _ _ Hi1 (vpn va) pg Hv)|intros p;
      exact (page_not_table D n0 lim X pages s1 (vpn va) pg p Hi1 Hv)| |intros i e He;
      exact (bi_words _ _ _ _ _ _ Hi1 (vpn va) pg i e Hv He)]. intros v pg' Hv' Hne E. apply Hne.
    by apply (bi_inj _ _ _ _ _ _ Hi1 v (vpn va) pg' pg).
  - intros v pg' i Hv'. rewrite (written_word s1 va f _ Hd Ht1);
      [by apply (extends_keeps D n0 lim X pages s s1 Hi He1 v)|]. intros p.
    exact (page_not_table D n0 lim X pages s1 v pg' p Hi1 Hv').
Qed.

Definition fresh (s : boot) (u w x : bool) : page := {| pg_frame := next_pfn s; pg_u := u; pg_w := w; pg_x := x |}.

(** A page that is not there gets the next frame, cleared. *)
Lemma populate_new X pages s va u w x : boot_inv X pages s → room lim 4 s → X (vpn va) → pages !! vpn va = None →
  ∃ pg s', populate_page (root s) va u w x true s = Ret (4096 * pg_frame pg, s') ∧
    boot_inv X (<[vpn va := pg]> pages) s' ∧ root s' = root s ∧ uses lim 4 s s' ∧ keeps pages s s' ∧
    (pg_u pg = u ∧ pg_w pg = w ∧ pg_x pg = x) ∧ ∀ i, index_ok i → frame_word (b_fs s') (pg_frame pg) i = Some 0.
Proof.
  intros Hi Hr Hx Hv. destruct (bi_image _ _ _ _ _ _ Hi va Hx) as (Hd & Hc & _).
  destruct (get_l1p_run D HD n0 lim X pages s va Hi (room_less lim 4 3 s ltac:(lia) Hr) Hd Hc)
    as (f & s1 & Hr1 & Hi1 & He1 & Ht1 & Hu1).
  assert (room lim 1 s1) as Hroom by (apply Hu1; [lia|done]).
  destruct (so_frame _ _ _ _ (bi_space _ _ _ _ _ _ Hi1) _ _ (va_path D va Hd) Ht1) as [Hfo _].
  destruct (off_range va) as (_ & _ & _ & I1).
  destruct (bi_image _ _ _ _ _ _ Hi1 va Hx) as (_ & _ & Hz). specialize (Hz Hv).
  assert (entry (b_fs s1) f (L1OFF va) = leaf (top s1) (b_fs s1) va) as El by (unfold leaf; by rewrite Ht1).
  unfold populate_page. rewrite (bind_Ret _ _ _ _ _ Hr1). cbn zeta.
  rewrite (bind_Ret _ _ _ _ _ (pte_getaddr_run f _ s1 Hfo I1)), El, Hz. cbn [Z.eqb]. unfold any_page.
  rewrite (bind_Ret _ _ _ _ _ (get_payload_page_run n0 lim s1 (bi_ram _ _ _ _ _ _ Hi1) Hroom)), shiftr_page.
  pose proof (with_page_inv D HD n0 lim X pages s1 Hi1 Hroom) as Hi2.
  pose proof (with_page_extends D n0 lim X pages s1 Hi1 Hroom) as He2.
  pose proof (ex_table _ _ _ He2 _ _ (va_path D va Hd) Ht1) as Ht2.
  destruct (so_frame _ _ _ _ (bi_space _ _ _ _ _ _ Hi2) _ _ (va_path D va Hd) Ht2) as [Hfo2 _].
  pose proof (next_pfn_pos _ _ _ (bi_ram _ _ _ _ _ _ Hi1)) as Hn. pose proof (ra_lim _ _ _ (bi_ram _ _ _ _ _ _ Hi1)).
  pose proof Hroom as (_ & Hl & _).
  destruct (bi_root _ _ _ _ _ _ Hi1) as (_ & _ & Hrn & _).
  assert (∀ p, path_ok D p → table (top (with_page s1)) (b_fs (with_page s1)) p ≠ Some (next_pfn s1)) as Hnt.
  { intros p Hp. rewrite (with_page_table D n0 lim X pages) by done. intros Hc'.
    destruct (bi_low _ _ _ _ _ _ Hi1 p _ Hp Hc'). lia. }
  exists (fresh s1 u w x), (written (with_page s1) va f (fresh s1 u w x)).
  split; [unfold set_pte; by rewrite (bind_Ret _ _ _ _ _ (pstore_run f _ _ (with_page s1) Hfo2 I1))|].
  split; [apply written_inv; [done|done|done| |exact Hnt| |]|split;
    [apply (ex_root _ _ _ He1)|split; [|split; [|split; [done|]]]]].
  - cbn. rewrite next_with_page. unfold pfn_ok. split; [lia|]. split; [lia|].
    split; [change (next_pfn s1 ≠ root_pfn s1); lia|]. apply frame_zero_ok; [cbn; lia|].
    apply (ra_ram _ _ _ (bi_ram _ _ _ _ _ _ Hi1)). lia.
  - intros v pg' Hv' _ E. destruct (bi_page _ _ _ _ _ _ Hi1 v pg' Hv') as (_ & ? & _). cbn in E. lia.
  - intros i e He. by rewrite (zero_frame_word _ _ i e He).
  - split; [exact (proj1 Hu1)|]. intros n Hn0 Hrn'.
    destruct (proj2 Hu1 (n + 1) ltac:(lia)) as (? & ? & ?); [by replace (n + 1 + 3) with (n + 4) by lia|].
    exact (with_page_room lim n s1 ltac:(split_and!; [done|lia|lia]) Hn0).
  - intros v pg' i Hv'. rewrite (written_word (with_page s1) va f _ Hd Ht2);
      [|intros p; exact (page_not_table D n0 lim X pages _ v pg' p Hi2 Hv')].
    rewrite (extends_keeps D n0 lim X pages s1 _ Hi1 He2 v pg' i Hv').
    apply (extends_keeps D n0 lim X pages s s1 Hi He1 v pg' i Hv').
  - intros i Hii. rewrite (written_word (with_page s1) va f _ Hd Ht2) by exact Hnt. cbn. unfold index_ok in Hii.
    rewrite frame_zero_word by lia. by rewrite decide_True.
Qed.

(** ** The payload's memory *)

Definition vbyte (pages : gmap Z page) (s : boot) (va : Z) : option Z := pg ← pages !! vpn va;
    frame_byte (b_fs s) (4096 * pg_frame pg + va `mod` 4096).
Definition rights (pg : page) : bool * bool * bool := (pg_u pg, pg_w pg, pg_x pg).

(** The rights that the pages [P] get. *)
Record grants (P : Z → Prop) (u w x : bool) (pages pages' : gmap Z page) : Prop := {
  gr_none v : ¬ P v → pages' !! v = pages !! v;
  gr_fresh v : P v → pages !! v = None → rights <$> pages' !! v = Some (u, w, x);
  gr_old v pg : P v → pages !! v = Some pg → pages' !! v = Some (merged pg w x);
}.

(** What populating does: the rights, and new pages are zero. *)
Record populated (P : Z → Prop) (u w x : bool) (pages : gmap Z page) (s : boot) (pages' : gmap Z page) (s' : boot) :
    Prop := {
  po_grants : grants P u w x pages pages';
  po_zero va : P (vpn va) → pages !! vpn va = None → vbyte pages' s' va = Some 0;
  po_byte va : is_Some (pages !! vpn va) → vbyte pages' s' va = vbyte pages s va;
}.

Lemma keeps_byte X pages s pages' s' va pg pg' : boot_inv X pages s → keeps pages s s' → pages !! vpn va = Some pg →
    pages' !! vpn va = Some pg' → pg_frame pg' = pg_frame pg → vbyte pages' s' va = vbyte pages s va.
Proof.
  intros Hi Hk Hv Hv' E. unfold vbyte. rewrite Hv, Hv'. cbn. rewrite E. unfold frame_byte.
  destruct (byte_addr (pg_frame pg) (va `mod` 4096)) as (-> & _); [by apply Z.mod_pos_bound|].
  by rewrite (Hk (vpn va) pg).
Qed.

Lemma populate_page_run X pages s va u w x : boot_inv X pages s → room lim 4 s → X (vpn va) →
    (∀ pg, pages !! vpn va = Some pg → pg_u pg = u) →
  ∃ pg s', let pages' := <[vpn va := pg]> pages in populate_page (root s) va u w x true s = Ret (4096 * pg_frame pg,
    s') ∧ boot_inv X pages' s' ∧ root s' = root s ∧ uses lim 4 s s' ∧
    populated (λ v, v = vpn va) u w x pages s pages' s'.
Proof.
  intros Hi Hr Hx Hu. destruct (pages !! vpn va) as [pg|] eqn:Hv.
  - destruct (populate_old X pages s va u w x pg Hi (room_less lim 4 3 s ltac:(lia) Hr) Hx Hv (Hu pg eq_refl))
      as (s' & Hrun & Hi' & Hrt & Hus & Hk). exists (merged pg w x), s'. split; [done|]. split; [done|].
    split; [done|].
    split; [split; [apply Hus|]; intros n Hn Hrn; apply Hus; [done|]; by apply (room_less lim (n + 4)); [lia|]|]. split.
    + split; [intros v Hne; by rewrite lookup_insert_ne|intros v -> Hnone; congruence|intros v pg' -> Hv';
        rewrite lookup_insert_eq; congruence].
    + intros va' -> Hnone. congruence.
    + intros va' [pg' Hv']. destruct (decide (vpn va' = vpn va)) as [E|Hne].
      * apply (keeps_byte X pages s _ s' va' pg (merged pg w x) Hi Hk); [by rewrite E|by rewrite E, lookup_insert_eq|done].
      * apply (keeps_byte X pages s _ s' va' pg' pg' Hi Hk); [done|by rewrite lookup_insert_ne|done].
  - destruct (populate_new X pages s va u w x Hi Hr Hx Hv)
      as (pg & s' & Hrun & Hi' & Hrt & Hus & Hk & (<- & <- & <-) & Hz). exists pg, s'. split; [done|].
    split; [done|]. split; [done|]. split; [done|]. split.
    + split; [intros v Hne; by rewrite lookup_insert_ne|intros v -> _;
        by rewrite lookup_insert_eq|intros v pg' -> Hv'; congruence].
    + intros va' E _. unfold vbyte. rewrite E, lookup_insert_eq. cbn. unfold frame_byte.
      destruct (byte_addr (pg_frame pg) (va' `mod` 4096)) as (-> & -> & -> & Hidx); [by apply Z.mod_pos_bound|].
      rewrite Hz by done. cbn. f_equal. unfold word_byte. by rewrite Z.shiftr_0_l.
    + intros va' [pg' Hv']. assert (vpn va' ≠ vpn va) as Hne by congruence.
      apply (keeps_byte X pages s _ s' va' pg' pg' Hi Hk); [done|by rewrite lookup_insert_ne|done].
Qed.

Lemma grants_some P u w x pages pages' v : grants P u w x pages pages' → P v → is_Some (pages' !! v).
Proof. intros A Hp. destruct (pages !! v) as [pg|] eqn:E; [rewrite (gr_old _ _ _ _ _ _ A v pg) by done; by eexists|].
  pose proof (gr_fresh _ _ _ _ _ _ A v Hp E) as Hr. destruct (pages' !! v); [by eexists|done]. Qed.

Lemma grants_keep P u w x pages pages' v : (P v ∨ ¬ P v) → grants P u w x pages pages' → is_Some (pages !! v) →
    is_Some (pages' !! v).
Proof. intros [Hp|Hp] A Hs; [by apply (grants_some P u w x pages)|by rewrite (gr_none _ _ _ _ _ _ A)]. Qed.

Lemma grants_trans P Q u w x pages1 pages2 pages3 : (∀ v, P v ∨ ¬ P v) → (∀ v, Q v ∨ ¬ Q v) →
    grants P u w x pages1 pages2 → grants Q u w x pages2 pages3 → grants (λ v, P v ∨ Q v) u w x pages1 pages3.
Proof.
  intros HP HQ A B. split.
  - intros v Hn. rewrite (gr_none _ _ _ _ _ _ B), (gr_none _ _ _ _ _ _ A); tauto.
  - intros v Hpq Hq0. destruct (HP v) as [Hp|Hp];
      [|apply (gr_fresh _ _ _ _ _ _ B); [tauto|by rewrite (gr_none _ _ _ _ _ _ A)]].
    pose proof (gr_fresh _ _ _ _ _ _ A v Hp Hq0) as Hr.
    destruct (HQ v) as [Hq|Hq]; [|by rewrite (gr_none _ _ _ _ _ _ B)].
    destruct (pages2 !! v) as [pg|] eqn:Hq2; [|done]. injection Hr as E1 E2 E3.
    rewrite (gr_old _ _ _ _ _ _ B v pg Hq Hq2). unfold rights, merged. cbn. by rewrite E1, E2, E3, !orb_diag.
  - intros v pg Hpq Hq0. destruct (HP v) as [Hp|Hp];
      [|apply (gr_old _ _ _ _ _ _ B); [tauto|by rewrite (gr_none _ _ _ _ _ _ A)]].
    pose proof (gr_old _ _ _ _ _ _ A v pg Hp Hq0) as Hq2.
    destruct (HQ v) as [Hq|Hq]; [|by rewrite (gr_none _ _ _ _ _ _ B)]. rewrite (gr_old _ _ _ _ _ _ B v _ Hq Hq2).
    unfold merged. cbn. by rewrite !orb_assoc, !orb_diag.
Qed.

Lemma pages_populated_trans P Q u w x pages1 s1 pages2 s2 pages3 s3 : (∀ v, P v ∨ ¬ P v) → (∀ v, Q v ∨ ¬ Q v) →
    populated P u w x pages1 s1 pages2 s2 → populated Q u w x pages2 s2 pages3 s3 →
  populated (λ v, P v ∨ Q v) u w x pages1 s1 pages3 s3.
Proof.
  intros HP HQ A B. pose proof (po_grants _ _ _ _ _ _ _ _ A) as GA. split.
  - apply grants_trans with pages2; [done|done|done|apply B].
  - intros va Hpq Hq0. destruct (HP (vpn va)) as [Hp|Hp].
    + rewrite (po_byte _ _ _ _ _ _ _ _ B) by (by apply (grants_some P u w x pages1)). by apply (po_zero _ _ _ _ _ _ _ _ A).
    + apply (po_zero _ _ _ _ _ _ _ _ B); [tauto|]. by rewrite (gr_none _ _ _ _ _ _ GA).
  - intros va Hq0. rewrite (po_byte _ _ _ _ _ _ _ _ B); [by apply (po_byte _ _ _ _ _ _ _ _ A)|].
    by apply (grants_keep P u w x pages1).
Qed.

Lemma grants_ext P Q u w x pages pages' : (∀ v, P v ↔ Q v) → grants P u w x pages pages' → grants Q u w x pages pages'.
Proof. intros E [A B C]. split; [intros v Hn; apply A; by rewrite E|intros v Hq; apply B; by apply E|intros v pg Hq;
    apply C; by apply E]. Qed.

Lemma populated_ext P Q u w x pages s pages' s' : (∀ v, P v ↔ Q v) → populated P u w x pages s pages' s' →
    populated Q u w x pages s pages' s'.
Proof. intros E [G F B]. split; [by apply (grants_ext P)|intros va Hq; apply F; by apply E|done]. Qed.

Lemma grants_none u w x pages : grants (λ _, False) u w x pages pages.
Proof. by split. Qed.

Lemma populated_none u w x pages s : populated (λ _, False) u w x pages s pages s.
Proof. by split; [apply grants_none| |]. Qed.

(** The pages of a range of addresses. *)
Definition pages_of (va len v : Z) : Prop := ∃ k, va `div` 4096 ≤ k ∧ 4096 * k < va + len ∧ 0 < len ∧ v = k `mod` 2 ^ 36.
Definition npages (va len : Z) : Z := if 0 <? len then (va + len - 1) `div` 4096 - va `div` 4096 + 1 else 0.

Lemma pages_of_dec va len v : pages_of va len v ∨ ¬ pages_of va len v.
Proof.
  destruct (decide (Exists (λ k, v = k `mod` 2 ^ 36) (seqZ (va `div` 4096) (npages va len)))) as [He|He]; [left|right].
  - apply Exists_exists in He as (k & Hk & ->). apply elem_of_seqZ in Hk. unfold npages in Hk.
    destruct (Z.ltb_spec 0 len); [|lia]. exists k. split; [lia|]. split; [|done]. Z.div_mod_to_equations. lia.
  - intros (k & Hk & Hl & Hp & ->). apply He, Exists_exists. exists k. split; [|done]. apply elem_of_seqZ.
    unfold npages. rewrite (proj2 (Z.ltb_lt 0 len)) by done. Z.div_mod_to_equations. lia.
Qed.

Lemma pages_of_step va len : 0 < len → let d := 4096 * (va `div` 4096) + 4096 - va in
  (∀ v, v = vpn va ∨ pages_of (va + d) (len - d) v ↔ pages_of va len v) ∧
    npages va len = 1 + npages (va + d) (len - d) ∧ 0 < d ≤ 4096 ∧ (va + d) `div` 4096 = va `div` 4096 + 1.
Proof.
  intros Hlen d. assert ((va + d) `div` 4096 = va `div` 4096 + 1) as Hd by (unfold d;
    replace (va + _) with ((va `div` 4096 + 1) * 4096) by lia; by rewrite Z.div_mul by lia).
  assert (0 < d ≤ 4096) as Hdr by (unfold d; Z.div_mod_to_equations; lia). split; [|split; [|done]].
  - intros v. unfold pages_of, vpn. rewrite Hd. replace (va + d + (len - d)) with (va + len) by lia. split.
    + intros [->|(k & Hk & Hl & _ & ->)]; [exists (va `div` 4096); split; [lia|]; split; [|done];
        Z.div_mod_to_equations; lia|exists k; split_and!; done || lia].
    + intros (k & Hk & Hl & _ & ->). destruct (decide (k = va `div` 4096)) as [->|Hne]; [by left|right]. exists k.
      split; [lia|]. split; [done|]. split; [unfold d; lia|done].
  - unfold npages. rewrite Hd, (proj2 (Z.ltb_lt 0 len)) by done.
    replace (va + d + (len - d) - 1) with (va + len - 1) by lia. destruct (Z.ltb_spec 0 (len - d)); [lia|].
    unfold d in *. Z.div_mod_to_equations. lia.
Qed.

Lemma no_pages va len u w x pages s : len ≤ 0 → uses lim (4 * npages va len) s s ∧
    populated (pages_of va len) u w x pages s pages s.
Proof.
  intros Hl. split; [apply uses_none; unfold npages; rewrite (proj2 (Z.ltb_ge 0 len)); lia|].
  apply (populated_ext (λ _, False)); [|apply populated_none]. intros v. split; [done|]. intros (k & _ & _ & ? & _).
  lia.
Qed.

Lemma populate_loop_run X u w x fuel : ∀ va len pages s, boot_inv X pages s → 0 ≤ va → va + len + 4096 ≤ 2 ^ 64 →
    npages va len ≤ Z.of_nat fuel → room lim (4 * npages va len) s →
  (∀ v, pages_of va len v → X v ∧ ∀ pg, pages !! v = Some pg → pg_u pg = u) →
  ∃ pages' s', populate_loop fuel va len u w x s = Ret (tt, s') ∧ boot_inv X pages' s' ∧ root s' = root s ∧
    uses lim (4 * npages va len) s s' ∧ populated (pages_of va len) u w x pages s pages' s'.
Proof.
  induction fuel as [|fuel IH]; intros va len pages s Hi Hva Hend Hf Hr HX; cbn [populate_loop];
    destruct (Z.ltb_spec 0 len) as [Hl|Hl].
  - destruct (pages_of_step va len Hl) as (_ & En & _). unfold npages in En, Hf at 1.
    rewrite (proj2 (Z.ltb_lt 0 len)) in Hf by done. Z.div_mod_to_equations. lia.
  - exists pages, s. split; [done|]. split; [done|]. split; [done|]. by apply no_pages.
  - destruct (pages_of_step va len Hl) as (Ep & En & Hd & _). set (d := 4096 * (va `div` 4096) + 4096 - va) in *.
    assert (0 ≤ npages (va + d) (len - d)) as Hnn.
    { unfold npages. destruct (Z.ltb_spec 0 (len - d)); [|lia]. Z.div_mod_to_equations. lia. }
    rewrite bind_gets. destruct (populate_page_run X pages s va u w x Hi)
      as (pg & s1 & Hr1 & Hi1 & Hrt1 & Hu1 & Hp1); [apply (room_less lim _ 4 s) in Hr; [done|lia]|apply HX, Ep;
      by left|intros pg; apply HX, Ep; by left|].
    rewrite (bind_Ret _ _ _ _ _ Hr1). cbn zeta. rewrite page_ceiling_eq by lia. fold d.
    assert (u64 d = d) as -> by (apply Z.mod_small; lia).
    assert (u64 (va + d) = va + d) as -> by (apply Z.mod_small; lia).
    destruct (IH (va + d) (len - d) (<[vpn va := pg]> pages) s1 Hi1) as (pages2 & s2 & Hr2 & Hi2 & Hrt2 & Hu2 & Hp2);
      [lia|lia|lia|apply Hu1; [lia|]; by replace (4 * npages (va + d) (len - d) + 4) with (4 * npages va len)
      by lia| |].
    { intros v Hv. destruct (HX v) as [Hxv Huv]; [apply Ep; by right|]. split; [done|]. intros pg'.
      destruct (decide (v = vpn va)) as [->|Hne]; [|rewrite lookup_insert_ne by done; apply Huv].
      rewrite lookup_insert_eq. intros [= <-].
      pose proof (po_grants _ _ _ _ _ _ _ _ Hp1) as G1.
      destruct (pages !! vpn va) as [pg0|] eqn:E0;
        [pose proof (gr_old _ _ _ _ _ _ G1 _ pg0 eq_refl E0) as E|pose proof (gr_fresh _ _ _ _ _ _ G1 _ eq_refl E0)
        as E]; rewrite lookup_insert_eq in E; [injection E as ->; cbn; by apply Huv|by injection E]. }
    exists pages2, s2. split; [done|]. split; [done|]. split; [congruence|].
    split; [rewrite En; replace (4 * (1 + npages (va + d) (len - d))) with (4 + 4 * npages (va + d) (len - d))
      by lia; by apply (uses_trans lim 4 _ s s1 s2); [lia|..]|].
    apply (populated_ext (λ v, v = vpn va ∨ pages_of (va + d) (len - d) v)); [done|].
    apply (pages_populated_trans (λ v, v = vpn va) _ u w x pages s (<[vpn va := pg]> pages) s1);
      [|apply pages_of_dec|done|done]. intros v. destruct (decide (v = vpn va)); auto.
  - exists pages, s. split; [done|]. split; [done|]. split; [done|]. by apply no_pages.
Qed.
End pages.
