(* ===== verification/ApxhLoad.v ===== *)
(** The boot loader's main.c and elf.c: copying an image into the payload's address space,
    the segments of an ELF file, and what the loader hands to the payload (its boot
    information, the memory regions, the map of frames and the S-tree of free frames).

    A payload image is the list of its bytes, which the loader only reads. The page
    tables are those of [BootArch]: payloads of 64 bits. *)

From S2P Require Import Prelude Words Locks Machine PageTable Stree Apxh.

(** * Bytes in memory *)

Definition le_bytes (n : nat) (v : Z) : list Z := (λ k, u8 (Z.shiftr v (8 * Z.of_nat k))) <$> seq 0 n.

Fixpoint le_value (l : list Z) : Z := match l with [] => 0 | b :: l' => b + 256 * le_value l' end.

(** The [n] bytes at an offset, when they are all there. *)
Definition slice (l : list Z) (off n : Z) : option (list Z) :=
  if off + n <=? Z.of_nat (length l) then Some (take (Z.to_nat n) (drop (Z.to_nat off) l)) else None.

Definition le_at (n : nat) (l : list Z) (off : Z) : option Z := le_value <$> slice l off (Z.of_nat n).

(** * What the machine tells *)

Definition BOOTINFO_REGION_RAM : Z := 1.
Definition BOOTINFO_REGION_BSY : Z := 3.

Record region := { reg_type : Z; reg_len : Z; reg_pfn : Z }.

Record fbdesc := { fb_type : Z; fb_bpp : Z; fb_pitch : Z; fb_width : Z; fb_height : Z; fb_addr : Z; fb_size : Z;
    fb_r_mask : Z; fb_g_mask : Z; fb_b_mask : Z }.
Definition FB_INVALID : Z := -1.

(** The regions of memory, the numbers of frames, the description of the platform, and
    the address below which no payload can be: that of the memory map for multiboot
    (apxh/multiboot/mb.c), 0 for SBI and EFI. *)
Class BootMd := {
  memregions : list region;
  maxpfn : Z;
  maxrampfn : Z;
  pltdesc : option (Z * Z);
  md_floor : Z;
}.

(** * The variables of main.c *)

Record tlsinfo := { tls_va : Z; tls_initsize : Z; tls_size : Z }.

Record loader := Loader {
  l_boot : boot;
  l_info : Z * Z;
  l_pfnmap : Z * Z;
  l_stree : Z * Z * Z;
  l_region : Z * Z * Z;
  l_ktls : tlsinfo;
  l_utls : tlsinfo;
  l_fb : option fbdesc;
}.

Definition set_boot (x : boot) (l : loader) := Loader x (l_info l) (l_pfnmap l) (l_stree l) (l_region l) (l_ktls l)
    (l_utls l) (l_fb l).
Definition set_info (x : Z * Z) (l : loader) := Loader (l_boot l) x (l_pfnmap l) (l_stree l) (l_region l) (l_ktls l)
    (l_utls l) (l_fb l).
Definition set_pfnmap (x : Z * Z) (l : loader) := Loader (l_boot l) (l_info l) x (l_stree l) (l_region l) (l_ktls l)
    (l_utls l) (l_fb l).
Definition set_stree (x : Z * Z * Z) (l : loader) := Loader (l_boot l) (l_info l) (l_pfnmap l) x (l_region l)
    (l_ktls l) (l_utls l) (l_fb l).
Definition set_region (x : Z * Z * Z) (l : loader) := Loader (l_boot l) (l_info l) (l_pfnmap l) (l_stree l) x
    (l_ktls l) (l_utls l) (l_fb l).
Definition set_ktls (x : tlsinfo) (l : loader) := Loader (l_boot l) (l_info l) (l_pfnmap l) (l_stree l) (l_region l)
    x (l_utls l) (l_fb l).
Definition set_utls (x : tlsinfo) (l : loader) := Loader (l_boot l) (l_info l) (l_pfnmap l) (l_stree l) (l_region l)
    (l_ktls l) x (l_fb l).
Definition set_fb (x : option fbdesc) (l : loader) := Loader (l_boot l) (l_info l) (l_pfnmap l) (l_stree l)
    (l_region l) (l_ktls l) (l_utls l) x.

Definition on_boot {A} (m : M boot A) : M loader A := zoom l_boot set_boot m.

Section load.
Context `{!BootArch, !BootMd}.

(** * Copying *)

Definition md_verify (va : Z) : M boot unit := if va <? md_floor then stop Fatal else mret tt.

Definition va_populate (va size : Z) (u w x : bool) : M boot unit := md_verify va;; populate va size u w x.

Fixpoint copy_loop (fuel : nat) (va : Z) (addr : list Z) (len : Z) : M boot unit :=
  if 0 <? len then
    match fuel with
    | O => stop Hang
    | S fuel' =>
        let clen := u64 (PAGE_CEILING va - va) in
        let clen := if u64 len <? clen then u64 len else clen in
        paddr ← getphys va;
        bs ← opt_or Fault (slice addr 0 clen);
        pstore_bytes paddr bs;;
        copy_loop fuel' (u64 (va + clen)) (drop (Z.to_nat clen) addr) (s64 (len - clen))
    end
  else mret tt.

(** [addr] is the memory that is read, from the address given on. *)
Definition va_copy (va : Z) (addr : list Z) (size : Z) (u w x : bool) : M boot unit :=
  md_verify va;;
  va_populate va size u w x;;
  copy_loop (page_turns size) va addr (s64 size).

Fixpoint memset_loop (fuel : nat) (va len : Z) : M boot unit :=
  if 0 <? len then
    match fuel with
    | O => stop Hang
    | S fuel' =>
        let clen := u64 (PAGE_CEILING va - va) in
        paddr ← getphys va;
        pstore_bytes paddr (replicate (Z.to_nat clen) 0);;
        memset_loop fuel' (u64 (va + clen)) (s64 (len - clen))
    end
  else mret tt.

Definition va_memset (va c size : Z) (u w x : bool) : M boot unit :=
  md_verify va;;
  va_populate va size u w x;;
  memset_loop (page_turns size) va (s64 size).

Definition va_physmap (va size : Z) (mt : memory_type) : M boot unit := md_verify va;; physmap va size 0 mt.
Definition va_linear (va size : Z) : M boot unit := md_verify va;; linear va size.
Definition va_topptalloc (va size : Z) : M boot unit := md_verify va;; topptalloc va size.
Definition va_ptalloc (va size : Z) : M boot unit := md_verify va;; ptalloc va size.

Definition fb_resize (size : Z) (fb : fbdesc) : fbdesc :=
  {| fb_type := fb_type fb; fb_bpp := fb_bpp fb; fb_pitch := fb_pitch fb; fb_width := fb_width fb;
    fb_height := fb_height fb; fb_addr := fb_addr fb; fb_size := size; fb_r_mask := fb_r_mask fb;
    fb_g_mask := fb_g_mask fb; fb_b_mask := fb_b_mask fb |}.

Definition va_framebuf (va size : Z) (mt : memory_type) : M loader unit :=
  on_boot (md_verify va);;
  fbptr ← gets l_fb;
  match fbptr with
  | None => mret tt
  | Some fb =>
      if fb_type fb =? FB_INVALID then mret tt
      else
        when (size <? fb_size fb) (modify (set_fb (Some (fb_resize size fb))));;
        on_boot (physmap va size (fb_addr fb) mt)
  end.

(** * What the payload is told *)

Definition va_info (va size : Z) : M loader unit :=
  on_boot (md_verify va);;
  on_boot (va_populate va size false false false);;
  modify (set_info (va, size)).

Definition APXH_BOOTINFO_MAGIC : Z := 0xAF10B007.

Definition fb_bytes (fb : fbdesc) : list Z :=
  le_bytes 2 (fb_type fb) ++ le_bytes 2 (fb_bpp fb) ++ le_bytes 4 (fb_pitch fb) ++ le_bytes 4 (fb_width fb) ++
    le_bytes 4 (fb_height fb) ++ le_bytes 8 (fb_addr fb) ++ le_bytes 8 (fb_size fb) ++ le_bytes 4 (fb_r_mask fb) ++
    le_bytes 4 (fb_g_mask fb) ++ le_bytes 4 (fb_b_mask fb).
Definition tls_bytes (t : tlsinfo) : list Z := le_bytes 8 (tls_va t) ++ le_bytes 8 (tls_initsize t) ++ le_bytes 8
    (tls_size t).

(** [struct apxh_bootinfo]; [unset] is what the rest of the framebuffer's description
    holds when there is none. *)
Definition bootinfo_bytes (uentry num_regions : Z) (fb : option fbdesc) (unset : list Z) (ktls utls : tlsinfo) : list Z :=
  let '(ptype, pptr) := default (0, 0) pltdesc in
  le_bytes 8 APXH_BOOTINFO_MAGIC ++ le_bytes 8 maxrampfn ++ le_bytes 8 maxpfn ++ le_bytes 8 num_regions ++ le_bytes 8
    uentry ++
  match fb with Some fb => fb_bytes fb | None => le_bytes 2 FB_INVALID ++ unset end ++
  le_bytes 8 ptype ++ le_bytes 8 pptr ++ tls_bytes ktls ++ tls_bytes utls.

Definition va_info_copy (unset : list Z) (uentry num_regions : Z) : M loader unit :=
  '(va, size) ← gets l_info;
  if va =? 0 then mret tt
  else
    fb ← gets l_fb;
    kt ← gets l_ktls;
    ut ← gets l_utls;
    on_boot (va_copy va (bootinfo_bytes uentry num_regions fb unset kt ut) (if size <? 148 then size else 148) false
      false false).

(** ** Regions *)

Definition APXH_REGION_SIZE : Z := 16.

Definition va_regions (va size : Z) : M loader unit :=
  on_boot (md_verify va);;
  let regions := u32 (Z.of_nat (length memregions)) in
  let maxregion := u32 (size `div` APXH_REGION_SIZE) in
  let maxregion := if regions <? maxregion then regions else maxregion in
  let size := u64 (regions * APXH_REGION_SIZE) in
  on_boot (va_populate va size false false false);;
  modify (set_region (va, size, maxregion)).

Definition region_bytes (reg : region) : list Z :=
  le_bytes 8 (Z.lor (Z.land (reg_type reg) 3) (u64 (Z.shiftl (reg_pfn reg) 2))) ++ le_bytes 8 (reg_len reg).

Definition va_regions_copy : M loader unit :=
  '(va, size, _) ← gets l_region;
  if va =? 0 then mret tt
  else
    for_each (seqZ 0 (u32 (size `div` APXH_REGION_SIZE))) (λ i,
      reg ← opt_or Fault (memregions !! Z.to_nat i);
      on_boot (va_copy (u64 (va + u64 (i * APXH_REGION_SIZE))) (region_bytes reg) APXH_REGION_SIZE false false false)).

(** ** The map of frames *)

Definition PFNMAP_ENTRY_SIZE : Z := 64.

Definition pload_byte (p : Z) : M boot Z := λ s, match frame_byte (b_fs s) p with Some b => Ret (b, s) | None =>
    Abort Fault end.

(** The frames of a region, up to [maxframe]; [Some tt] is a break. *)
Definition region_frames (reg : region) (maxframe : Z) (body : Z → M loader unit) : M loader unit :=
  for_find (seqZ 0 (reg_len reg)) (λ j,
    let frame := u32 (reg_pfn reg + j) in
    if maxframe <? frame then mret (Some tt) else body frame;; mret None);;
  mret tt.

Definition va_pfnmap (va size : Z) : M loader unit :=
  on_boot (md_verify va);;
  let maxframe := u32 (size `div` PFNMAP_ENTRY_SIZE) in
  let cut := maxpfn <? maxframe in
  let maxframe := if cut then u32 maxpfn else maxframe in
  let size := if cut then u32 (maxframe * PFNMAP_ENTRY_SIZE) else size in
  on_boot (va_populate va size false true false);;
  for_each memregions (λ reg,
    region_frames reg maxframe (λ frame,
      on_boot (
        ptr ← getphys (u64 (va + u32 (frame * PFNMAP_ENTRY_SIZE)));
        assertb (negb (ptr =? 0));;
        b ← pload_byte ptr;
        when (b <? reg_type reg) (pstore_byte ptr (u8 (reg_type reg))))));;
  modify (set_pfnmap (va, size)).

(** The frames that main.c may have given to the payload: [pa] from [minramaddr] on. *)
Definition boot_frames (maxframe : Z) (body : Z → M loader unit) : M loader unit :=
  base ← gets (minramaddr ∘ l_boot);
  for_find (seqZ 0 (BOOTMEM `div` PAGE_SIZE)) (λ k,
    let pa := base + k * PAGE_SIZE in
    let frame := u32 (Z.shiftr pa PAGE_SHIFT) in
    if maxframe <? frame then mret (Some tt)
    else
      taken ← on_boot (check_payload_page pa);
      when taken (body frame);;
      mret None);;
  mret tt.

Definition va_pfnmap_copy : M loader unit :=
  '(va, size) ← gets l_pfnmap;
  if va =? 0 then mret tt
  else
    boot_frames (u32 (size `div` PFNMAP_ENTRY_SIZE)) (λ frame,
      on_boot (
        ptr ← getphys (u64 (va + u32 (frame * PFNMAP_ENTRY_SIZE)));
        assertb (negb (ptr =? 0));;
        pstore_byte ptr BOOTINFO_REGION_BSY)).

(** ** The S-tree of free frames *)

Definition req_stree_va (l : loader) : Z := (l_stree l).1.1.

(** GET_WORD and SET_WORD go through the page tables. *)
Definition tree_get (i : Z) : M loader Z := base ← gets req_stree_va; on_boot (p ← getphys (u64 (base + 8 * i)); pload p).
Definition tree_set (i v : Z) : M loader unit := base ← gets req_stree_va; on_boot (p ← getphys (u64 (base + 8 * i));
    pstore p v).

(** The addresses that a translation reads, and the one it gives. *)
Definition walk_step (fs : gmap Z (list Z)) (table i : Z) : option (Z * Z) :=
  let p := table + 8 * i in
  if p `mod` 8 =? 0 then
    e ← frame_word fs (pa_frame p) (pa_word p);
    if (Z.land e 1 =? 0) || (pte_addr_bits e =? 0) then None else Some (p, pte_addr_bits e)
  else None.
Definition walk_reads (s : boot) (va : Z) : option (list Z * Z) :=
  '(p4, l3) ← walk_step (b_fs s) (root s) (L4OFF va);
  '(p3, l2) ← walk_step (b_fs s) l3 (L3OFF va);
  '(p2, l1) ← walk_step (b_fs s) l2 (L2OFF va);
  '(p1, pg) ← walk_step (b_fs s) l1 (L1OFF va);
  Some ([p4; p3; p2; p1], Z.lor pg (Z.land va (PAGE_SIZE - 1))).

(** The [n] words at a virtual address, when they are apart from each other and from the
    entries that translate their addresses. *)
Definition tree_walks (l : loader) (n : nat) : option (list (list Z * Z)) :=
  mapM (λ i, walk_reads (l_boot l) (u64 (req_stree_va l + 8 * i))) (seqZ 0 (Z.of_nat n)).
Definition walks_apart (ws : list (list Z * Z)) : Prop :=
  NoDup ws.*2 ∧ Forall (λ p, p `mod` 8 = 0 ∧ p ∉ mjoin ws.*1) ws.*2.
#[global] Instance walks_apart_dec ws : Decision (walks_apart ws).
Proof. apply _. Defined.

Definition tree_words (n : nat) (l : loader) : list Z :=
  match tree_walks l n with
  | Some ws => if decide (walks_apart ws) then default []
    (mapM (λ p, frame_word (b_fs (l_boot l)) (pa_frame p) (pa_word p)) ws.*2) else []
  | None => []
  end.

(** Only words of the tree differ. *)
Definition tree_frame (n : nat) (l l' : loader) : Prop :=
  ∃ fs', l' = set_boot (set_fs fs' (l_boot l)) l ∧ tree_walks l' n = tree_walks l n ∧
    (∀ g, frame_ok (b_fs (l_boot l)) g → frame_ok fs' g) ∧
    ∀ f i, (∀ ws p, tree_walks l n = Some ws → p ∈ ws.*2 → ¬ (pa_frame p = f ∧ Z.to_nat (pa_word p) = Z.to_nat i)) →
      frame_word fs' f i = frame_word (b_fs (l_boot l)) f i.

Definition tree_mem (n : nat) : WordMem loader := {| wm_words := tree_words n; wm_frame := tree_frame n;
    get_word := tree_get; set_word := tree_set |}.

Definition APXH_STREE_MAGIC : Z := 0xAF1057EE.
Definition APXH_STREE_VERSION : Z := 0.
Definition APXH_STREE_HDR : Z := 16.

Definition stree_hdr_bytes (order : Z) : list Z := le_bytes 8 APXH_STREE_MAGIC ++ le_bytes 1 APXH_STREE_VERSION ++
    le_bytes 1 order ++ le_bytes 2 APXH_STREE_HDR ++ le_bytes 4 (8 * STREE_SIZE order).

(** A tree that does not fit is only reported. *)
Definition va_stree (va size : Z) : M loader unit :=
  let maxframe := u32 maxrampfn in
  on_boot (md_verify va);;
  order ← opt_or Undef (stree_order maxframe);
  let tm := tree_mem (Z.to_nat (STREE_SIZE order)) in
  let size := u64 (8 * STREE_SIZE order + APXH_STREE_HDR) in
  on_boot (va_populate va size false true false);;
  on_boot (va_copy va (stree_hdr_bytes order) APXH_STREE_HDR false true false);;
  modify (λ l, set_stree (u64 (va + APXH_STREE_HDR), (l_stree l).1.2, (l_stree l).2) l);;
  for_each memregions (λ reg, when (reg_type reg =? BOOTINFO_REGION_RAM) (region_frames reg maxframe (stree_setbit order)));;
  for_each memregions (λ reg, when (negb (reg_type reg =? BOOTINFO_REGION_RAM))
    (region_frames reg maxframe (stree_clrbit order)));;
  modify (λ l, set_stree (req_stree_va l, order, size) l).

Definition va_stree_copy : M loader unit :=
  '(va, order, _) ← gets l_stree;
  if va =? 0 then mret tt
  else
    let tm := tree_mem (Z.to_nat (STREE_SIZE order)) in
    boot_frames maxrampfn (stree_clrbit order).

Definition va_ktls (va initsize size : Z) : M loader unit := modify (set_ktls {| tls_va := va;
    tls_initsize := initsize; tls_size := size |}).
Definition va_utls (va initsize size : Z) : M loader unit := modify (set_utls {| tls_va := va;
    tls_initsize := initsize; tls_size := size |}).

(** * ELF *)

Definition PHT_LOAD : Z := 1.
Definition PHT_TLS : Z := 7.
Definition PHT_APXH_INFO : Z := 0xAF100000.
Definition PHT_APXH_EMPTY : Z := 0xAF100001.
Definition PHT_APXH_PHYSMAP : Z := 0xAF100002.
Definition PHT_APXH_PFNMAP : Z := 0xAF100003.
Definition PHT_APXH_STREE : Z := 0xAF100004.
Definition PHT_APXH_PTALLOC : Z := 0xAF100005.
Definition PHT_APXH_FRAMEBUF : Z := 0xAF100006.
Definition PHT_APXH_REGIONS : Z := 0xAF100007.
Definition PHT_APXH_TOPPTALLOC : Z := 0xAF100008.
Definition PHT_APXH_LINEAR : Z := 0xAF10FFFF.

Definition PHF (bit flags : Z) : bool := negb (Z.land flags bit =? 0).
Notation PHF_X := (PHF 1).
Notation PHF_W := (PHF 2).

Record elf64ph := { ph_type : Z; ph_flags : Z; ph_off : Z; ph_va : Z; ph_fsize : Z; ph_msize : Z }.

Definition ELFOFF (img : list Z) (off : Z) : list Z := drop (Z.to_nat off) img.

(** A segment with the contents of a part of the file, then zeros. *)
Definition ph_load (img : list Z) (ph : elf64ph) (u : bool) : M boot unit :=
  let w := PHF_W (ph_flags ph) in
  let x := PHF_X (ph_flags ph) in
  if u64 (ph_va ph + ph_msize ph) <? ph_va ph then stop Fatal
  else
    when (negb (ph_fsize ph =? 0)) (va_copy (ph_va ph) (ELFOFF img (ph_off ph)) (ph_fsize ph) u w x);;
    when (0 <? u64 (ph_msize ph - ph_fsize ph)) (va_memset (u64 (ph_va ph + ph_fsize ph)) 0
      (u64 (ph_msize ph - ph_fsize ph)) u w x).

(** The contents of thread-local storage; for the user's too they are copied with [u]
    cleared. *)
Definition ph_tls (img : list Z) (ph : elf64ph) (note : Z → Z → Z → M loader unit) : M loader unit :=
  when (negb (ph_msize ph =? 0)) (
    (if u64 (ph_va ph + ph_msize ph) <? ph_va ph then stop Fatal else mret tt);;
    when (negb (ph_fsize ph =? 0))
      (on_boot (va_copy (ph_va ph) (ELFOFF img (ph_off ph)) (ph_fsize ph) false (PHF_W (ph_flags ph))
      (PHF_X (ph_flags ph))));;
    note (ph_va ph) (ph_fsize ph) (ph_msize ph)).

Definition ph_uload (img : list Z) (ph : elf64ph) : M loader unit :=
  let t := ph_type ph in
  if t =? PHT_LOAD then on_boot (ph_load img ph true)
  else if t =? PHT_TLS then ph_tls img ph va_utls
  else mret tt.

Definition ph_kload (img : list Z) (ph : elf64ph) : M loader unit :=
  let t := ph_type ph in
  let va := ph_va ph in
  let msize := ph_msize ph in
  if t =? PHT_LOAD then on_boot (ph_load img ph false)
  else if t =? PHT_TLS then ph_tls img ph va_ktls
  else if t =? PHT_APXH_INFO then va_info va msize
  else if t =? PHT_APXH_PHYSMAP then on_boot (va_physmap va msize MEMTYPE_WB)
  else if t =? PHT_APXH_EMPTY then mret tt
  else if t =? PHT_APXH_PTALLOC then on_boot (va_ptalloc va msize)
  else if t =? PHT_APXH_PFNMAP then va_pfnmap va msize
  else if t =? PHT_APXH_STREE then va_stree va msize
  else if t =? PHT_APXH_LINEAR then on_boot (va_linear va msize)
  else if t =? PHT_APXH_FRAMEBUF then va_framebuf va msize MEMTYPE_WC
  else if t =? PHT_APXH_REGIONS then va_regions va msize
  else if t =? PHT_APXH_TOPPTALLOC then on_boot (va_topptalloc va msize)
  else mret tt.

Definition elfid : list Z := [0x7f; 69; 76; 70].
Definition ET_EXEC : Z := 2.
Definition EV_CURRENT : Z := 1.
Definition PH64_SIZE : Z := 56.

Definition read_ph64 (img : list Z) (off : Z) : option elf64ph :=
  type ← le_at 4 img off;
  flags ← le_at 4 img (off + 4);
  o ← le_at 8 img (off + 8);
  va ← le_at 8 img (off + 16);
  fsize ← le_at 8 img (off + 32);
  msize ← le_at 8 img (off + 40);
  Some {| ph_type := type; ph_flags := flags; ph_off := o; ph_va := va; ph_fsize := fsize; ph_msize := msize |}.

Definition load_elf64 (img : list Z) (u : bool) : M loader Z :=
  id ← opt_or Fault (slice img 0 4);
  if negb (bool_decide (id = elfid)) then mret (u64 (-1))
  else
    type ← opt_or Fault (le_at 2 img 16);
    ver ← opt_or Fault (le_at 4 img 20);
    if negb (type =? ET_EXEC) || negb (ver =? EV_CURRENT) then mret (u64 (-1))
    else
      phoff ← opt_or Fault (le_at 8 img 32);
      phs ← opt_or Fault (le_at 2 img 56);
      for_each (seqZ 0 phs) (λ i,
        ph ← opt_or Fault (read_ph64 img (phoff + PH64_SIZE * i));
        if u then ph_uload img ph else ph_kload img ph);;
      opt_or Fault (le_at 8 img 24).

Inductive arch_t := ARCH_INVALID | ARCH_UNSUPPORTED | ARCH_386 | ARCH_AMD64 | ARCH_RISCV64.

Definition get_elf_arch (img : list Z) : option arch_t :=
  id ← slice img 0 4;
  if negb (bool_decide (id = elfid)) then Some ARCH_INVALID
  else
    mach ← le_at 2 img 18;
    Some (if mach =? 3 then ARCH_386 else if mach =? 62 then ARCH_AMD64 else if mach =? 0xf3 then ARCH_RISCV64 else
      ARCH_UNSUPPORTED).

(** What main does with the two payloads before it enters the kernel. *)
Definition hand_over (unset : list Z) (uentry : Z) : M loader unit :=
  modify (λ l, set_boot (Boot (b_fs (l_boot l)) (brk (l_boot l)) (root (l_boot l)) (boot_pagemap (l_boot l)) true
    (minramaddr (l_boot l))) l);;
  num ← gets (λ l, (l_region l).2);
  va_info_copy unset uentry num;;
  va_pfnmap_copy;;
  va_stree_copy;;
  va_regions_copy.

Definition load_payloads (kernel : list Z) (user : option (list Z)) (unset : list Z) : M loader Z :=
  on_boot pt_init;;
  kentry ← load_elf64 kernel false;
  uentry ← match user with Some img => load_elf64 img true | None => mret 0 end;
  hand_over unset uentry;;
  mret kentry.

End load.
