(* ===== verification/ApxhCopy.v ===== *)
(** Loading a segment: the bytes of the file end up at their addresses in the payload's
    memory, and the rest of the segment is zero. *)

From S2P Require Import Prelude Words Locks Machine Hal PageTable Stree Apxh ApxhPt ApxhPages ApxhLoad.

Section copy.
Context `{!BootArch, !BootCpu, !BootArchOk, !BootMd}.
Context (D : Z → Prop) (HD : ∀ i, D i → index_ok i) (n0 lim : Z).
Notation boot_inv := (boot_inv D n0 lim).

(** * Translating *)

Lemma must_have_run X pages s q i g f : boot_inv X pages s → node s q = Some g → path_ok D (q ++ [i]) →
    table (top s) (b_fs s) (q ++ [i]) = Some f → must_have (4096 * g + 8 * i) s = Ret (4096 * f, s).
Proof.
  intros Hi Hg Hp Ht. destruct (node_ok D n0 lim X pages s q i g Hi Hg Hp) as (Hgf & _).
  destruct (bi_low _ _ _ _ _ _ Hi _ _ Hp Ht) as [Hf _]. pose proof (link_slot D q i Hp) as Hidx.
  unfold must_have. rewrite (bind_Ret _ _ _ _ _ (pte_getaddr_run g i s Hgf Hidx)).
  rewrite (node_snoc s q i g Hg) in Ht. set (e := entry (b_fs s) g i) in *. unfold sub_table in Ht.
  destruct (pte_present e) eqn:Hpres; [|done]. injection Ht as Ht.
  cbn in Hpres. apply andb_prop in Hpres as [Hb _]. apply negb_true_iff in Hb. rewrite Hb.
  destruct (addr_page e) as [k Hk].
  assert (pte_addr_bits e = 4096 * f) as -> by (cbn in Ht; rewrite Hk, Z.div_mul in Ht by lia; lia).
  rewrite bind_assert; [done|]. apply negb_true_iff, Z.eqb_neq. unfold pfn_ok in Hf. lia.
Qed.

Lemma path_tables X pages s va f : boot_inv X pages s → table (top s) (b_fs s) [L4OFF va; L3OFF va; L2OFF va] = Some f →
  ∃ f4 f3, table (top s) (b_fs s) [L4OFF va] = Some f4 ∧ table (top s) (b_fs s) [L4OFF va; L3OFF va] = Some f3.
Proof.
  intros Hi Ht. change [L4OFF va; L3OFF va; L2OFF va] with ([L4OFF va; L3OFF va] ++ [L2OFF va]) in Ht.
  rewrite table_snoc in Ht by done. destruct (table _ _ [L4OFF va; L3OFF va]) as [f3|] eqn:E3; [|done].
  change [L4OFF va; L3OFF va] with ([L4OFF va] ++ [L3OFF va]) in E3. rewrite table_snoc in E3 by done.
  destruct (table _ _ [L4OFF va]) as [f4|] eqn:E4; [|done]. by exists f4, f3.
Qed.

Lemma page_table_there X pages s va pg : boot_inv X pages s → pages !! vpn va = Some pg → D (L4OFF va) ∧
    ∃ f, table (top s) (b_fs s) [L4OFF va; L3OFF va; L2OFF va] = Some f.
Proof.
  intros Hi Hv. destruct (bi_leaf _ _ _ _ _ _ Hi va pg Hv) as [Hd Hl]. split; [done|]. unfold leaf in Hl.
  destruct (table _ _ _) as [f|]; [by eexists|].
  destruct (bi_page _ _ _ _ _ _ Hi _ _ Hv) as (Hok & _).
  destruct (page_pte (pg_frame pg) (pg_u pg) (pg_w pg) (pg_x pg) Hok) as (Hp & _). unfold page_pte_of in Hl.
  rewrite <- Hl in Hp. done.
Qed.

Lemma page_offset f va : Z.lor (4096 * f) (Z.land va (PAGE_SIZE - 1)) = 4096 * f + va `mod` 4096.
Proof.
  change (PAGE_SIZE - 1) with (Z.ones 12). rewrite Z.land_ones by lia. change (2 ^ 12) with 4096.
  replace (4096 * f) with (Z.shiftl f 12) by (rewrite Z.shiftl_mul_pow2 by lia; lia).
  rewrite lor_shiftl_add; [by rewrite Z.shiftl_mul_pow2 by lia|lia|by apply Z.mod_pos_bound].
Qed.

Lemma getphys_run X pages s va pg : boot_inv X pages s → pages !! vpn va = Some pg →
    getphys va s = Ret (4096 * pg_frame pg + va `mod` 4096, s).
Proof.
  intros Hi Hv. destruct (page_table_there X pages s va pg Hi Hv) as [Hd [f Ht]].
  destruct (path_tables X pages s va f Hi Ht) as (f4 & f3 & H4 & H3). destruct (off_range va) as (I4 & I3 & I2 & I1).
  destruct (root_node D n0 lim X pages s Hi) as [Hr Hn]. unfold getphys. rewrite bind_gets, Hr.
  rewrite (bind_Ret _ _ _ _ _ (must_have_run X pages s [] (L4OFF va) _ f4 Hi Hn (path_ok_one D _ Hd I4) H4)).
  rewrite (bind_Ret _ _ _ _ _ (must_have_run X pages s [L4OFF va] (L3OFF va) f4 f3 Hi H4
    ltac:(apply (path_ok_snoc D [L4OFF va]); [by apply path_ok_one|done|cbn; lia]) H3)).
  rewrite (bind_Ret _ _ _ _ _ (must_have_run X pages s [L4OFF va;
    L3OFF va] (L2OFF va) f3 f Hi H3 (va_path D va Hd) Ht)).
  destruct (page_addr D n0 lim X pages s va f pg Hi Hd Ht Hv) as (_ & Ha & Hnz & _).
  unfold must_have. rewrite bind_assoc, (bind_Ret _ _ _ _ _ Ha), bind_assoc, bind_assert by (apply negb_true_iff;
    by apply Z.eqb_neq). rewrite (bind_Ret _ _ _ _ _ eq_refl). by rewrite page_offset.
Qed.

(** * Bytes *)

(** Bytes [l] at address [va], and elsewhere those of [m]. *)
Definition overlay (va : Z) (l : list Z) (m : Z → option Z) (a : Z) : option Z :=
  let k := (a - va) `mod` 2 ^ 48 in if k <? Z.of_nat (length l) then l !! Z.to_nat k else m a.

Lemma overlay_app va l1 l2 m a : Z.of_nat (length l1 + length l2) ≤ 2 ^ 48 →
    overlay (va + Z.of_nat (length l1)) l2 (overlay va l1 m) a = overlay va (l1 ++ l2) m a.
Proof.
  intros Hl. unfold overlay. rewrite length_app. set (n1 := Z.of_nat (length l1)).
  replace (a - (va + n1)) with ((a - va) - n1) by lia. set (x := a - va).
  assert (0 ≤ x `mod` 2 ^ 48 < 2 ^ 48) as Hx by (by apply Z.mod_pos_bound). rewrite Nat2Z.inj_add in *. fold n1.
  rewrite <- Zminus_mod_idemp_l. set (k := x `mod` 2 ^ 48) in *. clearbody k. destruct (Z.ltb_spec k n1) as [H1'|H1'].
  - assert ((k - n1) `mod` 2 ^ 48 = k - n1 + 2 ^ 48) as -> by (symmetry; apply Z.mod_unique with (-1); lia).
    rewrite (proj2 (Z.ltb_ge _ _)) by lia. rewrite (proj2 (Z.ltb_lt _ _)) by lia. by rewrite lookup_app_l by lia.
  - rewrite Z.mod_small by lia.
    destruct (Z.ltb_spec (k - n1) (Z.of_nat (length l2)));
      [rewrite (proj2 (Z.ltb_lt _ _)) by lia|by rewrite (proj2 (Z.ltb_ge _ _)) by lia].
    rewrite lookup_app_r by lia. f_equal. lia.
Qed.

Lemma overlay_nil va m a : overlay va [] m a = m a.
Proof. unfold overlay. cbn [length]. rewrite (proj2 (Z.ltb_ge _ _)); [done|]. by apply Z.mod_pos_bound. Qed.

(** Where an address is, relative to another. *)
Lemma same_page_off va a (n : Z) : va `mod` 4096 + n ≤ 4096 → let k := (a - va) `mod` 2 ^ 48 in
  (k < n → vpn a = vpn va ∧ a `mod` 4096 = va `mod` 4096 + k) ∧
    (vpn a = vpn va → va `mod` 4096 ≤ a `mod` 4096 < va `mod` 4096 + n → k = a `mod` 4096 - va `mod` 4096).
Proof.
  intros Hn k. unfold vpn. assert (a = va + k + 2 ^ 48 * ((a - va) `div` 2 ^ 48)) as Ha by (unfold k;
    pose proof (Z.div_mod (a - va) (2 ^ 48) ltac:(lia)); lia). set (q := (a - va) `div` 2 ^ 48) in *.
  assert (0 ≤ k < 2 ^ 48) as Hk by (by apply Z.mod_pos_bound). clearbody k q. subst a. split.
  - intros Hkn. replace (va + k + 2 ^ 48 * q) with (va + k + (2 ^ 36 * q) * 4096) by lia.
    rewrite Z.div_add, Z.mod_add by lia.
    replace (va `div` 4096 + 2 ^ 36 * q) with (va `div` 4096 + 2 ^ 36 * q) by lia.
    assert ((va + k) `div` 4096 = va `div` 4096 ∧ (va + k) `mod` 4096 = va `mod` 4096 + k) as [-> ->]
      by (Z.div_mod_to_equations; lia). by rewrite (Z.mul_comm (2 ^ 36)), Z.mod_add by lia.
  - replace (va + k + 2 ^ 48 * q) with (va + k + (2 ^ 36 * q) * 4096) by lia. rewrite Z.div_add, Z.mod_add by lia.
    rewrite (Z.mul_comm (2 ^ 36)), Z.mod_add by lia. intros E Hr. Z.div_mod_to_equations. lia.
Qed.

Lemma store_in_page X pages s va pg l : boot_inv X pages s → pages !! vpn va = Some pg →
    va `mod` 4096 + Z.of_nat (length l) ≤ 4096 → Forall (λ v, 0 ≤ v < 256) l →
  ∃ fs', pstore_bytes (4096 * pg_frame pg + va `mod` 4096) l s = Ret (tt, set_fs fs' s) ∧
    boot_inv X pages (set_fs fs' s) ∧ ∀ a, vbyte pages (set_fs fs' s) a = overlay va l (vbyte pages s) a.
Proof.
  intros Hi Hv Hl Hb. destruct (bi_page _ _ _ _ _ _ Hi _ _ Hv) as (_ & _ & _ & Hf).
  destruct (pstore_bytes_run (pg_frame pg) (va `mod` 4096) l s Hf) as (fs' & Hr & Ho & Hws & Hby);
    [by apply Z.mod_pos_bound|done|done|]. exists fs'. split; [done|]. split.
  - apply data_inv; [done|..].
    + destruct Ho as [Ho1 Ho2]. split; [done|]. intros g i Hg. apply Ho2. intros ->. apply Hg. eauto.
    + intros v pg' i w Hv'. destruct (decide (pg_frame pg' = pg_frame pg)) as [E|E];
        [rewrite E; apply Hws; intros j e; by apply (bi_words _ _ _ _ _ _ Hi (vpn va))|]. rewrite (proj2 Ho) by done.
      by apply (bi_words _ _ _ _ _ _ Hi v).
  - intros a. destruct (same_page_off va a (Z.of_nat (length l)) Hl) as [Hin Hout]. unfold overlay.
    set (k := (a - va) `mod` 2 ^ 48) in *. assert (0 ≤ k) by (by apply Z.mod_pos_bound).
    assert (0 ≤ a `mod` 4096 < 4096) by (by apply Z.mod_pos_bound).
    destruct (Z.ltb_spec k (Z.of_nat (length l))) as [Hk|Hk].
    + destruct (Hin Hk) as [Ev Em]. unfold vbyte. rewrite Ev, Hv. cbn. rewrite Hby by done.
      rewrite decide_True by lia. do 2 f_equal. lia.
    + unfold vbyte. destruct (decide (vpn a = vpn va)) as [Ev|Ev].
      * rewrite Ev, Hv. cbn. rewrite Hby by done. rewrite decide_False; [done|]. intros Hr'. specialize (Hout Ev Hr'). lia.
      * destruct (pages !! vpn a) as [pg'|] eqn:Ea; [|done]. cbn. unfold frame_byte.
        destruct (byte_addr (pg_frame pg') (a `mod` 4096)) as (-> & _); [done|]. rewrite (proj2 Ho); [done|].
        intros E. apply Ev. by apply (bi_inj _ _ _ _ _ _ Hi _ _ pg' pg).
Qed.

Lemma s64_small x : - 2 ^ 63 ≤ x < 2 ^ 63 → s64 x = x.
Proof.
  intros Hx. unfold s64, u64. destruct (Z.lt_ge_cases x 0).
  - assert (x `mod` 2 ^ 64 = x + 2 ^ 64) as -> by (symmetry; apply Z.mod_unique with (-1); lia).
    rewrite (proj2 (Z.ltb_ge _ _)) by lia. lia.
  - rewrite Z.mod_small by lia. by rewrite (proj2 (Z.ltb_lt _ _)) by lia.
Qed.

(** A turn of a loop over the pages of a range. *)
Lemma page_turn va len clen : 0 ≤ va → 0 < len → va + len + 4096 ≤ 2 ^ 64 →
    let d := 4096 * (va `div` 4096) + 4096 - va in (clen = d ∨ clen = len ∧ len ≤ d) →
  u64 (PAGE_CEILING va - va) = d ∧ u64 (va + clen) = va + clen ∧ 0 < clen ≤ d ∧ va `mod` 4096 + d = 4096 ∧
    npages va len = 1 + npages (va + clen) (len - clen) ∧ pages_of va len (vpn va) ∧
    (∀ v, pages_of (va + clen) (len - clen) v → pages_of va len v).
Proof.
  intros Hva Hl Hend d Hc. destruct (pages_of_step va len Hl) as (Ep & En & Hd & _). fold d in Ep, En, Hd.
  assert (va `mod` 4096 + d = 4096) as Hm by (unfold d; Z.div_mod_to_equations; lia).
  rewrite page_ceiling_eq by lia. fold d. split; [apply Z.mod_small; lia|]. split; [apply Z.mod_small; lia|].
  split; [lia|]. split; [done|]. destruct Hc as [->|[-> Hle]].
  - split; [done|]. split; [apply Ep; by left|]. intros v Hv. apply Ep. by right.
  - rewrite Z.sub_diag. split; [rewrite En; f_equal; unfold npages; rewrite (proj2 (Z.ltb_ge 0 (len - d))) by lia;
      done|]. split; [apply Ep; by left|]. intros v (k & _ & _ & Hk & _). lia.
Qed.

Lemma take_split {A} (l : list A) (n m : Z) : 0 ≤ n → 0 ≤ m →
    take (Z.to_nat n) l ++ take (Z.to_nat m) (drop (Z.to_nat n) l) = take (Z.to_nat (n + m)) l.
Proof. intros Hn Hm. rewrite Z2Nat.inj_add by lia. apply take_take_drop. Qed.

Lemma copy_loop_run X pages fuel : ∀ va addr len s, boot_inv X pages s → 0 ≤ va → 0 ≤ len ≤ 2 ^ 48 →
    va + len + 4096 ≤ 2 ^ 64 → npages va len ≤ Z.of_nat fuel → len ≤ Z.of_nat (length addr) →
    Forall (λ v, 0 ≤ v < 256) addr →
  (∀ v, pages_of va len v → is_Some (pages !! v)) →
  ∃ fs', copy_loop fuel va addr len s = Ret (tt, set_fs fs' s) ∧ boot_inv X pages (set_fs fs' s) ∧
    ∀ a, vbyte pages (set_fs fs' s) a = overlay va (take (Z.to_nat len) addr) (vbyte pages s) a.
Proof.
  induction fuel as [|fuel IH]; intros va addr len s Hi Hva Hlen Hend Hf Hla Hb HP; cbn [copy_loop];
    destruct (Z.ltb_spec 0 len) as [Hl|Hl].
  - destruct (page_turn va len _ Hva Hl Hend (or_introl eq_refl)) as (_ & _ & _ & _ & En & _). unfold npages in Hf.
    rewrite (proj2 (Z.ltb_lt 0 len)) in Hf by done. Z.div_mod_to_equations. lia.
  - exists (b_fs s). assert (len = 0) as -> by lia. destruct s. split; [done|]. split; [done|]. intros a.
    by rewrite overlay_nil.
  - set (d := 4096 * (va `div` 4096) + 4096 - va). set (clen := if u64 len <? d then u64 len else d).
    assert (u64 len = len) as Hu by (apply Z.mod_small; lia).
    assert (clen = d ∨ clen = len ∧ len ≤ d) as Hc by (unfold clen; rewrite Hu; destruct (Z.ltb_spec len d);
      [right; lia|by left]). destruct (page_turn va len clen Hva Hl Hend Hc)
      as (Ed & Eu & Hcd & Hm & En & Hp0 & HPs). fold d in Ed, Hcd, Hm. cbn zeta. rewrite Ed. fold clen. rewrite Eu.
    destruct (HP _ Hp0) as [pg Hpg]. rewrite (bind_Ret _ _ _ _ _ (getphys_run X pages s va pg Hi Hpg)).
    assert (clen ≤ len) as Hcl by (unfold clen; rewrite Hu; destruct (Z.ltb_spec len d); lia).
    unfold slice. rewrite (proj2 (Z.leb_le _ _)) by lia. rewrite bind_opt. change (drop (Z.to_nat 0) addr) with addr.
    set (bs := take (Z.to_nat clen) addr).
    assert (Z.of_nat (length bs) = clen) as Hbs by (unfold bs; rewrite length_take; lia).
    destruct (store_in_page X pages s va pg bs Hi Hpg) as (fs1 & Hr1 & Hi1 & Hv1); [lia|by apply Forall_take|].
    rewrite (bind_Ret _ _ _ _ _ Hr1), s64_small by lia.
    destruct (IH (va + clen) (drop (Z.to_nat clen) addr) (len - clen) (set_fs fs1 s) Hi1) as (fs2 & Hr2 & Hi2 & Hv2);
      [lia|lia|lia|lia|rewrite length_drop; lia|by apply Forall_drop|auto|]. rewrite Hr2. exists fs2. split; [done|].
    split; [done|].
    intros a. replace (Z.to_nat len) with (Z.to_nat (clen + (len - clen))) by (f_equal; lia).
    rewrite <- take_split by lia. fold bs. rewrite <- overlay_app by (rewrite length_take, length_drop; lia).
    rewrite Hbs. rewrite Hv2. unfold overlay at 1 3. by rewrite Hv1.
  - exists (b_fs s). assert (len = 0) as -> by lia. destruct s. split; [done|]. split; [done|]. intros a.
    by rewrite overlay_nil.
Qed.

(** va_memset clears up to the end of the last page. *)
Definition cleared (va len : Z) : Z := if 0 <? len then 4096 * ((va + len + 4095) `div` 4096) - va else 0.

Lemma cleared_step va len : 0 < len →
    let d := 4096 * (va `div` 4096) + 4096 - va in cleared va len = d + cleared (va + d) (len - d) ∧
    0 ≤ cleared (va + d) (len - d).
Proof.
  intros Hl d. unfold cleared. rewrite (proj2 (Z.ltb_lt 0 len)) by done.
  replace (va + d + (len - d) + 4095) with (va + len + 4095) by lia.
  destruct (Z.ltb_spec 0 (len - d)); unfold d in *; Z.div_mod_to_equations; lia.
Qed.

Lemma cleared_bound va len : 0 ≤ len → len ≤ cleared va len ≤ len + 4096.
Proof. intros Hl. unfold cleared. destruct (Z.ltb_spec 0 len); [|lia]. Z.div_mod_to_equations. lia. Qed.

Lemma memset_loop_run X pages fuel : ∀ va len s, boot_inv X pages s → 0 ≤ va → -4096 ≤ len ≤ 2 ^ 48 →
    cleared va len ≤ 2 ^ 48 → va + len + 4096 ≤ 2 ^ 64 → npages va len ≤ Z.of_nat fuel →
    (∀ v, pages_of va len v → is_Some (pages !! v)) →
  ∃ fs', memset_loop fuel va len s = Ret (tt, set_fs fs' s) ∧ boot_inv X pages (set_fs fs' s) ∧
    ∀ a, vbyte pages (set_fs fs' s) a = overlay va (replicate (Z.to_nat (cleared va len)) 0) (vbyte pages s) a.
Proof.
  induction fuel as [|fuel IH]; intros va len s Hi Hva Hlen Hcb Hend Hf HP; cbn [memset_loop];
    destruct (Z.ltb_spec 0 len) as [Hl|Hl].
  - unfold npages in Hf. rewrite (proj2 (Z.ltb_lt 0 len)) in Hf by done. Z.div_mod_to_equations. lia.
  - exists (b_fs s). unfold cleared. rewrite (proj2 (Z.ltb_ge 0 len)) by done. destruct s. split; [done|].
    split; [done|]. intros a. by rewrite overlay_nil.
  - set (d := 4096 * (va `div` 4096) + 4096 - va).
    destruct (page_turn va len d Hva Hl Hend (or_introl eq_refl)) as (Ed & Eu & Hcd & Hm & En & Hp0 & HPs).
    fold d in Ed, Hcd, Hm. cbn zeta. rewrite Ed, Eu. destruct (cleared_step va len Hl) as [Ec Hc0].
    fold d in Ec, Hc0. assert (0 ≤ va `mod` 4096) by (by apply Z.mod_pos_bound).
    destruct (HP _ Hp0) as [pg Hpg]. rewrite (bind_Ret _ _ _ _ _ (getphys_run X pages s va pg Hi Hpg)).
    destruct (store_in_page X pages s va pg (replicate (Z.to_nat d) 0) Hi Hpg) as (fs1 & Hr1 & Hi1 & Hv1);
      [rewrite length_replicate; lia|apply Forall_replicate; lia|].
    rewrite (bind_Ret _ _ _ _ _ Hr1), s64_small by lia.
    destruct (IH (va + d) (len - d) (set_fs fs1 s) Hi1) as (fs2 & Hr2 & Hi2 & Hv2); [lia|lia|lia|lia|lia|auto|].
    rewrite Hr2. exists fs2. split; [done|]. split; [done|].
    intros a. rewrite Ec, Z2Nat.inj_add, replicate_add by lia.
    rewrite <- overlay_app by (rewrite !length_replicate; lia). rewrite length_replicate, Z2Nat.id by lia.
    rewrite Hv2. unfold overlay at 1 3. by rewrite Hv1.
  - exists (b_fs s). unfold cleared. rewrite (proj2 (Z.ltb_ge 0 len)) by done. destruct s. split; [done|].
    split; [done|]. intros a. by rewrite overlay_nil.
Qed.

(** * va_copy and va_memset *)

Record fits (X : Z → Prop) (u : bool) (pages : gmap Z page) (s : boot) (va size : Z) : Prop := {
  ft_low : 0 ≤ va ∧ md_floor ≤ va;
  ft_size : 0 ≤ size ≤ 2 ^ 47 ∧ va + size + 4096 ≤ 2 ^ 64;
  ft_room : room lim (4 * npages va size) s;
  ft_free v : pages_of va size v → X v;
  ft_user v pg : pages_of va size v → pages !! v = Some pg → pg_u pg = u;
}.

(** Bytes [l] are at [va], and bytes that are not among the [n] from [va] on are the same. *)
Record puts (va : Z) (l : list Z) (n : Z) (pages : gmap Z page) (s : boot) (pages' : gmap Z page) (s' : boot) : Prop := {
  pu_new k : 0 ≤ k < Z.of_nat (length l) → vbyte pages' s' (va + k) = l !! Z.to_nat k;
  pu_old a b : vbyte pages s a = Some b → n ≤ (a - va) `mod` 2 ^ 48 → vbyte pages' s' a = Some b;
}.

Lemma turns_enough va size : 0 ≤ va → 0 ≤ size → npages va size ≤ Z.of_nat (page_turns size).
Proof. intros Hva Hs. unfold npages, page_turns. change PAGE_SIZE with 4096.
  destruct (Z.ltb_spec 0 size); Z.div_mod_to_equations; lia. Qed.

Lemma verify_run va s : md_floor ≤ va → md_verify va s = Ret (tt, s).
Proof. intros Hf. unfold md_verify. by rewrite (proj2 (Z.ltb_ge _ _)). Qed.

Lemma va_populate_run X pages s va size u w x : boot_inv X pages s → fits X u pages s va size →
  ∃ pages' s', va_populate va size u w x s = Ret (tt, s') ∧ boot_inv X pages' s' ∧
    uses lim (4 * npages va size) s s' ∧ populated (pages_of va size) u w x pages s pages' s'.
Proof.
  intros Hi [[Hva Hfl] [Hsz Hend] Hr HX Hu]. unfold va_populate. rewrite (bind_Ret _ _ _ _ _ (verify_run va s Hfl)).
  unfold populate. rewrite s64_small by lia.
  destruct (populate_loop_run D HD n0 lim X u w x (page_turns size) va size pages s Hi)
    as (pages' & s' & Hrun & Hi' & _ & Hus & Hp); [done|done|by apply turns_enough; lia|done|intros v Hv; split;
    [auto|intros pg; by apply Hu]|]. by exists pages', s'.
Qed.

Lemma vbyte_some pages s a b : vbyte pages s a = Some b → is_Some (pages !! vpn a).
Proof. unfold vbyte. destruct (pages !! vpn a); [by eexists|done]. Qed.

Lemma overlay_puts va l n u w x pages s pages1 s1 s2 (m : nat) : populated (pages_of va n) u w x pages s pages1 s1 →
    Z.of_nat (length l) ≤ 2 ^ 48 → (∀ a, vbyte pages1 s2 a = overlay va l (vbyte pages1 s1) a) →
  puts va (take m l) (Z.of_nat (length l)) pages s pages1 s2.
Proof.
  intros Hp Hl Hv. assert (∀ k, 0 ≤ k < Z.of_nat (length l) → vbyte pages1 s2 (va + k) = l !! Z.to_nat k) as Hk.
  { intros k Hk. rewrite Hv. unfold overlay. replace (va + k - va) with k by lia. rewrite Z.mod_small by lia.
    by rewrite (proj2 (Z.ltb_lt _ _)) by lia. }
  split.
  - intros k Hkm. rewrite length_take in Hkm. rewrite Hk by lia. by rewrite lookup_take_lt by lia.
  - intros a b Hab Hn. rewrite Hv. unfold overlay. rewrite (proj2 (Z.ltb_ge _ _)) by done.
    rewrite (po_byte _ _ _ _ _ _ _ _ Hp); [done|]. by apply vbyte_some with s b.
Qed.

Lemma va_copy_run X pages s va addr size u w x : boot_inv X pages s → fits X u pages s va size →
    size ≤ Z.of_nat (length addr) → Forall (λ v, 0 ≤ v < 256) addr →
  ∃ pages' s', va_copy va addr size u w x s = Ret (tt, s') ∧ boot_inv X pages' s' ∧
    uses lim (4 * npages va size) s s' ∧ grants (pages_of va size) u w x pages pages' ∧
    puts va (take (Z.to_nat size) addr) size pages s pages' s'.
Proof.
  intros Hi Hf Hla Hb. pose proof Hf as [[Hva Hfl] [Hsz Hend] _ _ _]. unfold va_copy.
  rewrite (bind_Ret _ _ _ _ _ (verify_run va s Hfl)).
  destruct (va_populate_run X pages s va size u w x Hi Hf) as (pages1 & s1 & Hr1 & Hi1 & Hu1 & Hp1).
  rewrite (bind_Ret _ _ _ _ _ Hr1), s64_small by lia.
  destruct (copy_loop_run X pages1 (page_turns size) va addr size s1 Hi1) as (fs2 & Hr2 & Hi2 & Hv2);
    [done|lia|done|by apply turns_enough; lia|done|done| |].
  { intros v Hv. by apply (grants_some (pages_of va size) u w x pages); [apply Hp1|]. }
  exists pages1, (set_fs fs2 s1). split; [done|]. split; [done|]. split; [exact Hu1|]. split; [apply Hp1|].
  set (l := take (Z.to_nat size) addr) in *.
  assert (Z.of_nat (length l) = size) as El by (unfold l; rewrite length_take; lia).
  pose proof (overlay_puts va l size u w x pages s pages1 s1 (set_fs fs2 s1) (length l) Hp1) as Hput.
  rewrite El, take_ge in Hput by lia. apply Hput; [lia|done].
Qed.

Lemma va_memset_run X pages s va c size u w x : boot_inv X pages s → fits X u pages s va size →
  ∃ pages' s', va_memset va c size u w x s = Ret (tt, s') ∧ boot_inv X pages' s' ∧
    uses lim (4 * npages va size) s s' ∧ grants (pages_of va size) u w x pages pages' ∧
    puts va (replicate (Z.to_nat size) 0) (cleared va size) pages s pages' s'.
Proof.
  intros Hi Hf. pose proof Hf as [[Hva Hfl] [Hsz Hend] _ _ _]. unfold va_memset.
  rewrite (bind_Ret _ _ _ _ _ (verify_run va s Hfl)).
  destruct (va_populate_run X pages s va size u w x Hi Hf) as (pages1 & s1 & Hr1 & Hi1 & Hu1 & Hp1).
  rewrite (bind_Ret _ _ _ _ _ Hr1), s64_small by lia. pose proof (cleared_bound va size ltac:(lia)) as Hc.
  destruct (memset_loop_run X pages1 (page_turns size) va size s1 Hi1) as (fs2 & Hr2 & Hi2 & Hv2);
    [done|lia|lia|done|by apply turns_enough; lia| |].
  { intros v Hv. by apply (grants_some (pages_of va size) u w x pages); [apply Hp1|]. }
  exists pages1, (set_fs fs2 s1). split; [done|]. split; [done|]. split; [exact Hu1|]. split; [apply Hp1|].
  set (l := replicate (Z.to_nat (cleared va size)) 0) in *.
  assert (Z.of_nat (length l) = cleared va size) as El by (unfold l; rewrite length_replicate; lia).
  pose proof (overlay_puts va l size u w x pages s pages1 s1 (set_fs fs2 s1) (Z.to_nat size) Hp1) as Hput.
  assert (take (Z.to_nat size) l = replicate (Z.to_nat size) 0) as Et by (unfold l;
    rewrite take_replicate, Nat.min_l by lia; done). rewrite El, Et in Hput. apply Hput; [lia|done].
Qed.
End copy.
