(* ===== verification/ApxhElf.v ===== *)
(** Loading an ELF image: every segment is in memory at its addresses, with the rights
    that the segments of its pages ask for. *)

From stdpp Require Import sorting.
From S2P Require Import Prelude Words Locks Machine Hal PageTable Stree Apxh ApxhPt ApxhPages ApxhLoad ApxhCopy.

Section elf.
Context `{!BootArch, !BootCpu, !BootArchOk, !BootMd}.
Context (D : Z → Prop) (HD : ∀ i, D i → index_ok i) (n0 lim : Z).
Notation boot_inv := (boot_inv D n0 lim).

(** * A segment *)

Notation seg_w ph := (PHF 2 (ph_flags ph)).
Notation seg_x ph := (PHF 1 (ph_flags ph)).

Definition seg_bytes (img : list Z) (ph : elf64ph) : list Z :=
  take (Z.to_nat (ph_fsize ph)) (drop (Z.to_nat (ph_off ph)) img) ++ replicate (Z.to_nat (ph_msize ph - ph_fsize ph)) 0.

Definition covers (ph : elf64ph) (v : Z) : Prop := pages_of (ph_va ph) (ph_msize ph) v.

(** At most four frames a page: three tables and the page. *)
Definition seg_need (ph : elf64ph) : Z := 4 * npages (ph_va ph) (ph_fsize ph) + 4 * npages (ph_va ph + ph_fsize ph)
    (ph_msize ph - ph_fsize ph).

Record seg_ok (img : list Z) (ph : elf64ph) : Prop := {
  sg_va : 0 ≤ ph_va ph ∧ md_floor ≤ ph_va ph;
  sg_size : 0 ≤ ph_fsize ph ≤ ph_msize ph ∧ ph_msize ph ≤ 2 ^ 46 ∧ ph_va ph + ph_msize ph + 4096 ≤ 2 ^ 64;
  sg_file : 0 ≤ ph_off ph ∧ ph_off ph + ph_fsize ph ≤ Z.of_nat (length img);
}.

Lemma grants_user P (Q : Z → Prop) u w x pages pages' : (∀ v, P v ∨ ¬ P v) → grants P u w x pages pages' →
    (∀ v pg, Q v → pages !! v = Some pg → pg_u pg = u) → ∀ v pg, Q v → pages' !! v = Some pg → pg_u pg = u.
Proof.
  intros HP G Hu v pg Hq Hv.
  destruct (HP v) as [Hp|Hp]; [|rewrite (gr_none _ _ _ _ _ _ G) in Hv by done; by apply (Hu v)].
  destruct (pages !! v) as [pg0|] eqn:E.
  - rewrite (gr_old _ _ _ _ _ _ G v pg0 Hp E) in Hv. injection Hv as <-. by apply (Hu v pg0).
  - pose proof (gr_fresh _ _ _ _ _ _ G v Hp E) as Hr. rewrite Hv in Hr. by injection Hr.
Qed.

Lemma mod_shift a b n : 0 ≤ n → n ≤ (a - b) `mod` 2 ^ 48 → (a - (b + n)) `mod` 2 ^ 48 = (a - b) `mod` 2 ^ 48 - n.
Proof. intros Hn Hm. assert (0 ≤ (a - b) `mod` 2 ^ 48 < 2 ^ 48) by (by apply Z.mod_pos_bound). symmetry.
  apply Z.mod_unique with ((a - b) `div` 2 ^ 48); [lia|]. pose proof (Z.div_mod (a - b) (2 ^ 48) ltac:(lia)). lia.
  Qed.

Lemma puts_app va l1 l2 n2 pages s pages1 s1 pages2 s2 : let n1 := Z.of_nat (length l1) in Z.of_nat (length l2) ≤ n2
    → n1 + n2 ≤ 2 ^ 48 → puts va l1 n1 pages s pages1 s1 → puts (va + n1) l2 n2 pages1 s1 pages2 s2 →
    puts va (l1 ++ l2) (n1 + n2) pages s pages2 s2.
Proof.
  intros n1 Hl Hn A B. split.
  - intros k. rewrite length_app. intros Hk. destruct (Z.lt_ge_cases k n1) as [Hlt|Hge].
    + rewrite lookup_app_l by lia. destruct (lookup_lt_is_Some_2 l1 (Z.to_nat k)) as [b Hb]; [lia|]. rewrite Hb.
      apply (pu_old _ _ _ _ _ _ _ B); [rewrite (pu_new _ _ _ _ _ _ _ A) by lia; done|].
      replace (va + k - (va + n1)) with (k - n1) by lia.
      assert ((k - n1) `mod` 2 ^ 48 = k - n1 + 2 ^ 48) as -> by (symmetry; apply Z.mod_unique with (-1); lia). lia.
    + rewrite lookup_app_r by lia. replace (va + k) with (va + n1 + (k - n1)) by lia.
      rewrite (pu_new _ _ _ _ _ _ _ B) by lia. f_equal. lia.
  - intros a b Hab Hm. assert (0 ≤ (a - va) `mod` 2 ^ 48) by (by apply Z.mod_pos_bound).
    apply (pu_old _ _ _ _ _ _ _ B); [apply (pu_old _ _ _ _ _ _ _ A); [done|lia]|]. rewrite mod_shift by lia. lia.
Qed.

Lemma puts_refl va pages s : puts va [] 0 pages s pages s.
Proof. split; [intros k Hk; cbn in Hk; lia|done]. Qed.

Lemma pages_of_split va a b v : 0 ≤ a → 0 ≤ b → pages_of va a v ∨ pages_of (va + a) b v ↔ pages_of va (a + b) v.
Proof.
  intros Ha Hb. unfold pages_of. split.
  - intros [(k & H1' & H2' & H3' & ->)|(k & H1' & H2' & H3' & ->)]; exists k; split_and!; try done; try lia.
    Z.div_mod_to_equations. lia.
  - intros (k & H1' & H2' & H3' & ->). destruct (Z.lt_ge_cases (4096 * k) (va + a)) as [Hlt|Hge].
    + destruct (Z.lt_ge_cases 0 a); [left; exists k; split_and!; done|]. right. exists k.
      assert (a = 0) as -> by lia. rewrite Z.add_0_r. split_and!; try done; lia.
    + right. exists k. split_and!; try done; try lia. Z.div_mod_to_equations. lia.
Qed.

Definition touched (ph : elf64ph) : Z := ph_fsize ph + cleared (ph_va ph + ph_fsize ph) (ph_msize ph - ph_fsize ph).

Lemma npages_nonneg va len : 0 ≤ npages va len.
Proof. unfold npages. destruct (Z.ltb_spec 0 len); [|lia]. Z.div_mod_to_equations. lia. Qed.

Lemma copy_part X pages s va addr size u w x : boot_inv X pages s → fits lim X u pages s va size →
    size ≤ Z.of_nat (length addr) → Forall (λ v, 0 ≤ v < 256) addr →
  ∃ pages' s', when (negb (size =? 0)) (va_copy va addr size u w x) s = Ret (tt, s') ∧ boot_inv X pages' s' ∧
    uses lim (4 * npages va size) s s' ∧ grants (pages_of va size) u w x pages pages' ∧
    puts va (take (Z.to_nat size) addr) size pages s pages' s'.
Proof.
  intros Hi Hf Hla Hb. destruct (Z.eqb_spec size 0) as [->|Hne]; cbn [negb when]; [|by apply va_copy_run].
  exists pages, s. split; [done|]. split; [done|]. split; [apply uses_none; done|]. split; [|apply puts_refl].
  apply (grants_ext (λ _, False)); [|apply grants_none]. intros v. split; [done|]. intros (k & _ & _ & Hk & _). lia.
Qed.

Lemma memset_part X pages s va size u w x : boot_inv X pages s → fits lim X u pages s va size →
  ∃ pages' s', when (0 <? size) (va_memset va 0 size u w x) s = Ret (tt, s') ∧ boot_inv X pages' s' ∧
    uses lim (4 * npages va size) s s' ∧ grants (pages_of va size) u w x pages pages' ∧
    puts va (replicate (Z.to_nat size) 0) (cleared va size) pages s pages' s'.
Proof.
  intros Hi Hf. destruct (Z.ltb_spec 0 size) as [Hp|Hp]; cbn [when]; [by apply va_memset_run|].
  assert (size = 0) as -> by (pose proof (ft_size _ _ _ _ _ _ _ Hf); lia). exists pages, s. split; [done|].
  split; [done|]. split; [apply uses_none; done|]. split; [|apply puts_refl].
  apply (grants_ext (λ _, False)); [|apply grants_none]. intros v. split; [done|]. intros (k & _ & _ & Hk & _). lia.
Qed.

Lemma ph_load_run X pages s img ph u : boot_inv X pages s → seg_ok img ph → Forall (λ v, 0 ≤ v < 256) img →
    room lim (seg_need ph) s → (∀ v, covers ph v → X v) → (∀ v pg, covers ph v → pages !! v = Some pg → pg_u pg = u) →
  ∃ pages' s', ph_load img ph u s = Ret (tt, s') ∧ boot_inv X pages' s' ∧ uses lim (seg_need ph) s s' ∧
    grants (covers ph) u (seg_w ph) (seg_x ph) pages pages' ∧
    puts (ph_va ph) (seg_bytes img ph) (touched ph) pages s pages' s'.
Proof.
  intros Hi [[Hva Hfl] ((Hf0 & Hfm) & Hm & Hend) [Ho Hfile]] Hb Hr HX Hu. unfold ph_load, seg_need, covers in *.
  set (va := ph_va ph) in *. set (fs := ph_fsize ph) in *. set (ms := ph_msize ph) in *.
  set (w := PHF 2 (ph_flags ph)). set (x := PHF 1 (ph_flags ph)). cbn zeta.
  assert (∀ y, 0 ≤ y < 2 ^ 64 → u64 y = y) as Hsm by (intros y; apply Z.mod_small).
  rewrite (Hsm (va + ms)), (proj2 (Z.ltb_ge _ _)) by lia. pose proof (npages_nonneg va fs) as Hn1.
  pose proof (npages_nonneg (va + fs) (ms - fs)) as Hn2.
  pose proof (cleared_bound (va + fs) (ms - fs) ltac:(lia)) as Hcb.
  assert (∀ v, pages_of va fs v ∨ pages_of (va + fs) (ms - fs) v ↔ pages_of va ms v) as Hsplit by (intros v;
    rewrite pages_of_split by lia; by replace (fs + (ms - fs)) with ms by lia).
  destruct (copy_part X pages s va (ELFOFF img (ph_off ph)) fs u w x Hi)
    as (pages1 & s1 & Hr1 & Hi1 & Hu1 & Hg1 & Hp1);
    [split; [done|lia|refine (room_less lim _ _ s _ Hr); lia|intros v Hv; apply HX, Hsplit; by left|intros v pg Hv;
    apply Hu, Hsplit; by left]|unfold ELFOFF; rewrite length_drop; lia|by apply Forall_drop|].
  rewrite (bind_Ret _ _ _ _ _ Hr1), (Hsm (ms - fs)), (Hsm (va + fs)) by lia.
  assert (Z.of_nat (length (take (Z.to_nat fs) (drop (Z.to_nat (ph_off ph)) img))) = fs) as El
    by (rewrite length_take, length_drop; lia).
  assert (room lim (4 * npages (va + fs) (ms - fs)) s1) as Hr1' by (apply Hu1; [lia|]; by rewrite Z.add_comm).
  pose proof (grants_user _ _ _ _ _ _ _ (pages_of_dec va fs) Hg1 Hu) as Hus1.
  destruct (memset_part X pages1 s1 (va + fs) (ms - fs) u w x Hi1) as (pages2 & s2 & Hr2 & Hi2 & Hu2 & Hg2 & Hp2);
    [split; [lia|lia|done|intros v Hv; apply HX, Hsplit; by right|intros v pg Hv; apply Hus1, Hsplit; by right]|].
  rewrite Hr2. exists pages2, s2. split; [done|]. split; [done|].
  split; [by apply (uses_trans lim _ _ s s1 s2); [lia|..]|].
  split; [apply (grants_ext (λ v, pages_of va fs v ∨ pages_of (va + fs) (ms - fs) v)); [done|];
    apply grants_trans with pages1; auto using pages_of_dec|].
  unfold seg_bytes, touched. fold va fs ms. unfold ELFOFF in Hp1.
  pose proof (puts_app va (take (Z.to_nat fs) (drop (Z.to_nat (ph_off ph)) img)) (replicate (Z.to_nat (ms - fs)) 0)
    (cleared (va + fs) (ms - fs)) pages s pages1 s1 pages2 s2) as Happ. cbn zeta in Happ.
  rewrite El, length_replicate in Happ. apply Happ; [lia|lia|done|done].
Qed.

(** * Several segments *)

Definition before (p q : elf64ph) : Prop := ph_va p + ph_msize p ≤ ph_va q.

(** In the addresses that the tables tell apart. *)
Definition window (base : Z) (ph : elf64ph) : Prop := base ≤ ph_va ph ∧ ph_va ph + ph_msize ph + 4096 ≤ base + 2 ^ 48.

Definition wants (r : elf64ph → bool) (segs : list elf64ph) (v : Z) : Prop := ∃ ph, ph ∈ segs ∧ covers ph v ∧ r ph = true.

(** The segments [segs] are in memory, over the pages [pages0]. *)
Record image (img : list Z) (u : bool) (pages0 : gmap Z page) (segs : list elf64ph) (pages : gmap Z page) (s : boot)
    : Prop := {
  im_bytes ph k : ph ∈ segs → 0 ≤ k < ph_msize ph → vbyte pages s (ph_va ph + k) = seg_bytes img ph !! Z.to_nat k;
  im_user v pg ph : ph ∈ segs → covers ph v → pages !! v = Some pg → pg_u pg = u;
  im_page v : is_Some (pages !! v) ↔ is_Some (pages0 !! v) ∨ ∃ ph, ph ∈ segs ∧ covers ph v;
  im_w v pg : pages !! v = Some pg → pg_w pg = true ↔ (∃ pg0, pages0 !! v = Some pg0 ∧
    pg_w pg0 = true) ∨ wants (λ ph, seg_w ph) segs v;
  im_x v pg : pages !! v = Some pg → pg_x pg = true ↔ (∃ pg0, pages0 !! v = Some pg0 ∧
    pg_x pg0 = true) ∨ wants (λ ph, seg_x ph) segs v;
}.

Lemma wants_snoc r segs ph v : wants r (segs ++ [ph]) v ↔ wants r segs v ∨ covers ph v ∧ r ph = true.
Proof.
  unfold wants. split.
  - intros (q & Hq & Hc & Hr). apply elem_of_app in Hq as [Hq|Hq%list_elem_of_singleton]; [left; eauto|subst q; by right].
  - intros [(q & Hq & Hc & Hr)|[Hc Hr]]; [exists q|exists ph]; (split; [apply elem_of_app|done]);
      [by left|right; by apply list_elem_of_singleton].
Qed.

Lemma seg_length img ph : seg_ok img ph → Z.of_nat (length (seg_bytes img ph)) = ph_msize ph.
Proof. intros [_ [? ?] [? ?]]. unfold seg_bytes. rewrite length_app, length_take, length_drop, length_replicate. lia. Qed.

Lemma image_bytes_step img u base pages0 segs pages s ph pages' s' : image img u pages0 segs pages s →
    Forall (seg_ok img) segs → Forall (window base) segs → (∀ q, q ∈ segs → before q ph) → seg_ok img ph →
    window base ph →
  puts (ph_va ph) (seg_bytes img ph) (touched ph) pages s pages' s' → ∀ q k, q ∈ segs ++ [ph] → 0 ≤ k < ph_msize q →
    vbyte pages' s' (ph_va q + k) = seg_bytes img q !! Z.to_nat k.
Proof.
  intros Him Hok Hwin Hbef Hph [Hw1 Hw2] Hput q k Hq Hk. apply elem_of_app in Hq as [Hq|Hq%list_elem_of_singleton].
  - rewrite Forall_forall in Hok, Hwin. pose proof (seg_length _ _ (Hok q Hq)) as Hl.
    destruct (lookup_lt_is_Some_2 (seg_bytes img q) (Z.to_nat k)) as [b Hb]; [lia|]. rewrite Hb.
    apply (pu_old _ _ _ _ _ _ _ Hput); [by rewrite (im_bytes _ _ _ _ _ _ Him)|].
    destruct (Hwin q Hq) as [Hb1 _]. specialize (Hbef q Hq). unfold before in Hbef.
    destruct (sg_size _ _ Hph) as ((? & ?) & ? & ?).
    pose proof (cleared_bound (ph_va ph + ph_fsize ph) (ph_msize ph - ph_fsize ph) ltac:(lia)).
    assert ((ph_va q + k - ph_va ph) `mod` 2 ^ 48 = ph_va q + k - ph_va ph + 2 ^ 48) as -> by (symmetry;
      apply Z.mod_unique with (-1); lia). unfold touched. lia.
  - subst q. apply (pu_new _ _ _ _ _ _ _ Hput). by rewrite seg_length.
Qed.

Lemma or_assoc_true (A B C : Prop) (b c : bool) : (b = true ↔ A ∨ B) → (c = true ↔ C) → (c || b = true ↔ A ∨ B ∨ C).
Proof. intros Hb Hc. rewrite orb_true_iff, Hb, Hc. tauto. Qed.

Lemma image_right (sel : page → bool) (r : elf64ph →
    bool) (pages0 pages pages' : gmap Z page) segs ph u w x v pg : grants (covers ph) u w x pages pages' →
  (∀ p, sel (merged p w x) = r ph || sel p) → (∀ p, rights p = (u, w, x) → sel p = r ph) →
  (pages !! v = None → pages0 !! v = None ∧ ∀ q, q ∈ segs → ¬ covers q v) →
    (∀ pg', pages !! v = Some pg' → sel pg' = true ↔ (∃ pg0, pages0 !! v = Some pg0 ∧
    sel pg0 = true) ∨ wants r segs v) →
  pages' !! v = Some pg → sel pg = true ↔ (∃ pg0, pages0 !! v = Some pg0 ∧ sel pg0 = true) ∨ wants r (segs ++ [ph]) v.
Proof.
  intros G Hm Hn Hnone IH Hv. rewrite wants_snoc.
  destruct (pages_of_dec (ph_va ph) (ph_msize ph) v) as [Hc|Hc]; fold (covers ph v) in Hc.
  - destruct (pages !! v) as [pg'|] eqn:E.
    + rewrite (gr_old _ _ _ _ _ _ G v pg' Hc E) in Hv. injection Hv as <-. rewrite Hm.
      apply or_assoc_true; [by apply IH|]. tauto.
    + pose proof (gr_fresh _ _ _ _ _ _ G v Hc E) as Hr. rewrite Hv in Hr. injection Hr as E1 E2 E3.
      rewrite (Hn pg) by (unfold rights; congruence). destruct (Hnone eq_refl) as [E0 Hq]. split; [tauto|].
      intros [(pg0 & Hp0 & _)|[(q & Hq1 & Hq2 & _)|[_ ?]]]; [congruence|by destruct (Hq q)|done].
  - rewrite (gr_none _ _ _ _ _ _ G v Hc) in Hv. rewrite (IH pg Hv). tauto.
Qed.

Lemma image_step img u base pages0 segs pages s ph pages' s' : image img u pages0 segs pages s →
    Forall (seg_ok img) segs → Forall (window base) segs → (∀ q, q ∈ segs → before q ph) → seg_ok img ph →
    window base ph →
  (∀ v pg, covers ph v → pages !! v = Some pg → pg_u pg = u) →
    grants (covers ph) u (seg_w ph) (seg_x ph) pages pages' →
    puts (ph_va ph) (seg_bytes img ph) (touched ph) pages s pages' s' → image img u pages0 (segs ++ [ph]) pages' s'.
Proof.
  intros Him Hok Hwin Hbef Hph Hw Hu G Hput.
  assert (∀ v, covers ph v ∨ ¬ covers ph v) as Hdec by (intros v; apply pages_of_dec).
  assert (∀ v, pages !! v = None → pages0 !! v = None ∧ ∀ q, q ∈ segs → ¬ covers q v) as Hnone.
  { intros v E. split; [apply eq_None_not_Some; intros Hs|intros q Hq Hc]; apply eq_None_not_Some in E;
      apply E, (im_page _ _ _ _ _ _ Him); [by left|right; eauto]. }
  split.
  - by apply (image_bytes_step img u base pages0 segs pages s).
  - intros v pg q Hq Hc Hv. apply (grants_user (covers ph) (λ v, ∃ q, q ∈ segs ++ [ph] ∧
      covers q v) u (seg_w ph) (seg_x ph) pages pages' Hdec G) with v; [|by exists q|done].
    intros v' pg' (q' & Hq' & Hc') Hv'.
    apply elem_of_app in Hq' as [Hq'|Hq'%list_elem_of_singleton];
      [by apply (im_user _ _ _ _ _ _ Him v' pg' q')|subst q'; by apply (Hu v')].
  - intros v. destruct (Hdec v) as [Hc|Hc].
    + split; [|intros _; by apply (grants_some (covers ph) u (seg_w ph) (seg_x ph) pages)]. intros _. right.
      exists ph. split; [apply elem_of_app; right; by apply list_elem_of_singleton|done].
    + rewrite (gr_none _ _ _ _ _ _ G v Hc), (im_page _ _ _ _ _ _ Him v).
      split; [intros [?|(q & Hq & Hcq)]; [by left|right; exists q; split; [apply elem_of_app; by left|done]]|].
      intros [?|(q & Hq & Hcq)]; [by left|].
      apply elem_of_app in Hq as [Hq|Hq%list_elem_of_singleton]; [right; eauto|by subst q].
  - intros v pg Hv. apply (image_right pg_w (λ ph, seg_w ph) pages0 pages pages' segs ph u (seg_w ph) (seg_x ph) v pg
      G); [done|by intros p [= _ -> _]|apply Hnone|intros pg'; by apply (im_w _ _ _ _ _ _ Him)|done].
  - intros v pg Hv. apply (image_right pg_x (λ ph, seg_x ph) pages0 pages pages' segs ph u (seg_w ph) (seg_x ph) v pg
      G); [done|by intros p [= _ _ ->]|apply Hnone|intros pg'; by apply (im_x _ _ _ _ _ _ Him)|done].
Qed.

Definition total_need (segs : list elf64ph) : Z := foldr (λ ph n, seg_need ph + n) 0 segs.

Lemma total_need_nonneg segs : 0 ≤ total_need segs.
Proof. induction segs as [|ph segs IH]; [done|].
  change (total_need (ph :: segs)) with (seg_need ph + total_need segs). unfold seg_need.
  pose proof (npages_nonneg (ph_va ph) (ph_fsize ph)).
  pose proof (npages_nonneg (ph_va ph + ph_fsize ph) (ph_msize ph - ph_fsize ph)). lia. Qed.

Lemma load_segs_run img u base X pages0 rest : ∀ segs pages s, Forall (λ v, 0 ≤ v < 256) img →
    Forall (seg_ok img) (segs ++ rest) → Forall (window base) (segs ++ rest) → StronglySorted before (segs ++ rest) →
  boot_inv X pages s → image img u pages0 segs pages s → room lim (total_need rest) s →
    (∀ ph v, ph ∈ rest → covers ph v → X v ∧ ∀ pg, pages0 !! v = Some pg → pg_u pg = u) →
    (∀ ph v, ph ∈ segs → covers ph v → ∀ pg, pages0 !! v = Some pg → pg_u pg = u) →
  (∀ v pg, pages !! v = Some pg → (∃ ph, ph ∈ segs ∧ covers ph v) ∨ ∃ pg0, pages0 !! v = Some pg0 ∧ pg_u pg = pg_u pg0) →
  ∃ pages' s', for_each rest (λ ph, ph_load img ph u) s = Ret (tt, s') ∧ boot_inv X pages' s' ∧
    uses lim (total_need rest) s s' ∧ image img u pages0 (segs ++ rest) pages' s'.
Proof.
  induction rest as [|ph rest IH]; intros segs pages s Hb Hok Hwin Hso Hi Him Hr HX Hu0 Horig.
  - exists pages, s. rewrite app_nil_r. split; [done|]. split; [done|]. split; [by apply uses_none|done].
  - cbn [for_each total_need foldr] in *. fold (total_need rest) in *. pose proof (total_need_nonneg rest) as Hn.
    pose proof (proj1 (Forall_app _ _ _) Hok) as [Hok1 Hok2].
    pose proof (proj1 (Forall_app _ _ _) Hwin) as [Hwin1 Hwin2].
    apply Forall_cons in Hok2 as [Hph _]. apply Forall_cons in Hwin2 as [Hw _]. assert (ph ∈ ph :: rest) as Hin by (by left).
    assert (∀ v pg, covers ph v → pages !! v = Some pg → pg_u pg = u) as Huser.
    { intros v pg Hc Hv. destruct (Horig v pg Hv) as [(q & Hq & Hcq)|(pg0 & Hp0 & ->)];
        [by apply (im_user _ _ _ _ _ _ Him v pg q)|]. by apply (HX ph v Hin Hc). }
    destruct (ph_load_run X pages s img ph u Hi Hph Hb) as (pages1 & s1 & Hr1 & Hi1 & Hu1 & G1 & Hp1);
      [refine (room_less lim _ _ s _ Hr); lia|intros v; apply HX; done|done|]. rewrite (bind_Ret _ _ _ _ _ Hr1).
    assert (image img u pages0 (segs ++ [ph]) pages1 s1) as Him1
      by (apply (image_step img u base pages0 segs pages s); try done; intros q Hq;
      by apply (StronglySorted_app_1_elem_of before segs (ph :: rest))).
    replace (segs ++ ph :: rest) with ((segs ++ [ph]) ++ rest) in * by (by rewrite <- app_assoc).
    destruct (IH (segs ++ [ph]) pages1 s1) as (pages2 & s2 & Hr2 & Hi2 & Hu2 & Him2);
      [done|done|done|done|done|done|apply Hu1; [done|by rewrite Z.add_comm]|intros q v Hq; apply HX; by right| | |].
    + intros q v Hq Hc pg Hpg.
      apply elem_of_app in Hq as [Hq|Hq%list_elem_of_singleton]; [by apply (Hu0 q v)|subst q; by apply (HX ph v)].
    + intros v pg Hv. destruct (pages_of_dec (ph_va ph) (ph_msize ph) v) as [Hc|Hc];
        [left; exists ph; split; [apply elem_of_app; right; by apply list_elem_of_singleton|done]|].
      rewrite (gr_none _ _ _ _ _ _ G1 v Hc) in Hv.
      destruct (Horig v pg Hv) as [(q & Hq & Hcq)|?]; [left; exists q; split; [apply elem_of_app; by left|done]|by right].
    + exists pages2, s2. split; [done|]. split; [done|]. split; [by apply (uses_trans lim _ _ s s1 s2)|done].
Qed.
End elf.

(** * The whole image *)

Section whole.
Context `{!BootArch, !BootCpu, !BootArchOk, !BootMd}.
Context (n0 lim : Z).

Definition anywhere (v : Z) : Prop := True.

Definition with_root (s : boot) : boot := set_root (4096 * next_pfn s) (with_page s).

Lemma pt_init_run s : ram_ok n0 lim s → room lim 1 s → pt_init s = Ret (tt, with_root s).
Proof. intros Hr Hm. unfold pt_init. by rewrite (bind_Ret _ _ _ _ _ (get_payload_page_run n0 lim s Hr Hm)). Qed.

Lemma with_root_top s j : index_ok j → top (with_root s) j = 0.
Proof. intros Hj. unfold top, root_pfn, with_root. cbn. rewrite (Z.mul_comm 4096), Z.div_mul by lia.
  rewrite entry_zero by done. by rewrite decide_True. Qed.

Lemma with_root_table s p : path_ok index_ok p → table (top (with_root s)) (b_fs (with_root s)) p = None.
Proof. intros ((i & q & -> & Hi) & _). unfold table. rewrite with_root_top by done. done. Qed.

Lemma with_root_inv s : ram_ok n0 lim s → room lim 1 s → boot_inv index_ok n0 lim anywhere ∅ (with_root s).
Proof.
  intros Hr Hm. pose proof (next_pfn_pos _ _ _ Hr) as Hn. pose proof (ra_lim _ _ _ Hr).
  pose proof Hm as (_ & Hl & _). pose proof (with_root_table s) as Ht.
  pose proof (with_page_ram n0 lim s Hr Hm) as Hr'.
  assert (root_pfn (with_root s) = next_pfn s) as Er by (unfold root_pfn; cbn;
    by rewrite (Z.mul_comm 4096), Z.div_mul by lia).
  assert (next_pfn (with_root s) = next_pfn s + 1) as En by (apply next_with_page). split.
  - destruct Hr' as [A B C E G I J]. by split.
  - rewrite Er, En. split; [done|]. split; [unfold pfn_ok; lia|]. split; [lia|]. cbn.
    apply frame_zero_ok; [cbn; lia|]. apply (ra_ram _ _ _ Hr). lia.
  - split; [intros p f Hp; by rewrite Ht|intros p q f Hp; by rewrite Ht|done|done].
  - intros p f Hp. by rewrite Ht.
  - done.
  - done.
  - done.
  - done.
  - intros va _. destruct (off_range va) as (I4 & I3 & I2 & I1).
    assert (path_ok index_ok [L4OFF va]) as P4 by (by apply path_ok_one).
    assert (path_ok index_ok [L4OFF va; L3OFF va]) as P3 by (apply (path_ok_snoc index_ok [L4OFF va]);
      [done|done|cbn; lia]).
    split; [done|]. split; [split; [rewrite with_root_top by done; apply plain_zero|]; split; intros f;
      by rewrite Ht|]. intros _. unfold leaf. by rewrite Ht by (by apply va_path).
Qed.

(** What load_elf64 reads of an image. *)
Record elf_image (img : list Z) (entry : Z) (phs : list elf64ph) : Prop := {
  ei_bytes : Forall (λ v, 0 ≤ v < 256) img;
  ei_id : slice img 0 4 = Some elfid;
  ei_type : le_at 2 img 16 = Some ET_EXEC ∧ le_at 4 img 20 = Some EV_CURRENT;
  ei_entry : le_at 8 img 24 = Some entry;
  ei_phs : ∃ phoff n, le_at 8 img 32 = Some phoff ∧ le_at 2 img 56 = Some n ∧
    mapM (λ i, read_ph64 img (phoff + PH64_SIZE * i)) (seqZ 0 n) = Some phs;
}.

Lemma for_each_read {S A B} (f : A → option B) (g : B → M S unit) l : ∀ xs s, mapM f l = Some xs →
    for_each l (λ i, x ← opt_or Fault (f i); g x) s = for_each xs g s.
Proof.
  induction l as [|i l IH]; intros xs s Hm; cbn in Hm; [by injection Hm as <-|].
  destruct (f i) as [x|] eqn:E; [|done]. cbn in Hm. destruct (mapM f l) as [ys|] eqn:El; [|done]. injection Hm as <-.
  cbn [for_each].
  rewrite bind_assoc, E, bind_opt. unfold mbind, M_bind. destruct (g x s) as [[[] s']|]; [|done]. by apply IH.
Qed.

Lemma load_elf64_start img entry phs u l : elf_image img entry phs →
  load_elf64 img u l = (for_each phs (λ ph, if u then ph_uload img ph else ph_kload img ph);; mret entry) l.
Proof.
  intros [_ Hid [Hty Hver] Hen (phoff & n & Hoff & Hn & Hm)]. unfold load_elf64.
  rewrite Hid, bind_opt, bool_decide_true by done. cbn [negb]. rewrite Hty, bind_opt, Hver, bind_opt.
  cbn [Z.eqb negb orb ET_EXEC EV_CURRENT Pos.eqb].
  rewrite Hoff, bind_opt, Hn, bind_opt, Hen. unfold mbind at 1, M_bind at 1. rewrite (for_each_read _ _ _ phs l Hm). done.
Qed.

(** Segments that ph_kload and ph_uload only report, or leave. *)
Definition ignored (u : bool) (t : Z) : bool :=
  if u then negb ((t =? PHT_LOAD) || (t =? PHT_TLS))
  else (t =? PHT_APXH_EMPTY) || negb (bool_decide (t ∈ [PHT_LOAD; PHT_TLS; PHT_APXH_INFO; PHT_APXH_PHYSMAP;
    PHT_APXH_PTALLOC; PHT_APXH_PFNMAP; PHT_APXH_STREE; PHT_APXH_LINEAR; PHT_APXH_FRAMEBUF; PHT_APXH_REGIONS;
    PHT_APXH_TOPPTALLOC])).

Definition loads (phs : list elf64ph) : list elf64ph := filter (λ ph, ph_type ph = PHT_LOAD) phs.

Lemma load_one img ph u l : ph_type ph = PHT_LOAD ∨ ignored u (ph_type ph) = true →
  (if u then ph_uload img ph else ph_kload img ph) l = (if decide (ph_type ph = PHT_LOAD) then on_boot
    (ph_load img ph u) else mret tt) l.
Proof.
  intros [Hl|Hig].
  - rewrite decide_True by done. unfold ph_uload, ph_kload. rewrite Hl. by destruct u.
  - assert (ph_type ph ≠ PHT_LOAD) as Hne by (intros E; rewrite E in Hig; by destruct u).
    rewrite decide_False by done. unfold ph_uload, ph_kload, ignored in *. destruct u.
    + apply negb_true_iff, orb_false_iff in Hig as [-> ->]. done.
    + apply orb_true_iff in Hig as [->%Z.eqb_eq|Hig]; [done|]. apply negb_true_iff, bool_decide_eq_false in Hig.
      cbn zeta. set (t := ph_type ph) in *.
      repeat (rewrite not_elem_of_cons in Hig; let Hq := fresh in destruct Hig as [Hq Hig]; apply Z.eqb_neq in Hq;
        rewrite Hq; clear Hq). by destruct (t =? PHT_APXH_EMPTY).
Qed.

Lemma load_all img u phs : ∀ l s', Forall (λ ph, ph_type ph = PHT_LOAD ∨ ignored u (ph_type ph) = true) phs →
    for_each (loads phs) (λ ph, ph_load img ph u) (l_boot l) = Ret (tt, s') →
  for_each phs (λ ph, if u then ph_uload img ph else ph_kload img ph) l = Ret (tt, set_boot s' l).
Proof.
  induction phs as [|ph phs IH]; intros l s' Hk Hr; [cbn in Hr; injection Hr as <-; by destruct l|].
  apply Forall_cons in Hk as [Hph Hk]. cbn [for_each]. unfold mbind, M_bind. rewrite (load_one img ph u l Hph).
  unfold loads in Hr. rewrite filter_cons in Hr. destruct (decide (ph_type ph = PHT_LOAD)).
  - cbn [for_each] in Hr. unfold mbind, M_bind in Hr. unfold on_boot, zoom.
    destruct (ph_load img ph u (l_boot l)) as [[[] s1]|]; [|done]. rewrite (IH (set_boot s1 l) s' Hk Hr). done.
  - unfold mret, M_ret. by apply IH.
Qed.

Lemma image_empty img pages0 s : (∀ v pg, pages0 !! v = Some pg → pg_w pg = false ∧ pg_x pg = false) →
    image img false pages0 [] pages0 s.
Proof.
  intros Hz. assert (∀ r v, ¬ wants r [] v) as Hnw by (intros r v (q & Hq & _); by apply elem_of_nil in Hq). split.
  - intros ph k Hq. by apply elem_of_nil in Hq.
  - intros v pg ph Hq. by apply elem_of_nil in Hq.
  - intros v. split; [by left|]. intros [?|(q & Hq & _)]; [done|by apply elem_of_nil in Hq].
  - intros v pg Hv. destruct (Hz v pg Hv) as [-> _]. split; [done|].
    intros [(pg0 & Hp0 & E)|Hw]; [|by apply Hnw in Hw]. destruct (Hz v pg0 Hp0). congruence.
  - intros v pg Hv. destruct (Hz v pg Hv) as [_ ->]. split; [done|].
    intros [(pg0 & Hp0 & E)|Hw]; [|by apply Hnw in Hw]. destruct (Hz v pg0 Hp0). congruence.
Qed.

End whole.
