(* ===== verification/ApxhTree.v ===== *)
(** The S-tree that the boot loader builds in the payload's memory, through the page
    tables: it is words of memory as include/stree.h wants them. *)

From S2P Require Import Prelude Words Locks Machine Hal PageTable Stree Apxh ApxhPt ApxhPages ApxhLoad ApxhCopy.

(** * Words through the page tables *)

Section words.
Context `{!BootArch}.

Lemma must_have_walk s table i p q : walk_step (b_fs s) table i = Some (p, q) → must_have (table + 8 * i) s = Ret (q, s).
Proof.
  intros Hw. assert (pte_getaddr (table + 8 * i) s = Ret (q, s) ∧ q ≠ 0) as [Hg Hq].
  - unfold walk_step, pte_getaddr, pload in *. cbn zeta in Hw. unfold mbind at 1, M_bind at 1.
    destruct (Z.eqb_spec ((table + 8 * i) `mod` 8) 0) as [Ha|]; [|done]. cbn [negb].
    destruct (frame_word _ _ _) as [e|]; [|done].
    cbn [mbind option_bind] in Hw. destruct (Z.eqb_spec (Z.land e 1) 0) as [|Hb]; [done|].
    destruct (Z.eqb_spec (pte_addr_bits e) 0) as [|Hz]; [done|]. by injection Hw as <- <-.
  - unfold must_have. rewrite (bind_Ret _ _ _ _ _ Hg), bind_assert by (apply negb_true_iff; by apply Z.eqb_neq). done.
Qed.

Lemma getphys_walk s va ps p : walk_reads s va = Some (ps, p) → getphys va s = Ret (p, s).
Proof.
  unfold walk_reads, getphys. destruct (walk_step _ _ (L4OFF va)) as [[p4 l3]|] eqn:E4; [|done]. cbn.
  destruct (walk_step _ l3 _) as [[p3 l2]|] eqn:E3; [|done]. cbn.
  destruct (walk_step _ l2 _) as [[p2 l1]|] eqn:E2; [|done]. cbn.
  destruct (walk_step _ l1 _) as [[p1 pg]|] eqn:E1; [|done]. cbn.
  intros [= <- <-]. rewrite bind_gets.
  by rewrite (bind_Ret _ _ _ _ _ (must_have_walk _ _ _ _ _ E4)), (bind_Ret _ _ _ _ _ (must_have_walk _ _ _ _ _ E3)),
    (bind_Ret _ _ _ _ _ (must_have_walk _ _ _ _ _ E2)), (bind_Ret _ _ _ _ _ (must_have_walk _ _ _ _ _ E1)).
Qed.

Lemma addr_parts p q : p `mod` 8 = 0 → q `mod` 8 = 0 → pa_frame p = pa_frame q → pa_word p = pa_word q → p = q.
Proof. unfold pa_frame, pa_word. intros Hp Hq Hf Hw. Z.div_mod_to_equations. lia. Qed.

Lemma update_other fs p v q : p `mod` 8 = 0 → q `mod` 8 = 0 → q ≠ p →
    frame_word (frame_update fs (pa_frame p) (pa_word p) v) (pa_frame q) (pa_word q) = frame_word fs (pa_frame q)
    (pa_word q).
Proof.
  intros Hp Hq Hne. unfold frame_word, frame_update.
  destruct (decide (pa_frame q = pa_frame p)) as [E|E]; [|by rewrite lookup_alter_ne]. rewrite E, lookup_alter_eq.
  destruct (fs !! pa_frame p) as [l|]; [|done]. cbn. apply list_lookup_insert_ne.
  intros Ew. apply Hne, addr_parts; [done|done|done|].
  assert (0 ≤ pa_word p ∧ 0 ≤ pa_word q) as [? ?] by (unfold pa_word; split; by apply Z.mod_pos_bound). lia.
Qed.

Lemma update_this fs p v w : frame_word fs (pa_frame p) (pa_word p) = Some w →
    frame_word (frame_update fs (pa_frame p) (pa_word p) v) (pa_frame p) (pa_word p) = Some v.
Proof.
  unfold frame_word, frame_update. rewrite lookup_alter_eq. destruct (fs !! pa_frame p) as [l|]; [|done]. cbn.
  intros Hl. apply list_lookup_insert_eq. by eapply lookup_lt_Some.
Qed.

Lemma walk_step_update fs table i r p v : walk_step fs table i = Some r → p `mod` 8 = 0 → r.1 ≠ p →
    walk_step (frame_update fs (pa_frame p) (pa_word p) v) table i = Some r.
Proof.
  unfold walk_step. cbn zeta. destruct (Z.eqb_spec ((table + 8 * i) `mod` 8) 0) as [Ha|]; [|done]. intros Hr Hp Hne.
  rewrite update_other; [done|done|done|]. intros <-. destruct (frame_word _ _ _) as [e|]; [|done]. cbn in Hr.
  destruct (_ || _); [done|]. injection Hr as <-. done.
Qed.

Lemma walk_reads_update s va ps a p v : walk_reads s va = Some (ps, a) → p `mod` 8 = 0 → p ∉ ps →
    walk_reads (set_fs (frame_update (b_fs s) (pa_frame p) (pa_word p) v) s) va = Some (ps, a).
Proof.
  unfold walk_reads. destruct (walk_step _ _ (L4OFF va)) as [[p4 l3]|] eqn:E4; [|done]. cbn [mbind option_bind].
  destruct (walk_step _ l3 _) as [[p3 l2]|] eqn:E3; [|done]. cbn [mbind option_bind].
  destruct (walk_step _ l2 _) as [[p2 l1]|] eqn:E2; [|done]. cbn [mbind option_bind].
  destruct (walk_step _ l1 _) as [[p1 pg]|] eqn:E1; [|done]. cbn [mbind option_bind]. intros [= <- <-] Hp Hn.
  rewrite !not_elem_of_cons in Hn. destruct Hn as (N4 & N3 & N2 & N1 & _). cbn [b_fs set_fs root].
  rewrite (walk_step_update _ _ _ _ p v E4 Hp) by (cbn; congruence). cbn [mbind option_bind].
  rewrite (walk_step_update _ _ _ _ p v E3 Hp) by (cbn; congruence). cbn [mbind option_bind].
  rewrite (walk_step_update _ _ _ _ p v E2 Hp) by (cbn; congruence). cbn [mbind option_bind].
  by rewrite (walk_step_update _ _ _ _ p v E1 Hp) by (cbn; congruence).
Qed.

Notation word_at l p := (frame_word (b_fs (l_boot l)) (pa_frame p) (pa_word p)).

(** A word of the tree: its address, and what translates it. *)
Lemma tree_word n l i : 0 ≤ i < Z.of_nat (length (tree_words n l)) → ∃ ws ps p, tree_walks l n = Some ws ∧
    walks_apart ws ∧ mapM (λ p, word_at l p) ws.*2 = Some (tree_words n l) ∧
  ws !! Z.to_nat i = Some (ps, p) ∧ walk_reads (l_boot l) (u64 (req_stree_va l + 8 * i)) = Some (ps, p) ∧
    word_at l p = Some (tree_words n l !!! Z.to_nat i) ∧ p `mod` 8 = 0.
Proof.
  unfold tree_words. destruct (tree_walks l n) as [ws|] eqn:Ew; [|intros Hi; cbn in Hi; lia].
  destruct (decide (walks_apart ws)) as [Ha|]; [|intros Hi; cbn in Hi; lia].
  destruct (mapM _ ws.*2) as [words|] eqn:Er; [|intros Hi; cbn in Hi; lia].
  change (default [] (Some words)) with words. intros Hi. exists ws.
  pose proof (mapM_Some_1 _ _ _ Er) as F1. pose proof (mapM_Some_1 _ _ _ Ew) as F2.
  destruct (lookup_lt_is_Some_2 words (Z.to_nat i)) as [w Hw]; [lia|].
  destruct (Forall2_lookup_r _ _ _ _ _ F1 Hw) as (p & Hp & Hpw).
  apply list_lookup_fmap_Some in Hp as ([ps p'] & -> & Hps).
  exists ps, p'. destruct (Forall2_lookup_r _ _ _ _ _ F2 Hps) as (i' & Hi' & Hwalk).
  apply lookup_seqZ in Hi' as [-> Hi'']. replace (0 + Z.of_nat (Z.to_nat i)) with i in Hwalk by lia.
  rewrite (list_lookup_total_correct _ _ _ Hw).
  split; [done|]. split; [done|]. split; [done|]. split; [done|]. split; [done|]. split; [done|].
  destruct Ha as [_ Hf]. rewrite Forall_forall in Hf. apply (Hf p'). apply list_elem_of_fmap. exists (ps, p').
  split; [done|]. by eapply list_elem_of_lookup_2.
Qed.

Lemma tree_get_run n l i : 0 ≤ i < Z.of_nat (length (tree_words n l)) →
    tree_get i l = Ret (tree_words n l !!! Z.to_nat i, l).
Proof.
  intros Hi. destruct (tree_word n l i Hi) as (ws & ps & p & _ & _ & _ & _ & Hw & Hr & Hp). unfold tree_get.
  rewrite bind_gets. unfold on_boot, zoom. rewrite (bind_Ret _ _ _ _ _ (getphys_walk _ _ _ _ Hw)). unfold pload.
  rewrite Hp, Hr. cbn [Z.eqb negb]. by destruct l.
Qed.

Lemma tree_frame_refl n l : tree_frame n l l.
Proof. exists (b_fs (l_boot l)). split; [by destruct l as [[]]|done]. Qed.

Lemma tree_frame_trans n l1 l2 l3 : tree_frame n l1 l2 → tree_frame n l2 l3 → tree_frame n l1 l3.
Proof.
  intros (fs2 & -> & W2 & O2 & F2) (fs3 & -> & W3 & O3 & F3). exists fs3. split; [done|].
  split; [by rewrite W3, W2|]. split; [auto|]. intros f i Hn. cbn in F3. rewrite F3, F2; [done|done|]. by rewrite W2.
Qed.

(** What holds after a word is stored. *)
Lemma tree_set_run n l i v : 0 ≤ i < Z.of_nat (length (tree_words n l)) → ∃ l', tree_set i v l = Ret (tt, l') ∧
    tree_words n l' = <[Z.to_nat i := v]> (tree_words n l) ∧ tree_frame n l l'.
Proof.
  intros Hi. destruct (tree_word n l i Hi) as (ws & ps & p & Hws & Ha & Hm & Hwi & Hw & Hr & Hp).
  set (l' := set_boot (set_fs (frame_update (b_fs (l_boot l)) (pa_frame p) (pa_word p) v) (l_boot l)) l). exists l'.
  assert (p ∈ ws.*2) as Hpin by (apply list_elem_of_fmap; exists (ps, p); split; [done|];
    by eapply list_elem_of_lookup_2). pose proof Ha as [Hnd Hf]. rewrite Forall_forall in Hf.
  destruct (Hf p Hpin) as [_ Hnot].
  assert (tree_walks l' n = Some ws) as Hws'.
  { unfold tree_walks in *. apply mapM_Some_2. apply mapM_Some_1 in Hws.
    apply Forall2_same_length_lookup_2; [by eapply Forall2_length|]. intros j x r Hx Hr'.
    pose proof (Forall2_lookup_lr _ _ _ _ _ _ Hws Hx Hr') as Hwalk. destruct r as [ps' a'].
    apply walk_reads_update; [done|done|].
    intros Hin. apply Hnot. apply list_elem_of_join. exists ps'. split; [done|]. apply list_elem_of_fmap.
    exists (ps', a'). split; [done|]. by eapply list_elem_of_lookup_2. }
  split; [|split].
  - unfold tree_set. rewrite bind_gets. unfold on_boot, zoom. rewrite (bind_Ret _ _ _ _ _ (getphys_walk _ _ _ _ Hw)).
    unfold pstore. rewrite Hp, Hr. done.
  - unfold tree_words at 1. rewrite Hws', decide_True by done.
    assert (mapM (λ p, word_at l' p) ws.*2 = Some (<[Z.to_nat i := v]> (tree_words n l))) as ->; [|done].
    apply mapM_Some_2. apply mapM_Some_1 in Hm. pose proof (Forall2_length _ _ _ Hm) as Hlen.
    apply Forall2_same_length_lookup_2; [by rewrite length_insert|]. intros j q w Hq Hwj.
    destruct (Hf q) as [Hq8 _]; [by eapply list_elem_of_lookup_2|]. destruct (decide (j = Z.to_nat i)) as [->|Hne].
    + rewrite list_lookup_insert_eq in Hwj by lia. injection Hwj as <-. rewrite list_lookup_fmap, Hwi in Hq.
      injection Hq as <-. by eapply update_this.
    + rewrite list_lookup_insert_ne in Hwj by done. pose proof (Forall2_lookup_lr _ _ _ _ _ _ Hm Hq Hwj) as Hold.
      cbn. rewrite update_other; [done|done|done|]. intros ->. apply Hne. apply (NoDup_lookup _ _ _ _ Hnd Hq).
      by rewrite list_lookup_fmap, Hwi.
  - eexists. split; [done|]. split; [by rewrite Hws', Hws|]. split; [intros g; apply frame_update_ok|].
    intros f j Hn. specialize (Hn ws p Hws Hpin). unfold frame_word, frame_update.
    destruct (decide (pa_frame p = f)) as [<-|E]; [|by rewrite lookup_alter_ne]. rewrite lookup_alter_eq.
    destruct (_ !! pa_frame p) as [ll|]; [|done]. cbn. apply list_lookup_insert_ne. tauto.
Qed.

#[export] Instance tree_mem_laws n : @WordMemLaws loader (tree_mem n).
Proof.
  split.
  - split; [intros l; apply tree_frame_refl|intros l1 l2 l3; apply tree_frame_trans].
  - intros l i Hi. by apply tree_get_run.
  - intros l i v Hi. by apply tree_set_run.
Qed.
End words.

(** * The words are there *)

Section ready.
Context `{!BootArch, !BootCpu, !BootArchOk, !BootMd}.
Context (D : Z → Prop) (HD : ∀ i, D i → index_ok i) (n0 lim : Z).
Notation boot_inv := (boot_inv D n0 lim).

Lemma walk_step_table X pages s q i g f : boot_inv X pages s → node s q = Some g → path_ok D (q ++ [i]) →
    table (top s) (b_fs s) (q ++ [i]) = Some f → walk_step (b_fs s) (4096 * g) i = Some (4096 * g + 8 * i, 4096 * f).
Proof.
  intros Hi Hg Hp Ht. destruct (node_ok D n0 lim X pages s q i g Hi Hg Hp) as (Hgf & _).
  destruct (bi_low _ _ _ _ _ _ Hi _ _ Hp Ht) as [Hf _]. pose proof (link_slot D q i Hp) as Hidx.
  destruct (addr_split g i Hidx) as (Ef & Ei & E8).
  unfold walk_step. cbn zeta. rewrite E8, Ef, Ei. destruct (frame_word_ok _ _ _ Hgf Hidx) as [e He]. rewrite He.
  cbn [Z.eqb mbind option_bind]. rewrite (node_snoc s q i g Hg) in Ht. unfold entry in Ht. rewrite He in Ht.
  cbn in Ht. unfold sub_table in Ht. destruct (pte_present e) eqn:Hpres; [|done]. injection Ht as Ht.
  cbn in Hpres. apply andb_prop in Hpres as [Hb _]. apply negb_true_iff in Hb. rewrite Hb.
  destruct (addr_page e) as [k Hk].
  assert (pte_addr_bits e = 4096 * f) as -> by (cbn in Ht; rewrite Hk, Z.div_mul in Ht by lia; lia).
  unfold pfn_ok in Hf. by rewrite (proj2 (Z.eqb_neq (4096 * f) 0)) by lia.
Qed.

(** Entries of tables. *)
Definition table_addr (s : boot) (q : Z) : Prop := ∃ g j, index_ok j ∧ q = 4096 * g + 8 * j ∧
    (g = root_pfn s ∨ ∃ p, path_ok D p ∧ table (top s) (b_fs s) p = Some g).

Lemma walk_reads_run X pages s va pg : boot_inv X pages s → pages !! vpn va = Some pg →
    ∃ ps, walk_reads s va = Some (ps, 4096 * pg_frame pg + va `mod` 4096) ∧ Forall (table_addr s) ps.
Proof.
  intros Hi Hv. destruct (page_table_there D n0 lim X pages s va pg Hi Hv) as [Hd [f Ht]].
  destruct (path_tables D n0 lim X pages s va f Hi Ht) as (f4 & f3 & H4 & H3).
  destruct (off_range va) as (I4 & I3 & I2 & I1). destruct (root_node D n0 lim X pages s Hi) as [Hr Hn].
  assert (path_ok D [L4OFF va]) as P4 by (by apply path_ok_one).
  assert (path_ok D [L4OFF va; L3OFF va]) as P3 by (apply (path_ok_snoc D [L4OFF va]); [done|done|cbn; lia]).
  unfold walk_reads. rewrite Hr, (walk_step_table X pages s [] (L4OFF va) _ f4 Hi Hn P4 H4). cbn [mbind option_bind].
  rewrite (walk_step_table X pages s [L4OFF va] (L3OFF va) f4 f3 Hi H4 P3 H3). cbn [mbind option_bind].
  rewrite (walk_step_table X pages s [L4OFF va; L3OFF va] (L2OFF va) f3 f Hi H3 (va_path D va Hd) Ht).
  cbn [mbind option_bind].
  destruct (so_frame _ _ _ _ (bi_space _ _ _ _ _ _ Hi) _ _ (va_path D va Hd) Ht) as [Hfo _].
  destruct (addr_split f (L1OFF va) I1) as (Ef & Ei & E8). unfold walk_step. cbn zeta. rewrite E8, Ef, Ei.
  destruct (frame_word_ok _ _ _ Hfo I1) as [e He]. rewrite He. cbn [Z.eqb mbind option_bind].
  pose proof (page_entry D n0 lim X pages s va f pg Hi Hd Ht Hv) as Hent. unfold entry in Hent. rewrite He in Hent.
  cbn in Hent. destruct (bi_page _ _ _ _ _ _ Hi _ _ Hv) as (Hok & _).
  destruct (page_pte (pg_frame pg) (pg_u pg) (pg_w pg) (pg_x pg) Hok) as (Hb & Ha & _).
  subst e. unfold page_pte_of in *. rewrite (proj2 (Z.eqb_neq _ _) Hb), Ha. unfold pfn_ok in Hok.
  rewrite (proj2 (Z.eqb_neq (4096 * pg_frame pg) 0)) by lia. cbn [orb mbind option_bind]. rewrite page_offset.
  eexists. split; [done|].
  repeat (apply Forall_cons; split); [| | | |done]; eexists _, _; (split; [|split; [reflexivity|]]);
    [done|by left|done|right; by exists [L4OFF va]|done|right; by exists [L4OFF va; L3OFF va]|done|right;
    exists [L4OFF va; L3OFF va; L2OFF va]; split; [by apply va_path|done]].
Qed.

Lemma page_address a b : vpn a = vpn b → a `mod` 4096 = b `mod` 4096 → a `mod` 2 ^ 48 = b `mod` 2 ^ 48.
Proof. unfold vpn. intros E1 E2. change (2 ^ 48) with (4096 * 2 ^ 36). rewrite !Z.rem_mul_r by lia. by rewrite E1, E2. Qed.

Section area.
Context (X : Z → Prop) (pages : gmap Z page) (l : loader) (n : nat).
Notation s := (l_boot l).
Notation base := (req_stree_va l).
Context (Hinv : boot_inv X pages s) (Hb : 0 ≤ base) (Hb8 : base `mod` 8 = 0) (Hend : base + 8 * Z.of_nat n ≤ 2 ^ 64)
    (Hn : 8 * Z.of_nat n ≤ 2 ^ 47).
Context (Hmap : ∀ i, 0 ≤ i < Z.of_nat n → is_Some (pages !! vpn (base + 8 * i))).

Lemma tree_walks_there : ∃ ws, tree_walks l n = Some ws ∧ length ws = n ∧
  ∀ (k : nat) r, ws !! k = Some r → ∃ pg, (k < n)%nat ∧ pages !! vpn (base + 8 * Z.of_nat k) = Some pg ∧
    r.2 = 4096 * pg_frame pg + (base + 8 * Z.of_nat k) `mod` 4096 ∧ Forall (table_addr s) r.1.
Proof.
  unfold tree_walks. assert (is_Some (mapM (λ i, walk_reads s (u64 (base + 8 * i))) (seqZ 0 (Z.of_nat n)))) as [ws Hws].
  { apply mapM_is_Some_2. apply Forall_forall. intros i Hi%elem_of_seqZ.
    change (is_Some (walk_reads s (u64 (base + 8 * i)))). destruct (Hmap i) as [pg Hpg]; [lia|].
    assert (u64 (base + 8 * i) = base + 8 * i) as -> by (apply Z.mod_small; lia).
    destruct (walk_reads_run X pages s _ pg Hinv Hpg) as (ps & -> & _). by eexists. }
  exists ws. split; [done|]. pose proof (mapM_Some_1 _ _ _ Hws) as F.
  split; [rewrite <- (Forall2_length _ _ _ F), length_seqZ; lia|]. intros k r Hk.
  destruct (Forall2_lookup_r _ _ _ _ _ F Hk) as (i & Hi & Hr). apply lookup_seqZ in Hi as [-> Hi].
  replace (0 + Z.of_nat k) with (Z.of_nat k) in * by lia. destruct (Hmap (Z.of_nat k)) as [pg Hpg]; [lia|].
  exists pg. split; [lia|]. split; [done|].
  assert (u64 (base + 8 * Z.of_nat k) = base + 8 * Z.of_nat k) as E by (apply Z.mod_small; lia). rewrite E in Hr.
  destruct (walk_reads_run X pages s _ pg Hinv Hpg) as (ps & Hps & Hf). rewrite Hps in Hr. injection Hr as <-. done.
Qed.

Lemma page_addr_inj f f' o o' : 0 ≤ o < 4096 → 0 ≤ o' < 4096 → 4096 * f + o = 4096 * f' + o' → f = f' ∧ o = o'.
Proof. intros. lia. Qed.

Lemma tree_apart ws : tree_walks l n = Some ws → walks_apart ws.
Proof.
  intros Hws. destruct tree_walks_there as (ws' & Hws' & Hlen & Hwalk). assert (ws' = ws) as -> by congruence.
  assert (∀ a, 0 ≤ a `mod` 4096 < 4096) as Hm by (intros a; by apply Z.mod_pos_bound). split.
  - apply NoDup_alt. intros i j p Hi Hj. apply list_lookup_fmap_Some in Hi as (ri & -> & Hi).
    apply list_lookup_fmap_Some in Hj as (rj & E & Hj). destruct (Hwalk i ri Hi) as (pi & Hin & Hpi & Ei & _).
    destruct (Hwalk j rj Hj) as (pj & Hjn & Hpj & Ej & _). rewrite Ei, Ej in E.
    destruct (page_addr_inj _ _ _ _ (Hm _) (Hm _) E) as [Ef Eo].
    pose proof (bi_inj _ _ _ _ _ _ Hinv _ _ _ _ Hpi Hpj Ef) as Ev. pose proof (page_address _ _ Ev Eo) as Ea.
    set (x := base) in *. assert ((8 * (Z.of_nat i - Z.of_nat j)) `mod` 2 ^ 48 = 0) as E0.
    { replace (8 * (Z.of_nat i - Z.of_nat j)) with (x + 8 * Z.of_nat i - (x + 8 * Z.of_nat j)) by lia.
      rewrite Zminus_mod, Ea, Z.sub_diag. done. }
    apply Z.mod_divide in E0 as [k Hk]; [|done]. assert (k = 0) as -> by lia. lia.
  - apply Forall_forall. intros p Hp. apply list_elem_of_fmap in Hp as (r & -> & Hr).
    apply list_elem_of_lookup in Hr as [k Hk]. destruct (Hwalk k r Hk) as (pg & Hkn & Hpg & E & _). rewrite E. split.
    + rewrite Z.add_mod, (Z.mul_mod 4096) by lia. change (4096 `mod` 8) with 0.
      rewrite Z.mul_0_l, Z.mod_0_l, Z.add_0_l, Z.mod_mod by lia. change 4096 with (8 * 512).
      rewrite Z.rem_mul_r by lia.
      rewrite Z.add_mod, Z.mul_mod, Z.mod_same, Z.mul_0_l, Z.mod_0_l, Z.add_0_r, !Z.mod_mod by lia.
      rewrite Z.add_mod, Hb8, Z.mul_mod, Z.mod_same by lia. done.
    + intros Hin. apply list_elem_of_join in Hin as (ps & Hin & Hps).
      apply list_elem_of_fmap in Hps as (r' & -> & Hr'). apply list_elem_of_lookup in Hr' as [k' Hk'].
      destruct (Hwalk k' r' Hk') as (_ & _ & _ & _ & Hf). rewrite Forall_forall in Hf.
      destruct (Hf _ Hin) as (g & j & Hj & Eg & Hg). unfold index_ok in Hj.
      destruct (page_addr_inj (pg_frame pg) g _ (8 * j) (Hm _) ltac:(lia) Eg) as [<- _].
      destruct Hg as [Hg|(q & Hq & Hg)];
        [by destruct (bi_page _ _ _ _ _ _ Hinv _ _ Hpg)
        as (_ & _ & ? & _)|by apply (page_not_table D n0 lim X pages s _ pg q Hinv Hpg Hq)].
Qed.

(** The word at an address. *)
Definition vword (va : Z) : option Z := pg ← pages !! vpn va; frame_word (b_fs s) (pg_frame pg) ((va `mod` 4096) `div` 8).

Lemma tree_words_there : length (tree_words n l) = n ∧ ∀ k : nat, (k < n)%nat →
    tree_words n l !! k = vword (base + 8 * Z.of_nat k).
Proof.
  destruct tree_walks_there as (ws & Hws & Hlen & Hwalk). unfold tree_words.
  rewrite Hws, decide_True by (by apply tree_apart).
  assert (∀ a, 0 ≤ a `mod` 4096 < 4096) as Hm by (intros a; by apply Z.mod_pos_bound).
  assert (∀ k r, ws !! k = Some r →
    frame_word (b_fs s) (pa_frame r.2) (pa_word r.2) = vword (base + 8 * Z.of_nat k) ∧
    is_Some (vword (base + 8 * Z.of_nat k))) as Hval.
  { intros k r Hk. destruct (Hwalk k r Hk) as (pg & _ & Hpg & -> & _).
    destruct (byte_addr (pg_frame pg) _ (Hm (base + 8 * Z.of_nat k))) as (-> & -> & _ & Hidx). unfold vword.
    rewrite Hpg. cbn [mbind option_bind]. split; [done|].
    apply frame_word_ok; [by apply (bi_page _ _ _ _ _ _ Hinv _ _ Hpg)|done]. }
  assert (is_Some (mapM (λ p, frame_word (b_fs s) (pa_frame p) (pa_word p)) ws.*2)) as [words Hwords].
  { apply mapM_is_Some_2, Forall_forall. intros p Hp. apply list_elem_of_fmap in Hp as (r & -> & Hr).
    apply list_elem_of_lookup in Hr as [k Hk]. destruct (Hval k r Hk) as [E Hs].
    change (is_Some (frame_word (b_fs s) (pa_frame r.2) (pa_word r.2))). by rewrite E. }
  rewrite Hwords. change (default [] (Some words)) with words. pose proof (mapM_Some_1 _ _ _ Hwords) as F.
  pose proof (Forall2_length _ _ _ F) as Hl. rewrite length_fmap in Hl. split; [lia|].
  intros k Hk. destruct (lookup_lt_is_Some_2 words k) as [w Hw]; [lia|]. rewrite Hw.
  destruct (Forall2_lookup_r _ _ _ _ _ F Hw) as (p & Hp & Hpw). apply list_lookup_fmap_Some in Hp as (r & -> & Hr).
  destruct (Hval k r Hr) as [<- _]. done.
Qed.
End area.
End ready.
