(* ===== verification/ApxhStree.v ===== *)
(** The S-tree that the payload gets: the frames of memory that are neither reserved nor
    part of the payload. *)

From S2P Require Import Prelude Words Locks Machine Hal PageTable Stree Apxh ApxhPt ApxhPages ApxhLoad ApxhCopy ApxhTree.

(** * Loops that change a set *)

(** The elements [hit] go in, or out. *)
Definition sets (b : bool) (hit : Z → Prop) (Y Y' : gset Z) : Prop := ∀ a, a ∈ Y' ↔ hit a ∧ b = true ∨ ¬ hit a ∧ a ∈ Y.

Lemma sets_none b Y : sets b (λ _, False) Y Y.
Proof. intros a. tauto. Qed.

Lemma sets_trans b h1 h2 Y1 Y2 Y3 : (∀ a, h2 a ∨ ¬ h2 a) → sets b h1 Y1 Y2 → sets b h2 Y2 Y3 →
    sets b (λ a, h1 a ∨ h2 a) Y1 Y3.
Proof. intros Hd A B a. rewrite (B a), (A a). destruct (Hd a); tauto. Qed.

Lemma sets_ext b h h' Y Y' : (∀ a, h a ↔ h' a) → sets b h Y Y' → sets b h' Y Y'.
Proof. intros E A a. rewrite (A a), (E a). done. Qed.

Section loops.
Context (o : Z) (I : gset Z → loader → Prop).

(** A step that puts one element in, or out. *)
Definition sets_one (b : bool) (body : Z → M loader unit) : Prop :=
  ∀ f Y l, 0 ≤ f < 2 ^ o → I Y l → ∃ l' Y', body f l = Ret (tt, l') ∧ I Y' l' ∧ sets b (λ a, a = f) Y Y'.

Definition in_region (reg : region) (f : Z) : Prop := reg_pfn reg ≤ f < reg_pfn reg + reg_len reg.

Record region_ok (max : Z) (reg : region) : Prop := {
  rg_pos : 0 ≤ reg_pfn reg ∧ 0 ≤ reg_len reg ∧ reg_pfn reg + reg_len reg ≤ 2 ^ 32;
  rg_tree f : in_region reg f → f ≤ max → f < 2 ^ o;
}.

Lemma region_frames_run b body reg max Y l : sets_one b body → region_ok max reg → I Y l →
    ∃ l' Y', region_frames reg max body l = Ret (tt, l') ∧ I Y' l' ∧ sets b (λ a, in_region reg a ∧ a ≤ max) Y Y'.
Proof.
  intros Hone [(Hp & Hl & H32) Htree] HI.
  set (f := λ j, let frame := u32 (reg_pfn reg + j) in if max <? frame then mret (Some tt) else body frame;;
    mret None).
  assert (∀ (k : nat) j Y l, 0 ≤ j → j + Z.of_nat k ≤ reg_len reg → I Y l →
    ∃ r l' Y', for_find (seqZ j (Z.of_nat k)) f l = Ret (r, l') ∧ I Y' l' ∧
    sets b (λ a, reg_pfn reg + j ≤ a < reg_pfn reg + j + Z.of_nat k ∧ a ≤ max) Y Y') as Hloop.
  { clear Y l HI. induction k as [|k IH]; intros j Y l Hj Hk HI.
    - exists None, l, Y. split; [done|]. split; [done|]. apply (sets_ext b (λ _, False)); [|apply sets_none].
      intros a. split; [done|lia].
    - rewrite seqZ_cons by lia. cbn [for_find].
      assert (f j = if max <? reg_pfn reg + j then mret (Some tt) else body (reg_pfn reg + j);; mret None) as ->
        by (unfold f; cbn zeta; by replace (u32 (reg_pfn reg + j)) with (reg_pfn reg + j) by (symmetry;
        apply Z.mod_small; lia)). destruct (Z.ltb_spec max (reg_pfn reg + j)) as [Hm|Hm].
      + eexists _, l, Y. split; [reflexivity|]. split; [done|]. apply (sets_ext b (λ _, False)); [|apply sets_none].
        intros a. split; [done|lia].
      + destruct (Hone (reg_pfn reg + j) Y l) as (l1 & Y1 & Hr1 & HI1 & Hs1);
          [split; [lia|apply Htree; [unfold in_region; lia|done]]|done|].
        rewrite bind_assoc, (bind_Ret _ _ _ _ _ Hr1), (bind_Ret _ _ _ _ _ eq_refl).
        replace (Z.pred (Z.of_nat (S k))) with (Z.of_nat k) by lia. replace (Z.succ j) with (j + 1) by lia.
        destruct (IH (j + 1) Y1 l1) as (r & l2 & Y2 & Hr2 & HI2 & Hs2); [lia|lia|done|]. exists r, l2, Y2.
        split; [done|]. split; [done|].
        refine (sets_ext b _ _ Y Y2 _ (sets_trans b _ _ Y Y1 Y2 _ Hs1 Hs2));
          [intros a; cbn beta; lia|intros a; cbn beta; lia]. }
  destruct (Hloop (Z.to_nat (reg_len reg)) 0 Y l) as (r & l' & Y' & Hr & HI' & Hs); [done|lia|done|].
  rewrite Z2Nat.id in * by done. exists l', Y'.
  split; [unfold region_frames; fold f; by rewrite (bind_Ret _ _ _ _ _ Hr)|]. split; [done|].
  refine (sets_ext b _ _ Y Y' _ Hs). intros a. unfold in_region. lia.
Qed.

Definition in_regions (sel : region → bool) (regs : list region) (a : Z) : Prop := ∃ reg, reg ∈ regs ∧
    sel reg = true ∧ in_region reg a.

Lemma in_regions_dec sel regs a : in_regions sel regs a ∨ ¬ in_regions sel regs a.
Proof.
  induction regs as [|reg regs IH]; [right; intros (r & Hr & _); by apply elem_of_nil in Hr|].
  destruct IH as [(r & Hr & Hs & Hi)|Hn]; [left; exists r; split; [by right|done]|].
  destruct (decide (sel reg = true ∧ reg_pfn reg ≤ a < reg_pfn reg + reg_len reg)) as [[Hs Hi]|Hn'].
  - left. exists reg. split; [by left|done].
  - right. intros (r & Hr & Hs & Hi). apply elem_of_cons in Hr as [->|Hr]; [by apply Hn'|]. apply Hn. by exists r.
Qed.

Lemma regions_run b body sel max regs : ∀ Y l, sets_one b body → Forall (region_ok max) regs → I Y l →
  ∃ l' Y', for_each regs (λ reg, when (sel reg) (region_frames reg max body)) l = Ret (tt, l') ∧ I Y' l' ∧
    sets b (λ a, in_regions sel regs a ∧ a ≤ max) Y Y'.
Proof.
  induction regs as [|reg regs IH]; intros Y l Hone Hok HI.
  - exists l, Y. split; [done|]. split; [done|]. apply (sets_ext b (λ _, False)); [|apply sets_none]. intros a.
    split; [done|]. intros [(r & Hr & _) _]. by apply elem_of_nil in Hr.
  - apply Forall_cons in Hok as [Hreg Hok]. cbn [for_each].
    assert (∃ l1 Y1, when (sel reg) (region_frames reg max body) l = Ret (tt, l1) ∧ I Y1 l1 ∧
      sets b (λ a, sel reg = true ∧ in_region reg a ∧ a ≤ max) Y Y1) as (l1 & Y1 & Hr1 & HI1 & Hs1).
    { destruct (sel reg); cbn [when].
      - destruct (region_frames_run b body reg max Y l Hone Hreg HI) as (l1 & Y1 & Hr1 & HI1 & Hs1). exists l1, Y1.
        split; [done|]. split; [done|]. refine (sets_ext b _ _ Y Y1 _ Hs1). intros a. cbn beta. tauto.
      - exists l, Y. split; [done|]. split; [done|]. apply (sets_ext b (λ _, False)); [|apply sets_none]. intros a.
        split; [done|]. by intros [? _]. }
    rewrite (bind_Ret _ _ _ _ _ Hr1). destruct (IH Y1 l1 Hone Hok HI1) as (l2 & Y2 & Hr2 & HI2 & Hs2). exists l2, Y2.
    split; [done|]. split; [done|]. refine (sets_ext b _ _ Y Y2 _ (sets_trans b _ _ Y Y1 Y2 _ Hs1 Hs2)).
    + intros a. cbn beta. split.
      * intros [(Hs & Hi & Hm)|[(r & Hr & Hs & Hi) Hm]]; (split; [|done]);
          [exists reg; split; [by left|done]|exists r; split; [by right|done]].
      * intros [(r & Hr & Hs & Hi) Hm]. apply elem_of_cons in Hr as [->|Hr]; [by left|right; split; [by exists r|done]].
    + intros a. cbn beta. destruct (in_regions_dec sel regs a); destruct (Z.le_gt_cases a max);
        [left; done|right|right|right]; intros [? ?]; done || lia.
Qed.
End loops.

(** * The words of a tree *)

Lemma word_zero w : word64 w → (∀ k, 0 ≤ k < 8 → word_byte w k = 0) → w = 0.
Proof.
  intros Hw Hb. apply Z.bits_inj'. intros i Hi. rewrite Z.testbit_0_l.
  destruct (Z.lt_ge_cases i 64) as [Hl|Hl]; [|unfold word64 in Hw; rewrite <- (Z.mod_small w (2 ^ 64)) by lia;
    by rewrite Z.mod_pow2_bits_high by lia].
  assert (0 ≤ i `mod` 8 < 8) by (by apply Z.mod_pos_bound).
  assert (0 ≤ i `div` 8 < 8) as Hk by (Z.div_mod_to_equations; lia). specialize (Hb _ Hk).
  unfold word_byte, u8 in Hb. change 256 with (2 ^ 8) in Hb.
  assert (Z.testbit (Z.shiftr w (8 * (i `div` 8)) `mod` 2 ^ 8) (i `mod` 8) = false) as Ht by (rewrite Hb;
    apply Z.testbit_0_l). rewrite Z.mod_pow2_bits_low, Z.shiftr_spec in Ht by lia.
  by replace (i `mod` 8 + 8 * (i `div` 8)) with i in Ht by (Z.div_mod_to_equations; lia).
Qed.

(** Every word belongs to a level. *)
Lemma all_valid o i : order_ok o → 0 ≤ i < STREE_SIZE o → ∃ l k, valid_word o l k ∧ i = loff o l + k.
Proof.
  intros Ho Hi. pose proof (levels_bounds o Ho) as [Hlv _].
  assert (loff o (LOGWORD o - 1) + lsize o (LOGWORD o - 1) = STREE_SIZE o ∧ loff o 0 = 0) as [Htop H0].
  { assert (Forall (λ o, loff o (LOGWORD o - 1) + lsize o (LOGWORD o - 1) = STREE_SIZE o ∧ loff o 0 = 0) (seqZ 1 25))
      as Hc by (apply (bool_decide_unpack _); vm_compute; done). rewrite Forall_seqZ in Hc. apply Hc.
    unfold order_ok in Ho. lia. }
  assert (∀ m : nat, Z.of_nat m < LOGWORD o → i < loff o (Z.of_nat m) + lsize o (Z.of_nat m) →
    ∃ l k, valid_word o l k ∧ i = loff o l + k) as Hind.
  { induction m as [|m IH]; intros Hm Him.
    - exists 0, i. change (Z.of_nat 0) with 0 in Him. rewrite H0 in *. split; [split; lia|lia].
    - destruct (Z.lt_ge_cases i (loff o (Z.of_nat (S m)))) as [Hlt|Hge].
      + apply IH; [lia|]. rewrite (loff_next o (Z.of_nat m) Ho) by lia.
        by replace (Z.of_nat m + 1) with (Z.of_nat (S m)) by lia.
      + exists (Z.of_nat (S m)), (i - loff o (Z.of_nat (S m))). split; [split; [lia|lia]|lia]. }
  apply (Hind (Z.to_nat (LOGWORD o - 1))); [lia|]. rewrite Z2Nat.id by lia. lia.
Qed.

Lemma represents_word64 o ws Y : order_ok o → represents o ws Y → Z.of_nat (length ws) = STREE_SIZE o → Forall word64 ws.
Proof.
  intros Ho [Hinv _] Hlen. apply Forall_lookup. intros i w Hw. pose proof (lookup_lt_Some _ _ _ Hw).
  destruct (all_valid o (Z.of_nat i) Ho) as (l & k & Hv & E); [lia|]. pose proof (si_word _ _ Hinv l k Hv) as Hww.
  unfold W in Hww. rewrite <- E, Nat2Z.id in Hww. by rewrite (list_lookup_total_correct _ _ _ Hw) in Hww.
Qed.

(** * Building the tree *)

Section stree.
Context `{!BootArch, !BootCpu, !BootArchOk, !BootMd}.
Context (D : Z → Prop) (HD : ∀ i, D i → index_ok i) (n0 lim : Z).
Notation boot_inv := (boot_inv D n0 lim).

Lemma vword_zero X pages l a : boot_inv X pages (l_boot l) → a `mod` 8 = 0 →
    (∀ k, 0 ≤ k < 8 → vbyte pages (l_boot l) (a + k) = Some 0) → vword pages l a = Some 0.
Proof.
  intros Hi Ha Hb. assert (0 ≤ a `mod` 4096 < 4096) as Hm by (by apply Z.mod_pos_bound).
  destruct (Z.mod_divide a 8 ltac:(lia)) as [Hdv _]. destruct (Hdv Ha) as [q Hq].
  assert ((a `mod` 4096) `mod` 8 = 0) as Hm8 by (subst a; Z.div_mod_to_equations; lia).
  assert (∀ k, 0 ≤ k < 8 → vpn (a + k) = vpn a ∧ (a + k) `mod` 4096 = a `mod` 4096 + k) as Hk by (intros k Hk;
    unfold vpn; assert ((a + k) `div` 4096 = a `div` 4096 ∧ (a + k) `mod` 4096 = a `mod` 4096 + k) as [-> ->]
    by (subst a; Z.div_mod_to_equations; lia); done).
  pose proof (Hb 0 ltac:(lia)) as Hb0. rewrite Z.add_0_r in Hb0. destruct (vbyte_some _ _ _ _ Hb0) as [pg Hpg].
  unfold vword. rewrite Hpg. cbn [mbind option_bind]. destruct (bi_page _ _ _ _ _ _ Hi _ _ Hpg) as (_ & _ & _ & Hf).
  destruct (byte_addr (pg_frame pg) _ Hm) as (_ & _ & _ & Hidx). destruct (frame_word_ok _ _ _ Hf Hidx) as [w Hw].
  rewrite Hw. f_equal. apply word_zero; [by apply (bi_words _ _ _ _ _ _ Hi (vpn a) pg ((a `mod` 4096) `div` 8))|].
  intros k Hkr. destruct (Hk k Hkr) as [Ev Em]. specialize (Hb k Hkr). unfold vbyte in Hb. rewrite Ev, Hpg in Hb.
  cbn [mbind option_bind] in Hb. rewrite Em in Hb. unfold frame_byte in Hb.
  destruct (byte_addr (pg_frame pg) (a `mod` 4096 + k)) as (Ef & Ew & E8 & _); [Z.div_mod_to_equations; lia|].
  rewrite Ef, Ew, E8 in Hb.
  replace ((a `mod` 4096 + k) `div` 8) with ((a `mod` 4096) `div` 8) in Hb by (Z.div_mod_to_equations; lia).
  rewrite Hw in Hb. cbn in Hb. injection Hb as Hb.
  by replace ((a `mod` 4096 + k) `mod` 8) with k in Hb by (Z.div_mod_to_equations; lia).
Qed.

(** Writing words of the tree leaves the page tables as they are. *)
Lemma tree_frame_inv X pages l l' n : boot_inv X pages (l_boot l) → 0 ≤ req_stree_va l → req_stree_va l `mod` 8 = 0 →
    req_stree_va l + 8 * Z.of_nat n ≤ 2 ^ 64 → 8 * Z.of_nat n ≤ 2 ^ 47 →
  (∀ i, 0 ≤ i < Z.of_nat n → is_Some (pages !! vpn (req_stree_va l + 8 * i))) → tree_frame n l l' →
    length (tree_words n l') = n → Forall word64 (tree_words n l') → boot_inv X pages (l_boot l').
Proof.
  intros Hi Hb Hb8 Hend Hn Hmap (fs' & -> & Hws' & Hfr & Hsame) Hlen Hwd.
  destruct (tree_walks_there D n0 lim X pages l n Hi Hb Hend Hmap) as (ws & Hws & Hlw & Hwalk).
  set (l' := set_boot (set_fs fs' (l_boot l)) l) in *. rewrite Hws in Hws'. cbn [l_boot set_boot l'].
  assert (∀ p, p ∈ ws.*2 → ∃ v pg, pages !! v = Some pg ∧ pg_frame pg = pa_frame p) as Hpage.
  { intros p Hp. apply list_elem_of_fmap in Hp as (r & -> & Hr). apply list_elem_of_lookup in Hr as [k Hk].
    destruct (Hwalk k r Hk) as (pg & _ & Hpg & -> & _). exists (vpn (req_stree_va l + 8 * Z.of_nat k)), pg.
    split; [done|]. symmetry. apply (byte_addr (pg_frame pg)). by apply Z.mod_pos_bound. }
  apply data_inv; [done|split; [done|]|].
  - intros g i Hg. apply Hsame. intros ws' p Hws'' Hp [E _]. assert (ws' = ws) as -> by congruence. apply Hg.
    rewrite <- E. by apply Hpage.
  - intros v pg i w Hv Hw. destruct (decide (Exists (λ p, pa_frame p = pg_frame pg ∧
      Z.to_nat (pa_word p) = Z.to_nat i) ws.*2)) as [Hex|Hex].
    + apply Exists_exists in Hex as (p & Hp & Ef & Ei).
      assert (tree_words n l' ≠ []) as Hne by (destruct n; [|intros E; by rewrite E in Hlen]; destruct ws;
        [by apply elem_of_nil in Hp|done]).
      unfold tree_words in Hwd, Hne. rewrite Hws' in Hwd, Hne. destruct (decide (walks_apart ws)); [|done].
      destruct (mapM _ ws.*2) as [words|] eqn:Em; [|done]. change (Forall word64 words) in Hwd.
      apply mapM_Some_1 in Em. apply list_elem_of_lookup in Hp as [k Hk].
      destruct (Forall2_lookup_l _ _ _ _ _ Em Hk) as (w' & Hw' & Hr). rewrite Forall_lookup in Hwd.
      specialize (Hwd k w' Hw'). cbn in Hr. unfold frame_word in Hr, Hw. rewrite Ef, Ei in Hr. congruence.
    + rewrite Hsame in Hw; [by apply (bi_words _ _ _ _ _ _ Hi v pg i)|]. intros ws' p Hws'' Hp Hbad.
      assert (ws' = ws) as -> by congruence. apply Hex, Exists_exists. eauto.
Qed.

Lemma on_boot_run {A} (m : M boot A) l a s' : m (l_boot l) = Ret (a, s') → on_boot m l = Ret (a, set_boot s' l).
Proof. intros Hm. unfold on_boot, zoom. by rewrite Hm. Qed.

Lemma tree_size o : order_ok o → 1 ≤ STREE_SIZE o ≤ 2 ^ 20.
Proof.
  intros Ho. assert (Forall (λ o, 1 ≤ STREE_SIZE o ≤ 2 ^ 20) (seqZ 1 25)) as Hc by (apply (bool_decide_unpack _);
    vm_compute; done). rewrite Forall_seqZ in Hc. apply Hc. unfold order_ok in Ho. lia.
Qed.

Lemma le_bytes_ok n v : length (le_bytes n v) = n ∧ Forall (λ b, 0 ≤ b < 256) (le_bytes n v).
Proof. unfold le_bytes. rewrite length_fmap, length_seq. split; [done|]. apply Forall_fmap, Forall_forall.
  intros k _. by apply Z.mod_pos_bound. Qed.

Lemma hdr_ok o : length (stree_hdr_bytes o) = 16%nat ∧ Forall (λ b, 0 ≤ b < 256) (stree_hdr_bytes o).
Proof. unfold stree_hdr_bytes. rewrite !length_app, !Forall_app, !(proj1 (le_bytes_ok _ _)).
  split_and!; [done|apply le_bytes_ok..]. Qed.

Lemma npages_small va size : 0 ≤ size ≤ 4096 → npages va size ≤ 2.
Proof. intros Hs. unfold npages. destruct (Z.ltb_spec 0 size); [|lia]. Z.div_mod_to_equations. lia. Qed.

Lemma in_pages_of va len a : va ≤ a < va + len → pages_of va len (vpn a).
Proof. intros Ha. exists (a `div` 4096). split_and!; [Z.div_mod_to_equations; lia|Z.div_mod_to_equations; lia|lia|done]. Qed.

(** What va_stree wants of the place for a tree of order [o]. *)
Record tree_place (X : Z → Prop) (o : Z) (pages : gmap Z page) (s : boot) (va : Z) : Prop := {
  tp_va : 0 ≤ va ∧ md_floor ≤ va ∧ va `mod` 8 = 0;
  tp_end : va + (8 * STREE_SIZE o + 16) + 4096 ≤ 2 ^ 64;
  tp_room : room lim (4 * npages va (8 * STREE_SIZE o + 16) + 8) s;
  tp_free v : pages_of va (8 * STREE_SIZE o + 16) v → X v ∧ pages !! v = None;
}.

Lemma tree_area X o pages s va : boot_inv X pages s → order_ok o → tree_place X o pages s va →
  ∃ s1 pages2 s2, va_populate va (8 * STREE_SIZE o + 16) false true false s = Ret (tt, s1) ∧
    va_copy va (stree_hdr_bytes o) 16 false true false s1 = Ret (tt, s2) ∧
    boot_inv X pages2 s2 ∧ minramaddr s2 = minramaddr s ∧ (∀ a, va + 16 ≤ a < va + (8 * STREE_SIZE o + 16) →
      vbyte pages2 s2 a = Some 0).
Proof.
  intros Hi Ho [(Hva & Hfl & _) Hend Hr Hfree]. pose proof (tree_size o Ho) as Hsz.
  set (sz := 8 * STREE_SIZE o + 16) in *.
  assert (0 ≤ npages va sz) as Hnp by (unfold npages; destruct (Z.ltb_spec 0 sz); [Z.div_mod_to_equations; lia|lia]).
  destruct (va_populate_run D HD n0 lim X pages s va sz false true false Hi)
    as (pages1 & s1 & Hr1 & Hi1 & Hu1 & Hp1);
    [split; [done|unfold sz in *; lia|refine (room_less lim _ _ s _ Hr); lia|intros v;
    apply Hfree|intros v pg Hv Hpg; by rewrite (proj2 (Hfree v Hv)) in Hpg]|].
  destruct (hdr_ok o) as [Hl Hb].
  assert (∀ v, pages_of va 16 v → pages_of va sz v) as Hsub by (intros v (k & H1' & H2' & H3' & ->); exists k;
    split_and!; try done; unfold sz; lia).
  destruct (va_copy_run D HD n0 lim X pages1 s1 va (stree_hdr_bytes o) 16 false true false Hi1)
    as (pages2 & s2 & Hr2 & Hi2 & [Hm2 _] & Hg2 & Hp2); [|lia|done|].
  - split; [done|lia| |intros v Hv; by apply Hfree, Hsub|].
    + pose proof (npages_small va 16 ltac:(lia)). refine (room_less lim 8 _ s1 _ _); [lia|]. apply Hu1; [lia|].
      by rewrite Z.add_comm.
    + intros v pg Hv Hpg. pose proof (gr_fresh _ _ _ _ _ _ (po_grants _ _ _ _ _ _ _ _ Hp1) v (Hsub v Hv)
        (proj2 (Hfree v (Hsub v Hv)))) as Hrg. rewrite Hpg in Hrg. by injection Hrg.
  - exists s1, pages2, s2. split; [done|]. split; [done|]. split; [done|]. split; [by rewrite Hm2, (proj1 Hu1)|].
    intros a Ha. apply (pu_old _ _ _ _ _ _ _ Hp2); [|rewrite Z.mod_small by (unfold sz in *; lia); lia].
    apply (po_zero _ _ _ _ _ _ _ _ Hp1); [apply in_pages_of; lia|apply Hfree, in_pages_of; lia].
Qed.

Definition tree_state (o : Z) (l0 : loader) (Y : gset Z) (l : loader) : Prop :=
  represents o (tree_words (Z.to_nat (STREE_SIZE o)) l) Y ∧ tree_frame (Z.to_nat (STREE_SIZE o)) l0 l.

Lemma setbit_one o l0 : order_ok o →
    sets_one o (tree_state o l0) true (@stree_setbit loader (tree_mem (Z.to_nat (STREE_SIZE o))) o).
Proof.
  intros Ho f Y l Hf [HR Hfr].
  destruct (@stree_setbit_refines loader (tree_mem _) (tree_mem_laws (Z.to_nat (STREE_SIZE o))) o f l Y Ho HR Hf)
    as (l' & Hr & HR' & Hfr'). exists l', ({[f]} ∪ Y). split; [done|].
  split; [split; [done|by apply tree_frame_trans with l]|].
  intros a. rewrite elem_of_union, elem_of_singleton. destruct (decide (a = f)); tauto.
Qed.

Lemma clrbit_one o l0 : order_ok o →
    sets_one o (tree_state o l0) false (@stree_clrbit loader (tree_mem (Z.to_nat (STREE_SIZE o))) o).
Proof.
  intros Ho f Y l Hf [HR Hfr].
  destruct (@stree_clrbit_refines loader (tree_mem _) (tree_mem_laws (Z.to_nat (STREE_SIZE o))) o f l Y Ho HR Hf)
    as (l' & Hr & HR' & Hfr'). exists l', (Y ∖ {[f]}). split; [done|].
  split; [split; [done|by apply tree_frame_trans with l]|].
  intros a. rewrite elem_of_difference, elem_of_singleton. split; [intros [? ?]; by right|intros [[_ ?]|[? ?]]; done].
Qed.

Definition is_ram (reg : region) : bool := reg_type reg =? BOOTINFO_REGION_RAM.
Definition free_ram (max a : Z) : Prop := in_regions is_ram memregions a ∧ a ≤ max ∧
    ¬ in_regions (λ reg, negb (is_ram reg)) memregions a.

Lemma represents_length o l Y : order_ok o → represents o (tree_words (Z.to_nat (STREE_SIZE o)) l) Y →
    Z.of_nat (length (tree_words (Z.to_nat (STREE_SIZE o)) l)) = STREE_SIZE o.
Proof.
  intros Ho [Hinv _]. pose proof (si_len _ _ Hinv) as Hl. pose proof (tree_size o Ho).
  set (n := Z.to_nat (STREE_SIZE o)) in *. destruct (tree_word n l 0) as (ws & _ & _ & Hws & _ & Hm & _); [lia|].
  apply mapM_Some_1, Forall2_length in Hm. rewrite length_fmap in Hm. rewrite <- Hm.
  unfold tree_walks in Hws. apply mapM_Some_1, Forall2_length in Hws. rewrite length_seqZ in Hws. unfold n in *. lia.
Qed.

Lemma va_stree_run X o pages l va size : boot_inv X pages (l_boot l) → stree_order (u32 maxrampfn) = Some o →
    order_ok o → tree_place X o pages (l_boot l) va → Forall (region_ok o (u32 maxrampfn)) memregions →
  ∃ pages' l' Y, va_stree va size l = Ret (tt, l') ∧ boot_inv X pages' (l_boot l') ∧
    minramaddr (l_boot l') = minramaddr (l_boot l) ∧ l_stree l' = (va + 16, o, 8 * STREE_SIZE o + 16) ∧
    tree_state o l' Y l' ∧ (∀ a, a ∈ Y ↔ free_ram (u32 maxrampfn) a).
Proof.
  intros Hi Hord Ho Htp Hreg. pose proof (tree_size o Ho) as Hsz. pose proof (tp_end _ _ _ _ _ Htp) as Hend.
  destruct (tp_va _ _ _ _ _ Htp) as (Hva & Hfl & Hv8). set (n := Z.to_nat (STREE_SIZE o)).
  assert (Z.of_nat n = STREE_SIZE o) as Hn by (unfold n; lia).
  destruct (tree_area X o pages (l_boot l) va Hi Ho Htp) as (s1 & pages2 & s2 & Hr1 & Hr2 & Hi2 & Hmin & Hz).
  unfold va_stree. cbn zeta. rewrite (bind_Ret _ _ _ _ _ (on_boot_run _ l _ _ (verify_run va _ Hfl))).
  rewrite Hord, bind_opt. cbn zeta.
  assert (u64 (8 * STREE_SIZE o + APXH_STREE_HDR) = 8 * STREE_SIZE o + 16) as -> by (apply Z.mod_small;
    change APXH_STREE_HDR with 16; lia). replace (set_boot (l_boot l) l) with l by (by destruct l).
  rewrite (bind_Ret _ _ _ _ _ (on_boot_run _ l _ _ Hr1)).
  change APXH_STREE_HDR with 16. rewrite (bind_Ret _ _ _ _ _ (on_boot_run _ (set_boot s1 l) _ _ Hr2)).
  rewrite bind_modify. assert (u64 (va + 16) = va + 16) as -> by (apply Z.mod_small; lia). set (l2 := set_stree _ _).
  assert (req_stree_va l2 = va + 16) as Hb2 by done. change (l_boot l2) with s2 in *.
  assert ((va + 16) `mod` 8 = 0) as Hb8 by (rewrite Z.add_mod, Hv8 by lia; done).
  assert (∀ i, 0 ≤ i < Z.of_nat n → is_Some (pages2 !! vpn (req_stree_va l2 + 8 * i))) as Hmap by (intros i Hin;
    rewrite Hb2; apply vbyte_some with s2 0, Hz; lia).
  destruct (tree_words_there D n0 lim X pages2 l2 n Hi2 ltac:(lia) ltac:(by rewrite Hb2) ltac:(lia) ltac:(lia) Hmap)
    as [Hlen Hwords].
  assert (tree_state o l2 ∅ l2) as HI2.
  { split; [|apply tree_frame_refl]. fold n. apply zero_tree_represents; [done|lia|]. apply Forall_lookup.
    intros k w Hk. pose proof (lookup_lt_Some _ _ _ Hk). rewrite Hwords in Hk by lia. rewrite Hb2 in Hk.
    rewrite (vword_zero X pages2 l2) in Hk; [congruence|done|rewrite Z.add_mod, Hb8, Z.mul_mod, Z.mod_same by lia;
      done|]. intros j Hj. apply Hz. lia. }
  destruct (regions_run o (tree_state o l2) true _ is_ram (u32 maxrampfn) memregions ∅ l2 (setbit_one o l2 Ho) Hreg
    HI2) as (l3 & Y3 & Hr3 & HI3 & Hs3).
  change (λ reg, when (is_ram reg) _) with (λ reg, when (reg_type reg =? BOOTINFO_REGION_RAM)
    (region_frames reg (u32 maxrampfn) (@stree_setbit loader (tree_mem n) o))) in Hr3.
  rewrite (bind_Ret _ _ _ _ _ Hr3).
  destruct (regions_run o (tree_state o l2) false _ (λ reg, negb (is_ram reg)) (u32 maxrampfn) memregions Y3 l3
    (clrbit_one o l2 Ho) Hreg HI3) as (l4 & Y4 & Hr4 & HI4 & Hs4).
  change (λ reg, when (negb (is_ram reg)) _) with (λ reg, when (negb (reg_type reg =? BOOTINFO_REGION_RAM))
    (region_frames reg (u32 maxrampfn) (@stree_clrbit loader (tree_mem n) o))) in Hr4.
  rewrite (bind_Ret _ _ _ _ _ Hr4).
  destruct HI4 as [HR4 Hf4]. fold n in HR4, Hf4.
  assert (req_stree_va l4 = va + 16) as Hb4 by (destruct Hf4 as (fs4 & -> & _); done).
  pose proof (represents_length o l4 Y4 Ho HR4) as Hl4. fold n in Hl4.
  exists pages2, (set_stree (va + 16, o, 8 * STREE_SIZE o + 16) l4), Y4. split; [unfold modify; by rewrite Hb4|].
  split; [|split; [destruct Hf4 as (fs4 & -> & _); exact Hmin|split; [done|split]]].
  - apply (tree_frame_inv X pages2 l2 l4 n); [done|lia|by rewrite Hb2|lia|lia|done|done|lia|].
    apply (represents_word64 o _ Y4 Ho HR4). lia.
  - split; [|apply tree_frame_refl]. fold n. replace (tree_words n (set_stree _ l4)) with (tree_words n l4); [done|].
    unfold tree_words, tree_walks.
    change (req_stree_va (set_stree (va + 16, o, 8 * STREE_SIZE o + 16) l4)) with (va + 16). by rewrite Hb4.
  - intros a. rewrite (Hs4 a), (Hs3 a). unfold free_ram.
    destruct (in_regions_dec is_ram memregions a), (in_regions_dec (λ reg, negb (is_ram reg)) memregions a),
      (Z.le_gt_cases a (u32 maxrampfn)); try (assert (¬ a ≤ u32 maxrampfn) by lia); set_solver.
Qed.

(** * The frames of the payload *)

Lemma land_bit_set b k : 0 ≤ k → negb (Z.land b (Z.shiftl 1 k) =? 0) = Z.testbit b k.
Proof.
  intros Hk. rewrite Z.shiftl_1_l. destruct (Z.testbit b k) eqn:E.
  - apply negb_true_iff, Z.eqb_neq. intros Hz.
    assert (Z.testbit (Z.land b (2 ^ k)) k = true) as Ht by (rewrite Z.land_spec, E, Z.pow2_bits_true by done; done).
    by rewrite Hz, Z.testbit_0_l in Ht.
  - apply negb_false_iff, Z.eqb_eq. apply Z.bits_inj'. intros i Hi.
    rewrite Z.land_spec, Z.testbit_0_l, Z.pow2_bits_eqb by done.
    destruct (Z.eqb_spec k i) as [->|]; [by rewrite E|apply andb_false_r].
Qed.

(** Where memory starts so that the loader finds the bits it has set. *)
Definition base_ok (s : boot) : Prop := (32768 | minramaddr s) ∧ 0 ≤ minramaddr s ∧ minramaddr s + BOOTMEM ≤ 2 ^ 32.

Lemma check_payload_page_run s f : base_ok s → length (boot_pagemap s) = Z.to_nat (BOOTMEM `div` (4096 * 8)) →
    minramaddr s ≤ 4096 * f < minramaddr s + BOOTMEM → check_payload_page (4096 * f) s = Ret (page_bit s f, s).
Proof.
  intros (Hal & Hm0 & H32) Hmap Hf. change BOOTMEM with 536870912 in *. pose proof (page_byte s f Hal) as Hbyte.
  unfold check_payload_page. rewrite bind_gets. cbn zeta.
  assert (u32 (4096 * f) = 4096 * f) as -> by (apply Z.mod_small; lia).
  assert (u64 (4096 * f - minramaddr s) = 4096 * f - minramaddr s) as -> by (apply Z.mod_small; lia).
  change PAGE_SHIFT with 12. rewrite !Z.shiftr_div_pow2 by lia. change (2 ^ 12) with 4096. change (2 ^ 3) with 8.
  set (i := (4096 * f - minramaddr s) `div` 4096).
  assert (0 ≤ i < 131072) as Hi by (unfold i; Z.div_mod_to_equations; lia).
  assert (u32 i = i) as -> by (apply Z.mod_small; lia).
  assert (i `div` 8 = (4096 * f - minramaddr s) `div` 32768) as Ei by (unfold i; rewrite Z.div_div by lia; done).
  rewrite bind_assert by (apply Z.leb_le; change ((BOOTMEM `div` 4096) `div` 8) with 16384; Z.div_mod_to_equations;
    lia). rewrite bind_gets.
  destruct (lookup_lt_is_Some_2 (boot_pagemap s) (Z.to_nat (i `div` 8))) as [b Hb];
    [rewrite Hmap; change (536870912 `div` (4096 * 8)) with 16384; Z.div_mod_to_equations; lia|].
  rewrite Hb, bind_opt. unfold mret, M_ret. do 2 f_equal. change 7 with (Z.ones 3). rewrite Z.land_ones by lia.
  change (2 ^ 3) with 8.
  rewrite land_bit_set by (by apply Z.mod_pos_bound). unfold page_bit.
  rewrite <- Ei, (list_lookup_total_correct _ _ _ Hb). f_equal. destruct Hal as [q Hq]. unfold i. rewrite Hq.
  replace (4096 * f - q * 32768) with ((f - q * 8) * 4096) by lia. rewrite Z.div_mul by lia.
  rewrite Zminus_mod, Z.mod_mul, Z.sub_0_r, Z.mod_mod by lia. done.
Qed.

Lemma boot_frames_run o l0 max Y l : order_ok o → base_ok (l_boot l0) →
    length (boot_pagemap (l_boot l0)) = Z.to_nat (BOOTMEM `div` (4096 * 8)) → tree_state o l0 Y l →
  (∀ f, minramaddr (l_boot l0) ≤ 4096 * f < minramaddr (l_boot l0) + BOOTMEM → page_bit (l_boot l0) f = true →
    f ≤ max → f < 2 ^ o) →
  ∃ l' Y', boot_frames max (@stree_clrbit loader (tree_mem (Z.to_nat (STREE_SIZE o))) o) l = Ret (tt, l') ∧
    tree_state o l0 Y' l' ∧
    sets false (λ a, (minramaddr (l_boot l0) ≤ 4096 * a < minramaddr (l_boot l0) + BOOTMEM ∧
      page_bit (l_boot l0) a = true) ∧ a ≤ max) Y Y'.
Proof.
  intros Ho Hbase Hmap HI Htree. pose proof Hbase as ([q Hq] & Hb0 & Hb32).
  assert (∀ Y l, tree_state o l0 Y l → minramaddr (l_boot l) = minramaddr (l_boot l0) ∧
    ∀ f, minramaddr (l_boot l0) ≤ 4096 * f < minramaddr (l_boot l0) + BOOTMEM →
    on_boot (check_payload_page (4096 * f)) l = Ret (page_bit (l_boot l0) f, l)) as Hchk.
  { clear HI Y l. intros Y l [_ (fs' & -> & _)]. split; [done|]. intros f Hf. unfold on_boot, zoom.
    rewrite (check_payload_page_run (l_boot (set_boot (set_fs fs' (l_boot l0)) l0)) f);
      [by destruct l0|done|done|done]. }
  destruct (Hchk Y l HI) as [Hml _]. unfold boot_frames. rewrite bind_gets.
  change ((minramaddr ∘ l_boot) l) with (minramaddr (l_boot l)). rewrite Hml.
  set (base := minramaddr (l_boot l0)) in *. clearbody base. subst base. change BOOTMEM with (4096 * 131072) in *.
  set (m := q * 8).
  match goal with |- context [for_find _ ?g] => set (f := g) end.
  assert (∀ (k : nat) j Y l, 0 ≤ j → j + Z.of_nat k ≤ 131072 → tree_state o l0 Y l →
    ∃ r l' Y', for_find (seqZ j (Z.of_nat k)) f l = Ret (r, l') ∧ tree_state o l0 Y' l' ∧
    sets false (λ a, (m + j ≤ a < m + j + Z.of_nat k ∧ page_bit (l_boot l0) a = true) ∧ a ≤ max) Y Y') as Hloop.
  { clear Y l HI Hml. induction k as [|k IH]; intros j Y l Hj Hk HI.
    - exists None, l, Y. split; [done|]. split; [done|]. apply (sets_ext false (λ _, False)); [|apply sets_none].
      intros a. split; [done|lia].
    - rewrite seqZ_cons by lia. cbn [for_find]. destruct (Hchk Y l HI) as [_ Hc].
      assert (f j l = if max <? m + j then Ret (Some tt, l) else
        (when (page_bit (l_boot l0) (m + j)) (@stree_clrbit loader (tree_mem (Z.to_nat (STREE_SIZE o))) o (m + j));;
        mret None) l) as Hfj.
      { unfold f. cbn zeta. change PAGE_SHIFT with 12. change PAGE_SIZE with 4096.
        replace (q * 32768 + j * 4096) with (4096 * (m + j)) by (unfold m; lia). rewrite Z.shiftr_div_pow2 by lia.
        change (2 ^ 12) with 4096. rewrite (Z.mul_comm 4096 (m + j)), Z.div_mul, (Z.mul_comm (m + j)) by lia.
        assert (u32 (m + j) = m + j) as -> by (apply Z.mod_small; unfold m; lia). destruct (max <? m + j); [done|].
        by rewrite (bind_Ret _ _ _ _ _ (Hc (m + j) ltac:(unfold m; lia))). }
      unfold mbind at 1, M_bind at 1. rewrite Hfj. destruct (Z.ltb_spec max (m + j)) as [Hm|Hm].
      + eexists _, l, Y. split; [reflexivity|]. split; [done|].
        apply (sets_ext false (λ _, False)); [|apply sets_none]. intros a. split; [done|lia].
      + assert (∃ l1 Y1, when (page_bit (l_boot l0) (m + j))
          (@stree_clrbit loader (tree_mem (Z.to_nat (STREE_SIZE o))) o (m + j)) l = Ret (tt, l1) ∧
          tree_state o l0 Y1 l1 ∧ sets false (λ a, a = m + j ∧ page_bit (l_boot l0) a = true) Y Y1)
          as (l1 & Y1 & Hr1 & HI1 & Hs1).
        { destruct (page_bit (l_boot l0) (m + j)) eqn:Ebit; cbn [when].
          - destruct (clrbit_one o l0 Ho (m + j) Y l) as (l1 & Y1 & Hr1 & HI1 & Hs1);
              [split; [unfold m; lia|apply Htree; [unfold m; lia|done|done]]|done|]. exists l1, Y1. split; [done|].
            split; [done|]. refine (sets_ext false _ _ Y Y1 _ Hs1). intros a. split; [by intros ->|by intros [? _]].
          - exists l, Y. split; [done|]. split; [done|]. apply (sets_ext false (λ _, False)); [|apply sets_none].
            intros a. split; [done|]. intros [-> ?]. congruence. }
        rewrite (bind_Ret _ _ _ _ _ Hr1). unfold mret at 1, M_ret at 1.
        replace (Z.pred (Z.of_nat (S k))) with (Z.of_nat k) by lia. replace (Z.succ j) with (j + 1) by lia.
        destruct (IH (j + 1) Y1 l1) as (r & l2 & Y2 & Hr2 & HI2 & Hs2); [lia|lia|done|]. exists r, l2, Y2.
        split; [done|]. split; [done|].
        refine (sets_ext false _ _ Y Y2 _ (sets_trans false _ _ Y Y1 Y2 _ Hs1 Hs2)); intros a; cbn beta;
          [|destruct (page_bit (l_boot l0) a); lia].
        destruct (page_bit (l_boot l0) a); [|split; [intros [[_ ?]|[[_ ?] _]]; done|intros [[_ ?] _]; done]]. lia. }
  destruct (Hloop (Z.to_nat 131072) 0 Y l) as (r & l' & Y' & Hr & HI' & Hs); [done|lia|done|]. exists l', Y'.
  change (4096 * 131072 `div` PAGE_SIZE) with (Z.of_nat (Z.to_nat 131072)).
  split; [by rewrite (bind_Ret _ _ _ _ _ Hr)|]. split; [done|]. refine (sets_ext false _ _ Y Y' _ Hs). intros a.
  rewrite Z2Nat.id by lia.
  unfold m. assert (q * 8 + 0 ≤ a < q * 8 + 0 + 131072 ↔ q * 32768 ≤ 4096 * a < q * 32768 + 4096 * 131072) as ->
    by lia. done.
Qed.

End stree.
