(* ===== verification/ApxhArch.v ===== *)
(** The two formats of the boot loader's page tables, and the CPUs that read them. *)

From S2P Require Import Prelude Words Locks Machine PageTable Apxh ApxhPt.

(** An address and flags in disjoint bits. *)
Section split.
Context (k n : Z) (Hk : 0 ≤ k) (Hn : 0 ≤ n).
Notation mask := (Z.shiftl (Z.ones n) k).

Lemma land_mask_addr f : 0 ≤ f < 2 ^ n → Z.land (Z.shiftl f k) mask = Z.shiftl f k.
Proof. intros Hf. rewrite <- Z.shiftl_land, Z.land_ones, Z.mod_small by done. done. Qed.

Lemma split_addr f fl : 0 ≤ f < 2 ^ n → Z.land fl mask = 0 → Z.land (Z.lor (Z.shiftl f k) fl) mask = Z.shiftl f k.
Proof. intros Hf Hfl. rewrite Z.land_lor_distr_l, land_mask_addr, Hfl by done. apply Z.lor_0_r. Qed.

Lemma split_flags f fl m : 0 ≤ f < 2 ^ n → Z.land mask m = 0 → Z.land fl m = fl → Z.land (Z.lor (Z.shiftl f k) fl) m = fl.
Proof. intros Hf Hm Hfl. rewrite Z.land_lor_distr_l, Hfl, <- (land_mask_addr f Hf), <- Z.land_assoc, Hm, Z.land_0_r.
  apply Z.lor_0_l. Qed.

Lemma mask_divide e : (2 ^ k | Z.land e mask).
Proof.
  assert (Z.land e mask = Z.shiftl (Z.land (Z.shiftr e k) (Z.ones n)) k) as ->;
    [|rewrite Z.shiftl_mul_pow2 by done; apply Z.divide_factor_r].
  apply Z.bits_inj'. intros i Hi. rewrite Z.land_spec, !Z.shiftl_spec by done.
  destruct (Z.lt_ge_cases i k); [by rewrite !(Z.testbit_neg_r _ (i - k)), andb_false_r by lia|].
  rewrite Z.land_spec, Z.shiftr_spec by lia. by replace (i - k + k) with i by lia.
Qed.
End split.

(** * amd64 *)

Section amd64.
Context (nx p1g : bool).

(** PS, bit 7. *)
#[export] Instance amd64_cpu : BootCpu := λ e, negb (Z.land e 128 =? 0).

#[local] Existing Instance pae64.

Lemma pae_mask : pae_addr_mask = Z.shiftl (Z.ones 51) 12.
Proof. done. Qed.

Lemma pae_shift f : pfn_ok f → u64 (Z.shiftl f PAGE_SHIFT) = Z.shiftl f 12 ∧ Z.shiftl f 12 = 4096 * f.
Proof. intros Hf. unfold pfn_ok in Hf. change PAGE_SHIFT with 12. rewrite Z.shiftl_mul_pow2 by lia.
  split; [apply Z.mod_small|]; lia. Qed.

Lemma pae_page_flags u w x : let fl := @page_flags (pae64 nx p1g) u w x in Z.land fl pae_addr_mask = 0 ∧
    Z.land fl (not64 pae_addr_mask) = fl ∧ Z.land fl 1 = 1.
Proof. by destruct u, w, x, nx. Qed.

Lemma land_small f fl m : Z.land (Z.shiftl (Z.ones 51) 12) m = 0 → pfn_ok f →
    Z.land (Z.lor (Z.shiftl f 12) fl) m = Z.land fl m.
Proof. intros Hm Hf. unfold pfn_ok in Hf. rewrite Z.land_lor_distr_l, <- (land_mask_addr 12 51) by lia.
  rewrite <- Z.land_assoc, Hm, Z.land_0_r. apply Z.lor_0_l. Qed.

#[export] Instance pae64_ok : @BootArchOk (pae64 nx p1g) amd64_cpu.
Proof.
  split.
  - intros f Hf. destruct (pae_shift f Hf) as [E1 E2]. cbn [mk_pte pae64 table_flags]. rewrite E1. split.
    + cbn. unfold pte_large, amd64_cpu. by rewrite !land_small by done.
    + cbn [pte_addr_bits pae64]. unfold pfn_ok in Hf. rewrite pae_mask, split_addr by first [done|lia]. exact E2.
  - intros f u w x Hf. destruct (pae_shift f Hf) as [E1 E2]. destruct (pae_page_flags u w x) as (F1 & F2 & F3).
    cbn [mk_pte pae64]. rewrite E1. set (fl := page_flags u w x) in *. unfold pfn_ok in Hf.
    split; [by rewrite land_small, F3|]. split.
    + cbn [pte_addr_bits pae64]. rewrite pae_mask, split_addr by first [done|lia]. exact E2.
    + cbn [pte_flag_bits pae64]. apply (split_flags 12 51); first [done|lia].
  - intros u w x u' w' x' s. by destruct u, w, x, u', w', x', nx.
  - intros e. cbn. rewrite pae_mask. by apply (mask_divide 12 51).
  - intros e. cbn. apply Z.land_nonneg. by right.
Qed.
End amd64.

(** * RISC-V *)

(** An entry with R, W or X is that of a page. *)
Definition riscv_cpu : BootCpu := λ e, negb (Z.land e 14 =? 0).

Lemma sv_mask : sv_addr_mask = Z.shiftl (Z.ones 53) 10.
Proof. done. Qed.

Lemma sv_shift f : pfn_ok f → u64 (Z.shiftl f 10) = Z.shiftl f 10 ∧ u64 (Z.shiftl (Z.shiftl f 10) 2) = 4096 * f.
Proof. intros Hf. unfold pfn_ok in Hf. rewrite Z.shiftl_shiftl by lia. rewrite !Z.shiftl_mul_pow2 by lia. unfold u64.
  rewrite !Z.mod_small by lia. split; [done|lia]. Qed.

Lemma sv_page_flags u w x : let fl := @page_flags sv48 u w x in Z.land fl sv_addr_mask = 0 ∧
    Z.land fl (not64 sv_addr_mask) = fl ∧ Z.land fl 1 = 1.
Proof. by destruct u, w, x. Qed.

#[export] Instance sv48_ok : @BootArchOk sv48 riscv_cpu.
Proof.
  assert (∀ f fl m, Z.land (Z.shiftl (Z.ones 53) 10) m = 0 → pfn_ok f →
    Z.land (Z.lor (Z.shiftl f 10) fl) m = Z.land fl m) as Hls.
  { intros f fl m Hm Hf. unfold pfn_ok in Hf. rewrite Z.land_lor_distr_l, <- (land_mask_addr 10 53) by lia.
    rewrite <- Z.land_assoc, Hm, Z.land_0_r. apply Z.lor_0_l. }
  split.
  - intros f Hf. destruct (sv_shift f Hf) as [E1 E2]. cbn [mk_pte sv48 table_flags]. rewrite E1. split.
    + cbn. unfold pte_large, riscv_cpu. by rewrite !Hls by done.
    + cbn [pte_addr_bits sv48]. unfold pfn_ok in Hf. rewrite sv_mask, split_addr by first [done|lia]. exact E2.
  - intros f u w x Hf. destruct (sv_shift f Hf) as [E1 E2]. destruct (sv_page_flags u w x) as (F1 & F2 & F3).
    cbn [mk_pte sv48]. rewrite E1. set (fl := page_flags u w x) in *. unfold pfn_ok in Hf.
    split; [by rewrite Hls, F3|]. split.
    + cbn [pte_addr_bits sv48]. rewrite sv_mask, split_addr by first [done|lia]. exact E2.
    + cbn [pte_flag_bits sv48]. apply (split_flags 10 53); first [done|lia].
  - intros u w x u' w' x' s. by destruct u, w, x, u', w', x'.
  - intros e. cbn. rewrite sv_mask. destruct (mask_divide 10 53 ltac:(lia) e) as [q ->].
    rewrite Z.shiftl_mul_pow2 by lia. replace (q * 2 ^ 10 * 2 ^ 2) with (q * 4096) by lia. unfold u64.
    change (2 ^ 64) with (2 ^ 52 * 4096). rewrite Z.mul_mod_distr_r by lia. apply Z.divide_factor_r.
  - intros e. cbn. by apply Z.mod_pos_bound.
Qed.
