(* ===== verification/ApxhExample.v ===== *)
(** A small machine that loads a small kernel and builds a small S-tree. *)

From stdpp Require Import sorting.
From S2P Require Import Prelude Words Locks Machine Hal PageTable Stree.
From S2P Require Import Apxh ApxhPt ApxhPages ApxhLoad ApxhCopy ApxhElf ApxhTree ApxhStree ApxhArch.

Module ApxhExample.

#[local] Instance example_arch : BootArch := pae64 true false.
#[local] Instance example_md : BootMd := {| memregions := [{| reg_type := 1; reg_len := 29; reg_pfn := 0 |};
    {| reg_type := 2; reg_len := 16; reg_pfn := 0 |}]; maxpfn := 29; maxrampfn := 29; pltdesc := None;
    md_floor := 0 |}.

(** Code, then two bytes of data at the end of a page and two of zeros in the next. *)
Definition text_ph : elf64ph := {| ph_type := PHT_LOAD; ph_flags := 5; ph_off := 176; ph_va := 0x400000;
    ph_fsize := 3; ph_msize := 3 |}.
Definition data_ph : elf64ph := {| ph_type := PHT_LOAD; ph_flags := 6; ph_off := 179; ph_va := 0x401ffe;
    ph_fsize := 2; ph_msize := 4 |}.

Definition ph_bytes (ph : elf64ph) : list Z :=
  le_bytes 4 (ph_type ph) ++ le_bytes 4 (ph_flags ph) ++ le_bytes 8 (ph_off ph) ++ le_bytes 8 (ph_va ph) ++ le_bytes
    8 0 ++ le_bytes 8 (ph_fsize ph) ++ le_bytes 8 (ph_msize ph) ++ le_bytes 8 4096.

Definition kernel : list Z :=
  elfid ++ replicate 12 0 ++ le_bytes 2 ET_EXEC ++ le_bytes 2 62 ++ le_bytes 4 EV_CURRENT ++ le_bytes 8 0x400000 ++
    le_bytes 8 64 ++ le_bytes 8 0 ++ le_bytes 4 0 ++ le_bytes 2 64 ++ le_bytes 2 56 ++ le_bytes 2 2 ++ replicate 6 0
    ++
  ph_bytes text_ph ++ ph_bytes data_ph ++ [0x90; 0xeb; 0xfe; 7; 8].

Lemma kernel_image : elf_image kernel 0x400000 [text_ph; data_ph].
Proof.
  split; [|done|done|done|].
  - apply Forall_forall. intros b Hb.
    assert (bool_decide (Forall (λ v, 0 ≤ v < 256) kernel) = true) as Hall by (vm_compute; reflexivity).
    apply bool_decide_eq_true in Hall. rewrite Forall_forall in Hall. by apply Hall.
  - exists 64, 2. done.
Qed.

Lemma kernel_arch : get_elf_arch kernel = Some ARCH_AMD64.
Proof. done. Qed.

Definition machine_frames : gmap Z (list Z) := list_to_map ((λ f, (f, zero_page)) <$> seqZ 16 13).

Definition machine : boot := Boot machine_frames 65536 0 (replicate (Z.to_nat 16384) 0) false 0.

Definition start : loader := Loader machine (0, 0) (0, 0) (0, 0, 0) (0, 0, 0) {| tls_va := 0; tls_initsize := 0;
    tls_size := 0 |} {| tls_va := 0; tls_initsize := 0; tls_size := 0 |} None.

Lemma machine_frame f : 16 ≤ f < 29 → machine_frames !! f = Some zero_page.
Proof.
  intros Hf. apply elem_of_list_to_map.
  - rewrite <- list_fmap_compose. rewrite (list_fmap_ext _ id) by done. rewrite list_fmap_id. apply NoDup_seqZ.
  - apply list_elem_of_fmap. exists f. split; [done|]. by apply elem_of_seqZ.
Qed.

Lemma machine_ram : ram_ok 16 29 machine.
Proof.
  split; [done|done| |done|apply length_replicate|split; [done|]; split; [done|by left]|].
  2: { intros _ f Hb. change (0 ≤ 4096 * f < 0 + 536870912) in Hb. change (next_pfn machine) with 16. split; [|lia].
       unfold page_bit. cbn [boot_pagemap machine minramaddr].
       rewrite lookup_total_replicate_2 by (Z.div_mod_to_equations; lia). by rewrite Z.testbit_0_l. }
  intros f Hf. assert (16 ≤ f < 29) as Hf' by (change (next_pfn machine) with 16 in Hf; lia). split; [cbn; lia|].
  exists zero_page. split; [by apply machine_frame|done].
Qed.

Lemma kernel_segs : Forall (seg_ok kernel) [text_ph; data_ph] ∧ Forall (window 0) [text_ph; data_ph] ∧
    StronglySorted before [text_ph; data_ph].
Proof.
  split; [repeat constructor; done|]. split; [repeat constructor; done|]. repeat constructor. unfold before. done.
Qed.


(** The same by running it: the last byte of the file, and the first of zeros. *)
Definition byte_at (va : Z) (l : loader) : option Z :=
  match getphys va (l_boot l) with Ret (p, _) => frame_byte (b_fs (l_boot l)) p | Abort _ => None end.

Lemma kernel_runs :
  match (on_boot pt_init;; load_elf64 kernel false) start with
  | Ret (e, l) => (e, byte_at 0x400001 l, byte_at 0x401fff l, byte_at 0x402000 l, byte_at 0x403000 l) = (0x400000,
    Some 0xeb, Some 8, Some 0, None)
  | Abort _ => False
  end.
Proof. vm_compute. reflexivity. Qed.

(** ** The S-tree *)

Definition rooted : loader := set_boot (with_root machine) start.

Lemma machine_room : room 29 13 machine.
Proof. vm_compute. repeat split; intros; discriminate. Qed.

Lemma machine_place : tree_place 29 anywhere 5 ∅ (l_boot rooted) 0x500000.
Proof.
  split; [done|vm_compute; intros; discriminate| |done]. exact (with_page_room 29 12 machine machine_room ltac:(lia)).
Qed.

Lemma machine_regions : Forall (region_ok 5 maxrampfn) memregions.
Proof. assert (∀ reg, reg ∈ memregions → reg_pfn reg = 0 ∧ 0 ≤ reg_len reg ≤ 29) as Hreg
    by (intros reg [->|[->|Hn%elem_of_nil]%elem_of_cons]%elem_of_cons; done). apply Forall_forall.
  intros reg [Hp Hl]%Hreg. unfold in_region. split; [lia|]. unfold in_region. cbn. intros f. lia. Qed.

Lemma machine_base : base_ok (l_boot rooted).
Proof. split; [by exists 0|done]. Qed.


End ApxhExample.
